(* ===== verification/_CoqProject ===== *)
-Q . S2P
Prelude.v
Text.v
SbiMessage.v
UeContext.v
N1N2Interface.v
NfManagement.v
AmfConfiguration.v
AmfState.v
AmfSm.v
AmfSpec.v
AmfProps.v
HttpSbiServer.v
HttpServer.v
Chunked.v
ChunkedProps.v
Balancer.v
ConsistentHash.v
BalancerSpec.v
BalancerProps.v
WrrProps.v
RingProps.v
RpcProtocol.v
RpcTransport.v
RpcServer.v
RpcProps.v
RpcConcurrent.v
MazeGraph.v
Maze.v
MazeProps.v
MazeSearch.v
MazeGame.v
MazeChase.v
MazeGameProps.v
HttpParser.v
HttpMessage.v
HttpStream.v
HttpRoundTrip.v
HttpProps.v
RoomManager.v
Json.v
ChatRoom.v
ChatServer.v
RoomProps.v
ChatProps.v
ChatInvariant.v
FtpProtocol.v
FtpDisk.v
FtpSession.v
FtpCommands.v
FtpProps.v
FtpTransfer.v
FtpClient.v
FtpLink.v
FtpServer.v
StdChatData.v
StdChatManagers.v
StdChatCodec.v
StdChatServer.v
StdChatProps.v
StdChatUse.v
StdChatShare.v
StdChatClient.v
StdChatStream.v
StdChatLink.v
MemPool.v
MemPoolChain.v
MemPoolVariable.v
MemPoolIndex.v
MemPoolFixed.v
MemPoolProps.v
StateMachine.v
TcpMachine.v
GameMachine.v
WsSha1.v
WsBase64.v
WebSocket.v
WebSocketProps.v
DelayQueue.v
PubSub.v
