(* ===== verification/Prelude.v ===== *)
(** * A verification library for ClionProjects

    The repository is a collection of C++ programs. This library models the ones
    whose own logic can be stated and checked, and proves what makes them correct,
    or shows precisely where they are not. File names below are relative to src/.

    ** The programs and how their parts interact

    1. The AMF of a 5G core (5gc/amf). [AmfSm] (src/AmfSm.cpp) is the centre: a UE
       state machine (deregistered, registered idle, registered connected) driven by
       events. Events come from SBI messages, which an HTTP front end
       (amf_http_server.cpp) or a simulated server (src/HttpServer.cpp) produces, and
       from NAS and NGAP messages (src/N1N2Interface.cpp). [AmfSm] calls four
       singletons: the UE context manager (src/UeContext.cpp), the N1/N2 interface,
       the NF registry and the AMF's own NF instance (src/NfManagement.cpp).
    2. The HTTP chunked transfer coding of zsxq-cpp-ai/StdHTTPS
       (src/chunked_encoder.cpp): encoder, streaming encoder, decoder state machine.
    3. The load balancer of zsxq-cpp-ai/Stdbalancing (include/): a registry of
       shared server objects and interchangeable selection policies.
    4. The remote procedure calls of zsxq-cpp-ai/StdRPC (include/): a serializer, a
       message format, framing over TCP, a server that dispatches to typed handlers,
       and a client whose threads share one connection and a receiver thread.
    5. The maze game of zsxq-cpp-ai/Stdmigong: a generator of random mazes with a
       search for shortest paths (MazeGenerator.cpp) and the game on top of it
       (MazeGame.cpp), in which a chaser finds its way to the player with A*.
    6. The HTTP messages of zsxq-cpp-ai/StdHTTPS: an incremental parser
       (src/http_parser.cpp) and request and response objects that build, print and
       parse messages with it (src/http_message.cpp).
    7. The server of the video chat (zsxq-cpp-ai/StdVideoChatRoom/src): a room manager
       (RoomManager.cpp), used by the WebSocket handler (WebSocketHandler.cpp), which
       joins clients to rooms and relays messages, and by the HTTPS server
       (ChatServer.cpp), which keeps the files of the rooms on disk.
    8. The FTP programs of zsxq-cpp-ai/StdFtp: sessions that carry out commands on files
       and move data over connections of their own (common/ftp_session.cpp), with the
       texts of the protocol (common/ftp_protocol.cpp), the server that gives each client
       a session (server/ftp_server.cpp) and the client (client/ftp_client.cpp).
    9. The terminal chat of zsxq-cpp-ai/StdChatRoom: messages, users and files as lines of
       text (Message.cpp, User.cpp, FileInfo.cpp), managers that keep users and files on
       disk (UserManager.cpp, FileManager.cpp), a server with a thread per client
       (ChatServer.cpp) and a client with a receiving thread (ChatClient.cpp).
   10. The memory pools of MemoryPool (core/): blocks of any size with headers between them,
       with and without an index, blocks of one size, a pool per thread, and the factory
       and allocator on top of them (utils/).
   11. The state machine of zsxq-cpp-ai/StdStateMachine: an engine that calls states, which
       call it back (state_machine.h), a TCP connection (protocol_example.cpp) and the
       character of a game (game_example.cpp).
   12. The WebSocket server of websocket/websocket: an event loop over TLS connections
       (network_interface.cpp), handlers that answer upgrades and read frames
       (websocket_handler.cpp, websocket_request.cpp), SHA-1, base64 and the log.
   13. The delay queue of zsxq-cpp-ai/Stddelay_queue: elements that threads may take when
       their time has come (delay_queue.hpp).
   14. Publish and subscribe (zsxq-cpp-ai/StdPubcpp): a queue of messages by priority,
       workers that distribute them to the subscribers of their topics, publishers.

    ** Files

    Prelude.v            effects, machine integers, ordered maps, lists, mutexes
    Text.v               the string functions of the C++ library that are used
    SbiMessage.v         SBI message data (include/SbiMessage.h, src/SbiMessage.cpp),
                         requests of the factory, UUIDs, printing
    UeContext.v          UE contexts and their manager (src/UeContext.cpp)
    N1N2Interface.v      NAS and NGAP messages and their manager
    NfManagement.v       NF registry, discovery, selection, heartbeat
    AmfConfiguration.v   configuration and its file format
    AmfState.v           the state of an AMF object: its members, the singletons it
                         points to, function-local statics, and the callback logs
    AmfSm.v              every member function of AmfSm
    AmfSpec.v            the abstract UE machine and the simulation
    AmfProps.v           message handling, start-up and statistics of the AMF
    HttpSbiServer.v      requests over HTTP (amf_http_server.cpp)
    HttpServer.v         the simulated server (src/HttpServer.cpp)
    Chunked.v            chunked coding; ChunkedProps.v its theorems
    Balancer.v           servers, registry, round robin, smooth weighted round robin,
                         least connections
    ConsistentHash.v     MurmurHash3 and the hash ring
    BalancerSpec.v       the interface every policy satisfies, and the registry
    BalancerProps.v      round robin and least connections
    WrrProps.v           smooth weighted round robin
    RingProps.v          consistent hashing
    RpcProtocol.v        serializer and message format (serializer.hpp, protocol.hpp)
    RpcTransport.v       messages over a connection (tcp_transport.hpp)
    RpcServer.v          handlers, dispatch, client (rpc_server.hpp, rpc_client.hpp),
                         and the steps of concurrent calls
    RpcProps.v           round trips, sessions, calls, lost messages
    RpcConcurrent.v      concurrent calls; reconnecting
    MazeGraph.v          paths, distances and trees on a grid
    Maze.v               cells, generation, breadth-first search (MazeGenerator.cpp)
    MazeProps.v          generated mazes; MazeSearch.v the searches
    MazeGame.v           the game and the chaser's A* (MazeGame.cpp)
    MazeChase.v          A*; MazeGameProps.v the game
    HttpParser.v         the incremental parser (http_parser.h, http_parser.cpp)
    HttpMessage.v        requests and responses (http_message.h, http_message.cpp)
    HttpStream.v         the parser as a function of the bytes fed so far
    HttpRoundTrip.v      printing and parsing start lines, headers and bodies
    HttpProps.v          the header multimap, messages and parser
    RoomManager.v        rooms, users, messages and files (RoomManager.cpp)
    Json.v               JSON values and when they can be printed (json.hpp)
    ChatRoom.v           WebSocket messages (Message.h, WebSocketHandler.cpp)
    ChatServer.v         files over HTTPS (ChatServer.cpp)
    RoomProps.v          the room manager; ChatProps.v what the handlers do
    ChatInvariant.v      all events of the chat server
    FtpProtocol.v        replies, command lines, addresses, listings (ftp_protocol.cpp)
    FtpDisk.v            files in memory, for examples
    FtpSession.v         sessions and their manager (ftp_session.cpp)
    FtpCommands.v        what each command does; FtpProps.v whole sessions
    FtpTransfer.v        transfers of files
    FtpClient.v          the client and its loop (ftp_client.cpp)
    FtpLink.v            client and server together
    FtpServer.v          the server program (ftp_server.cpp)
    StdChatData.v        messages, users, files and their text formats
    StdChatManagers.v    the user and the file manager; StdChatServer.v the server
    StdChatCodec.v       round trips; StdChatProps.v all events of the server
    StdChatUse.v         logging in and chatting; StdChatShare.v shared files
    StdChatClient.v      the client, both threads turn by turn (ChatClient.cpp)
    StdChatStream.v      what the client receives; StdChatLink.v clients and server
    MemPool.v            the pools, the wrapper, the factory
    MemPoolChain.v       the chain of blocks; MemPoolIndex.v the indexes
    MemPoolVariable.v    the pool that searches its chain; what a pool promises
    MemPoolFixed.v       blocks of one size; MemPoolProps.v threads and all pools
    StateMachine.v       float, Any, events, states and the engine (state_machine.h)
    TcpMachine.v         the TCP connection and its diagram
    GameMachine.v        the character of the game and the main loop
    WsSha1.v             SHA-1 (sha1.cpp), FIPS 180, and that they agree
    WsBase64.v           base64 (base64.cpp), with its round trip
    WebSocket.v          frames, handshake, log, event loop; WebSocketProps.v the server
    DelayQueue.v         the queue, its threads, the interface of std::priority_queue,
                         and its theorems
    PubSub.v             topics, workers, publishers, and their theorems

    ** How code becomes definitions

    A member function of a class with state [S] that returns [A] is a [cpp S A]: a
    function from the state to a [result], which is a normal return, an exception, a
    thread that waits for ever, or undefined behaviour. Uninitialised members and
    pointers, signed overflow and re-locking a [std::mutex] are therefore visible in
    theorems. Classes are records, enumerations are inductive types with the source's
    constructors, [std::map] is [gmap] iterated in key order ([map_ordered]),
    [std::unordered_map] is [gmap] only looked up, vectors are lists. Objects shared
    through [std::shared_ptr] live in a store (the servers of a balancer). Clock
    readings, random draws, measured durations and indeterminate values are arguments
    ([Env], [Junk], [Draw]). What is used of libraries is an interface with its laws and
    an instance: [StdSort] for [std::sort] (merge sort), [Shuffle] for [std::shuffle],
    [HashOrder] for the order of an [unordered_map], [FileSystem] for the disk of
    the chat server, [Unix] for the files of the FTP programs ([keeps_files] is what their
    theorems rely on; FtpDisk.v is an instance) and of the terminal chat, [Hasher] for
    [std::hash], [IMemoryPool] with its laws [LawfulPool] for pools, [PriorityQueue] for
    [std::priority_queue]; [Ops] are the calls that states may make of the state machine;
    [StartLine] is the virtual function of the HTTP parser. Console output is left out.

    ** What the theorems show

    AMF. [amf_refines_spec]: every run of events is a run of the abstract UE machine,
    with the stored context and all counters determined by it; no error, deadlock or
    overflow occurs in fewer than 2^30 - 2 events. [sbi_replies_correct],
    [nas_messages_correct] and [http_server_behaviour] lift this to SBI messages (with
    the exact replies), NAS and NGAP messages, and HTTP requests;
    [mock_server_answers] to the simulated server. These start from an AMF whose
    component pointers are attached. [initialize_deadlocks] and [uninitialised_amf]
    show that the code as it stands never gets there: [initialize] deadlocks, and
    the server program, which never calls it, reads uninitialised pointers.
    [http_request_roundtrip] and [configuration_roundtrip] are parsing round trips.
    UE contexts: [pdu_sessions_refine_map] (the session vector is a finite map),
    [cleanup_exact], [guti_lookup_never_succeeds]. NF registry:
    [registry_index_sound], [discovery_correct], [selection_optimal],
    [suspension_sticky], [deregister_leaves_statistics]. Reporting:
    [statistics_report], [periodic_updates_leak_connections],
    [documented_endpoints].

    Chunked coding. [chunked_roundtrip] and [stream_encoder_correct] are the round
    trips (termination included), [decoder_always_returns] says the decoder
    terminates on every input, [encoded_size_bound] that the size estimate suffices;
    [zero_chunk_size_diverges] and [decoder_rejects_split_after_data] are the limits.

    Load balancer. [balancer_sound] holds for every policy that satisfies
    [LawfulPolicy], which the four modelled ones do. [round_robin_cyclic],
    [least_connections_balanced] and [smooth_wrr_fair] are the fairness theorems
    (the last with the absence of overflow), [weight_info_correct] the weight
    summary, [ring_selects_clockwise] and [ring_minimal_disruption] the contract of
    consistent hashing.

    RPC. [serializer_roundtrip] and [rpc_message_roundtrip] are the codecs,
    [rpc_session_correct] says that a server answers the requests of a stream however
    TCP cuts it, [rpc_call_correct] that a typed call returns what the registered
    function returns. [rpc_no_crosstalk] is about all interleavings of client threads,
    receiver, server, timeouts and disconnection: every call gets its own answer.
    [rpc_timeout_loses_message] and [reconnect_behaviour] are the limits.

    Maze. [maze_perfect]: whatever the random generator does, the passages of a generated
    maze are a spanning tree, so two cells are joined by exactly one path, and walls
    agree from both sides. [shortest_path_correct]: both searches find the distance and a
    shortest path. [game_sound] is the invariant of the game over all events,
    [chaser_approaches] says that each step of the chaser brings it nearer, and
    [return_to_start_loses] is a defect.

    HTTP messages. [request_round_trip] and [response_round_trip]: a printed message
    parses to itself. [parse_streaming]: the result does not depend on how the input is
    cut, except for the cuts that [cut_line_end_loses_header] is about; [parse_total]: the
    parser returns on every input in a defined state. [headers_refine]: the header
    functions implement a map from names without case to lists.
    [constructors_well_formed]: the factory functions make messages that can be sent.
    [chunked_body_unread] is a defect.

    Video chat. [chat_server_sound]: over all events, of any clients, no handler fails and
    the rooms stay consistent, except for the one message that blocks the server for
    ever. [room_directory_exact]: the index maps say what the rooms say.
    [upload_download], [text_message_delivered], [history_is_latest] and
    [signalling_confined] are what the handlers do for their users;
    [anyone_can_remove_a_user] and [unprintable_name_spoils_room] are what they let
    clients do to others.

    FTP. [ftp_session_sound]: whatever a client sends and however connections fail, a
    session ends without an error, stays inside its directory, answers every command and
    leaves no socket open; [ftp_login_required]: without a login nothing can be reached.
    [ftp_store_retrieve] and [put_get_round_trip]: files come back as they were sent,
    seen from the server, and through client and server together; [login_agrees] is the
    same for logging in. [ftp_server_in_turn]: the server serves one client after the
    other. [active_mode_never_works], [cdup_never_works], [client_never_ends] and
    [failed_start_closes_twice] are defects.

    Terminal chat. [chat_sound]: whatever clients send, in whatever order, the server
    goes on, and the tables of users, sockets and files agree with each other.
    [login_on_both_sides], [public_message_delivered], [private_message_delivered] and
    [file_reaches_other_machine] are what users get, the last from what one user types to
    the bytes on another's disk; [client_reassembles]: how the network cuts the stream does
    not matter to the client. [message_round_trip], [users_persist] and
    [transfer_round_trip] are the text formats. [second_login_leaves_ghost],
    [any_server_file_readable], [line_end_forges_account], [empty_file_not_copied],
    [long_upload_refused] and [lost_server_terminates] are defects.

    Memory pools. [pools_reliable]: every pool that satisfies [LawfulPool], as all four do,
    hands out blocks that do not overlap and stay as they are until they come back.
    [indexed_allocation]: the index finds a block whenever there is one.
    [memory_comes_back]: when everything has come back the pool is whole again.
    [whole_pool_overruns], [small_block_lost], [given_back_twice],
    [other_thread_loses_block] and others are defects.

    State machine. [tcp_follows_diagram]: whatever is called on the connection, it goes
    through the phases of its diagram. [game_main_correct]: the game ends, for all random
    numbers and clocks, after at most 600 frames, with the health of the character between
    bounds. [demonstration_too_short], [messages_outlive_connection] and
    [stop_in_handler_undefined] are defects.

    WebSocket server. [sha1_correct]: the digest is that of FIPS 180, for input in any
    pieces. [base64_round_trip]. [websocket_server_refines]: any clients in any order get
    the answers of RFC 6455, and their frames are read as they were written;
    [rfc_example] is the exchange of the RFC. It starts from a server that listens;
    [server_never_starts] shows that the code does not get there.
    [failed_handshake_freed_twice], [long_text_overruns_log],
    [announced_length_overruns], [long_length_misread] and [empty_line_undefined] are the
    limits of what clients may do.

    Delay queue. [delay_queue_sound]: whatever threads do, no element is lost, taken twice,
    or taken more than a millisecond early, and those that are taken come in the order of
    their times; [shutdown_releases]: nobody waits for ever after a shutdown.
    [drain_complete]: draining leaves nothing that is ready. [taken_early],
    [gives_up_early] and [sleeper_misses_element] are defects.

    Publish and subscribe. [pubsub_sound]: whatever publishers, subscribers and workers do,
    each message is delivered once, to subscribers of its topic, urgent ones first.
    [round_robin_fair]: in turns everybody gets the same number of messages.
    [stop_hangs] is a defect.

    ** Fuel and bounds

    Loops that are not structural take fuel. [encode_body] and [write] are proved to
    finish with fuel linear in the input, [decode] takes the length of its input and
    is proved never to run out, [gcd] takes 64 turns, more than the 62 that
    non-negative [int]s need ([gcd_loop_correct]); running out of fuel is [None],
    [Undefined] or [Blocked], never a result. [to_hex] has the 16 digits of a
    [size_t]. The bound 2^30 - 2 on events keeps counters that grow by two per event
    below INT_MAX; the bound 2^31 - 1 on encoded messages is the [int] that [decode]
    returns. [receiveAll] takes as many turns as bytes are wanted, each receiving at
    least one. Request ids wrap at 2^32, so [rpc_no_crosstalk] is about fewer calls.
    The searches in a maze take as many turns as there are cells (A*: cells in the open
    set), the HTTP parser one turn more than there are bytes; both are proved to suffice.
    Sending a file takes one turn more than it has bytes; the loop of the FTP client has
    no bound, and [client_never_ends] is about every number of turns. The inner loop of
    the chat client takes one turn more than there are bytes ([drain_spec]). Loops over
    the chain of a memory pool take one turn per block and one more ([turns]). States call
    the engine, which calls states: [engine_ops] has a depth, two for the connection and
    three for the game, and a deeper call would be [Blocked]. Unmasking takes one turn more
    than the buffer has octets, padding one more than a block has, draining and clearing
    a queue as many as it has elements, the game one more than it has frames.

    ** What is not modelled

    Sockets, TLS, console output and timing. Threads are modelled where they matter: for
    the RPC client, the pool per thread, the delay queue and publish/subscribe; elsewhere
    concurrent calls are sequences of whole calls. Argument types [bool] and [const char*]
    of the RPC templates are left out. [double] values of the AMF's response-time
    statistics are rationals, and no theorem depends on them. The weighted and dynamic
    least-connections policies, which compare [double] ratios, are not modelled. Of the
    vendored libraries only the UTF-8 check of json.hpp is modelled. The remaining programs
    are ports of network libraries (mymuduo, ReactorHttp-Cpp), Boost and OpenSSL samples,
    packet replay, teaching containers (mystl), pattern demonstrations and generated code;
    they are not modelled.

    ** This file

    The effects of C++ code as a state and error monad with rules for normal return
    ([returns]), machine integers, ordered iteration over maps, list functions, mutexes,
    and the tactics the other files use. *)

From stdpp Require Export base gmap strings list fin_maps sorting.
From Stdlib Require Export ZArith Lia.

Local Open Scope Z_scope.

(** ** Effects of the C++ code

    A call on a mutable object of type [S] is a function [S -> result S A].
    [Ok] is a normal return with the new object state; [Throw] an exception
    that leaves the object in the given state; [Blocked] a thread that waits
    for ever (the state is the one in which it waits); [Undefined] undefined
    behaviour of the language, or a call of [std::terminate]. *)

Inductive result (S A : Type) : Type :=
  | Ok (a : A) (s : S)
  | Throw (e : string) (s : S)
  | Blocked (s : S)
  | Undefined (why : string).
Arguments Ok {S A} a s.
Arguments Throw {S A} e s.
Arguments Blocked {S A} s.
Arguments Undefined {S A} why.

Definition cpp (S A : Type) : Type := S -> result S A.

#[global] Instance cpp_ret S : MRet (cpp S) := fun A a s => Ok a s.

#[global] Instance cpp_bind S : MBind (cpp S) := fun A B k m s =>
  match m s with
  | Ok a s' => k a s'
  | Throw e s' => Throw e s'
  | Blocked s' => Blocked s'
  | Undefined why => Undefined why
  end.

Definition get {S} : cpp S S := fun s => Ok s s.
Definition gets {S A} (f : S -> A) : cpp S A := fun s => Ok (f s) s.
Definition modify {S} (f : S -> S) : cpp S unit := fun s => Ok tt (f s).
Definition throw {S A} (e : string) : cpp S A := fun s => Throw e s.
Definition block {S A} : cpp S A := fun s => Blocked s.
Definition undefined {S A} (why : string) : cpp S A := fun _ => Undefined why.

(** [for (x : l) body(x)]. *)
Fixpoint iterM {S A} (body : A -> cpp S unit) (l : list A) : cpp S unit :=
  match l with
  | [] => mret tt
  | x :: l' => body x ;; iterM body l'
  end.

Section monad_laws.
Context {S A B C : Type}.

Lemma bind_ret_l (a : A) (k : A -> cpp S B) s : (mret a ≫= k) s = k a s.
Proof. done. Qed.

Lemma bind_assoc (m : cpp S A) (k : A -> cpp S B) (h : B -> cpp S C) s :
  ((m ≫= k) ≫= h) s = (m ≫= (fun a => k a ≫= h)) s.
Proof. unfold mbind, cpp_bind. by destruct (m s). Qed.

Lemma bind_Ok (m : cpp S A) (k : A -> cpp S B) s a s' :
  m s = Ok a s' -> (m ≫= k) s = k a s'.
Proof. intros H. unfold mbind, cpp_bind. by rewrite H. Qed.

Lemma bind_inv_Ok (m : cpp S A) (k : A -> cpp S B) s b s' :
  (m ≫= k) s = Ok b s' -> exists a s1, m s = Ok a s1 /\ k a s1 = Ok b s'.
Proof. unfold mbind, cpp_bind. destruct (m s) eqn:E; naive_solver. Qed.
End monad_laws.

(** Running a list of commands one after the other. *)
Lemma iterM_app {S A} (body : A -> cpp S unit) l1 l2 s :
  iterM body (l1 ++ l2) s = (iterM body l1 ;; iterM body l2) s.
Proof.
  revert s. induction l1 as [|x l1 IH]; intros s; [done|].
  cbn [iterM app]. rewrite bind_assoc. unfold mbind, cpp_bind.
  destruct (body x s); [|done..]. by rewrite IH.
Qed.

(** An invariant that every iteration re-establishes holds at the end. *)
Lemma iterM_invariant_Forall {S A} (I : S -> Prop) (P : A -> Prop) (body : A -> cpp S unit) l :
  (forall x s, P x -> I s -> exists s', body x s = Ok tt s' /\ I s') ->
  Forall P l -> forall s, I s -> exists s', iterM body l s = Ok tt s' /\ I s'.
Proof.
  intros Hstep HP. induction HP as [|x l Hx HP IH]; intros s Hs; [by exists s|].
  destruct (Hstep x s Hx Hs) as (s1 & E1 & H1).
  destruct (IH s1 H1) as (s2 & E2 & H2).
  exists s2. split; [|done]. cbn [iterM]. by rewrite (bind_Ok _ _ _ _ _ E1).
Qed.

Lemma iterM_invariant {S A} (I : S -> Prop) (body : A -> cpp S unit) l :
  (forall x s, I s -> exists s', body x s = Ok tt s' /\ I s') ->
  forall s, I s -> exists s', iterM body l s = Ok tt s' /\ I s'.
Proof.
  intros Hstep. apply (iterM_invariant_Forall _ (fun _ => True)); [naive_solver|].
  by apply Forall_true.
Qed.

(** ** Machine integers *)

Definition u8_max : Z := 2 ^ 8.
Definition u16_max : Z := 2 ^ 16.
Definition u32_max : Z := 2 ^ 32.
Definition u64_max : Z := 2 ^ 64.
Definition INT_MAX : Z := 2 ^ 31 - 1.
Definition INT_MIN : Z := - 2 ^ 31.

(** Values of the type [int]. *)
Definition is_int (z : Z) : Prop := INT_MIN <= z <= INT_MAX.

(** Wrap-around of the unsigned types. *)
Definition wrap8 (z : Z) : Z := z `mod` u8_max.
Definition wrap16 (z : Z) : Z := z `mod` u16_max.
Definition wrap32 (z : Z) : Z := z `mod` u32_max.
Definition wrap64 (z : Z) : Z := z `mod` u64_max.

Lemma wrap32_small z : 0 <= z < 2 ^ 32 -> wrap32 z = z.
Proof. intros H. unfold wrap32, u32_max. by apply Z.mod_small. Qed.
Lemma wrap64_small z : 0 <= z < 2 ^ 64 -> wrap64 z = z.
Proof. intros H. unfold wrap64, u64_max. by apply Z.mod_small. Qed.

(** Conversion of a wider or unsigned value to [int] (two's complement). *)
Definition to_int (z : Z) : Z := (z + 2 ^ 31) `mod` 2 ^ 32 - 2 ^ 31.
Lemma to_int_small z : is_int z -> to_int z = z.
Proof. unfold is_int, to_int, INT_MIN, INT_MAX. intros H. rewrite Z.mod_small; lia. Qed.

(** ** Clocks: a time point of [std::chrono::system_clock] is a count of
    nanoseconds, and [duration_cast] truncates toward zero. *)
Abbreviation time_point := Z.
Definition seconds_between (now t : time_point) : Z := Z.quot (now - t) (10 ^ 9).
Definition minutes_between (now t : time_point) : Z := Z.quot (now - t) (60 * 10 ^ 9).

(** ** Ordered iteration over [std::map]

    A [std::map<K, V>] is a [gmap K V]; a range-based for loop visits the
    entries by increasing key. *)

Section ordered_iteration.
Context {K V : Type} `{Countable K} (R : relation K) `{!RelDecision R}.

Definition key_rel (a b : K * V) : Prop := R a.1 b.1.

#[global] Instance key_rel_dec a b : Decision (key_rel a b).
Proof. unfold key_rel. apply _. Defined.

Definition map_ordered (m : gmap K V) : list (K * V) :=
  merge_sort key_rel (map_to_list m).

Lemma elem_of_map_ordered m k v : (k, v) ∈ map_ordered m <-> m !! k = Some v.
Proof. unfold map_ordered. rewrite merge_sort_Permutation. apply elem_of_map_to_list. Qed.

Lemma map_ordered_perm m : map_ordered m ≡ₚ map_to_list m.
Proof. apply merge_sort_Permutation. Qed.

Lemma NoDup_keys_map_ordered m : NoDup (map_ordered m).*1.
Proof.
  rewrite (fmap_Permutation fst _ _ (map_ordered_perm m)).
  apply NoDup_fst_map_to_list.
Qed.

Lemma length_map_ordered m : length (map_ordered m) = size m.
Proof. rewrite map_ordered_perm. apply length_map_to_list. Qed.

Lemma map_ordered_sorted m : Transitive R -> Total R ->
  StronglySorted key_rel (map_ordered m).
Proof.
  intros HT HO. apply StronglySorted_merge_sort.
  - intros a b c. unfold key_rel. apply HT.
  - intros a b. apply HO.
Qed.
End ordered_iteration.

(** [std::map<std::string, V>]: keys compare byte by byte. *)
Abbreviation string_map_ordered := (map_ordered String.le).

(** ** Lists *)

(** [std::find_if] followed by an assignment through the iterator. *)
Fixpoint replace_first {A} (p : A -> bool) (x : A) (l : list A) : list A :=
  match l with
  | [] => []
  | y :: l' => if p y then x :: l' else y :: replace_first p x l'
  end.

(** [erase(find_if(p))]. *)
Fixpoint erase_first {A} (p : A -> bool) (l : list A) : list A :=
  match l with
  | [] => []
  | y :: l' => if p y then l' else y :: erase_first p l'
  end.

(** [std::find_if]. *)
Fixpoint find_first {A} (p : A -> bool) (l : list A) : option A :=
  match l with
  | [] => None
  | y :: l' => if p y then Some y else find_first p l'
  end.

Lemma find_first_Some {A} (p : A -> bool) l x :
  find_first p l = Some x -> x ∈ l /\ p x = true.
Proof.
  induction l as [|y l IH]; [done|]. cbn. destruct (p y) eqn:E.
  - intros [= ->]. split; [by left|done].
  - intros Hx. destruct (IH Hx). split; [by right|done].
Qed.

Lemma find_first_None {A} (p : A -> bool) l :
  find_first p l = None <-> (forall x, x ∈ l -> p x = false).
Proof.
  induction l as [|y l IH]; cbn; [by split; [intros _ x Hx; inv Hx|]|].
  destruct (p y) eqn:E.
  - split; [done|]. intros Hall. rewrite (Hall y) in E; [done|by left].
  - rewrite IH. setoid_rewrite elem_of_cons. split.
    + intros Hl x [->|Hx]; auto.
    + intros Hl x Hx. apply Hl. by right.
Qed.

Lemma existsb_elem {A} (p : A -> bool) l :
  existsb p l = true <-> exists x, x ∈ l /\ p x = true.
Proof. rewrite existsb_exists. setoid_rewrite <-list_elem_of_In. done. Qed.

Lemma StronglySorted_lookup {A} (R : relation A) l (i j : nat) x y :
  StronglySorted R l -> l !! i = Some x -> l !! j = Some y -> (i < j)%nat -> R x y.
Proof.
  intros HS. revert i j. induction HS as [|z l HS IH HF]; intros i j; [done|].
  destruct i, j; cbn; intros Hx Hy Hij; try lia.
  - simplify_eq. rewrite Forall_forall in HF. apply HF. by eapply list_elem_of_lookup_2.
  - eapply IH; [done..|lia].
Qed.

(** Nested tests with the same outcome are one test. *)
Lemma if_decide_or {A} (P Q R : Prop) `{Decision P, Decision Q, Decision R} (x y : A) :
  (R <-> P \/ Q) ->
  (if decide R then x else y) = (if decide P then x else if decide Q then x else y).
Proof. intros HR. repeat case_decide; tauto. Qed.

(** ** Proof automation

    [cpp_step] evaluates a monadic call whose sub-calls are in the context as
    equations or reduce by computation. *)
Ltac cpp_step :=
  repeat match goal with
  | H : ?m ?s = Ok _ _ |- context [(mbind _ ?m) ?s] => rewrite (bind_Ok _ _ _ _ _ H)
  | |- context [(mbind ?k (mret ?a)) ?s] => change ((mbind k (mret a)) s) with (k a s); cbv beta
  end.

(** Splits conjunctions and existentials of the context and substitutes. *)
Ltac inv_ok :=
  repeat match goal with
  | H : Ok _ _ = Ok _ _ |- _ => injection H as; subst
  | H : Throw _ _ = Ok _ _ |- _ => discriminate H
  | H : Blocked _ = Ok _ _ |- _ => discriminate H
  | H : Undefined _ = Ok _ _ |- _ => discriminate H
  | H : exists _, _ |- _ => destruct H
  | H : _ /\ _ |- _ => destruct H
  end.

(** [returns m s Q]: the call [m] in state [s] returns normally, with a value
    and a state that satisfy [Q]. *)
Definition returns {S A} (m : cpp S A) (s : S) (Q : A -> S -> Prop) : Prop :=
  exists a s', m s = Ok a s' /\ Q a s'.

Section returns_rules.
Context {S A B : Type}.
Implicit Types (m : cpp S A) (s : S).

Lemma returns_ret (a : A) s (Q : A -> S -> Prop) : Q a s -> returns (mret a) s Q.
Proof. intros HQ. by exists a, s. Qed.

Lemma returns_bind m (k : A -> cpp S B) s (Q : B -> S -> Prop) :
  returns m s (fun a s' => returns (k a) s' Q) -> returns (m ≫= k) s Q.
Proof. intros (a & s' & E & HQ). unfold returns. by rewrite (bind_Ok _ _ _ _ _ E). Qed.

Lemma returns_gets (f : S -> A) s (Q : A -> S -> Prop) : Q (f s) s -> returns (gets f) s Q.
Proof. intros HQ. by eexists _, _. Qed.

Lemma returns_modify (f : S -> S) s (Q : unit -> S -> Prop) : Q tt (f s) -> returns (modify f) s Q.
Proof. intros HQ. by eexists _, _. Qed.

Lemma returns_mono m s (Q Q' : A -> S -> Prop) :
  returns m s Q -> (forall a s', Q a s' -> Q' a s') -> returns m s Q'.
Proof. intros (a & s' & E & HQ) HQQ. exists a, s'. auto. Qed.

Lemma returns_Ok m s a s' (Q : A -> S -> Prop) : m s = Ok a s' -> Q a s' -> returns m s Q.
Proof. intros E HQ. by exists a, s'. Qed.
End returns_rules.

(** A loop preserves an invariant indexed by the iterations done so far. *)
Lemma returns_iterM {S A} (I : list A -> S -> Prop) (body : A -> cpp S unit) l :
  (forall pre x rest s, l = pre ++ x :: rest -> I pre s ->
     returns (body x) s (fun _ s' => I (pre ++ [x]) s')) ->
  forall s, I [] s -> returns (iterM body l) s (fun _ s' => I l s').
Proof.
  intros Hstep. cut (forall rest pre s, l = pre ++ rest -> I pre s ->
                       returns (iterM body rest) s (fun _ s' => I l s')).
  { intros H s Hs. by apply (H l []). }
  induction rest as [|x rest IH]; intros pre s E HI.
  - rewrite app_nil_r in E. subst. by apply returns_ret.
  - apply returns_bind. eapply returns_mono; [by eapply Hstep|].
    intros [] s' HI'. apply (IH (pre ++ [x])); [|done]. by rewrite <-app_assoc.
Qed.

(** [wp_step] applies the rule for the head of a [returns] goal. *)
Ltac wp_step :=
  match goal with
  | |- returns (mbind _ _) _ _ => apply returns_bind
  | |- returns (mret _) _ _ => apply returns_ret
  | |- returns (gets _) _ _ => apply returns_gets
  | |- returns (modify _) _ _ => apply returns_modify
  end; cbv beta.

Create HintDb cpp.
#[export] Hint Resolve bind_Ok returns_ret : cpp.

(** ** Mutexes

    [std::lock_guard<std::mutex>]: the calling thread waits for ever when it
    already owns the (non-recursive) mutex; otherwise the mutex is held while
    the rest of the scope runs and released on return and on exceptions. The
    flag of the state says whether the calling thread owns the mutex. *)
Definition lock_guard {S A} (held : S -> bool) (set_held : bool -> S -> S)
    (body : cpp S A) : cpp S A := fun s =>
  if held s then Blocked s
  else match body (set_held true s) with
       | Ok a s' => Ok a (set_held false s')
       | Throw e s' => Throw e (set_held false s')
       | Blocked s' => Blocked s'
       | Undefined why => Undefined why
       end.

Lemma lock_guard_reentrant {S A} held set_held (body : cpp S A) s :
  held s = true -> lock_guard held set_held body s = Blocked s.
Proof. intros H. unfold lock_guard. by rewrite H. Qed.

Lemma lock_guard_free {S A} held set_held (body : cpp S A) s a s' :
  held s = false -> body (set_held true s) = Ok a s' ->
  lock_guard held set_held body s = Ok a (set_held false s').
Proof. intros H E. unfold lock_guard. by rewrite H, E. Qed.

(** ** Indeterminate values

    A member of fundamental type that no constructor initialises holds
    whatever the memory held: the model reads it from a [Junk]. *)
Record Junk : Set := mkJunk { junk_int : Z; junk_bool : bool }.
Definition sample_junk : Junk := mkJunk 0 false.

(** The unspecified order in which an [unordered_map] or [unordered_set] is visited. *)
Class HashOrder : Type := {
  hash_order {A} : gmap string A -> list (string * A);
  hash_order_perm {A} (m : gmap string A) : hash_order m ≡ₚ map_to_list m;
  set_order : gset string -> list string;
  set_order_perm (X : gset string) : set_order X ≡ₚ elements X }.

(** One such order. *)
Definition list_hash_order : HashOrder.
Proof. by refine {| hash_order A m := map_to_list m; set_order X := elements X |}. Defined.

(** ** [std::sort]

    Sorts by a strict weak order; the relative order of equivalent elements is
    unspecified, so clients see only this interface. *)
Class StdSort {A : Type} (less : A -> A -> bool) : Type := {
  std_sort : list A -> list A;
  std_sort_perm : forall l, std_sort l ≡ₚ l;
  std_sort_sorted : forall l, StronglySorted (fun a b => less b a = false) (std_sort l);
}.
Arguments std_sort {A} less {_} _.

(** Merge sort is one implementation, for a comparison that is total and
    transitive in the negative form. *)
Section merge_sort_instance.
Context {A : Type} (less : A -> A -> bool).
Hypothesis less_asym : forall a b, less a b = true -> less b a = false.
Hypothesis less_neg_trans :
  forall a b c, less b a = false -> less c b = false -> less c a = false.

#[local] Instance not_less_dec a b : Decision (less b a = false).
Proof. apply _. Defined.

Definition merge_sort_std_sort : StdSort less.
Proof.
  refine {| std_sort := merge_sort (fun a b => less b a = false) |}.
  - apply merge_sort_Permutation.
  - intros l. apply StronglySorted_merge_sort.
    + intros a b c. apply less_neg_trans.
    + intros a b. destruct (less b a) eqn:E; [right; by apply less_asym|by left].
Defined.
End merge_sort_instance.
