(* ===== verification/Text.v ===== *)
(** * Text: the string functions of the C++ standard library that the code uses

    [std::getline], [operator>>] on words, [find], trimming loops, [std::stoi] and
    [std::to_string], with the lemmas that make printed text parse back. *)

From Stdlib Require Import DecimalString DecimalFacts DecimalZ Ascii.
From S2P Require Import Prelude.

Local Open Scope string_scope.

Definition nl : ascii := "010"%char.
Definition cr : ascii := "013"%char.
Definition tab : ascii := "009"%char.
Definition crlf : string := String cr (String nl EmptyString).

Definition char_eqb (a b : ascii) : bool := Ascii.eqb a b.

(** [std::isspace] in the C locale. *)
Definition is_space (c : ascii) : bool :=
  char_eqb c " " || char_eqb c tab || char_eqb c nl || char_eqb c "011" || char_eqb c "012"
  || char_eqb c cr.

Definition is_digit (c : ascii) : bool :=
  let n := nat_of_ascii c in Nat.leb 48 n && Nat.leb n 57.

(** Every character satisfies [p]. *)
Fixpoint sforall (p : ascii -> bool) (s : string) : bool :=
  match s with EmptyString => true | String c s' => p c && sforall p s' end.

Definition no_char (c : ascii) (s : string) : bool := sforall (fun x => negb (char_eqb x c)) s.

(** The results of calling [std::getline] until it fails. *)
Fixpoint lines (s : string) : list string :=
  match s with
  | EmptyString => []
  | String c s' =>
      if char_eqb c nl then EmptyString :: lines s'
      else match lines s' with
           | [] => [String c EmptyString]
           | l :: ls => String c l :: ls
           end
  end.

(** The same with another delimiter. *)
Fixpoint getlines (d : ascii) (s : string) : list string :=
  match s with
  | EmptyString => []
  | String c s' =>
      if char_eqb c d then EmptyString :: getlines d s'
      else match getlines d s' with
           | [] => [String c EmptyString]
           | l :: ls => String c l :: ls
           end
  end.

(** [s.find(c)] with the two [substr]s around it. *)
Fixpoint split_at (c : ascii) (s : string) : option (string * string) :=
  match s with
  | EmptyString => None
  | String x s' =>
      if char_eqb x c then Some (EmptyString, s')
      else match split_at c s' with
           | Some (a, b) => Some (String x a, b)
           | None => None
           end
  end.

(** Removing characters from the front and from the back. *)
Fixpoint lstrip (p : ascii -> bool) (s : string) : string :=
  match s with
  | EmptyString => EmptyString
  | String c s' => if p c then lstrip p s' else s
  end.

Fixpoint rstrip (p : ascii -> bool) (s : string) : string :=
  match s with
  | EmptyString => EmptyString
  | String c s' =>
      match rstrip p s' with
      | EmptyString => if p c then EmptyString else String c EmptyString
      | r => String c r
      end
  end.

(** [s.find(sub) != npos]. *)
Definition contains (sub s : string) : bool :=
  match String.index 0 sub s with Some _ => true | None => false end.

(** The longest prefix whose characters satisfy [p], and the rest. *)
Fixpoint span (p : ascii -> bool) (s : string) : string * string :=
  match s with
  | EmptyString => (EmptyString, EmptyString)
  | String c s' =>
      if p c then let '(a, b) := span p s' in (String c a, b) else (EmptyString, s)
  end.

(** [stream >> word]: a failed extraction leaves the word empty. *)
Definition next_word (s : string) : string * string :=
  span (fun c => negb (is_space c)) (lstrip is_space s).

Definition to_string (z : Z) : string := NilZero.string_of_int (Z.to_int z).

(** [std::stoi]: leading white space, an optional sign, digits; the rest is
    ignored. The error is the exception thrown. *)
Definition stoi (s : string) : string + Z :=
  let s := lstrip is_space s in
  let '(sign, s) := match s with
                    | String c s' => if char_eqb c "-" then ((-1)%Z, s')
                                     else if char_eqb c "+" then (1%Z, s') else (1%Z, s)
                    | EmptyString => (1%Z, s)
                    end in
  match NilZero.uint_of_string (span is_digit s).1 with
  | None => inl "std::invalid_argument"
  | Some d =>
      let v := (sign * Z.of_uint d)%Z in
      if bool_decide (is_int v) then inr v else inl "std::out_of_range"
  end.

(** [std::tolower] and [std::toupper] of the C locale, and [std::transform] with them. *)
Definition tolower (c : ascii) : ascii :=
  let n := nat_of_ascii c in if Nat.leb 65 n && Nat.leb n 90 then ascii_of_nat (n + 32) else c.
Definition toupper (c : ascii) : ascii :=
  let n := nat_of_ascii c in if Nat.leb 97 n && Nat.leb n 122 then ascii_of_nat (n - 32) else c.

Fixpoint map_string (f : ascii -> ascii) (s : string) : string :=
  match s with EmptyString => EmptyString | String c s' => String (f c) (map_string f s') end.

(** ** Lemmas *)

Lemma app_cons c s t : (String c s +:+ t) = String c (s +:+ t).
Proof. done. Qed.
Lemma app_empty_l t : ("" +:+ t) = t.
Proof. done. Qed.
Lemma sapp_assoc (a b c : string) : ((a +:+ b) +:+ c) = (a +:+ b +:+ c).
Proof. induction a as [|x a IH]; [done|]. rewrite !app_cons. by rewrite IH. Qed.
Lemma sapp_nil_r (a : string) : (a +:+ "") = a.
Proof. induction a as [|x a IH]; [done|]. rewrite app_cons. by rewrite IH. Qed.

Lemma sforall_app p a b : sforall p (a +:+ b) = sforall p a && sforall p b.
Proof. induction a as [|c a IH]; [done|]. rewrite app_cons. cbn. by rewrite IH, andb_assoc. Qed.

Lemma sforall_impl (p q : ascii -> bool) s :
  (forall c, p c = true -> q c = true) -> sforall p s = true -> sforall q s = true.
Proof.
  intros Hpq. induction s as [|c s IH]; [done|]. cbn. rewrite !andb_true_iff. naive_solver.
Qed.

Lemma no_char_cons x c s : no_char x (String c s) = true <-> c <> x /\ no_char x s = true.
Proof.
  unfold no_char. cbn. rewrite andb_true_iff, negb_true_iff. unfold char_eqb.
  by rewrite Ascii.eqb_neq.
Qed.

Lemma no_char_app x a b : no_char x (a +:+ b) = no_char x a && no_char x b.
Proof. apply sforall_app. Qed.

Lemma slength_app a b : String.length (a +:+ b) = (String.length a + String.length b)%nat.
Proof. induction a as [|c a IH]; [done|]. rewrite app_cons. cbn. by rewrite IH. Qed.

Lemma substring_all b m : (String.length b <= m)%nat -> String.substring 0 m b = b.
Proof.
  revert m. induction b as [|c b IH]; intros [|m] Hm; cbn in *; [done|done|lia|]. by rewrite IH by lia.
Qed.

Lemma substring_skip a b m : String.substring (String.length a) m (a +:+ b) = String.substring 0 m b.
Proof. induction a as [|c a IH]; [done|]. exact IH. Qed.

Lemma lines_app l rest : no_char nl l = true -> lines (l +:+ String nl rest) = l :: lines rest.
Proof.
  induction l as [|c l IH]; [done|]. intros [Hc Hl]%no_char_cons.
  rewrite app_cons. cbn. unfold char_eqb. apply Ascii.eqb_neq in Hc as ->. by rewrite IH.
Qed.

Lemma lines_single l : no_char nl l = true -> l <> "" -> lines l = [l].
Proof.
  induction l as [|c l IH]; [done|]. intros [Hc Hl]%no_char_cons _. cbn. unfold char_eqb.
  apply Ascii.eqb_neq in Hc as ->. destruct l as [|d l]; [done|]. by rewrite IH.
Qed.

Lemma getlines_app d l rest : no_char d l = true -> getlines d (l +:+ String d rest) = l :: getlines d rest.
Proof.
  induction l as [|c l IH].
  - intros _. rewrite app_empty_l. cbn. unfold char_eqb. by rewrite Ascii.eqb_refl.
  - intros [Hc Hl]%no_char_cons. rewrite app_cons. cbn. unfold char_eqb. apply Ascii.eqb_neq in Hc as ->. by rewrite IH.
Qed.

Lemma getlines_single d l : no_char d l = true -> l <> "" -> getlines d l = [l].
Proof.
  induction l as [|c l IH]; [done|]. intros [Hc Hl]%no_char_cons _. cbn. unfold char_eqb.
  apply Ascii.eqb_neq in Hc as ->. destruct l as [|c' l]; [done|]. by rewrite IH.
Qed.

Lemma split_at_app c k v : no_char c k = true -> split_at c (k +:+ String c v) = Some (k, v).
Proof.
  induction k as [|x k IH].
  - intros _. rewrite app_empty_l. cbn. unfold char_eqb. by rewrite Ascii.eqb_refl.
  - intros [Hx Hk]%no_char_cons. rewrite app_cons. cbn. unfold char_eqb.
    apply Ascii.eqb_neq in Hx as ->. by rewrite IH.
Qed.

Lemma split_at_none c k : no_char c k = true -> split_at c k = None.
Proof.
  induction k as [|x k IH]; [done|]. intros [Hx Hk]%no_char_cons. cbn. unfold char_eqb.
  apply Ascii.eqb_neq in Hx as ->. by rewrite IH.
Qed.

(** The first and last character, if any, fail [p]. *)
Definition head_not (p : ascii -> bool) (s : string) : bool :=
  match s with EmptyString => true | String c _ => negb (p c) end.
Fixpoint last_not (p : ascii -> bool) (s : string) : bool :=
  match s with
  | EmptyString => true
  | String c EmptyString => negb (p c)
  | String _ s' => last_not p s'
  end.

Lemma last_not_app p a b : b <> "" -> last_not p (a +:+ b) = last_not p b.
Proof.
  intros Hb. induction a as [|c a IH]; [done|]. rewrite app_cons. cbn. rewrite IH. destruct (a +:+ b) eqn:E; [|done].
  destruct a; [by subst|done].
Qed.

Lemma head_not_app p a b : a <> "" -> head_not p (a +:+ b) = head_not p a.
Proof. by destruct a. Qed.

Lemma lstrip_id p s : head_not p s = true -> lstrip p s = s.
Proof. destruct s as [|c s]; [done|]. cbn. by rewrite negb_true_iff; intros ->. Qed.

Lemma rstrip_all p s : sforall p s = true -> rstrip p s = "".
Proof.
  induction s as [|c s IH]; [done|]. cbn. rewrite andb_true_iff. intros [Hc Hs].
  by rewrite IH, Hc.
Qed.

Lemma rstrip_app p s t : last_not p s = true -> sforall p t = true -> rstrip p (s +:+ t) = s.
Proof.
  intros Hs Ht. induction s as [|c s IH]; [by apply rstrip_all|].
  rewrite app_cons. cbn. destruct s as [|d s].
  - rewrite app_empty_l, rstrip_all by done. cbn in Hs. apply negb_true_iff in Hs. by rewrite Hs.
  - rewrite IH by done. done.
Qed.

Lemma rstrip_id p s : last_not p s = true -> rstrip p s = s.
Proof. intros Hs. rewrite <-(sapp_nil_r s) at 1. by apply rstrip_app. Qed.

Lemma span_app p a b :
  sforall p a = true -> head_not p b = true -> span p (a +:+ b) = (a, b).
Proof.
  intros Ha Hb. induction a as [|c a IH].
  - rewrite app_empty_l. destruct b as [|d b]; [done|]. cbn in Hb |- *.
    apply negb_true_iff in Hb. by rewrite Hb.
  - cbn in Ha. apply andb_true_iff in Ha as [Hc Ha]. rewrite app_cons. cbn.
    by rewrite Hc, IH.
Qed.

Lemma span_all p a : sforall p a = true -> span p a = (a, "").
Proof. intros Ha. rewrite <-(sapp_nil_r a) at 1. by apply span_app. Qed.

(** A non-empty word followed by a space is extracted whole. *)
Lemma next_word_app w rest :
  sforall (fun c => negb (is_space c)) w = true -> w <> "" ->
  head_not (fun c => negb (is_space c)) rest = true ->
  next_word (w +:+ rest) = (w, rest).
Proof.
  intros Hw Hne Hr. unfold next_word. rewrite lstrip_id; [by apply span_app|].
  destruct w as [|c w]; [done|]. cbn in Hw |- *. by apply andb_true_iff in Hw as [? _].
Qed.

Lemma next_word_skip c rest : is_space c = true -> next_word (String c rest) = next_word rest.
Proof. intros Hc. unfold next_word. cbn. by rewrite Hc. Qed.

(** ** Numbers print and parse back *)

Lemma string_of_uint_digits d : sforall is_digit (NilEmpty.string_of_uint d) = true.
Proof. induction d; cbn; done. Qed.

Lemma nilzero_digits d : sforall is_digit (NilZero.string_of_uint d) = true.
Proof. destruct d; [done|..]; apply string_of_uint_digits. Qed.

Lemma digit_not_space c : is_digit c = true -> is_space c = false.
Proof. destruct c as [[] [] [] [] [] [] [] []]; by vm_compute. Qed.
Lemma digit_not_sign c : is_digit c = true -> char_eqb c "-" = false /\ char_eqb c "+" = false.
Proof. destruct c as [[] [] [] [] [] [] [] []]; by vm_compute. Qed.

Lemma nilzero_cons d : exists c s, NilZero.string_of_uint d = String c s /\ is_digit c = true.
Proof. destruct d; by do 2 eexists. Qed.

Lemma uint_value d : exists d', NilZero.uint_of_string (NilZero.string_of_uint d) = Some d' /\
  Z.of_uint d' = Z.of_uint d.
Proof.
  exists (match d with Decimal.Nil => Decimal.zero | _ => d end).
  split; [|by destruct d]. destruct d; [done|..]; by apply NilZero.usu.
Qed.

Lemma stoi_to_string z : is_int z -> stoi (to_string z) = inr z.
Proof.
  intros Hz. pose proof (DecimalZ.of_to z) as E. unfold to_string, stoi.
  destruct (Z.to_int z) as [d|d]; cbn [NilZero.string_of_int].
  - destruct (nilzero_cons d) as (c & s & Ec & Hc).
    rewrite lstrip_id by (rewrite Ec; cbn; by rewrite digit_not_space).
    rewrite Ec. destruct (digit_not_sign c Hc) as [-> ->]. rewrite <-Ec.
    rewrite span_all by apply nilzero_digits. cbn [fst]. destruct (uint_value d) as (d' & -> & Hv).
    cbn in E. by rewrite Z.mul_1_l, Hv, E, bool_decide_true.
  - cbn -[Z.mul Z.of_uint NilZero.uint_of_string span bool_decide].
    rewrite span_all by apply nilzero_digits. cbn [fst]. destruct (uint_value d) as (d' & -> & Hv).
    cbn [Z.of_int] in E. replace (-1 * Z.of_uint d')%Z with z by lia. by rewrite bool_decide_true.
Qed.

Lemma sign_char_digit_text z :
  sforall (fun c => is_digit c || char_eqb c "-") (to_string z) = true.
Proof.
  unfold to_string. destruct (Z.to_int z) as [d|d]; cbn;
    apply (sforall_impl is_digit), nilzero_digits; by intros c ->.
Qed.

Lemma to_string_no_char c z : is_digit c = false -> char_eqb c "-" = false -> no_char c (to_string z) = true.
Proof.
  intros Hd Hm. eapply sforall_impl; [|apply sign_char_digit_text]. intros x. cbn. intros Hx.
  destruct (char_eqb x c) eqn:E; [|done]. apply Ascii.eqb_eq in E as ->. by rewrite Hd, Hm in Hx.
Qed.
Lemma to_string_nonempty z : to_string z <> "".
Proof.
  unfold to_string. destruct (Z.to_int z) as [d|d]; cbn; [|done]. destruct (nilzero_cons d) as (c & s & E & _). by rewrite E.
Qed.
