(* ===== verification/SbiMessage.v ===== *)
(** * SbiMessage: the service-based-interface messages of the AMF

    Models src/5gc/amf/include/SbiMessage.h, src/SbiMessage.cpp and the message
    constructors of src/SbiMessageFactory.cpp. A [std::shared_ptr<SbiMessage>]
    is only held by one owner at a time in the code, so a message is a value. *)

From stdpp Require Import finite.
From Stdlib Require Import Ascii.
From S2P Require Import Prelude Text.

Local Open Scope string_scope.

Module SbiServiceType.
Inductive SbiServiceType : Set :=
  | NAMF_COMMUNICATION | NAMF_EVENT_EXPOSURE | NAMF_LOCATION | NAMF_MT
  | NSMF_PDU_SESSION | NUDM_SDM | NUDM_UE_AUTHENTICATION
  | NAUSF_UE_AUTHENTICATION | NPCF_AM_POLICY_CONTROL | NRF_NFM | NRF_NFD.
#[global] Instance service_eq_dec : EqDecision SbiServiceType.
Proof. solve_decision. Defined.
End SbiServiceType.

Module HttpMethod.
Inductive HttpMethod : Set := GET | POST | PUT | DELETE | PATCH.
#[global] Instance method_eq_dec : EqDecision HttpMethod.
Proof. solve_decision. Defined.
End HttpMethod.

Module SbiMessageType.
Inductive SbiMessageType : Set :=
  | UE_CONTEXT_CREATE_REQUEST | UE_CONTEXT_CREATE_RESPONSE
  | UE_CONTEXT_UPDATE_REQUEST | UE_CONTEXT_UPDATE_RESPONSE
  | UE_CONTEXT_RELEASE_REQUEST | UE_CONTEXT_RELEASE_RESPONSE
  | UE_AUTHENTICATION_REQUEST | UE_AUTHENTICATION_RESPONSE
  | UE_AUTHENTICATION_RESULT_REQUEST | UE_AUTHENTICATION_RESULT_RESPONSE
  | PDU_SESSION_CREATE_SM_CONTEXT_REQUEST | PDU_SESSION_CREATE_SM_CONTEXT_RESPONSE
  | PDU_SESSION_UPDATE_SM_CONTEXT_REQUEST | PDU_SESSION_UPDATE_SM_CONTEXT_RESPONSE
  | PDU_SESSION_RELEASE_SM_CONTEXT_REQUEST | PDU_SESSION_RELEASE_SM_CONTEXT_RESPONSE
  | AM_POLICY_CONTROL_CREATE_REQUEST | AM_POLICY_CONTROL_CREATE_RESPONSE
  | AM_POLICY_CONTROL_UPDATE_REQUEST | AM_POLICY_CONTROL_UPDATE_RESPONSE
  | AM_POLICY_CONTROL_DELETE_REQUEST | AM_POLICY_CONTROL_DELETE_RESPONSE
  | EVENT_EXPOSURE_SUBSCRIBE_REQUEST | EVENT_EXPOSURE_SUBSCRIBE_RESPONSE
  | EVENT_EXPOSURE_NOTIFY_REQUEST | EVENT_EXPOSURE_NOTIFY_RESPONSE
  | EVENT_EXPOSURE_UNSUBSCRIBE_REQUEST | EVENT_EXPOSURE_UNSUBSCRIBE_RESPONSE
  | NF_REGISTER_REQUEST | NF_REGISTER_RESPONSE
  | NF_UPDATE_REQUEST | NF_UPDATE_RESPONSE
  | NF_DEREGISTER_REQUEST | NF_DEREGISTER_RESPONSE
  | NF_STATUS_NOTIFY_REQUEST | NF_STATUS_NOTIFY_RESPONSE
  | NF_DISCOVER_REQUEST | NF_DISCOVER_RESPONSE
  | PROBLEM_DETAILS | ERROR_RESPONSE.
#[global] Instance msgtype_eq_dec : EqDecision SbiMessageType.
Proof. solve_decision. Defined.
#[global] Program Instance msgtype_finite : Finite SbiMessageType :=
  {| enum :=
    [UE_CONTEXT_CREATE_REQUEST; UE_CONTEXT_CREATE_RESPONSE;
     UE_CONTEXT_UPDATE_REQUEST; UE_CONTEXT_UPDATE_RESPONSE;
     UE_CONTEXT_RELEASE_REQUEST; UE_CONTEXT_RELEASE_RESPONSE;
     UE_AUTHENTICATION_REQUEST; UE_AUTHENTICATION_RESPONSE;
     UE_AUTHENTICATION_RESULT_REQUEST; UE_AUTHENTICATION_RESULT_RESPONSE;
     PDU_SESSION_CREATE_SM_CONTEXT_REQUEST; PDU_SESSION_CREATE_SM_CONTEXT_RESPONSE;
     PDU_SESSION_UPDATE_SM_CONTEXT_REQUEST; PDU_SESSION_UPDATE_SM_CONTEXT_RESPONSE;
     PDU_SESSION_RELEASE_SM_CONTEXT_REQUEST; PDU_SESSION_RELEASE_SM_CONTEXT_RESPONSE;
     AM_POLICY_CONTROL_CREATE_REQUEST; AM_POLICY_CONTROL_CREATE_RESPONSE;
     AM_POLICY_CONTROL_UPDATE_REQUEST; AM_POLICY_CONTROL_UPDATE_RESPONSE;
     AM_POLICY_CONTROL_DELETE_REQUEST; AM_POLICY_CONTROL_DELETE_RESPONSE;
     EVENT_EXPOSURE_SUBSCRIBE_REQUEST; EVENT_EXPOSURE_SUBSCRIBE_RESPONSE;
     EVENT_EXPOSURE_NOTIFY_REQUEST; EVENT_EXPOSURE_NOTIFY_RESPONSE;
     EVENT_EXPOSURE_UNSUBSCRIBE_REQUEST; EVENT_EXPOSURE_UNSUBSCRIBE_RESPONSE;
     NF_REGISTER_REQUEST; NF_REGISTER_RESPONSE;
     NF_UPDATE_REQUEST; NF_UPDATE_RESPONSE;
     NF_DEREGISTER_REQUEST; NF_DEREGISTER_RESPONSE;
     NF_STATUS_NOTIFY_REQUEST; NF_STATUS_NOTIFY_RESPONSE;
     NF_DISCOVER_REQUEST; NF_DISCOVER_RESPONSE;
     PROBLEM_DETAILS; ERROR_RESPONSE] |}.
Next Obligation. by apply (bool_decide_unpack _). Qed.
Next Obligation. intros []; by apply (bool_decide_unpack _). Qed.
End SbiMessageType.

Module SbiMessageStatus.
Inductive SbiMessageStatus : Set := PENDING | SUCCESS | FAILED | TIMEOUT.
#[global] Instance status_eq_dec : EqDecision SbiMessageStatus.
Proof. solve_decision. Defined.
End SbiMessageStatus.

Record SbiMessage : Set := mkSbiMessage {
  serviceType_ : SbiServiceType.SbiServiceType;
  messageType_ : SbiMessageType.SbiMessageType;
  httpMethod_ : HttpMethod.HttpMethod;
  uri_ : string;
  body_ : string;
  headers_ : gmap string string;
  status_ : SbiMessageStatus.SbiMessageStatus;
  statusCode_ : Z;
}.

(** The constructor: status PENDING, code 0 and two default headers. *)
Definition SbiMessage_new (service : SbiServiceType.SbiServiceType)
    (type : SbiMessageType.SbiMessageType) (method : HttpMethod.HttpMethod) : SbiMessage :=
  mkSbiMessage service type method "" ""
    (<["Accept" := "application/json"]> (<["Content-Type" := "application/json"]> ∅))
    SbiMessageStatus.PENDING 0.

Definition setUri (uri : string) (m : SbiMessage) : SbiMessage :=
  mkSbiMessage (serviceType_ m) (messageType_ m) (httpMethod_ m) uri (body_ m)
    (headers_ m) (status_ m) (statusCode_ m).
Definition setBody (body : string) (m : SbiMessage) : SbiMessage :=
  mkSbiMessage (serviceType_ m) (messageType_ m) (httpMethod_ m) (uri_ m) body
    (headers_ m) (status_ m) (statusCode_ m).
Definition addHeader (key value : string) (m : SbiMessage) : SbiMessage :=
  mkSbiMessage (serviceType_ m) (messageType_ m) (httpMethod_ m) (uri_ m) (body_ m)
    (<[key := value]> (headers_ m)) (status_ m) (statusCode_ m).
Definition setStatus (status : SbiMessageStatus.SbiMessageStatus) (m : SbiMessage) : SbiMessage :=
  mkSbiMessage (serviceType_ m) (messageType_ m) (httpMethod_ m) (uri_ m) (body_ m)
    (headers_ m) status (statusCode_ m).
Definition setStatusCode (code : Z) (m : SbiMessage) : SbiMessage :=
  mkSbiMessage (serviceType_ m) (messageType_ m) (httpMethod_ m) (uri_ m) (body_ m)
    (headers_ m) (status_ m) code.

Definition isRequest (m : SbiMessage) : bool :=
  match messageType_ m with
  | SbiMessageType.UE_CONTEXT_CREATE_REQUEST
  | SbiMessageType.UE_CONTEXT_UPDATE_REQUEST
  | SbiMessageType.UE_CONTEXT_RELEASE_REQUEST
  | SbiMessageType.UE_AUTHENTICATION_REQUEST
  | SbiMessageType.UE_AUTHENTICATION_RESULT_REQUEST
  | SbiMessageType.PDU_SESSION_CREATE_SM_CONTEXT_REQUEST
  | SbiMessageType.PDU_SESSION_UPDATE_SM_CONTEXT_REQUEST
  | SbiMessageType.PDU_SESSION_RELEASE_SM_CONTEXT_REQUEST
  | SbiMessageType.AM_POLICY_CONTROL_CREATE_REQUEST
  | SbiMessageType.AM_POLICY_CONTROL_UPDATE_REQUEST
  | SbiMessageType.AM_POLICY_CONTROL_DELETE_REQUEST
  | SbiMessageType.EVENT_EXPOSURE_SUBSCRIBE_REQUEST
  | SbiMessageType.EVENT_EXPOSURE_NOTIFY_REQUEST
  | SbiMessageType.EVENT_EXPOSURE_UNSUBSCRIBE_REQUEST
  | SbiMessageType.NF_REGISTER_REQUEST
  | SbiMessageType.NF_UPDATE_REQUEST
  | SbiMessageType.NF_DEREGISTER_REQUEST
  | SbiMessageType.NF_STATUS_NOTIFY_REQUEST
  | SbiMessageType.NF_DISCOVER_REQUEST => true
  | _ => false
  end.

Definition isResponse (m : SbiMessage) : bool :=
  negb (isRequest m) && bool_decide (messageType_ m <> SbiMessageType.PROBLEM_DETAILS).

Definition isSuccess (m : SbiMessage) : bool :=
  bool_decide (status_ m = SbiMessageStatus.SUCCESS)
    && (200 <=? statusCode_ m)%Z && (statusCode_ m <? 300)%Z.

(** A message is a request, a response or a problem report, never two. *)
Lemma request_not_response m : isRequest m = true -> isResponse m = false.
Proof. intros H. unfold isResponse. by rewrite H. Qed.

Lemma classify_message m :
  isRequest m = true \/ isResponse m = true \/
  messageType_ m = SbiMessageType.PROBLEM_DETAILS.
Proof.
  unfold isResponse. destruct (isRequest m); [by left|right].
  destruct (decide (messageType_ m = SbiMessageType.PROBLEM_DETAILS)) as [->|Hne];
    [by right|left]. by rewrite bool_decide_true.
Qed.

(** ** The factory

    Models src/5gc/amf/src/SbiMessageFactory.cpp and [SbiMessage::toString] of
    src/5gc/amf/src/SbiMessage.cpp. The identifiers [generateUuid] draws from the
    random device are arguments. Source literals with escaped quotation marks are
    written with apostrophes and read through [dq]. *)

(** Apostrophes stand for quotation marks. *)
Fixpoint dq (s : string) : string :=
  match s with
  | EmptyString => EmptyString
  | String c s' => String (if char_eqb c "'" then ascii_of_nat 34 else c) (dq s')
  end.

Definition setCommonHeaders (uuid : string) (m : SbiMessage) : SbiMessage :=
  addHeader "3gpp-Sbi-Request-Id" uuid
    (addHeader "3gpp-Sbi-Target-apiRoot" "https://example.com"
      (addHeader "User-Agent" "5G-AMF/1.0"
        (addHeader "Accept" "application/json"
          (addHeader "Content-Type" "application/json" m)))).

Definition request (svc : SbiServiceType.SbiServiceType) (t : SbiMessageType.SbiMessageType)
    (meth : HttpMethod.HttpMethod) (uri body uuid : string) : SbiMessage :=
  setCommonHeaders uuid (setBody body (setUri uri (SbiMessage_new svc t meth))).

(** [supi.substr(5)] throws for a shorter string. *)
Definition createUeContextCreateRequest (uuid supi pei : string) : string + SbiMessage :=
  if Nat.ltb (String.length supi) 5 then inl "std::out_of_range" else
  inr (request SbiServiceType.NAMF_COMMUNICATION SbiMessageType.UE_CONTEXT_CREATE_REQUEST
         HttpMethod.POST "/namf-comm/v1/ue-contexts"
         (dq "{'supi':'" +:+ supi +:+ dq "'" +:+
          (if String.eqb pei "" then "" else dq ",'pei':'" +:+ pei +:+ dq "'") +:+
          dq ",'gpsi':'msisdn-" +:+ String.substring 5 (String.length supi - 5) supi +:+ dq "'" +:+
          dq ",'accessType':'3GPP_ACCESS'" +:+ dq ",'ratType':'NR'" +:+ "}") uuid).

Definition createUeContextReleaseRequest (uuid ueContextId cause : string) : SbiMessage :=
  request SbiServiceType.NAMF_COMMUNICATION SbiMessageType.UE_CONTEXT_RELEASE_REQUEST
    HttpMethod.POST ("/namf-comm/v1/ue-contexts/" +:+ ueContextId +:+ "/release")
    (dq "{'cause':'" +:+ cause +:+ dq "'" +:+
     dq ",'ngApCause':{'group':'radioNetwork','value':'normal-release'}" +:+ "}") uuid.

Definition createAuthenticationRequest (uuid1 uuid2 uuid3 supi servingNetworkName : string)
    : SbiMessage :=
  request SbiServiceType.NAUSF_UE_AUTHENTICATION SbiMessageType.UE_AUTHENTICATION_REQUEST
    HttpMethod.POST "/nausf-auth/v1/ue-authentications"
    (dq "{'supi':'" +:+ supi +:+ dq "'" +:+
     dq ",'servingNetworkName':'" +:+ servingNetworkName +:+ dq "'" +:+
     dq ",'resynchronizationInfo':{'rand':'" +:+ uuid1 +:+ dq "'}" +:+
     dq ",'traceData':{'traceRef':'" +:+ uuid2 +:+ dq "'}" +:+ "}") uuid3.

Definition createPduSessionCreateRequest (uuid : string) (pduSessionId : Z) (dnn : string) (sst : Z)
    : SbiMessage :=
  request SbiServiceType.NSMF_PDU_SESSION SbiMessageType.PDU_SESSION_CREATE_SM_CONTEXT_REQUEST
    HttpMethod.POST "/nsmf-pdusession/v1/sm-contexts"
    (dq "{'pduSessionId':" +:+ to_string pduSessionId +:+
     dq ",'dnn':'" +:+ dnn +:+ dq "'" +:+
     dq ",'sNssai':{'sst':" +:+ to_string sst +:+ "}" +:+
     dq ",'pduSessionType':'IPV4'" +:+ dq ",'requestType':'INITIAL_REQUEST'" +:+
     dq ",'priority':'PRIORITY_LEVEL_1'" +:+ "}") uuid.

Definition createPduSessionReleaseRequest (uuid smContextId cause : string) : SbiMessage :=
  request SbiServiceType.NSMF_PDU_SESSION SbiMessageType.PDU_SESSION_RELEASE_SM_CONTEXT_REQUEST
    HttpMethod.POST ("/nsmf-pdusession/v1/sm-contexts/" +:+ smContextId +:+ "/release")
    (dq "{'cause':'" +:+ cause +:+ dq "'" +:+
     dq ",'ngApCause':{'group':'nas','value':'normal-release'}" +:+
     dq ",'5gMmCauseValue':'REGULAR_DEACTIVATION'" +:+ "}") uuid.

Definition createAmPolicyControlCreateRequest (uuid supi notificationUri : string) : SbiMessage :=
  request SbiServiceType.NPCF_AM_POLICY_CONTROL SbiMessageType.AM_POLICY_CONTROL_CREATE_REQUEST
    HttpMethod.POST "/npcf-am-policy-control/v1/policies"
    (dq "{'supi':'" +:+ supi +:+ dq "'" +:+
     dq ",'notificationUri':'" +:+ notificationUri +:+ dq "'" +:+
     dq ",'accessType':'3GPP_ACCESS'" +:+ dq ",'ratType':'NR'" +:+
     dq ",'servingPlmn':{'mcc':'001','mnc':'001'}" +:+
     dq ",'userLocationInfo':{'nrLocation':{'tai':{'plmnId':{'mcc':'001','mnc':'001'},'tac':'000001'}}}"
     +:+ "}") uuid.

Definition createNfRegisterRequest (uuid nfInstanceId nfType : string) : SbiMessage :=
  request SbiServiceType.NRF_NFM SbiMessageType.NF_REGISTER_REQUEST HttpMethod.PUT
    ("/nnrf-nfm/v1/nf-instances/" +:+ nfInstanceId)
    (dq "{'nfInstanceId':'" +:+ nfInstanceId +:+ dq "'" +:+
     dq ",'nfType':'" +:+ nfType +:+ dq "'" +:+
     dq ",'nfStatus':'REGISTERED'" +:+
     dq ",'plmnList':[{'mcc':'001','mnc':'001'}]" +:+
     dq ",'nfServices':[{'serviceInstanceId':'service-1','serviceName':'namf-comm'}]" +:+
     dq ",'heartBeatTimer':60" +:+ "}") uuid.

Definition createNfDiscoverRequest (uuid targetNfType requesterNfType : string) : SbiMessage :=
  setCommonHeaders uuid
    (setUri ("/nnrf-disc/v1/nf-instances" +:+ "?target-nf-type=" +:+ targetNfType +:+
             "&requester-nf-type=" +:+ requesterNfType)
       (SbiMessage_new SbiServiceType.NRF_NFD SbiMessageType.NF_DISCOVER_REQUEST HttpMethod.GET)).

(** The digits [dis(gen)] drew: eight, four, three, one, three and twelve. *)
Definition hex_digit (n : nat) : string :=
  String (ascii_of_nat (if Nat.ltb n 10 then 48 + n else 87 + n)) EmptyString.

Definition hex_digits (ns : list nat) : string := String.concat "" (hex_digit <$> ns).

Definition generateUuid (draws : list nat) : string :=
  hex_digits (take 8 draws) +:+ "-" +:+ hex_digits (take 4 (drop 8 draws)) +:+ "-4" +:+
  hex_digits (take 3 (drop 12 draws)) +:+ "-" +:+ hex_digits (take 1 (drop 15 draws)) +:+
  hex_digits (take 3 (drop 16 draws)) +:+ "-" +:+ hex_digits (take 12 (drop 19 draws)).

(** ** [SbiMessage::toString] *)

Definition method_string (m : HttpMethod.HttpMethod) : string :=
  match m with
  | HttpMethod.GET => "GET" | HttpMethod.POST => "POST" | HttpMethod.PUT => "PUT"
  | HttpMethod.DELETE => "DELETE" | HttpMethod.PATCH => "PATCH"
  end.

Definition service_string (s : SbiServiceType.SbiServiceType) : string :=
  match s with
  | SbiServiceType.NAMF_COMMUNICATION => "Namf_Communication"
  | SbiServiceType.NAMF_EVENT_EXPOSURE => "Namf_EventExposure"
  | SbiServiceType.NAMF_LOCATION => "Namf_Location"
  | SbiServiceType.NAMF_MT => "Namf_MT"
  | SbiServiceType.NSMF_PDU_SESSION => "Nsmf_PDUSession"
  | SbiServiceType.NUDM_SDM => "Nudm_SDM"
  | SbiServiceType.NUDM_UE_AUTHENTICATION => "Nudm_UEAuthentication"
  | SbiServiceType.NAUSF_UE_AUTHENTICATION => "Nausf_UEAuthentication"
  | SbiServiceType.NPCF_AM_POLICY_CONTROL => "Npcf_AMPolicyControl"
  | SbiServiceType.NRF_NFM => "Nnrf_NFManagement"
  | SbiServiceType.NRF_NFD => "Nnrf_NFDiscovery"
  end.

Definition type_string (t : SbiMessageType.SbiMessageType) : string :=
  match t with
  | SbiMessageType.UE_CONTEXT_CREATE_REQUEST => "UeContextCreateRequest"
  | SbiMessageType.UE_CONTEXT_CREATE_RESPONSE => "UeContextCreateResponse"
  | SbiMessageType.UE_AUTHENTICATION_REQUEST => "UeAuthenticationRequest"
  | SbiMessageType.UE_AUTHENTICATION_RESPONSE => "UeAuthenticationResponse"
  | SbiMessageType.PDU_SESSION_CREATE_SM_CONTEXT_REQUEST => "PduSessionCreateSmContextRequest"
  | SbiMessageType.PDU_SESSION_CREATE_SM_CONTEXT_RESPONSE => "PduSessionCreateSmContextResponse"
  | SbiMessageType.NF_REGISTER_REQUEST => "NfRegisterRequest"
  | SbiMessageType.NF_REGISTER_RESPONSE => "NfRegisterResponse"
  | _ => "UnknownMessage"
  end.

Definition status_to_int (s : SbiMessageStatus.SbiMessageStatus) : Z :=
  match s with
  | SbiMessageStatus.PENDING => 0 | SbiMessageStatus.SUCCESS => 1
  | SbiMessageStatus.FAILED => 2 | SbiMessageStatus.TIMEOUT => 3
  end.

Definition endl : string := String nl "".

Definition toString (m : SbiMessage) : string :=
  "SBI Message: " +:+ service_string (serviceType_ m) +:+ " - " +:+ type_string (messageType_ m)
  +:+ endl +:+ "Method: " +:+ method_string (httpMethod_ m) +:+ endl +:+
  "URI: " +:+ uri_ m +:+ endl +:+
  "Status: " +:+ to_string (status_to_int (status_ m)) +:+ " (Code: "
  +:+ to_string (statusCode_ m) +:+ ")" +:+ endl +:+
  (if bool_decide (headers_ m = ∅) then "" else
     "Headers:" +:+ endl +:+
     foldr (fun h acc => "  " +:+ h.1 +:+ ": " +:+ h.2 +:+ endl +:+ acc) ""
       (string_map_ordered (headers_ m))) +:+
  (if String.eqb (body_ m) "" then "" else
     "Body: " +:+ String.substring 0 100 (body_ m) +:+
     (if Nat.ltb 100 (String.length (body_ m)) then "..." else "") +:+ endl).
