(* ===== verification/UeContext.v ===== *)
(** * UeContext: per-UE state and its manager

    Models src/5gc/amf/include/UeContext.h and src/5gc/amf/src/UeContext.cpp:
    the UE context with its PDU sessions, and the singleton manager with the
    SUPI and GUTI indices behind one mutex. Contexts are reached through
    [std::shared_ptr]s that the code never keeps across calls, so the manager
    holds them by value and a write through the pointer is [update_ue]. Four
    private members that nothing reads or writes ([tai], [ranNodeId],
    [lastRegistrationTime], [subscribedSlices]) are left out. *)

From S2P Require Import Prelude.

Local Open Scope string_scope.

Record FiveGIdentifiers : Set := mkFiveGIdentifiers {
  supi : string; pei : string; gpsi : string; guti : string; tmsi : string }.

Record NetworkSlice : Set := mkNetworkSlice {
  sst : Z; sd : string; slice_plmnId : string; snssai : string }.

Record LocationInfo : Set := mkLocationInfo {
  tai : string; cellId : string; loc_plmnId : string; tac : Z; ratType : string;
  lastUpdate : time_point }.

Record SecurityContext : Set := mkSecurityContext {
  kAmf : string; kSeaf : string; kAusf : string; ngKsi : Z; authVector : string;
  sec_isAuthenticated : bool; authTime : time_point }.

Record PduSession : Set := mkPduSession {
  sessionId : Z; dnn : string; sNssai : string; pduType : string; smfId : string;
  upfId : string; qosFlowId : string; session_state : string; isActive : bool;
  establishTime : time_point }.

Record AccessInfo : Set := mkAccessInfo {
  accessType : string; anType : string; ranNodeId : string; anIpAddress : string;
  anPort : Z; acc_isConnected : bool }.

Record MobilityInfo : Set := mkMobilityInfo {
  allowedNssai : list string; configuredNssai : list string;
  serviceAreaRestriction : string; forbiddenAreas : list string;
  isRoaming : bool; homeNetworkPlmn : string }.

Record SubscriptionInfo : Set := mkSubscriptionInfo {
  subscriptionId : string; subscribedSlices : list NetworkSlice;
  accessRestriction : string; coreNetworkType : string;
  isEmergencyRegistered : bool; additionalInfo : gmap string string }.

Record UeContext : Set := mkUeContext {
  identifiers_ : FiveGIdentifiers;
  locationInfo_ : LocationInfo;
  securityContext_ : SecurityContext;
  pduSessions_ : list PduSession;
  accessInfo_ : AccessInfo;
  mobilityInfo_ : MobilityInfo;
  subscriptionInfo_ : SubscriptionInfo;
  registrationState_ : string;
  connectionState_ : string;
  lastActivity_ : time_point;
  creationTime_ : time_point }.

(** The constructor [UeContext(supi)]; [j] supplies the members it leaves
    indeterminate (tracking area code, emergency flag). *)
Definition UeContext_new (j : Junk) (now : time_point) (supi : string) : UeContext :=
  mkUeContext
    (mkFiveGIdentifiers supi "" "" "" "")
    (mkLocationInfo "" "" "" (junk_int j) "" 0)
    (mkSecurityContext "" "" "" 0 "" false 0)
    []
    (mkAccessInfo "" "" "" "" 0 false)
    (mkMobilityInfo [] [] "" [] false "")
    (mkSubscriptionInfo "" [] "" "" (junk_bool j) ∅)
    "DEREGISTERED" "IDLE" now now.

Definition setIdentifiers (ids : FiveGIdentifiers) (c : UeContext) : UeContext :=
  mkUeContext ids (locationInfo_ c) (securityContext_ c) (pduSessions_ c)
    (accessInfo_ c) (mobilityInfo_ c) (subscriptionInfo_ c) (registrationState_ c)
    (connectionState_ c) (lastActivity_ c) (creationTime_ c).
Definition set_location (l : LocationInfo) (c : UeContext) : UeContext :=
  mkUeContext (identifiers_ c) l (securityContext_ c) (pduSessions_ c)
    (accessInfo_ c) (mobilityInfo_ c) (subscriptionInfo_ c) (registrationState_ c)
    (connectionState_ c) (lastActivity_ c) (creationTime_ c).
Definition set_security (x : SecurityContext) (c : UeContext) : UeContext :=
  mkUeContext (identifiers_ c) (locationInfo_ c) x (pduSessions_ c)
    (accessInfo_ c) (mobilityInfo_ c) (subscriptionInfo_ c) (registrationState_ c)
    (connectionState_ c) (lastActivity_ c) (creationTime_ c).
Definition set_sessions (l : list PduSession) (c : UeContext) : UeContext :=
  mkUeContext (identifiers_ c) (locationInfo_ c) (securityContext_ c) l
    (accessInfo_ c) (mobilityInfo_ c) (subscriptionInfo_ c) (registrationState_ c)
    (connectionState_ c) (lastActivity_ c) (creationTime_ c).
Definition set_access (x : AccessInfo) (c : UeContext) : UeContext :=
  mkUeContext (identifiers_ c) (locationInfo_ c) (securityContext_ c) (pduSessions_ c)
    x (mobilityInfo_ c) (subscriptionInfo_ c) (registrationState_ c)
    (connectionState_ c) (lastActivity_ c) (creationTime_ c).
Definition set_mobility (x : MobilityInfo) (c : UeContext) : UeContext :=
  mkUeContext (identifiers_ c) (locationInfo_ c) (securityContext_ c) (pduSessions_ c)
    (accessInfo_ c) x (subscriptionInfo_ c) (registrationState_ c)
    (connectionState_ c) (lastActivity_ c) (creationTime_ c).
Definition set_subscription (x : SubscriptionInfo) (c : UeContext) : UeContext :=
  mkUeContext (identifiers_ c) (locationInfo_ c) (securityContext_ c) (pduSessions_ c)
    (accessInfo_ c) (mobilityInfo_ c) x (registrationState_ c)
    (connectionState_ c) (lastActivity_ c) (creationTime_ c).
Definition setRegistrationState (st : string) (c : UeContext) : UeContext :=
  mkUeContext (identifiers_ c) (locationInfo_ c) (securityContext_ c) (pduSessions_ c)
    (accessInfo_ c) (mobilityInfo_ c) (subscriptionInfo_ c) st
    (connectionState_ c) (lastActivity_ c) (creationTime_ c).
Definition setConnectionState (st : string) (c : UeContext) : UeContext :=
  mkUeContext (identifiers_ c) (locationInfo_ c) (securityContext_ c) (pduSessions_ c)
    (accessInfo_ c) (mobilityInfo_ c) (subscriptionInfo_ c) (registrationState_ c)
    st (lastActivity_ c) (creationTime_ c).
Definition updateLastActivity (now : time_point) (c : UeContext) : UeContext :=
  mkUeContext (identifiers_ c) (locationInfo_ c) (securityContext_ c) (pduSessions_ c)
    (accessInfo_ c) (mobilityInfo_ c) (subscriptionInfo_ c) (registrationState_ c)
    (connectionState_ c) now (creationTime_ c).

Definition setRanNodeId (id : string) (c : UeContext) : UeContext :=
  let a := accessInfo_ c in
  set_access (mkAccessInfo (accessType a) (anType a) id (anIpAddress a) (anPort a)
                (acc_isConnected a)) c.
Definition setTai (t : string) (c : UeContext) : UeContext :=
  let l := locationInfo_ c in
  set_location (mkLocationInfo t (cellId l) (loc_plmnId l) (tac l) (ratType l)
                  (lastUpdate l)) c.

Definition isAuthenticated (c : UeContext) : bool := sec_isAuthenticated (securityContext_ c).
Definition isConnected (c : UeContext) : bool := acc_isConnected (accessInfo_ c).

Definition updateLocation (now : time_point) (l : LocationInfo) (c : UeContext) : UeContext :=
  updateLastActivity now
    (set_location (mkLocationInfo (tai l) (cellId l) (loc_plmnId l) (tac l) (ratType l) now) c).

Definition updateSecurityContext (now : time_point) (x : SecurityContext) (c : UeContext)
    : UeContext :=
  updateLastActivity now
    (set_security (mkSecurityContext (kAmf x) (kSeaf x) (kAusf x) (ngKsi x) (authVector x)
                     (sec_isAuthenticated x) now) c).

Definition same_session (id : Z) (s : PduSession) : bool := (sessionId s =? id)%Z.

Definition addPduSession (now : time_point) (session : PduSession) (c : UeContext) : UeContext :=
  updateLastActivity now
    (set_sessions
       (match find_first (same_session (sessionId session)) (pduSessions_ c) with
        | Some _ => replace_first (same_session (sessionId session)) session (pduSessions_ c)
        | None => pduSessions_ c ++ [session]
        end) c).

Definition removePduSession (now : time_point) (id : Z) (c : UeContext) : UeContext :=
  updateLastActivity now
    (set_sessions (filter (fun s => same_session id s = false) (pduSessions_ c)) c).

Definition getActivePduSessions (c : UeContext) : list PduSession :=
  filter (fun s => isActive s = true) (pduSessions_ c).

Definition getPduSession (id : Z) (c : UeContext) : option PduSession :=
  find_first (same_session id) (pduSessions_ c).

Definition updateAccessInfo (now : time_point) (x : AccessInfo) (c : UeContext) : UeContext :=
  updateLastActivity now (set_access x c).
Definition updateMobilityInfo (now : time_point) (x : MobilityInfo) (c : UeContext) : UeContext :=
  updateLastActivity now (set_mobility x c).
Definition updateSubscriptionInfo (now : time_point) (x : SubscriptionInfo) (c : UeContext)
    : UeContext :=
  updateLastActivity now (set_subscription x c).

(** ** The manager *)

Record UeContextManager : Set := mkUeContextManager {
  ueContexts_ : gmap string UeContext;
  gutiToSupi_ : gmap string string;
  contextMutex_ : bool }.

(** The singleton as [getInstance] builds it. *)
Definition UeContextManager_init : UeContextManager := mkUeContextManager ∅ ∅ false.

Definition set_contexts (m : gmap string UeContext) (s : UeContextManager) : UeContextManager :=
  mkUeContextManager m (gutiToSupi_ s) (contextMutex_ s).
Definition set_gutis (m : gmap string string) (s : UeContextManager) : UeContextManager :=
  mkUeContextManager (ueContexts_ s) m (contextMutex_ s).
Definition set_context_mutex (b : bool) (s : UeContextManager) : UeContextManager :=
  mkUeContextManager (ueContexts_ s) (gutiToSupi_ s) b.

Definition locked {A} (body : cpp UeContextManager A) : cpp UeContextManager A :=
  lock_guard contextMutex_ set_context_mutex body.

Definition createUeContext (j : Junk) (now : time_point) (supi : string)
    : cpp UeContextManager UeContext :=
  locked (
    let context := UeContext_new j now supi in
    modify (fun s => set_contexts (<[supi := context]> (ueContexts_ s)) s) ;;
    mret context).

Definition getUeContext (supi : string) : cpp UeContextManager (option UeContext) :=
  locked (gets (fun s => ueContexts_ s !! supi)).

Definition getUeContextByGuti (g : string) : cpp UeContextManager (option UeContext) :=
  locked (
    it ← gets (fun s => gutiToSupi_ s !! g);
    match it with
    | Some supi => getUeContext supi
    | None => mret None
    end).

(** A write through the pointer [getUeContext] returned. *)
Definition update_ue (supi : string) (f : UeContext -> UeContext) : cpp UeContextManager unit :=
  modify (fun s => set_contexts (alter f supi (ueContexts_ s)) s).

(** Erasing one context together with its GUTI entry. *)
Definition erase_context (k : string) (c : UeContext) (s : UeContextManager) : UeContextManager :=
  let s := if bool_decide (guti (identifiers_ c) = "") then s
           else set_gutis (delete (guti (identifiers_ c)) (gutiToSupi_ s)) s in
  set_contexts (delete k (ueContexts_ s)) s.

Definition removeUeContext (supi : string) : cpp UeContextManager unit :=
  locked (
    it ← gets (fun s => ueContexts_ s !! supi);
    match it with
    | Some c => modify (erase_context supi c)
    | None => mret tt
    end).

Definition getAllUeContexts : cpp UeContextManager (list UeContext) :=
  locked (gets (fun s => (string_map_ordered (ueContexts_ s)).*2)).

Definition subscribes (slice : NetworkSlice) (c : UeContext) : bool :=
  existsb (fun x => (sst x =? sst slice)%Z && bool_decide (sd x = sd slice))
    (subscribedSlices (subscriptionInfo_ c)).

Definition getUeContextsBySlice (slice : NetworkSlice) : cpp UeContextManager (list UeContext) :=
  locked (gets (fun s =>
    filter (fun c => subscribes slice c = true) (string_map_ordered (ueContexts_ s)).*2)).

Definition getUeContextsByLocation (t : string) : cpp UeContextManager (list UeContext) :=
  locked (gets (fun s =>
    filter (fun c => tai (locationInfo_ c) = t) (string_map_ordered (ueContexts_ s)).*2)).

Definition getRegisteredUeCount : cpp UeContextManager nat :=
  locked (gets (fun s =>
    length (filter (fun c => registrationState_ c <> "DEREGISTERED")
              (string_map_ordered (ueContexts_ s)).*2))).

Definition getConnectedUeCount : cpp UeContextManager nat :=
  locked (gets (fun s =>
    length (filter (fun c => isConnected c = true) (string_map_ordered (ueContexts_ s)).*2))).

Definition getActiveSessionCount : cpp UeContextManager nat :=
  locked (gets (fun s =>
    foldl (fun n c => n + length (getActivePduSessions c)) 0
      (string_map_ordered (ueContexts_ s)).*2)).

Definition expired (now : time_point) (inactiveThreshold : Z) (c : UeContext) : bool :=
  (inactiveThreshold <? minutes_between now (lastActivity_ c))%Z
    && bool_decide (registrationState_ c = "DEREGISTERED").

Definition cleanupInactiveContexts (now : time_point) (inactiveThreshold : Z)
    : cpp UeContextManager unit :=
  locked (modify (fun s =>
    foldl (fun s kc => if expired now inactiveThreshold kc.2 then erase_context kc.1 kc.2 s else s)
      s (string_map_ordered (ueContexts_ s)))).

(** ** PDU sessions: the vector implements a map keyed by session id *)

Definition session_ids_unique (c : UeContext) : Prop := NoDup (sessionId <$> pduSessions_ c).

Definition session_map (c : UeContext) : gmap Z PduSession :=
  list_to_map ((fun s => (sessionId s, s)) <$> pduSessions_ c).

Section session_lists.
Implicit Types (l : list PduSession) (s : PduSession) (id : Z).

Abbreviation smap l := (list_to_map ((fun s => (sessionId s, s)) <$> l) : gmap Z PduSession).

Lemma find_session_lookup id l : find_first (same_session id) l = smap l !! id.
Proof.
  induction l as [|s l IH]; [done|]. cbn. unfold same_session at 1.
  destruct (Z.eqb_spec (sessionId s) id) as [->|Hne].
  - by rewrite lookup_insert_eq.
  - by rewrite lookup_insert_ne.
Qed.

Lemma replace_session_ids s l :
  sessionId <$> replace_first (same_session (sessionId s)) s l = sessionId <$> l.
Proof.
  induction l as [|y l IH]; [done|]. cbn. unfold same_session at 1.
  destruct (Z.eqb_spec (sessionId y) (sessionId s)) as [E|]; cbn; [by rewrite E|].
  by rewrite IH.
Qed.

Lemma replace_session_map s l :
  is_Some (smap l !! sessionId s) ->
  smap (replace_first (same_session (sessionId s)) s l) = <[sessionId s := s]> (smap l).
Proof.
  induction l as [|y l IH]; [by intros [? ?]|]. cbn. unfold same_session at 1.
  destruct (Z.eqb_spec (sessionId y) (sessionId s)) as [->|Hne]; cbn.
  - intros _. by rewrite insert_insert_eq.
  - rewrite lookup_insert_ne by done. intros HS. rewrite IH by done.
    by rewrite insert_insert_ne.
Qed.

Lemma append_session_map s l :
  smap l !! sessionId s = None -> smap (l ++ [s])%list = <[sessionId s := s]> (smap l).
Proof.
  intros HN. rewrite fmap_app, list_to_map_app. apply map_eq. intros i.
  rewrite lookup_union. cbn. rewrite !lookup_insert, lookup_empty.
  case_decide; subst; [by rewrite HN|]. by destruct (_ !! i).
Qed.

Lemma remove_session_map id l :
  smap (filter (fun s => same_session id s = false) l) = delete id (smap l).
Proof.
  induction l as [|y l IH]; [done|]. rewrite filter_cons. case_decide as Hd;
    unfold same_session in Hd; cbn.
  - apply Z.eqb_neq in Hd. by rewrite IH, delete_insert_ne.
  - apply not_false_iff_true, Z.eqb_eq in Hd as ->. by rewrite IH, delete_insert_eq.
Qed.

Lemma smap_None id l : smap l !! id = None <-> id ∉ (sessionId <$> l).
Proof. rewrite <-not_elem_of_list_to_map. by rewrite <-list_fmap_compose. Qed.
End session_lists.

Lemma NoDup_filter_ids (P : PduSession -> Prop) `{!forall x, Decision (P x)} l :
  NoDup (sessionId <$> l) -> NoDup (sessionId <$> filter P l).
Proof.
  intros HN. apply (sublist_NoDup _ _ HN). apply fmap_sublist, sublist_filter.
Qed.

Lemma addPduSession_map now s c :
  session_map (addPduSession now s c) = <[sessionId s := s]> (session_map c).
Proof.
  unfold session_map, addPduSession. cbn [pduSessions_ updateLastActivity set_sessions].
  rewrite find_session_lookup. destruct (_ !! sessionId s) eqn:E.
  - by apply replace_session_map.
  - by apply append_session_map.
Qed.

Lemma addPduSession_unique now s c :
  session_ids_unique c -> session_ids_unique (addPduSession now s c).
Proof.
  unfold session_ids_unique, addPduSession. cbn [pduSessions_ updateLastActivity set_sessions].
  intros HN. rewrite find_session_lookup. destruct (_ !! sessionId s) eqn:E.
  - by rewrite replace_session_ids.
  - apply smap_None in E. rewrite fmap_app. apply NoDup_app. split; [done|].
    split; [|apply NoDup_singleton]. intros x Hx ->%list_elem_of_singleton. done.
Qed.

(** The vector of PDU sessions of a UE context behaves as a finite map from
    session id to session: ids stay unique, [addPduSession] is insertion
    (updating in place or appending), [removePduSession] is deletion and
    [getPduSession] is lookup. *)
Theorem pdu_sessions_refine_map now s id c :
  session_ids_unique c ->
  session_ids_unique (addPduSession now s c) /\
  session_ids_unique (removePduSession now id c) /\
  session_map (addPduSession now s c) = <[sessionId s := s]> (session_map c) /\
  session_map (removePduSession now id c) = delete id (session_map c) /\
  (forall k, getPduSession k c = session_map c !! k).
Proof.
  intros HN. split_and!.
  - by apply addPduSession_unique.
  - by apply NoDup_filter_ids.
  - apply addPduSession_map.
  - apply remove_session_map.
  - intros k. apply find_session_lookup.
Qed.

Definition sample_session (id : Z) (name : string) (active : bool) : PduSession :=
  mkPduSession id name "" "" "" "" "" "ACTIVE" active 0.
Definition sample_ue : UeContext :=
  addPduSession 5 (sample_session 2 "ims" true)
    (addPduSession 4 (sample_session 1 "internet" true)
       (UeContext_new sample_junk 0 "imsi-1")).

Lemma pdu_sessions_refine_map_witness :
  session_ids_unique sample_ue /\
  getPduSession 1 (addPduSession 9 (sample_session 1 "iot" false) sample_ue)
    = Some (sample_session 1 "iot" false) /\
  session_map (removePduSession 9 2 sample_ue) = delete 2%Z (session_map sample_ue).
Proof.
  assert (HN : session_ids_unique sample_ue)
    by (unfold session_ids_unique; apply (bool_decide_unpack _); vm_compute; done).
  split; [done|]. split; [reflexivity|].
  apply (pdu_sessions_refine_map 9 (sample_session 1 "iot" false) 2 sample_ue HN).
Defined.

(** ** Clean-up of inactive contexts *)

Section cleanup.
Context (now : time_point) (thr : Z).

Abbreviation sweep l s :=
  (foldl (fun s kc => if expired now thr kc.2 then erase_context kc.1 kc.2 s else s) s l).

Lemma erase_context_contexts k c s :
  ueContexts_ (erase_context k c s) = delete k (ueContexts_ s).
Proof. unfold erase_context. by case_bool_decide. Qed.

Lemma erase_context_gutis k c s g :
  gutiToSupi_ (erase_context k c s) !! g =
    if decide (g = guti (identifiers_ c) /\ g <> "") then None else gutiToSupi_ s !! g.
Proof.
  unfold erase_context. case_bool_decide as Hg; cbn.
  - rewrite decide_False; [done|]. intros [-> ?]. congruence.
  - rewrite lookup_delete. apply decide_ext. split; [intros <-; done|by intros [-> _]].
Qed.

Lemma sweep_contexts l s k :
  ueContexts_ (sweep l s) !! k =
    if decide (Exists (fun kc => kc.1 = k /\ expired now thr kc.2 = true) l)
    then None else ueContexts_ s !! k.
Proof.
  revert s. induction l as [|[k' c] l IH]; intros s; cbn [foldl].
  { by rewrite decide_False by (by inversion 1). }
  rewrite IH. cbn. destruct (decide (Exists _ l)) as [He|He].
  { by rewrite decide_True by (by right). }
  destruct (expired now thr c) eqn:E.
  - rewrite erase_context_contexts, lookup_delete. destruct (decide (k' = k)) as [->|].
    + by rewrite decide_True by (by left).
    + rewrite decide_False; [done|]. rewrite Exists_cons. naive_solver.
  - rewrite decide_False; [done|]. rewrite Exists_cons. cbn. rewrite E. naive_solver.
Qed.

Lemma sweep_gutis l s g :
  gutiToSupi_ (sweep l s) !! g =
    if decide (g <> "" /\
               Exists (fun kc => guti (identifiers_ kc.2) = g /\ expired now thr kc.2 = true) l)
    then None else gutiToSupi_ s !! g.
Proof.
  revert s. induction l as [|[k' c] l IH]; intros s; cbn [foldl].
  { rewrite decide_False; [done|]. intros [_ H]. inversion H. }
  rewrite IH. cbn [fst snd]. destruct (expired now thr c) eqn:E.
  - rewrite erase_context_gutis. symmetry. apply if_decide_or.
    rewrite Exists_cons. cbn. rewrite E. naive_solver.
  - apply decide_ext. rewrite Exists_cons. cbn. rewrite E. naive_solver.
Qed.
End cleanup.

Lemma cleanup_effect now thr s :
  contextMutex_ s = false ->
  exists s', cleanupInactiveContexts now thr s = Ok tt s' /\
    contextMutex_ s' = false /\
    ueContexts_ s' = filter (fun kc => expired now thr kc.2 = false) (ueContexts_ s) /\
    (forall g, gutiToSupi_ s' !! g =
       if decide (g <> "" /\ map_Exists (fun _ c => guti (identifiers_ c) = g /\
                                          expired now thr c = true) (ueContexts_ s))
       then None else gutiToSupi_ s !! g).
Proof.
  intros HL. eexists. split; [by apply lock_guard_free|]. split; [done|]. cbn. split.
  - apply map_eq. intros k. rewrite sweep_contexts. symmetry. cbn.
    destruct (decide _) as [Hex|Hno].
    + apply Exists_exists in Hex as ([k' c] & Hin & Hk & He).
      cbn in Hk, He. subst k'. apply elem_of_map_ordered in Hin.
      apply map_lookup_filter_None. right. intros c' Hc'. cbn. by simplify_eq; rewrite He.
    + destruct (ueContexts_ s !! k) as [c|] eqn:Hk.
      * apply map_lookup_filter_Some. split; [done|]. cbn.
        destruct (expired now thr c) eqn:He; [|done].
        destruct Hno. apply Exists_exists. exists (k, c). by rewrite elem_of_map_ordered.
      * apply map_lookup_filter_None. by left.
  - intros g. rewrite sweep_gutis. cbn.
    assert (Exists (fun kc => guti (identifiers_ kc.2) = g /\ expired now thr kc.2 = true)
              (string_map_ordered (ueContexts_ s)) <->
            map_Exists (fun _ c => guti (identifiers_ c) = g /\ expired now thr c = true)
              (ueContexts_ s)) as Hiff.
    { rewrite Exists_exists. unfold map_Exists. split.
      - intros ([k c] & Hin & ?). apply elem_of_map_ordered in Hin. eauto.
      - intros (k & c & Hk & ?). exists (k, c). by rewrite elem_of_map_ordered. }
    apply decide_ext. by rewrite Hiff.
Qed.

(** [cleanupInactiveContexts] removes exactly the contexts that are
    deregistered and have been inactive for more than the threshold, and drops
    the GUTI entries of exactly the removed contexts; everything else, and the
    mutex, is as before. *)
Theorem cleanup_exact now thr s :
  contextMutex_ s = false ->
  exists s', cleanupInactiveContexts now thr s = Ok tt s' /\
    contextMutex_ s' = false /\
    ueContexts_ s' = filter (fun kc => expired now thr kc.2 = false) (ueContexts_ s) /\
    (forall g, gutiToSupi_ s' !! g =
       if decide (g <> "" /\ map_Exists (fun _ c => guti (identifiers_ c) = g /\
                                          expired now thr c = true) (ueContexts_ s))
       then None else gutiToSupi_ s !! g).
Proof. apply cleanup_effect. Qed.

Definition sample_manager : UeContextManager :=
  mkUeContextManager
    (<["imsi-2" := setIdentifiers (mkFiveGIdentifiers "imsi-2" "" "" "guti-2" "")
                     (UeContext_new sample_junk 0 "imsi-2")]>
       (<["imsi-1" := setRegistrationState "REGISTERED" sample_ue]> ∅))
    (<["guti-2" := "imsi-2"]> ∅) false.

Lemma cleanup_exact_witness :
  contextMutex_ sample_manager = false /\
  exists s', cleanupInactiveContexts (120 * 10 ^ 9) 1 sample_manager = Ok tt s' /\
    ueContexts_ s' !! "imsi-2" = None /\ gutiToSupi_ s' !! "guti-2" = None /\
    ueContexts_ s' !! "imsi-1" = Some (setRegistrationState "REGISTERED" sample_ue).
Proof.
  assert (HL : contextMutex_ sample_manager = false) by reflexivity.
  split; [done|].
  destruct (cleanup_exact (120 * 10 ^ 9) 1 sample_manager HL) as (s' & E & _).
  exists s'. split; [done|]. vm_compute in E. injection E as <-.
  split_and!; reflexivity.
Defined.

(** ** The GUTI index

    The mutators a client has: create, write through a context pointer,
    remove, clean up. *)
Inductive manager_call : Type :=
  | CallCreate (j : Junk) (now : time_point) (supi : string)
  | CallWrite (supi : string) (f : UeContext -> UeContext)
  | CallRemove (supi : string)
  | CallCleanup (now : time_point) (threshold : Z).

Definition run_call (c : manager_call) : cpp UeContextManager unit :=
  match c with
  | CallCreate j now supi => createUeContext j now supi ;; mret tt
  | CallWrite supi f => update_ue supi f
  | CallRemove supi => removeUeContext supi
  | CallCleanup now thr => cleanupInactiveContexts now thr
  end.

Definition no_gutis (s : UeContextManager) : Prop :=
  contextMutex_ s = false /\ gutiToSupi_ s = ∅.

Lemma sweep_no_gutis now thr s :
  no_gutis s -> exists s', cleanupInactiveContexts now thr s = Ok tt s' /\ no_gutis s'.
Proof.
  intros [HL HG]. destruct (cleanup_effect now thr s HL) as (s' & E & HL' & _ & Hg).
  exists s'. split; [done|]. split; [done|]. apply map_eq. intros g.
  rewrite Hg, HG. by case_decide.
Qed.

Lemma run_call_no_gutis c s :
  no_gutis s -> exists s', run_call c s = Ok tt s' /\ no_gutis s'.
Proof.
  intros HI. destruct c as [j now k|k f|k|now thr]; cbn; [..|by apply sweep_no_gutis];
    destruct HI as [HL HG].
  - unfold createUeContext, locked, lock_guard, mbind, cpp_bind. rewrite HL. cbn. by eexists.
  - by eexists.
  - unfold removeUeContext, locked, lock_guard. rewrite HL. unfold mbind, cpp_bind. cbn.
    destruct (ueContexts_ s !! k) as [c|]; cbn; eexists; (split; [done|]); split; try done.
    unfold erase_context. case_bool_decide; cbn; [done|]. rewrite HG. apply delete_empty.
Qed.

(** Looking up a context by GUTI, branch by branch. *)
Lemma getUeContextByGuti_spec g s :
  contextMutex_ s = false ->
  getUeContextByGuti g s =
    match gutiToSupi_ s !! g with
    | Some _ => Blocked (set_context_mutex true s)
    | None => Ok None s
    end.
Proof.
  intros HL. unfold getUeContextByGuti, locked at 1, lock_guard at 1. rewrite HL.
  unfold mbind, cpp_bind. cbn. destruct (gutiToSupi_ s !! g); [done|].
  cbn. destruct s as [cs gs []]; done.
Qed.

(** No public operation ever writes the GUTI index, so after any sequence
    of manager calls a lookup by GUTI returns no context; and were an entry
    present, the lookup would wait for ever on the mutex it already holds,
    because it calls [getUeContext] inside its own critical section. *)
Theorem guti_lookup_never_succeeds (calls : list manager_call) :
  (exists s, iterM run_call calls UeContextManager_init = Ok tt s /\
     forall g, getUeContextByGuti g s = Ok None s) /\
  (forall s g k, contextMutex_ s = false -> gutiToSupi_ s !! g = Some k ->
     getUeContextByGuti g s = Blocked (set_context_mutex true s)).
Proof.
  split.
  - destruct (iterM_invariant no_gutis run_call calls run_call_no_gutis UeContextManager_init)
      as (s & E & HL & HG); [done|].
    exists s. split; [done|]. intros g. rewrite getUeContextByGuti_spec by done.
    by rewrite HG.
  - intros s g k HL HG. rewrite getUeContextByGuti_spec by done. by rewrite HG.
Qed.

(** ** What the state machine needs to know about the manager *)

Lemma getUeContext_free k s :
  contextMutex_ s = false -> getUeContext k s = Ok (ueContexts_ s !! k) s.
Proof. intros HL. unfold getUeContext, locked, lock_guard. rewrite HL. by destruct s as [?? []]. Qed.

Lemma createUeContext_free j now k s :
  contextMutex_ s = false ->
  createUeContext j now k s =
    Ok (UeContext_new j now k)
       (set_contexts (<[k := UeContext_new j now k]> (ueContexts_ s)) s).
Proof.
  intros HL. unfold createUeContext, locked, lock_guard. rewrite HL.
  by destruct s as [?? []].
Qed.
