(* ===== verification/N1N2Interface.v ===== *)
(** * N1N2Interface: messages to UEs (N1) and to RAN nodes (N2)

    Models src/5gc/amf/include/N1N2Interface.h and src/N1N2Interface.cpp. A
    registered [std::function] is an opaque callback identifier; the calls made
    to callbacks are recorded, in order, in [callback_log]. The counters are
    [std::atomic<size_t>] and wrap at 2^64. *)

From stdpp Require Import pretty finite.
From S2P Require Import Prelude.

Local Open Scope string_scope.

Module N1MessageType.
Inductive N1MessageType : Set :=
  | REGISTRATION_REQUEST | REGISTRATION_ACCEPT | REGISTRATION_REJECT | REGISTRATION_COMPLETE
  | DEREGISTRATION_REQUEST_UE_ORIG | DEREGISTRATION_REQUEST_UE_TERM
  | DEREGISTRATION_ACCEPT_UE_ORIG | DEREGISTRATION_ACCEPT_UE_TERM
  | SERVICE_REQUEST | SERVICE_ACCEPT | SERVICE_REJECT
  | AUTHENTICATION_REQUEST | AUTHENTICATION_RESPONSE | AUTHENTICATION_RESULT
  | AUTHENTICATION_FAILURE | AUTHENTICATION_REJECT
  | SECURITY_MODE_COMMAND | SECURITY_MODE_COMPLETE | SECURITY_MODE_REJECT
  | IDENTITY_REQUEST | IDENTITY_RESPONSE
  | CONFIGURATION_UPDATE_COMMAND | CONFIGURATION_UPDATE_COMPLETE
  | DL_NAS_TRANSPORT | UL_NAS_TRANSPORT.
#[global] Instance n1_eq_dec : EqDecision N1MessageType.
Proof. solve_decision. Defined.
Definition all : list N1MessageType :=
  [REGISTRATION_REQUEST; REGISTRATION_ACCEPT; REGISTRATION_REJECT; REGISTRATION_COMPLETE;
   DEREGISTRATION_REQUEST_UE_ORIG; DEREGISTRATION_REQUEST_UE_TERM;
   DEREGISTRATION_ACCEPT_UE_ORIG; DEREGISTRATION_ACCEPT_UE_TERM;
   SERVICE_REQUEST; SERVICE_ACCEPT; SERVICE_REJECT;
   AUTHENTICATION_REQUEST; AUTHENTICATION_RESPONSE; AUTHENTICATION_RESULT;
   AUTHENTICATION_FAILURE; AUTHENTICATION_REJECT;
   SECURITY_MODE_COMMAND; SECURITY_MODE_COMPLETE; SECURITY_MODE_REJECT;
   IDENTITY_REQUEST; IDENTITY_RESPONSE;
   CONFIGURATION_UPDATE_COMMAND; CONFIGURATION_UPDATE_COMPLETE;
   DL_NAS_TRANSPORT; UL_NAS_TRANSPORT].
#[global] Program Instance n1_finite : Finite N1MessageType := {| enum := all |}.
Next Obligation. by apply (bool_decide_unpack _). Qed.
Next Obligation. intros []; by apply (bool_decide_unpack _). Qed.
End N1MessageType.

Module N2MessageType.
Inductive N2MessageType : Set :=
  | INITIAL_CONTEXT_SETUP_REQUEST | INITIAL_CONTEXT_SETUP_RESPONSE | INITIAL_CONTEXT_SETUP_FAILURE
  | UE_CONTEXT_RELEASE_COMMAND | UE_CONTEXT_RELEASE_COMPLETE | UE_CONTEXT_RELEASE_REQUEST
  | UE_CONTEXT_MODIFICATION_REQUEST | UE_CONTEXT_MODIFICATION_RESPONSE
  | UE_CONTEXT_MODIFICATION_FAILURE
  | HANDOVER_REQUIRED | HANDOVER_REQUEST | HANDOVER_REQUEST_ACKNOWLEDGE | HANDOVER_FAILURE
  | HANDOVER_NOTIFY | HANDOVER_CANCEL
  | PAGING
  | PATH_SWITCH_REQUEST | PATH_SWITCH_REQUEST_ACKNOWLEDGE | PATH_SWITCH_REQUEST_FAILURE
  | ERROR_INDICATION
  | NG_RESET | NG_RESET_ACKNOWLEDGE
  | NG_SETUP_REQUEST | NG_SETUP_RESPONSE | NG_SETUP_FAILURE
  | AMF_CONFIGURATION_UPDATE | AMF_CONFIGURATION_UPDATE_ACKNOWLEDGE
  | AMF_CONFIGURATION_UPDATE_FAILURE
  | RAN_CONFIGURATION_UPDATE | RAN_CONFIGURATION_UPDATE_ACKNOWLEDGE
  | RAN_CONFIGURATION_UPDATE_FAILURE.
#[global] Instance n2_eq_dec : EqDecision N2MessageType.
Proof. solve_decision. Defined.
Definition all : list N2MessageType :=
  [INITIAL_CONTEXT_SETUP_REQUEST; INITIAL_CONTEXT_SETUP_RESPONSE; INITIAL_CONTEXT_SETUP_FAILURE;
   UE_CONTEXT_RELEASE_COMMAND; UE_CONTEXT_RELEASE_COMPLETE; UE_CONTEXT_RELEASE_REQUEST;
   UE_CONTEXT_MODIFICATION_REQUEST; UE_CONTEXT_MODIFICATION_RESPONSE;
   UE_CONTEXT_MODIFICATION_FAILURE;
   HANDOVER_REQUIRED; HANDOVER_REQUEST; HANDOVER_REQUEST_ACKNOWLEDGE; HANDOVER_FAILURE;
   HANDOVER_NOTIFY; HANDOVER_CANCEL; PAGING;
   PATH_SWITCH_REQUEST; PATH_SWITCH_REQUEST_ACKNOWLEDGE; PATH_SWITCH_REQUEST_FAILURE;
   ERROR_INDICATION; NG_RESET; NG_RESET_ACKNOWLEDGE;
   NG_SETUP_REQUEST; NG_SETUP_RESPONSE; NG_SETUP_FAILURE;
   AMF_CONFIGURATION_UPDATE; AMF_CONFIGURATION_UPDATE_ACKNOWLEDGE;
   AMF_CONFIGURATION_UPDATE_FAILURE;
   RAN_CONFIGURATION_UPDATE; RAN_CONFIGURATION_UPDATE_ACKNOWLEDGE;
   RAN_CONFIGURATION_UPDATE_FAILURE].
#[global] Program Instance n2_finite : Finite N2MessageType := {| enum := all |}.
Next Obligation. by apply (bool_decide_unpack _). Qed.
Next Obligation. intros []; by apply (bool_decide_unpack _). Qed.
End N2MessageType.

(** [static_cast<int>(type)]: the position in the enumeration. *)
Definition n1_to_int (t : N1MessageType.N1MessageType) : Z := Z.of_nat (encode_nat t).
Definition n2_to_int (t : N2MessageType.N2MessageType) : Z := Z.of_nat (encode_nat t).

Record N1Message : Set := mkN1Message {
  n1_messageType : N1MessageType.N1MessageType;
  ueId : string;
  nasMessageContainer : string;
  n1_ieList : gmap string string;
  n1_timestamp : time_point }.

Record N2Message : Set := mkN2Message {
  n2_messageType : N2MessageType.N2MessageType;
  n2_ranNodeId : string;
  ueNgapId : string;
  amfUeNgapId : string;
  ngapContainer : string;
  n2_ieList : gmap string string;
  n2_timestamp : time_point }.

(** The information elements as both [toString] functions print them. *)
Definition print_ies (ies : gmap string string) : string :=
  foldl (fun acc kv => acc +:+ "," +:+ kv.1 +:+ ":" +:+ kv.2) "" (string_map_ordered ies).

Definition N1Message_toString (m : N1Message) : string :=
  "N1Message{type:" +:+ pretty (n1_to_int (n1_messageType m)) +:+ ",ue_id:" +:+ ueId m
    +:+ print_ies (n1_ieList m)
    +:+ ",payload_size:" +:+ pretty (Z.of_nat (String.length (nasMessageContainer m))) +:+ "}".

Definition N2Message_toString (m : N2Message) : string :=
  "N2Message{type:" +:+ pretty (n2_to_int (n2_messageType m)) +:+ ",ran_node_id:"
    +:+ n2_ranNodeId m +:+ ",ue_ngap_id:" +:+ ueNgapId m +:+ ",amf_ue_ngap_id:"
    +:+ amfUeNgapId m +:+ print_ies (n2_ieList m)
    +:+ ",payload_size:" +:+ pretty (Z.of_nat (String.length (ngapContainer m))) +:+ "}".

Record N1N2InterfaceManager : Set := mkN1N2InterfaceManager {
  connectedRanNodes_ : gmap string bool;
  n1MessageCount_ : Z;
  n2MessageCount_ : Z;
  serviceRunning_ : bool;
  bindAddress_ : string;
  n2Port_ : Z;
  interfaceMutex_ : bool;
  n1Callbacks_ : gmap N1MessageType.N1MessageType nat;
  n2Callbacks_ : gmap N2MessageType.N2MessageType nat;
  callback_log : list (nat * (N1Message + N2Message)) }.

(** The singleton as [getInstance] builds it; the port is not initialised. *)
Definition N1N2InterfaceManager_init (j : Junk) : N1N2InterfaceManager :=
  mkN1N2InterfaceManager ∅ 0 0 false "" (junk_int j) false ∅ ∅ [].

Definition set_service (running : bool) (addr : string) (port : Z) (s : N1N2InterfaceManager) :=
  mkN1N2InterfaceManager (connectedRanNodes_ s) (n1MessageCount_ s) (n2MessageCount_ s)
    running addr port (interfaceMutex_ s) (n1Callbacks_ s) (n2Callbacks_ s) (callback_log s).
Definition set_interface_mutex (b : bool) (s : N1N2InterfaceManager) :=
  mkN1N2InterfaceManager (connectedRanNodes_ s) (n1MessageCount_ s) (n2MessageCount_ s)
    (serviceRunning_ s) (bindAddress_ s) (n2Port_ s) b (n1Callbacks_ s) (n2Callbacks_ s)
    (callback_log s).
Definition set_counts (c1 c2 : Z) (s : N1N2InterfaceManager) :=
  mkN1N2InterfaceManager (connectedRanNodes_ s) c1 c2
    (serviceRunning_ s) (bindAddress_ s) (n2Port_ s) (interfaceMutex_ s) (n1Callbacks_ s)
    (n2Callbacks_ s) (callback_log s).
Definition set_callbacks (c1 : gmap N1MessageType.N1MessageType nat)
    (c2 : gmap N2MessageType.N2MessageType nat) (s : N1N2InterfaceManager) :=
  mkN1N2InterfaceManager (connectedRanNodes_ s) (n1MessageCount_ s) (n2MessageCount_ s)
    (serviceRunning_ s) (bindAddress_ s) (n2Port_ s) (interfaceMutex_ s) c1 c2
    (callback_log s).
Definition log_callback (f : nat) (m : N1Message + N2Message) (s : N1N2InterfaceManager) :=
  mkN1N2InterfaceManager (connectedRanNodes_ s) (n1MessageCount_ s) (n2MessageCount_ s)
    (serviceRunning_ s) (bindAddress_ s) (n2Port_ s) (interfaceMutex_ s) (n1Callbacks_ s)
    (n2Callbacks_ s) (callback_log s ++ [(f, m)]).

Definition interface_locked {A} (body : cpp N1N2InterfaceManager A) : cpp N1N2InterfaceManager A :=
  lock_guard interfaceMutex_ set_interface_mutex body.

Definition registerN1Callback (t : N1MessageType.N1MessageType) (f : nat)
    : cpp N1N2InterfaceManager unit :=
  modify (fun s => set_callbacks (<[t := f]> (n1Callbacks_ s)) (n2Callbacks_ s) s).

Definition registerN2Callback (t : N2MessageType.N2MessageType) (f : nat)
    : cpp N1N2InterfaceManager unit :=
  modify (fun s => set_callbacks (n1Callbacks_ s) (<[t := f]> (n2Callbacks_ s)) s).

Definition startN1N2Service (bindAddress : string) (n2Port : Z) : cpp N1N2InterfaceManager bool :=
  interface_locked (
    running ← gets serviceRunning_;
    if (running : bool) then mret true
    else modify (set_service true bindAddress n2Port) ;; mret true).

Definition stopN1N2Service : cpp N1N2InterfaceManager unit :=
  interface_locked (
    running ← gets serviceRunning_;
    if negb running then mret tt
    else modify (fun s => set_service false (bindAddress_ s) (n2Port_ s) s)).

Definition sendN1Message (m : N1Message) : cpp N1N2InterfaceManager bool :=
  running ← gets serviceRunning_;
  if negb running then mret false
  else modify (fun s => set_counts (wrap64 (n1MessageCount_ s + 1)) (n2MessageCount_ s) s) ;;
       mret true.

Definition sendN2Message (m : N2Message) : cpp N1N2InterfaceManager bool :=
  running ← gets serviceRunning_;
  if negb running then mret false
  else modify (fun s => set_counts (n1MessageCount_ s) (wrap64 (n2MessageCount_ s + 1)) s) ;;
       mret true.

Definition handleN1Message (m : N1Message) : cpp N1N2InterfaceManager unit :=
  it ← gets (fun s => n1Callbacks_ s !! n1_messageType m);
  match it with
  | Some f => modify (log_callback f (inl m))
  | None => mret tt
  end.

Definition handleN2Message (m : N2Message) : cpp N1N2InterfaceManager unit :=
  it ← gets (fun s => n2Callbacks_ s !! n2_messageType m);
  match it with
  | Some f => modify (log_callback f (inr m))
  | None => mret tt
  end.

Definition isRanNodeConnected (id : string) : cpp N1N2InterfaceManager bool :=
  interface_locked (gets (fun s => default false (connectedRanNodes_ s !! id))).

Definition getConnectedRanNodes : cpp N1N2InterfaceManager (list string) :=
  interface_locked (gets (fun s =>
    (filter (fun e => e.2 = true) (string_map_ordered (connectedRanNodes_ s))).*1)).

Definition n1MessageTypeToString (t : N1MessageType.N1MessageType) : string :=
  match t with
  | N1MessageType.REGISTRATION_REQUEST => "REGISTRATION_REQUEST"
  | N1MessageType.REGISTRATION_ACCEPT => "REGISTRATION_ACCEPT"
  | N1MessageType.AUTHENTICATION_REQUEST => "AUTHENTICATION_REQUEST"
  | N1MessageType.AUTHENTICATION_RESPONSE => "AUTHENTICATION_RESPONSE"
  | _ => "UNKNOWN"
  end.

Definition n2MessageTypeToString (t : N2MessageType.N2MessageType) : string :=
  match t with
  | N2MessageType.INITIAL_CONTEXT_SETUP_REQUEST => "INITIAL_CONTEXT_SETUP_REQUEST"
  | N2MessageType.UE_CONTEXT_RELEASE_COMMAND => "UE_CONTEXT_RELEASE_COMMAND"
  | N2MessageType.HANDOVER_REQUEST => "HANDOVER_REQUEST"
  | N2MessageType.PAGING => "PAGING"
  | _ => "UNKNOWN"
  end.

Definition stringToN1MessageType (str : string) : N1MessageType.N1MessageType :=
  if String.eqb str "REGISTRATION_REQUEST" then N1MessageType.REGISTRATION_REQUEST else
  if String.eqb str "REGISTRATION_ACCEPT" then N1MessageType.REGISTRATION_ACCEPT else
  if String.eqb str "AUTHENTICATION_REQUEST" then N1MessageType.AUTHENTICATION_REQUEST else
  if String.eqb str "AUTHENTICATION_RESPONSE" then N1MessageType.AUTHENTICATION_RESPONSE else
  N1MessageType.REGISTRATION_REQUEST.

Definition stringToN2MessageType (str : string) : N2MessageType.N2MessageType :=
  if String.eqb str "INITIAL_CONTEXT_SETUP_REQUEST"
  then N2MessageType.INITIAL_CONTEXT_SETUP_REQUEST else
  if String.eqb str "UE_CONTEXT_RELEASE_COMMAND"
  then N2MessageType.UE_CONTEXT_RELEASE_COMMAND else
  if String.eqb str "HANDOVER_REQUEST" then N2MessageType.HANDOVER_REQUEST else
  if String.eqb str "PAGING" then N2MessageType.PAGING else
  N2MessageType.INITIAL_CONTEXT_SETUP_REQUEST.

(** ** Facts the state machine uses *)

Lemma sendN1Message_spec m s :
  sendN1Message m s =
    if serviceRunning_ s
    then Ok true (set_counts (wrap64 (n1MessageCount_ s + 1)) (n2MessageCount_ s) s)
    else Ok false s.
Proof. unfold sendN1Message, mbind, cpp_bind. cbn. by destruct (serviceRunning_ s). Qed.

Lemma sendN2Message_spec m s :
  sendN2Message m s =
    if serviceRunning_ s
    then Ok true (set_counts (n1MessageCount_ s) (wrap64 (n2MessageCount_ s + 1)) s)
    else Ok false s.
Proof. unfold sendN2Message, mbind, cpp_bind. cbn. by destruct (serviceRunning_ s). Qed.

Lemma startN1N2Service_spec addr port s :
  interfaceMutex_ s = false ->
  startN1N2Service addr port s =
    Ok true (if serviceRunning_ s then s else set_service true addr port s).
Proof.
  intros HL. unfold startN1N2Service, interface_locked, lock_guard. rewrite HL.
  unfold mbind, cpp_bind. cbn. destruct s as [??? [] ?? [] ???]; done.
Qed.

Lemma n1_to_int_inj t1 t2 : n1_to_int t1 = n1_to_int t2 -> t1 = t2.
Proof. unfold n1_to_int. intros ?%Nat2Z.inj. by apply (inj encode_nat). Qed.

Example n1_to_int_values :
  n1_to_int N1MessageType.REGISTRATION_REQUEST = 0%Z /\
  n1_to_int N1MessageType.UL_NAS_TRANSPORT = 24%Z /\
  n2_to_int N2MessageType.PAGING = 15%Z /\
  n2_to_int N2MessageType.RAN_CONFIGURATION_UPDATE_FAILURE = 30%Z.
Proof. split_and!; vm_compute; reflexivity. Qed.
