(* ===== verification/NfManagement.v ===== *)
(** * NfManagement: network functions, their registry and the AMF's own entry

    Models src/5gc/amf/include/NfManagement.h and src/NfManagement.cpp: the
    registry [NfManager] with its by-type index behind one mutex, and the
    singleton [AmfNfInstance] that registers with the NRF. Clock readings are
    arguments; the background threads ([healthCheckLoop], the heartbeat lambda)
    are the sequences of the operations they call. *)

From stdpp Require Import finite.
From S2P Require Import Prelude.

Local Open Scope string_scope.

Module NfType.
Inductive NfType : Set :=
  | AMF | SMF | UPF | AUSF | UDM | UDR | PCF | NRF | NSSF | NEF | UNKNOWN.
#[global] Instance nftype_eq_dec : EqDecision NfType.
Proof. solve_decision. Defined.
#[global] Program Instance nftype_finite : Finite NfType :=
  {| enum := [AMF; SMF; UPF; AUSF; UDM; UDR; PCF; NRF; NSSF; NEF; UNKNOWN] |}.
Next Obligation. by apply (bool_decide_unpack _). Qed.
Next Obligation. intros []; by apply (bool_decide_unpack _). Qed.
End NfType.

Module NfStatus.
Inductive NfStatus : Set := REGISTERED | SUSPENDED | UNDISCOVERABLE | DEREGISTERED.
#[global] Instance nfstatus_eq_dec : EqDecision NfStatus.
Proof. solve_decision. Defined.
End NfStatus.

Record NfService : Set := mkNfService {
  serviceInstanceId : string; serviceName : string; versions : list string;
  scheme : string; svc_fqdn : string; svc_ipv4Address : string; svc_ipv6Address : string;
  port : Z; apiPrefix : string; supportedFeatures : gmap string string;
  svc_status : NfStatus.NfStatus }.

Record NfInstance : Set := mkNfInstance {
  nfInstanceId : string;
  nfType : NfType.NfType;
  nfStatus : NfStatus.NfStatus;
  heartBeatTimer : string;
  plmnId : string;
  sNssais : list string;
  taiList : list string;
  fqdn : string;
  ipv4Address : string;
  ipv6Address : string;
  priority : Z;
  capacity : Z;
  load : Z;
  nfServices : list NfService;
  registrationTime : time_point;
  lastHeartbeat : time_point;
  customInfo : gmap string string }.

(** [NfInstance(id, type)]. *)
Definition NfInstance_new (id : string) (type : NfType.NfType) : NfInstance :=
  mkNfInstance id type NfStatus.REGISTERED "" "" [] [] "" "" "" 100 100 0 [] 0 0 ∅.

(** [NfInstance() = default]: the enumerations and integers are indeterminate,
    here the values [jt], [js], [jp], [jc] and [jl]. *)
Definition NfInstance_default (jt : NfType.NfType) (js : NfStatus.NfStatus) (jp jc jl : Z)
    : NfInstance :=
  mkNfInstance "" jt js "" "" [] [] "" "" "" jp jc jl [] 0 0 ∅.

Definition set_services (l : list NfService) (i : NfInstance) : NfInstance :=
  mkNfInstance (nfInstanceId i) (nfType i) (nfStatus i) (heartBeatTimer i) (plmnId i)
    (sNssais i) (taiList i) (fqdn i) (ipv4Address i) (ipv6Address i) (priority i)
    (capacity i) (load i) l (registrationTime i) (lastHeartbeat i) (customInfo i).
Definition set_nf_status (st : NfStatus.NfStatus) (i : NfInstance) : NfInstance :=
  mkNfInstance (nfInstanceId i) (nfType i) st (heartBeatTimer i) (plmnId i)
    (sNssais i) (taiList i) (fqdn i) (ipv4Address i) (ipv6Address i) (priority i)
    (capacity i) (load i) (nfServices i) (registrationTime i) (lastHeartbeat i) (customInfo i).
Definition set_heartbeat (t : time_point) (i : NfInstance) : NfInstance :=
  mkNfInstance (nfInstanceId i) (nfType i) (nfStatus i) (heartBeatTimer i) (plmnId i)
    (sNssais i) (taiList i) (fqdn i) (ipv4Address i) (ipv6Address i) (priority i)
    (capacity i) (load i) (nfServices i) (registrationTime i) t (customInfo i).
Definition set_load_capacity (ld cap : Z) (i : NfInstance) : NfInstance :=
  mkNfInstance (nfInstanceId i) (nfType i) (nfStatus i) (heartBeatTimer i) (plmnId i)
    (sNssais i) (taiList i) (fqdn i) (ipv4Address i) (ipv6Address i) (priority i)
    cap ld (nfServices i) (registrationTime i) (lastHeartbeat i) (customInfo i).

Definition named (n : string) (s : NfService) : bool := bool_decide (serviceName s = n).

Definition addService (s : NfService) (i : NfInstance) : NfInstance :=
  set_services (nfServices i ++ [s]) i.

Definition removeService (n : string) (i : NfInstance) : bool * NfInstance :=
  match find_first (named n) (nfServices i) with
  | Some _ => (true, set_services (erase_first (named n) (nfServices i)) i)
  | None => (false, i)
  end.

Definition getService (n : string) (i : NfInstance) : option NfService :=
  find_first (named n) (nfServices i).

Definition updateLoad (now : time_point) (newLoad : Z) (i : NfInstance) : NfInstance :=
  set_heartbeat now (set_load_capacity (Z.max 0 (Z.min 100 newLoad)) (capacity i) i).

Definition isHealthy (now : time_point) (i : NfInstance) : bool :=
  bool_decide (nfStatus i = NfStatus.REGISTERED) && (seconds_between now (lastHeartbeat i) <? 60)%Z.

Record NfDiscoveryQuery : Set := mkNfDiscoveryQuery {
  targetNfType : NfType.NfType;
  requesterNfType : string;
  requesterNfInstanceId : string;
  targetPlmnId : string;
  targetNfInstanceId : string;
  requesterSNssais : list string;
  targetSNssais : list string;
  q_dnn : string;
  q_snssai : string;
  q_serviceName : string;
  maxNfInstances : Z }.

(** ** The registry *)

Record NfManager : Set := mkNfManager {
  nfInstances_ : gmap string NfInstance;
  nfInstancesByType_ : gmap NfType.NfType (list string);
  nfMutex_ : bool;
  running : bool }.

Definition NfManager_init : NfManager := mkNfManager ∅ ∅ false false.

Definition set_instances (m : gmap string NfInstance) (s : NfManager) : NfManager :=
  mkNfManager m (nfInstancesByType_ s) (nfMutex_ s) (running s).
Definition set_by_type (m : gmap NfType.NfType (list string)) (s : NfManager) : NfManager :=
  mkNfManager (nfInstances_ s) m (nfMutex_ s) (running s).
Definition set_nf_mutex (b : bool) (s : NfManager) : NfManager :=
  mkNfManager (nfInstances_ s) (nfInstancesByType_ s) b (running s).
Definition set_running (b : bool) (s : NfManager) : NfManager :=
  mkNfManager (nfInstances_ s) (nfInstancesByType_ s) (nfMutex_ s) b.

Definition nf_locked {A} (body : cpp NfManager A) : cpp NfManager A :=
  lock_guard nfMutex_ set_nf_mutex body.

Definition suspend_unhealthy (now : time_point) (i : NfInstance) : NfInstance :=
  if negb (isHealthy now i) then set_nf_status NfStatus.SUSPENDED i else i.

Definition performHealthCheck (now : time_point) : cpp NfManager unit :=
  nf_locked (modify (fun s => set_instances (suspend_unhealthy now <$> nfInstances_ s) s)).

Definition stale (now : time_point) (i : NfInstance) : bool :=
  (120 <? seconds_between now (lastHeartbeat i))%Z.

(** The erasing loop body of [cleanupExpiredNfInstances]. *)
Definition remove_expired (id : string) (s : NfManager) : NfManager :=
  match nfInstances_ s !! id with
  | Some i =>
      let typeList := default [] (nfInstancesByType_ s !! nfType i) in
      set_instances (delete id (nfInstances_ s))
        (set_by_type (<[nfType i := filter (fun x => x <> id) typeList]> (nfInstancesByType_ s)) s)
  | None => s
  end.

Definition cleanupExpiredNfInstances (now : time_point) : cpp NfManager unit :=
  nf_locked (modify (fun s =>
    let instancesToRemove :=
      nfInstanceId <$> filter (fun i => stale now i = true) (string_map_ordered (nfInstances_ s)).*2 in
    foldl (fun s id => remove_expired id s) s instancesToRemove)).

Definition start : cpp NfManager bool :=
  r ← gets running;
  if (r : bool) then mret false else modify (set_running true) ;; mret true.

Definition stop : cpp NfManager unit :=
  r ← gets running;
  if negb r then mret tt else modify (set_running false).

Definition registerNfInstance (now : time_point) (i : NfInstance) : cpp NfManager bool :=
  nf_locked (
    it ← gets (fun s => nfInstances_ s !! nfInstanceId i);
    match it with
    | Some _ => mret false
    | None =>
        modify (fun s => set_instances (<[nfInstanceId i := set_heartbeat now i]> (nfInstances_ s)) s) ;;
        modify (fun s => set_by_type
          (<[nfType i := (default [] (nfInstancesByType_ s !! nfType i) ++ [nfInstanceId i])%list]>
             (nfInstancesByType_ s)) s) ;;
        mret true
    end).

Definition deregisterNfInstance (id : string) : cpp NfManager bool :=
  nf_locked (
    it ← gets (fun s => nfInstances_ s !! id);
    match it with
    | None => mret false
    | Some _ => modify (fun s => set_instances (delete id (nfInstances_ s)) s) ;; mret true
    end).

(** The filter of [discoverNfInstances]: type, health and offered service. *)
Definition matches (now : time_point) (q : NfDiscoveryQuery) (i : NfInstance) : bool :=
  (bool_decide (targetNfType q = NfType.UNKNOWN) || bool_decide (nfType i = targetNfType q))
  && isHealthy now i
  && (bool_decide (q_serviceName q = "")
      || existsb (fun s => bool_decide (serviceName s = q_serviceName q)) (nfServices i)).

(** The comparator handed to [std::sort]: higher priority first, then lower load. *)
Definition better (a b : NfInstance) : bool :=
  if (priority a =? priority b)%Z then (load a <? load b)%Z else (priority b <? priority a)%Z.

Section discovery.
Context `{SORT : !StdSort better}.

Definition discoverNfInstances (now : time_point) (q : NfDiscoveryQuery)
    : cpp NfManager (list NfInstance) :=
  nf_locked (gets (fun s =>
    std_sort better (filter (fun i => matches now q i = true)
                       (string_map_ordered (nfInstances_ s)).*2))).

(** The query [selectNfInstance] builds; the members it does not set are empty
    strings and lists (and [maxNfInstances] is indeterminate). *)
Definition select_query (j : Junk) (t : NfType.NfType) (plmn : string) : NfDiscoveryQuery :=
  mkNfDiscoveryQuery t "" "" plmn "" [] [] "" "" "" (junk_int j).

Definition selectNfInstance (j : Junk) (now : time_point) (t : NfType.NfType) (plmn : string)
    : cpp NfManager (option NfInstance) :=
  candidates ← discoverNfInstances now (select_query j t plmn);
  match candidates with
  | [] => mret None
  | c :: _ => nf_locked (gets (fun s => nfInstances_ s !! nfInstanceId c))
  end.
End discovery.

Definition updateNfStatus (now : time_point) (id : string) (st : NfStatus.NfStatus)
    : cpp NfManager bool :=
  nf_locked (
    it ← gets (fun s => nfInstances_ s !! id);
    match it with
    | None => mret false
    | Some i =>
        modify (fun s => set_instances
          (<[id := set_heartbeat now (set_nf_status st i)]> (nfInstances_ s)) s) ;;
        mret true
    end).

Definition processHeartbeat (now : time_point) (id : string) : cpp NfManager unit :=
  nf_locked (
    it ← gets (fun s => nfInstances_ s !! id);
    match it with
    | None => mret tt
    | Some i => modify (fun s => set_instances (<[id := set_heartbeat now i]> (nfInstances_ s)) s)
    end).

Definition getNfStatistics : cpp NfManager (gmap NfType.NfType nat) :=
  nf_locked (gets (fun s => length <$> nfInstancesByType_ s)).

(** ** The AMF's own entry *)

Record AmfNfInstance : Set := mkAmfNfInstance {
  amfInstance_ : NfInstance;
  nrfUri_ : string;
  registered_ : bool;
  heartbeatRunning_ : bool;
  heartbeatThread_ : bool;    (* joinable *)
  heartbeatInterval_ : Z;
  instanceMutex_ : bool }.

(** The singleton as [getInstance] builds it. *)
Definition AmfNfInstance_init (jt : NfType.NfType) (js : NfStatus.NfStatus) (jp jc jl : Z)
    : AmfNfInstance :=
  mkAmfNfInstance (NfInstance_default jt js jp jc jl) "" false false false 30 false.

Definition set_amfInstance (i : NfInstance) (s : AmfNfInstance) : AmfNfInstance :=
  mkAmfNfInstance i (nrfUri_ s) (registered_ s) (heartbeatRunning_ s) (heartbeatThread_ s)
    (heartbeatInterval_ s) (instanceMutex_ s).
Definition set_nrf (uri : string) (r : bool) (s : AmfNfInstance) : AmfNfInstance :=
  mkAmfNfInstance (amfInstance_ s) uri r (heartbeatRunning_ s) (heartbeatThread_ s)
    (heartbeatInterval_ s) (instanceMutex_ s).
Definition set_heartbeat_service (r t : bool) (interval : Z) (s : AmfNfInstance) : AmfNfInstance :=
  mkAmfNfInstance (amfInstance_ s) (nrfUri_ s) (registered_ s) r t interval (instanceMutex_ s).
Definition set_instance_mutex (b : bool) (s : AmfNfInstance) : AmfNfInstance :=
  mkAmfNfInstance (amfInstance_ s) (nrfUri_ s) (registered_ s) (heartbeatRunning_ s)
    (heartbeatThread_ s) (heartbeatInterval_ s) b.

Definition self_locked {A} (body : cpp AmfNfInstance A) : cpp AmfNfInstance A :=
  lock_guard instanceMutex_ set_instance_mutex body.

(** The four services the AMF announces; [j_status] is their indeterminate status. *)
Definition amf_service (j_status : NfStatus.NfStatus) (name prefix : string) : NfService :=
  mkNfService "" name [] "http" "amf.5gc.mnc001.mcc460.3gppnetwork.org" "" "" 8080 prefix ∅ j_status.

Definition AmfNfInstance_initialize (j_status : NfStatus.NfStatus) (id plmn : string)
    : cpp AmfNfInstance bool :=
  self_locked (
    modify (fun s =>
      let i := amfInstance_ s in
      set_amfInstance
        (mkNfInstance id NfType.AMF NfStatus.REGISTERED (heartBeatTimer i) plmn
           (sNssais i) (taiList i) (fqdn i) (ipv4Address i) (ipv6Address i) (priority i)
           (capacity i) (load i)
           (nfServices i ++
              [amf_service j_status "namf-comm" "/namf-comm/v1";
               amf_service j_status "namf-evts" "/namf-evts/v1";
               amf_service j_status "namf-mt" "/namf-mt/v1";
               amf_service j_status "namf-loc" "/namf-loc/v1"])
           (registrationTime i) (lastHeartbeat i) (customInfo i)) s) ;;
    mret true).

(** Joining the heartbeat thread is taken to succeed once it was told to stop. *)
Definition stopHeartbeatService : cpp AmfNfInstance unit :=
  modify (fun s => set_heartbeat_service false (heartbeatThread_ s) (heartbeatInterval_ s) s) ;;
  joinable ← gets heartbeatThread_;
  if (joinable : bool)
  then modify (fun s => set_heartbeat_service (heartbeatRunning_ s) false (heartbeatInterval_ s) s)
  else mret tt.

Definition startHeartbeatService (intervalSeconds : Z) : cpp AmfNfInstance unit :=
  self_locked (
    stopHeartbeatService ;;
    modify (set_heartbeat_service true true intervalSeconds)).

Definition registerWithNrf (uri : string) : cpp AmfNfInstance bool :=
  self_locked (
    modify (fun s => set_nrf uri (registered_ s) s) ;;
    modify (fun s => set_nrf (nrfUri_ s) true s) ;;
    startHeartbeatService 30 ;;
    mret true).

Definition sendHeartbeat (now : time_point) : cpp AmfNfInstance bool :=
  self_locked (
    r ← gets registered_;
    if negb r then mret false
    else modify (fun s => set_amfInstance (set_heartbeat now (amfInstance_ s)) s) ;; mret true).

Definition updateStatus (st : NfStatus.NfStatus) : cpp AmfNfInstance unit :=
  self_locked (modify (fun s => set_amfInstance (set_nf_status st (amfInstance_ s)) s)).

Definition AmfNfInstance_updateLoad (ld : Z) : cpp AmfNfInstance unit :=
  self_locked (modify (fun s =>
    set_amfInstance (set_load_capacity ld (capacity (amfInstance_ s)) (amfInstance_ s)) s)).

Definition updateCapacity (cap : Z) : cpp AmfNfInstance unit :=
  self_locked (modify (fun s =>
    set_amfInstance (set_load_capacity (load (amfInstance_ s)) cap (amfInstance_ s)) s)).

(** ** Names of the enumerations *)

Definition nfTypeToString (t : NfType.NfType) : string :=
  match t with
  | NfType.AMF => "AMF" | NfType.SMF => "SMF" | NfType.UPF => "UPF" | NfType.AUSF => "AUSF"
  | NfType.UDM => "UDM" | NfType.UDR => "UDR" | NfType.PCF => "PCF" | NfType.NRF => "NRF"
  | NfType.NSSF => "NSSF" | NfType.NEF => "NEF" | _ => "UNKNOWN"
  end.

Definition nfStatusToString (st : NfStatus.NfStatus) : string :=
  match st with
  | NfStatus.REGISTERED => "REGISTERED" | NfStatus.SUSPENDED => "SUSPENDED"
  | NfStatus.UNDISCOVERABLE => "UNDISCOVERABLE" | NfStatus.DEREGISTERED => "DEREGISTERED"
  end.

Definition stringToNfType (str : string) : NfType.NfType :=
  if String.eqb str "AMF" then NfType.AMF else
  if String.eqb str "SMF" then NfType.SMF else
  if String.eqb str "UPF" then NfType.UPF else
  if String.eqb str "AUSF" then NfType.AUSF else
  if String.eqb str "UDM" then NfType.UDM else
  if String.eqb str "UDR" then NfType.UDR else
  if String.eqb str "PCF" then NfType.PCF else
  if String.eqb str "NRF" then NfType.NRF else
  if String.eqb str "NSSF" then NfType.NSSF else
  if String.eqb str "NEF" then NfType.NEF else
  NfType.UNKNOWN.

Definition stringToNfStatus (str : string) : NfStatus.NfStatus :=
  if String.eqb str "REGISTERED" then NfStatus.REGISTERED else
  if String.eqb str "SUSPENDED" then NfStatus.SUSPENDED else
  if String.eqb str "UNDISCOVERABLE" then NfStatus.UNDISCOVERABLE else
  if String.eqb str "DEREGISTERED" then NfStatus.DEREGISTERED else
  NfStatus.DEREGISTERED.

(** ** The registry operations when the mutex is free *)

(** Runs a locked registry operation on a state whose mutex is free. *)
Ltac run_locked HL :=
  unfold nf_locked, lock_guard; rewrite HL; unfold mbind, cpp_bind; cbn.

Section runs.
Context (s : NfManager) (HL : nfMutex_ s = false).

Lemma unlocked_id : set_nf_mutex false (set_nf_mutex true s) = s.
Proof using HL. destruct s; cbn in *. by subst. Qed.

Lemma registerNfInstance_run now i :
  registerNfInstance now i s =
    match nfInstances_ s !! nfInstanceId i with
    | Some _ => Ok false s
    | None => Ok true
        (set_by_type
           (<[nfType i := (default [] (nfInstancesByType_ s !! nfType i) ++ [nfInstanceId i])%list]>
              (nfInstancesByType_ s))
           (set_instances (<[nfInstanceId i := set_heartbeat now i]> (nfInstances_ s)) s))
    end.
Proof using HL.
  unfold registerNfInstance. run_locked HL.
  destruct (nfInstances_ s !! nfInstanceId i); cbn; destruct s; cbn in *; by subst.
Qed.

Lemma deregisterNfInstance_run id :
  deregisterNfInstance id s =
    match nfInstances_ s !! id with
    | Some _ => Ok true (set_instances (delete id (nfInstances_ s)) s)
    | None => Ok false s
    end.
Proof using HL.
  unfold deregisterNfInstance. run_locked HL.
  destruct (nfInstances_ s !! id); cbn; destruct s; cbn in *; by subst.
Qed.

Lemma updateNfStatus_run now id st :
  updateNfStatus now id st s =
    match nfInstances_ s !! id with
    | Some i => Ok true (set_instances
                 (<[id := set_heartbeat now (set_nf_status st i)]> (nfInstances_ s)) s)
    | None => Ok false s
    end.
Proof using HL.
  unfold updateNfStatus. run_locked HL.
  destruct (nfInstances_ s !! id); cbn; destruct s; cbn in *; by subst.
Qed.

Lemma processHeartbeat_run now id :
  processHeartbeat now id s =
    match nfInstances_ s !! id with
    | Some i => Ok tt (set_instances (<[id := set_heartbeat now i]> (nfInstances_ s)) s)
    | None => Ok tt s
    end.
Proof using HL.
  unfold processHeartbeat. run_locked HL.
  destruct (nfInstances_ s !! id); cbn; destruct s; cbn in *; by subst.
Qed.

Lemma performHealthCheck_run now :
  performHealthCheck now s = Ok tt (set_instances (suspend_unhealthy now <$> nfInstances_ s) s).
Proof using HL. unfold performHealthCheck. run_locked HL. destruct s; cbn in *; by subst. Qed.

Lemma getNfStatistics_run : getNfStatistics s = Ok (length <$> nfInstancesByType_ s) s.
Proof using HL. unfold getNfStatistics. run_locked HL. by rewrite unlocked_id. Qed.
End runs.

(** ** Soundness of the by-type index *)

Inductive nf_call : Type :=
  | NfRegister (now : time_point) (i : NfInstance)
  | NfDeregister (id : string)
  | NfUpdateStatus (now : time_point) (id : string) (st : NfStatus.NfStatus)
  | NfHeartbeat (now : time_point) (id : string)
  | NfHealthCheck (now : time_point)
  | NfCleanup (now : time_point).

Definition run_nf (c : nf_call) : cpp NfManager unit :=
  match c with
  | NfRegister now i => registerNfInstance now i ;; mret tt
  | NfDeregister id => deregisterNfInstance id ;; mret tt
  | NfUpdateStatus now id st => updateNfStatus now id st ;; mret tt
  | NfHeartbeat now id => processHeartbeat now id
  | NfHealthCheck now => performHealthCheck now
  | NfCleanup now => cleanupExpiredNfInstances now
  end.

Definition indexed (s : NfManager) : Prop :=
  forall id i, nfInstances_ s !! id = Some i ->
    nfInstanceId i = id /\ id ∈ default [] (nfInstancesByType_ s !! nfType i).

Definition registry_ok (s : NfManager) : Prop := nfMutex_ s = false /\ indexed s.

Lemma indexed_insert_same s id i i' :
  indexed s -> nfInstances_ s !! id = Some i ->
  nfInstanceId i' = nfInstanceId i -> nfType i' = nfType i ->
  indexed (set_instances (<[id := i']> (nfInstances_ s)) s).
Proof.
  intros HI Hi E1 E2 k x. cbn. rewrite lookup_insert. case_decide as Hk; [|apply HI].
  intros [= <-]. subst k. rewrite E1, E2. by apply HI.
Qed.

Lemma remove_expired_indexed id s : indexed s -> indexed (remove_expired id s).
Proof.
  intros HI. unfold remove_expired. destruct (nfInstances_ s !! id) as [i|] eqn:Hi; [|done].
  intros k x. cbn. rewrite lookup_delete. case_decide as Hk; [done|].
  intros Hx. destruct (HI k x Hx) as [E Hin]. split; [done|].
  rewrite lookup_insert. case_decide as Ht; [|done]. rewrite <-Ht in Hin. cbn.
  apply list_elem_of_filter. split; [congruence|done].
Qed.

Lemma remove_expired_all_indexed ids s :
  indexed s -> indexed (foldl (fun s id => remove_expired id s) s ids).
Proof.
  revert s. induction ids as [|id ids IH]; intros s HI; [done|].
  cbn. by apply IH, remove_expired_indexed.
Qed.

Lemma run_nf_ok c s : registry_ok s -> exists s', run_nf c s = Ok tt s' /\ registry_ok s'.
Proof.
  intros [HL HI]. destruct c as [now i|id|now id st|now id|now|now]; cbn [run_nf];
    unfold mbind, cpp_bind.
  - rewrite registerNfInstance_run by done.
    destruct (_ !! nfInstanceId i) eqn:E; [by exists s|]. eexists. split; [done|].
    split; [done|]. intros k x. cbn. rewrite lookup_insert. case_decide as Hk.
    + intros [= <-]. split; [done|]. cbn. rewrite lookup_insert_eq. cbn. set_solver.
    + intros Hx. destruct (HI k x Hx) as [? Hin]. split; [done|].
      rewrite lookup_insert. case_decide as Ht; [|done]. rewrite <-Ht in Hin. cbn. set_solver.
  - rewrite deregisterNfInstance_run by done. destruct (_ !! id); [|by exists s].
    eexists. split; [done|]. split; [done|]. intros k x. cbn.
    rewrite lookup_delete. case_decide; [done|apply HI].
  - rewrite updateNfStatus_run by done. destruct (_ !! id) eqn:E; [|by exists s].
    eexists. split; [done|]. split; [done|]. by eapply indexed_insert_same.
  - rewrite processHeartbeat_run by done. destruct (_ !! id) eqn:E; [|by exists s].
    eexists. split; [done|]. split; [done|]. by eapply indexed_insert_same.
  - rewrite performHealthCheck_run by done. eexists. split; [done|]. split; [done|].
    intros k x. cbn. rewrite lookup_fmap. intros (y & Hy & ->)%fmap_Some.
    destruct (HI k y Hy). unfold suspend_unhealthy. by destruct (negb _).
  - unfold cleanupExpiredNfInstances. run_locked HL. eexists. split; [done|].
    split; [done|]. by apply (remove_expired_all_indexed _ (set_nf_mutex true s)).
Qed.

(** After any sequence of registrations, deregistrations, status updates,
    heartbeats, health checks and expiry sweeps, every call returned and every
    instance in the registry is stored under its own id and listed in the index
    of its type. *)
Theorem registry_index_sound (calls : list nf_call) :
  exists s, iterM run_nf calls NfManager_init = Ok tt s /\
    forall id i, nfInstances_ s !! id = Some i ->
      nfInstanceId i = id /\ id ∈ default [] (nfInstancesByType_ s !! nfType i).
Proof.
  destruct (iterM_invariant registry_ok run_nf calls run_nf_ok NfManager_init)
    as (s & E & _ & HI); [|by exists s].
  split; [done|]. intros id i Hi. cbn in Hi. by rewrite lookup_empty in Hi.
Qed.

(** Deregistration forgets the by-type index: registering a new instance and
    deregistering it again gives back the same registry, but the statistics
    (which the AMF reports as its registered and healthy instances) still count
    it. *)
Theorem deregister_leaves_statistics now i s :
  nfMutex_ s = false -> nfInstances_ s !! nfInstanceId i = None ->
  exists s1 s2 st st2,
    registerNfInstance now i s = Ok true s1 /\
    deregisterNfInstance (nfInstanceId i) s1 = Ok true s2 /\
    getNfStatistics s = Ok st s /\ getNfStatistics s2 = Ok st2 s2 /\
    nfInstances_ s2 = nfInstances_ s /\
    st2 !! nfType i = Some (S (default 0 (st !! nfType i))).
Proof.
  intros HL HN.
  do 4 eexists. split_and!.
  - rewrite registerNfInstance_run by done. by rewrite HN.
  - rewrite deregisterNfInstance_run by done. cbn. by rewrite lookup_insert_eq.
  - by apply getNfStatistics_run.
  - by apply getNfStatistics_run.
  - cbn. by apply delete_insert_id.
  - cbn. rewrite !lookup_fmap, lookup_insert_eq. cbn. f_equal. rewrite length_app. cbn.
    destruct (_ !! nfType i); cbn; lia.
Qed.

Definition sample_smf : NfInstance := NfInstance_new "smf-001" NfType.SMF.

Lemma deregister_leaves_statistics_witness :
  nfInstances_ NfManager_init !! nfInstanceId sample_smf = None /\
  exists s2 st2, iterM run_nf [NfRegister 0 sample_smf; NfDeregister "smf-001"] NfManager_init
                   = Ok tt s2 /\
    nfInstances_ s2 = ∅ /\ getNfStatistics s2 = Ok st2 s2 /\ st2 !! NfType.SMF = Some 1.
Proof.
  split; [reflexivity|].
  destruct (deregister_leaves_statistics 0 sample_smf NfManager_init eq_refl eq_refl)
    as (s1 & s2 & st & st2 & E1 & E2 & E3 & E4 & E5 & E6).
  exists s2, st2. vm_compute in E1. injection E1 as <-. vm_compute in E2. injection E2 as <-.
  split_and!; [vm_compute; reflexivity|exact E5|exact E4|].
  vm_compute in E3. injection E3 as <-. exact E6.
Defined.

(** ** Discovery and selection *)

Lemma better_asym a b : better a b = true -> better b a = false.
Proof. unfold better. rewrite Z.eqb_sym. destruct (Z.eqb_spec (priority b) (priority a)); lia. Qed.

Lemma better_neg_trans a b c : better b a = false -> better c b = false -> better c a = false.
Proof.
  unfold better.
  destruct (Z.eqb_spec (priority b) (priority a)), (Z.eqb_spec (priority c) (priority b)),
    (Z.eqb_spec (priority c) (priority a)); lia.
Qed.

Definition better_sort : StdSort better := merge_sort_std_sort better better_asym better_neg_trans.

Section discovery_facts.
Context `{SORT : !StdSort better}.

Definition matching (now : time_point) (q : NfDiscoveryQuery) (s : NfManager) : list NfInstance :=
  filter (fun i => matches now q i = true) (string_map_ordered (nfInstances_ s)).*2.

Lemma elem_of_matching now q s i :
  i ∈ matching now q s <-> matches now q i = true /\ exists id, nfInstances_ s !! id = Some i.
Proof.
  unfold matching. rewrite list_elem_of_filter, list_elem_of_fmap. split.
  - intros [Hm ([k x] & -> & Hin)]. split; [done|]. exists k. by apply elem_of_map_ordered in Hin.
  - intros [Hm [k Hk]]. split; [done|]. exists (k, i). by rewrite elem_of_map_ordered.
Qed.

Lemma discover_run now q s :
  nfMutex_ s = false -> discoverNfInstances now q s = Ok (std_sort better (matching now q s)) s.
Proof.
  intros HL. unfold discoverNfInstances, nf_locked, lock_guard. rewrite HL. cbn.
  by rewrite unlocked_id.
Qed.

Lemma select_run j now t plmn s :
  nfMutex_ s = false ->
  selectNfInstance j now t plmn s =
    Ok (c ← head (std_sort better (matching now (select_query j t plmn) s));
        nfInstances_ s !! nfInstanceId c) s.
Proof.
  intros HL. unfold selectNfInstance, mbind at 1, cpp_bind. rewrite discover_run by done.
  destruct (std_sort better _) as [|c l]; [done|].
  unfold nf_locked, lock_guard. rewrite HL. cbn. by rewrite unlocked_id.
Qed.

(** Discovery returns exactly the registered, healthy instances of the
    requested type that offer the requested service, each once, ordered by
    decreasing priority and increasing load. *)
Theorem discovery_correct now q s :
  nfMutex_ s = false ->
  exists l, discoverNfInstances now q s = Ok l s /\
    l ≡ₚ filter (fun i => matches now q i = true) (map_to_list (nfInstances_ s)).*2 /\
    (forall (a b : nat) x y, l !! a = Some x -> l !! b = Some y -> a < b ->
       (priority y < priority x \/ priority x = priority y /\ load x <= load y)%Z).
Proof.
  intros HL. exists (std_sort better (matching now q s)). split; [by apply discover_run|]. split.
  - rewrite std_sort_perm. unfold matching. by rewrite map_ordered_perm.
  - intros a b x y Hx Hy Hab.
    pose proof (StronglySorted_lookup _ _ _ _ _ _ (std_sort_sorted (matching now q s)) Hx Hy Hab)
      as HB. unfold better in HB. destruct (Z.eqb_spec (priority y) (priority x)); lia.
Qed.

(** Selection is best-effort complete: it returns nothing exactly when no
    registered instance of the type is healthy, and otherwise a healthy
    registered instance of that type which no matching instance beats on
    (priority, load). The PLMN the caller asks for plays no part. *)
Theorem selection_optimal j now t s :
  nfMutex_ s = false -> t <> NfType.UNKNOWN ->
  (forall id i, nfInstances_ s !! id = Some i -> nfInstanceId i = id) ->
  exists r, (forall plmn, selectNfInstance j now t plmn s = Ok r s) /\
    let candidate i := exists id, nfInstances_ s !! id = Some i /\ nfType i = t /\
                                  isHealthy now i = true in
    match r with
    | None => forall i, ~ candidate i
    | Some i => candidate i /\ forall i', candidate i' -> better i' i = false
    end.
Proof.
  intros HL Ht Hkey.
  assert (forall p, matching now (select_query j t p) s = matching now (select_query j t "") s)
    as Hp by done.
  assert (forall i, i ∈ matching now (select_query j t "") s <->
            exists id, nfInstances_ s !! id = Some i /\ nfType i = t /\ isHealthy now i = true) as Hm.
  { intros i. rewrite elem_of_matching. unfold matches. cbn.
    rewrite bool_decide_false by done. cbn. rewrite andb_true_r, andb_true_iff, bool_decide_eq_true.
    naive_solver. }
  eexists. split; [intros p; rewrite select_run, Hp by done; reflexivity|].
  pose proof (std_sort_sorted (matching now (select_query j t "") s)) as HS.
  pose proof (std_sort_perm (matching now (select_query j t "") s)) as HP.
  destruct (std_sort better _) as [|c l]; cbn.
  - intros i Hc. apply Hm in Hc. rewrite <-HP in Hc. by apply not_elem_of_nil in Hc.
  - assert (c ∈ matching now (select_query j t "") s) as Hc by (rewrite <-HP; by left).
    pose proof (proj1 (Hm c) Hc) as (id & Hid & ? & ?). rewrite (Hkey id c Hid), Hid.
    split; [by exists id|]. intros i' Hi'. apply Hm in Hi'. rewrite <-HP in Hi'.
    apply StronglySorted_inv in HS as [_ HF]. rewrite Forall_forall in HF.
    apply elem_of_cons in Hi' as [->|Hi']; [|by apply HF].
    unfold better. rewrite Z.eqb_refl. lia.
Qed.
End discovery_facts.

Definition sample_registry : NfManager :=
  mkNfManager
    (<["smf-002" := set_load_capacity 7 100 (NfInstance_new "smf-002" NfType.SMF)]>
      (<["smf-001" := set_load_capacity 40 100 sample_smf]> ∅))
    (<[NfType.SMF := ["smf-001"; "smf-002"]]> ∅) false true.

Lemma discovery_correct_witness :
  nfMutex_ sample_registry = false /\
  exists l, discoverNfInstances (SORT := better_sort) (10 ^ 9)
              (select_query sample_junk NfType.SMF "") sample_registry = Ok l sample_registry /\
    nfInstanceId <$> l = ["smf-002"; "smf-001"].
Proof.
  split; [reflexivity|].
  destruct (discovery_correct (SORT := better_sort) (10 ^ 9)
    (select_query sample_junk NfType.SMF "") sample_registry eq_refl) as (l & E & _).
  exists l. split; [exact E|]. vm_compute in E. injection E as <-. reflexivity.
Defined.

Lemma selection_optimal_witness :
  exists r, selectNfInstance (SORT := better_sort) sample_junk (10 ^ 9) NfType.SMF "46001"
              sample_registry = Ok r sample_registry /\
    nfInstanceId <$> r = Some "smf-002".
Proof.
  destruct (selection_optimal (SORT := better_sort) sample_junk (10 ^ 9) NfType.SMF
              sample_registry eq_refl ltac:(done)) as (r & E & _).
  - intros id i. unfold sample_registry. cbn. rewrite !lookup_insert.
    repeat case_decide; naive_solver.
  - exists r. specialize (E "46001"). split; [exact E|]. vm_compute in E. injection E as <-.
    reflexivity.
Defined.

(** ** Suspended instances *)

(** Calls that are neither an explicit status update or deregistration of [id]
    nor the expiry sweep. *)
Definition spares (id : string) (c : nf_call) : Prop :=
  match c with
  | NfDeregister id' | NfUpdateStatus _ id' _ => id' <> id
  | NfCleanup _ => False
  | _ => True
  end.

Definition suspended_in (id : string) (s : NfManager) : Prop :=
  nfMutex_ s = false /\ exists i, nfInstances_ s !! id = Some i /\ nfStatus i = NfStatus.SUSPENDED.

Lemma unhealthy_check_suspends now id i s :
  nfMutex_ s = false -> nfInstances_ s !! id = Some i ->
  nfStatus i = NfStatus.SUSPENDED \/ isHealthy now i = false ->
  suspended_in id (set_instances (suspend_unhealthy now <$> nfInstances_ s) s).
Proof.
  intros HL Hi Hs. split; [done|]. exists (suspend_unhealthy now i). cbn.
  rewrite lookup_fmap, Hi. split; [done|]. unfold suspend_unhealthy.
  destruct Hs as [Hs|Hs]; [|by rewrite Hs]. by destruct (negb _).
Qed.

Lemma run_nf_suspended id c s :
  spares id c -> suspended_in id s -> exists s', run_nf c s = Ok tt s' /\ suspended_in id s'.
Proof.
  intros Hc (HL & i & Hi & Hs). assert (suspended_in id s) as HI by (split; eauto).
  destruct c as [now x|id'|now id' st|now id'|now|now]; cbn in Hc |- *; unfold mbind, cpp_bind.
  - rewrite registerNfInstance_run by done. destruct (_ !! nfInstanceId x) eqn:E; [by exists s|].
    eexists. split; [done|]. split; [done|]. exists i. cbn.
    rewrite lookup_insert_ne; [done|congruence].
  - rewrite deregisterNfInstance_run by done. destruct (_ !! id'); [|by exists s].
    eexists. split; [done|]. split; [done|]. exists i. cbn. by rewrite lookup_delete_ne.
  - rewrite updateNfStatus_run by done. destruct (_ !! id'); [|by exists s].
    eexists. split; [done|]. split; [done|]. exists i. cbn. by rewrite lookup_insert_ne.
  - rewrite processHeartbeat_run by done. destruct (_ !! id') as [x|] eqn:E; [|by exists s].
    eexists. split; [done|]. split; [done|]. cbn.
    destruct (decide (id' = id)) as [->|].
    + exists (set_heartbeat now x). rewrite lookup_insert_eq. split; [done|]. cbn. congruence.
    + exists i. by rewrite lookup_insert_ne.
  - rewrite performHealthCheck_run by done. eexists. split; [done|].
    eapply unhealthy_check_suspends; eauto.
  - done.
Qed.

(** Suspension is sticky: once a health check finds an instance without a
    heartbeat for a minute it is suspended, and no number of later heartbeats,
    health checks or registration attempts makes it discoverable again; only an
    explicit status update does (or removal). *)
Theorem suspension_sticky now id i s calls :
  nfMutex_ s = false -> nfInstances_ s !! id = Some i -> isHealthy now i = false ->
  Forall (spares id) calls ->
  exists s' i', iterM run_nf (NfHealthCheck now :: calls) s = Ok tt s' /\
    nfInstances_ s' !! id = Some i' /\ nfStatus i' = NfStatus.SUSPENDED /\
    (forall now', isHealthy now' i' = false).
Proof.
  intros HL Hi Hh HF.
  destruct (iterM_invariant_Forall (suspended_in id) (spares id) run_nf calls (run_nf_suspended id)
              HF (set_instances (suspend_unhealthy now <$> nfInstances_ s) s))
    as (s' & E & _ & i' & Hi' & Hs).
  { eapply unhealthy_check_suspends; eauto. }
  exists s', i'. split_and!; [|done..|].
  - cbn [iterM run_nf]. by rewrite (bind_Ok _ _ _ _ _ (performHealthCheck_run s HL now)).
  - intros now'. unfold isHealthy. by rewrite Hs.
Qed.

Lemma suspension_sticky_witness :
  isHealthy (61 * 10 ^ 9) sample_smf = false /\
  exists s' i', iterM run_nf [NfHealthCheck (61 * 10 ^ 9); NfHeartbeat (62 * 10 ^ 9) "smf-001";
                              NfHealthCheck (63 * 10 ^ 9)]
                  (mkNfManager (<["smf-001" := sample_smf]> ∅) ∅ false true) = Ok tt s' /\
    nfInstances_ s' !! "smf-001" = Some i' /\ nfStatus i' = NfStatus.SUSPENDED.
Proof.
  split; [reflexivity|].
  destruct (suspension_sticky (61 * 10 ^ 9) "smf-001" sample_smf
    (mkNfManager (<["smf-001" := sample_smf]> ∅) ∅ false true)
    [NfHeartbeat (62 * 10 ^ 9) "smf-001"; NfHealthCheck (63 * 10 ^ 9)]
    eq_refl (lookup_insert_eq _ _ _) eq_refl ltac:(repeat constructor)) as (s' & i' & E & Hi & Hs & _).
  exists s', i'. split; [exact E|]. split; [exact Hi|exact Hs].
Defined.

(** ** Names round-trip *)

Lemma stringToNfType_nfTypeToString t : stringToNfType (nfTypeToString t) = t.
Proof. by destruct t. Qed.

Lemma stringToNfStatus_nfStatusToString st : stringToNfStatus (nfStatusToString st) = st.
Proof. by destruct st. Qed.

(** ** The AMF's own entry: registration with the NRF *)

Lemma registerWithNrf_blocks uri s :
  instanceMutex_ s = false ->
  registerWithNrf uri s = Blocked (set_instance_mutex true (set_nrf uri true s)).
Proof.
  intros HL. unfold registerWithNrf, self_locked at 1, lock_guard at 1. rewrite HL.
  by destruct s.
Qed.

Lemma AmfNfInstance_initialize_run js id plmn s :
  instanceMutex_ s = false ->
  exists s', AmfNfInstance_initialize js id plmn s = Ok true s' /\ instanceMutex_ s' = false.
Proof.
  intros HL. unfold AmfNfInstance_initialize, self_locked, lock_guard. rewrite HL. by eexists.
Qed.
