(* ===== verification/AmfConfiguration.v ===== *)
(** * AmfConfiguration: the AMF's configuration record

    Models src/5gc/amf/include/AmfConfiguration.h and
    src/5gc/amf/src/AmfConfiguration.cpp: the record, its defaults, and the
    reading and writing of configuration files (a file is the string of its
    contents, [None] when it cannot be opened). *)

From Stdlib Require Import Ascii.
From S2P Require Import Prelude Text.

Local Open Scope string_scope.

Record AmfConfiguration : Set := mkAmfConfiguration {
  amfInstanceId : string;
  amfName : string;
  amfRegionId : string;
  amfSetId : string;
  amfPointer : string;
  cfg_plmnId : string;
  cfg_taiList : list string;
  plmnList : list string;
  sbiBindAddress : string;
  sbiPort : Z;
  n1n2BindAddress : string;
  n2Port : Z;
  amfKey : string;
  supportedAlgorithms : list string;
  authenticationTimeout : Z;
  supportedSlices : list string;
  maxUeConnections : Z;
  loadBalanceThreshold : Z;
  t3510Timer : Z;
  t3511Timer : Z;
  t3513Timer : Z;
  t3560Timer : Z;
  nrfUri : string;
  nfHeartbeatInterval : Z;
  logLevel : string;
  logFile : string }.

Definition set_amfInstanceId (v : string) (r : AmfConfiguration) : AmfConfiguration :=
  mkAmfConfiguration v (amfName r) (amfRegionId r) (amfSetId r) (amfPointer r) (cfg_plmnId r)
    (cfg_taiList r) (plmnList r) (sbiBindAddress r) (sbiPort r) (n1n2BindAddress r) (n2Port r)
    (amfKey r) (supportedAlgorithms r) (authenticationTimeout r) (supportedSlices r) (maxUeConnections r) (loadBalanceThreshold r)
    (t3510Timer r) (t3511Timer r) (t3513Timer r) (t3560Timer r) (nrfUri r) (nfHeartbeatInterval r)
    (logLevel r) (logFile r).
Definition set_amfName (v : string) (r : AmfConfiguration) : AmfConfiguration :=
  mkAmfConfiguration (amfInstanceId r) v (amfRegionId r) (amfSetId r) (amfPointer r) (cfg_plmnId r)
    (cfg_taiList r) (plmnList r) (sbiBindAddress r) (sbiPort r) (n1n2BindAddress r) (n2Port r)
    (amfKey r) (supportedAlgorithms r) (authenticationTimeout r) (supportedSlices r) (maxUeConnections r) (loadBalanceThreshold r)
    (t3510Timer r) (t3511Timer r) (t3513Timer r) (t3560Timer r) (nrfUri r) (nfHeartbeatInterval r)
    (logLevel r) (logFile r).
Definition set_cfg_plmnId (v : string) (r : AmfConfiguration) : AmfConfiguration :=
  mkAmfConfiguration (amfInstanceId r) (amfName r) (amfRegionId r) (amfSetId r) (amfPointer r) v
    (cfg_taiList r) (plmnList r) (sbiBindAddress r) (sbiPort r) (n1n2BindAddress r) (n2Port r)
    (amfKey r) (supportedAlgorithms r) (authenticationTimeout r) (supportedSlices r) (maxUeConnections r) (loadBalanceThreshold r)
    (t3510Timer r) (t3511Timer r) (t3513Timer r) (t3560Timer r) (nrfUri r) (nfHeartbeatInterval r)
    (logLevel r) (logFile r).
Definition set_sbiBindAddress (v : string) (r : AmfConfiguration) : AmfConfiguration :=
  mkAmfConfiguration (amfInstanceId r) (amfName r) (amfRegionId r) (amfSetId r) (amfPointer r) (cfg_plmnId r)
    (cfg_taiList r) (plmnList r) v (sbiPort r) (n1n2BindAddress r) (n2Port r)
    (amfKey r) (supportedAlgorithms r) (authenticationTimeout r) (supportedSlices r) (maxUeConnections r) (loadBalanceThreshold r)
    (t3510Timer r) (t3511Timer r) (t3513Timer r) (t3560Timer r) (nrfUri r) (nfHeartbeatInterval r)
    (logLevel r) (logFile r).
Definition set_sbiPort (v : Z) (r : AmfConfiguration) : AmfConfiguration :=
  mkAmfConfiguration (amfInstanceId r) (amfName r) (amfRegionId r) (amfSetId r) (amfPointer r) (cfg_plmnId r)
    (cfg_taiList r) (plmnList r) (sbiBindAddress r) v (n1n2BindAddress r) (n2Port r)
    (amfKey r) (supportedAlgorithms r) (authenticationTimeout r) (supportedSlices r) (maxUeConnections r) (loadBalanceThreshold r)
    (t3510Timer r) (t3511Timer r) (t3513Timer r) (t3560Timer r) (nrfUri r) (nfHeartbeatInterval r)
    (logLevel r) (logFile r).
Definition set_n2Port (v : Z) (r : AmfConfiguration) : AmfConfiguration :=
  mkAmfConfiguration (amfInstanceId r) (amfName r) (amfRegionId r) (amfSetId r) (amfPointer r) (cfg_plmnId r)
    (cfg_taiList r) (plmnList r) (sbiBindAddress r) (sbiPort r) (n1n2BindAddress r) v
    (amfKey r) (supportedAlgorithms r) (authenticationTimeout r) (supportedSlices r) (maxUeConnections r) (loadBalanceThreshold r)
    (t3510Timer r) (t3511Timer r) (t3513Timer r) (t3560Timer r) (nrfUri r) (nfHeartbeatInterval r)
    (logLevel r) (logFile r).
Definition set_nrfUri (v : string) (r : AmfConfiguration) : AmfConfiguration :=
  mkAmfConfiguration (amfInstanceId r) (amfName r) (amfRegionId r) (amfSetId r) (amfPointer r) (cfg_plmnId r)
    (cfg_taiList r) (plmnList r) (sbiBindAddress r) (sbiPort r) (n1n2BindAddress r) (n2Port r)
    (amfKey r) (supportedAlgorithms r) (authenticationTimeout r) (supportedSlices r) (maxUeConnections r) (loadBalanceThreshold r)
    (t3510Timer r) (t3511Timer r) (t3513Timer r) (t3560Timer r) v (nfHeartbeatInterval r)
    (logLevel r) (logFile r).
Definition set_logLevel (v : string) (r : AmfConfiguration) : AmfConfiguration :=
  mkAmfConfiguration (amfInstanceId r) (amfName r) (amfRegionId r) (amfSetId r) (amfPointer r) (cfg_plmnId r)
    (cfg_taiList r) (plmnList r) (sbiBindAddress r) (sbiPort r) (n1n2BindAddress r) (n2Port r)
    (amfKey r) (supportedAlgorithms r) (authenticationTimeout r) (supportedSlices r) (maxUeConnections r) (loadBalanceThreshold r)
    (t3510Timer r) (t3511Timer r) (t3513Timer r) (t3560Timer r) (nrfUri r) (nfHeartbeatInterval r)
    v (logFile r).
Definition set_logFile (v : string) (r : AmfConfiguration) : AmfConfiguration :=
  mkAmfConfiguration (amfInstanceId r) (amfName r) (amfRegionId r) (amfSetId r) (amfPointer r) (cfg_plmnId r)
    (cfg_taiList r) (plmnList r) (sbiBindAddress r) (sbiPort r) (n1n2BindAddress r) (n2Port r)
    (amfKey r) (supportedAlgorithms r) (authenticationTimeout r) (supportedSlices r) (maxUeConnections r) (loadBalanceThreshold r)
    (t3510Timer r) (t3511Timer r) (t3513Timer r) (t3560Timer r) (nrfUri r) (nfHeartbeatInterval r)
    (logLevel r) v.

Definition getDefaultConfiguration : AmfConfiguration := {|
  amfInstanceId := "amf-001";
  amfName := "AMF-Beijing-001";
  amfRegionId := "01";
  amfSetId := "001";
  amfPointer := "01";
  cfg_plmnId := "46001";
  cfg_taiList := ["46001-001"; "46001-002"; "46001-003"];
  plmnList := ["46001"; "46000"];
  sbiBindAddress := "0.0.0.0";
  sbiPort := 8080;
  n1n2BindAddress := "0.0.0.0";
  n2Port := 38412;
  amfKey := "0123456789abcdef0123456789abcdef";
  supportedAlgorithms := ["5G-EA0"; "5G-EA1"; "5G-EA2"; "5G-IA1"; "5G-IA2"];
  authenticationTimeout := 30;
  supportedSlices := ["SST:1,SD:000001"; "SST:2,SD:000002"; "SST:3,SD:000003"];
  maxUeConnections := 10000;
  loadBalanceThreshold := 80;
  t3510Timer := 15;
  t3511Timer := 10;
  t3513Timer := 6;
  t3560Timer := 6;
  nrfUri := "http://nrf.5gc.mnc001.mcc460.3gppnetwork.org:8080";
  nfHeartbeatInterval := 30;
  logLevel := "INFO";
  logFile := "/var/log/amf/amf.log" |}.

(** ** Configuration files *)

Definition is_blank (c : ascii) : bool := char_eqb c " " || char_eqb c tab.
Definition trim (s : string) : string := rstrip is_blank (lstrip is_blank s).

(** [config.x = std::stoi(value)]. *)
Definition assign_int (set_x : Z -> AmfConfiguration -> AmfConfiguration) (value : string)
    : cpp AmfConfiguration unit :=
  match stoi value with
  | inr v => modify (set_x v)
  | inl e => throw e
  end.

(** The chain of tests on the key. *)
Definition assign_key (key value : string) : cpp AmfConfiguration unit :=
  if String.eqb key "amf_instance_id" then modify (set_amfInstanceId value)
  else if String.eqb key "amf_name" then modify (set_amfName value)
  else if String.eqb key "plmn_id" then modify (set_cfg_plmnId value)
  else if String.eqb key "sbi_bind_address" then modify (set_sbiBindAddress value)
  else if String.eqb key "sbi_port" then assign_int set_sbiPort value
  else if String.eqb key "n2_port" then assign_int set_n2Port value
  else if String.eqb key "nrf_uri" then modify (set_nrfUri value)
  else if String.eqb key "log_level" then modify (set_logLevel value)
  else if String.eqb key "log_file" then modify (set_logFile value)
  else mret tt.

(** One iteration of the reading loop. *)
Definition parse_config_line (line : string) : cpp AmfConfiguration unit :=
  match line with
  | EmptyString => mret tt
  | String c _ =>
      if char_eqb c "#" then mret tt else
      match split_at "=" line with
      | None => mret tt
      | Some (key, value) => assign_key (trim key) (trim value)
      end
  end.

Definition loadConfigurationFromFile (file : option string) : cpp AmfConfiguration bool :=
  match file with
  | None => mret false
  | Some text => iterM parse_config_line (lines text) ;; mret true
  end.

Definition entry (key value : string) : string := key +:+ "=" +:+ value +:+ String nl "".

(** The text written, and the result: nothing is written when the file cannot
    be opened. *)
Definition config_text (config : AmfConfiguration) : string :=
  "# AMF Configuration File" +:+ String nl "" +:+
  entry "amf_instance_id" (amfInstanceId config) +:+
  entry "amf_name" (amfName config) +:+
  entry "plmn_id" (cfg_plmnId config) +:+
  entry "sbi_bind_address" (sbiBindAddress config) +:+
  entry "sbi_port" (to_string (sbiPort config)) +:+
  entry "n2_port" (to_string (n2Port config)) +:+
  entry "nrf_uri" (nrfUri config) +:+
  entry "log_level" (logLevel config) +:+
  entry "log_file" (logFile config).

Definition saveConfigurationToFile (opened : bool) (config : AmfConfiguration)
    : bool * option string :=
  if opened then (true, Some (config_text config)) else (false, None).

(** ** A saved configuration loads back *)

(** A value that survives the trimming and the line structure. *)
Definition plain (v : string) : bool :=
  no_char nl v && head_not is_blank v && last_not is_blank v.

Definition saved_values (c : AmfConfiguration) : list string :=
  [amfInstanceId c; amfName c; cfg_plmnId c; sbiBindAddress c; nrfUri c; logLevel c; logFile c].

Definition savable (c : AmfConfiguration) : Prop :=
  Forall (fun v => plain v = true) (saved_values c) /\ is_int (sbiPort c) /\ is_int (n2Port c).

(** [base] with the nine saved members of [c]. *)
Definition with_saved (c base : AmfConfiguration) : AmfConfiguration :=
  set_logFile (logFile c) (set_logLevel (logLevel c) (set_nrfUri (nrfUri c)
    (set_n2Port (n2Port c) (set_sbiPort (sbiPort c) (set_sbiBindAddress (sbiBindAddress c)
      (set_cfg_plmnId (cfg_plmnId c) (set_amfName (amfName c)
        (set_amfInstanceId (amfInstanceId c) base)))))))).

Lemma trim_plain v : plain v = true -> trim v = v.
Proof.
  unfold plain. rewrite !andb_true_iff. intros [[_ Hh] Hl]. unfold trim.
  by rewrite lstrip_id, rstrip_id.
Qed.

(** Keys that need no trimming and do not look like a comment. *)
Definition plain_key (k : string) : bool :=
  no_char "=" k && no_char nl k && plain k && negb (String.eqb k "")
  && head_not (fun c => char_eqb c "#") k.

Lemma parse_entry key v :
  plain_key key = true -> plain v = true ->
  parse_config_line (key +:+ "=" +:+ v) = assign_key key v.
Proof.
  unfold plain_key. rewrite !andb_true_iff, !negb_true_iff. intros [[[[Hk _] Hp] Hne] Hh] Hv.
  change ("=" +:+ v) with (String "=" v). pose proof (split_at_app "=" key v Hk) as HS.
  destruct key as [|c key]; [done|]. cbn in Hh. apply negb_true_iff in Hh.
  rewrite app_cons in HS |- *. cbn [parse_config_line]. by rewrite Hh, HS, !trim_plain.
Qed.

Lemma lines_entry key v rest :
  plain_key key = true -> plain v = true ->
  lines (entry key v +:+ rest) = (key +:+ "=" +:+ v) :: lines rest.
Proof.
  unfold plain_key. rewrite !andb_true_iff. intros [[[[_ Hk] _] _] _] Hv.
  unfold entry. rewrite !sapp_assoc.
  change (String nl "" +:+ rest) with (String nl rest).
  rewrite <-(lines_app (key +:+ "=" +:+ v)); [by rewrite !sapp_assoc|].
  unfold plain in Hv. rewrite !andb_true_iff in Hv. unfold no_char in *.
  rewrite !sforall_app. cbn. by rewrite Hk, (proj1 (proj1 Hv)).
Qed.

Lemma to_string_plain z : plain (to_string z) = true.
Proof.
  pose proof (sign_char_digit_text z) as Hz.
  assert (forall c, is_digit c || char_eqb c "-" = true ->
            char_eqb c nl = false /\ is_blank c = false) as Hc.
  { intros c. destruct c as [[] [] [] [] [] [] [] []]; by vm_compute. }
  unfold plain. rewrite !andb_true_iff. split_and!.
  - eapply sforall_impl; [|exact Hz]. cbn. intros c Hd. by rewrite (proj1 (Hc c Hd)).
  - destruct (to_string z) as [|c s]; [done|]. cbn in Hz |- *. apply andb_true_iff in Hz as [Hd _].
    by rewrite (proj2 (Hc c Hd)).
  - revert Hz. generalize (to_string z) as s. induction s as [|c s IH]; [done|]. cbn.
    rewrite andb_true_iff. intros [Hd Hs]. destruct s; [|by apply IH]. by rewrite (proj2 (Hc c Hd)).
Qed.

(** A loop over the lines that start with an entry assigns it first. *)
Lemma load_entry key v f rest s :
  plain_key key = true -> plain v = true -> assign_key key v = modify f ->
  iterM parse_config_line (lines (entry key v +:+ rest)) s =
    iterM parse_config_line (lines rest) (f s).
Proof.
  intros Hk Hv Hf. rewrite lines_entry by done. cbn [iterM]. rewrite parse_entry by done.
  by rewrite Hf.
Qed.

Lemma assign_int_to_string set_x z : is_int z -> assign_int set_x (to_string z) = modify (set_x z).
Proof. intros Hz. unfold assign_int. by rewrite stoi_to_string. Qed.

Lemma load_config_text c base :
  savable c ->
  iterM parse_config_line (lines (config_text c)) base = Ok tt (with_saved c base).
Proof.
  intros (HF & Hs & Hn). unfold saved_values in HF.
  repeat match goal with H : Forall _ (_ :: _) |- _ => inv H end.
  unfold config_text. change (String nl "" +:+ ?x) with (String nl x). rewrite lines_app by done.
  rewrite <-(sapp_nil_r (entry "log_file" _)). cbn [iterM].
  erewrite bind_Ok by reflexivity.
  do 4 (erewrite load_entry; [|done|done|reflexivity]).
  do 2 (erewrite load_entry; [|done|apply to_string_plain|by apply assign_int_to_string]).
  do 3 (erewrite load_entry; [|done|done|reflexivity]). done.
Qed.

(** Saving and loading a configuration round-trips: a file that could be
    opened for writing and is then read gives back exactly the nine saved members
    of the configuration, whatever the configuration read into held before; the
    other members keep their old values. Values with line breaks or with leading
    or trailing blanks are excluded. *)
Theorem configuration_roundtrip c base :
  savable c ->
  exists text, saveConfigurationToFile true c = (true, Some text) /\
    loadConfigurationFromFile (Some text) base = Ok true (with_saved c base).
Proof.
  intros HS. exists (config_text c). split; [done|].
  unfold loadConfigurationFromFile. by rewrite (bind_Ok _ _ _ _ _ (load_config_text c base HS)).
Qed.

Definition blank_config : AmfConfiguration :=
  mkAmfConfiguration "" "" "" "" "" "" [] [] "" 0 "" 0 "" [] 0 [] 0 0 0 0 0 0 "" 0 "" "".

Lemma configuration_roundtrip_witness :
  savable getDefaultConfiguration /\
  exists text c, saveConfigurationToFile true getDefaultConfiguration = (true, Some text) /\
    loadConfigurationFromFile (Some text) blank_config = Ok true c /\
    sbiPort c = 8080%Z /\ amfName c = "AMF-Beijing-001" /\ maxUeConnections c = 0%Z.
Proof.
  assert (savable getDefaultConfiguration) as HS.
  { split; [repeat constructor|]. split; unfold is_int, INT_MIN, INT_MAX; cbn; lia. }
  split; [exact HS|].
  destruct (configuration_roundtrip getDefaultConfiguration blank_config HS) as (text & E1 & E2).
  exists text, (with_saved getDefaultConfiguration blank_config). by split_and!.
Defined.

(** A port that is not a number stops the loading with an exception. *)
Example bad_port_throws :
  loadConfigurationFromFile (Some "sbi_port = http") blank_config
    = Throw "std::invalid_argument" blank_config.
Proof. reflexivity. Qed.
