(* ===== verification/AmfState.v ===== *)
(** * AmfState: the state of the AMF

    The data model of src/5gc/amf/include/AmfSm.h: the UE state and event
    enumerations, the statistics record and the members of [AmfSm], together
    with the four singletons its pointer members refer to and the static
    variables of [updateResponseTimeStatistics]. The functions [set_x] write one
    member; they have no counterpart in the source. *)

From Stdlib Require Import QArith.
From S2P Require Import Prelude SbiMessage UeContext N1N2Interface NfManagement AmfConfiguration.

Module UeState.
Inductive UeState : Set := DEREGISTERED | REGISTERED_IDLE | REGISTERED_CONNECTED.
#[global] Instance uestate_eq_dec : EqDecision UeState.
Proof. solve_decision. Defined.
End UeState.

Module UeEvent.
Inductive UeEvent : Set :=
  | REGISTRATION_REQUEST | REGISTRATION_ACCEPT | REGISTRATION_REJECT
  | DEREGISTER_REQUEST | DEREGISTER_ACCEPT
  | SERVICE_REQUEST | SERVICE_ACCEPT | SERVICE_REJECT | AN_RELEASE | CONNECTION_RELEASE
  | PAGING_REQUEST | PAGING_RESPONSE | PAGING_FAILURE
  | HANDOVER_REQUEST | HANDOVER_COMMAND | HANDOVER_COMPLETE | HANDOVER_FAILURE
  | TRACKING_AREA_UPDATE | PERIODIC_REGISTRATION_UPDATE
  | AUTHENTICATION_REQUEST | AUTHENTICATION_RESPONSE | AUTHENTICATION_FAILURE
  | SECURITY_MODE_COMMAND | SECURITY_MODE_COMPLETE | SECURITY_MODE_REJECT
  | PDU_SESSION_ESTABLISHMENT_REQUEST | PDU_SESSION_ESTABLISHMENT_ACCEPT
  | PDU_SESSION_ESTABLISHMENT_REJECT | PDU_SESSION_MODIFICATION_REQUEST
  | PDU_SESSION_RELEASE_REQUEST
  | NETWORK_FAILURE | TIMEOUT_T3510 | TIMEOUT_T3511 | TIMEOUT_T3513 | TIMEOUT_T3560
  | CONFIGURATION_UPDATE_COMMAND | CONFIGURATION_UPDATE_COMPLETE
  | EMERGENCY_REGISTRATION | EMERGENCY_SERVICE_REQUEST.
#[global] Instance ueevent_eq_dec : EqDecision UeEvent.
Proof. solve_decision. Defined.
End UeEvent.

Record AmfStatistics : Set := mkAmfStatistics {
  totalUeRegistrations : Z;
  activeUeConnections : Z;
  totalUeContexts : Z;
  totalPduSessions : Z;
  activePduSessions : Z;
  totalHandovers : Z;
  totalAuthenticationAttempts : Z;
  successfulAuthentications : Z;
  totalSbiMessages : Z;
  totalN1Messages : Z;
  totalN2Messages : Z;
  averageResponseTime : Q;
  systemLoad : Z;
  memoryUsage : Z;
  cpuUsage : Z;
  registeredNfInstances : Z;
  healthyNfInstances : Z }.

Definition set_totalUeRegistrations (v : Z) (r : AmfStatistics) : AmfStatistics :=
  mkAmfStatistics v (activeUeConnections r) (totalUeContexts r) (totalPduSessions r) (activePduSessions r) (totalHandovers r)
    (totalAuthenticationAttempts r) (successfulAuthentications r) (totalSbiMessages r) (totalN1Messages r) (totalN2Messages r) (averageResponseTime r)
    (systemLoad r) (memoryUsage r) (cpuUsage r) (registeredNfInstances r) (healthyNfInstances r).
Definition set_activeUeConnections (v : Z) (r : AmfStatistics) : AmfStatistics :=
  mkAmfStatistics (totalUeRegistrations r) v (totalUeContexts r) (totalPduSessions r) (activePduSessions r) (totalHandovers r)
    (totalAuthenticationAttempts r) (successfulAuthentications r) (totalSbiMessages r) (totalN1Messages r) (totalN2Messages r) (averageResponseTime r)
    (systemLoad r) (memoryUsage r) (cpuUsage r) (registeredNfInstances r) (healthyNfInstances r).
Definition set_totalUeContexts (v : Z) (r : AmfStatistics) : AmfStatistics :=
  mkAmfStatistics (totalUeRegistrations r) (activeUeConnections r) v (totalPduSessions r) (activePduSessions r) (totalHandovers r)
    (totalAuthenticationAttempts r) (successfulAuthentications r) (totalSbiMessages r) (totalN1Messages r) (totalN2Messages r) (averageResponseTime r)
    (systemLoad r) (memoryUsage r) (cpuUsage r) (registeredNfInstances r) (healthyNfInstances r).
Definition set_totalPduSessions (v : Z) (r : AmfStatistics) : AmfStatistics :=
  mkAmfStatistics (totalUeRegistrations r) (activeUeConnections r) (totalUeContexts r) v (activePduSessions r) (totalHandovers r)
    (totalAuthenticationAttempts r) (successfulAuthentications r) (totalSbiMessages r) (totalN1Messages r) (totalN2Messages r) (averageResponseTime r)
    (systemLoad r) (memoryUsage r) (cpuUsage r) (registeredNfInstances r) (healthyNfInstances r).
Definition set_activePduSessions (v : Z) (r : AmfStatistics) : AmfStatistics :=
  mkAmfStatistics (totalUeRegistrations r) (activeUeConnections r) (totalUeContexts r) (totalPduSessions r) v (totalHandovers r)
    (totalAuthenticationAttempts r) (successfulAuthentications r) (totalSbiMessages r) (totalN1Messages r) (totalN2Messages r) (averageResponseTime r)
    (systemLoad r) (memoryUsage r) (cpuUsage r) (registeredNfInstances r) (healthyNfInstances r).
Definition set_totalHandovers (v : Z) (r : AmfStatistics) : AmfStatistics :=
  mkAmfStatistics (totalUeRegistrations r) (activeUeConnections r) (totalUeContexts r) (totalPduSessions r) (activePduSessions r) v
    (totalAuthenticationAttempts r) (successfulAuthentications r) (totalSbiMessages r) (totalN1Messages r) (totalN2Messages r) (averageResponseTime r)
    (systemLoad r) (memoryUsage r) (cpuUsage r) (registeredNfInstances r) (healthyNfInstances r).
Definition set_totalAuthenticationAttempts (v : Z) (r : AmfStatistics) : AmfStatistics :=
  mkAmfStatistics (totalUeRegistrations r) (activeUeConnections r) (totalUeContexts r) (totalPduSessions r) (activePduSessions r) (totalHandovers r)
    v (successfulAuthentications r) (totalSbiMessages r) (totalN1Messages r) (totalN2Messages r) (averageResponseTime r)
    (systemLoad r) (memoryUsage r) (cpuUsage r) (registeredNfInstances r) (healthyNfInstances r).
Definition set_successfulAuthentications (v : Z) (r : AmfStatistics) : AmfStatistics :=
  mkAmfStatistics (totalUeRegistrations r) (activeUeConnections r) (totalUeContexts r) (totalPduSessions r) (activePduSessions r) (totalHandovers r)
    (totalAuthenticationAttempts r) v (totalSbiMessages r) (totalN1Messages r) (totalN2Messages r) (averageResponseTime r)
    (systemLoad r) (memoryUsage r) (cpuUsage r) (registeredNfInstances r) (healthyNfInstances r).
Definition set_totalSbiMessages (v : Z) (r : AmfStatistics) : AmfStatistics :=
  mkAmfStatistics (totalUeRegistrations r) (activeUeConnections r) (totalUeContexts r) (totalPduSessions r) (activePduSessions r) (totalHandovers r)
    (totalAuthenticationAttempts r) (successfulAuthentications r) v (totalN1Messages r) (totalN2Messages r) (averageResponseTime r)
    (systemLoad r) (memoryUsage r) (cpuUsage r) (registeredNfInstances r) (healthyNfInstances r).
Definition set_totalN1Messages (v : Z) (r : AmfStatistics) : AmfStatistics :=
  mkAmfStatistics (totalUeRegistrations r) (activeUeConnections r) (totalUeContexts r) (totalPduSessions r) (activePduSessions r) (totalHandovers r)
    (totalAuthenticationAttempts r) (successfulAuthentications r) (totalSbiMessages r) v (totalN2Messages r) (averageResponseTime r)
    (systemLoad r) (memoryUsage r) (cpuUsage r) (registeredNfInstances r) (healthyNfInstances r).
Definition set_totalN2Messages (v : Z) (r : AmfStatistics) : AmfStatistics :=
  mkAmfStatistics (totalUeRegistrations r) (activeUeConnections r) (totalUeContexts r) (totalPduSessions r) (activePduSessions r) (totalHandovers r)
    (totalAuthenticationAttempts r) (successfulAuthentications r) (totalSbiMessages r) (totalN1Messages r) v (averageResponseTime r)
    (systemLoad r) (memoryUsage r) (cpuUsage r) (registeredNfInstances r) (healthyNfInstances r).
Definition set_averageResponseTime (v : Q) (r : AmfStatistics) : AmfStatistics :=
  mkAmfStatistics (totalUeRegistrations r) (activeUeConnections r) (totalUeContexts r) (totalPduSessions r) (activePduSessions r) (totalHandovers r)
    (totalAuthenticationAttempts r) (successfulAuthentications r) (totalSbiMessages r) (totalN1Messages r) (totalN2Messages r) v
    (systemLoad r) (memoryUsage r) (cpuUsage r) (registeredNfInstances r) (healthyNfInstances r).
Definition set_systemLoad (v : Z) (r : AmfStatistics) : AmfStatistics :=
  mkAmfStatistics (totalUeRegistrations r) (activeUeConnections r) (totalUeContexts r) (totalPduSessions r) (activePduSessions r) (totalHandovers r)
    (totalAuthenticationAttempts r) (successfulAuthentications r) (totalSbiMessages r) (totalN1Messages r) (totalN2Messages r) (averageResponseTime r)
    v (memoryUsage r) (cpuUsage r) (registeredNfInstances r) (healthyNfInstances r).
Definition set_memoryUsage (v : Z) (r : AmfStatistics) : AmfStatistics :=
  mkAmfStatistics (totalUeRegistrations r) (activeUeConnections r) (totalUeContexts r) (totalPduSessions r) (activePduSessions r) (totalHandovers r)
    (totalAuthenticationAttempts r) (successfulAuthentications r) (totalSbiMessages r) (totalN1Messages r) (totalN2Messages r) (averageResponseTime r)
    (systemLoad r) v (cpuUsage r) (registeredNfInstances r) (healthyNfInstances r).
Definition set_cpuUsage (v : Z) (r : AmfStatistics) : AmfStatistics :=
  mkAmfStatistics (totalUeRegistrations r) (activeUeConnections r) (totalUeContexts r) (totalPduSessions r) (activePduSessions r) (totalHandovers r)
    (totalAuthenticationAttempts r) (successfulAuthentications r) (totalSbiMessages r) (totalN1Messages r) (totalN2Messages r) (averageResponseTime r)
    (systemLoad r) (memoryUsage r) v (registeredNfInstances r) (healthyNfInstances r).
Definition set_registeredNfInstances (v : Z) (r : AmfStatistics) : AmfStatistics :=
  mkAmfStatistics (totalUeRegistrations r) (activeUeConnections r) (totalUeContexts r) (totalPduSessions r) (activePduSessions r) (totalHandovers r)
    (totalAuthenticationAttempts r) (successfulAuthentications r) (totalSbiMessages r) (totalN1Messages r) (totalN2Messages r) (averageResponseTime r)
    (systemLoad r) (memoryUsage r) (cpuUsage r) v (healthyNfInstances r).
Definition set_healthyNfInstances (v : Z) (r : AmfStatistics) : AmfStatistics :=
  mkAmfStatistics (totalUeRegistrations r) (activeUeConnections r) (totalUeContexts r) (totalPduSessions r) (activePduSessions r) (totalHandovers r)
    (totalAuthenticationAttempts r) (successfulAuthentications r) (totalSbiMessages r) (totalN1Messages r) (totalN2Messages r) (averageResponseTime r)
    (systemLoad r) (memoryUsage r) (cpuUsage r) (registeredNfInstances r) v.

(** A pointer member: never written, null, or pointing to its singleton. *)
Inductive ptr : Set := Uninit | Null | Attached.

Record AmfSm : Set := mkAmfSm {
  config_ : AmfConfiguration;
  currentState_ : UeState.UeState;
  statistics_ : AmfStatistics;
  isInitialized_ : bool;
  isRunning_ : bool;
  amfMutex_ : bool;
  pendingMessages_ : list SbiMessage;
  sbiCallbacks_ : gmap SbiMessageType.SbiMessageType nat;
  sbi_callback_log : list (nat * SbiMessage);
  eventSubscriptions_ : gmap string nat;
  event_log : list (nat * string);
  ueContextManager_ : ptr;
  n1n2InterfaceManager_ : ptr;
  nfManager_ : ptr;
  amfNfInstance_ : ptr;
  monitoringRunning_ : bool;
  monitoringThread_ : bool;
  the_UeContextManager : UeContextManager;
  the_N1N2InterfaceManager : N1N2InterfaceManager;
  the_NfManager : NfManager;
  the_AmfNfInstance : AmfNfInstance;
  totalTime : Q;
  response_count : Z }.

Definition set_config (v : AmfConfiguration) (r : AmfSm) : AmfSm :=
  mkAmfSm v (currentState_ r) (statistics_ r) (isInitialized_ r) (isRunning_ r) (amfMutex_ r)
    (pendingMessages_ r) (sbiCallbacks_ r) (sbi_callback_log r) (eventSubscriptions_ r) (event_log r) (ueContextManager_ r)
    (n1n2InterfaceManager_ r) (nfManager_ r) (amfNfInstance_ r) (monitoringRunning_ r) (monitoringThread_ r) (the_UeContextManager r)
    (the_N1N2InterfaceManager r) (the_NfManager r) (the_AmfNfInstance r) (totalTime r) (response_count r).
Definition set_currentState (v : UeState.UeState) (r : AmfSm) : AmfSm :=
  mkAmfSm (config_ r) v (statistics_ r) (isInitialized_ r) (isRunning_ r) (amfMutex_ r)
    (pendingMessages_ r) (sbiCallbacks_ r) (sbi_callback_log r) (eventSubscriptions_ r) (event_log r) (ueContextManager_ r)
    (n1n2InterfaceManager_ r) (nfManager_ r) (amfNfInstance_ r) (monitoringRunning_ r) (monitoringThread_ r) (the_UeContextManager r)
    (the_N1N2InterfaceManager r) (the_NfManager r) (the_AmfNfInstance r) (totalTime r) (response_count r).
Definition set_statistics (v : AmfStatistics) (r : AmfSm) : AmfSm :=
  mkAmfSm (config_ r) (currentState_ r) v (isInitialized_ r) (isRunning_ r) (amfMutex_ r)
    (pendingMessages_ r) (sbiCallbacks_ r) (sbi_callback_log r) (eventSubscriptions_ r) (event_log r) (ueContextManager_ r)
    (n1n2InterfaceManager_ r) (nfManager_ r) (amfNfInstance_ r) (monitoringRunning_ r) (monitoringThread_ r) (the_UeContextManager r)
    (the_N1N2InterfaceManager r) (the_NfManager r) (the_AmfNfInstance r) (totalTime r) (response_count r).
Definition set_isInitialized (v : bool) (r : AmfSm) : AmfSm :=
  mkAmfSm (config_ r) (currentState_ r) (statistics_ r) v (isRunning_ r) (amfMutex_ r)
    (pendingMessages_ r) (sbiCallbacks_ r) (sbi_callback_log r) (eventSubscriptions_ r) (event_log r) (ueContextManager_ r)
    (n1n2InterfaceManager_ r) (nfManager_ r) (amfNfInstance_ r) (monitoringRunning_ r) (monitoringThread_ r) (the_UeContextManager r)
    (the_N1N2InterfaceManager r) (the_NfManager r) (the_AmfNfInstance r) (totalTime r) (response_count r).
Definition set_isRunning (v : bool) (r : AmfSm) : AmfSm :=
  mkAmfSm (config_ r) (currentState_ r) (statistics_ r) (isInitialized_ r) v (amfMutex_ r)
    (pendingMessages_ r) (sbiCallbacks_ r) (sbi_callback_log r) (eventSubscriptions_ r) (event_log r) (ueContextManager_ r)
    (n1n2InterfaceManager_ r) (nfManager_ r) (amfNfInstance_ r) (monitoringRunning_ r) (monitoringThread_ r) (the_UeContextManager r)
    (the_N1N2InterfaceManager r) (the_NfManager r) (the_AmfNfInstance r) (totalTime r) (response_count r).
Definition set_amfMutex (v : bool) (r : AmfSm) : AmfSm :=
  mkAmfSm (config_ r) (currentState_ r) (statistics_ r) (isInitialized_ r) (isRunning_ r) v
    (pendingMessages_ r) (sbiCallbacks_ r) (sbi_callback_log r) (eventSubscriptions_ r) (event_log r) (ueContextManager_ r)
    (n1n2InterfaceManager_ r) (nfManager_ r) (amfNfInstance_ r) (monitoringRunning_ r) (monitoringThread_ r) (the_UeContextManager r)
    (the_N1N2InterfaceManager r) (the_NfManager r) (the_AmfNfInstance r) (totalTime r) (response_count r).
Definition set_pendingMessages (v : list SbiMessage) (r : AmfSm) : AmfSm :=
  mkAmfSm (config_ r) (currentState_ r) (statistics_ r) (isInitialized_ r) (isRunning_ r) (amfMutex_ r)
    v (sbiCallbacks_ r) (sbi_callback_log r) (eventSubscriptions_ r) (event_log r) (ueContextManager_ r)
    (n1n2InterfaceManager_ r) (nfManager_ r) (amfNfInstance_ r) (monitoringRunning_ r) (monitoringThread_ r) (the_UeContextManager r)
    (the_N1N2InterfaceManager r) (the_NfManager r) (the_AmfNfInstance r) (totalTime r) (response_count r).
Definition set_sbiCallbacks (v : gmap SbiMessageType.SbiMessageType nat) (r : AmfSm) : AmfSm :=
  mkAmfSm (config_ r) (currentState_ r) (statistics_ r) (isInitialized_ r) (isRunning_ r) (amfMutex_ r)
    (pendingMessages_ r) v (sbi_callback_log r) (eventSubscriptions_ r) (event_log r) (ueContextManager_ r)
    (n1n2InterfaceManager_ r) (nfManager_ r) (amfNfInstance_ r) (monitoringRunning_ r) (monitoringThread_ r) (the_UeContextManager r)
    (the_N1N2InterfaceManager r) (the_NfManager r) (the_AmfNfInstance r) (totalTime r) (response_count r).
Definition set_sbi_callback_log (v : list (nat * SbiMessage)) (r : AmfSm) : AmfSm :=
  mkAmfSm (config_ r) (currentState_ r) (statistics_ r) (isInitialized_ r) (isRunning_ r) (amfMutex_ r)
    (pendingMessages_ r) (sbiCallbacks_ r) v (eventSubscriptions_ r) (event_log r) (ueContextManager_ r)
    (n1n2InterfaceManager_ r) (nfManager_ r) (amfNfInstance_ r) (monitoringRunning_ r) (monitoringThread_ r) (the_UeContextManager r)
    (the_N1N2InterfaceManager r) (the_NfManager r) (the_AmfNfInstance r) (totalTime r) (response_count r).
Definition set_eventSubscriptions (v : gmap string nat) (r : AmfSm) : AmfSm :=
  mkAmfSm (config_ r) (currentState_ r) (statistics_ r) (isInitialized_ r) (isRunning_ r) (amfMutex_ r)
    (pendingMessages_ r) (sbiCallbacks_ r) (sbi_callback_log r) v (event_log r) (ueContextManager_ r)
    (n1n2InterfaceManager_ r) (nfManager_ r) (amfNfInstance_ r) (monitoringRunning_ r) (monitoringThread_ r) (the_UeContextManager r)
    (the_N1N2InterfaceManager r) (the_NfManager r) (the_AmfNfInstance r) (totalTime r) (response_count r).
Definition set_event_log (v : list (nat * string)) (r : AmfSm) : AmfSm :=
  mkAmfSm (config_ r) (currentState_ r) (statistics_ r) (isInitialized_ r) (isRunning_ r) (amfMutex_ r)
    (pendingMessages_ r) (sbiCallbacks_ r) (sbi_callback_log r) (eventSubscriptions_ r) v (ueContextManager_ r)
    (n1n2InterfaceManager_ r) (nfManager_ r) (amfNfInstance_ r) (monitoringRunning_ r) (monitoringThread_ r) (the_UeContextManager r)
    (the_N1N2InterfaceManager r) (the_NfManager r) (the_AmfNfInstance r) (totalTime r) (response_count r).
Definition set_ueContextManager (v : ptr) (r : AmfSm) : AmfSm :=
  mkAmfSm (config_ r) (currentState_ r) (statistics_ r) (isInitialized_ r) (isRunning_ r) (amfMutex_ r)
    (pendingMessages_ r) (sbiCallbacks_ r) (sbi_callback_log r) (eventSubscriptions_ r) (event_log r) v
    (n1n2InterfaceManager_ r) (nfManager_ r) (amfNfInstance_ r) (monitoringRunning_ r) (monitoringThread_ r) (the_UeContextManager r)
    (the_N1N2InterfaceManager r) (the_NfManager r) (the_AmfNfInstance r) (totalTime r) (response_count r).
Definition set_n1n2InterfaceManager (v : ptr) (r : AmfSm) : AmfSm :=
  mkAmfSm (config_ r) (currentState_ r) (statistics_ r) (isInitialized_ r) (isRunning_ r) (amfMutex_ r)
    (pendingMessages_ r) (sbiCallbacks_ r) (sbi_callback_log r) (eventSubscriptions_ r) (event_log r) (ueContextManager_ r)
    v (nfManager_ r) (amfNfInstance_ r) (monitoringRunning_ r) (monitoringThread_ r) (the_UeContextManager r)
    (the_N1N2InterfaceManager r) (the_NfManager r) (the_AmfNfInstance r) (totalTime r) (response_count r).
Definition set_nfManager (v : ptr) (r : AmfSm) : AmfSm :=
  mkAmfSm (config_ r) (currentState_ r) (statistics_ r) (isInitialized_ r) (isRunning_ r) (amfMutex_ r)
    (pendingMessages_ r) (sbiCallbacks_ r) (sbi_callback_log r) (eventSubscriptions_ r) (event_log r) (ueContextManager_ r)
    (n1n2InterfaceManager_ r) v (amfNfInstance_ r) (monitoringRunning_ r) (monitoringThread_ r) (the_UeContextManager r)
    (the_N1N2InterfaceManager r) (the_NfManager r) (the_AmfNfInstance r) (totalTime r) (response_count r).
Definition set_amfNfInstance (v : ptr) (r : AmfSm) : AmfSm :=
  mkAmfSm (config_ r) (currentState_ r) (statistics_ r) (isInitialized_ r) (isRunning_ r) (amfMutex_ r)
    (pendingMessages_ r) (sbiCallbacks_ r) (sbi_callback_log r) (eventSubscriptions_ r) (event_log r) (ueContextManager_ r)
    (n1n2InterfaceManager_ r) (nfManager_ r) v (monitoringRunning_ r) (monitoringThread_ r) (the_UeContextManager r)
    (the_N1N2InterfaceManager r) (the_NfManager r) (the_AmfNfInstance r) (totalTime r) (response_count r).
Definition set_monitoringRunning (v : bool) (r : AmfSm) : AmfSm :=
  mkAmfSm (config_ r) (currentState_ r) (statistics_ r) (isInitialized_ r) (isRunning_ r) (amfMutex_ r)
    (pendingMessages_ r) (sbiCallbacks_ r) (sbi_callback_log r) (eventSubscriptions_ r) (event_log r) (ueContextManager_ r)
    (n1n2InterfaceManager_ r) (nfManager_ r) (amfNfInstance_ r) v (monitoringThread_ r) (the_UeContextManager r)
    (the_N1N2InterfaceManager r) (the_NfManager r) (the_AmfNfInstance r) (totalTime r) (response_count r).
Definition set_monitoringThread (v : bool) (r : AmfSm) : AmfSm :=
  mkAmfSm (config_ r) (currentState_ r) (statistics_ r) (isInitialized_ r) (isRunning_ r) (amfMutex_ r)
    (pendingMessages_ r) (sbiCallbacks_ r) (sbi_callback_log r) (eventSubscriptions_ r) (event_log r) (ueContextManager_ r)
    (n1n2InterfaceManager_ r) (nfManager_ r) (amfNfInstance_ r) (monitoringRunning_ r) v (the_UeContextManager r)
    (the_N1N2InterfaceManager r) (the_NfManager r) (the_AmfNfInstance r) (totalTime r) (response_count r).
Definition set_the_UeContextManager (v : UeContextManager) (r : AmfSm) : AmfSm :=
  mkAmfSm (config_ r) (currentState_ r) (statistics_ r) (isInitialized_ r) (isRunning_ r) (amfMutex_ r)
    (pendingMessages_ r) (sbiCallbacks_ r) (sbi_callback_log r) (eventSubscriptions_ r) (event_log r) (ueContextManager_ r)
    (n1n2InterfaceManager_ r) (nfManager_ r) (amfNfInstance_ r) (monitoringRunning_ r) (monitoringThread_ r) v
    (the_N1N2InterfaceManager r) (the_NfManager r) (the_AmfNfInstance r) (totalTime r) (response_count r).
Definition set_the_N1N2InterfaceManager (v : N1N2InterfaceManager) (r : AmfSm) : AmfSm :=
  mkAmfSm (config_ r) (currentState_ r) (statistics_ r) (isInitialized_ r) (isRunning_ r) (amfMutex_ r)
    (pendingMessages_ r) (sbiCallbacks_ r) (sbi_callback_log r) (eventSubscriptions_ r) (event_log r) (ueContextManager_ r)
    (n1n2InterfaceManager_ r) (nfManager_ r) (amfNfInstance_ r) (monitoringRunning_ r) (monitoringThread_ r) (the_UeContextManager r)
    v (the_NfManager r) (the_AmfNfInstance r) (totalTime r) (response_count r).
Definition set_the_NfManager (v : NfManager) (r : AmfSm) : AmfSm :=
  mkAmfSm (config_ r) (currentState_ r) (statistics_ r) (isInitialized_ r) (isRunning_ r) (amfMutex_ r)
    (pendingMessages_ r) (sbiCallbacks_ r) (sbi_callback_log r) (eventSubscriptions_ r) (event_log r) (ueContextManager_ r)
    (n1n2InterfaceManager_ r) (nfManager_ r) (amfNfInstance_ r) (monitoringRunning_ r) (monitoringThread_ r) (the_UeContextManager r)
    (the_N1N2InterfaceManager r) v (the_AmfNfInstance r) (totalTime r) (response_count r).
Definition set_the_AmfNfInstance (v : AmfNfInstance) (r : AmfSm) : AmfSm :=
  mkAmfSm (config_ r) (currentState_ r) (statistics_ r) (isInitialized_ r) (isRunning_ r) (amfMutex_ r)
    (pendingMessages_ r) (sbiCallbacks_ r) (sbi_callback_log r) (eventSubscriptions_ r) (event_log r) (ueContextManager_ r)
    (n1n2InterfaceManager_ r) (nfManager_ r) (amfNfInstance_ r) (monitoringRunning_ r) (monitoringThread_ r) (the_UeContextManager r)
    (the_N1N2InterfaceManager r) (the_NfManager r) v (totalTime r) (response_count r).
Definition set_totalTime (v : Q) (r : AmfSm) : AmfSm :=
  mkAmfSm (config_ r) (currentState_ r) (statistics_ r) (isInitialized_ r) (isRunning_ r) (amfMutex_ r)
    (pendingMessages_ r) (sbiCallbacks_ r) (sbi_callback_log r) (eventSubscriptions_ r) (event_log r) (ueContextManager_ r)
    (n1n2InterfaceManager_ r) (nfManager_ r) (amfNfInstance_ r) (monitoringRunning_ r) (monitoringThread_ r) (the_UeContextManager r)
    (the_N1N2InterfaceManager r) (the_NfManager r) (the_AmfNfInstance r) v (response_count r).
Definition set_response_count (v : Z) (r : AmfSm) : AmfSm :=
  mkAmfSm (config_ r) (currentState_ r) (statistics_ r) (isInitialized_ r) (isRunning_ r) (amfMutex_ r)
    (pendingMessages_ r) (sbiCallbacks_ r) (sbi_callback_log r) (eventSubscriptions_ r) (event_log r) (ueContextManager_ r)
    (n1n2InterfaceManager_ r) (nfManager_ r) (amfNfInstance_ r) (monitoringRunning_ r) (monitoringThread_ r) (the_UeContextManager r)
    (the_N1N2InterfaceManager r) (the_NfManager r) (the_AmfNfInstance r) (totalTime r) v.
