(* ===== verification/AmfSm.v ===== *)
(** * AmfSm: the AMF state machine and its message handlers

    Models src/5gc/amf/src/AmfSm.cpp on the state of AmfState.v. Each member
    function is a [cpp AmfSm] computation; log output is left out. What the
    functions take from outside the object (clock readings, random numbers,
    indeterminate members, measured durations) is an [Env]. A counter [x++] is
    undefined behaviour at [INT_MAX], reading a pointer member before
    [initialize] wrote it is undefined behaviour, and the calls on the four
    singletons run in the part of the state that holds them ([zoom]). *)

From Stdlib Require Import QArith.
From stdpp Require Import finite.
From S2P Require Import Prelude SbiMessage UeContext N1N2Interface NfManagement AmfConfiguration AmfState.

Local Close Scope Q_scope.
Local Open Scope string_scope.

Record Env : Set := mkEnv {
  env_now : time_point;
  env_junk : Junk;
  env_micros : Z;          (* duration of the handler, microseconds *)
  env_rand1 : Z;           (* results of rand() *)
  env_rand2 : Z }.
Definition sample_env : Env := mkEnv 0 sample_junk 1500 7 11.

(** A call on one of the singletons. *)
Definition zoom {T A} (sel : AmfSm -> T) (put : T -> AmfSm -> AmfSm) (m : cpp T A)
    : cpp AmfSm A := fun s =>
  match m (sel s) with
  | Ok a t => Ok a (put t s)
  | Throw e t => Throw e (put t s)
  | Blocked t => Blocked (put t s)
  | Undefined why => Undefined why
  end.

Abbreviation on_contexts := (zoom the_UeContextManager set_the_UeContextManager).
Abbreviation on_interface := (zoom the_N1N2InterfaceManager set_the_N1N2InterfaceManager).
Abbreviation on_nfs := (zoom the_NfManager set_the_NfManager).
Abbreviation on_self := (zoom the_AmfNfInstance set_the_AmfNfInstance).

(** [if (pointer)]. *)
Definition ptr_test (p : AmfSm -> ptr) : cpp AmfSm bool :=
  x ← gets p;
  match x with
  | Uninit => undefined "read of an uninitialised pointer"
  | Null => mret false
  | Attached => mret true
  end.

Definition set_stat (f : AmfStatistics -> AmfStatistics) (s : AmfSm) : AmfSm :=
  set_statistics (f (statistics_ s)) s.

(** [statistics_.x++] and [statistics_.x = std::max(0, statistics_.x - 1)]. *)
Definition stat_inc (x : AmfStatistics -> Z) (set_x : Z -> AmfStatistics -> AmfStatistics)
    : cpp AmfSm unit :=
  v ← gets (fun s => x (statistics_ s));
  if (v =? INT_MAX)%Z then undefined "signed overflow"
  else modify (set_stat (set_x (v + 1)%Z)).

Definition stat_dec (x : AmfStatistics -> Z) (set_x : Z -> AmfStatistics -> AmfStatistics)
    : cpp AmfSm unit :=
  v ← gets (fun s => x (statistics_ s));
  if (v =? INT_MIN)%Z then undefined "signed overflow"
  else modify (set_stat (set_x (Z.max 0 (v - 1)))).

(** ** Construction *)

(** [AmfSm()] in a process whose singletons are [u], [n], [m], [i]: four
    statistics members and the four pointers stay indeterminate. *)
Definition AmfSm_new (j : Junk) (cfg : AmfConfiguration) (u : UeContextManager)
    (n : N1N2InterfaceManager) (m : NfManager) (i : AmfNfInstance) : AmfSm :=
  mkAmfSm cfg UeState.DEREGISTERED
    (mkAmfStatistics 0 0 (junk_int j) 0 (junk_int j) 0 0 0 0 0 0 0 0 0 0 (junk_int j) (junk_int j))
    false false false [] ∅ [] ∅ [] Uninit Uninit Uninit Uninit false false u n m i 0 0.

(** ** UE contexts *)

Definition createUeContext (e : Env) (supi : string) : cpp AmfSm (option UeContext) :=
  ok ← ptr_test ueContextManager_;
  if negb ok then mret None else
  context ← on_contexts (UeContext.createUeContext (env_junk e) (env_now e) supi);
  mret (Some context).

Definition removeUeContext (supi : string) : cpp AmfSm bool :=
  ok ← ptr_test ueContextManager_;
  if negb ok then mret false else
  on_contexts (UeContext.removeUeContext supi) ;; mret true.

Definition getUeContext (supi : string) : cpp AmfSm (option UeContext) :=
  ok ← ptr_test ueContextManager_;
  if negb ok then mret None else on_contexts (UeContext.getUeContext supi).

(** A write through the pointer returned for [supi]. *)
Definition write_context (supi : string) (f : UeContext -> UeContext) : cpp AmfSm unit :=
  on_contexts (update_ue supi f).

(** ** Procedures *)

Definition processRegistrationRequest (e : Env) (supi registrationType : string) : cpp AmfSm bool :=
  found ← getUeContext supi;
  ueContext ← (match found with Some c => mret (Some c) | None => createUeContext e supi end);
  match ueContext with
  | None => mret false
  | Some _ =>
      write_context supi (setRegistrationState "REGISTERED") ;;
      write_context supi (setConnectionState "CONNECTED") ;;
      stat_inc totalUeRegistrations set_totalUeRegistrations ;;
      stat_inc activeUeConnections set_activeUeConnections ;;
      mret true
  end.

Definition processDeregistrationRequest (supi deregCause : string) : cpp AmfSm bool :=
  ueContext ← getUeContext supi;
  match ueContext with
  | None => mret false
  | Some _ =>
      write_context supi (setRegistrationState "DEREGISTERED") ;;
      write_context supi (setConnectionState "IDLE") ;;
      stat_dec activeUeConnections set_activeUeConnections ;;
      mret true
  end.

Definition processHandoverRequest (supi targetRanId : string) : cpp AmfSm bool :=
  ueContext ← getUeContext supi;
  match ueContext with
  | None => mret false
  | Some _ =>
      write_context supi (setRanNodeId targetRanId) ;;
      stat_inc totalHandovers set_totalHandovers ;;
      mret true
  end.

Definition completeHandover (supi gnbId : string) : cpp AmfSm bool :=
  ueContext ← getUeContext supi;
  match ueContext with
  | None => mret false
  | Some _ => write_context supi (setRanNodeId gnbId) ;; mret true
  end.

(** The new session sets three members; [isActive] is indeterminate. *)
Definition createPduSession (e : Env) (supi : string) (sessionId : Z) (dnn : string)
    : cpp AmfSm bool :=
  ueContext ← getUeContext supi;
  match ueContext with
  | None => mret false
  | Some _ =>
      let session := mkPduSession sessionId dnn "" "" "" "" "" "ACTIVE"
                       (junk_bool (env_junk e)) 0 in
      write_context supi (addPduSession (env_now e) session) ;;
      stat_inc totalPduSessions set_totalPduSessions ;;
      mret true
  end.

Definition releasePduSession (e : Env) (supi : string) (sessionId : Z) : cpp AmfSm bool :=
  ueContext ← getUeContext supi;
  match ueContext with
  | None => mret false
  | Some _ => write_context supi (removePduSession (env_now e) sessionId) ;; mret true
  end.

Definition initiateAuthentication (supi : string) : cpp AmfSm bool :=
  ueContext ← getUeContext supi;
  match ueContext with
  | None => mret false
  | Some _ => stat_inc totalAuthenticationAttempts set_totalAuthenticationAttempts ;; mret true
  end.

Definition processAuthenticationResponse (supi authResponse : string) : cpp AmfSm bool :=
  ueContext ← getUeContext supi;
  match ueContext with
  | None => mret false
  | Some _ => stat_inc successfulAuthentications set_successfulAuthentications ;; mret true
  end.

Definition processTrackingAreaUpdate (supi newTai : string) : cpp AmfSm bool :=
  ueContext ← getUeContext supi;
  match ueContext with
  | None => mret false
  | Some _ => write_context supi (setTai newTai) ;; mret true
  end.

(** ** The UE state machine *)

Definition transitionTo (newState : UeState.UeState) : cpp AmfSm unit :=
  currentState ← gets currentState_;
  if bool_decide (currentState <> newState) then
    (if bool_decide (newState = UeState.REGISTERED_CONNECTED)
     then stat_inc activeUeConnections set_activeUeConnections
     else if bool_decide (currentState = UeState.REGISTERED_CONNECTED)
     then stat_dec activeUeConnections set_activeUeConnections
     else mret tt) ;;
    modify (set_currentState newState)
  else mret tt.

Definition handleDeregisteredState (e : Env) (event : UeEvent.UeEvent) : cpp AmfSm unit :=
  match event with
  | UeEvent.REGISTRATION_REQUEST =>
      processRegistrationRequest e "unknown_supi" "normal" ;;
      transitionTo UeState.REGISTERED_CONNECTED ;;
      stat_inc totalUeRegistrations set_totalUeRegistrations
  | UeEvent.EMERGENCY_REGISTRATION =>
      processRegistrationRequest e "unknown_supi" "emergency" ;;
      transitionTo UeState.REGISTERED_CONNECTED ;;
      stat_inc totalUeRegistrations set_totalUeRegistrations
  | _ => mret tt
  end.

Definition handleRegisteredIdleState (e : Env) (event : UeEvent.UeEvent) : cpp AmfSm unit :=
  match event with
  | UeEvent.SERVICE_REQUEST
  | UeEvent.EMERGENCY_SERVICE_REQUEST
  | UeEvent.PAGING_RESPONSE => transitionTo UeState.REGISTERED_CONNECTED
  | UeEvent.PDU_SESSION_ESTABLISHMENT_REQUEST =>
      createPduSession e "unknown_supi" 1 "internet" ;;
      transitionTo UeState.REGISTERED_CONNECTED ;;
      stat_inc totalPduSessions set_totalPduSessions
  | UeEvent.HANDOVER_REQUEST =>
      processHandoverRequest "unknown_supi" "gnb-001" ;;
      transitionTo UeState.REGISTERED_CONNECTED ;;
      stat_inc totalHandovers set_totalHandovers
  | UeEvent.DEREGISTER_REQUEST
  | UeEvent.TIMEOUT_T3511
  | UeEvent.NETWORK_FAILURE =>
      processDeregistrationRequest "unknown_supi" "user_request" ;;
      transitionTo UeState.DEREGISTERED
  | UeEvent.TRACKING_AREA_UPDATE =>
      processTrackingAreaUpdate "unknown_supi" "tai_001" ;; mret tt
  | UeEvent.PERIODIC_REGISTRATION_UPDATE =>
      processRegistrationRequest e "unknown_supi" "periodic" ;; mret tt
  | _ => mret tt
  end.

Definition handleRegisteredConnectedState (e : Env) (event : UeEvent.UeEvent) : cpp AmfSm unit :=
  match event with
  | UeEvent.AN_RELEASE
  | UeEvent.CONNECTION_RELEASE => transitionTo UeState.REGISTERED_IDLE
  | UeEvent.HANDOVER_COMPLETE =>
      completeHandover "unknown_supi" "gnb-001" ;;
      transitionTo UeState.REGISTERED_IDLE
  | UeEvent.PDU_SESSION_RELEASE_REQUEST =>
      releasePduSession e "unknown_supi" 1 ;;
      transitionTo UeState.REGISTERED_IDLE
  | UeEvent.DEREGISTER_REQUEST
  | UeEvent.DEREGISTER_ACCEPT
  | UeEvent.NETWORK_FAILURE
  | UeEvent.AUTHENTICATION_FAILURE =>
      processDeregistrationRequest "unknown_supi" "user_request" ;;
      transitionTo UeState.DEREGISTERED
  | UeEvent.AUTHENTICATION_REQUEST =>
      initiateAuthentication "unknown_supi" ;;
      stat_inc totalAuthenticationAttempts set_totalAuthenticationAttempts
  | UeEvent.AUTHENTICATION_RESPONSE =>
      processAuthenticationResponse "unknown_supi" "auth_response_data" ;;
      stat_inc successfulAuthentications set_successfulAuthentications
  | _ => mret tt
  end.

(** The function's two static variables are [totalTime] and [response_count];
    [double] arithmetic is rational arithmetic. *)
Definition updateResponseTimeStatistics (responseTime : Q) : cpp AmfSm unit :=
  modify (fun s => set_totalTime (totalTime s + responseTime)%Q s) ;;
  c ← gets response_count;
  if (c =? INT_MAX)%Z then undefined "signed overflow" else
  modify (set_response_count (c + 1)) ;;
  modify (fun s => set_stat (set_averageResponseTime (totalTime s / inject_Z (response_count s))%Q) s).

Definition handleEvent (e : Env) (event : UeEvent.UeEvent) : cpp AmfSm unit :=
  st ← gets currentState_;
  (match st with
   | UeState.DEREGISTERED => handleDeregisteredState e event
   | UeState.REGISTERED_IDLE => handleRegisteredIdleState e event
   | UeState.REGISTERED_CONNECTED => handleRegisteredConnectedState e event
   end) ;;
  updateResponseTimeStatistics (inject_Z (env_micros e) / 1000)%Q.

(** ** N1 and N2 interfaces *)

Definition sendN1Message (m : N1Message) : cpp AmfSm bool :=
  ok ← ptr_test n1n2InterfaceManager_;
  if negb ok then mret false else
  result ← on_interface (N1N2Interface.sendN1Message m);
  (if (result : bool) then stat_inc totalN1Messages set_totalN1Messages else mret tt) ;;
  mret result.

Definition sendN2Message (m : N2Message) : cpp AmfSm bool :=
  ok ← ptr_test n1n2InterfaceManager_;
  if negb ok then mret false else
  result ← on_interface (N1N2Interface.sendN2Message m);
  (if (result : bool) then stat_inc totalN2Messages set_totalN2Messages else mret tt) ;;
  mret result.

Definition handleN1Message (e : Env) (m : N1Message) : cpp AmfSm unit :=
  stat_inc totalN1Messages set_totalN1Messages ;;
  match n1_messageType m with
  | N1MessageType.REGISTRATION_REQUEST => handleEvent e UeEvent.REGISTRATION_REQUEST
  | N1MessageType.DEREGISTRATION_REQUEST_UE_ORIG
  | N1MessageType.DEREGISTRATION_REQUEST_UE_TERM => handleEvent e UeEvent.DEREGISTER_REQUEST
  | N1MessageType.SERVICE_REQUEST => handleEvent e UeEvent.SERVICE_REQUEST
  | N1MessageType.AUTHENTICATION_RESPONSE => handleEvent e UeEvent.AUTHENTICATION_RESPONSE
  | N1MessageType.SECURITY_MODE_COMPLETE => handleEvent e UeEvent.SECURITY_MODE_COMPLETE
  | _ => mret tt
  end.

Definition handleN2Message (e : Env) (m : N2Message) : cpp AmfSm unit :=
  stat_inc totalN2Messages set_totalN2Messages ;;
  match n2_messageType m with
  | N2MessageType.UE_CONTEXT_RELEASE_COMPLETE => handleEvent e UeEvent.CONNECTION_RELEASE
  | N2MessageType.HANDOVER_NOTIFY => handleEvent e UeEvent.HANDOVER_COMPLETE
  | _ => mret tt
  end.

(** The overloads without arguments carry the suffix [0]. *)
Definition processPeriodicRegistrationUpdate (e : Env) (supi : string) : cpp AmfSm bool :=
  ueContext ← getUeContext supi;
  match ueContext with
  | None => mret false
  | Some _ =>
      write_context supi (updateLastActivity (env_now e)) ;;
      ok ← ptr_test n1n2InterfaceManager_;
      (if (ok : bool) then
         sendN1Message (mkN1Message N1MessageType.REGISTRATION_ACCEPT supi ""
                          (<["registrationType" := "periodic-updating"]> ∅) 0) ;; mret tt
       else mret tt) ;;
      mret true
  end.

(** An N2 message of the given type to a RAN node, when the interface exists. *)
Definition send_n2_ies (t : N2MessageType.N2MessageType) (ranNode : string)
    (ies : gmap string string) : cpp AmfSm unit :=
  ok ← ptr_test n1n2InterfaceManager_;
  if (ok : bool) then sendN2Message (mkN2Message t ranNode "" "" "" ies 0) ;; mret tt
  else mret tt.

Definition processServiceRequest0 : cpp AmfSm unit :=
  send_n2_ies N2MessageType.INITIAL_CONTEXT_SETUP_REQUEST "gnb-001"
    (<["ueContext" := "context-data"]> ∅).

Definition processServiceRequest (supi serviceType : string) : cpp AmfSm unit :=
  send_n2_ies N2MessageType.INITIAL_CONTEXT_SETUP_REQUEST "gnb-001"
    (<["serviceType" := serviceType]> (<["ueId" := supi]> ∅)).

Definition processConnectionRelease0 : cpp AmfSm unit :=
  send_n2_ies N2MessageType.UE_CONTEXT_RELEASE_COMMAND "gnb-001"
    (<["releaseReason" := "normal"]> ∅).

Definition processConnectionRelease (supi releaseReason : string) : cpp AmfSm bool :=
  ueContext ← getUeContext supi;
  match ueContext with
  | None => mret false
  | Some c =>
      write_context supi (setConnectionState "IDLE") ;;
      send_n2_ies N2MessageType.UE_CONTEXT_RELEASE_COMMAND (ranNodeId (accessInfo_ c))
        (<["releaseReason" := releaseReason]> (<["ueId" := supi]> ∅)) ;;
      mret true
  end.

Definition processPagingRequest0 : cpp AmfSm unit :=
  send_n2_ies N2MessageType.PAGING "gnb-001" (<["pagingCause" := "mt-call"]> ∅).

Definition processPagingRequest (supi pagingCause : string) : cpp AmfSm unit :=
  send_n2_ies N2MessageType.PAGING "gnb-001"
    (<["pagingPriority" := "normal"]> (<["pagingCause" := pagingCause]> (<["ueId" := supi]> ∅))).

(** ** Network slices and load *)

Definition validateNetworkSlice (snssai : string) : cpp AmfSm bool :=
  gets (fun s => existsb (String.eqb snssai) (supportedSlices (config_ s))).

Definition getSupportedSlices : cpp AmfSm (list string) :=
  gets (fun s => supportedSlices (config_ s)).

Definition getAllowedSlices (supi : string) : cpp AmfSm (list NetworkSlice) :=
  ueContext ← getUeContext supi;
  match ueContext with
  | None => mret []
  | Some c =>
      supported ← getSupportedSlices;
      mret (filter (fun slice => existsb (String.eqb (snssai slice)) supported = true)
              (subscribedSlices (subscriptionInfo_ c)))
  end.

Definition calculateCurrentLoad : cpp AmfSm Z :=
  maxConnections ← gets (fun s => maxUeConnections (config_ s));
  if (maxConnections =? 0)%Z then mret 0%Z else
  active ← gets (fun s => activeUeConnections (statistics_ s));
  if bool_decide (is_int (active * 100)) then mret (Z.quot (active * 100) maxConnections)
  else undefined "signed overflow".

Definition checkLoadBalance : cpp AmfSm bool :=
  currentLoad ← calculateCurrentLoad;
  gets (fun s => (currentLoad <? loadBalanceThreshold (config_ s))%Z).

(** ** Discovery *)

Section nf_selection.
Context `{SORT : !StdSort better}.

(** The members of a query that the code does not set are empty, and
    [maxNfInstances] is indeterminate. *)
Definition amf_query (e : Env) (t : NfType.NfType) (requester dnn snssai service : string)
    : NfDiscoveryQuery :=
  mkNfDiscoveryQuery t (nfTypeToString NfType.AMF) requester "" "" [] [] dnn snssai service
    (junk_int (env_junk e)).

(** [!nfManager_ || !amfNfInstance_], the second operand read only when needed. *)
Definition discovery_available : cpp AmfSm bool :=
  nf ← ptr_test nfManager_;
  if negb nf then mret false else ptr_test amfNfInstance_.

Definition selectSmfForSession (e : Env) (dnn : string) (slice : NetworkSlice)
    : cpp AmfSm (option NfInstance) :=
  ok ← discovery_available;
  if negb ok then mret None else
  self ← gets (fun s => amfInstance_ (the_AmfNfInstance s));
  smfInstances ← on_nfs (discoverNfInstances (env_now e)
                           (amf_query e NfType.SMF (nfInstanceId self) dnn (snssai slice) ""));
  match smfInstances with
  | [] => mret None
  | _ :: _ => on_nfs (selectNfInstance (env_junk e) (env_now e) NfType.SMF (plmnId self))
  end.

Definition selectAusfForAuthentication (e : Env) : cpp AmfSm (option NfInstance) :=
  ok ← discovery_available;
  if negb ok then mret None else
  self ← gets (fun s => amfInstance_ (the_AmfNfInstance s));
  ausfInstances ← on_nfs (discoverNfInstances (env_now e)
                            (amf_query e NfType.AUSF (nfInstanceId self) "" "" ""));
  match ausfInstances with
  | [] => mret None
  | _ :: _ => on_nfs (selectNfInstance (env_junk e) (env_now e) NfType.AUSF (plmnId self))
  end.

Definition discoverNf (e : Env) (t : NfType.NfType) (serviceName : string)
    : cpp AmfSm (list NfInstance) :=
  ok ← ptr_test nfManager_;
  if negb ok then mret [] else
  cfg ← gets config_;
  on_nfs (discoverNfInstances (env_now e) (amf_query e t (amfInstanceId cfg) "" "" serviceName)).

Definition selectBestNf (e : Env) (t : NfType.NfType) (serviceName : string)
    : cpp AmfSm (option NfInstance) :=
  ok ← ptr_test nfManager_;
  if negb ok then mret None else
  cfg ← gets config_;
  on_nfs (selectNfInstance (env_junk e) (env_now e) t (cfg_plmnId cfg)).
End nf_selection.

(** ** Event subscriptions; the two overloads that only log are not stated *)

Definition subscribeToEvents (eventType : string) (callback : nat) : cpp AmfSm unit :=
  modify (fun s => set_eventSubscriptions (<[eventType := callback]> (eventSubscriptions_ s)) s).

Definition notifyEvent (eventType eventData : string) : cpp AmfSm unit :=
  it ← gets (fun s => eventSubscriptions_ s !! eventType);
  match it with
  | Some f => modify (fun s => set_event_log (event_log s ++ [(f, eventData)]) s)
  | None => mret tt
  end.

(** ** Statistics *)

Definition nf_type_le (a b : NfType.NfType) : Prop := encode_nat a <= encode_nat b.
#[global] Instance nf_type_le_dec : RelDecision nf_type_le.
Proof. intros a b. unfold nf_type_le. apply _. Defined.

(** The loop that sums the positive counts into an [int]. *)
Definition sum_counts (nfStats : gmap NfType.NfType nat) : Z :=
  foldl (fun acc tc => if bool_decide (0 < tc.2) then to_int (acc + Z.of_nat tc.2) else acc) 0%Z
    (map_ordered nf_type_le nfStats).

(** The part [getStatistics] and [updateStatistics] share, on a copy of the
    statistics. *)
Definition refresh_statistics (stats : AmfStatistics) : cpp AmfSm AmfStatistics :=
  u ← ptr_test ueContextManager_;
  stats ← (if (u : bool) then
             ues ← on_contexts getRegisteredUeCount;
             sessions ← on_contexts getActiveSessionCount;
             mret (set_activePduSessions (to_int (Z.of_nat sessions))
                     (set_totalUeContexts (to_int (Z.of_nat ues)) stats))
           else mret stats);
  m ← ptr_test nfManager_;
  if (m : bool) then
    nfStats ← on_nfs getNfStatistics;
    mret (set_healthyNfInstances (sum_counts nfStats)
            (set_registeredNfInstances (to_int (Z.of_nat (size nfStats))) stats))
  else mret stats.

Definition getStatistics : cpp AmfSm AmfStatistics :=
  stats ← gets statistics_;
  refresh_statistics stats.

Definition updateStatistics (e : Env) : cpp AmfSm unit :=
  stats ← gets statistics_;
  stats ← refresh_statistics stats;
  modify (set_statistics stats) ;;
  load ← calculateCurrentLoad;
  modify (set_stat (set_systemLoad load)) ;;
  modify (set_stat (set_memoryUsage (45 + Z.rem (env_rand1 e) 20))) ;;
  modify (set_stat (set_cpuUsage (30 + Z.rem (env_rand2 e) 30))).

Definition updateConfiguration (newConfig : AmfConfiguration) : cpp AmfSm bool :=
  modify (set_config newConfig) ;; mret true.

Definition performHealthCheck : cpp AmfSm bool :=
  init ← gets isInitialized_;
  if negb init then mret false else
  u ← ptr_test ueContextManager_;
  n ← ptr_test n1n2InterfaceManager_;
  m ← ptr_test nfManager_;
  load ← gets (fun s => systemLoad (statistics_ s));
  mret (u && n && m && negb (90 <? load)%Z).

(** ** SBI messages *)

Definition sendSbiMessage (message : SbiMessage) : cpp AmfSm unit :=
  modify (fun s => set_pendingMessages
    (pendingMessages_ s ++ [setStatus SbiMessageStatus.PENDING message]) s).

Definition registerSbiCallback (t : SbiMessageType.SbiMessageType) (callback : nat)
    : cpp AmfSm unit :=
  modify (fun s => set_sbiCallbacks (<[t := callback]> (sbiCallbacks_ s)) s).

Definition createSbiResponse (request : SbiMessage) (responseType : SbiMessageType.SbiMessageType)
    (statusCode : Z) : SbiMessage :=
  addHeader "Location" (uri_ request +:+ "/response")
    (addHeader "Content-Type" "application/json"
       (setStatus (if (200 <=? statusCode)%Z && (statusCode <? 300)%Z
                   then SbiMessageStatus.SUCCESS else SbiMessageStatus.FAILED)
          (setStatusCode statusCode
             (SbiMessage_new (serviceType_ request) responseType HttpMethod.POST)))).

(** JSON text [{"k1":"v1","k2":"v2"}]. *)
Definition quote : string := String (Ascii.ascii_of_nat 34) EmptyString.
Definition json_member (kv : string * string) : string :=
  quote +:+ kv.1 +:+ quote +:+ ":" +:+ quote +:+ kv.2 +:+ quote.
Definition json_object (members : list (string * string)) : string :=
  "{" +:+ String.concat "," (json_member <$> members) +:+ "}".

Definition handleRegistrationSbiMessages (e : Env) (message : SbiMessage) : cpp AmfSm unit :=
  match messageType_ message with
  | SbiMessageType.UE_CONTEXT_CREATE_REQUEST =>
      st ← gets currentState_;
      if bool_decide (st = UeState.DEREGISTERED) then
        sendSbiMessage (setBody (json_object [("ueContextId", "ue-12345"); ("status", "created")])
          (createSbiResponse message SbiMessageType.UE_CONTEXT_CREATE_RESPONSE 201)) ;;
        handleEvent e UeEvent.REGISTRATION_REQUEST
      else
        sendSbiMessage (setBody (json_object [("error", "UE context already exists")])
          (createSbiResponse message SbiMessageType.UE_CONTEXT_CREATE_RESPONSE 409))
  | SbiMessageType.UE_CONTEXT_RELEASE_REQUEST =>
      sendSbiMessage (setBody (json_object [("status", "released")])
        (createSbiResponse message SbiMessageType.UE_CONTEXT_RELEASE_RESPONSE 200)) ;;
      handleEvent e UeEvent.DEREGISTER_REQUEST
  | _ => mret tt
  end.

Definition handleSessionSbiMessages (e : Env) (message : SbiMessage) : cpp AmfSm unit :=
  match messageType_ message with
  | SbiMessageType.PDU_SESSION_CREATE_SM_CONTEXT_REQUEST =>
      st ← gets currentState_;
      if bool_decide (st = UeState.REGISTERED_IDLE)
         || bool_decide (st = UeState.REGISTERED_CONNECTED) then
        sendSbiMessage (setBody (json_object [("smContextId", "sm-67890"); ("status", "created")])
          (createSbiResponse message SbiMessageType.PDU_SESSION_CREATE_SM_CONTEXT_RESPONSE 201)) ;;
        handleEvent e UeEvent.PDU_SESSION_ESTABLISHMENT_REQUEST
      else
        sendSbiMessage (setBody (json_object [("error", "UE not registered")])
          (createSbiResponse message SbiMessageType.PDU_SESSION_CREATE_SM_CONTEXT_RESPONSE 403))
  | SbiMessageType.PDU_SESSION_RELEASE_SM_CONTEXT_REQUEST =>
      sendSbiMessage (setBody (json_object [("status", "released")])
        (createSbiResponse message SbiMessageType.PDU_SESSION_RELEASE_SM_CONTEXT_RESPONSE 200)) ;;
      handleEvent e UeEvent.PDU_SESSION_RELEASE_REQUEST
  | _ => mret tt
  end.

Definition handleAuthenticationSbiMessages (e : Env) (message : SbiMessage) : cpp AmfSm unit :=
  match messageType_ message with
  | SbiMessageType.UE_AUTHENTICATION_REQUEST =>
      sendSbiMessage (setBody
        (json_object [("authenticationVector", "av-12345"); ("status", "success")])
        (createSbiResponse message SbiMessageType.UE_AUTHENTICATION_RESPONSE 200)) ;;
      handleEvent e UeEvent.AUTHENTICATION_REQUEST
  | _ => mret tt
  end.

Definition handlePolicyControlSbiMessages (message : SbiMessage) : cpp AmfSm unit :=
  match messageType_ message with
  | SbiMessageType.AM_POLICY_CONTROL_CREATE_REQUEST =>
      sendSbiMessage (setBody (json_object [("policyId", "policy-12345"); ("status", "created")])
        (createSbiResponse message SbiMessageType.AM_POLICY_CONTROL_CREATE_RESPONSE 201))
  | _ => mret tt
  end.

Definition processSbiRequest (e : Env) (message : SbiMessage) : cpp AmfSm unit :=
  match serviceType_ message with
  | SbiServiceType.NAMF_COMMUNICATION => handleRegistrationSbiMessages e message
  | SbiServiceType.NSMF_PDU_SESSION => handleSessionSbiMessages e message
  | SbiServiceType.NAUSF_UE_AUTHENTICATION
  | SbiServiceType.NUDM_UE_AUTHENTICATION => handleAuthenticationSbiMessages e message
  | SbiServiceType.NPCF_AM_POLICY_CONTROL => handlePolicyControlSbiMessages message
  | _ => mret tt
  end.

Definition processSbiResponse (message : SbiMessage) : cpp AmfSm unit :=
  it ← gets (fun s => sbiCallbacks_ s !! messageType_ message);
  match it with
  | Some f => modify (fun s => set_sbi_callback_log (sbi_callback_log s ++ [(f, message)]) s)
  | None => mret tt
  end.

Definition handleSbiMessage (e : Env) (message : SbiMessage) : cpp AmfSm unit :=
  stat_inc totalSbiMessages set_totalSbiMessages ;;
  if isRequest message then processSbiRequest e message
  else if isResponse message then processSbiResponse message
  else mret tt.

(** ** Start-up and shut-down *)

(** The default-constructed instances [registerOtherNfInstances] fills in; the
    members it does not set are indeterminate. *)
Definition other_nf (e : Env) (id : string) (t : NfType.NfType) (svcId svc : string) : NfInstance :=
  let j := junk_int (env_junk e) in
  mkNfInstance id t NfStatus.REGISTERED "" "plmn-001" [] [] "" "" "" j j j
    [mkNfService svcId svc [] "" "" "" "" j "" ∅ NfStatus.REGISTERED] 0 0 ∅.

Definition registerOtherNfInstances (e : Env) : cpp AmfSm unit :=
  ok ← ptr_test nfManager_;
  if negb ok then mret tt else
  let register i := on_nfs (registerNfInstance (env_now e) i) ;; mret tt in
  register (other_nf e "smf-001" NfType.SMF "smf-service-001" "smf-service") ;;
  register (other_nf e "upf-001" NfType.UPF "upf-service-001" "upf-service") ;;
  register (other_nf e "ausf-001" NfType.AUSF "ausf-service-001" "ausf-service") ;;
  register (other_nf e "udm-001" NfType.UDM "udm-service-001" "udm-service") ;;
  register (other_nf e "pcf-001" NfType.PCF "pcf-service-001" "pcf-service").

(** Assigning to a joinable [std::thread] calls [std::terminate]. *)
Definition startMonitoring : cpp AmfSm unit :=
  modify (set_monitoringRunning true) ;;
  joinable ← gets monitoringThread_;
  if (joinable : bool) then undefined "std::terminate" else modify (set_monitoringThread true).

(** The loop of the monitoring thread ends once the flag is cleared, so the
    join returns. *)
Definition stopMonitoring : cpp AmfSm unit :=
  modify (set_monitoringRunning false) ;;
  joinable ← gets monitoringThread_;
  if (joinable : bool) then modify (set_monitoringThread false) else mret tt.

(** The iterations of [monitoringLoop] that the environments [es] describe. *)
Fixpoint monitoringLoop (es : list Env) : cpp AmfSm unit :=
  match es with
  | [] => mret tt
  | e :: es' =>
      run ← gets monitoringRunning_;
      if negb run then mret tt else
      updateStatistics e ;;
      ok ← ptr_test amfNfInstance_;
      (if (ok : bool) then
         load ← gets (fun s => systemLoad (statistics_ s));
         on_self (AmfNfInstance_updateLoad load)
       else mret tt) ;;
      monitoringLoop es'
  end.

Definition amf_locked {A} (body : cpp AmfSm A) : cpp AmfSm A :=
  lock_guard amfMutex_ set_amfMutex body.

Definition initialize (e : Env) (config : AmfConfiguration) : cpp AmfSm bool :=
  amf_locked (
    init ← gets isInitialized_;
    if (init : bool) then mret false else
    modify (set_config config) ;;
    modify (set_ueContextManager Attached) ;;
    modify (set_n1n2InterfaceManager Attached) ;;
    started ← on_interface (startN1N2Service (n1n2BindAddress config) (n2Port config));
    if negb started then mret false else
    modify (set_nfManager Attached) ;;
    modify (set_amfNfInstance Attached) ;;
    done ← on_self (AmfNfInstance_initialize NfStatus.REGISTERED
                      (amfInstanceId config) (cfg_plmnId config));
    if negb done then mret false else
    registered ← on_self (registerWithNrf (nrfUri config));
    if negb registered then mret false else
    registerOtherNfInstances e ;;
    startMonitoring ;;
    modify (set_isInitialized true) ;;
    mret true).

Definition shutdown : cpp AmfSm unit :=
  amf_locked (
    init ← gets isInitialized_;
    if negb init then mret tt else
    stopMonitoring ;;
    a ← ptr_test amfNfInstance_;
    (if (a : bool) then
       m ← ptr_test nfManager_;
       (if (m : bool) then
          self ← gets (fun s => amfInstance_ (the_AmfNfInstance s));
          on_nfs (deregisterNfInstance (nfInstanceId self)) ;; mret tt
        else mret tt) ;;
       on_self stopHeartbeatService
     else mret tt) ;;
    n ← ptr_test n1n2InterfaceManager_;
    (if (n : bool) then on_interface stopN1N2Service else mret tt) ;;
    modify (set_isRunning false) ;;
    modify (set_isInitialized false)).
