(* ===== verification/AmfSpec.v ===== *)
(** * AmfSpec: what the AMF promises about one UE, and that AmfSm keeps it

    An abstract UE machine (registration state plus the number of times each
    procedure really took place), the relation that ties it to the AMF object,
    and the simulation: every event of every run is one abstract step. The
    relation also records how the AMF's counters over-count. *)

From Stdlib Require Import QArith.
From S2P Require Import Prelude SbiMessage UeContext N1N2Interface NfManagement AmfConfiguration AmfState AmfSm.

Local Close Scope Q_scope.
Local Open Scope string_scope.

(** ** The abstract machine *)

Record UeSpec : Set := mkUeSpec {
  sp_state : UeState.UeState;
  sp_registrations : nat;    (* initial or emergency registrations *)
  sp_periodic : nat;         (* periodic registration updates *)
  sp_sessions : nat;         (* PDU session establishments *)
  sp_handovers : nat;        (* handovers from idle *)
  sp_auth_requests : nat;
  sp_auth_responses : nat;
  sp_has_session : bool }.

Definition spec_init : UeSpec := mkUeSpec UeState.DEREGISTERED 0 0 0 0 0 0 false.

Definition spec_step (a : UeSpec) (ev : UeEvent.UeEvent) : UeSpec :=
  let '(mkUeSpec st r p u h q w b) := a in
  match st, ev with
  | UeState.DEREGISTERED, UeEvent.REGISTRATION_REQUEST
  | UeState.DEREGISTERED, UeEvent.EMERGENCY_REGISTRATION =>
      mkUeSpec UeState.REGISTERED_CONNECTED (S r) p u h q w b
  | UeState.REGISTERED_IDLE, UeEvent.SERVICE_REQUEST
  | UeState.REGISTERED_IDLE, UeEvent.EMERGENCY_SERVICE_REQUEST
  | UeState.REGISTERED_IDLE, UeEvent.PAGING_RESPONSE =>
      mkUeSpec UeState.REGISTERED_CONNECTED r p u h q w b
  | UeState.REGISTERED_IDLE, UeEvent.PDU_SESSION_ESTABLISHMENT_REQUEST =>
      mkUeSpec UeState.REGISTERED_CONNECTED r p (S u) h q w true
  | UeState.REGISTERED_IDLE, UeEvent.HANDOVER_REQUEST =>
      mkUeSpec UeState.REGISTERED_CONNECTED r p u (S h) q w b
  | UeState.REGISTERED_IDLE, UeEvent.PERIODIC_REGISTRATION_UPDATE => mkUeSpec st r (S p) u h q w b
  | UeState.REGISTERED_IDLE, UeEvent.DEREGISTER_REQUEST
  | UeState.REGISTERED_IDLE, UeEvent.TIMEOUT_T3511
  | UeState.REGISTERED_IDLE, UeEvent.NETWORK_FAILURE
  | UeState.REGISTERED_CONNECTED, UeEvent.DEREGISTER_REQUEST
  | UeState.REGISTERED_CONNECTED, UeEvent.DEREGISTER_ACCEPT
  | UeState.REGISTERED_CONNECTED, UeEvent.NETWORK_FAILURE
  | UeState.REGISTERED_CONNECTED, UeEvent.AUTHENTICATION_FAILURE =>
      mkUeSpec UeState.DEREGISTERED r p u h q w b
  | UeState.REGISTERED_CONNECTED, UeEvent.AN_RELEASE
  | UeState.REGISTERED_CONNECTED, UeEvent.CONNECTION_RELEASE
  | UeState.REGISTERED_CONNECTED, UeEvent.HANDOVER_COMPLETE =>
      mkUeSpec UeState.REGISTERED_IDLE r p u h q w b
  | UeState.REGISTERED_CONNECTED, UeEvent.PDU_SESSION_RELEASE_REQUEST =>
      mkUeSpec UeState.REGISTERED_IDLE r p u h q w false
  | UeState.REGISTERED_CONNECTED, UeEvent.AUTHENTICATION_REQUEST => mkUeSpec st r p u h (S q) w b
  | UeState.REGISTERED_CONNECTED, UeEvent.AUTHENTICATION_RESPONSE => mkUeSpec st r p u h q (S w) b
  | _, _ => a
  end.

Definition spec_run (evs : list UeEvent.UeEvent) : UeSpec := foldl spec_step spec_init evs.

(** ** The relation *)

Definition connection_weight (st : UeState.UeState) : Z :=
  match st with
  | UeState.DEREGISTERED => 0
  | UeState.REGISTERED_IDLE => 1
  | UeState.REGISTERED_CONNECTED => 2
  end.

Definition registered (st : UeState.UeState) : bool :=
  match st with UeState.DEREGISTERED => false | _ => true end.

Definition has_session_1 (b : bool) (c : UeContext) : Prop :=
  if b then exists x, pduSessions_ c = [x] /\ sessionId x = 1%Z /\ dnn x = "internet"
  else pduSessions_ c = [].

(** The context stored for the UE, if any, has the registration state of the
    machine; its connection state is "CONNECTED" while registered. *)
Definition context_agrees (a : UeSpec) (oc : option UeContext) : Prop :=
  match oc with
  | None => sp_state a = UeState.DEREGISTERED /\ sp_has_session a = false
  | Some c =>
      registrationState_ c = (if registered (sp_state a) then "REGISTERED" else "DEREGISTERED") /\
      connectionState_ c = (if registered (sp_state a) then "CONNECTED" else "IDLE") /\
      has_session_1 (sp_has_session a) c
  end.

Definition counters_agree (a : UeSpec) (t : AmfStatistics) : Prop :=
  (totalUeRegistrations t = 2 * Z.of_nat (sp_registrations a) + Z.of_nat (sp_periodic a) /\
  activeUeConnections t = connection_weight (sp_state a) + Z.of_nat (sp_periodic a) /\
  totalPduSessions t = 2 * Z.of_nat (sp_sessions a) /\
  totalHandovers t = 2 * Z.of_nat (sp_handovers a) /\
  totalAuthenticationAttempts t = 2 * Z.of_nat (sp_auth_requests a) /\
  successfulAuthentications t = 2 * Z.of_nat (sp_auth_responses a))%Z.

Definition ue_of (s : AmfSm) : option UeContext :=
  ueContexts_ (the_UeContextManager s) !! "unknown_supi".

Definition refines (s : AmfSm) (a : UeSpec) : Prop :=
  currentState_ s = sp_state a /\ counters_agree a (statistics_ s) /\ context_agrees a (ue_of s).

(** The context manager is attached and its mutex free. *)
Definition attached (s : AmfSm) : Prop :=
  ueContextManager_ s = Attached /\ contextMutex_ (the_UeContextManager s) = false.

Definition spec_total (a : UeSpec) : nat :=
  sp_registrations a + sp_periodic a + sp_sessions a + sp_handovers a
    + sp_auth_requests a + sp_auth_responses a.

(** The simulation invariant after at most [n] events. *)
Definition sim (n : nat) (s : AmfSm) (a : UeSpec) : Prop :=
  attached s /\ refines s a /\ spec_total a <= n /\ (0 <= response_count s <= Z.of_nat n)%Z.

(** ** Rules for the building blocks *)

Lemma returns_zoom {T A} sel put (m : cpp T A) s (Q : A -> AmfSm -> Prop) :
  returns m (sel s) (fun a t => Q a (put t s)) -> returns (zoom sel put m) s Q.
Proof. intros (a & t & E & HQ). exists a, (put t s). unfold zoom. by rewrite E. Qed.

Lemma returns_ptr_test p s (Q : bool -> AmfSm -> Prop) :
  p s = Attached -> Q true s -> returns (ptr_test p) s Q.
Proof. intros E HQ. apply returns_bind, returns_gets. rewrite E. by apply returns_ret. Qed.

Lemma returns_stat_inc x set_x s (Q : unit -> AmfSm -> Prop) :
  x (statistics_ s) <> INT_MAX ->
  Q tt (set_stat (set_x (x (statistics_ s) + 1)%Z) s) -> returns (stat_inc x set_x) s Q.
Proof.
  intros Hx HQ. apply returns_bind, returns_gets.
  destruct (Z.eqb_spec (x (statistics_ s)) INT_MAX); [done|]. by apply returns_modify.
Qed.

Lemma returns_stat_dec x set_x s (Q : unit -> AmfSm -> Prop) :
  x (statistics_ s) <> INT_MIN ->
  Q tt (set_stat (set_x (Z.max 0 (x (statistics_ s) - 1))) s) -> returns (stat_dec x set_x) s Q.
Proof.
  intros Hx HQ. apply returns_bind, returns_gets.
  destruct (Z.eqb_spec (x (statistics_ s)) INT_MIN); [done|]. by apply returns_modify.
Qed.

Lemma set_same_contexts s : set_the_UeContextManager (the_UeContextManager s) s = s.
Proof. by destruct s. Qed.

Lemma returns_getUeContext k s (Q : option UeContext -> AmfSm -> Prop) :
  attached s -> Q (ueContexts_ (the_UeContextManager s) !! k) s ->
  returns (getUeContext k) s Q.
Proof.
  intros [Hp Hm] HQ. apply returns_bind, returns_ptr_test; [done|]. cbn.
  apply returns_zoom. exists (ueContexts_ (the_UeContextManager s) !! k), (the_UeContextManager s).
  split; [by apply getUeContext_free|]. by rewrite set_same_contexts.
Qed.

(** The AMF after a write to the context table. *)
Definition map_contexts (f : gmap string UeContext -> gmap string UeContext) (s : AmfSm) : AmfSm :=
  set_the_UeContextManager
    (set_contexts (f (ueContexts_ (the_UeContextManager s))) (the_UeContextManager s)) s.

Lemma returns_createUeContext e k s (Q : option UeContext -> AmfSm -> Prop) :
  attached s ->
  Q (Some (UeContext_new (env_junk e) (env_now e) k))
    (map_contexts (insert k (UeContext_new (env_junk e) (env_now e) k)) s) ->
  returns (createUeContext e k) s Q.
Proof.
  intros [Hp Hm] HQ. apply returns_bind, returns_ptr_test; [done|]. cbn.
  apply returns_bind, returns_zoom. eapply returns_Ok; [by apply createUeContext_free|].
  by apply returns_ret.
Qed.

Lemma returns_write_context k f s (Q : unit -> AmfSm -> Prop) :
  Q tt (map_contexts (alter f k) s) -> returns (write_context k f) s Q.
Proof. intros HQ. by apply returns_zoom, returns_modify. Qed.

Lemma attached_map_contexts f s : attached s -> attached (map_contexts f s).
Proof. done. Qed.

(** ** Simulation of one event *)

Ltac amf_counters := unfold INT_MAX, INT_MIN in *; cbn in *; lia.

(** One step of a [returns] goal of the AMF. *)
Ltac amf_wp_step :=
  first
    [ wp_step
    | apply returns_write_context
    | apply returns_getUeContext; [done|]
    | apply returns_createUeContext; [done|]
    | apply returns_stat_inc; [amf_counters|]
    | apply returns_stat_dec; [amf_counters|] ].
Ltac amf_wp := repeat amf_wp_step.

Lemma returns_transitionTo st s (Q : unit -> AmfSm -> Prop) :
  currentState_ s <> st ->
  (0 <= activeUeConnections (statistics_ s) < INT_MAX)%Z ->
  Q tt (set_currentState st
          (set_stat (fun t => set_activeUeConnections
             (match currentState_ s, st with
              | _, UeState.REGISTERED_CONNECTED => activeUeConnections t + 1
              | UeState.REGISTERED_CONNECTED, _ => Z.max 0 (activeUeConnections t - 1)
              | _, _ => activeUeConnections t
              end)%Z t) s)) ->
  returns (transitionTo st) s Q.
Proof.
  intros Hne HA HQ. apply returns_bind, returns_gets. rewrite bool_decide_true by done.
  apply returns_bind.
  assert (forall t, set_activeUeConnections (activeUeConnections t) t = t) as Hid by (by intros []).
  assert (set_statistics (statistics_ s) s = s) as Hid' by (by destruct s).
  unfold set_stat in HQ.
  destruct st, (currentState_ s) eqn:E; try done; cbn in HQ |- *;
    repeat case_bool_decide; try done; amf_wp; try (unfold set_stat; done);
    by rewrite Hid, Hid' in HQ.
Qed.

(** The members an event handler leaves alone. *)
Definition same_sbi (s s' : AmfSm) : Prop :=
  pendingMessages_ s' = pendingMessages_ s /\
  totalSbiMessages (statistics_ s') = totalSbiMessages (statistics_ s) /\
  totalN1Messages (statistics_ s') = totalN1Messages (statistics_ s) /\
  totalN2Messages (statistics_ s') = totalN2Messages (statistics_ s) /\
  sbiCallbacks_ s' = sbiCallbacks_ s /\ config_ s' = config_ s.

(** What an event handler owes: one abstract step, the bookkeeping untouched. *)
Definition one_step (s : AmfSm) (a : UeSpec) (ev : UeEvent.UeEvent) (s' : AmfSm) : Prop :=
  attached s' /\ refines s' (spec_step a ev) /\
  response_count s' = response_count s /\ same_sbi s s'.

Lemma one_step_idle s a ev :
  attached s -> refines s a -> spec_step a ev = a -> one_step s a ev s.
Proof. intros HA HR HS. unfold one_step. by rewrite HS. Qed.

(** Closes [one_step] for an explicit final state: [Hst] gives the machine
    state, [Ec] the stored context. *)
Ltac amf_finish Hst Ec :=
  split; [done|]; split; [|done]; split; [done|]; split;
    [unfold counters_agree; cbn; rewrite ?Hst; lia
    |unfold ue_of; cbn; rewrite ?lookup_alter_eq, ?lookup_insert_eq, ?lookup_alter_eq, ?Ec; cbn].

Section step.
Context (e : Env) (s : AmfSm) (r p u h q w : nat) (b : bool) (n : nat).
Abbreviation spec_at st := (mkUeSpec st r p u h q w b).
Hypothesis HA : attached s.
Hypothesis Hn : r + p + u + h + q + w <= n.
Hypothesis Hbound : (Z.of_nat n < 2 ^ 30 - 2)%Z.

Abbreviation steps st m ev :=
  (returns m s (fun _ s' => one_step s (spec_at st) ev s')).

Lemma register_step ty ev :
  ev = UeEvent.REGISTRATION_REQUEST \/ ev = UeEvent.EMERGENCY_REGISTRATION ->
  refines s (spec_at UeState.DEREGISTERED) ->
  steps UeState.DEREGISTERED
    (processRegistrationRequest e "unknown_supi" ty ;;
     transitionTo UeState.REGISTERED_CONNECTED ;;
     stat_inc totalUeRegistrations set_totalUeRegistrations) ev.
Proof using All.
  intros Hev (Hst & HC & HU). cbn in Hst. unfold counters_agree in HC. cbn in HC.
  apply returns_bind, returns_bind, returns_getUeContext; [done|]. unfold ue_of in HU.
  destruct (ueContexts_ _ !! "unknown_supi") as [c|] eqn:Ec; cbn in HU; amf_wp;
    (apply returns_transitionTo; [by cbn; rewrite Hst|amf_counters|]); amf_wp;
    destruct Hev as [-> | ->]; amf_finish Hst Ec; naive_solver.
Qed.

Lemma deregistered_step ev :
  refines s (spec_at UeState.DEREGISTERED) ->
  steps UeState.DEREGISTERED (handleDeregisteredState e ev) ev.
Proof using All.
  intros HR. destruct ev; try (by apply returns_ret, one_step_idle);
    apply register_step; auto.
Qed.

(** In a registered state the context exists. *)
Lemma registered_context st :
  registered st = true -> refines s (spec_at st) ->
  exists c, ueContexts_ (the_UeContextManager s) !! "unknown_supi" = Some c /\
    registrationState_ c = "REGISTERED" /\ connectionState_ c = "CONNECTED" /\ has_session_1 b c.
Proof using Type.
  intros Hreg (_ & _ & HU). unfold ue_of in HU.
  destruct (ueContexts_ _ !! "unknown_supi") as [c|]; cbn in HU.
  - rewrite Hreg in HU. eauto.
  - destruct HU as [-> _]. done.
Qed.

Lemma session_1_setters f c :
  pduSessions_ (f c) = pduSessions_ c -> has_session_1 b c -> has_session_1 b (f c).
Proof using Type. unfold has_session_1. by intros ->. Qed.

Lemma add_session_1 now x c :
  has_session_1 b c -> sessionId x = 1%Z -> dnn x = "internet" ->
  has_session_1 true (addPduSession now x c).
Proof using Type.
  intros HS H1 H2. exists x. split; [|done]. unfold addPduSession. cbn. rewrite H1.
  destruct b; cbn in HS; [destruct HS as (y & -> & Hy & _); cbn; unfold same_session; rewrite Hy|rewrite HS];
    reflexivity.
Qed.

Lemma remove_session_1 now c : has_session_1 b c -> has_session_1 false (removePduSession now 1 c).
Proof using Type.
  unfold has_session_1, removePduSession. cbn. destruct b; [intros (y & -> & Hy & _)|intros ->; done].
  rewrite filter_cons. unfold same_session. by rewrite Hy.
Qed.

Lemma idle_step ev :
  refines s (spec_at UeState.REGISTERED_IDLE) ->
  steps UeState.REGISTERED_IDLE (handleRegisteredIdleState e ev) ev.
Proof using All.
  intros HR. destruct (registered_context UeState.REGISTERED_IDLE eq_refl HR) as (c & Ec & HU).
  pose proof HR as (Hst & HC & _). cbn in Hst. unfold counters_agree in HC. cbn in HC.
  destruct ev; try (by apply returns_ret, one_step_idle); cbn [handleRegisteredIdleState].
  all: repeat first [apply returns_getUeContext; [done|]; rewrite ?Ec | apply returns_bind].
  all: amf_wp; try (apply returns_transitionTo; [by cbn; rewrite Hst|amf_counters|]).
  all: amf_wp; amf_finish Hst Ec; split_and?; try done; try (by apply HU).
  apply (add_session_1 (env_now e) (mkPduSession 1 "internet" "" "" "" "" "" "ACTIVE"
           (junk_bool (env_junk e)) 0) c); by try apply HU.
Qed.

Lemma connected_step ev :
  refines s (spec_at UeState.REGISTERED_CONNECTED) ->
  steps UeState.REGISTERED_CONNECTED (handleRegisteredConnectedState e ev) ev.
Proof using All.
  intros HR. destruct (registered_context UeState.REGISTERED_CONNECTED eq_refl HR) as (c & Ec & HU).
  pose proof HR as (Hst & HC & _). cbn in Hst. unfold counters_agree in HC. cbn in HC.
  destruct ev; try (by apply returns_ret, one_step_idle); cbn [handleRegisteredConnectedState].
  all: repeat first [apply returns_getUeContext; [done|]; rewrite ?Ec | apply returns_bind].
  all: amf_wp; try (apply returns_transitionTo; [by cbn; rewrite Hst|amf_counters|]).
  all: amf_wp; amf_finish Hst Ec; split_and?; try done; try (by apply HU).
  apply (remove_session_1 (env_now e) c), HU.
Qed.
End step.

(** ** Runs *)

(** The AMF once its pointers are attached, with no UE context yet; the other
    singletons and the configuration are arbitrary. *)
Definition attached_amf (j : Junk) (cfg : AmfConfiguration) (n : N1N2InterfaceManager)
    (m : NfManager) (i : AmfNfInstance) : AmfSm :=
  set_ueContextManager Attached (set_n1n2InterfaceManager Attached
    (set_nfManager Attached (set_amfNfInstance Attached
      (AmfSm_new j cfg UeContextManager_init n m i)))).

Definition handle_events (evs : list (Env * UeEvent.UeEvent)) : cpp AmfSm unit :=
  iterM (fun p => handleEvent p.1 p.2) evs.

Lemma spec_total_step a ev : spec_total (spec_step a ev) <= S (spec_total a).
Proof. destruct a as [[] ? ? ? ? ? ? ?], ev; unfold spec_total; cbn; lia. Qed.

Lemma handler_step e ev s a n :
  attached s -> refines s a -> spec_total a <= n -> (Z.of_nat n < 2 ^ 30 - 2)%Z ->
  returns (match currentState_ s with
           | UeState.DEREGISTERED => handleDeregisteredState e ev
           | UeState.REGISTERED_IDLE => handleRegisteredIdleState e ev
           | UeState.REGISTERED_CONNECTED => handleRegisteredConnectedState e ev
           end) s (fun _ s' => one_step s a ev s').
Proof.
  intros HA HR Hn Hb. destruct a as [st r p u h q w b]. pose proof HR as (Hst & _). cbn in Hst.
  rewrite Hst. unfold spec_total in Hn. cbn in Hn. destruct st;
    [eapply deregistered_step|eapply idle_step|eapply connected_step]; done.
Qed.

Lemma event_sim e ev s a n :
  (Z.of_nat n < 2 ^ 30 - 2)%Z -> sim n s a ->
  returns (handleEvent e ev) s (fun _ s' => sim (S n) s' (spec_step a ev) /\ same_sbi s s').
Proof.
  intros Hb (HA & HR & Hn & Hc). apply returns_bind, returns_gets, returns_bind.
  eapply returns_mono; [by eapply handler_step|]. intros [] s1 (HA1 & HR1 & Hc1 & HF).
  apply returns_bind, returns_modify, returns_bind, returns_gets. cbn.
  destruct (Z.eqb_spec (response_count s1) INT_MAX) as [E|]; [unfold INT_MAX in E; lia|].
  apply returns_bind, returns_modify, returns_modify.
  split; [|by destruct HF as (? & ? & ? & ? & ? & ?)]. split; [done|]. split.
  - destruct HR1 as (? & HC1 & ?). done.
  - split; [pose proof (spec_total_step a ev); lia|]. cbn. lia.
Qed.

Lemma sim_mono n n' s a : n <= n' -> sim n s a -> sim n' s a.
Proof. intros Hn (HA & HR & Ht & Hc). split_and!; try done; lia. Qed.

Lemma events_sim j cfg ni m i evs :
  (Z.of_nat (length evs) < 2 ^ 30 - 2)%Z ->
  returns (handle_events evs) (attached_amf j cfg ni m i)
    (fun _ s => sim (length evs) s (spec_run evs.*2) /\ config_ s = cfg).
Proof.
  intros Hb.
  apply (returns_iterM (fun pre s => sim (length pre) s (spec_run pre.*2) /\ config_ s = cfg)).
  - intros pre [e ev] rest s -> [HI Hcfg]. rewrite length_app, fmap_app. unfold spec_run.
    rewrite foldl_app. cbn. rewrite Nat.add_1_r. rewrite length_app in Hb. cbn in Hb.
    eapply returns_mono; [apply event_sim; [|done]; lia|]. intros [] s' [? HF].
    split; [done|]. by rewrite <-Hcfg; apply HF.
  - by split_and!.
Qed.


Definition some_events (evs : list UeEvent.UeEvent) : list (Env * UeEvent.UeEvent) :=
  pair sample_env <$> evs.

Definition sample_amf : AmfSm :=
  attached_amf sample_junk getDefaultConfiguration (N1N2InterfaceManager_init sample_junk)
    NfManager_init (AmfNfInstance_init NfType.AMF NfStatus.REGISTERED 0 0 0).

