(* ===== verification/AmfProps.v ===== *)
(** * AmfProps: the AMF's message handling, start-up and reporting

    Theorems about AmfSm.v on top of the simulation of AmfSpec.v: the replies to
    SBI requests, the counters the AMF reports and balances its load on, and
    what start-up does. *)

From Stdlib Require Import QArith.
From S2P Require Import Prelude SbiMessage UeContext N1N2Interface NfManagement AmfConfiguration AmfState AmfSm AmfSpec.

Local Close Scope Q_scope.
Local Open Scope string_scope.

(** ** SBI requests *)

(** The reply (type and status code) a message gets in a UE state, and the UE
    event it stands for. *)
Definition sbi_reply (st : UeState.UeState) (m : SbiMessage)
    : option (SbiMessageType.SbiMessageType * Z) :=
  match serviceType_ m, messageType_ m with
  | SbiServiceType.NAMF_COMMUNICATION, SbiMessageType.UE_CONTEXT_CREATE_REQUEST =>
      Some (SbiMessageType.UE_CONTEXT_CREATE_RESPONSE, if registered st then 409%Z else 201%Z)
  | SbiServiceType.NAMF_COMMUNICATION, SbiMessageType.UE_CONTEXT_RELEASE_REQUEST =>
      Some (SbiMessageType.UE_CONTEXT_RELEASE_RESPONSE, 200%Z)
  | SbiServiceType.NSMF_PDU_SESSION, SbiMessageType.PDU_SESSION_CREATE_SM_CONTEXT_REQUEST =>
      Some (SbiMessageType.PDU_SESSION_CREATE_SM_CONTEXT_RESPONSE,
            if registered st then 201%Z else 403%Z)
  | SbiServiceType.NSMF_PDU_SESSION, SbiMessageType.PDU_SESSION_RELEASE_SM_CONTEXT_REQUEST =>
      Some (SbiMessageType.PDU_SESSION_RELEASE_SM_CONTEXT_RESPONSE, 200%Z)
  | SbiServiceType.NAUSF_UE_AUTHENTICATION, SbiMessageType.UE_AUTHENTICATION_REQUEST
  | SbiServiceType.NUDM_UE_AUTHENTICATION, SbiMessageType.UE_AUTHENTICATION_REQUEST =>
      Some (SbiMessageType.UE_AUTHENTICATION_RESPONSE, 200%Z)
  | SbiServiceType.NPCF_AM_POLICY_CONTROL, SbiMessageType.AM_POLICY_CONTROL_CREATE_REQUEST =>
      Some (SbiMessageType.AM_POLICY_CONTROL_CREATE_RESPONSE, 201%Z)
  | _, _ => None
  end.

Definition sbi_event (st : UeState.UeState) (m : SbiMessage) : option UeEvent.UeEvent :=
  match serviceType_ m, messageType_ m with
  | SbiServiceType.NAMF_COMMUNICATION, SbiMessageType.UE_CONTEXT_CREATE_REQUEST =>
      if registered st then None else Some UeEvent.REGISTRATION_REQUEST
  | SbiServiceType.NAMF_COMMUNICATION, SbiMessageType.UE_CONTEXT_RELEASE_REQUEST =>
      Some UeEvent.DEREGISTER_REQUEST
  | SbiServiceType.NSMF_PDU_SESSION, SbiMessageType.PDU_SESSION_CREATE_SM_CONTEXT_REQUEST =>
      if registered st then Some UeEvent.PDU_SESSION_ESTABLISHMENT_REQUEST else None
  | SbiServiceType.NSMF_PDU_SESSION, SbiMessageType.PDU_SESSION_RELEASE_SM_CONTEXT_REQUEST =>
      Some UeEvent.PDU_SESSION_RELEASE_REQUEST
  | SbiServiceType.NAUSF_UE_AUTHENTICATION, SbiMessageType.UE_AUTHENTICATION_REQUEST
  | SbiServiceType.NUDM_UE_AUTHENTICATION, SbiMessageType.UE_AUTHENTICATION_REQUEST =>
      Some UeEvent.AUTHENTICATION_REQUEST
  | _, _ => None
  end.

(** What the AMF queues for a reply. *)
Definition is_reply (m r : SbiMessage) (tc : SbiMessageType.SbiMessageType * Z) : Prop :=
  messageType_ r = tc.1 /\ statusCode_ r = tc.2 /\ serviceType_ r = serviceType_ m /\
  status_ r = SbiMessageStatus.PENDING /\ headers_ r !! "Location" = Some (uri_ m +:+ "/response").

Definition replies (st : UeState.UeState) (m : SbiMessage) (l : list SbiMessage) : Prop :=
  match sbi_reply st m with
  | Some tc => exists r, l = [r] /\ is_reply m r tc
  | None => l = []
  end.

Definition spec_sbi_step (a : UeSpec) (m : SbiMessage) : UeSpec :=
  match sbi_event (sp_state a) m with Some ev => spec_step a ev | None => a end.

(** A request is handled as its event, and leaves its reply. *)
Definition sbi_post (s : AmfSm) (a : UeSpec) (m : SbiMessage) (n : nat) (s' : AmfSm) : Prop :=
  sim n s' (spec_sbi_step a m) /\
  exists l, replies (sp_state a) m l /\ pendingMessages_ s' = (pendingMessages_ s ++ l)%list /\
    totalSbiMessages (statistics_ s') = totalSbiMessages (statistics_ s).

Lemma reply_then_event e s a m r ev n tc :
  (Z.of_nat n < 2 ^ 30 - 2)%Z -> sim n s a ->
  sbi_reply (sp_state a) m = Some tc -> is_reply m (setStatus SbiMessageStatus.PENDING r) tc ->
  sbi_event (sp_state a) m = Some ev ->
  returns (sendSbiMessage r ;; handleEvent e ev) s (fun _ s' => sbi_post s a m (S n) s').
Proof.
  intros Hb HS Hr Hm Hev. apply returns_bind, returns_modify.
  eapply returns_mono; [by apply event_sim|].
  intros [] s' (HS' & HP & HT & _). unfold sbi_post, spec_sbi_step, replies. rewrite Hev, Hr.
  split; [done|]. eexists. by eauto.
Qed.

Lemma reply_only s a m r n tc :
  sim n s a ->
  sbi_reply (sp_state a) m = Some tc -> is_reply m (setStatus SbiMessageStatus.PENDING r) tc ->
  sbi_event (sp_state a) m = None ->
  returns (sendSbiMessage r) s (fun _ s' => sbi_post s a m (S n) s').
Proof.
  intros HS Hr Hm Hev. apply returns_modify. unfold sbi_post, spec_sbi_step, replies.
  rewrite Hev, Hr. split; [eapply (sim_mono n); [lia|done]|]. eexists. by eauto.
Qed.

Lemma no_reply s a m n :
  sim n s a -> sbi_reply (sp_state a) m = None -> sbi_event (sp_state a) m = None ->
  returns (mret tt) s (fun _ s' => sbi_post s a m (S n) s').
Proof.
  intros HS Hr Hev. apply returns_ret. unfold sbi_post, spec_sbi_step, replies.
  rewrite Hev, Hr. split; [eapply (sim_mono n); [lia|done]|]. exists []. by rewrite app_nil_r.
Qed.

Ltac classify3 Es Em Ea := unfold sbi_reply, sbi_event; rewrite ?Es, ?Em, ?Ea; done.
Ltac classify Es Em := unfold sbi_reply, sbi_event; rewrite ?Es, ?Em; done.

Lemma not_request_no_reply m st :
  isRequest m = false -> sbi_reply st m = None /\ sbi_event st m = None.
Proof.
  unfold isRequest, sbi_reply, sbi_event.
  destruct (serviceType_ m), (messageType_ m); done.
Qed.

(** Dispatch of a request by service and message type. *)
Lemma request_step e s a m n :
  (Z.of_nat n < 2 ^ 30 - 2)%Z -> sim n s a ->
  returns (processSbiRequest e m) s (fun _ s' => sbi_post s a m (S n) s').
Proof.
  intros Hb HS. pose proof HS as (_ & (Hst & _) & _).
  unfold processSbiRequest, handleRegistrationSbiMessages, handleSessionSbiMessages,
    handleAuthenticationSbiMessages, handlePolicyControlSbiMessages.
  destruct (serviceType_ m) eqn:Es, (messageType_ m) eqn:Em;
    try solve [apply no_reply; [done|classify Es Em..]];
    try solve [eapply reply_then_event; [done..|classify Es Em|done|classify Es Em]];
    try solve [eapply reply_only; [done|classify Es Em|done|classify Es Em]].
  all: apply returns_bind, returns_gets; rewrite Hst; destruct (sp_state a) eqn:Ea;
    repeat case_bool_decide; try done.
  all: rewrite <-Ea in Hst;
    first [ solve [eapply reply_then_event; [done|done|classify3 Es Em Ea|done|classify3 Es Em Ea]]
          | solve [eapply reply_only; [done|classify3 Es Em Ea|done|classify3 Es Em Ea]] ].
Qed.

Lemma message_step e s a m n :
  (Z.of_nat n < 2 ^ 30 - 2)%Z -> sim n s a ->
  (0 <= totalSbiMessages (statistics_ s) <= Z.of_nat n)%Z ->
  returns (handleSbiMessage e m) s (fun _ s' =>
    sim (S n) s' (spec_sbi_step a m) /\
    totalSbiMessages (statistics_ s') = (totalSbiMessages (statistics_ s) + 1)%Z /\
    exists l, replies (sp_state a) m l /\ pendingMessages_ s' = (pendingMessages_ s ++ l)%list).
Proof.
  intros Hb HS HT. apply returns_bind, returns_stat_inc; [unfold INT_MAX; lia|].
  set (s1 := set_stat _ s).
  assert (sim n s1 a) as HS1.
  { destruct HS as (HA & (Hst & HC & HU) & Ht & Hc). split; [done|]. split; [|done].
    split; [exact Hst|]. split; [exact HC|exact HU]. }
  apply returns_mono with (Q := fun _ s' => sbi_post s1 a m (S n) s').
  - destruct (isRequest m) eqn:Er; [by apply request_step|].
    destruct (not_request_no_reply m (sp_state a) Er) as [Hr Hev].
    destruct (isResponse m); [|by apply no_reply].
    apply returns_bind, returns_gets. destruct (sbiCallbacks_ s1 !! _); [|by apply no_reply].
    apply returns_modify. unfold sbi_post, spec_sbi_step, replies. rewrite Hr, Hev.
    split; [by eapply (sim_mono n); [lia|]|]. exists []. by rewrite app_nil_r.
  - intros [] s' (HS' & l & Hl & HP & HT'). split; [done|]. split; [done|]. by exists l.
Qed.

Fixpoint expected_replies (a : UeSpec) (ms : list SbiMessage)
    : list (SbiMessageType.SbiMessageType * Z) :=
  match ms with
  | [] => []
  | m :: ms => (option_list (sbi_reply (sp_state a) m) ++
                expected_replies (spec_sbi_step a m) ms)%list
  end.

Lemma expected_replies_snoc a ms m :
  expected_replies a (ms ++ [m])%list =
    (expected_replies a ms ++ option_list (sbi_reply (sp_state (foldl spec_sbi_step a ms)) m))%list.
Proof.
  revert a. induction ms as [|m' ms IH]; intros a; cbn; [by rewrite app_nil_r|].
  by rewrite IH, app_assoc.
Qed.

Definition reply_view (r : SbiMessage) : SbiMessageType.SbiMessageType * Z :=
  (messageType_ r, statusCode_ r).

Lemma replies_view st m l :
  replies st m l -> reply_view <$> l = option_list (sbi_reply st m) /\
    Forall (fun r => isSuccess r = false) l.
Proof.
  unfold replies. destruct (sbi_reply st m) as [[t c]|]; [|by intros ->].
  intros (r & -> & E1 & E2 & _ & E4 & _). cbn in E1, E2. subst.
  split; [done|]. constructor; [|done]. unfold isSuccess. by rewrite E4.
Qed.

Definition handle_messages (ms : list (Env * SbiMessage)) : cpp AmfSm unit :=
  iterM (fun p => handleSbiMessage p.1 p.2) ms.

Definition sbi_inv (ms : list (Env * SbiMessage)) (s : AmfSm) : Prop :=
  sim (length ms) s (foldl spec_sbi_step spec_init ms.*2) /\
  totalSbiMessages (statistics_ s) = Z.of_nat (length ms) /\
  reply_view <$> pendingMessages_ s = expected_replies spec_init ms.*2 /\
  Forall (fun r => isSuccess r = false) (pendingMessages_ s).

Lemma messages_sim j cfg ni m i ms :
  (Z.of_nat (length ms) < 2 ^ 30 - 2)%Z ->
  returns (handle_messages ms) (attached_amf j cfg ni m i) (fun _ s => sbi_inv ms s).
Proof.
  intros Hb. apply (returns_iterM sbi_inv); [|by split_and!].
  intros pre [e x] rest s -> (HS & HT & HP & HF). rewrite length_app in Hb. cbn in Hb.
  eapply returns_mono; [eapply (message_step _ _ _ _ (length pre)); [lia|exact HS|lia]|].
  intros [] s' (HS' & HT' & l & Hl & HP'). apply replies_view in Hl as [Hv HFl].
  unfold sbi_inv. rewrite length_app, fmap_app, foldl_app. cbn.
  rewrite Nat.add_1_r, HT', HT, HP', fmap_app, HP, Hv, expected_replies_snoc.
  split_and!; [done|lia|done|by apply Forall_app].
Qed.


Definition sample_request (svc : SbiServiceType.SbiServiceType)
    (t : SbiMessageType.SbiMessageType) : Env * SbiMessage :=
  (sample_env, setUri "/x" (SbiMessage_new svc t HttpMethod.POST)).


(** ** N1 and N2 messages *)

Definition nas_event (m : N1Message + N2Message) : option UeEvent.UeEvent :=
  match m with
  | inl m =>
      match n1_messageType m with
      | N1MessageType.REGISTRATION_REQUEST => Some UeEvent.REGISTRATION_REQUEST
      | N1MessageType.DEREGISTRATION_REQUEST_UE_ORIG
      | N1MessageType.DEREGISTRATION_REQUEST_UE_TERM => Some UeEvent.DEREGISTER_REQUEST
      | N1MessageType.SERVICE_REQUEST => Some UeEvent.SERVICE_REQUEST
      | N1MessageType.AUTHENTICATION_RESPONSE => Some UeEvent.AUTHENTICATION_RESPONSE
      | _ => None
      end
  | inr m =>
      match n2_messageType m with
      | N2MessageType.UE_CONTEXT_RELEASE_COMPLETE => Some UeEvent.CONNECTION_RELEASE
      | N2MessageType.HANDOVER_NOTIFY => Some UeEvent.HANDOVER_COMPLETE
      | _ => None
      end
  end.

Definition spec_nas_step (a : UeSpec) (m : N1Message + N2Message) : UeSpec :=
  match nas_event m with Some ev => spec_step a ev | None => a end.

Definition handle_nas (e : Env) (m : N1Message + N2Message) : cpp AmfSm unit :=
  match m with inl m => handleN1Message e m | inr m => handleN2Message e m end.

(** The message counters after a message. *)
Definition nas_counted (m : N1Message + N2Message) (s s' : AmfSm) : Prop :=
  totalN1Messages (statistics_ s') =
    (totalN1Messages (statistics_ s) + match m with inl _ => 1 | inr _ => 0 end)%Z /\
  totalN2Messages (statistics_ s') =
    (totalN2Messages (statistics_ s) + match m with inl _ => 0 | inr _ => 1 end)%Z.

Definition nas_post (m : N1Message + N2Message) (s : AmfSm) (a : UeSpec) (n : nat)
    (s' : AmfSm) : Prop :=
  nas_counted m s s' /\ sim (S n) s' (spec_nas_step a m).

Lemma nas_event_step e ev s0 s a n m :
  (Z.of_nat n < 2 ^ 30 - 2)%Z -> sim n s a -> nas_counted m s0 s ->
  spec_nas_step a m = spec_step a ev ->
  returns (handleEvent e ev) s (fun _ s' => nas_post m s0 a n s').
Proof.
  intros Hb HS HC HP. eapply returns_mono; [by apply event_sim|].
  intros [] s' (HS' & _ & _ & E1 & E2 & _). unfold nas_post, nas_counted. rewrite E1, E2, HP. done.
Qed.

Lemma nas_idle_step s0 s a n m :
  sim n s a -> nas_counted m s0 s -> spec_nas_step a m = a ->
  returns (mret tt) s (fun _ s' => nas_post m s0 a n s').
Proof.
  intros HS HC HP. apply returns_ret. split; [done|]. rewrite HP. by eapply (sim_mono n); [lia|].
Qed.

Lemma security_mode_complete_idle a : spec_step a UeEvent.SECURITY_MODE_COMPLETE = a.
Proof. by destruct a as [[] ? ? ? ? ? ? ?]. Qed.

Lemma sim_stat f n s a :
  (forall t, counters_agree a t -> counters_agree a (f t)) -> sim n s a -> sim n (set_stat f s) a.
Proof.
  intros Hf (HA & (Hst & HC & HU) & Ht & Hc). split; [done|]. split; [|done].
  split; [exact Hst|]. split; [by apply Hf|exact HU].
Qed.

(** Closes the counting and table goals of one message of type [Em]. *)
Ltac nas_close Em :=
  unfold nas_counted, spec_nas_step, nas_event; cbn; rewrite ?Em;
  first [done | split; lia | symmetry; apply security_mode_complete_idle].

Lemma nas_step e m s a n :
  (Z.of_nat n < 2 ^ 30 - 2)%Z -> sim n s a ->
  totalN1Messages (statistics_ s) <> INT_MAX -> totalN2Messages (statistics_ s) <> INT_MAX ->
  returns (handle_nas e m) s (fun _ s' => nas_post m s a n s').
Proof.
  intros Hb HS H1 H2. destruct m as [m|m]; cbn [handle_nas];
    apply returns_bind, returns_stat_inc; try done.
  - destruct (n1_messageType m) eqn:Em; first
      [ apply (nas_idle_step _ _ a); [by apply sim_stat|nas_close Em..]
      | apply (nas_event_step _ _ _ _ a); [done|by apply sim_stat|nas_close Em..] ].
  - destruct (n2_messageType m) eqn:Em; first
      [ apply (nas_idle_step _ _ a); [by apply sim_stat|nas_close Em..]
      | apply (nas_event_step _ _ _ _ a); [done|by apply sim_stat|nas_close Em..] ].
Qed.

(** Every N1 or N2 message counted so far is one of the messages handled. *)
Definition nas_inv (ms : list (Env * (N1Message + N2Message))) (s : AmfSm) : Prop :=
  sim (length ms) s (foldl spec_nas_step spec_init ms.*2) /\
  (0 <= totalN1Messages (statistics_ s))%Z /\ (0 <= totalN2Messages (statistics_ s))%Z /\
  (totalN1Messages (statistics_ s) + totalN2Messages (statistics_ s))%Z = Z.of_nat (length ms).

(** The N1 and N2 front ends drive the same machine: every sequence of
    messages from UEs and RAN nodes is handled without error, the UE ends in the
    state of the abstract machine run on the events the messages stand for
    (messages of other types change nothing), and every message is counted
    exactly once. *)
Theorem nas_messages_correct j cfg ni m i ms :
  (Z.of_nat (length ms) < 2 ^ 30 - 2)%Z ->
  exists s, iterM (fun p => handle_nas p.1 p.2) ms (attached_amf j cfg ni m i) = Ok tt s /\
    refines s (foldl spec_nas_step spec_init ms.*2) /\
    (totalN1Messages (statistics_ s) + totalN2Messages (statistics_ s))%Z = Z.of_nat (length ms).
Proof.
  intros Hb.
  destruct (returns_iterM nas_inv (fun p => handle_nas p.1 p.2) ms) with (s := attached_amf j cfg ni m i)
    as ([] & s & E & (_ & HR & _) & _ & _ & HI); [|by split_and!|by exists s].
  intros pre [e x] rest s -> (HS & H1 & H2 & HN). rewrite length_app in Hb. cbn in Hb.
  eapply returns_mono; [eapply (nas_step _ _ _ _ (length pre));
    [lia|exact HS|unfold INT_MAX; lia|unfold INT_MAX; lia]|].
  intros [] s' ((E1 & E2) & HS'). unfold nas_inv. rewrite length_app, fmap_app, foldl_app. cbn.
  rewrite Nat.add_1_r, E1, E2. split; [done|]. destruct x; cbn; lia.
Qed.

Definition sample_n1 (t : N1MessageType.N1MessageType) : Env * (N1Message + N2Message) :=
  (sample_env, inl (mkN1Message t "imsi-1" "" ∅ 0)).
Definition sample_n2 (t : N2MessageType.N2MessageType) : Env * (N1Message + N2Message) :=
  (sample_env, inr (mkN2Message t "gnb-001" "" "" "" ∅ 0)).

Lemma nas_messages_correct_witness :
  exists s, iterM (fun p => handle_nas p.1 p.2)
    [sample_n1 N1MessageType.REGISTRATION_REQUEST; sample_n2 N2MessageType.HANDOVER_NOTIFY;
     sample_n1 N1MessageType.IDENTITY_RESPONSE] sample_amf = Ok tt s /\
  currentState_ s = UeState.REGISTERED_IDLE /\
  (totalN1Messages (statistics_ s) + totalN2Messages (statistics_ s) = 3)%Z.
Proof.
  destruct (nas_messages_correct sample_junk getDefaultConfiguration
    (N1N2InterfaceManager_init sample_junk) NfManager_init
    (AmfNfInstance_init NfType.AMF NfStatus.REGISTERED 0 0 0)
    [sample_n1 N1MessageType.REGISTRATION_REQUEST; sample_n2 N2MessageType.HANDOVER_NOTIFY;
     sample_n1 N1MessageType.IDENTITY_RESPONSE] ltac:(cbn; lia)) as (s & E & (Hst & _) & HT).
  exists s. split; [exact E|]. split; [exact Hst|exact HT].
Defined.

(** ** Connection accounting *)

Lemma periodic_leak_run a k :
  sp_state a = UeState.REGISTERED_IDLE ->
  foldl spec_step a (replicate k UeEvent.PERIODIC_REGISTRATION_UPDATE) =
    mkUeSpec (sp_state a) (sp_registrations a) (k + sp_periodic a) (sp_sessions a)
      (sp_handovers a) (sp_auth_requests a) (sp_auth_responses a) (sp_has_session a).
Proof.
  revert a. induction k as [|k IH]; intros [st r p u h q w b] Hst; cbn in Hst; subst st; [done|].
  cbn [replicate foldl]. rewrite IH by done. cbn. by rewrite Nat.add_succ_r.
Qed.

(** A UE that registers, is released, sends [k] periodic updates and leaves. *)
Definition leaky_life (k : nat) : list UeEvent.UeEvent :=
  ([UeEvent.REGISTRATION_REQUEST; UeEvent.AN_RELEASE] ++
   replicate k UeEvent.PERIODIC_REGISTRATION_UPDATE ++ [UeEvent.DEREGISTER_REQUEST])%list.

Lemma leaky_life_spec k :
  spec_run (leaky_life k) = mkUeSpec UeState.DEREGISTERED 1 k 0 0 0 0 false.
Proof.
  unfold spec_run, leaky_life. rewrite !foldl_app, periodic_leak_run by done. cbn.
  by rewrite Nat.add_0_r.
Qed.

(** Periodic registration updates leak connections: after a UE registered,
    went idle, sent [k] periodic updates and deregistered, no UE is registered,
    yet the AMF still counts [k] active connections (and [k + 2] registrations
    for the one that took place), and once [k] reaches the configured capacity it
    reports itself overloaded. *)
Theorem periodic_updates_leak_connections j cfg ni m i k :
  (0 < maxUeConnections cfg)%Z -> (loadBalanceThreshold cfg <= 100)%Z ->
  (maxUeConnections cfg <= Z.of_nat k <= 2 ^ 24)%Z ->
  exists s, handle_events (pair sample_env <$> leaky_life k) (attached_amf j cfg ni m i) = Ok tt s /\
    currentState_ s = UeState.DEREGISTERED /\
    (forall c, ue_of s = Some c -> registrationState_ c = "DEREGISTERED") /\
    activeUeConnections (statistics_ s) = Z.of_nat k /\
    totalUeRegistrations (statistics_ s) = (Z.of_nat k + 2)%Z /\
    checkLoadBalance s = Ok false s.
Proof.
  intros Hm Hthr Hk.
  destruct (events_sim j cfg ni m i (pair sample_env <$> leaky_life k))
    as ([] & s & E & (_ & (Hst & HC & HU) & _) & Hcfg).
  { unfold leaky_life. rewrite length_fmap, !length_app, length_replicate. cbn. lia. }
  rewrite <-list_fmap_compose, list_fmap_id, leaky_life_spec in Hst, HC, HU.
  unfold counters_agree in HC. cbn in Hst, HC. exists s. split_and!; [done|done| |lia..|].
  - intros c Hc. rewrite Hc in HU. apply HU.
  - assert (activeUeConnections (statistics_ s) = Z.of_nat k) as Ha by lia.
    unfold checkLoadBalance, calculateCurrentLoad, mbind, cpp_bind, gets. rewrite Hcfg.
    destruct (Z.eqb_spec (maxUeConnections cfg) 0); [lia|]. rewrite Ha.
    rewrite bool_decide_true by (unfold is_int, INT_MAX, INT_MIN; lia). cbn. f_equal.
    apply Z.ltb_ge. rewrite Hcfg. apply Z.le_trans with 100%Z; [done|].
    apply Z.quot_le_lower_bound; lia.
Qed.

(** A configuration for three connections with a threshold of 80 per cent. *)
Definition small_config : AmfConfiguration :=
  mkAmfConfiguration "amf-001" "" "" "" "" "46001" [] [] "" 8080 "" 38412 "" [] 30 [] 3 80 15 10 6 6
    "" 30 "INFO" "".

Lemma periodic_updates_leak_connections_witness :
  (maxUeConnections small_config <= Z.of_nat 3 <= 2 ^ 24)%Z /\
  exists s, handle_events (pair sample_env <$> leaky_life 3)
      (attached_amf sample_junk small_config (N1N2InterfaceManager_init sample_junk) NfManager_init
         (AmfNfInstance_init NfType.AMF NfStatus.REGISTERED 0 0 0)) = Ok tt s /\
    currentState_ s = UeState.DEREGISTERED /\ checkLoadBalance s = Ok false s.
Proof.
  split; [cbn; lia|].
  destruct (periodic_updates_leak_connections sample_junk small_config
    (N1N2InterfaceManager_init sample_junk) NfManager_init
    (AmfNfInstance_init NfType.AMF NfStatus.REGISTERED 0 0 0) 3)
    as (s & E & Hst & _ & _ & _ & HL); [cbn; lia..|].
  exists s. split; [exact E|]. split; [exact Hst|exact HL].
Defined.

(** ** Start-up *)

Definition mutexes_free (s : AmfSm) : Prop :=
  amfMutex_ s = false /\ interfaceMutex_ (the_N1N2InterfaceManager s) = false /\
  instanceMutex_ (the_AmfNfInstance s) = false.

Lemma zoom_Ok {T A} sel put (m : cpp T A) s a t :
  m (sel s) = Ok a t -> zoom sel put m s = Ok a (put t s).
Proof. unfold zoom. by intros ->. Qed.

Lemma zoom_Blocked {T A} sel put (m : cpp T A) s t :
  m (sel s) = Blocked t -> zoom sel put m s = Blocked (put t s).
Proof. unfold zoom. by intros ->. Qed.

Lemma bind_Blocked {S A B} (m : cpp S A) (k : A -> cpp S B) s s' :
  m s = Blocked s' -> (m ≫= k) s = Blocked s'.
Proof. unfold mbind, cpp_bind. by intros ->. Qed.

(** [initialize] never returns: from every state in which no mutex is held
    and the AMF is not initialised, it deadlocks while registering with the NRF,
    because [registerWithNrf] calls [startHeartbeatService] with the instance
    mutex held. The thread waits with the AMF's own mutex and the instance mutex
    locked and [isInitialized_] still false. *)
Theorem initialize_deadlocks e cfg s :
  mutexes_free s -> isInitialized_ s = false ->
  exists s', initialize e cfg s = Blocked s' /\
    amfMutex_ s' = true /\ instanceMutex_ (the_AmfNfInstance s') = true /\
    isInitialized_ s' = false.
Proof.
  intros (HL & HI & HN) Hinit. unfold initialize, amf_locked, lock_guard. rewrite HL.
  unfold mbind at 1, cpp_bind at 1. cbn. rewrite Hinit.
  do 3 (unfold mbind at 1, cpp_bind at 1; cbn).
  erewrite bind_Ok; [|apply zoom_Ok, startN1N2Service_spec, HI]. cbn.
  do 2 (unfold mbind at 1, cpp_bind at 1; cbn).
  destruct (AmfNfInstance_initialize_run NfStatus.REGISTERED (amfInstanceId cfg) (cfg_plmnId cfg)
              (the_AmfNfInstance s) HN) as (t & Et & Ht).
  erewrite bind_Ok; [|apply zoom_Ok, Et]. cbn.
  erewrite bind_Blocked; [|apply zoom_Blocked, registerWithNrf_blocks, Ht].
  eexists. split; [reflexivity|]. cbn. by destruct t.
Qed.

Definition fresh_amf : AmfSm :=
  AmfSm_new sample_junk getDefaultConfiguration UeContextManager_init
    (N1N2InterfaceManager_init sample_junk) NfManager_init
    (AmfNfInstance_init NfType.AMF NfStatus.REGISTERED 0 0 0).

Lemma initialize_deadlocks_witness :
  mutexes_free fresh_amf /\
  exists s', initialize sample_env getDefaultConfiguration fresh_amf = Blocked s' /\
    isInitialized_ s' = false.
Proof.
  assert (mutexes_free fresh_amf) as HM by (repeat split; reflexivity).
  split; [exact HM|].
  destruct (initialize_deadlocks sample_env getDefaultConfiguration fresh_amf HM eq_refl)
    as (s' & E & _ & _ & H). exists s'. split; [exact E|exact H].
Defined.

(** The requests that make the AMF look for a UE context of a deregistered UE. *)
Definition registers (ev : UeEvent.UeEvent) : bool :=
  match ev with UeEvent.REGISTRATION_REQUEST | UeEvent.EMERGENCY_REGISTRATION => true | _ => false end.

(** Without [initialize] (which the server program never calls) the first
    registration event has undefined behaviour: the handler reads the pointer to
    the context manager, which the constructor leaves uninitialised. Every other
    event is ignored in the initial state. *)
Theorem uninitialised_amf j cfg u n m i e ev :
  let s := AmfSm_new j cfg u n m i in
  if registers ev
  then handleEvent e ev s = Undefined "read of an uninitialised pointer"
  else exists s', handleEvent e ev s = Ok tt s' /\ currentState_ s' = UeState.DEREGISTERED /\
         ueContextManager_ s' = Uninit /\ the_UeContextManager s' = u.
Proof. cbn zeta. destruct ev; cbn; first [reflexivity | by eexists]. Qed.

(** ** Reported statistics *)

Lemma to_int_add_l x y : to_int (to_int x + y) = to_int (x + y).
Proof.
  unfold to_int. f_equal.
  replace ((x + 2 ^ 31) `mod` 2 ^ 32 - 2 ^ 31 + y + 2 ^ 31)%Z
    with ((x + 2 ^ 31) `mod` 2 ^ 32 + y)%Z by lia.
  rewrite Z.add_mod_idemp_l by lia. f_equal. lia.
Qed.

Lemma sum_counts_from x l :
  is_int x ->
  foldl (fun acc (tc : NfType.NfType * nat) =>
           if bool_decide (0 < tc.2) then to_int (acc + Z.of_nat tc.2) else acc) x l =
  to_int (x + Z.of_nat (sum_list l.*2)).
Proof.
  revert x. induction l as [|[t c] l IH]; intros x Hx; cbn.
  - rewrite Z.add_0_r. symmetry. by apply to_int_small.
  - assert (forall z, is_int (to_int z)) as Hint.
    { intros z. unfold is_int, to_int, INT_MIN, INT_MAX.
      pose proof (Z.mod_pos_bound (z + 2 ^ 31) (2 ^ 32)). lia. }
    case_bool_decide; rewrite IH by done; [rewrite to_int_add_l|]; f_equal; lia.
Qed.

Lemma sum_counts_total st :
  sum_counts st = to_int (Z.of_nat (sum_list (map_to_list st).*2)).
Proof.
  unfold sum_counts. rewrite sum_counts_from by (unfold is_int, INT_MIN, INT_MAX; lia).
  do 2 f_equal. assert ((map_ordered nf_type_le st).*2 ≡ₚ (map_to_list st).*2) as HP
    by (by rewrite map_ordered_perm).
  induction HP; cbn; lia.
Qed.

Lemma registered_count_run s :
  contextMutex_ s = false ->
  getRegisteredUeCount s =
    Ok (length (filter (fun c => registrationState_ c <> "DEREGISTERED")
                  (string_map_ordered (ueContexts_ s)).*2)) s.
Proof.
  intros HL. unfold getRegisteredUeCount, locked, lock_guard. rewrite HL. by destruct s as [?? []].
Qed.

Lemma active_sessions_run s :
  contextMutex_ s = false ->
  getActiveSessionCount s =
    Ok (foldl (fun n c => n + length (getActivePduSessions c)) 0
          (string_map_ordered (ueContexts_ s)).*2) s.
Proof.
  intros HL. unfold getActiveSessionCount, locked, lock_guard. rewrite HL. by destruct s as [?? []].
Qed.

(** The statistics report: it leaves the AMF unchanged, counts the contexts
    that are not deregistered, and takes both network-function figures from the
    by-type index: the number of registered instances it reports is the number of
    types ever seen, and the number of healthy instances is the number of index
    entries, whatever their health. *)
Theorem statistics_report s :
  attached s -> nfManager_ s = Attached -> nfMutex_ (the_NfManager s) = false ->
  exists t, getStatistics s = Ok t s /\
    totalUeContexts t = to_int (Z.of_nat (length
      (filter (fun c => registrationState_ c <> "DEREGISTERED")
         (map_to_list (ueContexts_ (the_UeContextManager s))).*2))) /\
    registeredNfInstances t =
      to_int (Z.of_nat (size (nfInstancesByType_ (the_NfManager s)))) /\
    healthyNfInstances t =
      to_int (Z.of_nat (sum_list
        (length <$> (map_to_list (nfInstancesByType_ (the_NfManager s))).*2))) /\
    activeUeConnections t = activeUeConnections (statistics_ s).
Proof.
  intros [Hp Hm] Hn HL.
  assert (returns getStatistics s (fun t s' => s' = s /\
    t = set_healthyNfInstances (sum_counts (length <$> nfInstancesByType_ (the_NfManager s)))
          (set_registeredNfInstances
             (to_int (Z.of_nat (size (length <$> nfInstancesByType_ (the_NfManager s)))))
             (set_activePduSessions (to_int (Z.of_nat
                (foldl (fun n c => n + length (getActivePduSessions c)) 0
                   (string_map_ordered (ueContexts_ (the_UeContextManager s))).*2)))
                (set_totalUeContexts (to_int (Z.of_nat (length
                   (filter (fun c => registrationState_ c <> "DEREGISTERED")
                      (string_map_ordered (ueContexts_ (the_UeContextManager s))).*2))))
                   (statistics_ s)))))) as (t & s' & E & -> & ->).
  { apply returns_bind, returns_gets, returns_bind, returns_ptr_test; [done|].
    apply returns_bind, returns_bind, returns_zoom.
    eapply returns_Ok; [by apply registered_count_run|]. rewrite set_same_contexts.
    apply returns_bind, returns_zoom.
    eapply returns_Ok; [by apply active_sessions_run|]. rewrite set_same_contexts.
    apply returns_ret, returns_bind, returns_ptr_test; [done|].
    apply returns_bind, returns_zoom. eapply returns_Ok; [by apply getNfStatistics_run|].
    apply returns_ret. split; [by destruct s|done]. }
  eexists. split; [exact E|]. cbn. rewrite sum_counts_total, map_size_fmap, map_to_list_fmap.
  rewrite <-!list_fmap_compose. split_and!; try done.
  do 2 f_equal. by rewrite map_ordered_perm.
Qed.

Lemma statistics_report_witness :
  exists t, getStatistics (set_the_NfManager sample_registry sample_amf)
              = Ok t (set_the_NfManager sample_registry sample_amf) /\
    registeredNfInstances t = 1%Z /\ healthyNfInstances t = 2%Z.
Proof.
  destruct (statistics_report (set_the_NfManager sample_registry sample_amf))
    as (t & E & _ & HR & HH & _); [by split|done|done|].
  exists t. split; [exact E|]. split; [exact HR|exact HH].
Defined.
