(* ===== verification/HttpSbiServer.v ===== *)
(** * HttpSbiServer: the HTTP front end of the AMF program

    Models src/5gc/amf/amf_http_server.cpp: parsing a request, mapping it to an
    SBI message, running the AMF on it and rendering the response. Requests are
    served one after the other (the program's detached client threads run
    [handleClient] on the same AMF without synchronisation; only their sequential
    order is modelled), and the sockets are left out. *)

From Stdlib Require Import Ascii.
From stdpp Require Import finite.
From S2P Require Import Prelude Text SbiMessage UeContext N1N2Interface NfManagement AmfConfiguration AmfState AmfSm AmfSpec AmfProps.

Local Open Scope string_scope.

Record HttpRequest : Set := mkHttpRequest {
  method : string;
  uri : string;
  version : string;
  headers : gmap string string;
  body : string }.

(** ** Parsing *)

(** The two loops that trim a header value. *)
Definition trim_value (v : string) : string :=
  rstrip (fun c => char_eqb c cr || char_eqb c nl)
    (lstrip (fun c => char_eqb c " " || char_eqb c tab) v).

(** [std::getline(stream, line) && line != "\r" && !line.empty()]: the header
    lines; the line that ends them is consumed. *)
Fixpoint parse_headers (ls : list string) (hs : gmap string string)
    : gmap string string * list string :=
  match ls with
  | [] => (hs, [])
  | line :: ls' =>
      if String.eqb line (String cr "") || String.eqb line "" then (hs, ls')
      else match split_at ":" line with
           | Some (key, value) => parse_headers ls' (<[key := trim_value value]> hs)
           | None => parse_headers ls' hs
           end
  end.

(** [body += bodyLine + "\n"] for every line, then the last newline is dropped. *)
Definition join_body (ls : list string) : string := String.concat (String nl "") ls.

Definition parseHttpRequest (request : string) : HttpRequest :=
  match lines request with
  | [] => mkHttpRequest "" "" "" ∅ ""
  | line :: ls =>
      let '(m, rest) := next_word line in
      let '(u, rest) := next_word rest in
      let '(v, _) := next_word rest in
      let '(hs, bodyLines) := parse_headers ls ∅ in
      mkHttpRequest m u v hs (join_body bodyLines)
  end.

(** ** Mapping to SBI messages *)

Definition determineServiceType (uri : string) : SbiServiceType.SbiServiceType :=
  if contains "/namf-comm/" uri then SbiServiceType.NAMF_COMMUNICATION
  else if contains "/nausf-auth/" uri then SbiServiceType.NAUSF_UE_AUTHENTICATION
  else if contains "/nsmf-pdusession/" uri then SbiServiceType.NSMF_PDU_SESSION
  else if contains "/npcf-am-policy/" uri then SbiServiceType.NPCF_AM_POLICY_CONTROL
  else if contains "/nnrf-nfm/" uri then SbiServiceType.NRF_NFM
  else if contains "/nnrf-disc/" uri then SbiServiceType.NRF_NFD
  else SbiServiceType.NAMF_COMMUNICATION.

(** The tests of the URI in the order of the source; a block without a matching
    method falls through to the next. *)
Definition determineMessageType (uri method : string) : SbiMessageType.SbiMessageType :=
  let fallback :=
    if contains "/registrations" uri then SbiMessageType.UE_CONTEXT_CREATE_REQUEST
    else if contains "/deregistrations" uri then SbiMessageType.UE_CONTEXT_RELEASE_REQUEST
    else SbiMessageType.UE_CONTEXT_CREATE_REQUEST in
  let sessions :=
    if contains "/pdu-sessions" uri then
      if String.eqb method "POST" then SbiMessageType.UE_CONTEXT_CREATE_REQUEST
      else if String.eqb method "DELETE" then SbiMessageType.UE_CONTEXT_RELEASE_REQUEST
      else fallback
    else fallback in
  let authentication :=
    if contains "/authentications" uri then SbiMessageType.UE_AUTHENTICATION_REQUEST
    else sessions in
  if contains "/ue-contexts" uri then
    if String.eqb method "POST" then SbiMessageType.UE_CONTEXT_CREATE_REQUEST
    else if String.eqb method "PUT" then SbiMessageType.UE_CONTEXT_UPDATE_REQUEST
    else if String.eqb method "DELETE" then SbiMessageType.UE_CONTEXT_RELEASE_REQUEST
    else authentication
  else authentication.

Definition parseHttpMethod (method : string) : HttpMethod.HttpMethod :=
  if String.eqb method "GET" then HttpMethod.GET
  else if String.eqb method "POST" then HttpMethod.POST
  else if String.eqb method "PUT" then HttpMethod.PUT
  else if String.eqb method "DELETE" then HttpMethod.DELETE
  else if String.eqb method "PATCH" then HttpMethod.PATCH
  else HttpMethod.POST.

Definition getStateString (st : UeState.UeState) : string :=
  match st with
  | UeState.DEREGISTERED => "DEREGISTERED"
  | UeState.REGISTERED_IDLE => "REGISTERED_IDLE"
  | UeState.REGISTERED_CONNECTED => "REGISTERED_CONNECTED"
  end.

(** [static_cast<int>] of the enumerations. *)
Definition service_to_int (s : SbiServiceType.SbiServiceType) : Z :=
  match s with
  | SbiServiceType.NAMF_COMMUNICATION => 0 | SbiServiceType.NAMF_EVENT_EXPOSURE => 1
  | SbiServiceType.NAMF_LOCATION => 2 | SbiServiceType.NAMF_MT => 3
  | SbiServiceType.NSMF_PDU_SESSION => 4 | SbiServiceType.NUDM_SDM => 5
  | SbiServiceType.NUDM_UE_AUTHENTICATION => 6 | SbiServiceType.NAUSF_UE_AUTHENTICATION => 7
  | SbiServiceType.NPCF_AM_POLICY_CONTROL => 8 | SbiServiceType.NRF_NFM => 9
  | SbiServiceType.NRF_NFD => 10
  end.
Definition type_to_int (t : SbiMessageType.SbiMessageType) : Z := Z.of_nat (encode_nat t).
Definition method_to_int (m : HttpMethod.HttpMethod) : Z :=
  match m with
  | HttpMethod.GET => 0 | HttpMethod.POST => 1 | HttpMethod.PUT => 2 | HttpMethod.DELETE => 3
  | HttpMethod.PATCH => 4
  end.

(** ** Responses *)

Definition response_body (success : bool) (timestamp : string) (st : UeState.UeState)
    (m : SbiMessage) : string :=
  "{" +:+ endl +:+
  dq "  'status': '" +:+ (if success then "success" else "error") +:+ dq "'," +:+ endl +:+
  dq "  'timestamp': '" +:+ timestamp +:+ dq "'," +:+ endl +:+
  dq "  'amfState': '" +:+ getStateString st +:+ dq "'," +:+ endl +:+
  dq "  'processedMessage': {" +:+ endl +:+
  dq "    'service': '" +:+ to_string (service_to_int (serviceType_ m)) +:+ dq "'," +:+ endl +:+
  dq "    'type': '" +:+ to_string (type_to_int (messageType_ m)) +:+ dq "'," +:+ endl +:+
  dq "    'method': '" +:+ to_string (method_to_int (httpMethod_ m)) +:+ dq "'," +:+ endl +:+
  dq "    'uri': '" +:+ uri_ m +:+ dq "'" +:+ endl +:+
  "  }" +:+ endl +:+ "}".

Definition generateHttpResponse (success : bool) (timestamp : string) (st : UeState.UeState)
    (m : SbiMessage) : string :=
  let responseBody := response_body success timestamp st m in
  "HTTP/1.1 " +:+ (if success then "200 OK" else "400 Bad Request") +:+ crlf +:+
  "Content-Type: application/json" +:+ crlf +:+
  "Content-Length: " +:+ to_string (Z.of_nat (String.length responseBody)) +:+ crlf +:+
  "Connection: close" +:+ crlf +:+ crlf +:+ responseBody.

(** The SBI message built from a request; headers are added in key order. *)
Definition sbi_of_request (r : HttpRequest) : SbiMessage :=
  foldl (fun m h => addHeader h.1 h.2 m)
    (setBody (body r) (setUri (uri r)
       (SbiMessage_new (determineServiceType (uri r))
          (determineMessageType (uri r) (method r)) (parseHttpMethod (method r)))))
    (string_map_ordered (headers r)).

Definition processSbiMessage (e : Env) (timestamp : string) (r : HttpRequest) : cpp AmfSm string :=
  let m := sbi_of_request r in
  handleSbiMessage e m ;;
  st ← gets currentState_;
  mret (generateHttpResponse true timestamp st m).

(** What one [recv] of at most 4095 bytes leaves in the buffer, read back as a C
    string: the text up to the first NUL. *)
Definition recv_text (sent : string) : string :=
  (span (fun c => negb (char_eqb c "000")) (String.substring 0 4095 sent)).1.

(** A peer that closes without sending gets no answer. *)
Definition handleClient (e : Env) (timestamp sent : string) : cpp AmfSm (option string) :=
  if String.eqb sent "" then mret None
  else r ← processSbiMessage e timestamp (parseHttpRequest (recv_text sent)); mret (Some r).

Record Client : Set := mkClient { c_env : Env; c_time : string; c_text : string }.

Fixpoint serve (cs : list Client) : cpp AmfSm (list (option string)) :=
  match cs with
  | [] => mret []
  | c :: cs' =>
      r ← handleClient (c_env c) (c_time c) (c_text c);
      rs ← serve cs';
      mret (r :: rs)
  end.

(** ** Requests print and parse back *)

Definition render_header (h : string * string) : string := h.1 +:+ ": " +:+ h.2 +:+ crlf.
Definition render_request (m u v : string) (hs : list (string * string)) (b : string) : string :=
  m +:+ " " +:+ u +:+ " " +:+ v +:+ crlf +:+
  foldr (fun h acc => render_header h +:+ acc) "" hs +:+ crlf +:+ b.

Definition not_space (c : ascii) : bool := negb (is_space c).
Definition word_ok (w : string) : bool := sforall not_space w && negb (String.eqb w "").
Definition header_ok (h : string * string) : bool :=
  no_char ":" h.1 && no_char nl h.1 && no_char nl h.2
  && head_not (fun c => char_eqb c " " || char_eqb c tab) h.2
  && last_not (fun c => char_eqb c cr || char_eqb c nl) h.2.
Definition body_ok (b : string) : bool := last_not (fun c => char_eqb c nl) b.

Lemma join_lines b : body_ok b = true -> join_body (lines b) = b.
Proof.
  unfold body_ok, join_body. induction b as [|c b IH]; [done|].
  intros Hb. destruct b as [|d b'].
  - cbn in Hb |- *. apply negb_true_iff in Hb. by rewrite Hb.
  - set (t := String d b') in *.
    change (last_not (fun c => char_eqb c nl) (String c t)) with
      (last_not (fun c => char_eqb c nl) t) in Hb.
    specialize (IH Hb). assert (lines t <> []) as Hne.
    { unfold t. cbn. destruct (char_eqb d nl); [done|]. by destruct (lines b'). }
    cbn [lines]. destruct (char_eqb c nl) eqn:Ec.
    + apply Ascii.eqb_eq in Ec as ->. cbn [String.concat].
      destruct (lines t); [done|]. rewrite IH. done.
    + destruct (lines t) as [|l ls]; [done|]. rewrite <-IH. by destruct ls.
Qed.

Lemma word_no_nl w : word_ok w = true -> no_char nl w = true.
Proof.
  unfold word_ok. rewrite andb_true_iff. intros [Hw _]. eapply sforall_impl; [|exact Hw].
  intros c. destruct c as [[] [] [] [] [] [] [] []]; by vm_compute.
Qed.

(** A line that ends with a carriage return and a newline. *)
Lemma lines_crlf l rest :
  no_char nl l = true -> lines (l +:+ crlf +:+ rest) = (l +:+ String cr "") :: lines rest.
Proof.
  intros Hl. rewrite <-(lines_app (l +:+ String cr "")).
  - f_equal. rewrite sapp_assoc. done.
  - by rewrite no_char_app, Hl.
Qed.

Lemma header_line_parsed h :
  header_ok h = true ->
  split_at ":" (h.1 +:+ ": " +:+ h.2 +:+ String cr "") = Some (h.1, String " " (h.2 +:+ String cr ""))
  /\ trim_value (String " " (h.2 +:+ String cr "")) = h.2.
Proof.
  unfold header_ok. rewrite !andb_true_iff. intros [[[[Hk _] _] Hh] Hl]. split.
  - by rewrite <-(split_at_app ":" h.1).
  - unfold trim_value. cbn [lstrip]. destruct h as [k v]. cbn in *. destruct v as [|c v].
    + done.
    + rewrite lstrip_id by exact Hh. by apply rstrip_app.
Qed.

Lemma render_header_app h t : (render_header h +:+ t) = ((h.1 +:+ ": " +:+ h.2) +:+ crlf +:+ t).
Proof. unfold render_header. by rewrite !sapp_assoc. Qed.

Lemma parse_rendered_headers hs acc rest :
  Forall (fun h => header_ok h = true) hs ->
  parse_headers (lines (foldr (fun h acc => render_header h +:+ acc) "" hs +:+ crlf +:+ rest)) acc =
    (foldl (fun m h => <[h.1 := h.2]> m) acc hs, lines rest).
Proof.
  intros HF. revert acc. induction HF as [|h hs Hh HF IH]; intros acc; [done|].
  cbn [foldr foldl]. rewrite sapp_assoc, render_header_app.
  destruct (header_line_parsed h Hh) as [Hs Ht].
  unfold header_ok in Hh. rewrite !andb_true_iff in Hh. destruct Hh as [[[[Hk Hn1] Hn2] _] _].
  rewrite lines_crlf by (by rewrite !no_char_app, Hn1, Hn2).
  rewrite !sapp_assoc. cbn [parse_headers].
  assert (String.eqb (h.1 +:+ ": " +:+ h.2 +:+ String cr "") (String cr "") = false) as ->.
  { apply String.eqb_neq. intros E. by rewrite E in Hs. }
  assert (String.eqb (h.1 +:+ ": " +:+ h.2 +:+ String cr "") "" = false) as ->.
  { apply String.eqb_neq. intros E. by rewrite E in Hs. }
  cbn [orb]. rewrite Hs, Ht. apply IH.
Qed.

Lemma request_lines m u v hs b :
  word_ok m = true -> word_ok u = true -> word_ok v = true ->
  lines (render_request m u v hs b) =
    (m +:+ " " +:+ u +:+ " " +:+ v +:+ String cr "") ::
    lines (foldr (fun h acc => render_header h +:+ acc) "" hs +:+ crlf +:+ b).
Proof.
  intros Hm%word_no_nl Hu%word_no_nl Hv%word_no_nl.
  transitivity (((m +:+ " " +:+ u +:+ " " +:+ v) +:+ String cr "") ::
    lines (foldr (fun h acc => render_header h +:+ acc) "" hs +:+ crlf +:+ b)).
  - rewrite <-lines_crlf by (by rewrite !no_char_app, Hm, Hu, Hv).
    unfold render_request. by rewrite !sapp_assoc.
  - by rewrite !sapp_assoc.
Qed.

Lemma first_word w c rest :
  word_ok w = true -> is_space c = true -> next_word (w +:+ String c rest) = (w, String c rest).
Proof.
  unfold word_ok. rewrite andb_true_iff, negb_true_iff, String.eqb_neq. intros [Hw Hne] Hc.
  apply next_word_app; [done..|]. cbn. by rewrite Hc.
Qed.

(** Parsing inverts rendering: a request with three well-formed words on its
    first line, any headers without colons in their names or blanks around their
    values, and any body that does not end with a newline is parsed into exactly
    those parts (a repeated header keeps its last value). *)
Theorem http_request_roundtrip m u v hs b :
  word_ok m = true -> word_ok u = true -> word_ok v = true ->
  Forall (fun h => header_ok h = true) hs -> body_ok b = true ->
  parseHttpRequest (render_request m u v hs b) =
    mkHttpRequest m u v (foldl (fun acc h => <[h.1 := h.2]> acc) ∅ hs) b.
Proof.
  intros Hm Hu Hv HF Hb. unfold parseHttpRequest. rewrite request_lines by done.
  change (m +:+ " " +:+ ?x) with (m +:+ String " " x).
  change (u +:+ " " +:+ ?x) with (u +:+ String " " x).
  rewrite first_word, next_word_skip, first_word, next_word_skip, first_word by done.
  by rewrite parse_rendered_headers, join_lines.
Qed.

Lemma http_request_roundtrip_witness :
  word_ok "POST" = true /\
  parseHttpRequest (render_request "POST" "/namf-comm/v1/ue-contexts" "HTTP/1.1"
     [("Host", "localhost:8080"); ("Content-Length", "2")] "{}") =
  mkHttpRequest "POST" "/namf-comm/v1/ue-contexts" "HTTP/1.1"
    (<["Content-Length" := "2"]> (<["Host" := "localhost:8080"]> ∅)) "{}".
Proof.
  split; [reflexivity|].
  apply (http_request_roundtrip "POST" "/namf-comm/v1/ue-contexts" "HTTP/1.1"
     [("Host", "localhost:8080"); ("Content-Length", "2")] "{}"); repeat constructor.
Defined.

(** ** Serving requests *)

Lemma sbi_of_request_type r :
  serviceType_ (sbi_of_request r) = determineServiceType (uri r) /\
  messageType_ (sbi_of_request r) = determineMessageType (uri r) (method r).
Proof.
  unfold sbi_of_request. set (m0 := setBody _ _).
  assert (serviceType_ m0 = determineServiceType (uri r) /\
          messageType_ m0 = determineMessageType (uri r) (method r)) as H0 by done.
  clearbody m0. revert m0 H0.
  induction (string_map_ordered (headers r)) as [|h hs IH]; intros m0 H0; [done|]. cbn. by apply IH.
Qed.

(** The only message types an HTTP request can become. *)
Lemma determineMessageType_range u meth :
  determineMessageType u meth ∈
    [SbiMessageType.UE_CONTEXT_CREATE_REQUEST; SbiMessageType.UE_CONTEXT_UPDATE_REQUEST;
     SbiMessageType.UE_CONTEXT_RELEASE_REQUEST; SbiMessageType.UE_AUTHENTICATION_REQUEST].
Proof.
  unfold determineMessageType. repeat case_match; set_solver.
Qed.

(** The message of a client that sends anything. *)
Definition client_message (c : Client) : option SbiMessage :=
  if String.eqb (c_text c) "" then None
  else Some (sbi_of_request (parseHttpRequest (recv_text (c_text c)))).

Definition client_step (a : UeSpec) (c : Client) : UeSpec :=
  match client_message c with Some m => spec_sbi_step a m | None => a end.

Definition says_ok (response : string) : bool := String.prefix "HTTP/1.1 200 OK" response.

(** The answer every client that sends anything gets. *)
Definition answered_ok (c : Client) (r : option string) : Prop :=
  match client_message c with
  | Some _ => exists t, r = Some t /\ says_ok t = true
  | None => r = None
  end.

(** No PDU session was ever set up. *)
Definition no_session (a : UeSpec) : Prop := sp_sessions a = 0 /\ sp_has_session a = false.

Lemma no_session_step a r :
  no_session a -> no_session (spec_sbi_step a (sbi_of_request r)).
Proof.
  intros Ha. unfold spec_sbi_step, sbi_event.
  destruct (sbi_of_request_type r) as [-> ->].
  pose proof (determineMessageType_range (uri r) (method r)) as Ht.
  rewrite !elem_of_cons, elem_of_nil in Ht. revert Ht.
  generalize (determineMessageType (uri r) (method r)) as t. intros t Ht.
  destruct a as [st ? ? ? ? ? ? ?].
  destruct (determineServiceType (uri r)), Ht as [->|[->|[->|[->|[]]]]], st; done.
Qed.

Lemma no_session_client a c : no_session a -> no_session (client_step a c).
Proof.
  intros Ha. unfold client_step, client_message. destruct (String.eqb _ _); [done|].
  by apply no_session_step.
Qed.

Lemma handleClient_step c s a n :
  (Z.of_nat n < 2 ^ 30 - 2)%Z -> sim n s a ->
  (0 <= totalSbiMessages (statistics_ s) <= Z.of_nat n)%Z ->
  returns (handleClient (c_env c) (c_time c) (c_text c)) s (fun r s' => answered_ok c r /\
    sim (S n) s' (client_step a c) /\
    (0 <= totalSbiMessages (statistics_ s') <= Z.of_nat (S n))%Z).
Proof.
  intros Hb HS HT. unfold handleClient, answered_ok, client_step, client_message.
  destruct (String.eqb (c_text c) "").
  - apply returns_ret. split_and!; [done|by eapply sim_mono; [|exact HS]; lia|lia..].
  - apply returns_bind, returns_bind. eapply returns_mono; [by eapply message_step|].
    intros [] s' (HS' & HT' & _). apply returns_bind, returns_gets, returns_ret, returns_ret.
    split_and!; [by eexists|done|lia..].
Qed.

Lemma serve_sim cs s a n :
  (Z.of_nat (n + length cs) < 2 ^ 30 - 2)%Z -> sim n s a ->
  (0 <= totalSbiMessages (statistics_ s) <= Z.of_nat n)%Z -> no_session a ->
  returns (serve cs) s (fun rs s' => Forall2 answered_ok cs rs /\
    sim (n + length cs) s' (foldl client_step a cs) /\ no_session (foldl client_step a cs)).
Proof.
  revert s a n. induction cs as [|c cs IH]; intros s a n Hb HS HT HN; cbn [length] in Hb.
  - apply returns_ret. cbn. rewrite Nat.add_0_r. by split_and!; [constructor|..].
  - apply returns_bind. eapply returns_mono; [apply (handleClient_step c _ a n); [lia|done|done]|].
    intros r s' (Hr & HS' & HT'). apply returns_bind. eapply returns_mono.
    + eapply IH; [|exact HS'|done|by apply no_session_client]. lia.
    + intros rs s'' (HF & HS'' & HN''). apply returns_ret. cbn [length].
      rewrite Nat.add_succ_r. split_and!; [by constructor|done..].
Qed.

(** Whatever the clients send, the server answers each of those that send
    anything with 200 OK (even when the AMF refused the request with 403 or 409) and
    closes the others without an answer, the AMF ends in the state the abstract
    machine prescribes for the messages the requests map to, and no PDU session ever
    exists: the session requests the AMF understands cannot be expressed over HTTP. *)
Theorem http_server_behaviour j cfg ni m i cs :
  (Z.of_nat (length cs) < 2 ^ 30 - 2)%Z ->
  exists rs s, serve cs (attached_amf j cfg ni m i) = Ok rs s /\
    Forall2 answered_ok cs rs /\ refines s (foldl client_step spec_init cs) /\
    totalPduSessions (statistics_ s) = 0%Z /\
    (forall c, ue_of s = Some c -> pduSessions_ c = []).
Proof.
  intros Hb. destruct (serve_sim cs (attached_amf j cfg ni m i) spec_init 0)
    as (rs & s & E & HF & (_ & HR & _) & HN); [done|by split_and!|done|done|].
  exists rs, s. pose proof HR as (_ & HC & HU). destruct HN as [HN1 HN2].
  unfold counters_agree in HC. rewrite HN1 in HC.
  split_and!; [done..|lia|]. intros c Hc. rewrite Hc in HU. destruct HU as (_ & _ & HU).
  by rewrite HN2 in HU.
Qed.

Definition sample_client (m u : string) : Client :=
  mkClient sample_env "2024-01-01 00:00:00" (render_request m u "HTTP/1.1" [("Host", "amf")] "{}").

Definition sample_clients : list Client :=
  [sample_client "POST" "/namf-comm/v1/ue-contexts"; mkClient sample_env "" "";
   sample_client "POST" "/namf-comm/v1/ue-contexts"].

Lemma http_server_behaviour_witness :
  exists rs s, serve sample_clients sample_amf = Ok rs s /\
    Forall2 answered_ok sample_clients rs /\
    currentState_ s = UeState.REGISTERED_CONNECTED.
Proof.
  destruct (http_server_behaviour sample_junk getDefaultConfiguration
    (N1N2InterfaceManager_init sample_junk) NfManager_init
    (AmfNfInstance_init NfType.AMF NfStatus.REGISTERED 0 0 0) sample_clients ltac:(cbn; lia))
    as (rs & s & E & HF & (Hst & _) & _).
  exists rs, s. split; [exact E|]. split; [exact HF|].
  rewrite Hst. vm_compute. reflexivity.
Defined.

(** What the documented end points do: of the five the README lists, only
    the first behaves as described. Creating a PDU session and registering a
    network function are ignored without a reply, and both the authentication and
    the policy-control end points act as UE context creations, registering a
    deregistered UE. *)
Theorem documented_endpoints v hs b st :
  let post u := sbi_of_request (mkHttpRequest "POST" u v hs b) in
  let creates m := sbi_reply st m = Some (SbiMessageType.UE_CONTEXT_CREATE_RESPONSE,
                                          if registered st then 409%Z else 201%Z) /\
                   sbi_event st m = (if registered st then None
                                     else Some UeEvent.REGISTRATION_REQUEST) in
  let ignored m := sbi_reply st m = None /\ sbi_event st m = None in
  creates (post "/namf-comm/v1/ue-contexts") /\
  creates (post "/namf-comm/v1/ue-authentications") /\
  creates (post "/npcf-am-policy-control/v1/policies") /\
  ignored (post "/nsmf-pdusession/v1/pdu-sessions") /\
  ignored (post "/nnrf-nfm/v1/nf-instances").
Proof.
  cbn zeta. unfold sbi_reply, sbi_event.
  repeat match goal with
  | |- context [sbi_of_request ?r] => destruct (sbi_of_request_type r) as [-> ->]
  end.
  by vm_compute.
Qed.
