(* ===== verification/HttpServer.v ===== *)
(** * HttpServer: the simulated HTTP server of the AMF library

    Models src/5gc/amf/src/HttpServer.cpp: a server that draws random numbers and,
    with probability 0.5%, hands a made-up SBI message to its handler. The
    handler is the AMF; the draws are arguments. *)

From S2P Require Import Prelude Text SbiMessage UeContext N1N2Interface NfManagement AmfConfiguration AmfState AmfSm AmfSpec AmfProps.

Local Open Scope string_scope.

Record HttpServer : Set := mkHttpServer {
  address_ : string;
  port_ : Z;
  running_ : bool;
  serverThread_ : bool;        (* joinable *)
  messageHandler_ : bool;      (* set *)
  amf : AmfSm }.

Definition HttpServer_new (address : string) (p : Z) (a : AmfSm) : HttpServer :=
  mkHttpServer address p false false false a.

Definition set_server (r t h : bool) (s : HttpServer) : HttpServer :=
  mkHttpServer (address_ s) (port_ s) r t h (amf s).
Definition set_amf (a : AmfSm) (s : HttpServer) : HttpServer :=
  mkHttpServer (address_ s) (port_ s) (running_ s) (serverThread_ s) (messageHandler_ s) a.

Definition start : cpp HttpServer bool :=
  r ← gets running_;
  if (r : bool) then mret true else
  modify (fun s => set_server true (serverThread_ s) (messageHandler_ s) s) ;;
  joinable ← gets serverThread_;
  if (joinable : bool) then undefined "std::terminate" else
  modify (fun s => set_server (running_ s) true (messageHandler_ s) s) ;;
  mret true.

Definition stop : cpp HttpServer unit :=
  r ← gets running_;
  if negb r then mret tt else
  modify (fun s => set_server false (serverThread_ s) (messageHandler_ s) s) ;;
  modify (fun s => set_server (running_ s) false (messageHandler_ s) s).

(** The handler every caller installs forwards to the AMF. *)
Definition setMessageHandler : cpp HttpServer unit :=
  modify (fun s => set_server (running_ s) (serverThread_ s) true s).

Definition mock (svc : SbiServiceType.SbiServiceType) (t : SbiMessageType.SbiMessageType)
    (uri body : string) : SbiMessage :=
  addHeader "Content-Type" "application/json"
    (setBody body (setUri uri (SbiMessage_new svc t HttpMethod.POST))).

Definition createMockSbiMessage (draw : Z) : option SbiMessage :=
  match Z.rem draw 4 with
  | 0%Z => Some (mock SbiServiceType.NAMF_COMMUNICATION SbiMessageType.UE_CONTEXT_CREATE_REQUEST
      "/namf-comm/v1/ue-contexts"
      (dq "{'supi':'imsi-460001234567890','pei':'imeisv-1234567890123456'}"))
  | 1%Z => Some (mock SbiServiceType.NSMF_PDU_SESSION
      SbiMessageType.PDU_SESSION_CREATE_SM_CONTEXT_REQUEST "/nsmf-pdusession/v1/sm-contexts"
      (dq "{'pduSessionId':5,'dnn':'internet','sNssai':{'sst':1}}"))
  | 2%Z => Some (mock SbiServiceType.NAUSF_UE_AUTHENTICATION
      SbiMessageType.UE_AUTHENTICATION_REQUEST "/nausf-auth/v1/ue-authentications"
      (dq "{'supiOrSuci':'imsi-460001234567890','servingNetworkName':'5G:mnc001.mcc460.3gppnetwork.org'}"))
  | 3%Z => Some (mock SbiServiceType.NPCF_AM_POLICY_CONTROL
      SbiMessageType.AM_POLICY_CONTROL_CREATE_REQUEST "/npcf-am-policy-control/v1/policies"
      (dq "{'supi':'imsi-460001234567890','notificationUri':'http://amf.5gc.mnc001.mcc460.3gppnetwork.org:8080/namf-callback/v1/am-policy'}"))
  | _ => None
  end.

(** What one turn of the loop draws: whether to send, which message, and what the
    handler needs. *)
Record Turn : Set := mkTurn { t_send : Z; t_kind : Z; t_env : Env }.

(** A call on the AMF the handler forwards to. *)
Definition on_amf {A} (m : cpp AmfSm A) : cpp HttpServer A := fun s =>
  match m (amf s) with
  | Ok a t => Ok a (set_amf t s)
  | Throw e t => Throw e (set_amf t s)
  | Blocked t => Blocked (set_amf t s)
  | Undefined why => Undefined why
  end.

Fixpoint serverLoop (turns : list Turn) : cpp HttpServer unit :=
  match turns with
  | [] => mret tt
  | t :: turns' =>
      r ← gets running_;
      if negb r then mret tt else
      h ← gets messageHandler_;
      (if h && (Z.rem (t_send t) 1000 <? 5)%Z then
         match createMockSbiMessage (t_kind t) with
         | Some m => on_amf (handleSbiMessage (t_env t) m)
         | None => mret tt
         end
       else mret tt) ;;
      serverLoop turns'
  end.

(** The message of a turn, when it sends one. *)
Definition turn_message (t : Turn) : option SbiMessage :=
  if (Z.rem (t_send t) 1000 <? 5)%Z then createMockSbiMessage (t_kind t) else None.

Definition turn_messages (ts : list Turn) : list SbiMessage := omap turn_message ts.

(** Every mock message is a request the AMF answers, in every state. *)
Lemma mock_answered d m st :
  createMockSbiMessage d = Some m -> isRequest m = true /\ is_Some (sbi_reply st m).
Proof.
  unfold createMockSbiMessage. destruct (Z.rem d 4) as [|[[]|[]|]|]; try done;
    intros [= <-]; cbn; (split; [done|]); by eexists.
Qed.

Lemma mock_total d : (0 <= d)%Z -> is_Some (createMockSbiMessage d).
Proof.
  intros Hd. unfold createMockSbiMessage.
  assert (0 <= Z.rem d 4 < 4)%Z as Hr by (apply Z.rem_bound_pos; lia).
  assert (Z.rem d 4 = 0 \/ Z.rem d 4 = 1 \/ Z.rem d 4 = 2 \/ Z.rem d 4 = 3)%Z
    as [->|[->|[->| ->]]] by lia; by eexists.
Qed.

Lemma returns_on_amf {A} (m : cpp AmfSm A) s (Q : A -> HttpServer -> Prop) :
  returns m (amf s) (fun a t => Q a (set_amf t s)) -> returns (on_amf m) s Q.
Proof. intros (a & t & E & HQ). exists a, (set_amf t s). unfold on_amf. by rewrite E. Qed.

Lemma serverLoop_sim ts s a n :
  running_ s = true -> messageHandler_ s = true ->
  (Z.of_nat (n + length ts) < 2 ^ 30 - 2)%Z -> sim n (amf s) a ->
  (0 <= totalSbiMessages (statistics_ (amf s)) <= Z.of_nat n)%Z ->
  returns (serverLoop ts) s (fun _ s' =>
    refines (amf s') (foldl spec_sbi_step a (turn_messages ts)) /\
    length (pendingMessages_ (amf s')) =
      length (pendingMessages_ (amf s)) + length (turn_messages ts)).
Proof.
  revert s a n. induction ts as [|t ts IH]; intros s a n Hr Hh Hb HS HT; cbn [length] in Hb.
  - apply returns_ret. split; [apply HS|]. cbn. lia.
  - apply returns_bind, returns_gets. rewrite Hr. apply returns_bind, returns_gets. rewrite Hh.
    apply returns_bind. unfold turn_messages. cbn [omap list_omap]. unfold turn_message. cbn [andb].
    destruct (Z.rem (t_send t) 1000 <? 5)%Z;
      [|apply returns_ret, (IH _ _ n); try done; lia].
    destruct (createMockSbiMessage (t_kind t)) as [m|] eqn:Em;
      [|apply returns_ret, (IH _ _ n); try done; lia].
    apply returns_on_amf. eapply returns_mono; [apply (message_step _ _ a _ n); [lia|done..]|].
    intros [] s' (HS' & HT' & l & Hl & HP). eapply returns_mono.
    + apply (IH (set_amf s' s) (spec_sbi_step a m) (S n)); [done|done|lia|done|cbn; lia].
    + intros [] s'' [HR HL]. split; [done|]. rewrite HL. cbn. rewrite HP, length_app.
      destruct (mock_answered _ _ (sp_state a) Em) as [_ [tc Htc]].
      unfold replies in Hl. rewrite Htc in Hl. destruct Hl as (r & -> & _). cbn.
      unfold turn_messages. fold turn_message. lia.
Qed.

(** The simulated server keeps the AMF's contract: over any sequence of
    turns it hands the AMF exactly the messages drawn, the AMF follows its
    specification, and it queues exactly one reply for each message. *)
Theorem mock_server_answers addr p j cfg ni m i ts :
  (Z.of_nat (length ts) < 2 ^ 30 - 2)%Z ->
  exists s, (setMessageHandler ;; start ;; serverLoop ts)
              (HttpServer_new addr p (attached_amf j cfg ni m i)) = Ok tt s /\
    refines (amf s) (foldl spec_sbi_step spec_init (turn_messages ts)) /\
    length (pendingMessages_ (amf s)) = length (turn_messages ts).
Proof.
  intros Hb.
  destruct (serverLoop_sim ts (mkHttpServer addr p true true true (attached_amf j cfg ni m i))
    spec_init 0) as ([] & s & E & HR & HL); [done|done|done|by split_and!|done|].
  exists s. split; [exact E|]. split; [exact HR|exact HL].
Qed.

Lemma mock_server_answers_witness :
  exists s, (setMessageHandler ;; start ;; serverLoop
               [mkTurn 3 0 sample_env; mkTurn 900 2 sample_env; mkTurn 1001 5 sample_env])
              (HttpServer_new "127.0.0.1" 8080 sample_amf) = Ok tt s /\
    length (pendingMessages_ (amf s)) = 2.
Proof.
  destruct (mock_server_answers "127.0.0.1" 8080 sample_junk getDefaultConfiguration
    (N1N2InterfaceManager_init sample_junk) NfManager_init
    (AmfNfInstance_init NfType.AMF NfStatus.REGISTERED 0 0 0)
    [mkTurn 3 0 sample_env; mkTurn 900 2 sample_env; mkTurn 1001 5 sample_env] ltac:(cbn; lia))
    as (s & E & _ & HL).
  exists s. split; [exact E|exact HL].
Defined.
