(* ===== verification/Chunked.v ===== *)
(** * Chunked: HTTP/1.1 chunked transfer coding

    Models src/zsxq-cpp-ai/StdHTTPS/src/chunked_encoder.cpp and
    include/chunked_encoder.h: the encoder, the streaming encoder, the decoder's
    state machine and the [ChunkedUtils] functions. Text is a list of characters;
    [size_t] arithmetic that can wrap is written out. Loops whose progress is not
    structural take fuel; running out of it is [Undefined], and the theorems show
    when it cannot happen. *)

From Stdlib Require Import Ascii String.
From S2P Require Import Prelude.

Local Open Scope Z_scope.

Abbreviation bytes := (list ascii).
Definition CR : ascii := "013"%char.
Definition LF : ascii := "010"%char.
Definition CRLF : bytes := [CR; LF].
Definition txt (s : string) : bytes := String.list_ascii_of_string s.

Definition blen (l : bytes) : Z := Z.of_nat (length l).

(** ** Encoder *)

(** The upper-case hexadecimal digit of a value below 16, and back. *)
Definition hex_char (d : Z) : ascii :=
  ascii_of_nat (Z.to_nat (if d <? 10 then 48 + d else 55 + d)).

Definition hex_value (c : ascii) : option Z :=
  let n := Z.of_nat (nat_of_ascii c) in
  if (48 <=? n) && (n <=? 57) then Some (n - 48)
  else if (65 <=? n) && (n <=? 70) then Some (n - 65 + 10)
  else if (97 <=? n) && (n <=? 102) then Some (n - 97 + 10)
  else None.

(** Least significant digit first; a [size_t] has at most 16 digits. *)
Fixpoint hex_loop (fuel : nat) (v : Z) (acc : bytes) : bytes :=
  match fuel with
  | O => acc
  | S fuel' =>
      let acc' := hex_char (v `mod` 16) :: acc in
      if v <? 16 then acc' else hex_loop fuel' (v / 16) acc'
  end.

Definition to_hex (value : Z) : bytes := hex_loop 16 value [].

Definition render_trailer (h : bytes * bytes) : bytes := h.1 ++ txt ": " ++ h.2 ++ CRLF.

Definition encode_final_chunk (trailer_headers : list (bytes * bytes)) : bytes :=
  txt "0" ++ CRLF ++ concat (render_trailer <$> trailer_headers) ++ CRLF.

Definition encode_chunk (data : bytes) : bytes :=
  if blen data =? 0 then encode_final_chunk []
  else to_hex (blen data) ++ CRLF ++ data ++ CRLF.

(** The loop of [encode_body], on the part of the body not yet written. *)
Fixpoint encode_loop (fuel : nat) (rest : bytes) (chunk_size : nat) : option bytes :=
  match rest with
  | [] => Some []
  | _ :: _ =>
      match fuel with
      | O => None
      | S fuel' =>
          let current_chunk_size := Nat.min chunk_size (length rest) in
          let chunk_data := take current_chunk_size rest in
          out ← encode_loop fuel' (drop current_chunk_size rest) chunk_size;
          Some (encode_chunk chunk_data ++ out)
      end
  end.

Definition encode_body (fuel : nat) (body : bytes) (chunk_size : nat) : option bytes :=
  match body with
  | [] => Some (encode_final_chunk [])
  | _ :: _ => out ← encode_loop fuel body chunk_size; Some (out ++ encode_final_chunk [])
  end.

(** ** Decoder *)

Module ChunkedDecodeState.
Inductive ChunkedDecodeState : Set := CHUNK_SIZE | CHUNK_DATA | CHUNK_TRAILER | COMPLETE | ERROR.
#[global] Instance chunked_state_eq_dec : EqDecision ChunkedDecodeState.
Proof. solve_decision. Defined.
End ChunkedDecodeState.
Import ChunkedDecodeState.

Record ChunkData : Set := mkChunkData {
  data : bytes; chunk_size : Z; is_final : bool; chunk_trailers : list (bytes * bytes) }.

(** [chunk_log] is the sequence of calls made to the chunk callback, when one is set
    ([set_chunk_callback]); nothing else depends on the callback. *)
Record ChunkedDecoder : Set := mkChunkedDecoder {
  state_ : ChunkedDecodeState;
  buffer_ : bytes;
  decoded_data_ : bytes;
  error_message_ : string;
  current_chunk_size_ : Z;
  current_chunk_read_ : Z;
  trailer_headers_ : list (bytes * bytes);
  chunk_log : list ChunkData }.

Definition ChunkedDecoder_new : ChunkedDecoder :=
  mkChunkedDecoder CHUNK_SIZE [] [] "" 0 0 [] [].

Definition reset : cpp ChunkedDecoder unit :=
  modify (fun d => mkChunkedDecoder CHUNK_SIZE [] [] "" 0 0 [] (chunk_log d)).

Definition set_error (message : string) : cpp ChunkedDecoder unit :=
  modify (fun d => mkChunkedDecoder ERROR (buffer_ d) (decoded_data_ d) message
    (current_chunk_size_ d) (current_chunk_read_ d) (trailer_headers_ d) (chunk_log d)).

Definition set_buffer (b : bytes) (d : ChunkedDecoder) : ChunkedDecoder :=
  mkChunkedDecoder (state_ d) b (decoded_data_ d) (error_message_ d)
    (current_chunk_size_ d) (current_chunk_read_ d) (trailer_headers_ d) (chunk_log d).
Definition set_state (st : ChunkedDecodeState) (d : ChunkedDecoder) : ChunkedDecoder :=
  mkChunkedDecoder st (buffer_ d) (decoded_data_ d) (error_message_ d)
    (current_chunk_size_ d) (current_chunk_read_ d) (trailer_headers_ d) (chunk_log d).
Definition set_current (sz rd : Z) (d : ChunkedDecoder) : ChunkedDecoder :=
  mkChunkedDecoder (state_ d) (buffer_ d) (decoded_data_ d) (error_message_ d)
    sz rd (trailer_headers_ d) (chunk_log d).
Definition append_decoded (b : bytes) (d : ChunkedDecoder) : ChunkedDecoder :=
  mkChunkedDecoder (state_ d) (buffer_ d) (decoded_data_ d ++ b) (error_message_ d)
    (current_chunk_size_ d) (current_chunk_read_ d) (trailer_headers_ d) (chunk_log d).
Definition push_trailer (h : bytes * bytes) (d : ChunkedDecoder) : ChunkedDecoder :=
  mkChunkedDecoder (state_ d) (buffer_ d) (decoded_data_ d) (error_message_ d)
    (current_chunk_size_ d) (current_chunk_read_ d) (trailer_headers_ d ++ [h]) (chunk_log d).
Definition notify_chunk (c : ChunkData) : cpp ChunkedDecoder unit :=
  modify (fun d => mkChunkedDecoder (state_ d) (buffer_ d) (decoded_data_ d) (error_message_ d)
    (current_chunk_size_ d) (current_chunk_read_ d) (trailer_headers_ d) (chunk_log d ++ [c])).

(** The index of the first CRLF; the callers never pass an empty range. *)
Fixpoint find_line_end (l : bytes) : option nat :=
  match l with
  | c :: ((c' :: _) as l') =>
      if Ascii.eqb c CR && Ascii.eqb c' LF then Some 0%nat else S <$> find_line_end l'
  | _ => None
  end.

(** Each step wraps at 2^64; [None] is the exception thrown. *)
Fixpoint parse_hex_from (result : Z) (l : bytes) : option Z :=
  match l with
  | [] => Some result
  | c :: l' => d ← hex_value c; parse_hex_from (wrap64 (wrap64 (result * 16) + d)) l'
  end.
Definition parse_hex_size (hex_str : bytes) : option Z :=
  match hex_str with [] => None | _ :: _ => parse_hex_from 0 hex_str end.

Definition blank (c : ascii) : bool := Ascii.eqb c " " || Ascii.eqb c "009".

Fixpoint lstrip (l : bytes) : bytes :=
  match l with [] => [] | c :: l' => if blank c then lstrip l' else l end.
Definition trim (l : bytes) : bytes := reverse (lstrip (reverse (lstrip l))).

(** The part before the first [c], or everything. *)
Fixpoint before (c : ascii) (l : bytes) : bytes :=
  match l with [] => [] | x :: l' => if Ascii.eqb x c then [] else x :: before c l' end.
(** The part after the first [c], if there is one. *)
Fixpoint after (c : ascii) (l : bytes) : option bytes :=
  match l with [] => None | x :: l' => if Ascii.eqb x c then Some l' else after c l' end.

(** A trailing carriage return is removed. *)
Definition chomp (l : bytes) : bytes :=
  match last l with Some c => if Ascii.eqb c CR then removelast l else l | None => l end.

(** The three state handlers return (result, consumed). *)
Definition decode_chunk_size_state (l : bytes) : cpp ChunkedDecoder (Z * nat) :=
  match find_line_end l with
  | None =>
      modify (fun d => set_buffer (buffer_ d ++ l) d) ;;
      b ← gets buffer_;
      if 1024 <? blen b then set_error "chunk大小行过长" ;; mret (-1, length l)
      else mret (0, length l)
  | Some line_end =>
      b ← gets buffer_;
      let line := chomp (b ++ take line_end l) in
      modify (set_buffer []) ;;
      let size_str := trim (before ";" line) in
      match parse_hex_size size_str with
      | None =>
          set_error (String.append "chunk大小格式错误: " (String.string_of_list_ascii size_str)) ;;
          mret (-1%Z, (line_end + 2)%nat)
      | Some n =>
          modify (set_current n 0) ;;
          modify (set_state (if n =? 0 then CHUNK_TRAILER else CHUNK_DATA)) ;;
          mret (1%Z, (line_end + 2)%nat)
      end
  end.

Definition decode_chunk_data_state (l : bytes) : cpp ChunkedDecoder (Z * nat) :=
  d ← get;
  let bytes_needed := wrap64 (current_chunk_size_ d - current_chunk_read_ d) in
  let bytes_to_read := Z.to_nat (Z.min (blen l) bytes_needed) in
  let chunk_data := take bytes_to_read l in
  modify (append_decoded chunk_data) ;;
  modify (set_current (current_chunk_size_ d)
            (wrap64 (current_chunk_read_ d + Z.of_nat bytes_to_read))) ;;
  d ← get;
  if current_chunk_size_ d <=? current_chunk_read_ d then
    notify_chunk (mkChunkData chunk_data (current_chunk_size_ d) false []) ;;
    match drop bytes_to_read l with
    | [] => modify (set_state CHUNK_SIZE) ;; mret (if Nat.ltb 0 bytes_to_read then 1 else 0, bytes_to_read)
    | [c] =>
        if Ascii.eqb c CR then
          modify (set_buffer [CR]) ;; modify (set_state CHUNK_SIZE) ;;
          mret (1%Z, (bytes_to_read + 1)%nat)
        else set_error "chunk数据后缺少CRLF" ;; mret (-1, bytes_to_read)
    | c :: c' :: _ =>
        if Ascii.eqb c CR && Ascii.eqb c' LF then
          modify (set_state CHUNK_SIZE) ;; mret (1%Z, (bytes_to_read + 2)%nat)
        else set_error "chunk数据后缺少CRLF" ;; mret (-1, bytes_to_read)
    end
  else mret (if Nat.ltb 0 bytes_to_read then 1 else 0, bytes_to_read).

Definition parse_trailer_line (line : bytes) : cpp ChunkedDecoder unit :=
  match after ":" line with
  | None => mret tt
  | Some value => modify (push_trailer (trim (before ":" line), trim value))
  end.

Definition decode_chunk_trailer_state (l : bytes) : cpp ChunkedDecoder (Z * nat) :=
  match find_line_end l with
  | None =>
      modify (fun d => set_buffer (buffer_ d ++ l) d) ;;
      b ← gets buffer_;
      if 8192 <? blen b then set_error "trailer过大" ;; mret (-1, length l)
      else mret (0, length l)
  | Some line_end =>
      b ← gets buffer_;
      let line := chomp (b ++ take line_end l) in
      modify (set_buffer []) ;;
      (match line with
       | [] =>
           modify (set_state COMPLETE) ;;
           ts ← gets trailer_headers_;
           notify_chunk (mkChunkData [] 0 true ts)
       | _ :: _ => parse_trailer_line line
       end) ;;
      mret (1%Z, (line_end + 2)%nat)
  end.

(** The loop of [decode] on the unread input, with the count read so far. *)
Fixpoint decode_loop (fuel : nat) (l : bytes) (total_consumed : Z) : cpp ChunkedDecoder Z :=
  st ← gets state_;
  match l with
  | [] => mret (to_int total_consumed)
  | _ :: _ =>
      if bool_decide (st = COMPLETE) || bool_decide (st = ERROR) then mret (to_int total_consumed)
      else match fuel with
      | O => undefined "out of fuel"
      | S fuel' =>
          rc ← (match st with
                | CHUNK_SIZE => decode_chunk_size_state l
                | CHUNK_DATA => decode_chunk_data_state l
                | _ => decode_chunk_trailer_state l
                end);
          if rc.1 <? 0 then mret (-1)
          else
            let total := total_consumed + Z.of_nat rc.2 in
            if Nat.eqb rc.2 0 && (rc.1 =? 0) then mret (to_int total)
            else decode_loop fuel' (drop rc.2 l) total
      end
  end.

Definition decode (l : bytes) : cpp ChunkedDecoder Z :=
  st ← gets state_;
  if bool_decide (st = ERROR) || bool_decide (st = COMPLETE) then mret 0
  else decode_loop (length l) l 0.

Definition is_complete (d : ChunkedDecoder) : bool := bool_decide (state_ d = COMPLETE).
Definition has_error (d : ChunkedDecoder) : bool := bool_decide (state_ d = ERROR).

(** ** [ChunkedUtils] *)

(** [None]: not decodable. *)
Definition utils_decode (chunked_data : bytes) : option (bytes * list (bytes * bytes)) :=
  match decode chunked_data ChunkedDecoder_new with
  | Ok result d =>
      if (result <? 0) || has_error d then None
      else if negb (is_complete d) then None
      else Some (decoded_data_ d, trailer_headers_ d)
  | _ => None
  end.

Definition validate (chunked_data : bytes) : bool :=
  match utils_decode chunked_data with Some _ => true | None => false end.

(** [size_t] arithmetic; [None] is a division by zero. *)
Definition calculate_encoded_size (original_size chunk_size : Z) : option Z :=
  if original_size =? 0 then Some 5
  else if chunk_size =? 0 then None
  else
    let num_chunks := wrap64 (wrap64 (original_size + chunk_size) - 1) / chunk_size in
    let total_overhead := wrap64 (wrap64 (num_chunks * 10) + 5) in
    Some (wrap64 (original_size + total_overhead)).

(** ** Streaming encoder: [output] collects what the callback received *)

Record StreamChunkedEncoder : Set := mkStream {
  chunk_size_ : nat; stream_buffer : bytes; finished_ : bool; output : bytes }.

Definition StreamChunkedEncoder_new (chunk_size : nat) : StreamChunkedEncoder :=
  mkStream chunk_size [] false [].

Definition flush_buffer (s : StreamChunkedEncoder) : StreamChunkedEncoder :=
  match stream_buffer s with
  | [] => s
  | b => mkStream (chunk_size_ s) [] (finished_ s) (output s ++ encode_chunk b)
  end.

Fixpoint write_loop (fuel : nat) : cpp StreamChunkedEncoder unit :=
  s ← get;
  if Nat.leb (chunk_size_ s) (length (stream_buffer s)) then
    match fuel with
    | O => undefined "out of fuel"
    | S fuel' =>
        modify (fun s => mkStream (chunk_size_ s) (drop (chunk_size_ s) (stream_buffer s))
          (finished_ s) (output s ++ encode_chunk (take (chunk_size_ s) (stream_buffer s)))) ;;
        write_loop fuel'
    end
  else mret tt.

Definition write (fuel : nat) (l : bytes) : cpp StreamChunkedEncoder bool :=
  fin ← gets finished_;
  if (fin : bool) then mret false else
  modify (fun s => mkStream (chunk_size_ s) (stream_buffer s ++ l) (finished_ s) (output s)) ;;
  write_loop fuel ;;
  mret true.

Definition finish (trailer_headers : list (bytes * bytes)) : cpp StreamChunkedEncoder bool :=
  fin ← gets finished_;
  if (fin : bool) then mret false else
  modify flush_buffer ;;
  modify (fun s => mkStream (chunk_size_ s) (stream_buffer s) true
                     (output s ++ encode_final_chunk trailer_headers)) ;;
  mret true.

(** The destructor ends an unfinished message. *)
Definition StreamChunkedEncoder_delete : cpp StreamChunkedEncoder unit :=
  fin ← gets finished_;
  if (fin : bool) then mret tt else finish [] ;; mret tt.

Definition set_chunk_size (n : nat) : cpp StreamChunkedEncoder unit :=
  modify (fun s =>
    if negb (finished_ s) && Nat.ltb 0 n
    then let s' := flush_buffer s in
         mkStream n (stream_buffer s') (finished_ s') (output s')
    else s).
