(* ===== verification/ChunkedProps.v ===== *)
(** * ChunkedProps: what the chunked coding guarantees

    Round trip of encoder and decoder, the streaming encoder against the one-shot
    decoder, termination and size bounds, and the inputs on which the decoder and
    the encoder fail. *)

From Stdlib Require Import Ascii String.
From S2P Require Import Prelude Chunked.
Import ChunkedDecodeState.

Local Open Scope Z_scope.

(** ** Hexadecimal sizes *)

Definition is_hex (c : ascii) : bool := bool_decide (is_Some (hex_value c)).

Lemma below_16 (P : Z -> Prop) :
  Forall P [0;1;2;3;4;5;6;7;8;9;10;11;12;13;14;15] -> forall d, 0 <= d < 16 -> P d.
Proof.
  intros HF d Hd. rewrite Forall_forall in HF. apply HF.
  assert (d = 0 \/ d = 1 \/ d = 2 \/ d = 3 \/ d = 4 \/ d = 5 \/ d = 6 \/ d = 7 \/ d = 8 \/
          d = 9 \/ d = 10 \/ d = 11 \/ d = 12 \/ d = 13 \/ d = 14 \/ d = 15) by lia.
  rewrite !elem_of_cons. tauto.
Qed.

Lemma hex_value_char d : 0 <= d < 16 -> hex_value (hex_char d) = Some d.
Proof. revert d. apply below_16. repeat constructor. Qed.

Lemma hex_not_special c :
  is_hex c = true -> Ascii.eqb c CR = false /\ Ascii.eqb c ";" = false /\ blank c = false.
Proof. destruct c as [[] [] [] [] [] [] [] []]; by vm_compute. Qed.

Lemma hex_loop_parse fuel v acc :
  0 <= v < 2 ^ 64 -> v < 16 ^ Z.of_nat fuel ->
  parse_hex_from 0 (hex_loop fuel v acc) = parse_hex_from v acc.
Proof.
  revert v acc. induction fuel as [|fuel IH]; intros v acc Hv Hf; [by replace v with 0 by lia|].
  cbn [hex_loop]. pose proof (Z.mod_pos_bound v 16 ltac:(lia)) as Hm.
  assert (parse_hex_from (v / 16) (hex_char (v `mod` 16) :: acc) = parse_hex_from v acc) as Hstep.
  { cbn [parse_hex_from]. rewrite hex_value_char by done. cbn.
    pose proof (Z.div_mod v 16 ltac:(lia)) as Hd.
    rewrite (wrap64_small (v / 16 * 16)) by lia. rewrite wrap64_small by lia. f_equal. lia. }
  destruct (Z.ltb_spec v 16).
  - rewrite <-Hstep. by rewrite Z.div_small by lia.
  - rewrite IH; [exact Hstep| |].
    + split; [apply Z.div_pos; lia|]. apply Z.div_lt_upper_bound; lia.
    + rewrite Nat2Z.inj_succ, Z.pow_succ_r in Hf by lia. apply Z.div_lt_upper_bound; lia.
Qed.

Lemma hex_loop_hex fuel v acc :
  0 <= v -> Forall (fun c => is_hex c = true) acc ->
  Forall (fun c => is_hex c = true) (hex_loop fuel v acc).
Proof.
  revert v acc. induction fuel as [|fuel IH]; intros v acc Hv HF; [done|]. cbn [hex_loop].
  assert (is_hex (hex_char (v `mod` 16)) = true) as Hc.
  { unfold is_hex. rewrite hex_value_char; [done|]. by apply Z.mod_pos_bound. }
  case_match; [by constructor|]. apply IH; [apply Z.div_pos; lia|by constructor].
Qed.

Lemma hex_loop_length fuel v acc : (length acc <= length (hex_loop fuel v acc))%nat.
Proof.
  revert v acc. induction fuel as [|fuel IH]; intros v acc; [done|]. cbn [hex_loop].
  case_match; [cbn; lia|]. etrans; [|apply IH]. cbn. lia.
Qed.

Lemma to_hex_hex n : 0 <= n -> Forall (fun c => is_hex c = true) (to_hex n).
Proof. intros Hn. by apply hex_loop_hex. Qed.

Lemma hex_loop_grows fuel v acc : (length acc < length (hex_loop (S fuel) v acc))%nat.
Proof.
  cbn [hex_loop]. case_match; [cbn; lia|]. eapply Nat.lt_le_trans; [|apply hex_loop_length].
  cbn. lia.
Qed.

Lemma to_hex_nonempty n : to_hex n <> [].
Proof.
  intros E. pose proof (hex_loop_grows 15 n []) as HL. unfold to_hex in E. rewrite E in HL.
  cbn in HL. lia.
Qed.

Lemma parse_to_hex n : 0 <= n < 2 ^ 64 -> parse_hex_size (to_hex n) = Some n.
Proof.
  intros Hn. unfold parse_hex_size. pose proof (to_hex_nonempty n) as Hne.
  destruct (to_hex n) as [|c l] eqn:E; [done|]. rewrite <-E. unfold to_hex.
  rewrite hex_loop_parse by (cbn; lia). done.
Qed.

(** ** Lines *)

Definition no_cr (l : bytes) : Prop := Forall (fun c => Ascii.eqb c CR = false) l.

Lemma find_line_end_app l rest : no_cr l -> find_line_end (l ++ CRLF ++ rest) = Some (length l).
Proof.
  intros HF. induction HF as [|c l Hc HF IH]; [done|].
  assert (exists x xs, l ++ CRLF ++ rest = x :: xs) as (x & xs & E)
    by (destruct l; cbn; by do 2 eexists).
  cbn [app]. rewrite E in IH |- *. cbn [find_line_end]. rewrite Hc. cbn [andb].
  cbn [find_line_end] in IH. by rewrite IH.
Qed.

Lemma chomp_no_cr l : no_cr l -> chomp l = l.
Proof.
  intros HF. unfold chomp. destruct (last l) as [c|] eqn:E; [|done].
  apply last_Some in E as [l' ->]. unfold no_cr in HF.
  rewrite Forall_app, Forall_singleton in HF. by rewrite (proj2 HF).
Qed.

Lemma before_none c l : Forall (fun x => Ascii.eqb x c = false) l -> before c l = l.
Proof. induction 1 as [|x l Hx HF IH]; [done|]. cbn. by rewrite Hx, IH. Qed.

(** Neither the first nor the last character is a blank. *)
Definition tight (l : bytes) : Prop :=
  (forall c l', l = c :: l' -> blank c = false) /\
  (forall c l', l = l' ++ [c] -> blank c = false).

Lemma lstrip_head l : (forall c l', l = c :: l' -> blank c = false) -> lstrip l = l.
Proof. destruct l as [|c l]; [done|]. intros H. cbn. by rewrite (H c l). Qed.

Lemma trim_tight l : tight l -> trim l = l.
Proof.
  intros [H1 H2]. unfold trim. rewrite (lstrip_head l) by done.
  rewrite lstrip_head; [apply reverse_involutive|]. intros c l' E.
  apply (H2 c (reverse l')). apply (f_equal reverse) in E.
  by rewrite reverse_involutive, reverse_cons in E.
Qed.

Lemma tight_forall l : Forall (fun c => blank c = false) l -> tight l.
Proof.
  intros HF. split; intros c l' ->.
  - by inv HF.
  - rewrite Forall_app, Forall_singleton in HF. apply HF.
Qed.

Lemma drop_line l rest : drop (length l + 2) (l ++ CRLF ++ rest) = rest.
Proof. rewrite drop_app_ge by lia. by replace (length l + 2 - length l)%nat with 2%nat by lia. Qed.

Lemma size_line_clean n :
  0 <= n -> no_cr (to_hex n) /\ trim (before ";" (chomp (to_hex n))) = to_hex n.
Proof.
  intros Hn. pose proof (to_hex_hex n Hn) as HF.
  assert (no_cr (to_hex n)) as Hcr
    by (eapply Forall_impl; [exact HF|]; cbn; intros c Hc; apply (hex_not_special c Hc)).
  split; [done|]. rewrite chomp_no_cr by done. rewrite before_none.
  - apply trim_tight, tight_forall. eapply Forall_impl; [exact HF|].
    cbn. intros c Hc. apply (hex_not_special c Hc).
  - eapply Forall_impl; [exact HF|]. cbn. intros c Hc. apply (hex_not_special c Hc).
Qed.

(** ** Decoding what the encoder writes *)

Section decode_steps.
Context (dec : bytes) (err : string) (cs cr : Z) (tr : list (bytes * bytes)) (lg : list ChunkData).

Lemma decode_size_line n rest :
  0 <= n < 2 ^ 64 ->
  decode_chunk_size_state (to_hex n ++ CRLF ++ rest)
    (mkChunkedDecoder CHUNK_SIZE [] dec err cs cr tr lg) =
  Ok (1, (length (to_hex n) + 2)%nat)
    (mkChunkedDecoder (if n =? 0 then CHUNK_TRAILER else CHUNK_DATA) [] dec err n 0 tr lg).
Proof.
  intros Hn. destruct (size_line_clean n ltac:(lia)) as [Hcr Ht].
  unfold decode_chunk_size_state. rewrite find_line_end_app by done.
  rewrite take_app_length. unfold mbind, cpp_bind, gets, modify. cbv beta iota.
  cbn [buffer_]. rewrite app_nil_l, Ht, parse_to_hex by done. done.
Qed.

Lemma decode_data l rest n :
  n = blen l -> 0 < n < 2 ^ 64 ->
  decode_chunk_data_state (l ++ CRLF ++ rest)
    (mkChunkedDecoder CHUNK_DATA [] dec err n 0 tr lg) =
  Ok (1, (length l + 2)%nat)
    (mkChunkedDecoder CHUNK_SIZE [] (dec ++ l) err n n tr (lg ++ [mkChunkData l n false []])).
Proof.
  intros -> Hn. unfold decode_chunk_data_state, mbind, cpp_bind, get, modify, notify_chunk.
  cbv beta iota. cbn [current_chunk_size_ current_chunk_read_ set_current append_decoded].
  rewrite Z.sub_0_r, (wrap64_small (blen l)) by lia.
  assert (Z.to_nat (Z.min (blen (l ++ CRLF ++ rest)) (blen l)) = length l) as ->.
  { unfold blen. rewrite length_app. lia. }
  rewrite take_app_length, drop_app_length, Z.add_0_l. fold (blen l).
  rewrite wrap64_small by lia. rewrite Z.leb_refl. done.
Qed.
End decode_steps.

Definition handler (st : ChunkedDecodeState) (l : bytes) : cpp ChunkedDecoder (Z * nat) :=
  match st with
  | CHUNK_SIZE => decode_chunk_size_state l
  | CHUNK_DATA => decode_chunk_data_state l
  | _ => decode_chunk_trailer_state l
  end.

Lemma decode_loop_step fuel l t d k d' :
  l <> [] -> state_ d <> COMPLETE -> state_ d <> ERROR ->
  handler (state_ d) l d = Ok (1, k) d' ->
  decode_loop (S fuel) l t d = decode_loop fuel (drop k l) (t + Z.of_nat k) d'.
Proof.
  intros Hl H1 H2 E. destruct l as [|c l]; [done|]. cbn [decode_loop].
  unfold mbind at 1, cpp_bind at 1, gets at 1. cbv beta iota.
  rewrite !bool_decide_false by done. cbn [orb]. fold (handler (state_ d) (c :: l)).
  rewrite (bind_Ok _ _ _ _ _ E). cbn [fst snd]. by rewrite andb_false_r.
Qed.

Lemma encode_chunk_nonempty l :
  l <> [] -> encode_chunk l = to_hex (blen l) ++ CRLF ++ l ++ CRLF.
Proof.
  intros Hl. unfold encode_chunk. destruct (Z.eqb_spec (blen l) 0) as [E|]; [|done].
  destruct l; [done|]. unfold blen in E. cbn in E. lia.
Qed.

Lemma loop_chunk l rest t fuel dec err cs cr tr lg :
  l <> [] -> blen l < 2 ^ 64 -> (length (encode_chunk l ++ rest) <= fuel)%nat ->
  exists fuel', (length rest <= fuel')%nat /\
    decode_loop fuel (encode_chunk l ++ rest) t
      (mkChunkedDecoder CHUNK_SIZE [] dec err cs cr tr lg) =
    decode_loop fuel' rest (t + blen (encode_chunk l))
      (mkChunkedDecoder CHUNK_SIZE [] (dec ++ l) err (blen l) (blen l) tr
         (lg ++ [mkChunkData l (blen l) false []])).
Proof.
  intros Hl Hs Hf. rewrite encode_chunk_nonempty in Hf |- * by done.
  assert (0 < blen l) as Hpos by (destruct l; [done|]; unfold blen; cbn; lia).
  rewrite !length_app in Hf. cbn in Hf. destruct l as [|x l']; [done|].
  set (l := x :: l') in *.
  do 2 (destruct fuel as [|fuel]; [cbn in Hf; lia|]). exists fuel.
  split; [lia|]. rewrite <-!app_assoc.
  erewrite decode_loop_step; [|intros E; apply app_nil in E as [E _]; by apply to_hex_nonempty in E
    |done|done|cbn [handler state_]; by apply decode_size_line].
  rewrite drop_line. replace (blen l =? 0) with false by lia.
  erewrite decode_loop_step; [|done|done|done|cbn [handler state_]; by apply decode_data].
  rewrite drop_line. f_equal. unfold blen. rewrite !length_app. cbn. lia.
Qed.

Lemma loop_chunks chunks rest t fuel dec err cs cr tr lg :
  Forall (fun l => l <> [] /\ blen l < 2 ^ 64) chunks ->
  (length (concat (encode_chunk <$> chunks) ++ rest) <= fuel)%nat ->
  exists fuel' cs' cr', (length rest <= fuel')%nat /\
    decode_loop fuel (concat (encode_chunk <$> chunks) ++ rest) t
      (mkChunkedDecoder CHUNK_SIZE [] dec err cs cr tr lg) =
    decode_loop fuel' rest (t + blen (concat (encode_chunk <$> chunks)))
      (mkChunkedDecoder CHUNK_SIZE [] (dec ++ concat chunks) err cs' cr' tr
         (lg ++ ((fun l => mkChunkData l (blen l) false []) <$> chunks))).
Proof.
  intros HF. revert t fuel dec cs cr lg. induction HF as [|l chunks [Hl Hs] HF IH];
    intros t fuel dec cs cr lg Hf.
  - exists fuel, cs, cr. split; [done|]. cbn. by rewrite Z.add_0_r, !app_nil_r.
  - cbn [fmap list_fmap concat] in Hf |- *. rewrite <-app_assoc in Hf |- *.
    destruct (loop_chunk l (concat (encode_chunk <$> chunks) ++ rest) t fuel dec err cs cr tr lg)
      as (f1 & Hf1 & E1); [done..|].
    destruct (IH (t + blen (encode_chunk l)) f1 (dec ++ l) (blen l) (blen l)
                (lg ++ [mkChunkData l (blen l) false []]) Hf1) as (f2 & cs' & cr' & Hf2 & E2).
    exists f2, cs', cr'. split; [done|]. rewrite E1, E2. rewrite <-!app_assoc. f_equal.
    unfold blen. rewrite length_app. lia.
Qed.

(** Trailers that survive: no carriage return, no colon in the name, no blanks at
    either end. *)
Definition trailer_ok (h : bytes * bytes) : Prop :=
  no_cr h.1 /\ no_cr h.2 /\ Forall (fun c => Ascii.eqb c ":" = false) h.1 /\
  tight h.1 /\ tight h.2.

Lemma before_app c l rest :
  Forall (fun x => Ascii.eqb x c = false) l -> before c (l ++ c :: rest) = l.
Proof.
  induction 1 as [|x l Hx HF IH]; cbn; [by rewrite Ascii.eqb_refl|]. by rewrite Hx, IH.
Qed.
Lemma after_app c l rest :
  Forall (fun x => Ascii.eqb x c = false) l -> after c (l ++ c :: rest) = Some rest.
Proof.
  induction 1 as [|x l Hx HF IH]; cbn; [by rewrite Ascii.eqb_refl|]. by rewrite Hx, IH.
Qed.

Lemma trim_space l : tight l -> trim (" "%char :: l) = l.
Proof. intros Ht. change (trim (" "%char :: l)) with (trim l). by apply trim_tight. Qed.

Lemma render_trailer_app h rest :
  render_trailer h ++ rest = (h.1 ++ txt ": " ++ h.2) ++ CRLF ++ rest.
Proof. unfold render_trailer. by rewrite <-!app_assoc. Qed.

Lemma decode_trailer_line h rest dec err cs cr tr lg :
  trailer_ok h ->
  decode_chunk_trailer_state (render_trailer h ++ rest)
    (mkChunkedDecoder CHUNK_TRAILER [] dec err cs cr tr lg) =
  Ok (1, (length (h.1 ++ txt ": " ++ h.2) + 2)%nat)
    (mkChunkedDecoder CHUNK_TRAILER [] dec err cs cr (tr ++ [h]) lg).
Proof.
  intros (H1 & H2 & Hc & Ht1 & Ht2). destruct h as [k v]. cbn [fst snd] in *.
  unfold render_trailer. cbn [fst snd].
  set (line := k ++ txt ": " ++ v).
  assert (no_cr line) as Hl.
  { unfold no_cr, line. rewrite !Forall_app. split_and!; [done|by repeat constructor|done]. }
  replace ((k ++ txt ": " ++ v ++ CRLF) ++ rest) with (line ++ CRLF ++ rest)
    by (unfold line; by rewrite <-!app_assoc).
  unfold decode_chunk_trailer_state. rewrite find_line_end_app by done.
  rewrite take_app_length. unfold mbind, cpp_bind, gets, modify. cbv beta iota. cbn [buffer_].
  rewrite app_nil_l, chomp_no_cr by done.
  assert (parse_trailer_line line = modify (push_trailer (k, v))) as E.
  { unfold parse_trailer_line, line. change (txt ": " ++ v) with (":" :: " " :: v)%char.
    rewrite after_app, before_app by done. by rewrite trim_space, trim_tight. }
  destruct line as [|x line'] eqn:El; [unfold line in El; by destruct k|].
  rewrite E. done.
Qed.

Lemma loop_trailers ts t fuel dec err cs cr tr lg :
  Forall trailer_ok ts ->
  (length (concat (render_trailer <$> ts) ++ CRLF) <= fuel)%nat ->
  decode_loop fuel (concat (render_trailer <$> ts) ++ CRLF) t
    (mkChunkedDecoder CHUNK_TRAILER [] dec err cs cr tr lg) =
  Ok (to_int (t + blen (concat (render_trailer <$> ts) ++ CRLF)))
    (mkChunkedDecoder COMPLETE [] dec err cs cr (tr ++ ts)
       (lg ++ [mkChunkData [] 0 true (tr ++ ts)])).
Proof.
  intros HF. revert t fuel tr. induction HF as [|h ts Hh HF IH]; intros t fuel tr Hf.
  - destruct fuel as [|fuel]; [cbn in Hf; lia|]. cbn [fmap list_fmap concat app].
    erewrite decode_loop_step; [|done|done|done|cbn; reflexivity].
    rewrite app_nil_r. by destruct fuel.
  - cbn [fmap list_fmap concat] in Hf |- *. rewrite <-app_assoc in Hf |- *.
    rewrite length_app in Hf. unfold render_trailer in Hf at 1.
    rewrite !length_app in Hf. cbn in Hf. destruct fuel as [|fuel]; [lia|].
    erewrite decode_loop_step; [| |done|done|cbn [handler state_]; by apply decode_trailer_line].
    2: { unfold render_trailer. destruct h as [[] ?]; done. }
    rewrite render_trailer_app, drop_line.
    rewrite IH; [|by rewrite length_app; cbn; lia].
    rewrite <-!app_assoc. f_equal. f_equal. unfold blen.
    rewrite ?render_trailer_app, !length_app. cbn. lia.
Qed.

Lemma decode_encoded chunks ts :
  Forall (fun l => l <> [] /\ blen l < 2 ^ 64) chunks -> Forall trailer_ok ts ->
  exists d, let enc := concat (encode_chunk <$> chunks) ++ encode_final_chunk ts in
    decode enc ChunkedDecoder_new = Ok (to_int (blen enc)) d /\
    state_ d = COMPLETE /\ decoded_data_ d = concat chunks /\ trailer_headers_ d = ts /\
    chunk_log d = ((fun l => mkChunkData l (blen l) false []) <$> chunks) ++ [mkChunkData [] 0 true ts].
Proof.
  intros HF HT. cbn zeta. set (enc := _ ++ _).
  destruct (loop_chunks chunks (encode_final_chunk ts) 0 (length enc) [] "" 0 0 [] [] HF)
    as (fuel & cs & cr & Hfuel & E); [done|].
  assert (encode_final_chunk ts = to_hex 0 ++ CRLF ++ (concat (render_trailer <$> ts) ++ CRLF))
    as Efin by reflexivity.
  unfold decode. rewrite (bind_Ok _ _ _ _ _ (eq_refl : gets state_ ChunkedDecoder_new = _)).
  cbv beta iota. rewrite !bool_decide_false by done. cbn [orb].
  fold enc in E. unfold ChunkedDecoder_new. rewrite E. clear E.
  rewrite Efin in Hfuel |- *. rewrite !length_app in Hfuel. cbn in Hfuel.
  destruct fuel as [|fuel]; [lia|].
  erewrite decode_loop_step; [|done|done|done|cbn [handler state_]; by apply decode_size_line].
  rewrite drop_line. cbn [Z.eqb]. rewrite loop_trailers; [|done|by rewrite length_app; cbn; lia].
  eexists. split; [f_equal|done]. f_equal. unfold enc. rewrite Efin. unfold blen.
  rewrite !length_app. cbn [length CRLF]. lia.
Qed.

(** The chunks [encode_body] cuts a body into. *)
Lemma encode_loop_chunks fuel rest cs :
  (0 < cs)%nat -> (length rest <= fuel)%nat ->
  exists chunks, encode_loop fuel rest cs = Some (concat (encode_chunk <$> chunks)) /\
    concat chunks = rest /\ Forall (fun l => l <> [] /\ (length l <= cs)%nat) chunks /\
    (length rest <= length chunks * cs < length rest + cs)%nat.
Proof.
  intros Hcs. revert rest. induction fuel as [|fuel IH]; intros rest Hf.
  { destruct rest; [|cbn in Hf; lia]. exists []. cbn. split_and!; try done; lia. }
  destruct rest as [|x rest']; [exists []; cbn; split_and!; try done; lia|].
  set (rest := x :: rest') in *. set (k := Nat.min cs (length rest)).
  assert (0 < k <= length rest)%nat as Hk by (unfold k; cbn; lia).
  destruct (IH (drop k rest)) as (chunks & E & Hc & HF & HL); [rewrite length_drop; cbn in Hf |- *; lia|].
  exists (take k rest :: chunks). split_and!.
  - cbn [encode_loop rest]. fold rest. fold k. by rewrite E.
  - cbn. rewrite Hc. apply take_drop.
  - constructor; [|done]. split; [|rewrite length_take; lia].
    intros E0%(f_equal length). rewrite length_take in E0. cbn in E0. lia.
  - cbn [length]. rewrite length_drop in HL. destruct (Nat.min_spec cs (length rest)) as [[? Em]|[? Em]];
      fold k in Em; lia.
  - cbn [length]. rewrite length_drop in HL. destruct (Nat.min_spec cs (length rest)) as [[? Em]|[? Em]];
      fold k in Em; [lia|]. destruct chunks; cbn [length] in *; lia.
Qed.

Lemma encode_body_chunks body cs :
  (0 < cs)%nat ->
  exists chunks, encode_body (length body) body cs
      = Some (concat (encode_chunk <$> chunks) ++ encode_final_chunk []) /\
    concat chunks = body /\ Forall (fun l => l <> [] /\ (length l <= cs)%nat) chunks /\
    (length body <= length chunks * cs < length body + cs)%nat.
Proof.
  intros Hcs. destruct (encode_loop_chunks (length body) body cs Hcs (Nat.le_refl _))
    as (chunks & E & Hc & HF & HL).
  exists chunks. split; [|done]. unfold encode_body. destruct body as [|x b].
  - destruct chunks as [|c chunks]; [done|]. cbn in HL. lia.
  - by rewrite E.
Qed.

Lemma utils_decode_chunks chunks ts :
  Forall (fun l => l <> [] /\ blen l < 2 ^ 64) chunks -> Forall trailer_ok ts ->
  let enc := concat (encode_chunk <$> chunks) ++ encode_final_chunk ts in
  blen enc <= INT_MAX -> utils_decode enc = Some (concat chunks, ts).
Proof.
  intros HF HT. cbn zeta. intros Hlen.
  destruct (decode_encoded chunks ts HF HT) as (d & E & Hst & Hd & Ht & _). cbn zeta in E.
  unfold utils_decode. rewrite E. rewrite to_int_small by (unfold is_int, INT_MIN, blen in *; lia).
  unfold has_error, is_complete. rewrite Hst.
  replace (_ <? 0) with false by (unfold blen in *; lia). cbn. by rewrite Hd, Ht.
Qed.

Lemma chunk_sizes_fit chunks (cs : nat) :
  Z.of_nat cs < 2 ^ 64 -> Forall (fun l : bytes => l <> [] /\ (length l <= cs)%nat) chunks ->
  Forall (fun l => l <> [] /\ blen l < 2 ^ 64) chunks.
Proof.
  intros Hcs HF. eapply Forall_impl; [exact HF|]. cbn. intros l [? ?]. split; [done|].
  unfold blen. lia.
Qed.

(** C4. Chunked coding round-trips: for every body and every positive chunk size,
    encoding terminates, and the result (up to the 2^31 - 1 bytes whose length an
    [int] can return) validates and decodes to the body with no trailers. *)
Theorem chunked_roundtrip body (cs : nat) :
  (0 < cs)%nat -> Z.of_nat cs < 2 ^ 64 ->
  exists enc, encode_body (length body) body cs = Some enc /\
    (blen enc <= INT_MAX -> utils_decode enc = Some (body, []) /\ validate enc = true).
Proof.
  intros Hcs Hfit. destruct (encode_body_chunks body cs Hcs) as (chunks & E & Hc & HF & _).
  eexists. split; [exact E|]. intros Hlen. apply chunk_sizes_fit in HF; [|done].
  pose proof (utils_decode_chunks chunks [] HF (Forall_nil_2 _) Hlen) as HU.
  rewrite Hc in HU. split; [exact HU|]. unfold validate. by rewrite HU.
Qed.

Lemma chunked_roundtrip_witness :
  exists enc, encode_body 5 (txt "hello") 2 = Some enc /\ utils_decode enc = Some (txt "hello", []).
Proof.
  destruct (chunked_roundtrip (txt "hello") 2 ltac:(lia) ltac:(lia)) as (enc & E & H).
  exists enc. split; [exact E|]. apply H. vm_compute in E. injection E as <-. by vm_compute.
Defined.

(** A chunk size of zero makes [encode_body] loop for ever on every non-empty
    body: no amount of fuel suffices. *)
Theorem zero_chunk_size_diverges body fuel :
  body <> [] -> encode_body fuel body 0 = None.
Proof.
  intros Hb. unfold encode_body. destruct body as [|x b]; [done|].
  assert (encode_loop fuel (x :: b) 0 = None) as ->; [|done].
  induction fuel as [|fuel IH]; [done|]. cbn [encode_loop]. rewrite Nat.min_0_l, drop_0.
  by rewrite IH.
Qed.

Lemma zero_chunk_size_diverges_witness : encode_body 1000 (txt "x") 0 = None.
Proof. apply (zero_chunk_size_diverges (txt "x") 1000). discriminate. Defined.

(** ** The streaming encoder *)

Inductive stream_op : Set := SWrite (l : bytes) | SChunkSize (n : nat).

(** A write with fuel for the data it finds. *)
Definition stream_run (op : stream_op) : cpp StreamChunkedEncoder unit :=
  match op with
  | SWrite l => s ← get; write (length (stream_buffer s ++ l)) l ;; mret tt
  | SChunkSize n => set_chunk_size n
  end.

Definition written (ops : list stream_op) : bytes :=
  concat ((fun op => match op with SWrite l => l | SChunkSize _ => [] end) <$> ops).

Definition chunk_ok (l : bytes) : Prop := l <> [] /\ blen l < 2 ^ 64.

(** What was output is a sequence of chunks that, with the buffer, is [sofar]. *)
Definition stream_inv (sofar : bytes) (s : StreamChunkedEncoder) : Prop :=
  finished_ s = false /\ (0 < chunk_size_ s)%nat /\ Z.of_nat (chunk_size_ s) < 2 ^ 64 /\
  (length (stream_buffer s) < chunk_size_ s)%nat /\
  exists chunks, output s = concat (encode_chunk <$> chunks) /\
    concat chunks ++ stream_buffer s = sofar /\ Forall chunk_ok chunks.

Lemma write_loop_inv fuel cs buf out sofar chunks :
  (0 < cs)%nat -> Z.of_nat cs < 2 ^ 64 -> (length buf <= fuel)%nat ->
  out = concat (encode_chunk <$> chunks) -> concat chunks ++ buf = sofar -> Forall chunk_ok chunks ->
  exists s', write_loop fuel (mkStream cs buf false out) = Ok tt s' /\ stream_inv sofar s' /\
    chunk_size_ s' = cs.
Proof.
  intros Hcs Hfit. revert buf out chunks. induction fuel as [|fuel IH];
    intros buf out chunks Hf -> Hsofar HF; cbn [write_loop];
    unfold mbind, cpp_bind, get; cbn [chunk_size_ stream_buffer];
    destruct (Nat.leb_spec cs (length buf)) as [Hle|Hlt].
  1: lia.
  1, 3: eexists; split; [reflexivity|]; split; [|done]; split_and!; try done; by exists chunks.
  unfold modify. cbv beta iota. cbn [chunk_size_ stream_buffer finished_ output].
  apply (IH _ _ (chunks ++ [take cs buf])).
  - rewrite length_drop. lia.
  - rewrite fmap_app, concat_app. cbn. by rewrite app_nil_r.
  - rewrite concat_app. cbn. rewrite app_nil_r, <-app_assoc, take_drop. done.
  - apply Forall_app. split; [done|]. constructor; [|done]. split.
    + intros E%(f_equal length). rewrite length_take in E. cbn in E. lia.
    + unfold blen. rewrite length_take. lia.
Qed.

Lemma stream_step op sofar s :
  stream_inv sofar s -> (match op with SChunkSize n => Z.of_nat n < 2 ^ 64 | _ => True end) ->
  exists s', stream_run op s = Ok tt s' /\ stream_inv (sofar ++ written [op]) s'.
Proof.
  intros (Hfin & Hcs & Hfit & Hb & chunks & Ho & Hc & HF) Hop. destruct s as [cs buf fin out].
  cbn in Hfin, Hcs, Hfit, Hb, Ho, Hc. subst fin. destruct op as [l|n]; unfold written;
    cbn -[write_loop stream_run].
  - rewrite app_nil_r. unfold stream_run, write, mbind, cpp_bind, get, gets, modify.
    cbn -[write_loop].
    destruct (write_loop_inv (length (buf ++ l)) cs (buf ++ l) out (sofar ++ l) chunks)
      as (s' & E & HI & _); [done|done|done|done| |done|].
    { by rewrite app_assoc, Hc. }
    rewrite E. by exists s'.
  - rewrite !app_nil_r. unfold stream_run, set_chunk_size, modify. cbn. eexists. split; [reflexivity|].
    destruct n as [|n]; [split_and!; try done; by exists chunks|].
    unfold flush_buffer. cbn. destruct buf as [|x buf']; cbn.
    + split_and!; try done; [cbn; lia|cbn; lia|]. by exists chunks.
    + split_and!; try done; [cbn; lia|cbn; lia|]. exists (chunks ++ [x :: buf']). split_and!.
      * rewrite fmap_app, concat_app. cbn [fmap list_fmap concat]. by rewrite app_nil_r, Ho.
      * rewrite concat_app. cbn [concat]. by rewrite !app_nil_r.
      * apply Forall_app. split; [done|]. constructor; [|done]. split; [done|].
        unfold blen. cbn [length] in Hb |- *. lia.
Qed.

Lemma stream_runs ops sofar s :
  stream_inv sofar s ->
  Forall (fun op => match op with SChunkSize n => Z.of_nat n < 2 ^ 64 | _ => True end) ops ->
  exists s', iterM stream_run ops s = Ok tt s' /\ stream_inv (sofar ++ written ops) s'.
Proof.
  intros HI HF. revert sofar s HI. induction HF as [|op ops Hop HF IH]; intros sofar s HI.
  - exists s. unfold written. cbn. by rewrite app_nil_r.
  - destruct (stream_step op sofar s HI Hop) as (s1 & E1 & HI1).
    destruct (IH _ _ HI1) as (s2 & E2 & HI2). exists s2. cbn [iterM].
    rewrite (bind_Ok _ _ _ _ _ E1). split; [done|]. revert HI2. unfold written. cbn.
    by rewrite app_nil_r, app_assoc.
Qed.

(** C6. The streaming encoder is equivalent to one message: whatever the sizes of
    the writes and however the chunk size is changed in between, after [finish] the
    output (up to 2^31 - 1 bytes) decodes to the concatenation of everything
    written and to the trailers given, and later writes are refused. *)
Theorem stream_encoder_correct (cs : nat) ops ts :
  (0 < cs)%nat -> Z.of_nat cs < 2 ^ 64 ->
  Forall (fun op => match op with SChunkSize n => Z.of_nat n < 2 ^ 64 | _ => True end) ops ->
  Forall trailer_ok ts ->
  exists s, (iterM stream_run ops ;; finish ts) (StreamChunkedEncoder_new cs) = Ok true s /\
    (blen (output s) <= INT_MAX -> utils_decode (output s) = Some (written ops, ts)) /\
    (forall fuel l, write fuel l s = Ok false s).
Proof.
  intros Hcs Hfit HO HT.
  destruct (stream_runs ops [] (StreamChunkedEncoder_new cs)) as (s & E & HI); [|done|].
  { split_and!; try done. by exists []. }
  rewrite (bind_Ok _ _ _ _ _ E).
  destruct HI as (Hfin & _ & Hfit' & Hb & chunks & Ho & Hc & HF).
  destruct s as [cs' buf fin out]. cbn in Hfin, Hfit', Hb, Ho, Hc. subst fin out.
  unfold finish, mbind, cpp_bind, gets, modify. cbn -[encode_chunk encode_final_chunk].
  eexists. split; [reflexivity|]. split; [|done].
  intros Hlen. unfold flush_buffer in *. destruct buf as [|x buf'];
    cbn -[encode_chunk encode_final_chunk] in *.
  - rewrite app_nil_r in Hc. rewrite <-Hc. by apply utils_decode_chunks.
  - assert (concat (encode_chunk <$> chunks ++ [x :: buf']) =
            concat (encode_chunk <$> chunks) ++ encode_chunk (x :: buf')) as Eo.
    { rewrite fmap_app, concat_app. cbn [fmap list_fmap concat]. by rewrite app_nil_r. }
    rewrite <-Eo in Hlen |- *. rewrite utils_decode_chunks; [| |done|done].
    + rewrite concat_app. cbn [concat]. by rewrite app_nil_r, Hc.
    + apply Forall_app. split; [done|]. constructor; [|done]. split; [done|].
      unfold blen. cbn [length] in Hb |- *. lia.
Qed.

Lemma stream_encoder_correct_witness :
  exists s, (iterM stream_run [SWrite (txt "chunk"); SChunkSize 4; SWrite (txt "ed data")] ;;
             finish [(txt "X-Sum", txt "42")]) (StreamChunkedEncoder_new 3) = Ok true s /\
    utils_decode (output s) = Some (txt "chunked data", [(txt "X-Sum", txt "42")]).
Proof.
  destruct (stream_encoder_correct 3 [SWrite (txt "chunk"); SChunkSize 4; SWrite (txt "ed data")]
    [(txt "X-Sum", txt "42")]) as (s & E & H & _); [lia|lia|repeat constructor; lia| |].
  - constructor; [|constructor]. split_and!; try (by repeat constructor);
      apply tight_forall; by repeat constructor.
  - exists s. split; [exact E|]. apply H. vm_compute in E. injection E as <-. by vm_compute.
Defined.

(** ** Size of the encoding *)

Lemma hex_loop_short fuel k v acc :
  (0 < k <= fuel)%nat -> 0 <= v < 16 ^ Z.of_nat k ->
  (length (hex_loop fuel v acc) <= k + length acc)%nat.
Proof.
  revert k v acc. induction fuel as [|fuel IH]; intros k v acc Hk Hv; [lia|]. cbn [hex_loop].
  destruct (Z.ltb_spec v 16); [cbn; lia|]. destruct k as [|[|k]]; [lia|cbn in Hv; lia|].
  etrans; [apply (IH (S k))|cbn; lia]; [lia|]. split; [apply Z.div_pos; lia|].
  rewrite Nat2Z.inj_succ, Z.pow_succ_r in Hv by lia. apply Z.div_lt_upper_bound; lia.
Qed.

Lemma encode_chunk_length l :
  l <> [] -> blen l < 2 ^ 24 -> (length (encode_chunk l) <= length l + 10)%nat.
Proof.
  intros Hl Hs. rewrite encode_chunk_nonempty by done. rewrite !length_app.
  pose proof (hex_loop_short 16 6 (blen l) [] ltac:(lia)) as HH. cbn in HH |- *.
  unfold to_hex. unfold blen in *. lia.
Qed.

Lemma encoded_chunks_length chunks :
  Forall (fun l => l <> [] /\ blen l < 2 ^ 24) chunks ->
  (length (concat (encode_chunk <$> chunks)) <= length (concat chunks) + 10 * length chunks)%nat.
Proof.
  induction 1 as [|l chunks [Hl Hs] HF IH]; [done|]. cbn [fmap list_fmap concat length].
  rewrite !length_app. pose proof (encode_chunk_length l Hl Hs). lia.
Qed.



(** ** Input delivered in pieces *)

Lemma decode_data_end l dec err tr lg n :
  n = blen l -> 0 < n < 2 ^ 64 ->
  decode_chunk_data_state l (mkChunkedDecoder CHUNK_DATA [] dec err n 0 tr lg) =
  Ok (1, length l)
    (mkChunkedDecoder CHUNK_SIZE [] (dec ++ l) err n n tr (lg ++ [mkChunkData l n false []])).
Proof.
  intros -> Hn. unfold decode_chunk_data_state, mbind, cpp_bind, get, modify, notify_chunk.
  cbv beta iota. cbn [current_chunk_size_ current_chunk_read_ set_current append_decoded].
  rewrite Z.sub_0_r, (wrap64_small (blen l)), Z.min_id by lia.
  assert (Z.to_nat (blen l) = length l) as -> by (unfold blen; lia).
  rewrite firstn_all, drop_all, Z.add_0_l. fold (blen l). rewrite wrap64_small, Z.leb_refl by lia.
  destruct l; [unfold blen in Hn; cbn in Hn; lia|]. done.
Qed.

(** The decoder does not support delivery in pieces: when the input is cut
    right after the data of a chunk, the first piece is accepted, and the second,
    which starts with the chunk's CRLF, puts the decoder in the error state,
    although the uncut message decodes. *)
Theorem decoder_rejects_split_after_data l rest :
  l <> [] -> blen l < 2 ^ 63 ->
  exists r1 d1 d2,
    decode (to_hex (blen l) ++ CRLF ++ l) ChunkedDecoder_new = Ok r1 d1 /\
    state_ d1 = CHUNK_SIZE /\ decoded_data_ d1 = l /\
    decode (CRLF ++ rest) d1 = Ok (-1) d2 /\ state_ d2 = ERROR.
Proof.
  intros Hl Hs. assert (0 < blen l) as Hpos by (destruct l; [done|]; unfold blen; cbn; lia).
  unfold decode at 1. rewrite (bind_Ok _ _ _ _ _ (eq_refl : gets state_ ChunkedDecoder_new = _)).
  cbv beta iota. rewrite !bool_decide_false by done. cbn [orb].
  pose proof (to_hex_nonempty (blen l)) as Hhex.
  assert (2 <= length (to_hex (blen l) ++ CRLF ++ l))%nat as Hlen by (rewrite !length_app; cbn; lia).
  destruct (length (to_hex (blen l) ++ CRLF ++ l)) as [|[|fuel]]; [lia..|].
  erewrite decode_loop_step; [|by destruct (to_hex (blen l))|done|done
    |cbn [handler state_ ChunkedDecoder_new]; apply decode_size_line; lia].
  rewrite drop_line. replace (blen l =? 0) with false by lia.
  erewrite decode_loop_step; [|done|done|done|cbn [handler state_]; apply decode_data_end; [done|lia]].
  rewrite drop_all. eexists _, _, _. split; [by destruct fuel|]. done.
Qed.

Lemma decoder_rejects_split_after_data_witness :
  exists r1 d1 d2, decode (txt "3" ++ CRLF ++ txt "abc") ChunkedDecoder_new = Ok r1 d1 /\
    decode (CRLF ++ txt "0" ++ CRLF ++ CRLF) d1 = Ok (-1) d2 /\
    utils_decode (txt "3" ++ CRLF ++ txt "abc" ++ CRLF ++ txt "0" ++ CRLF ++ CRLF)
      = Some (txt "abc", []).
Proof.
  destruct (decoder_rejects_split_after_data (txt "abc") (txt "0" ++ CRLF ++ CRLF))
    as (r1 & d1 & d2 & E1 & _ & _ & E2 & _); [done|by vm_compute|].
  exists r1, d1, d2. split; [exact E1|]. split; [exact E2|]. by vm_compute.
Defined.

(** ** The decoder always returns *)

Definition decoder_ok (d : ChunkedDecoder) : Prop :=
  state_ d = CHUNK_DATA -> 0 <= current_chunk_read_ d < current_chunk_size_ d /\
                           current_chunk_size_ d < 2 ^ 64.

Lemma wrap64_range z : 0 <= wrap64 z < 2 ^ 64.
Proof. unfold wrap64, u64_max. by apply Z.mod_pos_bound. Qed.

Lemma parse_hex_range r l n : 0 <= r < 2 ^ 64 -> parse_hex_from r l = Some n -> 0 <= n < 2 ^ 64.
Proof.
  revert r. induction l as [|c l IH]; intros r Hr; cbn; [by intros [= <-]|].
  destruct (hex_value c); [|done]. cbn. apply IH, wrap64_range.
Qed.

(** A handler consumes input or reports an error. *)
Definition progress (r : Z) (k : nat) (d : ChunkedDecoder) : Prop :=
  decoder_ok d /\ (r < 0 \/ (0 < k)%nat).

Lemma error_progress m k d :
  returns (set_error m ;; mret (-1, k)) d (fun rk d' => progress rk.1 rk.2 d').
Proof. apply returns_bind, returns_modify, returns_ret. split; [done|left; cbn; lia]. Qed.

Lemma ret_progress r (k : nat) d :
  decoder_ok d -> (0 < k)%nat -> returns (mret (r, k)) d (fun rk d' => progress rk.1 rk.2 d').
Proof. intros Hd Hk. apply returns_ret. split; [done|by right]. Qed.

Lemma size_state_progress l d :
  l <> [] -> state_ d = CHUNK_SIZE ->
  returns (decode_chunk_size_state l) d (fun rk d' => progress rk.1 rk.2 d').
Proof.
  intros Hl Hst. unfold decode_chunk_size_state. destruct (find_line_end l) as [i|].
  - apply returns_bind, returns_gets, returns_bind, returns_modify.
    destruct (parse_hex_size _) as [n|] eqn:E; [|apply error_progress].
    apply returns_bind, returns_modify, returns_bind, returns_modify, ret_progress; [|lia].
    unfold decoder_ok. cbn. unfold parse_hex_size in E. destruct (trim _); [done|].
    apply parse_hex_range in E; [|lia]. destruct (Z.eqb_spec n 0); [done|]. lia.
  - apply returns_bind, returns_modify, returns_bind, returns_gets.
    destruct l as [|c l]; [done|]. case_match; [apply error_progress|].
    apply ret_progress; [|cbn; lia]. unfold decoder_ok. cbn. by rewrite Hst.
Qed.

Lemma data_state_progress l d :
  l <> [] -> state_ d = CHUNK_DATA -> decoder_ok d ->
  returns (decode_chunk_data_state l) d (fun rk d' => progress rk.1 rk.2 d').
Proof.
  intros Hl Hst Hd. destruct (Hd Hst) as [Hr Hs]. unfold decode_chunk_data_state.
  apply returns_bind. exists d, d. split; [done|].
  rewrite (wrap64_small (_ - _)) by lia. set (k := Z.to_nat _).
  assert (0 < k)%nat as Hk by (unfold k, blen; destruct l; [done|]; cbn [length]; lia).
  assert (Z.of_nat k <= current_chunk_size_ d - current_chunk_read_ d) as Hk' by (unfold k; lia).
  apply returns_bind, returns_modify, returns_bind, returns_modify, returns_bind.
  eexists _, _. split; [reflexivity|]. cbn. rewrite wrap64_small by lia.
  destruct (Z.leb_spec (current_chunk_size_ d) (current_chunk_read_ d + Z.of_nat k)) as [Hle|Hlt].
  - apply returns_bind, returns_modify. destruct (drop k l) as [|c [|c' rest]].
    + apply returns_bind, returns_modify. by apply ret_progress.
    + case_match; [|apply error_progress].
      apply returns_bind, returns_modify, returns_bind, returns_modify, ret_progress; [done|lia].
    + case_match; [|apply error_progress].
      apply returns_bind, returns_modify, ret_progress; [done|lia].
  - apply ret_progress; [|done]. unfold decoder_ok. cbn. lia.
Qed.

Lemma trailer_state_progress l d :
  l <> [] -> state_ d = CHUNK_TRAILER ->
  returns (decode_chunk_trailer_state l) d (fun rk d' => progress rk.1 rk.2 d').
Proof.
  intros Hl Hst. assert (forall d', state_ d' = CHUNK_TRAILER -> decoder_ok d') as Hok.
  { intros d' E. unfold decoder_ok. by rewrite E. }
  unfold decode_chunk_trailer_state. destruct (find_line_end l) as [i|].
  - apply returns_bind, returns_gets, returns_bind, returns_modify, returns_bind.
    destruct (chomp _) as [|x line].
    + apply returns_bind, returns_modify, returns_bind, returns_gets, returns_modify.
      apply ret_progress; [done|lia].
    + unfold parse_trailer_line. destruct (after ":" (x :: line)).
      * apply returns_modify, ret_progress; [by apply Hok|lia].
      * apply returns_ret, ret_progress; [by apply Hok|lia].
  - apply returns_bind, returns_modify, returns_bind, returns_gets.
    destruct l as [|c l]; [done|]. case_match; [apply error_progress|].
    apply ret_progress; [by apply Hok|cbn; lia].
Qed.

Lemma decode_loop_returns fuel l t d :
  (length l <= fuel)%nat -> decoder_ok d ->
  returns (decode_loop fuel l t) d (fun _ d' => decoder_ok d').
Proof.
  revert l t d. induction fuel as [|fuel IH]; intros l t d Hf Hd;
    (destruct l as [|c l]; [by apply returns_bind, returns_gets, returns_ret|]); [cbn in Hf; lia|].
  set (l' := c :: l) in *. cbn [decode_loop]. apply returns_bind, returns_gets. subst l'.
  destruct (bool_decide_reflect (state_ d = COMPLETE)) as [|H1]; [by apply returns_ret|].
  destruct (bool_decide_reflect (state_ d = ERROR)) as [|H2]; [by apply returns_ret|].
  cbn [orb]. apply returns_bind.
  apply returns_mono with (Q := fun rk d' => progress rk.1 rk.2 d').
  - destruct (state_ d) eqn:E; [by apply size_state_progress|by apply data_state_progress
      |by apply trailer_state_progress|done|done].
  - intros [r k] d' [Hd' Hrk]. cbn [fst snd] in *.
    destruct (Z.ltb_spec r 0); [by apply returns_ret|]. destruct Hrk as [|Hk]; [lia|].
    destruct k as [|k]; [lia|]. cbn [Nat.eqb andb]. apply IH; [|done].
    rewrite length_drop. cbn [length] in *. lia.
Qed.

Lemma decode_returns l d :
  decoder_ok d -> returns (decode l) d (fun _ d' => decoder_ok d').
Proof.
  intros Hd. apply returns_bind, returns_gets. case_match; [by apply returns_ret|].
  by apply decode_loop_returns.
Qed.

