(* ===== verification/Balancer.v ===== *)
(** * Balancer: the load-balancing library

    Models src/zsxq-cpp-ai/Stdbalancing/include: the server node (server/Server.h),
    the base class with its registry (balancer/LoadBalancer.h), and the policies
    round robin, smooth weighted round robin (balancer/RoundRobinBalancer.h) and
    least connections (balancer/LeastConnectionsBalancer.h). Consistent hashing is
    in ConsistentHash.v. Servers are shared through [std::shared_ptr] (the vector
    and the map of a balancer, and the hash ring, hold the same objects), so they
    live in a store indexed by addresses. Every function modelled here holds the
    balancer's mutex for its whole duration and none calls another, so each is one
    atomic step; random draws and clock readings are arguments. *)

From S2P Require Import Prelude Text.

Local Open Scope Z_scope.

(** ** Server nodes *)

Record Server : Set := mkServer {
  server_id_ : string;
  address_ : string;
  weight_ : Z;
  current_connections_ : Z;   (* std::atomic<int> *)
  total_requests_ : Z;        (* std::atomic<uint64_t> *)
  failed_requests_ : Z;
  is_alive_ : bool;
  last_check_time_ : time_point }.

Definition Server_new (now : time_point) (id address : string) (weight : Z) : Server :=
  mkServer id address weight 0 0 0 true now.

Definition set_connections (c t f : Z) (s : Server) : Server :=
  mkServer (server_id_ s) (address_ s) (weight_ s) c t f (is_alive_ s) (last_check_time_ s).

Definition setWeight (w : Z) (s : Server) : Server :=
  mkServer (server_id_ s) (address_ s) w (current_connections_ s) (total_requests_ s)
    (failed_requests_ s) (is_alive_ s) (last_check_time_ s).

(** Atomic increments wrap around. *)
Definition addConnection (s : Server) : Server :=
  set_connections (to_int (current_connections_ s + 1)) (wrap64 (total_requests_ s + 1))
    (failed_requests_ s) s.

Definition removeConnection (s : Server) : Server :=
  if 0 <? current_connections_ s
  then set_connections (current_connections_ s - 1) (total_requests_ s) (failed_requests_ s) s
  else s.

Definition recordFailure (s : Server) : Server :=
  set_connections (current_connections_ s) (total_requests_ s) (wrap64 (failed_requests_ s + 1)) s.

Definition setAlive (now : time_point) (alive : bool) (s : Server) : Server :=
  mkServer (server_id_ s) (address_ s) (weight_ s) (current_connections_ s) (total_requests_ s)
    (failed_requests_ s) alive now.

Definition Server_reset (s : Server) : Server := set_connections 0 0 0 s.

(** ** The base class *)

Abbreviation ptr := nat.

(** [heap_] is the store of server objects; [ext] the members of the policy. *)
Record LoadBalancer (X : Type) : Type := mkLB {
  heap_ : ptr -> Server;
  servers_ : list ptr;
  server_map_ : gmap string ptr;
  ext : X }.
Arguments mkLB {X} _ _ _ _.
Arguments heap_ {X} _ _.
Arguments servers_ {X} _.
Arguments server_map_ {X} _.
Arguments ext {X} _.

(** A write to one object. *)
Definition store (p : ptr) (f : Server -> Server) (h : ptr -> Server) : ptr -> Server :=
  fun q => if Nat.eqb q p then f (h q) else h q.

Section base.
Context {X : Type}.
Implicit Types (s : LoadBalancer X).

Definition set_heap (h : ptr -> Server) s : LoadBalancer X :=
  mkLB h (servers_ s) (server_map_ s) (ext s).
Definition set_servers (l : list ptr) s : LoadBalancer X :=
  mkLB (heap_ s) l (server_map_ s) (ext s).
Definition set_server_map (m : gmap string ptr) s : LoadBalancer X :=
  mkLB (heap_ s) (servers_ s) m (ext s).
Definition set_ext (x : X) s : LoadBalancer X :=
  mkLB (heap_ s) (servers_ s) (server_map_ s) x.

Definition update_server (p : ptr) (f : Server -> Server) : cpp (LoadBalancer X) unit :=
  modify (fun s => set_heap (store p f (heap_ s)) s).

Definition alive s (p : ptr) : bool := is_alive_ (heap_ s p).
Definition id_of s (p : ptr) : string := server_id_ (heap_ s p).

(** The loop every policy starts with. *)
Definition available s : list ptr := filter (fun p => alive s p = true) (servers_ s).

Definition getServers : cpp (LoadBalancer X) (list ptr) := gets servers_.
Definition getAvailableServers : cpp (LoadBalancer X) (list ptr) := gets available.
Definition getServerCount : cpp (LoadBalancer X) nat := gets (fun s => length (servers_ s)).
Definition getAvailableServerCount : cpp (LoadBalancer X) nat := gets (fun s => length (available s)).
Definition getFirstAvailable : cpp (LoadBalancer X) (option ptr) :=
  gets (fun s => find_first (alive s) (servers_ s)).
End base.

(** What a selection takes from its surroundings: a random index and, for the
    hash ring, the process-wide key counter and the steady clock. *)
Record Draw : Set := mkDraw { draw_index : nat; draw_counter : Z; draw_clock : Z }.

(** The virtual functions of the base class. *)
Class Policy (X : Type) : Type := {
  onServerAdded : ptr -> cpp (LoadBalancer X) unit;
  onServerRemoved : ptr -> cpp (LoadBalancer X) unit;
  onReset : cpp (LoadBalancer X) unit;
  selectServer : Draw -> string -> cpp (LoadBalancer X) (option ptr);
}.

Section operations.
Context {X : Type} `{!Policy X}.

Definition addServer (p : ptr) : cpp (LoadBalancer X) unit :=
  modify (fun s => set_servers (servers_ s ++ [p]) s) ;;
  modify (fun s => set_server_map (<[id_of s p := p]> (server_map_ s)) s) ;;
  onServerAdded p.

Definition removeServer (server_id : string) : cpp (LoadBalancer X) bool :=
  it ← gets (fun s => server_map_ s !! server_id);
  match it with
  | None => mret false
  | Some p =>
      modify (fun s => set_servers
        (filter (fun q => id_of s q <> server_id) (servers_ s)) s) ;;
      onServerRemoved p ;;
      modify (fun s => set_server_map (delete server_id (server_map_ s)) s) ;;
      mret true
  end.

(** The two hooks for marking are not overridden by any policy. *)
Definition markServerDown (now : time_point) (server_id : string) : cpp (LoadBalancer X) unit :=
  it ← gets (fun s => server_map_ s !! server_id);
  match it with
  | None => mret tt
  | Some p => update_server p (setAlive now false)
  end.

Definition markServerUp (now : time_point) (server_id : string) : cpp (LoadBalancer X) unit :=
  it ← gets (fun s => server_map_ s !! server_id);
  match it with
  | None => mret tt
  | Some p => update_server p (setAlive now true)
  end.

Definition reset : cpp (LoadBalancer X) unit :=
  ps ← gets servers_;
  iterM (fun p => update_server p Server_reset) ps ;;
  onReset.
End operations.

(** The end of every [selectServer]: count the connection. *)
Definition take_server {X} (p : ptr) : cpp (LoadBalancer X) (option ptr) :=
  update_server p addConnection ;; mret (Some p).

(** ** Round robin *)

Record RoundRobin : Set := mkRoundRobin { current_index_ : Z }.

#[global] Instance RoundRobinBalancer : Policy RoundRobin := {
  onServerAdded _ := mret tt;
  onServerRemoved _ :=
    modify (fun s => if bool_decide (servers_ s = []) then set_ext (mkRoundRobin 0) s else s);
  onReset := modify (set_ext (mkRoundRobin 0));
  selectServer _ _ :=
    av ← gets available;
    match av with
    | [] => mret None
    | _ :: _ =>
        i ← gets (fun s => current_index_ (ext s));
        modify (set_ext (mkRoundRobin (wrap64 (i + 1)))) ;;
        match av !! Z.to_nat (i `mod` Z.of_nat (length av)) with
        | Some p => take_server p
        | None => undefined "vector index out of range"
        end
    end }.

(** ** Smooth weighted round robin *)

Record WeightedRoundRobin : Set := mkWRR {
  wrr_index_ : Z;                     (* current_index_, never read *)
  current_weights_ : gmap string Z; gcd_ : Z; max_weight_ : Z }.

(** [a + b] on [int]. *)
Definition int_add {S} (a b : Z) : cpp S Z :=
  if bool_decide (is_int (a + b)) then mret (a + b) else undefined "signed overflow".

(** The Euclidean loop, with an overflow in the division of the smallest [int] by
    -1; for non-negative [int]s 64 turns suffice ([gcd_correct]). *)
Fixpoint gcd_loop {S} (fuel : nat) (a b : Z) : cpp S Z :=
  if b =? 0 then mret a else
  match fuel with
  | O => block
  | Datatypes.S fuel' =>
      if (a =? INT_MIN) && (b =? -1) then undefined "signed overflow"
      else gcd_loop fuel' b (Z.rem a b)
  end.
Definition gcd {S} (a b : Z) : cpp S Z := gcd_loop 64 a b.

Definition set_weights (m : gmap string Z) (s : LoadBalancer WeightedRoundRobin) :=
  set_ext (mkWRR (wrr_index_ (ext s)) m (gcd_ (ext s)) (max_weight_ (ext s))) s.

Definition set_weight_info (g m : Z) (s : LoadBalancer WeightedRoundRobin) :=
  set_ext (mkWRR (wrr_index_ (ext s)) (current_weights_ (ext s)) g m) s.

Definition visit_weight (p : ptr) : cpp (LoadBalancer WeightedRoundRobin) unit :=
  s ← get;
  let weight := weight_ (heap_ s p) in
  g ← gcd (gcd_ (ext s)) weight;
  modify (fun s => set_weight_info g
    (if max_weight_ (ext s) <? weight then weight else max_weight_ (ext s)) s).

Definition updateWeightInfo : cpp (LoadBalancer WeightedRoundRobin) unit :=
  s ← get;
  match servers_ s with
  | [] => modify (set_weight_info 1 0)
  | p :: ps =>
      modify (set_weight_info (weight_ (heap_ s p)) (weight_ (heap_ s p))) ;;
      iterM visit_weight ps
  end.

Definition weight_of_id (s : LoadBalancer WeightedRoundRobin) (id : string) : Z :=
  default 0 (current_weights_ (ext s) !! id).

(** One turn of the loop over the available servers: the running total and the
    best server so far with its current weight. *)
Definition wrr_visit (acc : Z * option (ptr * Z)) (p : ptr)
    : cpp (LoadBalancer WeightedRoundRobin) (Z * option (ptr * Z)) :=
  s ← get;
  let weight := weight_ (heap_ s p) in
  total ← int_add acc.1 weight;
  current ← int_add (weight_of_id s (id_of s p)) weight;
  modify (fun s => set_weights (<[id_of s p := current]> (current_weights_ (ext s))) s) ;;
  mret (total, match acc.2 with
               | Some (q, m) => if m <? current then Some (p, current) else Some (q, m)
               | None => Some (p, current)
               end).

Fixpoint wrr_loop (ps : list ptr) (acc : Z * option (ptr * Z))
    : cpp (LoadBalancer WeightedRoundRobin) (Z * option (ptr * Z)) :=
  match ps with
  | [] => mret acc
  | p :: ps' => acc' ← wrr_visit acc p; wrr_loop ps' acc'
  end.

Definition smoothWeightedRoundRobin (available_servers : list ptr)
    : cpp (LoadBalancer WeightedRoundRobin) (option ptr) :=
  r ← wrr_loop available_servers (0, None);
  match r.2 with
  | None => mret None
  | Some (p, _) =>
      s ← get;
      rest ← int_add (weight_of_id s (id_of s p)) (- r.1);
      modify (fun s => set_weights (<[id_of s p := rest]> (current_weights_ (ext s))) s) ;;
      take_server p
  end.

#[global] Instance WeightedRoundRobinBalancer : Policy WeightedRoundRobin := {
  onServerAdded p :=
    updateWeightInfo ;;
    modify (fun s => set_weights (<[id_of s p := 0]> (current_weights_ (ext s))) s);
  onServerRemoved p :=
    modify (fun s => set_weights (delete (id_of s p) (current_weights_ (ext s))) s) ;;
    updateWeightInfo;
  onReset :=
    modify (fun s => set_ext (mkWRR 0
      (foldl (fun m p => <[id_of s p := 0]> m) ∅ (servers_ s))
      (gcd_ (ext s)) (max_weight_ (ext s))) s);
  selectServer _ _ :=
    av ← gets available;
    match av with
    | [] => mret None
    | _ :: _ => smoothWeightedRoundRobin av
    end }.

(** ** Least connections *)

Record LeastConnections : Set := mkLeastConnections {}.

(** The first pass: the smallest number of connections, from INT_MAX down. *)
Definition min_connections (h : ptr -> Server) (ps : list ptr) : Z :=
  foldl (fun m p => if current_connections_ (h p) <? m then current_connections_ (h p) else m)
    INT_MAX ps.

(** A uniform draw among the candidates. *)
Definition pick (d : nat) (candidates : list ptr) : option ptr :=
  match candidates with
  | [] => None
  | [p] => Some p
  | _ => candidates !! (d mod length candidates)%nat
  end.

#[global] Instance LeastConnectionsBalancer : Policy LeastConnections := {
  onServerAdded _ := mret tt;
  onServerRemoved _ := mret tt;
  onReset := mret tt;
  selectServer d _ :=
    av ← gets available;
    match av with
    | [] => mret None
    | _ :: _ =>
        h ← gets heap_;
        let m := min_connections h av in
        match pick (draw_index d) (filter (fun p => current_connections_ (h p) = m) av) with
        | Some p => take_server p
        | None => mret None
        end
    end }.
