(* ===== verification/ConsistentHash.v ===== *)
(** * ConsistentHash: the consistent-hash policy

    Models src/zsxq-cpp-ai/Stdbalancing/include/balancer/ConsistentHashBalancer.h:
    MurmurHash3 (32 bit, little-endian blocks), the ring of virtual nodes and the
    selection that walks it. *)

From Stdlib Require Import Ascii.
From S2P Require Import Prelude Text Balancer.

Local Open Scope Z_scope.

(** ** MurmurHash3 on [uint32_t] *)

Definition rotl32 (k r : Z) : Z :=
  Z.lor (wrap32 (Z.shiftl k r)) (Z.shiftr k (32 - r)).
Definition mul32 (a b : Z) : Z := wrap32 (a * b).

Definition murmur_c1 : Z := 0xcc9e2d51.
Definition murmur_c2 : Z := 0x1b873593.

Definition scramble (k : Z) : Z := mul32 (rotl32 (mul32 k murmur_c1) 15) murmur_c2.

Definition mix_block (hash k : Z) : Z :=
  wrap32 (mul32 (rotl32 (Z.lxor hash (scramble k)) 13) 5 + 0xe6546b64).

Definition mix_tail (hash k1 : Z) : Z := Z.lxor hash (scramble k1).

(** The loop over the 4-byte blocks and the switch on the remaining bytes. *)
Fixpoint murmur_blocks (bytes : list Z) (hash : Z) : Z :=
  match bytes with
  | b0 :: b1 :: b2 :: b3 :: rest =>
      murmur_blocks rest (mix_block hash
        (Z.lor (Z.lor b0 (Z.shiftl b1 8)) (Z.lor (Z.shiftl b2 16) (Z.shiftl b3 24))))
  | [b0; b1; b2] => mix_tail hash (Z.lxor (Z.lxor (Z.shiftl b2 16) (Z.shiftl b1 8)) b0)
  | [b0; b1] => mix_tail hash (Z.lxor (Z.shiftl b1 8) b0)
  | [b0] => mix_tail hash b0
  | [] => hash
  end.

Definition finalize (hash : Z) (len : Z) : Z :=
  let hash := wrap32 (Z.lxor hash len) in
  let hash := Z.lxor hash (Z.shiftr hash 16) in
  let hash := mul32 hash 0x85ebca6b in
  let hash := Z.lxor hash (Z.shiftr hash 13) in
  let hash := mul32 hash 0xc2b2ae35 in
  Z.lxor hash (Z.shiftr hash 16).

Definition bytes_of (key : string) : list Z :=
  map (fun c => Z.of_nat (nat_of_ascii c)) (String.list_ascii_of_string key).

Definition murmur3_32 (key : string) (seed : Z) : Z :=
  finalize (murmur_blocks (bytes_of key) seed) (Z.of_nat (String.length key)).

Definition hash_function_ (key : string) : Z := murmur3_32 key 0x9747b28c.

(** Published test vectors of the hash with this seed. *)
Example murmur_vectors :
  map hash_function_ ["test"; "aaaa"; "abc"; ""]%string =
  [0x704b81dc; 0x5a97808a; 0xc84a62dd; 0xebb6c228].
Proof. vm_compute. reflexivity. Qed.

(** ** The ring *)

Record ConsistentHash : Set := mkConsistentHash {
  virtual_nodes_per_server_ : Z;
  hash_ring_ : gmap Z ptr }.

Definition ConsistentHash_new (virtual_nodes : Z) : ConsistentHash :=
  mkConsistentHash (if virtual_nodes <=? 0 then 150 else virtual_nodes) ∅.

Abbreviation Ring := (LoadBalancer ConsistentHash).

Definition set_ring (r : gmap Z ptr) (s : Ring) : Ring :=
  set_ext (mkConsistentHash (virtual_nodes_per_server_ (ext s)) r) s.

Definition generateVirtualKey (server_id : string) (index : Z) : string :=
  server_id +:+ "#VN" +:+ to_string index.

Definition generateRandomKey (counter clock : Z) : string :=
  "random_key_" +:+ to_string counter +:+ "_" +:+ to_string clock.

Definition addVirtualNode (p : ptr) (i : nat) : cpp Ring unit :=
  modify (fun s =>
    let hash := hash_function_ (generateVirtualKey (id_of s p) (Z.of_nat i)) in
    set_ring (<[hash := p]> (hash_ring_ (ext s))) s).

Definition addServerToHashRing (p : ptr) : cpp Ring unit :=
  s ← get;
  let virtual_nodes := virtual_nodes_per_server_ (ext s) * weight_ (heap_ s p) in
  if bool_decide (is_int virtual_nodes)
  then iterM (addVirtualNode p) (seq 0 (Z.to_nat virtual_nodes))
  else undefined "signed overflow".

Definition removeServerFromHashRing (p : ptr) : cpp Ring unit :=
  modify (fun s =>
    set_ring (filter (fun kv => id_of s kv.2 <> id_of s p) (hash_ring_ (ext s))) s).

Definition rebuildHashRing : cpp Ring unit :=
  modify (set_ring ∅) ;;
  ps ← gets servers_;
  iterM addServerToHashRing ps.

Definition setVirtualNodesCount (count : Z) : cpp Ring unit :=
  if 0 <? count
  then modify (fun s => set_ext (mkConsistentHash count (hash_ring_ (ext s))) s) ;;
       rebuildHashRing
  else mret tt.

Definition getHashRingSize : cpp Ring nat := gets (fun s => size (hash_ring_ (ext s))).

(** The ring as the loop visits it: from [lower_bound] to the end, then from the
    beginning ([lower_bound] at the end is the beginning). *)
Definition ring_walk (ring : gmap Z ptr) (hash : Z) : list ptr :=
  let nodes := map_ordered Z.le ring in
  (filter (fun kv => hash <= kv.1) nodes ++ filter (fun kv => kv.1 < hash) nodes).*2.

Definition select_on_ring (alive : ptr -> bool) (ring : gmap Z ptr) (hash : Z) : option ptr :=
  find_first alive (ring_walk ring hash).

#[global] Instance ConsistentHashBalancer : Policy ConsistentHash := {
  onServerAdded := addServerToHashRing;
  onServerRemoved := removeServerFromHashRing;
  onReset := modify (set_ring ∅) ;; rebuildHashRing;
  selectServer d key :=
    s ← get;
    if bool_decide (servers_ s = []) || bool_decide (hash_ring_ (ext s) = ∅) then mret None
    else
      let hash_key :=
        if String.eqb key "" then generateRandomKey (draw_counter d) (draw_clock d) else key in
      match select_on_ring (alive s) (hash_ring_ (ext s)) (hash_function_ hash_key) with
      | Some p => take_server p
      | None => mret None
      end }.
