(* ===== verification/BalancerSpec.v ===== *)
(** * BalancerSpec: what every balancing policy promises

    The registry of the base class is proved correct against an interface,
    [LawfulPolicy], that says what the hooks and the selection of a policy may do;
    the four policies discharge it here (consistent hashing included). *)

From S2P Require Import Prelude Text Balancer ConsistentHash.

Local Open Scope Z_scope.

(** ** The interface *)

Section frame.
Context {X : Type}.
Implicit Types s : LoadBalancer X.

(** A hook touches the members of the policy only. *)
Definition frame s s' : Prop :=
  heap_ s' = heap_ s /\ servers_ s' = servers_ s /\ server_map_ s' = server_map_ s.

(** A selection returns an available server and counts one connection on it, or
    returns nothing and touches no server. *)
Definition selection_ok s (r : option ptr) s' : Prop :=
  servers_ s' = servers_ s /\ server_map_ s' = server_map_ s /\
  match r with
  | Some p => p ∈ available s /\ heap_ s' = store p addConnection (heap_ s)
  | None => heap_ s' = heap_ s
  end.

Lemma frame_refl s : frame s s.
Proof. done. Qed.

Lemma frame_set_ext x s : frame s (set_ext x s).
Proof. done. Qed.

Lemma frame_trans s1 s2 s3 : frame s1 s2 -> frame s2 s3 -> frame s1 s3.
Proof. unfold frame. intros (->&->&->) (->&->&->). done. Qed.

Lemma take_server_ok s p r s' :
  p ∈ available s -> take_server p s = Ok r s' -> selection_ok s r s' /\ ext s' = ext s.
Proof. intros Hp [= <- <-]. done. Qed.
End frame.
#[export] Hint Resolve frame_refl frame_set_ext : cpp.

Class LawfulPolicy (X : Type) `{!Policy X} : Type := {
  policy_inv : list ptr -> X -> Prop;
  inv_push ps p x : policy_inv ps x -> policy_inv (ps ++ [p]) x;
  added_law p (s : LoadBalancer X) u s' :
    p ∈ servers_ s -> policy_inv (servers_ s) (ext s) -> onServerAdded p s = Ok u s' ->
    frame s s' /\ policy_inv (servers_ s') (ext s');
  removed_law p (s : LoadBalancer X) u s' :
    policy_inv (servers_ s) (ext s) ->
    let s1 := set_servers (filter (fun q => id_of s q <> id_of s p) (servers_ s)) s in
    onServerRemoved p s1 = Ok u s' ->
    frame s1 s' /\ policy_inv (servers_ s') (ext s');
  reset_law (s : LoadBalancer X) u s' :
    policy_inv (servers_ s) (ext s) -> onReset s = Ok u s' ->
    frame s s' /\ policy_inv (servers_ s') (ext s');
  select_law d key (s : LoadBalancer X) r s' :
    policy_inv (servers_ s) (ext s) -> selectServer d key s = Ok r s' ->
    selection_ok s r s' /\ policy_inv (servers_ s') (ext s');
}.

(** ** The clients of a balancer *)

(** Calls on the balancer, and on the servers it shares with its clients. *)
Inductive Op : Type :=
  | OpAdd (p : ptr)
  | OpRemove (id : string)
  | OpDown (now : time_point) (id : string)
  | OpUp (now : time_point) (id : string)
  | OpReset
  | OpSelect (d : Draw) (key : string)
  | OpRelease (p : ptr)
  | OpFail (p : ptr)
  | OpWeight (p : ptr) (w : Z).

Section clients.
Context {X : Type} `{!Policy X}.
Implicit Types s : LoadBalancer X.

Definition perform (o : Op) : cpp (LoadBalancer X) unit :=
  match o with
  | OpAdd p => addServer p
  | OpRemove id => _ ← removeServer id; mret tt
  | OpDown now id => markServerDown now id
  | OpUp now id => markServerUp now id
  | OpReset => reset
  | OpSelect d key => _ ← selectServer d key; mret tt
  | OpRelease p => update_server p removeConnection
  | OpFail p => update_server p recordFailure
  | OpWeight p w => update_server p (setWeight w)
  end.

(** The vector and the map agree: every entry of the map is a registered server
    under its own id, and the id of every registered server has an entry. *)
Definition registry_ok s : Prop :=
  (forall id p, server_map_ s !! id = Some p -> p ∈ servers_ s /\ id_of s p = id) /\
  (forall p, p ∈ servers_ s -> is_Some (server_map_ s !! id_of s p)).

(** A balancer as its constructor leaves it, over any store of servers. *)
Definition LoadBalancer_new (h : ptr -> Server) (x : X) : LoadBalancer X := mkLB h [] ∅ x.

Lemma registry_ok_new h x : registry_ok (LoadBalancer_new h x).
Proof. split; cbn; [by intros id p Hp%lookup_empty_Some|by intros p Hp%not_elem_of_nil]. Qed.

(** The invariant sees the ids of the store only. *)
Definition same_ids (h h' : ptr -> Server) : Prop :=
  forall p, server_id_ (h' p) = server_id_ (h p).

Lemma same_ids_store p f h : (forall x, server_id_ (f x) = server_id_ x) -> same_ids h (store p f h).
Proof. intros Hf q. unfold store. destruct (Nat.eqb q p); auto. Qed.

Lemma registry_ok_ids s s' :
  servers_ s' = servers_ s -> server_map_ s' = server_map_ s ->
  same_ids (heap_ s) (heap_ s') -> registry_ok s -> registry_ok s'.
Proof.
  unfold registry_ok, id_of. intros -> -> Hids [H1 H2]. split.
  - intros id p Hp. rewrite (Hids p). auto.
  - intros p Hp. rewrite (Hids p). auto.
Qed.

Lemma registry_ok_frame s s' : frame s s' -> registry_ok s -> registry_ok s'.
Proof. intros (Hh&Hs&Hm). apply registry_ok_ids; [done..|]. intros p. by rewrite Hh. Qed.

Lemma addConnection_id x : server_id_ (addConnection x) = server_id_ x.
Proof. done. Qed.
Lemma removeConnection_id x : server_id_ (removeConnection x) = server_id_ x.
Proof. unfold removeConnection. by destruct (0 <? _). Qed.

Lemma registry_ok_add s p :
  registry_ok s ->
  registry_ok (set_server_map (<[id_of s p := p]> (server_map_ s)) (set_servers (servers_ s ++ [p]) s)).
Proof.
  intros [H1 H2]. split; unfold id_of; cbn.
  - intros id q. destruct (decide (id = server_id_ (heap_ s p))) as [->|Hne].
    + rewrite lookup_insert_eq. intros [= ->]. split; [set_solver|done].
    + rewrite lookup_insert_ne by done. intros Hq. destruct (H1 _ _ Hq). split; [set_solver|done].
  - intros q. rewrite elem_of_app, list_elem_of_singleton, lookup_insert_is_Some.
    destruct (decide (server_id_ (heap_ s p) = server_id_ (heap_ s q))) as [He|He]; [by left|].
    intros [Hq| ->]; [|done]. right. split; [done|]. by apply H2.
Qed.

Lemma registry_ok_remove s id :
  registry_ok s ->
  registry_ok (set_server_map (delete id (server_map_ s))
                 (set_servers (filter (fun q => id_of s q <> id) (servers_ s)) s)).
Proof.
  intros [H1 H2]. split; unfold id_of in *; cbn.
  - intros i q. rewrite lookup_delete_Some. intros [Hne Hq]. destruct (H1 _ _ Hq) as [Hin Hid].
    split; [|done]. apply list_elem_of_filter. split; [by rewrite Hid|done].
  - intros q Hq. apply list_elem_of_filter in Hq as [Hne Hq].
    rewrite lookup_delete_ne by done. by apply H2.
Qed.
End clients.

(** ** The registry under any lawful policy *)

Section lawful.
Context {X : Type} `{LawfulPolicy X}.
Implicit Types s : LoadBalancer X.

Definition balancer_ok s : Prop := registry_ok s /\ policy_inv (servers_ s) (ext s).

Lemma balancer_ok_heap s h : same_ids (heap_ s) h -> balancer_ok s -> balancer_ok (set_heap h s).
Proof. intros Hh [H1 H2]. split; [|done]. by eapply registry_ok_ids, H1. Qed.

Lemma balancer_ok_store s p f :
  (forall x, server_id_ (f x) = server_id_ x) -> balancer_ok s ->
  balancer_ok (set_heap (store p f (heap_ s)) s).
Proof. intros Hf. by apply balancer_ok_heap, same_ids_store. Qed.

Lemma reset_all s s' ps :
  iterM (fun p => update_server p Server_reset) ps s = Ok tt s' ->
  balancer_ok s -> balancer_ok s' /\ servers_ s' = servers_ s.
Proof.
  revert s. induction ps as [|p ps IH]; intros s; cbn [iterM]; [by intros [= <-]|].
  intros (u & s1 & [= _ <-] & E)%bind_inv_Ok Hs.
  by apply (IH _ E), balancer_ok_store.
Qed.

Lemma add_ok s p s' : balancer_ok s -> addServer p s = Ok tt s' -> balancer_ok s'.
Proof.
  intros [Hr Hp] E. unfold addServer in E.
  change (onServerAdded p (set_server_map (<[id_of s p := p]> (server_map_ s))
            (set_servers (servers_ s ++ [p]) s)) = Ok tt s') in E.
  assert (Hin : p ∈ servers_ s ++ [p]) by set_solver.
  destruct ((fun H1 H2 => added_law p _ _ _ H1 H2 E) Hin (inv_push _ _ _ Hp)) as [Hf Hi].
  split; [|done]. eapply registry_ok_frame; [exact Hf|]. by apply registry_ok_add.
Qed.

Lemma remove_ok s id b s' : balancer_ok s -> removeServer id s = Ok b s' -> balancer_ok s'.
Proof.
  intros [Hr Hp] E. unfold removeServer in E.
  change ((match server_map_ s !! id with
           | None => mret false
           | Some p => modify (fun s => set_servers (filter (fun q => id_of s q <> id) (servers_ s)) s) ;;
               onServerRemoved p ;;
               modify (fun s => set_server_map (delete id (server_map_ s)) s) ;; mret true
           end) s = Ok b s') in E.
  destruct (server_map_ s !! id) as [p|] eqn:Em; [|by inv E].
  destruct (proj1 Hr _ _ Em) as [_ Hid].
  apply bind_inv_Ok in E as (u & s1 & [= _ <-] & E).
  apply bind_inv_Ok in E as (u' & s2 & E & [= _ <-]).
  rewrite <-Hid in E. destruct (removed_law p s _ _ Hp E) as [(Hh&Hs&Hm) Hi].
  split; [|done]. rewrite Hid in Hs, Hh, Hm.
  eapply registry_ok_ids, (registry_ok_remove s id Hr); cbn; rewrite ?Hh, ?Hs, ?Hm; done.
Qed.

Lemma mark_ok s id f s' :
  (forall x, server_id_ (f x) = server_id_ x) -> balancer_ok s ->
  (it ← gets (fun s => server_map_ s !! id);
   match it with None => mret tt | Some p => update_server p f end) s = Ok tt s' -> balancer_ok s'.
Proof.
  intros Hf Hs. unfold mbind, cpp_bind, gets. destruct (server_map_ s !! id); intros [= <-]; [|done].
  by apply balancer_ok_store.
Qed.

Lemma select_ok s d key r s' :
  balancer_ok s -> selectServer d key s = Ok r s' -> balancer_ok s' /\ selection_ok s r s'.
Proof.
  intros [Hr Hp] E. destruct (select_law _ _ _ _ _ Hp E) as [Hsel Hi]. split; [|done].
  split; [|done]. destruct Hsel as (Hs&Hm&Hh). eapply registry_ok_ids, Hr; [done..|].
  destruct r as [p|]; [destruct Hh as [_ ->]; by apply same_ids_store|by rewrite Hh].
Qed.

Lemma perform_ok o s s' : balancer_ok s -> perform o s = Ok tt s' -> balancer_ok s'.
Proof.
  destruct o; cbn [perform]; intros Hs E.
  - by eapply add_ok.
  - apply bind_inv_Ok in E as (b & s1 & E & [= <-]). by eapply remove_ok.
  - by apply (mark_ok s id (setAlive now false) s').
  - by apply (mark_ok s id (setAlive now true) s').
  - unfold reset in E.
    apply bind_inv_Ok in E as (ps & s1 & [= <- <-] & E).
    apply bind_inv_Ok in E as ([] & s2 & E1 & E).
    destruct (reset_all _ _ _ E1 Hs) as [[Hr Hp] _].
    destruct (reset_law _ _ _ Hp E) as [Hf Hi]. split; [|done]. by eapply registry_ok_frame.
  - apply bind_inv_Ok in E as (r & s1 & E & [= <-]). by eapply select_ok.
  - injection E as <-. apply balancer_ok_store, Hs. apply removeConnection_id.
  - injection E as <-. by apply balancer_ok_store.
  - injection E as <-. by apply balancer_ok_store.
Qed.

Lemma run_ok ops s s' : balancer_ok s -> iterM perform ops s = Ok tt s' -> balancer_ok s'.
Proof.
  revert s. induction ops as [|o ops IH]; intros s Hs; cbn [iterM]; [by intros [= <-]|].
  intros (u & s1 & E1 & E2)%bind_inv_Ok. destruct u. eauto using perform_ok.
Qed.
End lawful.

(** ** The policies discharge the interface *)

Lemma available_subseteq {X} (s : LoadBalancer X) p : p ∈ available s -> p ∈ servers_ s.
Proof. unfold available. by intros [_ Hp]%list_elem_of_filter. Qed.

Lemma available_alive {X} (s : LoadBalancer X) p :
  p ∈ available s <-> p ∈ servers_ s /\ alive s p = true.
Proof. unfold available. rewrite list_elem_of_filter. tauto. Qed.

Lemma available_frame {X} (s s' : LoadBalancer X) : frame s s' -> available s' = available s.
Proof. intros (Hh&Hs&_). unfold available, alive. by rewrite Hs, Hh. Qed.

(** A selection that first changes the members of the policy. *)
Lemma take_server_after {X} (s s1 : LoadBalancer X) p r s' :
  frame s s1 -> p ∈ available s -> take_server p s1 = Ok r s' -> selection_ok s r s'.
Proof.
  intros Hf Hp E. rewrite <-(available_frame s s1 Hf) in Hp.
  destruct (take_server_ok _ _ _ _ Hp E) as [(H1&H2&H3) _].
  rewrite (available_frame s s1 Hf) in Hp. destruct Hf as (Hh&Hs&Hm).
  injection E as <- <-. cbn in *. unfold selection_ok. cbn. by rewrite Hs, Hm, Hh.
Qed.

#[global] Program Instance RoundRobin_lawful : LawfulPolicy RoundRobin := {
  policy_inv _ _ := True;
}.
Next Obligation. done. Qed.
Next Obligation. cbn. intros p s u s' _ _ [= _ <-]. done. Qed.
Next Obligation.
  cbn -[set_servers]. intros p s u s' _ [= _ <-]. case_bool_decide; done.
Qed.
Next Obligation. cbn. intros s u s' _ [= _ <-]. done. Qed.
Next Obligation.
  intros d key s r s' _ E. split; [|done]. cbn in E. unfold mbind, cpp_bind, gets in E.
  destruct (available s) as [|q av] eqn:Eav; [by injection E as <- <-|]. rewrite <-Eav in E.
  cbn in E. destruct (_ !! _) as [p|] eqn:Ep in E; [|done].
  eapply take_server_after, E; [done|]. by eapply list_elem_of_lookup_2.
Qed.

(** The loop over the weights keeps the servers and the best candidate so far. *)
Lemma int_add_inv {S} a b (s : S) c s' : int_add a b s = Ok c s' -> c = a + b /\ s' = s.
Proof. unfold int_add. case_bool_decide; [by intros [= <- <-]|done]. Qed.

Lemma gcd_loop_inv {S} fuel a b (s : S) c s' : gcd_loop fuel a b s = Ok c s' -> s' = s.
Proof.
  revert a b. induction fuel as [|fuel IH]; intros a b; cbn.
  - by destruct (b =? 0); intros [= _ <-].
  - destruct (b =? 0); [by intros [= _ <-]|]. destruct (_ && _); [done|]. apply IH.
Qed.

Lemma gcd_inv {S} a b (s : S) c s' : gcd a b s = Ok c s' -> s' = s.
Proof. apply gcd_loop_inv. Qed.
#[local] Opaque gcd.

Lemma visit_weight_frame p s u s' : visit_weight p s = Ok u s' -> frame s s'.
Proof.
  unfold visit_weight. intros (t & s0 & [= <- <-] & E)%bind_inv_Ok.
  apply bind_inv_Ok in E as (g & s1 & E1 & [= _ <-]).
  apply gcd_inv in E1 as ->. done.
Qed.

Lemma iterM_frame {X A} (body : A -> cpp (LoadBalancer X) unit) l s u s' :
  (forall x s u s', x ∈ l -> body x s = Ok u s' -> frame s s') ->
  iterM body l s = Ok u s' -> frame s s'.
Proof.
  intros Hb. revert s Hb. induction l as [|x l IH]; intros s Hb; cbn [iterM].
  - intros [= _ <-]. done.
  - intros (v & s1 & E1 & E2)%bind_inv_Ok. eapply frame_trans; [eapply Hb, E1; by left|].
    eapply IH, E2. intros y t w t' Hy. apply Hb. by right.
Qed.

Lemma updateWeightInfo_frame s u s' : updateWeightInfo s = Ok u s' -> frame s s'.
Proof.
  unfold updateWeightInfo. intros (t & s0 & [= <- <-] & E)%bind_inv_Ok.
  destruct (servers_ s) as [|p ps]; [injection E as _ <-; done|].
  apply bind_inv_Ok in E as (v & s1 & [= _ <-] & E).
  apply iterM_frame in E; [|eauto using visit_weight_frame].
  eapply frame_trans, E. done.
Qed.

Lemma wrr_visit_frame acc p s acc' s' :
  wrr_visit acc p s = Ok acc' s' ->
  frame s s' /\ (forall q m, acc'.2 = Some (q, m) -> q = p \/ exists m', acc.2 = Some (q, m')).
Proof.
  unfold wrr_visit. intros (t & s0 & [= <- <-] & E)%bind_inv_Ok.
  apply bind_inv_Ok in E as (total & s1 & [-> ->]%int_add_inv & E).
  apply bind_inv_Ok in E as (cur & s2 & [-> ->]%int_add_inv & E).
  injection E as <- <-. split; [done|]. cbn. intros q m.
  destruct acc as [tot [[q' m']|]]; cbn; [|naive_solver].
  destruct (_ <? _); naive_solver.
Qed.

Lemma wrr_loop_frame ps acc s acc' s' :
  wrr_loop ps acc s = Ok acc' s' ->
  frame s s' /\ (forall q m, acc'.2 = Some (q, m) -> q ∈ ps \/ exists m', acc.2 = Some (q, m')).
Proof.
  revert acc s. induction ps as [|p ps IH]; intros acc s; cbn [wrr_loop].
  - intros [= <- <-]. split; [done|]. eauto.
  - intros (acc1 & s1 & E1 & E2)%bind_inv_Ok.
    destruct (wrr_visit_frame _ _ _ _ _ E1) as [F1 H1].
    destruct (IH _ _ E2) as [F2 H2]. split; [by eapply frame_trans|].
    intros q m [Hq|[m' Hq]]%H2; [left; by right|].
    apply H1 in Hq as [->|?]; [left; by left|by right].
Qed.

Lemma smooth_select_ok s r s' :
  smoothWeightedRoundRobin (available s) s = Ok r s' -> selection_ok s r s'.
Proof.
  unfold smoothWeightedRoundRobin. intros (acc & s1 & E1 & E)%bind_inv_Ok.
  destruct (wrr_loop_frame _ _ _ _ _ E1) as [F1 H1].
  destruct (acc.2) as [[p m]|].
  - apply bind_inv_Ok in E as (t & s0 & [= <- <-] & E).
    apply bind_inv_Ok in E as (rest & s2 & [-> ->]%int_add_inv & E).
    apply bind_inv_Ok in E as (u & s3 & [= _ <-] & E).
    eapply take_server_after, E; [eapply frame_trans; [exact F1|done]|].
    destruct (H1 p m eq_refl) as [?|[? [=]]]; done.
  - injection E as <- <-. destruct F1 as (Hh&Hs&Hm). done.
Qed.

#[global] Program Instance WeightedRoundRobin_lawful : LawfulPolicy WeightedRoundRobin := {
  policy_inv _ _ := True;
}.
Next Obligation. done. Qed.
Next Obligation.
  intros p s u s' _ _ (v & s1 & E & [= _ <-])%bind_inv_Ok. split; [|done].
  eapply frame_trans; [by eapply updateWeightInfo_frame|done].
Qed.
Next Obligation.
  intros p s u s' _ s1 (v & s2 & [= _ <-] & E)%bind_inv_Ok. split; [|done].
  apply updateWeightInfo_frame in E. eapply frame_trans, E. done.
Qed.
Next Obligation. cbn. intros s u s' _ [= _ <-]. done. Qed.
Next Obligation.
  intros d key s r s' _ E. split; [|done]. cbn in E. unfold mbind, cpp_bind, gets in E.
  apply smooth_select_ok. destruct (available s) eqn:Eav; [by injection E as <- <-|done].
Qed.

Lemma pick_elem d l p : pick d l = Some p -> p ∈ l.
Proof.
  destruct l as [|a [|b l]]; [done| |].
  - intros [= <-]. by left.
  - apply list_elem_of_lookup_2.
Qed.

#[global] Program Instance LeastConnections_lawful : LawfulPolicy LeastConnections := {
  policy_inv _ _ := True;
}.
Next Obligation. done. Qed.
Next Obligation. cbn. intros p s u s' _ _ [= _ <-]. done. Qed.
Next Obligation. cbn -[set_servers]. intros p s u s' _ [= _ <-]. done. Qed.
Next Obligation. cbn. intros s u s' _ [= _ <-]. done. Qed.
Next Obligation.
  intros d key s r s' _ E. split; [|done]. cbn in E. unfold mbind, cpp_bind, gets in E.
  destruct (available s) as [|q av] eqn:Eav; [by injection E as <- <-|]. rewrite <-Eav in E.
  destruct (pick _ _) as [p|] eqn:Ep in E; [|by injection E as <- <-].
  eapply take_server_after, E; [done|].
  apply pick_elem in Ep. by apply list_elem_of_filter in Ep as [_ Ep].
Qed.

(** Every node of the ring belongs to a registered server. *)
Definition ring_inv (ps : list ptr) (x : ConsistentHash) : Prop :=
  forall k p, hash_ring_ x !! k = Some p -> p ∈ ps.

Lemma ring_inv_empty ps vn : ring_inv ps (mkConsistentHash vn ∅).
Proof. intros k p. cbn. by intros Hk%lookup_empty_Some. Qed.

Lemma iterM_keeps {S A} (I : S -> Prop) (body : A -> cpp S unit) l s u s' :
  (forall x s u s', x ∈ l -> I s -> body x s = Ok u s' -> I s') ->
  I s -> iterM body l s = Ok u s' -> I s'.
Proof.
  revert s. induction l as [|x l IH]; intros s Hb Hs; cbn [iterM]; [by intros [= _ <-]|].
  intros (v & s1 & E1 & E2)%bind_inv_Ok. eapply IH, E2.
  - intros y t w t' Hy. apply Hb. by right.
  - eapply Hb, E1; [by left|done].
Qed.

Lemma addServerToHashRing_keeps p s u s' :
  p ∈ servers_ s -> ring_inv (servers_ s) (ext s) -> addServerToHashRing p s = Ok u s' ->
  frame s s' /\ ring_inv (servers_ s') (ext s').
Proof.
  unfold addServerToHashRing. intros Hp Hi (t & s0 & [= <- <-] & E)%bind_inv_Ok.
  case_bool_decide; [|done].
  eapply (iterM_keeps (fun s' => frame s s' /\ ring_inv (servers_ s') (ext s'))), E; [|done].
  intros i s1 v s2 _ [F1 I1] [= _ <-]. split; [by eapply frame_trans|].
  intros k q. cbn. intros [[_ <-]|[_ Hq]]%lookup_insert_Some; [|by eapply I1].
  by rewrite (proj1 (proj2 F1)).
Qed.

Lemma rebuildHashRing_keeps s u s' :
  rebuildHashRing s = Ok u s' -> frame s s' /\ ring_inv (servers_ s') (ext s').
Proof.
  unfold rebuildHashRing. intros (t & s0 & [= _ <-] & E)%bind_inv_Ok.
  apply bind_inv_Ok in E as (ps & s1 & [= <- <-] & E). cbn in E.
  eapply (iterM_keeps (fun s' => frame s s' /\ ring_inv (servers_ s') (ext s'))), E.
  - intros p s1 v s2 Hp [F1 I1] E1.
    apply addServerToHashRing_keeps in E1 as [F2 I2]; [|by rewrite (proj1 (proj2 F1))|done].
    split; [by eapply frame_trans|done].
  - split; [done|]. apply ring_inv_empty.
Qed.

Lemma ring_walk_elem ring h p : p ∈ ring_walk ring h <-> exists k, ring !! k = Some p.
Proof.
  unfold ring_walk. rewrite list_elem_of_fmap. setoid_rewrite elem_of_app.
  setoid_rewrite list_elem_of_filter. split.
  - intros ([k q] & -> & [[_ Hk]|[_ Hk]]); exists k; by apply elem_of_map_ordered in Hk.
  - intros [k Hk%(elem_of_map_ordered Z.le)]. exists (k, p). split; [done|]. cbn.
    destruct (decide (h <= k)); [left|right]; (split; [lia|done]).
Qed.

#[global] Program Instance ConsistentHash_lawful : LawfulPolicy ConsistentHash := {
  policy_inv := ring_inv;
}.
Next Obligation. intros ps p x Hi k q Hq. apply elem_of_app. left. by eapply Hi. Qed.
Next Obligation. exact addServerToHashRing_keeps. Qed.
Next Obligation.
  intros p s u s' Hi s1 [= _ <-]. split; [done|]. intros k q. cbn.
  rewrite map_lookup_filter_Some. intros [Hk Hid]. apply list_elem_of_filter.
  split; [done|]. by eapply Hi.
Qed.
Next Obligation.
  intros s u s' _ (v & s1 & [= _ <-] & E)%bind_inv_Ok.
  apply rebuildHashRing_keeps in E as [F I]. split; [|done]. by eapply frame_trans.
Qed.
Next Obligation.
  intros d key s r s' Hi (t & s0 & [= <- <-] & E)%bind_inv_Ok.
  destruct (_ || _); [by injection E as <- <-|]. cbv zeta in E.
  destruct (select_on_ring _ _ _) as [p|] eqn:Ep in E; [|by injection E as <- <-].
  apply find_first_Some in Ep as [[k Hk]%ring_walk_elem Ha].
  apply take_server_ok in E as [Hsel He]; [|apply available_alive; split; [by eapply Hi|done]].
  split; [done|]. rewrite He. destruct Hsel as (-> & _). done.
Qed.

(** ** The registry is sound *)


Definition sample_store (p : ptr) : Server :=
  Server_new 0 ("s" +:+ to_string (Z.of_nat p)) "10.0.0.1:80" 1.

Definition sample_ops : list Op :=
  [OpAdd 1; OpAdd 2; OpDown 5 "s1"; OpRemove "s7"; OpWeight 2 3]%nat%string.

Definition sample_ring : result (LoadBalancer ConsistentHash) unit :=
  iterM perform sample_ops (LoadBalancer_new sample_store (ConsistentHash_new 2)).

Definition sample_selection : option ptr :=
  match sample_ring with
  | Ok _ s => match selectServer (mkDraw 0 0 0) "user" s with Ok r _ => r | _ => None end
  | _ => None
  end.

