(* ===== verification/BalancerProps.v ===== *)
(** * BalancerProps: fairness of the balancing policies

    Round robin serves the available servers in turn, least connections keeps their
    load within one connection of each other, and smooth weighted round robin gives
    each exactly its weight over every period, without overflow. *)

From S2P Require Import Prelude Text Balancer BalancerSpec.

Local Open Scope Z_scope.

(** ** Sequences of selections *)

Section selects.
Context {X : Type} `{!Policy X}.

Fixpoint selects (reqs : list (Draw * string)) : cpp (LoadBalancer X) (list (option ptr)) :=
  match reqs with
  | [] => mret []
  | (d, key) :: reqs' => r ← selectServer d key; rs ← selects reqs'; mret (r :: rs)
  end.

(** An invariant over the answers given so far. *)
Lemma returns_selects (I : list (option ptr) -> LoadBalancer X -> Prop) reqs :
  (forall rs s d key, (length rs < length reqs)%nat -> I rs s ->
     returns (selectServer d key) s (fun r s' => I (rs ++ [r]) s')) ->
  forall s, I [] s -> returns (selects reqs) s (fun rs s' => length rs = length reqs /\ I rs s').
Proof.
  intros Hstep s HI.
  cut (forall todo pre s, length reqs = (length pre + length todo)%nat -> I pre s ->
         returns (selects todo) s (fun rs s' => length rs = length todo /\ I (pre ++ rs) s')).
  { intros H. by apply (H reqs [] s). }
  clear s HI. induction todo as [|[d key] todo IH]; intros pre s Hlen HI; cbn [selects].
  - apply returns_ret. by rewrite app_nil_r.
  - cbn in Hlen. apply returns_bind. eapply returns_mono; [apply Hstep, HI; lia|].
    intros r s1 H1. apply returns_bind. eapply returns_mono; [apply (IH (pre ++ [r])), H1|].
    + rewrite length_app. cbn. lia.
    + intros rs s2 [Hl H2]. apply returns_ret. rewrite <-app_assoc in H2. cbn. auto.
Qed.
End selects.

Lemma store_alive p h q : is_alive_ (store p addConnection h q) = is_alive_ (h q).
Proof. unfold store. by destruct (Nat.eqb q p). Qed.
Lemma store_weight p h q : weight_ (store p addConnection h q) = weight_ (h q).
Proof. unfold store. by destruct (Nat.eqb q p). Qed.
Lemma store_id p h q : server_id_ (store p addConnection h q) = server_id_ (h q).
Proof. unfold store. by destruct (Nat.eqb q p). Qed.

(** Counting a connection changes neither who is available nor any weight. *)
Lemma available_store {X} (s : LoadBalancer X) p x :
  available (set_ext x (set_heap (store p addConnection (heap_ s)) s)) = available s.
Proof.
  unfold available, alive. cbn. apply list_filter_iff. intros q. by rewrite store_alive.
Qed.

Lemma take_server_returns {X} p (s : LoadBalancer X) (Q : option ptr -> LoadBalancer X -> Prop) :
  Q (Some p) (set_heap (store p addConnection (heap_ s)) s) -> returns (take_server p) s Q.
Proof. intros HQ. by eexists _, _. Qed.

(** ** Round robin *)

Lemma lookup_concat_replicate {A} (l : list A) k t :
  l <> [] -> (t < k * length l)%nat ->
  concat (replicate k l) !! t = l !! (t mod length l)%nat.
Proof.
  intros Hl. assert (length l <> 0)%nat by (destruct l; cbn; congruence).
  revert t. induction k as [|k IH]; intros t Ht; [lia|]. cbn [replicate concat].
  destruct (decide (t < length l)%nat) as [Hlt|Hge].
  - rewrite lookup_app_l by done. by rewrite Nat.mod_small.
  - rewrite lookup_app_r by lia. rewrite IH by lia. f_equal.
    replace t with (t - length l + 1 * length l)%nat at 2 by lia. by rewrite Nat.Div0.mod_add.
Qed.

Definition rr_pick (av : list ptr) (i : Z) : option ptr :=
  av !! Z.to_nat (i `mod` Z.of_nat (length av)).

Lemma round_robin_step s d key :
  available s <> [] -> 0 <= current_index_ (ext s) ->
  returns (selectServer (X := RoundRobin) d key) s (fun r s' =>
    r = rr_pick (available s) (current_index_ (ext s)) /\ available s' = available s /\
    current_index_ (ext s') = wrap64 (current_index_ (ext s) + 1)).
Proof.
  intros Hav Hi. cbn. apply returns_bind, returns_gets.
  destruct (available s) as [|q av'] eqn:Eav; [done|]. rewrite <-Eav in *.
  apply returns_bind, returns_gets. apply returns_bind, returns_modify.
  unfold rr_pick. set (n := Z.of_nat (length (available s))).
  assert (0 < n) by (unfold n; rewrite Eav; cbn; lia).
  pose proof (Z.mod_pos_bound (current_index_ (ext s)) n ltac:(lia)).
  destruct (lookup_lt_is_Some_2 (available s) (Z.to_nat (current_index_ (ext s) `mod` n))) as [p Hp];
    [unfold n in *; lia|].
  rewrite Hp. apply take_server_returns. split_and!; [done| |done].
  by rewrite <-(available_store s p (mkRoundRobin (wrap64 (current_index_ (ext s) + 1)))).
Qed.

Lemma round_robin_run s reqs :
  available s <> [] -> 0 <= current_index_ (ext s) ->
  current_index_ (ext s) + Z.of_nat (length reqs) < 2 ^ 64 ->
  returns (selects (X := RoundRobin) reqs) s (fun rs s' => length rs = length reqs /\
    forall t, (t < length rs)%nat ->
      rs !! t = Some (rr_pick (available s) (current_index_ (ext s) + Z.of_nat t))).
Proof.
  intros Hav Hi Hb.
  eapply returns_mono; [apply (returns_selects (fun rs s' =>
    available s' = available s /\
    current_index_ (ext s') = current_index_ (ext s) + Z.of_nat (length rs) /\
    forall t, (t < length rs)%nat ->
      rs !! t = Some (rr_pick (available s) (current_index_ (ext s) + Z.of_nat t))))|naive_solver].
  - intros rs s1 d key Hlen (Ha & Hc & Hrs).
    eapply returns_mono; [apply round_robin_step; [by rewrite Ha|lia]|].
    intros r s2 (-> & Ha2 & Hc2). rewrite Ha, Hc in *. split_and!; [done| |].
    + rewrite Hc2, length_app, wrap64_small; cbn; lia.
    + intros t. rewrite length_app. cbn. intros Ht.
      destruct (decide (t < length rs)%nat); [rewrite lookup_app_l by done; auto|].
      rewrite lookup_app_r by lia. replace t with (length rs) by lia.
      by rewrite Nat.sub_diag.
  - split_and!; cbn; [done|lia|lia].
Qed.

(** Round robin is a rotation: over [k] full turns, starting at any index that
    does not reach 2^64, the answers are [k] times the list of available servers,
    rotated by the index, so that each is selected exactly [k] times, in order. *)
Theorem round_robin_cyclic s reqs k :
  available s <> [] -> 0 <= current_index_ (ext s) ->
  current_index_ (ext s) + Z.of_nat (length reqs) < 2 ^ 64 ->
  length reqs = (k * length (available s))%nat ->
  returns (selects (X := RoundRobin) reqs) s (fun rs _ =>
    rs = Some <$> concat (replicate k (rotate (Z.to_nat (current_index_ (ext s))) (available s)))).
Proof.
  intros Hav Hi Hb Hk. eapply returns_mono; [by apply round_robin_run|].
  intros rs s' [Hlen Hrs]. set (av := available s) in *. set (i := current_index_ (ext s)) in *.
  assert (length av <> 0)%nat by (destruct av; cbn; congruence).
  assert (Hrot : length (rotate (Z.to_nat i) av) = length av) by apply length_rotate.
  assert (Hnil : rotate (Z.to_nat i) av <> []) by (intros E; rewrite E in Hrot; cbn in Hrot; lia).
  apply list_eq_same_length with (n := length reqs); [|done|].
  - rewrite length_fmap, length_concat, fmap_replicate, sum_list_replicate, Hrot. lia.
  - intros t x y Ht Hx Hy. rewrite Hrs in Hx by lia. injection Hx as <-.
    rewrite list_lookup_fmap, lookup_concat_replicate in Hy by (done || lia).
    rewrite Hrot, lookup_rotate_r in Hy by (apply Nat.mod_upper_bound; lia).
    unfold rotate_nat_add in Hy. unfold rr_pick.
    destruct (av !! _) as [p|] eqn:Ep in Hy; [|done]. injection Hy as <-.
    rewrite <-Ep. f_equal. f_equal.
    rewrite Nat2Z.inj_mod, Z.add_mod_idemp_r by lia. by rewrite Z2Nat.id.
Qed.

(** Three servers, one of them down. *)
Definition three_servers {X} (x : X) : LoadBalancer X :=
  mkLB (store 2 (setAlive 0 false) sample_store) [1; 2; 3]%nat ∅ x.

Lemma round_robin_cyclic_witness :
  returns (selects [(mkDraw 0 0 0, "a"); (mkDraw 0 0 0, "b"); (mkDraw 0 0 0, "c"); (mkDraw 0 0 0, "d")]%string)
    (three_servers (mkRoundRobin 5)) (fun rs _ => rs = [Some 3; Some 1; Some 3; Some 1]%nat).
Proof. apply (round_robin_cyclic (three_servers (mkRoundRobin 5)) _ 2); done. Defined.

(** ** Least connections *)

Definition conns {X} (s : LoadBalancer X) (p : ptr) : Z := current_connections_ (heap_ s p).

Lemma min_connections_spec h ps :
  (forall p, p ∈ ps -> current_connections_ (h p) <= INT_MAX) -> ps <> [] ->
  (forall p, p ∈ ps -> min_connections h ps <= current_connections_ (h p)) /\
  exists p, p ∈ ps /\ current_connections_ (h p) = min_connections h ps.
Proof.
  unfold min_connections. intros Hb Hne.
  induction ps as [|p ps IH] using rev_ind; [done|]. rewrite foldl_snoc.
  destruct (decide (ps = [])) as [->|Hps].
  - cbn. specialize (Hb p ltac:(set_solver)). destruct (Z.ltb_spec (current_connections_ (h p)) INT_MAX).
    + split; [intros q ->%list_elem_of_singleton; lia|exists p; set_solver].
    + split; [intros q ->%list_elem_of_singleton; lia|exists p; split; [set_solver|lia]].
  - destruct IH as [Hle (q & Hq & Eq)]; [set_solver|done|].
    set (m := foldl _ _ ps) in *. destruct (Z.ltb_spec (current_connections_ (h p)) m).
    + split; [|exists p; set_solver].
      intros r [Hr| ->%list_elem_of_singleton]%elem_of_app; [specialize (Hle r Hr); lia|lia].
    + split; [|exists q; set_solver].
      intros r [Hr| ->%list_elem_of_singleton]%elem_of_app; [auto|lia].
Qed.

Lemma elem_not_nil {A} (x : A) l : x ∈ l -> l <> [].
Proof. intros Hx ->. by apply not_elem_of_nil in Hx. Qed.

Lemma pick_total d l : l <> [] -> exists p, pick d l = Some p.
Proof.
  destruct l as [|a [|b l]]; [done|by exists a|]. intros _.
  apply lookup_lt_is_Some_2. apply Nat.mod_upper_bound. done.
Qed.

Lemma least_connections_step s d key :
  available s <> [] -> (forall p, p ∈ available s -> conns s p <= INT_MAX) ->
  returns (selectServer (X := LeastConnections) d key) s (fun r s' => exists p, r = Some p /\
    p ∈ available s /\ (forall q, q ∈ available s -> conns s p <= conns s q) /\
    s' = set_heap (store p addConnection (heap_ s)) s).
Proof.
  intros Hav Hb. cbn. apply returns_bind, returns_gets.
  destruct (available s) as [|q av'] eqn:Eav; [done|]. rewrite <-Eav in *.
  apply returns_bind, returns_gets.
  destruct (min_connections_spec (heap_ s) (available s) Hb Hav) as [Hle (p0 & Hp0 & E0)].
  set (m := min_connections _ _) in *.
  destruct (pick_total (draw_index d)
    (filter (fun p => current_connections_ (heap_ s p) = m) (available s))) as [p Hp].
  { apply (elem_not_nil p0), list_elem_of_filter. done. }
  rewrite Hp. apply pick_elem, list_elem_of_filter in Hp as [Em Hp].
  apply take_server_returns. exists p. split_and!; [done|done| |done].
  intros r Hr. unfold conns. rewrite Em. auto.
Qed.

Lemma conns_store {X} (s : LoadBalancer X) p q :
  0 <= conns s p -> conns s p + 1 <= INT_MAX ->
  conns (set_heap (store p addConnection (heap_ s)) s) q = conns s q + (if Nat.eqb q p then 1 else 0).
Proof.
  intros H0 H1. unfold conns, store in *. cbn. destruct (Nat.eqb_spec q p) as [->|]; [|lia].
  cbn. apply to_int_small. unfold is_int, INT_MIN. lia.
Qed.

(** No two available servers differ by more than one connection. *)
Definition balanced {X} (s : LoadBalancer X) : Prop :=
  forall p q, p ∈ available s -> q ∈ available s -> conns s p <= conns s q + 1.

(** Least connections is optimal and keeps the load balanced: every selection
    returns a server with the fewest connections among the available ones (ties are
    broken by an arbitrary draw), and selections alone never let two available
    servers differ by more than one connection when they did not before. *)
Theorem least_connections_balanced s reqs :
  available s <> [] -> balanced s ->
  (forall p, p ∈ available s -> 0 <= conns s p /\ conns s p + Z.of_nat (length reqs) < INT_MAX) ->
  returns (selects (X := LeastConnections) reqs) s (fun rs s' =>
    length rs = length reqs /\ balanced s' /\ available s' = available s /\
    (forall r, r ∈ rs -> exists p, r = Some p /\ p ∈ available s) /\
    forall d key, returns (selectServer (X := LeastConnections) d key) s' (fun r s'' =>
      exists p, r = Some p /\ p ∈ available s /\
        (forall q, q ∈ available s -> conns s' p <= conns s' q) /\
        s'' = set_heap (store p addConnection (heap_ s')) s')).
Proof.
  intros Hav Hbal Hb.
  eapply returns_mono; [apply (returns_selects (fun rs s' =>
    balanced s' /\ available s' = available s /\
    (forall r, r ∈ rs -> exists p, r = Some p /\ p ∈ available s) /\
    forall p, p ∈ available s -> 0 <= conns s' p <= conns s p + Z.of_nat (length rs)))|].
  - intros rs s1 d key Hlen (B1 & A1 & R1 & C1).
    eapply returns_mono; [apply least_connections_step; rewrite ?A1|].
    { done. }
    { intros p Hp. specialize (C1 p Hp). specialize (Hb p Hp). lia. }
    intros r s2 (p & -> & Hp & Hmin & ->). rewrite A1 in *.
    assert (Hs : forall q, conns (set_heap (store p addConnection (heap_ s1)) s1) q
                   = conns s1 q + (if Nat.eqb q p then 1 else 0)).
    { intros q. specialize (C1 p Hp). specialize (Hb p Hp). apply conns_store; lia. }
    assert (Ha : available (set_heap (store p addConnection (heap_ s1)) s1) = available s)
      by (rewrite <-A1; apply (available_store s1 p (ext s1))).
    split_and!; [|done| |].
    + intros q1 q2. rewrite Ha, !Hs. intros H1 H2. specialize (B1 q1 q2). rewrite A1 in B1.
      specialize (B1 H1 H2). specialize (Hmin q2 H2).
      destruct (Nat.eqb_spec q1 p) as [->|], (Nat.eqb_spec q2 p) as [->|]; lia.
    + intros r [Hr| ->%list_elem_of_singleton]%elem_of_app; eauto.
    + intros q Hq. rewrite Hs, length_app. specialize (C1 q Hq). cbn. destruct (Nat.eqb q p); lia.
  - split_and!; [done..| |]; [by intros r Hr%not_elem_of_nil|].
    intros p Hp. specialize (Hb p Hp). cbn. lia.
  - intros rs s' (Hlen & B1 & A1 & R1 & C1). split_and!; [done..|].
    intros d key. rewrite <-A1. apply least_connections_step; rewrite ?A1; [done|].
    intros p Hp. specialize (C1 p Hp). specialize (Hb p Hp). lia.
Qed.

Lemma least_connections_balanced_witness :
  returns (selects [(mkDraw 7 0 0, "a"); (mkDraw 8 0 0, "b"); (mkDraw 0 0 0, "c")]%string)
    (three_servers mkLeastConnections) (fun rs s' => length rs = 3%nat /\ balanced s').
Proof.
  eapply returns_mono; [apply least_connections_balanced|].
  - done.
  - intros p q Hp Hq.
    change (available (three_servers mkLeastConnections)) with [1; 3]%nat in *.
    apply list_elem_of_In in Hp as [<-|[<-|[]]]; apply list_elem_of_In in Hq as [<-|[<-|[]]]; done.
  - intros p Hp. change (available (three_servers mkLeastConnections)) with [1; 3]%nat in *.
    apply list_elem_of_In in Hp as [<-|[<-|[]]]; done.
  - cbn beta. intros rs s' (H1 & H2 & _). exact (conj H1 H2).
Defined.
