(* ===== verification/WrrProps.v ===== *)
(** * WrrProps: exact fairness of smooth weighted round robin

    The current weight of a server after [t] selections is [t * w - W * n], where
    [n] of them chose it, [w] is its weight and [W] the total; it never reaches
    [-W], which makes the policy exactly fair over every [W] selections and bounds
    every intermediate value. *)

From S2P Require Import Prelude Text Balancer BalancerSpec BalancerProps.

Local Open Scope Z_scope.

(** ** Sums over lists *)

Definition zsum {A} (f : A -> Z) (l : list A) : Z := foldr (fun x a => f x + a) 0 l.

Section zsum.
Context {A : Type}.
Implicit Types (f g : A -> Z) (l : list A).

Lemma zsum_app f l1 l2 : zsum f (l1 ++ l2) = zsum f l1 + zsum f l2.
Proof. induction l1 as [|x l1 IH]; cbn; [done|]. fold (zsum f (l1 ++ l2)) (zsum f l1). lia. Qed.

Lemma zsum_ext f g l : (forall x, x ∈ l -> f x = g x) -> zsum f l = zsum g l.
Proof.
  induction l as [|x l IH]; intros H; cbn; [done|]. fold (zsum f l) (zsum g l).
  rewrite IH by (intros y Hy; apply H; by right). rewrite (H x); [done|by left].
Qed.

Lemma zsum_linear a b f g l : zsum (fun x => a * f x - b * g x) l = a * zsum f l - b * zsum g l.
Proof. unfold zsum. induction l as [|x l IH]; cbn; lia. Qed.

Lemma zsum_plus f g l : zsum (fun x => f x + g x) l = zsum f l + zsum g l.
Proof. unfold zsum. induction l as [|x l IH]; cbn; lia. Qed.

Lemma zsum_upper f b l : (forall x, x ∈ l -> f x <= b) -> zsum f l <= Z.of_nat (length l) * b.
Proof.
  induction l as [|x l IH]; intros H; cbn [zsum foldr length]; [lia|]. fold (zsum f l).
  specialize (IH ltac:(intros y Hy; apply H; by right)). specialize (H x ltac:(by left)). lia.
Qed.

Lemma zsum_lower f b l : (forall x, x ∈ l -> b <= f x) -> Z.of_nat (length l) * b <= zsum f l.
Proof.
  induction l as [|x l IH]; intros H; cbn [zsum foldr length]; [lia|]. fold (zsum f l).
  specialize (IH ltac:(intros y Hy; apply H; by right)). specialize (H x ltac:(by left)). lia.
Qed.

(** One term is the sum less a bound for each other term. *)
Lemma zsum_term f b l x :
  (forall y, y ∈ l -> b <= f y) -> x ∈ l -> f x + (Z.of_nat (length l) - 1) * b <= zsum f l.
Proof.
  intros H (l1 & l2 & ->)%list_elem_of_split.
  pose proof (zsum_lower f b l1 ltac:(intros; apply H; set_solver)).
  pose proof (zsum_lower f b l2 ltac:(intros; apply H; set_solver)).
  rewrite zsum_app, length_app. cbn [zsum foldr length]. fold (zsum f l2). lia.
Qed.

Lemma zsum_indicator `{!EqDecision A} l x :
  NoDup l -> x ∈ l -> zsum (fun y => if decide (y = x) then 1 else 0) l = 1.
Proof.
  intros Hnd (l1 & l2 & ->)%list_elem_of_split.
  apply NoDup_app in Hnd as (_ & H1 & [H2 _]%NoDup_cons).
  rewrite zsum_app. cbn [zsum foldr]. fold (zsum (fun y => if decide (y = x) then 1 else 0) l2).
  rewrite decide_True by done.
  rewrite (zsum_ext _ (fun _ => 0) l1), (zsum_ext _ (fun _ => 0) l2).
  - assert (Hz : forall l : list A, zsum (fun _ => 0) l = 0) by (induction l; done). by rewrite !Hz.
  - intros y Hy. rewrite decide_False; [done|]. by intros ->.
  - intros y Hy. rewrite decide_False; [done|]. intros ->. apply (H1 x Hy). by left.
Qed.

(** Pointwise at most and equal in total is equal. *)
Lemma zsum_squeeze f g l :
  (forall x, x ∈ l -> f x <= g x) -> zsum f l = zsum g l -> forall x, x ∈ l -> f x = g x.
Proof.
  intros H Heq x Hx. pose proof (zsum_term (fun y => g y - f y) 0 l x) as Ht.
  assert (Hs : zsum (fun y => g y - f y) l = 0).
  { rewrite (zsum_ext _ (fun y => 1 * g y - 1 * f y)) by (intros; lia).
    rewrite zsum_linear. lia. }
  specialize (Ht ltac:(intros y Hy; specialize (H y Hy); lia) Hx). specialize (H x Hx). lia.
Qed.
End zsum.

(** ** One selection *)

Abbreviation Wrr := (LoadBalancer WeightedRoundRobin).

Definition cw (s : Wrr) (p : ptr) : Z := weight_of_id s (id_of s p).
Definition weight (s : Wrr) (p : ptr) : Z := weight_ (heap_ s p).

Lemma int_add_returns {S} a b (s : S) (Q : Z -> S -> Prop) :
  is_int (a + b) -> Q (a + b) s -> returns (int_add a b) s Q.
Proof. intros Hi HQ. unfold int_add. rewrite bool_decide_true by done. by apply returns_ret. Qed.

(** Setting the current weight of one id. *)
Lemma weight_of_id_set (s : Wrr) id v id' :
  weight_of_id (set_weights (<[id := v]> (current_weights_ (ext s))) s) id' =
  if decide (id' = id) then v else weight_of_id s id'.
Proof.
  unfold weight_of_id. cbn. case_decide as E; [subst; by rewrite lookup_insert_eq|].
  by rewrite lookup_insert_ne.
Qed.

(** What the loop leaves: the total, the weights of the visited ids raised, and a
    candidate whose raised weight is the largest. *)
Definition raised (s : Wrr) (ps : list ptr) (s' : Wrr) : Prop :=
  frame s s' /\
  (forall p, p ∈ ps -> cw s' p = cw s p + weight s p) /\
  (forall id, id ∉ (id_of s <$> ps) -> weight_of_id s' id = weight_of_id s id).

Definition best_of (s : Wrr) (ps : list ptr) (best : option (ptr * Z)) : Prop :=
  match best with
  | None => ps = []
  | Some (p, m) => p ∈ ps /\ m = cw s p + weight s p /\
      forall q, q ∈ ps -> cw s q + weight s q <= m
  end.

Lemma best_of_snoc s ps best p :
  best_of s ps best ->
  best_of s (ps ++ [p])
    match best with
    | Some (q, m) => if m <? cw s p + weight s p then Some (p, cw s p + weight s p) else Some (q, m)
    | None => Some (p, cw s p + weight s p)
    end.
Proof.
  destruct best as [[q m]|]; cbn [best_of].
  - intros (Hq & -> & Hmax). destruct (Z.ltb_spec (cw s q + weight s q) (cw s p + weight s p)); cbn [best_of].
    + split_and!; [set_solver|done|].
      intros r [Hr| ->%list_elem_of_singleton]%elem_of_app; [specialize (Hmax r Hr); lia|lia].
    + split_and!; [set_solver|done|].
      intros r [Hr| ->%list_elem_of_singleton]%elem_of_app; [auto|lia].
  - intros ->. cbn. split_and!; [set_solver|done|]. intros r ->%list_elem_of_singleton. lia.
Qed.

Lemma raised_snoc s ps p s1 v :
  raised s ps s1 -> id_of s p ∉ (id_of s <$> ps) -> v = cw s p + weight s p ->
  raised s (ps ++ [p]) (set_weights (<[id_of s p := v]> (current_weights_ (ext s1))) s1).
Proof.
  intros ((Hh&Hs&Hm) & Hin & Hout) Hnew ->. split_and!; [done| |].
  - intros q Hq. unfold cw, id_of in *. cbn. rewrite Hh in *.
    rewrite weight_of_id_set. case_decide as E.
    + apply elem_of_app in Hq as [Hq| ->%list_elem_of_singleton]; [|done].
      exfalso. apply Hnew. rewrite <-E. apply list_elem_of_fmap. by exists q.
    + apply elem_of_app in Hq as [Hq| ->%list_elem_of_singleton]; [|done].
      specialize (Hin q Hq). by rewrite ?Hh in Hin.
  - intros id. rewrite fmap_app, not_elem_of_app. cbn. intros [H1 H2%not_elem_of_cons].
    rewrite weight_of_id_set, decide_False by naive_solver. auto.
Qed.

Lemma zsum_nonneg {A} (f : A -> Z) l : (forall x, x ∈ l -> 0 < f x) -> 0 <= zsum f l.
Proof. intros H. pose proof (zsum_lower f 0 l ltac:(intros x Hx; specialize (H x Hx); lia)). lia. Qed.

Lemma wrr_visit_returns s ps p s1 acc (Q : Z * option (ptr * Z) -> Wrr -> Prop) :
  raised s ps s1 -> id_of s p ∉ (id_of s <$> ps) ->
  is_int (acc.1 + weight s p) -> is_int (cw s p + weight s p) ->
  (forall s2, raised s (ps ++ [p]) s2 ->
     Q (acc.1 + weight s p, match acc.2 with
        | Some (q, m) => if m <? cw s p + weight s p then Some (p, cw s p + weight s p) else Some (q, m)
        | None => Some (p, cw s p + weight s p)
        end) s2) ->
  returns (wrr_visit acc p) s1 Q.
Proof.
  intros Hr Hnew Hi1 Hi2 HQ. pose proof Hr as ((Hh&_&_) & _ & Hout).
  unfold wrr_visit. apply returns_bind, (returns_gets (fun s => s)).
  assert (Hw : weight_ (heap_ s1 p) = weight s p) by (unfold weight; by rewrite Hh).
  assert (Hc : weight_of_id s1 (id_of s1 p) = cw s p) by (unfold id_of; rewrite Hh; by apply Hout).
  rewrite Hw, Hc. apply returns_bind, int_add_returns; [done|].
  apply returns_bind, int_add_returns; [done|].
  apply returns_bind, returns_modify, returns_ret, HQ.
  unfold id_of. rewrite Hh. by apply raised_snoc.
Qed.

Lemma wrr_loop_returns s todo ps s1 acc :
  NoDup (id_of s <$> (ps ++ todo)) ->
  (forall p, p ∈ ps ++ todo -> 0 < weight s p /\ is_int (cw s p + weight s p)) ->
  zsum (weight s) (ps ++ todo) <= INT_MAX ->
  raised s ps s1 -> acc.1 = zsum (weight s) ps -> best_of s ps acc.2 ->
  returns (wrr_loop todo acc) s1 (fun r s' =>
    raised s (ps ++ todo) s' /\ r.1 = zsum (weight s) (ps ++ todo) /\ best_of s (ps ++ todo) r.2).
Proof.
  revert ps s1 acc. induction todo as [|p todo IH]; intros ps s1 acc Hnd Hp HW Hr Ht Hb; cbn [wrr_loop].
  - rewrite app_nil_r. by apply returns_ret.
  - assert (Hassoc : ps ++ p :: todo = (ps ++ [p]) ++ todo) by (by rewrite <-app_assoc).
    rewrite Hassoc in *.
    assert (Hsum : acc.1 + weight s p = zsum (weight s) (ps ++ [p]))
      by (rewrite zsum_app, Ht; cbn; lia).
    assert (0 <= zsum (weight s) (ps ++ [p]) <= INT_MAX).
    { rewrite zsum_app in HW.
      pose proof (zsum_nonneg (weight s) todo ltac:(intros; apply Hp; set_solver)).
      pose proof (zsum_nonneg (weight s) (ps ++ [p]) ltac:(intros; apply Hp; set_solver)). lia. }
    apply returns_bind, (wrr_visit_returns s ps); [done| | |apply Hp; set_solver|].
    + rewrite !fmap_app in Hnd. apply NoDup_app in Hnd as (Hnd & _ & _).
      apply NoDup_app in Hnd as (_ & Hd & _). intros Hin. apply (Hd _ Hin). by left.
    + rewrite Hsum. unfold is_int, INT_MIN, INT_MAX in *. lia.
    + intros s2 Hr2. apply IH; [done..| |]; cbn [fst snd]; [done|]. by apply best_of_snoc.
Qed.

Lemma wrr_select_unfold s d key : available s <> [] ->
  selectServer (X := WeightedRoundRobin) d key s = smoothWeightedRoundRobin (available s) s.
Proof. intros Hne. cbn. unfold mbind, cpp_bind, gets. by destruct (available s). Qed.

Lemma NoDup_fmap_inj_on {A B} (f : A -> B) l x y :
  NoDup (f <$> l) -> x ∈ l -> y ∈ l -> f x = f y -> x = y.
Proof.
  intros Hnd [i Hi]%list_elem_of_lookup [j Hj]%list_elem_of_lookup Hf.
  assert (i = j) as ->; [|congruence].
  eapply NoDup_lookup; [exact Hnd| |]; rewrite list_lookup_fmap, ?Hi, ?Hj; cbn; by rewrite ?Hf.
Qed.

Lemma smooth_step s d key :
  let av := available s in let W := zsum (weight s) av in
  av <> [] -> NoDup (id_of s <$> av) ->
  (forall p, p ∈ av -> 0 < weight s p /\ is_int (cw s p + weight s p)) ->
  (forall p, p ∈ av -> (forall q, q ∈ av -> cw s q + weight s q <= cw s p + weight s p) ->
     is_int (cw s p + weight s p - W)) ->
  W <= INT_MAX ->
  returns (selectServer (X := WeightedRoundRobin) d key) s (fun r s' => exists p, r = Some p /\ p ∈ av /\
    (forall q, q ∈ av -> cw s q + weight s q <= cw s p + weight s p) /\
    (forall q, q ∈ av -> cw s' q = cw s q + weight s q - (if decide (q = p) then W else 0)) /\
    available s' = av /\ (forall q, id_of s' q = id_of s q) /\ (forall q, weight s' q = weight s q)).
Proof.
  intros av W Hne Hnd Hp Hmx HW. unfold returns. rewrite (wrr_select_unfold _ _ _ Hne).
  apply returns_bind. fold av.
  eapply returns_mono; [apply (wrr_loop_returns s av [] s); cbn; try done|].
  { split_and!; [done| |done]. by intros p Hin%not_elem_of_nil. }
  cbn [app]. intros [tot best] s1 (Hr & -> & Hb). cbn [fst snd] in *. fold W.
  destruct best as [[p m]|]; cbn [best_of] in Hb; [|done].
  destruct Hb as (Hin & Hm & Hmax). pose proof Hr as ((Hh&Hs&Hmap) & Hup & Hout).
  apply returns_bind, (returns_gets (fun s => s)).
  assert (Hc : weight_of_id s1 (id_of s1 p) = cw s p + weight s p) by (by apply Hup).
  rewrite Hc. rewrite Hm in Hmax. pose proof (Hmx p Hin Hmax) as Hi3.
  apply returns_bind, int_add_returns; [by rewrite <-Z.sub_opp_r, Z.opp_involutive|].
  apply returns_bind, returns_modify, take_server_returns.
  exists p. split_and!; [done|done|intros q Hq; specialize (Hmax q Hq); lia| | | |].
  - intros q Hq. unfold cw. cbn. unfold id_of. cbn. rewrite store_id, Hh.
    unfold weight_of_id. cbn. case_decide as E.
    + subst q. rewrite lookup_insert_eq. cbn. unfold cw, id_of. lia.
    + rewrite lookup_insert_ne.
      2:{ intros Hid. apply E. eapply (NoDup_fmap_inj_on); [exact Hnd|done..]. }
      specialize (Hup q Hq). unfold cw, weight_of_id, id_of in Hup. rewrite Hh in Hup. rewrite Hup.
      unfold cw, weight_of_id, id_of. lia.
  - subst av. rewrite <-(available_frame s s1) by done. symmetry.
    by rewrite <-(available_store s1 p (ext s1)).
  - intros q. unfold id_of. cbn. by rewrite store_id, Hh.
  - intros q. unfold weight. cbn. by rewrite store_weight, Hh.
Qed.

(** ** Fairness *)

(** How often [p] was selected. *)
Definition picks (p : ptr) (rs : list (option ptr)) : Z :=
  Z.of_nat (length (filter (fun r => r = Some p) rs)).

Lemma picks_snoc p rs q : picks p (rs ++ [Some q]) = picks p rs + (if decide (p = q) then 1 else 0).
Proof.
  unfold picks. rewrite filter_app, length_app, Nat2Z.inj_add. f_equal.
  rewrite filter_cons, filter_nil. case_decide as E1; case_decide as E2; cbn; congruence || done.
Qed.

(** The state after the answers [rs], relative to the state [s] before them. *)
Definition wrr_after (s : Wrr) (rs : list (option ptr)) (s' : Wrr) : Prop :=
  let av := available s in let W := zsum (weight s) av in
  available s' = av /\ (forall q, id_of s' q = id_of s q) /\ (forall q, weight s' q = weight s q) /\
  (forall r, r ∈ rs -> exists p, r = Some p /\ p ∈ av) /\
  zsum (fun p => picks p rs) av = Z.of_nat (length rs) /\
  forall p, p ∈ av -> cw s' p = Z.of_nat (length rs) * weight s p - W * picks p rs /\ - W < cw s' p.

Section fairness.
Context (s : Wrr).
Let av := available s.
Let n := Z.of_nat (length av).
Let W := zsum (weight s) av.

Hypothesis av_nonempty : av <> [].
Hypothesis distinct_ids : NoDup (id_of s <$> av).
Hypothesis weights_pos : forall p, p ∈ av -> 0 < weight s p.
Hypothesis total_fits : n * W <= INT_MAX.

Lemma total_bounds : 0 < n /\ n <= W /\ W <= INT_MAX.
Proof using av_nonempty distinct_ids weights_pos total_fits.
  assert (0 < n) by (unfold n; destruct av; cbn; [done|lia]).
  pose proof (zsum_lower (weight s) 1 av ltac:(intros p Hp; specialize (weights_pos p Hp); lia)) as Hl.
  fold n W in Hl. nia.
Qed.

Lemma weight_le_total p : p ∈ av -> weight s p <= W.
Proof using weights_pos.
  intros Hp. pose proof (zsum_term (weight s) 0 av p) as Hz. fold W in Hz.
  specialize (Hz ltac:(intros q Hq; specialize (weights_pos q Hq); lia) Hp). lia.
Qed.

(** The current weights sum to zero, so none exceeds [(n - 1) (W - 1)]. *)
Lemma after_upper rs s' p : wrr_after s rs s' -> p ∈ av -> cw s' p <= (n - 1) * (W - 1).
Proof using av_nonempty distinct_ids weights_pos total_fits.
  intros (_ & _ & _ & _ & Hsum & Hcw) Hp. fold av W in Hcw, Hsum.
  pose proof total_bounds.
  assert (Hz : zsum (cw s') av = 0).
  { rewrite (zsum_ext _ (fun p => Z.of_nat (length rs) * weight s p - W * picks p rs))
      by (intros q Hq; apply Hcw, Hq).
    rewrite zsum_linear, Hsum. fold W. lia. }
  pose proof (zsum_term (cw s') (- W + 1) av p) as Ht.
  specialize (Ht ltac:(intros q Hq; destruct (Hcw q Hq); lia) Hp). fold n in Ht. nia.
Qed.

Lemma after_step rs s' d key :
  wrr_after s rs s' ->
  returns (selectServer (X := WeightedRoundRobin) d key) s' (fun r s'' => wrr_after s (rs ++ [r]) s'').
Proof using av_nonempty distinct_ids weights_pos total_fits.
  intros Haft. pose proof (after_upper rs s') as Hup. pose proof total_bounds as (Hn & HnW & HW).
  pose proof Haft as (Hav & Hid & Hw & Hrs & Hsum & Hcw). fold av in Hav, Hrs, Hsum, Hcw. fold W in Hcw.
  assert (HWs : zsum (weight s') av = W) by (apply zsum_ext; auto).
  assert (Hpos : forall p, (forall q, q ∈ av -> cw s' q + weight s' q <= cw s' p + weight s' p) ->
            0 < cw s' p + weight s p).
  { intros p Hmax.
    pose proof (zsum_upper (fun q => cw s' q + weight s' q) (cw s' p + weight s' p) av Hmax) as Hz.
      rewrite zsum_plus, HWs in Hz. fold n in Hz. rewrite Hw in Hz.
      assert (zsum (cw s') av = 0); [|nia].
      rewrite (zsum_ext _ (fun p => Z.of_nat (length rs) * weight s p - W * picks p rs))
        by (intros q Hq; apply Hcw, Hq).
      rewrite zsum_linear, Hsum. fold W. lia. }
  eapply returns_mono; [apply smooth_step; rewrite ?Hav, ?HWs|]; [done| | | |done|].
  - by rewrite (list_fmap_ext (id_of s') (id_of s)) by auto.
  - intros p Hp. rewrite Hw. pose proof (weights_pos p Hp). specialize (Hup p Haft Hp).
    destruct (Hcw p Hp) as [_ Hlow].
    assert (weight s p <= W) by (by apply weight_le_total).
    assert ((n - 1) * (W - 1) = n * W - n - W + 1) by ring.
    unfold is_int, INT_MIN, INT_MAX in *. lia.
  - intros p Hp Hmax. specialize (Hpos p Hmax). specialize (Hup p Haft Hp). rewrite Hw.
    assert (weight s p <= W) by (by apply weight_le_total).
    assert ((n - 1) * (W - 1) = n * W - n - W + 1) by ring.
    unfold is_int, INT_MIN, INT_MAX in *. lia.
  - cbn beta. rewrite Hav, HWs. intros r s2 (p & -> & Hp & Hmax & Hcw2 & Hav2 & Hid2 & Hw2).
    pose proof (Hpos p Hmax).
    unfold wrr_after. fold av W. split_and!; [done|intros q; by rewrite Hid2|intros q; by rewrite Hw2| | |].
    + intros r [Hr| ->%list_elem_of_singleton]%elem_of_app; eauto.
    + rewrite (zsum_ext _ (fun q => picks q rs + (if decide (q = p) then 1 else 0)))
        by (intros q _; apply picks_snoc).
      rewrite zsum_plus, Hsum, zsum_indicator, length_app; [cbn; lia| |done].
      by eapply NoDup_fmap_1.
    + intros q Hq. rewrite (Hcw2 q Hq), Hw, picks_snoc, length_app, Nat2Z.inj_add.
      destruct (Hcw q Hq) as [E Hlow]. specialize (weights_pos q Hq).
      cbn. case_decide; subst; split; nia.
Qed.
End fairness.

(** C3. Smooth weighted round robin is exactly fair. Starting with all current
    weights zero, after any number [t] of selections the share of each available
    server is within the bounds [- W < t * w - W * picks <= (n - 1) * (W - 1)]; after
    [k] full periods of [W] selections each has been chosen exactly [k] times its
    weight and every current weight is zero again. All the intermediate sums fit an
    [int] as soon as [n * W] does. *)
Theorem smooth_wrr_fair s reqs :
  let av := available s in let W := zsum (weight s) av in let n := Z.of_nat (length av) in
  let t := Z.of_nat (length reqs) in
  av <> [] -> NoDup (id_of s <$> av) -> n * W <= INT_MAX ->
  (forall p, p ∈ av -> 0 < weight s p /\ cw s p = 0) ->
  returns (selects (X := WeightedRoundRobin) reqs) s (fun rs s' =>
    length rs = length reqs /\ (forall r, r ∈ rs -> exists p, r = Some p /\ p ∈ av) /\
    (forall p, p ∈ av -> - W < t * weight s p - W * picks p rs <= (n - 1) * (W - 1)) /\
    forall k, t = k * W -> forall p, p ∈ av -> picks p rs = k * weight s p /\ cw s' p = 0).
Proof.
  intros av W n t Hne Hnd Hfit Hw.
  assert (Hpos : forall p, p ∈ av -> 0 < weight s p) by (intros; by apply Hw).
  pose proof (total_bounds s Hne Hnd Hpos Hfit) as (Hn & HnW & HWi). fold av W n in Hn, HnW, HWi.
  eapply returns_mono.
  { apply (returns_selects (wrr_after s)); [intros; by apply after_step|].
    split_and!; [done..| | |]; [by intros r Hr%not_elem_of_nil| |].
    - unfold picks. cbn. fold av. clear. induction av; done.
    - intros p Hp. destruct (Hw p Hp) as [_ ->]. fold av W. unfold picks. cbn. lia. }
  intros rs s' [Hlen Haft]. pose proof Haft as (_ & _ & _ & Hrs & Hsum & Hcw).
  fold av W in Hrs, Hsum, Hcw. rewrite Hlen in Hsum, Hcw. fold t in Hsum, Hcw.
  split_and!; [done|done| |].
  - intros p Hp. destruct (Hcw p Hp) as [E Hlow]. rewrite <-E. split; [done|].
    by apply (after_upper s Hne Hnd Hpos Hfit rs).
  - intros k Hk.
    assert (Heq : forall p, p ∈ av -> picks p rs = k * weight s p).
    { apply zsum_squeeze.
      - intros p Hp. destruct (Hcw p Hp) as [E Hlow]. rewrite Hk in E. nia.
      - rewrite Hsum, Hk. pose proof (zsum_linear k 0 (weight s) (weight s) av) as Hl.
        rewrite (zsum_ext _ (fun p => k * weight s p)) in Hl by (intros; lia). fold W in Hl. lia. }
    intros p Hp. split; [by apply Heq|]. destruct (Hcw p Hp) as [-> _]. rewrite Heq by done. nia.
Qed.

(** Weights 5, 1 and 1: seven selections. *)
Definition wrr_sample : Wrr :=
  mkLB (store 1 (setWeight 5) sample_store) [1; 2; 3]%nat ∅ (mkWRR 0 ∅ 1 5).

Lemma smooth_wrr_fair_witness :
  returns (selects (X := WeightedRoundRobin) (replicate 7 (mkDraw 0 0 0, ""%string))) wrr_sample
    (fun rs s' => picks 1 rs = 5 /\ picks 2 rs = 1 /\ picks 3 rs = 1 /\ cw s' 1 = 0).
Proof.
  eapply returns_mono; [apply smooth_wrr_fair|].
  - done.
  - apply (bool_decide_unpack _). vm_compute. exact I.
  - done.
  - intros p Hp. change (available wrr_sample) with [1; 2; 3]%nat in Hp.
    apply list_elem_of_In in Hp as [<-|[<-|[<-|[]]]]; done.
  - cbn beta. intros rs s' (_ & _ & _ & Hk). specialize (Hk 1 eq_refl).
    assert (Hin : forall p, (1 <= p <= 3)%nat -> p ∈ available wrr_sample).
    { intros p Hp. change (available wrr_sample) with [1; 2; 3]%nat.
      destruct p as [|[|[|[|]]]]; [lia|set_solver..|lia]. }
    split_and!; [apply (Hk 1%nat)|apply (Hk 2%nat)|apply (Hk 3%nat)|apply (Hk 1%nat)]; apply Hin; lia.
Defined.

(** The period of the usual example, in the order of the smooth variant. *)
Example smooth_order :
  match selects (X := WeightedRoundRobin) (replicate 7 (mkDraw 0 0 0, ""%string)) wrr_sample with
  | Ok rs _ => rs
  | _ => []
  end = Some <$> [1; 1; 2; 1; 3; 1; 1]%nat.
Proof. vm_compute. reflexivity. Qed.

(** ** The weight summary *)

Lemma gcd_step a b : b <> 0 -> Z.gcd a b = Z.gcd b (a `mod` b).
Proof. intros Hb. rewrite (Z.gcd_comm b), Z.gcd_mod by done. apply Z.gcd_comm. Qed.

Lemma gcd_loop_correct {S} k : forall fuel a b (s : S),
  0 <= a -> 0 <= b < 2 ^ Z.of_nat k -> (2 * k <= fuel)%nat ->
  gcd_loop fuel a b s = Ok (Z.gcd a b) s.
Proof.
  assert (Hz : forall fuel a (s : S), 0 <= a -> gcd_loop fuel a 0 s = Ok (Z.gcd a 0) s).
  { intros fuel a s Ha. rewrite Z.gcd_0_r, Z.abs_eq by done. by destruct fuel. }
  assert (Hs : forall fuel a b (s : S), 0 <= a -> 0 < b ->
    gcd_loop (Datatypes.S fuel) a b s = gcd_loop fuel b (a `mod` b) s).
  { intros fuel a b s Ha Hb. cbn. destruct (Z.eqb_spec b 0); [lia|].
    destruct (Z.eqb_spec b (-1)); [lia|]. rewrite andb_false_r. by rewrite Z.rem_mod_nonneg by lia. }
  induction k as [|k IH]; intros fuel a b s Ha Hb Hf.
  - assert (b = 0) as -> by (cbn in Hb; lia). auto.
  - destruct (decide (b = 0)) as [->|Hb0]; [auto|].
    destruct fuel as [|[|fuel]]; [lia..|]. rewrite Hs by lia.
    pose proof (Z.mod_pos_bound a b ltac:(lia)). rewrite (gcd_step a b Hb0).
    destruct (decide (a `mod` b = 0)) as [->|Hr0]; [apply Hz; lia|].
    rewrite Hs by lia. set (r := a `mod` b) in *.
    rewrite (gcd_step b r Hr0).
    pose proof (Z.mod_pos_bound b r ltac:(lia)). pose proof (Z.div_mod b r Hr0).
    assert (1 <= b / r) by (apply Z.div_le_lower_bound; lia).
    apply IH; [lia| |lia]. rewrite Nat2Z.inj_succ, Z.pow_succ_r in Hb by lia. nia.
Qed.

Lemma gcd_correct {S} a b (s : S) :
  0 <= a <= INT_MAX -> 0 <= b <= INT_MAX -> gcd a b s = Ok (Z.gcd a b) s.
Proof.
  unfold INT_MAX. intros Ha Hb. apply (gcd_loop_correct 31); [lia| |lia].
  change (2 ^ Z.of_nat 31) with (2 ^ 31). lia.
Qed.
#[local] Opaque gcd.

Lemma gcd_int a b : 0 <= a <= INT_MAX -> 0 <= b <= INT_MAX -> 0 <= Z.gcd a b <= INT_MAX.
Proof.
  intros Ha Hb. pose proof (Z.gcd_nonneg a b).
  destruct (decide (a = 0)) as [->|]; [rewrite Z.gcd_0_l, Z.abs_eq; lia|].
  pose proof (Z.divide_pos_le (Z.gcd a b) a ltac:(lia) (Z.gcd_divide_l a b)). lia.
Qed.

Definition gcd_of (s : Wrr) (ps : list ptr) : Z := foldl (fun g p => Z.gcd g (weight s p)) 0 ps.
Definition max_of (s : Wrr) (ps : list ptr) : Z := foldl (fun m p => Z.max m (weight s p)) 0 ps.

(** The weight summary is right: with weights that are non-negative [int]s,
    updating it returns without overflow and stores the greatest common divisor and
    the maximum of the weights of the registered servers (1 and 0 when there are
    none), changing nothing else. *)
Theorem weight_info_correct s :
  (forall p, p ∈ servers_ s -> 0 <= weight s p <= INT_MAX) ->
  updateWeightInfo s = Ok tt (set_weight_info
    (if decide (servers_ s = []) then 1 else gcd_of s (servers_ s)) (max_of s (servers_ s)) s).
Proof.
  intros Hw. unfold updateWeightInfo, mbind at 1, cpp_bind at 1, get.
  destruct (servers_ s) as [|p ps] eqn:Es; [done|]. cbn [decide].
  cut (returns (iterM visit_weight ps) (set_weight_info (weight s p) (weight s p) s)
         (fun _ s' => s' = set_weight_info (gcd_of s (p :: ps)) (max_of s (p :: ps)) s)).
  { intros (u & s' & E & ->). by destruct u. }
  assert (Hp : 0 <= weight s p <= INT_MAX) by (apply Hw; by left).
  eapply returns_mono; [apply (returns_iterM (fun pre s' =>
    s' = set_weight_info (gcd_of s (p :: pre)) (max_of s (p :: pre)) s /\
    0 <= gcd_of s (p :: pre) <= INT_MAX))|naive_solver].
  - intros pre q rest s' -> [-> Hg]. assert (Hq : 0 <= weight s q <= INT_MAX) by (apply Hw; set_solver).
    unfold visit_weight. apply returns_bind, (returns_gets (fun s => s)).
    apply returns_bind. eapply returns_Ok; [by apply gcd_correct|]. apply returns_modify.
    unfold gcd_of, max_of. rewrite app_comm_cons, !foldl_snoc. fold (gcd_of s (p :: pre)) (max_of s (p :: pre)).
    split; [|by apply gcd_int].
    change (set_weight_info (Z.gcd (gcd_of s (p :: pre)) (weight s q))
              (if max_of s (p :: pre) <? weight s q then weight s q else max_of s (p :: pre)) s =
            set_weight_info (Z.gcd (gcd_of s (p :: pre)) (weight s q))
              (Z.max (max_of s (p :: pre)) (weight s q)) s).
    f_equal. destruct (Z.ltb_spec (max_of s (p :: pre)) (weight s q)); lia.
  - unfold gcd_of, max_of. cbn. rewrite Z.gcd_0_l_nonneg, Z.max_r by lia. done.
Qed.

Lemma weight_info_correct_witness :
  updateWeightInfo wrr_sample = Ok tt (set_weight_info 1 5 wrr_sample).
Proof.
  rewrite weight_info_correct; [vm_compute; reflexivity|].
  intros p Hp. change (servers_ wrr_sample) with [1; 2; 3]%nat in Hp.
  apply list_elem_of_In in Hp as [<-|[<-|[<-|[]]]]; done.
Defined.
