(* ===== verification/RingProps.v ===== *)
(** * RingProps: consistent hashing is consistent

    The walk over the hash ring selects the first live server clockwise from the hash
    of the key; removing a server moves only the keys it had, adding one moves keys
    only to it. *)

From S2P Require Import Prelude Text Balancer ConsistentHash BalancerSpec.

Local Open Scope Z_scope.

(** ** The clockwise order *)

(** Starting at [h], the node [k] comes no later than the node [k']. *)
Definition clockwise (h k k' : Z) : Prop :=
  (h <= k /\ k' < h) \/ ((h <= k <-> h <= k') /\ k <= k').

Lemma clockwise_antisym h k k' : clockwise h k k' -> clockwise h k' k -> k = k'.
Proof. unfold clockwise. lia. Qed.

(** The specification of the walk. *)
Definition ring_pick (alive : ptr -> bool) (ring : gmap Z ptr) (h : Z) (r : option ptr) : Prop :=
  match r with
  | Some p => exists k, ring !! k = Some p /\ alive p = true /\
      forall k' p', ring !! k' = Some p' -> alive p' = true -> clockwise h k k'
  | None => forall k p, ring !! k = Some p -> alive p = false
  end.

Lemma ring_pick_unique alive ring h r r' :
  ring_pick alive ring h r -> ring_pick alive ring h r' -> r = r'.
Proof.
  destruct r as [p|], r' as [p'|]; cbn.
  - intros (k & Hk & Ha & Hm) (k' & Hk' & Ha' & Hm').
    rewrite (clockwise_antisym h k k' (Hm _ _ Hk' Ha') (Hm' _ _ Hk Ha)) in Hk. congruence.
  - intros (k & Hk & Ha & _) H. rewrite (H _ _ Hk) in Ha. done.
  - intros H (k & Hk & Ha & _). rewrite (H _ _ Hk) in Ha. done.
  - done.
Qed.

(** The nodes in the order of the walk. *)
Definition ring_nodes (ring : gmap Z ptr) (h : Z) : list (Z * ptr) :=
  let nodes := map_ordered Z.le ring in
  filter (fun kv => h <= kv.1) nodes ++ filter (fun kv => kv.1 < h) nodes.

Lemma StronglySorted_filter_cond {A} (R S : relation A) (P : A -> Prop) `{!forall x, Decision (P x)} l :
  (forall x y, P x -> P y -> R x y -> S x y) ->
  StronglySorted R l -> StronglySorted S (filter P l).
Proof.
  intros HS. induction 1 as [|x l Hl IH HF]; [constructor|]. rewrite filter_cons.
  case_decide; [|done]. constructor; [done|]. rewrite Forall_forall in *.
  intros y [Hy Hin]%list_elem_of_filter. auto.
Qed.

Lemma StronglySorted_join {A} (R : relation A) l1 l2 :
  StronglySorted R l1 -> StronglySorted R l2 -> (forall x y, x ∈ l1 -> y ∈ l2 -> R x y) ->
  StronglySorted R (l1 ++ l2).
Proof.
  induction 1 as [|x l1 Hl IH HF]; intros H2 H12; [done|]. cbn. constructor.
  - apply IH; [done|]. intros y z Hy. apply H12. by right.
  - apply Forall_app. split; [done|]. apply Forall_forall. intros y. apply H12. by left.
Qed.

Lemma ring_nodes_sorted ring h :
  StronglySorted (fun a b => clockwise h a.1 b.1) (ring_nodes ring h).
Proof.
  assert (Hs : StronglySorted (key_rel Z.le) (map_ordered Z.le ring))
    by (apply map_ordered_sorted; apply _).
  apply StronglySorted_join.
  - eapply StronglySorted_filter_cond, Hs. unfold key_rel, clockwise. intros; lia.
  - eapply StronglySorted_filter_cond, Hs. unfold key_rel, clockwise. intros; lia.
  - intros x y [Hx _]%list_elem_of_filter [Hy _]%list_elem_of_filter. left. done.
Qed.

Lemma ring_nodes_elem ring h k p : (k, p) ∈ ring_nodes ring h <-> ring !! k = Some p.
Proof.
  unfold ring_nodes. rewrite elem_of_app, !list_elem_of_filter, elem_of_map_ordered. cbn.
  destruct (decide (h <= k)); naive_solver lia.
Qed.

Lemma find_first_fmap {A B} (f : A -> B) (q : B -> bool) l :
  find_first q (f <$> l) = f <$> find_first (fun x => q (f x)) l.
Proof. induction l as [|x l IH]; cbn; [done|]. by destruct (q (f x)). Qed.

Lemma find_first_sorted {A} (R : relation A) (q : A -> bool) l x y :
  (forall z, R z z) -> StronglySorted R l -> find_first q l = Some x -> y ∈ l -> q y = true -> R x y.
Proof.
  intros HR. induction 1 as [|z l Hl IH HF]; cbn; [done|]. destruct (q z) eqn:Eq.
  - intros [= ->]. rewrite Forall_forall in HF. intros [->|Hy]%elem_of_cons _; auto.
  - intros Hx [->|Hy]%elem_of_cons Hq; [congruence|auto].
Qed.

(** The loop implements the specification. *)
Lemma select_on_ring_correct alive ring h : ring_pick alive ring h (select_on_ring alive ring h).
Proof.
  unfold select_on_ring, ring_walk. fold (ring_nodes ring h). rewrite find_first_fmap.
  destruct (find_first _ _) as [[k p]|] eqn:E; cbn.
  - pose proof E as [Hk Ha]%find_first_Some. exists k. split_and!; [by apply (ring_nodes_elem ring h)|done|].
    intros k' p' Hk' Ha'. eapply (find_first_sorted (fun a b => clockwise h a.1 b.1)
      (fun x => alive x.2) _ (k, p) (k', p')); [..|done|by apply ring_nodes_elem|done].
    + intros z. unfold clockwise. lia.
    + apply ring_nodes_sorted.
  - intros k p Hk. pose proof (proj1 (find_first_None _ _) E (k, p)) as H. apply H.
    by apply ring_nodes_elem.
Qed.

(** ** Changing the ring *)

(** Without some nodes: a key whose server keeps its nodes keeps its server. *)
Lemma ring_pick_removed alive ring ring' h p :
  (forall k q, ring' !! k = Some q -> ring !! k = Some q) ->
  (forall k, ring !! k = Some p -> ring' !! k = Some p) ->
  ring_pick alive ring h (Some p) -> ring_pick alive ring' h (Some p).
Proof. intros Hsub Hkeep (k & Hk & Ha & Hm). exists k. split_and!; eauto. Qed.

(** With nodes of a live server added (or put in the place of others): a key keeps
    its server or moves to the new one. *)
Lemma ring_pick_added alive ring ring' h p r r' :
  alive p = true ->
  (forall k, ring' !! k = ring !! k \/ ring' !! k = Some p) ->
  ring_pick alive ring h r -> ring_pick alive ring' h r' -> r' = r \/ r' = Some p.
Proof.
  intros Hp Hadd Hr Hr'. destruct (decide (r' = Some p)) as [|Hne]; [by right|left].
  eapply ring_pick_unique; [|exact Hr].
  assert (Hlive : forall k q, ring !! k = Some q -> alive q = true ->
            exists q', ring' !! k = Some q' /\ alive q' = true)
    by (intros k q Hk Hq; destruct (Hadd k) as [E|E]; rewrite E; eauto).
  destruct r' as [q|]; cbn in *.
  - destruct Hr' as (k & Hk & Hq & Hm). exists k. split_and!; [|done|].
    + destruct (Hadd k) as [E|E]; congruence.
    + intros k' q' Hk' Hq'. destruct (Hlive k' q' Hk' Hq') as (? & ? & ?). eauto.
  - intros k q Hk. destruct (alive q) eqn:Eq; [|done].
    destruct (Hlive k q Hk Eq) as (q' & Hk' & Hq'). by rewrite (Hr' k q' Hk') in Hq'.
Qed.

(** ** The balancer *)

(** A selection by a key is the specified one, and counts its connection. *)
Lemma select_ring (s : Ring) d key :
  ring_inv (servers_ s) (ext s) -> key <> ""%string ->
  exists r, ring_pick (alive s) (hash_ring_ (ext s)) (hash_function_ key) r /\
    selectServer d key s = match r with
      | Some p => Ok (Some p) (set_heap (store p addConnection (heap_ s)) s)
      | None => Ok None s
      end.
Proof.
  intros Hi Hkey. exists (select_on_ring (alive s) (hash_ring_ (ext s)) (hash_function_ key)).
  pose proof (select_on_ring_correct (alive s) (hash_ring_ (ext s)) (hash_function_ key)) as Hp.
  split; [done|]. cbn. unfold mbind, cpp_bind, get.
  rewrite (proj2 (String.eqb_neq key "")) by done.
  destruct (bool_decide (servers_ s = []) || bool_decide (hash_ring_ (ext s) = ∅)) eqn:Ee;
    [|by destruct (select_on_ring _ _ _)].
  destruct (select_on_ring _ _ _) as [p|]; [exfalso|done]. destruct Hp as (k & Hk & _).
  apply orb_true_iff in Ee as [Ee%bool_decide_eq_true|Ee%bool_decide_eq_true].
  - apply Hi in Hk. rewrite Ee in Hk. by apply not_elem_of_nil in Hk.
  - by rewrite Ee, lookup_empty in Hk.
Qed.

Lemma addServer_ring p (s : Ring) s' :
  addServer p s = Ok tt s' ->
  heap_ s' = heap_ s /\ servers_ s' = servers_ s ++ [p] /\
  forall k, hash_ring_ (ext s') !! k = hash_ring_ (ext s) !! k \/ hash_ring_ (ext s') !! k = Some p.
Proof.
  intros E. unfold addServer in E.
  apply bind_inv_Ok in E as (u & s1 & [= _ <-] & E).
  apply bind_inv_Ok in E as (u2 & s2 & [= _ <-] & E).
  cbn [onServerAdded ConsistentHashBalancer] in E. unfold addServerToHashRing in E.
  apply bind_inv_Ok in E as (t & s3 & [= <- <-] & E). case_bool_decide; [|done].
  eapply (iterM_keeps (fun s' => heap_ s' = heap_ s /\ servers_ s' = servers_ s ++ [p] /\
    forall k, hash_ring_ (ext s') !! k = hash_ring_ (ext s) !! k \/ hash_ring_ (ext s') !! k = Some p)), E;
    [|split_and!; cbn; auto].
  intros i s1 v s2 _ (Hh & Hs & Hk) [= _ <-]. cbn. split_and!; [done..|].
  intros k. destruct (decide (hash_function_ (generateVirtualKey (id_of s1 p) (Z.of_nat i)) = k)) as [->|Hne].
  - rewrite lookup_insert_eq. by right.
  - rewrite lookup_insert_ne by done. apply Hk.
Qed.

Lemma removeServer_ring id (s : Ring) s' :
  registry_ok s -> removeServer id s = Ok true s' ->
  heap_ s' = heap_ s /\ servers_ s' = filter (fun q => id_of s q <> id) (servers_ s) /\
  hash_ring_ (ext s') = filter (fun kv => id_of s kv.2 <> id) (hash_ring_ (ext s)).
Proof.
  intros [Hreg _] E. unfold removeServer, mbind at 1, cpp_bind at 1, gets in E.
  destruct (server_map_ s !! id) as [p|] eqn:Em; [|done].
  destruct (Hreg _ _ Em) as [_ Hid]. injection E as <-. cbn. split_and!; [done..|].
  apply map_filter_ext. intros k q _. unfold id_of in *. cbn in *. by rewrite Hid.
Qed.

(** The states a client can bring a consistent-hash balancer to. *)
Definition reachable_ring (s : Ring) : Prop :=
  exists h vn ops, iterM perform ops (LoadBalancer_new h (ConsistentHash_new vn)) = Ok tt s.

Lemma reachable_ring_ok s : reachable_ring s -> registry_ok s /\ ring_inv (servers_ s) (ext s).
Proof.
  intros (h & vn & ops & E). cut (balancer_ok s); [done|].
  eapply run_ok, E. split; [apply registry_ok_new|apply ring_inv_empty].
Qed.

(** On every reachable state a selection by key returns the live server whose
    virtual node is the first clockwise from the hash of the key, and none exactly
    when no node of the ring belongs to a live server; in particular equal keys get
    equal servers as long as the ring and the health of the servers do not change. *)
Theorem ring_selects_clockwise s d key :
  reachable_ring s -> key <> ""%string ->
  exists r, ring_pick (alive s) (hash_ring_ (ext s)) (hash_function_ key) r /\
    (forall r', ring_pick (alive s) (hash_ring_ (ext s)) (hash_function_ key) r' -> r' = r) /\
    selectServer d key s = match r with
      | Some p => Ok (Some p) (set_heap (store p addConnection (heap_ s)) s)
      | None => Ok None s
      end.
Proof.
  intros [_ Hi]%reachable_ring_ok Hkey. destruct (select_ring s d key Hi Hkey) as (r & Hr & E).
  exists r. split_and!; [done| |done]. intros r' Hr'. by eapply ring_pick_unique.
Qed.

(** The answer of a selection, for the statements that compare answers. *)
Definition answer {S A} (m : result S (option A)) : option (option A) :=
  match m with Ok r _ => Some r | _ => None end.

(** C5. Minimal disruption. Removing a server leaves the answer for every key whose
    server was another one unchanged; adding a live server changes the answer for a
    key only to the new server. *)
Theorem ring_minimal_disruption s d key :
  reachable_ring s -> key <> ""%string ->
  (forall id s1 p, removeServer id s = Ok true s1 ->
     answer (selectServer d key s) = Some (Some p) -> id_of s p <> id ->
     answer (selectServer d key s1) = Some (Some p)) /\
  (forall p s1 r, addServer p s = Ok tt s1 -> alive s p = true ->
     answer (selectServer d key s) = Some r ->
     answer (selectServer d key s1) = Some r \/ answer (selectServer d key s1) = Some (Some p)).
Proof.
  intros Hreach Hkey. destruct (reachable_ring_ok s Hreach) as [Hreg Hi].
  assert (Hok : balancer_ok s) by (by split).
  destruct (select_ring s d key Hi Hkey) as (r0 & Hr0 & ->). split.
  - intros id s1 p E Ha Hid. assert (r0 = Some p) as -> by (destruct r0; cbn in Ha; congruence).
    destruct (remove_ok _ _ _ _ Hok E) as [_ Hi1].
    destruct (removeServer_ring _ _ _ Hreg E) as (Hh & _ & Hring).
    destruct (select_ring s1 d key Hi1 Hkey) as (r1 & Hr1 & ->).
    assert (r1 = Some p) as ->; [|done].
    eapply ring_pick_unique; [exact Hr1|]. unfold alive in *. rewrite Hh, Hring.
    eapply ring_pick_removed; [| |exact Hr0].
    + intros k q. rewrite map_lookup_filter_Some. tauto.
    + intros k Hk. by apply map_lookup_filter_Some.
  - intros p s1 r E Hp Ha. assert (r0 = r) as -> by (destruct r0; cbn in Ha; congruence).
    destruct (add_ok _ _ _ Hok E) as [_ Hi1].
    destruct (addServer_ring _ _ _ E) as (Hh & _ & Hring).
    destruct (select_ring s1 d key Hi1 Hkey) as (r1 & Hr1 & ->).
    unfold alive in Hr1. rewrite Hh in Hr1.
    destruct (ring_pick_added _ _ _ _ _ _ _ Hp Hring Hr0 Hr1) as [->| ->]; [left|right; done].
    by destruct r.
Qed.

(** Two live servers, and a third one to add or remove. *)
Definition ring_ops : list Op := [OpAdd 1; OpAdd 2]%nat.
Definition ring_sample : result Ring unit :=
  iterM perform ring_ops (LoadBalancer_new sample_store (ConsistentHash_new 3)).

Lemma ring_selects_clockwise_witness :
  exists s r, ring_sample = Ok tt s /\
    ring_pick (alive s) (hash_ring_ (ext s)) (hash_function_ "user42") r.
Proof.
  destruct ring_sample as [[] s| | |] eqn:E; try (vm_compute in E; discriminate E).
  assert (Hreach : reachable_ring s) by (exists sample_store, 3, ring_ops; exact E).
  destruct (ring_selects_clockwise s (mkDraw 0 0 0) "user42" Hreach ltac:(discriminate)) as (r & Hr & _).
  exists s, r. split; [done|exact Hr].
Defined.

Definition ring_answers (key : string) : option (option ptr) :=
  match ring_sample with Ok _ s => answer (selectServer (mkDraw 0 0 0) key s) | _ => None end.

Lemma ring_minimal_disruption_witness :
  exists s s1, ring_sample = Ok tt s /\ removeServer "s1" s = Ok true s1 /\
    answer (selectServer (mkDraw 0 0 0) "user42" s1) = Some (Some 2%nat).
Proof.
  assert (Hc : ring_answers "user42" = Some (Some 2%nat)) by (vm_compute; reflexivity).
  assert (Hd : match ring_sample with Ok _ s => match removeServer "s1" s with Ok b _ => b | _ => false end
               | _ => false end = true) by (vm_compute; reflexivity).
  assert (Hid : match ring_sample with Ok _ s => id_of s 2%nat | _ => "s1"%string end <> "s1"%string)
    by (vm_compute; discriminate).
  unfold ring_answers in Hc. destruct ring_sample as [[] s| | |] eqn:E; try discriminate Hc.
  destruct (removeServer "s1" s) as [[] s1| | |] eqn:E1; try discriminate Hd.
  exists s, s1. split; [done|]. split; [done|].
  assert (Hreach : reachable_ring s) by (exists sample_store, 3, ring_ops; exact E).
  exact (proj1 (ring_minimal_disruption s (mkDraw 0 0 0) "user42" Hreach ltac:(discriminate))
           "s1"%string s1 2%nat E1 Hc Hid).
Defined.
