(* ===== verification/RpcProtocol.v ===== *)
(** * RpcProtocol: the serializer and the wire format of StdRPC

    Models src/zsxq-cpp-ai/StdRPC/include/serializer.hpp and protocol.hpp. A byte is
    an [ascii], [std::string] is [string], and an arithmetic value is an integer in
    the range of its type ([float] and [double] are their bit patterns), copied in
    the little-endian order of the machine. [&buffer_\[n\]] with [n] the size of the
    buffer is taken as the past-the-end pointer, and copies of no bytes as no-ops;
    memory is unlimited. *)

From Stdlib Require Import Ascii String.
From S2P Require Import Prelude.

Local Open Scope Z_scope.

Abbreviation bytes := (list ascii).

Definition byte_of (v : Z) : ascii := ascii_of_nat (Z.to_nat (v `mod` 256)).
Definition of_byte (c : ascii) : Z := Z.of_nat (nat_of_ascii c).

(** The memory of an integer of [n] bytes. *)
Fixpoint le_encode (n : nat) (v : Z) : bytes :=
  match n with O => [] | S n' => byte_of v :: le_encode n' (v / 256) end.
Fixpoint le_decode (l : bytes) : Z :=
  match l with [] => 0 | c :: l' => of_byte c + 256 * le_decode l' end.

(** ** The arithmetic types of the templates ([bool] excepted) *)

Inductive arith : Set :=
  | Uint8 | Uint16 | Uint32 | Uint64 | Int8 | Int16 | Int32 | Int64 | Float | Double.

Definition sizeof (a : arith) : nat :=
  match a with
  | Uint8 | Int8 => 1
  | Uint16 | Int16 => 2
  | Uint32 | Int32 | Float => 4
  | Uint64 | Int64 | Double => 8
  end.

Definition signed (a : arith) : bool :=
  match a with Int8 | Int16 | Int32 | Int64 => true | _ => false end.

Definition modulus (a : arith) : Z := 2 ^ (8 * Z.of_nat (sizeof a)).

(** The value whose memory is the given bit pattern. *)
Definition of_bits (a : arith) (z : Z) : Z :=
  if signed a && (modulus a / 2 <=? z) then z - modulus a else z.

Definition in_range (a : arith) (v : Z) : Prop :=
  if signed a then - (modulus a / 2) <= v < modulus a / 2 else 0 <= v < modulus a.

(** ** The serializer *)

Record Serializer : Set := mkSerializer { buffer_ : bytes; read_pos_ : nat }.

Definition Serializer_new : Serializer := mkSerializer [] 0.
Definition Serializer_from (data : bytes) : Serializer := mkSerializer data 0.

Definition getData (s : Serializer) : bytes := buffer_ s.
Definition getSize (s : Serializer) : nat := length (buffer_ s).
Definition clear : cpp Serializer unit := modify (fun _ => mkSerializer [] 0).
Definition resetReadPos : cpp Serializer unit := modify (fun s => mkSerializer (buffer_ s) 0).
Definition hasData (s : Serializer) : bool := Nat.ltb (read_pos_ s) (length (buffer_ s)).
Definition remainingBytes (s : Serializer) : nat := length (buffer_ s) - read_pos_ s.

(** Every write grows the buffer and copies. *)
Definition writeRaw (data : bytes) : cpp Serializer unit :=
  modify (fun s => mkSerializer (buffer_ s ++ data) (read_pos_ s)).

Definition write_arith (a : arith) (v : Z) : cpp Serializer unit := writeRaw (le_encode (sizeof a) v).

(** The length is truncated to 32 bits, and only so many characters are copied. *)
Definition write_string (str : string) : cpp Serializer unit :=
  let size := wrap32 (Z.of_nat (String.length str)) in
  write_arith Uint32 size ;;
  if 0 <? size then writeRaw (take (Z.to_nat size) (list_ascii_of_string str)) else mret tt.

Definition write_vector {A} (write : A -> cpp Serializer unit) (vec : list A) : cpp Serializer unit :=
  write_arith Uint32 (wrap32 (Z.of_nat (length vec))) ;; iterM write vec.

(** Copying [n] bytes out and advancing. *)
Definition readRaw (n : nat) : cpp Serializer bytes :=
  s ← get;
  if Nat.ltb (length (buffer_ s)) (read_pos_ s + n) then throw "序列化器：原始数据读取越界"
  else
    modify (fun s => mkSerializer (buffer_ s) (read_pos_ s + n)) ;;
    mret (take n (drop (read_pos_ s) (buffer_ s))).

Definition read_arith (a : arith) : cpp Serializer Z :=
  s ← get;
  if Nat.ltb (length (buffer_ s)) (read_pos_ s + sizeof a) then throw "序列化器：读取越界"
  else
    modify (fun s => mkSerializer (buffer_ s) (read_pos_ s + sizeof a)) ;;
    mret (of_bits a (le_decode (take (sizeof a) (drop (read_pos_ s) (buffer_ s))))).

Definition readString : cpp Serializer string :=
  size ← read_arith Uint32;
  s ← get;
  let n := Z.to_nat size in
  if Nat.ltb (length (buffer_ s)) (read_pos_ s + n) then throw "序列化器：字符串读取越界"
  else
    modify (fun s => mkSerializer (buffer_ s) (read_pos_ s + n)) ;;
    mret (string_of_list_ascii (take n (drop (read_pos_ s) (buffer_ s)))).

Fixpoint read_items {A} (read : cpp Serializer A) (n : nat) : cpp Serializer (list A) :=
  match n with
  | O => mret []
  | S n' => x ← read; xs ← read_items read n'; mret (x :: xs)
  end.

Definition readVector {A} (read : cpp Serializer A) : cpp Serializer (list A) :=
  size ← read_arith Uint32; read_items read (Z.to_nat size).

(** ** Messages *)

Module MessageType.
Inductive MessageType : Set := REQUEST | RESPONSE | ERROR | HEARTBEAT | Unnamed (n : Z).
Definition to_u8 (t : MessageType) : Z :=
  match t with REQUEST => 1 | RESPONSE => 2 | ERROR => 3 | HEARTBEAT => 4 | Unnamed n => n end.
(** [static_cast] of any byte. *)
Definition of_u8 (n : Z) : MessageType :=
  if n =? 1 then REQUEST else if n =? 2 then RESPONSE else if n =? 3 then ERROR
  else if n =? 4 then HEARTBEAT else Unnamed n.
#[global] Instance message_type_eq_dec : EqDecision MessageType.
Proof. solve_decision. Defined.
End MessageType.
Import MessageType.

Module StatusCode.
Inductive StatusCode : Set :=
  | OK | METHOD_NOT_FOUND | INVALID_PARAMS | INTERNAL_ERROR | SERIALIZATION_ERROR
  | NETWORK_ERROR | TIMEOUT | Unnamed_status (n : Z).
Definition to_u16 (c : StatusCode) : Z :=
  match c with
  | OK => 0 | METHOD_NOT_FOUND => 1 | INVALID_PARAMS => 2 | INTERNAL_ERROR => 3
  | SERIALIZATION_ERROR => 4 | NETWORK_ERROR => 5 | TIMEOUT => 6 | Unnamed_status n => n
  end.
Definition of_u16 (n : Z) : StatusCode :=
  if n =? 0 then OK else if n =? 1 then METHOD_NOT_FOUND else if n =? 2 then INVALID_PARAMS
  else if n =? 3 then INTERNAL_ERROR else if n =? 4 then SERIALIZATION_ERROR
  else if n =? 5 then NETWORK_ERROR else if n =? 6 then TIMEOUT else Unnamed_status n.
#[global] Instance status_code_eq_dec : EqDecision StatusCode.
Proof. solve_decision. Defined.
End StatusCode.
Import StatusCode.

Definition RPC_MAGIC : Z := 0x52504343.

Record MessageHeader : Set := mkHeader {
  magic : Z; version : Z; type : MessageType; request_id : Z; body_size : Z }.

Definition header_serialize (h : MessageHeader) : cpp Serializer unit :=
  write_arith Uint32 (magic h) ;;
  write_arith Uint8 (version h) ;;
  write_arith Uint8 (to_u8 (type h)) ;;
  write_arith Uint32 (request_id h) ;;
  write_arith Uint32 (body_size h).

Definition getHeaderSize : nat :=
  sizeof Uint32 + sizeof Uint8 + sizeof Uint8 + sizeof Uint32 + sizeof Uint32.

(** [None] is the result [false]; the header is then abandoned. *)
Definition header_deserialize : cpp Serializer (option MessageHeader) :=
  s ← get;
  if Nat.ltb (remainingBytes s) getHeaderSize then mret None else
  m ← read_arith Uint32;
  if negb (m =? RPC_MAGIC) then mret None else
  v ← read_arith Uint8;
  t ← read_arith Uint8;
  id ← read_arith Uint32;
  n ← read_arith Uint32;
  mret (Some (mkHeader m v (of_u8 t) id n)).

Record RequestMessage : Set := mkRequest { method_name : string; params_data : bytes }.

Definition request_serialize (r : RequestMessage) : cpp Serializer unit :=
  write_string (method_name r) ;;
  write_arith Uint32 (wrap32 (Z.of_nat (length (params_data r)))) ;;
  writeRaw (params_data r).

Definition request_deserialize : cpp Serializer RequestMessage :=
  name ← readString;
  size ← read_arith Uint32;
  params ← readRaw (Z.to_nat size);
  mret (mkRequest name params).

Record ResponseMessage : Set := mkResponse {
  status : StatusCode; result_data : bytes; error_message : string }.

Definition response_serialize (r : ResponseMessage) : cpp Serializer unit :=
  write_arith Uint16 (to_u16 (status r)) ;;
  write_arith Uint32 (wrap32 (Z.of_nat (length (result_data r)))) ;;
  writeRaw (result_data r) ;;
  write_string (error_message r).

Definition response_deserialize : cpp Serializer ResponseMessage :=
  st ← read_arith Uint16;
  size ← read_arith Uint32;
  result ← readRaw (Z.to_nat size);
  err ← readString;
  mret (mkResponse (of_u16 st) result err).

Record Message : Set := mkMessage { header_ : MessageHeader; body_ : bytes }.

(** What a sequence of writes puts in a fresh serializer. *)
Definition output (w : cpp Serializer unit) : bytes :=
  match w Serializer_new with Ok _ s => getData s | _ => [] end.

Definition message_of (t : MessageType) (id : Z) (body : bytes) : Message :=
  mkMessage (mkHeader RPC_MAGIC 1 t id (wrap32 (Z.of_nat (length body)))) body.
Definition Message_request (id : Z) (r : RequestMessage) : Message :=
  message_of REQUEST id (output (request_serialize r)).
Definition Message_response (id : Z) (r : ResponseMessage) : Message :=
  message_of RESPONSE id (output (response_serialize r)).

Definition setBody (body : bytes) (m : Message) : Message :=
  let h := header_ m in
  mkMessage (mkHeader (magic h) (version h) (type h) (request_id h) (wrap32 (Z.of_nat (length body)))) body.

Definition message_serialize (m : Message) : bytes :=
  output (header_serialize (header_ m) ;; writeRaw (body_ m)).

Definition message_deserialize (data : bytes) : option Message :=
  if Nat.ltb (length data) getHeaderSize then None else
  match header_deserialize (Serializer_from (take getHeaderSize data)) with
  | Ok (Some h) _ =>
      let n := Z.to_nat (body_size h) in
      if Nat.ltb (length data) (getHeaderSize + n) then None
      else Some (mkMessage h (take n (drop getHeaderSize data)))
  | _ => None
  end.

(** ** Little-endian round trip *)

Lemma of_byte_byte_of v : of_byte (byte_of v) = v `mod` 256.
Proof.
  unfold of_byte, byte_of. pose proof (Z.mod_pos_bound v 256 ltac:(lia)).
  rewrite nat_ascii_embedding by lia. lia.
Qed.

Lemma length_le_encode n v : length (le_encode n v) = n.
Proof. revert v. induction n as [|n IH]; intros v; cbn; [done|]. by rewrite IH. Qed.

Lemma le_decode_encode n v : le_decode (le_encode n v) = v `mod` 2 ^ (8 * Z.of_nat n).
Proof.
  revert v. induction n as [|n IH]; intros v; cbn [le_encode le_decode]; [by rewrite Z.mod_1_r|].
  rewrite of_byte_byte_of, IH. replace (8 * Z.of_nat (S n)) with (8 + 8 * Z.of_nat n) by lia.
  rewrite Z.pow_add_r by lia. change (2 ^ 8) with 256.
  rewrite Z.rem_mul_r by lia. lia.
Qed.

Lemma modulus_even a : 0 < modulus a /\ modulus a = 2 * (modulus a / 2).
Proof. by destruct a. Qed.

Lemma of_bits_encode a v : in_range a v -> of_bits a (v `mod` modulus a) = v.
Proof.
  unfold in_range, of_bits. destruct (modulus_even a) as [Hp He].
  set (h := modulus a / 2) in *. rewrite He in *. destruct (signed a); cbn [andb].
  - intros H. destruct (decide (0 <= v)).
    + rewrite Z.mod_small by lia. destruct (Z.leb_spec h v); lia.
    + rewrite <-(Z.mod_add v 1), Z.mod_small by lia. destruct (Z.leb_spec h (v + 1 * (2 * h))); lia.
  - intros H. by rewrite Z.mod_small by lia.
Qed.

(** ** Writing appends, reading consumes

    [appends w b]: the write [w] appends [b]. [reads r b x]: at the start of [b],
    whatever surrounds it, [r] returns [x] and stops after [b]. *)

Definition appends (w : cpp Serializer unit) (b : bytes) : Prop :=
  forall s, w s = Ok tt (mkSerializer (buffer_ s ++ b) (read_pos_ s)).

Definition reads {A} (r : cpp Serializer A) (b : bytes) (x : A) : Prop :=
  forall pre post, r (mkSerializer (pre ++ b ++ post) (length pre)) =
    Ok x (mkSerializer (pre ++ b ++ post) (length pre + length b)).

Lemma appends_raw b : appends (writeRaw b) b.
Proof. done. Qed.

Lemma appends_nil : appends (mret tt) [].
Proof. intros [b p]. cbn. by rewrite app_nil_r. Qed.

Lemma appends_seq w1 w2 b1 b2 : appends w1 b1 -> appends w2 b2 -> appends (w1 ;; w2) (b1 ++ b2).
Proof.
  intros H1 H2 s. unfold mbind, cpp_bind. rewrite H1, H2. cbn. by rewrite app_assoc.
Qed.

Lemma appends_iter {A} (w : A -> cpp Serializer unit) (enc : A -> bytes) l :
  (forall x, x ∈ l -> appends (w x) (enc x)) -> appends (iterM w l) (concat (enc <$> l)).
Proof.
  induction l as [|x l IH]; intros H; cbn [iterM fmap list_fmap concat]; [apply appends_nil|].
  apply appends_seq; [apply H; by left|]. apply IH. intros y Hy. apply H. by right.
Qed.

Lemma appends_output w b : appends w b -> output w = b.
Proof. intros H. unfold output. by rewrite H. Qed.

Lemma reads_ret {A} (x : A) : reads (mret x) [] x.
Proof. intros pre post. cbn. by rewrite Nat.add_0_r. Qed.

Lemma reads_bind {A B} (r : cpp Serializer A) (k : A -> cpp Serializer B) b1 b2 x y :
  reads r b1 x -> reads (k x) b2 y -> reads (r ≫= k) (b1 ++ b2) y.
Proof.
  intros H1 H2 pre post. unfold mbind, cpp_bind.
  rewrite <-app_assoc, H1. specialize (H2 (pre ++ b1) post).
  rewrite length_app, <-app_assoc in H2. rewrite H2. by rewrite length_app, Nat.add_assoc.
Qed.

(** For the last step of a sequence of reads. *)
Lemma reads_map {A B} (r : cpp Serializer A) (f : A -> B) b x :
  reads r b x -> reads (a ← r; mret (f a)) b (f x).
Proof. intros H pre post. unfold mbind, cpp_bind. by rewrite H. Qed.

Lemma window pre (b post : bytes) : take (length b) (drop (length pre) (pre ++ b ++ post)) = b.
Proof. rewrite drop_app_length. apply take_app_length. Qed.

Lemma fits pre (b post : bytes) : Nat.ltb (length (pre ++ b ++ post)) (length pre + length b) = false.
Proof. rewrite Nat.ltb_ge, !length_app. lia. Qed.

Lemma reads_raw b : reads (readRaw (length b)) b b.
Proof.
  intros pre post. unfold readRaw, mbind, cpp_bind, get. cbn [buffer_ read_pos_].
  by rewrite fits, window.
Qed.

Lemma reads_arith a v : in_range a v -> reads (read_arith a) (le_encode (sizeof a) v) v.
Proof.
  intros Hr pre post. unfold read_arith, mbind, cpp_bind, get. cbn [buffer_ read_pos_].
  set (b := le_encode (sizeof a) v).
  assert (Hl : sizeof a = length b) by (unfold b; by rewrite length_le_encode).
  rewrite Hl, fits, window. unfold b. rewrite le_decode_encode. fold (modulus a).
  by rewrite of_bits_encode.
Qed.

(** ** Strings and vectors *)

Lemma length_list_ascii s : length (list_ascii_of_string s) = String.length s.
Proof. induction s as [|c s IH]; cbn; [done|]. by rewrite IH. Qed.

(** Lengths that fit the 32-bit prefix. *)
Definition fits32 (n : nat) : Prop := Z.of_nat n < 2 ^ 32.

Definition string_bytes (s : string) : bytes :=
  le_encode 4 (Z.of_nat (String.length s)) ++ list_ascii_of_string s.

Lemma appends_string s : fits32 (String.length s) -> appends (write_string s) (string_bytes s).
Proof.
  unfold fits32. intros H. unfold write_string. rewrite wrap32_small by lia.
  apply (appends_seq _ _ (le_encode 4 (Z.of_nat (String.length s)))); [done|].
  destruct (Z.ltb_spec 0 (Z.of_nat (String.length s))).
  - rewrite Nat2Z.id, <-length_list_ascii, take_ge by done. apply appends_raw.
  - destruct s; [apply appends_nil|cbn in *; lia].
Qed.

Lemma in_range_u32 n : fits32 n -> in_range Uint32 (Z.of_nat n).
Proof. unfold fits32, in_range. cbn. unfold modulus. cbn. lia. Qed.

Lemma reads_string s : fits32 (String.length s) -> reads readString (string_bytes s) s.
Proof.
  intros H. unfold readString. eapply reads_bind; [by apply reads_arith, in_range_u32|].
  intros pre post. unfold mbind, cpp_bind, get. cbn [buffer_ read_pos_].
  rewrite Nat2Z.id, <-length_list_ascii, fits, window, string_of_list_ascii_of_string. done.
Qed.

Lemma reads_items {A} (r : cpp Serializer A) (enc : A -> bytes) l :
  (forall x, x ∈ l -> reads r (enc x) x) -> reads (read_items r (length l)) (concat (enc <$> l)) l.
Proof.
  induction l as [|x l IH]; intros H; [apply reads_ret|]. cbn [read_items length fmap list_fmap concat].
  eapply reads_bind; [apply H; by left|]. apply (reads_map _ (cons x)), IH.
  intros y Hy. apply H. by right.
Qed.

Lemma appends_vector {A} (w : A -> cpp Serializer unit) (enc : A -> bytes) l :
  fits32 (length l) -> (forall x, x ∈ l -> appends (w x) (enc x)) ->
  appends (write_vector w l) (le_encode 4 (Z.of_nat (length l)) ++ concat (enc <$> l)).
Proof.
  unfold fits32. intros Hl H. unfold write_vector. rewrite wrap32_small by lia.
  apply appends_seq; [apply appends_raw|by apply appends_iter].
Qed.

Lemma reads_vector {A} (r : cpp Serializer A) (enc : A -> bytes) l :
  fits32 (length l) -> (forall x, x ∈ l -> reads r (enc x) x) ->
  reads (readVector r) (le_encode 4 (Z.of_nat (length l)) ++ concat (enc <$> l)) l.
Proof.
  intros Hl H. unfold readVector. eapply reads_bind; [by apply (reads_arith Uint32), in_range_u32|].
  rewrite Nat2Z.id. by apply reads_items.
Qed.

(** Composes the writes of a message. *)
Ltac appends_tac :=
  repeat first [ (apply appends_string; done) | apply appends_raw | apply appends_seq ].

(** ** Messages round-trip *)

Definition request_bytes (r : RequestMessage) : bytes :=
  string_bytes (method_name r) ++ le_encode 4 (Z.of_nat (length (params_data r))) ++ params_data r.

Definition request_ok (r : RequestMessage) : Prop :=
  fits32 (String.length (method_name r)) /\ fits32 (length (params_data r)).

Lemma request_appends r : request_ok r -> appends (request_serialize r) (request_bytes r).
Proof.
  intros [H1 H2]. unfold request_serialize, request_bytes, fits32 in *. rewrite wrap32_small by lia.
  appends_tac.
Qed.

Lemma request_reads r : request_ok r -> reads request_deserialize (request_bytes r) r.
Proof.
  intros [H1 H2]. unfold request_deserialize. eapply reads_bind; [by apply reads_string|].
  eapply reads_bind; [by apply (reads_arith Uint32), in_range_u32|].
  rewrite Nat2Z.id. destruct r as [n p]. apply (reads_map _ (mkRequest n)), reads_raw.
Qed.

Definition response_bytes (r : ResponseMessage) : bytes :=
  le_encode 2 (to_u16 (status r)) ++ le_encode 4 (Z.of_nat (length (result_data r))) ++
  result_data r ++ string_bytes (error_message r).

Definition named_status (c : StatusCode) : Prop :=
  match c with Unnamed_status _ => False | _ => True end.

Definition response_ok (r : ResponseMessage) : Prop :=
  named_status (status r) /\ fits32 (length (result_data r)) /\
  fits32 (String.length (error_message r)).

Lemma response_appends r : response_ok r -> appends (response_serialize r) (response_bytes r).
Proof.
  intros (_ & H2 & H3). unfold response_serialize, response_bytes, fits32 in *. rewrite wrap32_small by lia.
  appends_tac.
Qed.

Lemma status_range c : named_status c -> in_range Uint16 (to_u16 c).
Proof. by destruct c. Qed.
Lemma status_roundtrip c : named_status c -> of_u16 (to_u16 c) = c.
Proof. by destruct c. Qed.

Lemma response_reads r : response_ok r -> reads response_deserialize (response_bytes r) r.
Proof.
  intros (H1 & H2 & H3). unfold response_deserialize.
  eapply reads_bind; [by apply (reads_arith Uint16), status_range|].
  eapply reads_bind; [by apply (reads_arith Uint32), in_range_u32|].
  rewrite Nat2Z.id, status_roundtrip by done.
  eapply reads_bind; [apply reads_raw|]. destruct r as [c d e].
  by apply (reads_map _ (mkResponse c d)), reads_string.
Qed.

Definition header_bytes (h : MessageHeader) : bytes :=
  le_encode 4 (magic h) ++ le_encode 1 (version h) ++ le_encode 1 (to_u8 (type h)) ++
  le_encode 4 (request_id h) ++ le_encode 4 (body_size h).

Lemma length_header_bytes h : length (header_bytes h) = getHeaderSize.
Proof. unfold header_bytes. by rewrite !length_app, !length_le_encode. Qed.

Lemma message_serialize_bytes m : message_serialize m = header_bytes (header_ m) ++ body_ m.
Proof.
  unfold message_serialize. apply appends_output.
  apply (appends_seq _ _ (header_bytes (header_ m))); [|apply appends_raw].
  unfold header_serialize, header_bytes. appends_tac.
Qed.

Definition header_ok (h : MessageHeader) : Prop :=
  magic h = RPC_MAGIC /\ in_range Uint8 (version h) /\
  (in_range Uint8 (to_u8 (type h)) /\ of_u8 (to_u8 (type h)) = type h) /\
  in_range Uint32 (request_id h) /\ in_range Uint32 (body_size h).

Lemma header_reads h : header_ok h ->
  header_deserialize (Serializer_from (header_bytes h)) =
    Ok (Some h) (mkSerializer (header_bytes h) getHeaderSize).
Proof.
  intros (H1 & H2 & (H3 & H4) & H5 & H6). unfold header_deserialize, mbind at 1, cpp_bind at 1, get at 1.
  unfold remainingBytes. cbn [buffer_ read_pos_ Serializer_from].
  rewrite length_header_bytes. cbn [Nat.sub Nat.ltb].
  assert (Hr : reads (m ← read_arith Uint32;
      if negb (m =? RPC_MAGIC) then mret None else
      v ← read_arith Uint8; t ← read_arith Uint8; id ← read_arith Uint32; n ← read_arith Uint32;
      mret (Some (mkHeader m v (of_u8 t) id n))) (header_bytes h) (Some h)).
  { unfold header_bytes. eapply reads_bind; [apply (reads_arith Uint32); by rewrite H1|].
    rewrite H1, Z.eqb_refl. cbn [negb].
    eapply reads_bind; [by apply (reads_arith Uint8)|].
    eapply reads_bind; [by apply (reads_arith Uint8)|].
    eapply reads_bind; [by apply (reads_arith Uint32)|].
    destruct h as [m v t i n]. cbn in *. subst. rewrite H4.
    by apply (reads_map _ (fun n => Some (mkHeader RPC_MAGIC v t i n))), (reads_arith Uint32). }
  specialize (Hr [] []). cbn [app length] in Hr. rewrite app_nil_r, length_header_bytes in Hr.
  exact Hr.
Qed.

Definition message_ok (m : Message) : Prop :=
  header_ok (header_ m) /\ body_size (header_ m) = Z.of_nat (length (body_ m)).

Lemma take_header h rest : take getHeaderSize (header_bytes h ++ rest) = header_bytes h.
Proof. rewrite <-(length_header_bytes h). apply take_app_length. Qed.
Lemma drop_header h rest : drop getHeaderSize (header_bytes h ++ rest) = rest.
Proof. rewrite <-(length_header_bytes h). apply drop_app_length. Qed.

Lemma message_decodes m rest : message_ok m ->
  message_deserialize (message_serialize m ++ rest) = Some m.
Proof.
  intros [Hh Hb]. rewrite message_serialize_bytes, <-app_assoc. unfold message_deserialize.
  rewrite take_header, drop_header, header_reads by done.
  rewrite !length_app, length_header_bytes, Hb, Nat2Z.id, take_app_length.
  rewrite (proj2 (Nat.ltb_ge _ _)) by lia. rewrite (proj2 (Nat.ltb_ge _ _)) by lia.
  by destruct m.
Qed.

Lemma message_of_ok t id body :
  in_range Uint8 (to_u8 t) -> of_u8 (to_u8 t) = t -> in_range Uint32 id -> fits32 (length body) ->
  message_ok (message_of t id body).
Proof.
  intros H1 H2 H3 H4. unfold fits32 in H4. split; [|by cbn; rewrite wrap32_small by lia].
  split_and!; try done. cbn [body_size header_ message_of].
  rewrite wrap32_small by lia. by apply in_range_u32.
Qed.
