(* ===== verification/RpcTransport.v ===== *)
(** * RpcTransport: messages over a TCP connection

    Models [TcpConnection] of src/zsxq-cpp-ai/StdRPC/include/tcp_transport.hpp. The
    peer and the network appear as the list of events that the polls and [recv]s of a
    connection will see: a piece of data (never empty), a poll that times out (or is
    interrupted), or the end of the stream. When no event is left a poll times out:
    every caller passes a timeout. *)

From Stdlib Require Import Ascii String.
From S2P Require Import Prelude RpcProtocol.

Local Open Scope Z_scope.

Inductive NetEvent : Set :=
  | Data (b : ascii) (bs : bytes)
  | Timeout
  | Closed.

Record TcpConnection : Set := mkConn {
  connected_ : bool; incoming : list NetEvent; outgoing : bytes }.

Definition set_incoming (es : list NetEvent) (c : TcpConnection) : TcpConnection :=
  mkConn (connected_ c) es (outgoing c).

(** What is left of a piece of data after a [recv]. *)
Definition unread (l : bytes) (es : list NetEvent) : list NetEvent :=
  match l with [] => es | b :: bs => Data b bs :: es end.

(** The bytes received; none stands for the results 0 and -1. *)
Definition receive (size : nat) : cpp TcpConnection bytes :=
  c ← get;
  if negb (connected_ c) then mret [] else
  match incoming c with
  | [] => mret []
  | Timeout :: es => modify (set_incoming es) ;; mret []
  | Closed :: es => modify (fun c => mkConn false es (outgoing c)) ;; mret []
  | Data b bs :: es =>
      modify (set_incoming (unread (drop size (b :: bs)) es)) ;; mret (take size (b :: bs))
  end.

(** The loop of [receiveAll] with [size] bytes to go; each turn receives at least
    one byte, so as many turns suffice. *)
Fixpoint receive_loop (fuel size : nat) (acc : bytes) : cpp TcpConnection (option bytes) :=
  if Nat.eqb size 0 then mret (Some acc) else
  match fuel with
  | O => undefined "out of fuel"
  | S fuel' =>
      got ← receive size;
      match got with
      | [] => mret None
      | _ :: _ => receive_loop fuel' (size - length got) (acc ++ got)
      end
  end.
Definition receiveAll (size : nat) : cpp TcpConnection (option bytes) := receive_loop size size [].

(** The loop of [send] retries interrupted calls, so it ends in one of two ways: all
    bytes are accepted, or a system call fails after some of them ([limit]). The
    result -1 is [None]. *)
Definition send (limit : option nat) (data : bytes) : cpp TcpConnection (option nat) :=
  c ← get;
  if negb (connected_ c) then mret None else
  match limit with
  | Some k =>
      if Nat.ltb k (length data) then
        modify (fun c => mkConn false (incoming c) (outgoing c ++ take k data)) ;; mret None
      else modify (fun c => mkConn true (incoming c) (outgoing c ++ data)) ;; mret (Some (length data))
  | None => modify (fun c => mkConn true (incoming c) (outgoing c ++ data)) ;; mret (Some (length data))
  end.

Definition sendMessage (limit : option nat) (msg : Message) : cpp TcpConnection bool :=
  let data := message_serialize msg in
  sent ← send limit data;
  mret (bool_decide (sent = Some (length data))).

Definition receiveMessage : cpp TcpConnection (option Message) :=
  hb ← receiveAll getHeaderSize;
  match hb with
  | None => mret None
  | Some header_buf =>
      match header_deserialize (Serializer_from header_buf) with
      | Ok (Some header) _ =>
          body ← (if 0 <? body_size header then receiveAll (Z.to_nat (body_size header))
                  else mret (Some []));
          match body with
          | None => mret None
          | Some b => mret (message_deserialize (header_buf ++ b))
          end
      | _ => mret None
      end
  end.

Definition close : cpp TcpConnection unit :=
  modify (fun c => mkConn false (incoming c) (outgoing c)).

(** ** Framing *)

(** The stream is delivered without interruption, cut in any way. *)
Fixpoint delivers (es : list NetEvent) : option bytes :=
  match es with
  | [] => Some []
  | Data b bs :: es' => rest ← delivers es'; Some (b :: bs ++ rest)
  | _ => None
  end.

Lemma delivers_unread l es rest :
  delivers es = Some rest -> delivers (unread l es) = Some (l ++ rest).
Proof. intros H. destruct l as [|b bs]; cbn; [done|]. by rewrite H. Qed.

Definition stream (c : TcpConnection) (l : bytes) : Prop :=
  connected_ c = true /\ delivers (incoming c) = Some l.

(** One [recv] takes a non-empty prefix, no longer than asked. *)
Lemma receive_prefix c l n :
  stream c l -> (0 < n)%nat -> l <> [] ->
  exists got rest, l = got ++ rest /\ (0 < length got <= n)%nat /\
    exists c', receive n c = Ok got c' /\ stream c' rest /\ outgoing c' = outgoing c.
Proof.
  intros [Hc Hd] Hn Hl. unfold receive, mbind, cpp_bind, get. rewrite Hc. cbn [negb].
  destruct (incoming c) as [|[b bs| |] es]; cbn in Hd; [congruence| |done|done].
  destruct (delivers es) as [rest|] eqn:Ed; cbn in Hd; [|done]. injection Hd as <-.
  exists (take n (b :: bs)), (drop n (b :: bs) ++ rest).
  rewrite app_assoc, take_drop. split; [done|]. split; [rewrite length_take; cbn; lia|].
  eexists. split; [done|]. split; [|done]. split; [done|]. cbn. by apply delivers_unread.
Qed.

Lemma receive_loop_exact fuel l rest acc c :
  stream c (l ++ rest) -> (length l <= fuel)%nat ->
  exists c', receive_loop fuel (length l) acc c = Ok (Some (acc ++ l)) c' /\
    stream c' rest /\ outgoing c' = outgoing c.
Proof.
  revert l acc c. induction fuel as [|fuel IH]; intros l acc c Hs Hf.
  - destruct l; [|cbn in Hf; lia]. cbn. exists c. by rewrite app_nil_r.
  - destruct (decide (l = [])) as [->|Hl]; [cbn; exists c; by rewrite app_nil_r|].
    assert (0 < length l)%nat by (destruct l; cbn; [done|lia]).
    destruct (receive_prefix c (l ++ rest) (length l)) as (got & r & E & Hlen & c' & Er & Hs' & Ho);
      [done|done|destruct l; done|].
    cbn [receive_loop]. rewrite (proj2 (Nat.eqb_neq _ _)) by lia.
    rewrite (bind_Ok _ _ _ _ _ Er). destruct got as [|g got]; [cbn in Hlen; lia|].
    assert (Hsplit : l = (g :: got) ++ drop (length (g :: got)) l).
    { rewrite <-(take_drop (length (g :: got)) l) at 1. f_equal.
      apply (f_equal (take (length (g :: got)))) in E.
      rewrite take_app_le, take_app_length in E by lia. done. }
    set (l2 := drop (length (g :: got)) l) in *.
    assert (Hl2 : (length l - length (g :: got) = length l2)%nat) by (unfold l2; by rewrite length_drop).
    rewrite Hl2. rewrite Hsplit, <-app_assoc in E. apply app_inv_head in E. subst r.
    destruct (IH l2 (acc ++ g :: got) c' Hs' ltac:(cbn in *; lia)) as (c'' & E2 & Hs2 & Ho2).
    exists c''. rewrite E2, <-app_assoc. rewrite <-Hsplit. by rewrite Ho2.
Qed.

Lemma receiveAll_exact l rest c :
  stream c (l ++ rest) ->
  exists c', receiveAll (length l) c = Ok (Some l) c' /\ stream c' rest /\ outgoing c' = outgoing c.
Proof. intros Hs. unfold receiveAll. by apply (receive_loop_exact (length l) l rest []). Qed.

Lemma receiveMessage_exact m rest c :
  message_ok m -> stream c (message_serialize m ++ rest) ->
  exists c', receiveMessage c = Ok (Some m) c' /\ stream c' rest /\ outgoing c' = outgoing c.
Proof.
  intros Hm Hs. pose proof Hm as [Hh Hb].
  rewrite message_serialize_bytes, <-app_assoc in Hs.
  destruct (receiveAll_exact _ _ _ Hs) as (c1 & E1 & Hs1 & Ho1). rewrite length_header_bytes in E1.
  unfold receiveMessage. rewrite (bind_Ok _ _ _ _ _ E1), header_reads by done.
  destruct (receiveAll_exact _ _ _ Hs1) as (c2 & E2 & Hs2 & Ho2).
  assert (Hbody : (if 0 <? body_size (header_ m) then receiveAll (Z.to_nat (body_size (header_ m)))
                   else mret (Some [])) c1 = Ok (Some (body_ m)) (if 0 <? body_size (header_ m) then c2 else c1)).
  { rewrite Hb, Nat2Z.id. destruct (Z.ltb_spec 0 (Z.of_nat (length (body_ m)))); [done|].
    destruct (body_ m); [done|cbn in *; lia]. }
  rewrite (bind_Ok _ _ _ _ _ Hbody).
  rewrite <-message_serialize_bytes, <-(app_nil_r (message_serialize m)), message_decodes by done.
  eexists. split; [done|]. destruct (Z.ltb_spec 0 (body_size (header_ m))); [by rewrite Ho2|].
  rewrite Hb in *. destruct (body_ m); [done|cbn in *; lia].
Qed.
