(* ===== verification/RpcServer.v ===== *)
(** * RpcServer: dispatch, typed handlers and the client of StdRPC

    Models src/zsxq-cpp-ai/StdRPC/include/rpc_server.hpp and rpc_client.hpp on top of
    the wire format and the transport. The functions registered with a server are
    arbitrary computations on a state of the application. The client is split at its
    locks: starting a call, sending it, completing it from the receiver thread, giving
    up on a timeout; any interleaving of these by any number of threads is a sequence
    of steps of [rpc_step]. *)

From Stdlib Require Import Ascii String.
From S2P Require Import Prelude RpcProtocol RpcTransport.
Import MessageType StatusCode.

Local Open Scope Z_scope.

(** ** Values the templates carry *)

Inductive ty : Set := TArith (a : arith) | TStr | TVec (a : arith) | TVecStr.
Inductive val : Set :=
  | VArith (a : arith) (v : Z) | VStr (s : string) | VVec (a : arith) (l : list Z)
  | VVecStr (l : list string).

Definition write_val (v : val) : cpp Serializer unit :=
  match v with
  | VArith a v => write_arith a v
  | VStr s => write_string s
  | VVec a l => write_vector (write_arith a) l
  | VVecStr l => write_vector write_string l
  end.

Definition read_val (t : ty) : cpp Serializer val :=
  match t with
  | TArith a => v ← read_arith a; mret (VArith a v)
  | TStr => s ← readString; mret (VStr s)
  | TVec a => l ← readVector (read_arith a); mret (VVec a l)
  | TVecStr => l ← readVector readString; mret (VVecStr l)
  end.

(** Parameter packs. *)
Definition serializeArgs (vs : list val) : cpp Serializer unit := iterM write_val vs.

Fixpoint deserializeArgs (ts : list ty) : cpp Serializer (list val) :=
  match ts with
  | [] => mret []
  | t :: ts' => v ← read_val t; vs ← deserializeArgs ts'; mret (v :: vs)
  end.

(** The types for which the code of the server's and the client's templates exists. *)
Definition arg_type (t : ty) : bool :=
  match t with TArith _ | TStr | TVec Int32 | TVec Double => true | _ => false end.
Definition result_type (t : ty) : bool :=
  match t with
  | TArith _ | TStr | TVecStr | TVec Uint8 | TVec Int32 | TVec Double => true
  | _ => false
  end.

(** ** The server *)

Section server.
Context {A : Type}.

(** [handle]: success and result data. *)
Definition Handler : Type := bytes -> cpp A (bool * bytes).

(** The wrapper made by [registerFunction]: an exception, of the deserializer or of
    the function, is caught and turned into failure. *)
Definition function_handler (ts : list ty) (func : list val -> cpp A val) : Handler :=
  fun params_data a =>
    match deserializeArgs ts (Serializer_from params_data) with
    | Ok args _ =>
        match func args a with
        | Ok result a' => Ok (true, output (write_val result)) a'
        | Throw e a' => Ok (false, []) a'
        | Blocked a' => Blocked a'
        | Undefined why => Undefined why
        end
    | Throw e _ => Ok (false, []) a
    | Blocked _ => Blocked a
    | Undefined why => Undefined why
    end.

Definition void_handler (ts : list ty) (func : list val -> cpp A unit) : Handler :=
  fun params_data a =>
    match deserializeArgs ts (Serializer_from params_data) with
    | Ok args _ =>
        match func args a with
        | Ok _ a' => Ok (true, []) a'
        | Throw e a' => Ok (false, []) a'
        | Blocked a' => Blocked a'
        | Undefined why => Undefined why
        end
    | Throw e _ => Ok (false, []) a
    | Blocked _ => Blocked a
    | Undefined why => Undefined why
    end.

Record RpcServer : Type := mkServer { methods_ : gmap string Handler; app : A }.

Definition set_app (a : A) (s : RpcServer) : RpcServer := mkServer (methods_ s) a.

Definition registerMethod (name : string) (h : Handler) : cpp RpcServer unit :=
  modify (fun s => mkServer (<[name := h]> (methods_ s)) (app s)).

(** A handler's own exception leaves the thread: [std::terminate]. *)
Definition run_handler (h : Handler) (params : bytes) : cpp RpcServer (bool * bytes) := fun s =>
  match h params (app s) with
  | Ok r a => Ok r (set_app a s)
  | Throw e a => Undefined "std::terminate"
  | Blocked a => Blocked (set_app a s)
  | Undefined why => Undefined why
  end.

Definition not_found (name : string) : ResponseMessage :=
  mkResponse METHOD_NOT_FOUND [] (String.append "方法不存在: " name).

(** The response to a decoded request. *)
Definition dispatch (request : RequestMessage) : cpp RpcServer ResponseMessage :=
  methods ← gets methods_;
  match methods !! method_name request with
  | None => mret (not_found (method_name request))
  | Some handler =>
      r ← run_handler handler (params_data request);
      mret (if (r : bool * bytes).1 then mkResponse OK r.2 "" else mkResponse INTERNAL_ERROR r.2 "方法执行失败")
  end.

(** The message handed to [sendResponse], if any. *)
Definition processRequest (message : Message) : cpp RpcServer (option Message) :=
  let id := request_id (header_ message) in
  if bool_decide (type (header_ message) = REQUEST) then
    match request_deserialize (Serializer_from (body_ message)) with
    | Ok request _ => r ← dispatch request; mret (Some (Message_response id r))
    | Throw e _ => mret (Some (Message_response id (mkResponse SERIALIZATION_ERROR [] e)))
    | Blocked _ => block
    | Undefined why => undefined why
    end
  else mret None.

(** A server serving one connection. *)
Record Session : Type := mkSession { server : RpcServer; conn : TcpConnection }.

Definition on_server {B} (m : cpp RpcServer B) : cpp Session B := fun s =>
  match m (server s) with
  | Ok b t => Ok b (mkSession t (conn s))
  | Throw e t => Throw e (mkSession t (conn s))
  | Blocked t => Blocked (mkSession t (conn s))
  | Undefined why => Undefined why
  end.
Definition on_conn {B} (m : cpp TcpConnection B) : cpp Session B := fun s =>
  match m (conn s) with
  | Ok b t => Ok b (mkSession (server s) t)
  | Throw e t => Throw e (mkSession (server s) t)
  | Blocked t => Blocked (mkSession (server s) t)
  | Undefined why => Undefined why
  end.

Definition sendResponse (limit : option nat) (m : Message) : cpp Session unit :=
  c ← gets (fun s => connected_ (conn s));
  if (c : bool) then _ ← on_conn (sendMessage limit m); mret tt else mret tt.

(** The loop runs while [running_] holds: one element of [limits] (what the system
    does to the send of that turn) for each turn it does. *)
Fixpoint handleClient (limits : list (option nat)) : cpp Session unit :=
  match limits with
  | [] => mret tt
  | limit :: limits' =>
      c ← gets (fun s => connected_ (conn s));
      if negb c then mret tt else
      message ← on_conn receiveMessage;
      match message with
      | None => mret tt
      | Some m =>
          reply ← on_server (processRequest m);
          (match reply with Some r => sendResponse limit r | None => mret tt end) ;;
          handleClient limits'
      end
  end.
End server.
Arguments Handler : clear implicits.
Arguments RpcServer : clear implicits.
Arguments Session : clear implicits.

(** ** The client *)

(** [pending_calls_] maps a request id to the promise of a call; the value of the
    promise, once set, is in [futures]. Calls are named by the threads making them. *)
Abbreviation tid := nat.

Record RpcClient : Set := mkClient {
  next_request_id_ : Z;                       (* std::atomic<uint32_t> *)
  pending_calls_ : gmap Z tid;
  futures : gmap tid ResponseMessage }.

Definition RpcClient_new : RpcClient := mkClient 1 ∅ ∅.

(** The first parts of [doCall]: the id is taken, then the promise is registered. *)
Definition take_id : cpp RpcClient Z :=
  c ← get;
  modify (fun c => mkClient (wrap32 (next_request_id_ c + 1)) (pending_calls_ c) (futures c)) ;;
  mret (next_request_id_ c).

Definition register_call (id : Z) (t : tid) : cpp RpcClient unit :=
  modify (fun c => mkClient (next_request_id_ c) (<[id := t]> (pending_calls_ c)) (futures c)).

(** Sending failed, or the wait timed out. *)
Definition forget_call (id : Z) : cpp RpcClient unit :=
  modify (fun c => mkClient (next_request_id_ c) (delete id (pending_calls_ c)) (futures c)).

Definition timeout_response : ResponseMessage := mkResponse TIMEOUT [] "请求超时".
Definition send_failed_response : ResponseMessage := mkResponse NETWORK_ERROR [] "发送请求失败".
Definition disconnected_response : ResponseMessage := mkResponse NETWORK_ERROR [] "连接已断开".

(** What [ResponseMessage::deserialize] leaves in [result_data] when it throws: the
    vector is resized before it is filled. *)
Definition assigned_result (body : bytes) : bytes :=
  match (_ ← read_arith Uint16; read_arith Uint32) (Serializer_from body) with
  | Ok size s =>
      match readRaw (Z.to_nat size) s with
      | Ok data _ => data
      | _ => repeat (byte_of 0) (Z.to_nat size)
      end
  | _ => []
  end.

Definition decode_response (body : bytes) : ResponseMessage :=
  match response_deserialize (Serializer_from body) with
  | Ok r _ => r
  | Throw e _ => mkResponse SERIALIZATION_ERROR (assigned_result body) e
  | _ => mkResponse SERIALIZATION_ERROR (assigned_result body) ""
  end.

(** The receiver thread, for a message of type RESPONSE. *)
Definition processResponse (message : Message) : cpp RpcClient unit :=
  let id := request_id (header_ message) in
  let response := decode_response (body_ message) in
  c ← get;
  match pending_calls_ c !! id with
  | None => mret tt
  | Some t =>
      modify (fun c => mkClient (next_request_id_ c) (delete id (pending_calls_ c))
                         (<[t := response]> (futures c)))
  end.

Definition receive_one (message : Message) : cpp RpcClient unit :=
  if bool_decide (type (header_ message) = RESPONSE) then processResponse message else mret tt.

(** [disconnect] completes every pending call. *)
Definition disconnect : cpp RpcClient unit :=
  modify (fun c => mkClient (next_request_id_ c) ∅
    (map_fold (fun _ t fs => <[t := disconnected_response]> fs) (futures c) (pending_calls_ c))).

(** What [call] and [callVoid] make of the response. *)
Inductive call_result : Set :=
  | Returned (v : option val)
  | RpcException (st : StatusCode) (message : string)
  | RuntimeError (message : string).

Definition finish_call (t : option ty) (response : ResponseMessage) : call_result :=
  if negb (bool_decide (status response = OK)) then
    RpcException (status response) (String.append "RPC调用失败: " (error_message response))
  else match t with
  | None => Returned None
  | Some t =>
      if bool_decide (result_data response = []) then
        RpcException SERIALIZATION_ERROR "响应数据为空"
      else match read_val t (Serializer_from (result_data response)) with
           | Ok v _ => Returned (Some v)
           | Throw e _ => RuntimeError e
           | _ => RuntimeError ""
           end
  end.

(** The request of a call. *)
Definition call_request (name : string) (args : list val) : RequestMessage :=
  mkRequest name (output (serializeArgs args)).

(** ** The client's connection and receiver thread *)

(** [connection_]: absent, or present with its [connected_] flag; [receiver_thread_]:
    joinable or not. *)
Record Link : Set := mkLink {
  connection_ : option bool; receiver_joinable : bool; running_ : bool }.

Definition Link_new : Link := mkLink None false false.

Definition isConnected (l : Link) : bool :=
  match connection_ l with Some c => c | None => false end.

(** [reachable]: the socket connects. Assigning to a joinable [std::thread] ends the
    process. *)
Definition connect (reachable : bool) : cpp Link bool :=
  l ← get;
  if isConnected l then mret true else
  if negb reachable then
    modify (fun l => mkLink None (receiver_joinable l) (running_ l)) ;; mret false
  else
    modify (fun l => mkLink (Some true) (receiver_joinable l) true) ;;
    if receiver_joinable l then undefined "std::terminate" else
    modify (fun l => mkLink (connection_ l) true (running_ l)) ;;
    mret true.

(** The part of [disconnect] before the pending calls are completed. *)
Definition disconnect_link : cpp Link unit := modify (fun _ => mkLink None false false).

(** A failed send or receive clears [connected_]. *)
Definition drop_link : cpp Link unit :=
  modify (fun l => mkLink ((fun _ => false) <$> connection_ l) (receiver_joinable l) (running_ l)).

Definition unreachable_response : ResponseMessage := mkResponse NETWORK_ERROR [] "无法连接到服务器".

(** The check at the start of [doCall]: the response it returns at once, if any. *)
Definition prepare_call (reachable : bool) : cpp Link (option ResponseMessage) :=
  l ← get;
  if isConnected l then mret None else
  ok ← connect reachable;
  mret (if (ok : bool) then None else Some unreachable_response).

(** ** The client pool *)

Definition getClient (next_client pool_size : Z) : option (Z * Z) :=
  if pool_size =? 0 then None else Some (next_client `mod` pool_size, wrap64 (next_client + 1)).

(** ** Client threads, receiver thread and server on one connection *)

(** The progress of a call. *)
Inductive phase : Set := Numbered | Started | Sent | Finished (r : ResponseMessage).

Record Call : Set := mkCall { call_id : Z; call_req : RequestMessage; call_phase : phase }.

(** [up] and [down] are the messages in transit, in order; [executed] records the
    requests the server answered, with the answers. *)
Record System (A : Type) : Type := mkSystem {
  client : RpcClient;
  calls : gmap tid Call;
  up : list Message;
  down : list Message;
  srv : RpcServer A;
  executed : list (Message * Message) }.
Arguments mkSystem {A} _ _ _ _ _ _.
Arguments client {A} _.
Arguments calls {A} _.
Arguments up {A} _.
Arguments down {A} _.
Arguments srv {A} _.
Arguments executed {A} _.

Inductive rpc_step {A} : System A -> System A -> Prop :=
  | step_start s t req id c :
      calls s !! t = None -> take_id (client s) = Ok id c ->
      rpc_step s (mkSystem c (<[t := mkCall id req Numbered]> (calls s)) (up s) (down s) (srv s) (executed s))
  | step_register s t id req c :
      calls s !! t = Some (mkCall id req Numbered) -> register_call id t (client s) = Ok tt c ->
      rpc_step s (mkSystem c (<[t := mkCall id req Started]> (calls s)) (up s) (down s) (srv s) (executed s))
  | step_send s t id req :
      calls s !! t = Some (mkCall id req Started) ->
      rpc_step s (mkSystem (client s) (<[t := mkCall id req Sent]> (calls s))
        (up s ++ [Message_request id req]) (down s) (srv s) (executed s))
  | step_send_failed s t id req c :
      calls s !! t = Some (mkCall id req Started) -> forget_call id (client s) = Ok tt c ->
      rpc_step s (mkSystem c (<[t := mkCall id req (Finished send_failed_response)]> (calls s))
        (up s) (down s) (srv s) (executed s))
  | step_serve s m ms sr reply :
      up s = m :: ms -> processRequest m (srv s) = Ok (Some reply) sr ->
      rpc_step s (mkSystem (client s) (calls s) ms (down s ++ [reply]) sr (executed s ++ [(m, reply)]))
  | step_ignore s m ms sr :
      up s = m :: ms -> processRequest m (srv s) = Ok None sr ->
      rpc_step s (mkSystem (client s) (calls s) ms (down s) sr (executed s))
  | step_receive s m ms c :
      down s = m :: ms -> receive_one m (client s) = Ok tt c ->
      rpc_step s (mkSystem c (calls s) (up s) ms (srv s) (executed s))
  | step_complete s t id req r :
      calls s !! t = Some (mkCall id req Sent) -> futures (client s) !! t = Some r ->
      rpc_step s (mkSystem (client s) (<[t := mkCall id req (Finished r)]> (calls s))
        (up s) (down s) (srv s) (executed s))
  | step_timeout s t id req c :
      calls s !! t = Some (mkCall id req Sent) -> forget_call id (client s) = Ok tt c ->
      rpc_step s (mkSystem c (<[t := mkCall id req (Finished timeout_response)]> (calls s))
        (up s) (down s) (srv s) (executed s))
  | step_disconnect s c :
      disconnect (client s) = Ok tt c ->
      rpc_step s (mkSystem c (calls s) (up s) [] (srv s) (executed s)).

Definition System_init {A} (sr : RpcServer A) : System A := mkSystem RpcClient_new ∅ [] [] sr [].
