(* ===== verification/RpcProps.v ===== *)
(** * RpcProps: a remote call is the local call

    The serializer round-trips and rejects truncated data, messages round-trip, a
    session serves exactly the requests sent to it however TCP cuts them, a typed
    remote call returns what the function returns, and concurrent calls never get
    each other's results. A receive that times out inside a message, on the other
    hand, loses that message and the framing. *)

From Stdlib Require Import Ascii String.
From S2P Require Import Prelude RpcProtocol RpcTransport RpcServer.
Import MessageType StatusCode.

Local Open Scope Z_scope.

(** Concrete ranges. *)
Ltac range_tac := unfold in_range, modulus; cbv -[Z.le Z.lt]; lia.

(** ** Typed values *)

Definition has_ty (v : val) (t : ty) : Prop :=
  match v, t with
  | VArith a v, TArith a' => a = a' /\ in_range a v
  | VStr s, TStr => fits32 (String.length s)
  | VVec a l, TVec a' => a = a' /\ fits32 (length l) /\ forall x, x ∈ l -> in_range a x
  | VVecStr l, TVecStr => fits32 (length l) /\ forall s, s ∈ l -> fits32 (String.length s)
  | _, _ => False
  end.

Definition val_bytes (v : val) : bytes :=
  match v with
  | VArith a v => le_encode (sizeof a) v
  | VStr s => string_bytes s
  | VVec a l => le_encode 4 (Z.of_nat (length l)) ++ concat (le_encode (sizeof a) <$> l)
  | VVecStr l => le_encode 4 (Z.of_nat (length l)) ++ concat (string_bytes <$> l)
  end.

Lemma val_appends v t : has_ty v t -> appends (write_val v) (val_bytes v).
Proof.
  destruct v, t; cbn [has_ty write_val val_bytes]; try done.
  - apply appends_string.
  - intros (_ & Hl & _). apply appends_vector; [done|]. intros x _. apply appends_raw.
  - intros (Hl & Hs). apply appends_vector; [done|]. auto using appends_string.
Qed.

(** ** Truncated data is rejected

    [strict r b]: reading at the end of a buffer that holds a proper prefix of [b]
    throws. *)
Definition strict {A} (r : cpp Serializer A) (b : bytes) : Prop :=
  forall pre b1 b2, b = b1 ++ b2 -> b2 <> [] ->
    exists e s, r (mkSerializer (pre ++ b1) (length pre)) = Throw e s.

Lemma strict_nil {A} (r : cpp Serializer A) : strict r [].
Proof. intros pre b1 b2 E Hne. symmetry in E. by apply app_nil in E as [_ ->]. Qed.

Lemma strict_bind {A B} (r : cpp Serializer A) (k : A -> cpp Serializer B) b1 b2 x :
  reads r b1 x -> strict r b1 -> strict (k x) b2 -> strict (r ≫= k) (b1 ++ b2).
Proof.
  intros Hr H1 H2 pre c1 c2 E Hne. unfold mbind, cpp_bind.
  apply app_eq_inv in E as [(k1 & E1 & E2)|(k1 & E1 & E2)].
  - destruct k1 as [|c k1].
    + cbn in E2. subst c2. rewrite app_nil_r in E1. subst c1. specialize (Hr pre []).
      rewrite !app_nil_r in Hr. rewrite Hr.
      destruct (H2 (pre ++ b1) [] b2 eq_refl Hne) as (e & s & E).
      rewrite app_nil_r, length_app in E. rewrite E. eauto.
    + destruct (H1 pre c1 (c :: k1) E1 ltac:(done)) as (e & s & ->). eauto.
  - subst c1. specialize (Hr pre k1). rewrite Hr.
    destruct (H2 (pre ++ b1) k1 c2 E2 Hne) as (e & s & E).
    rewrite length_app, <-app_assoc in E. rewrite E. eauto.
Qed.

Lemma strict_map {A B} (r : cpp Serializer A) (f : A -> B) b :
  strict r b -> strict (a ← r; mret (f a)) b.
Proof.
  intros H pre b1 b2 E Hne. destruct (H pre b1 b2 E Hne) as (e & s & E').
  unfold mbind, cpp_bind. rewrite E'. eauto.
Qed.

Lemma short pre (b b1 b2 : bytes) : b = b1 ++ b2 -> b2 <> [] ->
  Nat.ltb (length (pre ++ b1)) (length pre + length b) = true.
Proof. intros -> Hne. rewrite Nat.ltb_lt, !length_app. destruct b2; [done|cbn; lia]. Qed.

Lemma strict_arith a v : strict (read_arith a) (le_encode (sizeof a) v).
Proof.
  intros pre b1 b2 E Hne. unfold read_arith, mbind, cpp_bind, get. cbn [buffer_ read_pos_].
  pose proof (short pre _ b1 b2 E Hne) as Hs. rewrite length_le_encode in Hs.
  rewrite Hs. unfold throw. eauto.
Qed.

Lemma strict_string s : fits32 (String.length s) -> strict readString (string_bytes s).
Proof.
  intros H. unfold readString.
  eapply strict_bind; [by apply (reads_arith Uint32), in_range_u32|apply (strict_arith Uint32)|].
  intros pre b1 b2 E Hne. unfold mbind, cpp_bind, get. cbn [buffer_ read_pos_].
  rewrite Nat2Z.id, <-length_list_ascii, (short pre _ b1 b2 E Hne). unfold throw. eauto.
Qed.

Lemma strict_items {A} (r : cpp Serializer A) (enc : A -> bytes) l :
  (forall x, x ∈ l -> reads r (enc x) x /\ strict r (enc x)) ->
  strict (read_items r (length l)) (concat (enc <$> l)).
Proof.
  induction l as [|x l IH]; intros H; [apply strict_nil|]. cbn [read_items length fmap list_fmap concat].
  destruct (H x ltac:(by left)) as [H1 H2].
  eapply strict_bind; [done|done|]. apply (strict_map _ (cons x)), IH. intros y Hy. apply H. by right.
Qed.

Lemma strict_vector {A} (r : cpp Serializer A) (enc : A -> bytes) l :
  fits32 (length l) -> (forall x, x ∈ l -> reads r (enc x) x /\ strict r (enc x)) ->
  strict (readVector r) (le_encode 4 (Z.of_nat (length l)) ++ concat (enc <$> l)).
Proof.
  intros Hl H. unfold readVector.
  eapply strict_bind; [by apply (reads_arith Uint32), in_range_u32|apply (strict_arith Uint32)|].
  rewrite Nat2Z.id. by apply strict_items.
Qed.

Lemma val_reads v t : has_ty v t -> reads (read_val t) (val_bytes v) v /\ strict (read_val t) (val_bytes v).
Proof.
  destruct v as [a z|s|a l|l], t as [a'| |a'|]; cbn [has_ty]; try done.
  - intros [-> Hr]. split; [by apply (reads_map _ (VArith a')), reads_arith|].
    apply (strict_map _ (VArith a')), strict_arith.
  - intros Hs. split; [by apply (reads_map _ VStr), reads_string|].
    by apply (strict_map _ VStr), strict_string.
  - intros (-> & Hl & Hr). split; [apply (reads_map _ (VVec a')), reads_vector; auto using reads_arith|].
    apply (strict_map _ (VVec a')), strict_vector; auto using reads_arith, strict_arith.
  - intros (Hl & Hs). split; [apply (reads_map _ VVecStr), reads_vector; auto using reads_string|].
    apply (strict_map _ VVecStr), strict_vector; auto using reads_string, strict_string.
Qed.

Definition args_bytes (vs : list val) : bytes := concat (val_bytes <$> vs).

Lemma args_appends vs ts : Forall2 has_ty vs ts -> appends (serializeArgs vs) (args_bytes vs).
Proof.
  unfold serializeArgs, args_bytes.
  induction 1 as [|v t vs ts Hv _ IH]; cbn [iterM fmap list_fmap concat]; [apply appends_nil|].
  apply appends_seq; [by eapply val_appends|done].
Qed.

Lemma args_reads vs ts : Forall2 has_ty vs ts ->
  reads (deserializeArgs ts) (args_bytes vs) vs /\ strict (deserializeArgs ts) (args_bytes vs).
Proof.
  unfold args_bytes.
  induction 1 as [|v t vs ts Hv _ [IH1 IH2]]; cbn [deserializeArgs fmap list_fmap concat].
  - split; [apply reads_ret|apply strict_nil].
  - destruct (val_reads v t Hv) as [H1 H2]. split.
    + eapply reads_bind; [done|]. by apply (reads_map _ (cons v)).
    + eapply strict_bind; [done|done|]. by apply (strict_map _ (cons v)).
Qed.

(** Reading a whole buffer. *)
Lemma reads_whole {A} (r : cpp Serializer A) b x :
  reads r b x -> r (Serializer_from b) = Ok x (mkSerializer b (length b)).
Proof. intros H. specialize (H [] []). cbn in H. by rewrite app_nil_r in H. Qed.

(** The serializer round-trips: the arguments of any call, written one after the
    other, are read back by the matching sequence of types, with no byte left; and
    from any proper prefix of the data the reader throws instead of returning
    anything. *)
Theorem serializer_roundtrip vs ts :
  Forall2 has_ty vs ts ->
  (exists s, deserializeArgs ts (Serializer_from (output (serializeArgs vs))) = Ok vs s /\
     hasData s = false) /\
  (forall n, (n < length (output (serializeArgs vs)))%nat -> exists e s,
     deserializeArgs ts (Serializer_from (take n (output (serializeArgs vs)))) = Throw e s).
Proof.
  intros H. rewrite (appends_output _ _ (args_appends _ _ H)).
  destruct (args_reads _ _ H) as [H1 H2]. split.
  - eexists. split; [by apply reads_whole|]. unfold hasData. cbn. apply Nat.ltb_irrefl.
  - intros n Hn. destruct (H2 [] (take n (args_bytes vs)) (drop n (args_bytes vs))) as (e & s & E).
    + by rewrite take_drop.
    + intros E%(f_equal length). rewrite length_drop in E. cbn in E. lia.
    + exists e, s. exact E.
Qed.

Definition sample_args : list val := [VArith Int32 (-5); VStr "ab"; VVec Double [7; 8]].
Definition sample_types : list ty := [TArith Int32; TStr; TVec Double].

Lemma sample_args_typed : Forall2 has_ty sample_args sample_types.
Proof.
  repeat apply Forall2_cons_2; [| | |constructor].
  - split; [done|]. range_tac.
  - unfold has_ty, fits32. cbn. lia.
  - split_and!; [done|unfold fits32; cbn; lia|].
    intros x Hx. apply list_elem_of_In in Hx as [<-|[<-|[]]]; range_tac.
Qed.

Lemma serializer_roundtrip_witness :
  output (serializeArgs sample_args) <> [] /\
  exists s, deserializeArgs sample_types (Serializer_from (output (serializeArgs sample_args))) =
    Ok sample_args s.
Proof.
  split; [vm_compute; discriminate|].
  destruct (serializer_roundtrip sample_args sample_types sample_args_typed) as [(s & E & _) _].
  exists s. exact E.
Defined.

(** ** Messages *)

(** Requests and responses whose bodies the 32-bit size field can describe. *)
Definition request_fits (r : RequestMessage) : Prop :=
  Z.of_nat (String.length (method_name r)) + Z.of_nat (length (params_data r)) < 2 ^ 32 - 64.
Definition response_fits (r : ResponseMessage) : Prop :=
  named_status (status r) /\
  Z.of_nat (length (result_data r)) + Z.of_nat (String.length (error_message r)) < 2 ^ 32 - 16.

Lemma request_fits_ok r : request_fits r -> request_ok r /\ fits32 (length (request_bytes r)).
Proof.
  unfold request_fits, request_ok, fits32, request_bytes, string_bytes. intros H.
  rewrite !length_app, !length_le_encode, length_list_ascii. lia.
Qed.

Lemma response_fits_ok r : response_fits r -> response_ok r /\ fits32 (length (response_bytes r)).
Proof.
  unfold response_fits, response_ok, fits32, response_bytes, string_bytes. intros [Hs H].
  rewrite !length_app, !length_le_encode, length_list_ascii. split_and!; [done|lia..].
Qed.

Lemma Message_request_ok id r : in_range Uint32 id -> request_fits r ->
  message_ok (Message_request id r) /\ body_ (Message_request id r) = request_bytes r.
Proof.
  intros Hid [Hr Hl]%request_fits_ok. unfold Message_request.
  rewrite (appends_output _ _ (request_appends r Hr)). split; [|done].
  by apply message_of_ok.
Qed.

Lemma Message_response_ok id r : in_range Uint32 id -> response_fits r ->
  message_ok (Message_response id r) /\ body_ (Message_response id r) = response_bytes r.
Proof.
  intros Hid [Hr Hl]%response_fits_ok. unfold Message_response.
  rewrite (appends_output _ _ (response_appends r Hr)). split; [|done].
  by apply message_of_ok.
Qed.

Lemma request_decodes r : request_fits r ->
  request_deserialize (Serializer_from (request_bytes r)) =
    Ok r (mkSerializer (request_bytes r) (length (request_bytes r))).
Proof. intros [Hr _]%request_fits_ok. by apply reads_whole, request_reads. Qed.

Lemma response_decodes r : response_fits r -> decode_response (response_bytes r) = r.
Proof.
  intros [Hr _]%response_fits_ok. unfold decode_response.
  by rewrite (reads_whole _ _ _ (response_reads r Hr)).
Qed.

(** Messages round-trip: a request or response whose body fits the 32-bit size
    field, serialized and followed by anything, is deserialized to the same message,
    and its body to the same request or response. *)
Theorem rpc_message_roundtrip id req resp rest :
  in_range Uint32 id -> request_fits req -> response_fits resp ->
  message_deserialize (message_serialize (Message_request id req) ++ rest) = Some (Message_request id req) /\
  message_deserialize (message_serialize (Message_response id resp) ++ rest) = Some (Message_response id resp) /\
  (exists s, request_deserialize (Serializer_from (body_ (Message_request id req))) = Ok req s) /\
  decode_response (body_ (Message_response id resp)) = resp.
Proof.
  intros Hid Hq Hr. destruct (Message_request_ok id req Hid Hq) as [H1 E1].
  destruct (Message_response_ok id resp Hid Hr) as [H2 E2].
  split_and!; [by apply message_decodes..| |].
  - rewrite E1, request_decodes by done. eauto.
  - by rewrite E2, response_decodes.
Qed.

Definition sample_request : RequestMessage := mkRequest "add" (output (serializeArgs [VArith Int32 10; VArith Int32 20])).
Definition sample_response : ResponseMessage := mkResponse OK (output (write_val (VArith Int32 30))) "".

Lemma rpc_message_roundtrip_witness :
  length (message_serialize (Message_request 7 sample_request)) = 33%nat /\
  message_deserialize (message_serialize (Message_request 7 sample_request) ++ []) =
    Some (Message_request 7 sample_request).
Proof.
  split; [reflexivity|].
  apply (rpc_message_roundtrip 7 sample_request sample_response []);
    [range_tac|by vm_compute|by vm_compute].
Defined.

(** ** Sessions *)

Fixpoint receives (n : nat) : cpp TcpConnection (list (option Message)) :=
  match n with
  | O => mret []
  | S n' => m ← receiveMessage; ms ← receives n'; mret (m :: ms)
  end.

(** The requests processed one after the other. *)
Fixpoint serve_all {A} (ms : list Message) : cpp (RpcServer A) (list Message) :=
  match ms with
  | [] => mret []
  | m :: ms' => r ← processRequest m; rs ← serve_all ms'; mret (option_list r ++ rs)
  end.

Definition wire (ms : list Message) : bytes := concat (message_serialize <$> ms).

Lemma receives_exact ms c rest :
  Forall message_ok ms -> stream c (wire ms ++ rest) ->
  exists c', receives (length ms) c = Ok (Some <$> ms) c' /\ stream c' rest.
Proof.
  intros H. revert c. induction H as [|m ms Hm _ IH]; intros c Hs; cbn [receives length]; [by exists c|].
  cbn [wire fmap list_fmap concat] in Hs. rewrite <-app_assoc in Hs.
  destruct (receiveMessage_exact m _ c Hm Hs) as (c1 & E1 & Hs1 & _).
  destruct (IH c1 Hs1) as (c2 & E2 & Hs2). exists c2. split; [|done].
  rewrite (bind_Ok _ _ _ _ _ E1), (bind_Ok _ _ _ _ _ E2). done.
Qed.

Lemma receive_nothing c : stream c [] -> receiveMessage c = Ok None c.
Proof.
  intros [Hc Hd]. assert (Hi : incoming c = []).
  { destruct (incoming c) as [|[b bs| |] es]; cbn in Hd; [done| |done..].
    by destruct (delivers es). }
  destruct c as [cn inc out]. cbn in *. by subst.
Qed.

Lemma sendResponse_ok {A} (s : Session A) m :
  connected_ (conn s) = true ->
  sendResponse None m s =
    Ok tt (mkSession (server s) (mkConn true (incoming (conn s)) (outgoing (conn s) ++ message_serialize m))).
Proof.
  intros Hc. unfold sendResponse, on_conn, sendMessage, send, mbind, cpp_bind, gets, get, modify.
  rewrite Hc. cbn. rewrite Hc. done.
Qed.

(** C9. Framing and service: however TCP cuts the stream, [receiveMessage] returns
    exactly the messages sent, in order; and a server thread that is sent well-formed
    messages processes them one after the other and sends exactly the replies of
    [processRequest], in order, before its next receive times out. *)
Theorem rpc_session_correct {A} (sv sv' : RpcServer A) c ms replies :
  Forall message_ok ms -> stream c (wire ms) -> serve_all ms sv = Ok replies sv' ->
  (exists c', receives (length ms) c = Ok (Some <$> ms) c') /\
  exists c', handleClient (replicate (S (length ms)) None) (mkSession sv c) = Ok tt (mkSession sv' c') /\
    stream c' [] /\ outgoing c' = outgoing c ++ wire replies.
Proof.
  intros Hms Hs Hserve. split.
  { destruct (receives_exact ms c []) as (c' & E & _); [done|by rewrite app_nil_r|]. eauto. }
  revert sv c replies Hs Hserve. induction Hms as [|m ms Hm _ IH]; intros sv c replies Hs Hserve.
  - injection Hserve as <- <-. exists c. rewrite app_nil_r. split_and!; [|done..].
    cbn [handleClient length replicate]. unfold mbind at 1, cpp_bind at 1, gets at 1.
    cbn [conn]. rewrite (proj1 Hs). cbn [negb]. unfold mbind, cpp_bind, on_conn. cbn [conn].
    by rewrite (receive_nothing c Hs).
  - cbn [wire fmap list_fmap concat] in Hs. fold (wire ms) in Hs.
    destruct (receiveMessage_exact m _ c Hm Hs) as (c1 & E1 & Hs1 & Ho1).
    cbn [serve_all] in Hserve. apply bind_inv_Ok in Hserve as (r & sv1 & Er & Hserve).
    apply bind_inv_Ok in Hserve as (rs & sv2 & Ers & Hret). injection Hret as <- <-.
    set (c2 := match r with
               | Some rm => mkConn true (incoming c1) (outgoing c1 ++ message_serialize rm)
               | None => c1
               end).
    assert (Hs2 : stream c2 (wire ms)) by (unfold c2; destruct r; [|done]; split; [done|apply Hs1]).
    destruct (IH sv1 c2 rs Hs2 Ers) as (c3 & E3 & Hs3 & Ho3).
    exists c3. split_and!; [|done|].
    + rewrite <-E3. cbn [handleClient length replicate]. unfold mbind at 1, cpp_bind at 1, gets at 1.
      cbn [conn]. rewrite (proj1 Hs). cbn [negb].
      unfold mbind at 1, cpp_bind at 1, on_conn at 1. cbn [conn server]. rewrite E1.
      unfold mbind at 1, cpp_bind at 1, on_server at 1. cbn [conn server]. rewrite Er.
      unfold mbind at 1, cpp_bind at 1. unfold c2. destruct r as [rm|]; [|done].
      rewrite sendResponse_ok by (apply (proj1 Hs1)). done.
    + rewrite Ho3. unfold c2, wire. rewrite fmap_app, concat_app.
      destruct r; cbn; rewrite ?Ho1, ?app_nil_r, <-?app_assoc; done.
Qed.

(** ** Typed calls *)

Lemma val_bytes_nonempty v t : has_ty v t -> val_bytes v <> [].
Proof.
  intros H E%(f_equal length). revert E. destruct v as [a| | |]; cbn [val_bytes];
    unfold string_bytes; rewrite ?length_app, !length_le_encode; [destruct a; done|cbn; lia..].
Qed.

Lemma finish_call_value v t :
  has_ty v t -> finish_call (Some t) (mkResponse OK (val_bytes v) "") = Returned (Some v).
Proof.
  intros Hv. unfold finish_call. cbn [status result_data]. rewrite bool_decide_true by done. cbn [negb].
  rewrite bool_decide_false by (by eapply val_bytes_nonempty).
  destruct (val_reads v t Hv) as [Hr _]. by rewrite (reads_whole _ _ _ Hr).
Qed.

Lemma function_handler_args {A} ts (func : list val -> cpp A val) args a :
  Forall2 has_ty args ts ->
  function_handler ts func (output (serializeArgs args)) a =
    match func args a with
    | Ok v a' => Ok (true, output (write_val v)) a'
    | Throw e a' => Ok (false, []) a'
    | Blocked a' => Blocked a'
    | Undefined why => Undefined why
    end.
Proof.
  intros H. unfold function_handler. rewrite (appends_output _ _ (args_appends _ _ H)).
  destruct (args_reads _ _ H) as [Hr _]. by rewrite (reads_whole _ _ _ Hr).
Qed.

(** Processing a request is dispatching it. *)
Lemma processRequest_dispatch {A} (s : RpcServer A) id req r s' :
  in_range Uint32 id -> request_fits req -> dispatch req s = Ok r s' ->
  processRequest (Message_request id req) s = Ok (Some (Message_response id r)) s'.
Proof.
  intros Hid Hf Hd. destruct (Message_request_ok id req Hid Hf) as [_ Hb].
  unfold processRequest. rewrite Hb, request_decodes by done.
  change (type (header_ (Message_request id req))) with REQUEST. rewrite bool_decide_true by done.
  by rewrite (bind_Ok _ _ _ _ _ Hd).
Qed.

Lemma reply_decodes id r : in_range Uint32 id -> response_fits r ->
  decode_response (body_ (Message_response id r)) = r.
Proof.
  intros Hid Hr. destruct (Message_response_ok id r Hid Hr) as [_ ->]. by apply response_decodes.
Qed.

(** The caller's view of the server's answer to a call. *)
Definition remote_call {A} (s : RpcServer A) (id : Z) (t : option ty) (name : string) (args : list val)
    : option (call_result * A) :=
  match processRequest (Message_request id (call_request name args)) s with
  | Ok (Some reply) s' => Some (finish_call t (decode_response (body_ reply)), app s')
  | _ => None
  end.

Lemma remote_call_dispatch {A} (s : RpcServer A) id t name args r s' :
  in_range Uint32 id -> request_fits (call_request name args) -> response_fits r ->
  dispatch (call_request name args) s = Ok r s' ->
  remote_call s id t name args = Some (finish_call t r, app s').
Proof.
  intros Hid Hf Hr Hd. unfold remote_call.
  by rewrite (processRequest_dispatch s id _ r s'), reply_decodes.
Qed.

(** C8. A remote call is the local call: calling a function registered with a server
    by well-typed arguments returns the value the function returns, and changes the
    state of the application as the function does; when the function throws, the
    caller gets an RpcException with status INTERNAL_ERROR, and a call of an unknown
    method one with METHOD_NOT_FOUND. *)
Theorem rpc_call_correct {A} (s : RpcServer A) id name ts func args t :
  in_range Uint32 id -> request_fits (call_request name args) -> Forall2 has_ty args ts ->
  (methods_ s !! name = Some (function_handler ts func) ->
     (forall v a', func args (app s) = Ok v a' -> has_ty v t ->
        Z.of_nat (length (val_bytes v)) < 2 ^ 32 - 16 ->
        remote_call s id (Some t) name args = Some (Returned (Some v), a')) /\
     (forall e a', func args (app s) = Throw e a' ->
        remote_call s id (Some t) name args =
          Some (RpcException INTERNAL_ERROR "RPC调用失败: 方法执行失败", a'))) /\
  (methods_ s !! name = None ->
     remote_call s id (Some t) name args =
       Some (RpcException METHOD_NOT_FOUND (String.append "RPC调用失败: 方法不存在: " name), app s)).
Proof.
  intros Hid Hf Hargs. split.
  - intros Hm.
    assert (Hd : dispatch (call_request name args) s =
      (r ← run_handler (function_handler ts func) (output (serializeArgs args));
       mret (if (r : bool * bytes).1 then mkResponse OK r.2 "" else mkResponse INTERNAL_ERROR r.2 "方法执行失败")) s).
    { unfold dispatch, mbind at 1, cpp_bind at 1, gets. cbn [method_name call_request]. by rewrite Hm. }
    unfold mbind, cpp_bind, run_handler in Hd. rewrite function_handler_args in Hd by done. split.
    + intros v a' Hv Hty Hlen. rewrite Hv in Hd.
      rewrite (appends_output _ _ (val_appends v t Hty)) in Hd.
      pose proof (fun Hr => remote_call_dispatch s id (Some t) name args _ _ Hid Hf Hr Hd) as ->.
      * cbn [fst snd]. by rewrite finish_call_value.
      * split; [done|]. cbn. lia.
    + intros e a' He. rewrite He in Hd.
      by pose proof (fun Hr => remote_call_dispatch s id (Some t) name args _ _ Hid Hf Hr Hd) as ->.
  - intros Hm. rewrite (remote_call_dispatch s id (Some t) name args (not_found name) s Hid Hf); [reflexivity| |].
    + split; [done|]. unfold request_fits in Hf. cbn [method_name call_request] in Hf.
      cbn [result_data error_message not_found length].
      assert (Hl : String.length (String.append "方法不存在: " name) = (17 + String.length name)%nat)
        by reflexivity.
      rewrite Hl. lia.
    + unfold dispatch, mbind, cpp_bind, gets. cbn [method_name call_request]. by rewrite Hm.
Qed.

(** An adder that counts its calls and refuses other arguments. *)
Definition adder (args : list val) : cpp Z val :=
  match args with
  | [VArith Int32 x; VArith Int32 y] => modify (fun n => n + 1) ;; mret (VArith Int32 (x + y))
  | _ => throw "bad arguments"
  end.
Definition adder_server : RpcServer Z :=
  mkServer {[ "add"%string := function_handler [TArith Int32; TArith Int32] adder ]} 0.

Lemma rpc_call_correct_witness :
  remote_call adder_server 1 (Some (TArith Int32)) "add" [VArith Int32 10; VArith Int32 20] =
    Some (Returned (Some (VArith Int32 30)), 1) /\
  remote_call adder_server 1 (Some (TArith Int32)) "sub" [VArith Int32 10; VArith Int32 20] =
    Some (RpcException METHOD_NOT_FOUND "RPC调用失败: 方法不存在: sub", 0).
Proof.
  assert (Hty : Forall2 has_ty [VArith Int32 10; VArith Int32 20] [TArith Int32; TArith Int32])
    by (repeat apply Forall2_cons_2; [split; [done|range_tac]..|constructor]).
  split.
  - apply (rpc_call_correct adder_server 1 "add" [TArith Int32; TArith Int32] adder
      [VArith Int32 10; VArith Int32 20] (TArith Int32)); [range_tac|by vm_compute|done|done|done| |by vm_compute].
    split; [done|range_tac].
  - apply (rpc_call_correct adder_server 1 "sub" [TArith Int32; TArith Int32] adder
      [VArith Int32 10; VArith Int32 20] (TArith Int32)); [range_tac|by vm_compute|done|done].
Defined.

Definition sample_message : Message := Message_request 7 sample_request.
(** The message in two pieces. *)
Definition sample_conn : TcpConnection :=
  mkConn true (unread (take 3 (message_serialize sample_message))
    (unread (drop 3 (message_serialize sample_message)) [])) [].

Lemma rpc_session_correct_witness :
  exists replies sv' c', serve_all [sample_message] adder_server = Ok replies sv' /\
    handleClient [None; None] (mkSession adder_server sample_conn) = Ok tt (mkSession sv' c') /\
    outgoing c' = wire replies.
Proof.
  assert (Hc : match serve_all [sample_message] adder_server with Ok _ _ => true | _ => false end = true)
    by (vm_compute; reflexivity).
  destruct (serve_all [sample_message] adder_server) as [replies sv'| | |] eqn:E; try discriminate Hc.
  destruct (rpc_session_correct adder_server sv' sample_conn [sample_message] replies)
    as [_ (c' & E2 & _ & Ho)]; [| |exact E|].
  - constructor; [|constructor]. apply Message_request_ok; [range_tac|by vm_compute].
  - split; [done|]. vm_compute. reflexivity.
  - exists replies, sv', c'. split; [done|]. split; [exact E2|exact Ho].
Defined.

(** ** A timeout inside a message *)

Lemma header_bad_magic b :
  length b = getHeaderSize -> le_decode (take 4 b) <> RPC_MAGIC ->
  exists s, header_deserialize (Serializer_from b) = Ok None s.
Proof.
  intros Hl Hm. do 14 (destruct b as [|? b]; [discriminate|]). destruct b; [|discriminate].
  cbn [take] in Hm. unfold header_deserialize, read_arith, mbind, cpp_bind, get, modify.
  cbn -[le_decode Z.eqb of_bits RPC_MAGIC].
  match goal with |- context [of_bits Uint32 ?z] => change (of_bits Uint32 z) with z end.
  rewrite (proj2 (Z.eqb_neq _ _) Hm). cbn. eauto.
Qed.

Lemma first_byte c l z : le_decode (c :: l) = z -> of_byte c = z `mod` 256.
Proof.
  intros <-. cbn [le_decode]. rewrite (Z.mul_comm 256), Z.mod_add by lia.
  unfold of_byte. rewrite Z.mod_small; [done|]. pose proof (nat_ascii_bounded c). lia.
Qed.

(** The bytes after a cut do not start with the magic number. *)
Lemma cut_bad_magic t id body i :
  t = REQUEST \/ t = RESPONSE -> (1 <= i <= 5)%nat ->
  le_decode (take 4 (drop i (message_serialize (message_of t id body)))) <> RPC_MAGIC.
Proof.
  intros Ht Hi. rewrite message_serialize_bytes. unfold header_bytes, message_of.
  cbn [header_ magic version type request_id body_size].
  assert (Hi' : i = 1%nat \/ i = 2%nat \/ i = 3%nat \/ i = 4%nat \/ i = 5%nat) by lia.
  destruct Hi' as [->|[->|[->|[->| ->]]]]; cbn [le_encode app drop take]; intros Hm.
  - cbn [le_decode] in Hm. revert Hm. vm_compute. discriminate.
  - apply first_byte in Hm. vm_compute in Hm. discriminate.
  - apply first_byte in Hm. vm_compute in Hm. discriminate.
  - apply first_byte in Hm. vm_compute in Hm. discriminate.
  - apply first_byte in Hm. destruct Ht as [-> | ->]; vm_compute in Hm; discriminate.
Qed.

Lemma receiveAll_interrupted l es c n :
  connected_ c = true -> l <> [] -> (length l < n)%nat -> incoming c = unread l (Timeout :: es) ->
  receiveAll n c = Ok None (mkConn true es (outgoing c)).
Proof.
  intros Hc Hl Hn Hi. destruct l as [|b bs]; [done|]. cbn [unread] in Hi.
  destruct c as [cn inc out]. cbn in Hc, Hi. subst. unfold receiveAll.
  destruct n as [|[|n]]; [lia|cbn in Hn; lia|]. cbn [receive_loop Nat.eqb].
  unfold mbind at 1, cpp_bind at 1, receive at 1, mbind at 1, cpp_bind at 1, get at 1.
  cbn [connected_ incoming negb]. rewrite drop_ge, take_ge by lia. cbn [unread].
  unfold mbind at 1, cpp_bind at 1, modify at 1. cbn [mret cpp_ret set_incoming connected_ outgoing].
  destruct (S (S n) - length (b :: bs))%nat as [|k] eqn:Ek; [lia|]. cbn. done.
Qed.

Lemma receiveMessage_bad_magic l c :
  stream c l -> (getHeaderSize <= length l)%nat -> le_decode (take 4 l) <> RPC_MAGIC ->
  exists c', receiveMessage c = Ok None c' /\ connected_ c' = true.
Proof.
  intros Hs Hl Hm. rewrite <-(take_drop getHeaderSize l) in Hs.
  assert (Hlen : length (take getHeaderSize l) = getHeaderSize) by (rewrite length_take; lia).
  destruct (receiveAll_exact _ _ _ Hs) as (c1 & E1 & Hs1 & _). rewrite Hlen in E1.
  destruct (header_bad_magic (take getHeaderSize l) Hlen) as (s & Eh).
  { by rewrite take_take. }
  exists c1. split; [|apply Hs1]. unfold receiveMessage.
  rewrite (bind_Ok _ _ _ _ _ E1), Eh. done.
Qed.

(** A timeout inside a message loses it: when the poll times out after the first
    bytes of a message have arrived (one to five of them), these bytes are dropped,
    and the rest, when it arrives, is taken for a header and dropped too; all the
    bytes were delivered, the connection stays open, and the message is never
    returned. *)
Theorem rpc_timeout_loses_message t id body c i :
  t = REQUEST \/ t = RESPONSE -> (5 <= length body)%nat -> (1 <= i <= 5)%nat ->
  connected_ c = true ->
  incoming c = unread (take i (message_serialize (message_of t id body)))
    (Timeout :: unread (drop i (message_serialize (message_of t id body))) []) ->
  exists c1 c2, receiveMessage c = Ok None c1 /\ connected_ c1 = true /\
    receiveMessage c1 = Ok None c2 /\ connected_ c2 = true.
Proof.
  intros Ht Hb Hi Hc Hin. set (w := message_serialize (message_of t id body)) in *.
  assert (Hw : length w = (getHeaderSize + length body)%nat)
    by (unfold w; by rewrite message_serialize_bytes, length_app, length_header_bytes).
  assert (Hti : length (take i w) = i) by (rewrite length_take, Hw; cbn; lia).
  exists (mkConn true (unread (drop i w) []) (outgoing c)).
  destruct (receiveMessage_bad_magic (drop i w) (mkConn true (unread (drop i w) []) (outgoing c)))
    as (c2 & E2 & Hc2).
  - split; [done|]. cbn. rewrite (delivers_unread _ _ []) by done. by rewrite app_nil_r.
  - rewrite length_drop, Hw. lia.
  - by apply cut_bad_magic.
  - exists c2. split_and!; [|done..]. unfold receiveMessage.
    erewrite bind_Ok; [|apply (receiveAll_interrupted (take i w)); [done| | |exact Hin]]; [done| |].
    + intros E%(f_equal length). rewrite Hti in E. cbn in E. lia.
    + rewrite Hti. cbn. lia.
Qed.

Lemma rpc_timeout_loses_message_witness :
  exists c1 c2,
    receiveMessage (mkConn true (unread (take 3 (message_serialize sample_message))
      (Timeout :: unread (drop 3 (message_serialize sample_message)) [])) []) = Ok None c1 /\
    receiveMessage c1 = Ok None c2 /\ connected_ c2 = true.
Proof.
  destruct (rpc_timeout_loses_message REQUEST 7 (body_ sample_message)
    (mkConn true (unread (take 3 (message_serialize sample_message))
      (Timeout :: unread (drop 3 (message_serialize sample_message)) [])) []) 3)
    as (c1 & c2 & E1 & _ & E2 & H2); [by left|by vm_compute; lia|lia|done|done|].
  exists c1, c2. split; [exact E1|]. split; [exact E2|exact H2].
Defined.
