(* ===== verification/RpcConcurrent.v ===== *)
(** * RpcConcurrent: concurrent calls on one connection

    Any number of threads call through one client, in any interleaving with its
    receiver thread, the server and timeouts. Every answer a thread gets is the
    server's answer to its own request, and every request is executed at most once. *)

From Stdlib Require Import Ascii String.
From stdpp Require Import relations.
From S2P Require Import Prelude RpcProtocol RpcTransport RpcServer RpcProps.
Import MessageType StatusCode.

Local Open Scope Z_scope.

Section concurrent.
Context {A : Type}.
Implicit Types (s : System A).

(** Id and request of each call, whatever its progress. *)
Definition info s : gmap tid (Z * RequestMessage) :=
  (fun c => (call_id c, call_req c)) <$> calls s.

Definition id_of_message (m : Message) : Z := request_id (header_ m).

(** The requests that have left the client, answered or not. *)
Definition sent_messages s : list Message := (executed s).*1 ++ up s.

(** The server answered the request with this response. *)
Definition answered s (id : Z) (req : RequestMessage) (r : ResponseMessage) : Prop :=
  exists reply, (Message_request id req, reply) ∈ executed s /\ r = decode_response (body_ reply).

(** The responses the client makes up itself. *)
Definition local_failure (r : ResponseMessage) : Prop :=
  r = timeout_response \/ r = send_failed_response \/ r = disconnected_response.

Definition unsent (ph : phase) : bool :=
  match ph with Numbered | Started => true | _ => false end.

Record inv s : Prop := {
  inv_next : next_request_id_ (client s) = 1 + Z.of_nat (size (info s));
  inv_ids t id req : info s !! t = Some (id, req) -> id < next_request_id_ (client s);
  inv_inj t t' id req req' :
    info s !! t = Some (id, req) -> info s !! t' = Some (id, req') -> t = t';
  inv_pending id t : pending_calls_ (client s) !! id = Some t -> exists req, info s !! t = Some (id, req);
  inv_started t id req ph : calls s !! t = Some (mkCall id req ph) -> unsent ph = true ->
    id ∉ (id_of_message <$> sent_messages s);
  inv_sent m : m ∈ sent_messages s ->
    exists t id req, info s !! t = Some (id, req) /\ m = Message_request id req;
  inv_once : NoDup (id_of_message <$> sent_messages s);
  inv_reply m reply : (m, reply) ∈ executed s -> id_of_message reply = id_of_message m;
  inv_down m : m ∈ down s -> m ∈ (executed s).*2;
  inv_future t r : futures (client s) !! t = Some r ->
    exists id req, info s !! t = Some (id, req) /\ (r = disconnected_response \/ answered s id req r);
  inv_finished t id req r : calls s !! t = Some (mkCall id req (Finished r)) ->
    local_failure r \/ answered s id req r;
}.

Lemma info_lookup s t id req ph : calls s !! t = Some (mkCall id req ph) -> info s !! t = Some (id, req).
Proof. intros H. unfold info. by rewrite lookup_fmap, H. Qed.

(** A change of phase does not show in [info]. *)
Lemma info_phase s t id req ph ph' :
  calls s !! t = Some (mkCall id req ph) ->
  (fun c => (call_id c, call_req c)) <$> <[t := mkCall id req ph']> (calls s) = info s.
Proof.
  intros H. rewrite fmap_insert. cbn. apply insert_id. by eapply info_lookup.
Qed.

Lemma inv_init sr : inv (System_init sr).
Proof.
  assert (Hi : info (System_init sr) = ∅) by apply fmap_empty.
  split; intros *; rewrite ?Hi; try (by intros ?%lookup_empty_Some); try (intros Hm; by apply not_elem_of_nil in Hm).
  all: try done. constructor.
Qed.

(** The reply carries the id of the request. *)
Lemma processRequest_reply (m reply : Message) (sv sv' : RpcServer A) :
  processRequest m sv = Ok (Some reply) sv' -> id_of_message reply = id_of_message m.
Proof.
  unfold processRequest. case_bool_decide; [|done].
  destruct (request_deserialize _) as [req st|e st|st|why]; [| |done|done].
  - intros (r & sv1 & _ & [= <- <-])%bind_inv_Ok. done.
  - intros [= <- <-]. done.
Qed.

(** Answers stay answers as the server executes more. *)
Lemma answered_mono s s' id req r :
  (forall x, x ∈ executed s -> x ∈ executed s') -> answered s id req r -> answered s' id req r.
Proof. intros H (reply & Hin & Hr). exists reply. auto. Qed.

(** ** Every step keeps the invariant *)

(** Steps that only move a call to another phase and perhaps register or forget its
    promise. *)
Lemma inv_phase s t id req ph ph' c :
  inv s -> calls s !! t = Some (mkCall id req ph) -> (unsent ph' = true -> unsent ph = true) ->
  next_request_id_ c = next_request_id_ (client s) ->
  (forall i u, pending_calls_ c !! i = Some u ->
     pending_calls_ (client s) !! i = Some u \/ (i = id /\ u = t)) ->
  futures c = futures (client s) ->
  (forall r, ph' = Finished r -> local_failure r \/ answered s id req r) ->
  inv (mkSystem c (<[t := mkCall id req ph']> (calls s)) (up s) (down s) (srv s) (executed s)).
Proof.
  intros Hs Ht Hph Hn Hp Hf Hr. pose proof (info_phase s t id req ph ph' Ht) as Hi.
  split; unfold info; cbn [client calls up down srv executed]; rewrite ?Hi, ?Hn, ?Hf.
  - apply (inv_next s Hs).
  - intros *. rewrite ?Hi. apply (inv_ids s Hs).
  - intros *. rewrite ?Hi. apply (inv_inj s Hs).
  - intros i u Hu. rewrite ?Hi. destruct (Hp i u Hu) as [Hu'|[-> ->]]; [by apply (inv_pending s Hs)|].
    exists req. by eapply info_lookup.
  - intros u i q p [[<- E]|[_ Hu]]%lookup_insert_Some Hun; [|by apply (inv_started s Hs u i q p)].
    injection E as <- <- <-. apply (inv_started s Hs t id req ph); auto.
  - intros m Hm. rewrite ?Hi. by apply (inv_sent s Hs).
  - apply (inv_once s Hs).
  - apply (inv_reply s Hs).
  - apply (inv_down s Hs).
  - intros u r Hu. rewrite ?Hi. by apply (inv_future s Hs).
  - intros u i q r [[<- [= <- <- ->]]|[_ Hu]]%lookup_insert_Some; [by apply Hr|].
    by apply (inv_finished s Hs u i q).
Qed.

(** A call that takes an id: the counter counts the calls, so the id is fresh. *)
Lemma inv_start s t req :
  inv s -> calls s !! t = None -> Z.of_nat (size (calls s)) < 2 ^ 32 - 2 ->
  inv (mkSystem (mkClient (wrap32 (next_request_id_ (client s) + 1))
                   (pending_calls_ (client s)) (futures (client s)))
         (<[t := mkCall (next_request_id_ (client s)) req Numbered]> (calls s))
         (up s) (down s) (srv s) (executed s)).
Proof.
  intros Hs Ht Hsz. set (id := next_request_id_ (client s)) in *.
  assert (Hfresh : info s !! t = None) by (unfold info; by rewrite lookup_fmap, Ht).
  assert (Hsz' : size (info s) = size (calls s)) by apply map_size_fmap.
  assert (Hi : (fun c => (call_id c, call_req c)) <$> <[t := mkCall id req Numbered]> (calls s)
               = <[t := (id, req)]> (info s)) by (by rewrite fmap_insert).
  assert (Hw : wrap32 (id + 1) = id + 1).
  { apply wrap32_small. unfold id. rewrite (inv_next s Hs). lia. }
  assert (Hweak : forall u i q, info s !! u = Some (i, q) -> <[t := (id, req)]> (info s) !! u = Some (i, q)).
  { intros u i q Hu. rewrite lookup_insert_ne; [done|]. intros ->. by rewrite Hfresh in Hu. }
  split; unfold info; cbn [client calls up down srv executed next_request_id_ pending_calls_ futures];
    rewrite ?Hi, ?Hw.
  - rewrite map_size_insert_None by done. unfold id. rewrite (inv_next s Hs). lia.
  - intros u i q Hu. apply lookup_insert_Some in Hu as [[_ E]|[_ Hu]]; [injection E as <- _; lia|].
    pose proof (inv_ids s Hs u i q Hu). unfold id. lia.
  - intros u u' i q q' H1 H2. apply lookup_insert_Some in H1 as [[E1 P1]|[N1 H1]];
      apply lookup_insert_Some in H2 as [[E2 P2]|[N2 H2]].
    + congruence.
    + injection P1 as Ei _. pose proof (inv_ids s Hs u' i q' H2). unfold id in *. lia.
    + injection P2 as Ei _. pose proof (inv_ids s Hs u i q H1). unfold id in *. lia.
    + by eapply (inv_inj s Hs).
  - intros i u Hu. rewrite ?Hi. destruct (inv_pending s Hs i u Hu) as [q Hq]. exists q. by apply Hweak.
  - intros u i q ph [[_ [= <- _ _]]|[_ Hu]]%lookup_insert_Some Hun; [|by apply (inv_started s Hs u i q ph)].
    intros (m & E & Hm)%list_elem_of_fmap. destruct (inv_sent s Hs m Hm) as (u' & i & q' & Hu' & ->).
    pose proof (inv_ids s Hs u' i q' Hu'). unfold id, id_of_message in E. cbn in E. lia.
  - intros m Hm. rewrite ?Hi. destruct (inv_sent s Hs m Hm) as (u & i & q & Hu & ->). exists u, i, q. auto.
  - apply (inv_once s Hs).
  - apply (inv_reply s Hs).
  - apply (inv_down s Hs).
  - intros u r Hu. rewrite ?Hi. destruct (inv_future s Hs u r Hu) as (i & q & H1 & H2). exists i, q. auto.
  - intros u i q r [[_ [=]]|[_ Hu]]%lookup_insert_Some. by apply (inv_finished s Hs u i q).
Qed.

Lemma inv_send s t id req :
  inv s -> calls s !! t = Some (mkCall id req Started) ->
  inv (mkSystem (client s) (<[t := mkCall id req Sent]> (calls s))
         (up s ++ [Message_request id req]) (down s) (srv s) (executed s)).
Proof.
  intros Hs Ht. pose proof (info_phase s t id req Started Sent Ht) as Hi.
  assert (Hsent : (executed s).*1 ++ up s ++ [Message_request id req] =
                  sent_messages s ++ [Message_request id req]) by apply app_assoc.
  assert (Hit : info s !! t = Some (id, req)) by (by eapply info_lookup).
  split; unfold info, sent_messages; cbn [client calls up down srv executed]; rewrite ?Hi, ?Hsent.
  - apply (inv_next s Hs).
  - intros *. rewrite ?Hi. apply (inv_ids s Hs).
  - intros *. rewrite ?Hi. apply (inv_inj s Hs).
  - intros i u Hu. rewrite ?Hi. by apply (inv_pending s Hs).
  - intros u i q ph [[_ [= <- <- <-]]|[Hne Hu]]%lookup_insert_Some Hun; [done|].
    rewrite ?Hsent, fmap_app, not_elem_of_app. split; [by apply (inv_started s Hs u i q ph)|].
    cbn. rewrite list_elem_of_singleton. intros ->.
    apply Hne. eapply (inv_inj s Hs); [done|]. by eapply info_lookup.
  - intros m. rewrite ?Hsent, ?Hi. intros [Hm| ->%list_elem_of_singleton]%elem_of_app; [by apply (inv_sent s Hs)|].
    by exists t, id, req.
  - rewrite fmap_app. apply NoDup_app. split_and!; [apply (inv_once s Hs)| |apply NoDup_singleton].
    intros i Hin ->%list_elem_of_singleton. by apply (inv_started s Hs t id req Started Ht).
  - apply (inv_reply s Hs).
  - apply (inv_down s Hs).
  - intros u r Hu. rewrite ?Hi. by apply (inv_future s Hs).
  - intros u i q r [[_ [=]]|[_ Hu]]%lookup_insert_Some. by apply (inv_finished s Hs u i q).
Qed.

Lemma inv_serve s m ms sr reply :
  inv s -> up s = m :: ms -> processRequest m (srv s) = Ok (Some reply) sr ->
  inv (mkSystem (client s) (calls s) ms (down s ++ [reply]) sr (executed s ++ [(m, reply)])).
Proof.
  intros Hs Hup Hreply.
  assert (Hsent : (executed s ++ [(m, reply)]).*1 ++ ms = sent_messages s).
  { unfold sent_messages. by rewrite fmap_app, <-app_assoc, Hup. }
  assert (Hmono : forall id req r, answered s id req r -> answered
            (mkSystem (client s) (calls s) ms (down s ++ [reply]) sr (executed s ++ [(m, reply)])) id req r).
  { intros id req r. apply answered_mono. cbn. set_solver. }
  split; unfold info, sent_messages; cbn [client calls up down srv executed]; rewrite ?Hsent.
  - apply (inv_next s Hs).
  - apply (inv_ids s Hs).
  - apply (inv_inj s Hs).
  - apply (inv_pending s Hs).
  - intros *. rewrite ?Hsent. apply (inv_started s Hs).
  - intros *. rewrite ?Hsent. apply (inv_sent s Hs).
  - apply (inv_once s Hs).
  - intros m' reply' [Hin|E%list_elem_of_singleton]%elem_of_app; [by apply (inv_reply s Hs)|].
    injection E as -> ->. by eapply processRequest_reply.
  - intros m' [Hin| ->%list_elem_of_singleton]%elem_of_app; rewrite fmap_app; apply elem_of_app.
    + left. by apply (inv_down s Hs).
    + right. by left.
  - intros t r Hr. destruct (inv_future s Hs t r Hr) as (id & req & H1 & [H2|H2]); exists id, req; auto.
  - intros t id req r Hr. destruct (inv_finished s Hs t id req r Hr) as [?|?]; auto.
Qed.

(** Messages to the client may be lost, promises completed with what the server or
    the disconnection made of their calls. *)
Lemma inv_client s c ms :
  inv s -> (forall m, m ∈ ms -> m ∈ down s) -> next_request_id_ c = next_request_id_ (client s) ->
  (forall i u, pending_calls_ c !! i = Some u -> pending_calls_ (client s) !! i = Some u) ->
  (forall t r, futures c !! t = Some r -> futures (client s) !! t = Some r \/
     exists id req, info s !! t = Some (id, req) /\ (r = disconnected_response \/ answered s id req r)) ->
  inv (mkSystem c (calls s) (up s) ms (srv s) (executed s)).
Proof.
  intros Hs Hsub Hn Hp Hf.
  split; unfold info, sent_messages; cbn [client calls up down srv executed]; rewrite ?Hn.
  - apply (inv_next s Hs).
  - apply (inv_ids s Hs).
  - apply (inv_inj s Hs).
  - intros i u Hu. by apply (inv_pending s Hs), Hp.
  - apply (inv_started s Hs).
  - apply (inv_sent s Hs).
  - apply (inv_once s Hs).
  - apply (inv_reply s Hs).
  - intros m Hm. by apply (inv_down s Hs), Hsub.
  - intros t r [Hr|Hr]%Hf; [by apply (inv_future s Hs)|done].
  - apply (inv_finished s Hs).
Qed.

(** Only requests travel to the server, so none is ignored. *)
Lemma sent_not_ignored s m ms sr :
  inv s -> up s = m :: ms -> processRequest m (srv s) = Ok None sr -> False.
Proof.
  intros Hs Hup. destruct (inv_sent s Hs m) as (t & id & req & _ & ->).
  { unfold sent_messages. rewrite Hup. set_solver. }
  unfold processRequest. change (type (header_ (Message_request id req))) with REQUEST.
  rewrite bool_decide_true by done.
  destruct (request_deserialize _) as [q st|e st|st|why]; [|done..].
  intros (r & sv1 & _ & [=])%bind_inv_Ok.
Qed.

(** The receiver thread hands a response to the call it answers. *)
Lemma inv_receive s m ms c :
  inv s -> down s = m :: ms -> receive_one m (client s) = Ok tt c ->
  inv (mkSystem c (calls s) (up s) ms (srv s) (executed s)).
Proof.
  intros Hs Hdown Hrecv.
  assert (Hsub : forall m', m' ∈ ms -> m' ∈ down s) by (intros m' Hm'; rewrite Hdown; by right).
  assert (Hkeep : inv (mkSystem (client s) (calls s) (up s) ms (srv s) (executed s)))
    by (apply inv_client; auto).
  unfold receive_one in Hrecv. case_bool_decide; [|by injection Hrecv as <-].
  unfold processResponse, mbind, cpp_bind, get in Hrecv. fold (id_of_message m) in Hrecv.
  destruct (pending_calls_ (client s) !! id_of_message m) as [t|] eqn:Ep; [|by injection Hrecv as <-].
  injection Hrecv as <-. destruct (inv_pending s Hs _ _ Ep) as (req & Hreq).
  apply inv_client; [done|done|done| |]; cbn [pending_calls_ futures].
  - by intros i u [_ Hu]%lookup_delete_Some.
  - intros u r [[<- <-]|[_ Hu]]%lookup_insert_Some; [|by left]. right.
    exists (id_of_message m), req. split; [done|]. right.
    assert (Hm : m ∈ (executed s).*2) by (apply (inv_down s Hs); rewrite Hdown; by left).
    apply list_elem_of_fmap in Hm as ([q reply] & -> & Hin). cbn in *.
    destruct (inv_sent s Hs q) as (t' & id' & req' & Hinfo & ->).
    { apply elem_of_app. left. apply list_elem_of_fmap. by exists (q, reply). }
    rewrite (inv_reply s Hs _ _ Hin) in *. change (id_of_message (Message_request id' req')) with id' in *.
    rewrite (inv_inj s Hs _ _ _ _ _ Hreq Hinfo) in Hreq. rewrite Hinfo in Hreq. injection Hreq as ->.
    by exists reply.
Qed.

(** [disconnect] completes exactly the pending calls. *)
Lemma disconnect_futures (pending : gmap Z tid) (fs : gmap tid ResponseMessage) t r :
  map_fold (fun _ t fs => <[t := disconnected_response]> fs) fs pending !! t = Some r ->
  fs !! t = Some r \/ (r = disconnected_response /\ exists id, pending !! id = Some t).
Proof.
  revert t r. apply (map_fold_weak_ind (fun fs' (pending : gmap Z tid) => forall t r, fs' !! t = Some r ->
    fs !! t = Some r \/ (r = disconnected_response /\ exists id, pending !! id = Some t))); [auto|].
  intros i u m fs' Hi IH t r [[<- <-]|[Hne Hr]]%lookup_insert_Some.
  - right. split; [done|]. exists i. apply lookup_insert_eq.
  - destruct (IH t r Hr) as [?|[-> [j Hj]]]; [auto|]. right. split; [done|]. exists j.
    rewrite lookup_insert_ne; [done|]. intros ->. by rewrite Hi in Hj.
Qed.

Lemma inv_disconnect s c :
  inv s -> disconnect (client s) = Ok tt c -> inv (mkSystem c (calls s) (up s) [] (srv s) (executed s)).
Proof.
  intros Hs [= <-]. apply inv_client; [done| |done| |]; cbn [pending_calls_ futures].
  - intros m Hm. by apply not_elem_of_nil in Hm.
  - by intros i u ?%lookup_empty_Some.
  - intros t r [?|[-> [id Hid]]]%disconnect_futures; [auto|]. right.
    destruct (inv_pending s Hs id t Hid) as [req Hreq]. exists id, req. auto.
Qed.

(** ** Runs *)

Lemma calls_grow s s' : rpc_step s s' -> (size (calls s) <= size (calls s'))%nat.
Proof.
  destruct 1; cbn; try done; rewrite ?map_size_insert; repeat case_match; cbn; lia.
Qed.

Lemma step_inv s s' : rpc_step s s' -> Z.of_nat (size (calls s')) < 2 ^ 32 - 1 -> inv s -> inv s'.
Proof.
  destruct 1 as [s t req id c Ht Hc|s t id req c Ht Hc|s t id req Ht|s t id req c Ht Hc|s m ms sr reply Hm Hr
    |s m ms sr Hm Hr|s m ms c Hm Hc|s t id req r Ht Hf|s t id req c Ht Hc|s c Hc]; cbn [calls]; intros Hsz Hs.
  - injection Hc as <- <-. apply inv_start; [done..|]. rewrite map_size_insert_None in Hsz by done. lia.
  - injection Hc as <-. eapply inv_phase; [done|done|done|done| |done|done].
    cbn. intros i u [[<- <-]|[_ Hu]]%lookup_insert_Some; auto.
  - by apply inv_send.
  - injection Hc as <-. eapply inv_phase; [done|done|done|done| |done|].
    + cbn. intros i u [_ Hu]%lookup_delete_Some. auto.
    + intros r [= <-]. unfold local_failure. auto.
  - by eapply inv_serve.
  - exfalso. by eapply sent_not_ignored.
  - by eapply inv_receive.
  - eapply inv_phase; [done|done|done|done|auto|done|]. intros r' [= <-].
    destruct (inv_future _ Hs _ _ Hf) as (i & q & Hi & [->|Hans]); [unfold local_failure; auto|].
    rewrite (info_lookup _ _ _ _ _ Ht) in Hi. injection Hi as -> ->. auto.
  - injection Hc as <-. eapply inv_phase; [done|done|done|done| |done|].
    + cbn. intros i u [_ Hu]%lookup_delete_Some. auto.
    + intros r [= <-]. unfold local_failure. auto.
  - by apply inv_disconnect.
Qed.

Lemma run_inv sr s :
  rtc rpc_step (System_init sr) s -> Z.of_nat (size (calls s)) < 2 ^ 32 - 1 -> inv s.
Proof.
  intros H. pattern s. revert s H. apply rtc_ind_r; [intros _; apply inv_init|].
  intros s s' _ Hstep IH Hsz. pose proof (calls_grow _ _ Hstep).
  eapply step_inv; [done|done|]. apply IH. lia.
Qed.
End concurrent.


Definition crosstalk_request (n : Z) : RequestMessage :=
  call_request "add" [VArith Int32 n; VArith Int32 20].

(** A scheduler: the steps as a function, to run interleavings. *)
Inductive action : Set :=
  | Start (t : tid) (req : RequestMessage) | RegisterCall (t : tid) | Send (t : tid)
  | Serve | Receive | Complete (t : tid) | GiveUp (t : tid).

Definition act {A} (a : action) (s : System A) : option (System A) :=
  let set t call c := mkSystem c (<[t := call]> (calls s)) (up s) (down s) (srv s) (executed s) in
  match a with
  | Start t req =>
      match calls s !! t, take_id (client s) with
      | None, Ok id c => Some (set t (mkCall id req Numbered) c)
      | _, _ => None
      end
  | RegisterCall t =>
      match calls s !! t with
      | Some (mkCall id req Numbered) =>
          match register_call id t (client s) with Ok tt c => Some (set t (mkCall id req Started) c) | _ => None end
      | _ => None
      end
  | Send t =>
      match calls s !! t with
      | Some (mkCall id req Started) =>
          Some (mkSystem (client s) (<[t := mkCall id req Sent]> (calls s))
                  (up s ++ [Message_request id req]) (down s) (srv s) (executed s))
      | _ => None
      end
  | Serve =>
      match up s with
      | m :: ms =>
          match processRequest m (srv s) with
          | Ok (Some reply) sr =>
              Some (mkSystem (client s) (calls s) ms (down s ++ [reply]) sr (executed s ++ [(m, reply)]))
          | _ => None
          end
      | [] => None
      end
  | Receive =>
      match down s with
      | m :: ms =>
          match receive_one m (client s) with
          | Ok tt c => Some (mkSystem c (calls s) (up s) ms (srv s) (executed s))
          | _ => None
          end
      | [] => None
      end
  | Complete t =>
      match calls s !! t, futures (client s) !! t with
      | Some (mkCall id req Sent), Some r => Some (set t (mkCall id req (Finished r)) (client s))
      | _, _ => None
      end
  | GiveUp t =>
      match calls s !! t with
      | Some (mkCall id req Sent) =>
          match forget_call id (client s) with
          | Ok tt c => Some (set t (mkCall id req (Finished timeout_response)) c)
          | _ => None
          end
      | _ => None
      end
  end.

Fixpoint acts {A} (l : list action) (s : System A) : option (System A) :=
  match l with
  | [] => Some s
  | a :: l' => match act a s with Some s' => acts l' s' | None => None end
  end.

Lemma act_step {A} a (s s' : System A) : act a s = Some s' -> rpc_step s s'.
Proof.
  destruct a; cbn -[take_id register_call processRequest receive_one forget_call]; intros H;
    repeat case_match; simplify_eq; by econstructor.
Qed.

Lemma acts_steps {A} l (s s' : System A) : acts l s = Some s' -> rtc rpc_step s s'.
Proof.
  revert s. induction l as [|a l IH]; cbn [acts]; intros s H; [injection H as ->; apply rtc_refl|].
  destruct (act a s) as [s1|] eqn:E; [|done]. eapply rtc_l; [by eapply act_step|auto].
Qed.

Definition crosstalk_run : list action :=
  [Start 0 (crosstalk_request 10); Start 1 (crosstalk_request 7); RegisterCall 1; RegisterCall 0;
   Send 1; Send 0; Serve; Receive; Complete 1; GiveUp 0].

Definition crosstalk_phases (s : System Z) : option phase * option phase * bool :=
  (call_phase <$> calls s !! 0%nat, call_phase <$> calls s !! 1%nat, bool_decide (size (calls s) = 2%nat)).


(** ** Reconnecting *)

(** What happens to a connected client: its connection breaks, a call finds the server
    unreachable, the owner disconnects. *)
Inductive link_event : Set := Dropped | Refused | Disconnected.

Definition link_step (e : link_event) : cpp Link unit :=
  match e with
  | Dropped => drop_link
  | Refused => _ ← prepare_call false; mret tt
  | Disconnected => disconnect_link
  end.

Definition link_ended (e : link_event) : bool := match e with Disconnected => true | _ => false end.
Definition link_lost (e : link_event) : bool := match e with Refused => false | _ => true end.

Lemma link_run (es : list link_event) l :
  exists l', iterM link_step es l = Ok tt l' /\
    receiver_joinable l' = receiver_joinable l && negb (existsb link_ended es) /\
    isConnected l' = isConnected l && negb (existsb link_lost es).
Proof.
  revert l. induction es as [|e es IH]; intros l; [exists l; cbn; by rewrite !andb_true_r|].
  assert (He : exists l1, link_step e l = Ok tt l1 /\
    receiver_joinable l1 = receiver_joinable l && negb (link_ended e) /\
    isConnected l1 = isConnected l && negb (link_lost e)).
  { destruct e, l as [[[]|] [] rn]; eexists; cbn; done. }
  destruct He as (l1 & E1 & Hj & Hc). destruct (IH l1) as (l' & E' & Hj' & Hc').
  exists l'. cbn [iterM existsb]. rewrite (bind_Ok _ _ _ _ _ E1), E', Hj', Hc', Hj, Hc.
  by rewrite !negb_orb, !andb_assoc.
Qed.

(** Refused calls leave a standing connection alone. *)
Lemma link_kept es l :
  isConnected l = true -> existsb link_lost es = false -> iterM link_step es l = Ok tt l.
Proof.
  intros Hl. induction es as [|e es IH]; intros H; [done|].
  cbn [existsb] in H. apply orb_false_iff in H as [He Hes].
  cbn [iterM]. erewrite bind_Ok; [by apply IH|]. destruct e, l as [[[]|] ? ?]; done.
Qed.

(** Reconnecting: once a connected client has lost its connection, whatever calls
    were refused since, a call made when the server is reachable again starts a second
    receiver thread over the first and ends the process, unless the owner called
    [disconnect] in between; then, and while the connection stands, the call proceeds. *)
Theorem reconnect_behaviour l0 l (es : list link_event) :
  connect true Link_new = Ok true l0 -> iterM link_step es l0 = Ok tt l ->
  prepare_call true l =
    if existsb link_lost es && negb (existsb link_ended es) then Undefined "std::terminate"
    else Ok None (mkLink (Some true) true true).
Proof.
  intros [= <-] Hes. destruct (link_run es (mkLink (Some true) true true)) as (l' & E & Hj & Hc).
  rewrite E in Hes. injection Hes as ->. cbn in Hj, Hc.
  destruct (existsb link_lost es) eqn:El; cbn [andb negb] in *.
  - unfold prepare_call, mbind at 1, cpp_bind at 1, get at 1. rewrite Hc.
    unfold connect, mbind at 1, cpp_bind at 1, mbind at 1, cpp_bind at 1, get. rewrite Hc. cbn.
    rewrite Hj. by destruct (existsb link_ended es).
  - rewrite (link_kept es (mkLink (Some true) true true)) in E by done. by injection E as <-.
Qed.

Lemma reconnect_behaviour_witness :
  exists l, iterM link_step [Dropped; Refused] (mkLink (Some true) true true) = Ok tt l /\
    prepare_call true l = Undefined "std::terminate".
Proof.
  eexists. split; [reflexivity|].
  apply (reconnect_behaviour (mkLink (Some true) true true) _ [Dropped; Refused]); reflexivity.
Defined.
