(* ===== verification/MazeGraph.v ===== *)
(** * MazeGraph: simple paths, distances and trees

    The graph theory behind the maze: walks of a relation ([nsteps]) and simple paths
    (lists of vertices without repetition), shortest distances, and trees as the sets
    of vertices and edges that grow leaf by leaf, in which any two vertices are joined
    by exactly one simple path. *)

From stdpp Require Import relations.
From S2P Require Import Prelude.

Section graph.
Context {V : Type} `{Countable V}.
Implicit Types (E : V -> V -> Prop) (l : list V).

(** ** Paths *)

Fixpoint is_path E l : Prop :=
  match l with
  | x :: ((y :: _) as l') => E x y /\ is_path E l'
  | _ => True
  end.

(** [l] is a simple path from [a] to [b]. *)
Definition simple_path E (a b : V) l : Prop :=
  head l = Some a /\ last l = Some b /\ is_path E l /\ NoDup l.

(** [n] is the length of a shortest walk. *)
Definition distance E (n : nat) (a b : V) : Prop :=
  nsteps E n a b /\ forall m, nsteps E m a b -> n <= m.

Lemma is_path_app E l1 x l2 : is_path E (l1 ++ x :: l2) <-> is_path E (l1 ++ [x]) /\ is_path E (x :: l2).
Proof.
  induction l1 as [|y l1 IH]; [cbn; tauto|].
  destruct l1 as [|z l1]; cbn in *; [destruct l2; tauto|]. tauto.
Qed.

Lemma is_path_mono E E' l : (forall a b, a ∈ l -> b ∈ l -> E a b -> E' a b) -> is_path E l -> is_path E' l.
Proof.
  induction l as [|x l IH]; [done|]. intros Hm. destruct l as [|y l]; [done|].
  intros [H1 H2]. split; [apply Hm; [by left|by right; left|done]|].
  apply IH; [|done]. intros a b Ha Hb. apply Hm; by right.
Qed.

Lemma is_path_snoc E l x y : is_path E (l ++ [x]) -> E x y -> is_path E (l ++ [x; y]).
Proof. intros H1 H2. apply is_path_app. split; [done|]. by cbn. Qed.

Lemma is_path_reverse E l : (forall a b, E a b -> E b a) -> is_path E l -> is_path E (reverse l).
Proof.
  intros Hs. induction l as [|x l IH]; [done|]. destruct l as [|y l]; [done|].
  intros [H1 H2]. specialize (IH H2). rewrite !reverse_cons in *. rewrite <-app_assoc. cbn.
  apply is_path_snoc; auto.
Qed.

Lemma simple_path_reverse E a b l :
  (forall a b, E a b -> E b a) -> simple_path E a b l -> simple_path E b a (reverse l).
Proof.
  intros Hs (H1 & H2 & H3 & H4). unfold simple_path.
  rewrite last_reverse, head_reverse. split_and!; [done|done|by apply is_path_reverse|].
  by rewrite (reverse_Permutation l).
Qed.

(** The walk along a path. *)
Lemma path_nsteps E l a b :
  head l = Some a -> last l = Some b -> is_path E l -> nsteps E (length l - 1) a b.
Proof.
  revert a. induction l as [|x l IH]; [done|]. intros a [= ->] Hb Hp.
  destruct l as [|y l]; [injection Hb as ->; constructor|].
  destruct Hp as [He Hp]. econstructor; [done|].
  specialize (IH y eq_refl Hb Hp). cbn in *. by rewrite Nat.sub_0_r in IH.
Qed.

(** Loops of a walk can be cut out. *)
Lemma nsteps_simple E n a b :
  nsteps E n a b -> exists l, simple_path E a b l /\ (length l <= S n)%nat.
Proof.
  induction 1 as [a|n a c b He _ (l & (H1 & H2 & H3 & H4) & Hl)].
  - exists [a]. split; [|cbn; lia]. split_and!; try done. apply NoDup_singleton.
  - destruct (decide (a ∈ l)) as [Ha|Ha].
    + apply list_elem_of_split in Ha as (l1 & l2 & ->). exists (a :: l2). split.
      * split_and!; [done|by rewrite last_app_cons in H2| |].
        -- by apply is_path_app in H3 as [_ ?].
        -- by apply NoDup_app in H4 as (_ & _ & ?).
      * rewrite length_app in Hl. cbn in *. lia.
    + exists (a :: l). destruct l as [|x l]; [done|]. injection H1 as ->.
      split; [|cbn in *; lia]. split_and!; [done|done|by split|by constructor].
Qed.

Lemma simple_path_same E a l : simple_path E a a l -> l = [a].
Proof.
  intros (H1 & H2 & _ & H4). destruct l as [|x l]; [done|]. injection H1 as ->.
  destruct l as [|y l]; [done|]. exfalso. apply NoDup_cons in H4 as [Hn _]. apply Hn.
  rewrite last_cons_cons in H2. apply last_Some_elem_of in H2. done.
Qed.

(** The distance from a vertex to itself, and along an edge. *)
Lemma distance_unique E n m a b : distance E n a b -> distance E m a b -> n = m.
Proof. intros [H1 H2] [H3 H4]. specialize (H2 _ H3). specialize (H4 _ H1). lia. Qed.

(** ** Trees *)

Implicit Types (S : gset V) (D : gset (V * V)).

(** A vertex set and a symmetric edge set, grown by adding leaves. *)
Inductive tree : gset V -> gset (V * V) -> Prop :=
  | tree_root v : tree {[v]} ∅
  | tree_leaf S D u v : tree S D -> u ∈ S -> v ∉ S -> tree ({[v]} ∪ S) ({[(u, v); (v, u)]} ∪ D).

Definition edge D : V -> V -> Prop := fun a b => (a, b) ∈ D.

Lemma tree_edges S D a b : tree S D -> edge D a b -> a ∈ S /\ b ∈ S /\ edge D b a /\ a <> b.
Proof. induction 1 as [|S D u v Ht IH Hu Hv]; unfold edge in *; set_solver. Qed.

Lemma tree_sym S D : tree S D -> forall a b, edge D a b -> edge D b a.
Proof. intros Ht a b He. by destruct (tree_edges S D a b Ht He) as (_ & _ & ? & _). Qed.

(** A tree of [n] vertices has [n - 1] edges, each counted in both directions. *)
Lemma tree_size S D : tree S D -> size D = (2 * (size S - 1))%nat.
Proof.
  induction 1 as [v|S D u v Ht IH Hu Hv]; [by rewrite size_empty, size_singleton|].
  assert (HuD : forall x y, (x, y) ∈ D -> x ∈ S /\ y ∈ S)
    by (intros x y He; destruct (tree_edges S D x y Ht He) as (? & ? & _); done).
  rewrite (size_union {[v]}) by set_solver. rewrite size_singleton.
  rewrite size_union by set_solver. rewrite size_union by set_solver.
  rewrite !size_singleton, IH.
  assert (size S <> 0%nat) by (rewrite size_non_empty_iff; set_solver). lia.
Qed.

(** Adding an edge keeps paths. *)
Lemma simple_path_mono D D' a b l : D ⊆ D' -> simple_path (edge D) a b l -> simple_path (edge D') a b l.
Proof.
  intros Hs (H1 & H2 & H3 & H4). split_and!; try done.
  eapply is_path_mono; [|done]. intros x y _ _. unfold edge. set_solver.
Qed.

(** The vertices of a path of a tree, other than its start, are vertices of the tree. *)
Lemma tree_path_in S D a l : tree S D -> head l = Some a -> a ∈ S -> is_path (edge D) l -> Forall (.∈ S) l.
Proof.
  intros Ht. revert a. induction l as [|x l IH]; intros a Hh Ha Hp; [constructor|].
  injection Hh as ->. constructor; [done|]. destruct l as [|y l]; [constructor|].
  destruct Hp as [He Hp]. apply (IH y); [done| |done].
  by destruct (tree_edges S D a y Ht He) as (_ & ? & _).
Qed.

Lemma tree_path_exists S D a b : tree S D -> a ∈ S -> b ∈ S -> exists l, simple_path (edge D) a b l.
Proof.
  intros Ht. revert a b. induction Ht as [v|S D u v Ht IH Hu Hv]; intros a b Ha Hb.
  - assert (a = v) as -> by set_solver. assert (b = v) as -> by set_solver.
    exists [v]. split_and!; try done. apply NoDup_singleton.
  - assert (Hone : exists l, simple_path (edge ({[(u, v); (v, u)]} ∪ D)) v v l)
      by (exists [v]; split_and!; try done; apply NoDup_singleton).
    assert (Hleaf : forall c, c ∈ S -> exists l, simple_path (edge ({[(u, v); (v, u)]} ∪ D)) v c l).
    { intros c Hc. destruct (IH u c Hu Hc) as (l & Hl). exists (v :: l).
      assert (Hin : Forall (.∈ S) l) by (destruct Hl as (? & _ & ? & _); by eapply tree_path_in).
      apply (simple_path_mono D ({[(u, v); (v, u)]} ∪ D)) in Hl as (H1 & H2 & H3 & H4); [|set_solver].
      destruct l as [|x l]; [done|]. injection H1 as ->. split_and!; try done.
      - split; [unfold edge; set_solver|done].
      - constructor; [|done]. intros Hx. rewrite Forall_forall in Hin. by apply Hv, Hin. }
    assert (Ht' : tree ({[v]} ∪ S) ({[(u, v); (v, u)]} ∪ D)) by (by constructor).
    apply elem_of_union in Ha as [->%elem_of_singleton|Ha];
      apply elem_of_union in Hb as [->%elem_of_singleton|Hb]; [done|by apply Hleaf| |].
    + destruct (Hleaf a Ha) as (l & Hl). exists (reverse l).
      apply simple_path_reverse; [by eapply tree_sym|done].
    + destruct (IH a b Ha Hb) as (l & Hl). exists l. eapply simple_path_mono; [|done]. set_solver.
Qed.

(** A path that starts outside [S] enters it at once, through the leaf's only edge. *)
Lemma leaf_path S D u v b l :
  tree S D -> u ∈ S -> v ∉ S -> b <> v -> simple_path (edge ({[(u, v); (v, u)]} ∪ D)) v b l ->
  exists l', l = v :: l' /\ simple_path (edge D) u b l'.
Proof.
  intros Ht Hu Hv Hb (H1 & H2 & H3 & H4). destruct l as [|x l]; [done|]. injection H1 as ->.
  exists l. split; [done|]. destruct l as [|y l]; [injection H2 as ->; done|].
  destruct H3 as [He H3]. apply NoDup_cons in H4 as [Hnv H4].
  assert (y = u) as ->.
  { unfold edge in He. assert (forall x, (v, x) ∉ D) as HD.
    { intros z Hz. by destruct (tree_edges S D v z Ht Hz) as [? _]. }
    set_solver. }
  split_and!; try done. eapply is_path_mono; [|exact H3].
  intros c d Hc Hd. unfold edge. set_solver.
Qed.

(** A path between vertices of [S] does not use the leaf. *)
Lemma inner_path S D u v a b l :
  tree S D -> u ∈ S -> v ∉ S -> a ∈ S -> b ∈ S ->
  simple_path (edge ({[(u, v); (v, u)]} ∪ D)) a b l -> simple_path (edge D) a b l.
Proof.
  intros Ht Hu Hv Ha Hb (H1 & H2 & H3 & H4). split_and!; try done.
  assert (Hvl : v ∉ l).
  { intros (l1 & l2 & ->)%list_elem_of_split.
    apply is_path_app in H3 as [H3 H3'].
    assert (HD : forall x, (v, x) ∉ D /\ (x, v) ∉ D).
    { intros z. split; intros Hz.
      - by destruct (tree_edges S D v z Ht Hz) as [? _].
      - by destruct (tree_edges S D z v Ht Hz) as (_ & ? & _). }
    destruct l2 as [|y l2].
    { rewrite last_snoc in H2. injection H2 as ->. done. }
    destruct H3' as [He _]. assert (y = u) as -> by (unfold edge in He; set_solver).
    destruct l1 as [|z l1 _] using rev_ind; [injection H1 as ->; done|].
    rewrite <-app_assoc in H3. apply is_path_app in H3 as [_ [He' _]].
    assert (z = u) as -> by (unfold edge in He'; set_solver).
    rewrite <-app_assoc in H4. apply NoDup_app in H4 as (_ & _ & H4).
    apply NoDup_cons in H4 as [Hn _]. apply Hn. right. by left. }
  eapply is_path_mono; [|exact H3]. intros c d Hc Hd. unfold edge. set_solver.
Qed.

(** Simple paths of a tree are unique. *)
Lemma tree_path_unique S D a b l l' :
  tree S D -> a ∈ S -> b ∈ S -> simple_path (edge D) a b l -> simple_path (edge D) a b l' -> l = l'.
Proof.
  intros Ht. revert a b l l'. induction Ht as [v|S D u v Ht IH Hu Hv]; intros a b l l' Ha Hb Hl Hl'.
  - assert (a = v) as -> by set_solver. assert (b = v) as -> by set_solver.
    apply simple_path_same in Hl, Hl'. congruence.
  - assert (Hsym : forall a b, edge ({[(u, v); (v, u)]} ∪ D) a b -> edge ({[(u, v); (v, u)]} ∪ D) b a)
      by (eapply tree_sym; by constructor).
    assert (Hleaf : forall c l l', c ∈ S -> simple_path (edge ({[(u, v); (v, u)]} ∪ D)) v c l ->
      simple_path (edge ({[(u, v); (v, u)]} ∪ D)) v c l' -> l = l').
    { intros c k k' Hc Hk Hk'. assert (c <> v) by (intros ->; done).
      apply (leaf_path S D) in Hk as (k1 & -> & Hk1); [|done..].
      apply (leaf_path S D) in Hk' as (k2 & -> & Hk2); [|done..].
      f_equal. by apply (IH u c). }
    apply elem_of_union in Ha as [->%elem_of_singleton|Ha];
      apply elem_of_union in Hb as [->%elem_of_singleton|Hb].
    + apply simple_path_same in Hl, Hl'. congruence.
    + by eapply Hleaf.
    + apply (inj reverse). apply (Hleaf a); [done| |]; by apply simple_path_reverse.
    + eapply (IH a b); [done..| |]; by eapply (inner_path S D u v).
Qed.

(** In a tree the simple path is the shortest walk. *)
Lemma tree_distance S D a b l :
  tree S D -> a ∈ S -> b ∈ S -> simple_path (edge D) a b l -> distance (edge D) (length l - 1) a b.
Proof.
  intros Ht Ha Hb Hl. split; [destruct Hl as (? & ? & ? & _); by apply path_nsteps|].
  intros m (l' & Hl' & Hlen)%nsteps_simple.
  rewrite (tree_path_unique S D a b l l' Ht Ha Hb Hl Hl'). lia.
Qed.
End graph.
