(* ===== verification/Maze.v ===== *)
(** * Maze: the maze generator and its path finders

    Models src/zsxq-cpp-ai/Stdmigong/MazeGenerator.h and MazeGenerator.cpp. The maze
    is a vector of rows of cells; an index out of range is undefined behaviour. The
    random engine appears through what [std::shuffle] makes of it ([Shuffle]). Const
    member functions are functions of the object whose result [None] stands for
    undefined behaviour (an index out of range, an overflow of [int]). The recursion
    and the searches take fuel; MazeProps.v shows that the number of cells is enough. *)

From S2P Require Import Prelude.

Local Open Scope Z_scope.

(** ** Random permutations *)

(** [std::shuffle(first, last, engine)] permutes the range and advances the engine. *)
Class Shuffle (G : Type) : Type := {
  shuffle : list (Z * Z) -> G -> list (Z * Z) * G;
  shuffle_perm : forall l g, (shuffle l g).1 ≡ₚ l;
}.

(** ** Cells *)

Record Cell : Set := mkCell {
  topWall : bool; rightWall : bool; bottomWall : bool; leftWall : bool; visited : bool }.

Definition Cell_new : Cell := mkCell true true true true false.

Definition visit_cell (c : Cell) : Cell :=
  mkCell (topWall c) (rightWall c) (bottomWall c) (leftWall c) true.
Definition clear_top (c : Cell) : Cell :=
  mkCell false (rightWall c) (bottomWall c) (leftWall c) (visited c).
Definition clear_right (c : Cell) : Cell :=
  mkCell (topWall c) false (bottomWall c) (leftWall c) (visited c).
Definition clear_bottom (c : Cell) : Cell :=
  mkCell (topWall c) (rightWall c) false (leftWall c) (visited c).
Definition clear_left (c : Cell) : Cell :=
  mkCell (topWall c) (rightWall c) (bottomWall c) false (visited c).

(** Up, right, down, left. *)
Definition directions : list (Z * Z) := [(0, -1); (1, 0); (0, 1); (-1, 0)].

Section generator.
Context {G : Type} `{Shuffle G}.

Record MazeGenerator : Type := mkGen {
  m_width : Z; m_height : Z; m_maze : list (list Cell); m_rng : G }.

Definition MazeGenerator_new (seed : G) : MazeGenerator := mkGen 0 0 [] seed.

Definition set_maze (m : list (list Cell)) (g : MazeGenerator) : MazeGenerator :=
  mkGen (m_width g) (m_height g) m (m_rng g).
Definition set_rng (r : G) (g : MazeGenerator) : MazeGenerator :=
  mkGen (m_width g) (m_height g) (m_maze g) r.

(** [m_maze[y][x]]. *)
Definition getCell (g : MazeGenerator) (x y : Z) : option Cell :=
  if (0 <=? x) && (0 <=? y) then m_maze g !! Z.to_nat y ≫= fun row => row !! Z.to_nat x else None.

Definition update_cell (x y : Z) (f : Cell -> Cell) : cpp MazeGenerator unit := fun g =>
  match getCell g x y with
  | None => Undefined "index out of range"
  | Some _ => Ok tt (set_maze (alter (alter f (Z.to_nat x)) (Z.to_nat y) (m_maze g)) g)
  end.

Definition isInBounds (g : MazeGenerator) (x y : Z) : bool :=
  (0 <=? x) && (x <? m_width g) && (0 <=? y) && (y <? m_height g).

Definition removeWall (x1 y1 x2 y2 : Z) : cpp MazeGenerator unit :=
  let dx := x2 - x1 in
  let dy := y2 - y1 in
  (if dx =? 1 then update_cell x1 y1 clear_right
   else if dx =? -1 then update_cell x1 y1 clear_left
   else if dy =? 1 then update_cell x1 y1 clear_bottom
   else if dy =? -1 then update_cell x1 y1 clear_top else mret tt) ;;
  (if dx =? 1 then update_cell x2 y2 clear_left
   else if dx =? -1 then update_cell x2 y2 clear_right
   else if dy =? 1 then update_cell x2 y2 clear_top
   else if dy =? -1 then update_cell x2 y2 clear_bottom else mret tt).

(** ** Generation *)

Definition shuffle_directions : cpp MazeGenerator (list (Z * Z)) := fun g =>
  let r := shuffle directions (m_rng g) in Ok r.1 (set_rng r.2 g).

Fixpoint generateDFS (fuel : nat) (x y : Z) : cpp MazeGenerator unit :=
  match fuel with
  | O => undefined "out of fuel"
  | S fuel' =>
      update_cell x y visit_cell ;;
      dirs ← shuffle_directions;
      iterM (fun dir =>
        let nx := x + (dir : Z * Z).1 in
        let ny := y + dir.2 in
        g ← get;
        if isInBounds g nx ny then
          match getCell g nx ny with
          | None => undefined "index out of range"
          | Some c => if visited c then mret tt else removeWall x y nx ny ;; generateDFS fuel' nx ny
          end
        else mret tt) dirs
  end.

Definition generate (width height : Z) : cpp MazeGenerator unit :=
  if (height <? 0) || ((0 <? height) && (width <? 0)) then undefined "negative size" else
  modify (fun g => mkGen width height
    (replicate (Z.to_nat height) (replicate (Z.to_nat width) Cell_new)) (m_rng g)) ;;
  generateDFS (Z.to_nat (width * height)) 0 0.

(** ** Walls *)

Definition hasWallBetween (g : MazeGenerator) (x1 y1 x2 y2 : Z) : option bool :=
  if negb (isInBounds g x1 y1) || negb (isInBounds g x2 y2) then Some true else
  let dx := x2 - x1 in
  let dy := y2 - y1 in
  if dx =? 1 then rightWall <$> getCell g x1 y1
  else if dx =? -1 then leftWall <$> getCell g x1 y1
  else if dy =? 1 then bottomWall <$> getCell g x1 y1
  else if dy =? -1 then topWall <$> getCell g x1 y1
  else Some true.

(** The condition under which both searches enter a neighbour. *)
Definition may_enter (g : MazeGenerator) (vis : gset (Z * Z)) (x y nx ny : Z) : option bool :=
  if negb (isInBounds g nx ny) then Some false
  else if bool_decide ((nx, ny) ∈ vis) then Some false
  else negb <$> hasWallBetween g x y nx ny.

(** [int] addition of one. *)
Definition int_succ (d : Z) : option Z := if d <? INT_MAX then Some (d + 1) else None.

(** ** The length of a shortest path *)

Abbreviation node := (Z * Z * Z)%type.

(** The loop over the four directions from one cell. *)
Fixpoint bfs_expand (g : MazeGenerator) (x y distance : Z) (dirs : list (Z * Z))
    (vis : gset (Z * Z)) (queue : list node) : option (gset (Z * Z) * list node) :=
  match dirs with
  | [] => Some (vis, queue)
  | dir :: dirs' =>
      let nx := x + dir.1 in
      let ny := y + dir.2 in
      enter ← may_enter g vis x y nx ny;
      if (enter : bool) then
        d ← int_succ distance;
        bfs_expand g x y distance dirs' ({[(nx, ny)]} ∪ vis) (queue ++ [(nx, ny, d)])
      else bfs_expand g x y distance dirs' vis queue
  end.

Fixpoint bfs_loop (fuel : nat) (g : MazeGenerator) (endX endY : Z)
    (vis : gset (Z * Z)) (queue : list node) : option Z :=
  match queue with
  | [] => Some (-1)
  | (x, y, distance) :: queue' =>
      match fuel with
      | O => None
      | S fuel' =>
          if (x =? endX) && (y =? endY) then Some distance else
          r ← bfs_expand g x y distance directions vis queue';
          bfs_loop fuel' g endX endY (r : gset (Z * Z) * list node).1 r.2
      end
  end.

(** Every cell is dequeued at most once. *)
Definition search_fuel (g : MazeGenerator) : nat := Z.to_nat (m_width g * m_height g).

Definition calculateShortestPath (g : MazeGenerator) (startX startY endX endY : Z) : option Z :=
  if negb (isInBounds g startX startY) || negb (isInBounds g endX endY) then Some (-1) else
  bfs_loop (search_fuel g) g endX endY {[(startX, startY)]} [(startX, startY, 0)].

(** ** A shortest path *)

Abbreviation parents := (gmap (Z * Z) (Z * Z)).

(** The loop over the directions; the flag says that the end has been reached, which
    leaves the loop. *)
Fixpoint path_expand (g : MazeGenerator) (x y endX endY : Z) (dirs : list (Z * Z))
    (vis : gset (Z * Z)) (queue : list (Z * Z)) (parentMap : parents)
    : option (gset (Z * Z) * list (Z * Z) * parents * bool) :=
  match dirs with
  | [] => Some (vis, queue, parentMap, false)
  | dir :: dirs' =>
      let nx := x + dir.1 in
      let ny := y + dir.2 in
      enter ← may_enter g vis x y nx ny;
      if (enter : bool) then
        let vis' := {[(nx, ny)]} ∪ vis in
        let parentMap' := <[(nx, ny) := (x, y)]> parentMap in
        let queue' := queue ++ [(nx, ny)] in
        if (nx =? endX) && (ny =? endY) then Some (vis', queue', parentMap', true)
        else path_expand g x y endX endY dirs' vis' queue' parentMap'
      else path_expand g x y endX endY dirs' vis queue parentMap
  end.

(** The parents recorded when the end has been found, [Some None] when it cannot be. *)
Fixpoint path_loop (fuel : nat) (g : MazeGenerator) (endX endY : Z)
    (vis : gset (Z * Z)) (queue : list (Z * Z)) (parentMap : parents) : option (option parents) :=
  match queue with
  | [] => Some None
  | (x, y) :: queue' =>
      match fuel with
      | O => None
      | S fuel' =>
          match path_expand g x y endX endY directions vis queue' parentMap with
          | None => None
          | Some (_, _, parentMap', true) => Some (Some parentMap')
          | Some (vis', queue'', parentMap', false) =>
              path_loop fuel' g endX endY vis' queue'' parentMap'
          end
      end
  end.

(** [parentMap[current]] yields (0, 0) for an absent key. *)
Fixpoint backtrack (fuel : nat) (parentMap : parents) (current : Z * Z) (path : list (Z * Z))
    : option (list (Z * Z)) :=
  if negb (current.1 =? -1) && negb (current.2 =? -1) then
    match fuel with
    | O => None
    | S fuel' => backtrack fuel' parentMap (default (0, 0) (parentMap !! current)) (current :: path)
    end
  else Some path.

Definition getFullPath (g : MazeGenerator) (startX startY endX endY : Z) : option (list (Z * Z)) :=
  if negb (isInBounds g startX startY) || negb (isInBounds g endX endY) then Some [] else
  if (startX =? endX) && (startY =? endY) then Some [(startX, startY)] else
  found ← path_loop (search_fuel g) g endX endY {[(startX, startY)]} [(startX, startY)]
            {[(startX, startY) := (-1, -1)]};
  match found with
  | None => Some []
  | Some parentMap => backtrack (S (search_fuel g)) parentMap (endX, endY) []
  end.
End generator.
Arguments MazeGenerator : clear implicits.

(** ** An engine to run the model with *)

#[global] Instance counter_shuffle : Shuffle nat.
Proof.
  refine {| shuffle := fun l n => (drop (n mod 4) l ++ take (n mod 4) l, (n * 5 + 3) mod 16)%nat |}.
  intros l n. cbn. rewrite (Permutation_app_comm _ _). by rewrite take_drop.
Defined.
