(* ===== verification/MazeProps.v ===== *)
(** * MazeProps: the generated maze is perfect

    [generate] carves a spanning tree out of the grid: it returns for every size and
    every engine, visits all cells, keeps the walls of neighbours consistent and the
    border closed, and joins any two cells by exactly one simple path. *)

From stdpp Require Import relations.
From S2P Require Import Prelude MazeGraph Maze.

Local Open Scope Z_scope.

Section maze.
Context {G : Type} `{Shuffle G}.
Implicit Types (g : MazeGenerator G) (a b d : Z * Z).

(** ** The grid *)

Definition inb g (c : Z * Z) : Prop := isInBounds g c.1 c.2 = true.
Definition cell g (c : Z * Z) : option Cell := getCell g c.1 c.2.
Definition step (c d : Z * Z) : Z * Z := (c.1 + d.1, c.2 + d.2).
Definition opp (d : Z * Z) : Z * Z := (- d.1, - d.2).

#[global] Instance inb_dec g c : Decision (inb g c).
Proof. unfold inb. apply _. Defined.

(** The vectors have the declared sizes. *)
Definition wf g : Prop :=
  0 <= m_width g /\ 0 <= m_height g /\ length (m_maze g) = Z.to_nat (m_height g) /\
  Forall (fun row => length row = Z.to_nat (m_width g)) (m_maze g).

Definition same_size g g' : Prop := m_width g' = m_width g /\ m_height g' = m_height g.

Lemma inb_iff g c : inb g c <-> 0 <= c.1 < m_width g /\ 0 <= c.2 < m_height g.
Proof. unfold inb, isInBounds. rewrite !andb_true_iff, !Z.leb_le, !Z.ltb_lt. tauto. Qed.

Lemma same_size_inb g g' c : same_size g g' -> inb g' c <-> inb g c.
Proof. intros [E1 E2]. by rewrite !inb_iff, E1, E2. Qed.

Lemma cell_inb g c : wf g -> is_Some (cell g c) <-> inb g c.
Proof.
  intros (Hw & Hh & Hl & Hr). rewrite inb_iff. unfold cell, getCell. split.
  - intros [x Hx]. destruct (0 <=? c.1) eqn:E1, (0 <=? c.2) eqn:E2; try done. cbn in Hx.
    apply bind_Some in Hx as (row & Hrow & Hx). apply Z.leb_le in E1, E2.
    rewrite Forall_forall in Hr. specialize (Hr row ltac:(by eapply list_elem_of_lookup_2)).
    apply lookup_lt_Some in Hx, Hrow. lia.
  - intros [[H1 H2] [H3 H4]]. rewrite (proj2 (Z.leb_le _ _) H1), (proj2 (Z.leb_le _ _) H3). cbn.
    destruct (lookup_lt_is_Some_2 (m_maze g) (Z.to_nat c.2)) as [row Hrow]; [lia|]. rewrite Hrow. cbn.
    apply lookup_lt_is_Some_2. rewrite Forall_forall in Hr.
    rewrite (Hr row) by (by eapply list_elem_of_lookup_2). lia.
Qed.

(** [update_cell] changes one cell. *)
Lemma update_cell_ok g c f :
  wf g -> inb g c -> exists g', update_cell c.1 c.2 f g = Ok tt g' /\ wf g' /\ same_size g g' /\
    forall c', cell g' c' = if decide (c' = c) then f <$> cell g c' else cell g c'.
Proof.
  intros Hg Hc. destruct (proj2 (cell_inb g c Hg) Hc) as [x Hx]. unfold update_cell.
  unfold cell in Hx. rewrite Hx. eexists. split; [done|]. destruct Hg as (Hw & Hh & Hl & Hr).
  apply inb_iff in Hc. split; [|split; [done|]].
  - split_and!; cbn; [done|done|by rewrite length_alter|].
    rewrite Forall_lookup in Hr. apply Forall_lookup_2. intros i row. rewrite list_lookup_alter.
    case_decide; [|by apply Hr]. intros (row' & Hrow' & ->)%fmap_Some.
    rewrite length_alter. by eapply Hr.
  - intros c'. unfold cell, getCell. cbn. destruct (0 <=? c'.1) eqn:E1, (0 <=? c'.2) eqn:E2; cbn;
      [|by case_decide..]. apply Z.leb_le in E1, E2. destruct c as [x1 y1], c' as [x2 y2]. cbn in *.
    destruct (decide (y2 = y1)) as [->|Hy].
    + rewrite list_lookup_alter_eq. destruct (m_maze g !! Z.to_nat y1) as [row|]; cbn; [|by case_decide].
      destruct (decide (x2 = x1)) as [->|Hx']; [by rewrite decide_True, list_lookup_alter_eq|].
      rewrite decide_False by congruence. apply list_lookup_alter_ne. lia.
    + rewrite decide_False by congruence. rewrite list_lookup_alter_ne by lia. done.
Qed.

(** ** Walls and passages *)

Definition wall d (c : Cell) : bool :=
  if d.1 =? 1 then rightWall c else if d.1 =? -1 then leftWall c
  else if d.2 =? 1 then bottomWall c else if d.2 =? -1 then topWall c else true.

Definition clear_wall d : Cell -> Cell :=
  if d.1 =? 1 then clear_right else if d.1 =? -1 then clear_left
  else if d.2 =? 1 then clear_bottom else if d.2 =? -1 then clear_top else id.

(** One can walk from [a] to [b], a neighbour. *)
Definition passage g a b : Prop :=
  (exists d, d ∈ directions /\ b = step a d) /\ hasWallBetween g a.1 a.2 b.1 b.2 = Some false.

#[global] Instance passage_dec g a b : Decision (passage g a b).
Proof. unfold passage. apply and_dec; [apply list_exist_dec|]; apply _. Defined.

Lemma directions_iff d : d ∈ directions <-> d = (0, -1) \/ d = (1, 0) \/ d = (0, 1) \/ d = (-1, 0).
Proof. unfold directions. rewrite !elem_of_cons, elem_of_nil. tauto. Qed.

Lemma step_inj a d d' : step a d = step a d' -> d = d'.
Proof. destruct a, d, d'. unfold step. cbn. intros [= H1 H2]. f_equal; lia. Qed.
Lemma step_opp a d : step (step a d) (opp d) = a.
Proof. destruct a, d. unfold step, opp. cbn. f_equal; lia. Qed.
Lemma opp_directions d : d ∈ directions -> opp d ∈ directions.
Proof. rewrite !directions_iff. unfold opp. intros [->|[->|[->| ->]]]; cbn; tauto. Qed.
Lemma step_ne a d : d ∈ directions -> step a d <> a.
Proof.
  rewrite directions_iff. unfold step. destruct a as [x y].
  intros [->|[->|[->| ->]]]; cbn; intros [=]; lia.
Qed.

Lemma hasWall_step g a d :
  wf g -> d ∈ directions -> inb g a -> inb g (step a d) ->
  hasWallBetween g a.1 a.2 (step a d).1 (step a d).2 = wall d <$> cell g a.
Proof.
  intros Hg Hd Ha Hb. unfold hasWallBetween. unfold inb in Ha, Hb. rewrite Ha, Hb. cbn [negb orb].
  unfold step, wall, cell. destruct a as [x y]. cbn [fst snd].
  apply directions_iff in Hd as [->|[->|[->| ->]]]; cbn [fst snd];
    replace (x + 0 - x) with 0 by lia; replace (y + 0 - y) with 0 by lia;
    replace (x + 1 - x) with 1 by lia; replace (x + -1 - x) with (-1) by lia;
    replace (y + 1 - y) with 1 by lia; replace (y + -1 - y) with (-1) by lia; done.
Qed.

Lemma passage_iff g a b :
  wf g -> passage g a b <->
    exists d c, d ∈ directions /\ b = step a d /\ inb g b /\ cell g a = Some c /\ wall d c = false.
Proof.
  intros Hg. split.
  - intros [(d & Hd & ->) Hp].
    assert (inb g a /\ inb g (step a d)) as [Ha Hb].
    { unfold inb. unfold hasWallBetween in Hp.
      destruct (isInBounds g a.1 a.2), (isInBounds g (step a d).1 (step a d).2); done. }
    rewrite hasWall_step in Hp by done. apply fmap_Some in Hp as (c & Hc & Hwl). by exists d, c.
  - intros (d & c & Hd & -> & Hb & Hc & Hwl). split; [by exists d|].
    rewrite hasWall_step; [by rewrite Hc; cbn; rewrite Hwl|done..|by apply cell_inb; [|exists c]|done].
Qed.

Lemma removeWall_step g a d :
  d ∈ directions -> removeWall a.1 a.2 (step a d).1 (step a d).2 g =
    (update_cell a.1 a.2 (clear_wall d) ;; update_cell (step a d).1 (step a d).2 (clear_wall (opp d))) g.
Proof.
  intros Hd. unfold removeWall, step, clear_wall, opp. destruct a as [x y]. cbn [fst snd].
  apply directions_iff in Hd as [->|[->|[->| ->]]]; cbn [fst snd];
    replace (x + 0 - x) with 0 by lia; replace (y + 0 - y) with 0 by lia;
    replace (x + 1 - x) with 1 by lia; replace (x + -1 - x) with (-1) by lia;
    replace (y + 1 - y) with 1 by lia; replace (y + -1 - y) with (-1) by lia; done.
Qed.

Lemma wall_clear d d' c :
  d ∈ directions -> d' ∈ directions ->
  wall d (clear_wall d' c) = if decide (d = d') then false else wall d c.
Proof.
  rewrite !directions_iff. intros [->|[->|[->| ->]]] [->|[->|[->| ->]]]; done.
Qed.

Lemma visited_clear d c : visited (clear_wall d c) = visited c.
Proof. unfold clear_wall. by repeat case_match. Qed.

(** A cell is marked. *)
Definition marked g c : Prop := exists x, cell g c = Some x /\ visited x = true.

(** [removeWall] opens the passage in both directions and changes nothing else. *)
Lemma removeWall_ok g a d :
  wf g -> d ∈ directions -> inb g a -> inb g (step a d) ->
  exists g', removeWall a.1 a.2 (step a d).1 (step a d).2 g = Ok tt g' /\ wf g' /\ same_size g g' /\
    (forall c, marked g' c <-> marked g c) /\
    forall x y, passage g' x y <-> passage g x y \/ (x = a /\ y = step a d) \/ (x = step a d /\ y = a).
Proof.
  intros Hg Hd Ha Hb. pose proof (step_ne a d Hd) as Hne.
  rewrite removeWall_step by done.
  destruct (update_cell_ok g a (clear_wall d) Hg Ha) as (g1 & E1 & Hg1 & Hs1 & Hc1).
  destruct (update_cell_ok g1 (step a d) (clear_wall (opp d)) Hg1) as (g2 & E2 & Hg2 & Hs2 & Hc2).
  { by apply (same_size_inb g g1). }
  exists g2. rewrite (bind_Ok _ _ _ _ _ E1). cbv beta. split; [done|]. split; [done|].
  assert (Hss : same_size g g2) by (destruct Hs1, Hs2; split; congruence). split; [done|].
  assert (Hc : forall c, cell g2 c = if decide (c = step a d) then clear_wall (opp d) <$> cell g c
                                     else if decide (c = a) then clear_wall d <$> cell g c else cell g c).
  { intros c. rewrite Hc2, Hc1. repeat case_decide; congruence. }
  clear Hc1 Hc2 E1 E2 Hs1 Hs2 Hg1 g1. split.
  - intros c. unfold marked. rewrite Hc. repeat case_decide; [..|done];
      (split; intros (x & Hx & Hv);
       [apply fmap_Some in Hx as (x' & Hx' & ->); exists x'; by rewrite visited_clear in Hv
       |rewrite Hx; cbn; eexists; split; [done|by rewrite visited_clear]]).
  - intros x y. rewrite !passage_iff by done. split.
    + intros (e & c & He & -> & Hin & Hcx & Hwl). rewrite (same_size_inb g g2) in Hin by done.
      rewrite Hc in Hcx. case_decide as Ex; [subst x|case_decide as Ex2; [subst x|]].
      * apply fmap_Some in Hcx as (c' & Hc' & ->).
        rewrite wall_clear in Hwl by (done || by apply opp_directions). case_decide as Ee; [subst e|].
        -- right. right. by rewrite step_opp.
        -- left. by exists e, c'.
      * apply fmap_Some in Hcx as (c' & Hc' & ->). rewrite wall_clear in Hwl by done.
        case_decide as Ee; [subst e|]; [auto|]. left. by exists e, c'.
      * left. by exists e, c.
    + intros [(e & c & He & -> & Hin & Hcx & Hwl)|[[-> ->]|[-> ->]]].
      * exists e. rewrite Hc, Hcx. apply (same_size_inb g g2) in Hin; [|done]. cbn.
        repeat case_decide; eexists; split_and!; try done; rewrite wall_clear; try done;
          try (by apply opp_directions); by case_decide.
      * destruct (proj2 (cell_inb g a Hg) Ha) as [c Hca]. exists d, (clear_wall d c).
        rewrite Hc, decide_False, decide_True, Hca by done. split_and!; try done.
        -- by apply (same_size_inb g g2).
        -- by rewrite wall_clear, decide_True.
      * destruct (proj2 (cell_inb g _ Hg) Hb) as [c Hca]. exists (opp d), (clear_wall (opp d) c).
        rewrite Hc, decide_True, Hca by done. split_and!; [by apply opp_directions|by rewrite step_opp| |done|].
        -- by apply (same_size_inb g g2).
        -- rewrite wall_clear by (by apply opp_directions). by rewrite decide_True.
Qed.

(** ** The cells as a finite set *)

Definition grid g : gset (Z * Z) :=
  list_to_set (x ← seqZ 0 (m_width g); y ← seqZ 0 (m_height g); [(x, y)]).

Lemma elem_of_grid g c : c ∈ grid g <-> inb g c.
Proof.
  unfold grid. rewrite elem_of_list_to_set, inb_iff. rewrite list_elem_of_bind.
  setoid_rewrite list_elem_of_bind. setoid_rewrite elem_of_seqZ. setoid_rewrite list_elem_of_singleton.
  destruct c as [x y]. cbn. split.
  - intros (x' & (y' & [= -> ->] & Hy) & Hx). lia.
  - intros [Hx Hy]. exists x. split; [|lia]. exists y. split; [done|lia].
Qed.

Lemma same_size_grid g g' : same_size g g' -> grid g' = grid g.
Proof. intros [E1 E2]. unfold grid. by rewrite E1, E2. Qed.

Lemma size_list_to_set_le (l : list (Z * Z)) : (size (list_to_set l : gset (Z * Z)) <= length l)%nat.
Proof.
  induction l as [|x l IH]; [by rewrite list_to_set_nil, size_empty|]. rewrite list_to_set_cons.
  rewrite size_union_alt, size_singleton. cbn [length].
  assert (size ((list_to_set l : gset (Z * Z)) ∖ {[x]}) <= size (list_to_set l : gset (Z * Z)))%nat;
    [apply subseteq_size; set_solver|lia].
Qed.

Lemma size_grid g : wf g -> (size (grid g) <= Z.to_nat (m_width g * m_height g))%nat.
Proof.
  intros (Hw & Hh & _). etrans; [apply size_list_to_set_le|].
  assert (E : forall l : list Z, length (x ← l; y ← seqZ 0 (m_height g); [(x, y)]) = (length l * Z.to_nat (m_height g))%nat).
  { intros l. induction l as [|x l IH]; [done|]. rewrite bind_cons, length_app, IH.
    assert (E' : forall l' : list Z, length (y ← l'; [(x, y)]) = length l')
      by (intros l'; induction l' as [|y l' IH']; [done|]; cbn; by rewrite <-IH').
    rewrite E', length_seqZ. done. }
  rewrite E, length_seqZ. lia.
Qed.

(** ** Depth-first generation *)

(** The marked cells are [V], the open passages the edges [D] of a tree on [T]. *)
Definition carved g (V T : gset (Z * Z)) (D : gset ((Z * Z) * (Z * Z))) : Prop :=
  wf g /\ (forall c, c ∈ V <-> marked g c) /\ T ⊆ grid g /\ tree T D /\
  forall x y, passage g x y <-> (x, y) ∈ D.

(** All neighbours of a cell are in [V]. *)
Definition closed g (V : gset (Z * Z)) c : Prop :=
  forall d, d ∈ directions -> inb g (step c d) -> step c d ∈ V.

Lemma closed_mono g g' V V' c : same_size g g' -> V ⊆ V' -> closed g V c -> closed g' V' c.
Proof. intros Hs Hsub Hc d Hd Hin. apply Hsub, Hc; [done|]. by apply (same_size_inb g g'). Qed.

Lemma same_size_trans g1 g2 g3 : same_size g1 g2 -> same_size g2 g3 -> same_size g1 g3.
Proof. intros [] []. split; congruence. Qed.

(** What a call of [generateDFS] on an unmarked cell [c] does. *)
Definition dfs_post g (V : gset (Z * Z)) c (r : result (MazeGenerator G) unit) : Prop :=
  exists g' V' D', r = Ok tt g' /\ same_size g g' /\ carved g' V' V' D' /\
    {[c]} ∪ V ⊆ V' /\ forall e, e ∈ V' -> e ∉ V -> closed g' V' e.

Lemma mark_visited_ok g (V : gset (Z * Z)) c D :
  carved g V ({[c]} ∪ V) D ->
  exists g', update_cell c.1 c.2 visit_cell g = Ok tt g' /\ same_size g g' /\
    carved g' ({[c]} ∪ V) ({[c]} ∪ V) D.
Proof.
  intros (Hg & HV & HT & Ht & HD). assert (Hc : inb g c) by (apply elem_of_grid; set_solver).
  destruct (update_cell_ok g c visit_cell Hg Hc) as (g' & E & Hg' & Hs & Hcell).
  exists g'. split; [done|]. split; [done|]. split_and!; [done| |by rewrite (same_size_grid g g')|done|].
  - intros e. rewrite elem_of_union, elem_of_singleton. unfold marked. rewrite Hcell. split.
    + intros [->|He%HV].
      * rewrite decide_True by done. destruct (proj2 (cell_inb g c Hg) Hc) as [x ->]. by eexists.
      * destruct He as (x & Hx & Hv). rewrite Hx. case_decide; eexists; by split.
    + case_decide; [by left|]. intros Hm. right. by apply HV.
  - intros x y. rewrite <-HD. rewrite !passage_iff by done. setoid_rewrite (same_size_inb g g' _ Hs).
    split; intros (d & k & H1 & H2 & H3 & H4 & H5); exists d.
    + rewrite Hcell in H4. case_decide; [|by exists k]. apply fmap_Some in H4 as (k' & H4 & ->). by exists k'.
    + rewrite Hcell, H4. case_decide; [|by exists k]. by exists (visit_cell k).
Qed.

(** [shuffle_directions] yields a permutation of the directions. *)
Lemma shuffle_ok g : exists dirs g', shuffle_directions g = Ok dirs g' /\ dirs ≡ₚ directions /\
  same_size g g' /\ m_maze g' = m_maze g.
Proof.
  unfold shuffle_directions. do 2 eexists. split; [done|]. split; [apply shuffle_perm|]. by split.
Qed.

Lemma carved_same_maze g g' V T D : same_size g g' -> m_maze g' = m_maze g -> carved g V T D -> carved g' V T D.
Proof.
  intros [E1 E2] E3. unfold carved, wf, marked, passage, grid, cell, getCell, hasWallBetween, isInBounds, getCell.
  by rewrite E1, E2, E3.
Qed.

(** Entering an unmarked neighbour of a marked cell. *)
Lemma carve_ok g (V : gset (Z * Z)) D c d :
  carved g V V D -> c ∈ V -> d ∈ directions -> inb g (step c d) -> step c d ∉ V ->
  exists g' D', removeWall c.1 c.2 (step c d).1 (step c d).2 g = Ok tt g' /\ same_size g g' /\
    carved g' V ({[step c d]} ∪ V) D'.
Proof.
  intros (Hg & HV & HT & Ht & HD) Hc Hd Hin Hn.
  destruct (removeWall_ok g c d Hg Hd) as (g' & E & Hg' & Hs & Hm & Hp); [by apply elem_of_grid, HT|done|].
  exists g', ({[(c, step c d); (step c d, c)]} ∪ D). split; [done|]. split; [done|].
  split_and!; [done| | | |].
  - intros e. by rewrite Hm.
  - rewrite (same_size_grid g g') by done. apply elem_of_grid in Hin. set_solver.
  - by constructor.
  - intros x y. rewrite Hp, HD. set_solver.
Qed.

(** The loop over the directions, given the effect of the recursive calls. *)
Lemma dfs_loop (body : Z * Z -> cpp (MazeGenerator G) unit) g0 (V0 : gset (Z * Z)) c dirs :
  (forall d g V D, d ∈ directions -> same_size g0 g -> carved g V V D -> V0 ⊆ V ->
     exists g' V' D', body d g = Ok tt g' /\ same_size g g' /\ carved g' V' V' D' /\ V ⊆ V' /\
       (inb g' (step c d) -> step c d ∈ V') /\ forall e, e ∈ V' -> e ∉ V -> closed g' V' e) ->
  (forall d, d ∈ dirs -> d ∈ directions) ->
  forall g V D, same_size g0 g -> carved g V V D -> V0 ⊆ V ->
  exists g' V' D', iterM body dirs g = Ok tt g' /\ same_size g g' /\ carved g' V' V' D' /\ V ⊆ V' /\
    (forall d, d ∈ dirs -> inb g' (step c d) -> step c d ∈ V') /\
    forall e, e ∈ V' -> e ∉ V -> closed g' V' e.
Proof.
  intros Hbody. induction dirs as [|d dirs IH]; intros Hdirs g V D Hs Hc HV.
  { exists g, V, D. split_and!; try done; try (by split). intros d Hd. by apply not_elem_of_nil in Hd. }
  destruct (Hbody d g V D) as (g1 & V1 & D1 & E1 & Hs1 & Hc1 & HV1 & Hd1 & Hcl1); [apply Hdirs; by left|done..|].
  destruct (IH (fun e He => Hdirs e (list_elem_of_further _ _ _ He)) g1 V1 D1)
    as (g2 & V2 & D2 & E2 & Hs2 & Hc2 & HV2 & Hd2 & Hcl2);
    [by eapply same_size_trans|done|set_solver|].
  exists g2, V2, D2. cbn [iterM]. rewrite (bind_Ok _ _ _ _ _ E1). split; [done|].
  split; [by eapply same_size_trans|]. split; [done|]. split; [set_solver|]. split.
  - intros e [->|He]%elem_of_cons Hin; [|by apply Hd2].
    apply HV2, Hd1. by apply (same_size_inb g1 g2).
  - intros e He Hn. destruct (decide (e ∈ V1)) as [Hin|Hin]; [|by apply Hcl2].
    eapply closed_mono; [done|done|]. by apply Hcl1.
Qed.

Lemma size_grid_diff g (V V' : gset (Z * Z)) :
  V ⊆ V' -> (size (grid g ∖ V') <= size (grid g ∖ V))%nat.
Proof. intros Hs. apply subseteq_size. set_solver. Qed.

(** Enough fuel: one level of recursion for every unmarked cell. *)
Lemma generateDFS_ok (fuel : nat) g (V : gset (Z * Z)) c D :
  carved g V ({[c]} ∪ V) D -> c ∉ V -> (size (grid g ∖ V) <= fuel)%nat ->
  dfs_post g V c (generateDFS fuel c.1 c.2 g).
Proof.
  revert g V c D. induction fuel as [|fuel IH]; intros g V c D Hc Hn Hf.
  { exfalso. assert (Hin : c ∈ grid g ∖ V) by (destruct Hc as (_ & _ & HT & _); set_solver).
    assert (size (grid g ∖ V) <> 0%nat); [|lia]. apply size_non_empty_iff. set_solver. }
  destruct (mark_visited_ok g V c D Hc) as (g1 & E1 & Hs1 & Hc1).
  destruct (shuffle_ok g1) as (dirs & g2 & E2 & Hdirs & Hs2 & Em).
  pose proof (carved_same_maze _ _ _ _ _ Hs2 Em Hc1) as Hc2.
  assert (Hs12 : same_size g g2) by (by eapply same_size_trans).
  cbn [generateDFS]. rewrite (bind_Ok _ _ _ _ _ E1). cbv beta. rewrite (bind_Ok _ _ _ _ _ E2).
  match goal with |- context [iterM ?b dirs] => set (body := b) end.
  destruct (dfs_loop body g2 ({[c]} ∪ V) c dirs) with (g := g2) (V := {[c]} ∪ V) (D := D)
    as (g' & V' & D' & E & Hs & Hc' & HV & Hd & Hcl); [| |by split|done|done|].
  - intros d g3 V3 D3 Hdir Hs3 Hc3 HV3. unfold body.
    unfold mbind at 1, cpp_bind at 1, get at 1.
    change (c.1 + d.1) with (step c d).1. change (c.2 + d.2) with (step c d).2.
    fold (cell g3 (step c d)).
    assert (Hcin : c ∈ V3) by set_solver.
    destruct (isInBounds g3 (step c d).1 (step c d).2) eqn:Ein; fold (inb g3 (step c d)) in Ein.
    2:{ exists g3, V3, D3. split_and!; try done. unfold inb. by rewrite Ein. }
    destruct (proj2 (cell_inb g3 (step c d) (proj1 Hc3)) Ein) as [x Hx]. rewrite Hx.
    assert (HV3' : step c d ∈ V3 <-> visited x = true).
    { destruct Hc3 as (_ & HV3' & _). rewrite HV3'. unfold marked. rewrite Hx. naive_solver. }
    destruct (visited x).
    { exists g3, V3, D3. split_and!; try done. intros _. by apply HV3'. }
    assert (Hnew : step c d ∉ V3) by (intros Hin; by apply HV3' in Hin).
    destruct (carve_ok g3 V3 D3 c d Hc3 Hcin Hdir Ein Hnew) as (g4 & D4 & E4 & Hs4 & Hc4).
    rewrite (bind_Ok _ _ _ _ _ E4). destruct (IH g4 V3 (step c d) D4 Hc4 Hnew)
      as (g5 & V5 & D5 & E5 & Hs5 & Hc5 & HV5 & Hcl5).
    { assert (Hsz : (size (grid g ∖ V3) < size (grid g ∖ V))%nat).
      { apply subset_size. destruct Hc as (_ & _ & HT & _). set_solver. }
      rewrite (same_size_grid g g4); [lia|]. eapply same_size_trans; [exact Hs12|].
      by eapply same_size_trans. }
    exists g5, V5, D5. split; [done|]. split; [by eapply same_size_trans|]. split_and!; try done; set_solver.
  - intros d Hd. by rewrite Hdirs in Hd.
  - exists g', V', D'. split; [done|]. split; [by eapply same_size_trans|]. split; [done|]. split; [done|].
    intros e He Hne. destruct (decide (e = c)) as [->|Hec]; [|apply Hcl; set_solver].
    intros d Hdd Hin. apply Hd; [by rewrite Hdirs|done].
Qed.

(** ** The whole grid *)

Definition fresh (w h : Z) (r : G) : MazeGenerator G :=
  mkGen w h (replicate (Z.to_nat h) (replicate (Z.to_nat w) Cell_new)) r.

Lemma fresh_wf w h r : 0 <= w -> 0 <= h -> wf (fresh w h r).
Proof.
  intros Hw Hh. split_and!; cbn; [done..|apply length_replicate|].
  apply Forall_replicate. apply length_replicate.
Qed.

Lemma fresh_cell w h r c x : cell (fresh w h r) c = Some x -> x = Cell_new.
Proof.
  unfold cell, getCell. case_match; [|done]. cbn.
  intros (row & Hrow & Hx)%bind_Some. apply lookup_replicate in Hrow as [-> _].
  by apply lookup_replicate in Hx as [-> _].
Qed.

Lemma fresh_carved w h r : 1 <= w -> 1 <= h -> carved (fresh w h r) ∅ ({[(0, 0)]} ∪ ∅) ∅.
Proof.
  intros Hw Hh. assert (Hf : wf (fresh w h r)) by (apply fresh_wf; lia).
  split_and!; [done| | | |].
  - intros c. split; [set_solver|]. intros (x & Hx%fresh_cell & Hv). by subst x.
  - intros c Hc. apply elem_of_grid, inb_iff. assert (c = (0, 0)) as -> by set_solver. cbn. lia.
  - rewrite (right_id_L ∅ (∪)). constructor.
  - intros a b. rewrite passage_iff by done. split; [|set_solver].
    intros (d & c & Hd & _ & _ & Hc%fresh_cell & Hwl). subst c.
    apply directions_iff in Hd as [->|[->|[->| ->]]]; done.
Qed.

(** A set that contains the corner and the neighbours of its members is the grid. *)
Lemma closed_grid g (V : gset (Z * Z)) :
  (0, 0) ∈ V -> (forall c, c ∈ V -> closed g V c) -> grid g ⊆ V.
Proof.
  intros H0 Hcl [x y] Hc%elem_of_grid%inb_iff. cbn in Hc. destruct Hc as [[Hx1 Hx2] [Hy1 Hy2]].
  assert (Hrow : forall n : nat, Z.of_nat n < m_width g -> (Z.of_nat n, 0) ∈ V).
  { induction n as [|n IH]; intros Hn; [done|].
    replace (Z.of_nat (S n), 0) with (step (Z.of_nat n, 0) (1, 0)) by (unfold step; cbn; f_equal; lia).
    apply Hcl; [apply IH; lia|apply directions_iff; auto|]. apply inb_iff. cbn. lia. }
  assert (Hcol : forall n : nat, Z.of_nat n < m_height g -> (x, Z.of_nat n) ∈ V).
  { induction n as [|n IH]; intros Hn; [replace x with (Z.of_nat (Z.to_nat x)) by lia; apply Hrow; lia|].
    replace (x, Z.of_nat (S n)) with (step (x, Z.of_nat n) (0, 1)) by (unfold step; cbn; f_equal; lia).
    apply Hcl; [apply IH; lia|apply directions_iff; auto|]. apply inb_iff. cbn. lia. }
  replace y with (Z.of_nat (Z.to_nat y)) by lia. apply Hcol. lia.
Qed.

(** The generated maze is a spanning tree of the grid. *)
Lemma generate_tree w h g :
  1 <= w -> 1 <= h ->
  exists g' D, generate w h g = Ok tt g' /\ m_width g' = w /\ m_height g' = h /\ carved g' (grid g') (grid g') D.
Proof.
  intros Hw Hh. unfold generate. rewrite (proj2 (Z.ltb_ge h 0)), (proj2 (Z.ltb_ge w 0)) by lia.
  rewrite andb_false_r. cbn [orb].
  rewrite (bind_Ok _ _ g tt (fresh w h (m_rng g))) by done.
  destruct (generateDFS_ok (Z.to_nat (w * h)) (fresh w h (m_rng g)) ∅ (0, 0) ∅)
    as (g' & V' & D' & E & Hs & Hc & HV & Hcl).
  - by apply fresh_carved.
  - set_solver.
  - rewrite (difference_empty_L (grid _)). apply (size_grid (fresh w h (m_rng g))), fresh_wf; lia.
  - exists g', D'. cbn [fst snd] in E. split; [done|]. split; [apply Hs|]. split; [apply Hs|].
    assert (V' = grid g') as <-; [|done]. apply set_eq. intros c. split; [apply Hc|].
    apply closed_grid; [set_solver|]. intros e He. apply Hcl; set_solver.
Qed.
End maze.

(** C31. Generated mazes are perfect: for every width and height from 1 and every random
    engine, [generate] returns (the recursion ends and no index leaves the vectors),
    every cell has been visited, passages are open from both sides, and any two cells
    are joined by exactly one simple path. *)
Theorem maze_perfect {G} `{Shuffle G} (w h : Z) (g : MazeGenerator G) :
  1 <= w -> 1 <= h ->
  exists g', generate w h g = Ok tt g' /\ m_width g' = w /\ m_height g' = h /\
    (forall c, inb g' c -> marked g' c) /\
    (forall a b, passage g' a b -> passage g' b a) /\
    forall a b, inb g' a -> inb g' b ->
      exists l, simple_path (passage g') a b l /\ forall l', simple_path (passage g') a b l' -> l' = l.
Proof.
  intros Hw Hh. destruct (generate_tree w h g Hw Hh) as (g' & D & E & Ew & Eh & Hg & HV & _ & Ht & HD).
  exists g'. split_and!; [done..| | |].
  - intros c Hc. by apply HV, elem_of_grid.
  - intros a b Hp%HD. apply HD. by eapply tree_sym.
  - assert (Hsp : forall a b l, simple_path (passage g') a b l <-> simple_path (edge D) a b l).
    { intros a b l. unfold simple_path. repeat apply and_iff_compat_l. apply and_iff_compat_r.
      split; apply is_path_mono; intros x y _ _; apply HD. }
    intros a b Ha%elem_of_grid Hb%elem_of_grid.
    destruct (tree_path_exists _ _ a b Ht Ha Hb) as (l & Hl). exists l. split; [by apply Hsp|].
    intros l' Hl'%Hsp. by apply (tree_path_unique (grid g') D a b).
Qed.

Lemma maze_perfect_witness :
  exists g', generate 3 2 (MazeGenerator_new 1%nat) = Ok tt g' /\
    exists l, simple_path (passage g') (0, 0) (2, 1) l.
Proof.
  destruct (maze_perfect 3 2 (MazeGenerator_new 1%nat)) as (g' & E & Ew & Eh & _ & _ & Hp); [lia|lia|].
  exists g'. split; [exact E|]. destruct (Hp (0, 0) (2, 1)) as (l & Hl & _).
  - apply inb_iff. cbn. lia.
  - apply inb_iff. cbn. lia.
  - exists l. exact Hl.
Defined.
