(* ===== verification/MazeSearch.v ===== *)
(** * MazeSearch: the breadth-first searches find shortest paths

    For any maze, generated or not: [calculateShortestPath] returns the length of a
    shortest walk and [getFullPath] such a walk, or -1 and the empty path when there is
    none. The proofs share one invariant on the set of discovered cells, their
    distances and the queue. *)

From stdpp Require Import relations.
From S2P Require Import Prelude MazeGraph Maze MazeProps.

Local Open Scope Z_scope.

Section search.
Context {G : Type} `{Shuffle G} (g : MazeGenerator G) (s : Z * Z).
Hypothesis Hwf : wf g.
Hypothesis Hsize : m_width g * m_height g <= INT_MAX.
Hypothesis Hs : inb g s.

Abbreviation R := (passage g).
Implicit Types (D : gmap (Z * Z) nat) (F : list (Z * Z)).

Definition dist D (c : Z * Z) : nat := default 0%nat (D !! c).

(** [D] maps the discovered cells to their distances from [s]; the cells of [F] are
    discovered but not expanded. *)
Record explored D F : Prop := {
  ex_start : D !! s = Some 0%nat;
  ex_steps c n : D !! c = Some n -> nsteps R n s c;
  ex_front c : c ∈ F -> is_Some (D !! c);
  ex_nodup : NoDup F;
  ex_done a n b : D !! a = Some n -> a ∉ F -> R a b -> exists m, D !! b = Some m /\ (m <= S n)%nat;
  ex_sorted : StronglySorted (fun a b => (dist D a <= dist D b)%nat) F;
  ex_spread a n c : D !! a = Some n -> c ∈ F -> (n <= S (dist D c))%nat;
  ex_bound c n : D !! c = Some n -> (n < size D)%nat;
}.

Lemma dist_lookup D c n : D !! c = Some n -> dist D c = n.
Proof. unfold dist. by intros ->. Qed.

Lemma passage_inb a b : R a b -> inb g a /\ inb g b.
Proof.
  rewrite passage_iff by done. intros (d & c & _ & -> & Hb & Hc & _). split; [|done].
  apply cell_inb; [done|]. by exists c.
Qed.

Lemma nsteps_inb n c : nsteps R n s c -> inb g c.
Proof.
  intros Hn. apply rtc_nsteps_2 in Hn. revert Hn. apply rtc_ind_r; [done|].
  intros x y _ Hxy _. by apply passage_inb in Hxy as [_ ?].
Qed.

Lemma explored_grid D F : explored D F -> dom D ⊆ grid g.
Proof.
  intros He c [n Hn]%elem_of_dom. apply elem_of_grid. eapply nsteps_inb, (ex_steps D F He). done.
Qed.

Lemma explored_size D F : explored D F -> (size D <= size (grid g))%nat.
Proof. intros He. rewrite <-size_dom. apply subseteq_size. by eapply explored_grid. Qed.

(** Every walk from [s] has its end discovered, or passes through the frontier. *)
Lemma walk_bound D F m b :
  explored D F -> nsteps R m s b ->
  (exists n, D !! b = Some n /\ (n <= m)%nat) \/ (exists c, c ∈ F /\ (dist D c < m)%nat).
Proof.
  intros He. revert b. induction m as [|m IH]; intros b Hm.
  - inv Hm. left. exists 0%nat. split; [apply (ex_start D F He)|done].
  - apply nsteps_inv_r in Hm as (a & Hm & Hab). destruct (IH a Hm) as [(n & Hn & Hnm)|(c & Hc & Hcm)].
    + destruct (decide (a ∈ F)) as [Ha|Ha].
      * right. exists a. split; [done|]. rewrite (dist_lookup D a n Hn). lia.
      * left. destruct (ex_done D F He a n b Hn Ha Hab) as (k & Hk & Hkn). exists k. split; [done|lia].
    + right. exists c. split; [done|lia].
Qed.

(** The head of the queue has its final distance. *)
Lemma head_distance D F c n : explored D (c :: F) -> D !! c = Some n -> distance R n s c.
Proof.
  intros He Hn. split; [by eapply ex_steps|]. intros m Hm.
  destruct (walk_bound D (c :: F) m c He Hm) as [(k & Hk & Hkm)|(e & Hin & Hlt)]; [congruence|].
  pose proof (ex_sorted _ _ He) as Hso. apply StronglySorted_inv in Hso as [_ Hf].
  rewrite (dist_lookup D c n Hn) in Hf. apply elem_of_cons in Hin as [->|Hin].
  - rewrite (dist_lookup D c n Hn) in Hlt. lia.
  - rewrite Forall_forall in Hf. specialize (Hf e Hin). lia.
Qed.

(** A cell discovered from the head of the queue is one step farther. *)
Lemma next_distance D F c n b :
  explored D (c :: F) -> D !! c = Some n -> R c b -> D !! b = None -> distance R (S n) s b.
Proof.
  intros He Hn Hcb Hb. split; [eapply nsteps_r; [by eapply ex_steps|done]|]. intros m Hm.
  destruct (walk_bound D (c :: F) m b He Hm) as [(k & Hk & Hkm)|(e & Hin & Hlt)]; [congruence|].
  pose proof (ex_sorted _ _ He) as Hso. apply StronglySorted_inv in Hso as [_ Hf].
  rewrite (dist_lookup D c n Hn) in Hf. apply elem_of_cons in Hin as [->|Hin].
  - rewrite (dist_lookup D c n Hn) in Hlt. lia.
  - rewrite Forall_forall in Hf. specialize (Hf e Hin). lia.
Qed.

Lemma empty_unreachable D b : explored D [] -> D !! b = None -> ~ rtc R s b.
Proof.
  intros He Hb (m & Hm)%rtc_nsteps.
  destruct (walk_bound D [] m b He Hm) as [(k & Hk & _)|(e & Hin & _)]; [congruence|].
  by apply not_elem_of_nil in Hin.
Qed.

(** ** The invariant is kept *)

Lemma explored_init : explored {[s := 0%nat]} [s].
Proof.
  split.
  - apply lookup_singleton_eq.
  - intros c n [<- <-]%lookup_singleton_Some. constructor.
  - intros c ->%list_elem_of_singleton. rewrite lookup_singleton_eq. by eexists.
  - apply NoDup_singleton.
  - intros a n b [<- <-]%lookup_singleton_Some Ha. exfalso. apply Ha. by left.
  - repeat constructor.
  - intros a n c [<- <-]%lookup_singleton_Some _. lia.
  - intros c n [<- <-]%lookup_singleton_Some. rewrite map_size_singleton. lia.
Qed.

Lemma dist_insert D b n c : D !! b = None -> is_Some (D !! c) -> dist (<[b := n]> D) c = dist D c.
Proof. intros Hb [m Hm]. unfold dist. rewrite lookup_insert_ne; [done|]. congruence. Qed.

(** A new neighbour of the head is discovered and queued. *)
Lemma explored_visit D F c n b :
  explored D (c :: F) -> D !! c = Some n -> R c b -> D !! b = None ->
  explored (<[b := S n]> D) (c :: F ++ [b]).
Proof.
  intros He Hn Hcb Hb.
  assert (Hdist : forall e, e ∈ c :: F -> dist (<[b := S n]> D) e = dist D e).
  { intros e Hin. apply dist_insert; [done|]. by apply (ex_front _ _ He). }
  assert (Hdb : dist (<[b := S n]> D) b = S n) by (unfold dist; by rewrite lookup_insert_eq).
  assert (HbF : b ∉ c :: F).
  { intros Hin. destruct (ex_front _ _ He b Hin) as [k Hk]. congruence. }
  assert (Hin' : forall e, e ∈ c :: F ++ [b] -> e ∈ c :: F \/ e = b) by (intros e; set_solver).
  pose proof (ex_sorted _ _ He) as Hso.
  split.
  - rewrite lookup_insert_ne; [apply (ex_start _ _ He)|]. intros ->. rewrite (ex_start _ _ He) in Hb. done.
  - intros e k [[<- <-]|[_ Hk]]%lookup_insert_Some; [|by eapply ex_steps].
    eapply nsteps_r; [by eapply ex_steps|done].
  - intros e [Hin| ->]%Hin'; [|rewrite lookup_insert_eq; by eexists].
    destruct (ex_front _ _ He e Hin) as [k Hk]. rewrite lookup_insert_ne by congruence. by exists k.
  - change (c :: F ++ [b]) with ((c :: F) ++ [b]). apply NoDup_app. split_and!; [apply (ex_nodup _ _ He)| |apply NoDup_singleton].
    intros e Hin ->%list_elem_of_singleton. done.
  - intros a k e Hk Ha Hae. assert (a <> b) by (intros ->; apply Ha; set_solver).
    rewrite lookup_insert_ne in Hk by done.
    destruct (ex_done _ _ He a k e Hk) as (m & Hm & Hmk); [set_solver|done|].
    exists m. split; [|done]. rewrite lookup_insert_ne; [done|]. congruence.
  - change (c :: F ++ [b]) with ((c :: F) ++ [b]).
    assert (Hle : forall e, e ∈ c :: F -> (dist D e <= S n)%nat).
    { intros e Hin. destruct (ex_front _ _ He e Hin) as [k Hk]. rewrite (dist_lookup _ _ _ Hk).
      rewrite <-(dist_lookup D c n Hn). eapply (ex_spread _ _ He); [done|by left]. }
    clear -Hso Hle Hdist Hdb. induction Hso as [|e l Hl IH Hf]; [repeat constructor|].
    cbn. constructor; [apply IH; intros x Hx; [apply Hdist|apply Hle]; by right|].
    apply Forall_app. split.
    + rewrite Forall_forall in Hf |- *. intros x Hx. rewrite !Hdist by (by left || by right). auto.
    + constructor; [|constructor]. rewrite Hdist, Hdb by (by left). apply Hle. by left.
  - intros a k e Hk Hin. apply Hin' in Hin. apply lookup_insert_Some in Hk as [[<- <-]|[Hne Hk]].
    + destruct Hin as [Hin| ->]; [|rewrite Hdb; lia]. rewrite Hdist by done.
      apply StronglySorted_inv in Hso as [_ Hf]. rewrite (dist_lookup D c n Hn) in Hf.
      apply elem_of_cons in Hin as [->|Hin]; [by rewrite (dist_lookup D c n Hn)|].
      rewrite Forall_forall in Hf. specialize (Hf e Hin). lia.
    + destruct Hin as [Hin| ->]; [rewrite Hdist by done; by eapply (ex_spread _ _ He)|].
      rewrite Hdb. pose proof (ex_spread _ _ He a k c Hk ltac:(by left)) as Hsp.
      rewrite (dist_lookup D c n Hn) in Hsp. lia.
  - intros e k Hk. rewrite map_size_insert_None by done.
    apply lookup_insert_Some in Hk as [[<- <-]|[_ Hk]].
    + pose proof (ex_bound _ _ He c n Hn). lia.
    + pose proof (ex_bound _ _ He e k Hk). lia.
Qed.

(** The head leaves the queue when all its neighbours are discovered. *)
Lemma explored_finish D F c :
  explored D (c :: F) -> (forall b, R c b -> is_Some (D !! b)) -> explored D F.
Proof.
  intros He Hall. pose proof (ex_sorted _ _ He) as Hso. apply StronglySorted_inv in Hso as [Hso Hf].
  split.
  - apply (ex_start _ _ He).
  - apply (ex_steps _ _ He).
  - intros e Hin. apply (ex_front _ _ He). by right.
  - by eapply NoDup_cons_1_2, (ex_nodup _ _ He).
  - intros a n b Hn Ha Hab. destruct (decide (a = c)) as [->|Hne].
    + destruct (Hall b Hab) as [m Hm]. exists m. split; [done|].
      rewrite <-(dist_lookup D c n Hn). eapply (ex_spread _ _ He); [done|by left].
    + apply (ex_done _ _ He a n b); [done| |done]. by intros [->|?]%elem_of_cons.
  - done.
  - intros a n e Hn Hin. eapply (ex_spread _ _ He); [done|by right].
  - apply (ex_bound _ _ He).
Qed.

(** ** One expansion *)

(** [may_enter] decides whether a new passage leads to the neighbour. *)
Lemma may_enter_ok D c d :
  inb g c -> d ∈ directions ->
  may_enter g (dom D) c.1 c.2 (step c d).1 (step c d).2 =
    Some (bool_decide (R c (step c d) /\ D !! step c d = None)).
Proof.
  intros Hc Hd. unfold may_enter.
  destruct (isInBounds g (step c d).1 (step c d).2) eqn:Ein; cbn [negb].
  2:{ rewrite bool_decide_false; [done|]. intros [[_ Hb]%passage_inb _]. unfold inb in Hb. congruence. }
  rewrite <-surjective_pairing. case_bool_decide as Hin.
  { rewrite bool_decide_false; [done|]. intros [_ Hn]. by apply elem_of_dom in Hin as [? ?]; congruence. }
  rewrite hasWall_step by done. destruct (proj2 (cell_inb g c Hwf) Hc) as [x Hx]. rewrite Hx. cbn. f_equal.
  apply not_elem_of_dom in Hin. destruct (wall d x) eqn:Ew; cbn; symmetry.
  - apply bool_decide_eq_false_2. intros [[_ Hp] _]. rewrite hasWall_step, Hx in Hp by done. cbn in Hp. congruence.
  - apply bool_decide_eq_true_2. split; [|done]. split; [by exists d|]. by rewrite hasWall_step, Hx; [cbn; rewrite Ew|..].
Qed.

Lemma int_succ_ok D F c n : explored D F -> D !! c = Some n -> int_succ (Z.of_nat n) = Some (Z.of_nat (S n)).
Proof.
  intros He Hn. unfold int_succ.
  pose proof (ex_bound _ _ He c n Hn). pose proof (explored_size _ _ He). pose proof (size_grid g Hwf).
  rewrite (proj2 (Z.ltb_lt _ _)) by lia. f_equal. lia.
Qed.

Definition queue_of D F : list (Z * Z * Z) := (fun c => (c.1, c.2, Z.of_nat (dist D c))) <$> F.

Lemma queue_of_insert D F b n :
  D !! b = None -> (forall c, c ∈ F -> is_Some (D !! c)) -> queue_of (<[b := n]> D) F = queue_of D F.
Proof.
  intros Hb HF. apply list_fmap_ext. intros i c Hc. rewrite dist_insert; [done..|].
  apply HF. by eapply list_elem_of_lookup_2.
Qed.

(** The discoveries of an expansion are queued. *)
Definition grown D F D' F' : Prop :=
  D ⊆ D' /\ F ⊆ F' /\ (size D' + length F = size D + length F')%nat /\
  forall e, is_Some (D' !! e) -> is_Some (D !! e) \/ e ∈ F'.

Lemma grown_refl D F : grown D F D F.
Proof. split_and!; auto. Qed.

Lemma grown_visit D F b n D' F' :
  D !! b = None -> grown (<[b := n]> D) (F ++ [b]) D' F' -> grown D F D' F'.
Proof.
  intros Hb (H1 & H2 & H3 & H4). split_and!.
  - etrans; [|done]. by apply insert_subseteq.
  - set_solver.
  - rewrite map_size_insert_None, length_app in H3 by done. cbn in H3. lia.
  - intros e [He|He]%H4; [|auto]. destruct (decide (e = b)) as [->|Hne]; [set_solver|].
    rewrite lookup_insert_ne in He by done. auto.
Qed.

Lemma bfs_expand_ok D F c n dirs :
  explored D (c :: F) -> D !! c = Some n -> (forall d, d ∈ dirs -> d ∈ directions) ->
  exists D' F', bfs_expand g c.1 c.2 (Z.of_nat n) dirs (dom D) (queue_of D F) = Some (dom D', queue_of D' F') /\
    explored D' (c :: F') /\ grown D F D' F' /\
    forall d, d ∈ dirs -> R c (step c d) -> is_Some (D' !! step c d).
Proof.
  revert D F. induction dirs as [|d dirs IH]; intros D F He Hn Hd.
  { exists D, F. split_and!; try done; try apply grown_refl. intros d Hin. by apply not_elem_of_nil in Hin. }
  assert (Hdirs : forall d, d ∈ dirs -> d ∈ directions) by (intros e ?; apply Hd; by right).
  assert (Hc : inb g c) by (eapply nsteps_inb, (ex_steps _ _ He); done).
  cbn [bfs_expand]. change (c.1 + d.1) with (step c d).1. change (c.2 + d.2) with (step c d).2.
  rewrite may_enter_ok by (done || apply Hd; by left). cbn [mbind option_bind].
  case_bool_decide as Hb.
  - destruct Hb as [Hp Hb]. rewrite (int_succ_ok _ _ _ _ He Hn). cbn [mbind option_bind].
    rewrite <-surjective_pairing. pose proof (explored_visit D F c n _ He Hn Hp Hb) as He'.
    destruct (IH _ _ He') as (D' & F' & E & He2 & Hgr & Hall);
      [rewrite lookup_insert_ne by congruence; done|done|].
    exists D', F'. split_and!.
    + rewrite <-E. f_equal; [by rewrite dom_insert_L|].
      unfold queue_of. rewrite fmap_app. cbn. fold (queue_of (<[step c d := S n]> D) F).
      rewrite queue_of_insert; [|done|intros e Hin; apply (ex_front _ _ He); by right].
      by rewrite (dist_lookup _ _ (S n)) by apply lookup_insert_eq.
    + done.
    + by eapply grown_visit.
    + intros e [->|Hin]%elem_of_cons Hre; [|by apply Hall].
      exists (S n). eapply lookup_weaken; [|apply Hgr]. apply lookup_insert_eq.
  - destruct (IH D F He Hn Hdirs) as (D' & F' & E & He2 & Hgr & Hall).
    exists D', F'. split_and!; try done. intros e [->|Hin]%elem_of_cons Hre; [|by apply Hall].
    destruct (D !! step c d) as [k|] eqn:Ek; [|tauto]. exists k. eapply lookup_weaken; [done|apply Hgr].
Qed.

Lemma neighbours_discovered D c :
  (forall d, d ∈ directions -> R c (step c d) -> is_Some (D !! step c d)) -> forall b, R c b -> is_Some (D !! b).
Proof. intros Hall b Hb. pose proof Hb as [(d & Hd & ->) _]. by apply Hall. Qed.

(** ** The loops *)

Lemma bfs_loop_ok (fuel : nat) D F e :
  explored D F -> (size (grid g) + length F <= fuel + size D)%nat -> (is_Some (D !! e) -> e ∈ F) ->
  (exists n, distance R n s e /\ bfs_loop fuel g e.1 e.2 (dom D) (queue_of D F) = Some (Z.of_nat n)) \/
  (~ rtc R s e /\ bfs_loop fuel g e.1 e.2 (dom D) (queue_of D F) = Some (-1)).
Proof.
  revert D F. induction fuel as [|fuel IH]; intros D F He Hf Hend.
  { pose proof (explored_size _ _ He). destruct F; [|cbn in Hf; lia]. right. split; [|done].
    apply (empty_unreachable D); [done|]. destruct (D !! e) eqn:E; [|done].
    by specialize (Hend ltac:(eauto)); apply not_elem_of_nil in Hend. }
  destruct F as [|c F].
  { right. split; [|done]. apply (empty_unreachable D); [done|]. destruct (D !! e) eqn:E; [|done].
    by specialize (Hend ltac:(eauto)); apply not_elem_of_nil in Hend. }
  destruct (ex_front _ _ He c) as [n Hn]; [by left|].
  cbn [queue_of fmap list_fmap bfs_loop]. rewrite (dist_lookup D c n Hn).
  destruct ((c.1 =? e.1) && (c.2 =? e.2)) eqn:Ece.
  - apply andb_true_iff in Ece as [E1%Z.eqb_eq E2%Z.eqb_eq].
    assert (c = e) as -> by (destruct c, e; cbn in *; congruence).
    left. exists n. split; [by eapply head_distance|done].
  - assert (Hce : c <> e).
    { intros ->. by rewrite !Z.eqb_refl in Ece. }
    destruct (bfs_expand_ok D F c n directions He Hn ltac:(done)) as (D' & F' & E & He' & Hgr & Hall).
    fold (queue_of D F). rewrite E. cbn [mbind option_bind fst snd]. apply IH.
    + eapply explored_finish; [done|]. by apply neighbours_discovered.
    + destruct Hgr as (_ & _ & Hsz & _). cbn in Hf. lia.
    + intros He2. destruct Hgr as (_ & HF & _ & [Hold|Hnew]%(fun f => f e He2)); [|done].
      apply HF. by apply Hend, elem_of_cons in Hold as [?|?].
Qed.

(** ** Paths through parents *)

(** Parents are one step closer to the start, whose parent is (-1, -1). *)
Definition parents_ok D (pm : gmap (Z * Z) (Z * Z)) : Prop :=
  forall c n, D !! c = Some n -> inb g c /\
    ((n = 0%nat /\ c = s /\ pm !! c = Some (-1, -1)) \/
     (exists p m, n = S m /\ pm !! c = Some p /\ D !! p = Some m /\ R p c)).

Lemma parents_init : parents_ok {[s := 0%nat]} {[s := (-1, -1)]}.
Proof.
  intros c n [<- <-]%lookup_singleton_Some. split; [done|]. left. by rewrite lookup_singleton_eq.
Qed.

Lemma parents_visit D pm c n b :
  parents_ok D pm -> D !! c = Some n -> R c b -> D !! b = None ->
  parents_ok (<[b := S n]> D) (<[b := c]> pm).
Proof.
  intros Hp Hn Hcb Hb e k [[<- <-]|[Hne Hk]]%lookup_insert_Some.
  - split; [by apply passage_inb in Hcb as [_ ?]|]. right. exists c, n. rewrite lookup_insert_eq.
    rewrite lookup_insert_ne by congruence. done.
  - destruct (Hp e k Hk) as [Hin Hcase]. split; [done|]. rewrite lookup_insert_ne by done.
    destruct Hcase as [?|(p & m & -> & E & Hm & Hpe)]; [by left|]. right. exists p, m.
    rewrite lookup_insert_ne by congruence. done.
Qed.

(** The path read off the parents. *)
Lemma backtrack_ok D pm n (fuel : nat) c acc :
  parents_ok D pm -> D !! c = Some n -> (n < fuel)%nat ->
  exists l, backtrack fuel pm c acc = Some (l ++ acc) /\ head l = Some s /\ last l = Some c /\
    is_path R l /\ length l = S n.
Proof.
  intros Hp. revert fuel c acc. induction n as [|n IH]; intros fuel c acc Hn Hf;
    (destruct fuel as [|fuel]; [lia|]); destruct (Hp c _ Hn) as [Hin%inb_iff Hcase];
    cbn [backtrack]; rewrite (proj2 (Z.eqb_neq c.1 (-1))), (proj2 (Z.eqb_neq c.2 (-1))) by lia; cbn [negb andb].
  - destruct Hcase as [(_ & -> & E)|(p & m & [=] & _)]. rewrite E. exists [s]. by destruct fuel.
  - destruct Hcase as [([=] & _)|(p & m & [= <-] & E & Hm & Hpc)]. rewrite E. cbn [default].
    destruct (IH fuel p (c :: acc) Hm) as (l & El & Hh & Hl & Hpl & Hlen); [lia|].
    exists (l ++ [c]). rewrite <-app_assoc. split; [done|].
    split; [by destruct l|]. split; [apply last_snoc|]. rewrite length_app, Hlen. split; [|cbn; lia].
    apply last_Some in Hl as [l' ->]. rewrite <-app_assoc. by apply is_path_snoc.
Qed.

Lemma path_expand_ok D F c n pm e dirs :
  explored D (c :: F) -> D !! c = Some n -> D !! e = None -> parents_ok D pm ->
  (forall d, d ∈ dirs -> d ∈ directions) ->
  (exists D' F' pm', path_expand g c.1 c.2 e.1 e.2 dirs (dom D) F pm = Some (dom D', F', pm', false) /\
    explored D' (c :: F') /\ grown D F D' F' /\ parents_ok D' pm' /\ D' !! e = None /\
    forall d, d ∈ dirs -> R c (step c d) -> is_Some (D' !! step c d)) \/
  (exists vis F' pm' D', path_expand g c.1 c.2 e.1 e.2 dirs (dom D) F pm = Some (vis, F', pm', true) /\
    explored D' (c :: F') /\ parents_ok D' pm' /\ D' !! e = Some (S n) /\ distance R (S n) s e).
Proof.
  revert D F pm. induction dirs as [|d dirs IH]; intros D F pm He Hn Hne Hpm Hd.
  { left. exists D, F, pm. split_and!; try done; try apply grown_refl. intros d Hin. by apply not_elem_of_nil in Hin. }
  assert (Hdirs : forall d, d ∈ dirs -> d ∈ directions) by (intros x ?; apply Hd; by right).
  assert (Hc : inb g c) by (eapply nsteps_inb, (ex_steps _ _ He); done).
  cbn [path_expand]. change (c.1 + d.1) with (step c d).1. change (c.2 + d.2) with (step c d).2.
  rewrite may_enter_ok by (done || apply Hd; by left). cbn [mbind option_bind]. case_bool_decide as Hb.
  - destruct Hb as [Hp Hb]. rewrite <-!surjective_pairing.
    pose proof (explored_visit D F c n _ He Hn Hp Hb) as He'.
    pose proof (parents_visit D pm c n _ Hpm Hn Hp Hb) as Hpm'.
    destruct (((step c d).1 =? e.1) && ((step c d).2 =? e.2)) eqn:Ee.
    + apply andb_true_iff in Ee as [E1%Z.eqb_eq E2%Z.eqb_eq].
      assert (Ese : step c d = e) by (rewrite (surjective_pairing e), (surjective_pairing (step c d)); congruence).
      right. do 4 eexists. split; [done|]. split; [done|]. split; [done|]. rewrite <-Ese.
      split; [apply lookup_insert_eq|]. by apply (next_distance D F c n).
    + assert (Hse : step c d <> e) by (intros <-; by rewrite !Z.eqb_refl in Ee).
      destruct (IH (<[step c d := S n]> D) (F ++ [step c d]) (<[step c d := c]> pm))
        as [(D' & F' & pm' & E & He2 & Hgr & Hp2 & Hn2 & Hall)|(vis & F' & pm' & D' & E & Hr)];
        [done|by rewrite lookup_insert_ne by congruence|by rewrite lookup_insert_ne|done..| |].
      * left. exists D', F', pm'. rewrite dom_insert_L in E. split_and!; try done; [by eapply grown_visit|].
        intros x [->|Hin]%elem_of_cons Hre; [|by apply Hall].
        exists (S n). eapply lookup_weaken; [|apply Hgr]. apply lookup_insert_eq.
      * right. exists vis, F', pm', D'. rewrite dom_insert_L in E. by split.
  - destruct (IH D F pm He Hn Hne Hpm Hdirs)
      as [(D' & F' & pm' & E & He2 & Hgr & Hp2 & Hn2 & Hall)|(vis & F' & pm' & D' & E & Hr)].
    + left. exists D', F', pm'. split_and!; try done. intros x [->|Hin]%elem_of_cons Hre; [|by apply Hall].
      destruct (D !! step c d) as [k|] eqn:Ek; [|tauto]. exists k. eapply lookup_weaken; [done|apply Hgr].
    + right. by exists vis, F', pm', D'.
Qed.

Lemma path_loop_ok (fuel : nat) D F pm e :
  explored D F -> parents_ok D pm -> (size (grid g) + length F <= fuel + size D)%nat -> D !! e = None ->
  (exists n pm' D' F', distance R n s e /\ path_loop fuel g e.1 e.2 (dom D) F pm = Some (Some pm') /\
     explored D' F' /\ parents_ok D' pm' /\ D' !! e = Some n) \/
  (~ rtc R s e /\ path_loop fuel g e.1 e.2 (dom D) F pm = Some None).
Proof.
  revert D F pm. induction fuel as [|fuel IH]; intros D F pm He Hpm Hf Hne.
  { pose proof (explored_size _ _ He). destruct F; [|cbn in Hf; lia]. right. split; [|done].
    by apply (empty_unreachable D). }
  destruct F as [|c F]; [right; split; [by apply (empty_unreachable D)|done]|].
  destruct (ex_front _ _ He c) as [n Hn]; [by left|].
  destruct (path_expand_ok D F c n pm e directions He Hn Hne Hpm ltac:(done))
    as [(D' & F' & pm' & E & He2 & Hgr & Hp2 & Hn2 & Hall)|(vis & F' & pm' & D' & E & He2 & Hp2 & Hn2 & Hd)];
    rewrite (surjective_pairing c); cbn [path_loop]; rewrite E.
  - apply IH; [|done| |done].
    + eapply explored_finish; [done|]. by apply neighbours_discovered.
    + destruct Hgr as (_ & _ & Hsz & _). cbn in Hf. lia.
  - left. exists (S n), pm', D', (c :: F'). done.
Qed.
End search.

Section paths.
Context {G : Type} `{Shuffle G} (g : MazeGenerator G) (a b : Z * Z).
Hypothesis Hg : wf g.
Hypothesis Hsz : m_width g * m_height g <= INT_MAX.
Hypothesis Ha : inb g a.
Hypothesis Hb : inb g b.

Lemma search_fuel_ok : (size (grid g) + length [a] <= search_fuel g + size ({[a := 0%nat]} : gmap (Z * Z) nat))%nat.
Proof. pose proof (size_grid g Hg). rewrite map_size_singleton. unfold search_fuel. cbn. lia. Qed.

Lemma calculateShortestPath_ok :
  (exists n, distance (passage g) n a b /\ calculateShortestPath g a.1 a.2 b.1 b.2 = Some (Z.of_nat n)) \/
  (~ rtc (passage g) a b /\ calculateShortestPath g a.1 a.2 b.1 b.2 = Some (-1)).
Proof.
  unfold calculateShortestPath. rewrite (Ha : isInBounds _ _ _ = true), (Hb : isInBounds _ _ _ = true). cbn [negb orb]. rewrite <-!surjective_pairing.
  replace [(a, 0)] with (queue_of {[a := 0%nat]} [a])
    by (unfold queue_of, dist; cbn; rewrite lookup_singleton_eq; by destruct a).
  rewrite <-(dom_singleton_L (D := gset (Z * Z)) a 0%nat).
  apply (bfs_loop_ok g a Hg Hsz Ha); [apply explored_init|apply search_fuel_ok|].
  intros [n [<- _]%lookup_singleton_Some]. by left.
Qed.

Lemma getFullPath_ok :
  (exists n l, distance (passage g) n a b /\ getFullPath g a.1 a.2 b.1 b.2 = Some l /\
     head l = Some a /\ last l = Some b /\ is_path (passage g) l /\ length l = S n) \/
  (~ rtc (passage g) a b /\ getFullPath g a.1 a.2 b.1 b.2 = Some []).
Proof.
  unfold getFullPath. rewrite (Ha : isInBounds _ _ _ = true), (Hb : isInBounds _ _ _ = true). cbn [negb orb]. rewrite <-!surjective_pairing.
  destruct ((a.1 =? b.1) && (a.2 =? b.2)) eqn:Eab.
  { apply andb_true_iff in Eab as [E1%Z.eqb_eq E2%Z.eqb_eq]. left. exists 0%nat, [a].
    assert (b = a) as -> by (apply injective_projections; congruence). split_and!; try done.
    split; [constructor|lia]. }
  assert (Hnb : ({[a := 0%nat]} : gmap (Z * Z) nat) !! b = None).
  { apply lookup_singleton_ne. intros <-. by rewrite !Z.eqb_refl in Eab. }
  rewrite <-(dom_singleton_L (D := gset (Z * Z)) a 0%nat).
  destruct (path_loop_ok g a Hg Hsz Ha (search_fuel g) _ _ {[a := (-1, -1)]} b (explored_init g a)
    (parents_init g a Ha) search_fuel_ok Hnb)
    as [(n & pm & D & F & Hn & E & HeD & HpD & Hbn)|[Hr E]]; rewrite E; cbn [mbind option_bind].
  - left. destruct (backtrack_ok g a D pm n (S (search_fuel g)) b [] HpD Hbn) as (l & El & Hl).
    { pose proof (ex_bound _ _ _ _ HeD b n Hbn). pose proof (explored_size g a Hg Ha _ _ HeD).
      pose proof (size_grid g Hg). unfold search_fuel. lia. }
    exists n, l. rewrite app_nil_r in El. by rewrite El.
  - by right.
Qed.
End paths.

(** C34. The searches are right: in any maze whose vectors have the declared sizes (every
    generated maze), with at most INT_MAX cells, and for any start and end inside it,
    either the end is reachable, [calculateShortestPath] returns the length of a
    shortest walk and [getFullPath] a walk of that length from start to end, or it is
    unreachable and they return -1 and the empty path. *)
Theorem shortest_path_correct {G} `{Shuffle G} (g : MazeGenerator G) (a b : Z * Z) :
  wf g -> m_width g * m_height g <= INT_MAX -> inb g a -> inb g b ->
  (exists n l, distance (passage g) n a b /\
     calculateShortestPath g a.1 a.2 b.1 b.2 = Some (Z.of_nat n) /\
     getFullPath g a.1 a.2 b.1 b.2 = Some l /\
     head l = Some a /\ last l = Some b /\ is_path (passage g) l /\ length l = S n) \/
  (~ rtc (passage g) a b /\
     calculateShortestPath g a.1 a.2 b.1 b.2 = Some (-1) /\ getFullPath g a.1 a.2 b.1 b.2 = Some []).
Proof.
  intros Hg Hsz Ha Hb.
  destruct (calculateShortestPath_ok g a b) as [(n & Hn & E)|[Hr E]];
    destruct (getFullPath_ok g a b) as [(m & l & Hm & E' & Hl)|[Hr' E']]; try done.
  - left. exists n, l. by rewrite (distance_unique _ _ _ _ _ Hn Hm) in *.
  - destruct Hr'. destruct Hn as [Hn _]. by eapply rtc_nsteps_2.
  - destruct Hr. destruct Hm as [Hm _]. by eapply rtc_nsteps_2.
  - by right.
Qed.

Definition sample_maze : MazeGenerator nat :=
  match generate 3 2 (MazeGenerator_new 1%nat) with Ok _ g => g | _ => MazeGenerator_new 0%nat end.

Lemma shortest_path_correct_witness :
  exists n l, calculateShortestPath sample_maze 0 0 2 1 = Some (Z.of_nat n) /\
    getFullPath sample_maze 0 0 2 1 = Some l /\ length l = S n.
Proof.
  destruct (shortest_path_correct sample_maze (0, 0) (2, 1)) as [(n & l & _ & E1 & E2 & _ & _ & _ & E3)|(_ & E & _)].
  - split; [vm_compute; discriminate|]. split; [vm_compute; discriminate|]. split; [reflexivity|].
    vm_compute. repeat constructor.
  - vm_compute. discriminate.
  - vm_compute. reflexivity.
  - vm_compute. reflexivity.
  - exists n, l. split; [exact E1|]. split; [exact E2|exact E3].
  - vm_compute in E. discriminate.
Defined.
