(* ===== verification/MazeGame.v ===== *)
(** * MazeGame: the game on a generated maze

    Models src/zsxq-cpp-ai/Stdmigong/MazeGame.h and MazeGame.cpp: the player, the chaser
    with its A* search, the two timers and the rules. The timers are flags and an
    interval; [tick] and [chaser_tick] are their timeouts. Emitted signals are logged.
    Overflow of [int] counters is undefined behaviour. *)

From S2P Require Import Prelude Maze.

Local Open Scope Z_scope.

Inductive Signal : Set :=
  | mazeChanged | playerPositionChanged | chaserPositionChanged | chaserActiveChanged
  | elapsedTimeChanged | gameStateChanged | shortestPathChanged | currentStepsChanged
  | difficultyChanged | gameWon (isPerfect : bool) | gameLost | optimalPathChanged | showPathChanged.

(** [enum Difficulty]; the member is an [int]. *)
Definition Easy : Z := 0.
Definition Normal : Z := 1.
Definition Hard : Z := 2.
Definition Expert : Z := 3.

Section game.
Context {G : Type} `{Shuffle G}.

Record MazeGame : Type := mkGame {
  m_generator : MazeGenerator G;
  m_mazeWidth : Z; m_mazeHeight : Z;
  m_player : Z * Z; m_chaser : Z * Z; m_start : Z * Z; m_end : Z * Z;
  m_elapsedTime : Z; m_shortestPath : Z; m_currentSteps : Z; m_difficulty : Z;
  m_isGameRunning : bool; m_isGameWon : bool; m_isGameLost : bool;
  m_chaserActive : bool; m_timerStarted : bool;
  m_timer : bool;                         (* active *)
  m_chaserTimer : bool; m_chaserInterval : Z;
  m_playerPath : list (Z * Z); m_chaserPathIndex : Z;
  m_optimalPath : list (Z * Z); m_showPath : bool;
  signals : list Signal }.

Definition MazeGame_new (seed : G) : MazeGame :=
  mkGame (MazeGenerator_new seed) 0 0 (0, 0) (0, 0) (0, 0) (0, 0) 0 0 0 Normal
    false false false false false false false 0 [] 0 [] false [].

Definition emit (sg : Signal) : cpp MazeGame unit := modify (fun m =>
  mkGame (m_generator m) (m_mazeWidth m) (m_mazeHeight m) (m_player m) (m_chaser m) (m_start m)
    (m_end m) (m_elapsedTime m) (m_shortestPath m) (m_currentSteps m) (m_difficulty m)
    (m_isGameRunning m) (m_isGameWon m) (m_isGameLost m) (m_chaserActive m) (m_timerStarted m)
    (m_timer m) (m_chaserTimer m) (m_chaserInterval m) (m_playerPath m) (m_chaserPathIndex m)
    (m_optimalPath m) (m_showPath m) (signals m ++ [sg])).

(** Assignments to groups of members. *)
Definition set_timers (t c : bool) (m : MazeGame) : MazeGame :=
  mkGame (m_generator m) (m_mazeWidth m) (m_mazeHeight m) (m_player m) (m_chaser m) (m_start m)
    (m_end m) (m_elapsedTime m) (m_shortestPath m) (m_currentSteps m) (m_difficulty m)
    (m_isGameRunning m) (m_isGameWon m) (m_isGameLost m) (m_chaserActive m) (m_timerStarted m)
    t c (m_chaserInterval m) (m_playerPath m) (m_chaserPathIndex m)
    (m_optimalPath m) (m_showPath m) (signals m).
Definition set_flags (running won lost : bool) (m : MazeGame) : MazeGame :=
  mkGame (m_generator m) (m_mazeWidth m) (m_mazeHeight m) (m_player m) (m_chaser m) (m_start m)
    (m_end m) (m_elapsedTime m) (m_shortestPath m) (m_currentSteps m) (m_difficulty m)
    running won lost (m_chaserActive m) (m_timerStarted m)
    (m_timer m) (m_chaserTimer m) (m_chaserInterval m) (m_playerPath m) (m_chaserPathIndex m)
    (m_optimalPath m) (m_showPath m) (signals m).
Definition set_chaser (c : Z * Z) (active : bool) (m : MazeGame) : MazeGame :=
  mkGame (m_generator m) (m_mazeWidth m) (m_mazeHeight m) (m_player m) c (m_start m)
    (m_end m) (m_elapsedTime m) (m_shortestPath m) (m_currentSteps m) (m_difficulty m)
    (m_isGameRunning m) (m_isGameWon m) (m_isGameLost m) active (m_timerStarted m)
    (m_timer m) (m_chaserTimer m) (m_chaserInterval m) (m_playerPath m) (m_chaserPathIndex m)
    (m_optimalPath m) (m_showPath m) (signals m).
Definition set_player (p : Z * Z) (steps : Z) (path : list (Z * Z)) (m : MazeGame) : MazeGame :=
  mkGame (m_generator m) (m_mazeWidth m) (m_mazeHeight m) p (m_chaser m) (m_start m)
    (m_end m) (m_elapsedTime m) (m_shortestPath m) steps (m_difficulty m)
    (m_isGameRunning m) (m_isGameWon m) (m_isGameLost m) (m_chaserActive m) (m_timerStarted m)
    (m_timer m) (m_chaserTimer m) (m_chaserInterval m) path (m_chaserPathIndex m)
    (m_optimalPath m) (m_showPath m) (signals m).
Definition set_elapsed (t : Z) (started : bool) (m : MazeGame) : MazeGame :=
  mkGame (m_generator m) (m_mazeWidth m) (m_mazeHeight m) (m_player m) (m_chaser m) (m_start m)
    (m_end m) t (m_shortestPath m) (m_currentSteps m) (m_difficulty m)
    (m_isGameRunning m) (m_isGameWon m) (m_isGameLost m) (m_chaserActive m) started
    (m_timer m) (m_chaserTimer m) (m_chaserInterval m) (m_playerPath m) (m_chaserPathIndex m)
    (m_optimalPath m) (m_showPath m) (signals m).
Definition set_difficulty (d i : Z) (m : MazeGame) : MazeGame :=
  mkGame (m_generator m) (m_mazeWidth m) (m_mazeHeight m) (m_player m) (m_chaser m) (m_start m)
    (m_end m) (m_elapsedTime m) (m_shortestPath m) (m_currentSteps m) d
    (m_isGameRunning m) (m_isGameWon m) (m_isGameLost m) (m_chaserActive m) (m_timerStarted m)
    (m_timer m) (m_chaserTimer m) i (m_playerPath m) (m_chaserPathIndex m)
    (m_optimalPath m) (m_showPath m) (signals m).
Definition set_chaser_index (i : Z) (m : MazeGame) : MazeGame :=
  mkGame (m_generator m) (m_mazeWidth m) (m_mazeHeight m) (m_player m) (m_chaser m) (m_start m)
    (m_end m) (m_elapsedTime m) (m_shortestPath m) (m_currentSteps m) (m_difficulty m)
    (m_isGameRunning m) (m_isGameWon m) (m_isGameLost m) (m_chaserActive m) (m_timerStarted m)
    (m_timer m) (m_chaserTimer m) (m_chaserInterval m) (m_playerPath m) i
    (m_optimalPath m) (m_showPath m) (signals m).
Definition set_path (p : list (Z * Z)) (shown : bool) (m : MazeGame) : MazeGame :=
  mkGame (m_generator m) (m_mazeWidth m) (m_mazeHeight m) (m_player m) (m_chaser m) (m_start m)
    (m_end m) (m_elapsedTime m) (m_shortestPath m) (m_currentSteps m) (m_difficulty m)
    (m_isGameRunning m) (m_isGameWon m) (m_isGameLost m) (m_chaserActive m) (m_timerStarted m)
    (m_timer m) (m_chaserTimer m) (m_chaserInterval m) (m_playerPath m) (m_chaserPathIndex m)
    p shown (signals m).
Definition set_board (g : MazeGenerator G) (w h : Z) (st en : Z * Z) (shortest : Z) (m : MazeGame) : MazeGame :=
  mkGame g w h (m_player m) (m_chaser m) st
    en (m_elapsedTime m) shortest (m_currentSteps m) (m_difficulty m)
    (m_isGameRunning m) (m_isGameWon m) (m_isGameLost m) (m_chaserActive m) (m_timerStarted m)
    (m_timer m) (m_chaserTimer m) (m_chaserInterval m) (m_playerPath m) (m_chaserPathIndex m)
    (m_optimalPath m) (m_showPath m) (signals m).

(** ** Speed of the chaser *)

Definition chaser_interval (difficulty : Z) : Z :=
  if difficulty =? Easy then 300 else if difficulty =? Normal then 250
  else if difficulty =? Hard then 200 else if difficulty =? Expert then 150 else 250.

Definition updateChaserSpeed : cpp MazeGame unit :=
  modify (fun m => set_difficulty (m_difficulty m) (chaser_interval (m_difficulty m)) m).

Definition getChaserDelaySeconds : Z := 5.
Definition chaserStartDelay : Z := getChaserDelaySeconds.

Definition setDifficulty (difficulty : Z) : cpp MazeGame unit :=
  m ← get;
  if m_difficulty m =? difficulty then mret tt else
  modify (fun m => set_difficulty difficulty (m_chaserInterval m) m) ;;
  updateChaserSpeed ;;
  emit difficultyChanged.

(** ** A new game *)

(** A call on the generator, a member object. *)
Definition on_generator {B} (c : cpp (MazeGenerator G) B) : cpp MazeGame B := fun m =>
  match c (m_generator m) with
  | Ok b g => Ok b (set_board g (m_mazeWidth m) (m_mazeHeight m) (m_start m) (m_end m) (m_shortestPath m) m)
  | Throw e g => Throw e (set_board g (m_mazeWidth m) (m_mazeHeight m) (m_start m) (m_end m) (m_shortestPath m) m)
  | Blocked g => Blocked (set_board g (m_mazeWidth m) (m_mazeHeight m) (m_start m) (m_end m) (m_shortestPath m) m)
  | Undefined why => Undefined why
  end.

(** A const call that may be undefined. *)
Definition from_option {B} (o : option B) : cpp MazeGame B :=
  match o with Some b => mret b | None => undefined "undefined behaviour" end.

(** Player and chaser go to the start; the counters and the trail are reset. *)
Definition place_players : cpp MazeGame unit :=
  modify (fun m => set_player (m_start m) (m_currentSteps m) (m_playerPath m) m) ;;
  modify (fun m => set_chaser (m_start m) (m_chaserActive m) m) ;;
  modify (fun m => set_player (m_player m) (m_currentSteps m) [m_start m] m) ;;
  modify (set_chaser_index 0) ;;
  modify (fun m => set_elapsed 0 (m_timerStarted m) m) ;;
  modify (fun m => set_player (m_player m) 0 (m_playerPath m) m).

Definition startNewGame (width height difficulty : Z) : cpp MazeGame unit :=
  modify (set_timers false false) ;;
  modify (set_flags false false false) ;;
  modify (fun m => set_chaser (m_chaser m) false m) ;;
  modify (fun m => set_difficulty difficulty (m_chaserInterval m) m) ;;
  modify (fun m => set_board (m_generator m) width height (m_start m) (m_end m) (m_shortestPath m) m) ;;
  on_generator (generate width height) ;;
  modify (fun m => set_board (m_generator m) width height (0, 0) (width - 1, height - 1) (m_shortestPath m) m) ;;
  m ← get;
  n ← from_option (calculateShortestPath (m_generator m) (m_start m).1 (m_start m).2 (m_end m).1 (m_end m).2);
  modify (fun m => set_board (m_generator m) width height (m_start m) (m_end m) n m) ;;
  place_players ;;
  modify (set_flags true false false) ;;
  modify (fun m => set_elapsed (m_elapsedTime m) false m) ;;
  updateChaserSpeed ;;
  iterM emit [mazeChanged; playerPositionChanged; chaserPositionChanged; chaserActiveChanged;
    elapsedTimeChanged; gameStateChanged; shortestPathChanged; currentStepsChanged; difficultyChanged].

Definition resetGame : cpp MazeGame unit :=
  modify (set_timers false false) ;;
  modify (fun m => set_chaser (m_chaser m) false m) ;;
  place_players ;;
  modify (set_flags true false false) ;;
  modify (fun m => set_elapsed (m_elapsedTime m) false m) ;;
  iterM emit [playerPositionChanged; chaserPositionChanged; chaserActiveChanged;
    elapsedTimeChanged; gameStateChanged; currentStepsChanged].

(** ** Rules *)

Definition checkWinCondition : cpp MazeGame unit :=
  m ← get;
  if ((m_player m).1 =? (m_end m).1) && ((m_player m).2 =? (m_end m).2) then
    modify (fun m => set_flags false true (m_isGameLost m) m) ;;
    modify (fun m => set_timers false (m_chaserTimer m) m) ;;
    emit gameStateChanged ;;
    emit (gameWon (m_currentSteps m =? m_shortestPath m))
  else mret tt.

Definition checkLoseCondition : cpp MazeGame unit :=
  m ← get;
  if ((m_player m).1 =? (m_chaser m).1) && ((m_player m).2 =? (m_chaser m).2) then
    modify (fun m => set_flags false (m_isGameWon m) true m) ;;
    modify (set_timers false false) ;;
    emit gameStateChanged ;;
    emit gameLost
  else mret tt.

(** [m.playing]: the guard shared by moves and timers. *)
Definition playing (m : MazeGame) : bool :=
  m_isGameRunning m && negb (m_isGameWon m) && negb (m_isGameLost m).

Definition move_target (p : Z * Z) (direction : Z) : option (Z * Z) :=
  if direction =? 0 then Some (p.1, p.2 - 1) else if direction =? 1 then Some (p.1 + 1, p.2)
  else if direction =? 2 then Some (p.1, p.2 + 1) else if direction =? 3 then Some (p.1 - 1, p.2)
  else None.

Definition in_maze (m : MazeGame) (p : Z * Z) : bool :=
  (0 <=? p.1) && (p.1 <? m_mazeWidth m) && (0 <=? p.2) && (p.2 <? m_mazeHeight m).

Definition movePlayer (direction : Z) : cpp MazeGame bool :=
  m ← get;
  if negb (playing m) then mret false else
  match move_target (m_player m) direction with
  | None => mret false
  | Some p =>
      if negb (in_maze m p) then mret false else
      w ← from_option (hasWallBetween (m_generator m) (m_player m).1 (m_player m).2 p.1 p.2);
      if (w : bool) then mret false else
      steps ← from_option (int_succ (m_currentSteps m));
      modify (fun m => set_player p steps
        (if bool_decide (last (m_playerPath m) = Some p) then m_playerPath m else m_playerPath m ++ [p]) m) ;;
      (if m_timerStarted m then mret tt
       else modify (fun m => set_timers true (m_chaserTimer m) (set_elapsed (m_elapsedTime m) true m))) ;;
      emit playerPositionChanged ;;
      emit currentStepsChanged ;;
      checkLoseCondition ;;
      checkWinCondition ;;
      mret true
  end.

Definition checkChaserActivation : cpp MazeGame unit :=
  m ← get;
  if negb (m_chaserActive m) && (getChaserDelaySeconds <=? m_elapsedTime m) then
    modify (fun m => set_chaser (m_chaser m) true m) ;;
    modify (fun m => set_timers (m_timer m) true m) ;;
    emit chaserActiveChanged
  else mret tt.

Definition updateTimer : cpp MazeGame unit :=
  m ← get;
  if playing m then
    t ← from_option (int_succ (m_elapsedTime m));
    modify (fun m => set_elapsed t (m_timerStarted m) m) ;;
    emit elapsedTimeChanged ;;
    checkChaserActivation
  else mret tt.

(** ** The chaser *)

Definition heuristic (x1 y1 x2 y2 : Z) : Z := Z.abs (x1 - x2) + Z.abs (y1 - y2).

(** Along the trail of the player (not called by the game). *)
Definition moveChaserAlongPath : cpp MazeGame bool :=
  m ← get;
  if m_chaserPathIndex m <? Z.of_nat (length (m_playerPath m)) - 1 then
    modify (set_chaser_index (m_chaserPathIndex m + 1)) ;;
    match m_playerPath m !! Z.to_nat (m_chaserPathIndex m + 1) with
    | None => undefined "index out of range"
    | Some p => modify (fun m => set_chaser p (m_chaserActive m) m) ;; mret true
    end
  else mret false.

(** A search node and its chain of parents. *)
Inductive Node : Set := mkNode (pos : Z * Z) (g f : Z) (parent : option Node).

Definition npos (n : Node) : Z * Z := match n with mkNode p _ _ _ => p end.
Definition ng (n : Node) : Z := match n with mkNode _ g _ _ => g end.
Definition nf (n : Node) : Z := match n with mkNode _ _ f _ => f end.
Definition nparent (n : Node) : option Node := match n with mkNode _ _ _ p => p end.

(** [Node(x, y, g, h, p)] with [f = g + h] in [int]. *)
Definition new_node (p : Z * Z) (g h : Z) (parent : option Node) : option Node :=
  if g + h <=? INT_MAX then Some (mkNode p g (g + h) parent) else None.

(** [QMultiMap::insert]: by key, before the values with the same key. *)
Fixpoint open_insert (n : Node) (l : list Node) : list Node :=
  match l with
  | [] => [n]
  | x :: l' => if nf x <? nf n then x :: open_insert n l' else n :: l
  end.

Fixpoint astar_expand (m : MazeGame) (current : Node) (target : Z * Z) (dirs : list (Z * Z))
    (closedSet : gset (Z * Z)) (openList : list Node) : option (list Node) :=
  match dirs with
  | [] => Some openList
  | d :: dirs' =>
      let p := ((npos current).1 + d.1, (npos current).2 + d.2) in
      if negb (in_maze m p) then astar_expand m current target dirs' closedSet openList
      else if bool_decide (p ∈ closedSet) then astar_expand m current target dirs' closedSet openList
      else
        w ← hasWallBetween (m_generator m) (npos current).1 (npos current).2 p.1 p.2;
        if (w : bool) then astar_expand m current target dirs' closedSet openList else
        newG ← int_succ (ng current);
        n ← new_node p newG (heuristic p.1 p.2 target.1 target.2) (Some current);
        astar_expand m current target dirs' closedSet (open_insert n openList)
  end.

(** The node that reached the target; [Some None] when the open list runs empty. *)
Fixpoint astar_loop (fuel : nat) (m : MazeGame) (target : Z * Z) (closedSet : gset (Z * Z))
    (openList : list Node) : option (option Node) :=
  match openList with
  | [] => Some None
  | current :: openList' =>
      match fuel with
      | O => None
      | S fuel' =>
          if ((npos current).1 =? target.1) && ((npos current).2 =? target.2) then Some (Some current) else
          let closedSet' := {[npos current]} ∪ closedSet in
          openList'' ← astar_expand m current target directions closedSet' openList';
          astar_loop fuel' m target closedSet' openList''
      end
  end.

(** [while (step->parent && step->parent->parent) step = step->parent]. *)
Fixpoint first_step (n : Node) : Node :=
  match n with
  | mkNode _ _ _ (Some ((mkNode _ _ _ (Some _)) as p)) => first_step p
  | _ => n
  end.

Definition findNextStepToTarget (m : MazeGame) (from target : Z * Z) : option (Z * Z) :=
  if (from.1 =? target.1) && (from.2 =? target.2) then Some from else
  startNode ← new_node from 0 (heuristic from.1 from.2 target.1 target.2) None;
  found ← astar_loop (S (search_fuel (m_generator m))) m target ∅ [startNode];
  match found with
  | None => Some from
  | Some targetNode =>
      let step := first_step targetNode in
      match nparent step with Some _ => Some (npos step) | None => Some from end
  end.

Definition moveChaserTowardsPlayer : cpp MazeGame unit :=
  m ← get;
  if negb (playing m && m_chaserActive m) then mret tt else
  nextStep ← from_option (findNextStepToTarget m (m_chaser m) (m_player m));
  if negb (nextStep.1 =? (m_chaser m).1) || negb (nextStep.2 =? (m_chaser m).2) then
    modify (fun m => set_chaser nextStep (m_chaserActive m) m) ;;
    emit chaserPositionChanged ;;
    checkLoseCondition
  else mret tt.

(** ** Views *)

Definition calculateAndShowPath : cpp MazeGame unit :=
  m ← get;
  p ← from_option (getFullPath (m_generator m) (m_start m).1 (m_start m).2 (m_end m).1 (m_end m).2);
  modify (set_path p true) ;;
  emit optimalPathChanged ;;
  emit showPathChanged.

Definition hidePath : cpp MazeGame unit :=
  modify (fun m => set_path (m_optimalPath m) false m) ;;
  emit showPathChanged.

Definition getOptimalPath (m : MazeGame) : list (Z * Z) := m_optimalPath m.

(** Row by row, the position and the cell. *)
Definition getMazeData (m : MazeGame) : option (list (Z * Z * Cell)) :=
  mapM (fun p : Z * Z => c ← getCell (m_generator m) p.1 p.2; Some (p, c))
    (y ← seqZ 0 (m_mazeHeight m); x ← seqZ 0 (m_mazeWidth m); [(x, y)]).

Definition isStartPosition (m : MazeGame) (x y : Z) : bool := (x =? (m_start m).1) && (y =? (m_start m).2).
Definition isEndPosition (m : MazeGame) (x y : Z) : bool := (x =? (m_end m).1) && (y =? (m_end m).2).

(** ** The event loop *)

(** Timeouts of the timers, which fire only when active. *)
Definition tick : cpp MazeGame unit :=
  m ← get; if m_timer m then updateTimer else mret tt.
Definition chaser_tick : cpp MazeGame unit :=
  m ← get; if m_chaserTimer m then moveChaserTowardsPlayer else mret tt.

Inductive Event : Set :=
  | Move (direction : Z) | Tick | ChaserTick | Reset | SetDifficulty (d : Z) | ShowPath | HidePath.

Definition handle (e : Event) : cpp MazeGame unit :=
  match e with
  | Move d => _ ← movePlayer d; mret tt
  | Tick => tick
  | ChaserTick => chaser_tick
  | Reset => resetGame
  | SetDifficulty d => setDifficulty d
  | ShowPath => calculateAndShowPath
  | HidePath => hidePath
  end.
End game.
Arguments MazeGame : clear implicits.
