(* ===== verification/MazeChase.v ===== *)
(** * MazeChase: the chaser's search

    On a generated maze the A* search of [findNextStepToTarget] ends within one
    expansion per cell and returns the first step of the simple path to the target. *)

From stdpp Require Import relations.
From S2P Require Import Prelude MazeGraph Maze MazeProps MazeSearch MazeGame.

Local Open Scope Z_scope.

(** Sizes for which the [int] costs of the search cannot overflow. *)
Definition fits (w h : Z) : Prop := 1 <= w /\ 1 <= h /\ w * h + w + h <= INT_MAX.

(** The board of a game: the generated maze, with the game's own copy of its size. *)
Definition board {G} `{Shuffle G} (m : MazeGame G) (D : gset ((Z * Z) * (Z * Z))) : Prop :=
  carved (m_generator m) (grid (m_generator m)) (grid (m_generator m)) D /\
  m_mazeWidth m = m_width (m_generator m) /\ m_mazeHeight m = m_height (m_generator m) /\
  fits (m_mazeWidth m) (m_mazeHeight m).

(** The cells from the start to a node. *)
Fixpoint trail (n : Node) : list (Z * Z) :=
  match n with
  | mkNode p _ _ None => [p]
  | mkNode p _ _ (Some q) => trail q ++ [p]
  end.

Lemma trail_last n : last (trail n) = Some (npos n).
Proof. destruct n as [p g f [q|]]; [apply last_snoc|done]. Qed.

Lemma trail_pos n : (1 <= length (trail n))%nat.
Proof. pose proof (trail_last n). destruct (trail n); [done|cbn; lia]. Qed.

Lemma first_step_trail n :
  (2 <= length (trail n))%nat ->
  trail n !! 1%nat = Some (npos (first_step n)) /\ is_Some (nparent (first_step n)).
Proof.
  cut (forall k n, length (trail n) = S (S k) ->
    trail n !! 1%nat = Some (npos (first_step n)) /\ is_Some (nparent (first_step n))).
  { intros Hcut Hlen. apply (Hcut (length (trail n) - 2)%nat). lia. }
  clear n. induction k as [|k IH]; intros [p g f [q|]] Hlen; try done;
    cbn [trail] in Hlen; rewrite length_app in Hlen; cbn in Hlen.
  - destruct q as [p' g' f' [r|]]; [|by split; [|eexists]].
    cbn [trail] in Hlen. rewrite length_app in Hlen. cbn in Hlen. pose proof (trail_pos r). lia.
  - destruct (IH q) as [H1 H2]; [lia|].
    destruct q as [p' g' f' [r|]]; [|cbn in Hlen; lia]. split; [|exact H2].
    change (trail (mkNode p g f _)) with (trail (mkNode p' g' f' (Some r)) ++ [p]).
    change (first_step _) with (first_step (mkNode p' g' f' (Some r))). by apply lookup_app_l_Some.
Qed.

Lemma open_insert_perm n l : open_insert n l ≡ₚ n :: l.
Proof.
  induction l as [|x l IH]; [done|]. cbn. case_match; [|done]. rewrite IH. constructor.
Qed.

Section chase.
Context {G : Type} `{Shuffle G} (m : MazeGame G) (D : gset ((Z * Z) * (Z * Z))) (a b : Z * Z).
Hypothesis Hboard : board m D.

Abbreviation g := (m_generator m).
Abbreviation R := (passage g).

Hypothesis Ha : inb g a.
Hypothesis Hb : inb g b.
Implicit Types (C : gset (Z * Z)) (n : Node) (O : list Node).

Lemma in_maze_inb p : in_maze m p = true <-> inb g p.
Proof.
  destruct Hboard as (_ & Ew & Eh & _). unfold in_maze. rewrite Ew, Eh, inb_iff.
  rewrite !andb_true_iff, !Z.leb_le, !Z.ltb_lt. tauto.
Qed.

Lemma board_wf : wf g.
Proof. apply Hboard. Qed.

Lemma board_edge x y : R x y <-> edge D x y.
Proof. apply Hboard. Qed.

Lemma board_tree : tree (grid g) D.
Proof. apply Hboard. Qed.

Lemma passage_path x y l : simple_path R x y l <-> simple_path (edge D) x y l.
Proof.
  unfold simple_path. do 2 apply and_iff_compat_l. apply and_iff_compat_r.
  split; apply is_path_mono; intros u v _ _; apply board_edge.
Qed.

Lemma board_unique x y l l' : inb g x -> inb g y -> simple_path R x y l -> simple_path R x y l' -> l = l'.
Proof.
  intros Hx%elem_of_grid Hy%elem_of_grid H1%passage_path H2%passage_path.
  by apply (tree_path_unique (grid g) D x y l l' board_tree).
Qed.

Lemma board_passage x y : R x y -> inb g x /\ inb g y.
Proof. apply passage_inb, board_wf. Qed.

(** ** The invariant of the search *)

Definition node_ok C n : Prop :=
  simple_path R a (npos n) (trail n) /\ ng n = Z.of_nat (length (trail n)) - 1 /\
  forall c, c ∈ trail n -> c = npos n \/ c ∈ C.

Record searching C O : Prop := {
  se_grid : C ⊆ grid g;
  se_nodes n : n ∈ O -> node_ok C n;
  se_nodup : NoDup (npos <$> O);
  se_open n : n ∈ O -> npos n ∉ C;
  se_target : b ∉ C;
  se_closed c e : c ∈ C -> R c e -> e ∈ C \/ e ∈ npos <$> O;
  se_start : a ∈ C \/ a ∈ npos <$> O;
}.

Lemma simple_inb x l c : inb g x -> head l = Some x -> is_path R l -> c ∈ l -> inb g c.
Proof.
  revert x. induction l as [|y l IH]; intros x Hx Hh Hp Hc; [by apply not_elem_of_nil in Hc|].
  injection Hh as ->. apply elem_of_cons in Hc as [->|Hc]; [done|].
  destruct l as [|z l]; [by apply not_elem_of_nil in Hc|]. destruct Hp as [Hxz Hp].
  by apply (IH z); [apply board_passage in Hxz as [_ ?]|..].
Qed.

Lemma node_inb C n : node_ok C n -> inb g (npos n) /\ (length (trail n) <= Z.to_nat (m_width g * m_height g))%nat.
Proof.
  intros ((H1 & H2 & H3 & H4) & _ & _).
  assert (Hin : forall c, c ∈ trail n -> inb g c) by (intros c; by apply (simple_inb a)).
  split; [apply Hin; by apply last_Some_elem_of|].
  etrans; [|apply size_grid, board_wf]. rewrite <-(size_list_to_set (C := gset (Z * Z))) by done.
  apply subseteq_size. intros c Hc. apply elem_of_grid, Hin. by apply elem_of_list_to_set in Hc.
Qed.

(** A neighbour of the expanded node that is not closed is not open either. *)
Lemma neighbour_fresh C cur O e :
  searching C (cur :: O) -> R (npos cur) e -> e ∉ {[npos cur]} ∪ C -> e ∉ npos <$> O.
Proof.
  intros Hs Hce He (n & -> & Hn)%list_elem_of_fmap.
  destruct (se_nodes _ _ Hs cur) as ((H1 & H2 & H3 & H4) & _ & Hc); [by left|].
  destruct (se_nodes _ _ Hs n) as (Hpath & _ & Hcn); [by right|].
  assert (Hnew : simple_path R a (npos n) (trail cur ++ [npos n])).
  { split_and!; [by destruct (trail cur)|apply last_snoc| |].
    - apply last_Some in H2 as [l El]. rewrite El in H3 |- *. rewrite <-app_assoc. by apply is_path_snoc.
    - apply NoDup_app. split_and!; [done| |apply NoDup_singleton].
      intros c Hin ->%list_elem_of_singleton. destruct (Hc _ Hin); set_solver. }
  assert (E : trail cur ++ [npos n] = trail n).
  { eapply board_unique; [exact Ha| |exact Hnew|exact Hpath]. by apply board_passage in Hce as [_ ?]. }
  assert (Hin : npos cur ∈ trail n) by (rewrite <-E; apply elem_of_app; left; by apply last_Some_elem_of).
  destruct (Hcn _ Hin) as [Eq|Hcl].
  - apply He. rewrite <-Eq. set_solver.
  - by apply (se_open _ _ Hs cur); [left|].
Qed.

(** The nodes made by an expansion. *)
Definition child (cur : Node) C n : Prop :=
  nparent n = Some cur /\ ng n = ng cur + 1 /\ R (npos cur) (npos n) /\ npos n ∉ C.

Lemma astar_expand_ok C cur dirs O :
  inb g (npos cur) -> 0 <= ng cur -> ng cur < m_width g * m_height g -> NoDup dirs ->
  (forall d, d ∈ dirs -> d ∈ directions) ->
  exists new, astar_expand m cur b dirs C O = Some new /\
    exists kids, new ≡ₚ kids ++ O /\ (forall n, n ∈ kids -> child cur C n /\ exists d, d ∈ dirs /\ npos n = step (npos cur) d) /\
      NoDup (npos <$> kids) /\
      forall d, d ∈ dirs -> R (npos cur) (step (npos cur) d) -> step (npos cur) d ∉ C ->
        step (npos cur) d ∈ npos <$> kids.
Proof.
  intros Hcur Hg0 Hg1. revert O. induction dirs as [|d dirs IH]; intros O Hnd Hdirs.
  { exists O. split; [done|]. exists []. split; [done|].
    split; [intros n Hn; by apply not_elem_of_nil in Hn|]. split; [constructor|].
    intros d Hin. by apply not_elem_of_nil in Hin. }
  apply NoDup_cons in Hnd as [Hd Hnd].
  assert (Hdirs' : forall e, e ∈ dirs -> e ∈ directions) by (intros e ?; apply Hdirs; by right).
  assert (Hdd : d ∈ directions) by (apply Hdirs; by left).
  assert (Hskip : (R (npos cur) (step (npos cur) d) -> step (npos cur) d ∈ C) ->
    exists new, astar_expand m cur b dirs C O = Some new /\
    exists kids, new ≡ₚ kids ++ O /\ (forall n, n ∈ kids -> child cur C n /\ exists e, e ∈ d :: dirs /\ npos n = step (npos cur) e) /\
      NoDup (npos <$> kids) /\
      forall e, e ∈ d :: dirs -> R (npos cur) (step (npos cur) e) -> step (npos cur) e ∉ C ->
        step (npos cur) e ∈ npos <$> kids).
  { intros Hno. destruct (IH O Hnd Hdirs') as (new & E & kids & Hperm & Hk & Hnk & Hall).
    exists new. split; [done|]. exists kids. split_and!; [done| |done|].
    - intros n Hn. destruct (Hk n Hn) as [? (e & ? & ?)]. split; [done|]. exists e. split; [by right|done].
    - intros e [->|He]%elem_of_cons Hr Hn; [|by apply Hall]. destruct Hn. by apply Hno. }
  cbn [astar_expand]. change ((npos cur).1 + d.1, (npos cur).2 + d.2) with (step (npos cur) d).
  destruct (in_maze m (step (npos cur) d)) eqn:Ein; cbn [negb].
  2:{ apply Hskip. intros [_ Hin%in_maze_inb]%board_passage. congruence. }
  apply in_maze_inb in Ein. case_bool_decide as Hcl; [by apply Hskip|].
  rewrite hasWall_step by (done || apply board_wf).
  destruct (proj2 (cell_inb g _ board_wf) Hcur) as [x Hx]. rewrite Hx. cbn [fmap option_fmap option_map mbind option_bind].
  destruct (wall d x) eqn:Ew.
  { apply Hskip. intros [_ Hr]. rewrite hasWall_step, Hx in Hr by (done || apply board_wf). cbn in Hr. congruence. }
  assert (Hr : R (npos cur) (step (npos cur) d)).
  { split; [by exists d|]. rewrite hasWall_step, Hx by (done || apply board_wf). cbn. by rewrite Ew. }
  destruct Hboard as (_ & EW & EH & (HW & HH & Hfit)). rewrite EW, EH in *.
  unfold int_succ. rewrite (proj2 (Z.ltb_lt _ _)) by lia. cbn [mbind option_bind].
  unfold new_node. rewrite (proj2 (Z.leb_le _ _)).
  2:{ unfold heuristic. apply inb_iff in Ein. apply inb_iff in Hb. lia. }
  cbn [mbind option_bind].
  set (n := mkNode _ _ _ (Some cur)).
  destruct (IH (open_insert n O) Hnd Hdirs') as (new & E & kids & Hperm & Hk & Hnk & Hall).
  exists new. split; [done|]. exists (n :: kids). split_and!.
  - rewrite Hperm, open_insert_perm. by rewrite <-Permutation_middle.
  - intros k [->|Hin]%elem_of_cons.
    + split; [by split_and!|]. exists d. split; [by left|done].
    + destruct (Hk k Hin) as [? (e & ? & ?)]. split; [done|]. exists e. split; [by right|done].
  - cbn. constructor; [|done]. intros (k & E1 & Hin)%list_elem_of_fmap.
    destruct (Hk k Hin) as [_ (e & He & E2)]. rewrite E2 in E1. apply step_inj in E1. by subst e.
  - intros e [->|He]%elem_of_cons Hre Hne; cbn; [by left|]. right. by apply Hall.
Qed.

Lemma child_ok C cur n :
  node_ok C cur -> child cur ({[npos cur]} ∪ C) n -> node_ok ({[npos cur]} ∪ C) n.
Proof.
  intros ((H1 & H2 & H3 & H4) & Hg & Hc) (Hp & Hgn & Hr & Hn).
  destruct n as [p gn fn par]. cbn in *. subst par gn. split_and!.
  - split_and!; cbn; [by destruct (trail cur)|apply last_snoc| |].
    + apply last_Some in H2 as [l El]. rewrite El in H3 |- *. rewrite <-app_assoc. by apply is_path_snoc.
    + apply NoDup_app. split_and!; [done| |apply NoDup_singleton].
      intros c Hin ->%list_elem_of_singleton. destruct (Hc _ Hin); set_solver.
  - cbn. rewrite length_app, Hg. cbn. lia.
  - cbn. intros c [Hin| ->%list_elem_of_singleton]%elem_of_app; [|by left].
    right. destruct (Hc c Hin) as [->|?]; set_solver.
Qed.

Lemma searching_expand C cur O :
  searching C (cur :: O) -> npos cur <> b ->
  exists O', astar_expand m cur b directions ({[npos cur]} ∪ C) O = Some O' /\ searching ({[npos cur]} ∪ C) O'.
Proof.
  intros Hs Hne. pose proof (se_nodes _ _ Hs cur ltac:(by left)) as Hok.
  destruct (node_inb _ _ Hok) as [Hin Hlen].
  pose proof (trail_pos cur) as Hpos.
  destruct (astar_expand_ok ({[npos cur]} ∪ C) cur directions O Hin) as (O' & E & kids & Hperm & Hk & Hnk & Hall).
  { destruct Hok as (_ & Hg & _). lia. }
  { destruct Hok as (_ & Hg & _). pose proof board_wf as (? & ? & _). nia. }
  { apply (bool_decide_unpack _). vm_compute. done. }
  { done. }
  exists O'. split; [done|].
  assert (HinO : forall n, n ∈ O' <-> n ∈ kids \/ n ∈ O) by (intros n; by rewrite Hperm, elem_of_app).
  assert (Hpo : forall e, e ∈ npos <$> O' <-> e ∈ npos <$> kids \/ e ∈ npos <$> O)
    by (intros e; by rewrite Hperm, fmap_app, elem_of_app).
  assert (Hno : npos cur ∉ npos <$> O) by (pose proof (se_nodup _ _ Hs) as Hn; by apply NoDup_cons in Hn as [? _]).
  split.
  - pose proof (se_grid _ _ Hs). apply elem_of_grid in Hin. set_solver.
  - intros n [Hn|Hn]%HinO; [by apply child_ok, Hk|].
    destruct (se_nodes _ _ Hs n ltac:(by right)) as (? & ? & Hc). split_and!; try done.
    intros c [?|?]%Hc; [by left|right; set_solver].
  - rewrite Hperm, fmap_app. apply NoDup_app. split_and!; [done| |].
    + intros e (n & -> & Hn)%list_elem_of_fmap. destruct (Hk n Hn) as [(_ & _ & Hr & Hnc) _].
      by eapply neighbour_fresh.
    + pose proof (se_nodup _ _ Hs) as Hn. by apply NoDup_cons in Hn as [_ ?].
  - intros n [Hn|Hn]%HinO; [by apply Hk|]. intros [E1%elem_of_singleton|Hc]%elem_of_union.
    + apply Hno. rewrite <-E1. by apply list_elem_of_fmap_2.
    + by apply (se_open _ _ Hs n); [right|].
  - pose proof (se_target _ _ Hs). set_solver.
  - intros c e Hc Hr. rewrite Hpo. destruct (decide (e ∈ {[npos cur]} ∪ C)) as [?|Hne']; [by left|]. right.
    apply elem_of_union in Hc as [->%elem_of_singleton|Hc].
    + left. pose proof Hr as [(d & Hd & ->) _]. by apply Hall.
    + right. destruct (se_closed _ _ Hs c e Hc Hr) as [?|He]; [set_solver|].
      cbn in He. apply elem_of_cons in He as [->|He]; [set_solver|done].
  - rewrite Hpo. destruct (se_start _ _ Hs) as [?|He]; [set_solver|].
    cbn in He. apply elem_of_cons in He as [->|He]; [set_solver|auto].
Qed.

Lemma closed_path C l x y :
  (forall c e, c ∈ C -> R c e -> e ∈ C) -> x ∈ C -> head l = Some x -> last l = Some y -> is_path R l -> y ∈ C.
Proof.
  intros Hcl. revert x. induction l as [|z l IH]; intros x Hx H1 H2 H3; [done|].
  injection H1 as ->. destruct l as [|z' l]; [by injection H2 as ->|].
  destruct H3 as [Hxz H3]. apply (IH z'); [by eapply Hcl|done..].
Qed.

Lemma searching_empty C : searching C [] -> False.
Proof.
  intros Hs. destruct (tree_path_exists (grid g) D a b board_tree) as (l & Hl); [by apply elem_of_grid..|].
  apply passage_path in Hl as (H1 & H2 & H3 & _).
  assert (HaC : a ∈ C) by (destruct (se_start _ _ Hs) as [?|?%not_elem_of_nil]; done).
  apply (se_target _ _ Hs), (closed_path C l a b); [|done..].
  intros c e Hc Hr. by destruct (se_closed _ _ Hs c e Hc Hr) as [?|?%not_elem_of_nil].
Qed.

Lemma astar_loop_ok (fuel : nat) C O :
  searching C O -> (size (grid g) <= fuel + size C)%nat ->
  exists n, astar_loop fuel m b C O = Some (Some n) /\ simple_path R a b (trail n).
Proof.
  revert C O. induction fuel as [|fuel IH]; intros C O Hs Hf;
    (destruct O as [|cur O]; [by destruct (searching_empty C)|]);
    destruct (node_inb _ _ (se_nodes _ _ Hs cur ltac:(by left))) as [Hin%elem_of_grid _];
    pose proof (se_open _ _ Hs cur ltac:(by left)) as Hnc.
  - exfalso. assert (size C < size (grid g))%nat; [|lia]. apply subset_size.
    pose proof (se_grid _ _ Hs). set_solver.
  - cbn [astar_loop]. destruct (((npos cur).1 =? b.1) && ((npos cur).2 =? b.2)) eqn:E.
    + apply andb_true_iff in E as [E1%Z.eqb_eq E2%Z.eqb_eq].
      assert (E : npos cur = b) by (rewrite (surjective_pairing b), (surjective_pairing (npos cur)); congruence).
      exists cur. split; [done|]. rewrite <-E. by apply (se_nodes _ _ Hs cur ltac:(by left)).
    + assert (Hne : npos cur <> b) by (intros <-; by rewrite !Z.eqb_refl in E).
      destruct (searching_expand C cur O Hs Hne) as (O' & E' & Hs'). rewrite E'. cbn [mbind option_bind].
      apply IH; [done|]. rewrite size_union, size_singleton by set_solver. lia.
Qed.

(** The first step of the path to the target. *)
Lemma findNextStep_ok :
  a <> b -> exists q l, findNextStepToTarget m a b = Some q /\ simple_path R a b (a :: q :: l).
Proof.
  intros Hab. unfold findNextStepToTarget.
  destruct ((a.1 =? b.1) && (a.2 =? b.2)) eqn:E.
  { apply andb_true_iff in E as [E1%Z.eqb_eq E2%Z.eqb_eq]. destruct Hab. by apply injective_projections. }
  unfold new_node at 1. pose proof Hboard as (_ & EW & EH & (HW & HH & Hfit)). rewrite EW, EH in Hfit.
  rewrite (proj2 (Z.leb_le _ _)).
  2:{ unfold heuristic. apply inb_iff in Ha. apply inb_iff in Hb. pose proof board_wf as (? & ? & _). nia. }
  cbn [mbind option_bind]. set (n0 := mkNode _ _ _ None).
  destruct (astar_loop_ok (S (search_fuel g)) ∅ [n0]) as (n & En & Hn).
  - split.
    + set_solver.
    + intros n ->%list_elem_of_singleton. split_and!; [|done|intros c ->%list_elem_of_singleton; by left].
      split_and!; try done. apply NoDup_singleton.
    + apply NoDup_singleton.
    + set_solver.
    + set_solver.
    + set_solver.
    + right. by left.
  - pose proof (size_grid g board_wf). unfold search_fuel. lia.
  - rewrite En. cbn [mbind option_bind]. pose proof Hn as (H1 & H2 & _ & _).
    destruct (trail n) as [|x [|q l]] eqn:Et; [done|by injection H1 as ->; injection H2 as ->|].
    injection H1 as ->. destruct (first_step_trail n) as [Hq [par Hpar]]; [rewrite Et; cbn; lia|].
    rewrite Et in Hq. cbn in Hq. injection Hq as ->. rewrite Hpar. by exists (npos (first_step n)), l.
Qed.
End chase.
