(* ===== verification/MazeGameProps.v ===== *)
(** * MazeGameProps: the rules of the game

    Every run of events of a game keeps it sound: player and chaser stay inside the
    maze, the counters are right, a game is won or lost but never both, and the chaser
    comes one step closer with each of its moves. *)

From stdpp Require Import relations.
From S2P Require Import Prelude MazeGraph Maze MazeProps MazeSearch MazeGame MazeChase.

Local Open Scope Z_scope.

Section rules.
Context {G : Type} `{Shuffle G}.
Implicit Types (m : MazeGame G) (D : gset ((Z * Z) * (Z * Z))).

Abbreviation P m := (passage (m_generator m)).

(** A passage that does not touch the end. *)
Definition avoids m (x y : Z * Z) : Prop := P m x y /\ x <> m_end m /\ y <> m_end m.

(** While the game runs, the way from chaser to player avoids the end; afterwards it
    is either won or lost. *)
Definition outcome m : Prop :=
  if m_isGameRunning m then
    m_isGameWon m = false /\ m_isGameLost m = false /\
    m_player m <> m_end m /\ m_chaser m <> m_end m /\ rtc (avoids m) (m_chaser m) (m_player m)
  else
    (m_isGameWon m = true /\ m_isGameLost m = false /\ m_player m = m_end m) \/
    (m_isGameWon m = false /\ m_isGameLost m = true /\ m_player m = m_chaser m).

Record sound D m : Prop := {
  so_board : board m D;
  so_start : m_start m = (0, 0);
  so_end : m_end m = (m_mazeWidth m - 1, m_mazeHeight m - 1);
  so_cells : 2 <= m_mazeWidth m * m_mazeHeight m;
  so_player : inb (m_generator m) (m_player m);
  so_chaser : inb (m_generator m) (m_chaser m);
  so_shortest : exists n, m_shortestPath m = Z.of_nat n /\ distance (P m) n (m_start m) (m_end m);
  so_steps : exists k, m_currentSteps m = Z.of_nat k /\ nsteps (P m) k (m_start m) (m_player m);
  so_outcome : outcome m;
  so_elapsed : 0 <= m_elapsedTime m;
  so_active : m_chaserActive m = true -> getChaserDelaySeconds <= m_elapsedTime m;
}.

(** Bounds on the counters after [k] events. *)
Definition counted (k : Z) m : Prop := m_elapsedTime m <= k /\ m_currentSteps m <= k.

(** What [sound] looks at. *)
Definition view m :=
  (m_generator m, m_mazeWidth m, m_mazeHeight m, m_start m, m_end m, m_shortestPath m,
   (m_player m, m_chaser m, m_currentSteps m, m_elapsedTime m),
   (m_isGameRunning m, m_isGameWon m, m_isGameLost m, m_chaserActive m)).

Lemma sound_view D m m' : view m' = view m -> sound D m -> sound D m'.
Proof.
  unfold view. intros [= E1 E2 E3 E4 E5 E6 E7 E8 E9 E10 E11 E12 E13 E14] [].
  split; unfold board, outcome, avoids in *;
    rewrite ?E1, ?E2, ?E3, ?E4, ?E5, ?E6, ?E7, ?E8, ?E9, ?E10, ?E11, ?E12, ?E13, ?E14; done.
Qed.

Lemma counted_view k m m' : view m' = view m -> counted k m -> counted k m'.
Proof. unfold view, counted. intros [= E1 E2 E3 E4 E5 E6 E7 E8 E9 E10 E11 E12 E13 E14]. by rewrite E9, E10. Qed.

Lemma start_in D m : sound D m -> inb (m_generator m) (m_start m).
Proof.
  intros Hs. rewrite (so_start _ _ Hs). destruct (so_board _ _ Hs) as (_ & Ew & Eh & (Hw & Hh & _)).
  apply inb_iff. rewrite <-Ew, <-Eh. cbn. lia.
Qed.

Lemma end_in D m : sound D m -> inb (m_generator m) (m_end m).
Proof.
  intros Hs. rewrite (so_end _ _ Hs). destruct (so_board _ _ Hs) as (_ & Ew & Eh & (Hw & Hh & _)).
  apply inb_iff. rewrite <-Ew, <-Eh. cbn. lia.
Qed.

Lemma start_not_end D m : sound D m -> m_start m <> m_end m.
Proof.
  intros Hs. rewrite (so_start _ _ Hs), (so_end _ _ Hs). pose proof (so_cells _ _ Hs). intros [= E1 E2]. nia.
Qed.

(** ** Moves *)

Lemma same_cell (p q : Z * Z) : ((p.1 =? q.1) && (p.2 =? q.2)) = bool_decide (p = q).
Proof.
  symmetry. case_bool_decide as E; [subst; by rewrite !Z.eqb_refl|].
  symmetry. apply andb_false_iff. rewrite !Z.eqb_neq. destruct p, q; cbn.
  destruct (decide (z = z1)) as [->|?]; [right|by left]. congruence.
Qed.

Lemma move_target_step p k q : move_target p k = Some q -> exists d, d ∈ directions /\ q = step p d.
Proof.
  unfold move_target, step. destruct p as [x y]. cbn.
  repeat case_match; intros [= <-]; [exists (0, -1)|exists (1, 0)|exists (0, 1)|exists (-1, 0)];
    (split; [apply directions_iff; auto|cbn; f_equal; lia]).
Qed.

Lemma playing_running D m : sound D m -> playing m = m_isGameRunning m.
Proof.
  intros Hs. pose proof (so_outcome _ _ Hs) as Ho. unfold outcome in Ho. unfold playing.
  destruct (m_isGameRunning m); [|done]. by destruct Ho as (-> & -> & _).
Qed.

(** The player steps to [p]. *)
Definition moved_view m (p : Z * Z) :=
  (m_generator m, m_mazeWidth m, m_mazeHeight m, m_start m, m_end m, m_shortestPath m,
    (p, m_chaser m, m_currentSteps m + 1, m_elapsedTime m),
    (negb (bool_decide (p = m_chaser m)) && negb (bool_decide (p = m_end m)),
     bool_decide (p = m_end m), bool_decide (p = m_chaser m), m_chaserActive m)).

Lemma sound_moved D m m' p :
  sound D m -> m_isGameRunning m = true -> P m (m_player m) p ->
  view m' = moved_view m p -> sound D m'.
Proof.
  intros Hs Hrun Hp. pose proof (so_outcome _ _ Hs) as Ho. unfold outcome in Ho. rewrite Hrun in Ho.
  destruct Ho as (Hw & Hl & Hpe & Hce & Hreach). destruct Hs as [Hbd Hst Hen Hce2 Hpl Hch Hsh Hsp _ Hel Hac].
  unfold view, moved_view. intros [= E1 E2 E3 E4 E5 E6 E7 E8 E9 E10 E11 E12 E13 E14].
  split; unfold board in *; rewrite ?E1, ?E2, ?E3, ?E4, ?E5, ?E6, ?E7, ?E8, ?E9, ?E10, ?E14; try done.
  - destruct Hbd as ((Hwf & _) & _). by apply passage_inb in Hp as [_ ?].
  - destruct Hsp as (k & -> & Hk). exists (S k). split; [lia|]. by eapply nsteps_r.
  - unfold outcome. rewrite E11, E12, E13, E5, E7, E8. 
    destruct (decide (p = m_chaser m)) as [Epc|Epc], (decide (p = m_end m)) as [Epe|Epe];
      rewrite ?(bool_decide_eq_true_2 _ Epc), ?(bool_decide_eq_false_2 _ Epc),
        ?(bool_decide_eq_true_2 _ Epe), ?(bool_decide_eq_false_2 _ Epe); cbn; [congruence|auto|auto|].
    split_and!; try done. apply rtc_r with (m_player m); unfold avoids; rewrite E1, E5; done.
Qed.

(** Evaluating commands up to the view. *)
Definition shows (c : cpp (MazeGame G) unit) m m1 : Prop := exists m', c m = Ok tt m' /\ view m' = view m1.

Lemma shows_bind c c' m m1 m2 :
  shows c m m1 -> (forall m', view m' = view m1 -> shows c' m' m2) -> shows (c ;; c') m m2.
Proof. intros (m' & E & Hv) Hc. unfold shows. rewrite (bind_Ok _ _ _ _ _ E). by apply Hc. Qed.

Lemma emit_shows sg m m1 : view m = view m1 -> shows (emit sg) m m1.
Proof. intros Hv. eexists. split; [reflexivity|]. exact Hv. Qed.

Lemma timers_shows t c m m1 : view m = view m1 -> shows (modify (fun m => set_timers (t m) (c m) m)) m m1.
Proof. intros Hv. eexists. split; [reflexivity|]. exact Hv. Qed.

Lemma view_flags m m1 r w l : view m = view m1 -> view (set_flags r w l m) = view (set_flags r w l m1).
Proof. unfold view. cbn. intros [= -> -> -> -> -> -> -> -> -> -> _ _ _ ->]. done. Qed.

Lemma checkLose_shows m m1 :
  view m = view m1 ->
  shows checkLoseCondition m
    (if bool_decide (m_player m1 = m_chaser m1) then set_flags false (m_isGameWon m1) true m1 else m1).
Proof.
  intros Hv. unfold checkLoseCondition, shows, mbind at 1, cpp_bind at 1, get at 1. rewrite same_cell.
  assert (Ep : m_player m = m_player m1 /\ m_chaser m = m_chaser m1 /\ m_isGameWon m = m_isGameWon m1)
    by (unfold view in Hv; by injection Hv).
  destruct Ep as (Ep & Ec & Ew). rewrite Ep, Ec. case_bool_decide; [|by exists m].
  eapply shows_bind; [eexists; split; [reflexivity|]; by apply view_flags|].
  intros m' Hm'. rewrite <-Ew. eapply shows_bind; [by apply (timers_shows (fun _ => false) (fun _ => false))|].
  intros m2 Hm2. eapply shows_bind; [by apply emit_shows|]. intros m3 Hm3. by apply emit_shows.
Qed.

Lemma checkWin_shows m m1 :
  view m = view m1 ->
  shows checkWinCondition m
    (if bool_decide (m_player m1 = m_end m1) then set_flags false true (m_isGameLost m1) m1 else m1).
Proof.
  intros Hv. unfold checkWinCondition, shows, mbind at 1, cpp_bind at 1, get at 1. rewrite same_cell.
  assert (Ep : m_player m = m_player m1 /\ m_end m = m_end m1 /\ m_isGameLost m = m_isGameLost m1)
    by (unfold view in Hv; by injection Hv).
  destruct Ep as (Ep & Ec & Ew). rewrite Ep, Ec. case_bool_decide; [|by exists m].
  eapply shows_bind; [eexists; split; [reflexivity|]; by apply view_flags|].
  intros m' Hm'. rewrite <-Ew. eapply shows_bind; [by apply (timers_shows (fun _ => false) m_chaserTimer)|].
  intros m2 Hm2. eapply shows_bind; [by apply emit_shows|]. intros m3 Hm3. by apply emit_shows.
Qed.

(** A move through a passage. *)
Lemma movePlayer_view D m dir p :
  sound D m -> m_isGameRunning m = true -> m_currentSteps m < INT_MAX ->
  move_target (m_player m) dir = Some p -> P m (m_player m) p ->
  exists m', movePlayer dir m = Ok true m' /\ view m' = moved_view m p.
Proof.
  intros Hs Hrun Hmax Et Hp. unfold movePlayer. rewrite (bind_Ok get _ m m m eq_refl), (playing_running D m Hs), Hrun, Et.
  cbn [negb]. rewrite (proj2 (in_maze_inb m D (so_board _ _ Hs) p)) by (by apply (board_passage m D (so_board _ _ Hs)) in Hp as [_ ?]).
  cbn [negb]. destruct Hp as [_ Ewall]. rewrite Ewall, (bind_Ok _ _ m false m eq_refl).
  unfold int_succ. rewrite (proj2 (Z.ltb_lt _ _)) by lia. rewrite (bind_Ok _ _ m (m_currentSteps m + 1) m eq_refl).
  pose proof (so_outcome _ _ Hs) as Ho. unfold outcome in Ho. rewrite Hrun in Ho. destruct Ho as (Hw & Hl & _).
  set (m1 := set_player p (m_currentSteps m + 1) [] m).
  rewrite (bind_Ok (modify _) _ m tt _ eq_refl).
  match goal with |- context [(mbind ?c (if ?t then ?x else ?y)) ?m0] =>
    assert (Ht : shows (if t then x else y) m0 m1) by (destruct (m_timerStarted m); by eexists) end.
  destruct Ht as (m2 & E2 & V2). rewrite (bind_Ok _ _ _ _ _ E2).
  destruct (emit_shows playerPositionChanged m2 m1 V2) as (m3 & E3 & V3). rewrite (bind_Ok _ _ _ _ _ E3).
  destruct (emit_shows currentStepsChanged m3 m1 V3) as (m4 & E4 & V4). rewrite (bind_Ok _ _ _ _ _ E4).
  destruct (checkLose_shows m4 m1 V4) as (m5 & E5 & V5). rewrite (bind_Ok _ _ _ _ _ E5).
  destruct (checkWin_shows m5 _ V5) as (m6 & E6 & V6). rewrite (bind_Ok _ _ _ _ _ E6).
  exists m6. split; [done|]. rewrite V6. cbn [m_player m_chaser m_isGameWon m1 set_player].
  destruct (bool_decide (p = m_chaser m)) eqn:E1, (bool_decide (p = m_end m)) eqn:E7; unfold view, moved_view; cbn;
    rewrite ?E7; cbn; by rewrite ?E1, ?E7, ?Hrun, ?Hw, ?Hl.
Qed.

(** Any other move changes nothing. *)
Lemma movePlayer_stays D m dir :
  sound D m ->
  (forall p, move_target (m_player m) dir = Some p -> m_isGameRunning m = true -> ~ P m (m_player m) p) ->
  movePlayer dir m = Ok false m.
Proof.
  intros Hs Hno. unfold movePlayer. rewrite (bind_Ok get _ m m m eq_refl), (playing_running D m Hs).
  destruct (m_isGameRunning m); cbn [negb]; [|done].
  destruct (move_target (m_player m) dir) as [p|] eqn:Et; [|done].
  destruct (move_target_step _ _ _ Et) as (d & Hd & ->). set (p := step (m_player m) d) in *.
  destruct (in_maze m p) eqn:Ein; cbn [negb]; [|done]. apply (in_maze_inb m D (so_board _ _ Hs)) in Ein.
  pose proof (board_wf m D (so_board _ _ Hs)) as Hwf.
  pose proof (hasWall_step (m_generator m) (m_player m) d Hwf Hd (so_player _ _ Hs) Ein) as Ewall.
  fold p in Ewall. destruct (proj2 (cell_inb _ _ Hwf) (so_player _ _ Hs)) as [c Hc]. rewrite Hc in Ewall.
  cbn [fmap option_fmap option_map] in Ewall. rewrite Ewall, (bind_Ok _ _ m (wall d c) m eq_refl).
  destruct (wall d c) eqn:Ew; [done|]. destruct (Hno p); [done..|]. split; [by exists d|done].
Qed.

Lemma counted_moved k m m' p : counted k m -> view m' = moved_view m p -> counted (k + 1) m'.
Proof.
  intros [Hk1 Hk2]. unfold view, moved_view. intros [= E1 E2 E3 E4 E5 E6 E7 E8 E9 E10 E11 E12 E13 E14].
  split; rewrite ?E9, ?E10; lia.
Qed.

Lemma movePlayer_ok D m k dir :
  sound D m -> counted k m -> k < INT_MAX ->
  exists r m', movePlayer dir m = Ok r m' /\ sound D m' /\ counted (k + 1) m'.
Proof.
  intros Hs Hk Hmax. pose proof Hk as [Hk1 Hk2].
  destruct (move_target (m_player m) dir) as [p|] eqn:Et; [destruct (decide (P m (m_player m) p)) as [Hp|Hp];
    [destruct (m_isGameRunning m) eqn:Hrun|]|].
  { destruct (movePlayer_view D m dir p Hs Hrun ltac:(lia) Et Hp) as (m' & E & V).
    exists true, m'. split; [done|]. split; [by eapply sound_moved|by eapply counted_moved]. }
  all: exists false, m; split; [|split; [done|split; lia]]; apply (movePlayer_stays D); [done|]; intros q Eq Hr; congruence.
Qed.

(** ** Timers and the chaser *)

Lemma shows_sound D c m m1 k :
  shows c m m1 -> sound D m1 -> counted k m1 -> exists m', c m = Ok tt m' /\ sound D m' /\ counted k m'.
Proof.
  intros (m' & E & Hv) Hs Hk. exists m'. split; [done|]. split; [by eapply sound_view|by eapply counted_view].
Qed.

Lemma sound_elapsed D m t b a :
  sound D m -> m_elapsedTime m <= t -> (a = true -> m_chaserActive m = true \/ getChaserDelaySeconds <= t) ->
  sound D (set_chaser (m_chaser m) a (set_elapsed t b m)).
Proof.
  intros [] Ht Ha. split; cbn; try done; [lia|].
  intros Hat. destruct (Ha Hat) as [Hm|Hm]; [|done]. specialize (so_active0 Hm). lia.
Qed.

Lemma updateTimer_ok D m k :
  sound D m -> counted k m -> k < INT_MAX ->
  exists m', updateTimer m = Ok tt m' /\ sound D m' /\ counted (k + 1) m'.
Proof.
  intros Hs [Hk1 Hk2] Hmax. unfold updateTimer. rewrite (bind_Ok get _ m m m eq_refl).
  destruct (playing m); [|exists m; split_and!; [done|done|split; lia]].
  unfold int_succ. rewrite (proj2 (Z.ltb_lt _ _)) by lia.
  rewrite (bind_Ok (from_option (Some (m_elapsedTime m + 1))) _ m (m_elapsedTime m + 1) m eq_refl).
  set (m1 := set_elapsed (m_elapsedTime m + 1) (m_timerStarted m) m).
  set (act := m_chaserActive m || (getChaserDelaySeconds <=? m_elapsedTime m + 1)).
  apply (shows_sound D _ m (set_chaser (m_chaser m) act m1)).
  - eapply (shows_bind _ _ m m1); [by eexists|]. intros m2 V2.
    eapply (shows_bind _ _ m2 m1); [by apply emit_shows|]. intros m3 V3.
    unfold shows, checkChaserActivation. rewrite (bind_Ok get _ m3 m3 m3 eq_refl).
    assert (E : m_chaserActive m3 = m_chaserActive m /\ m_elapsedTime m3 = m_elapsedTime m + 1)
      by (unfold view in V3; injection V3 as _ _ _ _ _ _ _ _ _ ? _ _ _ ?; done).
    destruct E as [-> ->]. unfold act. destruct (m_chaserActive m) eqn:Ea; cbn [negb andb orb].
    + exists m3. split; [done|]. rewrite V3. unfold view, m1. cbn. by rewrite Ea.
    + destruct (getChaserDelaySeconds <=? m_elapsedTime m + 1) eqn:El.
      * eapply (shows_bind _ _ m3 (set_chaser (m_chaser m) true m1)).
        { eexists. split; [reflexivity|]. revert V3. unfold view. cbn. by intros [= -> -> -> -> -> -> -> -> -> -> -> -> -> _]. }
        intros m4 V4. eapply shows_bind; [by apply (timers_shows m_timer (fun _ => true))|].
        intros m5 V5. by apply emit_shows.
      * exists m3. split; [done|]. rewrite V3. unfold view, m1. cbn. by rewrite Ea.
  - apply sound_elapsed; [done|lia|]. unfold act. intros [?|?%Z.leb_le]%orb_true_iff; auto.
  - split; cbn; lia.
Qed.

(** The chaser steps to [q] on its way to the player. *)
Lemma sound_chased D m q l :
  sound D m -> m_isGameRunning m = true ->
  simple_path (P m) (m_chaser m) (m_player m) (m_chaser m :: q :: l) ->
  sound D (set_flags (negb (bool_decide (m_player m = q))) false (bool_decide (m_player m = q))
             (set_chaser q (m_chaserActive m) m)).
Proof.
  intros Hs Hrun Hpath. pose proof (so_outcome _ _ Hs) as Ho. unfold outcome in Ho. rewrite Hrun in Ho.
  destruct Ho as (Hw & Hl & Hpe & Hce & Hreach).
  assert (Hav : avoids m (m_chaser m) q /\ rtc (avoids m) q (m_player m)).
  { apply rtc_nsteps in Hreach as (n & Hn). apply nsteps_simple in Hn as (l' & (H1 & H2 & H3 & H4) & _).
    assert (Hl' : simple_path (P m) (m_chaser m) (m_player m) l').
    { split_and!; try done. eapply is_path_mono; [|done]. by intros x y _ _ [? _]. }
    rewrite <-(board_unique m D (so_board _ _ Hs) _ _ _ _ (so_chaser _ _ Hs) (so_player _ _ Hs) Hpath Hl') in H2, H3.
    destruct H3 as [Hcq H3]. split; [done|].
    eapply rtc_nsteps_2, (path_nsteps _ (q :: l)); [done|by rewrite last_cons_cons in H2|done]. }
  destruct Hav as [Hcq Hreach']. destruct Hs. split; cbn; try done.
  - destruct so_board0 as ((Hwf & _) & _). destruct Hcq as [Hp _]. by apply passage_inb in Hp as [_ ?].
  - unfold outcome. cbn. case_bool_decide; cbn; [by right|]. split_and!; try done. apply Hcq.
Qed.

Lemma moveChaser_view D m q l :
  sound D m -> m_isGameRunning m = true -> m_chaserActive m = true ->
  findNextStepToTarget m (m_chaser m) (m_player m) = Some q ->
  simple_path (P m) (m_chaser m) (m_player m) (m_chaser m :: q :: l) ->
  shows moveChaserTowardsPlayer m
    (set_flags (negb (bool_decide (m_player m = q))) false (bool_decide (m_player m = q))
       (set_chaser q (m_chaserActive m) m)).
Proof.
  intros Hs Hrun Hact E Hpath. unfold shows, moveChaserTowardsPlayer.
  rewrite (bind_Ok get _ m m m eq_refl), (playing_running D m Hs), Hrun, Hact. cbn [andb negb].
  rewrite E, (bind_Ok (from_option (Some q)) _ m q m eq_refl). cbv beta.
  assert (Hqc : q <> m_chaser m).
  { intros ->. destruct Hpath as (_ & _ & _ & Hnd). apply NoDup_cons in Hnd as [Hn _]. apply Hn. by left. }
  assert (Eq : negb (q.1 =? (m_chaser m).1) || negb (q.2 =? (m_chaser m).2) = true).
  { rewrite <-negb_andb, same_cell, bool_decide_false by done. done. }
  rewrite Eq. set (m1 := set_chaser q (m_chaserActive m) m).
  eapply (shows_bind _ _ m m1); [by eexists|]. intros m2 V2.
  eapply (shows_bind _ _ m2 m1); [by apply emit_shows|]. intros m3 V3.
  destruct (checkLose_shows m3 m1 V3) as (m4 & E4 & V4). exists m4. split; [done|]. rewrite V4.
  pose proof (so_outcome _ _ Hs) as Ho. unfold outcome in Ho. rewrite Hrun in Ho. destruct Ho as (Hw & Hl & _).
  unfold m1. cbn [m_player m_chaser m_isGameWon set_chaser].
  destruct (bool_decide (m_player m = q)); unfold view; cbn; by rewrite ?Hrun, ?Hw, ?Hl, ?Hact.
Qed.

Lemma moveChaser_ok D m k :
  sound D m -> counted k m ->
  exists m', moveChaserTowardsPlayer m = Ok tt m' /\ sound D m' /\ counted k m'.
Proof.
  intros Hs Hk. destruct (m_isGameRunning m && m_chaserActive m) eqn:Eg.
  2:{ unfold moveChaserTowardsPlayer. rewrite (bind_Ok get _ m m m eq_refl), (playing_running D m Hs), Eg. by exists m. }
  apply andb_true_iff in Eg as [Hrun Hact]. destruct (decide (m_chaser m = m_player m)) as [E|Hne].
  { unfold moveChaserTowardsPlayer. rewrite (bind_Ok get _ m m m eq_refl), (playing_running D m Hs), Hrun, Hact.
    cbn [andb negb]. unfold findNextStepToTarget. rewrite E, !Z.eqb_refl. cbn [andb].
    rewrite (bind_Ok (from_option (Some (m_player m))) _ m (m_player m) m eq_refl). cbv beta.
    rewrite !Z.eqb_refl. by exists m. }
  destruct (findNextStep_ok m D (m_chaser m) (m_player m) (so_board _ _ Hs) (so_chaser _ _ Hs) (so_player _ _ Hs) Hne)
    as (q & l & E & Hpath).
  eapply shows_sound; [by eapply moveChaser_view|by eapply sound_chased|exact Hk].
Qed.

(** One step along the path is one step less to go. *)
Lemma path_distance D m x y q l n :
  board m D -> inb (m_generator m) x -> inb (m_generator m) y ->
  simple_path (P m) x y (x :: q :: l) -> distance (P m) (S n) x y -> distance (P m) n q y.
Proof.
  intros Hbd Hx Hy Hp [Hn Hmin]. pose proof Hp as (_ & Hl & [Hxq Hpath] & _).
  apply nsteps_simple in Hn as (l' & Hl' & Hlen).
  rewrite <-(board_unique m D Hbd x y _ _ Hx Hy Hp Hl') in Hlen. cbn in Hlen.
  assert (Hq : nsteps (P m) (length l) q y).
  { replace (length l) with (length (q :: l) - 1)%nat by (cbn; lia).
    apply path_nsteps; [done|by rewrite last_cons_cons in Hl|done]. }
  split.
  - pose proof (Hmin (S (length l)) ltac:(by econstructor)). by replace n with (length l) by lia.
  - intros k Hk. specialize (Hmin (S k) ltac:(by econstructor)). lia.
Qed.

(** ** Starting and restarting *)

(** Runs a command whose control flow does not depend on the game. *)
Ltac run_game :=
  match goal with |- exists m', ?c = Ok tt m' /\ _ =>
    let r := eval vm_compute in c in match r with Ok _ ?x => exists x end end;
  split; vm_compute; reflexivity.

Definition fresh_view (g : MazeGenerator G) (w h : Z) (st en : Z * Z) (n : Z) :=
  (g, w, h, st, en, n, (st, st, 0, 0), (true, false, false, false)).

Lemma sound_fresh D m g w h n :
  view m = fresh_view g w h (0, 0) (w - 1, h - 1) (Z.of_nat n) ->
  carved g (grid g) (grid g) D -> w = m_width g -> h = m_height g -> fits w h -> 2 <= w * h ->
  distance (passage g) n (0, 0) (w - 1, h - 1) -> sound D m /\ counted 0 m.
Proof.
  unfold view, fresh_view. intros [= E1 E2 E3 E4 E5 E6 E7 E8 E9 E10 E11 E12 E13 E14] Hc Ew Eh Hfit Hcells Hn.
  assert (Hin : inb g (0, 0)) by (apply inb_iff; destruct Hfit as (? & ? & _); rewrite <-Ew, <-Eh; cbn; lia).
  assert (Hne : (0, 0) <> (w - 1, h - 1)) by (intros [=]; nia).
  split; [|by split; rewrite ?E9, ?E10].
  split; unfold board, outcome;
    rewrite ?E1, ?E2, ?E3, ?E4, ?E5, ?E6, ?E7, ?E8, ?E9, ?E10, ?E11, ?E12, ?E13, ?E14; try done.
  - by exists n.
  - exists 0%nat. split; [done|constructor].
Qed.

Lemma resetGame_view m :
  exists m', resetGame m = Ok tt m' /\
    view m' = fresh_view (m_generator m) (m_mazeWidth m) (m_mazeHeight m) (m_start m) (m_end m) (m_shortestPath m).
Proof. destruct m. run_game. Qed.

Lemma resetGame_ok D m k :
  sound D m -> 0 <= k -> exists m', resetGame m = Ok tt m' /\ sound D m' /\ counted k m'.
Proof.
  intros Hs Hk. destruct (resetGame_view m) as (m' & E & V). exists m'. split; [done|].
  destruct Hs. destruct so_shortest0 as (n & En & Hn). destruct so_board0 as (Hc & Ew & Eh & Hfit).
  rewrite so_start0, so_end0 in Hn, V. rewrite En in V.
  destruct (sound_fresh D m' _ _ _ n V Hc Ew Eh Hfit so_cells0 Hn) as [Hs' [? ?]].
  split; [done|]. split; lia.
Qed.

Lemma tree_shortest (g : MazeGenerator G) D w h :
  carved g (grid g) (grid g) D -> m_width g = w -> m_height g = h -> fits w h ->
  exists n, calculateShortestPath g 0 0 (w - 1) (h - 1) = Some (Z.of_nat n) /\
    distance (passage g) n (0, 0) (w - 1, h - 1).
Proof.
  intros (Hwf & _ & _ & Ht & HD) Ew Eh (Hw & Hh & Hfit).
  assert (H0 : inb g (0, 0)) by (apply inb_iff; rewrite Ew, Eh; cbn; lia).
  assert (H1 : inb g (w - 1, h - 1)) by (apply inb_iff; rewrite Ew, Eh; cbn; lia).
  destruct (calculateShortestPath_ok g (0, 0) (w - 1, h - 1) Hwf) as [(n & Hn & E)|[Hr _]];
    [rewrite Ew, Eh; lia|done|done|by exists n|].
  destruct Hr. destruct (tree_path_exists _ _ (0, 0) (w - 1, h - 1) Ht) as (l & Hh' & Hl & Hp & _); [by apply elem_of_grid..|].
  eapply rtc_nsteps_2, path_nsteps; [done|done|]. eapply is_path_mono; [|exact Hp]. intros x y _ _. apply HD.
Qed.

(** [startNewGame] up to the two searches it makes. *)
Lemma startNewGame_view m w h d g n :
  generate w h (m_generator m) = Ok tt g -> calculateShortestPath g 0 0 (w - 1) (h - 1) = Some n ->
  exists m', startNewGame w h d m = Ok tt m' /\ view m' = fresh_view g w h (0, 0) (w - 1, h - 1) n.
Proof.
  destruct m. cbn [MazeGame.m_generator]. intros E En. unfold startNewGame.
  do 5 rewrite (bind_Ok (modify _) _ _ tt _ eq_refl).
  unfold on_generator. erewrite bind_Ok.
  2:{ cbn [MazeGame.m_generator set_board set_difficulty set_chaser set_flags set_timers]. rewrite E. reflexivity. }
  rewrite (bind_Ok (modify _) _ _ tt _ eq_refl), (bind_Ok get _ _ _ _ eq_refl).
  erewrite bind_Ok by (cbn; rewrite En; reflexivity). run_game.
Qed.

Lemma startNewGame_ok m w h d :
  fits w h -> 2 <= w * h ->
  exists m' D g n, startNewGame w h d m = Ok tt m' /\ sound D m' /\ counted 0 m' /\
    view m' = fresh_view g w h (0, 0) (w - 1, h - 1) n.
Proof.
  intros Hfit Hcells. pose proof Hfit as (Hw & Hh & _).
  destruct (generate_tree w h (m_generator m) Hw Hh) as (g & D & E & Ew & Eh & Hc).
  destruct (tree_shortest g D w h Hc Ew Eh Hfit) as (n & En & Hn).
  destruct (startNewGame_view m w h d g (Z.of_nat n) E En) as (m' & E' & V).
  destruct (sound_fresh D m' g w h n V Hc) as [Hs Hk]; try done.
  by exists m', D, g, (Z.of_nat n).
Qed.

Lemma handle_ok D m k e :
  sound D m -> counted k m -> 0 <= k < INT_MAX ->
  exists m', handle e m = Ok tt m' /\ sound D m' /\ counted (k + 1) m'.
Proof.
  intros Hs Hk Hmax.
  assert (Hweak : forall m', counted k m' -> counted (k + 1) m') by (intros m' [? ?]; split; lia).
  assert (Hview : forall c m1, c m = Ok tt m1 -> view m1 = view m ->
    exists m', c m = Ok tt m' /\ sound D m' /\ counted (k + 1) m').
  { intros c m1 E V. exists m1. split; [done|]. split; [by eapply sound_view|]. by eapply counted_view, Hweak. }
  destruct e as [dir| | | |df| |]; cbn [handle].
  - destruct (movePlayer_ok D m k dir Hs Hk) as (r & m' & E & Hs' & Hk'); [lia|].
    exists m'. by rewrite (bind_Ok _ _ _ _ _ E).
  - unfold tick. rewrite (bind_Ok get _ m m m eq_refl). destruct (m_timer m); [|by apply (Hview _ m)].
    apply updateTimer_ok; [done|done|lia].
  - unfold chaser_tick. rewrite (bind_Ok get _ m m m eq_refl). destruct (m_chaserTimer m); [|by apply (Hview _ m)].
    destruct (moveChaser_ok D m k Hs Hk) as (m' & E & Hs' & Hk'). exists m'. auto.
  - apply resetGame_ok; [done|lia].
  - unfold setDifficulty. rewrite (bind_Ok get _ m m m eq_refl). case_match; [by apply (Hview _ m)|].
    eapply Hview; reflexivity.
  - unfold calculateAndShowPath. rewrite (bind_Ok get _ m m m eq_refl).
    pose proof (so_board _ _ Hs) as ((Hwf & _) & Ew & Eh & (Hw & Hh & Hfit)).
    assert (Hp : exists l, getFullPath (m_generator m) (m_start m).1 (m_start m).2 (m_end m).1 (m_end m).2 = Some l).
    { destruct (getFullPath_ok (m_generator m) (m_start m) (m_end m)) as [(n & l & _ & E & _)|[_ E]];
        [done|rewrite <-Ew, <-Eh; lia|by eapply start_in|by eapply end_in|by exists l|by eexists]. }
    destruct Hp as (l & ->). rewrite (bind_Ok (from_option (Some l)) _ m l m eq_refl). eapply Hview; reflexivity.
  - eapply Hview; reflexivity.
Qed.

Lemma handle_all_ok D es m k :
  sound D m -> counted k m -> 0 <= k -> k + Z.of_nat (length es) <= INT_MAX ->
  exists m', iterM handle es m = Ok tt m' /\ sound D m'.
Proof.
  revert m k. induction es as [|e es IH]; intros m k Hs Hk Hk0 Hmax; [by exists m|].
  cbn [length] in Hmax. destruct (handle_ok D m k e Hs Hk) as (m1 & E1 & Hs1 & Hk1); [lia|].
  destruct (IH m1 (k + 1) Hs1 Hk1) as (m' & E & Hs'); [lia|lia|].
  exists m'. cbn [iterM]. by rewrite (bind_Ok _ _ _ _ _ E1).
Qed.

(** A game that has been started and played. *)
Definition played (m0 : MazeGame G) (w h d : Z) (es : list Event) : result (MazeGame G) unit :=
  (startNewGame w h d ;; iterM handle es) m0.

Lemma played_ok m0 w h d es :
  fits w h -> 2 <= w * h -> Z.of_nat (length es) <= INT_MAX ->
  exists m D, played m0 w h d es = Ok tt m /\ sound D m.
Proof.
  intros Hf Hc Hes. destruct (startNewGame_ok m0 w h d Hf Hc) as (m1 & D & g & n & E & Hs & Hk & _).
  destruct (handle_all_ok D es m1 0 Hs Hk) as (m & E' & Hs'); [done|lia|].
  exists m, D. split; [|done]. unfold played. by rewrite (bind_Ok _ _ _ _ _ E).
Qed.
End rules.

Lemma move_target_dir (p d : Z * Z) : d ∈ directions -> exists k, move_target p k = Some (step p d).
Proof.
  rewrite directions_iff. unfold move_target, step. destruct p as [x y].
  intros [->|[->|[->| ->]]]; cbn; [exists 0|exists 1|exists 2|exists 3]; cbn; do 2 f_equal; lia.
Qed.

(** C35. The game is sound: after [startNewGame] on a maze of at least two cells, every
    sequence of moves, timer and chaser ticks, resets and other requests runs without
    undefined behaviour and leaves player and chaser inside the maze, the step counter
    equal to the length of a walk from the start to the player, the shortest path equal
    to the distance from start to end, and the game running, won or lost: won only at
    the end and in no fewer steps than the shortest path, lost only on the chaser's
    cell, never both; the chaser is active only after its delay. *)
Theorem game_sound {G} `{Shuffle G} (m0 : MazeGame G) (w h d : Z) (es : list Event) :
  fits w h -> 2 <= w * h -> Z.of_nat (length es) <= INT_MAX ->
  exists m n k, played m0 w h d es = Ok tt m /\
    inb (m_generator m) (m_player m) /\ inb (m_generator m) (m_chaser m) /\
    m_shortestPath m = Z.of_nat n /\ distance (passage (m_generator m)) n (m_start m) (m_end m) /\
    m_currentSteps m = Z.of_nat k /\ nsteps (passage (m_generator m)) k (m_start m) (m_player m) /\
    m_isGameRunning m = negb (m_isGameWon m || m_isGameLost m) /\
    (m_isGameWon m = true -> m_isGameLost m = false /\ m_player m = m_end m /\ m_shortestPath m <= m_currentSteps m) /\
    (m_isGameLost m = true -> m_player m = m_chaser m) /\
    (m_chaserActive m = true -> getChaserDelaySeconds <= m_elapsedTime m).
Proof.
  intros Hf Hc Hes. destruct (played_ok m0 w h d es Hf Hc Hes) as (m & D & E & Hs).
  destruct Hs. destruct so_shortest0 as (n & En & Hn), so_steps0 as (k & Ek & Hk).
  exists m, n, k. unfold outcome in so_outcome0. split_and!; try done.
  - destruct (m_isGameRunning m); [by destruct so_outcome0 as (-> & -> & _)|].
    by destruct so_outcome0 as [(-> & -> & _)|(-> & -> & _)].
  - intros Hw. rewrite Hw in so_outcome0. destruct (m_isGameRunning m); [by destruct so_outcome0|].
    destruct so_outcome0 as [(_ & Hl & Hp)|([=] & _)]. split_and!; [done..|]. rewrite Hp in Hk.
    destruct Hn as [_ Hmin]. specialize (Hmin k Hk). lia.
  - intros Hl. rewrite Hl in so_outcome0. destruct (m_isGameRunning m); [by destruct so_outcome0 as (_ & [=] & _)|].
    by destruct so_outcome0 as [(_ & [=] & _)|(_ & _ & ?)].
Qed.

Lemma game_sound_witness :
  exists m, played (MazeGame_new 1%nat) 3 2 Normal [Move 1; Tick; ChaserTick; Reset; Move 2] = Ok tt m /\
    inb (m_generator m) (m_player m).
Proof.
  destruct (game_sound (MazeGame_new 1%nat) 3 2 Normal [Move 1; Tick; ChaserTick; Reset; Move 2])
    as (m & n & k & E & Hin & _).
  - split; [lia|]. split; [lia|]. vm_compute. discriminate.
  - lia.
  - vm_compute. discriminate.
  - exists m. split; [exact E|exact Hin].
Defined.

(** The chaser approaches: in a running game with an active chaser that is [n] > 0
    steps away, its next move ends, takes it through a passage to a cell exactly [n] - 1
    steps from the player, who does not move, and the game is lost exactly when [n] is 1. *)
Theorem chaser_approaches {G} `{Shuffle G} (m0 : MazeGame G) (w h d : Z) (es : list Event) m n :
  fits w h -> 2 <= w * h -> Z.of_nat (length es) <= INT_MAX -> played m0 w h d es = Ok tt m ->
  playing m = true -> m_chaserActive m = true ->
  distance (passage (m_generator m)) (S n) (m_chaser m) (m_player m) ->
  exists m', moveChaserTowardsPlayer m = Ok tt m' /\
    m_generator m' = m_generator m /\ m_player m' = m_player m /\
    passage (m_generator m) (m_chaser m) (m_chaser m') /\
    distance (passage (m_generator m)) n (m_chaser m') (m_player m) /\
    (m_isGameLost m' = true <-> n = 0%nat).
Proof.
  intros Hf Hc Hes Em Hplay Hact Hdist. destruct (played_ok m0 w h d es Hf Hc Hes) as (m1 & D & E & Hs).
  rewrite Em in E. injection E as <-. rewrite (playing_running D m Hs) in Hplay.
  assert (Hne : m_chaser m <> m_player m).
  { intros E. rewrite E in Hdist. destruct Hdist as [_ Hmin]. specialize (Hmin 0%nat (nsteps_O _ _)). lia. }
  destruct (findNextStep_ok m D (m_chaser m) (m_player m) (so_board _ _ Hs) (so_chaser _ _ Hs) (so_player _ _ Hs) Hne)
    as (q & l & Eq & Hpath).
  destruct (moveChaser_view D m q l Hs Hplay Hact Eq Hpath) as (m' & E' & V).
  exists m'. split; [done|]. unfold view in V. cbn in V.
  injection V as E1 E2 E3 E4 E5 E6 E7 E8 E9 E10 E11 E12 E13 E14.
  assert (Hn : distance (passage (m_generator m)) n q (m_player m)).
  { by apply (path_distance D m (m_chaser m) (m_player m) q l n (so_board _ _ Hs) (so_chaser _ _ Hs) (so_player _ _ Hs) Hpath). }
  rewrite E8, E13. split_and!; try done; [apply Hpath|]. rewrite bool_decide_eq_true. split.
  - intros Epq. rewrite Epq in Hn. apply (distance_unique _ _ _ _ _ Hn). split; [constructor|lia].
  - intros ->. destruct Hn as [Hn _]. by inv Hn.
Qed.

(** One move, five seconds. *)
Definition chase_events : list Event := [Move 1; Tick; Tick; Tick; Tick; Tick].

Lemma chaser_approaches_witness :
  exists m m', played (MazeGame_new 1%nat) 3 2 Normal chase_events = Ok tt m /\
    moveChaserTowardsPlayer m = Ok tt m' /\ m_isGameLost m' = true.
Proof.
  assert (Hc : match played (MazeGame_new 1%nat) 3 2 Normal chase_events with
    | Ok _ m => playing m && m_chaserActive m && bool_decide (passage (m_generator m) (m_chaser m) (m_player m))
                && bool_decide (m_chaser m <> m_player m)
    | _ => false end = true) by (vm_compute; reflexivity).
  destruct (played (MazeGame_new 1%nat) 3 2 Normal chase_events) as [[] m|e m|m|why] eqn:E; [|discriminate..].
  apply andb_true_iff in Hc as [Hc H4]. apply andb_true_iff in Hc as [Hc H3]. apply andb_true_iff in Hc as [H1 H2].
  apply bool_decide_eq_true in H3. apply bool_decide_eq_true in H4.
  destruct (chaser_approaches (MazeGame_new 1%nat) 3 2 Normal chase_events m 0) as (m' & E' & _ & _ & _ & _ & Hl).
  - split; [lia|]. split; [lia|]. vm_compute. discriminate.
  - lia.
  - vm_compute. discriminate.
  - exact E.
  - exact H1.
  - exact H2.
  - split; [by econstructor; [exact H3|constructor]|]. intros [|k] Hk; [inversion Hk; subst; congruence|lia].
  - exists m, m'. split; [reflexivity|]. split; [exact E'|]. by apply Hl.
Defined.

(** Returning to the start loses: in every generated maze of at least three cells
    there are two moves, out of the start and back, after which the game is lost at
    time 0, although the chaser has not become active; it stands on the start. *)
Theorem return_to_start_loses {G} `{Shuffle G} (m0 : MazeGame G) (w h d : Z) :
  fits w h -> 3 <= w * h ->
  exists d1 d2 m, played m0 w h d [Move d1; Move d2] = Ok tt m /\
    m_isGameLost m = true /\ m_chaserActive m = false /\ m_elapsedTime m = 0.
Proof.
  intros Hf Hc. destruct (startNewGame_ok m0 w h d Hf ltac:(lia)) as (m1 & D & g & n & E & Hs & _ & V).
  assert (Hfields : m_player m1 = (0, 0) /\ m_chaser m1 = (0, 0) /\ m_end m1 = (w - 1, h - 1) /\ m_currentSteps m1 = 0 /\
    m_elapsedTime m1 = 0 /\ m_isGameRunning m1 = true /\ m_chaserActive m1 = false)
    by (unfold view, fresh_view in V; injection V as E1 E2 E3 E4 E5 E6 E7 E8 E9 E10 E11 E12 E13 E14; done).
  destruct Hfields as (Epl & Ech & Een & Est & Eel & Erun & Eact).
  destruct (tree_path_exists _ _ (m_start m1) (m_end m1) (board_tree m1 D (so_board _ _ Hs))) as (l & Hl);
    [apply elem_of_grid; by eapply start_in|apply elem_of_grid; by eapply end_in|].
  apply (passage_path m1 D (so_board _ _ Hs)) in Hl as (H1 & H2 & H3 & _).
  rewrite (so_start _ _ Hs) in H1. rewrite Een in H2.
  destruct l as [|x [|q l]]; [done|injection H1 as ->; injection H2 as E1 E2; nia|]. injection H1 as ->.
  destruct H3 as [Hq _]. pose proof Hq as [(e & He & Eq) _].
  assert (Hqe : q <> m_end m1).
  { rewrite Eq, Een. unfold step. apply directions_iff in He as [->|[->|[->| ->]]]; cbn; intros [=]; nia. }
  assert (Hqc : q <> (0, 0)) by (rewrite Eq; by apply step_ne).
  destruct (move_target_dir (0, 0) e He) as (d1 & Ed1). rewrite <-Eq in Ed1.
  destruct (move_target_dir q (opp e) (opp_directions e He)) as (d2 & Ed2). rewrite Eq, step_opp, <-Eq in Ed2.
  destruct (movePlayer_view D m1 d1 q Hs Erun) as (m2 & E2 & V2); rewrite ?Epl, ?Est; try done.
  assert (Hs2 : sound D m2) by (apply (sound_moved D m1 m2 q Hs Erun); [by rewrite Epl|done]).
  unfold view, moved_view in V2. injection V2 as F1 F2 F3 F4 F5 F6 F7 F8 F9 F10 F11 F12 F13 F14.
  rewrite Ech, bool_decide_eq_false_2 in F11 by done. rewrite bool_decide_eq_false_2 in F11 by done.
  destruct (movePlayer_view D m2 d2 (0, 0) Hs2 F11) as (m3 & E3 & V3); rewrite ?F7, ?F9, ?Est, ?F1; try done.
  { apply (board_edge m1 D (so_board _ _ Hs)). eapply tree_sym; [apply (board_tree m1 D (so_board _ _ Hs))|].
    by apply (board_edge m1 D (so_board _ _ Hs)). }
  exists d1, d2, m3. unfold played. rewrite (bind_Ok _ _ _ _ _ E). cbn [iterM handle]. split.
  - rewrite (bind_Ok _ _ m1 tt m2); [|by rewrite (bind_Ok _ _ _ _ _ E2)].
    rewrite (bind_Ok _ _ m2 tt m3); [done|]. by rewrite (bind_Ok _ _ _ _ _ E3).
  - unfold view, moved_view in V3. injection V3 as _ _ _ _ _ _ _ _ _ K10 _ _ K13 K14.
    rewrite K10, K13, K14, F10, F14, F8, Ech, Eel, Eact. done.
Qed.

Lemma return_to_start_loses_witness :
  exists d1 d2 m, played (MazeGame_new 1%nat) 3 2 Normal [Move d1; Move d2] = Ok tt m /\ m_isGameLost m = true.
Proof.
  destruct (return_to_start_loses (MazeGame_new 1%nat) 3 2 Normal) as (d1 & d2 & m & E & Hl & _).
  - split; [lia|]. split; [lia|]. vm_compute. discriminate.
  - lia.
  - exists d1, d2, m. split; [exact E|exact Hl].
Defined.
