(* ===== verification/HttpParser.v ===== *)
(** * HttpParser: the incremental HTTP parser of StdHTTPS

    Models src/zsxq-cpp-ai/StdHTTPS/include/http_parser.h and src/http_parser.cpp. Input
    and bodies are lists of characters, complete lines are strings. The virtual
    [parse_start_line] of the request and response parsers is an interface
    ([StartLine]); the members of the derived class are the component [start_] of the
    state. [std::multimap] is a list ordered by key in which equal keys keep the order
    of insertion; [find] yields the first of them, as libstdc++ does. *)

From Stdlib Require Import DecimalString DecimalFacts DecimalZ Ascii String.
From S2P Require Import Prelude Text.

Local Open Scope Z_scope.

Abbreviation bytes := (list ascii).

(** ** Data *)

Module HttpMethod.
Inductive HttpMethod : Set :=
  GET | POST | PUT | DELETE | HEAD | OPTIONS | PATCH | CONNECT | TRACE | UNKNOWN.
#[global] Instance http_method_eq_dec : EqDecision HttpMethod.
Proof. solve_decision. Defined.
End HttpMethod.
Import HttpMethod.

Module ParseState.
Inductive ParseState : Set :=
  START_LINE | HEADER_NAME | HEADER_VALUE | HEADER_COMPLETE | BODY | CHUNK_SIZE | CHUNK_DATA
  | CHUNK_TRAILER | COMPLETE | ERROR.
#[global] Instance parse_state_eq_dec : EqDecision ParseState.
Proof. solve_decision. Defined.
End ParseState.
Import ParseState.

Record HttpVersion : Set := mkVersion { major : Z; minor : Z }.

Definition version_to_string (v : HttpVersion) : string :=
  "HTTP/" +:+ to_string (major v) +:+ "." +:+ to_string (minor v).

Definition is_keep_alive_default (v : HttpVersion) : bool :=
  (1 <? major v) || ((major v =? 1) && (1 <=? minor v)).

Abbreviation HttpHeaders := (list (string * string)).

(** [emplace] on the multimap: after the entries whose keys are not greater. *)
Fixpoint mm_emplace (k v : string) (l : HttpHeaders) : HttpHeaders :=
  match l with
  | [] => [(k, v)]
  | x :: l' => if bool_decide (String.le x.1 k) then x :: mm_emplace k v l' else (k, v) :: l
  end.
Fixpoint mm_find (k : string) (l : HttpHeaders) : option string :=
  match l with
  | [] => None
  | (k', v) :: l' => if String.eqb k' k then Some v else mm_find k l'
  end.

(** ** Characters and numbers *)

Definition to_lower (str : string) : string := map_string tolower str.

Definition is_blank (c : ascii) : bool := char_eqb c " " || char_eqb c tab.

(** The longest prefix that is a decimal number, after white space and a sign. *)
Definition strtol (s : string) : option Z :=
  let s := lstrip is_space s in
  let '(sign, s) := match s with
                    | String c s' => if char_eqb c "-" then (-1, s')
                                     else if char_eqb c "+" then (1, s') else (1, s)
                    | EmptyString => (1, s)
                    end in
  d ← NilZero.uint_of_string (span is_digit s).1; Some (sign * Z.of_uint d).

(** [std::stoll]; [None] is the exception. *)
Definition stoll (s : string) : option Z :=
  v ← strtol s; if bool_decide (- 2 ^ 63 <= v < 2 ^ 63) then Some v else None.

Definition hex_digit (c : ascii) : option Z :=
  let n := Z.of_nat (nat_of_ascii c) in
  if (48 <=? n) && (n <=? 57) then Some (n - 48)
  else if (65 <=? n) && (n <=? 70) then Some (n - 55)
  else if (97 <=? n) && (n <=? 102) then Some (n - 87)
  else None.

Fixpoint hex_prefix (acc : Z) (s : string) : Z :=
  match s with
  | EmptyString => acc
  | String c s' => match hex_digit c with Some d => hex_prefix (acc * 16 + d) s' | None => acc end
  end.

(** [std::stoull(s, nullptr, 16)]: white space, a sign (which negates modulo 2^64), an
    optional 0x when a digit follows, digits. *)
Definition stoull16 (s : string) : option Z :=
  let s := lstrip is_space s in
  let '(neg, s) := match s with
                   | String c s' => if char_eqb c "-" then (true, s')
                                    else if char_eqb c "+" then (false, s') else (false, s)
                   | EmptyString => (false, s)
                   end in
  let s := match s with
           | String z (String x ((String c _) as s')) =>
               if char_eqb z "0" && (char_eqb x "x" || char_eqb x "X") && bool_decide (is_Some (hex_digit c))
               then s' else s
           | _ => s
           end in
  match s with
  | String c _ =>
      match hex_digit c with
      | None => None
      | Some _ =>
          let v := hex_prefix 0 s in
          if u64_max <=? v then None else Some (if neg : bool then wrap64 (- v) else v)
      end
  | EmptyString => None
  end.

(** ** Methods and reason phrases *)

Definition method_to_string (m : HttpMethod) : string :=
  match m with
  | GET => "GET" | POST => "POST" | PUT => "PUT" | DELETE => "DELETE" | HEAD => "HEAD"
  | OPTIONS => "OPTIONS" | PATCH => "PATCH" | CONNECT => "CONNECT" | TRACE => "TRACE"
  | UNKNOWN => "UNKNOWN"
  end%string.

Definition string_to_method (m : string) : HttpMethod :=
  if String.eqb m "GET" then GET else if String.eqb m "POST" then POST
  else if String.eqb m "PUT" then PUT else if String.eqb m "DELETE" then DELETE
  else if String.eqb m "HEAD" then HEAD else if String.eqb m "OPTIONS" then OPTIONS
  else if String.eqb m "PATCH" then PATCH else if String.eqb m "CONNECT" then CONNECT
  else if String.eqb m "TRACE" then TRACE else UNKNOWN.

Definition reason_phrases : list (Z * string) :=
  [(100, "Continue"); (101, "Switching Protocols"); (200, "OK"); (201, "Created"); (202, "Accepted");
   (204, "No Content"); (206, "Partial Content"); (301, "Moved Permanently"); (302, "Found");
   (304, "Not Modified"); (400, "Bad Request"); (401, "Unauthorized"); (403, "Forbidden");
   (404, "Not Found"); (405, "Method Not Allowed"); (409, "Conflict"); (412, "Precondition Failed");
   (413, "Payload Too Large"); (500, "Internal Server Error"); (501, "Not Implemented");
   (502, "Bad Gateway"); (503, "Service Unavailable"); (504, "Gateway Timeout")]%string.

Definition get_default_reason_phrase (status_code : Z) : string :=
  match find_first (fun p => p.1 =? status_code) reason_phrases with
  | Some p => p.2
  | None => "Unknown Status"
  end.

(** ** The parser *)

Definition MAX_LINE_LENGTH : Z := 8192.
Definition MAX_HEADER_SIZE : Z := 65536.

Record HttpParser (St : Type) : Type := mkParser {
  is_response_ : bool;
  state_ : ParseState;
  version_ : HttpVersion;
  headers_ : HttpHeaders;
  body_ : bytes;
  error_message_ : string;
  buffer_ : bytes;
  expected_body_length_ : Z;
  chunk_remaining_ : Z;
  chunked_encoding_ : bool;
  headers_complete_ : bool;
  start_ : St }.
Arguments mkParser {St}.
Arguments is_response_ {St} _.
Arguments state_ {St} _.
Arguments version_ {St} _.
Arguments headers_ {St} _.
Arguments body_ {St} _.
Arguments error_message_ {St} _.
Arguments buffer_ {St} _.
Arguments expected_body_length_ {St} _.
Arguments chunk_remaining_ {St} _.
Arguments chunked_encoding_ {St} _.
Arguments headers_complete_ {St} _.
Arguments start_ {St} _.

(** [parse_start_line] assigns to the version and to the members of the derived class,
    also when it fails. *)
Class StartLine (St : Type) : Type :=
  parse_start_line : string -> HttpVersion -> St -> bool * HttpVersion * St.

Section parser.
Context {St : Type} `{StartLine St}.
Implicit Types (p : HttpParser St).

Definition HttpParser_new (is_response : bool) (st : St) : HttpParser St :=
  mkParser is_response START_LINE (mkVersion 1 1) [] [] "" [] 0 0 false false st.

Definition reset : cpp (HttpParser St) unit := modify (fun p =>
  mkParser (is_response_ p) START_LINE (mkVersion 1 1) [] [] "" [] 0 0 false false (start_ p)).

Definition set_state (s : ParseState) p : HttpParser St :=
  mkParser (is_response_ p) s (version_ p) (headers_ p) (body_ p) (error_message_ p) (buffer_ p)
    (expected_body_length_ p) (chunk_remaining_ p) (chunked_encoding_ p) (headers_complete_ p) (start_ p).
Definition set_start (v : HttpVersion) (st : St) p : HttpParser St :=
  mkParser (is_response_ p) (state_ p) v (headers_ p) (body_ p) (error_message_ p) (buffer_ p)
    (expected_body_length_ p) (chunk_remaining_ p) (chunked_encoding_ p) (headers_complete_ p) st.
Definition set_headers (h : HttpHeaders) p : HttpParser St :=
  mkParser (is_response_ p) (state_ p) (version_ p) h (body_ p) (error_message_ p) (buffer_ p)
    (expected_body_length_ p) (chunk_remaining_ p) (chunked_encoding_ p) (headers_complete_ p) (start_ p).
Definition set_body (b : bytes) p : HttpParser St :=
  mkParser (is_response_ p) (state_ p) (version_ p) (headers_ p) b (error_message_ p) (buffer_ p)
    (expected_body_length_ p) (chunk_remaining_ p) (chunked_encoding_ p) (headers_complete_ p) (start_ p).
Definition set_buffer (b : bytes) p : HttpParser St :=
  mkParser (is_response_ p) (state_ p) (version_ p) (headers_ p) (body_ p) (error_message_ p) b
    (expected_body_length_ p) (chunk_remaining_ p) (chunked_encoding_ p) (headers_complete_ p) (start_ p).
Definition set_expected (n : Z) p : HttpParser St :=
  mkParser (is_response_ p) (state_ p) (version_ p) (headers_ p) (body_ p) (error_message_ p) (buffer_ p)
    n (chunk_remaining_ p) (chunked_encoding_ p) (headers_complete_ p) (start_ p).
Definition set_remaining (n : Z) p : HttpParser St :=
  mkParser (is_response_ p) (state_ p) (version_ p) (headers_ p) (body_ p) (error_message_ p) (buffer_ p)
    (expected_body_length_ p) n (chunked_encoding_ p) (headers_complete_ p) (start_ p).
Definition set_complete (chunked complete : bool) p : HttpParser St :=
  mkParser (is_response_ p) (state_ p) (version_ p) (headers_ p) (body_ p) (error_message_ p) (buffer_ p)
    (expected_body_length_ p) (chunk_remaining_ p) chunked complete (start_ p).

Definition set_error (message : string) : cpp (HttpParser St) unit := modify (fun p =>
  mkParser (is_response_ p) ERROR (version_ p) (headers_ p) (body_ p) message (buffer_ p)
    (expected_body_length_ p) (chunk_remaining_ p) (chunked_encoding_ p) (headers_complete_ p) (start_ p)).

(** ** Accessors *)

Definition is_complete p : bool := bool_decide (state_ p = COMPLETE).
Definition has_error p : bool := bool_decide (state_ p = ERROR).
Definition get_header p (name : string) : string := default "" (mm_find (to_lower name) (headers_ p)).
Definition has_header p (name : string) : bool :=
  match mm_find (to_lower name) (headers_ p) with Some _ => true | None => false end.

(** The flag that only the parser itself sets. *)
Definition is_chunked p : bool := chunked_encoding_ p.

Definition is_keep_alive p : bool :=
  let lower_conn := to_lower (get_header p "connection") in
  if String.eqb lower_conn "close" then false
  else if String.eqb lower_conn "keep-alive" then true
  else is_keep_alive_default (version_ p).

Definition get_content_length p : Z :=
  let length_str := get_header p "content-length" in
  if String.eqb length_str "" then -1 else default (-1) (stoll length_str).

Definition should_read_body p : bool :=
  if negb (headers_complete_ p) then false
  else if is_chunked p then true
  else 0 <? get_content_length p.

(** ** Lines *)

(** The callers never pass an empty range. *)
Fixpoint find_line_end (l : bytes) : option nat :=
  match l with
  | c :: ((c' :: _) as l') =>
      if Ascii.eqb c cr && Ascii.eqb c' nl then Some 0%nat else S <$> find_line_end l'
  | _ => None
  end.

Definition chomp (l : bytes) : bytes :=
  match last l with Some c => if Ascii.eqb c cr then removelast l else l | None => l end.

Definition trim (s : string) : string := rstrip is_blank (lstrip is_blank s).

Definition parse_header_line (line : string) : cpp (HttpParser St) bool :=
  match split_at ":" line with
  | None => mret false
  | Some (n, v) =>
      let name := trim n in
      let value := trim v in
      if String.eqb name "" then mret false else
      modify (fun p => set_headers (mm_emplace (to_lower name) value (headers_ p)) p) ;;
      mret true
  end.

(** ** The handlers of the states: result and number of characters consumed *)

Definition parse_start_line_state (data : bytes) : cpp (HttpParser St) (Z * nat) :=
  match find_line_end data with
  | None =>
      modify (fun p => set_buffer (buffer_ p ++ data) p) ;;
      b ← gets buffer_;
      if MAX_LINE_LENGTH <? Z.of_nat (length b) then set_error "起始行过长" ;; mret (-1, length data)
      else mret (0, length data)
  | Some line_end =>
      p ← get;
      let line := chomp (buffer_ p ++ take line_end data) in
      let '(ok, v, st) := parse_start_line (string_of_list_ascii line) (version_ p) (start_ p) in
      modify (set_start v st) ;;
      if negb ok then set_error "起始行格式错误" ;; mret (-1, (line_end + 2)%nat) else
      modify (set_buffer []) ;;
      modify (set_state HEADER_NAME) ;;
      mret (1, (line_end + 2)%nat)
  end.

Definition parse_header_name_state (data : bytes) : cpp (HttpParser St) (Z * nat) :=
  match find_line_end data with
  | None =>
      modify (fun p => set_buffer (buffer_ p ++ data) p) ;;
      b ← gets buffer_;
      if MAX_HEADER_SIZE <? Z.of_nat (length b) then set_error "头部过大" ;; mret (-1, length data)
      else mret (0, length data)
  | Some line_end =>
      p ← get;
      let line := chomp (buffer_ p ++ take line_end data) in
      modify (set_buffer []) ;;
      match line with
      | [] =>
          modify (fun p => set_complete (chunked_encoding_ p) true p) ;;
          p ← get;
          (if is_chunked p then
             modify (fun p => set_complete true (headers_complete_ p) p) ;; modify (set_state CHUNK_SIZE)
           else if should_read_body p then
             if 0 <? get_content_length p then
               modify (set_expected (get_content_length p)) ;; modify (set_state BODY)
             else modify (set_state COMPLETE)
           else modify (set_state COMPLETE)) ;;
          mret (1, (line_end + 2)%nat)
      | _ :: _ =>
          ok ← parse_header_line (string_of_list_ascii line);
          if negb ok then set_error "头部字段格式错误" ;; mret (-1, (line_end + 2)%nat)
          else mret (1, (line_end + 2)%nat)
      end
  end.

Definition parse_header_value_state (data : bytes) : cpp (HttpParser St) (Z * nat) := mret (0, 0%nat).

Definition parse_body_state (data : bytes) : cpp (HttpParser St) (Z * nat) :=
  p ← get;
  let remaining_body := wrap64 (expected_body_length_ p - Z.of_nat (length (body_ p))) in
  let to_consume := Z.to_nat (Z.min (Z.of_nat (length data)) remaining_body) in
  modify (fun p => set_body (body_ p ++ take to_consume data) p) ;;
  p ← get;
  (if expected_body_length_ p <=? Z.of_nat (length (body_ p)) then modify (set_state COMPLETE) else mret tt) ;;
  mret (if Nat.ltb 0 to_consume then 1 else 0, to_consume).

Definition parse_chunk_size_state (data : bytes) : cpp (HttpParser St) (Z * nat) :=
  match find_line_end data with
  | None =>
      modify (fun p => set_buffer (buffer_ p ++ data) p) ;;
      b ← gets buffer_;
      if 32 <? Z.of_nat (length b) then set_error "chunk大小行格式错误" ;; mret (-1, length data)
      else mret (0, length data)
  | Some line_end =>
      p ← get;
      let line := string_of_list_ascii (chomp (buffer_ p ++ take line_end data)) in
      modify (set_buffer []) ;;
      let size_str := match split_at ";" line with Some (a, _) => a | None => line end in
      match stoull16 size_str with
      | None => set_error "chunk大小格式错误" ;; mret (-1, (line_end + 2)%nat)
      | Some n =>
          modify (set_remaining n) ;;
          modify (set_state (if n =? 0 then CHUNK_TRAILER else CHUNK_DATA)) ;;
          mret (1, (line_end + 2)%nat)
      end
  end.

Definition parse_chunk_data_state (data : bytes) : cpp (HttpParser St) (Z * nat) :=
  p ← get;
  let to_consume := Z.to_nat (Z.min (Z.of_nat (length data)) (chunk_remaining_ p)) in
  modify (fun p => set_body (body_ p ++ take to_consume data) p) ;;
  modify (set_remaining (chunk_remaining_ p - Z.of_nat to_consume)) ;;
  p ← get;
  if chunk_remaining_ p =? 0 then
    match drop to_consume data with
    | c :: c' :: _ =>
        if Ascii.eqb c cr && Ascii.eqb c' nl then modify (set_state CHUNK_SIZE) ;; mret (1, (to_consume + 2)%nat)
        else set_error "chunk数据后缺少CRLF" ;; mret (-1, to_consume)
    | _ => modify (set_state CHUNK_SIZE) ;; mret (if Nat.ltb 0 to_consume then 1 else 0, to_consume)
    end
  else mret (if Nat.ltb 0 to_consume then 1 else 0, to_consume).

Definition parse_chunk_trailer_state (data : bytes) : cpp (HttpParser St) (Z * nat) :=
  match find_line_end data with
  | None => modify (fun p => set_buffer (buffer_ p ++ data) p) ;; mret (0, length data)
  | Some line_end =>
      p ← get;
      let line := chomp (buffer_ p ++ take line_end data) in
      modify (set_buffer []) ;;
      match line with
      | [] => modify (set_state COMPLETE) ;; mret (1, (line_end + 2)%nat)
      | _ :: _ => _ ← parse_header_line (string_of_list_ascii line); mret (1, (line_end + 2)%nat)
      end
  end.

(** ** The loop *)

Definition parse_state (data : bytes) : cpp (HttpParser St) (Z * nat) :=
  s ← gets state_;
  match s with
  | START_LINE => parse_start_line_state data
  | HEADER_NAME => parse_header_name_state data
  | HEADER_VALUE => parse_header_value_state data
  | BODY => parse_body_state data
  | CHUNK_SIZE => parse_chunk_size_state data
  | CHUNK_DATA => parse_chunk_data_state data
  | CHUNK_TRAILER => parse_chunk_trailer_state data
  | _ => set_error "未知的解析状态" ;; mret (-1, 0%nat)
  end.

Definition stopped (s : ParseState) : bool :=
  match s with COMPLETE | ERROR => true | _ => false end.

(** [data] is what has not been consumed; the number is [total_consumed]. *)
Fixpoint parse_loop (fuel : nat) (data : bytes) (total : nat) : cpp (HttpParser St) Z :=
  s ← gets state_;
  match data with
  | [] => mret (to_int (Z.of_nat total))
  | _ :: _ =>
      if stopped s then mret (to_int (Z.of_nat total)) else
      match fuel with
      | O => undefined "out of fuel"
      | S fuel' =>
          r ← parse_state data;
          if (r : Z * nat).1 <? 0 then mret (-1) else
          if Nat.eqb r.2 0 && (r.1 =? 0) then mret (to_int (Z.of_nat (total + r.2)))
          else parse_loop fuel' (drop r.2 data) (total + r.2)
      end
  end.

(** Every turn but the last consumes a character. *)
Definition parse (data : bytes) : cpp (HttpParser St) Z :=
  s ← gets state_;
  if stopped s then mret 0 else parse_loop (S (length data)) data 0.
End parser.

(** ** Requests *)

Record RequestLine : Set := mkRequestLine { method_ : HttpMethod; uri_ : string; path_ : string; query_ : string }.

(** Path and query of a URI. *)
Definition parse_uri (uri : string) : string * string :=
  match split_at "?" uri with Some (a, b) => (a, b) | None => (uri, "") end.

Definition stoi_opt (s : string) : option Z := match stoi s with inr z => Some z | inl _ => None end.

(** The version; the major number is assigned before the minor one is read. *)
Definition parse_version (version_str : string) (v : HttpVersion) : bool * HttpVersion :=
  if negb (String.prefix "HTTP/" version_str) then (false, v) else
  match split_at "." (String.substring 5 (String.length version_str - 5) version_str) with
  | None => (false, v)
  | Some (a, b) =>
      match stoi_opt a with
      | None => (false, v)
      | Some ma =>
          match stoi_opt b with
          | None => (false, mkVersion ma (minor v))
          | Some mi => (true, mkVersion ma mi)
          end
      end
  end.

#[global] Instance request_start_line : StartLine RequestLine := fun line v st =>
  let w1 := next_word line in
  let w2 := next_word w1.2 in
  let w3 := next_word w2.2 in
  if String.eqb w1.1 "" || String.eqb w2.1 "" || String.eqb w3.1 "" then (false, v, st) else
  let m := string_to_method w1.1 in
  let st := mkRequestLine m (uri_ st) (path_ st) (query_ st) in
  if bool_decide (m = UNKNOWN) then (false, v, st) else
  let pq := parse_uri w2.1 in
  let st := mkRequestLine m w2.1 pq.1 pq.2 in
  let r := parse_version w3.1 v in
  (r.1, r.2, st).

(** The derived class leaves [method_] uninitialised. *)
Definition HttpRequestParser_new (junk : HttpMethod) : HttpParser RequestLine :=
  HttpParser_new false (mkRequestLine junk "" "" "").

(** ** Responses *)

Record StatusLine : Set := mkStatusLine { status_code_ : Z; reason_phrase_ : string }.

#[global] Instance response_start_line : StartLine StatusLine := fun line v st =>
  let w1 := next_word line in
  let w2 := next_word w1.2 in
  if String.eqb w1.1 "" || String.eqb w2.1 "" then (false, v, st) else
  let r := parse_version w1.1 v in
  if negb r.1 then (false, r.2, st) else
  match stoi_opt w2.1 with
  | None => (false, r.2, st)
  | Some code =>
      (* the first occurrence of the code in the line, wherever it is *)
      let status_end := match String.index 0 w2.1 line with
                        | Some i => (i + String.length w2.1)%nat | None => 0%nat end in
      let reason := if Nat.ltb status_end (String.length line)
                    then String.substring (status_end + 1) (String.length line - (status_end + 1)) line
                    else get_default_reason_phrase code in
      (true, r.2, mkStatusLine code reason)
  end.

Definition HttpResponseParser_new (junk : Z) : HttpParser StatusLine :=
  HttpParser_new true (mkStatusLine junk "").
