(* ===== verification/HttpMessage.v ===== *)
(** * HttpMessage: requests and responses of StdHTTPS

    Models src/zsxq-cpp-ai/StdHTTPS/include/http_message.h and src/http_message.cpp: the
    base class [HttpMessage] at the top level, [HttpRequest] and [HttpResponse] as
    modules. A message owns a parser (HttpParser.v) and copies its fields out when the
    parser reports a complete message. Serialised messages and bodies are lists of
    characters. *)

From Stdlib Require Import Ascii String.
From S2P Require Import Prelude Text HttpParser.
Import HttpMethod.

Local Open Scope Z_scope.

(** ** The base class *)

Record HttpMessage : Set := mkMessage {
  is_response_ : bool;
  version_ : HttpVersion;
  headers_ : HttpHeaders;
  body_ : bytes }.

Definition HttpMessage_new (is_response : bool) : HttpMessage := mkMessage is_response (mkVersion 1 1) [] [].

Definition set_version (v : HttpVersion) (m : HttpMessage) : HttpMessage :=
  mkMessage (is_response_ m) v (headers_ m) (body_ m).
Definition get_version_string (m : HttpMessage) : string := version_to_string (version_ m).

Definition normalize_header_name (name : string) : string := map_string tolower name.

(** [erase] of the [equal_range] of a key. *)
Definition mm_erase (k : string) (l : HttpHeaders) : HttpHeaders :=
  filter (fun kv => kv.1 <> k) l.

Definition with_headers (h : HttpHeaders) (m : HttpMessage) : HttpMessage :=
  mkMessage (is_response_ m) (version_ m) h (body_ m).

Definition set_header (name value : string) (m : HttpMessage) : HttpMessage :=
  let norm_name := normalize_header_name name in
  with_headers (mm_emplace norm_name value (mm_erase norm_name (headers_ m))) m.

Definition add_header (name value : string) (m : HttpMessage) : HttpMessage :=
  with_headers (mm_emplace (normalize_header_name name) value (headers_ m)) m.

Definition get_header (m : HttpMessage) (name : string) : string :=
  default "" (mm_find (normalize_header_name name) (headers_ m)).

Definition get_headers (m : HttpMessage) (name : string) : list string :=
  (filter (fun kv => kv.1 = normalize_header_name name) (headers_ m)).*2.

Definition has_header (m : HttpMessage) (name : string) : bool :=
  match mm_find (normalize_header_name name) (headers_ m) with Some _ => true | None => false end.

Definition remove_header (name : string) (m : HttpMessage) : HttpMessage :=
  with_headers (mm_erase (normalize_header_name name) (headers_ m)) m.

Definition clear_headers (m : HttpMessage) : HttpMessage := with_headers [] m.

Definition set_body (body : bytes) (m : HttpMessage) : HttpMessage :=
  mkMessage (is_response_ m) (version_ m) (headers_ m) body.
Definition append_body (data : bytes) (m : HttpMessage) : HttpMessage := set_body (body_ m ++ data) m.
Definition clear_body (m : HttpMessage) : HttpMessage := set_body [] m.
Definition get_body_size (m : HttpMessage) : Z := Z.of_nat (length (body_ m)).

Definition is_chunked (m : HttpMessage) : bool :=
  contains "chunked" (map_string tolower (get_header m "transfer-encoding")).

Definition set_content_length (length : Z) : HttpMessage -> HttpMessage :=
  set_header "content-length" (to_string length).

Definition update_content_length (m : HttpMessage) : HttpMessage :=
  if negb (is_chunked m) then set_content_length (get_body_size m) m else m.

Definition set_chunked (chunked : bool) (m : HttpMessage) : HttpMessage :=
  if chunked then remove_header "content-length" (set_header "transfer-encoding" "chunked" m)
  else update_content_length (remove_header "transfer-encoding" m).

Definition is_keep_alive (m : HttpMessage) : bool :=
  let connection := map_string tolower (get_header m "connection") in
  if String.eqb connection "close" then false
  else if String.eqb connection "keep-alive" then true
  else is_keep_alive_default (version_ m).

Definition set_keep_alive (keep_alive : bool) (m : HttpMessage) : HttpMessage :=
  if keep_alive then
    if negb (is_keep_alive_default (version_ m)) then set_header "connection" "keep-alive" m else m
  else set_header "connection" "close" m.

Definition get_content_length (m : HttpMessage) : Z :=
  let length_str := get_header m "content-length" in
  if String.eqb length_str "" then -1 else default (-1) (stoll length_str).

Definition reset (m : HttpMessage) : HttpMessage := clear_body (clear_headers m).

(** ** Serialisation of the headers *)

Definition isalpha (c : ascii) : bool :=
  let n := nat_of_ascii c in (Nat.leb 65 n && Nat.leb n 90) || (Nat.leb 97 n && Nat.leb n 122).

Fixpoint format_name (capitalize_next : bool) (s : string) : string :=
  match s with
  | EmptyString => EmptyString
  | String c s' =>
      if capitalize_next && isalpha c then String (toupper c) (format_name false s')
      else if char_eqb c "-" then String c (format_name true s')
      else String (tolower c) (format_name capitalize_next s')
  end.

Definition header_line (h : string * string) : string := format_name true h.1 +:+ ": " +:+ h.2.

Abbreviation text := list_ascii_of_string.

Fixpoint build_headers_loop (l : HttpHeaders) : bytes :=
  match l with
  | [] => text crlf
  | h :: l' => text (header_line h) ++ text crlf ++ build_headers_loop l'
  end.
Definition build_headers (m : HttpMessage) : bytes := build_headers_loop (headers_ m).

(** What the output operators print of a header. *)
Definition print_headers (l : HttpHeaders) : bytes :=
  concat (map (fun h => text ("  " +:+ h.1 +:+ ": " +:+ h.2 +:+ String nl "")) l).
Definition print_body (m : HttpMessage) : bytes :=
  match body_ m with
  | [] => []
  | _ :: _ => text ("消息体 (" +:+ to_string (get_body_size m) +:+ " 字节):" +:+ String nl "") ++ body_ m ++ [nl]
  end.

(** ** Requests *)

Module HttpRequest.

(** The four own members are those of the parser's class. *)
Record HttpRequest : Set := mkRequest {
  message : HttpMessage;
  parser_ : HttpParser RequestLine;
  request : RequestLine }.

Definition get_method (r : HttpRequest) : HttpMethod := method_ (request r).
Definition get_uri (r : HttpRequest) : string := uri_ (request r).
Definition get_path (r : HttpRequest) : string := path_ (request r).
Definition get_query (r : HttpRequest) : string := query_ (request r).

(** [parse_uri] after [uri_] and [method_] have been set. *)
Definition with_uri (m : HttpMethod) (uri : string) : RequestLine :=
  let pq := HttpParser.parse_uri uri in mkRequestLine m uri pq.1 pq.2.

Definition HttpRequest_new (junk : HttpMethod) : HttpRequest :=
  mkRequest (HttpMessage_new false) (HttpRequestParser_new junk) (mkRequestLine GET "" "" "").
Definition HttpRequest_make (junk method : HttpMethod) (uri : string) (version : HttpVersion) : HttpRequest :=
  mkRequest (set_version version (HttpMessage_new false)) (HttpRequestParser_new junk) (with_uri method uri).
Definition HttpRequest_make_named (junk : HttpMethod) (method uri : string) (version : HttpVersion) : HttpRequest :=
  HttpRequest_make junk (string_to_method method) uri version.

Definition on_message (f : HttpMessage -> HttpMessage) (r : HttpRequest) : HttpRequest :=
  mkRequest (f (message r)) (parser_ r) (request r).

Definition set_method (m : HttpMethod) (r : HttpRequest) : HttpRequest :=
  mkRequest (message r) (parser_ r) (mkRequestLine m (get_uri r) (get_path r) (get_query r)).
Definition set_method_named (m : string) (r : HttpRequest) : HttpRequest := set_method (string_to_method m) r.
Definition get_method_string (r : HttpRequest) : string := method_to_string (get_method r).
Definition set_uri (uri : string) (r : HttpRequest) : HttpRequest :=
  mkRequest (message r) (parser_ r) (with_uri (get_method r) uri).

Definition add_query_pair (params : gmap string string) (pair : string) : gmap string string :=
  match split_at "=" pair with
  | Some (key, value) => <[key := value]> params
  | None => <[pair := ""%string]> params
  end.
Definition get_query_params (r : HttpRequest) : gmap string string :=
  if String.eqb (get_query r) "" then ∅ else fold_left add_query_pair (getlines "&" (get_query r)) ∅.
Definition get_query_param (r : HttpRequest) (name : string) : string :=
  default "" (get_query_params r !! name).

Definition create_get (junk : HttpMethod) (uri : string) (version : HttpVersion) : HttpRequest :=
  on_message update_content_length (HttpRequest_make junk GET uri version).
Definition create_post (junk : HttpMethod) (uri : string) (body : bytes) (content_type : string)
    (version : HttpVersion) : HttpRequest :=
  on_message update_content_length
    (on_message (set_header "content-type" content_type)
       (on_message (set_body body) (HttpRequest_make junk POST uri version))).

Definition build_start_line (r : HttpRequest) : string :=
  get_method_string r +:+ " " +:+ get_uri r +:+ " " +:+ get_version_string (message r).

Definition to_string (r : HttpRequest) : bytes :=
  text (build_start_line r) ++ text crlf ++ build_headers (message r) ++ body_ (message r).

Definition is_complete (r : HttpRequest) : bool := HttpParser.is_complete (parser_ r).
Definition has_error (r : HttpRequest) : bool := HttpParser.has_error (parser_ r).
Definition get_error (r : HttpRequest) : string := error_message_ (parser_ r).

(** A method of the owned parser. *)
Definition on_parser {A} (f : cpp (HttpParser RequestLine) A) : cpp HttpRequest A := fun r =>
  match f (parser_ r) with
  | Ok a p => Ok a (mkRequest (message r) p (request r))
  | Throw e p => Throw e (mkRequest (message r) p (request r))
  | Blocked p => Blocked (mkRequest (message r) p (request r))
  | Undefined w => Undefined w
  end.

Definition extract (r : HttpRequest) : HttpRequest :=
  let p := parser_ r in
  mkRequest (mkMessage (is_response_ (message r)) (HttpParser.version_ p) (HttpParser.headers_ p)
               (HttpParser.body_ p))
    p (mkRequestLine (method_ (start_ p)) (uri_ (start_ p)) (path_ (start_ p)) (query_ (start_ p))).

Definition parse (data : bytes) : cpp HttpRequest Z :=
  result ← on_parser (HttpParser.parse data);
  r ← get;
  (if (0 <? result) && is_complete r then modify extract else mret tt) ;;
  mret result.

Definition reset : cpp HttpRequest unit :=
  modify (on_message HttpMessage.reset) ;;
  on_parser HttpParser.reset ;;
  modify (fun r => mkRequest (message r) (parser_ r) (mkRequestLine GET "" "" "")).

Definition print (r : HttpRequest) : bytes :=
  let line l := text (l +:+ String nl "") in
  line "HTTP请求:" ++ line ("方法: " +:+ get_method_string r) ++ line ("URI: " +:+ get_uri r) ++
  line ("版本: " +:+ get_version_string (message r)) ++ line "头部:" ++
  print_headers (headers_ (message r)) ++ print_body (message r).

End HttpRequest.

(** ** Responses *)

Module HttpResponse.

Record HttpResponse : Set := mkResponse {
  message : HttpMessage;
  parser_ : HttpParser StatusLine;
  status : StatusLine }.

Definition get_status_code (r : HttpResponse) : Z := status_code_ (status r).
Definition get_reason_phrase (r : HttpResponse) : string := reason_phrase_ (status r).

Definition HttpResponse_new (junk : Z) : HttpResponse :=
  mkResponse (HttpMessage_new true) (HttpResponseParser_new junk) (mkStatusLine 200 "OK").
Definition HttpResponse_make (junk status_code : Z) (reason : string) (version : HttpVersion) : HttpResponse :=
  mkResponse (set_version version (HttpMessage_new true)) (HttpResponseParser_new junk)
    (mkStatusLine status_code (if String.eqb reason "" then get_default_reason_phrase status_code else reason)).

Definition on_message (f : HttpMessage -> HttpMessage) (r : HttpResponse) : HttpResponse :=
  mkResponse (f (message r)) (parser_ r) (status r).

(** The reason phrase is compared with the default of the code just assigned. *)
Definition set_status_code (status_code : Z) (r : HttpResponse) : HttpResponse :=
  let r := mkResponse (message r) (parser_ r) (mkStatusLine status_code (get_reason_phrase r)) in
  if String.eqb (get_reason_phrase r) "" ||
     String.eqb (get_reason_phrase r) (get_default_reason_phrase (get_status_code r))
  then mkResponse (message r) (parser_ r) (mkStatusLine (get_status_code r) (get_default_reason_phrase status_code))
  else r.
Definition set_reason_phrase (reason : string) (r : HttpResponse) : HttpResponse :=
  mkResponse (message r) (parser_ r) (mkStatusLine (get_status_code r) reason).

(** A body, its type and its length. *)
Definition with_content (body : bytes) (content_type : string) (r : HttpResponse) : HttpResponse :=
  on_message update_content_length
    (on_message (set_header "content-type" content_type) (on_message (set_body body) r)).

Definition create_ok (junk : Z) (body : bytes) (content_type : string) (version : HttpVersion) : HttpResponse :=
  with_content body content_type (HttpResponse_make junk 200 "OK" version).
Definition create_json (junk : Z) (json_body : bytes) (version : HttpVersion) : HttpResponse :=
  create_ok junk json_body "application/json" version.
Definition create_error (junk status_code : Z) (msg : string) (version : HttpVersion) : HttpResponse :=
  let reason := if String.eqb msg "" then get_default_reason_phrase status_code else msg in
  with_content
    (text ("<html><body><h1>" +:+ Text.to_string status_code +:+ " " +:+ reason +:+ "</h1></body></html>"))
    "text/html" (HttpResponse_make junk status_code reason version).

Definition build_start_line (r : HttpResponse) : string :=
  get_version_string (message r) +:+ " " +:+ Text.to_string (get_status_code r) +:+ " " +:+ get_reason_phrase r.

Definition to_string (r : HttpResponse) : bytes :=
  text (build_start_line r) ++ text crlf ++ build_headers (message r) ++ body_ (message r).

Definition is_complete (r : HttpResponse) : bool := HttpParser.is_complete (parser_ r).
Definition has_error (r : HttpResponse) : bool := HttpParser.has_error (parser_ r).
Definition get_error (r : HttpResponse) : string := error_message_ (parser_ r).

Definition on_parser {A} (f : cpp (HttpParser StatusLine) A) : cpp HttpResponse A := fun r =>
  match f (parser_ r) with
  | Ok a p => Ok a (mkResponse (message r) p (status r))
  | Throw e p => Throw e (mkResponse (message r) p (status r))
  | Blocked p => Blocked (mkResponse (message r) p (status r))
  | Undefined w => Undefined w
  end.

Definition extract (r : HttpResponse) : HttpResponse :=
  let p := parser_ r in
  mkResponse (mkMessage (is_response_ (message r)) (HttpParser.version_ p) (HttpParser.headers_ p)
                (HttpParser.body_ p))
    p (mkStatusLine (status_code_ (start_ p)) (reason_phrase_ (start_ p))).

Definition parse (data : bytes) : cpp HttpResponse Z :=
  result ← on_parser (HttpParser.parse data);
  r ← get;
  (if (0 <? result) && is_complete r then modify extract else mret tt) ;;
  mret result.

Definition reset : cpp HttpResponse unit :=
  modify (on_message HttpMessage.reset) ;;
  on_parser HttpParser.reset ;;
  modify (fun r => mkResponse (message r) (parser_ r) (mkStatusLine 200 "OK")).

Definition print (r : HttpResponse) : bytes :=
  let line l := text (l +:+ String nl "") in
  line "HTTP响应:" ++
  line ("状态: " +:+ Text.to_string (get_status_code r) +:+ " " +:+ get_reason_phrase r) ++
  line ("版本: " +:+ get_version_string (message r)) ++ line "头部:" ++
  print_headers (headers_ (message r)) ++ print_body (message r).

End HttpResponse.
