(* ===== verification/HttpStream.v ===== *)
(** * HttpStream: the parser as a function of the whole input

    [feed] is the loop of [HttpParser::parse] as a pure function: what is consumed
    ([None] after an error) and the parser left behind. [parse] computes it
    ([parse_feed]), so the parser always returns; [feed_app] shows that input may
    arrive in pieces. *)

From Stdlib Require Import Ascii String.
From S2P Require Import Prelude Text HttpParser.
Import ParseState.

Local Open Scope Z_scope.

Section stream.
Context {St : Type} `{StartLine St}.
Implicit Types (p : HttpParser St) (d : bytes).

(** ** One turn *)

(** The parser after [set_error]. *)
Definition failed (message : string) p : HttpParser St :=
  match set_error message p with Ok _ p' => p' | _ => p end.

(** What a complete line does in the two states that read lines. *)
Definition on_start_line (line : bytes) p : bool * HttpParser St :=
  let '(ok, v, st) := parse_start_line (string_of_list_ascii line) (version_ p) (start_ p) in
  let p := set_start v st p in
  if ok : bool then (true, set_state HEADER_NAME (set_buffer [] p))
  else (false, failed "起始行格式错误" p).

Definition on_headers_end p : HttpParser St :=
  let p := set_complete (chunked_encoding_ p) true (set_buffer [] p) in
  if 0 <? get_content_length p then set_state BODY (set_expected (get_content_length p) p)
  else set_state COMPLETE p.

Definition on_header_line (line : bytes) p : bool * HttpParser St :=
  match line with
  | [] => (true, on_headers_end p)
  | _ :: _ =>
      match parse_header_line (string_of_list_ascii line) (set_buffer [] p) with
      | Ok true p => (true, p)
      | Ok false p => (false, failed "头部字段格式错误" p)
      | _ => (false, set_buffer [] p)
      end
  end.

Definition on_line (line : bytes) p : bool * HttpParser St :=
  match state_ p with START_LINE => on_start_line line p | _ => on_header_line line p end.

Definition limit (s : ParseState) : Z * string :=
  match s with START_LINE => (MAX_LINE_LENGTH, "起始行过长") | _ => (MAX_HEADER_SIZE, "头部过大") end%string.

(** Data without a line end goes to the buffer. *)
Definition on_partial (d : bytes) p : bool * HttpParser St :=
  let p' := set_buffer (buffer_ p ++ d) p in
  if (limit (state_ p)).1 <? Z.of_nat (length (buffer_ p'))
  then (false, failed (limit (state_ p)).2 p')
  else (true, p').

(** The number of characters of the body that are still expected. *)
Definition missing p : nat := Z.to_nat (expected_body_length_ p - Z.of_nat (length (body_ p))).

Definition on_body (d : bytes) p : HttpParser St :=
  let p := set_body (body_ p ++ take (missing p) d) p in
  if expected_body_length_ p <=? Z.of_nat (length (body_ p)) then set_state COMPLETE p else p.

Definition step (d : bytes) p : option nat * HttpParser St :=
  match state_ p with
  | BODY => (Some (Nat.min (length d) (missing p)), on_body d p)
  | _ =>
      match find_line_end d with
      | Some k => let r := on_line (chomp (buffer_ p ++ take k d)) p in
                  (if r.1 then Some (k + 2)%nat else None, r.2)
      | None => let r := on_partial d p in (if r.1 then Some (length d) else None, r.2)
      end
  end.

(** The states of a message whose transfer coding is not chunked. *)
Definition plain p : Prop :=
  chunked_encoding_ p = false /\
  match state_ p with
  | START_LINE | HEADER_NAME => body_ p = []
  | BODY => (0 < missing p)%nat /\ Z.of_nat (length (body_ p)) <= expected_body_length_ p < 2 ^ 63
  | COMPLETE | ERROR => True
  | _ => False
  end.

Lemma find_line_end_bound d k : find_line_end d = Some k -> (k + 2 <= length d)%nat.
Proof.
  revert k. induction d as [|c [|c' d] IH]; intros k E; [done..|].
  cbn in E. destruct (_ && _).
  - simplify_eq. cbn. lia.
  - apply fmap_Some in E as (j & E & ->). apply IH in E. cbn in *. lia.
Qed.

Lemma get_content_length_bound p : get_content_length p < 2 ^ 63.
Proof.
  unfold get_content_length. case_match; [lia|]. unfold stoll.
  destruct (strtol _) as [v|]; cbn; [|lia]. case_bool_decide; cbn; lia.
Qed.

Lemma body_consumed d p : Z.of_nat (length (body_ p)) <= expected_body_length_ p < 2 ^ 63 ->
  Z.to_nat (Z.min (Z.of_nat (length d)) (wrap64 (expected_body_length_ p - Z.of_nat (length (body_ p))))) =
  Nat.min (length d) (missing p).
Proof. intros ?. rewrite wrap64_small by lia. unfold missing. lia. Qed.

Lemma take_min {A} (l : list A) n : take (Nat.min (length l) n) l = take n l.
Proof. destruct (decide (n <= length l)%nat); [by rewrite Nat.min_r by lia|]. rewrite !take_ge by lia. done. Qed.

(** ** [parse_state] is [step] *)

(** A turn that ends in [o], for the outcome [s] of the pure step. *)
Definition turn (o : result (HttpParser St) (Z * nat)) (s : option nat * HttpParser St) : Prop :=
  exists r n, o = Ok (r, n) s.2 /\
    match s.1 with Some n' => 0 <= r /\ n = n' /\ (0 < n)%nat | None => r = -1 end.

Lemma turn_ok r n p : 0 <= r -> (0 < n)%nat -> turn (Ok (r, n) p) (Some n, p).
Proof. by exists r, n. Qed.
Lemma turn_error n p : turn (Ok (-1, n) p) (None, p).
Proof. by exists (-1), n. Qed.

Lemma parse_header_line_returns l p : exists b p', parse_header_line l p = Ok b p'.
Proof.
  unfold parse_header_line. destruct (split_at _ _) as [[n v]|]; [|by do 2 eexists].
  case_match; by do 2 eexists.
Qed.

Lemma start_line_turn d p : state_ p = START_LINE -> d <> [] -> turn (parse_start_line_state d p) (step d p).
Proof.
  intros E Hd. assert (0 < length d)%nat by (destruct d; cbn; [done|lia]).
  unfold step, parse_start_line_state, on_line, on_partial. rewrite E. destruct (find_line_end d) as [k|].
  - rewrite (bind_Ok get _ p p p eq_refl). cbv zeta. unfold on_start_line.
    destruct (parse_start_line _ _ _) as [[[] v] st]; [apply turn_ok; lia|apply turn_error].
  - rewrite (bind_Ok (modify _) _ p tt _ eq_refl), (bind_Ok (gets buffer_) _ _ _ _ eq_refl).
    cbv zeta. cbn [limit fst snd]. destruct (MAX_LINE_LENGTH <? _); [apply turn_error|by apply turn_ok].
Qed.

Lemma headers_end_turn p : chunked_encoding_ p = false ->
  (modify (fun p => set_complete (chunked_encoding_ p) true p) ;;
   p ← get;
   (if is_chunked p then
      modify (fun p => set_complete true (headers_complete_ p) p) ;; modify (set_state CHUNK_SIZE)
    else if should_read_body p then
      if 0 <? get_content_length p then
        modify (set_expected (get_content_length p)) ;; modify (set_state BODY)
      else modify (set_state COMPLETE)
    else modify (set_state COMPLETE))) (set_buffer [] p) = Ok tt (on_headers_end p).
Proof.
  intros Hc. rewrite (bind_Ok (modify _) _ _ tt _ eq_refl), (bind_Ok get _ _ _ _ eq_refl).
  change (chunked_encoding_ (set_buffer [] p)) with (chunked_encoding_ p). unfold on_headers_end. cbv zeta.
  set (q := set_complete (chunked_encoding_ p) true (set_buffer [] p)).
  assert (Hq : is_chunked q = false) by exact Hc. unfold should_read_body. rewrite Hq.
  change (headers_complete_ q) with true. cbn [negb].
  destruct (0 <? get_content_length q); reflexivity.
Qed.

Lemma header_line_turn d p : state_ p = HEADER_NAME -> chunked_encoding_ p = false -> d <> [] ->
  turn (parse_header_name_state d p) (step d p).
Proof.
  intros E Hc Hd. assert (0 < length d)%nat by (destruct d; cbn; [done|lia]).
  unfold step, parse_header_name_state, on_line, on_partial. rewrite E. destruct (find_line_end d) as [k|].
  - rewrite (bind_Ok get _ p p p eq_refl). cbv zeta. rewrite (bind_Ok (modify _) _ p tt _ eq_refl).
    unfold on_header_line. destruct (chomp _) as [|c l].
    + pose proof (headers_end_turn p Hc) as Ht. apply bind_inv_Ok in Ht as ([] & p1 & E1 & Ht).
      rewrite (bind_Ok _ _ _ _ _ E1). apply bind_inv_Ok in Ht as (p2 & p3 & E2 & Ht).
      rewrite (bind_Ok _ _ _ _ _ E2), (bind_Ok _ _ _ _ _ Ht). apply turn_ok; lia.
    + destruct (parse_header_line_returns (string_of_list_ascii (c :: l)) (set_buffer [] p)) as (b & p' & El).
      rewrite (bind_Ok _ _ _ _ _ El), El. destruct b; [apply turn_ok; lia|apply turn_error].
  - rewrite (bind_Ok (modify _) _ p tt _ eq_refl), (bind_Ok (gets buffer_) _ _ _ _ eq_refl).
    cbv zeta. cbn [limit fst snd]. destruct (MAX_HEADER_SIZE <? _); [apply turn_error|by apply turn_ok].
Qed.

Lemma body_turn d p : state_ p = BODY -> plain p -> d <> [] -> turn (parse_body_state d p) (step d p).
Proof.
  intros E [Hc Hp] Hd. rewrite E in Hp. destruct Hp as [Hm Hl].
  assert (0 < length d)%nat by (destruct d; cbn; [done|lia]).
  unfold step, parse_body_state. rewrite E. rewrite (bind_Ok get _ p p p eq_refl). cbv zeta.
  rewrite body_consumed, take_min by done.
  rewrite (bind_Ok (modify _) _ p tt _ eq_refl), (bind_Ok get _ _ _ _ eq_refl).
  unfold on_body. cbv zeta. destruct (Nat.ltb_spec 0 (Nat.min (length d) (missing p))); [|lia].
  destruct (expected_body_length_ _ <=? _); apply turn_ok; lia.
Qed.

Lemma parse_state_step d p : plain p -> stopped (state_ p) = false -> d <> [] ->
  turn (parse_state d p) (step d p).
Proof.
  intros Hp Hs Hd. unfold parse_state. rewrite (bind_Ok (gets state_) _ p _ p eq_refl).
  pose proof Hp as [Hc Hp']. destruct (state_ p) eqn:E; try done.
  - by apply start_line_turn.
  - by apply header_line_turn.
  - by apply body_turn.
Qed.

(** ** [plain] is an invariant *)

Lemma headers_end_plain p : chunked_encoding_ p = false -> body_ p = [] -> plain (on_headers_end p).
Proof.
  intros Hc Hb. unfold on_headers_end. cbv zeta. set (q := set_complete _ _ _).
  pose proof (get_content_length_bound q). destruct (Z.ltb_spec 0 (get_content_length q)); [|done].
  split; [done|]. cbn. unfold missing. cbn. rewrite Hb. cbn. lia.
Qed.

Lemma start_line_plain l p : plain p -> state_ p = START_LINE -> plain (on_start_line l p).2.
Proof.
  intros [Hc Hp] E. rewrite E in Hp. unfold on_start_line.
  destruct (parse_start_line _ _ _) as [[[] v] st]; split; done.
Qed.

Lemma parse_header_line_keeps l p b p' : parse_header_line l p = Ok b p' ->
  state_ p' = state_ p /\ chunked_encoding_ p' = chunked_encoding_ p /\ body_ p' = body_ p.
Proof.
  unfold parse_header_line. destruct (split_at _ _) as [[n v]|]; [|by intros [= <- <-]].
  case_match; by intros [= <- <-].
Qed.

Lemma header_line_plain l p : plain p -> state_ p = HEADER_NAME -> plain (on_header_line l p).2.
Proof.
  intros [Hc Hp] E. rewrite E in Hp. destruct l as [|c l]; [by apply headers_end_plain|]. unfold on_header_line.
  destruct (parse_header_line_returns (string_of_list_ascii (c :: l)) (set_buffer [] p)) as (b & p' & El).
  rewrite El. apply parse_header_line_keeps in El as (E1 & E2 & E3). cbn in E1, E2, E3.
  unfold plain. destruct b; cbn; rewrite ?E1, ?E2, ?E3, ?E; done.
Qed.

Lemma partial_plain d p : plain p -> plain (on_partial d p).2.
Proof.
  intros [Hc Hp]. unfold on_partial. cbv zeta. destruct ((limit (state_ p)).1 <? _); [done|].
  split; [done|]. cbn [snd]. by destruct p.
Qed.

Lemma step_plain d p : plain p -> stopped (state_ p) = false -> plain (step d p).2.
Proof.
  intros Hp Hs. unfold step. pose proof Hp as [Hc Hp']. unfold on_line.
  destruct (state_ p) eqn:E; try done.
  - destruct (find_line_end d); [by apply start_line_plain|by apply partial_plain].
  - destruct (find_line_end d); [by apply header_line_plain|by apply partial_plain].
  - unfold on_body. destruct Hp' as [Hm Hl]. cbv zeta.
    destruct (Z.leb_spec (expected_body_length_ (set_body (body_ p ++ take (missing p) d) p))
               (Z.of_nat (length (body_ (set_body (body_ p ++ take (missing p) d) p))))) as [|Hlt]; [done|].
    split; [done|]. cbn in *. rewrite E. unfold missing in *. cbn.
    rewrite length_app, length_take in *. lia.
Qed.

(** ** The loop *)

Fixpoint feed (fuel : nat) (d : bytes) p : option nat * HttpParser St :=
  match d, fuel with
  | [], _ | _, O => (Some 0%nat, p)
  | _ :: _, S fuel' =>
      if stopped (state_ p) then (Some 0%nat, p) else
      match step d p with
      | (Some n, p') => let r := feed fuel' (drop n d) p' in (Nat.add n <$> r.1, r.2)
      | (None, p') => (None, p')
      end
  end.

Definition answer (total : nat) (o : option nat) : Z :=
  match o with Some n => to_int (Z.of_nat (total + n)) | None => -1 end.

Lemma step_progress d p n : plain p -> stopped (state_ p) = false -> d <> [] ->
  (step d p).1 = Some n -> (0 < n <= length d)%nat.
Proof.
  intros Hp Hs Hd Hn. destruct (parse_state_step d p Hp Hs Hd) as (r & m & _ & Ht).
  rewrite Hn in Ht. split; [lia|]. unfold step in Hn.
  assert (Hl : (match find_line_end d with
      | Some k => let r := on_line (chomp (buffer_ p ++ take k d)) p in
                  (if r.1 then Some (k + 2)%nat else None, r.2)
      | None => let r := on_partial d p in (if r.1 then Some (length d) else None, r.2)
      end).1 = Some n -> (n <= length d)%nat).
  { clear. destruct (find_line_end d) as [k|] eqn:E; cbv zeta; cbn [fst].
    - destruct (on_line _ _) as [[] ?]; [|done]. intros [= <-]. by apply find_line_end_bound.
    - destruct (on_partial _ _) as [[] ?]; [|done]. by intros [= <-]. }
  destruct (state_ p); try by apply Hl. cbn in Hn. simplify_eq. lia.
Qed.

Lemma parse_loop_feed fuel d total p : plain p -> (length d < fuel)%nat ->
  parse_loop fuel d total p = Ok (answer total (feed fuel d p).1) (feed fuel d p).2 /\ plain (feed fuel d p).2.
Proof.
  revert d total p. induction fuel as [|fuel IH]; intros d total p Hp Hf; [lia|].
  cbn [parse_loop feed]. rewrite (bind_Ok (gets state_) _ p _ p eq_refl).
  destruct d as [|c d]; [by cbn; rewrite Nat.add_0_r|].
  destruct (stopped (state_ p)) eqn:Hs; [by cbn; rewrite Nat.add_0_r|].
  assert (Hd : c :: d <> []) by done. set (d' := c :: d) in *.
  pose proof (step_plain d' p Hp Hs) as Hp'. pose proof (step_progress d' p) as Hn.
  destruct (parse_state_step d' p Hp Hs Hd) as (r & n & Ep & Ht). rewrite (bind_Ok _ _ _ _ _ Ep).
  destruct (step d' p) as [[n'|] p']; cbn [fst snd] in *.
  - destruct Ht as (Hr & -> & Hn'). destruct (Z.ltb_spec r 0); [lia|].
    destruct (Nat.eqb_spec n' 0); [lia|]. cbn [andb]. specialize (Hn _ Hp Hs Hd eq_refl).
    assert (Hlen : (length (drop n' d') < fuel)%nat) by (rewrite length_drop; lia).
    destruct (IH (drop n' d') (total + n')%nat p' Hp' Hlen) as [-> Hq]. split; [|done].
    destruct (feed fuel _ _) as [[m|] q]; cbn; [|done]. by rewrite Nat.add_assoc.
  - subst r. done.
Qed.

Lemma feed_fuel f1 f2 d p : plain p -> (length d < f1)%nat -> (length d < f2)%nat -> feed f1 d p = feed f2 d p.
Proof.
  revert f2 d p. induction f1 as [|f1 IH]; intros f2 d p Hp H1 H2; [lia|]. destruct f2 as [|f2]; [lia|].
  destruct d as [|c d]; [done|]. cbn [feed]. destruct (stopped (state_ p)) eqn:Hs; [done|].
  assert (Hd : c :: d <> []) by done. set (d' := c :: d) in *.
  pose proof (step_plain d' p Hp Hs) as Hp'. pose proof (step_progress d' p) as Hn.
  destruct (step d' p) as [[n|] p']; [|done]. specialize (Hn _ Hp Hs Hd eq_refl). cbn in Hp'.
  by rewrite (IH f2) by (rewrite ?length_drop; done || lia).
Qed.

Lemma feed_consumed fuel d p : plain p -> forall n, (feed fuel d p).1 = Some n -> (n <= length d)%nat.
Proof.
  revert d p. induction fuel as [|fuel IH]; intros d p Hp n; [destruct d; intros [= <-]; lia|].
  destruct d as [|c d]; [intros [= <-]; lia|]. cbn [feed].
  destruct (stopped (state_ p)) eqn:Hs; [intros [= <-]; lia|].
  assert (Hd : c :: d <> []) by done. set (d' := c :: d) in *.
  pose proof (step_plain d' p Hp Hs) as Hp'. pose proof (step_progress d' p) as Hn.
  destruct (step d' p) as [[m|] p']; [|done]. specialize (Hn _ Hp Hs Hd eq_refl). cbn in Hp' |- *.
  intros (k & E & ->)%fmap_Some. apply IH in E; [|done]. rewrite length_drop in E. change (length d') with (S (length d)) in *. cbn. lia.
Qed.

Definition feed_all (d : bytes) p : option nat * HttpParser St := feed (S (length d)) d p.

(** The parser always returns, and what it returns is [feed_all]. *)
Lemma parse_feed d p : plain p ->
  parse d p = Ok (if stopped (state_ p) then 0 else answer 0 (feed_all d p).1) (feed_all d p).2 /\
  plain (feed_all d p).2.
Proof.
  intros Hp. unfold parse. rewrite (bind_Ok (gets state_) _ p _ p eq_refl).
  destruct (parse_loop_feed (S (length d)) d 0 p Hp ltac:(lia)) as [E Hq]. split; [|done].
  destruct (stopped (state_ p)) eqn:Hs; [|done].
  unfold feed_all. destruct d; cbn [feed]; [done|]. by rewrite Hs.
Qed.

(** The loop by its turns. *)
Lemma feed_nil p : feed_all [] p = (Some 0%nat, p).
Proof. done. Qed.
Lemma feed_stopped d p : stopped (state_ p) = true -> feed_all d p = (Some 0%nat, p).
Proof. intros Hs. unfold feed_all. destruct d; [done|]. cbn [feed]. by rewrite Hs. Qed.
Lemma feed_error d p p' : d <> [] -> stopped (state_ p) = false -> step d p = (None, p') ->
  feed_all d p = (None, p').
Proof. intros Hd Hs E. unfold feed_all. destruct d; [done|]. cbn [feed]. by rewrite Hs, E. Qed.
Lemma feed_step d p n p' : plain p -> d <> [] -> stopped (state_ p) = false -> step d p = (Some n, p') ->
  feed_all d p = (Nat.add n <$> (feed_all (drop n d) p').1, (feed_all (drop n d) p').2).
Proof.
  intros Hp Hd Hs E. pose proof (step_plain d p Hp Hs) as Hp'.
  pose proof (step_progress d p n Hp Hs Hd ltac:(by rewrite E)). rewrite E in Hp'.
  unfold feed_all at 1. destruct d as [|c d]; [done|]. cbn [feed]. rewrite Hs, E.
  by rewrite (feed_fuel _ (S (length (drop n (c :: d))))) by (rewrite ?length_drop; done || (cbn in *; lia)).
Qed.

(** ** Line ends and pieces *)

Lemma line_end_app d1 d2 k : find_line_end d1 = Some k -> find_line_end (d1 ++ d2) = Some k.
Proof.
  revert k. induction d1 as [|c [|c' d1] IH]; intros k E; [done..|]. cbn in E |- *.
  destruct (_ && _); [done|]. apply fmap_Some in E as (j & E & ->). cbn in IH. by rewrite (IH j).
Qed.

Lemma find_line_end_shift d1 d2 : find_line_end d1 = None -> last d1 <> Some cr ->
  find_line_end (d1 ++ d2) = Nat.add (length d1) <$> find_line_end d2.
Proof.
  induction d1 as [|c [|c' d1] IH]; intros E Hl; [by cbn; destruct (find_line_end d2)|..].
  - cbn in Hl. destruct d2 as [|c' d2]; [done|]. change ([c] ++ c' :: d2) with (c :: c' :: d2). cbn [find_line_end].
    destruct (Ascii.eqb_spec c cr) as [->|]; [done|]. done.
  - cbn in E |- *. destruct (_ && _); [done|]. apply fmap_None in E. cbn in IH. rewrite IH by done.
    by destruct (find_line_end d2).
Qed.

Lemma last_drop_not {A} (l : list A) n x : last l <> Some x -> last (drop n l) <> Some x.
Proof.
  revert n. induction l as [|y l IH]; intros [|n] Hl; [done..|]. cbn [drop]. apply IH.
  destruct l; [done|]. by rewrite last_cons_cons in Hl.
Qed.

Lemma on_line_buffer l b p : (on_line l (set_buffer b p)).1 = true -> on_line l p = on_line l (set_buffer b p).
Proof.
  unfold on_line. change (state_ (set_buffer b p)) with (state_ p). destruct (state_ p).
  1: { unfold on_start_line. change (version_ (set_buffer b p)) with (version_ p).
       change (start_ (set_buffer b p)) with (start_ p). by destruct (parse_start_line _ _ _) as [[[] v] st]. }
  all: intros _; destruct l; reflexivity.
Qed.

(** ** The body *)

Lemma feed_body d p : plain p -> state_ p = BODY ->
  feed_all d p = (Some (Nat.min (length d) (missing p)), on_body d p).
Proof.
  intros Hp E. pose proof Hp as [_ Hb]. rewrite E in Hb. destruct Hb as [Hm Hl]. destruct d as [|c d].
  { rewrite feed_nil. unfold on_body. cbv zeta. rewrite take_nil, app_nil_r. destruct p. cbn in *.
    unfold missing in Hm. cbn in Hm. destruct (Z.leb_spec expected_body_length_ (Z.of_nat (length body_))); [lia|done]. }
  assert (Hs : step (c :: d) p = (Some (Nat.min (length (c :: d)) (missing p)), on_body (c :: d) p))
    by (unfold step; by rewrite E).
  rewrite (feed_step (c :: d) p _ _ Hp ltac:(done) ltac:(by rewrite E) Hs).
  destruct (decide (length (c :: d) <= missing p)%nat) as [Hle|Hle].
  - rewrite Nat.min_l by done. rewrite drop_ge by done. rewrite feed_nil. cbn -[length]. by rewrite Nat.add_0_r.
  - rewrite feed_stopped; [by cbn -[Nat.min length]; rewrite Nat.add_0_r|].
    unfold on_body. cbv zeta. set (b := body_ p ++ take (missing p) (c :: d)).
    destruct (Z.leb_spec (expected_body_length_ (set_body b p)) (Z.of_nat (length (body_ (set_body b p))))) as [|Hlt]; [done|].
    cbn [expected_body_length_ body_ set_body] in Hlt. subst b. unfold missing in *.
    rewrite length_app, length_take in Hlt. lia.
Qed.

Lemma on_body_cases d p : plain p -> state_ p = BODY ->
  (length d < missing p)%nat /\ on_body d p = set_body (body_ p ++ d) p \/
  (missing p <= length d)%nat /\ on_body d p = set_state COMPLETE (set_body (body_ p ++ take (missing p) d) p).
Proof.
  intros [_ Hb] E. rewrite E in Hb. destruct Hb as [Hm Hl]. unfold on_body. cbv zeta.
  set (b := body_ p ++ take (missing p) d). change (expected_body_length_ (set_body b p)) with (expected_body_length_ p).
  change (body_ (set_body b p)) with b.
  assert (Hb : length b = (length (body_ p) + Nat.min (missing p) (length d))%nat)
    by (unfold b; by rewrite length_app, length_take).
  unfold missing in *. destruct (Z.leb_spec (expected_body_length_ p) (Z.of_nat (length b))).
  - right. split; [lia|done].
  - left. split; [lia|]. subst b. by rewrite take_ge by lia.
Qed.

Lemma feed_app_body d1 d2 p : plain p -> state_ p = BODY ->
  feed_all (d1 ++ d2) p = (Nat.add (Nat.min (length d1) (missing p)) <$> (feed_all d2 (on_body d1 p)).1,
                           (feed_all d2 (on_body d1 p)).2).
Proof.
  intros Hp E. rewrite feed_body, length_app by done.
  pose proof (step_plain d1 p Hp) as Hp'. unfold step in Hp'. rewrite E in Hp'. specialize (Hp' eq_refl). cbn in Hp'.
  destruct (on_body_cases (d1 ++ d2) p Hp E) as [[Hl Eb]|[Hl Eb]]; rewrite length_app in Hl;
    destruct (on_body_cases d1 p Hp E) as [[Hl1 Eb1]|[Hl1 Eb1]]; try lia.
  - rewrite Eb1 in *. rewrite feed_body by done. unfold fst, snd.
    destruct (on_body_cases d2 _ Hp' E) as [[Hl2 Eb2]|[Hl2 Eb2]]; unfold missing in *; cbn in Hl2;
      rewrite length_app in Hl2; [|lia].
    rewrite Eb2, Eb. cbn. rewrite length_app. f_equal; [f_equal; lia|].
    by rewrite (assoc_L (++)).
  - rewrite Eb1 in *. rewrite feed_body by done. unfold fst, snd.
    destruct (on_body_cases d2 _ Hp' E) as [[Hl2 Eb2]|[Hl2 Eb2]]; unfold missing in *; cbn in Hl2;
      rewrite length_app in Hl2; [lia|].
    rewrite Eb2, Eb. cbn. rewrite length_app. f_equal; [f_equal; lia|].
    rewrite take_app, take_ge by lia.
    replace (Z.to_nat (expected_body_length_ p - Z.of_nat (length (body_ p))) - length d1)%nat
      with (Z.to_nat (expected_body_length_ p - Z.of_nat (length (body_ p) + length d1))) by lia.
    by rewrite (assoc_L (++)).
  - rewrite Eb1, feed_stopped by done. cbn. rewrite Eb, take_app_le by lia. f_equal. f_equal. lia.
Qed.

(** ** Lines in pieces *)

Lemma step_line d p k : state_ p <> BODY -> find_line_end d = Some k ->
  step d p = (if (on_line (chomp (buffer_ p ++ take k d)) p).1 then Some (k + 2)%nat else None,
              (on_line (chomp (buffer_ p ++ take k d)) p).2).
Proof. intros Hb E. unfold step. rewrite E. by destruct (state_ p). Qed.

Lemma step_partial d p : state_ p <> BODY -> find_line_end d = None ->
  step d p = (if (on_partial d p).1 then Some (length d) else None, (on_partial d p).2).
Proof. intros Hb E. unfold step. rewrite E. by destruct (state_ p). Qed.

Lemma on_line_fails l p : (on_line l p).1 = false -> state_ (on_line l p).2 = ERROR.
Proof.
  unfold on_line. destruct (state_ p).
  1: { unfold on_start_line. by destruct (parse_start_line _ _ _) as [[[] v] st]. }
  all: unfold on_header_line; destruct l as [|c l]; [done|];
    destruct (parse_header_line_returns (string_of_list_ascii (c :: l)) (set_buffer [] p)) as (b & p' & El);
    rewrite El; by destruct b.
Qed.

Lemma on_partial_cases d p : {on_partial d p = (true, set_buffer (buffer_ p ++ d) p)} +
  {(on_partial d p).1 = false /\ state_ (on_partial d p).2 = ERROR}.
Proof. unfold on_partial. cbv zeta. destruct (_ <? _); [by right|by left]. Qed.

(** A line whose end has not arrived: the rest of the input decides as the whole does. *)
Lemma feed_app_partial d1 d2 p : plain p -> stopped (state_ p) = false -> state_ p <> BODY ->
  d1 <> [] -> d2 <> [] -> find_line_end d1 = None -> last d1 <> Some cr ->
  let p1 := set_buffer (buffer_ p ++ d1) p in
  state_ (feed_all d2 p1).2 <> ERROR ->
  feed_all (d1 ++ d2) p = (Nat.add (length d1) <$> (feed_all d2 p1).1, (feed_all d2 p1).2).
Proof.
  intros Hp Hs Hb Hd1 Hd2 E1 Hl p1. pose proof (find_line_end_shift d1 d2 E1 Hl) as E.
  assert (Hp1 : plain p1) by (destruct p; exact Hp).
  assert (Hd : d1 ++ d2 <> []) by (by destruct d1).
  destruct (find_line_end d2) as [k|] eqn:E2.
  - pose proof (step_line d2 p1 k Hb E2) as S2. pose proof (step_line (d1 ++ d2) p _ Hb E) as S1.
    assert (Et : buffer_ p ++ take (length d1 + k) (d1 ++ d2) = buffer_ p1 ++ take k d2).
    { rewrite take_app_add. cbn. by rewrite (assoc_L (++)). }
    rewrite Et in S1. set (l := chomp (buffer_ p1 ++ take k d2)) in *.
    pose proof (on_line_buffer l (buffer_ p ++ d1) p) as Hon. fold p1 in Hon.
    destruct ((on_line l p1).1) eqn:Eok.
    + rewrite Hon, Eok in S1 by done.
      rewrite (feed_step d2 p1 _ _ Hp1 Hd2 Hs S2), (feed_step (d1 ++ d2) p _ _ Hp Hd Hs S1).
      intros _. cbn [fst snd]. rewrite <-Nat.add_assoc, drop_app_add.
      destruct (feed_all _ _) as [[m|] q]; cbn; [|done]. by rewrite <-!Nat.add_assoc.
    + intros Hne. destruct Hne. rewrite (feed_error d2 p1 _ Hd2 Hs S2). by apply on_line_fails.
  - pose proof (step_partial d2 p1 Hb E2) as S2. pose proof (step_partial (d1 ++ d2) p Hb E) as S1.
    assert (Eo : on_partial (d1 ++ d2) p = on_partial d2 p1).
    { unfold on_partial. cbv zeta. cbn [buffer_ set_buffer p1]. by rewrite (assoc_L (++)). }
    rewrite Eo in S1. destruct (on_partial_cases d2 p1) as [Ep|[Ep Ee]]; rewrite Ep in *.
    + rewrite (feed_step d2 p1 _ _ Hp1 Hd2 Hs S2), (feed_step (d1 ++ d2) p _ _ Hp Hd Hs S1).
      intros _. rewrite !drop_all, feed_nil, length_app. cbn. by rewrite !Nat.add_0_r.
    + intros Hne. destruct Hne. by rewrite (feed_error d2 p1 _ Hd2 Hs S2).
Qed.

Lemma feed_None fuel d p : (feed fuel d p).1 = None -> state_ (feed fuel d p).2 = ERROR.
Proof.
  revert d p. induction fuel as [|fuel IH]; intros d p; [by destruct d|]. destruct d as [|c d]; [done|].
  cbn [feed]. destruct (stopped _) eqn:Hs; [done|].
  assert (He : (step (c :: d) p).1 = None -> state_ (step (c :: d) p).2 = ERROR).
  { destruct (decide (state_ p = BODY)) as [Eb|Eb]; [unfold step; by rewrite Eb|].
    destruct (find_line_end (c :: d)) as [k|] eqn:E.
    - rewrite (step_line _ _ _ Eb E). cbn [fst snd]. destruct ((on_line _ _).1) eqn:Eo; [done|].
      intros _. by apply on_line_fails.
    - rewrite (step_partial _ _ Eb E). by destruct (on_partial_cases (c :: d) p) as [->|[-> ?]]. }
  destruct (step (c :: d) p) as [[n|] p']; [|exact He].
  cbn [fst snd]. intros Hn. apply IH. by apply fmap_None in Hn.
Qed.

(** Feeding one piece after the other is feeding both at once, unless the first one
    ends between a CR and its LF. *)
Lemma feed_app d1 d2 p : plain p -> last d1 <> Some cr ->
  state_ (feed_all d2 (feed_all d1 p).2).2 <> ERROR ->
  exists n1, (feed_all d1 p).1 = Some n1 /\
    feed_all (d1 ++ d2) p = (Nat.add n1 <$> (feed_all d2 (feed_all d1 p).2).1, (feed_all d2 (feed_all d1 p).2).2).
Proof.
  remember (length d1) as n eqn:En. revert d1 p En.
  induction n as [n IH] using lt_wf_ind. intros d1 p -> Hp Hl Hne.
  assert (Hz : forall o : option nat * HttpParser St, (Nat.add 0 <$> o.1, o.2) = o) by (by intros [[] ?]).
  destruct (decide (d1 = [])) as [->|Hd1]; [exists 0%nat; by rewrite feed_nil, Hz|].
  destruct (stopped (state_ p)) eqn:Hs.
  { exists 0%nat. rewrite feed_stopped by done. cbn [fst snd]. by rewrite Hz, !feed_stopped. }
  destruct (decide (state_ p = BODY)) as [Eb|Eb].
  { rewrite feed_body by done. eexists. split; [done|]. by apply feed_app_body. }
  destruct (find_line_end d1) as [k|] eqn:E.
  - pose proof (step_line d1 p k Eb E) as S1.
    pose proof (step_line (d1 ++ d2) p k Eb (line_end_app d1 d2 k E)) as S.
    pose proof (find_line_end_bound d1 k E). rewrite take_app_le in S by lia.
    set (r := on_line (chomp (buffer_ p ++ take k d1)) p) in *. destruct (r.1) eqn:Er.
    + pose proof (step_plain d1 p Hp Hs) as Hp'. rewrite S1 in Hp'. cbn [snd] in Hp'.
      rewrite (feed_step d1 p _ _ Hp Hd1 Hs S1) in Hne |- *. cbn [fst snd] in *.
      rewrite (feed_step (d1 ++ d2) p _ _ Hp ltac:(by destruct d1) Hs S), drop_app_le by lia.
      destruct (IH (length (drop (k + 2) d1)) ltac:(rewrite length_drop; lia) (drop (k + 2) d1) r.2
                  eq_refl Hp' (last_drop_not _ _ _ Hl) Hne) as (n1 & -> & ->).
      exists (k + 2 + n1)%nat. split; [done|]. destruct (feed_all d2 _) as [[m|] q]; cbn; [|done].
      by rewrite !Nat.add_assoc.
    + destruct Hne. rewrite (feed_error d1 p _ Hd1 Hs S1). cbn [snd].
      assert (state_ r.2 = ERROR) by (by apply on_line_fails). rewrite feed_stopped; [done|].
      cbn. by replace (state_ r.2) with ERROR.
  - pose proof (step_partial d1 p Eb E) as S1. destruct (on_partial_cases d1 p) as [Ep|[Ep Ee]]; rewrite Ep in S1.
    + rewrite (feed_step d1 p _ _ Hp Hd1 Hs S1) in Hne |- *. rewrite drop_all, feed_nil in Hne |- *.
      cbn [fst snd] in *. exists (length d1). split; [by cbn; rewrite Nat.add_0_r|].
      destruct (decide (d2 = [])) as [->|Hd2]; [|by apply feed_app_partial].
      rewrite app_nil_r, (feed_step d1 p _ _ Hp Hd1 Hs S1), drop_all, !feed_nil. cbn. by rewrite Nat.add_0_r.
    + destruct Hne. rewrite (feed_error d1 p _ Hd1 Hs S1). cbn [snd]. rewrite feed_stopped; cbn [snd]; by rewrite Ee.
Qed.

(** ** Any number of pieces *)

(** [parse] called on each piece in turn. *)
Fixpoint parse_pieces (ds : list bytes) : cpp (HttpParser St) Z :=
  match ds with
  | [] => mret 0
  | d :: ds' => n ← parse d; m ← parse_pieces ds'; mret (n + m)
  end.

Fixpoint feed_pieces (ds : list bytes) p : HttpParser St :=
  match ds with [] => p | d :: ds' => feed_pieces ds' (feed_all d p).2 end.
End stream.
