(* ===== verification/HttpRoundTrip.v ===== *)
(** * HttpRoundTrip: what the serialiser writes, the parser reads

    Lemmas that connect the text of [build_start_line] and [build_headers]
    (HttpMessage.v) with the line handlers of the parser: header names in canonical
    capitals are folded back, values are found after the colon, and the sorted list of
    headers is rebuilt by insertion. [feed_message] puts them together for any kind of
    start line. *)

From Stdlib Require Import Ascii String.
From S2P Require Import Prelude Text HttpParser HttpMessage HttpStream.
Import HttpMethod ParseState.

Local Open Scope Z_scope.

(** ** Characters *)

Lemma text_app a b : text (a +:+ b) = text a ++ text b.
Proof. induction a as [|c a IH]; [done|]. rewrite app_cons. cbn. by rewrite IH. Qed.
Lemma length_text s : length (text s) = String.length s.
Proof. induction s; cbn; congruence. Qed.
Lemma text_string s : string_of_list_ascii (text s) = s.
Proof. apply string_of_list_ascii_of_string. Qed.

(** All characters; a property of a character is decided by trying them. *)
Ltac each_char c := destruct c as [[] [] [] [] [] [] [] []]; by vm_compute.

Lemma tolower_toupper c : tolower (toupper c) = tolower c.
Proof. each_char c. Qed.
Lemma tolower_tolower c : tolower (tolower c) = tolower c.
Proof. each_char c. Qed.
Lemma blank_toupper c : is_blank (toupper c) = is_blank c.
Proof. each_char c. Qed.
Lemma blank_tolower c : is_blank (tolower c) = is_blank c.
Proof. each_char c. Qed.

(** A test that does not depend on the case of letters. *)
Definition caseless (q : ascii -> bool) : Prop := forall c, q (toupper c) = q c /\ q (tolower c) = q c.

Lemma blank_caseless : caseless is_blank.
Proof. intros c. by rewrite blank_toupper, blank_tolower. Qed.
Lemma not_cr_caseless : caseless (fun c => negb (char_eqb c cr)).
Proof. intros c. each_char c. Qed.
Lemma not_colon_caseless : caseless (fun c => negb (char_eqb c ":")).
Proof. intros c. each_char c. Qed.

Lemma format_name_forall q b s : caseless q -> sforall q (format_name b s) = sforall q s.
Proof.
  intros Hq. revert b. induction s as [|c s IH]; intros b; [done|]. cbn.
  destruct (Hq c) as [Hu Hl]. destruct (b && isalpha c); [by cbn; rewrite Hu, IH|].
  destruct (char_eqb c "-"); cbn; by rewrite ?Hl, IH.
Qed.
Lemma format_name_head q b s : caseless q -> head_not q (format_name b s) = head_not q s.
Proof.
  intros Hq. destruct s as [|c s]; [done|]. cbn. destruct (Hq c) as [Hu Hl].
  destruct (b && isalpha c); [by cbn; rewrite Hu|]. destruct (char_eqb c "-"); cbn; by rewrite ?Hl.
Qed.
Lemma format_name_empty b s : format_name b s = "" <-> s = "".
Proof. destruct s as [|c s]; [done|]. cbn. split; [|done]. destruct (b && isalpha c); [done|]. by destruct (char_eqb c "-"). Qed.
Lemma last_not_cons q c s : last_not q (String c s) = if String.eqb s "" then negb (q c) else last_not q s.
Proof. by destruct s. Qed.
Lemma format_name_last q b s : caseless q -> last_not q (format_name b s) = last_not q s.
Proof.
  intros Hq. revert b. induction s as [|c s IH]; intros b; [done|].
  assert (He : forall b', String.eqb (format_name b' s) "" = String.eqb s "").
  { intros b'. destruct (String.eqb_spec s "") as [->|Hs]; [done|].
    apply String.eqb_neq. by rewrite format_name_empty. }
  rewrite last_not_cons. destruct (Hq c) as [Hu Hl]. cbn [format_name].
  destruct (b && isalpha c); [by rewrite last_not_cons, He, Hu, IH|].
  destruct (char_eqb c "-"); by rewrite last_not_cons, He, ?Hl, IH.
Qed.
Lemma to_lower_format_name b s : to_lower (format_name b s) = to_lower s.
Proof.
  revert b. induction s as [|c s IH]; intros b; [done|]. unfold to_lower in *. cbn.
  destruct (b && isalpha c); [by cbn; rewrite tolower_toupper, IH|].
  destruct (char_eqb c "-"); cbn; by rewrite ?tolower_tolower, IH.
Qed.

Lemma trim_id s : head_not is_blank s = true -> last_not is_blank s = true -> trim s = s.
Proof. intros Hh Hl. unfold trim. by rewrite lstrip_id, rstrip_id. Qed.
Lemma trim_leading_space s : trim (String " " s) = trim s.
Proof. done. Qed.

(** ** Lines *)

Lemma find_line_end_text l rest : no_char cr l = true ->
  find_line_end (text l ++ text crlf ++ rest) = Some (String.length l).
Proof.
  induction l as [|c l IH]; intros Hl; [done|]. apply no_char_cons in Hl as [Hc Hl]. specialize (IH Hl).
  cbn [list_ascii_of_string app]. destruct (text l ++ text crlf ++ rest) as [|c' d] eqn:E; [by destruct l|].
  cbn [find_line_end]. apply Ascii.eqb_neq in Hc. rewrite Hc. cbn [andb].
  change (S <$> find_line_end (c' :: d) = Some (String.length (String c l))). by rewrite IH.
Qed.

Lemma no_cr_last l : no_char cr l = true -> chomp (text l) = text l.
Proof.
  intros Hl. unfold chomp. destruct (last (text l)) as [c|] eqn:E; [|done].
  assert (Hc : c <> cr).
  { revert Hl E. induction l as [|x l IH]; [done|]. intros [Hx Hl]%no_char_cons. destruct l; [by intros [= <-]|].
    by apply IH. }
  by apply Ascii.eqb_neq in Hc as ->.
Qed.

(** ** Headers *)

Definition header_ok (h : string * string) : bool :=
  negb (String.eqb h.1 "") && String.eqb (normalize_header_name h.1) h.1 &&
  (head_not is_blank h.1 && last_not is_blank h.1) && (no_char ":" h.1 && no_char cr h.1) &&
  (head_not is_blank h.2 && last_not is_blank h.2 && no_char cr h.2).

Definition header_le (a b : string * string) : Prop := String.le a.1 b.1.

(** Headers as a message keeps them and as the wire format can carry them. *)
Definition headers_ok (l : HttpHeaders) : Prop :=
  Forall (fun h => header_ok h = true) l /\ StronglySorted header_le l.

Section message.
Context {St : Type} `{StartLine St}.
Implicit Types (p : HttpParser St).

Lemma parse_header_line_ok h p : header_ok h = true ->
  parse_header_line (header_line h) p = Ok true (set_headers (mm_emplace h.1 h.2 (HttpParser.headers_ p)) p).
Proof.
  destruct h as [k v]. unfold header_ok, parse_header_line, header_line. cbn [fst snd].
  rewrite !andb_true_iff. intros ((((Hne & Hn) & Hkh & Hkl) & Hc & Hcr) & (Hvh & Hvl) & _).
  apply negb_true_iff, String.eqb_neq in Hne. apply String.eqb_eq in Hn.
  rewrite app_cons, app_cons, app_empty_l, split_at_app
    by (unfold no_char; by rewrite (format_name_forall _ _ _ not_colon_caseless)).
  rewrite trim_leading_space, (trim_id v) by done.
  rewrite (trim_id (format_name true k))
    by (by rewrite ?(format_name_head _ _ _ blank_caseless), ?(format_name_last _ _ _ blank_caseless)).
  destruct (String.eqb_spec (format_name true k) "") as [E|_]; [by apply format_name_empty in E|].
  rewrite to_lower_format_name. by replace (to_lower k) with k.
Qed.

Lemma header_line_no_cr h : header_ok h = true -> no_char cr (header_line h) = true.
Proof.
  destruct h as [k v]. unfold header_ok, header_line. cbn [fst snd].
  rewrite !andb_true_iff. intros ((_ & _ & Hcr) & (_ & _) & Hv). unfold no_char in *.
  rewrite !sforall_app, (format_name_forall _ _ _ not_cr_caseless), Hcr, Hv. done.
Qed.

Lemma mm_emplace_last k v l : Forall (fun h => String.le h.1 k) l -> mm_emplace k v l = l ++ [(k, v)].
Proof. induction 1 as [|h l Hh Hl IH]; [done|]. cbn. by rewrite bool_decide_true, IH. Qed.

(** A complete line in a state that reads lines. *)
Lemma feed_line l rest p : plain p -> stopped (state_ p) = false -> state_ p <> BODY -> buffer_ p = [] ->
  no_char cr l = true -> (on_line (text l) p).1 = true ->
  feed_all (text l ++ text crlf ++ rest) p =
    (Nat.add (String.length l + 2) <$> (feed_all rest (on_line (text l) p).2).1,
     (feed_all rest (on_line (text l) p).2).2).
Proof.
  intros Hp Hs Hb Hbuf Hl Hok. pose proof (find_line_end_text l rest Hl) as E.
  pose proof (step_line _ p _ Hb E) as S.
  rewrite Hbuf, app_nil_l, <-length_text, take_app_length, no_cr_last, Hok in S by done.
  assert (Hd : text l ++ text crlf ++ rest <> []) by (by destruct l).
  rewrite (feed_step _ p _ _ Hp Hd Hs S).
  replace (drop (length (text l) + 2) (text l ++ text crlf ++ rest)) with rest; [by rewrite length_text|].
  rewrite drop_app_add. done.
Qed.

Lemma set_buffer_id p : buffer_ p = [] -> set_buffer [] p = p.
Proof. destruct p; cbn. by intros ->. Qed.
Lemma set_headers_id p l : HttpParser.headers_ p = l -> set_headers l p = p.
Proof. destruct p; cbn. by intros ->. Qed.

Lemma feed_headers hs rest p : plain p -> state_ p = HEADER_NAME -> buffer_ p = [] ->
  Forall (fun h => header_ok h = true) hs -> StronglySorted header_le (HttpParser.headers_ p ++ hs) ->
  let p2 := on_headers_end (set_headers (HttpParser.headers_ p ++ hs) p) in
  feed_all (build_headers_loop hs ++ rest) p =
    (Nat.add (length (build_headers_loop hs)) <$> (feed_all rest p2).1, (feed_all rest p2).2).
Proof.
  revert p. induction hs as [|h hs IH]; intros p Hp E Hb Hok Hsort p2.
  - assert (En : on_line (text "") p = (true, p2)).
    { unfold on_line, p2. rewrite E, app_nil_r. by rewrite set_headers_id. }
    pose proof (feed_line "" rest p Hp ltac:(by rewrite E) ltac:(by rewrite E) Hb eq_refl ltac:(by rewrite En)) as F.
    rewrite En in F. exact F.
  - apply Forall_cons in Hok as [Hh Hok]. set (p1 := set_headers (HttpParser.headers_ p ++ [h]) p).
    assert (En : on_line (text (header_line h)) p = (true, p1)).
    { unfold on_line. rewrite E. unfold on_header_line.
      destruct (text (header_line h)) as [|c l] eqn:Et.
      { apply (f_equal length) in Et. rewrite length_text in Et. unfold header_line in Et.
        destruct (format_name true h.1); discriminate Et. }
      rewrite <-Et, text_string, set_buffer_id, parse_header_line_ok by done. unfold p1.
      rewrite mm_emplace_last; [by destruct h|]. rewrite StronglySorted_app in Hsort.
      destruct Hsort as [Hall _]. apply Forall_forall. intros x Hx. apply (Hall x h); [done|]. by left. }
    cbn [build_headers_loop]. rewrite <-!(assoc_L (++)).
    rewrite feed_line; rewrite ?En, ?E; try done; [|by apply header_line_no_cr]. cbn [snd].
    rewrite (IH p1); try done.
    + unfold p1, p2. change (HttpParser.headers_ (set_headers ?h p)) with h. rewrite <-(assoc_L (++)).
      change (set_headers ?a (set_headers ?b p)) with (set_headers a p). cbn [app fst snd].
      destruct (feed_all rest _) as [[m|] q]; cbn [fmap option_fmap option_map]; [|done].
      cbn [fst]. rewrite !length_app, !length_text. change (String.length crlf) with 2%nat. cbn -[Nat.add]. do 2 f_equal. lia.
    + change (HttpParser.headers_ p1) with (HttpParser.headers_ p ++ [h]). by rewrite <-(assoc_L (++)).
Qed.

(** The length that the headers declare, if it is positive. *)
Definition declared (hs : HttpHeaders) : Z :=
  let length_str := default "" (mm_find "content-length" hs) in
  if String.eqb length_str "" then -1 else default (-1) (stoll length_str).

(** A parser at the start of a message. *)
Definition fresh p : Prop :=
  state_ p = START_LINE /\ buffer_ p = [] /\ HttpParser.headers_ p = [] /\ HttpParser.body_ p = [] /\
  chunked_encoding_ p = false.

Lemma feed_after_headers rest p : plain p -> state_ p = HEADER_NAME -> buffer_ p = [] ->
  let n := Z.to_nat (declared (HttpParser.headers_ p)) in
  (n <= length rest)%nat ->
  exists q, feed_all rest (on_headers_end p) = (Some n, q) /\
    state_ q = COMPLETE /\ HttpParser.version_ q = HttpParser.version_ p /\
    HttpParser.headers_ q = HttpParser.headers_ p /\ HttpParser.body_ q = take n rest /\ start_ q = start_ p.
Proof.
  intros [Hc Hp] E Hb n Hn. rewrite E in Hp. pose proof (headers_end_plain p Hc Hp) as Hq.
  unfold on_headers_end in *. cbv zeta in *. set (p1 := set_complete _ _ _) in *.
  change (HttpParser.get_content_length p1) with (declared (HttpParser.headers_ p)) in *.
  destruct (Z.ltb_spec 0 (declared (HttpParser.headers_ p))) as [Hd|Hd].
  - rewrite feed_body by done. set (p2 := set_state BODY _) in *.
    assert (Hm : missing p2 = n) by (unfold missing, n; cbn; rewrite Hp; cbn; lia).
    destruct (on_body_cases rest p2 Hq eq_refl) as [[Hl Eb]|[Hl Eb]]; rewrite Hm in *; [lia|].
    eexists. rewrite Eb, Nat.min_r by done. split; [done|]. cbn. by rewrite Hp.
  - assert (n = 0%nat) as -> by lia. rewrite feed_stopped by done. eexists. split; [done|]. cbn. by rewrite Hp.
Qed.

(** A serialised message, followed by whatever comes next on the connection. *)
Lemma feed_message sl hs rest p v st : fresh p -> no_char cr sl = true ->
  parse_start_line sl (HttpParser.version_ p) (start_ p) = (true, v, st) -> headers_ok hs ->
  let n := Z.to_nat (declared hs) in
  (n <= length rest)%nat ->
  exists q, feed_all (text sl ++ text crlf ++ build_headers_loop hs ++ rest) p =
      (Some (String.length sl + 2 + length (build_headers_loop hs) + n)%nat, q) /\
    state_ q = COMPLETE /\ HttpParser.version_ q = v /\ HttpParser.headers_ q = hs /\
    HttpParser.body_ q = take n rest /\ start_ q = st.
Proof.
  intros (E & Hb & Hh & Hbody & Hc) Hsl Hst [Hok Hsort] n Hn.
  assert (Hp : plain p) by (split; [done|by rewrite E]).
  set (p1 := set_state HEADER_NAME (set_buffer [] (set_start v st p))).
  assert (En : on_line (text sl) p = (true, p1)).
  { unfold on_line, on_start_line. by rewrite E, text_string, Hst. }
  assert (Hp1 : plain p1) by done.
  rewrite feed_line; rewrite ?En, ?E; try done. cbn [snd].
  rewrite (feed_headers hs rest p1 Hp1 eq_refl eq_refl Hok); change (HttpParser.headers_ p1) with (HttpParser.headers_ p);
    rewrite Hh; [|done]. rewrite app_nil_l.
  destruct (feed_after_headers rest (set_headers hs p1) Hp1 eq_refl eq_refl Hn) as (q & -> & Hq).
  exists q. split; [|done]. cbn -[Nat.add]. do 2 f_equal. lia.
Qed.
End message.

(** ** Start lines *)

Definition version_ok (v : HttpVersion) : Prop := is_int (major v) /\ is_int (minor v).

Lemma to_string_chars (q : ascii -> bool) z :
  (forall c, is_digit c || char_eqb c "-" = true -> q c = true) -> sforall q (to_string z) = true.
Proof. intros Hq. exact (sforall_impl _ _ _ Hq (sign_char_digit_text z)). Qed.

Lemma stoi_opt_to_string z : is_int z -> stoi_opt (to_string z) = Some z.
Proof. intros Hz. unfold stoi_opt. by rewrite stoi_to_string. Qed.


Lemma prefix_refl w s : String.prefix w (w +:+ s) = true.
Proof. induction w as [|c w IH]; [by destruct s|]. rewrite app_cons. cbn. by destruct (ascii_dec c c). Qed.

Lemma parse_version_ok v v0 : version_ok v -> parse_version (version_to_string v) v0 = (true, v).
Proof.
  intros [Hma Hmi]. unfold parse_version, version_to_string.
  set (t := to_string (major v) +:+ "." +:+ to_string (minor v)).
  rewrite prefix_refl. cbn [negb].
  change 5%nat with (String.length "HTTP/") at 1. rewrite substring_skip, slength_app.
  replace (_ - 5)%nat with (String.length t) by (cbn [String.length]; lia). rewrite substring_all by done.
  unfold t. rewrite app_cons, app_empty_l, split_at_app, !stoi_opt_to_string by
    (done || (apply to_string_chars; intros c; each_char c)). by destruct v.
Qed.

Abbreviation word := (sforall (fun c => negb (is_space c))).

Lemma method_word m : word (method_to_string m) = true /\ method_to_string m <> "".
Proof. by destruct m. Qed.
Lemma version_word v : word (version_to_string v) = true /\ version_to_string v <> "".
Proof.
  split; [|done]. unfold version_to_string. rewrite !sforall_app, !to_string_chars; [done|..]; intros c; each_char c.
Qed.
Lemma to_string_word z : word (to_string z) = true /\ to_string z <> "".
Proof.
  split; [apply to_string_chars; intros c; each_char c|]. unfold to_string.
  destruct (Z.to_int z) as [d|d]; [|done]. cbn. by destruct (nilzero_cons d) as (c & s & -> & _).
Qed.
Lemma string_to_method_to_string m : string_to_method (method_to_string m) = m.
Proof. by destruct m. Qed.

Lemma next_word_space s : next_word (String " " s) = next_word s.
Proof. by apply next_word_skip. Qed.
Lemma next_word_first w s : word w = true -> w <> "" -> next_word (w +:+ " " +:+ s) = (w, String " " s).
Proof. intros. by apply next_word_app. Qed.

(** Anything that starts with white space may follow the version. *)
Lemma request_line_tail m uri v v0 st t : m <> UNKNOWN -> word uri = true -> uri <> "" -> version_ok v ->
  head_not (fun c => negb (is_space c)) t = true ->
  request_start_line (method_to_string m +:+ " " +:+ uri +:+ " " +:+ version_to_string v +:+ t) v0 st =
    (true, v, HttpRequest.with_uri m uri).
Proof.
  intros Hm Hw Hne Hv Ht. destruct (method_word m) as [Hmw Hmne]. destruct (version_word v) as [Hvw Hvne].
  unfold request_start_line. cbv zeta. rewrite (next_word_first (method_to_string m)) by done. cbn [fst snd].
  rewrite next_word_space, (next_word_first uri) by done. cbn [fst snd].
  rewrite next_word_space, next_word_app by done. cbn [fst snd].
  do 3 (rewrite (proj2 (String.eqb_neq _ _)) by done). cbn [orb].
  rewrite string_to_method_to_string, bool_decide_false, parse_version_ok by done. done.
Qed.

Lemma request_line_ok m uri v v0 st : m <> UNKNOWN -> word uri = true -> uri <> "" -> version_ok v ->
  request_start_line (method_to_string m +:+ " " +:+ uri +:+ " " +:+ version_to_string v) v0 st =
    (true, v, HttpRequest.with_uri m uri).
Proof. intros. rewrite <-(sapp_nil_r (version_to_string v)). by apply request_line_tail. Qed.

(** The code in a status line is found after the version unless the version contains it. *)
Lemma prefix_space w a r : word w = true -> String.prefix w (a +:+ " " +:+ r) = String.prefix w a.
Proof.
  revert a. induction w as [|c w IH]; intros a Hw; [by destruct a|]. cbn in Hw. apply andb_true_iff in Hw as [Hc Hw].
  destruct a as [|x a].
  - rewrite app_empty_l, app_cons. cbn. destruct (ascii_dec c " ") as [->|]; [done|done].
  - rewrite app_cons. cbn. destruct (ascii_dec c x); [by apply IH|done].
Qed.

Lemma index_after_space w a s : word w = true -> w <> "" -> contains w a = false ->
  String.index 0 w (a +:+ " " +:+ w +:+ s) = Some (String.length a + 1)%nat.
Proof.
  intros Hw Hne. unfold contains. induction a as [|c a IH]; intros Hc.
  - rewrite app_empty_l, app_cons, app_empty_l. cbn -[String.prefix].
    change (String " " (w +:+ s)) with ("" +:+ " " +:+ (w +:+ s)). rewrite prefix_space by done.
    replace (String.prefix w "") with false by (by destruct w).
    destruct (w +:+ s) as [|x t] eqn:E; [by destruct w|]. cbn -[String.prefix]. rewrite <-E. by rewrite prefix_refl.
  - rewrite app_cons. cbn -[String.prefix] in Hc |- *.
    change (String c (a +:+ " " +:+ w +:+ s)) with (String c a +:+ " " +:+ w +:+ s). rewrite prefix_space by done.
    destruct (String.prefix w (String c a)); [done|]. destruct (String.index 0 w a); [done|]. by rewrite IH.
Qed.

Lemma status_line_ok v code reason v0 st : version_ok v -> is_int code ->
  contains (to_string code) (version_to_string v) = false ->
  response_start_line (version_to_string v +:+ " " +:+ to_string code +:+ " " +:+ reason) v0 st =
    (true, v, mkStatusLine code reason).
Proof.
  intros Hv Hcode Hc. destruct (version_word v) as [Hvw Hvne]. destruct (to_string_word code) as [Hcw Hcne].
  unfold response_start_line. cbv zeta. rewrite (next_word_first (version_to_string v)) by done. cbn [fst snd].
  rewrite next_word_space, (next_word_first (to_string code)) by done. cbn [fst snd].
  do 2 (rewrite (proj2 (String.eqb_neq _ _)) by done). cbn [orb].
  rewrite parse_version_ok by done. cbn [negb fst snd]. rewrite stoi_opt_to_string by done.
  rewrite index_after_space by done.
  set (a := version_to_string v +:+ " " +:+ to_string code +:+ " ").
  replace (version_to_string v +:+ " " +:+ to_string code +:+ " " +:+ reason) with (a +:+ reason)
    by (unfold a; by rewrite !sapp_assoc).
  assert (Ha : String.length a = (String.length (version_to_string v) + 1 + String.length (to_string code) + 1)%nat)
    by (unfold a; rewrite !slength_app; cbn; lia).
  rewrite <-Ha, slength_app. destruct (Nat.ltb_spec (String.length (version_to_string v) + 1 + String.length (to_string code))
    (String.length a + String.length reason)); [|lia].
  rewrite substring_skip. replace (_ - _)%nat with (String.length reason) by lia. by rewrite substring_all by done.
Qed.
