(* ===== verification/HttpProps.v ===== *)
(** * HttpProps: what the HTTP parser and the messages guarantee

    Round trips of requests and responses through the wire format, the independence of
    the parser from the way the input is cut (with the one cut that breaks it), the
    invariant of the parser's states, and the well-formedness of the messages that the
    constructors and setters build. *)

From Stdlib Require Import Ascii String DecimalString DecimalZ.
From S2P Require Import Prelude Text HttpParser HttpMessage HttpStream HttpRoundTrip.

(** ** The header multimap

    [set_header], [add_header], [remove_header] and [clear_headers] work on an ordered
    multimap with lower-case keys. The specification is a function from lower-case
    names to the list of values in the order of insertion; the simulation needs the
    order of the multimap, which every operation keeps. *)

Import HttpMethod ParseState.

Local Open Scope Z_scope.

Abbreviation sorted := (StronglySorted header_le).
Abbreviation lower := normalize_header_name.

(** ** The ordered multimap *)

Lemma elem_of_mm_emplace k v l h : h ∈ mm_emplace k v l <-> h = (k, v) \/ h ∈ l.
Proof.
  induction l as [|x l IH]; cbn; [by rewrite list_elem_of_singleton, elem_of_nil; tauto|].
  case_bool_decide; rewrite !elem_of_cons, ?IH, ?elem_of_cons; tauto.
Qed.

Lemma mm_emplace_sorted k v l : sorted l -> sorted (mm_emplace k v l).
Proof.
  induction 1 as [|x l Hs IH Hx]; cbn; [repeat constructor|]. case_bool_decide as Hk.
  - constructor; [done|]. apply Forall_forall. intros h [->|Hh]%elem_of_mm_emplace; [done|].
    by eapply Forall_forall in Hx.
  - assert (Hle : String.le k x.1) by (destruct (total String.le k x.1); [done|by destruct Hk]).
    constructor; [by constructor|]. constructor; [done|]. eapply Forall_impl; [exact Hx|]. intros h Hh. cbn in Hh.
    unfold header_le in *. by etrans.
Qed.

Lemma mm_erase_sorted k l : sorted l -> sorted (mm_erase k l).
Proof.
  induction 1 as [|x l Hs IH Hx]; [constructor|]. unfold mm_erase. rewrite filter_cons. case_decide; [|done].
  constructor; [done|]. apply Forall_forall. intros h [_ Hh]%list_elem_of_filter. by eapply Forall_forall in Hx.
Qed.

(** The values of a key, in the order of insertion. *)
Definition values (l : HttpHeaders) (k : string) : list string := (filter (fun h => h.1 = k) l).*2.

Lemma values_cons x l k : values (x :: l) k = if decide (x.1 = k) then x.2 :: values l k else values l k.
Proof. unfold values. rewrite filter_cons. by case_decide. Qed.

Lemma mm_erase_cons x l k : mm_erase k (x :: l) = if decide (x.1 = k) then mm_erase k l else x :: mm_erase k l.
Proof. unfold mm_erase. rewrite filter_cons. by repeat case_decide. Qed.

Lemma values_none l k : (forall h, h ∈ l -> h.1 <> k) -> values l k = [].
Proof.
  induction l as [|x l IH]; intros Hl; [done|]. rewrite values_cons, decide_False by (apply Hl; by left).
  apply IH. intros h Hh. apply Hl. by right.
Qed.

Lemma values_emplace k v l k' : sorted l ->
  values (mm_emplace k v l) k' = if decide (k' = k) then values l k' ++ [v] else values l k'.
Proof.
  induction 1 as [|x l Hs IH Hx]; cbn [mm_emplace]; [rewrite values_cons; repeat case_decide; cbn in *; congruence || done|].
  case_bool_decide as Hk.
  - rewrite !values_cons, IH. by repeat case_decide.
  - rewrite (values_cons (k, v)). cbn [fst snd]. repeat case_decide; try congruence.
    subst k'. rewrite values_none; [done|]. intros h Hh E. rewrite <-E in Hk.
    apply elem_of_cons in Hh as [->|Hh]; [by destruct Hk|]. by eapply Forall_forall in Hx.
Qed.

Lemma values_erase k l k' : values (mm_erase k l) k' = if decide (k' = k) then [] else values l k'.
Proof.
  induction l as [|x l IH]; [by case_decide|].
  rewrite mm_erase_cons. destruct (decide (x.1 = k)); rewrite !values_cons, IH; repeat case_decide; congruence.
Qed.

Lemma mm_find_values k l : mm_find k l = head (values l k).
Proof.
  induction l as [|[k' v] l IH]; [done|]. rewrite values_cons. cbn.
  destruct (String.eqb_spec k' k); by case_decide.
Qed.

(** ** The specification *)

Inductive HeaderOp : Set :=
| Set_ (name value : string) | Add (name value : string) | Remove (name : string) | Clear.

Definition run_op (m : HttpMessage) (o : HeaderOp) : HttpMessage :=
  match o with
  | Set_ n v => set_header n v m
  | Add n v => add_header n v m
  | Remove n => remove_header n m
  | Clear => clear_headers m
  end.

(** A map from lower-case names to values. *)
Definition spec_op (s : string -> list string) (o : HeaderOp) : string -> list string :=
  match o with
  | Set_ n v => fun k => if decide (k = lower n) then [v] else s k
  | Add n v => fun k => if decide (k = lower n) then s k ++ [v] else s k
  | Remove n => fun k => if decide (k = lower n) then [] else s k
  | Clear => fun _ => []
  end.

Definition represents (s : string -> list string) (m : HttpMessage) : Prop :=
  sorted (headers_ m) /\ forall k, values (headers_ m) k = s k.

Lemma run_op_represents o s m : represents s m -> represents (spec_op s o) (run_op m o).
Proof.
  intros [Hs Hv]. destruct o as [n v|n v|n|]; (split; [|intros k]);
    unfold run_op, spec_op, set_header, add_header, remove_header, clear_headers, with_headers; cbv zeta; cbn [headers_].
  - by apply mm_emplace_sorted, mm_erase_sorted.
  - rewrite values_emplace, values_erase by (by apply mm_erase_sorted). by case_decide.
  - by apply mm_emplace_sorted.
  - rewrite values_emplace by done. by rewrite Hv.
  - by apply mm_erase_sorted.
  - rewrite values_erase. by rewrite Hv.
  - constructor.
  - done.
Qed.

(** The headers of a message are a map from names, compared without case, to lists
    of values: after any sequence of [set_header], [add_header], [remove_header] and
    [clear_headers] on a new message, [get_headers] is the list of the specification
    in the order of insertion, [get_header] its first value or the empty string,
    [has_header] whether it has one; and the multimap stays ordered. *)
Theorem headers_refine is_response ops name :
  let m := fold_left run_op ops (HttpMessage_new is_response) in
  let vs := fold_left spec_op ops (fun _ => []) (lower name) in
  get_headers m name = vs /\ get_header m name = default "" (head vs) /\
  has_header m name = negb (bool_decide (vs = [])) /\ sorted (headers_ m).
Proof.
  intros m vs. assert (Hr : represents (fold_left spec_op ops (fun _ => [])) m).
  { unfold m. clear. assert (H0 : represents (fun _ => []) (HttpMessage_new is_response)) by (split; [constructor|done]).
    revert H0. generalize (HttpMessage_new is_response) as m, (fun _ : string => @nil string) as s.
    induction ops as [|o ops IH]; intros m s Hm; [done|]. cbn. by apply IH, run_op_represents. }
  destruct Hr as [Hs Hv]. specialize (Hv (lower name)). fold vs in Hv.
  split; [exact Hv|]. unfold get_header, has_header. rewrite mm_find_values, Hv. split; [done|]. split; [|done].
  by destruct vs.
Qed.

(** ** Numbers in headers *)

Lemma strtol_to_string z : strtol (to_string z) = Some z.
Proof.
  pose proof (DecimalZ.of_to z) as E. unfold to_string, strtol.
  destruct (Z.to_int z) as [d|d]; cbn [NilZero.string_of_int].
  - destruct (nilzero_cons d) as (c & s & Ec & Hc).
    rewrite lstrip_id by (rewrite Ec; cbn; by rewrite digit_not_space).
    rewrite Ec. destruct (digit_not_sign c Hc) as [-> ->]. rewrite <-Ec.
    rewrite span_all by apply nilzero_digits. cbn [fst]. destruct (uint_value d) as (d' & -> & Hv).
    cbn -[Z.mul Z.of_uint] in E |- *. f_equal. lia.
  - cbn -[Z.mul Z.of_uint NilZero.uint_of_string span].
    rewrite span_all by apply nilzero_digits. cbn [fst]. destruct (uint_value d) as (d' & -> & Hv).
    cbn -[Z.mul Z.of_uint] in E |- *. f_equal. lia.
Qed.

(** ** Messages and parser *)

Import HttpMethod ParseState.

(** ** Reachable parsers *)

Section reach.
Context {St : Type} `{StartLine St}.
Implicit Types (p : HttpParser St).

(** The parsers that a client can hold: new ones, and what calls make of them. *)
Inductive reached : HttpParser St -> Prop :=
| reached_new b st : reached (HttpParser_new b st)
| reached_parse p d n p' : reached p -> parse d p = Ok n p' -> reached p'
| reached_reset p p' : reached p -> HttpParser.reset p = Ok tt p' -> reached p'.

Lemma reached_plain p : reached p -> plain p.
Proof.
  induction 1 as [b st|p d n p' Hr IH E|p p' Hr IH E]; [done|..].
  - destruct (parse_feed d p IH) as [E' Hp]. rewrite E' in E. by simplify_eq.
  - injection E as <-. done.
Qed.

(** What a call may leave behind: never a state of the chunked coding, and in a body
    always something left to read. *)
Definition parser_type p : Prop :=
  chunked_encoding_ p = false /\
  match state_ p with
  | START_LINE | HEADER_NAME => HttpParser.body_ p = []
  | BODY => Z.of_nat (length (HttpParser.body_ p)) < expected_body_length_ p < 2 ^ 63
  | COMPLETE | ERROR => True
  | HEADER_VALUE | HEADER_COMPLETE | CHUNK_SIZE | CHUNK_DATA | CHUNK_TRAILER => False
  end.

Lemma plain_type p : plain p -> parser_type p.
Proof.
  intros [Hc Hp]. split; [done|]. destruct (state_ p); try done. unfold missing in Hp. lia.
Qed.


(** ** Input in pieces *)

Lemma parse_all_answer d p n : plain p -> stopped (state_ p) = false -> (feed_all d p).1 = Some n ->
  Z.of_nat (length d) <= INT_MAX -> parse d p = Ok (Z.of_nat n) (feed_all d p).2.
Proof.
  intros Hp Hs Hn Hd. destruct (parse_feed d p Hp) as [-> _]. rewrite Hs, Hn. cbn.
  pose proof (feed_consumed _ d p Hp n Hn). rewrite to_int_small; [done|].
  unfold is_int, INT_MIN, INT_MAX in *. lia.
Qed.

Lemma parse_app d1 d2 p n1 p1 n2 p2 : plain p -> last d1 <> Some cr ->
  Z.of_nat (length (d1 ++ d2)) <= INT_MAX ->
  parse d1 p = Ok n1 p1 -> parse d2 p1 = Ok n2 p2 -> state_ p2 <> ERROR ->
  parse (d1 ++ d2) p = Ok (n1 + n2) p2.
Proof.
  intros Hp Hl Hd E1 E2 Hne. rewrite length_app in Hd. destruct (stopped (state_ p)) eqn:Hs.
  { destruct (parse_feed d1 p Hp) as [F1 _]. rewrite Hs, feed_stopped in F1 by done. rewrite F1 in E1. simplify_eq.
    destruct (parse_feed d2 p1 Hp) as [F2 _]. rewrite Hs, feed_stopped in F2 by done. rewrite F2 in E2. simplify_eq.
    destruct (parse_feed (d1 ++ d2) p2 Hp) as [F _]. by rewrite Hs, feed_stopped in F. }
  destruct (parse_feed d1 p Hp) as [F1 Hp1]. rewrite F1, Hs in E1. injection E1 as <- <-.
  destruct (parse_feed d2 _ Hp1) as [F2 Hp2]. rewrite F2 in E2. injection E2 as <- <-.
  destruct (feed_app d1 d2 p Hp Hl Hne) as (k1 & Hk1 & Fa).
  destruct ((feed_all d2 (feed_all d1 p).2).1) as [k2|] eqn:Hk2.
  2: { destruct Hne. by apply (feed_None (S (length d2))). }
  rewrite (parse_all_answer (d1 ++ d2) p (k1 + k2) Hp Hs) by (rewrite ?length_app, ?Fa; done || lia).
  rewrite Fa. pose proof (feed_consumed _ d1 p Hp k1 Hk1). pose proof (feed_consumed _ d2 _ Hp1 k2 Hk2).
  f_equal. rewrite Hk1. cbn [answer].
  rewrite to_int_small by (unfold is_int, INT_MIN, INT_MAX in *; lia).
  destruct (stopped (state_ (feed_all d1 p).2)) eqn:Hs1.
  - rewrite feed_stopped in Hk2 by done. cbn in Hk2. injection Hk2 as <-. lia.
  - rewrite to_int_small by (unfold is_int, INT_MIN, INT_MAX in *; lia). lia.
Qed.

(** C33. The parser does not depend on how its input is cut: calling [parse] on the pieces
    one after the other returns, and unless the parser ends in the error state, one
    call on the whole input returns the sum of the numbers and leaves the same parser.
    No piece but the last may end between a CR and its LF. *)
Theorem parse_streaming p ds dn : reached p ->
  Forall (fun d => last d <> Some cr) ds ->
  Z.of_nat (length (concat (ds ++ [dn]))) <= INT_MAX ->
  exists n p', parse_pieces (ds ++ [dn]) p = Ok n p' /\
    (state_ p' <> ERROR -> parse (concat (ds ++ [dn])) p = Ok n p').
Proof.
  intros Hr%reached_plain Hds Hlen. revert p Hr. induction ds as [|d ds IH]; intros p Hp.
  - cbn. rewrite app_nil_r. destruct (parse_feed dn p Hp) as [F _].
    rewrite (bind_Ok _ _ _ _ _ F). do 2 eexists. split; [reflexivity|]. intros _. by rewrite F, Z.add_0_r.
  - apply Forall_cons in Hds as [Hd Hds]. cbn [app concat] in Hlen |- *. rewrite length_app in Hlen.
    destruct (parse_feed d p Hp) as [F Hp1]. cbn [parse_pieces]. rewrite (bind_Ok _ _ _ _ _ F).
    destruct (IH Hds ltac:(lia) _ Hp1) as (n & p' & E & Heq). rewrite (bind_Ok _ _ _ _ _ E).
    do 2 eexists. split; [reflexivity|]. intros Hne.
    eapply parse_app; rewrite ?length_app; [done|done|lia|exact F|exact (Heq Hne)|done].
Qed.
End reach.

(** A request in three pieces, the second cut in the middle of a header. *)
Definition sample_pieces : list bytes :=
  [text "GET /index?a=1 HT"; text ("TP/1.1" +:+ crlf +:+ "Content-Len")].
Definition sample_last : bytes := text ("gth: 5" +:+ crlf +:+ "X-Id: 7" +:+ crlf +:+ crlf +:+ "hello!").

Lemma parse_streaming_witness :
  match parse_pieces (sample_pieces ++ [sample_last]) (HttpRequestParser_new GET) with
  | Ok n p' => (n =? 60) && bool_decide (state_ p' = COMPLETE) && bool_decide (HttpParser.body_ p' = text "hello")
  | _ => false
  end = true /\
  exists n p', parse_pieces (sample_pieces ++ [sample_last]) (HttpRequestParser_new GET) = Ok n p' /\
    (state_ p' <> ERROR ->
     parse (concat (sample_pieces ++ [sample_last])) (HttpRequestParser_new GET) = Ok n p').
Proof.
  split; [vm_compute; reflexivity|].
  apply (parse_streaming (HttpRequestParser_new GET) sample_pieces sample_last).
  - exact (reached_new false _).
  - repeat constructor; vm_compute; discriminate.
  - vm_compute; discriminate.
Defined.


(** ** Round trips *)

(** A request whose parts the wire format can carry: a known method, a URI that is one
    word, headers as [set_header] keeps them, and a declared length that is the length
    of the body. *)
Record request_ok (r : HttpRequest.HttpRequest) : Prop := mkRequestOk {
  rq_method : HttpRequest.get_method r <> UNKNOWN;
  rq_line : HttpRequest.request r = HttpRequest.with_uri (HttpRequest.get_method r) (HttpRequest.get_uri r);
  rq_uri : word (HttpRequest.get_uri r) = true /\ HttpRequest.get_uri r <> "";
  rq_version : version_ok (version_ (HttpRequest.message r));
  rq_headers : headers_ok (headers_ (HttpRequest.message r));
  rq_body : Z.to_nat (declared (headers_ (HttpRequest.message r))) = length (body_ (HttpRequest.message r));
  rq_size : Z.of_nat (length (HttpRequest.to_string r)) <= INT_MAX }.

Lemma word_no_cr s : word s = true -> no_char cr s = true.
Proof. apply sforall_impl. intros c. each_char c. Qed.

Lemma start_line_no_cr a b c : word a = true -> word b = true -> no_char cr c = true ->
  no_char cr (a +:+ " " +:+ b +:+ " " +:+ c) = true.
Proof.
  intros Ha%word_no_cr Hb%word_no_cr Hc. unfold no_char in *. by rewrite !sforall_app, Ha, Hb, Hc.
Qed.

Lemma length_message sl hs (b : bytes) :
  length (text sl ++ text crlf ++ build_headers_loop hs ++ b) =
    (String.length sl + 2 + length (build_headers_loop hs) + length b)%nat.
Proof. rewrite !length_app, !length_text. change (String.length crlf) with 2%nat. lia. Qed.

Lemma parse_complete {St} `{StartLine St} d (p : HttpParser St) n q : fresh p -> feed_all d p = (Some n, q) ->
  Z.of_nat n <= INT_MAX -> parse d p = Ok (Z.of_nat n) q.
Proof.
  intros (E & _ & _ & Hb & Hc) F Hn. assert (Hp : plain p) by (split; [done|by rewrite E]).
  destruct (parse_feed d p Hp) as [-> _]. rewrite E, F. cbn.
  rewrite to_int_small; [done|]. unfold is_int, INT_MIN, INT_MAX in *. lia.
Qed.

Lemma request_extracts d r0 n q : HttpParser.parse d (HttpRequest.parser_ r0) = Ok n q -> 0 < n ->
  state_ q = COMPLETE ->
  HttpRequest.parse d r0 =
    Ok n (HttpRequest.extract (HttpRequest.mkRequest (HttpRequest.message r0) q (HttpRequest.request r0))).
Proof.
  intros F Hn Eq. unfold HttpRequest.parse. set (r1 := HttpRequest.mkRequest _ q _).
  assert (E1 : HttpRequest.on_parser (HttpParser.parse d) r0 = Ok n r1)
    by (unfold HttpRequest.on_parser; by rewrite F).
  rewrite (bind_Ok _ _ _ _ _ E1), (bind_Ok get _ r1 r1 r1 eq_refl).
  assert (Hc : HttpRequest.is_complete r1 = true) by (apply bool_decide_true; exact Eq).
  rewrite Hc. destruct (Z.ltb_spec 0 n); [done|lia].
Qed.

(** C32. A well-formed request survives the wire: parsing its serialisation, whatever
    follows it on the connection, consumes exactly the serialisation, completes, and
    gives the same method, URI, path, query, version, headers and body. *)
Theorem request_round_trip r r0 rest : request_ok r -> fresh (HttpRequest.parser_ r0) ->
  is_response_ (HttpRequest.message r0) = is_response_ (HttpRequest.message r) ->
  exists r', HttpRequest.parse (HttpRequest.to_string r ++ rest) r0 =
      Ok (Z.of_nat (length (HttpRequest.to_string r))) r' /\
    HttpRequest.is_complete r' = true /\
    HttpRequest.message r' = HttpRequest.message r /\ HttpRequest.request r' = HttpRequest.request r.
Proof.
  intros [Hm Hline [Hw Hne] Hv Hh Hb Hs] Hf Hr. destruct (version_word (version_ (HttpRequest.message r))) as [Hvw _].
  unfold HttpRequest.to_string, build_headers in *. rewrite length_message in Hs |- *. rewrite <-!(assoc_L (++)).
  set (m := HttpRequest.message r) in *.
  destruct (feed_message (HttpRequest.build_start_line r) (headers_ m) (body_ m ++ rest) (HttpRequest.parser_ r0)
              (version_ m) (HttpRequest.with_uri (HttpRequest.get_method r) (HttpRequest.get_uri r)))
    as (q & F & Eq & Ev & Eh & Ebody & Est); try done.
  { apply start_line_no_cr; [apply method_word|done|by apply word_no_cr]. }
  { by apply request_line_ok. }
  { rewrite Hb, length_app. lia. }
  rewrite Hb in F, Ebody. rewrite take_app_length in Ebody. apply (parse_complete _ _ _ _ Hf) in F; [|done].
  eexists. split; [apply (request_extracts _ _ _ _ F); [lia|done]|].
  unfold HttpRequest.is_complete, HttpParser.is_complete, HttpRequest.extract. cbn.
  rewrite Eq, Ev, Eh, Ebody, Est, Hr. split; [done|]. split; [by destruct m|]. by rewrite Hline.
Qed.

(** A response: the code must not already occur in the text of the version. *)
Record response_ok (r : HttpResponse.HttpResponse) : Prop := mkResponseOk {
  rs_code : is_int (HttpResponse.get_status_code r);
  rs_found : contains (to_string (HttpResponse.get_status_code r))
               (version_to_string (version_ (HttpResponse.message r))) = false;
  rs_reason : no_char cr (HttpResponse.get_reason_phrase r) = true;
  rs_version : version_ok (version_ (HttpResponse.message r));
  rs_headers : headers_ok (headers_ (HttpResponse.message r));
  rs_body : Z.to_nat (declared (headers_ (HttpResponse.message r))) = length (body_ (HttpResponse.message r));
  rs_size : Z.of_nat (length (HttpResponse.to_string r)) <= INT_MAX }.

Lemma response_extracts d r0 n q : HttpParser.parse d (HttpResponse.parser_ r0) = Ok n q -> 0 < n ->
  state_ q = COMPLETE ->
  HttpResponse.parse d r0 =
    Ok n (HttpResponse.extract (HttpResponse.mkResponse (HttpResponse.message r0) q (HttpResponse.status r0))).
Proof.
  intros F Hn Eq. unfold HttpResponse.parse. set (r1 := HttpResponse.mkResponse _ q _).
  assert (E1 : HttpResponse.on_parser (HttpParser.parse d) r0 = Ok n r1)
    by (unfold HttpResponse.on_parser; by rewrite F).
  rewrite (bind_Ok _ _ _ _ _ E1), (bind_Ok get _ r1 r1 r1 eq_refl).
  assert (Hc : HttpResponse.is_complete r1 = true) by (apply bool_decide_true; exact Eq).
  rewrite Hc. destruct (Z.ltb_spec 0 n); [done|lia].
Qed.

(** A well-formed response survives the wire in the same way: code, reason phrase
    (also an empty one), version, headers and body come back, and nothing of what
    follows is consumed. *)
Theorem response_round_trip r r0 rest : response_ok r -> fresh (HttpResponse.parser_ r0) ->
  is_response_ (HttpResponse.message r0) = is_response_ (HttpResponse.message r) ->
  exists r', HttpResponse.parse (HttpResponse.to_string r ++ rest) r0 =
      Ok (Z.of_nat (length (HttpResponse.to_string r))) r' /\
    HttpResponse.is_complete r' = true /\
    HttpResponse.message r' = HttpResponse.message r /\ HttpResponse.status r' = HttpResponse.status r.
Proof.
  intros [Hcode Hfound Hreason Hv Hh Hb Hs] Hf Hr.
  destruct (version_word (version_ (HttpResponse.message r))) as [Hvw _].
  destruct (to_string_word (HttpResponse.get_status_code r)) as [Hcw _].
  unfold HttpResponse.to_string, build_headers in *. rewrite length_message in Hs |- *. rewrite <-!(assoc_L (++)).
  set (m := HttpResponse.message r) in *.
  destruct (feed_message (HttpResponse.build_start_line r) (headers_ m) (body_ m ++ rest) (HttpResponse.parser_ r0)
              (version_ m) (mkStatusLine (HttpResponse.get_status_code r) (HttpResponse.get_reason_phrase r)))
    as (q & F & Eq & Ev & Eh & Ebody & Est); try done.
  { by apply start_line_no_cr. }
  { by apply status_line_ok. }
  { rewrite Hb, length_app. lia. }
  rewrite Hb in F, Ebody. rewrite take_app_length in Ebody. apply (parse_complete _ _ _ _ Hf) in F; [|done].
  eexists. split; [apply (response_extracts _ _ _ _ F); [lia|done]|].
  unfold HttpResponse.is_complete, HttpParser.is_complete, HttpResponse.extract. cbn.
  rewrite Eq, Ev, Eh, Ebody, Est, Hr. split; [done|]. split; [by destruct m|].
  unfold HttpResponse.get_status_code, HttpResponse.get_reason_phrase. by destruct (HttpResponse.status r).
Qed.

(** ** The constructors *)

Definition value_ok (v : string) : bool := head_not is_blank v && last_not is_blank v && no_char cr v.

Lemma not_blank_ok v : word v = true -> value_ok v = true.
Proof.
  intros Hv. unfold value_ok. rewrite (word_no_cr v Hv), andb_true_r.
  assert (Hb : sforall (fun c => negb (is_blank c)) v = true)
    by (revert Hv; apply sforall_impl; intros c; each_char c).
  clear Hv. induction v as [|c v IH]; [done|]. cbn in Hb. apply andb_true_iff in Hb as [Hc Hb].
  specialize (IH Hb). apply andb_true_iff in IH as [_ Hl]. rewrite last_not_cons. cbn. rewrite Hc, Hl. by case_match.
Qed.

Lemma set_header_ok n v m : headers_ok (headers_ m) -> header_ok (lower n, v) = true ->
  headers_ok (headers_ (set_header n v m)).
Proof.
  intros [Hf Hs] Hh. split; [|by apply mm_emplace_sorted, mm_erase_sorted].
  apply Forall_forall. intros h [->|Hin]%elem_of_mm_emplace; [done|].
  apply list_elem_of_filter in Hin as [_ Hin]. by eapply Forall_forall in Hf.
Qed.

Lemma declared_set n v m : sorted (headers_ m) -> lower n <> "content-length" ->
  declared (headers_ (set_header n v m)) = declared (headers_ m).
Proof.
  intros Hs Hn. unfold declared. rewrite !mm_find_values. cbn [headers_ set_header with_headers].
  rewrite values_emplace, values_erase by (by apply mm_erase_sorted). by rewrite !decide_False.
Qed.

Lemma declared_length m : sorted (headers_ m) -> is_chunked m = false -> get_body_size m < 2 ^ 63 ->
  declared (headers_ (update_content_length m)) = get_body_size m.
Proof.
  intros Hs Hc Hb. unfold update_content_length. rewrite Hc. cbn [negb].
  unfold declared, set_content_length. rewrite mm_find_values. cbn [headers_ set_header with_headers].
  change (normalize_header_name "content-length") with "content-length"%string.
  rewrite values_emplace, values_erase by (by apply mm_erase_sorted). rewrite !decide_True by done.
  cbn [head app from_option id].
  destruct (to_string_word (get_body_size m)) as [_ Hne]. apply String.eqb_neq in Hne. rewrite Hne.
  unfold stoll. rewrite strtol_to_string. cbn [mbind option_bind]. unfold get_body_size in *.
  by rewrite bool_decide_true by lia.
Qed.

Lemma update_ok m : headers_ok (headers_ m) -> headers_ok (headers_ (update_content_length m)).
Proof.
  intros Hm. unfold update_content_length. destruct (negb _); [|done]. apply set_header_ok; [done|].
  destruct (to_string_word (get_body_size m)) as [Hw _]. apply not_blank_ok in Hw. unfold value_ok in Hw.
  unfold header_ok. cbn [snd]. by rewrite Hw.
Qed.

(** A body with its type and length, as the constructors attach them. *)
Lemma content_ok body ct v (b : bool) : value_ok ct = true -> Z.of_nat (length body) < 2 ^ 63 ->
  let m := update_content_length (set_header "content-type" ct (set_body body (set_version v (HttpMessage_new b)))) in
  headers_ok (headers_ m) /\ Z.to_nat (declared (headers_ m)) = length (body_ m) /\ version_ m = v /\ body_ m = body.
Proof.
  intros Hct Hb m. set (m0 := set_header _ _ _) in m.
  assert (Hh : headers_ok (headers_ m0)).
  { apply set_header_ok; [split; constructor|]. unfold header_ok. cbn [snd]. unfold value_ok in Hct. by rewrite Hct. }
  split; [by apply update_ok|]. split; [|done].
  unfold m. rewrite declared_length; [by unfold get_body_size; rewrite Nat2Z.id|apply Hh|done|done].
Qed.

Lemma body_in_message sl hs (b : bytes) n :
  Z.of_nat (length (text sl ++ text crlf ++ build_headers_loop hs ++ b)) <= n -> Z.of_nat (length b) <= n.
Proof. rewrite length_message. lia. Qed.

Lemma make_request_ok junk m uri v f :
  m <> UNKNOWN -> word uri = true -> uri <> "" -> version_ok v ->
  let r := HttpRequest.on_message f (HttpRequest.HttpRequest_make junk m uri v) in
  let msg := HttpRequest.message r in
  headers_ok (headers_ msg) /\ Z.to_nat (declared (headers_ msg)) = length (body_ msg) /\ version_ msg = v ->
  Z.of_nat (length (HttpRequest.to_string r)) <= INT_MAX -> request_ok r.
Proof. intros Hm Hw Hne Hv r msg (Hh & Hb & Ev) Hs. split; try done. fold msg. by rewrite Ev. Qed.

Lemma make_response_ok junk code reason v f : is_int code -> version_ok v ->
  contains (to_string code) (version_to_string v) = false -> reason <> "" -> no_char cr reason = true ->
  let r := HttpResponse.on_message f (HttpResponse.HttpResponse_make junk code reason v) in
  let msg := HttpResponse.message r in
  headers_ok (headers_ msg) /\ Z.to_nat (declared (headers_ msg)) = length (body_ msg) /\ version_ msg = v ->
  Z.of_nat (length (HttpResponse.to_string r)) <= INT_MAX -> response_ok r.
Proof.
  intros Hcode Hv Hf Hne Hr r msg (Hh & Hb & Ev) Hs. split; try done; fold msg; rewrite ?Ev; try done.
  unfold HttpResponse.get_reason_phrase. cbn. by apply String.eqb_neq in Hne as ->.
Qed.

Lemma default_reason_ok code : get_default_reason_phrase code <> "" /\ no_char cr (get_default_reason_phrase code) = true.
Proof.
  unfold get_default_reason_phrase. destruct (find_first _ _) as [x|] eqn:E; [|done].
  apply find_first_Some in E as [E _]. unfold reason_phrases in E. rewrite !elem_of_cons, elem_of_nil in E.
  by repeat destruct E as [->|E].
Qed.

Lemma with_content_ok junk code reason v body ct : is_int code -> version_ok v ->
  contains (to_string code) (version_to_string v) = false -> reason <> "" -> no_char cr reason = true ->
  value_ok ct = true ->
  let r := HttpResponse.with_content body ct (HttpResponse.HttpResponse_make junk code reason v) in
  Z.of_nat (length (HttpResponse.to_string r)) <= INT_MAX -> response_ok r.
Proof.
  intros Hc Hv Hf Hne Hr Hct r Hs.
  apply (make_response_ok _ _ _ _ (fun m => update_content_length (set_header "content-type" ct (set_body body m))));
    try done. destruct (content_ok body ct v true) as (? & ? & ? & ?); try done.
  apply Z.le_lt_trans with INT_MAX; [exact (body_in_message _ _ _ _ Hs)|done].
Qed.

(** The constructors build well-formed messages: [create_get] and [create_post] for
    every URI that is one word, [create_ok], [create_json] and [create_error] for every
    body, for content types without leading or trailing blanks and without CR, as long
    as the whole message fits an [int]. The declared length is that of the body, so
    the round trips above apply to them. *)
Theorem constructors_well_formed junk v uri ct body jcode code msg :
  version_ok v -> word uri = true -> uri <> "" -> value_ok ct = true -> is_int code ->
  contains (to_string code) (version_to_string v) = false ->
  contains "200" (version_to_string v) = false -> no_char cr msg = true ->
  let get := HttpRequest.create_get junk uri v in
  let post := HttpRequest.create_post junk uri body ct v in
  let ok := HttpResponse.create_ok jcode body ct v in
  let json := HttpResponse.create_json jcode body v in
  let error := HttpResponse.create_error jcode code msg v in
  (Z.of_nat (length (HttpRequest.to_string get)) <= INT_MAX -> request_ok get) /\
  (Z.of_nat (length (HttpRequest.to_string post)) <= INT_MAX -> request_ok post) /\
  (Z.of_nat (length (HttpResponse.to_string ok)) <= INT_MAX -> response_ok ok) /\
  (Z.of_nat (length (HttpResponse.to_string json)) <= INT_MAX -> response_ok json) /\
  (Z.of_nat (length (HttpResponse.to_string error)) <= INT_MAX -> response_ok error).
Proof.
  intros Hv Hw Hne Hct Hcode Hfc Hf2 Hmsg get post ok json error.
  assert (Hlt : INT_MAX < 2 ^ 63) by done. repeat split_and!.
  - apply (make_request_ok _ _ _ _ update_content_length); try done.
    set (m := HttpRequest.message _). split; [by apply update_ok; split; constructor|]. split; [|done].
    unfold m. cbn -[declared update_content_length]. rewrite declared_length; done || constructor.
  - intros Hs. apply (make_request_ok _ _ _ _ (fun m => update_content_length (set_header "content-type" ct (set_body body m))));
      try done. destruct (content_ok body ct v false) as (? & ? & ? & ?); try done.
    apply Z.le_lt_trans with INT_MAX; [exact (body_in_message _ _ _ _ Hs)|done].
  - by apply with_content_ok.
  - by apply with_content_ok.
  - unfold error, HttpResponse.create_error. apply with_content_ok; try done;
      destruct (String.eqb_spec msg ""); try apply default_reason_ok; done.
Qed.

Lemma constructors_well_formed_witness :
  let v := mkVersion 1 1 in
  request_ok (HttpRequest.create_post GET "/users?id=7" (text "payload") "text/plain" v) /\
  response_ok (HttpResponse.create_error 0 404 "" v).
Proof.
  intros v.
  destruct (constructors_well_formed GET v "/users?id=7" "text/plain" (text "payload") 0 404 "") as (_ & H1 & _ & _ & H2);
    try done. split; [apply H1|apply H2]; vm_compute; discriminate.
Defined.

Lemma request_round_trip_witness :
  let r := HttpRequest.create_post GET "/users?id=7" (text "payload") "text/plain" (mkVersion 1 1) in
  exists r', HttpRequest.parse (HttpRequest.to_string r ++ text "GET /next") (HttpRequest.HttpRequest_new PUT) =
      Ok (Z.of_nat (length (HttpRequest.to_string r))) r' /\
    HttpRequest.is_complete r' = true /\
    HttpRequest.message r' = HttpRequest.message r /\ HttpRequest.request r' = HttpRequest.request r.
Proof.
  intros r. apply (request_round_trip r (HttpRequest.HttpRequest_new PUT) (text "GET /next")); [|done|done].
  split; try (vm_compute; done). split; repeat constructor; by vm_compute.
Defined.

Lemma response_round_trip_witness :
  let r := HttpResponse.create_error 0 404 "" (mkVersion 1 1) in
  exists r', HttpResponse.parse (HttpResponse.to_string r ++ []) (HttpResponse.HttpResponse_new 0) =
      Ok (Z.of_nat (length (HttpResponse.to_string r))) r' /\
    HttpResponse.is_complete r' = true /\
    HttpResponse.message r' = HttpResponse.message r /\ HttpResponse.status r' = HttpResponse.status r.
Proof.
  intros r. apply (response_round_trip r (HttpResponse.HttpResponse_new 0) []); [|done|done].
  split; try (vm_compute; done). split; repeat constructor; by vm_compute.
Defined.

(** ** Where the parser and the messages disagree *)

(** The bytes of a message up to and including the empty line. *)
Definition head_of (sl : string) (hs : HttpHeaders) : bytes := text sl ++ text crlf ++ build_headers_loop hs.

Lemma set_chunked_ok m : headers_ok (headers_ m) ->
  headers_ok (headers_ (set_chunked true m)) /\ declared (headers_ (set_chunked true m)) = -1.
Proof.
  intros Hm. assert (Hs : headers_ok (headers_ (set_header "transfer-encoding" "chunked" m)))
    by (by apply set_header_ok).
  split.
  - split; [|by apply mm_erase_sorted, Hs]. apply Forall_forall. intros h [_ Hh]%list_elem_of_filter.
    destruct Hs as [Hf _]. by eapply Forall_forall in Hf.
  - unfold declared, set_chunked. rewrite mm_find_values. cbn [headers_ remove_header with_headers].
    by rewrite values_erase, decide_True.
Qed.

(** A message sent with [set_chunked(true)] is not read back: the parser stops at the
    end of the headers with a complete message whose body is empty, although the
    message it has read says that it is chunked; the encoded body is left on the
    connection, where the next message is expected. *)
Theorem chunked_body_unread r r0 body : fresh (HttpRequest.parser_ r0) ->
  HttpRequest.get_method r <> UNKNOWN -> word (HttpRequest.get_uri r) = true -> HttpRequest.get_uri r <> "" ->
  version_ok (version_ (HttpRequest.message r)) -> headers_ok (headers_ (HttpRequest.message r)) ->
  let sent := HttpRequest.on_message (fun m => set_body body (set_chunked true m)) r in
  let head := head_of (HttpRequest.build_start_line sent) (headers_ (HttpRequest.message sent)) in
  Z.of_nat (length head) <= INT_MAX ->
  exists r', HttpRequest.parse (HttpRequest.to_string sent) r0 = Ok (Z.of_nat (length head)) r' /\
    HttpRequest.is_complete r' = true /\ is_chunked (HttpRequest.message r') = true /\
    body_ (HttpRequest.message r') = [] /\ HttpRequest.to_string sent = head ++ body.
Proof.
  intros Hf Hm Hw Hne Hv Hh sent head Hs. destruct (version_word (version_ (HttpRequest.message r))) as [Hvw _].
  destruct (set_chunked_ok _ Hh) as [Hh' Hd]. set (m := set_chunked true (HttpRequest.message r)) in *.
  change (headers_ (HttpRequest.message sent)) with (headers_ m) in *.
  assert (Et : HttpRequest.to_string sent = head ++ body) by (unfold head, head_of; by rewrite <-!(assoc_L (++))).
  assert (Hl : length head = (String.length (HttpRequest.build_start_line sent) + 2 + length (build_headers_loop (headers_ m)))%nat).
  { unfold head, head_of. rewrite !length_app, !length_text. change (String.length crlf) with 2%nat. lia. }
  destruct (feed_message (HttpRequest.build_start_line sent) (headers_ m) body (HttpRequest.parser_ r0)
              (version_ (HttpRequest.message r)) (HttpRequest.with_uri (HttpRequest.get_method r) (HttpRequest.get_uri r)))
    as (q & F & Eq & Ev & Eh & Ebody & Est); try done.
  { apply start_line_no_cr; [apply method_word|done|by apply word_no_cr]. }
  { by apply request_line_ok. }
  { rewrite Hd. cbn. lia. }
  rewrite Hd, Nat.add_0_r, <-Hl in F. rewrite Hd in Ebody. apply (parse_complete _ _ _ _ Hf) in F; [|done].
  eexists. split; [apply (request_extracts _ _ _ _ F); [rewrite Hl; lia|done]|].
  unfold HttpRequest.is_complete, HttpParser.is_complete, HttpRequest.extract. cbn -[is_chunked].
  rewrite Eq, Ebody. split; [done|]. split; [|done].
  unfold is_chunked, get_header. cbn [headers_]. rewrite Eh, mm_find_values.
  unfold m, set_chunked. cbn [headers_ remove_header set_header with_headers].
  rewrite values_erase, values_emplace, values_erase by (apply mm_erase_sorted, Hh). done.
Qed.

Lemma chunked_body_unread_witness :
  let r := HttpRequest.HttpRequest_make GET POST "/upload" (mkVersion 1 1) in
  let sent := HttpRequest.on_message (fun m => set_body (text ("3" +:+ crlf +:+ "abc" +:+ crlf)) (set_chunked true m)) r in
  exists r', HttpRequest.parse (HttpRequest.to_string sent) (HttpRequest.HttpRequest_new GET) = Ok 53 r' /\
    HttpRequest.is_complete r' = true /\ is_chunked (HttpRequest.message r') = true /\
    body_ (HttpRequest.message r') = [].
Proof.
  intros r sent.
  destruct (chunked_body_unread r (HttpRequest.HttpRequest_new GET) (text ("3" +:+ crlf +:+ "abc" +:+ crlf)))
    as (r' & E & Hc & Hk & Hb & _); try done.
  - split; constructor.
  - by exists r'.
Defined.

(** *** A cut inside a line end *)

Lemma find_line_end_cut l : no_char cr l = true -> find_line_end (text l ++ [cr]) = None.
Proof.
  induction l as [|c l IH]; intros Hl; [done|]. apply no_char_cons in Hl as [Hc Hl]. specialize (IH Hl).
  cbn [list_ascii_of_string app]. destruct (text l ++ [cr]) as [|c' d] eqn:E; [by destruct l|].
  cbn [find_line_end]. apply Ascii.eqb_neq in Hc. rewrite Hc. cbn [andb].
  change (S <$> find_line_end (c' :: d) = None). by rewrite IH.
Qed.

Lemma chomp_line a l : l <> "" -> no_char cr l = true -> chomp (a ++ text l) = a ++ text l.
Proof.
  intros Hne Hl. unfold chomp. assert (Hlast : exists c, last (text l) = Some c /\ c <> cr).
  { clear a. induction l as [|c l IH]; [done|]. apply no_char_cons in Hl as [Hc Hl].
    destruct l as [|c' l]; [by exists c|]. by apply IH. }
  destruct Hlast as (c & Ec & Hc). rewrite last_app, Ec. by apply Ascii.eqb_neq in Hc as ->.
Qed.

(** The first piece goes to the buffer. *)
Lemma feed_cut {St} `{StartLine St} sl (p : HttpParser St) : fresh p -> no_char cr sl = true -> Z.of_nat (String.length sl) < MAX_LINE_LENGTH ->
  feed_all (text sl ++ [cr]) p = (Some (length (text sl ++ [cr])), set_buffer (text sl ++ [cr]) p).
Proof.
  intros (E & Hb & _ & Hbody & Hc) Hsl Hlen. assert (Hp : plain p) by (split; [done|by rewrite E]).
  set (d := text sl ++ [cr]). assert (Hd : d <> []) by (unfold d; by destruct (text sl)).
  assert (S1 : step d p = (Some (length d), set_buffer d p)).
  { rewrite step_partial by (by rewrite E || apply find_line_end_cut). unfold on_partial. cbv zeta.
    rewrite E, Hb. cbn [limit fst app buffer_ set_buffer].
    assert (Z.of_nat (length d) <= MAX_LINE_LENGTH) by (unfold d; rewrite length_app, length_text; cbn; lia).
    destruct (Z.ltb_spec MAX_LINE_LENGTH (Z.of_nat (length d))); [lia|done]. }
  rewrite (feed_step d p _ _ Hp Hd ltac:(by rewrite E) S1), drop_all, feed_nil. cbn. by rewrite Nat.add_0_r.
Qed.

(** The second one completes it with the first header line. *)
Lemma feed_rejoined {St} `{StartLine St} sl h rest (p : HttpParser St) v st : fresh p ->
  parse_start_line (sl +:+ crlf +:+ header_line h) (HttpParser.version_ p) (start_ p) = (true, v, st) ->
  header_ok h = true ->
  let p2 := set_state HEADER_NAME (set_buffer [] (set_start v st p)) in
  exists n, feed_all (nl :: text (header_line h) ++ text crlf ++ rest) (set_buffer (text sl ++ [cr]) p) =
    (Nat.add n <$> (feed_all rest p2).1, (feed_all rest p2).2).
Proof.
  intros (E & Hb & _ & Hbody & Hc) Hst Hh p2. set (p1 := set_buffer (text sl ++ [cr]) p).
  assert (Hp1 : plain p1) by (split; [done|unfold p1; cbn; by rewrite E]).
  set (hl := String nl (header_line h)). assert (Hhl : no_char cr hl = true) by (by apply header_line_no_cr).
  change (nl :: text (header_line h) ++ text crlf ++ rest) with (text hl ++ text crlf ++ rest).
  pose proof (step_line _ p1 _ ltac:(cbn; by rewrite E) (find_line_end_text hl rest Hhl)) as S2.
  rewrite <-length_text, take_app_length in S2. unfold p1 in S2. cbn [buffer_ set_buffer] in S2.
  rewrite chomp_line in S2 by done. fold p1 in S2.
  assert (El : (text sl ++ [cr]) ++ text hl = text (sl +:+ crlf +:+ header_line h))
    by (rewrite !text_app, <-(assoc_L (++)); done).
  assert (En : on_line ((text sl ++ [cr]) ++ text hl) p1 = (true, p2)).
  { unfold on_line, on_start_line. rewrite El, text_string. change (state_ p1) with (state_ p). rewrite E.
    change (HttpParser.version_ p1) with (HttpParser.version_ p). change (start_ p1) with (start_ p). by rewrite Hst. }
  rewrite En in S2. exists (length (text hl) + 2)%nat.
  rewrite (feed_step _ p1 _ _ Hp1 (fun e : text hl ++ text crlf ++ rest = [] => ltac:(discriminate e)) ltac:(cbn; by rewrite E) S2). cbn [snd].
  by replace (drop (length (text hl) + 2) (text hl ++ text crlf ++ rest)) with rest by (by rewrite drop_app_add).
Qed.

(** When the network cuts the input between the CR and the LF of the request line, the
    first header is lost without an error: the line handed to the request-line parser
    then is the request line together with the first header line, and only its first
    three words are read. *)
Theorem cut_line_end_loses_header r p h hs rest :
  fresh p -> HttpRequest.get_method r <> UNKNOWN -> word (HttpRequest.get_uri r) = true ->
  HttpRequest.get_uri r <> "" -> version_ok (version_ (HttpRequest.message r)) ->
  headers_ok (h :: hs) -> declared hs <= 0 ->
  let sl := HttpRequest.build_start_line r in
  Z.of_nat (String.length sl) < MAX_LINE_LENGTH ->
  exists n q, parse_pieces [text sl ++ [cr]; nl :: build_headers_loop (h :: hs) ++ rest] p = Ok n q /\
    state_ q = COMPLETE /\ start_ q = HttpRequest.with_uri (HttpRequest.get_method r) (HttpRequest.get_uri r) /\
    HttpParser.headers_ q = hs.
Proof.
  intros Hf Hm Hw Hne Hv [Hok Hsort] Hd sl Hlen. pose proof Hf as (E & _ & Hhd & Hbody & Hc).
  apply Forall_cons in Hok as [Hh Hok]. inversion Hsort as [|? ? Hsort' Hle]; subst.
  assert (Hp : plain p) by (split; [done|by rewrite E]).
  destruct (version_word (version_ (HttpRequest.message r))) as [Hvw _].
  assert (Hsl : no_char cr sl = true) by (apply start_line_no_cr; [apply method_word|done|by apply word_no_cr]).
  pose proof (feed_cut sl p Hf Hsl Hlen) as F1.
  set (st := HttpRequest.with_uri (HttpRequest.get_method r) (HttpRequest.get_uri r)).
  destruct (feed_rejoined sl h (build_headers_loop hs ++ rest) p (version_ (HttpRequest.message r)) st Hf)
    as (n2 & F2); [|done|].
  { unfold sl, HttpRequest.build_start_line. rewrite !sapp_assoc. by apply request_line_tail. }
  set (p2 := set_state HEADER_NAME _) in F2. assert (Hp2 : plain p2) by done.
  rewrite (feed_headers hs rest p2 Hp2 eq_refl eq_refl Hok) in F2;
    change (HttpParser.headers_ p2) with (HttpParser.headers_ p) in *; rewrite Hhd in *; [|done].
  destruct (feed_after_headers rest (set_headers hs p2) Hp2 eq_refl eq_refl) as (q & F3 & Eq & _ & Eh & _ & Est).
  { cbn -[declared]. lia. }
  rewrite app_nil_l, F3 in F2. destruct (parse_feed (text sl ++ [cr]) p Hp) as [P1 Hp1].
  rewrite F1 in P1, Hp1. cbn [fst snd] in P1, Hp1.
  destruct (parse_feed (nl :: build_headers_loop (h :: hs) ++ rest) _ Hp1) as [P2 _].
  cbn [build_headers_loop] in P2. rewrite <-!(assoc_L (++)), F2 in P2. cbn [fst snd] in P2.
  cbn [parse_pieces build_headers_loop]. rewrite <-!(assoc_L (++)).
  do 2 eexists. rewrite (bind_Ok _ _ _ _ _ P1). unfold mbind, cpp_bind. rewrite P2. split; [reflexivity|].
  by rewrite Eh, Est.
Qed.

Lemma cut_line_end_loses_header_witness :
  let r := HttpRequest.HttpRequest_make GET GET "/index" (mkVersion 1 1) in
  exists n q, parse_pieces [text (HttpRequest.build_start_line r) ++ [cr];
                            nl :: build_headers_loop [("host", "a.example"); ("x-id", "7")]%string ++ []]
      (HttpRequestParser_new GET) = Ok n q /\
    state_ q = COMPLETE /\ start_ q = HttpRequest.with_uri GET "/index" /\
    HttpParser.headers_ q = [("x-id", "7")]%string.
Proof.
  intros r. apply (cut_line_end_loses_header r (HttpRequestParser_new GET) ("host", "a.example")%string); try done.
  split; repeat constructor; by vm_compute.
Defined.

(** *** The reason phrase *)

(** [set_status_code] replaces the reason phrase exactly when it is empty: the default
    phrase of the old code, which the comparison is meant to recognise, stays, because
    the code has been assigned before it is compared. *)
Theorem set_status_code_reason code r :
  HttpResponse.get_status_code (HttpResponse.set_status_code code r) = code /\
  HttpResponse.get_reason_phrase (HttpResponse.set_status_code code r) =
    if String.eqb (HttpResponse.get_reason_phrase r) "" then get_default_reason_phrase code
    else HttpResponse.get_reason_phrase r.
Proof.
  unfold HttpResponse.set_status_code, HttpResponse.get_status_code, HttpResponse.get_reason_phrase. cbn.
  destruct (String.eqb_spec (reason_phrase_ (HttpResponse.status r)) ""); [done|].
  destruct (String.eqb_spec (reason_phrase_ (HttpResponse.status r)) (get_default_reason_phrase code)); done.
Qed.
