(* ===== verification/RoomManager.v ===== *)
(** * RoomManager: rooms, users, messages and files of the video chat

    Models src/zsxq-cpp-ai/StdVideoChatRoom/src/server/RoomManager.h and RoomManager.cpp.
    The singleton's maps are [gmap]s; the order in which an [unordered_map] is visited
    is unspecified and comes from the interface [HashOrder]. The file system is the
    interface [FileSystem]; clocks and UUIDs are arguments. Every operation holds the
    non-recursive [globalMutex_]; the mutex of a room is only ever taken while it is
    held, so it is never contended and is left out. *)

From Stdlib Require Import Ascii String.
From S2P Require Import Prelude Text.

Local Open Scope Z_scope.

(** ** Interfaces *)

(** [false] and [None] are exceptions or streams that cannot be opened. *)
Class FileSystem (F : Type) : Type := {
  fs_exists : F -> string -> option bool;
  fs_remove_all : F -> string -> bool * F;
  fs_remove : F -> string -> bool * F;
  fs_create_directories : F -> string -> bool * F;
  fs_write : F -> string -> string -> bool * F;
  fs_read : F -> string -> option string }.

(** ** Data *)

Record UserInfo : Set := mkUser { userId : string; userName : string; connectionId : string }.

Record ChatMessage : Set := mkChat {
  messageId : string; cm_userId : string; cm_userName : string; content : string; timestamp : Z }.

Record FileInfo : Set := mkFile {
  fileId : string; originalName : string; uploaderUserId : string; uploaderUserName : string;
  fileSize : Z; filePath : string; mimeType : string; uploadTime : Z }.

Record RoomInfo : Set := mkRoom {
  roomId : string;
  users : gmap string UserInfo;
  messages : list ChatMessage;
  typingUsers : gset string;
  files : gmap string FileInfo }.

Definition RoomInfo_new (id : string) : RoomInfo := mkRoom id ∅ [] ∅ ∅.
Definition set_users (us : gmap string UserInfo) (r : RoomInfo) : RoomInfo :=
  mkRoom (roomId r) us (messages r) (typingUsers r) (files r).
Definition set_messages (ms : list ChatMessage) (r : RoomInfo) : RoomInfo :=
  mkRoom (roomId r) (users r) ms (typingUsers r) (files r).
Definition set_typing (ts : gset string) (r : RoomInfo) : RoomInfo :=
  mkRoom (roomId r) (users r) (messages r) ts (files r).
Definition set_files (fs : gmap string FileInfo) (r : RoomInfo) : RoomInfo :=
  mkRoom (roomId r) (users r) (messages r) (typingUsers r) fs.

(** The newest file comes first. *)
Definition newer (a b : FileInfo) : bool := uploadTime b <? uploadTime a.

Section manager.
Context {F : Type} `{FileSystem F} `{HashOrder} `{StdSort _ newer}.

Record RoomManager : Type := mkManager {
  rooms_ : gmap string RoomInfo;
  connectionToRoom_ : gmap string string;
  fileToRoom_ : gmap string string;
  globalMutex_ : bool;
  disk : F }.

Definition RoomManager_new (d : F) : RoomManager := mkManager ∅ ∅ ∅ false d.

Definition set_rooms (rs : gmap string RoomInfo) (m : RoomManager) : RoomManager :=
  mkManager rs (connectionToRoom_ m) (fileToRoom_ m) (globalMutex_ m) (disk m).
Definition set_connections (cs : gmap string string) (m : RoomManager) : RoomManager :=
  mkManager (rooms_ m) cs (fileToRoom_ m) (globalMutex_ m) (disk m).
Definition set_file_rooms (fs : gmap string string) (m : RoomManager) : RoomManager :=
  mkManager (rooms_ m) (connectionToRoom_ m) fs (globalMutex_ m) (disk m).
Definition set_global (b : bool) (m : RoomManager) : RoomManager :=
  mkManager (rooms_ m) (connectionToRoom_ m) (fileToRoom_ m) b (disk m).
Definition set_disk (d : F) (m : RoomManager) : RoomManager :=
  mkManager (rooms_ m) (connectionToRoom_ m) (fileToRoom_ m) (globalMutex_ m) d.

Definition locked {A} (body : cpp RoomManager A) : cpp RoomManager A :=
  lock_guard globalMutex_ set_global body.

Definition update_room (id : string) (r : RoomInfo) (m : RoomManager) : RoomManager :=
  set_rooms (<[id := r]> (rooms_ m)) m.

(** ** Leaving *)

(** The directory of a room is removed if it exists; whether an exception was caught. *)
Definition remove_uploads (room : string) : cpp RoomManager bool :=
  m ← get;
  let uploadDir := "uploads/" +:+ room in
  match fs_exists (disk m) uploadDir with
  | None => mret false
  | Some false => mret true
  | Some true => let r := fs_remove_all (disk m) uploadDir in modify (set_disk r.2) ;; mret r.1
  end.

Definition forget_files (filesToDelete : list string) : cpp RoomManager unit :=
  iterM (fun id => modify (fun m => set_file_rooms (delete id (fileToRoom_ m)) m)) filesToDelete.

(** An empty room disappears with its files. *)
Definition destroy_room (id : string) (r : RoomInfo) : cpp RoomManager unit :=
  modify (fun m => set_rooms (delete id (rooms_ m)) m) ;;
  forget_files (hash_order (files r)).*1 ;;
  _ ← remove_uploads id;
  mret tt.

Definition leaveRoom (room user : string) : cpp RoomManager bool := locked (
  m ← get;
  match rooms_ m !! room with
  | None => mret false
  | Some r =>
      match users r !! user with
      | None => mret false
      | Some u =>
          let r := set_users (delete user (users r)) r in
          modify (update_room room r) ;;
          (if decide (users r = ∅) then destroy_room room r else mret tt) ;;
          modify (fun m => set_connections (delete (connectionId u) (connectionToRoom_ m)) m) ;;
          mret true
      end
  end).

(** ** Joining *)

Definition joinRoom (room : string) (u : UserInfo) : cpp RoomManager bool := locked (
  m ← get;
  (match connectionToRoom_ m !! connectionId u with
   | Some old => _ ← leaveRoom old (userId u); mret tt
   | None => mret tt
   end) ;;
  m ← get;
  let r := default (RoomInfo_new room) (rooms_ m !! room) in
  modify (update_room room (set_users (<[userId u := u]> (users r)) r)) ;;
  modify (fun m => set_connections (<[connectionId u := room]> (connectionToRoom_ m)) m) ;;
  mret true).

(** ** Queries and removal by connection *)

Definition getRoomUsers (room : string) : cpp RoomManager (list UserInfo) := locked (
  m ← get;
  mret (match rooms_ m !! room with None => [] | Some r => (hash_order (users r)).*2 end)).

Definition findRoomByConnection (conn : string) : cpp RoomManager string := locked (
  m ← get; mret (default "" (connectionToRoom_ m !! conn))).

Definition removeUserByConnection (conn : string) : cpp RoomManager unit := locked (
  m ← get;
  match connectionToRoom_ m !! conn with
  | None => mret tt
  | Some room =>
      (match rooms_ m !! room with
       | None => mret tt
       | Some r =>
           let r := match find_first (fun ku => String.eqb (connectionId ku.2) conn) (hash_order (users r)) with
                    | Some ku => set_users (delete ku.1 (users r)) r
                    | None => r
                    end in
           modify (update_room room r) ;;
           if decide (users r = ∅) then destroy_room room r else mret tt
       end) ;;
      modify (fun m => set_connections (delete conn (connectionToRoom_ m)) m)
  end).

(** ** Messages *)

(** The latest hundred. *)
Definition push_message (msg : ChatMessage) (l : list ChatMessage) : list ChatMessage :=
  let l := l ++ [msg] in if Nat.ltb 100 (length l) then tail l else l.

Definition addMessage (room : string) (msg : ChatMessage) : cpp RoomManager bool := locked (
  m ← get;
  match rooms_ m !! room with
  | None => mret false
  | Some r => modify (update_room room (set_messages (push_message msg (messages r)) r)) ;; mret true
  end).

Definition getMessages (room : string) (limit : nat) : cpp RoomManager (list ChatMessage) := locked (
  m ← get;
  mret (match rooms_ m !! room with
        | None => []
        | Some r =>
            let start := if Nat.ltb limit (length (messages r)) then (length (messages r) - limit)%nat else 0%nat in
            drop start (messages r)
        end)).

Definition setUserTyping (room user : string) (isTyping : bool) : cpp RoomManager bool := locked (
  m ← get;
  match rooms_ m !! room with
  | None => mret false
  | Some r =>
      let ts := if isTyping then {[user]} ∪ typingUsers r else typingUsers r ∖ {[user]} in
      modify (update_room room (set_typing ts r)) ;; mret true
  end).

Definition getTypingUsers (room : string) : cpp RoomManager (list string) := locked (
  m ← get;
  mret (match rooms_ m !! room with None => [] | Some r => set_order (typingUsers r) end)).

(** ** Files *)

Definition addFile (room : string) (f : FileInfo) : cpp RoomManager bool := locked (
  m ← get;
  match rooms_ m !! room with
  | None => mret false
  | Some r =>
      modify (update_room room (set_files (<[fileId f := f]> (files r)) r)) ;;
      modify (fun m => set_file_rooms (<[fileId f := room]> (fileToRoom_ m)) m) ;;
      mret true
  end).

Definition getFiles (room : string) : cpp RoomManager (list FileInfo) := locked (
  m ← get;
  mret (match rooms_ m !! room with None => [] | Some r => std_sort newer (hash_order (files r)).*2 end)).

Definition getFileById (id : string) : cpp RoomManager (option FileInfo) := locked (
  m ← get;
  mret (room ← fileToRoom_ m !! id; r ← rooms_ m !! room; files r !! id)).

Definition hasFilePermission (file conn : string) : cpp RoomManager bool := locked (
  m ← get;
  mret (match connectionToRoom_ m !! conn, fileToRoom_ m !! file with
        | Some r1, Some r2 => String.eqb r1 r2
        | _, _ => false
        end)).

Definition deleteRoomFiles (room : string) : cpp RoomManager bool := locked (
  m ← get;
  match rooms_ m !! room with
  | None => mret false
  | Some r =>
      modify (update_room room (set_files ∅ r)) ;;
      forget_files (hash_order (files r)).*1 ;;
      remove_uploads room
  end).
End manager.
Arguments RoomManager F : clear implicits.

(** ** File names *)

(** The text after the last dot. *)
Fixpoint extension (s : string) : option string :=
  match s with
  | EmptyString => None
  | String c s' =>
      match extension s' with
      | Some e => Some e
      | None => if char_eqb c "." then Some s' else None
      end
  end.

Definition mimeTypes : list (string * string) :=
  [("txt", "text/plain"); ("pdf", "application/pdf"); ("doc", "application/msword");
   ("docx", "application/vnd.openxmlformats-officedocument.wordprocessingml.document");
   ("xls", "application/vnd.ms-excel");
   ("xlsx", "application/vnd.openxmlformats-officedocument.spreadsheetml.sheet");
   ("ppt", "application/vnd.ms-powerpoint");
   ("pptx", "application/vnd.openxmlformats-officedocument.presentationml.presentation");
   ("jpg", "image/jpeg"); ("jpeg", "image/jpeg"); ("png", "image/png"); ("gif", "image/gif");
   ("bmp", "image/bmp"); ("svg", "image/svg+xml"); ("mp4", "video/mp4"); ("avi", "video/x-msvideo");
   ("mkv", "video/x-matroska"); ("mp3", "audio/mpeg"); ("wav", "audio/wav"); ("zip", "application/zip");
   ("rar", "application/x-rar-compressed"); ("7z", "application/x-7z-compressed"); ("tar", "application/x-tar");
   ("gz", "application/gzip"); ("json", "application/json"); ("xml", "application/xml"); ("html", "text/html");
   ("css", "text/css"); ("js", "application/javascript")]%string.

Definition getMimeType (filename : string) : string :=
  match extension filename with
  | None => "application/octet-stream"
  | Some ext =>
      match find_first (fun p => String.eqb p.1 (map_string tolower ext)) mimeTypes with
      | Some p => p.2
      | None => "application/octet-stream"
      end
  end.

Definition allowedTypes : list string :=
  ["txt"; "pdf"; "doc"; "docx"; "xls"; "xlsx"; "ppt"; "pptx"; "jpg"; "jpeg"; "png"; "gif"; "bmp"; "svg";
   "mp4"; "avi"; "mkv"; "mp3"; "wav"; "zip"; "rar"; "7z"; "tar"; "gz"; "json"; "xml"; "html"; "css"; "js"]%string.
Definition dangerousTypes : list string :=
  ["exe"; "bat"; "cmd"; "com"; "pif"; "scr"; "vbs"; "jar"; "app"; "deb"; "rpm"]%string.

Definition isFileTypeAllowed (filename : string) : bool :=
  match extension filename with
  | None => false
  | Some ext =>
      let ext := map_string tolower ext in
      if existsb (String.eqb ext) dangerousTypes then false else existsb (String.eqb ext) allowedTypes
  end.
