(* ===== verification/Json.v ===== *)
(** * Json: JSON values and what it takes to print them

    The JSON values that the video chat exchanges, as nlohmann's json.hpp has them. Printing
    a value ([dump]) throws when one of its strings is not UTF-8; the check is the automaton
    of [serializer::decode] in
    src/zsxq-cpp-ai/StdVideoChatRoom/external/json-develop/include/nlohmann/json.hpp. *)

From Stdlib Require Import Ascii String.
From S2P Require Import Prelude Text.

Local Open Scope Z_scope.

(** JSON values; an object is a list of members with distinct names, a floating-point
    number its bits. *)
Inductive json : Set :=
  JNull | JBool (b : bool) | JNum (z : Z) | JStr (s : string) | JArr (l : list json)
  | JObj (l : list (string * json)) | JFloat (bits : Z).

Definition at_key (key : string) (data : json) : option json :=
  match data with
  | JObj l => match find_first (fun kv => String.eqb kv.1 key) l with Some kv => Some kv.2 | None => None end
  | _ => None
  end.
Definition has_key (key : string) (data : json) : bool :=
  match at_key key data with Some _ => true | None => false end.

(** ** The UTF-8 automaton *)

(** 256 entries for the class of a byte, then 16 for each of the 9 states. *)
Definition utf8d : list nat := Eval cbv in [
   0; 0; 0; 0; 0; 0; 0; 0; 0; 0; 0; 0; 0; 0; 0; 0; 0; 0; 0; 0; 0; 0; 0; 0; 0; 0; 0; 0; 0; 0; 0; 0;
   0; 0; 0; 0; 0; 0; 0; 0; 0; 0; 0; 0; 0; 0; 0; 0; 0; 0; 0; 0; 0; 0; 0; 0; 0; 0; 0; 0; 0; 0; 0; 0;
   0; 0; 0; 0; 0; 0; 0; 0; 0; 0; 0; 0; 0; 0; 0; 0; 0; 0; 0; 0; 0; 0; 0; 0; 0; 0; 0; 0; 0; 0; 0; 0;
   0; 0; 0; 0; 0; 0; 0; 0; 0; 0; 0; 0; 0; 0; 0; 0; 0; 0; 0; 0; 0; 0; 0; 0; 0; 0; 0; 0; 0; 0; 0; 0;
   1; 1; 1; 1; 1; 1; 1; 1; 1; 1; 1; 1; 1; 1; 1; 1; 9; 9; 9; 9; 9; 9; 9; 9; 9; 9; 9; 9; 9; 9; 9; 9;
   7; 7; 7; 7; 7; 7; 7; 7; 7; 7; 7; 7; 7; 7; 7; 7; 7; 7; 7; 7; 7; 7; 7; 7; 7; 7; 7; 7; 7; 7; 7; 7;
   8; 8; 2; 2; 2; 2; 2; 2; 2; 2; 2; 2; 2; 2; 2; 2; 2; 2; 2; 2; 2; 2; 2; 2; 2; 2; 2; 2; 2; 2; 2; 2;
   10; 3; 3; 3; 3; 3; 3; 3; 3; 3; 3; 3; 3; 4; 3; 3; 11; 6; 6; 6; 5; 8; 8; 8; 8; 8; 8; 8; 8; 8; 8; 8;
   0; 1; 2; 3; 5; 8; 7; 1; 1; 1; 4; 6; 1; 1; 1; 1; 1; 1; 1; 1; 1; 1; 1; 1; 1; 1; 1; 1; 1; 1; 1; 1;
   1; 0; 1; 1; 1; 1; 1; 0; 1; 0; 1; 1; 1; 1; 1; 1; 1; 2; 1; 1; 1; 1; 1; 2; 1; 2; 1; 1; 1; 1; 1; 1;
   1; 1; 1; 1; 1; 1; 1; 2; 1; 1; 1; 1; 1; 1; 1; 1; 1; 2; 1; 1; 1; 1; 1; 1; 1; 2; 1; 1; 1; 1; 1; 1;
   1; 1; 1; 1; 1; 1; 1; 3; 1; 3; 1; 1; 1; 1; 1; 1; 1; 3; 1; 1; 1; 1; 1; 3; 1; 3; 1; 1; 1; 1; 1; 1;
   1; 3; 1; 1; 1; 1; 1; 1; 1; 1; 1; 1; 1; 1; 1; 1
]%nat.

Definition UTF8_ACCEPT : nat := 0.
Definition UTF8_REJECT : nat := 1.

(** One byte; the code point that the code also accumulates is not used by [dump]. *)
Definition utf8_decode (state : nat) (c : ascii) : nat :=
  let type := nth (nat_of_ascii c) utf8d 0%nat in
  nth (256 + state * 16 + type)%nat utf8d 0%nat.

Fixpoint utf8_run (state : nat) (s : string) : nat :=
  match s with EmptyString => state | String c s' => utf8_run (utf8_decode state c) s' end.

(** A rejection is final, so the state at the end decides. *)
Definition utf8 (s : string) : bool := Nat.eqb (utf8_run UTF8_ACCEPT s) UTF8_ACCEPT.

(** Whether [dump] prints the value; otherwise it throws. *)
Fixpoint dumpable (j : json) : bool :=
  match j with
  | JNull | JBool _ | JNum _ | JFloat _ => true
  | JStr s => utf8 s
  | JArr l => forallb dumpable l
  | JObj l => forallb (fun kv => utf8 kv.1 && dumpable kv.2) l
  end.

(** [j.dump()]; the text is represented by the value. *)
Definition dump {S} (j : json) : cpp S json := if dumpable j then mret j else throw "json::type_error".

(** ** Texts that can be printed *)

Lemma utf8_run_app st a b : utf8_run st (a +:+ b) = utf8_run (utf8_run st a) b.
Proof. revert st. induction a as [|c a IH]; intros st; [done|]. apply IH. Qed.

Lemma utf8_app a b : utf8 a = true -> utf8 b = true -> utf8 (a +:+ b) = true.
Proof. unfold utf8. rewrite !Nat.eqb_eq, utf8_run_app. by intros -> ->. Qed.

Definition is_ascii (c : ascii) : bool := Nat.ltb (nat_of_ascii c) 128.

Lemma utf8_ascii s : sforall is_ascii s = true -> utf8 s = true.
Proof.
  unfold utf8. rewrite Nat.eqb_eq. induction s as [|c s IH]; [done|]. cbn [sforall].
  intros [Hc Hs]%andb_true_iff. change (utf8_run (utf8_decode UTF8_ACCEPT c) s = UTF8_ACCEPT).
  replace (utf8_decode UTF8_ACCEPT c) with UTF8_ACCEPT; [by apply IH|].
  clear -Hc. destruct c as [[] [] [] [] [] [] [] []]; by vm_compute in Hc |- *.
Qed.

Lemma utf8_to_string z : utf8 (to_string z) = true.
Proof.
  apply utf8_ascii. apply (sforall_impl (fun c => is_digit c || char_eqb c "-")); [|apply sign_char_digit_text].
  intros c. unfold is_ascii, is_digit. destruct c as [[] [] [] [] [] [] [] []]; by vm_compute.
Qed.
