(* ===== verification/ChatRoom.v ===== *)
(** * ChatRoom: the WebSocket and HTTPS handlers of the video chat

    Models src/zsxq-cpp-ai/StdVideoChatRoom/src/server/WebSocketHandler.{h,cpp},
    ChatServer.{h,cpp} and src/common/Message.h on top of RoomManager.v. The sources use
    three libraries of which the model has only what is used: nlohmann::json (the parsed
    message is an argument, messages sent are kept as trees instead of text, and printing
    one throws as Json.v says), websocketpp (a
    handle is a number, [live_] the handles whose connection still exists, [sent_] the
    messages handed over for sending) and cpp-httplib (a request is its headers, path
    match and uploaded file). Random numbers, UUIDs and clocks are arguments. The mutex
    of the connection map guards single accesses and is left out. *)

From Stdlib Require Import Ascii String.
From S2P Require Import Prelude Text RoomManager Json.

Local Open Scope Z_scope.

(** ** Messages *)

Module MessageType.
Inductive MessageType : Set :=
  JOIN_ROOM | LEAVE_ROOM | USER_JOINED | USER_LEFT | ROOM_USERS | OFFER | ANSWER | ICE_CANDIDATE | ERROR
  | USER_DISCONNECTED | PING | TEXT_MESSAGE | TYPING_START | TYPING_END | FILE_UPLOADED | FILE_LIST.
End MessageType.
Import MessageType.

Definition messageTypeToString (t : MessageType) : string :=
  match t with
  | JOIN_ROOM => "join_room" | LEAVE_ROOM => "leave_room" | USER_JOINED => "user_joined"
  | USER_LEFT => "user_left" | ROOM_USERS => "room_users" | OFFER => "offer" | ANSWER => "answer"
  | ICE_CANDIDATE => "ice_candidate" | ERROR => "error" | USER_DISCONNECTED => "user_disconnected"
  | PING => "ping" | TEXT_MESSAGE => "text_message" | TYPING_START => "typing_start"
  | TYPING_END => "typing_end" | FILE_UPLOADED => "file_uploaded" | FILE_LIST => "file_list"
  end%string.

Definition stringToMessageType (str : string) : MessageType :=
  if String.eqb str "join_room" then JOIN_ROOM else if String.eqb str "leave_room" then LEAVE_ROOM
  else if String.eqb str "user_joined" then USER_JOINED else if String.eqb str "user_left" then USER_LEFT
  else if String.eqb str "room_users" then ROOM_USERS else if String.eqb str "offer" then OFFER
  else if String.eqb str "answer" then ANSWER else if String.eqb str "ice_candidate" then ICE_CANDIDATE
  else if String.eqb str "error" then ERROR else if String.eqb str "user_disconnected" then USER_DISCONNECTED
  else if String.eqb str "ping" then PING else if String.eqb str "text_message" then TEXT_MESSAGE
  else if String.eqb str "typing_start" then TYPING_START else if String.eqb str "typing_end" then TYPING_END
  else if String.eqb str "file_uploaded" then FILE_UPLOADED else if String.eqb str "file_list" then FILE_LIST
  else ERROR.

(** [duration_cast<milliseconds>] of a clock that counts nanoseconds. *)
Definition millis (t : Z) : Z := Z.quot t 1000000.

Definition text_reply (type : string) (fields : list (string * json)) : json :=
  JObj (("type", JStr type)%string :: fields).

Definition error_reply (message : string) : json :=
  text_reply (messageTypeToString ERROR) [("message", JStr message)]%string.

Abbreviation hdl := Z.

Section handler.
Context {F : Type} `{FileSystem F} `{HashOrder} `{StdSort _ newer}.
(** The text of an address, as a stream prints it. *)
Context (show_ptr : hdl -> string).

Record Server : Type := mkServer {
  manager : RoomManager F;
  connections_ : gset hdl;
  connection_map_ : gmap string hdl;
  connection_id_counter_ : Z;
  message_counter_ : Z;
  live_ : gset hdl;
  sent_ : list (hdl * json) }.

Definition Server_new (d : F) : Server := mkServer (RoomManager_new d) ∅ ∅ 0 0 ∅ [].

Definition set_manager (m : RoomManager F) (s : Server) : Server :=
  mkServer m (connections_ s) (connection_map_ s) (connection_id_counter_ s) (message_counter_ s) (live_ s) (sent_ s).
Definition set_map (c : gset hdl) (cm : gmap string hdl) (n : Z) (s : Server) : Server :=
  mkServer (manager s) c cm n (message_counter_ s) (live_ s) (sent_ s).
Definition set_message_counter (n : Z) (s : Server) : Server :=
  mkServer (manager s) (connections_ s) (connection_map_ s) (connection_id_counter_ s) n (live_ s) (sent_ s).
Definition set_sent (l : list (hdl * json)) (s : Server) : Server :=
  mkServer (manager s) (connections_ s) (connection_map_ s) (connection_id_counter_ s) (message_counter_ s) (live_ s) l.

(** A call of the room manager. *)
Definition rooms {A} (c : cpp (RoomManager F) A) : cpp Server A := fun s =>
  match c (manager s) with
  | Ok a m => Ok a (set_manager m s)
  | Throw e m => Throw e (set_manager m s)
  | Blocked m => Blocked (set_manager m s)
  | Undefined w => Undefined w
  end.

(** ** Sending *)

Definition sendMessage (h : hdl) (message : json) : cpp Server unit :=
  modify (fun s => set_sent (sent_ s ++ [(h, message)]) s).

(** [sendMessage(hdl, j.dump())] and [broadcastToRoom(room, j.dump(), exclude)]. *)
Definition send_json (h : hdl) (j : json) : cpp Server unit := t ← dump j; sendMessage h t.

Definition broadcast_one (message : json) (exclude : string) (u : UserInfo) : cpp Server unit :=
  if String.eqb (connectionId u) exclude then mret tt else
  s ← get;
  match connection_map_ s !! connectionId u with Some h => sendMessage h message | None => mret tt end.

Definition broadcastToRoom (room : string) (message : json) (exclude : string) : cpp Server unit :=
  us ← rooms (getRoomUsers room);
  iterM (broadcast_one message exclude) us.

Definition broadcast_json (room : string) (j : json) (exclude : string) : cpp Server unit :=
  t ← dump j; broadcastToRoom room t exclude.

(** The key of the first entry, in the order of the keys, that holds the handle. *)
Definition getConnectionId (s : Server) (h : hdl) : string :=
  match find_first (fun kv => bool_decide (kv.2 = h) && bool_decide (h ∈ live_ s))
          (string_map_ordered (connection_map_ s)) with
  | Some kv => kv.1
  | None => if decide (h ∈ live_ s) then "temp_" +:+ show_ptr h else "unknown"
  end.

Definition generateMessageId (now : Z) : cpp Server string :=
  s ← get;
  modify (set_message_counter (wrap64 (message_counter_ s + 1))) ;;
  mret (to_string (millis now) +:+ "_" +:+ to_string (message_counter_ s)).

(** ** Connections *)

Definition on_open (h : hdl) : cpp Server unit := modify (fun s =>
  let connId := "conn_" +:+ to_string (connection_id_counter_ s) in
  set_map ({[h]} ∪ connections_ s) (<[connId := h]> (connection_map_ s))
    (wrap64 (connection_id_counter_ s + 1)) s).

Definition on_close (h : hdl) : cpp Server unit :=
  s ← get;
  let connId := getConnectionId s h in
  room ← rooms (findRoomByConnection connId);
  (if negb (String.eqb room "") then
     us ← rooms (getRoomUsers room);
     match find_first (fun u => String.eqb (connectionId u) connId) us with
     | Some u =>
         if negb (String.eqb (userId u) "") then
           broadcast_json room
             (text_reply (messageTypeToString USER_DISCONNECTED) [("userId", JStr (userId u))]%string) connId ;;
           _ ← rooms (leaveRoom room (userId u)); mret tt
         else mret tt
     | None => mret tt
     end
   else mret tt) ;;
  modify (fun s => set_map (connections_ s ∖ {[h]}) (delete connId (connection_map_ s)) (connection_id_counter_ s) s).

(** ** Handlers of the messages *)

(** [std::string x = data[key]]: throws when the member is not a string. *)
Definition get_string (key : string) (data : json) : cpp Server string :=
  match at_key key data with
  | Some (JStr v) => mret v
  | _ => throw "json::type_error"
  end.

Definition user_json (u : UserInfo) : json :=
  JObj [("userId", JStr (userId u)); ("userName", JStr (userName u))]%string.
Definition message_fields (c : ChatMessage) : list (string * json) :=
  [("messageId", JStr (messageId c)); ("userId", JStr (cm_userId c)); ("userName", JStr (cm_userName c));
   ("content", JStr (content c)); ("timestamp", JNum (millis (timestamp c)))]%string.
Definition file_fields (f : FileInfo) : list (string * json) :=
  [("fileId", JStr (fileId f)); ("filename", JStr (originalName f)); ("size", JNum (fileSize f));
   ("mimeType", JStr (mimeType f)); ("uploaderUserId", JStr (uploaderUserId f));
   ("uploaderUserName", JStr (uploaderUserName f)); ("uploadTime", JNum (millis (uploadTime f)))]%string.

(** [user_no] is the random number, from 1000 to 9999. *)
Definition handleJoinRoom (h : hdl) (data : json) (user_no : Z) : cpp Server unit :=
  if negb (has_key "roomId" data) then send_json h (error_reply "缺少roomId字段") else
  room ← get_string "roomId" data;
  let uid := to_string user_no in
  let name := "用户" +:+ uid in
  s ← get;
  let connId := getConnectionId s h in
  ok ← rooms (joinRoom room (mkUser uid name connId));
  if ok : bool then
    us ← rooms (getRoomUsers room);
    send_json h (text_reply (messageTypeToString ROOM_USERS)
      [("userId", JStr uid); ("userName", JStr name);
       ("users", JArr (map user_json (filter (fun u => userId u <> uid) us)))]%string) ;;
    ms ← rooms (getMessages room 20);
    (match ms with
     | [] => mret tt
     | _ :: _ => send_json h (text_reply "message_history"
                   [("messages", JArr (map (fun c => JObj (message_fields c)) ms))]%string)
     end) ;;
    fs ← rooms (getFiles room);
    (match fs with
     | [] => mret tt
     | _ :: _ => send_json h (text_reply (messageTypeToString FILE_LIST)
                   [("files", JArr (map (fun f => JObj (file_fields f)) fs))]%string)
     end) ;;
    broadcast_json room
      (text_reply (messageTypeToString USER_JOINED) [("userId", JStr uid); ("userName", JStr name)]%string) connId
  else send_json h (error_reply "加入房间失败").

Definition handleLeaveRoom (h : hdl) (data : json) : cpp Server unit :=
  if negb (has_key "roomId" data) || negb (has_key "userId" data) then mret tt else
  room ← get_string "roomId" data;
  uid ← get_string "userId" data;
  s ← get;
  let connId := getConnectionId s h in
  ok ← rooms (leaveRoom room uid);
  if ok : bool then
    broadcast_json room (text_reply (messageTypeToString USER_LEFT) [("userId", JStr uid)]%string) connId
  else mret tt.

(** A string compared with a JSON value. *)
Definition is_string (s : string) (v : option json) : bool :=
  match v with Some (JStr t) => String.eqb s t | _ => false end.

Definition handleWebRTCSignaling (h : hdl) (data : json) : cpp Server unit :=
  if negb (has_key "targetUserId" data) then mret tt else
  s ← get;
  room ← rooms (findRoomByConnection (getConnectionId s h));
  if String.eqb room "" then mret tt else
  us ← rooms (getRoomUsers room);
  match find_first (fun u => is_string (userId u) (at_key "targetUserId" data)) us with
  | Some u =>
      s ← get;
      match connection_map_ s !! connectionId u with Some h' => send_json h' data | None => mret tt end
  | None => mret tt
  end.

Definition handleTextMessage (h : hdl) (data : json) (now : Z) : cpp Server unit :=
  if negb (has_key "roomId" data) || negb (has_key "userId" data) || negb (has_key "content" data)
  then send_json h (error_reply "消息格式错误") else
  room ← get_string "roomId" data;
  uid ← get_string "userId" data;
  text ← get_string "content" data;
  s ← get;
  userRoom ← rooms (findRoomByConnection (getConnectionId s h));
  if negb (String.eqb userRoom room) then send_json h (error_reply "用户不在指定房间内") else
  us ← rooms (getRoomUsers room);
  let name := match find_first (fun u => String.eqb (userId u) uid) us with Some u => userName u | None => "" end in
  if String.eqb name "" then send_json h (error_reply "用户不存在") else
  id ← generateMessageId now;
  let c := mkChat id uid name text now in
  ok ← rooms (addMessage room c);
  if ok : bool then broadcast_json room (text_reply (messageTypeToString TEXT_MESSAGE) (message_fields c)) ""
  else send_json h (error_reply "发送消息失败").

Definition handleTypingStatus (h : hdl) (data : json) (isTyping : bool) : cpp Server unit :=
  if negb (has_key "roomId" data) || negb (has_key "userId" data) then mret tt else
  room ← get_string "roomId" data;
  uid ← get_string "userId" data;
  s ← get;
  let connId := getConnectionId s h in
  userRoom ← rooms (findRoomByConnection connId);
  if negb (String.eqb userRoom room) then mret tt else
  ok ← rooms (setUserTyping room uid isTyping);
  if ok : bool then
    broadcast_json room
      (text_reply (messageTypeToString (if isTyping then TYPING_START else TYPING_END)) [("userId", JStr uid)]%string)
      connId
  else mret tt.

(** A heartbeat only writes to the log. *)
Definition updateUserActivity (h : hdl) (uid room : string) : cpp Server unit := mret tt.

Definition dispatch_message (h : hdl) (data : json) (user_no now : Z) : cpp Server unit :=
  if negb (has_key "type" data) then mret tt else
  type ← get_string "type" data;
  match stringToMessageType type with
  | JOIN_ROOM => handleJoinRoom h data user_no
  | LEAVE_ROOM => handleLeaveRoom h data
  | OFFER | ANSWER | ICE_CANDIDATE => handleWebRTCSignaling h data
  | PING =>
      if has_key "userId" data && has_key "roomId" data then
        uid ← get_string "userId" data; room ← get_string "roomId" data; updateUserActivity h uid room
      else mret tt
  | TEXT_MESSAGE => handleTextMessage h data now
  | TYPING_START => handleTypingStatus h data true
  | TYPING_END => handleTypingStatus h data false
  | _ => mret tt
  end.

(** [data] is what [json::parse] makes of the payload; JSON exceptions are caught. *)
Definition on_message (h : hdl) (data : option json) (user_no now : Z) : cpp Server unit := fun s =>
  match data with
  | None => Ok tt s
  | Some data => match dispatch_message h data user_no now s with Throw _ s' => Ok tt s' | r => r end
  end.

Definition broadcastFileUpload (room : string) (f : FileInfo) : cpp Server unit :=
  broadcast_json room (text_reply (messageTypeToString FILE_UPLOADED) (file_fields f)) "".
End handler.
Arguments Server F : clear implicits.
