(* ===== verification/ChatServer.v ===== *)
(** * ChatServer: file transfer of the video chat over HTTPS

    Models src/zsxq-cpp-ai/StdVideoChatRoom/src/server/ChatServer.{h,cpp}: the routes, the
    upload, download and listing of the files of a room, and the static files. A request
    of cpp-httplib is reduced to what the handlers read; a response to what they set. *)

From Stdlib Require Import Ascii String.
From S2P Require Import Prelude Text RoomManager Json ChatRoom.

Local Open Scope Z_scope.

Record Request : Set := mkHttpRequest {
  rq_post : bool;                              (* POST, otherwise GET *)
  rq_path : string;
  x_room_id : option string;
  x_user_id : option string;
  x_connection_id : option string;
  rq_file : option (string * string) }.        (* name and content of the part "file" *)

Inductive Body : Set := Json (j : json) | Plain (s : string).

Record Response : Set := mkReply {
  rs_status : Z;                               (* 200 unless the handler sets it *)
  rs_body : Body;
  rs_type : string;
  rs_attachment : option string }.             (* the name in Content-Disposition *)

Definition json_reply (status : Z) (j : json) : Response := mkReply status (Json j) "application/json" None.
(** The messages are constants, in UTF-8: printing them does not throw. *)
Definition json_error (status : Z) (message : string) : Response :=
  json_reply status (JObj [("error", JStr message)]%string).
Definition plain_reply (status : Z) (message : string) : Response := mkReply status (Plain message) "text/plain" None.

Definition getMimeType (path : string) : string :=
  match extension path with
  | None => "application/octet-stream"
  | Some ext =>
      if String.eqb ext "html" || String.eqb ext "htm" then "text/html"
      else if String.eqb ext "css" then "text/css"
      else if String.eqb ext "js" then "application/javascript"
      else if String.eqb ext "json" then "application/json"
      else if String.eqb ext "png" then "image/png"
      else if String.eqb ext "jpg" || String.eqb ext "jpeg" then "image/jpeg"
      else if String.eqb ext "gif" then "image/gif"
      else if String.eqb ext "svg" then "image/svg+xml"
      else if String.eqb ext "ico" then "image/x-icon"
      else "application/octet-stream"
  end.

Definition MAX_FILE_SIZE : Z := 10 * 1024 * 1024.

Definition public_dir_ : string := "public".

Section server.
Context {F : Type} `{FileSystem F} `{HashOrder} `{StdSort _ newer}.

(** Operations on the disk; a failure is an exception or, for [write_file], [false]. *)
Definition disk_of (s : Server F) : F := disk (manager s).
Definition set_disk_of (d : F) (s : Server F) : Server F := set_manager (set_disk d (manager s)) s.

Definition create_directories (dir : string) : cpp (Server F) unit :=
  s ← get;
  let r := fs_create_directories (disk_of s) dir in
  modify (set_disk_of r.2) ;;
  if r.1 then mret tt else throw "filesystem_error".
Definition remove_file (path : string) : cpp (Server F) unit :=
  s ← get;
  let r := fs_remove (disk_of s) path in
  modify (set_disk_of r.2) ;;
  if r.1 then mret tt else throw "filesystem_error".
Definition write_file (path data : string) : cpp (Server F) bool :=
  s ← get;
  let r := fs_write (disk_of s) path data in
  modify (set_disk_of r.2) ;; mret r.1.

Definition slength (s : string) : Z := Z.of_nat (String.length s).

(** Whether the user named by the header is in the room; the id as an out-parameter. *)
Definition validateUserPermission (req : Request) (room : string) : cpp (Server F) (bool * string) :=
  match x_user_id req with
  | None => mret (false, ""%string)
  | Some uid =>
      us ← ChatRoom.rooms (getRoomUsers room);
      mret (existsb (fun u => String.eqb (userId u) uid) us, uid)
  end.

Definition file_response (f : FileInfo) : json :=
  JObj [("fileId", JStr (fileId f)); ("filename", JStr (originalName f)); ("size", JNum (fileSize f));
        ("uploadTime", JNum (millis (uploadTime f)))]%string.

(** After all checks: store the file, register it, tell the room. *)
Definition store_upload (room uid filename data uuid : string) (now : Z) : cpp (Server F) Response :=
  let uploadDir := "uploads/" +:+ room in
  let path := uploadDir +:+ "/" +:+ uuid +:+ "_" +:+ filename in
  create_directories uploadDir ;;
  ok ← write_file path data;
  if negb ok then mret (json_error 500 "文件保存失败") else
  us ← ChatRoom.rooms (getRoomUsers room);
  let name := match find_first (fun u => String.eqb (userId u) uid) us with Some u => userName u | None => "" end in
  let f := mkFile uuid filename uid name (slength data) path (RoomManager.getMimeType filename) now in
  ok ← ChatRoom.rooms (addFile room f);
  if ok : bool then
    broadcastFileUpload room f ;;
    t ← dump (file_response f); mret (json_reply 200 t)
  else remove_file path ;; mret (json_error 500 "文件信息保存失败").

Definition upload_body (req : Request) (uuid : string) (now : Z) : cpp (Server F) Response :=
  match x_room_id req, x_user_id req with
  | Some room, Some uid =>
      v ← validateUserPermission req room;
      if negb v.1 || negb (String.eqb v.2 uid) then mret (json_error 403 "无权限访问该房间") else
      match rq_file req with
      | None => mret (json_error 400 "没有上传文件")
      | Some (filename, data) =>
          if String.eqb filename "" || String.eqb data "" then mret (json_error 400 "文件为空")
          else if MAX_FILE_SIZE <? slength data then mret (json_error 413 "文件大小超过限制（最大10MB）")
          else if negb (isFileTypeAllowed filename) then mret (json_error 400 "不允许的文件类型")
          else store_upload room uid filename data uuid now
      end
  | _, _ => mret (json_error 400 "缺少必要的头部信息")
  end.

(** [try ... catch (const std::exception&)]. *)
Definition catch_with (reply : Response) (c : cpp (Server F) Response) : cpp (Server F) Response := fun s =>
  match c s with Throw _ s' => Ok reply s' | r => r end.

Definition handleFileUpload (req : Request) (uuid : string) (now : Z) : cpp (Server F) Response :=
  catch_with (json_error 500 "服务器内部错误") (upload_body req uuid now).

Definition handleFileDownload (req : Request) (file : string) : cpp (Server F) Response :=
  catch_with (plain_reply 500 "服务器内部错误") (
    f ← ChatRoom.rooms (getFileById file);
    match f with
    | None => mret (plain_reply 404 "文件不存在")
    | Some f =>
        let conn := default "" (x_connection_id req) in
        ok ← (if String.eqb conn "" then mret true else ChatRoom.rooms (hasFilePermission file conn));
        if negb ok then mret (plain_reply 403 "无权限访问该文件") else
        s ← get;
        match fs_exists (disk_of s) (filePath f) with
        | None => throw "filesystem_error"
        | Some false => mret (plain_reply 404 "文件不存在")
        | Some true =>
            match fs_read (disk_of s) (filePath f) with
            | None => mret (plain_reply 500 "无法读取文件")
            | Some data => mret (mkReply 200 (Plain data) (mimeType f) (Some (originalName f)))
            end
        end
    end).

Definition listed_file (f : FileInfo) : json :=
  JObj [("fileId", JStr (fileId f)); ("filename", JStr (originalName f)); ("size", JNum (fileSize f));
        ("mimeType", JStr (mimeType f)); ("uploaderName", JStr (uploaderUserName f));
        ("uploadTime", JNum (millis (uploadTime f)))]%string.

Definition handleFileList (req : Request) (room : string) : cpp (Server F) Response :=
  catch_with (json_error 500 "服务器内部错误") (
    v ← validateUserPermission req room;
    if negb v.1 then mret (json_error 403 "无权限访问该房间") else
    fs ← ChatRoom.rooms (getFiles room);
    t ← dump (JObj [("files", JArr (map listed_file fs))]%string); mret (json_reply 200 t)).

(** ** Routes *)

Definition read_public (path type : string) : cpp (Server F) Response :=
  s ← get;
  match fs_read (disk_of s) path with
  | Some data => mret (mkReply 200 (Plain data) type None)
  | None => mret (plain_reply 404 "File not found")
  end.

Definition serve_static (path : string) : cpp (Server F) Response :=
  let file_path := public_dir_ +:+ "/" +:+ path in
  if contains ".." path then mret (plain_reply 403 "Forbidden") else read_public file_path (getMimeType file_path).

Fixpoint strip_prefix (p s : string) : option string :=
  match p, s with
  | EmptyString, _ => Some s
  | String a p', String b s' => if char_eqb a b then strip_prefix p' s' else None
  | String _ _, EmptyString => None
  end.

(** The pattern [prefix([^/]+)]. *)
Definition match_segment (prefix path : string) : option string :=
  match strip_prefix prefix path with
  | Some seg => if String.eqb seg "" || negb (no_char "/" seg) then None else Some seg
  | None => None
  end.

(** The routes in the order of registration; [None] when none matches. *)
Definition route (req : Request) (uuid : string) (now : Z) : option (cpp (Server F) Response) :=
  if rq_post req then
    if String.eqb (rq_path req) "/api/upload" then Some (handleFileUpload req uuid now) else None
  else if String.eqb (rq_path req) "/" then Some (read_public (public_dir_ +:+ "/index.html") "text/html")
  else match match_segment "/api/download/" (rq_path req) with
       | Some file => Some (handleFileDownload req file)
       | None =>
           match match_segment "/api/files/" (rq_path req) with
           | Some room => Some (handleFileList req room)
           | None =>
               match strip_prefix "/" (rq_path req) with
               | Some path => if String.eqb path "" || negb (no_char nl path && no_char cr path) then None
                              else Some (serve_static path)
               | None => None
               end
           end
       end.
End server.
