(* ===== verification/RoomProps.v ===== *)
(** * RoomProps: the room manager keeps its maps consistent

    The manager stores each fact twice: a user's connection is in the user's record and
    in [connectionToRoom_], a file is in its room and in [fileToRoom_]. [sound] is what
    every sequence of calls keeps; [exact] is what holds as long as user ids are unique
    in a room and file ids unique. *)

From Stdlib Require Import Ascii String.
From S2P Require Import Prelude Text RoomManager.

Local Open Scope Z_scope.

Section props.
Context {F : Type} `{FileSystem F} `{HashOrder} `{StdSort _ newer}.
Implicit Types (m : RoomManager F) (r : RoomInfo) (u : UserInfo).

Lemma elem_of_hash_order {A} (x : gmap string A) k v : (k, v) ∈ hash_order x <-> x !! k = Some v.
Proof. by rewrite hash_order_perm, elem_of_map_to_list. Qed.

Lemma elem_of_hash_keys {A} (x : gmap string A) k : k ∈ (hash_order x).*1 <-> is_Some (x !! k).
Proof.
  rewrite list_elem_of_fmap. split.
  - intros ([k' v] & -> & Hv). apply elem_of_hash_order in Hv. by eexists.
  - intros [v Hv]. exists (k, v). by rewrite elem_of_hash_order.
Qed.

(** ** Calls as functions *)

Lemma locked_free {A} (body : cpp (RoomManager F) A) m a m' :
  globalMutex_ m = false -> body (set_global true m) = Ok a m' -> locked body m = Ok a (set_global false m').
Proof. apply lock_guard_free. Qed.

Lemma unlock_lock m : globalMutex_ m = false -> set_global false (set_global true m) = m.
Proof. destruct m; cbn. by intros ->. Qed.

Lemma remove_uploads_spec room m : exists b d, remove_uploads room m = Ok b (set_disk d m).
Proof.
  unfold remove_uploads. rewrite (bind_Ok get _ m m m eq_refl). cbv zeta.
  destruct (fs_exists (disk m) _) as [[]|]; [|exists true, (disk m)|exists false, (disk m)].
  - do 2 eexists. rewrite (bind_Ok (modify _) _ m tt _ eq_refl). reflexivity.
  - by destruct m.
  - by destruct m.
Qed.

Lemma forget_files_spec ids m : exists fs, forget_files ids m = Ok tt (set_file_rooms fs m) /\
  forall f, fs !! f = if decide (f ∈ ids) then None else fileToRoom_ m !! f.
Proof.
  revert m. induction ids as [|id ids IH]; intros m.
  - exists (fileToRoom_ m). split; [by destruct m|]. intros f. by rewrite decide_False by apply not_elem_of_nil.
  - destruct (IH (set_file_rooms (delete id (fileToRoom_ m)) m)) as (fs & E & Hfs). exists fs. split.
    + unfold forget_files in *. cbn [iterM]. rewrite (bind_Ok (modify _) _ m tt _ eq_refl). exact E.
    + intros f. rewrite Hfs. cbn [fileToRoom_ set_file_rooms].
      destruct (decide (f ∈ ids)); [by rewrite decide_True by (by right)|].
      destruct (decide (f = id)) as [->|]; [by rewrite lookup_delete_eq, decide_True by (by left)|].
      rewrite lookup_delete_ne by done. by rewrite decide_False by (by rewrite not_elem_of_cons).
Qed.

(** What the removal of a user does to the maps. *)
Definition user_removed (room k : string) r (conn : string) m m' : Prop :=
  globalMutex_ m' = false /\ connectionToRoom_ m' = delete conn (connectionToRoom_ m) /\
  if decide (delete k (users r) = ∅) then
    rooms_ m' = delete room (rooms_ m) /\
    (forall f, fileToRoom_ m' !! f = if decide (is_Some (files r !! f)) then None else fileToRoom_ m !! f)
  else rooms_ m' = <[room := set_users (delete k (users r)) r]> (rooms_ m) /\ fileToRoom_ m' = fileToRoom_ m.

Lemma destroy_room_spec room r m : exists d fs,
  destroy_room room r m = Ok tt (mkManager (delete room (rooms_ m)) (connectionToRoom_ m) fs (globalMutex_ m) d) /\
  forall f, fs !! f = if decide (is_Some (files r !! f)) then None else fileToRoom_ m !! f.
Proof.
  unfold destroy_room. rewrite (bind_Ok (modify _) _ m tt _ eq_refl). set (m1 := set_rooms _ m).
  destruct (forget_files_spec (hash_order (files r)).*1 m1) as (fs & E & Hfs).
  destruct (remove_uploads_spec room (set_file_rooms fs m1)) as (b & d & E').
  exists d, fs. rewrite (bind_Ok _ _ _ _ _ E), (bind_Ok _ _ _ _ _ E'). split; [done|].
  intros f. rewrite Hfs. pose proof (elem_of_hash_keys (files r) f) as Hk. by repeat case_decide; tauto || done.
Qed.

(** The part that leaving and disconnecting share. *)
Lemma removal_spec room k r conn m : globalMutex_ m = false -> rooms_ m !! room = Some r ->
  exists m1, (modify (update_room room (set_users (delete k (users r)) r)) ;;
     (if decide (users (set_users (delete k (users r)) r) = ∅)
      then destroy_room room (set_users (delete k (users r)) r) else mret tt)) (set_global true m) = Ok tt m1 /\
    user_removed room k r conn m (set_global false (set_connections (delete conn (connectionToRoom_ m1)) m1)).
Proof.
  intros HL Hr. set (r' := set_users _ r). rewrite (bind_Ok (modify _) _ _ tt _ eq_refl).
  change (users r') with (delete k (users r)). unfold user_removed. case_decide as Hd.
  - destruct (destroy_room_spec room r' (update_room room r' (set_global true m))) as (d & fs & E & Hfs).
    eexists. split; [exact E|]. cbn. split_and!; [done|done|by rewrite delete_insert_eq|exact Hfs].
  - eexists. split; [reflexivity|]. done.
Qed.

Lemma leaveRoom_spec room k m : globalMutex_ m = false ->
  match rooms_ m !! room with
  | Some r =>
      match users r !! k with
      | Some u => exists m', leaveRoom room k m = Ok true m' /\ user_removed room k r (connectionId u) m m'
      | None => leaveRoom room k m = Ok false m
      end
  | None => leaveRoom room k m = Ok false m
  end.
Proof.
  intros HL. destruct (rooms_ m !! room) as [r|] eqn:Er.
  - destruct (users r !! k) as [u|] eqn:Eu.
    + destruct (removal_spec room k r (connectionId u) m HL Er) as (m1 & E & Hrem).
      eexists. split; [|exact Hrem]. apply locked_free; [done|].
      rewrite (bind_Ok get _ _ _ _ eq_refl). change (rooms_ (set_global true m)) with (rooms_ m). rewrite Er, Eu.
      cbv zeta. apply bind_inv_Ok in E as ([] & m2 & E1 & E2).
      rewrite (bind_Ok _ _ _ _ _ E1), (bind_Ok _ _ _ _ _ E2). reflexivity.
    + rewrite <-(unlock_lock m HL) at 2. apply locked_free; [done|].
      rewrite (bind_Ok get _ _ _ _ eq_refl). change (rooms_ (set_global true m)) with (rooms_ m). by rewrite Er, Eu.
  - rewrite <-(unlock_lock m HL) at 2. apply locked_free; [done|].
    rewrite (bind_Ok get _ _ _ _ eq_refl). change (rooms_ (set_global true m)) with (rooms_ m). by rewrite Er.
Qed.

(** The state after a user has joined. *)
Definition joined (room : string) u m : RoomManager F :=
  let r := default (RoomInfo_new room) (rooms_ m !! room) in
  set_connections (<[connectionId u := room]> (connectionToRoom_ m))
    (update_room room (set_users (<[userId u := u]> (users r)) r) m).

Lemma joinRoom_spec room u m : globalMutex_ m = false ->
  match connectionToRoom_ m !! connectionId u with
  | None => joinRoom room u m = Ok true (joined room u m)
  | Some _ => joinRoom room u m = Blocked (set_global true m)
  end.
Proof.
  intros HL. destruct (connectionToRoom_ m !! connectionId u) as [old|] eqn:E.
  - unfold joinRoom, locked, lock_guard. rewrite HL. rewrite (bind_Ok get _ _ _ _ eq_refl).
    change (connectionToRoom_ (set_global true m)) with (connectionToRoom_ m). rewrite E. reflexivity.
  - replace (joined room u m) with (set_global false (joined room u (set_global true m))) by (by destruct m; cbn in *; subst).
    apply locked_free; [done|]. rewrite (bind_Ok get _ _ _ _ eq_refl).
    change (connectionToRoom_ (set_global true m)) with (connectionToRoom_ m). rewrite E. reflexivity.
Qed.

Lemma removeUserByConnection_spec conn m : globalMutex_ m = false ->
  exists m', removeUserByConnection conn m = Ok tt m' /\
    match connectionToRoom_ m !! conn with
    | None => m' = m
    | Some room =>
        match rooms_ m !! room with
        | None => m' = set_connections (delete conn (connectionToRoom_ m)) m
        | Some r =>
            (exists k u, users r !! k = Some u /\ connectionId u = conn /\ user_removed room k r conn m m') \/
            (forall k u, users r !! k = Some u -> connectionId u <> conn) /\
            (users r <> ∅ -> m' = set_connections (delete conn (connectionToRoom_ m)) m)
        end
    end.
Proof.
  intros HL. destruct (connectionToRoom_ m !! conn) as [room|] eqn:Ec.
  2: { exists m. split; [|done]. rewrite <-(unlock_lock m HL) at 2. apply locked_free; [done|].
       rewrite (bind_Ok get _ _ _ _ eq_refl). change (connectionToRoom_ (set_global true m)) with (connectionToRoom_ m).
       by rewrite Ec. }
  destruct (rooms_ m !! room) as [r|] eqn:Er.
  2: { eexists. split; [|reflexivity].
       replace (set_connections _ m) with (set_global false (set_connections (delete conn (connectionToRoom_ m)) (set_global true m)))
         by (by destruct m; cbn in *; subst).
       apply locked_free; [done|]. rewrite (bind_Ok get _ _ _ _ eq_refl).
       change (connectionToRoom_ (set_global true m)) with (connectionToRoom_ m).
       change (rooms_ (set_global true m)) with (rooms_ m). rewrite Ec, Er. reflexivity. }
  destruct (find_first (fun ku => String.eqb (connectionId ku.2) conn) (hash_order (users r))) as [[k u]|] eqn:Ef.
  - pose proof (find_first_Some _ _ _ Ef) as [Hin Heq]. cbn in Heq. apply String.eqb_eq in Heq.
    apply elem_of_hash_order in Hin. destruct (removal_spec room k r conn m HL Er) as (m1 & E & Hrem).
    eexists. split; [|left; exists k, u; split; [done|]; split; [done|exact Hrem]].
    apply locked_free; [done|]. rewrite (bind_Ok get _ _ _ _ eq_refl).
    change (connectionToRoom_ (set_global true m)) with (connectionToRoom_ m).
    change (rooms_ (set_global true m)) with (rooms_ m). rewrite Ec, Er, Ef. cbv zeta. cbn [fst].
    rewrite (bind_Ok _ _ _ _ _ E). reflexivity.
  - pose proof (proj1 (find_first_None _ _) Ef) as Hnone.
    assert (Hno : forall k u, users r !! k = Some u -> connectionId u <> conn).
    { intros k u Hu Heq. apply elem_of_hash_order in Hu. specialize (Hnone _ Hu). cbn in Hnone.
      rewrite Heq, String.eqb_refl in Hnone. done. }
    assert (Hrun : exists m1, (modify (update_room room r) ;;
        (if decide (users r = ∅) then destroy_room room r else mret tt)) (set_global true m) = Ok tt m1 /\
        (users r <> ∅ -> m1 = set_global true m)).
    { rewrite (bind_Ok (modify _) _ _ tt _ eq_refl). case_decide.
      - destruct (destroy_room_spec room r (update_room room r (set_global true m))) as (d & fs & E & _). by eexists.
      - eexists. split; [reflexivity|]. intros _. unfold update_room. destruct m; cbn in *. by rewrite insert_id. }
    destruct Hrun as (m1 & E & Hm1).
    eexists. split; [|right; split; [done|]].
    + apply locked_free; [done|]. rewrite (bind_Ok get _ _ _ _ eq_refl).
      change (connectionToRoom_ (set_global true m)) with (connectionToRoom_ m).
      change (rooms_ (set_global true m)) with (rooms_ m). rewrite Ec, Er, Ef. cbv zeta.
      rewrite (bind_Ok _ _ _ _ _ E). reflexivity.
    + intros Hne. rewrite (Hm1 Hne). by destruct m; cbn in *; subst.
Qed.

(** A call that works on one room, if it exists. *)
Lemma on_room_spec {A} room (none : A) (f : RoomInfo -> cpp (RoomManager F) A) m : globalMutex_ m = false ->
  let body := locked (m ← get; match rooms_ m !! room with None => mret none | Some r => f r end) in
  match rooms_ m !! room with
  | None => body m = Ok none m
  | Some r => forall a m', f r (set_global true m) = Ok a m' -> body m = Ok a (set_global false m')
  end.
Proof.
  intros HL body. unfold body. clear body. destruct (rooms_ m !! room) as [r|] eqn:E.
  - intros a m' Ef. apply locked_free; [done|]. rewrite (bind_Ok get _ _ _ _ eq_refl).
    change (rooms_ (set_global true m)) with (rooms_ m). by rewrite E.
  - rewrite <-(unlock_lock m HL) at 2. apply locked_free; [done|]. rewrite (bind_Ok get _ _ _ _ eq_refl).
    change (rooms_ (set_global true m)) with (rooms_ m). by rewrite E.
Qed.

Ltac unlocked m := destruct m; cbn in *; subst; reflexivity.

Lemma addMessage_spec room msg m : globalMutex_ m = false ->
  addMessage room msg m =
    match rooms_ m !! room with
    | None => Ok false m
    | Some r => Ok true (update_room room (set_messages (push_message msg (messages r)) r) m)
    end.
Proof.
  intros HL. pose proof (on_room_spec room false
    (fun r => modify (update_room room (set_messages (push_message msg (messages r)) r)) ;; mret true) m HL) as E.
  cbv zeta in E. destruct (rooms_ m !! room) as [r|]; [|exact E]. unfold addMessage. rewrite (E true _ eq_refl). unlocked m.
Qed.

Lemma setUserTyping_spec room k b m : globalMutex_ m = false ->
  setUserTyping room k b m =
    match rooms_ m !! room with
    | None => Ok false m
    | Some r => Ok true (update_room room
        (set_typing (if b then {[k]} ∪ typingUsers r else typingUsers r ∖ {[k]}) r) m)
    end.
Proof.
  intros HL. pose proof (on_room_spec room false
    (fun r => modify (update_room room
        (set_typing (if b then {[k]} ∪ typingUsers r else typingUsers r ∖ {[k]}) r)) ;; mret true) m HL) as E.
  cbv zeta in E. destruct (rooms_ m !! room) as [r|]; [|exact E]. unfold setUserTyping. rewrite (E true _ eq_refl). unlocked m.
Qed.

Lemma addFile_spec room f m : globalMutex_ m = false ->
  addFile room f m =
    match rooms_ m !! room with
    | None => Ok false m
    | Some r => Ok true (set_file_rooms (<[fileId f := room]> (fileToRoom_ m))
                          (update_room room (set_files (<[fileId f := f]> (files r)) r) m))
    end.
Proof.
  intros HL. pose proof (on_room_spec room false
    (fun r => modify (update_room room (set_files (<[fileId f := f]> (files r)) r)) ;;
      modify (fun m => set_file_rooms (<[fileId f := room]> (fileToRoom_ m)) m) ;; mret true) m HL) as E.
  cbv zeta in E. destruct (rooms_ m !! room) as [r|]; [|exact E]. unfold addFile. rewrite (E true _ eq_refl). unlocked m.
Qed.

Lemma deleteRoomFiles_spec room m : globalMutex_ m = false ->
  match rooms_ m !! room with
  | None => deleteRoomFiles room m = Ok false m
  | Some r => exists b d fs, deleteRoomFiles room m =
        Ok b (mkManager (<[room := set_files ∅ r]> (rooms_ m)) (connectionToRoom_ m) fs false d) /\
      forall f, fs !! f = if decide (is_Some (files r !! f)) then None else fileToRoom_ m !! f
  end.
Proof.
  intros HL. pose proof (on_room_spec room false
    (fun r => modify (update_room room (set_files ∅ r)) ;; forget_files (hash_order (files r)).*1 ;;
      remove_uploads room) m HL) as E.
  cbv zeta in E. destruct (rooms_ m !! room) as [r|]; [|exact E].
  destruct (forget_files_spec (hash_order (files r)).*1 (update_room room (set_files ∅ r) (set_global true m)))
    as (fs & E1 & Hfs).
  destruct (remove_uploads_spec room (set_file_rooms fs (update_room room (set_files ∅ r) (set_global true m))))
    as (b & d & E2).
  exists b, d, fs. split.
  - unfold deleteRoomFiles. refine (eq_trans (E b _ _) _);
      [rewrite (bind_Ok (modify _) _ _ tt _ eq_refl), (bind_Ok _ _ _ _ _ E1); exact E2|reflexivity].
  - intros f. rewrite Hfs. pose proof (elem_of_hash_keys (files r) f) as Hk. by repeat case_decide; tauto || done.
Qed.

(** ** The invariant *)

Record sound m : Prop := mkSound {
  s_unlocked : globalMutex_ m = false;
  s_rooms room r : rooms_ m !! room = Some r ->
    roomId r = room /\ users r <> ∅ /\ (length (messages r) <= 100)%nat;
  s_users room r k u : rooms_ m !! room = Some r -> users r !! k = Some u ->
    userId u = k /\ connectionToRoom_ m !! connectionId u = Some room;
  s_unique room r k1 u1 k2 u2 : rooms_ m !! room = Some r -> users r !! k1 = Some u1 -> users r !! k2 = Some u2 ->
    connectionId u1 = connectionId u2 -> k1 = k2;
  s_file_ids room r k f : rooms_ m !! room = Some r -> files r !! k = Some f -> fileId f = k;
  s_files f room : fileToRoom_ m !! f = Some room -> exists r, rooms_ m !! room = Some r /\ is_Some (files r !! f) }.

Lemma new_sound d : sound (RoomManager_new d).
Proof. by split. Qed.

(** A connection belongs to at most one user of one room. *)
Lemma sound_unique m room1 r1 k1 u1 room2 r2 k2 u2 : sound m ->
  rooms_ m !! room1 = Some r1 -> users r1 !! k1 = Some u1 ->
  rooms_ m !! room2 = Some r2 -> users r2 !! k2 = Some u2 ->
  connectionId u1 = connectionId u2 -> room1 = room2 /\ k1 = k2.
Proof.
  intros Hs Hr1 Hu1 Hr2 Hu2 Ec. destruct (s_users m Hs _ _ _ _ Hr1 Hu1) as [_ H1'].
  destruct (s_users m Hs _ _ _ _ Hr2 Hu2) as [_ H2']. rewrite Ec, H2' in H1'. simplify_eq.
  split; [done|]. by eapply (s_unique m Hs).
Qed.

Lemma user_removed_sound room k r u m m' : sound m -> rooms_ m !! room = Some r -> users r !! k = Some u ->
  user_removed room k r (connectionId u) m m' -> sound m'.
Proof.
  intros Hs Hr Hu (HL & Ec & Hrest).
  (* other users keep their connection *)
  assert (Hother : forall room' r' k' u', rooms_ m !! room' = Some r' -> users r' !! k' = Some u' ->
            (room' <> room \/ k' <> k) -> connectionToRoom_ m' !! connectionId u' = Some room').
  { intros room' r' k' u' Hr' Hu' Hne. rewrite Ec, lookup_delete_ne.
    - by eapply (s_users m Hs).
    - intros Heq. destruct (sound_unique m _ _ _ _ _ _ _ _ Hs Hr Hu Hr' Hu' Heq); destruct Hne; congruence. }
  destruct (decide (delete k (users r) = ∅)) as [Hd|Hd]; destruct Hrest as [Er Ef].
  - split; [done|..]; rewrite Er.
    + intros room' r' [Hne Hr']%lookup_delete_Some. by apply (s_rooms m Hs).
    + intros room' r' k' u' [Hne Hr']%lookup_delete_Some Hu'.
      split; [by eapply (s_users m Hs)|]. eapply Hother; [done..|]. left. congruence.
    + intros room' r' k1 u1 k2 u2 [_ Hr']%lookup_delete_Some. by apply (s_unique m Hs room').
    + intros room' r' k' f [_ Hr']%lookup_delete_Some. by apply (s_file_ids m Hs room').
    + intros f room' Hf. rewrite Ef in Hf. case_decide as Hin; [done|].
      destruct (s_files m Hs _ _ Hf) as (r' & Hr' & Hin'). exists r'. split; [|done].
      rewrite lookup_delete_ne; [done|]. intros <-. rewrite Hr in Hr'. by simplify_eq.
  - split; [done|..]; rewrite Er.
    + intros room' r' [[<- <-]|[Hne Hr']]%lookup_insert_Some; [|by apply (s_rooms m Hs)].
      destruct (s_rooms m Hs _ _ Hr) as (E1 & _ & E3). done.
    + intros room' r' k' u' [[<- <-]|[Hne Hr']]%lookup_insert_Some Hu'.
      * cbn in Hu'. apply lookup_delete_Some in Hu' as [Hk Hu']. split; [by eapply (s_users m Hs)|].
        eapply Hother; [done..|]. right. congruence.
      * split; [by eapply (s_users m Hs)|]. eapply Hother; [done..|]. left. congruence.
    + intros room' r' k1 u1 k2 u2 [[<- <-]|[Hne Hr']]%lookup_insert_Some; [|by apply (s_unique m Hs room')].
      cbn. intros [_ H1']%lookup_delete_Some [_ H2']%lookup_delete_Some. by apply (s_unique m Hs room r).
    + intros room' r' k' f [[<- <-]|[Hne Hr']]%lookup_insert_Some; [by apply (s_file_ids m Hs room r)|].
      by apply (s_file_ids m Hs room').
    + intros f room' Hf. rewrite Ef in Hf. destruct (s_files m Hs _ _ Hf) as (r' & Hr' & Hin').
      destruct (decide (room' = room)) as [->|Hne].
      * rewrite lookup_insert_eq. eexists. split; [done|]. rewrite Hr in Hr'. by simplify_eq.
      * exists r'. by rewrite lookup_insert_ne.
Qed.

(** Changes of a room that leave its users alone. *)
Lemma update_room_sound room r r' m fs : sound m -> rooms_ m !! room = Some r ->
  roomId r' = roomId r -> users r' = users r -> (length (messages r') <= 100)%nat ->
  (forall k f, files r' !! k = Some f -> fileId f = k) ->
  (forall f room', fs !! f = Some room' ->
     if decide (room' = room) then is_Some (files r' !! f) else fileToRoom_ m !! f = Some room') ->
  forall d, sound (mkManager (<[room := r']> (rooms_ m)) (connectionToRoom_ m) fs false d).
Proof.
  intros Hs Hr Eid Eus Hlen Hids Hfs d. split; cbn; [done|..].
  - intros room' r2 [[<- <-]|[Hne Hr']]%lookup_insert_Some; [|by apply (s_rooms m Hs)].
    rewrite Eid, Eus. destruct (s_rooms m Hs _ _ Hr) as (? & ? & _). done.
  - intros room' r2 k u [[<- <-]|[Hne Hr']]%lookup_insert_Some Hu; [|by eapply (s_users m Hs)].
    rewrite Eus in Hu. by eapply (s_users m Hs).
  - intros room' r2 k1 u1 k2 u2 [[<- <-]|[Hne Hr']]%lookup_insert_Some; [|by apply (s_unique m Hs room')].
    rewrite Eus. by apply (s_unique m Hs room).
  - intros room' r2 k f [[<- <-]|[Hne Hr']]%lookup_insert_Some; [apply Hids|by apply (s_file_ids m Hs room')].
  - intros f room' Hf. apply Hfs in Hf. case_decide as Hd.
    + subst. rewrite lookup_insert_eq. by eexists.
    + destruct (s_files m Hs _ _ Hf) as (r2 & Hr2 & Hin). exists r2. by rewrite lookup_insert_ne.
Qed.

Lemma joined_sound room u m : sound m -> connectionToRoom_ m !! connectionId u = None -> sound (joined room u m).
Proof.
  intros Hs Hc. unfold joined. set (r := default _ _).
  assert (Hr : rooms_ m !! room = Some r \/ r = RoomInfo_new room /\ rooms_ m !! room = None).
  { unfold r. destruct (rooms_ m !! room); [by left|by right]. }
  assert (Hold : forall k u', users r !! k = Some u' -> rooms_ m !! room = Some r).
  { intros k u' Hu'. destruct Hr as [|[-> _]]; [done|]. cbn in Hu'. by rewrite lookup_empty in Hu'. }
  assert (Hfresh : forall room' r' k u', rooms_ m !! room' = Some r' -> users r' !! k = Some u' ->
            connectionId u' <> connectionId u).
  { intros room' r' k u' Hr' Hu' Heq. destruct (s_users m Hs _ _ _ _ Hr' Hu') as [_ Hm].
    rewrite Heq in Hm. congruence. }
  split; cbn; [apply Hs|..].
  - intros room' r' [[<- <-]|[Hne Hr']]%lookup_insert_Some; [|by apply (s_rooms m Hs)]. cbn. split_and!.
    + destruct Hr as [Hr|[-> _]]; [|done]. by apply (s_rooms m Hs).
    + apply insert_non_empty.
    + destruct Hr as [Hr|[-> _]]; [|cbn; lia]. by apply (s_rooms m Hs room).
  - intros room' r' k u' [[<- <-]|[Hne Hr']]%lookup_insert_Some Hu'.
    + cbn in Hu'. apply lookup_insert_Some in Hu' as [[<- <-]|[Hk Hu']]; [by rewrite lookup_insert_eq|].
      specialize (Hold _ _ Hu'). rewrite lookup_insert_ne by (by apply not_eq_sym; eapply Hfresh).
      by eapply (s_users m Hs).
    + rewrite lookup_insert_ne by (by apply not_eq_sym; eapply Hfresh). by eapply (s_users m Hs).
  - intros room' r' k1 u1 k2 u2 [[<- <-]|[Hne Hr']]%lookup_insert_Some; [|by apply (s_unique m Hs room')]. cbn.
    intros [[<- <-]|[Hk1 Hu1]]%lookup_insert_Some [[<- <-]|[Hk2 Hu2]]%lookup_insert_Some Heq; [done|..].
    + by destruct (Hfresh _ _ _ _ (Hold _ _ Hu2) Hu2).
    + by destruct (Hfresh _ _ _ _ (Hold _ _ Hu1) Hu1).
    + by eapply (s_unique m Hs room r); [apply (Hold _ _ Hu1)|..].
  - intros room' r' k f [[<- <-]|[Hne Hr']]%lookup_insert_Some; [|by apply (s_file_ids m Hs room')]. cbn.
    destruct Hr as [Hr|[-> _]]; [by apply (s_file_ids m Hs room)|]. cbn. by rewrite lookup_empty.
  - intros f room' Hf. destruct (s_files m Hs _ _ Hf) as (r' & Hr' & Hin).
    destruct (decide (room' = room)) as [->|Hne]; [|exists r'; by rewrite lookup_insert_ne].
    rewrite lookup_insert_eq. eexists. split; [done|]. cbn. destruct Hr as [Hr|[_ Hr]]; congruence.
Qed.

Lemma stale_removed_sound conn m : sound m ->
  (forall room r k u, rooms_ m !! room = Some r -> users r !! k = Some u -> connectionId u <> conn) ->
  sound (set_connections (delete conn (connectionToRoom_ m)) m).
Proof.
  intros Hs Hno. split; cbn; [apply Hs|by apply (s_rooms m Hs)| |by apply (s_unique m Hs)|by apply (s_file_ids m Hs)|by apply (s_files m Hs)].
  intros room r k u Hr Hu. rewrite lookup_delete_ne by (apply not_eq_sym; by eapply Hno). by eapply (s_users m Hs).
Qed.

(** ** Calls in any order *)

(** The calls that change the manager; every one is atomic under its mutex, so the calls
    of several threads are a sequence of these. *)
Inductive RoomOp : Set :=
| Join (room : string) (u : UserInfo) | Leave (room user : string) | Disconnect (conn : string)
| Say (room : string) (msg : ChatMessage) | Typing (room user : string) (b : bool)
| Upload (room : string) (f : FileInfo) | DeleteFiles (room : string).

Definition run_op (o : RoomOp) : cpp (RoomManager F) unit :=
  match o with
  | Join room u => _ ← joinRoom room u; mret tt
  | Leave room k => _ ← leaveRoom room k; mret tt
  | Disconnect conn => removeUserByConnection conn
  | Say room msg => _ ← addMessage room msg; mret tt
  | Typing room k b => _ ← setUserTyping room k b; mret tt
  | Upload room f => _ ← addFile room f; mret tt
  | DeleteFiles room => _ ← deleteRoomFiles room; mret tt
  end.

Lemma push_message_length msg l : (length l <= 100)%nat -> (length (push_message msg l) <= 100)%nat.
Proof.
  intros Hl. unfold push_message. cbv zeta. assert (length (l ++ [msg]) = S (length l)) by (rewrite length_app; cbn; lia).
  destruct (Nat.ltb_spec 100 (length (l ++ [msg]))); [|done]. destruct (l ++ [msg]); cbn in *; lia.
Qed.

Lemma sound_files m room r f room' : sound m -> rooms_ m !! room = Some r -> fileToRoom_ m !! f = Some room' ->
  if decide (room' = room) then is_Some (files r !! f) else fileToRoom_ m !! f = Some room'.
Proof.
  intros Hs Hr Hf. case_decide; [|done]. subst. destruct (s_files m Hs _ _ Hf) as (r' & Hr' & Hin).
  rewrite Hr in Hr'. by simplify_eq.
Qed.

Lemma update_room_eq room r m : globalMutex_ m = false ->
  update_room room r m = mkManager (<[room := r]> (rooms_ m)) (connectionToRoom_ m) (fileToRoom_ m) false (disk m).
Proof. intros HL. unfold update_room, set_rooms. by rewrite HL. Qed.

(** Every call returns and keeps the invariant, except a join by a connection that is in
    a room already. *)
Lemma run_op_sound o m : sound m ->
  (exists m', run_op o m = Ok tt m' /\ sound m') \/
  (exists room u, o = Join room u /\ is_Some (connectionToRoom_ m !! connectionId u) /\
     run_op o m = Blocked (set_global true m)).
Proof.
  intros Hs. pose proof (s_unlocked m Hs) as HL.
  destruct o as [room u|room k|conn|room msg|room k b|room f|room]; cbn [run_op].
  - pose proof (joinRoom_spec room u m HL) as E. destruct (connectionToRoom_ m !! connectionId u) as [old|] eqn:Ec.
    + right. exists room, u. split; [done|]. split; [by rewrite Ec|]. unfold mbind, cpp_bind. by rewrite E.
    + left. rewrite (bind_Ok _ _ _ _ _ E). eexists. split; [reflexivity|]. by apply joined_sound.
  - left. pose proof (leaveRoom_spec room k m HL) as E. destruct (rooms_ m !! room) as [r|] eqn:Er.
    2: { rewrite (bind_Ok _ _ _ _ _ E). by eexists. }
    destruct (users r !! k) as [u|] eqn:Eu.
    2: { rewrite (bind_Ok _ _ _ _ _ E). by eexists. }
    destruct E as (m' & E & Hrem). rewrite (bind_Ok _ _ _ _ _ E). eexists. split; [reflexivity|].
    by eapply user_removed_sound.
  - left. destruct (removeUserByConnection_spec conn m HL) as (m' & E & Hm'). exists m'. split; [done|].
    destruct (connectionToRoom_ m !! conn) as [room|] eqn:Ec; [|by subst].
    assert (Hroom : forall room' r k u, rooms_ m !! room' = Some r -> users r !! k = Some u ->
              connectionId u = conn -> room' = room).
    { intros room' r k u Hr Hu <-. destruct (s_users m Hs _ _ _ _ Hr Hu) as [_ Hm]. congruence. }
    destruct (rooms_ m !! room) as [r|] eqn:Er.
    + destruct Hm' as [(k & u & Hu & <- & Hrem)|[Hno Hkeep]]; [by eapply user_removed_sound|].
      rewrite Hkeep by (by eapply (s_rooms m Hs)). apply stale_removed_sound; [done|].
      intros room' r' k u Hr' Hu Heq. pose proof (Hroom _ _ _ _ Hr' Hu Heq) as ->. rewrite Er in Hr'. simplify_eq.
      by eapply Hno.
    + subst. apply stale_removed_sound; [done|]. intros room' r' k u Hr' Hu Heq.
      pose proof (Hroom _ _ _ _ Hr' Hu Heq) as ->. congruence.
  - left. unfold mbind, cpp_bind. rewrite addMessage_spec by done. destruct (rooms_ m !! room) as [r|] eqn:Er; [|by exists m].
    eexists. split; [reflexivity|]. rewrite update_room_eq by done. apply (update_room_sound room r); try done.
    + apply push_message_length. by apply (s_rooms m Hs room).
    + intros k' f. by apply (s_file_ids m Hs room r).
    + intros f room'. by apply (sound_files m room r).
  - left. unfold mbind, cpp_bind. rewrite setUserTyping_spec by done. destruct (rooms_ m !! room) as [r|] eqn:Er; [|by exists m].
    eexists. split; [reflexivity|]. rewrite update_room_eq by done. apply (update_room_sound room r); try done.
    + apply (s_rooms m Hs room r Er).
    + intros k' f. by apply (s_file_ids m Hs room r).
    + intros f room'. by apply (sound_files m room r).
  - left. unfold mbind, cpp_bind. rewrite addFile_spec by done. destruct (rooms_ m !! room) as [r|] eqn:Er; [|by exists m].
    eexists. split; [reflexivity|]. rewrite update_room_eq by done.
    apply (update_room_sound room r _ m (<[fileId f := room]> (fileToRoom_ m)) Hs Er); try done.
    + apply (s_rooms m Hs room r Er).
    + cbn. intros k f' [[<- <-]|[_ Hf']]%lookup_insert_Some; [done|]. by apply (s_file_ids m Hs room r).
    + cbn. intros f' room' [[<- <-]|[Hne Hf']]%lookup_insert_Some; [rewrite decide_True, lookup_insert_eq by done; by eexists|].
      rewrite lookup_insert_ne by done. by apply (sound_files m room r).
  - left. unfold mbind, cpp_bind. pose proof (deleteRoomFiles_spec room m HL) as E.
    destruct (rooms_ m !! room) as [r|] eqn:Er; [|rewrite E; by exists m].
    destruct E as (b & d & fs & E & Hfs). rewrite E. eexists. split; [reflexivity|].
    apply (update_room_sound room r); try done.
    + apply (s_rooms m Hs room r Er).
    + cbn. intros f room'. rewrite Hfs. case_decide as Hin; [done|]. intros Hf.
      pose proof (sound_files m room r f room' Hs Er Hf) as Hsf. case_decide; [done|exact Hsf].
Qed.

(** ** Exact maps *)

Record exact m : Prop := mkExact {
  e_sound : sound m;
  e_conns c room : connectionToRoom_ m !! c = Some room ->
    exists r k u, rooms_ m !! room = Some r /\ users r !! k = Some u /\ connectionId u = c;
  e_files room r f : rooms_ m !! room = Some r -> is_Some (files r !! f) -> fileToRoom_ m !! f = Some room }.

(** User ids are new in their room, file ids are new. *)
Definition fresh_op (o : RoomOp) m : Prop :=
  match o with
  | Join room u => forall r, rooms_ m !! room = Some r -> users r !! userId u = None
  | Upload _ f => fileToRoom_ m !! fileId f = None
  | _ => True
  end.

Lemma user_removed_exact room k r u m m' : exact m -> rooms_ m !! room = Some r -> users r !! k = Some u ->
  user_removed room k r (connectionId u) m m' -> exact m'.
Proof.
  intros He Hr Hu Hrem. split; [by eapply (user_removed_sound room k r u m); [apply He|..]|..];
    destruct Hrem as (HL & Ec & Hrest).
  - intros c room' Hc. rewrite Ec in Hc. apply lookup_delete_Some in Hc as [Hne Hc].
    destruct (e_conns m He _ _ Hc) as (r' & k' & u' & Hr' & Hu' & Hcu). exists (if decide (room' = room) then set_users (delete k (users r)) r else r'), k', u'.
    destruct (decide (room' = room)) as [->|Hroom].
    + rewrite Hr in Hr'. simplify_eq.
      assert (Hk : k <> k') by (intros ->; rewrite Hu in Hu'; by simplify_eq).
      assert (Hd : delete k (users r') !! k' = Some u') by (by rewrite lookup_delete_ne).
      rewrite decide_False in Hrest by (intros Hd'; rewrite Hd' in Hd; by rewrite lookup_empty in Hd).
      destruct Hrest as [-> _]. by rewrite lookup_insert_eq.
    + case_decide; destruct Hrest as [-> _]; [by rewrite lookup_delete_ne|by rewrite lookup_insert_ne].
  - intros room' r' f Hr' Hf. case_decide as Hd; destruct Hrest as [Er Ef]; rewrite Er in Hr'.
    + apply lookup_delete_Some in Hr' as [Hne Hr']. pose proof (e_files m He _ _ _ Hr' Hf) as Hm.
      rewrite Ef. case_decide as Hin; [|done]. pose proof (e_files m He _ _ _ Hr Hin). congruence.
    + rewrite Ef. apply lookup_insert_Some in Hr' as [[<- <-]|[Hne Hr']]; [by apply (e_files m He room r)|].
      by eapply (e_files m He).
Qed.

Lemma joined_exact room u m : exact m -> connectionToRoom_ m !! connectionId u = None -> fresh_op (Join room u) m ->
  exact (joined room u m).
Proof.
  intros He Hc Hf. split; [apply joined_sound; [apply He|done]|..]; unfold joined; set (r := default _ _); cbn.
  - intros c room' [[<- <-]|[Hne Hc']]%lookup_insert_Some.
    + rewrite lookup_insert_eq. exists (set_users (<[userId u := u]> (users r)) r), (userId u), u.
      split; [done|]. cbn. by rewrite lookup_insert_eq.
    + destruct (e_conns m He _ _ Hc') as (r' & k' & u' & Hr' & Hu' & <-).
      destruct (decide (room' = room)) as [->|Hroom].
      * rewrite lookup_insert_eq. exists (set_users (<[userId u := u]> (users r)) r), k', u'.
        assert (r = r') as -> by (unfold r; by rewrite Hr'). split; [done|]. split; [|done]. cbn.
        rewrite lookup_insert_ne; [done|]. intros <-. by rewrite (Hf _ Hr') in Hu'.
      * exists r', k', u'. by rewrite lookup_insert_ne.
  - intros room' r' f [[<- <-]|[Hne Hr']]%lookup_insert_Some Hin; [|by eapply (e_files m He)].
    cbn in Hin. destruct (rooms_ m !! room) as [r0|] eqn:Er; cbn in r; subst r; [by eapply (e_files m He)|].
    cbn in Hin. rewrite lookup_empty in Hin. by destruct Hin.
Qed.

Lemma update_room_exact room r r' m fs d : exact m -> rooms_ m !! room = Some r -> users r' = users r ->
  sound (mkManager (<[room := r']> (rooms_ m)) (connectionToRoom_ m) fs false d) ->
  (forall f, is_Some (files r' !! f) -> fs !! f = Some room) ->
  (forall room' f, room' <> room -> fileToRoom_ m !! f = Some room' -> fs !! f = Some room') ->
  exact (mkManager (<[room := r']> (rooms_ m)) (connectionToRoom_ m) fs false d).
Proof.
  intros He Hr Eus Hs Hin Hout. split; [done|..]; cbn.
  - intros c room' Hc. destruct (e_conns m He _ _ Hc) as (r2 & k & u & Hr2 & Hu & <-).
    destruct (decide (room' = room)) as [->|Hne].
    + rewrite lookup_insert_eq. exists r', k, u. rewrite Hr in Hr2. simplify_eq. by rewrite Eus.
    + exists r2, k, u. by rewrite lookup_insert_ne.
  - intros room' r2 f [[<- <-]|[Hne Hr2]]%lookup_insert_Some Hf; [by apply Hin|].
    apply Hout; [done|]. by eapply (e_files m He).
Qed.

Lemma run_op_exact o m m' : exact m -> fresh_op o m -> run_op o m = Ok tt m' -> exact m'.
Proof.
  intros He Hf Hrun. pose proof (e_sound m He) as Hs. pose proof (s_unlocked m Hs) as HL.
  destruct (run_op_sound o m Hs) as [(m2 & Hrun' & Hs')|(? & ? & _ & _ & Hrun')]; [|congruence].
  rewrite Hrun in Hrun'. injection Hrun' as <-.
  destruct o as [room u|room k|conn|room msg|room k b|room f|room]; cbn [run_op] in Hrun.
  - pose proof (joinRoom_spec room u m HL) as E. unfold mbind, cpp_bind in Hrun.
    destruct (connectionToRoom_ m !! connectionId u) eqn:Ec; rewrite E in Hrun; [done|]. injection Hrun as <-.
    by apply joined_exact.
  - pose proof (leaveRoom_spec room k m HL) as E. unfold mbind, cpp_bind in Hrun.
    destruct (rooms_ m !! room) as [r|] eqn:Er; [|rewrite E in Hrun; by injection Hrun as <-].
    destruct (users r !! k) as [u|] eqn:Eu; [|rewrite E in Hrun; by injection Hrun as <-].
    destruct E as (m2 & E & Hrem). rewrite E in Hrun. injection Hrun as <-. by eapply user_removed_exact.
  - destruct (removeUserByConnection_spec conn m HL) as (m2 & E & Hm2). rewrite Hrun in E. injection E as <-.
    destruct (connectionToRoom_ m !! conn) as [room|] eqn:Ec; [|by subst].
    destruct (e_conns m He _ _ Ec) as (r & k & u & Er & Eu & Hcu). rewrite Er in Hm2.
    destruct Hm2 as [(k' & u' & Hu' & <- & Hrem)|[Hno _]]; [exact (user_removed_exact room k' r u' m m' He Er Hu' Hrem)|].
    by destruct (Hno _ _ Eu).
  - unfold mbind, cpp_bind in Hrun. rewrite addMessage_spec in Hrun by done.
    destruct (rooms_ m !! room) as [r|] eqn:Er; injection Hrun as <-; [|done].
    rewrite update_room_eq in * by done. apply (update_room_exact room r); try done.
    intros f. by apply (e_files m He room r).
  - unfold mbind, cpp_bind in Hrun. rewrite setUserTyping_spec in Hrun by done.
    destruct (rooms_ m !! room) as [r|] eqn:Er; injection Hrun as <-; [|done].
    rewrite update_room_eq in * by done. apply (update_room_exact room r); try done.
    intros f. by apply (e_files m He room r).
  - unfold mbind, cpp_bind in Hrun. rewrite addFile_spec in Hrun by done.
    destruct (rooms_ m !! room) as [r|] eqn:Er; injection Hrun as <-; [|done].
    rewrite update_room_eq in * by done.
    apply (update_room_exact room r _ m (<[fileId f := room]> (fileToRoom_ m))); try done; cbn.
    + intros f' Hin. destruct (decide (f' = fileId f)) as [->|Hne]; [by rewrite lookup_insert_eq|].
      rewrite lookup_insert_ne by done. apply (e_files m He room r f' Er). destruct Hin as [x Hx].
      exists x. apply lookup_insert_Some in Hx as [[Hx _]|[_ Hx]]; [congruence|done].
    + intros room' f' Hne Hf'. rewrite lookup_insert_ne; [done|]. intros <-. cbn in Hf. congruence.
  - unfold mbind, cpp_bind in Hrun. pose proof (deleteRoomFiles_spec room m HL) as E.
    destruct (rooms_ m !! room) as [r|] eqn:Er; [|rewrite E in Hrun; by injection Hrun as <-].
    destruct E as (b & d & fs & E & Hfs). rewrite E in Hrun. injection Hrun as <-.
    apply (update_room_exact room r); try done; cbn.
    + intros f. rewrite lookup_empty. by intros [? ?].
    + intros room' f Hne Hf'. rewrite Hfs, decide_False; [done|]. intros Hin.
      pose proof (e_files m He _ _ _ Er Hin). congruence.
Qed.

(** ** The properties *)

(** The managers that calls can produce. *)
Inductive reached_rooms : RoomManager F -> Prop :=
| reached_empty d : reached_rooms (RoomManager_new d)
| reached_call m o m' : reached_rooms m -> run_op o m = Ok tt m' -> reached_rooms m'.

Lemma reached_rooms_sound m : reached_rooms m -> sound m.
Proof.
  induction 1 as [d|m o m' Hr IH E]; [apply new_sound|].
  destruct (run_op_sound o m IH) as [(m2 & E' & Hs)|(? & ? & _ & _ & E')]; rewrite E in E'; by simplify_eq.
Qed.

(** A manager whose mutex is held for ever blocks every call. *)
Lemma blocked_for_ever o m : globalMutex_ m = true -> run_op o m = Blocked m.
Proof.
  intros HL. destruct o; cbn [run_op]; unfold mbind, cpp_bind, joinRoom, leaveRoom, removeUserByConnection, addMessage,
    setUserTyping, addFile, deleteRoomFiles, locked; by rewrite lock_guard_reentrant.
Qed.

(** After any sequence of calls the manager is consistent: rooms are never empty and
    keep at most a hundred messages, every user's connection leads to the user's room and
    to no other user, every registered file is in its room. Every call returns, with one
    exception: a connection that is in a room and joins again stops the manager for good,
    because [joinRoom] calls [leaveRoom] with the mutex held; every later call blocks. *)
Theorem room_manager_sound m : reached_rooms m ->
  sound m /\
  forall o, (exists m', run_op o m = Ok tt m' /\ reached_rooms m') \/
    (exists room u m', o = Join room u /\ is_Some (connectionToRoom_ m !! connectionId u) /\
       run_op o m = Blocked m' /\ forall o', run_op o' m' = Blocked m').
Proof.
  intros Hr. pose proof (reached_rooms_sound m Hr) as Hs. split; [done|]. intros o.
  destruct (run_op_sound o m Hs) as [(m' & E & _)|(room & u & -> & Hc & E)].
  - left. exists m'. split; [done|]. by eapply reached_call.
  - right. exists room, u, (set_global true m). split; [done|]. split; [done|]. split; [done|].
    intros o'. by apply blocked_for_ever.
Qed.

(** The same with ids that are new when they are introduced. *)
Inductive reached_fresh : RoomManager F -> Prop :=
| fresh_empty d : reached_fresh (RoomManager_new d)
| fresh_call m o m' : reached_fresh m -> fresh_op o m -> run_op o m = Ok tt m' -> reached_fresh m'.

Lemma reached_fresh_exact m : reached_fresh m -> exact m.
Proof.
  induction 1 as [d|m o m' Hr IH Hf E]; [|by eapply run_op_exact]. split; [apply new_sound|done|].
  intros room r f Hr. cbn in Hr. by rewrite lookup_empty in Hr.
Qed.

Lemma locked_query {A} (f : RoomManager F -> A) m : globalMutex_ m = false -> f (set_global true m) = f m ->
  locked (m ← get; mret (f m)) m = Ok (f m) m.
Proof.
  intros HL Hf. refine (eq_trans (locked_free _ m _ _ HL (eq_refl : _ = Ok (f (set_global true m)) _)) _).
  by rewrite Hf, unlock_lock.
Qed.

Lemma hasFilePermission_eq file conn m : globalMutex_ m = false ->
  hasFilePermission file conn m =
    Ok (match connectionToRoom_ m !! conn, fileToRoom_ m !! file with
        | Some r1, Some r2 => String.eqb r1 r2
        | _, _ => false
        end) m.
Proof. intros HL. by apply (locked_query (fun m => match connectionToRoom_ m !! conn, fileToRoom_ m !! file with
        | Some r1, Some r2 => String.eqb r1 r2 | _, _ => false end)). Qed.

Lemma getFileById_eq id m : globalMutex_ m = false ->
  getFileById id m = Ok (room ← fileToRoom_ m !! id; r ← rooms_ m !! room; files r !! id) m.
Proof. intros HL. by apply (locked_query (fun m => room ← fileToRoom_ m !! id; r ← rooms_ m !! room; files r !! id)). Qed.

(** C16. With new user ids in each room and new file ids, the two index maps say exactly
    what the rooms say: a connection is in a room exactly when one of its users has that
    connection, a file is registered for a room exactly when the room has it. So
    [getFileById] finds every file of every room, and [hasFilePermission] holds exactly
    for the connections of the users of the file's room. *)
Theorem room_directory_exact m : reached_fresh m ->
  (forall c room, connectionToRoom_ m !! c = Some room <->
     exists r k u, rooms_ m !! room = Some r /\ users r !! k = Some u /\ connectionId u = c) /\
  (forall f room, fileToRoom_ m !! f = Some room <-> exists r, rooms_ m !! room = Some r /\ is_Some (files r !! f)) /\
  (forall f room r x, rooms_ m !! room = Some r -> files r !! f = Some x -> getFileById f m = Ok (Some x) m) /\
  (forall f c, exists b, hasFilePermission f c m = Ok b m /\
     (b = true <-> exists room r k u, rooms_ m !! room = Some r /\ users r !! k = Some u /\ connectionId u = c /\
        is_Some (files r !! f))).
Proof.
  intros Hr%reached_fresh_exact. pose proof (e_sound m Hr) as Hs. pose proof (s_unlocked m Hs) as HL.
  assert (Hc : forall c room, connectionToRoom_ m !! c = Some room <->
     exists r k u, rooms_ m !! room = Some r /\ users r !! k = Some u /\ connectionId u = c).
  { intros c room. split; [apply (e_conns m Hr)|]. intros (r & k & u & Hrm & Hu & <-). by eapply (s_users m Hs). }
  assert (Hf : forall f room, fileToRoom_ m !! f = Some room <-> exists r, rooms_ m !! room = Some r /\ is_Some (files r !! f)).
  { intros f room. split; [apply (s_files m Hs)|]. intros (r & Hrm & Hin). by eapply (e_files m Hr). }
  split_and!; [done|done|..].
  - intros f room r x Hrm Hx. rewrite getFileById_eq by done.
    rewrite (proj2 (Hf f room)) by (exists r; split; [done|by eexists]). cbn. by rewrite Hrm; cbn; rewrite Hx.
  - intros f c. rewrite hasFilePermission_eq by done. eexists. split; [done|]. split.
    + destruct (connectionToRoom_ m !! c) as [r1|] eqn:E1; [|done]. destruct (fileToRoom_ m !! f) as [r2|] eqn:E2; [|done].
      intros ->%String.eqb_eq. apply Hc in E1 as (r & k & u & Hrm & Hu & Hcu). apply Hf in E2 as (r' & Hrm' & Hin).
      rewrite Hrm in Hrm'. simplify_eq. by exists r2, r', k, u.
    + intros (room & r & k & u & Hrm & Hu & Hcu & Hin).
      rewrite (proj2 (Hc c room)), (proj2 (Hf f room)) by eauto 10. apply String.eqb_refl.
Qed.

(** ** The history of a room *)

(** The last [n] elements. *)
Definition lastn {A} (n : nat) (l : list A) : list A := drop (length l - n) l.

Lemma push_message_lastn msg l : (length l <= 100)%nat -> push_message msg l = lastn 100 (l ++ [msg]).
Proof.
  intros Hl. unfold push_message, lastn. cbv zeta. assert (Hn : length (l ++ [msg]) = S (length l)) by (rewrite length_app; cbn; lia).
  destruct (Nat.ltb_spec 100 (length (l ++ [msg]))).
  - replace (length (l ++ [msg]) - 100)%nat with 1%nat by lia. by destruct (l ++ [msg]).
  - replace (length (l ++ [msg]) - 100)%nat with 0%nat by lia. done.
Qed.

Lemma lastn_snoc {A} n (l : list A) x : (0 < n)%nat -> lastn n (lastn n l ++ [x]) = lastn n (l ++ [x]).
Proof.
  intros Hn. unfold lastn. rewrite !length_app, length_drop. cbn.
  destruct (decide (n <= length l)%nat).
  - rewrite !drop_app_le by (rewrite ?length_drop; lia). rewrite drop_drop. do 2 f_equal. lia.
  - replace (length l - n)%nat with 0%nat by lia. rewrite drop_0. do 2 f_equal. lia.
Qed.

Lemma lastn_lastn {A} n k (l : list A) : (n <= k)%nat -> lastn n (lastn k l) = lastn n l.
Proof. intros Hn. unfold lastn. rewrite length_drop, drop_drop. f_equal. lia. Qed.

Lemma length_lastn {A} n (l : list A) : (length (lastn n l) <= n)%nat.
Proof. unfold lastn. rewrite length_drop. lia. Qed.

Lemma say_history room msgs m r : globalMutex_ m = false -> rooms_ m !! room = Some r ->
  (length (messages r) <= 100)%nat ->
  exists m' r', iterM (fun msg => run_op (Say room msg)) msgs m = Ok tt m' /\ globalMutex_ m' = false /\
    rooms_ m' !! room = Some r' /\ messages r' = lastn 100 (messages r ++ msgs).
Proof.
  revert m r. induction msgs as [|msg msgs IH]; intros m r HL Hr Hlen.
  - exists m, r. rewrite app_nil_r. split_and!; try done. unfold lastn. by replace (length (messages r) - 100)%nat with 0%nat by lia.
  - set (r1 := set_messages (push_message msg (messages r)) r).
    destruct (IH (update_room room r1 m) r1) as (m' & r' & E & HL' & Hr' & Hm'); [done|by cbn; rewrite lookup_insert_eq|..].
    { by apply push_message_length. }
    exists m', r'. split_and!; [|done|done|].
    + cbn [iterM run_op]. unfold mbind at 1, cpp_bind at 1. unfold mbind at 1, cpp_bind at 1.
      rewrite addMessage_spec, Hr by done. exact E.
    + rewrite Hm'. cbn [messages set_messages r1]. rewrite push_message_lastn by done.
      clear. rewrite (cons_middle msg (messages r) msgs), app_assoc. generalize (messages r ++ [msg]). intros l.
      revert l. induction msgs as [|x msgs IH]; intros l; [by rewrite !app_nil_r, lastn_lastn by lia|].
      rewrite !(cons_middle x), !app_assoc. rewrite <-(IH (lastn 100 l ++ [x])), <-(IH (l ++ [x])). by rewrite lastn_snoc by lia.
Qed.

Lemma getMessages_eq room limit m : globalMutex_ m = false ->
  getMessages room limit m = Ok (match rooms_ m !! room with None => [] | Some r => lastn limit (messages r) end) m.
Proof.
  intros HL. refine (eq_trans (locked_query (fun m => match rooms_ m !! room with None => [] | Some r =>
    drop (if Nat.ltb limit (length (messages r)) then (length (messages r) - limit)%nat else 0%nat) (messages r) end)
    m HL eq_refl) _). f_equal.
  destruct (rooms_ m !! room) as [r|]; [|done]. unfold lastn. cbv zeta.
  destruct (Nat.ltb_spec limit (length (messages r))); [done|]. by replace (length (messages r) - limit)%nat with 0%nat by lia.
Qed.

(** The history of a room: after any messages have been added to a room,
    [getMessages] returns the latest [limit] of all messages ever sent there, in order, up
    to the hundred that are kept. *)
Theorem history_is_latest m room r msgs limit : reached_rooms m -> rooms_ m !! room = Some r ->
  exists m', iterM (fun msg => run_op (Say room msg)) msgs m = Ok tt m' /\
    getMessages room limit m' = Ok (lastn (Nat.min limit 100) (messages r ++ msgs)) m'.
Proof.
  intros Hr%reached_rooms_sound Hrm. destruct (say_history room msgs m r) as (m' & r' & E & HL & Hr' & Hm');
    [apply Hr|done|by apply (s_rooms m Hr room)|].
  exists m'. split; [done|]. rewrite getMessages_eq, Hr', Hm' by done. f_equal.
  destruct (decide (limit <= 100)%nat); [by rewrite lastn_lastn, Nat.min_l by lia|].
  rewrite Nat.min_r by lia. unfold lastn at 1. pose proof (length_lastn 100 (messages r ++ msgs)).
  by replace (length (lastn 100 (messages r ++ msgs)) - limit)%nat with 0%nat by lia.
Qed.
End props.

(** ** A concrete environment *)

(** Maps visited in the order of [map_to_list]; a disk that is a map from paths to
    contents, in which a directory exists when a file is below it. *)
#[global] Instance list_order : HashOrder := list_hash_order.

Definition below (dir path : string) : bool := String.prefix (dir +:+ "/") path.

#[global] Instance memory_disk : FileSystem (gmap string string) := {|
  fs_exists d p := Some (match d !! p with Some _ => true
                         | None => existsb (fun kv => below p kv.1) (map_to_list d) end);
  fs_remove_all d p := (true, filter (fun kv => kv.1 <> p /\ below p kv.1 = false) d);
  fs_remove d p := (true, delete p d);
  fs_create_directories d p := (true, d);
  fs_write d p c := (true, <[p := c]> d);
  fs_read d p := d !! p |}.

#[global] Instance newer_sort : StdSort newer.
Proof. apply merge_sort_std_sort; unfold newer; intros; rewrite ?Z.ltb_lt, ?Z.ltb_ge in *; lia. Defined.

Definition alice : UserInfo := mkUser "1001" "用户1001" "conn_0".
Definition bob : UserInfo := mkUser "1002" "用户1002" "conn_1".
Definition report : FileInfo := mkFile "f-1" "report.pdf" "1001" "用户1001" 4 "uploads/lobby/f-1_report.pdf" "application/pdf" 7.

(** The calls, one after the other. *)
Definition sample_calls : list RoomOp := [Join "lobby" alice; Join "lobby" bob; Upload "lobby" report; Leave "lobby" "1002"].

Definition run_calls (os : list RoomOp) : RoomManager (gmap string string) :=
  match iterM run_op os (RoomManager_new ∅) with Ok _ m => m | Throw _ m => m | Blocked m => m | Undefined _ => RoomManager_new ∅ end.

Definition after_calls (n : nat) : RoomManager (gmap string string) := run_calls (take n sample_calls).

Lemma sample_fresh : reached_fresh (after_calls 4).
Proof.
  apply (fresh_call (after_calls 3) (Leave "lobby" "1002")); [|done|vm_compute; reflexivity].
  apply (fresh_call (after_calls 2) (Upload "lobby" report)); [|vm_compute; reflexivity|vm_compute; reflexivity].
  apply (fresh_call (after_calls 1) (Join "lobby" bob)); [|vm_compute; by intros r [= <-]|vm_compute; reflexivity].
  apply (fresh_call (after_calls 0) (Join "lobby" alice)); [apply fresh_empty| |vm_compute; reflexivity].
  intros r Hr. by vm_compute in Hr.
Qed.

Lemma reached_fresh_rooms {F} `{FileSystem F} `{HashOrder} (m : RoomManager F) : reached_fresh m -> reached_rooms m.
Proof. induction 1; [constructor|by eapply reached_call]. Qed.

Lemma room_manager_sound_witness :
  sound (after_calls 4) /\
  exists m', run_op (Join "attic" alice) (after_calls 4) = Blocked m' /\ forall o, run_op o m' = Blocked m'.
Proof.
  destruct (room_manager_sound (after_calls 4) (reached_fresh_rooms _ sample_fresh)) as [Hs Hop]. split; [exact Hs|].
  destruct (Hop (Join "attic" alice)) as [(m' & E & _)|(room & u & m' & _ & _ & E & Hall)].
  - exfalso. assert (Hb : match run_op (Join "attic" alice) (after_calls 4) with Blocked _ => true | _ => false end = true)
      by (vm_compute; reflexivity). rewrite E in Hb. discriminate.
  - exists m'. exact (conj E Hall).
Defined.

Lemma room_directory_exact_witness :
  exists b, hasFilePermission "f-1" "conn_0" (after_calls 4) = Ok b (after_calls 4) /\
    (b = true <-> exists room r k u, rooms_ (after_calls 4) !! room = Some r /\ users r !! k = Some u /\
       connectionId u = "conn_0" /\ is_Some (files r !! "f-1")).
Proof. destruct (room_directory_exact (after_calls 4) sample_fresh) as (_ & _ & _ & Hp). apply Hp. Defined.

Lemma history_is_latest_witness :
  let c n := mkChat n "1001" "用户1001" "hello" 9 in
  exists r m', rooms_ (after_calls 4) !! "lobby" = Some r /\
    iterM (fun msg => run_op (Say "lobby" msg)) [c "a"; c "b"; c "c"]%string (after_calls 4) = Ok tt m' /\
    getMessages "lobby" 2 m' = Ok (lastn (Nat.min 2 100) (messages r ++ [c "a"; c "b"; c "c"]))%string m'.
Proof.
  intros c. destruct (rooms_ (after_calls 4) !! "lobby"%string) as [r|] eqn:E.
  - destruct (history_is_latest (after_calls 4) "lobby" r [c "a"; c "b"; c "c"]%string 2 (reached_fresh_rooms _ sample_fresh) E)
      as (m' & E1 & E2).
    exists r, m'. exact (conj eq_refl (conj E1 E2)).
  - exfalso. assert (Hb : match rooms_ (after_calls 4) !! "lobby"%string with Some _ => true | None => false end = true)
      by (vm_compute; reflexivity). rewrite E in Hb. discriminate.
Defined.
