(* ===== verification/ChatProps.v ===== *)
(** * ChatProps: what the handlers of the video chat do

    Messages reach exactly the open connections of the room they belong to, uploads pass
    all checks or leave the rooms alone, files come back as they were uploaded; and the
    checks that are missing, stated as what a client can do. *)

From Stdlib Require Import Ascii String.
From S2P Require Import Prelude Text RoomManager RoomProps Json ChatRoom ChatServer.
Import MessageType.

Local Open Scope Z_scope.

Section props.
Context {F : Type} `{FileSystem F} `{HashOrder} `{StdSort _ newer}.
Context (show_ptr : hdl -> string).
Implicit Types (s : Server F) (r : RoomInfo) (u : UserInfo).

Abbreviation unlocked s := (globalMutex_ (manager s) = false).

(** ** Calls of the room manager *)

Lemma rooms_query {A} (c : cpp (RoomManager F) A) s a : c (manager s) = Ok a (manager s) ->
  ChatRoom.rooms c s = Ok a s.
Proof. intros E. unfold ChatRoom.rooms. rewrite E. by destruct s. Qed.

Lemma rooms_call {A} (c : cpp (RoomManager F) A) s a m : c (manager s) = Ok a m ->
  ChatRoom.rooms c s = Ok a (set_manager m s).
Proof. intros E. unfold ChatRoom.rooms. by rewrite E. Qed.

(** The users of a room, in the order in which they are visited. *)
Definition members s (room : string) : list UserInfo :=
  match rooms_ (manager s) !! room with None => [] | Some r => (hash_order (users r)).*2 end.

Lemma getRoomUsers_eq room s : unlocked s -> ChatRoom.rooms (getRoomUsers room) s = Ok (members s room) s.
Proof.
  intros HL. apply rooms_query.
  exact (locked_query (fun m => match rooms_ m !! room with None => [] | Some r => (hash_order (users r)).*2 end) _ HL eq_refl).
Qed.

Lemma findRoom_eq conn s : unlocked s ->
  ChatRoom.rooms (findRoomByConnection conn) s = Ok (default ""%string (connectionToRoom_ (manager s) !! conn)) s.
Proof.
  intros HL. apply rooms_query.
  exact (locked_query (fun m => default ""%string (connectionToRoom_ m !! conn)) _ HL eq_refl).
Qed.

(** ** Broadcasts *)

(** The open connections of the users of a room, except one. *)
Definition recipients s (room exclude : string) : list hdl :=
  omap (fun u => if String.eqb (connectionId u) exclude then None else connection_map_ s !! connectionId u)
    (members s room).

Definition say (msg : json) (hs : list hdl) : list (hdl * json) := map (fun h => (h, msg)) hs.

Lemma broadcast_list msg exclude us s :
  iterM (broadcast_one msg exclude) us s =
    Ok tt (set_sent (sent_ s ++ say msg (omap (fun u => if String.eqb (connectionId u) exclude then None
             else connection_map_ s !! connectionId u) us)) s).
Proof.
  revert s. induction us as [|u us IH]; intros s; cbn [iterM omap list_omap].
  - unfold mret, cpp_ret. cbn. rewrite app_nil_r. by destruct s.
  - assert (E : broadcast_one msg exclude u s =
      Ok tt (set_sent (sent_ s ++ say msg (option_list (if String.eqb (connectionId u) exclude then None
               else connection_map_ s !! connectionId u))) s)).
    { unfold broadcast_one. destruct (String.eqb _ _); [cbn; rewrite app_nil_r; by destruct s|].
      rewrite (bind_Ok get _ s s s eq_refl). destruct (connection_map_ s !! connectionId u); [done|].
      cbn. rewrite app_nil_r. by destruct s. }
    rewrite (bind_Ok _ _ _ _ _ E), IH. cbn [sent_ connection_map_ set_sent]. rewrite <-app_assoc.
    by destruct (if String.eqb _ _ then _ else _).
Qed.

Lemma broadcast_eq room msg exclude s : unlocked s ->
  broadcastToRoom room msg exclude s = Ok tt (set_sent (sent_ s ++ say msg (recipients s room exclude)) s).
Proof.
  intros HL. unfold broadcastToRoom. rewrite (bind_Ok _ _ _ _ _ (getRoomUsers_eq room s HL)). apply broadcast_list.
Qed.

Lemma broadcast_json_eq room j exclude s : unlocked s ->
  broadcast_json room j exclude s =
    if dumpable j then Ok tt (set_sent (sent_ s ++ say j (recipients s room exclude)) s) else Throw "json::type_error" s.
Proof.
  intros HL. unfold broadcast_json, dump. destruct (dumpable j); [|done].
  rewrite (bind_Ok (mret j) _ s j s eq_refl). by apply broadcast_eq.
Qed.

Lemma send_json_eq h j s : dumpable j = true -> send_json h j s = Ok tt (set_sent (sent_ s ++ [(h, j)]) s).
Proof. intros E. unfold send_json, dump. by rewrite E. Qed.

(** No connection gets a broadcast twice. *)
Lemma members_connections s room : sound (manager s) ->
  NoDup (connectionId <$> members s room).
Proof.
  intros Hs. unfold members. destruct (rooms_ (manager s) !! room) as [r|] eqn:Er; [|constructor].
  rewrite <-list_fmap_compose. apply NoDup_fmap_2_strong; [|rewrite hash_order_perm; apply NoDup_map_to_list].
  intros [k1 u1] [k2 u2] H1'%elem_of_hash_order H2'%elem_of_hash_order Heq. cbn in Heq.
  assert (k1 = k2) as -> by (by eapply (s_unique (manager s) Hs room r k1 u1 k2 u2)). congruence.
Qed.

(** ** Text messages *)

Definition text_message (room uid text : string) : json :=
  JObj [("type", JStr "text_message"); ("roomId", JStr room); ("userId", JStr uid); ("content", JStr text)]%string.

Lemma find_user s room r uid : sound (manager s) -> rooms_ (manager s) !! room = Some r ->
  find_first (fun u => String.eqb (userId u) uid) (members s room) = users r !! uid.
Proof.
  intros Hs Hr. unfold members. rewrite Hr.
  destruct (find_first _ _) as [u|] eqn:E.
  - apply find_first_Some in E as [Hin Heq]. apply String.eqb_eq in Heq.
    apply list_elem_of_fmap in Hin as ([k u'] & -> & Hu). apply elem_of_hash_order in Hu. cbn in *.
    destruct (s_users _ Hs _ _ _ _ Hr Hu) as [Hk _]. congruence.
  - destruct (users r !! uid) as [u|] eqn:Eu; [|done]. rewrite find_first_None in E.
    assert (Hin : u ∈ (hash_order (users r)).*2).
    { apply list_elem_of_fmap. exists (uid, u). by rewrite elem_of_hash_order. }
    specialize (E u Hin). destruct (s_users _ Hs _ _ _ _ Hr Eu) as [Hk _]. apply String.eqb_neq in E. congruence.
Qed.

(** The message that a text message becomes. *)
Definition chat_of s (uid name text : string) (now : Z) : ChatMessage :=
  mkChat (to_string (millis now) +:+ "_" +:+ to_string (message_counter_ s)) uid name text now.

Lemma chat_dumpable s room uid name text now : dumpable (text_message room uid text) = true -> utf8 name = true ->
  dumpable (text_reply "text_message" (message_fields (chat_of s uid name text now))) = true.
Proof.
  intros Hd Hname. cbn [dumpable text_message forallb fst snd] in Hd. rewrite !andb_true_iff in Hd.
  destruct Hd as ((_ & _) & (_ & _) & (_ & Huid) & (_ & Htext) & _).
  cbn [dumpable text_reply message_fields forallb fst snd chat_of messageId cm_userId cm_userName content timestamp].
  rewrite Huid, Htext, Hname. rewrite (utf8_app (to_string (millis now))); [reflexivity|apply utf8_to_string|].
  apply (utf8_app "_"); [reflexivity|apply utf8_to_string].
Qed.

(** A text message by a connection that is in the room it names, for a user of that
    room: the message is appended to the history of the room and sent to the open
    connections of all its users, the sender's included, once each; nothing else changes.
    A message for another room only gets an error back. (Texts are UTF-8: [json::parse] only
    accepts such messages, and the server makes the user names itself.) The user named in the message need
    not be the sender: any user of the room can be named. *)
Theorem text_message_delivered s h room uid text user_no now :
  sound (manager s) -> dumpable (text_message room uid text) = true ->
  let run := on_message show_ptr h (Some (text_message room uid text)) user_no now s in
  let at_room := default ""%string (connectionToRoom_ (manager s) !! getConnectionId show_ptr s h) in
  (at_room <> room ->
     run = Ok tt (set_sent (sent_ s ++ [(h, error_reply "用户不在指定房间内")]) s)) /\
  (forall r u, at_room = room -> rooms_ (manager s) !! room = Some r -> users r !! uid = Some u ->
     userName u <> ""%string -> utf8 (userName u) = true ->
     let c := chat_of s uid (userName u) text now in
     exists s', run = Ok tt s' /\
       rooms_ (manager s') = <[room := set_messages (push_message c (messages r)) r]> (rooms_ (manager s)) /\
       connectionToRoom_ (manager s') = connectionToRoom_ (manager s) /\
       fileToRoom_ (manager s') = fileToRoom_ (manager s) /\ connection_map_ s' = connection_map_ s /\
       sent_ s' = sent_ s ++ say (text_reply "text_message" (message_fields c)) (recipients s room "") /\
       NoDup (connectionId <$> members s room)).
Proof.
  intros Hs Hdump run at_room. pose proof (s_unlocked _ Hs) as HL.
  assert (Erun : run = match handleTextMessage show_ptr h (text_message room uid text) now s with
                       | Throw _ s' => Ok tt s' | o => o end) by done.
  assert (Eh : handleTextMessage show_ptr h (text_message room uid text) now s =
    (if negb (String.eqb at_room room) then send_json h (error_reply "用户不在指定房间内") else
     us ← ChatRoom.rooms (getRoomUsers room);
     let name := match find_first (fun u => String.eqb (userId u) uid) us with Some u => userName u | None => ""%string end in
     if String.eqb name "" then send_json h (error_reply "用户不存在") else
     id ← generateMessageId now;
     let c := mkChat id uid name text now in
     ok ← ChatRoom.rooms (addMessage room c);
     if ok : bool then broadcast_json room (text_reply (messageTypeToString TEXT_MESSAGE) (message_fields c)) ""
     else send_json h (error_reply "发送消息失败")) s).
  { pose proof (findRoom_eq (getConnectionId show_ptr s h) s HL) as Ef. fold at_room in Ef.
    unfold handleTextMessage. match goal with |- (if ?b then _ else _) _ = _ => change b with false end. cbv iota.
    set (data := text_message room uid text).
    rewrite (bind_Ok (get_string "roomId" data) _ s room s eq_refl), (bind_Ok (get_string "userId" data) _ s uid s eq_refl),
      (bind_Ok (get_string "content" data) _ s text s eq_refl), (bind_Ok get _ s s s eq_refl), (bind_Ok _ _ _ _ _ Ef).
    reflexivity. }
  rewrite Erun, Eh. clear Erun Eh. split.
  - intros Hne. apply String.eqb_neq in Hne. by rewrite Hne.
  - intros r u -> Hr Hu Hname Hutf c. rewrite String.eqb_refl. cbn [negb].
    rewrite (bind_Ok _ _ _ _ _ (getRoomUsers_eq room s HL)). cbv zeta. rewrite (find_user s room r uid Hs Hr), Hu.
    apply String.eqb_neq in Hname. rewrite Hname. unfold generateMessageId.
    set (s1 := set_message_counter (wrap64 (message_counter_ s + 1)) s).
    assert (Eid : (s0 ← get; modify (set_message_counter (wrap64 (message_counter_ s0 + 1))) ;;
        mret (to_string (millis now) +:+ "_" +:+ to_string (message_counter_ s0))) s =
      Ok (to_string (millis now) +:+ "_" +:+ to_string (message_counter_ s)) s1) by done.
    rewrite (bind_Ok _ _ _ _ _ Eid). fold (chat_of s uid (userName u) text now). fold c.
    assert (Ea : ChatRoom.rooms (addMessage room c) s1 =
      Ok true (set_manager (update_room room (set_messages (push_message c (messages r)) r) (manager s)) s1)).
    { apply rooms_call. change (manager s1) with (manager s). rewrite addMessage_spec by done. by rewrite Hr. }
    rewrite (bind_Ok _ _ _ _ _ Ea). set (s2 := set_manager _ s1).
    rewrite (broadcast_json_eq room _ "" s2) by exact HL. change (messageTypeToString TEXT_MESSAGE) with "text_message"%string.
    unfold c. rewrite (chat_dumpable s room) by done. fold c. eexists. split; [reflexivity|].
    assert (Hrec : recipients s2 room "" = recipients s room "").
    { unfold recipients, members. cbn [manager set_manager rooms_ update_room set_rooms s2]. by rewrite lookup_insert_eq, Hr. }
    rewrite Hrec. split_and!; try done. by apply members_connections.
Qed.

(** ** Signalling *)

(** WebRTC signalling stays inside the room: whatever a client sends as offer, answer
    or candidate, the only effect is at most one message, the client's own, to the open
    connection of the user it is addressed to, and that user is in the room of the
    sender's connection. *)
Theorem signalling_confined s h data : sound (manager s) -> dumpable data = true ->
  exists s', handleWebRTCSignaling show_ptr h data s = Ok tt s' /\
    (s' = s \/
     exists room r k u h', connectionToRoom_ (manager s) !! getConnectionId show_ptr s h = Some room /\
       rooms_ (manager s) !! room = Some r /\ users r !! k = Some u /\
       at_key "targetUserId" data = Some (JStr (userId u)) /\
       connection_map_ s !! connectionId u = Some h' /\ s' = set_sent (sent_ s ++ [(h', data)]) s).
Proof.
  intros Hs Hdump. pose proof (s_unlocked _ Hs) as HL. unfold handleWebRTCSignaling.
  destruct (negb (has_key "targetUserId" data)); [exists s; split; [done|by left]|].
  rewrite (bind_Ok get _ s s s eq_refl), (bind_Ok _ _ _ _ _ (findRoom_eq _ s HL)).
  destruct (connectionToRoom_ (manager s) !! getConnectionId show_ptr s h) as [room|] eqn:Ec; cbn [default from_option id].
  2: { exists s. split; [done|by left]. }
  destruct (String.eqb room ""); [exists s; split; [done|by left]|].
  rewrite (bind_Ok _ _ _ _ _ (getRoomUsers_eq room s HL)).
  destruct (find_first _ _) as [u|] eqn:Ef; [|exists s; split; [done|by left]].
  apply find_first_Some in Ef as [Hin Htarget]. rewrite (bind_Ok get _ s s s eq_refl).
  destruct (connection_map_ s !! connectionId u) as [h'|] eqn:Eh; [|exists s; split; [done|by left]].
  rewrite send_json_eq by done. eexists. split; [reflexivity|]. right. unfold members in Hin.
  destruct (rooms_ (manager s) !! room) as [r|] eqn:Er; [|by apply elem_of_nil in Hin].
  apply list_elem_of_fmap in Hin as ([k u'] & -> & Hu). apply elem_of_hash_order in Hu. cbn in *.
  exists room, r, k, u', h'. split_and!; try done. unfold is_string in Htarget.
  destruct (at_key _ _) as [[]|]; try done. by apply String.eqb_eq in Htarget as ->.
Qed.

(** ** Leaving *)

Definition leave_message (room uid : string) : json :=
  JObj [("type", JStr "leave_room"); ("roomId", JStr room); ("userId", JStr uid)]%string.

(** Leaving is not checked: any connection, in the room or not, can remove any user
    of any room by naming them in a [leave_room] message. The user's connection then
    belongs to no room, and a room whose last user is removed so disappears with its
    files. *)
Theorem anyone_can_remove_a_user s h room r uid u user_no now : sound (manager s) ->
  rooms_ (manager s) !! room = Some r -> users r !! uid = Some u ->
  exists s', on_message show_ptr h (Some (leave_message room uid)) user_no now s = Ok tt s' /\
    connectionToRoom_ (manager s') !! connectionId u = None /\
    (forall r', rooms_ (manager s') !! room = Some r' -> users r' !! uid = None) /\
    (delete uid (users r) = ∅ -> rooms_ (manager s') !! room = None /\
       forall f, is_Some (files r !! f) -> fileToRoom_ (manager s') !! f = None).
Proof.
  intros Hs Hr Hu. pose proof (s_unlocked _ Hs) as HL. pose proof (leaveRoom_spec room uid (manager s) HL) as E.
  rewrite Hr, Hu in E. destruct E as (m' & E & HL' & Ec & Hrest).
  set (s1 := set_manager m' s). set (msg := text_reply "user_left" [("userId", JStr uid)]%string).
  exists (if dumpable msg then set_sent (sent_ s1 ++ say msg (recipients s1 room (getConnectionId show_ptr s h))) s1 else s1). split.
  - unfold on_message, dispatch_message, handleLeaveRoom.
    set (data := leave_message room uid). change (negb (has_key "type" data)) with false. cbv iota.
    rewrite (bind_Ok (get_string "type" data) _ s "leave_room"%string s eq_refl). cbn [stringToMessageType String.eqb Ascii.eqb Bool.eqb].
    change (negb (has_key "roomId" data) || negb (has_key "userId" data)) with false. cbv iota.
    rewrite (bind_Ok (get_string "roomId" data) _ s room s eq_refl), (bind_Ok (get_string "userId" data) _ s uid s eq_refl),
      (bind_Ok get _ s s s eq_refl), (bind_Ok _ _ _ _ _ (rooms_call _ _ _ _ E)).
    rewrite broadcast_json_eq by exact HL'. change (messageTypeToString USER_LEFT) with "user_left"%string. fold msg.
    by destruct (dumpable msg).
  - assert (Em : manager (if dumpable msg then set_sent (sent_ s1 ++ say msg (recipients s1 room (getConnectionId show_ptr s h))) s1
      else s1) = m') by (by destruct (dumpable msg)). rewrite Em, Ec. split; [by rewrite lookup_delete_eq|].
    case_decide as Hd; destruct Hrest as [Er Ef].
    + rewrite Er, lookup_delete_eq. split; [done|]. intros _. split; [done|]. intros f Hf. by rewrite Ef, decide_True.
    + rewrite Er, lookup_insert_eq. split; [|done]. intros r' [= <-]. cbn. apply lookup_delete_eq.
Qed.

(** ** Uploads *)

Definition same_rooms s s' : Prop :=
  rooms_ (manager s') = rooms_ (manager s) /\ connectionToRoom_ (manager s') = connectionToRoom_ (manager s) /\
  fileToRoom_ (manager s') = fileToRoom_ (manager s) /\ globalMutex_ (manager s') = globalMutex_ (manager s).

Lemma validate_eq req room uid s : unlocked s -> x_user_id req = Some uid ->
  validateUserPermission req room s = Ok (existsb (fun u => String.eqb (userId u) uid) (members s room), uid) s.
Proof.
  intros HL E. unfold validateUserPermission. rewrite E. by rewrite (bind_Ok _ _ _ _ _ (getRoomUsers_eq room s HL)).
Qed.

Lemma is_member s room uid : sound (manager s) ->
  existsb (fun u => String.eqb (userId u) uid) (members s room) = true <->
  exists r u, rooms_ (manager s) !! room = Some r /\ users r !! uid = Some u.
Proof.
  intros Hs. rewrite existsb_exists. unfold members. split.
  - intros (u & Hin & Heq). apply String.eqb_eq in Heq. destruct (rooms_ (manager s) !! room) as [r|] eqn:Er; [|done].
    apply list_elem_of_In, list_elem_of_fmap in Hin as ([k u'] & -> & Hu). apply elem_of_hash_order in Hu. cbn in *.
    destruct (s_users _ Hs _ _ _ _ Er Hu) as [Hk _]. exists r, u'. split; [done|]. congruence.
  - intros (r & u & Hr & Hu). rewrite Hr. exists u. destruct (s_users _ Hs _ _ _ _ Hr Hu) as [Hk _].
    split; [|by apply String.eqb_eq]. apply list_elem_of_In, list_elem_of_fmap. exists (uid, u). by rewrite elem_of_hash_order.
Qed.

Definition upload_path (room uuid filename : string) : string :=
  ("uploads/" +:+ room) +:+ "/" +:+ uuid +:+ "_" +:+ filename.

(** The record of an uploaded file. *)
Definition stored (room uid name filename data uuid : string) (now : Z) : FileInfo :=
  mkFile uuid filename uid name (slength data) (upload_path room uuid filename) (RoomManager.getMimeType filename) now.

(** A file that has been accepted: in its room, registered, on the disk. *)
Definition accepted s s' (room uid filename data uuid : string) (now : Z) (r : RoomInfo) (u : UserInfo) : Prop :=
  rooms_ (manager s') = <[room := set_files (<[uuid := stored room uid (userName u) filename data uuid now]> (files r)) r]> (rooms_ (manager s)) /\
  connectionToRoom_ (manager s') = connectionToRoom_ (manager s) /\
  fileToRoom_ (manager s') = <[uuid := room]> (fileToRoom_ (manager s)) /\
  globalMutex_ (manager s') = globalMutex_ (manager s) /\
  exists d, fs_write d (upload_path room uuid filename) data = (true, disk_of s').

(** What the room is told of a new file. *)
Definition announcement (f : FileInfo) : json := text_reply "file_uploaded" (file_fields f).

Lemma announcement_response f : dumpable (announcement f) = true -> dumpable (file_response f) = true.
Proof.
  cbn [dumpable announcement text_reply file_fields file_response forallb fst snd]. rewrite !andb_true_iff. tauto.
Qed.

(** A file has an announcement that can be printed when all its texts are UTF-8. *)
Lemma announcement_dumpable f : dumpable (announcement f) =
  utf8 (fileId f) && (utf8 (originalName f) && (utf8 (mimeType f) && (utf8 (uploaderUserId f) && utf8 (uploaderUserName f)))).
Proof.
  cbn [dumpable announcement text_reply file_fields forallb fst snd]. cbn -[utf8]. 
  change (utf8 "type") with true. change (utf8 "file_uploaded") with true. change (utf8 "fileId") with true.
  change (utf8 "filename") with true. change (utf8 "size") with true. change (utf8 "mimeType") with true.
  change (utf8 "uploaderUserId") with true. change (utf8 "uploaderUserName") with true. change (utf8 "uploadTime") with true.
  cbn [andb]. by rewrite andb_true_r.
Qed.

Lemma store_upload_spec room uid filename data uuid now r u s fail : sound (manager s) ->
  rooms_ (manager s) !! room = Some r -> users r !! uid = Some u -> rs_status fail = 500 ->
  exists resp s', catch_with fail (store_upload room uid filename data uuid now) s = Ok resp s' /\
    ((rs_status resp = 500 /\ same_rooms s s') \/
     (rs_status resp = (if dumpable (announcement (stored room uid (userName u) filename data uuid now)) then 200 else 500) /\
      accepted s s' room uid filename data uuid now r u)).
Proof.
  intros Hs Hr Hu Hfail. pose proof (s_unlocked _ Hs) as HL. unfold store_upload. cbv zeta.
  set (cd := fs_create_directories (disk_of s) ("uploads/" +:+ room)). set (s1 := set_disk_of cd.2 s).
  assert (E1 : create_directories ("uploads/" +:+ room) s = if cd.1 then Ok tt s1 else Throw "filesystem_error" s1).
  { unfold create_directories. rewrite (bind_Ok get _ s s s eq_refl). cbv zeta. fold cd.
    rewrite (bind_Ok (modify _) _ s tt _ eq_refl). by destruct cd.1. }
  destruct cd.1.
  2: { exists fail, s1. split; [|by left]. unfold catch_with, mbind at 1, cpp_bind at 1. by rewrite E1. }
  set (path := ("uploads/" +:+ room) +:+ "/" +:+ uuid +:+ "_" +:+ filename).
  set (w := fs_write (disk_of s1) path data). set (s2 := set_disk_of w.2 s1).
  assert (E2 : write_file path data s1 = Ok w.1 s2) by done.
  unfold catch_with. rewrite (bind_Ok _ _ _ _ _ E1), (bind_Ok _ _ _ _ _ E2). destruct (w.1) eqn:Ew; cbn [negb].
  2: { do 2 eexists. split; [reflexivity|]. by left. }
  assert (HL2 : unlocked s2) by exact HL.
  rewrite (bind_Ok _ _ _ _ _ (getRoomUsers_eq room s2 HL2)).
  assert (Ef : find_first (fun u => String.eqb (userId u) uid) (members s2 room) = Some u).
  { change (members s2 room) with (members s room). by rewrite (find_user s room r uid Hs Hr). }
  rewrite Ef. fold (stored room uid (userName u) filename data uuid now).
  set (f := stored room uid (userName u) filename data uuid now).
  assert (Ea : ChatRoom.rooms (addFile room f) s2 = Ok true (set_manager (set_file_rooms (<[fileId f := room]> (fileToRoom_ (manager s2)))
                 (update_room room (set_files (<[fileId f := f]> (files r)) r) (manager s2))) s2)).
  { apply rooms_call. rewrite addFile_spec by done. change (rooms_ (manager s2)) with (rooms_ (manager s)). by rewrite Hr. }
  rewrite (bind_Ok _ _ _ _ _ Ea). set (s3 := set_manager _ s2).
  assert (Hacc : forall l, accepted s (set_sent l s3) room uid filename data uuid now r u).
  { intros l. split_and!; try done. exists (disk_of s1). change (w = (true, w.2)). rewrite <-Ew. by destruct w. }
  assert (Eb : broadcastFileUpload room f s3 =
    if dumpable (announcement f) then Ok tt (set_sent (sent_ s3 ++ say (announcement f) (recipients s3 room "")) s3)
    else Throw "json::type_error" s3) by (by apply broadcast_json_eq).
  change (mkFile uuid filename uid (userName u) (slength data) path _ now) with f.
  destruct (dumpable (announcement f)) eqn:Ed.
  - rewrite (bind_Ok _ _ _ _ _ Eb). unfold dump. rewrite (announcement_response f Ed).
    do 2 eexists. split; [reflexivity|]. right. split; [done|apply Hacc].
  - exists fail, s3. split; [unfold mbind at 1, cpp_bind at 1; by rewrite Eb|]. right. split; [done|].
    replace s3 with (set_sent (sent_ s3) s3) by done. apply Hacc.
Qed.

(** What an upload does, on every path. *)
Lemma upload_cases s req uuid now : sound (manager s) ->
  exists resp s', handleFileUpload req uuid now s = Ok resp s' /\
    ((rs_status resp <> 200 /\ same_rooms s s') \/
     (exists room uid filename data r u,
        x_room_id req = Some room /\ x_user_id req = Some uid /\ rq_file req = Some (filename, data) /\
        rooms_ (manager s) !! room = Some r /\ users r !! uid = Some u /\
        filename <> ""%string /\ data <> ""%string /\ slength data <= MAX_FILE_SIZE /\
        isFileTypeAllowed filename = true /\ accepted s s' room uid filename data uuid now r u /\
        rs_status resp = if dumpable (announcement (stored room uid (userName u) filename data uuid now)) then 200 else 500)).
Proof.
  intros Hs. pose proof (s_unlocked _ Hs) as HL.
  assert (Hrefuse : forall st msg, st <> 200 -> exists resp s', Ok (json_error st msg) s = Ok resp s' /\ rs_status resp <> 200 /\ same_rooms s s').
  { intros st msg Hst. by exists (json_error st msg), s. }
  assert (Hleft : forall (o : result (Server F) Response) (P : Response -> Server F -> Prop),
    (exists resp s', o = Ok resp s' /\ rs_status resp <> 200 /\ same_rooms s s') ->
    exists resp s', o = Ok resp s' /\ ((rs_status resp <> 200 /\ same_rooms s s') \/ P resp s')).
  { intros o P (resp & s' & E & Hst & Hsame). exists resp, s'. split; [done|by left]. }
  unfold handleFileUpload, catch_with, upload_body.
  destruct (x_room_id req) as [room|] eqn:Eroom; [|by apply Hleft, Hrefuse].
  destruct (x_user_id req) as [uid|] eqn:Euid; [|by apply Hleft, Hrefuse].
  rewrite (bind_Ok _ _ _ _ _ (validate_eq req room uid s HL Euid)). cbn [fst snd]. rewrite String.eqb_refl, orb_false_r.
  destruct (existsb _ _) eqn:Ev; cbn [negb]; [|by apply Hleft, Hrefuse].
  apply (is_member s room uid Hs) in Ev as (r & u & Hr & Hu).
  destruct (rq_file req) as [[filename data]|] eqn:Efile; [|by apply Hleft, Hrefuse].
  destruct (String.eqb_spec filename ""); [by apply Hleft, Hrefuse|].
  destruct (String.eqb_spec data ""); [by apply Hleft, Hrefuse|]. cbn [orb].
  destruct (Z.ltb_spec MAX_FILE_SIZE (slength data)); [by apply Hleft, Hrefuse|].
  destruct (isFileTypeAllowed filename) eqn:Et; cbn [negb]; [|by apply Hleft, Hrefuse].
  destruct (store_upload_spec room uid filename data uuid now r u s (json_error 500 "服务器内部错误") Hs Hr Hu eq_refl)
    as (resp & s' & E & Hcase). exists resp, s'. split; [exact E|].
  destruct Hcase as [[Hst Hsame]|[Hst Hacc]]; [left; split; [lia|done]|right].
  exists room, uid, filename, data, r, u. by split_and!.
Qed.

(** ** Downloads *)

Lemma download_eq dreq uuid f room data s : unlocked s ->
  fileToRoom_ (manager s) !! uuid = Some room ->
  (r ← rooms_ (manager s) !! room; files r !! uuid) = Some f ->
  fs_exists (disk_of s) (filePath f) = Some true -> fs_read (disk_of s) (filePath f) = Some data ->
  let conn := default ""%string (x_connection_id dreq) in
  handleFileDownload dreq uuid s =
    Ok (if String.eqb conn "" || bool_decide (connectionToRoom_ (manager s) !! conn = Some room)
        then mkReply 200 (Plain data) (mimeType f) (Some (originalName f))
        else plain_reply 403 "无权限访问该文件") s.
Proof.
  intros HL Hroom Hf Hex Hrd conn. unfold handleFileDownload, catch_with.
  assert (Eg : ChatRoom.rooms (getFileById uuid) s = Ok (Some f) s).
  { apply rooms_query. rewrite getFileById_eq by done. rewrite Hroom. cbn [mbind option_bind]. by rewrite <-Hf. }
  rewrite (bind_Ok _ _ _ _ _ Eg). fold conn. cbv zeta.
  assert (Ep : (if String.eqb conn "" then mret true else ChatRoom.rooms (hasFilePermission uuid conn)) s =
    Ok (String.eqb conn "" || bool_decide (connectionToRoom_ (manager s) !! conn = Some room)) s).
  { destruct (String.eqb conn ""); [done|]. apply rooms_query. rewrite hasFilePermission_eq, Hroom by done. f_equal.
    destruct (connectionToRoom_ (manager s) !! conn) as [room'|]; cbn [orb]; [|done].
    destruct (String.eqb_spec room' room) as [->|Hne]; [by rewrite bool_decide_true|].
    rewrite bool_decide_false; [done|congruence]. }
  rewrite (bind_Ok _ _ _ _ _ Ep). destruct (_ || _); cbn [negb]; [|done].
  rewrite (bind_Ok get _ s s s eq_refl), Hex, Hrd. reflexivity.
Qed.

(** What is relied on of the disk: a file that has been written exists and reads back. *)
Definition disk_keeps : Prop := forall d p c d', fs_write d p c = (true, d') ->
  fs_exists d' p = Some true /\ fs_read d' p = Some c.

(** C15. Files come back as they were uploaded. A file is taken only when the checks hold:
    both headers are there, the user is in the room, the file has a name and at most 10 MB
    of content, and its type is allowed; in all other cases the answer is an error and
    rooms, connections and files are as they were. Once the file is taken, a download
    returns the bytes, the name and the type of the upload to each connection of the room
    and refuses the other connections; a request that does not name its connection gets
    the file without a check. The upload is answered with success exactly when its texts
    are UTF-8: otherwise the client is told of an internal error although the file is
    there. *)
Theorem upload_download s req uuid now : disk_keeps -> sound (manager s) ->
  exists resp s', handleFileUpload req uuid now s = Ok resp s' /\
    ((rs_status resp <> 200 /\ same_rooms s s') \/
     (exists room uid filename data r u,
        x_room_id req = Some room /\ x_user_id req = Some uid /\ rq_file req = Some (filename, data) /\
        rooms_ (manager s) !! room = Some r /\ users r !! uid = Some u /\
        filename <> ""%string /\ data <> ""%string /\ slength data <= MAX_FILE_SIZE /\
        isFileTypeAllowed filename = true /\
        rs_status resp = (if utf8 uuid && (utf8 filename && (utf8 (RoomManager.getMimeType filename) &&
                            (utf8 uid && utf8 (userName u)))) then 200 else 500) /\
        forall dreq, handleFileDownload dreq uuid s' =
          let conn := default ""%string (x_connection_id dreq) in
          Ok (if String.eqb conn "" || bool_decide (connectionToRoom_ (manager s) !! conn = Some room)
              then mkReply 200 (Plain data) (RoomManager.getMimeType filename) (Some filename)
              else plain_reply 403 "无权限访问该文件") s')).
Proof.
  intros Hdisk Hs. destruct (upload_cases s req uuid now Hs) as (resp & s' & E & Hcase). exists resp, s'.
  split; [exact E|]. destruct Hcase as [Hno|(room & uid & filename & data & r & u & H1' & H2' & H3' & Hr & Hu & H4' & H5' & H6' & H7' & Hacc & Hst)].
  - by left.
  - right. exists room, uid, filename, data, r, u. rewrite announcement_dumpable in Hst. split_and!; try done.
    destruct Hacc as (Er & Ec & Ef & Eg & d & Hw). destruct (Hdisk _ _ _ _ Hw) as [Hex Hrd].
    intros dreq. cbv zeta. rewrite <-Ec.
    refine (download_eq dreq uuid (stored room uid (userName u) filename data uuid now) room data s' _ _ _ Hex Hrd).
    + rewrite Eg. apply (s_unlocked _ Hs).
    + by rewrite Ef, lookup_insert_eq.
    + rewrite Er, lookup_insert_eq. cbn. apply lookup_insert_eq.
Qed.

(** ** Names that cannot be printed *)

Definition join_message (room : string) : json := JObj [("type", JStr "join_room"); ("roomId", JStr room)]%string.

(** The files of a room, as they are listed. *)
Definition listing s (room : string) : list FileInfo :=
  match rooms_ (manager s) !! room with None => [] | Some r => std_sort newer (hash_order (files r)).*2 end.

Lemma getFiles_eq room s : unlocked s -> ChatRoom.rooms (getFiles room) s = Ok (listing s room) s.
Proof.
  intros HL. apply rooms_query. by apply (locked_query (fun m => match rooms_ m !! room with None => [] | Some r =>
    std_sort newer (hash_order (files r)).*2 end) _ HL).
Qed.

Lemma elem_of_listing s room r k f : rooms_ (manager s) !! room = Some r -> files r !! k = Some f -> f ∈ listing s room.
Proof.
  intros Hr Hf. unfold listing. rewrite Hr, std_sort_perm. apply list_elem_of_fmap. exists (k, f).
  by rewrite elem_of_hash_order.
Qed.

Lemma unprintable_list (g : FileInfo -> json) f l name : f ∈ l -> dumpable (g f) = false ->
  dumpable (JObj [(name, JArr (map g l))]) = false.
Proof.
  intros Hin Hf. apply not_true_iff_false. cbn [dumpable forallb fst snd]. rewrite !andb_true_iff, forallb_forall.
  intros ((_ & Hall) & _). rewrite (Hall (g f)) in Hf; [done|]. by apply in_map, list_elem_of_In.
Qed.

Lemma unprintable_file f : utf8 (originalName f) = false ->
  dumpable (listed_file f) = false /\ dumpable (JObj (file_fields f)) = false.
Proof.
  intros E. split; apply not_true_iff_false; cbn [dumpable listed_file file_fields forallb fst snd];
    rewrite E, !andb_true_iff; intuition discriminate.
Qed.

(** The messages of a room that a client gets when it joins. *)
Definition messages_of s (room : string) (limit : nat) : list ChatMessage :=
  match rooms_ (manager s) !! room with None => [] | Some r => lastn limit (messages r) end.

Lemma getMessages_rooms room limit s : unlocked s -> ChatRoom.rooms (getMessages room limit) s = Ok (messages_of s room limit) s.
Proof. intros HL. apply rooms_query. rewrite getMessages_eq by done. unfold messages_of. by destruct (rooms_ _ !! room). Qed.

(** Inside [on_message], a message to the client either is sent or ends the handler. *)
Lemma then_send h j s (k : cpp (Server F) unit) (P : result (Server F) unit -> Prop) :
  P (Ok tt s) ->
  P (match k (set_sent (sent_ s ++ [(h, j)]) s) with Throw _ s' => Ok tt s' | o => o end) ->
  P (match (send_json h j ;; k) s with Throw _ s' => Ok tt s' | o => o end).
Proof.
  intros H1' H2'. destruct (dumpable j) eqn:Ed; [by rewrite (bind_Ok _ _ _ _ _ (send_json_eq h j s Ed))|].
  unfold send_json, dump. by rewrite Ed.
Qed.

Lemma send_unprintable h j s (k : cpp (Server F) unit) : dumpable j = false ->
  (send_json h j ;; k) s = Throw "json::type_error" s.
Proof. intros Ed. unfold send_json, dump. by rewrite Ed. Qed.

(** A file whose name is not UTF-8 spoils its room for good: the list of files is an
    internal error for every user, and a client who joins is taken into the room but
    neither gets the files nor is announced to the others. *)
Theorem unprintable_name_spoils_room s room r k f : sound (manager s) ->
  rooms_ (manager s) !! room = Some r -> files r !! k = Some f -> utf8 (originalName f) = false ->
  (forall req uid u, x_user_id req = Some uid -> users r !! uid = Some u ->
     handleFileList req room s = Ok (json_error 500 "服务器内部错误") s) /\
  (forall h user_no now, connectionToRoom_ (manager s) !! getConnectionId show_ptr s h = None ->
     exists s' l, on_message show_ptr h (Some (join_message room)) user_no now s = Ok tt s' /\
       connectionToRoom_ (manager s') !! getConnectionId show_ptr s h = Some room /\
       sent_ s' = sent_ s ++ l /\ Forall (fun x => x.1 = h) l).
Proof.
  intros Hs Hr Hf Hname. pose proof (s_unlocked _ Hs) as HL. destruct (unprintable_file f Hname) as [Hl Hj]. split.
  - intros req uid u Huid Hu. unfold handleFileList, catch_with.
    rewrite (bind_Ok _ _ _ _ _ (validate_eq req room uid s HL Huid)). cbn [fst].
    rewrite (proj2 (is_member s room uid Hs)) by (by exists r, u). cbn [negb].
    rewrite (bind_Ok _ _ _ _ _ (getFiles_eq room s HL)). unfold dump.
    by rewrite (unprintable_list listed_file f) by (try done; by eapply elem_of_listing).
  - intros h user_no now Hc. set (u := mkUser (to_string user_no) ("用户" +:+ to_string user_no) (getConnectionId show_ptr s h)).
    pose proof (joinRoom_spec room u (manager s) HL) as E. cbn [connectionId u] in E. rewrite Hc in E.
    set (s1 := set_manager (joined room u (manager s)) s).
    assert (HL1 : unlocked s1) by exact HL.
    assert (Hin : forall l, f ∈ listing (set_sent l s1) room).
    { intros l. apply (elem_of_listing _ room (set_users (<[userId u := u]> (users r)) r) k); [|exact Hf].
      cbn [manager set_sent set_manager s1 rooms_ joined set_connections update_room set_rooms]. rewrite Hr. apply lookup_insert_eq. }
    set (Q := fun o : result (Server F) unit => exists s' l, o = Ok tt s' /\
       connectionToRoom_ (manager s') !! getConnectionId show_ptr s h = Some room /\
       sent_ s' = sent_ s ++ l /\ Forall (fun x => x.1 = h) l).
    assert (Hdone : forall l, Forall (fun x => x.1 = h) l -> Q (Ok tt (set_sent (sent_ s ++ l) s1))).
    { intros l Hall. exists (set_sent (sent_ s ++ l) s1), l. split_and!; try done. apply lookup_insert_eq. }
    unfold on_message, dispatch_message, handleJoinRoom. set (data := join_message room).
    change (negb (has_key "type" data)) with false. cbv iota.
    rewrite (bind_Ok (get_string "type" data) _ s "join_room"%string s eq_refl).
    change (stringToMessageType "join_room") with JOIN_ROOM. cbv iota. change (negb (has_key "roomId" data)) with false. cbv iota.
    rewrite (bind_Ok (get_string "roomId" data) _ s room s eq_refl). cbv zeta. rewrite (bind_Ok get _ s s s eq_refl).
    rewrite (bind_Ok _ _ _ _ _ (rooms_call _ _ _ _ E)). fold s1. cbv iota.
    rewrite (bind_Ok _ _ _ _ _ (getRoomUsers_eq room s1 HL1)).
    match goal with |- exists s' l, ?o = _ /\ _ => change (Q o) end.
    assert (E0 : s1 = set_sent (sent_ s ++ []) s1) by (rewrite app_nil_r; by destruct s).
    match goal with |- Q (match (send_json h ?j ;; _) _ with _ => _ end) => set (msg := j) end.
    apply then_send; [rewrite E0; by apply Hdone|].
    set (s2 := set_sent (sent_ s1 ++ _) s1). rewrite (bind_Ok _ _ _ _ _ (getMessages_rooms room 20 s2 HL1)).
    assert (Hfiles : forall l, Forall (fun x => x.1 = h) l -> forall k, Q (match
      (fs ← ChatRoom.rooms (getFiles room); (match fs with [] => mret tt | _ :: _ => send_json h
         (text_reply (messageTypeToString FILE_LIST) [("files", JArr (map (fun f => JObj (file_fields f)) fs))]%string) end) ;; k)
      (set_sent (sent_ s ++ l) s1) with Throw _ s' => Ok tt s' | o => o end)).
    { intros l Hall kont. rewrite (bind_Ok _ _ _ _ _ (getFiles_eq room (set_sent (sent_ s ++ l) s1) HL1)).
      pose proof (unprintable_list (fun f => JObj (file_fields f)) f _ "files" (Hin (sent_ s ++ l)) Hj) as Hd.
      specialize (Hin (sent_ s ++ l)). destruct (listing _ room) as [|f0 fs]; [by apply elem_of_nil in Hin|].
      rewrite send_unprintable; [by apply Hdone|]. cbn [dumpable text_reply forallb fst snd] in Hd |- *. rewrite Hd.
      by rewrite andb_false_r. }
    destruct (messages_of _ _ _) as [|c cs].
    + rewrite (bind_Ok (mret tt) _ _ tt _ eq_refl). apply Hfiles. by repeat constructor.
    + apply then_send; [by apply Hdone; repeat constructor|].
      match goal with |- context [set_sent (sent_ s2 ++ ?x) s2] =>
        change (set_sent (sent_ s2 ++ x) s2) with (set_sent ((sent_ s ++ [(h, msg)]) ++ x) s1) end. rewrite <-app_assoc.
      apply Hfiles. by repeat constructor.
Qed.
End props.

(** ** A concrete server *)

(** Alice's connection is open and in the lobby; a second connection is in no room. *)
Definition lobby_server : Server (gmap string string) :=
  mkServer (after_calls 4) {[1; 2]} (list_to_map [("conn_0", 1); ("conn_2", 2)]%string) 3 0 {[1; 2]} [].

Definition show_hdl (h : hdl) : string := to_string h.

Lemma lobby_sound : sound (manager lobby_server).
Proof. exact (reached_rooms_sound _ (reached_fresh_rooms _ sample_fresh)). Qed.

Lemma lobby_room : exists r, rooms_ (manager lobby_server) !! "lobby"%string = Some r /\ users r !! "1001"%string = Some alice.
Proof. vm_compute. by eexists. Qed.

Lemma disk_keeps_memory : disk_keeps (F := gmap string string).
Proof. intros d p c d' [= <-]. cbn. by rewrite lookup_insert_eq. Qed.

Lemma text_message_delivered_witness :
  exists r s', rooms_ (manager lobby_server) !! "lobby"%string = Some r /\
    on_message show_hdl 1 (Some (text_message "lobby" "1001" "hi")) 0 9000000 lobby_server = Ok tt s' /\
    rooms_ (manager s') = <[("lobby"%string) := set_messages (push_message (chat_of lobby_server "1001" "用户1001" "hi" 9000000) (messages r)) r]>
      (rooms_ (manager lobby_server)) /\
    on_message show_hdl 2 (Some (text_message "lobby" "1001" "hi")) 0 9000000 lobby_server =
      Ok tt (set_sent (sent_ lobby_server ++ [(2, error_reply "用户不在指定房间内")]) lobby_server).
Proof.
  destruct lobby_room as (r & Hr & Hu).
  destruct (text_message_delivered show_hdl lobby_server 1 "lobby" "1001" "hi" 0 9000000 lobby_sound eq_refl) as [_ Hin].
  destruct (Hin r alice) as (s' & E & Hrooms & _); [vm_compute; reflexivity|exact Hr|exact Hu|discriminate|reflexivity|].
  destruct (text_message_delivered show_hdl lobby_server 2 "lobby" "1001" "hi" 0 9000000 lobby_sound eq_refl) as [Hout _].
  exists r, s'. refine (conj Hr (conj E (conj Hrooms (Hout _)))). vm_compute. discriminate.
Defined.

Definition offer : json := JObj [("type", JStr "offer"); ("targetUserId", JStr "1001")]%string.

Lemma signalling_confined_witness :
  handleWebRTCSignaling show_hdl 1 offer lobby_server = Ok tt (set_sent [(1, offer)] lobby_server) /\
  handleWebRTCSignaling show_hdl 2 offer lobby_server = Ok tt lobby_server.
Proof.
  split; [vm_compute; reflexivity|].
  destruct (signalling_confined show_hdl lobby_server 2 offer lobby_sound eq_refl) as (s' & E & [->|(room & r & k & u & h' & Hc & _)]).
  - exact E.
  - exfalso. assert (Hn : connectionToRoom_ (manager lobby_server) !! getConnectionId show_hdl lobby_server 2 = None)
      by (vm_compute; reflexivity). discriminate (eq_trans (eq_sym Hn) Hc).
Defined.

Lemma anyone_can_remove_a_user_witness :
  exists s', on_message show_hdl 2 (Some (leave_message "lobby" "1001")) 0 9000000 lobby_server = Ok tt s' /\
    connectionToRoom_ (manager s') !! "conn_0"%string = None.
Proof.
  destruct lobby_room as (r & Hr & Hu).
  destruct (anyone_can_remove_a_user show_hdl lobby_server 2 "lobby" r "1001" alice 0 9000000 lobby_sound Hr Hu)
    as (s' & E & Hc & _).
  exists s'. exact (conj E Hc).
Defined.

Definition upload_request : Request :=
  mkHttpRequest true "/api/upload" (Some "lobby"%string) (Some "1001"%string) None (Some ("notes.txt", "abc")%string).

Lemma upload_download_witness :
  exists s', handleFileUpload upload_request "f-2" 5 lobby_server = Ok (json_reply 200 (file_response
      (stored "lobby" "1001" "用户1001" "notes.txt" "abc" "f-2" 5))) s' /\
    handleFileDownload (mkHttpRequest false "/api/download/f-2" None None None None) "f-2" s' =
      Ok (mkReply 200 (Plain "abc") "text/plain" (Some "notes.txt"%string)) s' /\
    handleFileDownload (mkHttpRequest false "/api/download/f-2" None None (Some "conn_2"%string) None) "f-2" s' =
      Ok (plain_reply 403 "无权限访问该文件") s'.
Proof.
  destruct (upload_download lobby_server upload_request "f-2" 5 disk_keeps_memory lobby_sound) as (resp & s' & E & Hcase).
  assert (Hresp : match handleFileUpload upload_request "f-2" 5 lobby_server with Ok r _ => r | _ => plain_reply 0 "" end =
      json_reply 200 (file_response (stored "lobby" "1001" "用户1001" "notes.txt" "abc" "f-2" 5))) by (vm_compute; reflexivity).
  rewrite E in Hresp. subst resp.
  destruct Hcase as [[Hst _]|(room & uid & filename & data & r & u & Hroom & _ & Hfile & _ & _ & _ & _ & _ & _ & _ & Hd)].
  - exfalso. apply Hst. reflexivity.
  - injection Hroom as <-. injection Hfile as <- <-. exists s'. split; [exact E|].
    rewrite !Hd. split; vm_compute; reflexivity.
Defined.

(** The lobby after an upload whose name starts with a byte that is not UTF-8. *)
Definition odd_file : FileInfo :=
  mkFile "f-2" (String "255" ".txt") "1001" "用户1001" 3 "uploads/lobby/f-2" "text/plain" 5.
Definition spoiled_server : Server (gmap string string) :=
  set_manager (run_calls (take 4 sample_calls ++ [Upload "lobby" odd_file])) lobby_server.

Lemma spoiled_sound : sound (manager spoiled_server).
Proof.
  apply reached_rooms_sound. apply (reached_call (after_calls 4) (Upload "lobby" odd_file)); [|vm_compute; reflexivity].
  exact (reached_fresh_rooms _ sample_fresh).
Qed.

Lemma spoiled_room : exists r, rooms_ (manager spoiled_server) !! "lobby"%string = Some r /\
  files r !! "f-2"%string = Some odd_file /\ users r !! "1001"%string = Some alice.
Proof. vm_compute. by eexists. Qed.

Lemma unprintable_name_spoils_room_witness :
  handleFileList (mkHttpRequest false "/api/files/lobby" None (Some "1001"%string) None None) "lobby" spoiled_server =
    Ok (json_error 500 "服务器内部错误") spoiled_server /\
  exists s' l, on_message show_hdl 2 (Some (join_message "lobby")) 1003 0 spoiled_server = Ok tt s' /\
    connectionToRoom_ (manager s') !! "conn_2"%string = Some "lobby"%string /\
    sent_ s' = sent_ spoiled_server ++ l /\ Forall (fun x => x.1 = 2) l.
Proof.
  destruct spoiled_room as (r & Hr & Hf & Hu).
  destruct (unprintable_name_spoils_room show_hdl spoiled_server "lobby" r "f-2" odd_file spoiled_sound Hr Hf eq_refl) as [Hlist Hjoin].
  split; [exact (Hlist (mkHttpRequest false "/api/files/lobby" None (Some "1001"%string) None None) "1001"%string alice eq_refl Hu)|].
  destruct (Hjoin 2 1003 0) as (s' & l & E & Hc & Hsent); [vm_compute; reflexivity|].
  exists s', l. refine (conj E (conj _ Hsent)).
  assert (En : getConnectionId show_hdl spoiled_server 2 = "conn_2"%string) by (vm_compute; reflexivity).
  exact (eq_trans (eq_sym (f_equal (fun c => connectionToRoom_ (manager s') !! c) En)) Hc).
Defined.
