(* ===== verification/ChatInvariant.v ===== *)
(** * ChatInvariant: the chat server as a whole

    The events of the server are connections that open and close, WebSocket messages and
    HTTPS requests. [keeps] says that a piece of a handler ends and keeps the maps of the
    rooms consistent; it composes along the structure of the handlers. *)

From Stdlib Require Import Ascii String.
From S2P Require Import Prelude Text RoomManager RoomProps Json ChatRoom ChatServer ChatProps.
Import MessageType.

Local Open Scope Z_scope.

Create HintDb keeps.

Section invariant.
Context {F : Type} `{FileSystem F} `{HashOrder} `{StdSort _ newer}.
Context (show_ptr : hdl -> string).
Implicit Types (s : Server F) (m : RoomManager F).

(** The ids of the users are texts that can be printed. *)
Record served_ok m : Prop := mkServed {
  so_sound : sound m;
  so_ids room r k u : rooms_ m !! room = Some r -> users r !! k = Some u -> utf8 (userId u) = true }.

Definition keeps {A} (c : cpp (Server F) A) : Prop := forall s, served_ok (manager s) ->
  match c s with Ok _ s' | Throw _ s' => served_ok (manager s') | _ => False end.

Lemma keeps_ret {A} (a : A) : keeps (mret a).
Proof. by intros s. Qed.

Lemma keeps_throw {A} e : keeps (throw e : cpp (Server F) A).
Proof. by intros s. Qed.

Lemma keeps_bind {A B} (c : cpp (Server F) A) (k : A -> cpp (Server F) B) :
  keeps c -> (forall a, keeps (k a)) -> keeps (a ← c; k a).
Proof. intros Hc Hk s Hs. specialize (Hc s Hs). unfold mbind, cpp_bind. destruct (c s); [by apply Hk|done..]. Qed.

Lemma keeps_get : keeps (get : cpp (Server F) (Server F)).
Proof. by intros s. Qed.

Lemma keeps_modify f : (forall s, manager (f s) = manager s) -> keeps (modify f).
Proof. intros Hf s Hs. cbn. by rewrite Hf. Qed.

Lemma keeps_iter {A} (body : A -> cpp (Server F) unit) l : (forall a, keeps (body a)) -> keeps (iterM body l).
Proof. intros Hb. induction l; [apply keeps_ret|]. by apply keeps_bind. Qed.

Lemma keeps_rooms {A} (c : cpp (RoomManager F) A) :
  (forall m, served_ok m -> exists a m', c m = Ok a m' /\ served_ok m') -> keeps (ChatRoom.rooms c).
Proof. intros Hc s Hs. destruct (Hc _ Hs) as (a & m' & E & Hm'). unfold ChatRoom.rooms. by rewrite E. Qed.

(** Calls that only read. *)
Lemma keeps_query {A} (f : RoomManager F -> A) : (forall m, f (set_global true m) = f m) ->
  keeps (ChatRoom.rooms (locked (m ← get; mret (f m)))).
Proof.
  intros Hf. apply keeps_rooms. intros m Hs. exists (f m), m. split; [|done].
  by apply (locked_query f m (s_unlocked m (so_sound m Hs))).
Qed.

(** No call but a join brings a user into a room. *)
Definition users_from m m' : Prop := forall room r' k u, rooms_ m' !! room = Some r' -> users r' !! k = Some u ->
  exists r, rooms_ m !! room = Some r /\ users r !! k = Some u.

Lemma user_removed_from room k r conn m m' : rooms_ m !! room = Some r -> user_removed room k r conn m m' -> users_from m m'.
Proof.
  intros Hr (_ & _ & Hrest) room' r' k' u. case_decide; destruct Hrest as [-> _].
  - intros [_ Hr']%lookup_delete_Some Hu. by exists r'.
  - intros [[<- <-]|[_ Hr']]%lookup_insert_Some Hu; [|by exists r'].
    exists r. split; [done|]. cbn in Hu. by apply lookup_delete_Some in Hu as [_ Hu].
Qed.

Lemma updated_from room r r' m m' : rooms_ m !! room = Some r -> users r' = users r ->
  rooms_ m' = <[room := r']> (rooms_ m) -> users_from m m'.
Proof.
  intros Hr Eu Em room' r1 k u. rewrite Em. intros [[<- <-]|[_ Hr']]%lookup_insert_Some Hu; [|by exists r1].
  exists r. by rewrite <-Eu.
Qed.

Lemma keeps_op {A} (c : cpp (RoomManager F) A) o : run_op o = (_ ← c; mret tt) -> (forall room u, o <> Join room u) ->
  (forall m, globalMutex_ m = false -> exists a m', c m = Ok a m' /\ users_from m m') -> keeps (ChatRoom.rooms c).
Proof.
  intros Ho Hj Hfrom. apply keeps_rooms. intros m [Hs Hids].
  destruct (Hfrom m (s_unlocked m Hs)) as (a & m' & E & Hu). exists a, m'. split; [done|]. split.
  - destruct (run_op_sound o m Hs) as [(m1 & E1 & Hm1)|(room & u & -> & _)]; [|by destruct (Hj room u)].
    rewrite Ho, (bind_Ok _ _ _ _ _ E) in E1. by injection E1 as <-.
  - intros room r k u Hr Hk. destruct (Hu _ _ _ _ Hr Hk) as (r0 & Hr0 & Hk0). by apply (Hids room r0 k).
Qed.

Hint Resolve keeps_ret keeps_throw keeps_get : keeps.

Ltac keep := repeat first
  [ progress cbv zeta
  | progress intros
  | solve [auto with keeps nocore]
  | apply keeps_bind
  | apply keeps_modify; done
  | apply keeps_iter
  | match goal with
    | |- keeps (if ?b then _ else _) => destruct b
    | |- keeps (match ?x with _ => _ end) => destruct x
    end ].

Lemma keeps_getRoomUsers room : keeps (ChatRoom.rooms (getRoomUsers room)).
Proof. by apply (keeps_query (fun m => match rooms_ m !! room with None => [] | Some r => (hash_order (users r)).*2 end)). Qed.
Lemma keeps_findRoom conn : keeps (ChatRoom.rooms (findRoomByConnection conn)).
Proof. by apply (keeps_query (fun m => default ""%string (connectionToRoom_ m !! conn))). Qed.
Lemma keeps_getMessages room n : keeps (ChatRoom.rooms (getMessages room n)).
Proof. apply keeps_rooms. intros m Hs. rewrite getMessages_eq by apply (s_unlocked m (so_sound m Hs)). by eexists _, _. Qed.
Lemma keeps_getFileById id : keeps (ChatRoom.rooms (getFileById id)).
Proof. apply keeps_rooms. intros m Hs. rewrite getFileById_eq by apply (s_unlocked m (so_sound m Hs)). by eexists _, _. Qed.
Lemma keeps_hasFilePermission f c : keeps (ChatRoom.rooms (hasFilePermission f c)).
Proof. apply keeps_rooms. intros m Hs. rewrite hasFilePermission_eq by apply (s_unlocked m (so_sound m Hs)). by eexists _, _. Qed.
Lemma keeps_leave room k : keeps (ChatRoom.rooms (leaveRoom room k)).
Proof.
  apply (keeps_op _ (Leave room k)); [done..|]. intros m HL. pose proof (leaveRoom_spec room k m HL) as E.
  destruct (rooms_ m !! room) as [r|] eqn:Er; [|exists false, m; split; [done|]; intros room' r'; by exists r'].
  destruct (users r !! k); [|exists false, m; split; [done|]; intros room' r'; by exists r'].
  destruct E as (m' & E & Hrem). exists true, m'. split; [done|]. by eapply user_removed_from.
Qed.
Lemma keeps_say room c : keeps (ChatRoom.rooms (addMessage room c)).
Proof.
  apply (keeps_op _ (Say room c)); [done..|]. intros m HL. rewrite addMessage_spec by done.
  destruct (rooms_ m !! room) as [r|] eqn:Er; [|exists false, m; split; [done|]; intros room' r'; by exists r'].
  do 2 eexists. split; [reflexivity|]. eapply updated_from; [exact Er| |reflexivity]; done.
Qed.
Lemma keeps_typing room k b : keeps (ChatRoom.rooms (setUserTyping room k b)).
Proof.
  apply (keeps_op _ (Typing room k b)); [done..|]. intros m HL. rewrite setUserTyping_spec by done.
  destruct (rooms_ m !! room) as [r|] eqn:Er; [|exists false, m; split; [done|]; intros room' r'; by exists r'].
  do 2 eexists. split; [reflexivity|]. eapply updated_from; [exact Er| |reflexivity]; done.
Qed.
Lemma keeps_addFile room f : keeps (ChatRoom.rooms (addFile room f)).
Proof.
  apply (keeps_op _ (Upload room f)); [done..|]. intros m HL. rewrite addFile_spec by done.
  destruct (rooms_ m !! room) as [r|] eqn:Er; [|exists false, m; split; [done|]; intros room' r'; by exists r'].
  do 2 eexists. split; [reflexivity|]. eapply updated_from; [exact Er| |reflexivity]; done.
Qed.
Lemma keeps_getFiles room : keeps (ChatRoom.rooms (getFiles room)).
Proof.
  by apply (keeps_query (fun m => match rooms_ m !! room with None => [] | Some r => std_sort newer (hash_order (files r)).*2 end)).
Qed.

Lemma set_disk_sound d m : served_ok m -> served_ok (set_disk d m).
Proof. intros [[] Hids]. by split; [split|]. Qed.

Lemma keeps_set_disk d : keeps (modify (set_disk_of d)).
Proof. intros s Hs. by apply set_disk_sound. Qed.
Hint Resolve keeps_set_disk : keeps.

Lemma keeps_create_directories dir : keeps (create_directories dir).
Proof. unfold create_directories. keep. Qed.
Lemma keeps_remove_file path : keeps (remove_file path).
Proof. unfold remove_file. keep. Qed.
Lemma keeps_write_file path data : keeps (write_file path data).
Proof. unfold write_file. keep. Qed.

Lemma keeps_dump j : keeps (dump (S := Server F) j).
Proof. unfold dump. keep. Qed.
Lemma keeps_get_string k data : keeps (get_string (F := F) k data).
Proof. unfold get_string. keep. Qed.

Hint Resolve keeps_getRoomUsers keeps_findRoom keeps_getMessages keeps_getFileById keeps_hasFilePermission keeps_leave
  keeps_say keeps_typing keeps_addFile keeps_getFiles keeps_create_directories keeps_remove_file keeps_write_file
  keeps_get_string keeps_dump : keeps.

Lemma keeps_broadcast room msg ex : keeps (broadcastToRoom room msg ex).
Proof. unfold broadcastToRoom, broadcast_one, sendMessage. keep. Qed.
Hint Resolve keeps_broadcast : keeps.
Lemma keeps_broadcast_json room j ex : keeps (broadcast_json room j ex).
Proof. unfold broadcast_json. keep. Qed.
Lemma keeps_send_json h j : keeps (send_json (F := F) h j).
Proof. unfold send_json, sendMessage. keep. Qed.
Hint Resolve keeps_broadcast_json keeps_send_json : keeps.

(** ** The handlers *)

Lemma keeps_on_open h : keeps (on_open h).
Proof. unfold on_open. keep. Qed.

Lemma on_close_sound h s : served_ok (manager s) -> exists s', on_close show_ptr h s = Ok tt s' /\ served_ok (manager s').
Proof.
  intros Hs. pose proof (s_unlocked _ (so_sound _ Hs)) as HL. unfold on_close. rewrite (bind_Ok get _ s s s eq_refl). cbv zeta.
  rewrite (bind_Ok _ _ _ _ _ (findRoom_eq _ s HL)). set (conn := getConnectionId show_ptr s h). set (room := default _ _).
  match goal with |- exists s', (?c ;; _) s = _ /\ _ => assert (Hc : exists s1, c s = Ok tt s1 /\ served_ok (manager s1)) end.
  { destruct (negb (String.eqb room "")); [|by exists s]. rewrite (bind_Ok _ _ _ _ _ (getRoomUsers_eq room s HL)).
    destruct (find_first _ _) as [u|] eqn:Ef; [|by exists s]. destruct (negb (String.eqb (userId u) "")); [|by exists s].
    apply find_first_Some in Ef as [Hin _]. assert (Hd : utf8 (userId u) = true).
    { unfold members in Hin. destruct (rooms_ (manager s) !! room) as [r|] eqn:Er; [|by apply elem_of_nil in Hin].
      apply list_elem_of_fmap in Hin as ([k u'] & -> & Hu). apply elem_of_hash_order in Hu. by apply (so_ids _ Hs room r k). }
    pose proof (broadcast_json_eq room (text_reply "user_disconnected" [("userId", JStr (userId u))]%string) conn s HL) as Eb.
    cbn [dumpable text_reply forallb fst snd] in Eb. rewrite Hd in Eb. rewrite (bind_Ok _ _ _ _ _ Eb). set (s1 := set_sent _ s).
    pose proof (keeps_leave room (userId u) s1 Hs) as Hk.
    pose proof (leaveRoom_spec room (userId u) (manager s1) HL) as E.
    assert (El : exists b m', leaveRoom room (userId u) (manager s1) = Ok b m').
    { destruct (rooms_ (manager s1) !! room) as [r|]; [|by eauto]. destruct (users r !! userId u); [|by eauto].
      destruct E as (m' & E & _). by eauto. }
    destruct El as (b & m' & El). rewrite (bind_Ok _ _ _ _ _ (rooms_call _ s1 _ _ El)). rewrite (rooms_call _ s1 _ _ El) in Hk.
    by eexists. }
  destruct Hc as (s1 & E & Hs1). rewrite (bind_Ok _ _ _ _ _ E). by eexists.
Qed.

Lemma join_type str : stringToMessageType str = JOIN_ROOM -> str = "join_room"%string.
Proof. unfold stringToMessageType. destruct (String.eqb_spec str "join_room"); [done|]. by repeat case_match. Qed.

Lemma keeps_dispatch h data user_no now : at_key "type" data <> Some (JStr "join_room") ->
  keeps (dispatch_message show_ptr h data user_no now).
Proof.
  intros Hj. unfold dispatch_message. destruct (negb _); [keep|]. unfold get_string.
  destruct (at_key "type" data) as [[| | |str| | |]|]; try by intros s' Hs.
  intros s' Hs. rewrite (bind_Ok (mret str) _ s' str s' eq_refl). revert s' Hs.
  change (keeps match stringToMessageType str with JOIN_ROOM => handleJoinRoom show_ptr h data user_no
    | LEAVE_ROOM => handleLeaveRoom show_ptr h data | OFFER | ANSWER | ICE_CANDIDATE => handleWebRTCSignaling show_ptr h data
    | PING => if has_key "userId" data && has_key "roomId" data then uid ← get_string "userId" data;
        room ← get_string "roomId" data; updateUserActivity h uid room else mret tt
    | TEXT_MESSAGE => handleTextMessage show_ptr h data now | TYPING_START => handleTypingStatus show_ptr h data true
    | TYPING_END => handleTypingStatus show_ptr h data false | _ => mret tt end).
  destruct (stringToMessageType str) eqn:E.
  all: unfold handleLeaveRoom, handleWebRTCSignaling, handleTextMessage, handleTypingStatus, updateUserActivity,
    generateMessageId, sendMessage; try by keep.
  by destruct Hj; rewrite (join_type _ E).
Qed.

Lemma keeps_upload req uuid now : keeps (upload_body req uuid now).
Proof. unfold upload_body, validateUserPermission, store_upload, broadcastFileUpload. keep. Qed.

Lemma keeps_catch r c : keeps c -> keeps (catch_with r c).
Proof. intros Hc s Hs. specialize (Hc s Hs). unfold catch_with. by destruct (c s). Qed.

Lemma keeps_route req uuid now c : route req uuid now = Some c -> keeps c.
Proof.
  unfold route. intros E. repeat case_match; simplify_eq.
  all: unfold handleFileUpload, handleFileDownload, handleFileList, serve_static, read_public, validateUserPermission.
  all: try apply keeps_catch; try apply keeps_upload; keep.
Qed.

(** No handler of a request lets an exception out. *)
Lemma route_returns req uuid now c s e s' : route req uuid now = Some c -> c s <> Throw e s'.
Proof.
  unfold route. intros E. repeat case_match; simplify_eq.
  all: unfold handleFileUpload, handleFileDownload, handleFileList, serve_static, read_public, catch_with; try by case_match.
  all: repeat (case_match; try done); unfold mbind, cpp_bind, get; repeat (case_match; try done).
Qed.

(** ** Joining *)

Lemma joined_ok room u m : served_ok m -> connectionToRoom_ m !! connectionId u = None -> utf8 (userId u) = true ->
  served_ok (joined room u m).
Proof.
  intros [Hs Hids] Hc Hu. split; [by apply joined_sound|]. intros room' r' k u'.
  cbn [joined rooms_ set_connections update_room set_rooms]. intros [[<- <-]|[_ Hr']]%lookup_insert_Some; [|by apply (Hids room' r' k)].
  cbn. intros [[<- <-]|[_ Hk]]%lookup_insert_Some; [done|]. destruct (rooms_ m !! room) as [r|] eqn:Er; [by apply (Hids room r k)|].
  cbn in Hk. by rewrite lookup_empty in Hk.
Qed.

Lemma join_new h data user_no s : served_ok (manager s) ->
  connectionToRoom_ (manager s) !! getConnectionId show_ptr s h = None ->
  match handleJoinRoom show_ptr h data user_no s with Ok _ s' | Throw _ s' => served_ok (manager s') | _ => False end.
Proof.
  intros Hs Hc. unfold handleJoinRoom. destruct (negb _); [done|]. unfold get_string.
  destruct (at_key "roomId" data) as [[| | |room| | |]|]; try done.
  rewrite (bind_Ok (mret room) _ s room s eq_refl). cbv zeta. rewrite (bind_Ok get _ s s s eq_refl).
  set (u := mkUser _ _ _). pose proof (joinRoom_spec room u (manager s) (s_unlocked _ (so_sound _ Hs))) as E.
  change (connectionId u) with (getConnectionId show_ptr s h) in E. rewrite Hc in E.
  rewrite (bind_Ok _ _ _ _ _ (rooms_call _ _ _ _ E)). set (s1 := set_manager _ s).
  assert (Hs1 : served_ok (manager s1)) by (apply joined_ok; [done|done|apply utf8_to_string]). clearbody s1. generalize (getConnectionId show_ptr s h).
  intros conn. revert s1 Hs1. match goal with |- forall s1, _ -> match ?c s1 with _ => _ end => change (keeps c) end.
  unfold sendMessage. keep.
Qed.

Lemma join_again h room data user_no s : served_ok (manager s) -> at_key "roomId" data = Some (JStr room) ->
  is_Some (connectionToRoom_ (manager s) !! getConnectionId show_ptr s h) ->
  handleJoinRoom show_ptr h data user_no s = Blocked (set_manager (set_global true (manager s)) s).
Proof.
  intros Hs Hroom [old Hc]. unfold handleJoinRoom, has_key, get_string. rewrite Hroom. cbn [negb].
  rewrite (bind_Ok (mret room) _ s room s eq_refl). cbv zeta. rewrite (bind_Ok get _ s s s eq_refl).
  set (u := mkUser _ _ _). pose proof (joinRoom_spec room u (manager s) (s_unlocked _ (so_sound _ Hs))) as E.
  change (connectionId u) with (getConnectionId show_ptr s h) in E. rewrite Hc in E.
  unfold mbind, cpp_bind, ChatRoom.rooms. by rewrite E.
Qed.

(** ** The server *)

(** What happens to the server: the WebSocket library opens and closes connections, drops
    their handles and delivers messages; the HTTPS server gets requests. The room
    manager's mutex serialises what they do to the rooms. *)
Inductive Event : Type :=
| Opened (h : hdl) | Closed (h : hdl) | Expired (h : hdl)
| Received (h : hdl) (data : option json) (user_no now : Z)
| Requested (req : Request) (uuid : string) (now : Z).

Definition set_live (l : gset hdl) s : Server F :=
  mkServer (manager s) (connections_ s) (connection_map_ s) (connection_id_counter_ s) (message_counter_ s) l (sent_ s).

Definition run_event (e : Event) : cpp (Server F) unit :=
  match e with
  | Opened h => modify (fun s => set_live ({[h]} ∪ live_ s) s) ;; on_open h
  | Closed h => on_close show_ptr h
  | Expired h => modify (fun s => set_live (live_ s ∖ {[h]}) s)
  | Received h data user_no now => on_message show_ptr h data user_no now
  | Requested req uuid now => match route req uuid now with Some c => _ ← c; mret tt | None => mret tt end
  end.

Inductive reached_server : Server F -> Prop :=
| reached_start d : reached_server (Server_new d)
| reached_event s e s' : reached_server s -> run_event e s = Ok tt s' -> reached_server s'.

(** A message to join a room. *)
Definition asks_to_join (data : option json) : Prop :=
  match data with
  | Some data => at_key "type" data = Some (JStr "join_room") /\ exists room, at_key "roomId" data = Some (JStr room)
  | None => False
  end.

Definition blocks (e : Event) s : Prop :=
  match e with
  | Received h data _ _ => asks_to_join data /\ is_Some (connectionToRoom_ (manager s) !! getConnectionId show_ptr s h)
  | _ => False
  end.

Lemma is_join_dec data : {at_key "type" data = Some (JStr "join_room")} + {at_key "type" data <> Some (JStr "join_room")}.
Proof.
  destruct (at_key "type" data) as [[| | |str| | |]|]; try by right.
  destruct (decide (str = "join_room"%string)) as [->|]; [by left|right; congruence].
Qed.

Lemma join_cases h data user_no now s : served_ok (manager s) -> at_key "type" data = Some (JStr "join_room") ->
  match dispatch_message show_ptr h data user_no now s with
  | Ok _ s' | Throw _ s' => ~ blocks (Received h (Some data) user_no now) s /\ served_ok (manager s')
  | Blocked s' => blocks (Received h (Some data) user_no now) s /\ s' = set_manager (set_global true (manager s)) s
  | Undefined _ => False
  end.
Proof.
  intros Hs Htype. assert (E : dispatch_message show_ptr h data user_no now s = handleJoinRoom show_ptr h data user_no s).
  { unfold dispatch_message, has_key, get_string. by rewrite Htype. }
  rewrite E. clear E. cbn [blocks asks_to_join].
  destruct (connectionToRoom_ (manager s) !! getConnectionId show_ptr s h) eqn:Ec.
  - destruct (at_key "roomId" data) as [v|] eqn:Er.
    2: { unfold handleJoinRoom, has_key. rewrite Er. split; [|done]. by intros [(_ & room & [=]) _]. }
    destruct v as [| | |room| | |].
    4: { rewrite (join_again h room) by (try done; by rewrite Ec). split; [|done].
         split; [split; [done|by exists room]|by eexists]. }
    all: unfold handleJoinRoom, has_key, get_string; rewrite Er; split; [|done]; by intros [(_ & room' & [=]) _].
  - pose proof (join_new h data user_no s Hs Ec) as Hj. destruct (handleJoinRoom _ _ _ _ _); try done.
    all: split; [|done]; by intros [_ [? [=]]].
Qed.

(** One event: it is handled to the end and keeps the rooms consistent, or blocks. *)
Lemma run_event_sound e s : served_ok (manager s) ->
  (~ blocks e s /\ exists s', run_event e s = Ok tt s' /\ served_ok (manager s')) \/
  (blocks e s /\ run_event e s = Blocked (set_manager (set_global true (manager s)) s)).
Proof.
  intros Hs. destruct e as [h|h|h|h data user_no now|req uuid now]; cbn [run_event blocks].
  - left. split; [by intros []|]. by eexists.
  - left. split; [by intros []|]. by apply on_close_sound.
  - left. split; [by intros []|]. by eexists.
  - unfold on_message. destruct data as [data|]; [|left; split; [by intros [[] _]|by eexists]].
    destruct (is_join_dec data) as [Ht|Ht].
    + pose proof (join_cases h data user_no now s Hs Ht) as Hc. cbn [blocks] in Hc.
      destruct (dispatch_message _ _ _ _ _ _) as [[] s'|err s'|s'|]; try done.
      * left. destruct Hc. split; [done|by eexists].
      * left. destruct Hc. split; [done|by eexists].
      * right. by destruct Hc as [? ->].
    + left. split; [by intros [[? _] _]|]. pose proof (keeps_dispatch h data user_no now Ht s Hs) as Hk.
      destruct (dispatch_message _ _ _ _ _ _) as [[] s'|err s'|s'|]; try done; by eexists.
  - left. split; [by intros []|]. destruct (route req uuid now) as [c|] eqn:E; [|by eexists].
    pose proof (keeps_route _ _ _ _ E s Hs) as Hk. pose proof (route_returns req uuid now c s) as Hr.
    destruct (c s) as [a s'|err s'|s'|] eqn:Ec; try done; [|by destruct (Hr err s' E)].
    rewrite (bind_Ok _ _ _ _ _ Ec). by eexists.
Qed.

Lemma reached_server_sound s : reached_server s -> served_ok (manager s).
Proof.
  induction 1 as [d|s e s' _ IH E].
  { split; [apply new_sound|]. intros room r k u Hr. cbn in Hr. by rewrite lookup_empty in Hr. }
  destruct (run_event_sound e s IH) as [[_ (s1 & E1 & Hs1)]|[_ Hb]]; congruence.
Qed.

End invariant.

(** ** A concrete run *)

Definition join_lobby : json := JObj [("type", JStr "join_room"); ("roomId", JStr "lobby")]%string.

Definition sample_events : list Event := [Opened 1; Received 1 (Some join_lobby) 1001 0].

(** The state after the first [n] events. *)
Definition served (n : nat) : Server (gmap string string) :=
  match iterM (run_event show_hdl) (take n sample_events) (Server_new ∅) with Ok _ s => s | _ => Server_new ∅ end.

Lemma served_reached : reached_server show_hdl (served 2).
Proof.
  apply (reached_event _ (served 1) (Received 1 (Some join_lobby) 1001 0)); [|vm_compute; reflexivity].
  apply (reached_event _ (served 0) (Opened 1)); [apply reached_start|vm_compute; reflexivity].
Qed.

