(* ===== verification/FtpProtocol.v ===== *)
(** * FtpProtocol: texts of the FTP protocol

    Models src/zsxq-cpp-ai/StdFtp/include/ftp_protocol.h and common/ftp_protocol.cpp:
    replies, command lines, the addresses of PORT and PASV and directory listings. The
    calls of the operating system that the FTP server makes are the interface [Unix]. *)

From Stdlib Require Import Ascii String.
From S2P Require Import Prelude Text.

Local Open Scope Z_scope.

(** ** The operating system *)

(** [struct stat]. *)
Record Stat : Set := mkStat {
  st_mode : Z; st_nlink : Z; st_uid : Z; st_gid : Z; st_size : Z; st_mtime : Z }.

(** Calls on the files of a machine in state [F]; [u_open] is the constructor of an
    [ofstream], which creates or, unless it appends, empties the file, [u_write] writes to
    the end of an open file, [u_read] is the content read through an [ifstream]. *)
Class Unix (F : Type) : Type := {
  u_stat : F -> string -> option Stat;
  u_mkdir : F -> string -> bool * F;
  u_rmdir : F -> string -> bool * F;
  u_unlink : F -> string -> bool * F;
  u_rename : F -> string -> string -> bool * F;
  u_readdir : F -> string -> option (list string);
  u_read : F -> string -> option string;
  u_open : F -> string -> bool -> bool * F;
  u_write : F -> string -> string -> bool * F;
  u_pwnam : Z -> option string;                 (* getpwuid *)
  u_grnam : Z -> option string;                 (* getgrgid *)
  u_localtime : Z -> string;                    (* "%b %d %H:%M" *)
  u_gmtime : Z -> string }.                     (* "%Y%m%d%H%M%S" *)

Definition S_ISDIR (mode : Z) : bool := Z.land mode 61440 =? 16384.

(** ** Constants *)

Module ResponseCode.
Definition FILE_STATUS_OK : Z := 150.
Definition COMMAND_OK : Z := 200.
Definition COMMAND_NOT_IMPLEMENTED : Z := 202.
Definition FILE_STATUS : Z := 213.
Definition SYSTEM_TYPE : Z := 215.
Definition SERVICE_READY : Z := 220.
Definition SERVICE_CLOSING : Z := 221.
Definition CLOSING_DATA_CONNECTION : Z := 226.
Definition ENTERING_PASSIVE_MODE : Z := 227.
Definition DATA_CONNECTION_ALREADY_OPEN : Z := 125.
Definition USER_LOGGED_IN : Z := 230.
Definition FILE_ACTION_OK : Z := 250.
Definition PATHNAME_CREATED : Z := 257.
Definition USER_NAME_OK : Z := 331.
Definition FILE_ACTION_PENDING : Z := 350.
Definition CANT_OPEN_DATA_CONNECTION : Z := 425.
Definition CONNECTION_CLOSED : Z := 426.
Definition SYNTAX_ERROR_IN_PARAMETERS : Z := 501.
Definition COMMAND_NOT_IMPLEMENTED_FOR_PARAMETER : Z := 502.
Definition BAD_SEQUENCE : Z := 503.
Definition NOT_LOGGED_IN : Z := 530.
Definition FILE_UNAVAILABLE : Z := 550.
End ResponseCode.

Module TransferType.
Inductive TransferType : Set := ASCII | EBCDIC | IMAGE | LOCAL.
End TransferType.

Definition type_char (t : TransferType.TransferType) : ascii :=
  match t with
  | TransferType.ASCII => "A" | TransferType.EBCDIC => "E" | TransferType.IMAGE => "I" | TransferType.LOCAL => "L"
  end.

Definition BUFFER_SIZE : nat := 8192.
Definition MAX_COMMAND_LENGTH : nat := 512.

(** ** Replies and commands *)

Definition formatResponse (code : Z) (message : string) : string := to_string code +:+ " " +:+ message +:+ crlf.

Definition is_line_end (c : ascii) : bool := char_eqb c cr || char_eqb c nl.
Definition is_blank (c : ascii) : bool := char_eqb c " " || char_eqb c tab.

(** The command in upper case and its parameters without blanks around them. *)
Definition parseCommand (line : string) : string * string :=
  let trimmedLine := rstrip is_line_end line in
  match lstrip is_blank trimmedLine with
  | EmptyString => ("", "")%string
  | rest =>
      let '(command, params) := match split_at " " rest with Some cp => cp | None => (rest, ""%string) end in
      (map_string toupper command, rstrip is_blank (lstrip is_blank params))
  end.

(** ** Addresses *)

(** The numbers, unless one of them is not a byte. *)
Fixpoint port_values (tokens : list string) : option (list Z) :=
  match tokens with
  | [] => Some []
  | t :: ts =>
      match stoi t with
      | inr v => if (v <? 0) || (255 <? v) then None else vs ← port_values ts; Some (v :: vs)
      | inl _ => None
      end
  end.

(** Host and port; [None] is [false], which leaves both as they were. *)
Definition parsePortCommand (params : string) : option (string * Z) :=
  match port_values (getlines "," params) with
  | Some [h1; h2; h3; h4; p1; p2] =>
      Some (to_string h1 +:+ "." +:+ to_string h2 +:+ "." +:+ to_string h3 +:+ "." +:+ to_string h4, p1 * 256 + p2)
  | _ => None
  end.

(** [stoi] of every token; the first failure is thrown. *)
Fixpoint stoi_all {S} (tokens : list string) : cpp S (list Z) :=
  match tokens with
  | [] => mret []
  | t :: ts => match stoi t with inr v => vs ← stoi_all ts; mret (v :: vs) | inl e => throw e end
  end.

Definition generatePasvResponse {S} (host : string) (port : Z) : cpp S string :=
  octets ← stoi_all (getlines "." host);
  match octets with
  | o1 :: o2 :: o3 :: o4 :: _ =>
      mret ("227 Entering Passive Mode (" +:+ to_string o1 +:+ "," +:+ to_string o2 +:+ "," +:+ to_string o3 +:+ "," +:+
            to_string o4 +:+ "," +:+ to_string (Z.quot port 256) +:+ "," +:+ to_string (Z.rem port 256) +:+ ")." +:+ crlf)
  | _ => undefined "octets"
  end.

(** ** Listings *)

(** [std::setw(n)]: padded on the left. *)
Fixpoint spaces (n : nat) : string := match n with O => ""%string | S n' => String " " (spaces n') end.
Definition setw (n : nat) (s : string) : string := spaces (n - String.length s) +:+ s.

Definition flag (mode bit : Z) (c : string) : string := if Z.land mode bit =? 0 then "-"%string else c.

Section listing.
Context {F : Type} `{Unix F}.

(** One line of [ls -l]. *)
Definition detailed_line (st : Stat) (name : string) : string :=
  (if S_ISDIR (st_mode st) then "d" else "-") +:+
  flag (st_mode st) 256 "r" +:+ flag (st_mode st) 128 "w" +:+ flag (st_mode st) 64 "x" +:+
  flag (st_mode st) 32 "r" +:+ flag (st_mode st) 16 "w" +:+ flag (st_mode st) 8 "x" +:+
  flag (st_mode st) 4 "r" +:+ flag (st_mode st) 2 "w" +:+ flag (st_mode st) 1 "x" +:+
  " " +:+ setw 3 (to_string (st_nlink st)) +:+
  " " +:+ default (to_string (st_uid st)) (u_pwnam (st_uid st)) +:+
  " " +:+ default (to_string (st_gid st)) (u_grnam (st_gid st)) +:+
  " " +:+ setw 8 (to_string (st_size st)) +:+
  " " +:+ u_localtime (st_mtime st) +:+ " " +:+ name +:+ crlf.

Definition list_entry (d : F) (path : string) (detailed : bool) (name : string) : string :=
  if String.eqb name "." || String.eqb name ".." then ""%string else
  match u_stat d (path +:+ "/" +:+ name) with
  | Some st => if detailed then detailed_line st name else name +:+ crlf
  | None => ""%string
  end.

Definition formatFileList (d : F) (path : string) (detailed : bool) : string :=
  match u_readdir d path with
  | None => "550 Failed to open directory" +:+ crlf
  | Some names => foldr (fun n s => list_entry d path detailed n +:+ s) ""%string names
  end.
End listing.
