(* ===== verification/FtpDisk.v ===== *)
(** * FtpDisk: files

    What theorems rely on of the files behind the interface [Unix] of FtpProtocol, and a
    concrete machine: a finite map from paths to directories and contents of files. The
    theorems hold for every machine; the examples that show their hypotheses can hold run
    on this one. *)

From Stdlib Require Import Ascii String.
From S2P Require Import Prelude Text FtpProtocol.

Local Open Scope Z_scope.

Definition sconcat (l : list string) : string := foldr String.append ""%string l.

Section files.
Context {F : Type} `{Unix F}.

(** ** What is relied on of the file system *)

Definition regular (d : F) (path : string) : Prop := exists st, u_stat d path = Some st /\ S_ISDIR (st_mode st) = false.

(** [writable]: the path can be opened for writing, and stays so. *)
Record keeps_files (writable : F -> Prop) (path : string) : Prop := mkKeeps {
  k_open d append : writable d -> let r := u_open d path append in
    r.1 = true /\ writable r.2 /\ regular r.2 path /\
    u_read r.2 path = Some (if append then default ""%string (u_read d path) else ""%string);
  k_write d c x : writable d -> regular d path -> u_read d path = Some x -> let r := u_write d path c in
    r.1 = true /\ writable r.2 /\ regular r.2 path /\ u_read r.2 path = Some (x +:+ c) }.

End files.

(** ** Files in memory *)

Inductive node : Set := Directory | File (content : string).
#[global] Instance node_eq : EqDecision node.
Proof. solve_decision. Defined.

Abbreviation disk := (gmap string node).

Definition disk_stat (d : disk) (path : string) : option Stat :=
  match d !! path with
  | Some Directory => Some (mkStat 16877 2 0 0 4096 0)
  | Some (File c) => Some (mkStat 33188 1 0 0 (Z.of_nat (String.length c)) 0)
  | None => None
  end.

(** Success when the path holds what the call needs. *)
Definition disk_when (ok : bool) (d d' : disk) : bool * disk := if ok then (true, d') else (false, d).

Definition below (path name : string) : option string :=
  let dir := path +:+ "/" in
  let rest := substring (String.length dir) (String.length name) name in
  if String.prefix dir name && no_char "/" rest then Some rest else None.

#[global] Instance disk_unix : Unix disk := {|
  u_stat := disk_stat;
  u_mkdir d p := disk_when (bool_decide (d !! p = None)) d (<[p := Directory]> d);
  u_rmdir d p := disk_when (bool_decide (d !! p = Some Directory)) d (delete p d);
  u_unlink d p := match d !! p with Some (File _) => (true, delete p d) | _ => (false, d) end;
  u_rename d p q := match d !! p with Some x => (true, <[q := x]> (delete p d)) | None => (false, d) end;
  u_readdir d p := match d !! p with Some Directory => Some (omap (fun e => below p e.1) (map_to_list d)) | _ => None end;
  u_read d p := match d !! p with Some (File c) => Some c | _ => None end;
  u_open d p append := match d !! p with
    | Some Directory => (false, d)
    | Some (File c) => (true, <[p := File (if append then c else ""%string)]> d)
    | None => (true, <[p := File ""]> d)
    end;
  u_write d p c := match d !! p with Some (File x) => (true, <[p := File (x +:+ c)]> d) | _ => (false, d) end;
  u_pwnam _ := None;
  u_grnam _ := None;
  u_localtime _ := "Jan 01 00:00"%string;
  u_gmtime _ := "19700101000000"%string |}.

Lemma disk_keeps path : keeps_files (fun d : disk => d !! path <> Some Directory) path.
Proof.
  split.
  - intros d append Hd. cbn. destruct (d !! path) as [[|c]|] eqn:E; [done|..]; cbn; rewrite lookup_insert_eq;
      (split; [done|]); (split; [done|]); (split; [eexists; cbn; unfold disk_stat; rewrite lookup_insert_eq; by split|]);
      by destruct append.
  - intros d c x Hd _. cbn. destruct (d !! path) as [[|c']|] eqn:E; [done|..|done]. intros [= ->]. cbn. rewrite lookup_insert_eq.
    (split; [done|]); (split; [done|]); (split; [eexists; cbn; unfold disk_stat; rewrite lookup_insert_eq; by split|done]).
Qed.

(** Several paths at once, none of which is a directory. *)
Definition disk_plain (ps : list string) (d : disk) : Prop := forall p, p ∈ ps -> d !! p <> Some Directory.

Lemma disk_plain_insert ps p c d : disk_plain ps d -> disk_plain ps (<[p := File c]> d).
Proof. intros Hd q Hq. rewrite lookup_insert. case_decide; [done|by apply Hd]. Qed.

Lemma disk_plain_keeps ps path : path ∈ ps -> keeps_files (disk_plain ps) path.
Proof.
  intros Hin. destruct (disk_keeps path) as [Ko Kw]. split.
  - intros d append Hd. destruct (Ko d append (Hd path Hin)) as (E & _ & Hr & Hx). cbv zeta. split; [done|]. split; [|done].
    cbn. destruct (d !! path) as [[|c]|]; [done|by apply disk_plain_insert..].
  - intros d c x Hd Hr Hx. destruct (Kw d c x (Hd path Hin) Hr Hx) as (E & _ & Hr' & Hx'). cbv zeta. split; [done|]. split; [|done].
    cbn. destruct (d !! path) as [[|c']|]; [done|by apply disk_plain_insert|done].
Qed.
