(* ===== verification/FtpSession.v ===== *)
(** * FtpSession: a client's session with the FTP server

    Models src/zsxq-cpp-ai/StdFtp/include/ftp_session.h and common/ftp_session.cpp: the
    state of a session, one definition per command, the data connection and the loop over
    what arrives on the control connection, and the manager of sessions. The operating
    system enters in two ways: files through [Unix], and what the socket calls made by one
    command return as an argument of type [Net]. The texts sent on both connections, the
    open sockets and the paths given to file system calls are part of the state.
    [transferMode_], [fileStructure_], [lastActivity_] and [buffer_] are never read and are
    left out; [rootDirectory_] is never assigned. *)

From Stdlib Require Import Ascii String.
From S2P Require Import Prelude Text FtpProtocol.
Import ResponseCode.

Local Open Scope Z_scope.

Module SessionState.
Inductive SessionState : Set := CONNECTED | AUTHENTICATING | AUTHENTICATED | TRANSFERRING | DISCONNECTED.
End SessionState.

Module DataConnectionMode.
Inductive DataConnectionMode : Set := NONE | ACTIVE | PASSIVE.
End DataConnectionMode.

#[global] Instance session_state_eq : EqDecision SessionState.SessionState.
Proof. solve_decision. Defined.
#[global] Instance data_mode_eq : EqDecision DataConnectionMode.DataConnectionMode.
Proof. solve_decision. Defined.
#[global] Instance transfer_type_eq : EqDecision TransferType.TransferType.
Proof. solve_decision. Defined.

(** Results of the socket calls of one command. *)
Record Net : Set := mkNet {
  n_listen : option (Z * Z);      (* socket, bind and listen: the descriptor and its port *)
  n_address : string;             (* the server's own address, as inet_ntoa prints it *)
  n_accept : Z;                   (* accept on a listening socket *)
  n_socket : Z;                   (* socket for an active connection *)
  n_connect : bool;               (* connect *)
  n_sends : list Z;               (* send on the data connection, call by call; then errors *)
  n_recvs : list string;          (* recv on the data connection, call by call *)
  n_closed : bool }.              (* and then: closed by the peer, or an error *)

Record Session (F : Type) : Type := mkSession {
  files : F;
  controlSocket_ : Z;
  clientAddr_ : string;
  dataSocket_ : Z;
  passiveListenSocket_ : Z;
  dataMode_ : DataConnectionMode.DataConnectionMode;
  activeHost_ : string;
  activePort_ : Z;
  state_ : SessionState.SessionState;
  username_ : string;
  password_ : string;
  authenticated_ : bool;
  currentDirectory_ : string;
  renameFrom_ : string;
  transferType_ : TransferType.TransferType;
  running_ : bool;
  replies_ : list string;         (* handed to send on the control connection *)
  sent_ : string;                 (* taken by send on the data connection *)
  sockets_ : gset Z;              (* open descriptors *)
  touched_ : list string }.       (* paths given to the file system *)
Arguments mkSession {F}.
Arguments files {F}. Arguments controlSocket_ {F}. Arguments clientAddr_ {F}. Arguments dataSocket_ {F}.
Arguments passiveListenSocket_ {F}. Arguments dataMode_ {F}. Arguments activeHost_ {F}. Arguments activePort_ {F}.
Arguments state_ {F}. Arguments username_ {F}. Arguments password_ {F}. Arguments authenticated_ {F}.
Arguments currentDirectory_ {F}. Arguments renameFrom_ {F}. Arguments transferType_ {F}. Arguments running_ {F}.
Arguments replies_ {F}. Arguments sent_ {F}. Arguments sockets_ {F}. Arguments touched_ {F}.

Definition rootDirectory_ : string := "/tmp/ftp".

Section setters.
Context {F : Type}.
Implicit Types s : Session F.

Definition set_files (d : F) (path : string) s : Session F :=
  mkSession d (controlSocket_ s) (clientAddr_ s) (dataSocket_ s) (passiveListenSocket_ s) (dataMode_ s) (activeHost_ s)
    (activePort_ s) (state_ s) (username_ s) (password_ s) (authenticated_ s) (currentDirectory_ s) (renameFrom_ s)
    (transferType_ s) (running_ s) (replies_ s) (sent_ s) (sockets_ s) (touched_ s ++ [path]).
Definition set_data (sock listen : Z) (mode : DataConnectionMode.DataConnectionMode) (open : gset Z) s : Session F :=
  mkSession (files s) (controlSocket_ s) (clientAddr_ s) sock listen mode (activeHost_ s)
    (activePort_ s) (state_ s) (username_ s) (password_ s) (authenticated_ s) (currentDirectory_ s) (renameFrom_ s)
    (transferType_ s) (running_ s) (replies_ s) (sent_ s) open (touched_ s).
Definition set_active (host : string) (port : Z) s : Session F :=
  mkSession (files s) (controlSocket_ s) (clientAddr_ s) (dataSocket_ s) (passiveListenSocket_ s) (dataMode_ s) host
    port (state_ s) (username_ s) (password_ s) (authenticated_ s) (currentDirectory_ s) (renameFrom_ s)
    (transferType_ s) (running_ s) (replies_ s) (sent_ s) (sockets_ s) (touched_ s).
Definition set_login (st : SessionState.SessionState) (user pass : string) (ok : bool) s : Session F :=
  mkSession (files s) (controlSocket_ s) (clientAddr_ s) (dataSocket_ s) (passiveListenSocket_ s) (dataMode_ s) (activeHost_ s)
    (activePort_ s) st user pass ok (currentDirectory_ s) (renameFrom_ s)
    (transferType_ s) (running_ s) (replies_ s) (sent_ s) (sockets_ s) (touched_ s).
Definition set_paths (dir rename : string) s : Session F :=
  mkSession (files s) (controlSocket_ s) (clientAddr_ s) (dataSocket_ s) (passiveListenSocket_ s) (dataMode_ s) (activeHost_ s)
    (activePort_ s) (state_ s) (username_ s) (password_ s) (authenticated_ s) dir rename
    (transferType_ s) (running_ s) (replies_ s) (sent_ s) (sockets_ s) (touched_ s).
Definition set_type (t : TransferType.TransferType) s : Session F :=
  mkSession (files s) (controlSocket_ s) (clientAddr_ s) (dataSocket_ s) (passiveListenSocket_ s) (dataMode_ s) (activeHost_ s)
    (activePort_ s) (state_ s) (username_ s) (password_ s) (authenticated_ s) (currentDirectory_ s) (renameFrom_ s)
    t (running_ s) (replies_ s) (sent_ s) (sockets_ s) (touched_ s).
Definition set_run (running : bool) (st : SessionState.SessionState) s : Session F :=
  mkSession (files s) (controlSocket_ s) (clientAddr_ s) (dataSocket_ s) (passiveListenSocket_ s) (dataMode_ s) (activeHost_ s)
    (activePort_ s) st (username_ s) (password_ s) (authenticated_ s) (currentDirectory_ s) (renameFrom_ s)
    (transferType_ s) running (replies_ s) (sent_ s) (sockets_ s) (touched_ s).
Definition set_output (replies : list string) (sent : string) s : Session F :=
  mkSession (files s) (controlSocket_ s) (clientAddr_ s) (dataSocket_ s) (passiveListenSocket_ s) (dataMode_ s) (activeHost_ s)
    (activePort_ s) (state_ s) (username_ s) (password_ s) (authenticated_ s) (currentDirectory_ s) (renameFrom_ s)
    (transferType_ s) (running_ s) replies sent (sockets_ s) (touched_ s).
End setters.

Section session.
Context {F : Type} `{Unix F}.
Abbreviation M := (cpp (Session F)).

(** ** System calls on files *)

(** A call that only looks, and one that changes the files and reports success. *)
Definition query {A} (f : F -> string -> A) (path : string) : M A :=
  s ← get; modify (set_files (files s) path) ;; mret (f (files s) path).
Definition act (f : F -> bool * F) (path : string) : M bool :=
  s ← get; let r := f (files s) in modify (set_files r.2 path) ;; mret r.1.

Definition isFileExists (path : string) : M bool := st ← query u_stat path; mret (bool_decide (is_Some st)).
Definition isDirectory (path : string) : M bool :=
  st ← query u_stat path; mret (match st with Some st => S_ISDIR (st_mode st) | None => false end).

(** ** Control connection *)

Definition send_control (text : string) : M unit := modify (fun s => set_output (replies_ s ++ [text]) (sent_ s) s).
Definition sendResponse (code : Z) (message : string) : M unit := send_control (formatResponse code message).

(** ** Paths *)

Definition ends_with_slash (s : string) : bool := negb (last_not (fun c => char_eqb c "/") s).

Definition getAbsolutePath (s : Session F) (path : string) : string :=
  match path with
  | EmptyString => rootDirectory_ +:+ currentDirectory_ s
  | String c _ =>
      if char_eqb c "/" then rootDirectory_ +:+ path
      else
        let fullPath := if ends_with_slash (currentDirectory_ s) then currentDirectory_ s else currentDirectory_ s +:+ "/" in
        rootDirectory_ +:+ fullPath +:+ path
  end.

Definition isPathValid (path : string) : bool := negb (contains ".." path) && String.prefix rootDirectory_ path.

Definition setCurrentDirectory (path : string) : M bool :=
  s ← get;
  let newPath := getAbsolutePath s path in
  if negb (isPathValid newPath) then mret false else
  d ← isDirectory newPath;
  if negb d then mret false else
  let relativePath := substring (String.length rootDirectory_) (String.length newPath) newPath in
  modify (fun s => set_paths (if String.eqb relativePath "" then "/"%string else relativePath) (renameFrom_ s) s) ;;
  mret true.

(** ** Data connection *)

Definition close_fd (fd : Z) (open : gset Z) : gset Z := open ∖ {[fd]}.

Definition closeDataConnection : M unit := modify (fun s =>
  let open := if 0 <=? dataSocket_ s then close_fd (dataSocket_ s) (sockets_ s) else sockets_ s in
  let open := if 0 <=? passiveListenSocket_ s then close_fd (passiveListenSocket_ s) open else open in
  set_data (-1) (-1) DataConnectionMode.NONE open s).

Definition createPassiveListener (n : Net) : M bool :=
  s ← get;
  let open := if 0 <=? passiveListenSocket_ s then close_fd (passiveListenSocket_ s) (sockets_ s) else sockets_ s in
  match n_listen n with
  | None => modify (set_data (dataSocket_ s) (-1) (dataMode_ s) open) ;; mret false
  | Some (fd, _) => modify (set_data (dataSocket_ s) fd (dataMode_ s) ({[fd]} ∪ open)) ;; mret true
  end.

Definition connectToActiveAddress (n : Net) : M bool :=
  s ← get;
  if n_socket n <? 0 then modify (set_data (n_socket n) (passiveListenSocket_ s) (dataMode_ s) (sockets_ s)) ;; mret false
  else if n_connect n then
    modify (set_data (n_socket n) (passiveListenSocket_ s) (dataMode_ s) ({[n_socket n]} ∪ sockets_ s)) ;; mret true
  else modify (set_data (-1) (passiveListenSocket_ s) (dataMode_ s) (sockets_ s)) ;; mret false.

Definition openDataConnection (n : Net) : M bool :=
  s ← get;
  match dataMode_ s with
  | DataConnectionMode.ACTIVE => connectToActiveAddress n
  | DataConnectionMode.PASSIVE =>
      let fd := if passiveListenSocket_ s <? 0 then -1 else n_accept n in
      modify (set_data fd (passiveListenSocket_ s) (dataMode_ s)
                (if 0 <=? fd then {[fd]} ∪ sockets_ s else sockets_ s)) ;;
      mret (0 <=? fd)
  | DataConnectionMode.NONE => mret false
  end.

(** [send] until everything has been taken; what is left of the results. *)
Fixpoint send_loop (sends : list Z) (data : string) : M (bool * list Z) :=
  if String.eqb data "" then mret (true, sends) else
  match sends with
  | [] => mret (false, [])
  | r :: rest =>
      if r <=? 0 then mret (false, rest) else
      modify (fun s => set_output (replies_ s) (sent_ s +:+ substring 0 (Z.to_nat r) data) s) ;;
      send_loop rest (substring (Z.to_nat r) (String.length data) data)
  end.

Definition sendData (n : Net) (data : string) : M bool :=
  s ← get;
  if dataSocket_ s <? 0 then mret false else
  r ← send_loop (n_sends n) data; mret r.1.

(** [file.read] block by block, each sent before the next is read. *)
Fixpoint send_blocks (fuel : nat) (sends : list Z) (data : string) : M bool :=
  match fuel with
  | O => undefined "fuel"
  | S fuel' =>
      if String.eqb data "" then mret true else
      r ← send_loop sends (substring 0 BUFFER_SIZE data);
      if r.1 : bool then send_blocks fuel' r.2 (substring BUFFER_SIZE (String.length data) data) else mret false
  end.

Definition sendFile (n : Net) (path : string) : M bool :=
  content ← query u_read path;
  match content with
  | None => mret false
  | Some data => send_blocks (S (String.length data)) (n_sends n) data
  end.

Fixpoint write_loop (path : string) (recvs : list string) (closed : bool) : M bool :=
  match recvs with
  | [] => mret closed
  | data :: rest =>
      ok ← act (fun d => u_write d path data) path;
      if ok : bool then write_loop path rest closed else mret false
  end.

Definition receiveFile (n : Net) (path : string) (append : bool) : M bool :=
  ok ← act (fun d => u_open d path append) path;
  if ok : bool then write_loop path (n_recvs n) (n_closed n) else mret false.

(** ** Commands *)

Definition handleUSER (username : string) : M unit :=
  modify (fun s => set_login SessionState.AUTHENTICATING username (password_ s) (authenticated_ s) s) ;;
  sendResponse USER_NAME_OK "User name okay, need password".

Definition handlePASS (password : string) : M unit :=
  s ← get;
  if String.eqb (username_ s) "" then sendResponse BAD_SEQUENCE "Login with USER first" else
  modify (fun s => set_login SessionState.AUTHENTICATED (username_ s) password true s) ;;
  sendResponse USER_LOGGED_IN "User logged in, proceed".

Definition handleQUIT : M unit :=
  sendResponse SERVICE_CLOSING "Goodbye" ;; modify (set_run false SessionState.DISCONNECTED).

Definition dquote : string := String (ascii_of_nat 34) "".

Definition handlePWD : M unit :=
  s ← get; sendResponse PATHNAME_CREATED (dquote +:+ currentDirectory_ s +:+ dquote +:+ " is current directory").

Definition handleCWD (path : string) : M unit :=
  ok ← setCurrentDirectory path;
  if ok : bool then sendResponse FILE_ACTION_OK "Directory changed"
  else sendResponse FILE_UNAVAILABLE "Failed to change directory".

Definition handleCDUP : M unit := handleCWD "..".

Definition handleMKD (dirname : string) : M unit :=
  s ← get;
  let fullPath := getAbsolutePath s dirname in
  if negb (isPathValid fullPath) then sendResponse FILE_UNAVAILABLE "Invalid path" else
  ok ← act (fun d => u_mkdir d fullPath) fullPath;
  if ok : bool then sendResponse PATHNAME_CREATED (dquote +:+ dirname +:+ dquote +:+ " created")
  else sendResponse FILE_UNAVAILABLE "Failed to create directory".

Definition handleRMD (dirname : string) : M unit :=
  s ← get;
  let fullPath := getAbsolutePath s dirname in
  if negb (isPathValid fullPath) then sendResponse FILE_UNAVAILABLE "Invalid path" else
  ok ← act (fun d => u_rmdir d fullPath) fullPath;
  if ok : bool then sendResponse FILE_ACTION_OK "Directory removed"
  else sendResponse FILE_UNAVAILABLE "Failed to remove directory".

(** The short-circuit conditions on a path that several commands start with. *)
Definition exists_valid (path : string) : M bool :=
  if negb (isPathValid path) then mret false else isFileExists path.
Definition valid_directory (path : string) : M bool :=
  if negb (isPathValid path) then mret false else isDirectory path.
Definition valid_file (path : string) : M bool :=
  ok ← exists_valid path;
  if ok : bool then d ← isDirectory path; mret (negb d) else mret false.

Definition handleDELE (filename : string) : M unit :=
  s ← get;
  let fullPath := getAbsolutePath s filename in
  ok ← exists_valid fullPath;
  if negb ok then sendResponse FILE_UNAVAILABLE "File not found" else
  ok ← act (fun d => u_unlink d fullPath) fullPath;
  if ok : bool then sendResponse FILE_ACTION_OK "File deleted" else sendResponse FILE_UNAVAILABLE "Failed to delete file".

Definition handleTYPE (type : string) : M unit :=
  match type with
  | EmptyString => sendResponse SYNTAX_ERROR_IN_PARAMETERS "Type not specified"
  | String c _ =>
      if char_eqb (toupper c) "A" then modify (set_type TransferType.ASCII) ;; sendResponse COMMAND_OK "Type set to ASCII"
      else if char_eqb (toupper c) "I" then
        modify (set_type TransferType.IMAGE) ;; sendResponse COMMAND_OK "Type set to IMAGE (Binary)"
      else sendResponse COMMAND_NOT_IMPLEMENTED_FOR_PARAMETER "Type not supported"
  end.

Definition handlePORT (params : string) : M unit :=
  match parsePortCommand params with
  | Some (host, port) =>
      modify (set_active host port) ;;
      modify (fun s => set_data (dataSocket_ s) (passiveListenSocket_ s) DataConnectionMode.ACTIVE (sockets_ s) s) ;;
      closeDataConnection ;;
      sendResponse COMMAND_OK "PORT command successful"
  | None => sendResponse SYNTAX_ERROR_IN_PARAMETERS "Invalid PORT parameters"
  end.

Definition handlePASV (n : Net) : M unit :=
  ok ← createPassiveListener n;
  if ok : bool then
    modify (fun s => set_data (dataSocket_ s) (passiveListenSocket_ s) DataConnectionMode.PASSIVE (sockets_ s) s) ;;
    response ← generatePasvResponse (n_address n) (match n_listen n with Some (_, port) => port | None => 0 end);
    send_control response
  else sendResponse CANT_OPEN_DATA_CONNECTION "Cannot enter passive mode".

(** A transfer over the data connection, announced and concluded. *)
Definition transfer (n : Net) (announce complete : string) (body : M bool) : M unit :=
  sendResponse FILE_STATUS_OK announce ;;
  opened ← openDataConnection n;
  if negb opened then sendResponse CANT_OPEN_DATA_CONNECTION "Cannot open data connection" else
  ok ← body;
  (if ok : bool then sendResponse CLOSING_DATA_CONNECTION complete
   else sendResponse CONNECTION_CLOSED "Transfer aborted") ;;
  closeDataConnection.

Definition formatDirListing (path : string) (detailed : bool) : M string :=
  query (fun d p => formatFileList d p detailed) path.

Definition handleLIST (n : Net) (path : string) : M unit :=
  s ← get;
  let fullPath := getAbsolutePath s (if String.eqb path "" then currentDirectory_ s else path) in
  ok ← valid_directory fullPath;
  if negb ok then sendResponse FILE_UNAVAILABLE "Directory not found" else
  transfer n "Opening data connection for directory listing" "Directory send OK"
    (listing ← formatDirListing fullPath true; sendData n listing).

Definition handleNLST (n : Net) (path : string) : M unit :=
  s ← get;
  let fullPath := getAbsolutePath s (if String.eqb path "" then currentDirectory_ s else path) in
  ok ← valid_directory fullPath;
  if negb ok then sendResponse FILE_UNAVAILABLE "Directory not found" else
  transfer n "Opening data connection for file list" "Directory send OK"
    (listing ← formatDirListing fullPath false; sendData n listing).

(** A [stat] that fails leaves the size indeterminate; it has just succeeded. *)
Definition handleRETR (n : Net) (filename : string) : M unit :=
  s ← get;
  let fullPath := getAbsolutePath s filename in
  ok ← valid_file fullPath;
  if negb ok then sendResponse FILE_UNAVAILABLE "File not found" else
  st ← query u_stat fullPath;
  match st with
  | None => undefined "fileStat"
  | Some st =>
      transfer n ("Opening data connection for " +:+ filename +:+ " (" +:+ to_string (st_size st) +:+ " bytes)")
        "Transfer complete" (sendFile n fullPath)
  end.

Definition handleSTOR (n : Net) (filename : string) : M unit :=
  s ← get;
  let fullPath := getAbsolutePath s filename in
  if negb (isPathValid fullPath) then sendResponse FILE_UNAVAILABLE "Invalid filename" else
  transfer n "Opening data connection for file upload" "Transfer complete" (receiveFile n fullPath false).

Definition handleAPPE (n : Net) (filename : string) : M unit :=
  s ← get;
  let fullPath := getAbsolutePath s filename in
  if negb (isPathValid fullPath) then sendResponse FILE_UNAVAILABLE "Invalid filename" else
  transfer n "Opening data connection for file append" "Transfer complete" (receiveFile n fullPath true).

Definition handleRNFR (filename : string) : M unit :=
  s ← get;
  let fullPath := getAbsolutePath s filename in
  ok ← exists_valid fullPath;
  if negb ok then sendResponse FILE_UNAVAILABLE "File not found" else
  modify (fun s => set_paths (currentDirectory_ s) fullPath s) ;;
  sendResponse FILE_ACTION_PENDING "Ready for RNTO".

Definition clear_rename : M unit := modify (fun s => set_paths (currentDirectory_ s) "" s).

Definition handleRNTO (filename : string) : M unit :=
  s ← get;
  if String.eqb (renameFrom_ s) "" then sendResponse BAD_SEQUENCE "Use RNFR first" else
  let fullPath := getAbsolutePath s filename in
  if negb (isPathValid fullPath) then sendResponse FILE_UNAVAILABLE "Invalid filename" ;; clear_rename else
  modify (set_files (files s) (renameFrom_ s)) ;;
  ok ← act (fun d => u_rename d (renameFrom_ s) fullPath) fullPath;
  (if ok : bool then sendResponse FILE_ACTION_OK "File renamed" else sendResponse FILE_UNAVAILABLE "Rename failed") ;;
  clear_rename.

Definition handleSIZE (filename : string) : M unit :=
  s ← get;
  let fullPath := getAbsolutePath s filename in
  ok ← valid_file fullPath;
  if negb ok then sendResponse FILE_UNAVAILABLE "File not found" else
  st ← query u_stat fullPath;
  match st with
  | Some st => sendResponse FILE_STATUS (to_string (st_size st))
  | None => sendResponse FILE_UNAVAILABLE "Cannot get file size"
  end.

Definition handleMDTM (filename : string) : M unit :=
  s ← get;
  let fullPath := getAbsolutePath s filename in
  ok ← valid_file fullPath;
  if negb ok then sendResponse FILE_UNAVAILABLE "File not found" else
  st ← query u_stat fullPath;
  match st with
  | Some st => sendResponse FILE_STATUS (u_gmtime (st_mtime st))
  | None => sendResponse FILE_UNAVAILABLE "Cannot get modification time"
  end.

Definition handleHELP (command : string) : M unit :=
  send_control (if String.eqb command "" then
    "214-The following commands are recognized:" +:+ crlf +:+
    " USER PASS QUIT PWD CWD CDUP LIST NLST" +:+ crlf +:+
    " RETR STOR DELE MKD RMD RNFR RNTO SIZE" +:+ crlf +:+
    " TYPE PORT PASV SYST STAT NOOP HELP FEAT" +:+ crlf +:+
    "214 Help OK"
  else "214 Help for " +:+ command +:+ " not available").

Definition handleSYST : M unit := sendResponse SYSTEM_TYPE "UNIX Type: L8".

Definition handleSTAT : M unit :=
  s ← get;
  send_control ("211-FTP Server Status" +:+ crlf +:+ " Connected to " +:+ clientAddr_ s +:+ crlf +:+
    " Logged in as " +:+ username_ s +:+ crlf +:+
    " TYPE: " +:+ (if decide (transferType_ s = TransferType.ASCII) then "ASCII" else "BINARY") +:+ crlf +:+
    " Current directory: " +:+ currentDirectory_ s +:+ crlf +:+ "211 End of status").

Definition handleNOOP : M unit := sendResponse COMMAND_OK "NOOP OK".

Definition handleFEAT : M unit :=
  send_control ("211-Features:" +:+ crlf +:+ " SIZE" +:+ crlf +:+ " MDTM" +:+ crlf +:+ " PASV" +:+ crlf +:+
    " PORT" +:+ crlf +:+ " TYPE A" +:+ crlf +:+ " TYPE I" +:+ crlf +:+ "211 End").

(** ** The session *)

Definition before_login (command : string) : bool :=
  String.eqb command "USER" || String.eqb command "PASS" || String.eqb command "QUIT" ||
  String.eqb command "SYST" || String.eqb command "FEAT".

Definition handleCommand (n : Net) (command params : string) : M unit :=
  s ← get;
  if negb (authenticated_ s) && negb (before_login command) then sendResponse NOT_LOGGED_IN "Please login first"
  else if String.eqb command "USER" then handleUSER params
  else if String.eqb command "PASS" then handlePASS params
  else if String.eqb command "QUIT" then handleQUIT
  else if String.eqb command "PWD" then handlePWD
  else if String.eqb command "CWD" then handleCWD params
  else if String.eqb command "CDUP" then handleCDUP
  else if String.eqb command "MKD" then handleMKD params
  else if String.eqb command "RMD" then handleRMD params
  else if String.eqb command "DELE" then handleDELE params
  else if String.eqb command "RNFR" then handleRNFR params
  else if String.eqb command "RNTO" then handleRNTO params
  else if String.eqb command "SIZE" then handleSIZE params
  else if String.eqb command "MDTM" then handleMDTM params
  else if String.eqb command "TYPE" then handleTYPE params
  else if String.eqb command "PORT" then handlePORT params
  else if String.eqb command "PASV" then handlePASV n
  else if String.eqb command "LIST" then handleLIST n params
  else if String.eqb command "NLST" then handleNLST n params
  else if String.eqb command "RETR" then handleRETR n params
  else if String.eqb command "STOR" then handleSTOR n params
  else if String.eqb command "APPE" then handleAPPE n params
  else if String.eqb command "SYST" then handleSYST
  else if String.eqb command "STAT" then handleSTAT
  else if String.eqb command "HELP" then handleHELP params
  else if String.eqb command "NOOP" then handleNOOP
  else if String.eqb command "FEAT" then handleFEAT
  else sendResponse COMMAND_NOT_IMPLEMENTED "Command not implemented".

(** What [recv] returns on the control connection, with the results of the calls that the
    command makes; the buffer has room for 511 bytes. *)
Fixpoint command_loop (segments : list (string * Net)) : M unit :=
  s ← get;
  if negb (running_ s) || bool_decide (state_ s = SessionState.DISCONNECTED) then mret tt else
  match segments with
  | [] => mret tt
  | (line, n) :: rest =>
      if String.eqb line "" then mret tt else
      let '(command, params) := parseCommand line in
      handleCommand n command params ;; command_loop rest
  end.

Definition sessionLoop (segments : list (string * Net)) : M unit :=
  sendResponse SERVICE_READY "Welcome to FTP Server" ;;
  command_loop segments ;;
  modify (fun s => set_run (running_ s) SessionState.DISCONNECTED s).

(** The constructor, with the control socket open, and [start] without its thread. *)
Definition Session_new (d : F) (control : Z) (addr : string) : Session F :=
  let s := mkSession d control addr (-1) (-1) DataConnectionMode.NONE "" 0 SessionState.CONNECTED "" "" false "/" ""
             TransferType.ASCII false [] "" {[control]} [rootDirectory_] in
  match u_stat d rootDirectory_ with
  | Some _ => s
  | None => set_files (u_mkdir d rootDirectory_).2 rootDirectory_ s
  end.

Definition start (segments : list (string * Net)) : M unit :=
  modify (fun s => set_run true (state_ s) s) ;; sessionLoop segments.

(** The destructor, after the thread has ended. *)
Definition destroy : M unit :=
  modify (fun s => set_run false (state_ s) s) ;;
  modify (fun s => if 0 <=? controlSocket_ s then
    set_data (dataSocket_ s) (passiveListenSocket_ s) (dataMode_ s) (close_fd (controlSocket_ s) (sockets_ s)) s else s) ;;
  closeDataConnection.
End session.

(** ** The manager of sessions *)

(** [sessions_] holds pointers; [states] are the states of the sessions they point to. The
    mutex guards each operation. *)
Record SessionManager : Type := mkSessionManager {
  sessions_ : list nat;
  states : gmap nat SessionState.SessionState }.

Definition createSession (p : nat) (m : SessionManager) : SessionManager :=
  mkSessionManager (sessions_ m ++ [p]) (<[p := SessionState.CONNECTED]> (states m)).
Definition removeSession (p : nat) (m : SessionManager) : SessionManager :=
  mkSessionManager (filter (fun q => q <> p) (sessions_ m)) (states m).
Definition getSessionCount (m : SessionManager) : nat := length (sessions_ m).
Definition cleanupTimeoutSessions (m : SessionManager) : SessionManager :=
  mkSessionManager (filter (fun q => states m !! q <> Some SessionState.DISCONNECTED) (sessions_ m)) (states m).
