(* ===== verification/FtpCommands.v ===== *)
(** * FtpCommands: every FTP command keeps the session in order

    One lemma per command, by symbolic execution of its handler: with any parameters and
    whatever the network does, it is answered according to the grammar of replies, touches
    only paths below the root directory and leaves no socket open that it opened
    ([served]). [handle_command] puts them together. *)

From Stdlib Require Import Ascii String.
From S2P Require Import Prelude Text FtpProtocol FtpSession.
Import ResponseCode.

Local Open Scope Z_scope.

(** ** Paths *)

Lemma contains_cons sub c s : contains sub (String c s) = String.prefix sub (String c s) || contains sub s.
Proof.
  unfold contains. cbn [String.index]. destruct (String.prefix sub (String c s)); [done|]. cbn [orb].
  by destruct (String.index 0 sub s).
Qed.

Lemma contains_app_r sub a b : contains sub (a +:+ b) = false -> contains sub b = false.
Proof.
  induction a as [|c a IH]; [done|]. rewrite app_cons, contains_cons, orb_false_iff. intros [_ Hc]. by apply IH.
Qed.

Lemma substring_split k m data : (String.length data <= k + m)%nat -> substring 0 k data +:+ substring k m data = data.
Proof.
  revert data. induction k as [|k IH]; intros [|c data] Hm; [by destruct m|..].
  - by rewrite (substring_all _ m) by done.
  - by destruct m.
  - cbn [substring]. rewrite app_cons, IH; [done|]. cbn in Hm. lia.
Qed.

Lemma length_substring k m data : (String.length (substring k m data) <= String.length data - k)%nat.
Proof.
  revert k m. induction data as [|c data IH]; intros [|k] [|m]; cbn [substring String.length]; try lia.
  - pose proof (IH 0%nat m). lia.
  - pose proof (IH k 0%nat). lia.
  - pose proof (IH k (S m)). lia.
Qed.

(** A path below the root directory; no part of it goes up. *)
Definition confined (p : string) : Prop :=
  exists q, p = rootDirectory_ +:+ String "/" q /\ contains ".." p = false.

Definition is_rooted (dir : string) : Prop := (exists q, dir = String "/" q) /\ contains ".." dir = false.

Section props.
Context {F : Type} `{Unix F}.
Implicit Types (s : Session F) (n : Net).

Lemma absolute_rooted s path : is_rooted (currentDirectory_ s) ->
  exists q, getAbsolutePath s path = rootDirectory_ +:+ String "/" q.
Proof.
  intros [(d & E) _]. unfold getAbsolutePath. rewrite E. destruct path as [|c path]; [by exists d|].
  unfold char_eqb. destruct (Ascii.eqb_spec c "/") as [->|_]; [by exists path|]. cbv zeta.
  destruct (ends_with_slash _); rewrite <-?sapp_assoc, ?app_cons; by eexists.
Qed.

Lemma absolute_confined s path : is_rooted (currentDirectory_ s) -> isPathValid (getAbsolutePath s path) = true ->
  confined (getAbsolutePath s path).
Proof.
  intros Hd [Hv _]%andb_true_iff. destruct (absolute_rooted s path Hd) as (q & E). exists q. split; [done|].
  by apply negb_true_iff in Hv.
Qed.

Lemma relative_rooted s path : is_rooted (currentDirectory_ s) -> isPathValid (getAbsolutePath s path) = true ->
  let newPath := getAbsolutePath s path in
  let relativePath := substring (String.length rootDirectory_) (String.length newPath) newPath in
  is_rooted (if String.eqb relativePath "" then "/"%string else relativePath).
Proof.
  intros Hd Hv newPath. destruct (absolute_confined s path Hd Hv) as (q & E & Hc). fold newPath in E, Hc. rewrite E.
  rewrite substring_skip, substring_all by (rewrite slength_app; lia). cbv zeta.
  destruct (String.eqb_spec (String "/" q) "") as [|_]; [done|]. split; [by exists q|].
  rewrite E in Hc. exact (contains_app_r _ _ _ Hc).
Qed.

(** ** What a session is like between two commands *)

Record quiet s : Prop := mkQuiet {
  q_dir : is_rooted (currentDirectory_ s);
  q_rename : renameFrom_ s = ""%string \/ confined (renameFrom_ s);
  q_control : 0 <= controlSocket_ s;
  q_data : dataSocket_ s = -1;
  q_mode : dataMode_ s <> DataConnectionMode.ACTIVE;
  q_listen : passiveListenSocket_ s = -1 \/ 0 <= passiveListenSocket_ s /\ passiveListenSocket_ s <> controlSocket_ s;
  q_sockets : sockets_ s = {[controlSocket_ s]} ∪ (if 0 <=? passiveListenSocket_ s then {[passiveListenSocket_ s]} else ∅) }.

(** What the system promises: a new descriptor is not in use, the own address has four
    numbers. *)
Definition dotted (a b c d : Z) : string :=
  to_string a +:+ "." +:+ to_string b +:+ "." +:+ to_string c +:+ "." +:+ to_string d.
Definition is_byte (v : Z) : Prop := 0 <= v <= 255.

Record net_ok s n : Prop := mkNetOk {
  n_listen_ok fd port : n_listen n = Some (fd, port) -> 0 <= fd /\ fd <> controlSocket_ s;
  n_accept_ok : n_accept n = -1 \/ 0 <= n_accept n /\ n_accept n ∉ sockets_ s;
  n_address_ok : exists a b c d, is_byte a /\ is_byte b /\ is_byte c /\ is_byte d /\ n_address n = dotted a b c d }.

(** ** Replies *)

(** One reply, or a preliminary one and the conclusion of the transfer. *)
Inductive reply_ok : list string -> Prop :=
| one_reply t : reply_ok [t]
| transfer_reply announce code text : code = 226 \/ code = 425 \/ code = 426 ->
    reply_ok [formatResponse 150 announce; formatResponse code text].

Definition login s : string * bool := (username_ s, authenticated_ s).
Definition standing s : string * bool * bool * SessionState.SessionState :=
  (username_ s, authenticated_ s, running_ s, state_ s).
(** The loop goes on. *)
Definition alive s : bool := running_ s && negb (bool_decide (state_ s = SessionState.DISCONNECTED)).

(** What a command does, whatever it is. *)
Record served s s' : Prop := mkServed {
  sv_quiet : quiet s';
  sv_control : controlSocket_ s' = controlSocket_ s;
  sv_touched : exists l, touched_ s' = touched_ s ++ l /\ Forall confined l;
  sv_replies : exists l, replies_ s' = replies_ s ++ l /\ reply_ok l }.

(** Most commands neither log in nor out. *)
Definition handled s s' : Prop := served s s' /\ standing s' = standing s.

(** ** Loops *)

(** The files have become [d] by calls on [l], [t] has been sent. *)
Definition moved (d : F) (l : list string) (t : string) s : Session F :=
  mkSession d (controlSocket_ s) (clientAddr_ s) (dataSocket_ s) (passiveListenSocket_ s) (dataMode_ s) (activeHost_ s)
    (activePort_ s) (state_ s) (username_ s) (password_ s) (authenticated_ s) (currentDirectory_ s) (renameFrom_ s)
    (transferType_ s) (running_ s) (replies_ s) (sent_ s +:+ t) (sockets_ s) (touched_ s ++ l).

Lemma moved_none s : moved (files s) [] "" s = s.
Proof. destruct s. unfold moved. cbn. by rewrite app_nil_r, sapp_nil_r. Qed.

Lemma moved_moved d l t d' l' t' s : moved d' l' t' (moved d l t s) = moved d' (l ++ l') (t +:+ t') s.
Proof. unfold moved. cbn. by rewrite app_assoc, sapp_assoc. Qed.

Lemma act_eq f path s : act f path s = Ok (f (files s)).1 (moved (f (files s)).2 [path] "" s).
Proof. unfold moved. rewrite sapp_nil_r. done. Qed.

Lemma query_eq {A} (f : F -> string -> A) path s : query f path s = Ok (f (files s) path) (moved (files s) [path] "" s).
Proof. unfold moved. rewrite sapp_nil_r. done. Qed.

Lemma send_loop_spec sends data s : exists b rest t,
  send_loop sends data s = Ok (b, rest) (moved (files s) [] t s) /\ (b = true -> t = data).
Proof.
  revert data s. induction sends as [|r sends IH]; intros data s; cbn [send_loop];
    destruct (String.eqb_spec data "") as [->|Hne].
  - exists true, [], ""%string. by rewrite moved_none.
  - exists false, [], ""%string. by rewrite moved_none.
  - exists true, (r :: sends), ""%string. by rewrite moved_none.
  - destruct (r <=? 0) eqn:Er; [exists false, sends, ""%string; by rewrite moved_none|].
    rewrite (bind_Ok (modify _) _ s tt _ eq_refl).
    set (part := substring 0 (Z.to_nat r) data). set (rest := substring (Z.to_nat r) (String.length data) data).
    replace (set_output _ _ s) with (moved (files s) [] part s) by (unfold moved, set_output; by rewrite app_nil_r).
    destruct (IH rest (moved (files s) [] part s)) as (b & rest' & t & E & Ht). exists b, rest', (part +:+ t).
    rewrite E, moved_moved. split; [done|]. intros Hb. rewrite (Ht Hb). apply substring_split. lia.
Qed.

Lemma send_blocks_spec fuel sends data s : (String.length data < fuel)%nat -> exists b t,
  send_blocks fuel sends data s = Ok b (moved (files s) [] t s) /\ (b = true -> t = data).
Proof.
  revert sends data s. induction fuel as [|fuel IH]; intros sends data s Hf; [lia|]. cbn [send_blocks].
  destruct (String.eqb_spec data "") as [->|Hne]; [exists true, ""%string; by rewrite moved_none|].
  set (part := substring 0 BUFFER_SIZE data). set (rest := substring BUFFER_SIZE (String.length data) data).
  destruct (send_loop_spec sends part s) as (b & rest' & t & E & Ht). rewrite (bind_Ok _ _ _ _ _ E). cbn [fst snd].
  destruct b; [|by exists false, t].
  destruct (IH rest' rest (moved (files s) [] t s)) as (b & t' & E' & Ht').
  { assert (String.length rest < String.length data)%nat; [|lia]. pose proof (length_substring BUFFER_SIZE (String.length data) data) as Hl.
    fold rest in Hl. assert (0 < BUFFER_SIZE)%nat by (by apply Nat.ltb_lt). clearbody rest. destruct data; [done|].
    cbn [String.length] in *. lia. }
  exists b, (t +:+ t'). rewrite E', moved_moved. split; [done|]. intros Hb. rewrite (Ht eq_refl), (Ht' Hb).
  apply substring_split. lia.
Qed.

Lemma write_loop_spec path recvs closed s : exists b d l,
  write_loop path recvs closed s = Ok b (moved d l "" s) /\ Forall (eq path) l.
Proof.
  revert s. induction recvs as [|data recvs IH]; intros s; cbn [write_loop].
  - exists closed, (files s), []. by rewrite moved_none.
  - rewrite (bind_Ok _ _ _ _ _ (act_eq _ _ s)). set (r := u_write (files s) path data).
    destruct r.1.
    + destruct (IH (moved r.2 [path] "" s)) as (b & d & l & E & Hl). exists b, d, (path :: l).
      split; [|by constructor]. by rewrite E, moved_moved.
    + exists false, r.2, [path]. split; [done|by repeat constructor].
Qed.

(** ** Commands one by one *)

Lemma returns_get s (Q : Session F -> Session F -> Prop) : Q s s -> returns get s Q.
Proof. intros HQ. by exists s, s. Qed.
Lemma returns_act f path s (Q : bool -> Session F -> Prop) :
  Q (f (files s)).1 (moved (f (files s)).2 [path] "" s) -> returns (act f path) s Q.
Proof. intros HQ. do 2 eexists. split; [apply act_eq|done]. Qed.
Lemma returns_query {A} (f : F -> string -> A) path s (Q : A -> Session F -> Prop) :
  Q (f (files s) path) (moved (files s) [path] "" s) -> returns (query f path) s Q.
Proof. intros HQ. do 2 eexists. split; [apply query_eq|done]. Qed.
Lemma returns_control text s (Q : unit -> Session F -> Prop) :
  Q tt (set_output (replies_ s ++ [text]) (sent_ s) s) -> returns (send_control text) s Q.
Proof. intros HQ. by do 2 eexists. Qed.

(** The case in which the data connection is not touched. *)
Lemma served_simple s s' l t : quiet s ->
  is_rooted (currentDirectory_ s') -> renameFrom_ s' = ""%string \/ confined (renameFrom_ s') ->
  (controlSocket_ s', dataSocket_ s', passiveListenSocket_ s', dataMode_ s', sockets_ s') =
    (controlSocket_ s, dataSocket_ s, passiveListenSocket_ s, dataMode_ s, sockets_ s) ->
  touched_ s' = touched_ s ++ l -> Forall confined l -> replies_ s' = replies_ s ++ [t] ->
  served s s'.
Proof.
  intros [] Hdir Hren [= Ec Ed El Em Es] Ht Hl Hr. split.
  - split; rewrite ?Ec, ?Ed, ?El, ?Em, ?Es; done.
  - done.
  - by exists l.
  - exists [t]. split; [done|constructor].
Qed.

Lemma handled_moved s d l t s' : Forall confined l -> handled (moved d l t s) s' -> handled s s'.
Proof.
  intros Hl [[Hq Hc (l' & Ht & Hl') Hr] Hlog]. split; [|done]. split; [done|done| |done].
  exists (l ++ l'). rewrite Ht. cbn. by rewrite <-app_assoc, Forall_app.
Qed.

Lemma moved_quiet d l t s : quiet s -> quiet (moved d l t s).
Proof. by intros []. Qed.
End props.

(** Symbolic execution of a handler. *)
Ltac ftp_step :=
  first
  [ progress cbv zeta beta
  | wp_step
  | apply returns_get | apply returns_act | apply returns_query | apply returns_control
  | match goal with
    | |- returns (if ?b then _ else _) _ _ => destruct b eqn:?
    | |- returns (match ?x with _ => _ end) _ _ => destruct x eqn:?
    end ].

(** A path that has been checked. *)
Ltac confined_path :=
  match goal with
  | Hq : quiet ?s, E : negb (isPathValid (getAbsolutePath ?s ?p)) = false |- confined (getAbsolutePath ?s ?p) =>
      apply absolute_confined; [apply (q_dir _ Hq)|by apply negb_false_iff in E]
  | Hq : quiet ?s, E : String.eqb (renameFrom_ ?s) _ = false |- confined (renameFrom_ ?s) =>
      destruct (q_rename _ Hq) as [E'|]; [by rewrite E' in E|done]
  | _ => done
  end.

(** Closes a [served] or [handled] goal of a command without a data connection. *)
Ltac ftp_served :=
  match goal with Hq : quiet ?s |- served ?s _ =>
    eapply (served_simple s); [exact Hq|..];
      [first [exact (q_dir _ Hq)|idtac]
      |first [exact (q_rename _ Hq)|by left|right; cbn [renameFrom_ set_output set_paths set_files moved]; confined_path|idtac]
      |reflexivity
      |cbn; first [symmetry; apply app_nil_r|rewrite <-?app_assoc; reflexivity]
      |repeat first [apply List.Forall_nil|apply List.Forall_cons]; try confined_path|reflexivity]
  end.
Ltac ftp_handled := split; [ftp_served|reflexivity].

Ltac ftp := repeat ftp_step; try ftp_handled.

Section commands.
Context {F : Type} `{Unix F}.
Implicit Types (s : Session F) (n : Net).

Lemma handle_quit s : quiet s ->
  returns handleQUIT s (fun _ s' => served s s' /\ login s' = login s /\ alive s' = false).
Proof. intros Hq. unfold handleQUIT, sendResponse. repeat ftp_step. split; [ftp_served|done]. Qed.
Lemma handle_pwd s : quiet s -> returns handlePWD s (fun _ s' => handled s s').
Proof. intros Hq. unfold handlePWD, sendResponse. ftp. Qed.
Lemma handle_mkd s p : quiet s -> returns (handleMKD p) s (fun _ s' => handled s s').
Proof. intros Hq. unfold handleMKD, sendResponse. ftp. Qed.
Lemma handle_rmd s p : quiet s -> returns (handleRMD p) s (fun _ s' => handled s s').
Proof. intros Hq. unfold handleRMD, sendResponse. ftp. Qed.
Lemma handle_dele s p : quiet s -> returns (handleDELE p) s (fun _ s' => handled s s').
Proof. intros Hq. unfold handleDELE, exists_valid, isFileExists, sendResponse. ftp. Qed.
Lemma handle_type s p : quiet s -> returns (handleTYPE p) s (fun _ s' => handled s s').
Proof. intros Hq. unfold handleTYPE, sendResponse. ftp. Qed.
Lemma handle_rnfr s p : quiet s -> returns (handleRNFR p) s (fun _ s' => handled s s').
Proof. intros Hq. unfold handleRNFR, exists_valid, isFileExists, sendResponse. ftp. Qed.
Lemma handle_rnto s p : quiet s -> returns (handleRNTO p) s (fun _ s' => handled s s').
Proof. intros Hq. unfold handleRNTO, clear_rename, sendResponse. ftp. Qed.
Lemma handle_size s p : quiet s -> returns (handleSIZE p) s (fun _ s' => handled s s').
Proof. intros Hq. unfold handleSIZE, valid_file, exists_valid, isDirectory, isFileExists, sendResponse. ftp. Qed.
Lemma handle_mdtm s p : quiet s -> returns (handleMDTM p) s (fun _ s' => handled s s').
Proof. intros Hq. unfold handleMDTM, valid_file, exists_valid, isDirectory, isFileExists, sendResponse. ftp. Qed.
Lemma handle_help s p : quiet s -> returns (handleHELP p) s (fun _ s' => handled s s').
Proof. intros Hq. unfold handleHELP. ftp. Qed.
Lemma handle_stat s : quiet s -> returns handleSTAT s (fun _ s' => handled s s').
Proof. intros Hq. unfold handleSTAT. ftp. Qed.
Lemma handle_syst s : quiet s -> returns handleSYST s (fun _ s' => handled s s').
Proof. intros Hq. unfold handleSYST, sendResponse. ftp. Qed.
Lemma handle_noop s : quiet s -> returns handleNOOP s (fun _ s' => handled s s').
Proof. intros Hq. unfold handleNOOP, sendResponse. ftp. Qed.
Lemma handle_feat s : quiet s -> returns handleFEAT s (fun _ s' => handled s s').
Proof. intros Hq. unfold handleFEAT. ftp. Qed.
Lemma handle_cwd s p : quiet s -> returns (handleCWD p) s (fun _ s' => handled s s').
Proof.
  intros Hq. unfold handleCWD, setCurrentDirectory, isDirectory, sendResponse. ftp.
  apply relative_rooted; [apply (q_dir _ Hq)|by apply negb_false_iff].
Qed.

(** *** The data connection *)

(** Closing leaves the control connection alone. *)
Lemma closed_quiet s : is_rooted (currentDirectory_ s) -> (renameFrom_ s = ""%string \/ confined (renameFrom_ s)) ->
  0 <= controlSocket_ s ->
  (let open := if 0 <=? dataSocket_ s then close_fd (dataSocket_ s) (sockets_ s) else sockets_ s in
   (if 0 <=? passiveListenSocket_ s then close_fd (passiveListenSocket_ s) open else open) = {[controlSocket_ s]}) ->
  returns closeDataConnection s (fun _ s' => quiet s' /\ dataMode_ s' = DataConnectionMode.NONE /\
    controlSocket_ s' = controlSocket_ s /\ replies_ s' = replies_ s /\ touched_ s' = touched_ s /\ standing s' = standing s /\
    files s' = files s /\ sent_ s' = sent_ s).
Proof.
  intros Hd Hr Hc Ho. unfold closeDataConnection. ftp_step. cbv zeta in Ho. rewrite Ho. split_and!; try done.
  split; cbn; try done; [by left|]. symmetry. apply (right_id_L ∅ (∪)).
Qed.

Lemma quiet_sockets s : quiet s ->
  (let open := if 0 <=? dataSocket_ s then close_fd (dataSocket_ s) (sockets_ s) else sockets_ s in
   (if 0 <=? passiveListenSocket_ s then close_fd (passiveListenSocket_ s) open else open)) = {[controlSocket_ s]}.
Proof.
  intros []. rewrite q_data0. cbn. rewrite q_sockets0. unfold close_fd.
  destruct (Z.leb_spec 0 (passiveListenSocket_ s)); [|by apply (right_id_L ∅ (∪))].
  destruct q_listen0 as [?|[_ ?]]; [lia|]. set_solver.
Qed.

Lemma quiet_close s : quiet s ->
  returns closeDataConnection s (fun _ s' => quiet s' /\ dataMode_ s' = DataConnectionMode.NONE /\
    controlSocket_ s' = controlSocket_ s /\ replies_ s' = replies_ s /\ touched_ s' = touched_ s /\ standing s' = standing s /\
    files s' = files s /\ sent_ s' = sent_ s).
Proof.
  intros Hq. pose proof (quiet_sockets s Hq). destruct Hq. by apply closed_quiet.
Qed.

Lemma handle_port s p : quiet s -> returns (handlePORT p) s (fun _ s' => handled s s').
Proof.
  intros Hq. unfold handlePORT. destruct (parsePortCommand p) as [[host port]|]; [|unfold sendResponse; ftp].
  do 2 (ftp_step; ftp_step). apply returns_bind.
  eapply returns_mono; [apply closed_quiet|].
  - apply (q_dir _ Hq).
  - apply (q_rename _ Hq).
  - apply (q_control _ Hq).
  - exact (quiet_sockets s Hq).
  - intros [] s' (Hq' & _ & Hc & Hr & Ht & Hl & _). unfold sendResponse. ftp_step. split; [|exact Hl].
    split; [by destruct Hq'|exact Hc|exists []; split; [cbn; rewrite Ht; symmetry; apply app_nil_r|constructor]|].
    exists [formatResponse COMMAND_OK "PORT command successful"]. split; [cbn; by rewrite Hr|constructor].
Qed.

Lemma app_cons_dot (a b : string) : (a +:+ "." +:+ b) = a +:+ String "." b.
Proof. done. Qed.

Lemma pasv_text a b c d port s : is_byte a -> is_byte b -> is_byte c -> is_byte d ->
  generatePasvResponse (dotted a b c d) port s =
    Ok ("227 Entering Passive Mode (" +:+ to_string a +:+ "," +:+ to_string b +:+ "," +:+ to_string c +:+ "," +:+
        to_string d +:+ "," +:+ to_string (Z.quot port 256) +:+ "," +:+ to_string (Z.rem port 256) +:+ ")." +:+ crlf) s.
Proof.
  intros Ha Hb Hc Hd. unfold generatePasvResponse, dotted, is_byte in *.
  assert (Hdot : forall v, no_char "." (to_string v) = true) by (intros v; by apply to_string_no_char).
  rewrite !app_cons_dot, !getlines_app, getlines_single by (done || apply to_string_nonempty).
  cbn [stoi_all]. rewrite !stoi_to_string by (unfold is_int, INT_MIN, INT_MAX; lia). done.
Qed.

Lemma create_listener_eq s n : quiet s -> createPassiveListener n s =
  let r := match n_listen n with
           | None => (false, set_data (dataSocket_ s) (-1) (dataMode_ s) {[controlSocket_ s]} s)
           | Some (fd, _) => (true, set_data (dataSocket_ s) fd (dataMode_ s) ({[fd]} ∪ {[controlSocket_ s]}) s)
           end in Ok r.1 r.2.
Proof.
  intros Hq. pose proof (quiet_sockets s Hq) as Ho. cbv zeta in Ho. rewrite (q_data _ Hq) in Ho. cbn in Ho.
  unfold createPassiveListener. rewrite (bind_Ok get _ s s s eq_refl). cbv zeta. rewrite Ho.
  by destruct (n_listen n) as [[fd port]|].
Qed.

Lemma handle_pasv s n : quiet s -> net_ok s n -> returns (handlePASV n) s (fun _ s' => handled s s').
Proof.
  intros Hq Hn. unfold handlePASV. apply returns_bind. eapply returns_Ok; [by apply create_listener_eq|].
  destruct (n_listen n) as [[fd port]|] eqn:El; cbn [fst snd].
  - destruct (n_listen_ok _ _ Hn _ _ El) as [Hfd Hne].
    destruct (n_address_ok _ _ Hn) as (a & b & c & d & Ha & Hb & Hc & Hd & ->).
    ftp_step. ftp_step. ftp_step. eapply returns_Ok; [by apply pasv_text|]. ftp_step. split; [|done]. split.
    + destruct Hq. split; cbn; try done; [by right|]. rewrite (proj2 (Z.leb_le 0 fd)) by done. set_solver.
    + done.
    + exists []. split; [symmetry; apply app_nil_r|constructor].
    + eexists. split; [reflexivity|constructor].
  - unfold sendResponse. repeat ftp_step. split; [|done]. split.
    + destruct Hq. split; cbn; try done; [by left|]. symmetry. apply (right_id_L ∅ (∪)).
    + done.
    + exists []. split; [symmetry; apply app_nil_r|constructor].
    + eexists. split; [reflexivity|constructor].
Qed.

(** *** Transfers *)

(** The socket is opened, with everything else as it was, or the command ends. *)
Lemma open_spec s n : quiet s -> net_ok s n ->
  returns (openDataConnection n) s (fun ok s' =>
    if ok then dataMode_ s = DataConnectionMode.PASSIVE /\ 0 <= n_accept n /\
      s' = set_data (n_accept n) (passiveListenSocket_ s) (dataMode_ s) ({[n_accept n]} ∪ sockets_ s) s /\ 0 <= passiveListenSocket_ s
    else s' = s).
Proof.
  intros Hq Hn. unfold openDataConnection. ftp_step. ftp_step.
  assert (Hs : set_data (-1) (passiveListenSocket_ s) (dataMode_ s) (sockets_ s) s = s).
  { pose proof (q_data _ Hq) as Hd. destruct s; cbn in *. by subst. }
  destruct (dataMode_ s) eqn:Em; [by ftp_step|by destruct (q_mode _ Hq)|].
  destruct (Z.ltb_spec (passiveListenSocket_ s) 0); repeat ftp_step.
  - done.
  - destruct (n_accept_ok _ _ Hn) as [E|[Hfd _]]; [rewrite E; done|].
    rewrite (proj2 (Z.leb_le 0 _)) by done. done.
Qed.

Lemma transfer_handled s n announce complete body : quiet s -> net_ok s n ->
  (forall s1, returns body s1 (fun _ s2 => exists d l t, s2 = moved d l t s1 /\ Forall confined l)) ->
  returns (transfer n announce complete body) s (fun _ s' => handled s s').
Proof.
  intros Hq Hn Hbody. unfold transfer, sendResponse. ftp_step. ftp_step. set (s1 := set_output _ _ s).
  assert (Hq1 : quiet s1) by (by destruct Hq). assert (Hn1 : net_ok s1 n) by (by destruct Hn).
  apply returns_bind. eapply returns_mono; [by apply open_spec|]. intros [|] s2 Hopen; cbn [negb].
  - destruct Hopen as (_ & Hfd & -> & Hlis). apply returns_bind. eapply returns_mono; [apply Hbody|].
    intros ok s3 (d & l & t & -> & Hl). apply returns_bind.
    apply returns_mono with (fun _ s4 => exists code text, (code = 226 \/ code = 425 \/ code = 426) /\
      s4 = set_output (replies_ s1 ++ [formatResponse code text]) (sent_ s1 +:+ t) (moved d l t (set_data (n_accept n)
        (passiveListenSocket_ s1) (dataMode_ s1) ({[n_accept n]} ∪ sockets_ s1) s1))).
    { destruct ok; ftp_step; do 2 eexists; (split; [|reflexivity]); auto. }
    intros [] s4 (code & text & Hcode & ->).
    eapply returns_mono; [apply closed_quiet|].
    + apply (q_dir _ Hq).
    + apply (q_rename _ Hq).
    + apply (q_control _ Hq).
    + change (passiveListenSocket_ s1) with (passiveListenSocket_ s) in Hlis. cbn.
      rewrite (proj2 (Z.leb_le 0 _) Hfd), (proj2 (Z.leb_le 0 _) Hlis).
      pose proof (quiet_sockets s Hq) as Ho. cbv zeta in Ho. rewrite (q_data _ Hq), (proj2 (Z.leb_le 0 _) Hlis) in Ho. cbn in Ho.
      destruct (n_accept_ok _ _ Hn) as [?|[_ Hnew]]; [lia|]. rewrite <-Ho. unfold close_fd. set_solver.
    + intros [] s5 (Hq5 & _ & Hc & Hr & Ht & Hlog & _). split; [|exact Hlog]. split; [done|exact Hc| |].
      * exists l. split; [exact Ht|done].
      * exists [formatResponse 150 announce; formatResponse code text]. split; [|by constructor].
        rewrite Hr. cbn. by rewrite <-app_assoc.
  - subst s2. ftp_step. split; [|done]. split; [by destruct Hq|done|exists []; split; [symmetry; apply app_nil_r|constructor]|].
    exists [formatResponse 150 announce; formatResponse 425 "Cannot open data connection"].
    split; [cbn; by rewrite <-app_assoc|]. constructor. auto.
Qed.

Lemma moved_net d l t s n : net_ok s n -> net_ok (moved d l t s) n.
Proof. by intros []. Qed.

(** A check of a path, and what follows it. *)
Definition checks (c : cpp (Session F) bool) (path : string) s : Prop :=
  returns c s (fun ok s' => exists l, s' = moved (files s) l "" s /\ Forall confined l /\ (ok = true -> confined path)).

Lemma valid_directory_checks s p : quiet s -> checks (valid_directory (getAbsolutePath s p)) (getAbsolutePath s p) s.
Proof.
  intros Hq. unfold checks, valid_directory, isDirectory. repeat ftp_step.
  - exists []. rewrite moved_none. by repeat constructor.
  - assert (confined (getAbsolutePath s p)) by confined_path. eexists. split; [reflexivity|]. by repeat constructor.
Qed.

Lemma valid_file_checks s p : quiet s -> checks (valid_file (getAbsolutePath s p)) (getAbsolutePath s p) s.
Proof.
  intros Hq. unfold checks, valid_file, exists_valid, isDirectory, isFileExists. repeat ftp_step; try done.
  - exists []. rewrite moved_none. by repeat constructor.
  - assert (confined (getAbsolutePath s p)) by confined_path. rewrite moved_moved.
    eexists. split; [reflexivity|]. by repeat (constructor || split).
  - assert (confined (getAbsolutePath s p)) by confined_path. eexists. split; [reflexivity|]. by repeat (constructor || split).
Qed.

Lemma refused_handled s d l code text : quiet s -> Forall confined l ->
  returns (sendResponse code text) (moved d l "" s) (fun _ s' => handled s s').
Proof.
  intros Hq Hl. pose proof (moved_quiet d l "" s Hq) as Hq'. unfold sendResponse. ftp_step.
  apply (handled_moved s d l ""); [done|]. ftp_handled.
Qed.

Lemma sendData_moves n data s : returns (sendData n data) s (fun _ s' => exists d l t, s' = moved d l t s /\ Forall confined l).
Proof.
  unfold sendData. ftp_step. ftp_step. destruct (_ <? 0); [ftp_step; exists (files s), [], ""%string; by rewrite moved_none|].
  destruct (send_loop_spec (n_sends n) data s) as (b & rest & t & E & _). ftp_step. eapply returns_Ok; [exact E|]. ftp_step.
  by exists (files s), [], t.
Qed.

Lemma listing_moves n path detailed s : confined path ->
  returns (listing ← formatDirListing path detailed; sendData n listing) s
    (fun _ s' => exists d l t, s' = moved d l t s /\ Forall confined l).
Proof.
  intros Hp. unfold formatDirListing. ftp_step. ftp_step. eapply returns_mono; [apply sendData_moves|].
  intros _ s' (d & l & t & -> & Hl). exists d, (path :: l), t. rewrite moved_moved. split; [done|by constructor].
Qed.

Lemma sendFile_moves n path s : confined path ->
  returns (sendFile n path) s (fun _ s' => exists d l t, s' = moved d l t s /\ Forall confined l).
Proof.
  intros Hp. unfold sendFile. ftp_step. ftp_step. destruct (u_read (files s) path) as [data|].
  - destruct (send_blocks_spec (S (String.length data)) (n_sends n) data (moved (files s) [path] "" s)) as (b & t & E & _); [lia|].
    eapply returns_Ok; [exact E|]. rewrite moved_moved. do 3 eexists. split; [reflexivity|]. by repeat constructor.
  - ftp_step. do 3 eexists. split; [reflexivity|]. by repeat constructor.
Qed.

Lemma receiveFile_moves n path append s : confined path ->
  returns (receiveFile n path append) s (fun _ s' => exists d l t, s' = moved d l t s /\ Forall confined l).
Proof.
  intros Hp. unfold receiveFile. ftp_step. ftp_step. destruct (u_open _ _ _).1.
  - destruct (write_loop_spec path (n_recvs n) (n_closed n) (moved (u_open (files s) path append).2 [path] "" s))
      as (b & d & l & E & Hl). eapply returns_Ok; [exact E|]. rewrite moved_moved. do 3 eexists. split; [reflexivity|].
    constructor; [done|]. eapply Forall_impl; [exact Hl|]. by intros ? <-.
  - ftp_step. do 3 eexists. split; [reflexivity|]. by repeat constructor.
Qed.

(** A check, and then a transfer or a refusal. *)
Lemma checked_transfer s n path c code text announce complete (body : cpp (Session F) bool) :
  quiet s -> net_ok s n -> checks c path s ->
  (confined path -> forall s1, returns body s1 (fun _ s2 => exists d l t, s2 = moved d l t s1 /\ Forall confined l)) ->
  returns (ok ← c; if negb ok then sendResponse code text else transfer n announce complete body) s (fun _ s' => handled s s').
Proof.
  intros Hq Hn Hc Hbody. apply returns_bind. eapply returns_mono; [exact Hc|]. intros ok s' (l & -> & Hl & Hp).
  destruct ok; cbn [negb]; [|by apply refused_handled].
  eapply returns_mono; [apply transfer_handled; [by apply moved_quiet|by apply moved_net|by apply Hbody, Hp]|].
  intros [] s' Hh. by eapply handled_moved.
Qed.

Lemma handle_list s n p : quiet s -> net_ok s n -> returns (handleLIST n p) s (fun _ s' => handled s s').
Proof.
  intros Hq Hn. unfold handleLIST. ftp_step. ftp_step. eapply checked_transfer; [done..|by apply valid_directory_checks|].
  intros Hp s1. by apply listing_moves.
Qed.
Lemma handle_nlst s n p : quiet s -> net_ok s n -> returns (handleNLST n p) s (fun _ s' => handled s s').
Proof.
  intros Hq Hn. unfold handleNLST. ftp_step. ftp_step. eapply checked_transfer; [done..|by apply valid_directory_checks|].
  intros Hp s1. by apply listing_moves.
Qed.

(** A file that passes the check can be looked at again. *)
Lemma valid_file_stat s p : quiet s -> let path := getAbsolutePath s p in
  returns (valid_file path) s (fun ok s' => exists l, s' = moved (files s) l "" s /\ Forall confined l /\
    (ok = true -> confined path /\ exists st, u_stat (files s) path = Some st)).
Proof.
  intros Hq path. unfold valid_file, exists_valid, isDirectory, isFileExists. repeat ftp_step; try done.
  - exists []. rewrite moved_none. by repeat constructor.
  - assert (confined path) by (apply absolute_confined; [apply (q_dir _ Hq)|by apply negb_false_iff]). rewrite moved_moved. eexists. split; [reflexivity|].
    split; [by repeat constructor|]. intros _. split; [done|].
    destruct (u_stat (files s) path) as [st|]; [by exists st|by rewrite bool_decide_false in Heqb0 by apply is_Some_None].
  - assert (confined path) by (apply absolute_confined; [apply (q_dir _ Hq)|by apply negb_false_iff]). eexists. split; [reflexivity|].
    split; [by repeat constructor|done].
Qed.

Lemma handle_retr s n p : quiet s -> net_ok s n -> returns (handleRETR n p) s (fun _ s' => handled s s').
Proof.
  intros Hq Hn. unfold handleRETR. ftp_step. ftp_step. cbv zeta. apply returns_bind.
  eapply returns_mono; [by apply valid_file_stat|]. intros ok s' (l & -> & Hl & Hp).
  destruct ok; cbn [negb]; [|by apply refused_handled]. destruct (Hp eq_refl) as [Hc [st Est]].
  ftp_step. ftp_step. change (files (moved (files s) l "" s)) with (files s). rewrite Est, moved_moved.
  eapply returns_mono; [apply transfer_handled; [by apply moved_quiet|by apply moved_net|]|].
  - intros s1. by apply sendFile_moves.
  - intros [] s' Hh. eapply handled_moved; [|exact Hh]. apply Forall_app. by repeat constructor.
Qed.

Lemma store_handled s n p announce append : quiet s -> net_ok s n ->
  returns (if negb (isPathValid (getAbsolutePath s p)) then sendResponse FILE_UNAVAILABLE "Invalid filename"
    else transfer n announce "Transfer complete" (receiveFile n (getAbsolutePath s p) append)) s (fun _ s' => handled s s').
Proof.
  intros Hq Hn. destruct (negb _) eqn:E; [unfold sendResponse; ftp|].
  apply transfer_handled; [done..|]. intros s1. apply receiveFile_moves. confined_path.
Qed.

Lemma handle_user s p : quiet s -> returns (handleUSER p) s (fun _ s' =>
  served s s' /\ login s' = (p, authenticated_ s) /\ alive s' = running_ s).
Proof.
  intros Hq. unfold handleUSER, sendResponse. repeat ftp_step. split; [ftp_served|]. split; [done|apply andb_true_r].
Qed.
Lemma handle_pass s p : quiet s -> returns (handlePASS p) s (fun _ s' => served s s' /\
  login s' = (username_ s, if String.eqb (username_ s) "" then authenticated_ s else true) /\
  (alive s = true -> alive s' = true)).
Proof.
  intros Hq. unfold handlePASS, sendResponse. repeat ftp_step; (split; [ftp_served|split; [done|]]); [done|].
  by intros [Hr _]%andb_true_iff; unfold alive; cbn; rewrite Hr.
Qed.

(** ** Any command *)

(** The login after a command. *)
Definition login_step (l : string * bool) (c : string * string) : string * bool :=
  if String.eqb c.1 "USER" then (c.2, l.2)
  else if String.eqb c.1 "PASS" then (l.1, if String.eqb l.1 "" then l.2 else true)
  else l.

Lemma handled_standing s s' command params : handled s s' -> alive s = true ->
  String.eqb command "USER" = false -> String.eqb command "PASS" = false -> String.eqb command "QUIT" = false ->
  served s s' /\ login s' = login_step (login s) (command, params) /\ alive s' = negb (String.eqb command "QUIT").
Proof.
  intros [Hsv Hst] Ha Hu Hp Hqu. unfold login_step. cbn [fst snd]. rewrite Hu, Hp, Hqu. unfold standing, login, alive in *.
  injection Hst as -> -> -> ->. by rewrite Ha.
Qed.

Lemma handle_command s n command params : quiet s -> net_ok s n -> alive s = true ->
  returns (handleCommand n command params) s (fun _ s' =>
    served s s' /\ login s' = login_step (login s) (command, params) /\ alive s' = negb (String.eqb command "QUIT")).
Proof.
  intros Hq Hn Ha. unfold handleCommand. ftp_step. ftp_step.
  destruct (String.eqb_spec command "USER") as [->|Hu].
  { rewrite andb_false_r. eapply returns_mono; [by apply handle_user|]. intros [] s' (Hsv & Hl & Hal).
    split; [done|]. split; [exact Hl|]. rewrite Hal. by apply andb_true_iff in Ha as [-> _]. }
  destruct (String.eqb_spec command "PASS") as [->|Hp].
  { rewrite andb_false_r. eapply returns_mono; [by apply handle_pass|]. intros [] s' (Hsv & Hl & Hal).
    split; [done|]. split; [exact Hl|]. by apply Hal. }
  destruct (String.eqb_spec command "QUIT") as [->|Hqu].
  { rewrite andb_false_r. eapply returns_mono; [by apply handle_quit|]. intros [] s' (Hsv & Hl & Hal).
    by split. }
  apply String.eqb_neq in Hu, Hp, Hqu.
  apply returns_mono with (fun _ s' => handled s s'); [|intros [] s' Hh; pose proof (handled_standing s s' command params Hh Ha Hu Hp Hqu) as Hs';
    rewrite Hqu in Hs'; exact Hs'].
  destruct (negb (authenticated_ s) && _); [unfold sendResponse; ftp|].
  repeat match goal with |- returns (if ?b then _ else _) _ _ => destruct b end.
  all: eauto using handle_pwd, handle_cwd, handle_mkd, handle_rmd, handle_dele, handle_rnfr, handle_rnto,
    handle_size, handle_mdtm, handle_type, handle_port, handle_pasv, handle_list, handle_nlst, handle_retr,
    handle_syst, handle_stat, handle_help, handle_noop, handle_feat.
  - unfold handleSTOR. ftp_step. ftp_step. by apply store_handled.
  - unfold handleAPPE. ftp_step. ftp_step. by apply store_handled.
  - unfold sendResponse. ftp.
Qed.

(** Before the login a command does not reach the files or the network. *)
Lemma command_before_login s n command params : quiet s -> authenticated_ s = false ->
  returns (handleCommand n command params) s (fun _ s' => files s' = files s /\ touched_ s' = touched_ s /\
    sent_ s' = sent_ s /\ sockets_ s' = sockets_ s).
Proof.
  intros Hq Ha. unfold handleCommand. ftp_step. ftp_step. rewrite Ha. cbn [negb andb].
  destruct (before_login command) eqn:Eb; cbn [negb]; [|unfold sendResponse; by repeat ftp_step].
  unfold before_login in Eb. rewrite !orb_true_iff, !String.eqb_eq in Eb.
  destruct Eb as [[[[->| ->]| ->]| ->]| ->]; cbn;
    unfold handleUSER, handlePASS, handleQUIT, handleSYST, handleFEAT, sendResponse; by repeat ftp_step.
Qed.
End commands.
