(* ===== verification/FtpProps.v ===== *)
(** * FtpProps: what an FTP session guarantees

    Whole sessions, over any input and any behaviour of the network; transfers; and the
    two commands that never work. *)

From Stdlib Require Import Ascii String.
From S2P Require Import Prelude Text FtpProtocol FtpDisk FtpSession FtpCommands.
Import ResponseCode.

Local Open Scope Z_scope.

(** The commands that a session carries out: up to the end of the input or [QUIT]. *)
Fixpoint executed (segments : list (string * Net)) : list (string * string) :=
  match segments with
  | [] => []
  | (line, _) :: rest =>
      if String.eqb line "" then [] else
      let c := parseCommand line in c :: if String.eqb c.1 "QUIT" then [] else executed rest
  end.

Section sessions.
Context {F : Type} `{Unix F}.
Implicit Types (s : Session F) (n : Net).

(** The network keeps its promises at every command. *)
Fixpoint nets_ok (segments : list (string * Net)) s : Prop :=
  match segments with
  | [] => True
  | (line, n) :: rest =>
      net_ok s n /\
      let '(command, params) := parseCommand line in
      forall s', handleCommand n command params s = Ok tt s' -> nets_ok rest s'
  end.

(** What commands do one after the other. *)
Record ran (cs : list (string * string)) s s' : Prop := mkRan {
  r_quiet : quiet s';
  r_control : controlSocket_ s' = controlSocket_ s;
  r_touched : exists l, touched_ s' = touched_ s ++ l /\ Forall confined l;
  r_replies : exists ls, replies_ s' = replies_ s ++ concat ls /\ Forall reply_ok ls /\ length ls = length cs;
  r_login : login s' = fold_left login_step cs (login s);
  r_before : authenticated_ s' = false -> files s' = files s /\ touched_ s' = touched_ s /\ sent_ s' = sent_ s /\
    sockets_ s' = sockets_ s }.

Lemma ran_nothing s : quiet s -> ran [] s s.
Proof.
  intros Hq. split; try done.
  - exists []. by rewrite app_nil_r.
  - exists []. by rewrite app_nil_r.
Qed.

(** A login is never lost. *)
Lemma login_step_kept l c : l.2 = true -> (login_step l c).2 = true.
Proof. intros Hl. unfold login_step. by repeat case_match. Qed.

Lemma login_kept cs l : l.2 = true -> (fold_left login_step cs l).2 = true.
Proof. revert l. induction cs as [|c cs IH]; intros l Hl; [done|]. by apply IH, login_step_kept. Qed.

Lemma ran_cons c cs s s1 s2 : served s s1 -> login s1 = login_step (login s) c ->
  (authenticated_ s = false -> files s1 = files s /\ touched_ s1 = touched_ s /\ sent_ s1 = sent_ s /\ sockets_ s1 = sockets_ s) ->
  ran cs s1 s2 -> ran (c :: cs) s s2.
Proof.
  intros [Hq Hc (l & Ht & Hl) (r & Hr & Hro)] Hlog Hbefore [Hq2 Hc2 (l2 & Ht2 & Hl2) (ls & Hr2 & Hls & Hlen) Hlog2 Hb2].
  split; [done|congruence| | |by rewrite Hlog2, Hlog|].
  - exists (l ++ l2). rewrite Ht2, Ht, app_assoc. split; [done|]. by apply Forall_app.
  - exists (r :: ls). rewrite Hr2, Hr. cbn. rewrite app_assoc. split; [done|]. split; [by constructor|]. cbn. by rewrite Hlen.
  - intros Ha. assert (Hs1 : authenticated_ s1 = false).
    { destruct (authenticated_ s1) eqn:E; [|done]. pose proof (login_kept cs (login s1) E) as Hk. rewrite <-Hlog2 in Hk.
      cbn in Hk. congruence. }
    assert (Hs0 : authenticated_ s = false).
    { destruct (authenticated_ s) eqn:E; [|done]. pose proof (login_step_kept (login s) c E) as Hk. rewrite <-Hlog in Hk.
      cbn in Hk. congruence. }
    destruct (Hbefore Hs0) as (? & ? & ? & ?). destruct (Hb2 Ha) as (? & ? & ? & ?). split_and!; congruence.
Qed.

Lemma command_loop_dead segments s : alive s = false -> command_loop segments s = Ok tt s.
Proof.
  intros Ha. assert (E : negb (running_ s) || bool_decide (state_ s = SessionState.DISCONNECTED) = true).
  { unfold alive in Ha. destruct (running_ s); [|done]. by apply negb_false_iff in Ha. }
  destruct segments as [|[line n] rest]; cbn [command_loop]; rewrite (bind_Ok get _ s s s eq_refl), E; done.
Qed.

Lemma command_loop_ran segments s : quiet s -> alive s = true -> nets_ok segments s ->
  returns (command_loop segments) s (fun _ s' => ran (executed segments) s s').
Proof.
  revert s. induction segments as [|[line n] rest IH]; intros s Hq Ha Hn; cbn [command_loop executed].
  - ftp_step. ftp_step. unfold alive in Ha. apply andb_true_iff in Ha as [-> Hd]. cbn.
    destruct (bool_decide _); [done|]. ftp_step. by apply ran_nothing.
  - ftp_step. ftp_step. pose proof Ha as Ha'. unfold alive in Ha'. apply andb_true_iff in Ha' as [-> Hd]. cbn.
    destruct (bool_decide _); [done|]. destruct (String.eqb line ""); [ftp_step; by apply ran_nothing|].
    cbn [nets_ok] in Hn. destruct (parseCommand line) as [command params] eqn:Ep. destruct Hn as [Hn Hrest].
    destruct (handle_command s n command params Hq Hn Ha) as ([] & s1 & E & Hsv & Hlog & Hal).
    ftp_step. eapply returns_Ok; [exact E|]. cbn [fst].
    assert (Hbefore : authenticated_ s = false -> files s1 = files s /\ touched_ s1 = touched_ s /\ sent_ s1 = sent_ s /\
      sockets_ s1 = sockets_ s).
    { intros Hna. destruct (command_before_login s n command params Hq Hna) as ([] & s1' & E' & Hb). congruence. }
    destruct (String.eqb command "QUIT").
    + eapply returns_Ok; [by apply command_loop_dead|].
      apply (ran_cons _ [] s s1 s1); [done..|]. by apply ran_nothing, Hsv.
    + eapply returns_mono; [apply IH; [apply Hsv|done|by apply Hrest]|]. intros [] s2 Hr. by eapply ran_cons.
Qed.

(** The session when it has greeted the client. *)
Definition begun (d : F) (control : Z) (addr : string) : Session F :=
  let s := Session_new d control addr in
  set_output [formatResponse 220 "Welcome to FTP Server"] "" (set_run true SessionState.CONNECTED s).

Lemma new_fields d control addr :
  let s := Session_new d control addr in
  currentDirectory_ s = "/"%string /\ renameFrom_ s = ""%string /\ controlSocket_ s = control /\ dataSocket_ s = -1 /\
  passiveListenSocket_ s = -1 /\ dataMode_ s = DataConnectionMode.NONE /\ sockets_ s = {[control]} /\
  Forall (eq rootDirectory_) (touched_ s) /\ replies_ s = [] /\ login s = (""%string, false) /\
  state_ s = SessionState.CONNECTED /\ sent_ s = ""%string.
Proof. unfold Session_new. cbv zeta. destruct (u_stat d rootDirectory_); split_and!; try done; by repeat constructor. Qed.

Lemma begun_quiet d control addr : 0 <= control -> quiet (begun d control addr).
Proof.
  intros Hc. destruct (new_fields d control addr) as (E1 & E2 & E3 & E4 & E5 & E6 & E7 & _). unfold begun.
  split; cbn; rewrite ?E1, ?E2, ?E3, ?E4, ?E5, ?E6, ?E7; try done; [by split; [exists ""%string|]|by left|by left|].
  symmetry. apply (right_id_L ∅ (∪)).
Qed.

Lemma start_ran d control addr segments : 0 <= control -> nets_ok segments (begun d control addr) ->
  exists s s', start segments (Session_new d control addr) = Ok tt s' /\ ran (executed segments) (begun d control addr) s /\
    s' = set_run (running_ s) SessionState.DISCONNECTED s.
Proof.
  intros Hc Hn. destruct (new_fields d control addr) as (_ & _ & _ & _ & _ & _ & _ & _ & Er & _ & Est & Esent).
  unfold start, sessionLoop. rewrite (bind_Ok (modify _) _ _ tt _ eq_refl).
  assert (Es : sendResponse SERVICE_READY "Welcome to FTP Server" (set_run true (state_ (Session_new d control addr))
    (Session_new d control addr)) = Ok tt (begun d control addr)).
  { unfold begun. rewrite Est. unfold sendResponse, send_control, modify. cbn [replies_ set_run sent_]. by rewrite Er, Esent. }
  rewrite (bind_Ok _ _ _ _ _ Es).
  destruct (command_loop_ran segments (begun d control addr)) as ([] & s & E & Hr); [by apply begun_quiet|done|done|].
  rewrite (bind_Ok _ _ _ _ _ E). exists s. eexists. by split.
Qed.

(** Deciding that the network keeps its promises, for an address fixed once and for all. *)
Definition net_check s n : bool :=
  match n_listen n with Some (fd, _) => (0 <=? fd) && negb (fd =? controlSocket_ s) | None => true end &&
  ((n_accept n =? -1) || (0 <=? n_accept n) && negb (bool_decide (n_accept n ∈ sockets_ s))) &&
  String.eqb (n_address n) "127.0.0.1".

Lemma net_check_ok s n : net_check s n = true -> net_ok s n.
Proof.
  unfold net_check. rewrite !andb_true_iff. intros [[Hl Ha] Had]. apply String.eqb_eq in Had. split.
  - intros fd port E. rewrite E in Hl. lia.
  - apply orb_true_iff in Ha as [Ha|Ha]; [left; lia|right]. apply andb_true_iff in Ha as [Ha Hs].
    apply negb_true_iff, bool_decide_eq_false in Hs. split; [lia|done].
  - exists 127, 0, 0, 1. unfold is_byte. split_and!; lia || done.
Qed.

Fixpoint nets_check (segments : list (string * Net)) s : bool :=
  match segments with
  | [] => true
  | (line, n) :: rest =>
      net_check s n &&
      let '(command, params) := parseCommand line in
      match handleCommand n command params s with Ok _ s' => nets_check rest s' | _ => true end
  end.

Lemma nets_check_ok segments s : nets_check segments s = true -> nets_ok segments s.
Proof.
  revert s. induction segments as [|[line n] rest IH]; intros s; [done|]. cbn [nets_check nets_ok]. rewrite andb_true_iff.
  intros [Hn Hrest]. split; [by apply net_check_ok|]. destruct (parseCommand line) as [command params]. intros s' E.
  rewrite E in Hrest. by apply IH.
Qed.

Lemma destroy_closes s r st : quiet s ->
  exists s', destroy (set_run r st s) = Ok tt s' /\ sockets_ s' = ∅ /\ files s' = files s /\ replies_ s' = replies_ s.
Proof.
  intros Hq. eexists. split; [reflexivity|]. split; [|cbn; by rewrite (proj2 (Z.leb_le 0 _) (q_control s Hq))].
  pose proof (quiet_sockets s Hq) as Ho. cbv zeta in Ho.
  rewrite (q_data s Hq) in Ho. cbn in Ho. cbn. rewrite (proj2 (Z.leb_le 0 _) (q_control s Hq)). cbn.
  rewrite (q_data s Hq). cbn. unfold close_fd in *. destruct (0 <=? passiveListenSocket_ s); set_solver.
Qed.


(** C20. The login. After a session the user is logged in exactly when a [PASS] came after a
    [USER] with a name, in whatever order other commands came; no later command takes the
    login back. A client that has not logged in has not reached anything: the files are
    those of the start, no path but the root directory has been used, nothing has been sent
    on a data connection, and the control connection is the only open socket. *)
Theorem ftp_login_required d control addr segments : 0 <= control -> nets_ok segments (begun d control addr) ->
  exists s, start segments (Session_new d control addr) = Ok tt s /\
    login s = fold_left login_step (executed segments) (""%string, false) /\
    (authenticated_ s = false -> files s = files (Session_new d control addr) /\
       Forall (eq rootDirectory_) (touched_ s) /\ sent_ s = ""%string /\ sockets_ s = {[control]}).
Proof.
  intros Hc Hn. destruct (start_ran d control addr segments Hc Hn) as (s & s' & E & Hr & ->).
  destruct (new_fields d control addr) as (_ & _ & _ & _ & _ & _ & Es & Ht0 & _ & El & _).
  eexists. split; [exact E|]. split; [rewrite <-El; exact (r_login _ _ _ Hr)|].
  intros Ha. destruct (r_before _ _ _ Hr Ha) as (Ef & Et & Esent & Esock). cbn in *.
  rewrite Ef, Et, Esent, Esock. by rewrite Es.
Qed.
End sessions.

(** ** On a concrete machine *)

Definition example_net (listen accept : Z) (recvs : list string) : Net :=
  mkNet (Some (listen, 2121)) "127.0.0.1" accept 8 true (repeat 3 20) recvs true.

Definition example_input : list (string * Net) :=
  let n := example_net 5 7 ["data"]%string in
  [("USER ann" +:+ crlf, n); ("LIST" +:+ crlf, n); ("PASS pw" +:+ crlf, n); ("MKD docs" +:+ crlf, n); ("CWD ../.." +:+ crlf, n);
   ("PASV" +:+ crlf, n); ("STOR a.txt" +:+ crlf, n)].

Lemma example_input_ok : nets_ok example_input (begun (∅ : disk) 4 "10.0.0.7").
Proof. apply nets_check_ok. vm_compute. reflexivity. Qed.


Lemma ftp_login_required_witness : exists s, start example_input (Session_new (∅ : disk) 4 "10.0.0.7") = Ok tt s /\
  login s = ("ann"%string, true).
Proof.
  destruct (ftp_login_required (∅ : disk) 4 "10.0.0.7" example_input ltac:(lia) example_input_ok) as (s & E & Hl & _).
  exists s. split; [exact E|]. exact (eq_trans Hl ltac:(vm_compute; reflexivity)).
Defined.
