(* ===== verification/FtpTransfer.v ===== *)
(** * FtpTransfer: files survive the transfer

    A file that is stored, in whatever pieces it arrives, is sent back byte for byte, in
    whatever pieces it leaves; and data connections to a port of the client never work. *)

From Stdlib Require Import Ascii String.
From S2P Require Import Prelude Text FtpProtocol FtpDisk FtpSession FtpCommands FtpProps.
Import ResponseCode.

Local Open Scope Z_scope.

(** [send] makes progress, and is asked often enough. *)
Definition sends_enough (sends : list Z) (data : string) : Prop :=
  Forall (fun r => 0 < r) sends /\ (String.length data <= length sends)%nat.

Section transfer.
Context {F : Type} `{Unix F}.
Implicit Types (s : Session F) (n : Net).

(** ** Receiving *)

Lemma write_loop_content W path recvs closed s x : keeps_files W path -> W (files s) -> u_read (files s) path = Some x ->
  regular (files s) path ->
  exists d l, write_loop path recvs closed s = Ok closed (moved d l "" s) /\ W d /\
    u_read d path = Some (x +:+ sconcat recvs) /\ regular d path.
Proof.
  intros Hk. revert s x. induction recvs as [|c recvs IH]; intros s x HW Hx Hr; cbn [write_loop sconcat foldr].
  - exists (files s), []. rewrite moved_none, sapp_nil_r. done.
  - destruct (k_write _ _ Hk _ c _ HW Hr Hx) as (Ew & HW' & Hr' & Hx').
    rewrite (bind_Ok _ _ _ _ _ (act_eq _ _ s)), Ew.
    destruct (IH (moved (u_write (files s) path c).2 [path] "" s) (x +:+ c)) as (d & l & E & HWd & Hd & Hrd); [done..|].
    exists d, (path :: l). rewrite E, moved_moved. split; [done|]. split; [done|]. split; [|done]. by rewrite Hd, sapp_assoc.
Qed.

(** What the file holds after it has been received. *)
Definition content_after (append : bool) (d : F) (path : string) (recvs : list string) : string :=
  (if append then default ""%string (u_read d path) else ""%string) +:+ sconcat recvs.

Lemma receiveFile_content W n path append s : keeps_files W path -> W (files s) ->
  exists d l, receiveFile n path append s = Ok (n_closed n) (moved d l "" s) /\ W d /\
    u_read d path = Some (content_after append (files s) path (n_recvs n)) /\ regular d path.
Proof.
  intros Hk HW. unfold receiveFile. rewrite (bind_Ok _ _ _ _ _ (act_eq _ _ s)).
  destruct (k_open _ _ Hk _ append HW) as (-> & HW' & Hr & Hx).
  destruct (write_loop_content W path (n_recvs n) (n_closed n) (moved (u_open (files s) path append).2 [path] "" s) _ Hk HW' Hx Hr)
    as (d & l & E & HWd & Hd & Hrd).
  exists d, (path :: l). rewrite E, moved_moved. done.
Qed.

(** ** Sending *)

Lemma send_loop_complete sends data s : sends_enough sends data ->
  exists rest, send_loop sends data s = Ok (true, rest) (moved (files s) [] data s) /\
    Forall (fun r => 0 < r) rest /\ (length sends <= length rest + String.length data)%nat.
Proof.
  revert data s. induction sends as [|r sends IH]; intros data s [Hpos Hlen]; cbn [send_loop];
    destruct (String.eqb_spec data "") as [->|Hne].
  - exists []. by rewrite moved_none.
  - destruct data; [done|]. cbn in Hlen. lia.
  - exists (r :: sends). rewrite moved_none. split; [done|]. split; [done|]. cbn. lia.
  - inversion Hpos; subst. destruct (Z.leb_spec r 0); [lia|]. rewrite (bind_Ok (modify _) _ s tt _ eq_refl).
    set (part := substring 0 (Z.to_nat r) data). set (rest := substring (Z.to_nat r) (String.length data) data).
    replace (set_output _ _ s) with (moved (files s) [] part s) by (unfold moved, set_output; by rewrite app_nil_r).
    pose proof (length_substring (Z.to_nat r) (String.length data) data) as Hl. fold rest in Hl.
    assert (String.length data <> 0)%nat by (by destruct data).
    destruct (IH rest (moved (files s) [] part s)) as (rest' & E & Hp' & Hl'); [split; [done|cbn in *; lia]|].
    exists rest'. rewrite E, moved_moved. replace (part +:+ rest) with data by (symmetry; apply substring_split; lia). split; [done|].
    split; [done|]. cbn in *. lia.
Qed.

Lemma send_blocks_complete fuel sends data s : (String.length data < fuel)%nat -> sends_enough sends data ->
  send_blocks fuel sends data s = Ok true (moved (files s) [] data s).
Proof.
  revert sends data s. induction fuel as [|fuel IH]; intros sends data s Hf [Hpos Hlen]; [lia|]. cbn [send_blocks].
  destruct (String.eqb_spec data "") as [->|Hne]; [by rewrite moved_none|].
  set (part := substring 0 BUFFER_SIZE data). set (rest := substring BUFFER_SIZE (String.length data) data).
  assert (Hsplit : part +:+ rest = data) by (apply substring_split; lia).
  assert (Hlens : (String.length part + String.length rest = String.length data)%nat) by (by rewrite <-Hsplit, slength_app).
  destruct (send_loop_complete sends part s) as (rest' & E & Hp' & Hl'); [split; [done|lia]|].
  rewrite (bind_Ok _ _ _ _ _ E). cbn [fst snd].
  assert (0 < String.length part)%nat.
  { unfold part. destruct data; [done|]. unfold BUFFER_SIZE. cbn. lia. }
  rewrite IH; [rewrite moved_moved, Hsplit; done|lia|split; [done|lia]].
Qed.

(** ** Transfers over a passive connection *)

Definition waiting s n : Prop :=
  dataMode_ s = DataConnectionMode.PASSIVE /\ 0 <= passiveListenSocket_ s /\ 0 <= n_accept n.

Lemma transfer_complete s n announce complete (body : cpp (Session F) bool) (P : F -> Prop) t : waiting s n ->
  (forall s1, files s1 = files s -> exists d l, body s1 = Ok true (moved d l t s1) /\ P d) ->
  returns (transfer n announce complete body) s (fun _ s' =>
    P (files s') /\ sent_ s' = sent_ s +:+ t /\ standing s' = standing s /\ currentDirectory_ s' = currentDirectory_ s /\
    replies_ s' = replies_ s ++ [formatResponse 150 announce; formatResponse 226 complete]).
Proof.
  intros (Hm & Hlis & Hacc) Hbody. unfold transfer, sendResponse. ftp_step. ftp_step. set (s1 := set_output _ _ s).
  unfold openDataConnection. apply returns_bind. apply returns_bind. apply returns_get. change (dataMode_ s1) with (dataMode_ s).
  rewrite Hm. cbv zeta. change (passiveListenSocket_ s1) with (passiveListenSocket_ s).
  destruct (Z.ltb_spec (passiveListenSocket_ s) 0); [lia|]. rewrite (proj2 (Z.leb_le 0 _) Hacc).
  apply returns_bind. apply returns_modify. apply returns_ret. cbn [negb]. apply returns_bind.
  match goal with |- returns body ?s2 _ => destruct (Hbody s2) as (d & l & E & HP); [done|] end.
  eapply returns_Ok; [exact E|]. apply returns_bind. apply returns_control. apply returns_modify. cbn.
  split_and!; try done. by rewrite <-app_assoc.
Qed.

(** The text of the reply to [PASV]. *)
Definition pasv_reply (a b c d port : Z) : string :=
  "227 Entering Passive Mode (" +:+ to_string a +:+ "," +:+ to_string b +:+ "," +:+ to_string c +:+ "," +:+
    to_string d +:+ "," +:+ to_string (Z.quot port 256) +:+ "," +:+ to_string (Z.rem port 256) +:+ ")." +:+ crlf.

Lemma pasv_waits s n fd port : quiet s -> net_ok s n -> n_listen n = Some (fd, port) ->
  exists s', handlePASV n s = Ok tt s' /\ quiet s' /\ dataMode_ s' = DataConnectionMode.PASSIVE /\
    0 <= passiveListenSocket_ s' /\ files s' = files s /\ standing s' = standing s /\ currentDirectory_ s' = currentDirectory_ s /\
    sent_ s' = sent_ s /\ exists a b c d, is_byte a /\ is_byte b /\ is_byte c /\ is_byte d /\ n_address n = dotted a b c d /\
      replies_ s' = replies_ s ++ [pasv_reply a b c d port].
Proof.
  intros Hq Hn El. destruct (handle_pasv s n Hq Hn) as ([] & s' & E & [Hsv _]). exists s'. split; [done|].
  split; [apply Hsv|]. revert E. unfold handlePASV. rewrite (bind_Ok _ _ _ _ _ (create_listener_eq s n Hq)), El.
  destruct (n_listen_ok _ _ Hn _ _ El) as [Hfd _].
  destruct (n_address_ok _ _ Hn) as (a & b & c & d & Ha & Hb & Hc & Hd & E). rewrite E. cbn [fst snd].
  rewrite (bind_Ok (modify _) _ _ tt _ eq_refl), (bind_Ok _ _ _ _ _ (pasv_text a b c d port _ Ha Hb Hc Hd)).
  intros [= <-]. split_and!; try done. by exists a, b, c, d.
Qed.

Lemma dispatch_pasv s n : authenticated_ s = true -> handleCommand n "PASV" "" s = handlePASV n s.
Proof. intros Ha. unfold handleCommand. by rewrite (bind_Ok get _ s s s eq_refl), Ha. Qed.
Lemma dispatch_retr s n name : authenticated_ s = true -> handleCommand n "RETR" name s = handleRETR n name s.
Proof. intros Ha. unfold handleCommand. by rewrite (bind_Ok get _ s s s eq_refl), Ha. Qed.

Lemma retrieve_complete s n name data : waiting s n -> isPathValid (getAbsolutePath s name) = true ->
  regular (files s) (getAbsolutePath s name) -> u_read (files s) (getAbsolutePath s name) = Some data ->
  sends_enough (n_sends n) data ->
  exists s', handleRETR n name s = Ok tt s' /\ sent_ s' = sent_ s +:+ data /\
    exists a, replies_ s' = replies_ s ++ [formatResponse 150 a; formatResponse 226 "Transfer complete"].
Proof.
  intros Hw Hv (st & Est & Hreg) Hread Hsends. set (path := getAbsolutePath s name) in *.
  unfold handleRETR. rewrite (bind_Ok get _ s s s eq_refl). cbv zeta. fold path.
  assert (Ev : valid_file path s = Ok true (moved (files s) [path; path] "" s)).
  { unfold valid_file, exists_valid, isDirectory, isFileExists. rewrite Hv. cbn [negb].
    unfold mbind, cpp_bind, mret, cpp_ret. rewrite query_eq, Est. rewrite bool_decide_true by (by eexists).
    rewrite query_eq, moved_moved. cbn [files moved]. by rewrite Est, Hreg. }
  rewrite (bind_Ok _ _ _ _ _ Ev). cbn [negb]. rewrite (bind_Ok _ _ _ _ _ (query_eq _ _ _)), moved_moved. cbn [files moved app].
  rewrite Est. set (s1 := moved _ _ _ s).
  match goal with |- exists s', transfer n ?a ?c ?b ?s0 = _ /\ _ =>
    destruct (transfer_complete s0 n a c b (fun _ => True) data Hw) as ([] & s' & E & _ & Hsent & _ & _ & Hrep) end.
  - intros s0 Ef. exists (files s0), [path]. split; [|done]. unfold sendFile. rewrite (bind_Ok _ _ _ _ _ (query_eq _ _ _)).
    change (files s1) with (files s) in Ef. rewrite Ef, Hread. rewrite send_blocks_complete by (done || lia).
    rewrite moved_moved. cbn [files moved app]. done.
  - exists s'. split; [exact E|]. split; [|by eexists]. rewrite Hsent. cbn. by rewrite sapp_nil_r.
Qed.

Lemma store_complete (W : F -> Prop) s n name (append : bool) : quiet s -> net_ok s n -> waiting s n -> authenticated_ s = true ->
  n_closed n = true -> let path := getAbsolutePath s name in isPathValid path = true -> keeps_files W path -> W (files s) ->
  exists s1, handleCommand n (if append then "APPE" else "STOR") name s = Ok tt s1 /\ quiet s1 /\
    standing s1 = standing s /\ currentDirectory_ s1 = currentDirectory_ s /\ sent_ s1 = sent_ s /\
    u_read (files s1) path = Some (content_after append (files s) path (n_recvs n)) /\ regular (files s1) path /\
    exists a, replies_ s1 = replies_ s ++ [formatResponse 150 a; formatResponse 226 "Transfer complete"].
Proof.
  intros Hq Hn Hw Ha Hclosed path Hv Hk HW.
  assert (Hst : exists a, handleCommand n (if append then "APPE" else "STOR") name s =
    transfer n a "Transfer complete" (receiveFile n path append) s).
  { unfold handleCommand. rewrite (bind_Ok get _ s s s eq_refl), Ha. cbn [negb andb].
    destruct append; eexists; cbn [String.eqb Ascii.eqb Bool.eqb]; [unfold handleAPPE|unfold handleSTOR];
      rewrite (bind_Ok get _ s s s eq_refl); cbv zeta; fold path; rewrite Hv; reflexivity. }
  destruct Hst as (a & Est).
  destruct (transfer_complete s n a "Transfer complete" (receiveFile n path append)
    (fun d => u_read d path = Some (content_after append (files s) path (n_recvs n)) /\ regular d path) "" Hw)
    as ([] & s1 & E & (Hread & Hreg) & Hsent & Hstand & Hdir & Hrep).
  { intros s1 Ef. destruct (receiveFile_content W n path append s1 Hk) as (d & l & E & _ & Hd); [by rewrite Ef|].
    rewrite Hclosed, Ef in *. by exists d, l. }
  destruct (transfer_handled s n a "Transfer complete" (receiveFile n path append) Hq Hn) as ([] & s1' & E' & [Hsv _]).
  { intros s0. apply receiveFile_moves, absolute_confined; [apply (q_dir _ Hq)|done]. }
  assert (s1' = s1) as -> by congruence. rewrite sapp_nil_r in Hsent.
  exists s1. split; [by rewrite Est|]. split; [apply Hsv|]. split_and!; try done. by exists a.
Qed.

(** Files survive. A file that is stored over a passive connection holds exactly the
    bytes that arrived, however they were cut into pieces ([APPE]: after those it held
    before); the client is told that the transfer is complete; and after [PASV] a [RETR] of
    the same name sends exactly these bytes back, however the network takes them. *)
Theorem ftp_store_retrieve (W : F -> Prop) s n name append : quiet s -> net_ok s n -> waiting s n -> authenticated_ s = true ->
  n_closed n = true -> let path := getAbsolutePath s name in isPathValid path = true ->
  keeps_files W path -> W (files s) ->
  let data := content_after append (files s) path (n_recvs n) in
  exists s1, handleCommand n (if append then "APPE" else "STOR") name s = Ok tt s1 /\
    (exists a, replies_ s1 = replies_ s ++ [formatResponse 150 a; formatResponse 226 "Transfer complete"]) /\
    u_read (files s1) path = Some data /\
    forall n2 n3 fd port, n_listen n2 = Some (fd, port) -> net_ok s1 n2 ->
      exists s2, handleCommand n2 "PASV" "" s1 = Ok tt s2 /\
        (net_ok s2 n3 -> 0 <= n_accept n3 -> sends_enough (n_sends n3) data ->
         exists s3, handleCommand n3 "RETR" name s2 = Ok tt s3 /\ sent_ s3 = sent_ s2 +:+ data /\
           exists a, replies_ s3 = replies_ s2 ++ [formatResponse 150 a; formatResponse 226 "Transfer complete"]).
Proof.
  intros Hq Hn Hw Ha Hclosed path Hv Hk HW data.
  destruct (store_complete W s n name append Hq Hn Hw Ha Hclosed Hv Hk HW)
    as (s1 & E1 & Hq1 & Hstand & Hdir & _ & Hread & Hreg & Hrep). fold path in Hread, Hreg. fold data in Hread.
  exists s1. split; [done|]. split; [done|]. split; [done|]. intros n2 n3 fd port El Hn2.
  injection Hstand as _ Ea _ _. rewrite Ha in Ea.
  destruct (pasv_waits s1 n2 fd port Hq1 Hn2 El) as (s2 & E2 & Hq2 & Hm2 & Hlis2 & Hf2 & Hst2 & Hdir2 & _).
  exists s2. split; [by rewrite (dispatch_pasv s1 n2 Ea)|]. intros Hn3 Hacc Hsends.
  injection Hst2 as _ Ea2 _ _. rewrite Ea in Ea2.
  assert (Hpath : getAbsolutePath s2 name = path) by (unfold path, getAbsolutePath; by rewrite Hdir2, Hdir).
  destruct (retrieve_complete s2 n3 name data) as (s3 & E3 & Hs3); rewrite ?Hpath, ?Hf2; try done.
  exists s3. rewrite (dispatch_retr s2 n3 name Ea2). by split.
Qed.

(** ** What never works *)

Lemma transfer_refused s n announce complete body : dataMode_ s = DataConnectionMode.NONE ->
  transfer n announce complete body s = Ok tt (set_output
    (replies_ s ++ [formatResponse 150 announce; formatResponse 425 "Cannot open data connection"]) (sent_ s) s).
Proof.
  intros Hm. unfold transfer, sendResponse, send_control. rewrite (bind_Ok (modify _) _ _ tt _ eq_refl).
  set (s1 := set_output _ _ s).
  assert (Eo : openDataConnection n s1 = Ok false s1).
  { unfold openDataConnection. rewrite (bind_Ok get _ s1 s1 s1 eq_refl). change (dataMode_ s1) with (dataMode_ s). by rewrite Hm. }
  rewrite (bind_Ok _ _ _ _ _ Eo). cbn [negb]. unfold s1, modify, set_output. cbn. by rewrite <-app_assoc.
Qed.

(** No transfer: refused at once, or after 150 for want of a data connection. *)
Definition no_transfer s s' : Prop :=
  files s' = files s /\ sent_ s' = sent_ s /\
  ((exists t, replies_ s' = replies_ s ++ [formatResponse 550 t]) \/
   exists a, replies_ s' = replies_ s ++ [formatResponse 150 a; formatResponse 425 "Cannot open data connection"]).

Lemma transfer_none s d l n announce complete body : dataMode_ s = DataConnectionMode.NONE -> d = files s ->
  returns (transfer n announce complete body) (moved d l "" s) (fun _ s' => no_transfer s s').
Proof.
  intros Hm ->. eapply returns_Ok; [by apply transfer_refused|]. split; [done|]. split; [apply sapp_nil_r|].
  right. by eexists.
Qed.

Lemma refuse_none s d l t : d = files s -> returns (sendResponse 550 t) (moved d l "" s) (fun _ s' => no_transfer s s').
Proof. intros ->. unfold sendResponse. ftp_step. split; [done|]. split; [apply sapp_nil_r|]. left. by eexists. Qed.

Lemma no_transfer_here s n announce complete body : dataMode_ s = DataConnectionMode.NONE ->
  returns (transfer n announce complete body) s (fun _ s' => no_transfer s s').
Proof. intros Hm. rewrite <-(moved_none s) at 1. by apply transfer_none. Qed.
Lemma refuse_here s t : returns (sendResponse 550 t) s (fun _ s' => no_transfer s s').
Proof. rewrite <-(moved_none s) at 1. by apply refuse_none. Qed.

Definition is_transfer (command : string) : Prop :=
  command ∈ ["LIST"; "NLST"; "RETR"; "STOR"; "APPE"]%string.

Lemma transfers_refused s n command params : quiet s -> authenticated_ s = true -> dataMode_ s = DataConnectionMode.NONE ->
  is_transfer command -> returns (handleCommand n command params) s (fun _ s' => no_transfer s s').
Proof.
  intros Hq Ha Hm Hc. unfold handleCommand. ftp_step. ftp_step. rewrite Ha. cbn [negb andb].
  unfold is_transfer in Hc. rewrite !elem_of_cons, elem_of_nil in Hc.
  destruct Hc as [->|[->|[->|[->|[->|[]]]]]]; cbn [String.eqb Ascii.eqb Bool.eqb].
  - unfold handleLIST. ftp_step. ftp_step. apply returns_bind. eapply returns_mono; [by apply valid_directory_checks|].
    intros ok s' (l & -> & _). destruct ok; [by apply transfer_none|by apply refuse_none].
  - unfold handleNLST. ftp_step. ftp_step. apply returns_bind. eapply returns_mono; [by apply valid_directory_checks|].
    intros ok s' (l & -> & _). destruct ok; [by apply transfer_none|by apply refuse_none].
  - unfold handleRETR. ftp_step. ftp_step. cbv zeta. apply returns_bind. eapply returns_mono; [by apply valid_file_stat|].
    intros ok s' (l & -> & _ & Hp). destruct ok; cbn [negb]; [|by apply refuse_none]. destruct (Hp eq_refl) as [_ [st Est]].
    ftp_step. ftp_step. change (files (moved (files s) l "" s)) with (files s). rewrite Est, moved_moved. by apply transfer_none.
  - unfold handleSTOR. ftp_step. ftp_step. destruct (negb _); [apply refuse_here|by apply no_transfer_here].
  - unfold handleAPPE. ftp_step. ftp_step. destruct (negb _); [apply refuse_here|by apply no_transfer_here].
Qed.

(** Active mode never works. A well-formed [PORT] is answered with success, but it also
    forgets that a connection was asked for; every transfer that follows, whatever the
    network would have allowed, is refused, and no file is sent or written. *)
Theorem active_mode_never_works s n params host port : quiet s -> authenticated_ s = true ->
  parsePortCommand params = Some (host, port) ->
  exists s1, handleCommand n "PORT" params s = Ok tt s1 /\
    replies_ s1 = replies_ s ++ [formatResponse 200 "PORT command successful"] /\
    activeHost_ s1 = host /\ activePort_ s1 = port /\
    forall n2 command p, is_transfer command ->
      returns (handleCommand n2 command p) s1 (fun _ s2 => no_transfer s1 s2).
Proof.
  intros Hq Ha Hp. assert (E : handleCommand n "PORT" params s = handlePORT params s).
  { unfold handleCommand. by rewrite (bind_Ok get _ s s s eq_refl), Ha. }
  rewrite E. destruct (handle_port s params Hq) as ([] & s1 & E1 & [Hsv Hst]). exists s1. split; [done|].
  assert (Hs1 : replies_ s1 = replies_ s ++ [formatResponse 200 "PORT command successful"] /\ activeHost_ s1 = host /\
    activePort_ s1 = port /\ dataMode_ s1 = DataConnectionMode.NONE).
  { revert E1. unfold handlePORT. rewrite Hp. by intros [= <-]. }
  destruct Hs1 as (Hr & Hh & Hpo & Hm). split_and!; [done..|]. intros n2 command p Hc.
  apply transfers_refused; [apply Hsv|by injection Hst as _ -> _ _|done|done].
Qed.

(** [CDUP] always fails: the check for [..] refuses the path it makes. *)
Theorem cdup_never_works s n params : authenticated_ s = true ->
  handleCommand n "CDUP" params s =
    Ok tt (set_output (replies_ s ++ [formatResponse 550 "Failed to change directory"]) (sent_ s) s).
Proof.
  intros Ha. assert (E : handleCommand n "CDUP" params s = handleCWD ".." s).
  { unfold handleCommand. by rewrite (bind_Ok get _ s s s eq_refl), Ha. }
  rewrite E. unfold handleCWD.
  assert (Hv : isPathValid (getAbsolutePath s "..") = false).
  { unfold isPathValid. assert (Hc : contains ".." (getAbsolutePath s "..") = true); [|by rewrite Hc].
    cbn [getAbsolutePath]. change (char_eqb "." "/") with false. cbv iota zeta.
    destruct (contains ".." _) eqn:Ec; [done|]. rewrite <-sapp_assoc in Ec. by apply contains_app_r in Ec. }
  assert (Hc : setCurrentDirectory ".." s = Ok false s).
  { unfold setCurrentDirectory. rewrite (bind_Ok get _ s s s eq_refl). cbv zeta. by rewrite Hv. }
  by rewrite (bind_Ok _ _ _ _ _ Hc).
Qed.
End transfer.

(** ** On a concrete machine *)

(** A user who has logged in and sent [PASV]. *)
Definition example_session : Session disk :=
  set_data (-1) 5 DataConnectionMode.PASSIVE {[4; 5]}
    (set_login SessionState.AUTHENTICATED "ann" "pw" true (Session_new {["/tmp/ftp"%string := Directory]} 4 "10.0.0.7")).

Lemma example_quiet : quiet example_session.
Proof. split; cbn; try done; [split; [by eexists|done]|by left|by right]. Qed.

(** Whether the network keeps its promises after a computation. *)
Definition net_after (r : result (Session disk) unit) (n : Net) : bool :=
  match r with Ok _ s => net_check s n | _ => false end.

Lemma ftp_store_retrieve_witness : exists s1 s2 s3,
  handleCommand (example_net 6 7 ["hello "; "world"]%string) "STOR" "a.txt" example_session = Ok tt s1 /\
  u_read (files s1) "/tmp/ftp/a.txt" = Some "hello world"%string /\
  handleCommand (example_net 5 7 []) "PASV" "" s1 = Ok tt s2 /\
  handleCommand (example_net 9 7 []) "RETR" "a.txt" s2 = Ok tt s3 /\ sent_ s3 = sent_ s2 +:+ "hello world".
Proof.
  assert (H1 : net_after (handleCommand (example_net 6 7 ["hello "; "world"]%string) "STOR" "a.txt" example_session)
    (example_net 5 7 []) = true) by (vm_compute; reflexivity).
  assert (H2 : net_after ((handleCommand (example_net 6 7 ["hello "; "world"]%string) "STOR" "a.txt" ;;
    handleCommand (example_net 5 7 []) "PASV" "") example_session) (example_net 9 7 []) = true) by (vm_compute; reflexivity).
  destruct (ftp_store_retrieve (fun d => d !! "/tmp/ftp/a.txt"%string <> Some Directory) example_session
    (example_net 6 7 ["hello "; "world"]%string) "a.txt" false) as (s1 & E1 & _ & Hr & Hnext).
  - exact example_quiet.
  - apply net_check_ok. vm_compute. reflexivity.
  - done.
  - done.
  - done.
  - vm_compute. reflexivity.
  - exact (disk_keeps "/tmp/ftp/a.txt").
  - vm_compute. discriminate.
  - pose proof (net_check_ok s1 _ (eq_trans (f_equal (fun r => net_after r (example_net 5 7 [])) (eq_sym E1)) H1)) as Hn1.
    destruct (Hnext (example_net 5 7 []) (example_net 9 7 []) 5 2121 eq_refl Hn1) as (s2 & E2 & Hlast).
    pose proof (eq_trans (bind_Ok _ (fun _ => handleCommand (example_net 5 7 []) "PASV" "") _ _ _ E1) E2) as E12.
    destruct Hlast as (s3 & E3 & Hs & _).
    + exact (net_check_ok s2 _ (eq_trans (f_equal (fun r => net_after r (example_net 9 7 [])) (eq_sym E12)) H2)).
    + discriminate.
    + split; [vm_compute; repeat constructor|vm_compute; lia].
    + exists s1, s2, s3. split; [exact E1|]. split; [exact Hr|]. split; [exact E2|]. split; [exact E3|exact Hs].
Defined.

Lemma active_mode_never_works_witness : exists s1,
  handleCommand (example_net 5 7 []) "PORT" "10,0,0,7,8,73" example_session = Ok tt s1 /\ activePort_ s1 = 2121 /\
  returns (handleCommand (example_net 5 7 ["data"%string]) "STOR" "a.txt") s1 (fun _ s2 => no_transfer s1 s2).
Proof.
  destruct (active_mode_never_works example_session (example_net 5 7 []) "10,0,0,7,8,73" "10.0.0.7" 2121 example_quiet eq_refl eq_refl)
    as (s1 & E & _ & _ & Hp & Hnext).
  exists s1. split; [exact E|]. split; [exact Hp|]. apply Hnext. unfold is_transfer. rewrite !elem_of_cons. tauto.
Defined.
