(* ===== verification/FtpClient.v ===== *)
(** * FtpClient: the FTP client

    Models src/zsxq-cpp-ai/StdFtp/client/ftp_client.cpp: the class [FTPClient], one
    definition per method, and the loop of [main] over the lines that are typed in. What
    [recv] will return on the control connection is part of the state, call by call; the
    results of the other socket calls of a method are an argument of type [Wire]. Of the
    console only the dialogue of verbose mode, listings and raw replies are kept, not the
    messages for the user. The listening socket is never opened and is left out. *)

From Stdlib Require Import Ascii String.
From S2P Require Import Prelude Text FtpProtocol.
Import ResponseCode.

Local Open Scope Z_scope.

Module FTPClient.
(** Results of the socket calls of one method. *)
Record Wire : Set := mkWire {
  w_resolve : bool;               (* gethostbyname *)
  w_socket : Z;                   (* socket for the control connection *)
  w_connect : bool;               (* connect of the control connection *)
  w_took : string -> bool;        (* send on it takes the whole command *)
  w_data : Z;                     (* socket for the data connection *)
  w_dial : bool;                  (* connect of the data connection *)
  w_sends : list Z;               (* send on it, call by call; then errors *)
  w_recvs : list string }.        (* recv on it until it is closed *)

Record Client (F : Type) : Type := mkClient {
  local : F;                      (* files of the client's machine *)
  controlSocket_ : Z;
  dataSocket_ : Z;
  connected_ : bool;
  loggedIn_ : bool;
  serverHost_ : string;
  serverPort_ : Z;
  username_ : string;
  currentDirectory_ : string;
  transferType_ : TransferType.TransferType;
  verbose_ : bool;
  incoming_ : list string;        (* recv on the control connection will return *)
  outgoing_ : list string;        (* handed to send on it *)
  dialled_ : list (string * Z);   (* addresses of data connections *)
  uploaded_ : string;             (* taken by send on data connections *)
  console_ : list string }.
Arguments mkClient {F}. Arguments local {F}. Arguments controlSocket_ {F}. Arguments dataSocket_ {F}.
Arguments connected_ {F}. Arguments loggedIn_ {F}. Arguments serverHost_ {F}. Arguments serverPort_ {F}.
Arguments username_ {F}. Arguments currentDirectory_ {F}. Arguments transferType_ {F}. Arguments verbose_ {F}.
Arguments incoming_ {F}. Arguments outgoing_ {F}. Arguments dialled_ {F}. Arguments uploaded_ {F}. Arguments console_ {F}.

Section setters.
Context {F : Type}.
Implicit Types c : Client F.

Definition set_local (d : F) c : Client F :=
  mkClient d (controlSocket_ c) (dataSocket_ c) (connected_ c) (loggedIn_ c) (serverHost_ c) (serverPort_ c) (username_ c)
    (currentDirectory_ c) (transferType_ c) (verbose_ c) (incoming_ c) (outgoing_ c) (dialled_ c) (uploaded_ c) (console_ c).
Definition set_control (sock : Z) (connected : bool) (host : string) (port : Z) c : Client F :=
  mkClient (local c) sock (dataSocket_ c) connected (loggedIn_ c) host port (username_ c)
    (currentDirectory_ c) (transferType_ c) (verbose_ c) (incoming_ c) (outgoing_ c) (dialled_ c) (uploaded_ c) (console_ c).
Definition set_data (sock : Z) (dialled : list (string * Z)) c : Client F :=
  mkClient (local c) (controlSocket_ c) sock (connected_ c) (loggedIn_ c) (serverHost_ c) (serverPort_ c) (username_ c)
    (currentDirectory_ c) (transferType_ c) (verbose_ c) (incoming_ c) (outgoing_ c) dialled (uploaded_ c) (console_ c).
Definition set_user (loggedIn : bool) (user : string) c : Client F :=
  mkClient (local c) (controlSocket_ c) (dataSocket_ c) (connected_ c) loggedIn (serverHost_ c) (serverPort_ c) user
    (currentDirectory_ c) (transferType_ c) (verbose_ c) (incoming_ c) (outgoing_ c) (dialled_ c) (uploaded_ c) (console_ c).
Definition set_directory (dir : string) c : Client F :=
  mkClient (local c) (controlSocket_ c) (dataSocket_ c) (connected_ c) (loggedIn_ c) (serverHost_ c) (serverPort_ c) (username_ c)
    dir (transferType_ c) (verbose_ c) (incoming_ c) (outgoing_ c) (dialled_ c) (uploaded_ c) (console_ c).
Definition set_mode (t : TransferType.TransferType) (verbose : bool) c : Client F :=
  mkClient (local c) (controlSocket_ c) (dataSocket_ c) (connected_ c) (loggedIn_ c) (serverHost_ c) (serverPort_ c) (username_ c)
    (currentDirectory_ c) t verbose (incoming_ c) (outgoing_ c) (dialled_ c) (uploaded_ c) (console_ c).
Definition set_io (incoming outgoing : list string) (uploaded : string) (console : list string) c : Client F :=
  mkClient (local c) (controlSocket_ c) (dataSocket_ c) (connected_ c) (loggedIn_ c) (serverHost_ c) (serverPort_ c) (username_ c)
    (currentDirectory_ c) (transferType_ c) (verbose_ c) incoming outgoing (dialled_ c) uploaded console.
End setters.

(** [find] and [rfind] of a character. *)
Fixpoint find_char (x : ascii) (s : string) : option nat :=
  match s with
  | EmptyString => None
  | String c s' => if char_eqb c x then Some O else S <$> find_char x s'
  end.
Fixpoint rfind_char (x : ascii) (s : string) : option nat :=
  match s with
  | EmptyString => None
  | String c s' =>
      match rfind_char x s' with Some i => Some (S i) | None => if char_eqb c x then Some O else None end
  end.

(** Receiving until the line that ends a reply of several lines. *)
Fixpoint until_marker (incoming : list string) (marker response : string) : string * list string :=
  if contains marker response then (response, incoming) else
  match incoming with
  | [] => (response, [])
  | r :: rest => if String.eqb r "" then (response, rest) else until_marker rest marker (response +:+ r)
  end.

Definition parseResponse (response : string) : Z :=
  if (String.length response <? 3)%nat then -1 else
  match stoi (substring 0 3 response) with inr code => code | inl _ => -1 end.

(** The name of a local file without its directory. *)
Definition base_name (path : string) : string :=
  match rfind_char "/" path, rfind_char "\" path with
  | Some i, Some j => substring (S (Nat.max i j)) (String.length path) path
  | Some i, None | None, Some i => substring (S i) (String.length path) path
  | None, None => path
  end.

(** [send] until all of a block has been taken: success, what is left of the results and
    what has been taken. *)
Fixpoint send_block (sends : list Z) (data : string) : bool * list Z * string :=
  if String.eqb data "" then (true, sends, ""%string) else
  match sends with
  | [] => (false, [], ""%string)
  | r :: rest =>
      if r <=? 0 then (false, rest, ""%string) else
      let '(ok, rest', t) := send_block rest (substring (Z.to_nat r) (String.length data) data) in
      (ok, rest', substring 0 (Z.to_nat r) data +:+ t)
  end.

Section client.
Context {F : Type} `{Unix F}.
Abbreviation M := (cpp (Client F)).

(** The constructor, on a machine with the given files. *)
Definition FTPClient_new (d : F) : Client F :=
  mkClient d (-1) (-1) false false "" 0 "" "" TransferType.ASCII true [] [] [] "" [].

Definition print (text : string) : M unit :=
  modify (fun c => set_io (incoming_ c) (outgoing_ c) (uploaded_ c) (console_ c ++ [text]) c).

(** ** Control connection *)

Definition checkConnection : M bool := gets (fun c => connected_ c && loggedIn_ c).

Definition sendCommand (w : Wire) (command : string) : M bool :=
  c ← get;
  if controlSocket_ c <? 0 then mret false else
  let cmd := command +:+ crlf in
  (if verbose_ c then
     print (if String.eqb (substring 0 5 command) "PASS " then ">>> PASS ****" else ">>> " +:+ command)
   else mret tt) ;;
  modify (fun c => set_io (incoming_ c) (outgoing_ c ++ [cmd]) (uploaded_ c) (console_ c) c) ;;
  mret (w_took w cmd).

Definition recv_control : M string :=
  c ← get;
  if controlSocket_ c <? 0 then mret ""%string else
  match incoming_ c with
  | [] => mret ""%string
  | r :: rest => modify (fun c => set_io rest (outgoing_ c) (uploaded_ c) (console_ c) c) ;; mret r
  end.

Definition receiveResponse : M string :=
  received ← recv_control;
  if String.eqb received "" then mret ""%string else
  response ←
    match String.get 3 received with
    | Some "-"%char =>
        c ← get;
        let '(response, rest) := until_marker (incoming_ c) (crlf +:+ substring 0 3 received +:+ " ") received in
        modify (fun c => set_io rest (outgoing_ c) (uploaded_ c) (console_ c) c) ;; mret response
    | _ => mret received
    end;
  c ← get;
  (if verbose_ c then print ("<<< " +:+ response) else mret tt) ;;
  mret response.

(** A command and the code of its reply. *)
Definition command_code (w : Wire) (command : string) : M Z :=
  sendCommand w command ;; response ← receiveResponse; mret (parseResponse response).

(** ** Data connection *)

Definition closeDataConnection : M unit :=
  modify (fun c => if 0 <=? dataSocket_ c then set_data (-1) (dialled_ c) c else c).

(** Host and port of a reply to [PASV]; [end - start - 1] is unsigned. *)
Definition pasv_params (response : string) : option string :=
  match find_char "(" response, find_char ")" response with
  | Some start, Some stop =>
      Some (substring (S start) (if (start <? stop)%nat then (stop - start - 1)%nat else String.length response) response)
  | _, _ => None
  end.

Definition enterPassiveMode (w : Wire) : M bool :=
  sendCommand w "PASV" ;;
  response ← receiveResponse;
  if negb (parseResponse response =? ENTERING_PASSIVE_MODE) then mret false else
  match pasv_params response with
  | None => mret false
  | Some params =>
      values ← stoi_all (getlines "," params);
      match values with
      | [v0; v1; v2; v3; v4; v5] =>
          let host := to_string v0 +:+ "." +:+ to_string v1 +:+ "." +:+ to_string v2 +:+ "." +:+ to_string v3 in
          let port := v4 * 256 + v5 in
          if negb (bool_decide (is_int (v4 * 256)) && bool_decide (is_int port)) then undefined "port" else
          modify (fun c => set_data (w_data w) (dialled_ c) c) ;;
          if w_data w <? 0 then mret false else
          modify (fun c => set_data (w_data w) (dialled_ c ++ [(host, wrap16 port)]) c) ;;
          if w_dial w then mret true else modify (fun c => set_data (-1) (dialled_ c) c) ;; mret false
      | _ => mret false
      end
  end.

Definition receiveData (w : Wire) : M string :=
  c ← get; mret (if dataSocket_ c <? 0 then ""%string else foldr String.append ""%string (w_recvs w)).

(** ** Methods *)

(** The greeting appears twice in verbose mode. *)
Definition connect (w : Wire) (host : string) (port : Z) : M bool :=
  c ← get;
  if connected_ c then mret false else
  if negb (w_resolve w) then mret false else
  modify (fun c => set_control (w_socket w) (connected_ c) (serverHost_ c) (serverPort_ c) c) ;;
  if w_socket w <? 0 then mret false else
  if negb (w_connect w) then modify (fun c => set_control (-1) (connected_ c) (serverHost_ c) (serverPort_ c) c) ;; mret false else
  modify (set_control (w_socket w) true host port) ;;
  welcome ← receiveResponse;
  c ← get;
  (if verbose_ c then print welcome else mret tt) ;;
  mret true.

Definition disconnect (w : Wire) : M unit :=
  c ← get;
  (if connected_ c then
     sendCommand w "QUIT" ;; receiveResponse ;;
     modify (fun c => set_user false (username_ c) (set_control (controlSocket_ c) false (serverHost_ c) (serverPort_ c) c))
   else mret tt) ;;
  modify (fun c => if 0 <=? controlSocket_ c then set_control (-1) (connected_ c) (serverHost_ c) (serverPort_ c) c else c) ;;
  closeDataConnection.

Definition pwd (w : Wire) : M string :=
  ok ← checkConnection;
  if negb ok then mret ""%string else
  sendCommand w "PWD" ;;
  response ← receiveResponse;
  match find_char (ascii_of_nat 34) response, rfind_char (ascii_of_nat 34) response with
  | Some start, Some stop =>
      if (start <? stop)%nat then
        let dir := substring (S start) (stop - start - 1) response in
        modify (set_directory dir) ;; mret dir
      else mret ""%string
  | _, _ => mret ""%string
  end.

Definition login (w : Wire) (username password : string) : M bool :=
  c ← get;
  if negb (connected_ c) then mret false else
  ok ← sendCommand w ("USER " +:+ username);
  if negb ok then mret false else
  response ← receiveResponse;
  if negb (parseResponse response =? USER_NAME_OK) && negb (parseResponse response =? USER_LOGGED_IN) then mret false else
  ok ← sendCommand w ("PASS " +:+ password);
  if negb ok then mret false else
  response ← receiveResponse;
  if negb (parseResponse response =? USER_LOGGED_IN) then mret false else
  modify (set_user true username) ;;
  pwd w ;;
  mret true.

Definition cd (w : Wire) (path : string) : M bool :=
  ok ← checkConnection;
  if negb ok then mret false else
  code ← command_code w ("CWD " +:+ path);
  if code =? FILE_ACTION_OK then pwd w ;; mret true else mret false.

Definition mkdir (w : Wire) (dirname : string) : M bool :=
  ok ← checkConnection;
  if negb ok then mret false else
  code ← command_code w ("MKD " +:+ dirname); mret (code =? PATHNAME_CREATED).

Definition rmdir (w : Wire) (dirname : string) : M bool :=
  ok ← checkConnection;
  if negb ok then mret false else
  code ← command_code w ("RMD " +:+ dirname); mret (code =? FILE_ACTION_OK).

Definition deleteFile (w : Wire) (filename : string) : M bool :=
  ok ← checkConnection;
  if negb ok then mret false else
  code ← command_code w ("DELE " +:+ filename); mret (code =? FILE_ACTION_OK).

Definition setType (w : Wire) (type : TransferType.TransferType) : M bool :=
  ok ← checkConnection;
  if negb ok then mret false else
  code ← command_code w ("TYPE " +:+ String (type_char type) "");
  if code =? COMMAND_OK then modify (fun c => set_mode type (verbose_ c) c) ;; mret true else mret false.

Definition setVerbose (verbose : bool) : M unit := modify (fun c => set_mode (transferType_ c) verbose c).

Definition executeCommand (w : Wire) (command : string) : M bool :=
  ok ← checkConnection;
  if negb ok then mret false else
  sendCommand w command ;;
  response ← receiveResponse;
  print response ;;
  mret (parseResponse response <? 400).

(** The replies that let a transfer go on, and the one that ends it. *)
Definition transfer_announced (code : Z) : bool := (code =? FILE_STATUS_OK) || (code =? DATA_CONNECTION_ALREADY_OPEN).
Definition transfer_concluded : M bool :=
  response ← receiveResponse; mret (parseResponse response =? CLOSING_DATA_CONNECTION).

Definition list_ (w : Wire) (path : string) : M bool :=
  ok ← checkConnection;
  if negb ok then mret false else
  ok ← enterPassiveMode w;
  if negb ok then mret false else
  code ← command_code w ("LIST " +:+ path);
  if negb (transfer_announced code) then closeDataConnection ;; mret false else
  listing ← receiveData w;
  print listing ;;
  closeDataConnection ;;
  transfer_concluded.

(** [file.write] block by block; whether it succeeds is not looked at. *)
Fixpoint save_blocks (path : string) (recvs : list string) : M unit :=
  match recvs with
  | [] => mret tt
  | r :: rest => modify (fun c => set_local (u_write (local c) path r).2 c) ;; save_blocks path rest
  end.

Definition get_ (w : Wire) (remoteFile localFile : string) : M bool :=
  ok ← checkConnection;
  if negb ok then mret false else
  let targetFile := if String.eqb localFile "" then remoteFile else localFile in
  setType w TransferType.IMAGE ;;
  ok ← enterPassiveMode w;
  if negb ok then mret false else
  code ← command_code w ("RETR " +:+ remoteFile);
  if negb (transfer_announced code) then closeDataConnection ;; mret false else
  c ← get;
  let '(ok, d) := u_open (local c) targetFile false in
  modify (set_local d) ;;
  if negb ok then closeDataConnection ;; mret false else
  save_blocks targetFile (w_recvs w) ;;
  closeDataConnection ;;
  transfer_concluded.

(** [file.read] block by block, each sent before the next is read. *)
Fixpoint put_blocks (fuel : nat) (sends : list Z) (data : string) : M bool :=
  match fuel with
  | O => undefined "fuel"
  | S fuel' =>
      if String.eqb data "" then mret true else
      let '(ok, rest, t) := send_block sends (substring 0 BUFFER_SIZE data) in
      modify (fun c => set_io (incoming_ c) (outgoing_ c) (uploaded_ c +:+ t) (console_ c) c) ;;
      if ok : bool then put_blocks fuel' rest (substring BUFFER_SIZE (String.length data) data) else mret false
  end.

Definition put (w : Wire) (localFile remoteFile : string) : M bool :=
  ok ← checkConnection;
  if negb ok then mret false else
  c ← get;
  match u_stat (local c) localFile with
  | None => mret false
  | Some _ =>
      let targetFile := if String.eqb remoteFile "" then base_name localFile else remoteFile in
      setType w TransferType.IMAGE ;;
      ok ← enterPassiveMode w;
      if negb ok then mret false else
      code ← command_code w ("STOR " +:+ targetFile);
      if negb (transfer_announced code) then closeDataConnection ;; mret false else
      c ← get;
      match u_read (local c) localFile with
      | None => closeDataConnection ;; mret false
      | Some data =>
          ok ← put_blocks (S (String.length data)) (w_sends w) data;
          closeDataConnection ;;
          if ok : bool then transfer_concluded else mret false
      end
  end.

(** ** The program *)

(** [stream >> n]: unchanged when nothing is left, 0 when it is not a number, the nearest
    [int] when it is too large. *)
Definition extract_int (rest : string) (dflt : Z) : Z :=
  match lstrip is_space rest with
  | EmptyString => dflt
  | text =>
      match stoi text with
      | inr v => v
      | inl e =>
          if String.eqb e "std::out_of_range" then
            match text with String "-" _ => INT_MIN | _ => INT_MAX end
          else 0
      end
  end.

Definition DEFAULT_CONTROL_PORT : Z := 21.

(** One word of the line is needed. *)
Definition with_word (rest : string) (act : string -> string -> M unit) : M unit :=
  let '(word, rest) := next_word rest in if String.eqb word "" then mret tt else act word rest.

(** One line that is typed in, the lines after it, and whether the loop goes on; [toggle]
    is the static variable of [verbose]. *)
Definition client_line (w : Wire) (line : string) (input : list (string * Wire)) (toggle : bool) :
    M (bool * list (string * Wire) * bool) :=
  let '(word, rest) := next_word line in
  let command := map_string tolower word in
  let typed := String.eqb command in
  let continue (m : M unit) : M (bool * list (string * Wire) * bool) := m ;; mret (true, input, toggle) in
  if typed "quit"%string || typed "exit"%string then disconnect w ;; mret (false, input, toggle)
  else if typed "help"%string || typed "?"%string then continue (mret tt)
  else if typed "open"%string then continue (with_word rest (fun host rest =>
    connect w host (extract_int rest DEFAULT_CONTROL_PORT) ;; mret tt))
  else if typed "login"%string then
    let '(username, _) := next_word rest in
    let '(username, input) :=
      if String.eqb username "" then (default ""%string (fst <$> head input), tail input) else (username, input) in
    let password := default ""%string (fst <$> head input) in
    login w username password ;; mret (true, tail input, toggle)
  else if typed "close"%string then continue (disconnect w)
  else if typed "pwd"%string then continue (pwd w ;; mret tt)
  else if typed "cd"%string then continue (with_word rest (fun path _ => cd w path ;; mret tt))
  else if typed "ls"%string || typed "dir"%string then continue (list_ w (next_word rest).1 ;; mret tt)
  else if typed "get"%string then continue (with_word rest (fun remoteFile rest => get_ w remoteFile (next_word rest).1 ;; mret tt))
  else if typed "put"%string then continue (with_word rest (fun localFile rest => put w localFile (next_word rest).1 ;; mret tt))
  else if typed "mkdir"%string then continue (with_word rest (fun name _ => mkdir w name ;; mret tt))
  else if typed "rmdir"%string then continue (with_word rest (fun name _ => rmdir w name ;; mret tt))
  else if typed "delete"%string || typed "rm"%string then continue (with_word rest (fun name _ => deleteFile w name ;; mret tt))
  else if typed "binary"%string || typed "bin"%string then continue (setType w TransferType.IMAGE ;; mret tt)
  else if typed "ascii"%string || typed "asc"%string then continue (setType w TransferType.ASCII ;; mret tt)
  else if typed "verbose"%string then setVerbose (negb toggle) ;; mret (true, input, negb toggle)
  else continue (executeCommand w line ;; mret tt).

(** [main]; every line of the input ends with a newline. At the end of the input [getline]
    leaves the line empty, and an empty line is skipped. *)
Fixpoint client_loop (fuel : nat) (input : list (string * Wire)) (toggle : bool) : M unit :=
  match fuel with
  | O => undefined "fuel"
  | S fuel' =>
      match input with
      | [] => client_loop fuel' [] toggle
      | (line, w) :: rest =>
          if String.eqb line "" then client_loop fuel' rest toggle else
          '(again, rest, toggle) ← client_line w line rest toggle;
          if again : bool then client_loop fuel' rest toggle else mret tt
      end
  end.
End client.
End FTPClient.
