(* ===== verification/FtpLink.v ===== *)
(** * FtpLink: the FTP client and the FTP server together

    The client's commands are what the server receives, the server's replies are what the
    client receives: command lines and replies are understood on the other side, the client
    connects to the port the server listens on, and a file that is uploaded and downloaded
    again is the same file. *)

From Stdlib Require Import Ascii String.
From S2P Require Import Prelude Text FtpProtocol FtpDisk FtpSession FtpCommands FtpProps FtpTransfer FtpClient.
Import ResponseCode.

Local Open Scope Z_scope.

(** ** Command lines *)

(** A word, and an argument without blanks around it or a line end after it. *)
Definition is_word (w : string) : Prop :=
  w <> ""%string /\ head_not is_blank w = true /\ no_char " " w = true /\ last_not is_line_end w = true.
Definition is_argument (a : string) : Prop :=
  a <> ""%string /\ head_not is_blank a = true /\ last_not is_blank a = true /\ last_not is_line_end a = true.

Lemma line_nonempty a : a +:+ crlf <> ""%string.
Proof. by destruct a. Qed.

(** The words of a command line, whatever surrounds them. *)
Lemma parse_argument w a : is_word w -> is_argument a ->
  parseCommand ((w +:+ " " +:+ a) +:+ crlf) = (map_string toupper w, a).
Proof.
  intros (Hw & Hhw & Hnw & _) (Ha & Hha & Hla & Hle). unfold parseCommand.
  assert (Hl : w +:+ " " +:+ a <> ""%string) by (by destruct w).
  rewrite rstrip_app by (done || (rewrite last_not_app by done; destruct a; done)).
  rewrite lstrip_id by (by rewrite head_not_app).
  assert (Hs : split_at " " (w +:+ " " +:+ a) = Some (w, a)) by (by apply split_at_app).
  destruct (w +:+ " " +:+ a) eqn:E; [done|]. rewrite Hs, lstrip_id, rstrip_id by done. done.
Qed.

Lemma parse_word w : is_word w -> parseCommand (w +:+ crlf) = (map_string toupper w, ""%string).
Proof.
  intros (Hw & Hhw & Hnw & Hle). unfold parseCommand. rewrite rstrip_app, lstrip_id by done.
  destruct w as [|c w]; [done|]. by rewrite split_at_none.
Qed.

(** ** The client's side of a dialogue *)

Module C := FTPClient.

Section client.
Context {G : Type} `{Unix G}.
Implicit Types c : C.Client G.

(** Lines have been sent and replies taken; nothing but the console has changed otherwise. *)
Definition dialogue c (lines : list string) (rest : list string) c' : Prop :=
  exists console, c' = C.set_io rest (C.outgoing_ c ++ lines) (C.uploaded_ c) console c.

Lemma dialogue_trans c l1 r1 c1 l2 r2 c2 : dialogue c l1 r1 c1 -> dialogue c1 l2 r2 c2 -> dialogue c (l1 ++ l2) r2 c2.
Proof. intros [k1 ->] [k2 ->]. exists k2. unfold C.set_io. cbn. by rewrite app_assoc. Qed.

(** A reply of one line. *)
Definition one_line (r : string) : Prop := (4 <= String.length r)%nat /\ String.get 3 r <> Some "-"%char.

Lemma one_line_nonempty r : one_line r -> r <> ""%string.
Proof. intros [Hl _] ->. cbn in Hl. lia. Qed.

Lemma reply_one_line code text : String.length (to_string code) = 3%nat -> one_line (formatResponse code text).
Proof.
  intros Hl. unfold formatResponse. destruct (to_string code) as [|x [|y [|z [|]]]]; try done.
  rewrite !app_cons, !app_empty_l. split; [cbn; lia|done].
Qed.
Lemma pasv_one_line a b d e port : one_line (pasv_reply a b d e port).
Proof. unfold pasv_reply. rewrite !app_cons. split; [cbn; lia|done]. Qed.

Lemma receive_one c r rest : 0 <= C.controlSocket_ c -> C.incoming_ c = r :: rest -> one_line r ->
  exists c', C.receiveResponse c = Ok r c' /\ dialogue c [] rest c'.
Proof.
  intros Hs Hi Hr. unfold C.receiveResponse.
  assert (E : C.recv_control c = Ok r (C.set_io rest (C.outgoing_ c) (C.uploaded_ c) (C.console_ c) c)).
  { unfold C.recv_control. rewrite (bind_Ok get _ c c c eq_refl). destruct (Z.ltb_spec (C.controlSocket_ c) 0); [lia|]. by rewrite Hi. }
  rewrite (bind_Ok _ _ _ _ _ E). apply one_line_nonempty in Hr as Hne. apply String.eqb_neq in Hne as ->.
  destruct Hr as [_ Hdash]. set (c1 := C.set_io _ _ _ _ c).
  assert (Em : forall m : cpp (C.Client G) string, match String.get 3 r with Some "-"%char => m | _ => mret r end = mret r).
  { intros m. destruct (String.get 3 r) as [[[] [] [] [] [] [] [] []]|]; try done. }
  rewrite Em. rewrite (bind_Ok (mret r) _ c1 r c1 eq_refl), (bind_Ok get _ c1 c1 c1 eq_refl).
  destruct (C.verbose_ c1); eexists; (split; [reflexivity|]); eexists; unfold C.set_io; cbn; by rewrite app_nil_r.
Qed.

Lemma send_command w c text : 0 <= C.controlSocket_ c ->
  exists c', C.sendCommand w text c = Ok (C.w_took w (text +:+ crlf)) c' /\ dialogue c [text +:+ crlf] (C.incoming_ c) c'.
Proof.
  intros Hs. unfold C.sendCommand. rewrite (bind_Ok get _ c c c eq_refl). destruct (Z.ltb_spec (C.controlSocket_ c) 0); [lia|].
  cbv zeta. destruct (C.verbose_ c); eexists; (split; [reflexivity|]); by eexists.
Qed.

Lemma exchange w c text r rest : 0 <= C.controlSocket_ c -> C.incoming_ c = r :: rest -> one_line r ->
  exists c', C.command_code w text c = Ok (C.parseResponse r) c' /\ dialogue c [text +:+ crlf] rest c'.
Proof.
  intros Hs Hi Hr. unfold C.command_code. destruct (send_command w c text Hs) as (c1 & E1 & [k1 ->]).
  rewrite (bind_Ok _ _ _ _ _ E1). set (c1 := C.set_io _ _ _ k1 c). destruct (receive_one c1 r rest Hs Hi Hr) as (c2 & E2 & [k2 ->]).
  rewrite (bind_Ok _ _ _ _ _ E2). eexists. split; [reflexivity|]. exists k2. unfold c1, C.set_io. cbn. by rewrite app_nil_r.
Qed.

End client.

(** ** The address of the data connection *)

Lemma find_char_app x a b : no_char x a = true -> C.find_char x (a +:+ String x b) = Some (String.length a).
Proof.
  induction a as [|c a IH].
  - intros _. rewrite app_empty_l. cbn. unfold char_eqb. by rewrite Ascii.eqb_refl.
  - intros [Hc Ha]%no_char_cons. rewrite app_cons. cbn. unfold char_eqb. apply Ascii.eqb_neq in Hc as ->. by rewrite IH.
Qed.

(** The six numbers of the reply. *)
Definition pasv_numbers (a b c d port : Z) : string :=
  to_string a +:+ "," +:+ to_string b +:+ "," +:+ to_string c +:+ "," +:+ to_string d +:+ "," +:+
  to_string (Z.quot port 256) +:+ "," +:+ to_string (Z.rem port 256).

Lemma pasv_params_reply a b c d port : C.pasv_params (pasv_reply a b c d port) = Some (pasv_numbers a b c d port).
Proof.
  set (body := pasv_numbers a b c d port).
  assert (E : pasv_reply a b c d port = ("227 Entering Passive Mode " +:+ String "(" (body +:+ String ")" ("." +:+ crlf)))%string).
  { unfold pasv_reply, body, pasv_numbers. rewrite !sapp_assoc. done. }
  assert (Hb : no_char ")" body = true).
  { unfold body, pasv_numbers. rewrite !no_char_app, !to_string_no_char by done. done. }
  unfold C.pasv_params. rewrite E, find_char_app by done.
  change ("227 Entering Passive Mode " +:+ String "(" (body +:+ String ")" ("." +:+ crlf)))%string
    with (("227 Entering Passive Mode (" +:+ body +:+ String ")" ("." +:+ crlf)))%string.
  rewrite <-sapp_assoc, find_char_app by (rewrite no_char_app, Hb; done). rewrite slength_app, sapp_assoc.
  change (String.length "227 Entering Passive Mode ") with 26%nat.
  change (String.length "227 Entering Passive Mode (") with 27%nat.
  destruct (Nat.ltb_spec 26 (27 + String.length body)); [|lia]. f_equal.
  rewrite (substring_skip "227 Entering Passive Mode (" _ _).
  replace (27 + String.length body - 26 - 1)%nat with (String.length body) by lia.
  clear. induction body as [|x s IH]; [done|]. rewrite app_cons. cbn. by rewrite IH.
Qed.

Lemma stoi_all_numbers {S} (s : S) l : Forall is_int l -> stoi_all (to_string <$> l) s = Ok l s.
Proof.
  induction 1 as [|v l Hv Hl IH]; [done|]. cbn [fmap list_fmap stoi_all]. rewrite stoi_to_string by done.
  by rewrite (bind_Ok _ _ _ _ _ IH).
Qed.

Lemma pasv_values a b c d port : getlines "," (pasv_numbers a b c d port) =
  to_string <$> [a; b; c; d; Z.quot port 256; Z.rem port 256].
Proof.
  assert (Hc : forall v, no_char "," (to_string v) = true) by (intros v; by apply to_string_no_char).
  assert (Happ : forall u v : string, u +:+ "," +:+ v = u +:+ String "," v) by done.
  unfold pasv_numbers. rewrite !Happ, !getlines_app, getlines_single by (done || apply to_string_nonempty). done.
Qed.

(** ** Transfers, seen from the client *)

Section client_transfers.
Context {G : Type} `{Unix G}.
Implicit Types c : C.Client G.

Definition ready c : Prop :=
  C.connected_ c = true /\ C.loggedIn_ c = true /\ 0 <= C.controlSocket_ c.

(** The data connection can be made. *)
Definition dials (w : C.Wire) : Prop := 0 <= C.w_data w /\ C.w_dial w = true.

Lemma set_binary w c text rest : ready c -> C.incoming_ c = formatResponse 200 text :: rest ->
  exists c', C.setType w TransferType.IMAGE c = Ok true c' /\
    exists console, c' = C.set_mode TransferType.IMAGE (C.verbose_ c)
      (C.set_io rest (C.outgoing_ c ++ ["TYPE I" +:+ crlf]) (C.uploaded_ c) console c).
Proof.
  intros (Hc & Hl & Hs) Hi. unfold C.setType, C.checkConnection. rewrite (bind_Ok (gets _) _ c _ c eq_refl), Hc, Hl. cbn [andb negb].
  destruct (exchange w c "TYPE I" (formatResponse 200 text) rest Hs Hi) as (c1 & E & [k ->]); [by apply reply_one_line|].
  change ("TYPE " +:+ String (type_char TransferType.IMAGE) "")%string with "TYPE I"%string.
  rewrite (bind_Ok _ _ _ _ _ E). eexists. split; [reflexivity|]. by exists k.
Qed.

Lemma enter_passive w c a b d e port rest : 0 <= C.controlSocket_ c -> dials w -> C.incoming_ c = pasv_reply a b d e port :: rest ->
  is_byte a -> is_byte b -> is_byte d -> is_byte e -> 0 <= port < 65536 ->
  exists console, C.enterPassiveMode w c = Ok true
    (C.set_data (C.w_data w) (C.dialled_ c ++ [(dotted a b d e, port)])
       (C.set_io rest (C.outgoing_ c ++ ["PASV" +:+ crlf]) (C.uploaded_ c) console c)).
Proof.
  intros Hs [Hd Hdial] Hi Ha Hb Hdd He Hp. unfold C.enterPassiveMode.
  destruct (send_command w c "PASV" Hs) as (c1 & E1 & [k1 ->]). rewrite (bind_Ok _ _ _ _ _ E1). set (c1 := C.set_io _ _ _ k1 c).
  destruct (receive_one c1 (pasv_reply a b d e port) rest Hs Hi) as (c2 & E2 & [k2 ->]); [apply pasv_one_line|].
  rewrite (bind_Ok _ _ _ _ _ E2). change (negb (C.parseResponse (pasv_reply a b d e port) =? ENTERING_PASSIVE_MODE)) with false.
  cbv iota. rewrite pasv_params_reply, pasv_values.
  assert (Hq : 0 <= Z.quot port 256 < 256 /\ 0 <= Z.rem port 256 < 256 /\ Z.quot port 256 * 256 + Z.rem port 256 = port).
  { rewrite Z.quot_div_nonneg, Z.rem_mod_nonneg by lia. pose proof (Z.div_mod port 256). pose proof (Z.mod_pos_bound port 256).
    assert (port / 256 < 256) by (apply Z.div_lt_upper_bound; lia). assert (0 <= port / 256) by (apply Z.div_pos; lia). lia. }
  destruct Hq as (Hq & Hr & Hqr). unfold is_byte in *.
  set (c2 := C.set_io rest _ _ k2 c1).
  assert (Hints : Forall is_int [a; b; d; e; Z.quot port 256; Z.rem port 256])
    by (repeat constructor; unfold INT_MIN, INT_MAX; lia).
  rewrite (bind_Ok _ _ _ _ _ (stoi_all_numbers c2 _ Hints)). cbv zeta. rewrite Hqr.
  rewrite !bool_decide_true by (unfold is_int, INT_MIN, INT_MAX; lia). cbn [andb negb].
  rewrite (bind_Ok (modify _) _ _ tt _ eq_refl). destruct (Z.ltb_spec (C.w_data w) 0); [lia|].
  rewrite (bind_Ok (modify _) _ _ tt _ eq_refl), Hdial. exists k2.
  unfold wrap16, u16_max. rewrite Z.mod_small by lia. unfold c2, c1, C.set_data, C.set_io, dotted. cbn. by rewrite app_nil_r.
Qed.

Lemma send_block_complete sends data : sends_enough sends data ->
  exists rest, C.send_block sends data = (true, rest, data) /\
    Forall (fun r => 0 < r) rest /\ (length sends <= length rest + String.length data)%nat.
Proof.
  revert data. induction sends as [|r sends IH]; intros data [Hpos Hlen]; cbn [C.send_block];
    destruct (String.eqb_spec data "") as [->|Hne]; [by exists []|destruct data; [done|cbn in Hlen; lia]|..].
  - exists (r :: sends). split; [done|]. split; [done|]. cbn. lia.
  - inversion Hpos; subst. destruct (Z.leb_spec r 0); [lia|]. set (tl := substring (Z.to_nat r) (String.length data) data).
    pose proof (length_substring (Z.to_nat r) (String.length data) data) as Hl. fold tl in Hl.
    assert (String.length data <> 0)%nat by (by destruct data).
    destruct (IH tl) as (rest & -> & Hp & Hr); [split; [done|cbn in *; lia]|]. exists rest.
    unfold tl. rewrite (substring_split (Z.to_nat r) (String.length data) data) by lia. split; [done|]. split; [done|]. cbn in *. lia.
Qed.

Lemma put_blocks_complete fuel sends data c : (String.length data < fuel)%nat -> sends_enough sends data ->
  C.put_blocks fuel sends data c = Ok true (C.set_io (C.incoming_ c) (C.outgoing_ c) (C.uploaded_ c +:+ data) (C.console_ c) c).
Proof.
  revert sends data c. induction fuel as [|fuel IH]; intros sends data c Hf [Hpos Hlen]; [lia|]. cbn [C.put_blocks].
  destruct (String.eqb_spec data "") as [->|Hne].
  { destruct c. unfold C.set_io. cbn. by rewrite sapp_nil_r. }
  set (part := substring 0 BUFFER_SIZE data). set (rest := substring BUFFER_SIZE (String.length data) data).
  assert (Hsplit : part +:+ rest = data) by (apply substring_split; lia).
  assert (Hlens : (String.length part + String.length rest = String.length data)%nat) by (by rewrite <-Hsplit, slength_app).
  destruct (send_block_complete sends part) as (rest' & -> & Hp' & Hl'); [split; [done|lia]|].
  rewrite (bind_Ok (modify _) _ _ tt _ eq_refl).
  assert (0 < String.length part)%nat by (unfold part; destruct data; [done|]; unfold BUFFER_SIZE; cbn; lia).
  rewrite IH; [|lia|split; [done|lia]]. unfold C.set_io. cbn. by rewrite sapp_assoc, Hsplit.
Qed.

(** What a transfer leaves: the lines sent, the replies taken, the connection made and
    closed. *)
Definition moved_client c (lines rest : list string) (address : string * Z) (up : string) (d : G) c' : Prop :=
  ready c' /\ C.outgoing_ c' = C.outgoing_ c ++ lines /\ C.incoming_ c' = rest /\ C.dialled_ c' = C.dialled_ c ++ [address] /\
  C.uploaded_ c' = C.uploaded_ c +:+ up /\ C.local c' = d /\ C.dataSocket_ c' = -1.

(** The end of a transfer whose data connection is open. *)
Lemma concluded c text rest : ready c -> C.incoming_ c = formatResponse 226 text :: rest -> 0 <= C.dataSocket_ c ->
  exists console, (C.closeDataConnection ;; C.transfer_concluded) c = Ok true
    (C.set_data (-1) (C.dialled_ c) (C.set_io rest (C.outgoing_ c) (C.uploaded_ c) console c)).
Proof.
  intros (Hc & Hl & Hs) Hi Hd. unfold C.closeDataConnection. rewrite (bind_Ok (modify _) _ _ tt _ eq_refl).
  rewrite (proj2 (Z.leb_le 0 _) Hd). set (c1 := C.set_data _ _ c). unfold C.transfer_concluded.
  destruct (receive_one c1 (formatResponse 226 text) rest Hs Hi) as (c2 & E2 & [k2 ->]); [by apply reply_one_line|].
  rewrite (bind_Ok _ _ _ _ _ E2). exists k2. unfold c1, C.set_data, C.set_io. cbn. by rewrite app_nil_r.
Qed.

Section transfer.
Context (w : C.Wire) (c : C.Client G) (a b d e port : Z) (t200 t150 t226 : string) (rest : list string).
Context (Hready : ready c) (Hdial : dials w) (Ha : is_byte a) (Hb : is_byte b) (Hd : is_byte d) (He : is_byte e)
  (Hport : 0 <= port < 65536)
  (Hin : C.incoming_ c = [formatResponse 200 t200; pasv_reply a b d e port; formatResponse 150 t150; formatResponse 226 t226] ++ rest).

(** Up to the reply that announces the transfer. *)
Lemma transfer_opening (k : cpp (C.Client G) bool) text : exists c1,
  (C.setType w TransferType.IMAGE ;;
   ok ← C.enterPassiveMode w;
   if negb ok then mret false else
   code ← C.command_code w text;
   if negb (C.transfer_announced code) then C.closeDataConnection ;; mret false else k) c = k c1 /\
  ready c1 /\ C.outgoing_ c1 = C.outgoing_ c ++ ["TYPE I" +:+ crlf; "PASV" +:+ crlf; text +:+ crlf] /\
  C.incoming_ c1 = formatResponse 226 t226 :: rest /\ C.dialled_ c1 = C.dialled_ c ++ [(dotted a b d e, port)] /\
  C.uploaded_ c1 = C.uploaded_ c /\ C.local c1 = C.local c /\ 0 <= C.dataSocket_ c1.
Proof.
  destruct (set_binary w c _ _ Hready Hin) as (c1 & E1 & k1 & ->). rewrite (bind_Ok _ _ _ _ _ E1). set (c1 := C.set_mode _ _ _).
  destruct Hready as (Hc & Hl & Hs).
  destruct (enter_passive w c1 a b d e port (formatResponse 150 t150 :: formatResponse 226 t226 :: rest)) as (k2 & E2); [done..|].
  rewrite (bind_Ok _ _ _ _ _ E2). cbn [negb]. set (c2 := C.set_data _ _ _).
  destruct (exchange w c2 text (formatResponse 150 t150) (formatResponse 226 t226 :: rest)) as (c3 & E3 & [k3 ->]);
    [done|done|by apply reply_one_line|].
  rewrite (bind_Ok _ _ _ _ _ E3). eexists. split; [reflexivity|]. cbn. rewrite <-!app_assoc. split_and!; try done. apply Hdial.
Qed.

Lemma client_put localFile remoteFile data st :
  u_stat (C.local c) localFile = Some st -> u_read (C.local c) localFile = Some data -> sends_enough (C.w_sends w) data ->
  remoteFile <> ""%string ->
  exists c', C.put w localFile remoteFile c = Ok true c' /\
    moved_client c ["TYPE I" +:+ crlf; "PASV" +:+ crlf; ("STOR " +:+ remoteFile) +:+ crlf] rest (dotted a b d e, port) data (C.local c) c'.
Proof.
  intros Hst Hr Hsend Hne. unfold C.put, C.checkConnection. pose proof Hready as (Hc & Hl & Hs).
  rewrite (bind_Ok (gets _) _ c _ c eq_refl), Hc, Hl. cbn [andb negb]. rewrite (bind_Ok get _ c c c eq_refl), Hst. cbv zeta.
  apply String.eqb_neq in Hne as ->.
  match goal with |- exists c', (_ ;; ok ← _; if negb ok then _ else code ← C.command_code w ?text; if _ then _ else ?k) c = _ /\ _ =>
    destruct (transfer_opening k text) as (c1 & -> & Hr1 & Ho & Hi & Hdi & Hu & Hlo & Hda) end.
  rewrite (bind_Ok get _ c1 c1 c1 eq_refl), Hlo, Hr.
  rewrite (bind_Ok _ _ _ _ _ (put_blocks_complete _ _ data c1 (Nat.lt_succ_diag_r _) Hsend)). set (c2 := C.set_io _ _ _ _ c1).
  destruct (concluded c2 t226 rest) as (k & E); [done..|]. cbv beta. rewrite E. eexists. split; [reflexivity|].
  unfold moved_client. cbn. by rewrite Ho, Hdi, Hu, Hlo.
Qed.

Lemma save_blocks_content (V : G -> Prop) path recvs c0 x : keeps_files V path -> V (C.local c0) ->
  u_read (C.local c0) path = Some x -> regular (C.local c0) path ->
  exists l, C.save_blocks path recvs c0 = Ok tt (C.set_local l c0) /\ u_read l path = Some (x +:+ sconcat recvs).
Proof.
  intros Hk. revert c0 x. induction recvs as [|r recvs IH]; intros c0 x HV Hx Hr; cbn [C.save_blocks sconcat foldr].
  - exists (C.local c0). rewrite sapp_nil_r. by destruct c0.
  - destruct (k_write _ _ Hk _ r _ HV Hr Hx) as (_ & HV' & Hr' & Hx'). rewrite (bind_Ok (modify _) _ _ tt _ eq_refl).
    set (c1 := C.set_local _ c0). destruct (IH c1 _ HV' Hx' Hr') as (l & -> & Hl). exists l. split; [done|].
    by rewrite Hl, sapp_assoc.
Qed.

Lemma client_get (V : G -> Prop) remoteFile localFile : localFile <> ""%string -> keeps_files V localFile -> V (C.local c) ->
  exists l c', C.get_ w remoteFile localFile c = Ok true c' /\ u_read l localFile = Some (sconcat (C.w_recvs w)) /\
    moved_client c ["TYPE I" +:+ crlf; "PASV" +:+ crlf; ("RETR " +:+ remoteFile) +:+ crlf] rest (dotted a b d e, port) "" l c'.
Proof.
  intros Hne Hk HV. unfold C.get_, C.checkConnection. pose proof Hready as (Hc & Hl & Hs).
  rewrite (bind_Ok (gets _) _ c _ c eq_refl), Hc, Hl. cbn [andb negb]. cbv zeta. apply String.eqb_neq in Hne as ->.
  match goal with |- exists l c', (_ ;; ok ← _; if negb ok then _ else code ← C.command_code w ?text; if _ then _ else ?k) c = _ /\ _ =>
    destruct (transfer_opening k text) as (c1 & -> & Hr1 & Ho & Hi & Hdi & Hu & Hlo & Hda) end.
  rewrite (bind_Ok get _ c1 c1 c1 eq_refl), Hlo.
  destruct (k_open _ _ Hk (C.local c) false HV) as (Eo & HV1 & Hreg & Hx).
  destruct (u_open (C.local c) localFile false) as [ok l0] eqn:El. cbn [fst snd] in *. subst ok.
  rewrite (bind_Ok (modify _) _ _ tt _ eq_refl). cbn [negb]. set (c2 := C.set_local l0 c1).
  destruct (save_blocks_content V localFile (C.w_recvs w) c2 "" Hk HV1 Hx Hreg) as (l & E & Hr).
  rewrite (bind_Ok _ _ _ _ _ E). set (c3 := C.set_local l c2).
  destruct (concluded c3 t226 rest) as (k & ->); [done..|]. exists l. eexists. split; [reflexivity|]. split; [done|].
  unfold moved_client. cbn. by rewrite Ho, Hdi, Hu, sapp_nil_r.
Qed.
End transfer.
End client_transfers.

(** ** Transfers, seen from the server *)

Section server_transfers.
Context {F : Type} `{Unix F}.
Implicit Types s : Session F.

Lemma command_loop_step line n rest s command params s1 : alive s = true -> line <> ""%string ->
  parseCommand line = (command, params) -> handleCommand n command params s = Ok tt s1 ->
  command_loop ((line, n) :: rest) s = command_loop rest s1.
Proof.
  intros Ha Hne Hp E. cbn [command_loop]. rewrite (bind_Ok get _ s s s eq_refl). unfold alive in Ha.
  apply andb_true_iff in Ha as [-> Hd]. cbn [negb orb]. destruct (bool_decide _); [done|].
  apply String.eqb_neq in Hne as ->. rewrite Hp. by rewrite (bind_Ok _ _ _ _ _ E).
Qed.

(** Logged in and listening. *)
Definition at_work s : Prop := quiet s /\ alive s = true /\ authenticated_ s = true.

Lemma at_work_kept s s' : at_work s -> quiet s' -> standing s' = standing s -> at_work s'.
Proof. intros (_ & Ha & Hu) Hq [= _ Eu Er Es]. unfold at_work, alive in *. rewrite Eu, Er, Es. done. Qed.

(** What stays when nothing is transferred. *)
Definition same_place s s' : Prop :=
  files s' = files s /\ currentDirectory_ s' = currentDirectory_ s /\ sent_ s' = sent_ s.

Lemma serve_opening n1 n2 rest s fd port : at_work s -> nets_ok (("TYPE I" +:+ crlf, n1) :: ("PASV" +:+ crlf, n2) :: rest) s ->
  n_listen n2 = Some (fd, port) ->
  exists s2 a b c d, command_loop (("TYPE I" +:+ crlf, n1) :: ("PASV" +:+ crlf, n2) :: rest) s = command_loop rest s2 /\
    at_work s2 /\ same_place s s2 /\ nets_ok rest s2 /\ dataMode_ s2 = DataConnectionMode.PASSIVE /\
    0 <= passiveListenSocket_ s2 /\ is_byte a /\ is_byte b /\ is_byte c /\ is_byte d /\ n_address n2 = dotted a b c d /\
    replies_ s2 = replies_ s ++ [formatResponse 200 "Type set to IMAGE (Binary)"; pasv_reply a b c d port].
Proof.
  intros Hw Hn El. pose proof Hw as (Hq & Ha & Hu).
  assert (P1 : parseCommand ("TYPE I" +:+ crlf) = ("TYPE", "I")%string) by reflexivity.
  assert (P2 : parseCommand ("PASV" +:+ crlf) = ("PASV", "")%string) by reflexivity.
  destruct Hn as [Hn1 Hnext]. rewrite P1 in Hnext.
  destruct (handle_type s "I" Hq) as ([] & s1 & E1 & [Hsv1 Hst1]).
  assert (Hd1 : handleCommand n1 "TYPE" "I" s = Ok tt s1).
  { unfold handleCommand. rewrite (bind_Ok get _ s s s eq_refl), Hu. exact E1. }
  destruct (Hnext s1 Hd1) as [Hn2 Hlast]. rewrite P2 in Hlast.
  pose proof (at_work_kept s s1 Hw (sv_quiet _ _ Hsv1) Hst1) as Hw1. pose proof Hw1 as (Hq1 & Ha1 & Hu1).
  destruct (pasv_waits s1 n2 fd port Hq1 Hn2 El) as (s2 & E2 & Hq2 & Hm2 & Hlis2 & Hf2 & Hst2 & Hdir2 & Hsent2 & a & b & c & d & Hbytes).
  destruct Hbytes as (Ba & Bb & Bc & Bd & Had & Hrep).
  assert (Hd2 : handleCommand n2 "PASV" "" s1 = Ok tt s2) by (by rewrite dispatch_pasv).
  exists s2, a, b, c, d. injection E1 as <-. cbn in Hf2, Hdir2, Hsent2, Hrep.
  rewrite (command_loop_step _ _ _ s "TYPE" "I" _ Ha (line_nonempty _) P1 Hd1).
  rewrite (command_loop_step _ _ _ _ "PASV" "" _ Ha1 (line_nonempty _) P2 Hd2).
  split; [done|]. split; [by eapply at_work_kept|]. split; [done|]. split; [by apply Hlast|].
  split_and!; try done. by rewrite Hrep, <-app_assoc.
Qed.

Lemma command_loop_nil s : command_loop [] s = Ok tt s.
Proof. cbn [command_loop]. rewrite (bind_Ok get _ s s s eq_refl). by destruct (negb _ || _). Qed.

Lemma is_word_stor : is_word "STOR".
Proof. by split_and!. Qed.
Lemma is_word_retr : is_word "RETR".
Proof. by split_and!. Qed.

(** The three commands of an upload, and of a download. *)
Definition upload (name : string) (n1 n2 n3 : Net) : list (string * Net) :=
  [("TYPE I" +:+ crlf, n1); ("PASV" +:+ crlf, n2); (("STOR " +:+ name) +:+ crlf, n3)].
Definition download (name : string) (n1 n2 n3 : Net) : list (string * Net) :=
  [("TYPE I" +:+ crlf, n1); ("PASV" +:+ crlf, n2); (("RETR " +:+ name) +:+ crlf, n3)].

(** The replies to such a transfer. *)
Definition transfer_replies (a b c d port : Z) (t : string) : list string :=
  [formatResponse 200 "Type set to IMAGE (Binary)"; pasv_reply a b c d port; formatResponse 150 t;
   formatResponse 226 "Transfer complete"].

(** The server's part succeeds with these replies, and [Q] holds afterwards. *)
Definition serves (segments : list (string * Net)) (address : string) (port : Z) s s' : Prop :=
  command_loop segments s = Ok tt s' /\
  exists a b c d t, is_byte a /\ is_byte b /\ is_byte c /\ is_byte d /\ address = dotted a b c d /\
    replies_ s' = replies_ s ++ transfer_replies a b c d port t.

Lemma same_path s s' name : currentDirectory_ s' = currentDirectory_ s -> getAbsolutePath s' name = getAbsolutePath s name.
Proof. intros E. unfold getAbsolutePath. by rewrite E. Qed.

Lemma serve_upload (W : F -> Prop) s name n1 n2 n3 fd port : at_work s -> nets_ok (upload name n1 n2 n3) s ->
  is_argument name -> n_listen n2 = Some (fd, port) -> 0 <= n_accept n3 -> n_closed n3 = true ->
  let path := getAbsolutePath s name in isPathValid path = true -> keeps_files W path -> W (files s) ->
  exists s', serves (upload name n1 n2 n3) (n_address n2) port s s' /\ at_work s' /\
    currentDirectory_ s' = currentDirectory_ s /\ u_read (files s') path = Some (sconcat (n_recvs n3)) /\ regular (files s') path.
Proof.
  intros Hw Hn Harg El Hacc Hcl path Hv Hk HW. unfold upload.
  destruct (serve_opening n1 n2 _ s fd port Hw Hn El) as (s2 & a & b & c & d & E & Hw2 & (Hf & Hdir & _) & Hn2 & Hm & Hlis & Ba & Bb & Bc & Bd & Had & Hrep).
  pose proof (parse_argument "STOR" name is_word_stor Harg) as Hp. change (map_string toupper "STOR") with "STOR"%string in Hp.
  change ("STOR" +:+ " " +:+ name)%string with ("STOR " +:+ name)%string in Hp.
  destruct Hn2 as [Hn3 _]. pose proof Hw2 as (Hq2 & Ha2 & Hu2). pose proof (same_path s s2 name Hdir) as Hpath.
  destruct (store_complete W s2 n3 name false) as (s3 & E3 & Hq3 & Hst3 & Hdir3 & _ & Hr3 & Hreg3 & t & Hrep3);
    rewrite ?Hpath, ?Hf; try done.
  rewrite Hpath in Hr3, Hreg3.
  exists s3. split; [split|].
  - unfold upload. rewrite E, (command_loop_step _ _ _ s2 "STOR" name s3 Ha2 (line_nonempty _) Hp E3). apply command_loop_nil.
  - exists a, b, c, d, t. split_and!; try done. by rewrite Hrep3, Hrep, <-app_assoc.
  - split; [by eapply at_work_kept|]. split; [congruence|]. split; [exact Hr3|exact Hreg3].
Qed.

Lemma serve_download s name n1 n2 n3 fd port data : at_work s -> nets_ok (download name n1 n2 n3) s ->
  is_argument name -> n_listen n2 = Some (fd, port) -> 0 <= n_accept n3 -> sends_enough (n_sends n3) data ->
  let path := getAbsolutePath s name in isPathValid path = true -> regular (files s) path -> u_read (files s) path = Some data ->
  exists s', serves (download name n1 n2 n3) (n_address n2) port s s' /\ sent_ s' = sent_ s +:+ data.
Proof.
  intros Hw Hn Harg El Hacc Hsend path Hv Hreg Hr. unfold download.
  destruct (serve_opening n1 n2 _ s fd port Hw Hn El) as (s2 & a & b & c & d & E & Hw2 & (Hf & Hdir & Hs) & Hn2 & Hm & Hlis & Ba & Bb & Bc & Bd & Had & Hrep).
  pose proof (parse_argument "RETR" name is_word_retr Harg) as Hp. change (map_string toupper "RETR") with "RETR"%string in Hp.
  change ("RETR" +:+ " " +:+ name)%string with ("RETR " +:+ name)%string in Hp.
  pose proof Hw2 as (Hq2 & Ha2 & Hu2). pose proof (same_path s s2 name Hdir) as Hpath.
  destruct (retrieve_complete s2 n3 name data) as (s3 & E3 & Hs3 & t & Hrep3); rewrite ?Hpath, ?Hf; try done.
  assert (Hd3 : handleCommand n3 "RETR" name s2 = Ok tt s3) by (by rewrite dispatch_retr).
  exists s3. split; [split|by rewrite Hs3, Hs].
  - unfold download. rewrite E, (command_loop_step _ _ _ s2 "RETR" name s3 Ha2 (line_nonempty _) Hp Hd3). apply command_loop_nil.
  - exists a, b, c, d, t. split_and!; try done. by rewrite Hrep3, Hrep, <-app_assoc.
Qed.
End server_transfers.

(** ** Both sides together *)

Section link.
Context {F G : Type} `{Unix F} `{Unix G}.
Implicit Types (s : Session F) (c : C.Client G).

(** The server can listen on the port, and the client's connection reaches it. *)
Definition reachable (listen accept : Net) (port : Z) : Prop :=
  (exists fd, n_listen listen = Some (fd, port)) /\ 0 <= port < 65536 /\ 0 <= n_accept accept.

(** The client, when the replies [r] are on their way to it. *)
Definition hearing (r : list string) c : C.Client G := C.set_io r (C.outgoing_ c) (C.uploaded_ c) (C.console_ c) c.

(** C18. The client and the server agree. A file that [put] uploads and [get] downloads again
    is the same file, whatever its bytes and in whatever pieces the network moves them: when
    the server receives the lines the client sends and the bytes it uploads, and the client
    receives the server's replies, one at a time, and the bytes it sends, both methods
    return true, both transfers go to the address and port on which the server listens, and
    the server stores and sends exactly the bytes of the local file. *)
Theorem put_get_round_trip (W : F -> Prop) (V : G -> Prop) s c localFile remoteFile back data st w1 w2 n1 n2 n3 n4 n5 n6 port port' :
  at_work s -> ready c -> is_argument remoteFile ->
  let path := getAbsolutePath s remoteFile in isPathValid path = true -> keeps_files W path -> W (files s) ->
  u_stat (C.local c) localFile = Some st -> u_read (C.local c) localFile = Some data ->
  back <> ""%string -> keeps_files V back -> V (C.local c) ->
  nets_ok (upload remoteFile n1 n2 n3) s ->
  (forall s1, command_loop (upload remoteFile n1 n2 n3) s = Ok tt s1 -> nets_ok (download remoteFile n4 n5 n6) s1) ->
  reachable n2 n3 port -> reachable n5 n6 port' -> dials w1 -> dials w2 ->
  sends_enough (C.w_sends w1) data -> sends_enough (n_sends n6) data ->
  sconcat (n_recvs n3) = data -> n_closed n3 = true -> sconcat (C.w_recvs w2) = data ->
  exists s1 s2 r1 r2,
    command_loop (upload remoteFile n1 n2 n3) s = Ok tt s1 /\ replies_ s1 = replies_ s ++ r1 /\
    u_read (files s1) path = Some data /\
    command_loop (download remoteFile n4 n5 n6) s1 = Ok tt s2 /\ replies_ s2 = replies_ s1 ++ r2 /\
    sent_ s2 = sent_ s1 +:+ data /\
    forall rest, exists c1 c2 l,
      C.put w1 localFile remoteFile (hearing (r1 ++ r2 ++ rest) c) = Ok true c1 /\
      moved_client c (upload remoteFile n1 n2 n3).*1 (r2 ++ rest) (n_address n2, port) data (C.local c) c1 /\
      C.get_ w2 remoteFile back c1 = Ok true c2 /\
      moved_client c1 (download remoteFile n4 n5 n6).*1 rest (n_address n5, port') "" l c2 /\
      u_read l back = Some data.
Proof.
  intros Hw Hready Harg path Hv Hk HW Hst Hr Hback Hkb HV Hn Hn' ((fd & El) & Hp & Hacc) ((fd' & El') & Hp' & Hacc') Hd1 Hd2
    Hs1 Hs2 Hrecv Hcl Hrecv2.
  destruct (serve_upload W s remoteFile n1 n2 n3 fd port Hw Hn Harg El Hacc Hcl Hv Hk HW)
    as (s1 & (E1 & a & b & d & e & t & Ba & Bb & Bd & Be & Had & Hrep) & Hw1 & Hdir & Hread & Hreg).
  rewrite Hrecv in Hread. pose proof (same_path s s1 remoteFile Hdir) as Hpath.
  destruct (serve_download s1 remoteFile n4 n5 n6 fd' port' data) as (s2 & (E2 & a' & b' & d' & e' & t' & Ba' & Bb' & Bd' & Be' & Had' & Hrep') & Hsent);
    rewrite ?Hpath; try done; [by apply Hn'|].
  eexists s1, s2, _, _. split; [exact E1|]. split; [exact Hrep|]. split; [exact Hread|]. split; [exact E2|]. split; [exact Hrep'|].
  split; [exact Hsent|]. intros rest.
  destruct (client_put w1 (hearing _ c) a b d e port "Type set to IMAGE (Binary)" t "Transfer complete" (transfer_replies a' b' d' e' port' t' ++ rest)
    Hready Hd1 Ba Bb Bd Be Hp eq_refl localFile remoteFile data st Hst Hr Hs1) as (c1 & Eput & Hm1); [by destruct Harg|].
  pose proof Hm1 as (Hready1 & _ & Hin1 & _ & _ & Hlo1 & _).
  destruct (client_get w2 c1 a' b' d' e' port' "Type set to IMAGE (Binary)" t' "Transfer complete" rest
    Hready1 Hd2 Ba' Bb' Bd' Be' Hp' Hin1 V remoteFile back Hback Hkb) as (l & c2 & Eget & Hrl & Hm2); [by rewrite Hlo1|].
  exists c1, c2, l. rewrite Had, Had', Hrecv2 in *. split; [exact Eput|]. split; [exact Hm1|]. split; [exact Eget|]. by split.
Qed.

(** ** Logging in *)

Lemma rfind_char_none x b : no_char x b = true -> C.rfind_char x b = None.
Proof.
  induction b as [|c b IH]; [done|]. intros [Hc Hb]%no_char_cons. cbn. rewrite IH by done. unfold char_eqb.
  by apply Ascii.eqb_neq in Hc as ->.
Qed.

Lemma rfind_char_app x a b : no_char x b = true -> C.rfind_char x (a +:+ String x b) = Some (String.length a).
Proof.
  intros Hb. induction a as [|c a IH].
  - rewrite app_empty_l. cbn. rewrite rfind_char_none by done. unfold char_eqb. by rewrite Ascii.eqb_refl.
  - rewrite app_cons. cbn. by rewrite IH.
Qed.

Lemma substring_prefix a b : substring 0 (String.length a) (a +:+ b) = a.
Proof. induction a as [|x a IH]; [by destruct b|]. rewrite app_cons. cbn. by rewrite IH. Qed.

(** The reply to [PWD]. *)
Definition pwd_reply (dir : string) : string :=
  formatResponse 257 (dquote +:+ dir +:+ dquote +:+ " is current directory").

(** The directory is read back whole, even when it holds quotes. *)
Lemma pwd_hears w c dir rest : ready c -> C.incoming_ c = pwd_reply dir :: rest ->
  exists console, C.pwd w c = Ok dir (C.set_directory dir
    (C.set_io rest (C.outgoing_ c ++ ["PWD" +:+ crlf]) (C.uploaded_ c) console c)).
Proof.
  intros (Hc & Hl & Hs) Hi. unfold C.pwd, C.checkConnection. rewrite (bind_Ok (gets _) _ c _ c eq_refl), Hc, Hl. cbn [andb negb].
  destruct (send_command w c "PWD" Hs) as (c1 & E1 & [k1 ->]). rewrite (bind_Ok _ _ _ _ _ E1). set (c1 := C.set_io _ _ _ k1 c).
  destruct (receive_one c1 (pwd_reply dir) rest Hs Hi) as (c2 & E2 & [k2 ->]); [by apply reply_one_line|].
  rewrite (bind_Ok _ _ _ _ _ E2). set (q := ascii_of_nat 34). set (tl := " is current directory" +:+ crlf).
  assert (E : pwd_reply dir = "257 " +:+ String q (dir +:+ String q tl)).
  { unfold pwd_reply, formatResponse. by rewrite !sapp_assoc. }
  rewrite E, find_char_app by done.
  change ("257 " +:+ String q (dir +:+ String q tl)) with (("257 " +:+ String q "") +:+ (dir +:+ String q tl)).
  rewrite <-sapp_assoc, rfind_char_app by done. rewrite slength_app, sapp_assoc.
  change (String.length ("257 " +:+ String q "")) with 5%nat. change (String.length "257 ") with 4%nat.
  destruct (Nat.ltb_spec 4 (5 + String.length dir)); [|lia]. cbv zeta.
  rewrite (substring_skip ("257 " +:+ String q "")). replace (5 + String.length dir - 4 - 1)%nat with (String.length dir) by lia.
  rewrite substring_prefix. exists k2. unfold c1, C.set_directory, C.set_io. cbn. by rewrite app_nil_r.
Qed.

(** The commands of a login. *)
Definition login_lines (user pass : string) (n1 n2 n3 : Net) : list (string * Net) :=
  [(("USER " +:+ user) +:+ crlf, n1); (("PASS " +:+ pass) +:+ crlf, n2); ("PWD" +:+ crlf, n3)].

Lemma serve_login s user pass n1 n2 n3 : quiet s -> alive s = true -> is_argument user -> is_argument pass ->
  exists s', command_loop (login_lines user pass n1 n2 n3) s = Ok tt s' /\ login s' = (user, true) /\
    currentDirectory_ s' = currentDirectory_ s /\
    replies_ s' = replies_ s ++ [formatResponse 331 "User name okay, need password";
      formatResponse 230 "User logged in, proceed"; pwd_reply (currentDirectory_ s)].
Proof.
  intros Hq Ha Hu Hp.
  assert (P1 : parseCommand (("USER " +:+ user) +:+ crlf) = ("USER"%string, user)) by exact (parse_argument "USER" user ltac:(by split_and!) Hu).
  assert (P2 : parseCommand (("PASS " +:+ pass) +:+ crlf) = ("PASS"%string, pass)) by exact (parse_argument "PASS" pass ltac:(by split_and!) Hp).
  assert (P3 : parseCommand ("PWD" +:+ crlf) = ("PWD", "")%string) by reflexivity.
  unfold login_lines.
  assert (E1 : exists s1, handleCommand n1 "USER" user s = Ok tt s1 /\ alive s1 = true /\ username_ s1 = user /\
    currentDirectory_ s1 = currentDirectory_ s /\ replies_ s1 = replies_ s ++ [formatResponse 331 "User name okay, need password"]).
  { unfold handleCommand. rewrite (bind_Ok get _ s s s eq_refl), andb_false_r. eexists. split; [reflexivity|].
    unfold alive in *. apply andb_true_iff in Ha as [Hr _]. cbn. by rewrite Hr. }
  destruct E1 as (s1 & E1 & Ha1 & Hu1 & Hd1 & Hr1).
  assert (E2 : exists s2, handleCommand n2 "PASS" pass s1 = Ok tt s2 /\ alive s2 = true /\ login s2 = (user, true) /\
    currentDirectory_ s2 = currentDirectory_ s1 /\ replies_ s2 = replies_ s1 ++ [formatResponse 230 "User logged in, proceed"]).
  { unfold handleCommand. rewrite (bind_Ok get _ s1 s1 s1 eq_refl), andb_false_r. cbn [String.eqb Ascii.eqb Bool.eqb].
    unfold handlePASS. rewrite (bind_Ok get _ s1 s1 s1 eq_refl), Hu1. destruct Hu as (Hne & _). apply String.eqb_neq in Hne as ->.
    eexists. split; [reflexivity|]. unfold alive in *. apply andb_true_iff in Ha1 as [Hr _]. cbn. by rewrite Hr, <-Hu1. }
  destruct E2 as (s2 & E2 & Ha2 & Hl2 & Hd2 & Hr2). pose proof Hl2 as [= _ Hau].
  assert (E3 : exists s3, handleCommand n3 "PWD" "" s2 = Ok tt s3 /\ login s3 = login s2 /\ currentDirectory_ s3 = currentDirectory_ s2 /\
    replies_ s3 = replies_ s2 ++ [pwd_reply (currentDirectory_ s2)]).
  { unfold handleCommand. rewrite (bind_Ok get _ s2 s2 s2 eq_refl), Hau. by eexists. }
  destruct E3 as (s3 & E3 & Hl3 & Hd3 & Hr3). exists s3.
  rewrite (command_loop_step _ _ _ _ _ _ _ Ha (line_nonempty _) P1 E1), (command_loop_step _ _ _ _ _ _ _ Ha1 (line_nonempty _) P2 E2),
    (command_loop_step _ _ _ _ _ _ _ Ha2 (line_nonempty _) P3 E3). split; [apply command_loop_nil|].
  split; [congruence|]. split; [congruence|]. by rewrite Hr3, Hr2, Hr1, Hd2, Hd1, <-!app_assoc.
Qed.

(** Logging in. When the server receives the lines that [login] sends and the client the
    replies, the server has the user logged in, [login] returns true, and the client's
    current directory is the server's, whatever characters it holds. *)
Theorem login_agrees s c w user pass n1 n2 n3 : quiet s -> alive s = true -> is_argument user -> is_argument pass ->
  C.connected_ c = true -> 0 <= C.controlSocket_ c -> (forall t, C.w_took w t = true) ->
  exists s' r, command_loop (login_lines user pass n1 n2 n3) s = Ok tt s' /\ login s' = (user, true) /\
    replies_ s' = replies_ s ++ r /\
    forall rest, exists c', C.login w user pass (hearing (r ++ rest) c) = Ok true c' /\ ready c' /\ C.username_ c' = user /\
      C.currentDirectory_ c' = currentDirectory_ s' /\ C.incoming_ c' = rest /\
      C.outgoing_ c' = C.outgoing_ c ++ (login_lines user pass n1 n2 n3).*1.
Proof.
  intros Hq Ha Hu Hp Hc Hs Ht. destruct (serve_login s user pass n1 n2 n3 Hq Ha Hu Hp) as (s' & E & Hl & Hd & Hr).
  eexists s', _. split; [done|]. split; [done|]. split; [exact Hr|]. intros rest. cbn [app]. set (c0 := hearing _ c).
  unfold C.login. rewrite (bind_Ok get _ c0 c0 c0 eq_refl). change (C.connected_ c0) with (C.connected_ c). rewrite Hc. cbn [negb].
  destruct (send_command w c0 ("USER " +:+ user) Hs) as (c1 & E1 & [k1 ->]). rewrite (bind_Ok _ _ _ _ _ E1), Ht. cbn [negb].
  set (c1 := C.set_io _ _ _ k1 c0).
  destruct (receive_one c1 _ _ Hs eq_refl ltac:(by apply reply_one_line)) as (c2 & E2 & [k2 ->]). rewrite (bind_Ok _ _ _ _ _ E2).
  set (c2 := C.set_io _ _ _ k2 c1). change (negb (C.parseResponse _ =? USER_NAME_OK) && _) with false. cbv iota.
  destruct (send_command w c2 ("PASS " +:+ pass) Hs) as (c3 & E3 & [k3 ->]). rewrite (bind_Ok _ _ _ _ _ E3), Ht. cbn [negb].
  set (c3 := C.set_io _ _ _ k3 c2).
  destruct (receive_one c3 _ _ Hs eq_refl ltac:(by apply reply_one_line)) as (c4 & E4 & [k4 ->]). rewrite (bind_Ok _ _ _ _ _ E4).
  change (negb (C.parseResponse _ =? USER_LOGGED_IN)) with false. cbv iota. rewrite (bind_Ok (modify _) _ _ tt _ eq_refl).
  set (c5 := C.set_user true user _). destruct (pwd_hears w c5 (currentDirectory_ s) rest) as (k & E5); [done|done|].
  rewrite (bind_Ok _ _ _ _ _ E5). eexists. split; [reflexivity|]. cbn. rewrite Hd, <-!app_assoc. split_and!; done.
Qed.
End link.

(** ** The end of the client's input *)

Definition quits (line : string) : bool :=
  let command := map_string tolower (next_word line).1 in String.eqb command "quit" || String.eqb command "exit".

Section repl.
Context {G : Type} `{Unix G}.
Implicit Types c : C.Client G.

Lemma tail_suffix {A} (l : list A) : tail l `suffix_of` l.
Proof. destruct l as [|x l]; [done|]. by exists [x]. Qed.

Lemma client_line_goes_on w line input toggle c again rest toggle' c' : quits line = false ->
  C.client_line w line input toggle c = Ok (again, rest, toggle') c' -> again = true /\ rest `suffix_of` input.
Proof.
  unfold quits, C.client_line. destruct (next_word line) as [word tl]. cbn [fst]. intros ->. cbv zeta.
  repeat match goal with |- (if ?b then _ else _) _ = _ -> _ => destruct b end;
    try (intros ([] & c1 & _ & [= <- <- _ _])%bind_inv_Ok; done).
  destruct (next_word tl) as [username tl']. destruct (String.eqb username "");
    intros (r & c1 & _ & [= <- <- _ _])%bind_inv_Ok; (split; [done|]).
  - etrans; apply tail_suffix.
  - apply tail_suffix.
Qed.

(** Without [quit] the client never ends. When no line of the input says [quit] or
    [exit], the loop does not return, however long it runs: at the end of the input every
    further line reads as empty, and empty lines are skipped. *)
Theorem client_never_ends fuel input toggle c : Forall (fun e => quits e.1 = false) input ->
  forall c', C.client_loop fuel input toggle c <> Ok tt c'.
Proof.
  revert input toggle c. induction fuel as [|fuel IH]; intros input toggle c Hall c'; [done|]. cbn [C.client_loop].
  destruct input as [|[line w] rest]; [by apply IH|]. apply Forall_cons in Hall as [Hline Hrest].
  destruct (String.eqb line ""); [by apply IH|]. intros ([[again rest'] toggle'] & c1 & E & Hk)%bind_inv_Ok.
  destruct (client_line_goes_on _ _ _ _ _ _ _ _ _ Hline E) as [-> [pre ->]]. revert Hk. apply IH. by apply Forall_app in Hrest as [_ ?].
Qed.
End repl.

(** ** On concrete machines *)

Definition example_files : disk := {["/tmp/ftp"%string := Directory]}.

(** A session whose user has logged in, and a client connected to it. *)
Definition serving : Session disk :=
  set_run true SessionState.AUTHENTICATED (set_login SessionState.AUTHENTICATED "ann" "pw" true (Session_new example_files 4 "10.0.0.7")).
Definition example_client : C.Client disk :=
  C.set_user true "ann" (C.set_control 3 true "localhost" 2121 (C.FTPClient_new {["notes"%string := File "hello world"]})).
Definition example_wire (recvs : list string) : C.Wire := C.mkWire true 3 true (fun _ => true) 5 true (repeat 4 20) recvs.

Lemma serving_at_work : at_work serving.
Proof. split_and!; [|done..]. split; cbn; try done; [split; [by eexists|done]|by left|by left]. Qed.

(** Whether the network keeps its promises after the first commands. *)
Definition nets_after (r : result (Session disk) unit) (segments : list (string * Net)) : bool :=
  match r with Ok _ s => nets_check segments s | _ => false end.

Lemma put_get_round_trip_witness : exists s1 c1 c2,
  command_loop (upload "a b.txt" (example_net 5 7 []) (example_net 5 7 []) (example_net 5 7 ["hello"; " world"]%string)) serving = Ok tt s1 /\
  u_read (files s1) "/tmp/ftp/a b.txt" = Some "hello world"%string /\
  C.get_ (example_wire ["hell"; "o world"]%string) "a b.txt" "copy" c1 = Ok true c2 /\
  u_read (C.local c2) "copy" = Some "hello world"%string.
Proof.
  assert (H1 : nets_check (upload "a b.txt" (example_net 5 7 []) (example_net 5 7 []) (example_net 5 7 ["hello"; " world"]%string)) serving = true)
    by (vm_compute; reflexivity).
  assert (H2 : nets_after (command_loop (upload "a b.txt" (example_net 5 7 []) (example_net 5 7 []) (example_net 5 7 ["hello"; " world"]%string)) serving)
    (download "a b.txt" (example_net 5 7 []) (example_net 5 7 []) (example_net 5 7 [])) = true) by (vm_compute; reflexivity).
  destruct (put_get_round_trip (fun d => d !! "/tmp/ftp/a b.txt"%string <> Some Directory) (fun d => d !! "copy"%string <> Some Directory)
    serving example_client "notes" "a b.txt" "copy" "hello world" (mkStat 33188 1 0 0 11 0) (example_wire [])
    (example_wire ["hell"; "o world"]%string)
    (example_net 5 7 []) (example_net 5 7 []) (example_net 5 7 ["hello"; " world"]%string)
    (example_net 5 7 []) (example_net 5 7 []) (example_net 5 7 []) 2121 2121) as (s1 & s2 & r1 & r2 & E1 & _ & Hr & _ & _ & _ & Hc).
  - exact serving_at_work.
  - by split_and!.
  - by split_and!.
  - vm_compute. reflexivity.
  - exact (disk_keeps "/tmp/ftp/a b.txt").
  - vm_compute. discriminate.
  - vm_compute. reflexivity.
  - vm_compute. reflexivity.
  - discriminate.
  - exact (disk_keeps "copy").
  - vm_compute. discriminate.
  - exact (nets_check_ok _ _ H1).
  - intros s1 E. apply nets_check_ok. exact (eq_trans (f_equal (fun r => nets_after r _) (eq_sym E)) H2).
  - split; [by eexists|]. split; [lia|vm_compute; discriminate].
  - split; [by eexists|]. split; [lia|vm_compute; discriminate].
  - split; [vm_compute; discriminate|reflexivity].
  - split; [vm_compute; discriminate|reflexivity].
  - split; [vm_compute; repeat constructor|vm_compute; lia].
  - split; [vm_compute; repeat constructor|vm_compute; lia].
  - reflexivity.
  - reflexivity.
  - reflexivity.
  - destruct (Hc []) as (c1 & c2 & l & _ & _ & Eg & (_ & _ & _ & _ & _ & Hl & _) & Hd).
    exists s1, c1, c2. split; [exact E1|]. split; [exact Hr|]. split; [exact Eg|]. exact (eq_trans (f_equal (fun l => u_read l "copy"%string) Hl) Hd).
Defined.

Lemma login_agrees_witness : exists s' (c' : C.Client disk),
  command_loop (login_lines "ann" "pw" (example_net 5 7 []) (example_net 5 7 []) (example_net 5 7 [])) (begun example_files 4 "10.0.0.7") = Ok tt s' /\
  login s' = ("ann"%string, true) /\ ready c' /\ C.currentDirectory_ c' = currentDirectory_ s'.
Proof.
  destruct (login_agrees (begun example_files 4 "10.0.0.7") example_client (example_wire []) "ann" "pw"
    (example_net 5 7 []) (example_net 5 7 []) (example_net 5 7 [])) as (s' & r & E & Hl & _ & Hc).
  - by apply begun_quiet.
  - reflexivity.
  - by split_and!.
  - by split_and!.
  - reflexivity.
  - vm_compute. discriminate.
  - reflexivity.
  - destruct (Hc []) as (c' & _ & Hr & _ & Hd & _). exists s', c'. split; [exact E|]. split; [exact Hl|]. split; [exact Hr|exact Hd].
Defined.

Lemma client_never_ends_witness : ~ exists c', C.client_loop 50 [("open localhost"%string, example_wire []); ("pwd"%string, example_wire [])]
  true (C.FTPClient_new (∅ : disk)) = Ok tt c'.
Proof. intros [c' E]. revert E. apply client_never_ends. repeat constructor. Defined.
