(* ===== verification/FtpServer.v ===== *)
(** * FtpServer: the FTP server program

    Models src/zsxq-cpp-ai/StdFtp/server/ftp_server.cpp: the options, the listening socket,
    the loop that accepts clients, a thread per client and the end of the program, on top
    of the sessions of FtpSession. A thread is what is left for it to do, and runs when it
    is joined; nothing but its session runs in the meantime. Messages on the console, the
    sleeping and the signals other than the end of the loop are left out. *)

From Stdlib Require Import Ascii String.
From S2P Require Import Prelude Text FtpProtocol FtpDisk FtpSession FtpCommands FtpProps.

Local Open Scope Z_scope.

Module FTPServer.
(** A client that connects: its socket, its address, and what it sends. *)
Record Incoming : Set := mkIncoming { i_socket : Z; i_addr : string; i_segments : list (string * Net) }.

(** Results of the calls that open the listening socket. *)
Record Listening : Set := mkListening { l_socket : Z; l_option : bool; l_bind : bool; l_listen : bool }.

Record Server (F : Type) : Type := mkServer {
  disk_ : F;
  port_ : Z;
  rootDirectory_ : string;
  listenSocket_ : Z;
  clientThreads_ : list (nat * Incoming);
  manager_ : SessionManager;
  next_ : nat;                    (* address of the next session *)
  transcripts_ : list (list string);  (* what each client has been sent *)
  closed_ : list Z;               (* calls of close on the listening socket *)
  leaked_ : gset Z }.             (* sockets that a destroyed session left open *)
Arguments mkServer {F}. Arguments disk_ {F}. Arguments port_ {F}. Arguments rootDirectory_ {F}. Arguments listenSocket_ {F}.
Arguments clientThreads_ {F}. Arguments manager_ {F}. Arguments next_ {F}. Arguments transcripts_ {F}. Arguments closed_ {F}.
Arguments leaked_ {F}.

Section server.
Context {F : Type} `{Unix F}.
Implicit Types v : Server F.
Abbreviation M := (cpp (Server F)).

Definition set_listen (sock : Z) (closed : list Z) v : Server F :=
  mkServer (disk_ v) (port_ v) (rootDirectory_ v) sock (clientThreads_ v) (manager_ v) (next_ v) (transcripts_ v) closed (leaked_ v).
Definition set_threads (threads : list (nat * Incoming)) (next : nat) v : Server F :=
  mkServer (disk_ v) (port_ v) (rootDirectory_ v) (listenSocket_ v) threads (manager_ v) next (transcripts_ v) (closed_ v) (leaked_ v).
Definition set_manager (m : SessionManager) v : Server F :=
  mkServer (disk_ v) (port_ v) (rootDirectory_ v) (listenSocket_ v) (clientThreads_ v) m (next_ v) (transcripts_ v) (closed_ v) (leaked_ v).
Definition set_outcome (s : Session F) v : Server F :=
  mkServer (files s) (port_ v) (rootDirectory_ v) (listenSocket_ v) (clientThreads_ v) (manager_ v) (next_ v)
    (transcripts_ v ++ [replies_ s]) (closed_ v) (leaked_ v ∪ sockets_ s).

(** The constructor makes the directory; whether it succeeds is not looked at. *)
Definition FTPServer_new (d : F) (port : Z) (rootDir : string) : Server F :=
  mkServer (u_mkdir d rootDir).2 port rootDir (-1) [] (mkSessionManager [] ∅) 0 [] [] ∅.

(** A socket that cannot be used is closed, and stays in [listenSocket_]. *)
Definition start (l : Listening) : M bool :=
  modify (fun v => set_listen (l_socket l) (closed_ v) v) ;;
  if l_socket l <? 0 then mret false else
  if negb (l_option l && l_bind l && l_listen l) then
    modify (fun v => set_listen (l_socket l) (closed_ v ++ [l_socket l]) v) ;; mret false
  else mret true.

(** What a client's thread does. An exception would leave the thread. *)
Definition client_thread (p : nat) (i : Incoming) : M unit :=
  v ← get;
  modify (set_manager (createSession p (manager_ v))) ;;
  match FtpSession.start (i_segments i) (Session_new (disk_ v) (i_socket i) (i_addr i)) with
  | Ok _ s =>
      modify (fun v => set_manager (removeSession p (manager_ v)) v) ;;
      match destroy s with
      | Ok _ s => modify (set_outcome s)
      | _ => undefined "terminate"
      end
  | _ => undefined "terminate"
  end.

(** Every thread of the vector is joinable, is joined and removed. *)
Definition join_all : M unit :=
  v ← get;
  iterM (fun t => client_thread t.1 t.2) (clientThreads_ v) ;;
  modify (fun v => set_threads [] (next_ v) v).

Definition handleClient (i : Incoming) : M unit :=
  modify (fun v => set_threads (clientThreads_ v ++ [(next_ v, i)]) (S (next_ v)) v) ;;
  join_all.

(** One round of the loop: a client or none, and whether a minute has passed. *)
Definition run_round (e : option Incoming * bool) : M unit :=
  (match e.1 with Some i => handleClient i | None => mret tt end) ;;
  if e.2 : bool then modify (fun v => set_manager (cleanupTimeoutSessions (manager_ v)) v) else mret tt.

(** Until a signal ends it. *)
Definition run (events : list (option Incoming * bool)) : M unit := iterM run_round events.

Definition stop : M unit :=
  modify (fun v => if 0 <=? listenSocket_ v then set_listen (-1) (closed_ v ++ [listenSocket_ v]) v else v) ;;
  join_all.

(** The options: the exit code, or port and directory. *)
Fixpoint parse_options (args : list string) (port : Z) (dir : string) : Z + Z * string :=
  match args with
  | [] => inr (port, dir)
  | arg :: rest =>
      if String.eqb arg "-p" || String.eqb arg "--port" then
        match rest with
        | value :: rest =>
            match stoi value with
            | inr n => if (n <? 1) || (65535 <? n) then inl 1 else parse_options rest n dir
            | inl _ => inl 1
            end
        | [] => inl 1
        end
      else if String.eqb arg "-d" || String.eqb arg "--dir" then
        match rest with value :: rest => parse_options rest port value | [] => inl 1 end
      else if String.eqb arg "-h" || String.eqb arg "--help" then inl 0
      else inl 1
  end.

Definition server_main (d : F) (args : list string) (l : Listening) (events : list (option Incoming * bool)) :
    Z * option (result (Server F) unit) :=
  match parse_options args 21 "/tmp/ftp" with
  | inl code => (code, None)
  | inr (port, dir) =>
      match start l (FTPServer_new d port dir) with
      | Ok true v => (0, Some ((run events ;; stop) v))
      | Ok false v => (1, Some (stop v))
      | _ => (1, None)
      end
  end.
End server.
End FTPServer.

Module S := FTPServer.

Section props.
Context {F : Type} `{Unix F}.
Implicit Types v : S.Server F.

(** The network keeps its promises to every client. *)
Fixpoint clients_ok (events : list (option S.Incoming * bool)) (d : F) : Prop :=
  match events with
  | [] => True
  | (None, _) :: rest => clients_ok rest d
  | (Some i, _) :: rest =>
      0 <= S.i_socket i /\ nets_ok (S.i_segments i) (begun d (S.i_socket i) (S.i_addr i)) /\
      forall s, start (S.i_segments i) (Session_new d (S.i_socket i) (S.i_addr i)) = Ok tt s -> clients_ok rest (files s)
  end.

(** The greeting and an answer to every command. *)
Definition answers (i : S.Incoming) (t : list string) : Prop :=
  exists ls, t = formatResponse 220 "Welcome to FTP Server" :: concat ls /\ Forall reply_ok ls /\
    length ls = length (executed (S.i_segments i)).

(** Clients one after the other, each alone with the files as it finds them. *)
Fixpoint in_turn (events : list (option S.Incoming * bool)) (d : F) (ts : list (list string)) (d' : F) : Prop :=
  match events with
  | [] => ts = [] /\ d' = d
  | (None, _) :: rest => in_turn rest d ts d'
  | (Some i, _) :: rest =>
      exists s ts', start (S.i_segments i) (Session_new d (S.i_socket i) (S.i_addr i)) = Ok tt s /\
        ts = replies_ s :: ts' /\ answers i (replies_ s) /\ in_turn rest (files s) ts' d'
  end.

(** Between two rounds nobody is being served, and nothing has been left behind. *)
Definition idle v : Prop := S.clientThreads_ v = [] /\ sessions_ (S.manager_ v) = [] /\ S.leaked_ v = ∅.

Lemma client_served p i v : sessions_ (S.manager_ v) = [] -> S.leaked_ v = ∅ -> 0 <= S.i_socket i ->
  nets_ok (S.i_segments i) (begun (S.disk_ v) (S.i_socket i) (S.i_addr i)) ->
  exists s v', start (S.i_segments i) (Session_new (S.disk_ v) (S.i_socket i) (S.i_addr i)) = Ok tt s /\
    S.client_thread p i v = Ok tt v' /\ S.disk_ v' = files s /\ S.transcripts_ v' = S.transcripts_ v ++ [replies_ s] /\
    answers i (replies_ s) /\ sessions_ (S.manager_ v') = [] /\ S.leaked_ v' = ∅ /\ S.listenSocket_ v' = S.listenSocket_ v /\
    S.closed_ v' = S.closed_ v.
Proof.
  intros Hm Hleak Hc Hn. destruct (start_ran (S.disk_ v) _ (S.i_addr i) _ Hc Hn) as (s & s' & E & Hr & ->).
  destruct Hr as [Hq _ _ (ls & Hrep & Hok & Hlen) _ _].
  destruct (destroy_closes s (running_ s) SessionState.DISCONNECTED Hq) as (s' & E' & Hs' & Hf & Hrs).
  eexists _, _. split; [exact E|]. unfold S.client_thread. rewrite (bind_Ok get _ v v v eq_refl).
  rewrite (bind_Ok (modify _) _ _ tt _ eq_refl), E, (bind_Ok (modify _) _ _ tt _ eq_refl), E'.
  split; [reflexivity|]. cbn. rewrite Hm, Hleak, Hs', Hf, Hrs.
  split_and!; try done; [by exists ls|].
  change ([] ++ [p]) with [p]. by rewrite filter_cons_False, filter_nil by tauto.
Qed.

Lemma round_served e v : idle v -> clients_ok [e] (S.disk_ v) ->
  exists v' ts, S.run_round e v = Ok tt v' /\ idle v' /\ in_turn [e] (S.disk_ v) ts (S.disk_ v') /\
    S.transcripts_ v' = S.transcripts_ v ++ ts /\ S.listenSocket_ v' = S.listenSocket_ v /\ S.closed_ v' = S.closed_ v.
Proof.
  intros Hi Hok. pose proof Hi as (Ht & Hm & Hl). unfold S.run_round. destruct e as [[i|] tick]; cbn [fst snd].
  - destruct Hok as (Hc & Hn & _). unfold S.handleClient.
    set (v1 := S.set_threads (S.clientThreads_ v ++ [(S.next_ v, i)]) (S (S.next_ v)) v).
    destruct (client_served (S.next_ v) i v1 Hm Hl Hc Hn) as (s & v2 & Es & Et & Hd & Htr & Han & Hm2 & Hl2 & Hli & Hcl).
    assert (Ej : S.join_all v1 = Ok tt (S.set_threads [] (S.next_ v2) v2)).
    { unfold S.join_all. rewrite (bind_Ok get _ v1 v1 v1 eq_refl). cbn [S.clientThreads_ S.set_threads v1]. rewrite Ht. cbn [app iterM fst snd].
      rewrite bind_assoc, (bind_Ok _ _ _ _ _ Et). done. }
    exists (if tick then S.set_manager (cleanupTimeoutSessions (S.manager_ v2)) (S.set_threads [] (S.next_ v2) v2) else S.set_threads [] (S.next_ v2) v2).
    exists [replies_ s]. rewrite bind_assoc, (bind_Ok (modify _) _ _ tt _ eq_refl). fold v1. rewrite (bind_Ok _ _ _ _ _ Ej).
    split; [by destruct tick|]. split; [destruct tick; split_and!; cbn; rewrite ?Hm2; done|].
    split; [exists s, []; destruct tick; split_and!; done|]. by destruct tick.
  - exists (if tick then S.set_manager (cleanupTimeoutSessions (S.manager_ v)) v else v), []. rewrite app_nil_r.
    destruct tick; split_and!; try done. split_and!; cbn; rewrite ?Hm; done.
Qed.

(** Several rounds are the first one and the rest. *)
Lemma clients_ok_cons e rest d : clients_ok (e :: rest) d ->
  clients_ok [e] d /\ forall ts d', in_turn [e] d ts d' -> clients_ok rest d'.
Proof.
  destruct e as [[i|] tick]; cbn.
  - intros (Hc & Hn & Hr). split; [done|]. intros ts d' (s & ts' & E & _ & _ & _ & ->). by apply Hr.
  - intros Hr. split; [done|]. by intros ts d' [_ ->].
Qed.

Lemma in_turn_cons e rest d ts d' ts' d'' : in_turn [e] d ts d' -> in_turn rest d' ts' d'' -> in_turn (e :: rest) d (ts ++ ts') d''.
Proof.
  destruct e as [[i|] tick]; cbn.
  - intros (s & l & E & -> & Ha & -> & ->) Hr. by exists s, ts'.
  - by intros [-> ->].
Qed.

Lemma run_served events v : idle v -> clients_ok events (S.disk_ v) ->
  exists v' ts, S.run events v = Ok tt v' /\ idle v' /\ in_turn events (S.disk_ v) ts (S.disk_ v') /\
    S.transcripts_ v' = S.transcripts_ v ++ ts /\ S.listenSocket_ v' = S.listenSocket_ v /\ S.closed_ v' = S.closed_ v.
Proof.
  unfold S.run. revert v. induction events as [|e rest IH]; intros v Hi Hok; cbn [iterM].
  { exists v, []. by rewrite app_nil_r. }
  destruct (clients_ok_cons _ _ _ Hok) as [H1 Hrest].
  destruct (round_served e v Hi H1) as (v1 & ts & E & Hi1 & Ht & Htr & Hli & Hcl).
  destruct (IH v1 Hi1 (Hrest _ _ Ht)) as (v2 & ts2 & E2 & Hi2 & Ht2 & Htr2 & Hli2 & Hcl2).
  exists v2, (ts ++ ts2). rewrite (bind_Ok _ _ _ _ _ E). split; [done|]. split; [done|]. split; [by eapply in_turn_cons|].
  rewrite Htr2, Htr, app_assoc. split_and!; congruence.
Qed.


(** A server that cannot bind its port closes the listening socket twice. *)
Theorem failed_start_closes_twice d args l events port dir : S.parse_options args 21 "/tmp/ftp" = inr (port, dir) ->
  0 <= S.l_socket l -> S.l_option l && S.l_bind l && S.l_listen l = false ->
  exists v, S.server_main d args l events = (1, Some (Ok tt v)) /\ S.closed_ v = [S.l_socket l; S.l_socket l].
Proof.
  intros Hp Hs Hl. unfold S.server_main. rewrite Hp. set (v0 := S.FTPServer_new d port dir).
  assert (E0 : S.start l v0 = Ok false (S.set_listen (S.l_socket l) [S.l_socket l] v0)).
  { unfold S.start. rewrite (bind_Ok (modify _) _ _ tt _ eq_refl). destruct (Z.ltb_spec (S.l_socket l) 0); [lia|]. by rewrite Hl. }
  rewrite E0. unfold S.stop. rewrite (bind_Ok (modify _) _ _ tt _ eq_refl). cbn [S.listenSocket_ S.set_listen].
  rewrite (proj2 (Z.leb_le 0 _) Hs). by eexists.
Qed.
End props.

(** ** On a concrete machine *)

Definition example_events : list (option S.Incoming * bool) :=
  [(Some (S.mkIncoming 4 "10.0.0.7" example_input), false); (None, true);
   (Some (S.mkIncoming 4 "10.0.0.8" example_input), true)].

Fixpoint clients_check (events : list (option S.Incoming * bool)) (d : disk) : bool :=
  match events with
  | [] => true
  | (None, _) :: rest => clients_check rest d
  | (Some i, _) :: rest =>
      (0 <=? S.i_socket i) && nets_check (S.i_segments i) (begun d (S.i_socket i) (S.i_addr i)) &&
      match start (S.i_segments i) (Session_new d (S.i_socket i) (S.i_addr i)) with
      | Ok _ s => clients_check rest (files s)
      | _ => true
      end
  end.

Lemma clients_check_ok events d : clients_check events d = true -> clients_ok events d.
Proof.
  revert d. induction events as [|[[i|] tick] rest IH]; intros d; cbn [clients_check clients_ok]; [done| |by apply IH].
  rewrite !andb_true_iff. intros [[Hs Hn] Hr]. split; [lia|]. split; [by apply nets_check_ok|]. intros s E. rewrite E in Hr. by apply IH.
Qed.

