(* ===== verification/StdChatData.v ===== *)
(** * StdChatData: messages, users and files of the terminal chat

    Models src/zsxq-cpp-ai/StdChatRoom: Message.h, Message.cpp, User.h, User.cpp,
    FileInfo.h, FileInfo.cpp and the coding of file contents in ChatServer.cpp. Everything
    is stored and sent as text with the fields separated by bars. The clock and random
    draws are arguments; [std::hash] is the interface [Hasher]. *)

From Stdlib Require Import Ascii String DecimalString.
From S2P Require Import Prelude Text.

Local Open Scope Z_scope.

(** ** Streams of text *)

(** [std::getline(stream, token, d)]: the token, unless the call fails, and the stream, of
    which [None] is one that has ended. *)
Definition getline (d : ascii) (stream : option string) : option string * option string :=
  match stream with
  | None | Some EmptyString => (None, None)
  | Some s => match split_at d s with Some (a, b) => (Some a, Some b) | None => (Some s, None) end
  end.

(** The text before and after the last [c]. *)
Fixpoint rsplit_at (c : ascii) (s : string) : option (string * string) :=
  match s with
  | EmptyString => None
  | String x s' =>
      match rsplit_at c s' with
      | Some (a, b) => Some (String x a, b)
      | None => if char_eqb x c then Some (EmptyString, s') else None
      end
  end.

(** Sign and digits at the front of a number, as [strtol] reads it. *)
Definition signed_digits (s : string) : Z * string :=
  match lstrip is_space s with
  | String c s' as t => if char_eqb c "-" then (-1, s') else if char_eqb c "+" then (1, s') else (1, t)
  | EmptyString => (1, EmptyString)
  end.

Definition strto (ok : Z -> Prop) `{!forall z, Decision (ok z)} (final : Z -> Z) (s : string) : string + Z :=
  let '(sign, digits) := signed_digits s in
  match NilZero.uint_of_string (span is_digit digits).1 with
  | None => inl "std::invalid_argument"%string
  | Some d => let v := sign * Z.of_uint d in
              if bool_decide (ok v) then inr (final v) else inl "std::out_of_range"%string
  end.

(** Values of [long long] and of [size_t]; a negative number is wrapped. *)
Definition is_long (z : Z) : Prop := - 2 ^ 63 <= z < 2 ^ 63.
Definition is_size (z : Z) : Prop := - 2 ^ 64 < z < 2 ^ 64.
#[global] Instance is_long_dec z : Decision (is_long z).
Proof. unfold is_long. apply _. Defined.
#[global] Instance is_size_dec z : Decision (is_size z).
Proof. unfold is_size. apply _. Defined.

Definition stoll : string -> string + Z := strto is_long id.
Definition stoull : string -> string + Z := strto is_size wrap64.

(** ** Hexadecimal digits *)

Definition hex_digit (d : Z) : ascii :=
  ascii_of_nat (Z.to_nat (if d <? 10 then 48 + d else 87 + d)).
Definition digit_value (c : ascii) : option Z :=
  let n := Z.of_nat (nat_of_ascii c) in
  if (48 <=? n) && (n <=? 57) then Some (n - 48)
  else if (97 <=? n) && (n <=? 102) then Some (n - 87)
  else if (65 <=? n) && (n <=? 70) then Some (n - 55) else None.

Fixpoint hex_text_loop (fuel : nat) (v : Z) (acc : string) : string :=
  match fuel with
  | O => acc
  | S fuel' =>
      let acc' := String (hex_digit (v mod 16)) acc in
      if v <? 16 then acc' else hex_text_loop fuel' (v / 16) acc'
  end.
(** [std::hex] of a [size_t]. *)
Definition hex_text (v : Z) : string := hex_text_loop 16 v "".

Class Hasher : Type := { hash_string : string -> Z; hash_is_size s : 0 <= hash_string s < 2 ^ 64 }.

(** ** Contents of files, two digits per byte *)

Fixpoint encodeFileContent (content : string) : string :=
  match content with
  | EmptyString => EmptyString
  | String c rest =>
      let n := Z.of_nat (nat_of_ascii c) in
      String (hex_digit (n / 16)) (String (hex_digit (n mod 16)) (encodeFileContent rest))
  end.

(** The digits at the front of a text of at most two characters. *)
Fixpoint hex_prefix (s : string) (acc : option Z) : option Z :=
  match s with
  | EmptyString => acc
  | String c rest =>
      match digit_value c with Some d => hex_prefix rest (Some (default 0 acc * 16 + d)) | None => acc end
  end.
Definition stoi16 (s : string) : string + Z :=
  let '(sign, digits) := signed_digits s in
  match hex_prefix digits None with Some v => inr (sign * v) | None => inl "std::invalid_argument"%string end.

Fixpoint decodeFileContent (encoded : string) : string + string :=
  match encoded with
  | EmptyString => inr EmptyString
  | String a EmptyString =>
      match stoi16 (String a "") with
      | inr v => inr (String (ascii_of_nat (Z.to_nat (wrap8 v))) "")
      | inl e => inl e
      end
  | String a (String b rest) =>
      match stoi16 (String a (String b "")), decodeFileContent rest with
      | inr v, inr s => inr (String (ascii_of_nat (Z.to_nat (wrap8 v))) s)
      | inl e, _ => inl e
      | _, inl e => inl e
      end
  end.

(** ** Messages *)

Module MessageType.
(** [Other] is a number that the enumeration does not name. *)
Inductive MessageType : Set :=
  | LOGIN | REGISTER | CHAT_PUBLIC | CHAT_PRIVATE | LOGOUT | USER_LIST | RESPONSE | FILE_TRANSFER_REQUEST
  | FILE_TRANSFER_ACCEPT | FILE_TRANSFER_REJECT | FILE_UPLOAD_GROUP | FILE_LIST_REQUEST | FILE_LIST_RESPONSE
  | FILE_DOWNLOAD_REQUEST | FILE_DATA | FILE_TRANSFER_COMPLETE | Other (n : Z).

Definition to_int (t : MessageType) : Z :=
  match t with
  | LOGIN => 1 | REGISTER => 2 | CHAT_PUBLIC => 3 | CHAT_PRIVATE => 4 | LOGOUT => 5 | USER_LIST => 6 | RESPONSE => 7
  | FILE_TRANSFER_REQUEST => 8 | FILE_TRANSFER_ACCEPT => 9 | FILE_TRANSFER_REJECT => 10 | FILE_UPLOAD_GROUP => 11
  | FILE_LIST_REQUEST => 12 | FILE_LIST_RESPONSE => 13 | FILE_DOWNLOAD_REQUEST => 14 | FILE_DATA => 15
  | FILE_TRANSFER_COMPLETE => 16 | Other n => n
  end.

Definition of_int (n : Z) : MessageType :=
  match n with
  | 1 => LOGIN | 2 => REGISTER | 3 => CHAT_PUBLIC | 4 => CHAT_PRIVATE | 5 => LOGOUT | 6 => USER_LIST | 7 => RESPONSE
  | 8 => FILE_TRANSFER_REQUEST | 9 => FILE_TRANSFER_ACCEPT | 10 => FILE_TRANSFER_REJECT | 11 => FILE_UPLOAD_GROUP
  | 12 => FILE_LIST_REQUEST | 13 => FILE_LIST_RESPONSE | 14 => FILE_DOWNLOAD_REQUEST | 15 => FILE_DATA
  | 16 => FILE_TRANSFER_COMPLETE | _ => Other n
  end.
End MessageType.

#[global] Instance message_type_eq : EqDecision MessageType.MessageType.
Proof. solve_decision. Defined.

Module Message.
Record Message : Set := mkMessage {
  type : MessageType.MessageType; sender : string; receiver : string; content : string; timestamp : Z }.

Definition Message_new (now : Z) : Message := mkMessage MessageType.CHAT_PUBLIC "" "" "" now.

Definition serialize (m : Message) : string :=
  to_string (MessageType.to_int (type m)) +:+ "|" +:+ sender m +:+ "|" +:+ receiver m +:+ "|" +:+ content m +:+ "|" +:+
  to_string (timestamp m).

(** The rest of the line up to the last bar is the content. *)
Definition deserialize_content (now : Z) (remaining : string) : string * Z :=
  match rsplit_at "|" remaining with
  | Some (content, text) => (content, match stoll text with inr t => t | inl _ => now end)
  | None => (remaining, now)
  end.

Definition deserialize (now : Z) (data : string) : string + Message :=
  let '(t, s) := getline "|" (Some data) in
  match match t with Some t => stoi t | None => inr 3 end with
  | inl e => inl e
  | inr n =>
      let '(from, s) := getline "|" s in
      let '(to, s) := getline "|" s in
      let '(remaining, _) := getline nl s in
      let '(content, time) := deserialize_content now (default ""%string remaining) in
      inr (mkMessage (MessageType.of_int n) (default ""%string from) (default ""%string to) content time)
  end.
End Message.

(** ** Users *)

Module UserStatus.
Inductive UserStatus : Set := OFFLINE | ONLINE | BUSY.
End UserStatus.

Module User.
Record User : Set := mkUser {
  username : string; password : string; email : string; registerTime : Z; lastLoginTime : Z;
  status : UserStatus.UserStatus; socketFd : Z }.

Section user.
Context `{Hasher}.

Definition encryptPassword (pwd : string) : string := hex_text (hash_string (pwd +:+ "salt_key_chatroom")).

Definition User_new (now : Z) (name pwd mail : string) : User :=
  mkUser name (encryptPassword pwd) mail now 0 UserStatus.OFFLINE (-1).

Definition verifyPassword (u : User) (pwd : string) : bool := String.eqb (password u) (encryptPassword pwd).

Definition setPassword (pwd : string) (u : User) : User :=
  mkUser (username u) (encryptPassword pwd) (email u) (registerTime u) (lastLoginTime u) (status u) (socketFd u).
End user.

Definition set_online (st : UserStatus.UserStatus) (fd last : Z) (u : User) : User :=
  mkUser (username u) (password u) (email u) (registerTime u) last st fd.

Definition serialize (u : User) : string :=
  username u +:+ "|" +:+ password u +:+ "|" +:+ email u +:+ "|" +:+ to_string (registerTime u) +:+ "|" +:+
  to_string (lastLoginTime u).

(** A time that is absent keeps the value of the default constructor. *)
Definition deserialize (now : Z) (data : string) : string + User :=
  let '(name, s) := getline "|" (Some data) in
  let '(pwd, s) := getline "|" s in
  let '(mail, s) := getline "|" s in
  let '(reg, s) := getline "|" s in
  match match reg with Some t => stoll t | None => inr now end with
  | inl e => inl e
  | inr reg =>
      let '(last, s) := getline "|" s in
      match match last with Some t => stoll t | None => inr 0 end with
      | inl e => inl e
      | inr last =>
          inr (mkUser (default ""%string name) (default ""%string pwd) (default ""%string mail) reg last UserStatus.OFFLINE (-1))
      end
  end.

(** [std::localtime] and [std::put_time] print a time. *)
Definition getDisplayInfo (print_time : Z -> string) (u : User) : string :=
  "用户名: " +:+ username u +:+ String nl "邮箱: " +:+ (if String.eqb (email u) "" then "未设置" else email u) +:+
  String nl "注册时间: " +:+ print_time (registerTime u) +:+ String nl "最后登录: " +:+
  (if 0 <? lastLoginTime u then print_time (lastLoginTime u) else "从未登录") +:+ String nl "状态: " +:+
  match status u with UserStatus.ONLINE => "在线" | UserStatus.OFFLINE => "离线" | UserStatus.BUSY => "忙碌" end.
End User.

(** ** Files *)

Module FileInfo.
Record FileInfo : Set := mkFileInfo {
  fileId : string; filename : string; uploader : string; fileSize : Z; uploadTime : Z; filePath : string;
  fileHash : string; isGroupFile : bool }.

(** The default constructor and the other one. *)
Definition FileInfo_empty (now : Z) : FileInfo := mkFileInfo "" "" "" 0 now "" "" false.
Definition FileInfo_new (now : Z) (id name user : string) (size : Z) (groupFile : bool) : FileInfo :=
  mkFileInfo id name user size now "" "" groupFile.

Definition set_stored (path hash : string) (f : FileInfo) : FileInfo :=
  mkFileInfo (fileId f) (filename f) (uploader f) (fileSize f) (uploadTime f) path hash (isGroupFile f).

(** [draw] is the random number of six digits. *)
Definition generateFileId (now draw : Z) : string := "FILE_" +:+ to_string now +:+ "_" +:+ to_string draw.

Definition serialize (f : FileInfo) : string :=
  fileId f +:+ "|" +:+ filename f +:+ "|" +:+ uploader f +:+ "|" +:+ to_string (fileSize f) +:+ "|" +:+
  to_string (uploadTime f) +:+ "|" +:+ filePath f +:+ "|" +:+ fileHash f +:+ "|" +:+ (if isGroupFile f then "1" else "0").

Definition deserialize (now : Z) (data : string) : string + FileInfo :=
  let '(id, s) := getline "|" (Some data) in
  let '(name, s) := getline "|" s in
  let '(user, s) := getline "|" s in
  let '(size, s) := getline "|" s in
  match match size with Some t => stoull t | None => inr 0 end with
  | inl e => inl e
  | inr size =>
      let '(time, s) := getline "|" s in
      match match time with Some t => stoll t | None => inr now end with
      | inl e => inl e
      | inr time =>
          let '(path, s) := getline "|" s in
          let '(hash, s) := getline "|" s in
          let '(group, s) := getline "|" s in
          inr (mkFileInfo (default ""%string id) (default ""%string name) (default ""%string user) size time
                 (default ""%string path) (default ""%string hash)
                 (match group with Some t => String.eqb t "1" | None => false end))
      end
  end.

(** The unit and the power of 1024 it stands for. *)
Definition size_unit (size : Z) : Z * string :=
  if size <? 1024 then (1, "B"%string) else if size <? 1024 ^ 2 then (1024, "KB"%string)
  else if size <? 1024 ^ 3 then (1024 ^ 2, "MB"%string) else (1024 ^ 3, "GB"%string).

(** Two decimals, ties to even; sizes below 2^53 are exact as [double]s. *)
Definition getFileSizeString (f : FileInfo) : string :=
  let '(u, name) := size_unit (fileSize f) in
  let q := fileSize f * 100 / u in
  let r := (fileSize f * 100) mod u in
  let h := if (u <? 2 * r) || ((2 * r =? u) && Z.odd q) then q + 1 else q in
  to_string (h / 100) +:+ "." +:+ (if h mod 100 <? 10 then "0" else "") +:+ to_string (h mod 100) +:+ " " +:+ name.
End FileInfo.

Module FileTransferSession.
Import FileInfo.
Record FileTransferSession : Set := mkTransfer {
  sessionId : string; senderId : string; receiverId : string; fileInfo : FileInfo; requestTime : Z;
  isAccepted : bool; isCompleted : bool; transferredBytes : Z }.

Definition generateSessionId (now draw : Z) : string := "SESSION_" +:+ to_string now +:+ "_" +:+ to_string draw.

Definition FileTransferSession_empty (now : Z) : FileTransferSession :=
  mkTransfer "" "" "" (FileInfo_empty now) now false false 0.
Definition FileTransferSession_new (now draw : Z) (from to : string) (info : FileInfo) : FileTransferSession :=
  mkTransfer (generateSessionId now draw) from to info now false false 0.

Definition set_info (f : FileInfo) (t : FileTransferSession) : FileTransferSession :=
  mkTransfer (sessionId t) (senderId t) (receiverId t) f (requestTime t) (isAccepted t) (isCompleted t) (transferredBytes t).
Definition set_progress (accepted completed : bool) (bytes : Z) (t : FileTransferSession) : FileTransferSession :=
  mkTransfer (sessionId t) (senderId t) (receiverId t) (fileInfo t) (requestTime t) accepted completed bytes.

Definition bit (b : bool) : string := if b then "1" else "0".
Definition serialize (t : FileTransferSession) : string :=
  sessionId t +:+ "|" +:+ senderId t +:+ "|" +:+ receiverId t +:+ "|" +:+ FileInfo.serialize (fileInfo t) +:+ "|" +:+
  to_string (requestTime t) +:+ "|" +:+ bit (isAccepted t) +:+ "|" +:+ bit (isCompleted t) +:+ "|" +:+
  to_string (transferredBytes t).

(** The next [n] fields put together again; [first] says that none has been read. *)
Fixpoint join_fields (n : nat) (first : bool) (stream : option string) (acc : string) : string * option string :=
  match n with
  | O => (acc, stream)
  | S n' =>
      let '(t, s) := getline "|" stream in
      join_fields n' false s (match t with Some t => acc +:+ (if first then "" else "|") +:+ t | None => acc end)
  end.

Definition deserialize (now : Z) (data : string) : string + FileTransferSession :=
  let '(id, s) := getline "|" (Some data) in
  let '(from, s) := getline "|" s in
  let '(to, s) := getline "|" s in
  let '(text, s) := join_fields 8 true s "" in
  match FileInfo.deserialize now text with
  | inl e => inl e
  | inr info =>
      let '(time, s) := getline "|" s in
      match match time with Some t => stoll t | None => inr now end with
      | inl e => inl e
      | inr time =>
          let '(accepted, s) := getline "|" s in
          let '(completed, s) := getline "|" s in
          let '(bytes, s) := getline "|" s in
          match match bytes with Some t => stoull t | None => inr 0 end with
          | inl e => inl e
          | inr bytes =>
              let flag t := match t with Some t => String.eqb t "1" | None => false end in
              inr (mkTransfer (default ""%string id) (default ""%string from) (default ""%string to) info time
                     (flag accepted) (flag completed) bytes)
          end
      end
  end.
End FileTransferSession.
