(* ===== verification/StdChatManagers.v ===== *)
(** * StdChatManagers: users and files of the terminal chat

    Models src/zsxq-cpp-ai/StdChatRoom: UserManager.h, UserManager.cpp, FileManager.h and
    FileManager.cpp. The two managers belong to one server and share its disk, whose calls
    are the interface [Unix]; both are parts of one state. Each method locks the mutexes of
    its manager once and in the same order, so that methods are atomic and never wait for
    themselves; the mutexes are left out. Console output is left out. The listing of a
    directory tells regular files apart by their [stat]. *)

From Stdlib Require Import Ascii String.
From S2P Require Import Prelude Text FtpProtocol StdChatData.
Import User FileInfo FileTransferSession.

Local Open Scope Z_scope.

(** The clock, random draws and the network while one message is handled. *)
Record ChatEnv : Type := mkChatEnv {
  e_now : Z;
  e_file_draw : Z;
  e_session_draw : Z;
  e_took : Z -> string -> bool;       (* send takes the whole text *)
  e_print_time : Z -> string }.

Record Chat (F : Type) : Type := mkChat {
  storage : F;
  users : gmap string User;
  onlineUsers : gmap string Z;
  groupFiles : gmap string FileInfo;
  sessions : gmap string FileTransferSession;
  delivered : list (Z * string);      (* handed to send, with the socket *)
  served : gset Z }.                  (* sockets with a thread *)
Arguments mkChat {F}. Arguments storage {F}. Arguments users {F}. Arguments onlineUsers {F}. Arguments groupFiles {F}.
Arguments sessions {F}. Arguments delivered {F}. Arguments served {F}.

Definition users_path : string := "users.dat".
Definition files_path : string := "files.dat".
Definition groupFilesDir : string := "group_files".
Definition tempFilesDir : string := "temp_files".

Definition is_trimmed (c : ascii) : bool := char_eqb c " " || char_eqb c tab || char_eqb c cr || char_eqb c nl.
Definition trim (s : string) : string := rstrip is_trimmed (lstrip is_trimmed s).

Definition later_upload (a b : FileInfo) : bool := uploadTime b <? uploadTime a.

Section managers.
Context {F : Type} `{Unix F} `{HashOrder} `{Hasher} `{StdSort _ later_upload}.
Implicit Types s : Chat F.
Abbreviation M := (cpp (Chat F)).

Definition set_storage (d : F) s : Chat F :=
  mkChat d (users s) (onlineUsers s) (groupFiles s) (sessions s) (delivered s) (served s).
Definition set_people (us : gmap string User) (online : gmap string Z) s : Chat F :=
  mkChat (storage s) us online (groupFiles s) (sessions s) (delivered s) (served s).
Definition set_group_files (fs : gmap string FileInfo) s : Chat F :=
  mkChat (storage s) (users s) (onlineUsers s) fs (sessions s) (delivered s) (served s).
Definition set_sessions (ts : gmap string FileTransferSession) s : Chat F :=
  mkChat (storage s) (users s) (onlineUsers s) (groupFiles s) ts (delivered s) (served s).

(** ** Files *)

Definition disk_act {A} (f : F -> A * F) : M A :=
  s ← get; let '(a, d) := f (storage s) in modify (set_storage d) ;; mret a.

(** A file written line by line; only opening it can fail. *)
Definition save_lines (path : string) (text : list string) : M bool :=
  ok ← disk_act (fun d => u_open d path false);
  if negb ok then mret false else
  iterM (fun l => disk_act (fun d => u_write d path (l +:+ String nl "")) ;; mret tt) text ;;
  mret true.

Definition fileExists (path : string) : M bool := s ← get; mret (bool_decide (is_Some (u_stat (storage s) path))).
Definition getFileSize (path : string) : M Z :=
  s ← get; mret (match u_stat (storage s) path with Some st => st_size st | None => 0 end).
Definition deleteFile (path : string) : M bool := disk_act (fun d => u_unlink d path).

(** The destination is opened before it is known whether the source can be read, and a
    copy of no bytes counts as failed. *)
Definition copyFile (src dest : string) : M bool :=
  s ← get;
  let readable := bool_decide (is_Some (u_read (storage s) src)) in
  opened ← disk_act (fun d => u_open d dest false);
  if negb readable then mret false else
  if negb opened then mret false else
  s ← get;
  match u_read (storage s) src with
  | None | Some EmptyString => mret false
  | Some content => disk_act (fun d => u_write d dest content)
  end.

Definition calculateFileHash (path : string) : M string :=
  s ← get; mret (match u_read (storage s) path with Some c => hex_text (hash_string c) | None => ""%string end).

(** ** Users *)

Definition users_saveToFile : M bool :=
  s ← get; save_lines users_path (User.serialize <$> (hash_order (users s)).*2).

Definition load_user (now : Z) (us : gmap string User) (line : string) : gmap string User :=
  if String.eqb line "" then us else
  match User.deserialize now (trim line) with
  | inr u => if String.eqb (username u) "" then us else <[username u := u]> us
  | inl _ => us
  end.
Definition users_loadFromFile (now : Z) : M bool :=
  s ← get;
  match u_read (storage s) users_path with
  | None => mret true
  | Some text => modify (fun s => set_people (fold_left (load_user now) (lines text) (users s)) (onlineUsers s) s) ;; mret true
  end.

Definition registerUser (e : ChatEnv) (name pwd mail : string) : M bool :=
  s ← get;
  match users s !! name with
  | Some _ => mret false
  | None =>
      modify (fun s => set_people (<[name := User_new (e_now e) name pwd mail]> (users s)) (onlineUsers s) s) ;;
      users_saveToFile ;;
      mret true
  end.

Definition loginUser (e : ChatEnv) (name pwd : string) (fd : Z) : M bool :=
  s ← get;
  match users s !! name with
  | None => mret false
  | Some u =>
      if negb (verifyPassword u pwd) then mret false else
      if bool_decide (is_Some (onlineUsers s !! name)) then mret false else
      modify (fun s => set_people (<[name := set_online UserStatus.ONLINE fd (e_now e) u]> (users s))
                         (<[name := fd]> (onlineUsers s)) s) ;;
      mret true
  end.

Definition logoutUser (name : string) : M unit :=
  modify (fun s => set_people (alter (fun u => set_online UserStatus.OFFLINE (-1) (lastLoginTime u) u) name (users s))
                     (delete name (onlineUsers s)) s).

Definition user_of_socket s (fd : Z) : string :=
  match find_first (fun kv => kv.2 =? fd) (hash_order (onlineUsers s)) with Some kv => kv.1 | None => ""%string end.

Definition logoutSocket (fd : Z) : M unit :=
  s ← get;
  let name := user_of_socket s fd in
  if String.eqb name "" then mret tt else logoutUser name.

Definition userExists (name : string) : M bool := gets (fun s => bool_decide (is_Some (users s !! name))).
Definition isUserOnline (name : string) : M bool := gets (fun s => bool_decide (is_Some (onlineUsers s !! name))).
Definition getUsernameBySocket (fd : Z) : M string := gets (fun s => user_of_socket s fd).
Definition getSocketByUsername (name : string) : M Z := gets (fun s => default (-1) (onlineUsers s !! name)).
Definition getOnlineUserList : M (list string) := gets (fun s => (hash_order (onlineUsers s)).*1).
Definition getOnlineUserCount : M Z := gets (fun s => Z.of_nat (size (onlineUsers s))).
Definition getUserInfo (e : ChatEnv) (name : string) : M User :=
  gets (fun s => default (mkUser "" "" "" (e_now e) 0 UserStatus.OFFLINE (-1)) (users s !! name)).

(** ** Files of the group *)

Definition getGroupFilePath (id : string) : string := groupFilesDir +:+ "/" +:+ id.
Definition getTempFilePath (id : string) : string := tempFilesDir +:+ "/" +:+ id.

Definition files_saveToFile : M bool :=
  s ← get; save_lines files_path ("[GROUP_FILES]"%string :: (FileInfo.serialize <$> (hash_order (groupFiles s)).*2)).

(** The flag says that the header has been read. *)
Definition load_file (now : Z) (acc : bool * gmap string FileInfo) (line : string) : bool * gmap string FileInfo :=
  let line := trim line in
  if String.eqb line "" then acc
  else if String.eqb line "[GROUP_FILES]" then (true, acc.2)
  else if acc.1 then
    match FileInfo.deserialize now line with
    | inr f => if String.eqb (fileId f) "" then acc else (true, <[fileId f := f]> acc.2)
    | inl _ => acc
    end
  else acc.
Definition files_loadFromFile (now : Z) : M bool :=
  s ← get;
  match u_read (storage s) files_path with
  | None => mret true
  | Some text => modify (fun s => set_group_files (fold_left (load_file now) (lines text) (false, groupFiles s)).2 s) ;; mret true
  end.

Definition uploadGroupFile (e : ChatEnv) (name path file : string) : M bool :=
  ok ← fileExists path;
  if negb ok then mret false else
  let id := generateFileId (e_now e) (e_file_draw e) in
  sz ← getFileSize path;
  let info := FileInfo_new (e_now e) id file name sz true in
  ok ← copyFile path (getGroupFilePath id);
  if negb ok then mret false else
  h ← calculateFileHash (getGroupFilePath id);
  modify (fun s => set_group_files (<[id := set_stored (getGroupFilePath id) h info]> (groupFiles s)) s) ;;
  files_saveToFile ;;
  mret true.

Definition downloadGroupFile (id path : string) : M bool :=
  s ← get;
  match groupFiles s !! id with None => mret false | Some f => copyFile (filePath f) path end.

Definition getGroupFileList : M (list FileInfo) := gets (fun s => std_sort later_upload (hash_order (groupFiles s)).*2).
Definition getFileInfo (e : ChatEnv) (id : string) : M FileInfo :=
  gets (fun s => default (FileInfo_empty (e_now e)) (groupFiles s !! id)).

(** ** Private transfers *)

Definition createTransferSession (e : ChatEnv) (from to path file : string) : M string :=
  ok ← fileExists path;
  if negb ok then mret ""%string else
  sz ← getFileSize path;
  let info := FileInfo_new (e_now e) (generateFileId (e_now e) (e_file_draw e)) file from sz false in
  let t := FileTransferSession_new (e_now e) (e_session_draw e) from to info in
  let temp := getTempFilePath (sessionId t) in
  ok ← copyFile path temp;
  if negb ok then mret ""%string else
  h ← calculateFileHash temp;
  modify (fun s => set_sessions (<[sessionId t := set_info (set_stored temp h info) t]> (sessions s)) s) ;;
  mret (sessionId t).

Definition acceptFileTransfer (id : string) : M bool :=
  s ← get;
  match sessions s !! id with
  | None => mret false
  | Some t => modify (fun s => set_sessions (<[id := set_progress true (isCompleted t) (transferredBytes t) t]> (sessions s)) s) ;; mret true
  end.

Definition removeSession (id : string) : M unit :=
  s ← get;
  match sessions s !! id with
  | None => mret tt
  | Some t => deleteFile (filePath (fileInfo t)) ;; modify (fun s => set_sessions (delete id (sessions s)) s)
  end.
Definition rejectFileTransfer (id : string) : M bool :=
  s ← get;
  match sessions s !! id with
  | None => mret false
  | Some t => deleteFile (filePath (fileInfo t)) ;; modify (fun s => set_sessions (delete id (sessions s)) s) ;; mret true
  end.

Definition downloadPrivateFile (id path : string) : M bool :=
  s ← get;
  match sessions s !! id with
  | None => mret false
  | Some t =>
      if negb (isAccepted t) then mret false else
      ok ← copyFile (filePath (fileInfo t)) path;
      if negb ok then mret false else
      modify (fun s => set_sessions (<[id := set_progress (isAccepted t) true (fileSize (fileInfo t)) t]> (sessions s)) s) ;;
      mret true
  end.

Definition getTransferSession (e : ChatEnv) (id : string) : M FileTransferSession :=
  gets (fun s => default (FileTransferSession_empty (e_now e)) (sessions s !! id)).
Definition getUserTransferSessions (name : string) : M (list FileTransferSession) :=
  gets (fun s => List.filter (fun t => String.eqb (senderId t) name || String.eqb (receiverId t) name) (hash_order (sessions s)).*2).
Definition isValidSession (id : string) : M bool := gets (fun s => bool_decide (is_Some (sessions s !! id))).
Definition isSessionCompleted (id : string) : M bool :=
  gets (fun s => match sessions s !! id with Some t => isCompleted t | None => false end).
Definition updateSessionProgress (id : string) (bytes : Z) : M unit :=
  modify (fun s => set_sessions (alter (fun t =>
    set_progress (isAccepted t) (isCompleted t || (fileSize (fileInfo t) <=? bytes)) bytes t) id (sessions s)) s).
Definition completeSession (id : string) : M unit :=
  modify (fun s => set_sessions (alter (fun t => set_progress (isAccepted t) true (fileSize (fileInfo t)) t) id (sessions s)) s).

(** ** Directories *)

Definition ensureDirectoryExists (path : string) : M bool :=
  s ← get;
  match u_stat (storage s) path with
  | None => disk_act (fun d => u_mkdir d path)
  | Some st => mret (negb (Z.land (st_mode st) 16384 =? 0))
  end.
Definition createDirectories : M bool :=
  a ← ensureDirectoryExists groupFilesDir; b ← ensureDirectoryExists tempFilesDir; mret (a && b).

Definition S_ISREG (mode : Z) : bool := Z.land mode 61440 =? 32768.
Definition cleanupTempFiles : M unit :=
  s ← get;
  match u_readdir (storage s) tempFilesDir with
  | None => mret tt
  | Some names =>
      iterM (fun n =>
        s ← get;
        match u_stat (storage s) (getTempFilePath n) with
        | Some st => if S_ISREG (st_mode st) then deleteFile (getTempFilePath n) ;; mret tt else mret tt
        | None => mret tt
        end) names
  end.

(** The constructors load what the destructors save. *)
Definition managers_start (now : Z) : M unit := users_loadFromFile now ;; createDirectories ;; files_loadFromFile now ;; mret tt.
Definition managers_stop : M unit := files_saveToFile ;; cleanupTempFiles ;; users_saveToFile ;; mret tt.
End managers.
