(* ===== verification/StdChatCodec.v ===== *)
(** * StdChatCodec: what the terminal chat writes, it reads back

    Messages, users, files and transfers as lines of text, contents of files as digits,
    and the files in which users and shared files are kept. *)

From Stdlib Require Import Ascii String DecimalString.
From S2P Require Import Prelude Text FtpProtocol FtpDisk StdChatData StdChatManagers.

Local Open Scope Z_scope.

(** ** Fields *)

Lemma getline_app d a b : no_char d a = true -> getline d (Some (a +:+ String d b)) = (Some a, Some b).
Proof.
  intros Ha. unfold getline. destruct (a +:+ String d b) eqn:E; [by destruct a|]. rewrite <-E, split_at_app by done. done.
Qed.

Lemma getline_last d a : no_char d a = true -> a <> ""%string -> getline d (Some a) = (Some a, None).
Proof. intros Ha Hne. unfold getline. destruct a; [done|]. by rewrite split_at_none. Qed.

Lemma rsplit_at_none c b : no_char c b = true -> rsplit_at c b = None.
Proof.
  induction b as [|x b IH]; [done|]. intros [Hx Hb]%no_char_cons. cbn. rewrite IH by done. unfold char_eqb.
  by apply Ascii.eqb_neq in Hx as ->.
Qed.

Lemma rsplit_at_app c a b : no_char c b = true -> rsplit_at c (a +:+ String c b) = Some (a, b).
Proof.
  intros Hb. induction a as [|x a IH].
  - rewrite app_empty_l. cbn. rewrite rsplit_at_none by done. unfold char_eqb. by rewrite Ascii.eqb_refl.
  - rewrite app_cons. cbn. by rewrite IH.
Qed.

Lemma bar_app (a b : string) : a +:+ "|" +:+ b = a +:+ String "|" b.
Proof. done. Qed.

(** ** Numbers *)

Lemma strto_to_string (ok : Z -> Prop) `{!forall z, Decision (ok z)} final z : ok z ->
  strto ok final (to_string z) = inr (final z).
Proof.
  intros Hz. pose proof (DecimalZ.of_to z) as E. unfold to_string, strto, signed_digits.
  destruct (Z.to_int z) as [d|d]; cbn [NilZero.string_of_int].
  - destruct (nilzero_cons d) as (c & s & Ec & Hc).
    rewrite lstrip_id by (rewrite Ec; cbn; by rewrite digit_not_space).
    rewrite Ec. destruct (digit_not_sign c Hc) as [-> ->]. rewrite <-Ec.
    rewrite span_all by apply nilzero_digits. cbn [fst]. destruct (uint_value d) as (d' & -> & Hv).
    cbn in E. by rewrite Z.mul_1_l, Hv, E, bool_decide_true.
  - cbn -[Z.mul Z.of_uint NilZero.uint_of_string span bool_decide].
    rewrite span_all by apply nilzero_digits. cbn [fst]. destruct (uint_value d) as (d' & -> & Hv).
    cbn [Z.of_int] in E. replace (-1 * Z.of_uint d')%Z with z by lia. by rewrite bool_decide_true.
Qed.

Lemma stoll_to_string z : is_long z -> stoll (to_string z) = inr z.
Proof. intros Hz. by apply strto_to_string. Qed.
Lemma stoull_to_string z : 0 <= z < 2 ^ 64 -> stoull (to_string z) = inr z.
Proof. intros Hz. unfold stoull. rewrite strto_to_string by (unfold is_size; lia). by rewrite wrap64_small. Qed.

(** ** Contents of files *)

Lemma hex_digit_value d : 0 <= d < 16 -> digit_value (hex_digit d) = Some d.
Proof.
  intros Hd. assert (Hall : forallb (fun n => match digit_value (hex_digit (Z.of_nat n)) with Some v => v =? Z.of_nat n | None => false end)
    (seq 0 16) = true) by (vm_compute; reflexivity).
  rewrite forallb_forall in Hall. specialize (Hall (Z.to_nat d)). rewrite Z2Nat.id in Hall by lia.
  destruct (digit_value (hex_digit d)) as [v|]; [|discriminate Hall; apply in_seq; lia].
  f_equal. apply Z.eqb_eq, Hall, in_seq. lia.
Qed.

Lemma hex_digit_plain d : 0 <= d < 16 -> is_space (hex_digit d) = false /\ char_eqb (hex_digit d) "-" = false /\
  char_eqb (hex_digit d) "+" = false.
Proof.
  intros Hd. assert (Hall : forallb (fun n => let c := hex_digit (Z.of_nat n) in
    negb (is_space c) && negb (char_eqb c "-") && negb (char_eqb c "+")) (seq 0 16) = true) by (vm_compute; reflexivity).
  rewrite forallb_forall in Hall. specialize (Hall (Z.to_nat d)). rewrite Z2Nat.id in Hall by lia. cbv zeta in Hall.
  rewrite !andb_true_iff, !negb_true_iff in Hall. destruct Hall as [[? ?] ?]; [apply in_seq; lia|done].
Qed.

Lemma stoi16_digits a b : 0 <= a < 16 -> 0 <= b < 16 ->
  stoi16 (String (hex_digit a) (String (hex_digit b) "")) = inr (a * 16 + b).
Proof.
  intros Ha Hb. destruct (hex_digit_plain a Ha) as (Hs & Hm & Hp). unfold stoi16, signed_digits.
  rewrite lstrip_id by (cbn; by rewrite Hs). rewrite Hm, Hp. cbn [hex_prefix]. rewrite !hex_digit_value by done.
  cbn [default from_option id]. f_equal. lia.
Qed.

Lemma decode_encode c : decodeFileContent (encodeFileContent c) = inr c.
Proof.
  induction c as [|x c IH]; [done|]. cbn [encodeFileContent decodeFileContent].
  pose proof (nat_ascii_bounded x) as Hb. set (n := Z.of_nat (nat_of_ascii x)).
  assert (0 <= n < 256) by (unfold n; lia).
  assert (0 <= n / 16 < 16) by (split; [apply Z.div_pos; lia|apply Z.div_lt_upper_bound; lia]).
  pose proof (Z.mod_pos_bound n 16). rewrite stoi16_digits by lia. rewrite IH.
  replace (n / 16 * 16 + n mod 16) with n by (pose proof (Z.div_mod n 16); lia).
  unfold wrap8, u8_max. rewrite Z.mod_small by lia. unfold n. by rewrite Nat2Z.id, ascii_nat_embedding.
Qed.

(** ** Messages *)

(** What the sender's and the receiver's name must not contain, and the content. *)
Definition message_ok (m : Message.Message) : Prop :=
  is_int (MessageType.to_int (Message.type m)) /\ no_char "|" (Message.sender m) = true /\
  no_char "|" (Message.receiver m) = true /\ no_char nl (Message.content m) = true /\ is_long (Message.timestamp m) /\
  match Message.type m with MessageType.Other n => n < 1 \/ 16 < n | _ => True end.

Lemma type_round_trip t : match t with MessageType.Other n => n < 1 \/ 16 < n | _ => True end ->
  MessageType.of_int (MessageType.to_int t) = t.
Proof.
  destruct t as [| | | | | | | | | | | | | | | |n]; try done. cbn [MessageType.to_int]. intros Hn. unfold MessageType.of_int.
  destruct n as [|p|p]; try done. do 5 (destruct p as [p|p|]; try done; try lia).
Qed.

Lemma message_parses now m : message_ok m -> Message.deserialize now (Message.serialize m) = inr m.
Proof.
  destruct m as [t from to c time]. intros (Ht & Hf & Hto & Hc & Htime & Hty).
  cbn [Message.type Message.sender Message.receiver Message.content Message.timestamp] in *.
  unfold Message.deserialize, Message.serialize. cbn [Message.type Message.sender Message.receiver Message.content Message.timestamp].
  rewrite !bar_app, getline_app by (by apply to_string_no_char). rewrite stoi_to_string by done.
  rewrite !getline_app by done.
  rewrite (getline_last nl).
  - cbn [default from_option id]. unfold Message.deserialize_content.
    rewrite rsplit_at_app by (by apply to_string_no_char). rewrite stoll_to_string by done. by rewrite type_round_trip.
  - rewrite no_char_app, Hc. cbn [andb]. apply no_char_cons. split; [done|by apply to_string_no_char].
  - by destruct c.
Qed.

(** ** Users and files *)

Definition offline (u : User.User) : User.User := User.set_online UserStatus.OFFLINE (-1) (User.lastLoginTime u) u.

Definition field (s : string) : Prop := no_char "|" s = true.

Record user_ok (u : User.User) : Prop := mkUserOk {
  uo_name : field (User.username u); uo_password : field (User.password u); uo_email : field (User.email u);
  uo_registered : is_long (User.registerTime u); uo_last : is_long (User.lastLoginTime u) }.

Lemma user_round_trip now u : user_ok u -> User.deserialize now (User.serialize u) = inr (offline u).
Proof.
  intros [Hn Hp He Hr Hl]. unfold field in *. unfold User.deserialize, User.serialize.
  rewrite !bar_app, !getline_app by (done || by apply to_string_no_char).
  rewrite getline_last by (apply to_string_nonempty || by apply to_string_no_char). by rewrite !stoll_to_string by done.
Qed.

Record file_ok (f : FileInfo.FileInfo) : Prop := mkFileOk {
  fo_id : field (FileInfo.fileId f); fo_name : field (FileInfo.filename f); fo_uploader : field (FileInfo.uploader f);
  fo_size : 0 <= FileInfo.fileSize f < 2 ^ 64; fo_time : is_long (FileInfo.uploadTime f);
  fo_path : field (FileInfo.filePath f); fo_hash : field (FileInfo.fileHash f) }.

Lemma file_round_trip now f : file_ok f -> FileInfo.deserialize now (FileInfo.serialize f) = inr f.
Proof.
  intros [Hi Hn Hu Hs Ht Hp Hh]. unfold field in *. unfold FileInfo.deserialize, FileInfo.serialize.
  rewrite !bar_app, !getline_app by (done || by apply to_string_no_char). rewrite stoull_to_string, stoll_to_string by done.
  rewrite getline_last by (by destruct (FileInfo.isGroupFile f)). by destruct f as [? ? ? ? ? ? ? []].
Qed.

Record transfer_ok (t : FileTransferSession.FileTransferSession) : Prop := mkTransferOk {
  to_id : field (FileTransferSession.sessionId t); to_from : field (FileTransferSession.senderId t);
  to_to : field (FileTransferSession.receiverId t); to_file : file_ok (FileTransferSession.fileInfo t);
  to_time : is_long (FileTransferSession.requestTime t); to_bytes : 0 <= FileTransferSession.transferredBytes t < 2 ^ 64 }.

Lemma join_serialized f rest : file_ok f ->
  FileTransferSession.join_fields 8 true (Some (FileInfo.serialize f +:+ String "|" rest)) "" = (FileInfo.serialize f, Some rest).
Proof.
  intros [Hi Hn Hu Hs Ht Hp Hh]. unfold field in *. unfold FileInfo.serialize. rewrite !bar_app, !sapp_assoc, !app_cons, !sapp_assoc,
    !app_cons, !sapp_assoc, !app_cons, !sapp_assoc, !app_cons, !sapp_assoc, !app_cons, !sapp_assoc, !app_cons, !sapp_assoc, !app_cons.
  unfold FileTransferSession.join_fields. rewrite !getline_app by (done || (by apply to_string_no_char) || by destruct (FileInfo.isGroupFile f)).
  by rewrite !sapp_assoc.
Qed.

(** A transfer is read back as it was written, the file inside it included. *)
Theorem transfer_round_trip now t : transfer_ok t -> FileTransferSession.deserialize now (FileTransferSession.serialize t) = inr t.
Proof.
  intros [Hi Hf Ht Hfi Hti Hb]. unfold field in *. unfold FileTransferSession.deserialize, FileTransferSession.serialize.
  rewrite !bar_app, !getline_app by done. rewrite join_serialized, file_round_trip by done.
  rewrite getline_app by (by apply to_string_no_char). rewrite stoll_to_string by done.
  rewrite !getline_app by (by destruct (FileTransferSession.isAccepted t), (FileTransferSession.isCompleted t)).
  rewrite getline_last by (apply to_string_nonempty || by apply to_string_no_char). rewrite stoull_to_string by done.
  by destruct t as [? ? ? ? ? [] [] ?].
Qed.

(** ** The file of users *)

Definition full_line (l : string) : string := l +:+ String nl "".

Lemma lines_concat ls : Forall (fun l => no_char nl l = true) ls -> lines (sconcat (full_line <$> ls)) = ls.
Proof.
  induction 1 as [|l ls Hl Hls IH]; [done|]. cbn [fmap list_fmap sconcat foldr]. fold (sconcat (full_line <$> ls)).
  unfold full_line at 1. rewrite sapp_assoc, app_cons, app_empty_l, lines_app by done. by rewrite IH.
Qed.

Lemma sforall_last p s : sforall (fun c => negb (p c)) s = true -> last_not p s = true.
Proof.
  induction s as [|c s IH]; [done|]. cbn. rewrite andb_true_iff. intros [Hc Hs]. destruct s; [done|]. by apply IH.
Qed.

Lemma line_trim_id s : head_not is_trimmed s = true -> last_not is_trimmed s = true -> trim s = s.
Proof. intros Hh Hl. unfold trim. rewrite lstrip_id, rstrip_id by done. done. Qed.

Lemma number_ends z : last_not is_trimmed (to_string z) = true.
Proof.
  apply sforall_last. eapply sforall_impl; [|apply sign_char_digit_text]. intros c Hc.
  destruct c as [[] [] [] [] [] [] [] []]; done.
Qed.

(** What a name and an address must be to be stored. *)
Record storable (u : User.User) : Prop := mkStorable {
  so_ok : user_ok u; so_nonempty : User.username u <> ""%string; so_head : head_not is_trimmed (User.username u) = true;
  so_name : no_char nl (User.username u) = true; so_password : no_char nl (User.password u) = true;
  so_email : no_char nl (User.email u) = true }.

Lemma storable_line u : storable u ->
  no_char nl (User.serialize u) = true /\ User.serialize u <> ""%string /\ trim (User.serialize u) = User.serialize u.
Proof.
  intros [Hok Hne Hh Hn Hp He]. unfold User.serialize. split_and!.
  - rewrite !no_char_app, Hn, Hp, He, !to_string_no_char by done. done.
  - by destruct (User.username u).
  - apply line_trim_id; [by destruct (User.username u)|].
    replace (User.username u +:+ _) with ((User.username u +:+ "|" +:+ User.password u +:+ "|" +:+ User.email u +:+ "|" +:+
      to_string (User.registerTime u) +:+ "|") +:+ to_string (User.lastLoginTime u)) by (by rewrite !sapp_assoc).
    rewrite last_not_app by apply to_string_nonempty. apply number_ends.
Qed.

Lemma load_storable now us u : storable u -> load_user now us (User.serialize u) = <[User.username u := offline u]> us.
Proof.
  intros Hs. destruct (storable_line u Hs) as (_ & Hne & Ht). unfold load_user.
  apply String.eqb_neq in Hne as ->. rewrite Ht, user_round_trip by apply Hs. cbn.
  destruct (String.eqb_spec (User.username u) "") as [E|_]; [by destruct (so_nonempty u Hs)|done].
Qed.

Lemma load_all now l us : Forall (fun kv => storable kv.2 /\ User.username kv.2 = kv.1) l -> NoDup l.*1 ->
  fold_left (load_user now) (User.serialize <$> l.*2) us = (offline <$> list_to_map l) ∪ us.
Proof.
  revert us. induction l as [|[k u] l IH]; intros us Hall Hnd.
  - cbn. by rewrite fmap_empty, (left_id_L ∅ (∪)).
  - apply Forall_cons in Hall as [[Hs Hk] Hall]. apply NoDup_cons in Hnd as [Hni Hnd]. cbn [fst snd fmap list_fmap fold_left] in *.
    rewrite load_storable, IH, Hk by done. cbn [list_to_map foldr fst snd]. rewrite fmap_insert.
    rewrite <-insert_union_r, insert_union_l; [done|]. rewrite lookup_fmap, not_elem_of_list_to_map_1 by done. done.
Qed.

Section persistence.
Context {F : Type} `{Unix F} `{HashOrder} `{Hasher} `{StdSort _ later_upload}.
Implicit Types s : Chat F.

Lemma hash_order_map {A} (m : gmap string A) : list_to_map (hash_order m) = m /\ NoDup (hash_order m).*1.
Proof.
  assert (Hnd : NoDup (hash_order m).*1) by (rewrite hash_order_perm; apply NoDup_fst_map_to_list). split; [|done].
  rewrite (list_to_map_proper _ (map_to_list m)); [apply list_to_map_to_list|done|apply hash_order_perm].
Qed.

Lemma disk_act_eq {A} (f : F -> A * F) s : disk_act f s = Ok (f (storage s)).1 (set_storage (f (storage s)).2 s).
Proof. unfold disk_act. rewrite (bind_Ok get _ s s s eq_refl). by destruct (f (storage s)). Qed.

Lemma write_lines_content W path ls s x : keeps_files W path -> W (storage s) -> regular (storage s) path ->
  u_read (storage s) path = Some x ->
  exists d, iterM (fun l => disk_act (fun d => u_write d path (l +:+ String nl "")) ;; mret tt) ls s = Ok tt (set_storage d s) /\
    W d /\ u_read d path = Some (x +:+ sconcat (full_line <$> ls)).
Proof.
  intros Hk. revert s x. induction ls as [|l ls IH]; intros s x HW Hr Hx; cbn [iterM].
  - exists (storage s). cbn. rewrite sapp_nil_r. split; [by destruct s|done].
  - destruct (k_write _ _ Hk _ (full_line l) _ HW Hr Hx) as (_ & HW' & Hr' & Hx'). unfold full_line in HW', Hr', Hx'.
    destruct (IH (set_storage (u_write (storage s) path (l +:+ String nl "")).2 s) _ HW' Hr' Hx') as (d & E & HWd & Hd). exists d.
    rewrite bind_assoc, (bind_Ok _ _ _ _ _ (disk_act_eq _ s)), bind_ret_l, E. split; [done|]. split; [done|]. rewrite Hd. cbn [fmap list_fmap sconcat foldr]. unfold full_line at 2. by rewrite !sapp_assoc.
Qed.

Lemma save_lines_content W path ls s : keeps_files W path -> W (storage s) ->
  exists d, save_lines path ls s = Ok true (set_storage d s) /\ W d /\ u_read d path = Some (sconcat (full_line <$> ls)).
Proof.
  intros Hk HW. unfold save_lines. destruct (k_open _ _ Hk _ false HW) as (Eo & HW1 & Hr & Hx).
  rewrite (bind_Ok _ _ _ _ _ (disk_act_eq _ s)), Eo. cbn [negb]. set (s1 := set_storage _ s).
  destruct (write_lines_content W path ls s1 "" Hk HW1 Hr Hx) as (d & E & HWd & Hd).
  rewrite (bind_Ok _ _ _ _ _ E). by exists d.
Qed.

(** Users survive a restart. What is saved is read back by a server that starts on the
    same disk: the same users with the same passwords and times, all of them logged out,
    provided that names and addresses have no separator and no line end. *)
Theorem users_persist (W : F -> Prop) s now : keeps_files W users_path -> W (storage s) ->
  (forall k u, users s !! k = Some u -> storable u /\ User.username u = k) ->
  exists s', users_saveToFile s = Ok true s' /\ users s' = users s /\
    forall s0, storage s0 = storage s' -> users s0 = ∅ ->
      exists s1, users_loadFromFile now s0 = Ok true s1 /\ users s1 = offline <$> users s.
Proof.
  intros Hk HW Hus. unfold users_saveToFile. rewrite (bind_Ok get _ s s s eq_refl).
  set (l := hash_order (users s)). destruct (hash_order_map (users s)) as [Hm Hnd]. fold l in Hm, Hnd.
  assert (Hall : Forall (fun kv => storable kv.2 /\ User.username kv.2 = kv.1) l).
  { apply Forall_forall. intros [k u] Hin. cbn. apply Hus. rewrite <-Hm. by apply elem_of_list_to_map_1. }
  destruct (save_lines_content W users_path (User.serialize <$> l.*2) s Hk HW) as (d & E & _ & Hd).
  exists (set_storage d s). split; [done|]. split; [done|]. intros s0 Es Eu. unfold users_loadFromFile.
  rewrite (bind_Ok get _ s0 s0 s0 eq_refl), Es. cbn [storage set_storage]. rewrite Hd. eexists. split; [reflexivity|]. cbn.
  assert (Hnl : Forall (fun l => no_char nl l = true) (User.serialize <$> l.*2)).
  { apply Forall_fmap, Forall_fmap. eapply Forall_impl; [exact Hall|]. intros kv [Hs _]. by apply storable_line. }
  rewrite lines_concat, load_all, Eu, Hm by done. by rewrite (right_id_L ∅ (∪)).
Qed.

(** An address with a line end in it writes a second line: after a restart there is an
    account that nobody has registered. *)
Theorem line_end_forges_account (W : F -> Prop) s now u mail victim : keeps_files W users_path -> W (storage s) ->
  users s = {[User.username u := u]} -> User.email u = mail +:+ String nl victim ->
  no_char nl (User.username u) = true -> no_char nl (User.password u) = true -> no_char nl mail = true ->
  field victim -> no_char nl victim = true -> victim <> ""%string -> head_not is_trimmed victim = true ->
  exists s', users_saveToFile s = Ok true s' /\
    forall s0, storage s0 = storage s' -> users s0 = ∅ ->
      exists s1, users_loadFromFile now s0 = Ok true s1 /\
        users s1 !! victim = Some (User.mkUser victim (to_string (User.registerTime u)) (to_string (User.lastLoginTime u)) now 0
                                     UserStatus.OFFLINE (-1)).
Proof.
  intros Hk HW Hus Hmail Hn Hp Hnm Hfv Hnv Hvne Hhv. unfold users_saveToFile.
  rewrite (bind_Ok get _ s s s eq_refl).
  assert (El : hash_order (users s) = [(User.username u, u)]).
  { apply Permutation_singleton_r. rewrite hash_order_perm, Hus. by rewrite map_to_list_singleton. }
  rewrite El. cbn [fmap list_fmap snd].
  destruct (save_lines_content W users_path [User.serialize u] s Hk HW) as (d & E & _ & Hd).
  exists (set_storage d s). split; [done|]. intros s0 Es Eu. unfold users_loadFromFile.
  rewrite (bind_Ok get _ s0 s0 s0 eq_refl), Es. cbn [storage set_storage]. rewrite Hd. eexists. split; [reflexivity|]. cbn [users set_people].
  set (line1 := User.username u +:+ "|" +:+ User.password u +:+ "|" +:+ mail).
  set (line2 := victim +:+ "|" +:+ to_string (User.registerTime u) +:+ "|" +:+ to_string (User.lastLoginTime u)).
  assert (Et : sconcat (full_line <$> [User.serialize u]) = sconcat (full_line <$> [line1; line2])).
  { unfold User.serialize, line1, line2, full_line. rewrite Hmail. cbn [fmap list_fmap sconcat foldr].
    by repeat (rewrite sapp_assoc || rewrite app_cons). }
  rewrite Et, lines_concat.
  2:{ repeat constructor; [unfold line1|unfold line2]; rewrite !no_char_app, ?Hn, ?Hp, ?Hnm, ?Hnv, ?to_string_no_char by done; done. }
  cbn [fold_left]. set (us := load_user _ _ line1). unfold load_user.
  destruct (String.eqb_spec line2 "") as [E2|_]; [by destruct victim|].
  rewrite line_trim_id; [|by destruct victim|].
  2:{ unfold line2. replace (victim +:+ _) with ((victim +:+ "|" +:+ to_string (User.registerTime u) +:+ "|") +:+
        to_string (User.lastLoginTime u)) by (by rewrite !sapp_assoc).
      rewrite last_not_app by apply to_string_nonempty. apply number_ends. }
  unfold User.deserialize, line2. rewrite !bar_app, !getline_app by (done || by apply to_string_no_char).
  rewrite getline_last by (apply to_string_nonempty || by apply to_string_no_char). cbn.
  destruct (String.eqb_spec victim "") as [|_]; [done|]. apply lookup_insert_eq.
Qed.
End persistence.

(** ** A concrete environment *)

(** The length is a hash. *)
Definition length_hasher : Hasher.
Proof. refine {| hash_string s := Z.of_nat (String.length s) mod 2 ^ 64 |}. intros s. by apply Z.mod_pos_bound. Defined.

Definition upload_sort : StdSort later_upload.
Proof. apply merge_sort_std_sort; unfold later_upload; intros; rewrite ?Z.ltb_lt, ?Z.ltb_ge in *; lia. Defined.

#[local] Existing Instance list_hash_order.
#[local] Existing Instance length_hasher.
#[local] Existing Instance upload_sort.

(** Two users, of whom one is online. *)
Definition ann : User.User := User.User_new 1700000000 "ann" "secret" "ann@example.org".
Definition bob : User.User := User.set_online UserStatus.ONLINE 9 1700000500 (User.User_new 1700000100 "bob" "pw" "").
Definition two_users : Chat disk :=
  mkChat ∅ {["ann"%string := ann; "bob"%string := bob]} {["bob"%string := 9]} ∅ ∅ [] {[9]}.

Lemma users_persist_witness : exists s1 s2, users_saveToFile two_users = Ok true s1 /\
  users_loadFromFile 0 (mkChat (storage s1) ∅ ∅ ∅ ∅ [] ∅) = Ok true s2 /\
  users s2 !! "bob"%string = Some (offline bob).
Proof.
  destruct (users_persist (fun d : disk => d !! users_path <> Some Directory) two_users 0) as (s1 & E1 & _ & Hload).
  - exact (disk_keeps users_path).
  - vm_compute. discriminate.
  - intros k u. cbn [users two_users]. rewrite lookup_insert_Some, lookup_singleton_Some.
    intros [[<- <-]|[_ [<- <-]]]; (split; [|reflexivity]); (split; [split|..]); try reflexivity; try (vm_compute; discriminate);
      vm_compute; split; discriminate || reflexivity.
  - destruct (Hload (mkChat (storage s1) ∅ ∅ ∅ ∅ [] ∅) eq_refl eq_refl) as (s2 & E2 & Hu).
    exists s1, s2. split; [exact E1|]. split; [exact E2|]. exact (eq_trans (f_equal (lookup "bob"%string) Hu) ltac:(vm_compute; reflexivity)).
Defined.
