(* ===== verification/StdChatServer.v ===== *)
(** * StdChatServer: the server of the terminal chat

    Models src/zsxq-cpp-ai/StdChatRoom: ChatServer.h and ChatServer.cpp: one definition per
    handler, the thread of a client message by message, and sequences of events of all
    clients, each handled as a whole. What arrives for [recv] is an event; the listening
    socket and the log are left out. *)

From Stdlib Require Import Ascii String.
From S2P Require Import Prelude Text FtpProtocol StdChatData StdChatManagers.
Import Message FileInfo FileTransferSession.

Local Open Scope Z_scope.

Section server.
Context {F : Type} `{Unix F} `{HashOrder} `{Hasher} `{StdSort _ later_upload}.
Implicit Types s : Chat F.
Abbreviation M := (cpp (Chat F)).

Definition set_delivered (out : list (Z * string)) (open : gset Z) s : Chat F :=
  mkChat (storage s) (users s) (onlineUsers s) (groupFiles s) (sessions s) out open.

(** ** Sending *)

Definition sendMessage (e : ChatEnv) (fd : Z) (m : Message) : M bool :=
  let data := Message.serialize m +:+ String nl "" in
  modify (fun s => set_delivered (delivered s ++ [(fd, data)]) (served s) s) ;; mret (e_took e fd data).

Definition sendResponse (e : ChatEnv) (fd : Z) (text : string) : M unit :=
  sendMessage e fd (mkMessage MessageType.RESPONSE "服务器" "" text (e_now e)) ;; mret tt.

Definition broadcastMessage (e : ChatEnv) (m : Message) (excludeUser : string) : M unit :=
  names ← getOnlineUserList;
  iterM (fun name =>
    if String.eqb name excludeUser then mret tt else
    fd ← getSocketByUsername name;
    if fd =? -1 then mret tt else sendMessage e fd m ;; mret tt) names.

Definition notification (e : ChatEnv) (text : string) : Message := mkMessage MessageType.RESPONSE "系统" "" text (e_now e).

(** ** Handlers *)

Definition handleLogin (e : ChatEnv) (msg : Message) (fd : Z) : M unit :=
  let name := sender msg in
  success ← loginUser e name (content msg) fd;
  if success : bool then
    sendResponse e fd "登录成功" ;;
    broadcastMessage e (notification e (name +:+ " 上线了")) name
  else
    exists_ ← userExists name;
    online ← isUserOnline name;
    sendResponse e fd (if negb exists_ then "用户不存在" else if online : bool then "用户已在线" else "密码错误").

Definition handleRegister (e : ChatEnv) (msg : Message) (fd : Z) : M unit :=
  success ← registerUser e (sender msg) (content msg) (receiver msg);
  sendResponse e fd (if success : bool then "注册成功" else "注册失败，用户名已存在").

(** The name under which the socket is logged in, which most handlers start with. *)
Definition with_user (e : ChatEnv) (fd : Z) (act : string -> M unit) : M unit :=
  name ← getUsernameBySocket fd;
  if String.eqb name "" then sendResponse e fd "请先登录" else act name.

Definition handlePublicChat (e : ChatEnv) (msg : Message) (fd : Z) : M unit :=
  with_user e fd (fun name =>
    broadcastMessage e (mkMessage MessageType.CHAT_PUBLIC name "" (content msg) (e_now e)) "").

Definition handlePrivateChat (e : ChatEnv) (msg : Message) (fd : Z) : M unit :=
  with_user e fd (fun name =>
    online ← isUserOnline (receiver msg);
    if negb online then sendResponse e fd ("用户 " +:+ receiver msg +:+ " 不在线") else
    to ← getSocketByUsername (receiver msg);
    if to =? -1 then sendResponse e fd "发送失败" else
    ok ← sendMessage e to (mkMessage MessageType.CHAT_PRIVATE name (receiver msg) (content msg) (e_now e));
    if ok : bool then sendResponse e fd ("私聊消息已发送给 " +:+ receiver msg) else sendResponse e fd "发送失败").

Definition handleLogout (e : ChatEnv) (fd : Z) : M unit :=
  name ← getUsernameBySocket fd;
  if String.eqb name "" then mret tt else
  logoutUser name ;;
  broadcastMessage e (notification e (name +:+ " 下线了")) name.

(** The two characters that the source writes for a line end. *)
Definition slash_n : string := "\n".

Definition handleUserListRequest (e : ChatEnv) (fd : Z) : M unit :=
  names ← getOnlineUserList;
  sendResponse e fd ("在线用户 (" +:+ to_string (Z.of_nat (length names)) +:+ "人):" +:+ slash_n +:+
    foldr (fun n t => "- " +:+ n +:+ slash_n +:+ t) ""%string names).

Definition handleFileTransferRequest (e : ChatEnv) (msg : Message) (fd : Z) : M unit :=
  with_user e fd (fun name =>
    match split_at "|" (content msg) with
    | None => sendResponse e fd ("文件传输请求格式错误，content: [" +:+ content msg +:+ "]")
    | Some (file, path) =>
        online ← isUserOnline (receiver msg);
        if negb online then sendResponse e fd ("用户 " +:+ receiver msg +:+ " 不在线") else
        to ← getSocketByUsername (receiver msg);
        if to =? -1 then sendResponse e fd "发送失败" else
        id ← createTransferSession e name (receiver msg) path file;
        if String.eqb id "" then sendResponse e fd "创建文件传输会话失败" else
        ok ← sendMessage e to (mkMessage MessageType.FILE_TRANSFER_REQUEST name id file (e_now e));
        if ok : bool then sendResponse e fd ("文件传输请求已发送给 " +:+ receiver msg) else sendResponse e fd "发送失败"
    end).

(** The message that carries a file. *)
Definition file_data (e : ChatEnv) (to file content : string) : Message :=
  mkMessage MessageType.FILE_DATA "server" to
    (file +:+ "#" +:+ to_string (Z.of_nat (String.length content)) +:+ "#" +:+ encodeFileContent content) (e_now e).

Definition send_transfer (e : ChatEnv) (fd : Z) (name id : string) : M unit :=
  t ← getTransferSession e id;
  if negb (isAccepted t && negb (String.eqb (fileId (fileInfo t)) "")) then mret tt else
  s ← get;
  match u_read (storage s) (filePath (fileInfo t)) with
  | Some c => sendMessage e fd (file_data e name (filename (fileInfo t)) c) ;; mret tt
  | None => sendResponse e fd "文件读取失败"
  end.

Definition handleFileTransferResponse (e : ChatEnv) (msg : Message) (fd : Z) : M unit :=
  with_user e fd (fun name =>
    let from := receiver msg in
    let id := content msg in
    online ← isUserOnline from;
    if negb online then sendResponse e fd "原发送者已离线" else
    to ← getSocketByUsername from;
    if to =? -1 then sendResponse e fd "响应发送失败" else
    match type msg with
    | MessageType.FILE_TRANSFER_ACCEPT =>
        ok ← acceptFileTransfer id;
        if negb ok then sendResponse e fd "接受文件传输失败" else
        sendMessage e to (mkMessage MessageType.FILE_TRANSFER_ACCEPT name from id (e_now e)) ;;
        send_transfer e fd name id ;;
        sendResponse e fd "已接受文件传输"
    | MessageType.FILE_TRANSFER_REJECT =>
        ok ← rejectFileTransfer id;
        if negb ok then sendResponse e fd "拒绝文件传输失败" else
        sendMessage e to (mkMessage MessageType.FILE_TRANSFER_REJECT name from id (e_now e)) ;;
        sendResponse e fd "已拒绝文件传输"
    | _ => mret tt
    end).

(** [filename#size#content]; numbers that cannot be read are exceptions. *)
Definition handleGroupFileUpload (e : ChatEnv) (msg : Message) (fd : Z) : M unit :=
  with_user e fd (fun name =>
    match split_at "#" (content msg) with
    | None => sendResponse e fd "文件上传数据格式错误"
    | Some (file, rest) =>
        match split_at "#" rest with
        | None => sendResponse e fd "文件上传数据格式错误"
        | Some (sizeStr, encoded) =>
            match decodeFileContent encoded, stoull sizeStr with
            | inl err, _ => throw err
            | _, inl err => throw err
            | inr c, inr expected =>
                if negb (Z.of_nat (String.length c) =? expected) then sendResponse e fd "文件大小不匹配，上传失败" else
                let temp := "./temp_files/upload_" +:+ file in
                ok ← disk_act (fun d => u_open d temp false);
                if negb ok then sendResponse e fd "无法创建临时文件" else
                ok ← disk_act (fun d => u_write d temp c);
                if negb ok then sendResponse e fd "文件保存失败" else
                ok ← uploadGroupFile e name temp file;
                if ok : bool then
                  sendResponse e fd ("群文件上传成功: " +:+ file) ;;
                  broadcastMessage e (notification e (name +:+ " 上传了群文件: " +:+ file)) name ;;
                  deleteFile temp ;; mret tt
                else sendResponse e fd "群文件上传失败" ;; deleteFile temp ;; mret tt
            end
        end
    end).

(** One entry of the list of files, numbered from 1; [last] has no line after it. *)
Definition file_entry (e : ChatEnv) (i : nat) (last : bool) (f : FileInfo) : string :=
  "[" +:+ to_string (Z.of_nat i) +:+ "] " +:+ filename f +:+ slash_n +:+
  "    大小: " +:+ getFileSizeString f +:+ slash_n +:+
  "    上传者: " +:+ uploader f +:+ slash_n +:+
  "    上传时间: " +:+ e_print_time e (uploadTime f) +:+ slash_n +:+
  "    文件ID: " +:+ fileId f +:+ slash_n +:+
  (if last then "" else "----------------------------------------" +:+ slash_n).
Fixpoint file_entries (e : ChatEnv) (i : nat) (fs : list FileInfo) : string :=
  match fs with
  | [] => ""%string
  | f :: rest => file_entry e i (match rest with [] => true | _ => false end) f +:+ file_entries e (S i) rest
  end.

Definition handleFileListRequest (e : ChatEnv) (fd : Z) : M unit :=
  with_user e fd (fun _ =>
    fs ← getGroupFileList;
    sendResponse e fd ("群文件列表 (" +:+ to_string (Z.of_nat (length fs)) +:+ "个文件):" +:+ slash_n +:+
      match fs with
      | [] => "暂无群文件" +:+ slash_n +:+ "提示: 使用 /upload <本地文件路径> [文件名] 命令上传文件到群"
      | _ => "========================================" +:+ slash_n +:+ file_entries e 1 fs +:+
             "========================================" +:+ slash_n +:+ "使用 /download <文件ID> <本地保存路径> 下载文件"
      end)).

Definition handleFileDownloadRequest (e : ChatEnv) (msg : Message) (fd : Z) : M unit :=
  with_user e fd (fun name =>
    f ← getFileInfo e (content msg);
    if String.eqb (fileId f) "" then sendResponse e fd ("文件不存在: " +:+ content msg) else
    s ← get;
    match u_read (storage s) (filePath f) with
    | None => sendResponse e fd ("无法读取文件: " +:+ filename f)
    | Some c =>
        ok ← sendMessage e fd (file_data e name (filename f) c);
        if ok : bool then sendResponse e fd ("文件下载成功: " +:+ filename f) else sendResponse e fd "文件发送失败"
    end).

Definition handleMessage (e : ChatEnv) (msg : Message) (fd : Z) : M unit :=
  match type msg with
  | MessageType.LOGIN => handleLogin e msg fd
  | MessageType.REGISTER => handleRegister e msg fd
  | MessageType.CHAT_PUBLIC => handlePublicChat e msg fd
  | MessageType.CHAT_PRIVATE => handlePrivateChat e msg fd
  | MessageType.LOGOUT => handleLogout e fd
  | MessageType.USER_LIST => handleUserListRequest e fd
  | MessageType.FILE_TRANSFER_REQUEST => handleFileTransferRequest e msg fd
  | MessageType.FILE_TRANSFER_ACCEPT | MessageType.FILE_TRANSFER_REJECT => handleFileTransferResponse e msg fd
  | MessageType.FILE_UPLOAD_GROUP => handleGroupFileUpload e msg fd
  | MessageType.FILE_LIST_REQUEST => handleFileListRequest e fd
  | MessageType.FILE_DOWNLOAD_REQUEST => handleFileDownloadRequest e msg fd
  | _ => mret tt
  end.

(** ** A client's thread *)

(** [arrived] is what has come from the client; "" is a closed connection or an error. One
    call of [recv] takes at most as much as fits into the buffer, and what it took is one
    message, without the line end. *)
Definition recv_size : nat := 4095.
Definition receiveMessage (e : ChatEnv) (arrived : string) : Message :=
  let received := substring 0 recv_size arrived in
  if String.eqb received "" then Message_new (e_now e) else
  let data := match rsplit_at nl received with Some (a, EmptyString) => a | _ => received end in
  match Message.deserialize (e_now e) data with inr m => m | inl _ => Message_new (e_now e) end.

Definition cleanupClient (fd : Z) : M unit :=
  logoutSocket fd ;; modify (fun s => set_delivered (delivered s) (served s ∖ {[fd]}) s).

(** One turn of the loop; an exception ends it. *)
Definition client_turn (e : ChatEnv) (fd : Z) (arrived : string) : M unit :=
  let msg := receiveMessage e arrived in
  if bool_decide (type msg = MessageType.LOGOUT) || String.eqb (sender msg) "" then cleanupClient fd else
  fun s => match handleMessage e msg fd s with
           | Throw _ s' => cleanupClient fd s'
           | r => r
           end.

(** A client connects, or something arrives from one that is connected; what [recv] does
    not take arrives again with the next event. *)
Inductive ChatEvent : Set := Connect (fd : Z) | Receive (fd : Z) (arrived : string).

Definition chat_event (ev : ChatEvent * ChatEnv) : M unit :=
  match ev.1 with
  | Connect fd => modify (fun s => set_delivered (delivered s) ({[fd]} ∪ served s) s)
  | Receive fd arrived => s ← get; if bool_decide (fd ∈ served s) then client_turn ev.2 fd arrived else mret tt
  end.

Definition chat_run (events : list (ChatEvent * ChatEnv)) : M unit := iterM chat_event events.

(** The server when its managers have been constructed. *)
Definition Chat_new (d : F) : Chat F := mkChat d ∅ ∅ ∅ ∅ [] ∅.
End server.
