(* ===== verification/StdChatProps.v ===== *)
(** * StdChatProps: what the server of the terminal chat guarantees

    An invariant over all events of all clients; who gets which message; files; and what
    clients can do to each other. *)

From Stdlib Require Import Ascii String.
From S2P Require Import Prelude Text FtpProtocol FtpDisk StdChatData StdChatManagers StdChatCodec StdChatServer.
Import Message FileInfo FileTransferSession.

Local Open Scope Z_scope.

Section props.
Context {F : Type} {HU : Unix F} {HO : HashOrder} {HH : Hasher} {HS : StdSort later_upload}.
Implicit Types s : Chat F.

(** ** The invariant *)

(** The socket under which a user is online, according to the user's own record. *)
Definition online_fd (u : User.User) : option Z :=
  match User.status u with UserStatus.ONLINE => Some (User.socketFd u) | _ => None end.

Record chat_ok s : Prop := mkChatOk {
  co_users k u : users s !! k = Some u -> User.username u = k;
  co_online k : onlineUsers s !! k = (users s !! k) ≫= online_fd;
  co_files id f : groupFiles s !! id = Some f -> fileId f = id /\ id <> ""%string;
  co_sessions id t : sessions s !! id = Some t -> sessionId t = id /\ filePath (fileInfo t) = getTempFilePath id }.

(** What belongs to the account and not to the session. *)
Definition account (u : User.User) : string * string * string * Z :=
  (User.username u, User.password u, User.email u, User.registerTime u).

(** From one state to a later one: the invariant is kept, accounts stay what they are, and
    nothing that has been sent is taken back. *)
Record chat_step s s' : Prop := mkChatStep {
  st_ok : chat_ok s -> chat_ok s';
  st_accounts k u : users s !! k = Some u -> exists u', users s' !! k = Some u' /\ account u' = account u;
  st_delivered : exists l, delivered s' = delivered s ++ l }.

#[global] Instance chat_step_refl : Reflexive chat_step.
Proof. intros s. split; [done|naive_solver|]. exists []. by rewrite app_nil_r. Qed.
#[global] Instance chat_step_trans : Transitive chat_step.
Proof.
  intros s1 s2 s3 [H1 H2 (l & H3)] [G1 G2 (l' & G3)]. split; [tauto| |].
  - intros k u Hk. destruct (H2 k u Hk) as (u' & Hk' & E). destruct (G2 k u' Hk') as (u'' & Hk'' & E'). exists u''. split; [done|congruence].
  - exists (l ++ l'). by rewrite G3, H3, app_assoc.
Qed.

(** Computations that always return, with a step. *)
Definition safe {A} (m : cpp (Chat F) A) : Prop := forall s, returns m s (fun _ s' => chat_step s s').

Lemma safe_ret {A} (a : A) : safe (mret a).
Proof. intros s. by apply returns_ret. Qed.
Lemma safe_gets {A} (f : Chat F -> A) : safe (gets f).
Proof. intros s. by apply returns_gets. Qed.
Lemma safe_get : safe get.
Proof. intros s. by exists s, s. Qed.
Lemma safe_bind {A B} (m : cpp (Chat F) A) (k : A -> cpp (Chat F) B) : safe m -> (forall a, safe (k a)) -> safe (m ≫= k).
Proof.
  intros Hm Hk s. apply returns_bind. eapply returns_mono; [apply Hm|]. intros a s1 H1.
  eapply returns_mono; [apply Hk|]. intros b s2 H2. etrans; [exact H1|exact H2].
Qed.
Lemma safe_iterM {A} (body : A -> cpp (Chat F) unit) l : (forall x, safe (body x)) -> safe (iterM body l).
Proof. intros Hb. induction l as [|x l IH]; cbn [iterM]; [apply safe_ret|by apply safe_bind]. Qed.

(** A change of everything but the people, the files and the transfers. *)
Lemma safe_modify f : (forall s, users (f s) = users s /\ onlineUsers (f s) = onlineUsers s /\ groupFiles (f s) = groupFiles s /\
  sessions (f s) = sessions s /\ exists l, delivered (f s) = delivered s ++ l) -> safe (modify f).
Proof.
  intros Hf s. apply returns_modify. destruct (Hf s) as (E1 & E2 & E3 & E4 & E5). split; [|rewrite E1; eauto|done].
  intros [H1 H2 H3 H4]. split; rewrite ?E1, ?E2, ?E3, ?E4; done.
Qed.

Lemma safe_disk_act {A} (f : F -> A * F) : safe (disk_act f).
Proof.
  intros s. unfold disk_act. apply returns_bind. exists s, s. split; [done|]. destruct (f (storage s)) as [a d].
  apply returns_bind, returns_modify, returns_ret. split; [|eauto|by exists []; rewrite app_nil_r]. intros [H1 H2 H3 H4]. by split.
Qed.
End props.

Create HintDb chat.
#[export] Hint Resolve safe_ret safe_gets safe_get safe_disk_act : chat.

(** One step through a computation that is to be safe. *)
Ltac chat_safe :=
  repeat match goal with
  | |- safe (let '(_, _) := ?p in _) => destruct p
  | |- safe (match ?x with _ => _ end) => destruct x
  | |- safe (if ?b then _ else _) => destruct b
  | |- safe (mbind _ _) => apply safe_bind; [|intros ?]
  | |- safe (iterM _ _) => apply safe_iterM; intros ?
  | |- safe (mret _) => apply safe_ret
  | |- safe _ => solve [eauto 2 with chat]
  end.

Section props2.
Context {F : Type} {HU : Unix F} {HO : HashOrder} {HH : Hasher} {HS : StdSort later_upload}.
Implicit Types s : Chat F.

(** ** The managers *)

Lemma safe_save_lines path ls : safe (save_lines path ls).
Proof. unfold save_lines. chat_safe. Qed.
Lemma safe_deleteFile path : safe (deleteFile path).
Proof. apply safe_disk_act. Qed.
Lemma safe_copyFile a b : safe (copyFile a b).
Proof. unfold copyFile. chat_safe. Qed.
Lemma safe_saves : safe users_saveToFile /\ safe files_saveToFile.
Proof. split; [unfold users_saveToFile|unfold files_saveToFile]; apply safe_bind; [apply safe_get| |apply safe_get|]; intros ?; apply safe_save_lines. Qed.

Lemma safe_register e name pwd mail : safe (registerUser e name pwd mail).
Proof.
  intros s. unfold registerUser. apply returns_bind. exists s, s. split; [done|]. destruct (users s !! name) as [u|] eqn:Eu; [by apply returns_ret|].
  apply returns_bind, returns_modify. set (s1 := set_people _ _ s).
  assert (Hs1 : chat_step s s1).
  { split; [|intros k u Hk; exists u; split; [cbn; by rewrite lookup_insert_ne by congruence|done]|exists []; by rewrite app_nil_r].
    intros [H1 H2 H3 H4]. split; cbn; [..|done|done].
    - intros k u. destruct (decide (name = k)) as [->|Hne]; [rewrite lookup_insert_eq; by intros [= <-]|rewrite lookup_insert_ne by done; apply H1].
    - intros k. destruct (decide (name = k)) as [->|Hne]; [|by rewrite lookup_insert_ne].
      rewrite lookup_insert_eq, H2, Eu. done. }
  eapply (returns_mono _ _ (fun _ s' => chat_step s1 s')); [|intros a s' H'; by etrans].
  apply safe_bind; [apply safe_saves|intros ?; apply safe_ret].
Qed.

Lemma safe_login e name pwd fd : safe (F:=F) (loginUser e name pwd fd).
Proof.
  intros s. unfold loginUser. apply returns_bind. exists s, s. split; [done|]. destruct (users s !! name) as [u|] eqn:Eu; [|by apply returns_ret].
  destruct (negb _); [by apply returns_ret|]. destruct (bool_decide _); [by apply returns_ret|].
  apply returns_bind, returns_modify, returns_ret. split; [| |exists []; by rewrite app_nil_r].
  - intros [H1 H2 H3 H4]. split; cbn; [..|done|done].
    + intros k v. destruct (decide (name = k)) as [->|Hne]; [rewrite lookup_insert_eq; intros [= <-]; exact (H1 _ _ Eu)|].
      rewrite lookup_insert_ne by done. apply H1.
    + intros k. destruct (decide (name = k)) as [->|Hne]; [by rewrite !lookup_insert_eq|]. rewrite !lookup_insert_ne by done. apply H2.
  - intros k v Hk. cbn. destruct (decide (name = k)) as [->|Hne]; [rewrite lookup_insert_eq|rewrite lookup_insert_ne by done; eauto].
    eexists. split; [done|]. by rewrite Eu in Hk; injection Hk as ->.
Qed.

Lemma safe_logout name : safe (F:=F) (logoutUser name).
Proof.
  intros s. apply returns_modify. split; [| |exists []; by rewrite app_nil_r].
  - intros [H1 H2 H3 H4]. split; cbn; [..|done|done].
    + intros k v. destruct (decide (name = k)) as [->|Hne]; [|rewrite lookup_alter_ne by done; apply H1].
      rewrite lookup_alter_eq. destruct (users s !! k) as [u|] eqn:Eu; [|done]. intros [= <-]. exact (H1 _ _ Eu).
    + intros k. destruct (decide (name = k)) as [->|Hne]; [|rewrite lookup_delete_ne, lookup_alter_ne by done; apply H2].
      rewrite lookup_delete_eq, lookup_alter_eq. by destruct (users s !! k).
  - intros k v Hk. cbn. destruct (decide (name = k)) as [->|Hne]; [rewrite lookup_alter_eq, Hk; by eexists|].
    rewrite lookup_alter_ne by done. eauto.
Qed.

Lemma safe_logout_socket fd : safe (F:=F) (logoutSocket fd).
Proof. unfold logoutSocket. apply safe_bind; [apply safe_get|]. intros s. cbv zeta. chat_safe. apply safe_logout. Qed.

(** Changes of the files and of the transfers. *)
Lemma step_files s id f : fileId f = id -> id <> ""%string -> chat_step s (set_group_files (<[id := f]> (groupFiles s)) s).
Proof.
  intros Hf Hne. split; [|eauto|exists []; by rewrite app_nil_r]. intros [H1 H2 H3 H4]. split; cbn; [done|done| |done].
  intros k g. destruct (decide (id = k)) as [->|Hk]; [rewrite lookup_insert_eq; by intros [= <-]|rewrite lookup_insert_ne by done; apply H3].
Qed.
Lemma step_sessions s ts : (forall id t, ts !! id = Some t -> (exists t', sessions s !! id = Some t' /\ sessionId t = sessionId t' /\ fileInfo t = fileInfo t') \/
  sessionId t = id /\ filePath (fileInfo t) = getTempFilePath id) -> chat_step s (set_sessions ts s).
Proof.
  intros Ht. split; [|eauto|exists []; by rewrite app_nil_r]. intros [H1 H2 H3 H4]. split; cbn; [done|done|done|].
  intros id t Hid. destruct (Ht id t Hid) as [(t' & Ht' & -> & ->)|?]; [by apply H4|done].
Qed.

Lemma safe_upload e name path file : safe (uploadGroupFile e name path file).
Proof.
  unfold uploadGroupFile, fileExists, getFileSize, calculateFileHash. chat_safe; try apply safe_copyFile; try apply safe_saves.
  intros s. apply returns_modify. by apply step_files.
Qed.

Lemma safe_create e from to path file : safe (createTransferSession e from to path file).
Proof.
  unfold createTransferSession, fileExists, getFileSize, calculateFileHash. cbv zeta. chat_safe; try apply safe_copyFile.
  intros s. apply returns_modify, step_sessions. intros id t. destruct (decide (sessionId (FileTransferSession_new (e_now e) (e_session_draw e) from to
    (FileInfo_new (e_now e) (generateFileId (e_now e) (e_file_draw e)) file from a0 false)) = id)) as [<-|Hne].
  - rewrite lookup_insert_eq. intros [= <-]. right. by split.
  - rewrite lookup_insert_ne by done. intros Ht. left. by exists t.
Qed.

Lemma safe_accept id : safe (F:=F) (acceptFileTransfer id).
Proof.
  intros s. unfold acceptFileTransfer. apply returns_bind. exists s, s. split; [done|]. destruct (sessions s !! id) as [t|] eqn:Et; [|by apply returns_ret].
  apply returns_bind, returns_modify, returns_ret, step_sessions. intros k t'. destruct (decide (id = k)) as [->|Hne].
  - rewrite lookup_insert_eq. intros [= <-]. left. by exists t.
  - rewrite lookup_insert_ne by done. left. by exists t'.
Qed.
Lemma safe_reject id : safe (rejectFileTransfer id).
Proof.
  intros s. unfold rejectFileTransfer. apply returns_bind. exists s, s. split; [done|]. destruct (sessions s !! id) as [t|] eqn:Et; [|by apply returns_ret].
  apply safe_bind; [apply safe_deleteFile|]. intros _. apply safe_bind; [|intros _; apply safe_ret]. intros s1. apply returns_modify, step_sessions.
  intros k t'. rewrite lookup_delete_Some. intros [_ Hk]. left. by exists t'.
Qed.

(** ** The handlers *)

Lemma safe_send e fd m : safe (F:=F) (sendMessage e fd m).
Proof. apply safe_bind; [|intros _; apply safe_ret]. apply safe_modify. intros s. split_and!; try done. by eexists. Qed.
Lemma safe_respond e fd text : safe (F:=F) (sendResponse e fd text).
Proof. apply safe_bind; [apply safe_send|intros _; apply safe_ret]. Qed.
#[local] Hint Resolve safe_send safe_respond safe_register safe_login safe_logout safe_logout_socket safe_upload safe_create safe_accept
  safe_reject safe_deleteFile : chat.

Lemma safe_broadcast e m x : safe (F:=F) (broadcastMessage e m x).
Proof. unfold broadcastMessage, getOnlineUserList, getSocketByUsername. chat_safe. Qed.
Lemma safe_with_user e fd act : (forall name, safe (F:=F) (act name)) -> safe (with_user e fd act).
Proof. intros Ha. unfold with_user, getUsernameBySocket. chat_safe. Qed.
#[local] Hint Resolve safe_broadcast : chat.

Lemma safe_send_transfer e fd name id : safe (send_transfer e fd name id).
Proof. unfold send_transfer, getTransferSession. chat_safe. Qed.
#[local] Hint Resolve safe_send_transfer : chat.

Lemma safe_upload_handler e msg fd s : returns (handleGroupFileUpload e msg fd) s (fun _ s' => chat_step s s') \/
  exists err, handleGroupFileUpload e msg fd s = Throw err s.
Proof.
  unfold handleGroupFileUpload, with_user, getUsernameBySocket.
  match goal with |- returns (gets ?f ≫= ?k) s _ \/ _ =>
    change (returns (k (f s)) s (fun _ s' => chat_step s s') \/ exists err, k (f s) s = Throw err s) end. cbv beta.
  destruct (String.eqb _ ""); [left; by apply safe_respond|]. destruct (split_at "#" (content msg)) as [[file rest]|]; [|left; by apply safe_respond].
  destruct (split_at "#" rest) as [[sz enc]|]; [|left; by apply safe_respond].
  destruct (decodeFileContent enc) as [err|c]; [right; by exists err|]. destruct (stoull sz) as [err|n]; [right; by exists err|].
  left. match goal with |- returns ?m s _ => cut (safe m); [intros Hm; apply Hm|] end. cbv zeta. chat_safe.
Qed.

(** Whatever the message: the handler returns, or throws before it has done anything. *)
Lemma safe_handle e msg fd s : returns (handleMessage e msg fd) s (fun _ s' => chat_step s s') \/
  exists err, handleMessage e msg fd s = Throw err s.
Proof.
  unfold handleMessage. destruct (type msg) eqn:Et; try (left; by apply returns_ret).
  - left. unfold handleLogin, userExists, isUserOnline. match goal with |- returns ?m s _ => cut (safe m); [intros Hm; apply Hm|] end. cbv zeta. chat_safe.
  - left. unfold handleRegister. match goal with |- returns ?m s _ => cut (safe m); [intros Hm; apply Hm|] end. chat_safe.
  - left. apply safe_with_user. intros name. chat_safe.
  - left. apply safe_with_user. intros name. unfold isUserOnline, getSocketByUsername. chat_safe.
  - left. unfold handleLogout, getUsernameBySocket. match goal with |- returns ?m s _ => cut (safe m); [intros Hm; apply Hm|] end. chat_safe.
  - left. unfold handleUserListRequest, getOnlineUserList. match goal with |- returns ?m s _ => cut (safe m); [intros Hm; apply Hm|] end. chat_safe.
  - left. apply safe_with_user. intros name. unfold isUserOnline, getSocketByUsername. chat_safe.
  - left. apply safe_with_user. intros name. unfold isUserOnline, getSocketByUsername. rewrite Et. cbv zeta. chat_safe.
  - left. apply safe_with_user. intros name. unfold isUserOnline, getSocketByUsername. rewrite Et. cbv zeta. chat_safe.
  - apply safe_upload_handler.
  - left. apply safe_with_user. intros name. unfold getGroupFileList. chat_safe.
  - left. apply safe_with_user. intros name. unfold getFileInfo. chat_safe.
Qed.

Lemma safe_cleanup fd : safe (F:=F) (cleanupClient fd).
Proof.
  apply safe_bind; [apply safe_logout_socket|]. intros _. apply safe_modify. intros s. split_and!; try done. exists []. by rewrite app_nil_r.
Qed.

Lemma safe_turn e fd received : safe (client_turn e fd received).
Proof.
  intros s. unfold client_turn. set (msg := receiveMessage e received). destruct (_ || _); [apply safe_cleanup|].
  destruct (safe_handle e msg fd s) as [(a & s' & E & Hs)|(err & E)]; unfold returns; rewrite E; [by exists a, s'|apply safe_cleanup].
Qed.

Lemma safe_event ev : safe (chat_event ev).
Proof.
  destruct ev as [[fd|fd received] e]; unfold chat_event; cbn [fst snd].
  - apply safe_modify. intros s. split_and!; try done. exists []. by rewrite app_nil_r.
  - apply safe_bind; [apply safe_get|]. intros s. destruct (bool_decide _); [apply safe_turn|apply safe_ret].
Qed.

(** ** Starting *)

Lemma load_users_ok now ls us : (forall k u, us !! k = Some u -> User.username u = k /\ online_fd u = None) ->
  forall k u, fold_left (load_user now) ls us !! k = Some u -> User.username u = k /\ online_fd u = None.
Proof.
  revert us. induction ls as [|l ls IH]; intros us Hus; [done|]. cbn [fold_left]. apply IH. unfold load_user.
  destruct (String.eqb l ""); [done|]. destruct (User.deserialize now (trim l)) as [|u] eqn:Eu; [done|].
  destruct (String.eqb (User.username u) ""); [done|]. intros k v. destruct (decide (User.username u = k)) as [<-|Hne].
  - rewrite lookup_insert_eq. intros [= <-]. split; [done|]. revert Eu. unfold User.deserialize.
    repeat case_match; try done; by intros [= <-].
  - rewrite lookup_insert_ne by done. apply Hus.
Qed.

Lemma load_files_ok now ls acc : (forall id f, acc.2 !! id = Some f -> fileId f = id /\ id <> ""%string) ->
  forall id f, (fold_left (load_file now) ls acc).2 !! id = Some f -> fileId f = id /\ id <> ""%string.
Proof.
  revert acc. induction ls as [|l ls IH]; intros acc Hacc; [done|]. cbn [fold_left]. apply IH. unfold load_file. cbv zeta.
  destruct (String.eqb (trim l) ""); [done|]. destruct (String.eqb (trim l) "[GROUP_FILES]"); [done|]. destruct acc.1; [|done].
  destruct (FileInfo.deserialize now (trim l)) as [|f] eqn:Ef; [done|]. destruct (String.eqb_spec (fileId f) "") as [|Hne]; [done|].
  cbn [snd]. intros k g. destruct (decide (fileId f = k)) as [<-|Hk]; [rewrite lookup_insert_eq; by intros [= <-]|].
  rewrite lookup_insert_ne by done. apply Hacc.
Qed.

Lemma start_ok d now : returns (managers_start now) (Chat_new d) (fun _ s' => chat_ok s' /\ delivered s' = []).
Proof.
  unfold managers_start. set (s0 := Chat_new d).
  assert (H1 : returns (users_loadFromFile now) s0 (fun _ s => chat_ok s /\ delivered s = [] /\ groupFiles s = ∅)).
  { unfold users_loadFromFile. apply returns_bind. exists s0, s0. split; [done|]. destruct (u_read (storage s0) users_path) as [text|].
    - apply returns_bind, returns_modify, returns_ret. split; [|done]. pose proof (load_users_ok now (lines text) ∅) as Hl.
      split; cbn; [|..|done|done]; [intros k u Hk; by eapply Hl|]. intros k. destruct (fold_left _ _ _ !! k) as [u|] eqn:Eu; [|done].
      cbn. symmetry. by eapply Hl.
    - apply returns_ret. split; [|done]. by split. }
  apply returns_bind. eapply returns_mono; [exact H1|]. intros _ s1 (Hok1 & Hd1 & Hg1).
  apply returns_bind. assert (H2 : returns createDirectories s1 (fun _ s => chat_ok s /\ delivered s = [] /\ groupFiles s = ∅)).
  { assert (He : forall path s, chat_ok s /\ delivered s = [] /\ groupFiles s = ∅ ->
      returns (ensureDirectoryExists path) s (fun _ s' => chat_ok s' /\ delivered s' = [] /\ groupFiles s' = ∅)).
    { intros path s Hs. unfold ensureDirectoryExists. apply returns_bind. exists s, s. split; [done|].
      destruct (u_stat (storage s) path); [by apply returns_ret|]. eapply returns_Ok; [apply disk_act_eq|].
      destruct Hs as ([? ? ? ?] & ? & ?). split; [by split|done]. }
    unfold createDirectories. apply returns_bind. eapply returns_mono; [by apply He|]. intros a s2 Hs2.
    apply returns_bind. eapply returns_mono; [by apply He|]. intros b s3 Hs3. by apply returns_ret. }
  eapply returns_mono; [exact H2|]. intros _ s2 ([K1 K2 K3 K4] & Hd2 & Hg2).
  apply returns_bind. unfold files_loadFromFile. apply returns_bind. exists s2, s2. split; [done|].
  destruct (u_read (storage s2) files_path) as [text|].
  - apply returns_bind, returns_modify, returns_ret, returns_ret. split; [|done]. split; cbn; [done|done| |done].
    apply load_files_ok. cbn. by rewrite Hg2.
  - apply returns_ret, returns_ret. by split.
Qed.

End props2.
