(* ===== verification/StdChatUse.v ===== *)
(** * StdChatUse: what clients of the terminal chat get

    Who receives a message and under which name; files that are shared; and two defects: a
    socket that logs in twice, and transfers of files that belong to the server. *)

From Stdlib Require Import Ascii String.
From S2P Require Import Prelude Text FtpProtocol FtpDisk StdChatData StdChatManagers StdChatCodec StdChatServer StdChatProps.
Import Message FileInfo FileTransferSession.

Local Open Scope Z_scope.

(** A message as it is sent. *)
Definition wire (m : Message) : string := Message.serialize m +:+ String nl "".

(** A message that can be told from others: its parts do not contain what separates them,
    and it fits into the buffer of [recv]. *)
Definition fits (m : Message) : Prop := message_ok m /\ (String.length (wire m) <= recv_size)%nat.

Lemma receive_wire e m : fits m -> receiveMessage e (wire m) = m.
Proof.
  intros [Hm Hlen]. unfold receiveMessage. rewrite substring_all by done. cbv zeta. unfold wire. destruct (String.eqb_spec (Message.serialize m +:+ String nl "") "") as [E|_].
  { by destruct (Message.serialize m). }
  rewrite rsplit_at_app by done. by rewrite message_parses.
Qed.

(** Messages survive the wire. What is sent is what is received, for every content
    without a line end, even one that contains the separator, as long as the message fits
    into the buffer of 4095 bytes. *)
Theorem message_round_trip e m : fits m -> receiveMessage e (wire m) = m.
Proof. apply receive_wire. Qed.

Section use.
Context {F : Type} {HU : Unix F} {HO : HashOrder} {HH : Hasher} {HS : StdSort later_upload}.
Implicit Types s : Chat F.

(** ** Sending *)

(** More has been sent. *)
Definition sending (l : list (Z * string)) s : Chat F := set_delivered (delivered s ++ l) (served s) s.

Lemma sending_nil s : sending [] s = s.
Proof. unfold sending, set_delivered. rewrite app_nil_r. by destruct s. Qed.
Lemma sending_sending l1 l2 s : sending l2 (sending l1 s) = sending (l1 ++ l2) s.
Proof. unfold sending, set_delivered. cbn. by rewrite app_assoc. Qed.

Lemma send_eq e fd m s : sendMessage e fd m s = Ok (e_took e fd (wire m)) (sending [(fd, wire m)] s).
Proof. done. Qed.
Lemma respond_eq e fd text s :
  sendResponse e fd text s = Ok tt (sending [(fd, wire (mkMessage MessageType.RESPONSE "服务器" "" text (e_now e)))] s).
Proof. done. Qed.

(** The sockets of a broadcast. *)
Definition recipients (online : list (string * Z)) (x : string) : list Z :=
  (filter (fun kv => kv.1 <> x /\ kv.2 <> -1) online).*2.

Lemma broadcast_loop e m x l s : (forall kv, kv ∈ l -> onlineUsers s !! kv.1 = Some kv.2) ->
  iterM (fun name => if String.eqb name x then mret tt else
    fd ← getSocketByUsername name;
    if fd =? -1 then mret tt else sendMessage e fd m ;; mret tt) l.*1 s
  = Ok tt (sending ((fun fd => (fd, wire m)) <$> recipients l x) s).
Proof.
  revert s. induction l as [|[k fd] l IH]; intros s Hl; cbn [fmap list_fmap iterM fst].
  { cbn. by rewrite sending_nil. }
  assert (Hrest : forall s', onlineUsers s' = onlineUsers s -> forall kv, kv ∈ l -> onlineUsers s' !! kv.1 = Some kv.2).
  { intros s' -> kv Hkv. apply Hl. by right. }
  unfold recipients. destruct (String.eqb_spec k x) as [->|Hx].
  { rewrite bind_ret_l, filter_cons_False by (cbn; tauto). by apply IH, Hrest. }
  unfold getSocketByUsername. rewrite bind_assoc, (bind_Ok (gets _) _ s _ s eq_refl).
  assert (Hk : onlineUsers s !! k = Some fd) by (apply (Hl (k, fd)); left). rewrite Hk. cbn [default from_option id]. destruct (Z.eqb_spec fd (-1)) as [->|Hfd].
  { rewrite bind_ret_l, filter_cons_False by (cbn; tauto). by apply IH, Hrest. }
  rewrite bind_assoc, (bind_Ok _ _ _ _ _ (send_eq e fd m s)), bind_ret_l. rewrite IH by (by apply Hrest).
  rewrite sending_sending, filter_cons_True by done. done.
Qed.

Lemma announce_eq e m x s :
  broadcastMessage e m x s = Ok tt (sending ((fun fd => (fd, wire m)) <$> recipients (hash_order (onlineUsers s)) x) s).
Proof.
  unfold broadcastMessage, getOnlineUserList. rewrite (bind_Ok (gets _) _ s _ s eq_refl). apply broadcast_loop.
  intros [k fd] Hin. rewrite hash_order_perm in Hin. by apply elem_of_map_to_list in Hin.
Qed.

(** A message of a connected client is handled. *)
Lemma arrival_event e fd arrived m s s' : fd ∈ served s -> receiveMessage e arrived = m -> sender m <> ""%string -> type m <> MessageType.LOGOUT ->
  handleMessage e m fd s = Ok tt s' -> chat_event (Receive fd arrived, e) s = Ok tt s'.
Proof.
  intros Hfd Hm Hs Ht E. unfold chat_event. cbn [fst snd]. rewrite (bind_Ok get _ s s s eq_refl).
  rewrite bool_decide_true by done. unfold client_turn. rewrite Hm. rewrite bool_decide_false by done.
  apply String.eqb_neq in Hs as ->. cbn [orb]. by rewrite E.
Qed.

Lemma receive_event e fd m s s' : fd ∈ served s -> fits m -> sender m <> ""%string -> type m <> MessageType.LOGOUT ->
  handleMessage e m fd s = Ok tt s' -> chat_event (Receive fd (wire m), e) s = Ok tt s'.
Proof. intros Hfd Hm. apply arrival_event; [done|by apply receive_wire]. Qed.

(** The name of a socket is that of a user who is online with it. *)
Lemma user_of_socket_online s fd name : user_of_socket s fd = name -> name <> ""%string -> onlineUsers s !! name = Some fd.
Proof.
  unfold user_of_socket. destruct (find_first _ _) as [[k fd']|] eqn:E; [|by intros <-]. cbn. intros -> Hne.
  apply find_first_Some in E as [Hin Hfd]. cbn in Hfd. apply Z.eqb_eq in Hfd as ->.
  rewrite hash_order_perm in Hin. by apply elem_of_map_to_list in Hin.
Qed.

Lemma with_user_eq e fd act s name : user_of_socket s fd = name -> name <> ""%string -> with_user e fd act s = act name s.
Proof.
  intros Hn Hne. unfold with_user, getUsernameBySocket. rewrite (bind_Ok (gets _) _ s _ s eq_refl), Hn.
  by apply String.eqb_neq in Hne as ->.
Qed.


(** A private message goes to the user it is for, and a confirmation back. *)
Theorem private_message_delivered e fd m s name to : fd ∈ served s -> fits m -> sender m <> ""%string ->
  type m = MessageType.CHAT_PRIVATE -> user_of_socket s fd = name -> name <> ""%string ->
  onlineUsers s !! receiver m = Some to -> to <> -1 ->
  exists reply, chat_event (Receive fd (wire m), e) s =
    Ok tt (sending [(to, wire (mkMessage MessageType.CHAT_PRIVATE name (receiver m) (content m) (e_now e))); (fd, wire reply)] s).
Proof.
  intros Hfd Hm Hs Ht Hn Hne Hto Hneg.
  set (priv := mkMessage MessageType.CHAT_PRIVATE name (receiver m) (content m) (e_now e)).
  exists (mkMessage MessageType.RESPONSE "服务器" "" (if e_took e to (wire priv) then "私聊消息已发送给 " +:+ receiver m else "发送失败") (e_now e)).
  apply receive_event; [done..|congruence|]. unfold handleMessage. rewrite Ht.
  unfold handlePrivateChat. rewrite (with_user_eq e fd _ s name) by done. unfold isUserOnline, getSocketByUsername.
  rewrite (bind_Ok (gets _) _ s _ s eq_refl), Hto, bool_decide_true by (by eexists). cbn [negb]. rewrite (bind_Ok (gets _) _ s _ s eq_refl), Hto.
  cbn [default from_option id]. apply Z.eqb_neq in Hneg as ->. fold priv. rewrite (bind_Ok _ _ _ _ _ (send_eq _ _ _ _)).
  destruct (e_took e to (wire priv)); rewrite respond_eq, sending_sending; reflexivity.
Qed.

(** ** Logging in twice *)

(** A login that succeeds. *)
Definition welcome (e : ChatEnv) : Message := mkMessage MessageType.RESPONSE "服务器" "" "登录成功" (e_now e).
Lemma login_event e fd m s u : fd ∈ served s -> fits m -> sender m <> ""%string -> type m = MessageType.LOGIN ->
  users s !! sender m = Some u -> User.verifyPassword u (content m) = true -> onlineUsers s !! sender m = None ->
  exists l, chat_event (Receive fd (wire m), e) s = Ok tt (sending ((fd, wire (welcome e)) :: l)
    (set_people (<[sender m := User.set_online UserStatus.ONLINE fd (e_now e) u]> (users s)) (<[sender m := fd]> (onlineUsers s)) s)).
Proof.
  intros Hfd Hm Hs Ht Hu Hp Ho.
  set (s1 := set_people (<[sender m := User.set_online UserStatus.ONLINE fd (e_now e) u]> (users s)) (<[sender m := fd]> (onlineUsers s)) s).
  assert (E : loginUser e (sender m) (content m) fd s = Ok true s1).
  { unfold loginUser. rewrite (bind_Ok get _ s s s eq_refl), Hu, Hp. cbn [negb]. rewrite Ho, bool_decide_false by (by intros [? ?]). done. }
  eexists. apply receive_event; [done..|congruence|]. unfold handleMessage. rewrite Ht. unfold handleLogin. cbv zeta.
  rewrite (bind_Ok _ _ _ _ _ E), (bind_Ok _ _ _ _ _ (respond_eq _ _ _ _)), announce_eq, sending_sending. reflexivity.
Qed.

(** The end of a connection: the user found for the socket is logged out. *)
Lemma close_event e fd s : fd ∈ served s -> user_of_socket s fd <> ""%string ->
  exists s', chat_event (Receive fd "", e) s = Ok tt s' /\ served s' = served s ∖ {[fd]} /\
    onlineUsers s' = delete (user_of_socket s fd) (onlineUsers s).
Proof.
  intros Hfd Hne. unfold chat_event. cbn [fst snd]. rewrite (bind_Ok get _ s s s eq_refl), bool_decide_true by done.
  unfold client_turn, receiveMessage. cbn [String.eqb sender Message_new type]. rewrite orb_true_r.
  unfold cleanupClient, logoutSocket. rewrite bind_assoc, (bind_Ok get _ s s s eq_refl). cbv zeta.
  apply String.eqb_neq in Hne as ->. unfold logoutUser. rewrite (bind_Ok (modify _) _ _ tt _ eq_refl). by eexists.
Qed.

Lemma user_of_socket_some s fd k : onlineUsers s !! k = Some fd -> onlineUsers s !! ""%string = None -> user_of_socket s fd <> ""%string.
Proof.
  intros Hk He. unfold user_of_socket. destruct (find_first _ _) as [[k' fd']|] eqn:E.
  - cbn. intros ->. apply find_first_Some in E as [Hin _]. rewrite hash_order_perm in Hin. apply elem_of_map_to_list in Hin. congruence.
  - rewrite find_first_None in E. specialize (E (k, fd)). cbn in E. rewrite Z.eqb_refl in E.
    discriminate E. rewrite hash_order_perm. by apply elem_of_map_to_list.
Qed.

(** Ghosts. A client that logs in under two names and then leaves stays online under one
    of them; and the next client to whom the system gives the same socket number acts under
    that name without having logged in. *)
Theorem second_login_leaves_ghost e1 e2 e3 fd m1 m2 u1 u2 s : fd ∈ served s ->
  fits m1 -> sender m1 <> ""%string -> type m1 = MessageType.LOGIN ->
  fits m2 -> sender m2 <> ""%string -> type m2 = MessageType.LOGIN -> sender m1 <> sender m2 ->
  users s !! sender m1 = Some u1 -> User.verifyPassword u1 (content m1) = true -> onlineUsers s !! sender m1 = None ->
  users s !! sender m2 = Some u2 -> User.verifyPassword u2 (content m2) = true -> onlineUsers s !! sender m2 = None ->
  onlineUsers s !! ""%string = None -> (forall k, onlineUsers s !! k <> Some fd) ->
  exists s' ghost, chat_run [(Receive fd (wire m1), e1); (Receive fd (wire m2), e2); (Receive fd "", e3)] s = Ok tt s' /\
    fd ∉ served s' /\ (ghost = sender m1 \/ ghost = sender m2) /\ onlineUsers s' !! ghost = Some fd /\
    forall e, exists s'', chat_run [(Connect fd, e)] s' = Ok tt s'' /\ fd ∈ served s'' /\ user_of_socket s'' fd = ghost.
Proof.
  intros Hfd Hm1 Hs1 Ht1 Hm2 Hs2 Ht2 Hne Hu1 Hp1 Ho1 Hu2 Hp2 Ho2 Hoe Hfree. unfold chat_run. cbn [iterM].
  destruct (login_event e1 fd m1 s u1) as (l1 & E1); [done..|]. rewrite (bind_Ok _ _ _ _ _ E1). set (s1 := sending (_ :: l1) _).
  destruct (login_event e2 fd m2 s1 u2) as (l2 & E2); [done|done|done|done|..|].
  { cbn. by rewrite lookup_insert_ne. } { done. } { cbn. by rewrite lookup_insert_ne. }
  rewrite (bind_Ok _ _ _ _ _ E2). set (s2 := sending (_ :: l2) _).
  assert (On : onlineUsers s2 = <[sender m2 := fd]> (<[sender m1 := fd]> (onlineUsers s))) by done.
  assert (Hname : user_of_socket s2 fd <> ""%string).
  { apply (user_of_socket_some s2 fd (sender m2)); rewrite On; [by rewrite lookup_insert_eq|by rewrite !lookup_insert_ne]. }
  destruct (close_event e3 fd s2 Hfd Hname) as (s3 & E3 & Hserved & Honl). rewrite (bind_Ok _ _ _ _ _ E3).
  set (name := user_of_socket s2 fd) in *. pose proof (user_of_socket_online s2 fd name eq_refl Hname) as Hin. rewrite On in Hin.
  set (ghost := if decide (name = sender m1) then sender m2 else sender m1). exists s3, ghost. split; [done|].
  split; [rewrite Hserved; set_solver|]. split; [unfold ghost; case_decide; tauto|].
  assert (Hor : name = sender m1 \/ name = sender m2).
  { destruct (decide (name = sender m2)) as [|N2]; [by right|]. destruct (decide (name = sender m1)) as [|N1]; [by left|].
    rewrite !lookup_insert_ne in Hin by done. by destruct (Hfree name). }
  assert (Hg : onlineUsers s3 !! ghost = Some fd).
  { rewrite Honl, On. unfold ghost. case_decide as Hd.
    - rewrite lookup_delete_ne by congruence. by rewrite lookup_insert_eq.
    - destruct Hor as [|Hn2]; [done|]. rewrite lookup_delete_ne, lookup_insert_ne by congruence. by rewrite lookup_insert_eq. }
  split; [done|]. intros e. eexists. split; [reflexivity|]. split; [cbn; set_solver|].
  set (s4 := set_delivered _ _ s3). assert (He4 : onlineUsers s4 !! ""%string = None).
  { cbn. rewrite Honl, On, lookup_delete_ne by done. by rewrite !lookup_insert_ne. }
  pose proof (user_of_socket_some s4 fd ghost Hg He4) as Hne4.
  pose proof (user_of_socket_online s4 fd _ eq_refl Hne4) as H4. cbn in H4. rewrite Honl, On in H4.
  destruct (decide (user_of_socket s4 fd = name)) as [E|E]; [rewrite E, lookup_delete_eq in H4; done|].
  rewrite lookup_delete_ne in H4 by done. unfold ghost. set (g := user_of_socket s4 fd) in *.
  destruct (decide (g = sender m2)) as [G2|G2]; [case_decide; [done|destruct Hor; congruence]|].
  destruct (decide (g = sender m1)) as [G1|G1]; [case_decide; [congruence|done]|].
  rewrite !lookup_insert_ne in H4 by done. by destruct (Hfree g).
Qed.
End use.

(** ** Examples *)

#[local] Existing Instance list_hash_order.
#[local] Existing Instance length_hasher.
#[local] Existing Instance upload_sort.

Definition example_env : ChatEnv := mkChatEnv 1700001000 1234 5678 (fun _ _ => true) (fun _ => "Tue Nov 14"%string).

(** Messages of the examples are well-formed; evaluation decides it. *)
Definition message_check (m : Message) : bool :=
  (String.length (wire m) <=? recv_size)%nat &&
  let t := MessageType.to_int (type m) in
  (1 <=? t) && (t <=? 16) && no_char "|" (sender m) && no_char "|" (receiver m) && no_char nl (content m) &&
  (0 <=? timestamp m) && (timestamp m <? 2 ^ 63) && match type m with MessageType.Other _ => false | _ => true end.

Lemma message_check_ok m : message_check m = true -> fits m.
Proof.
  unfold message_check. cbv zeta. rewrite andb_true_iff, Nat.leb_le. intros [Hlen Hc]. split; [|done]. revert Hc. clear Hlen.
  unfold message_ok, is_int, is_long. rewrite !andb_true_iff, !Z.leb_le, Z.ltb_lt.
  intros (((((((H1 & H2) & H3) & H4) & H5) & H6) & H7) & H8). split_and!; try done; try lia. all: by destruct (type m).
Qed.

Definition say (t : MessageType.MessageType) (from to text : string) : Message := mkMessage t from to text 1700000900.

Lemma message_round_trip_witness : let m := say MessageType.CHAT_PRIVATE "ann" "bob" "a|b, c |" in receiveMessage example_env (wire m) = m.
Proof. apply message_round_trip, message_check_ok. vm_compute. reflexivity. Defined.


(** A client on socket 4 logs in as ann and as carl, and leaves. *)
Definition carl : User.User := User.User_new 1700000200 "carl" "pass" "".
Definition newcomer : Chat disk :=
  mkChat ∅ {["ann"%string := ann; "carl"%string := carl]} ∅ ∅ ∅ [] {[4]}.

Lemma second_login_leaves_ghost_witness : exists s' ghost,
  chat_run [(Receive 4 (wire (say MessageType.LOGIN "ann" "" "secret")), example_env);
    (Receive 4 (wire (say MessageType.LOGIN "carl" "" "pass")), example_env); (Receive 4 "", example_env)] newcomer = Ok tt s' /\
  4 ∉ served s' /\ onlineUsers s' !! ghost = Some 4.
Proof.
  destruct (second_login_leaves_ghost example_env example_env example_env 4 (say MessageType.LOGIN "ann" "" "secret")
    (say MessageType.LOGIN "carl" "" "pass") ann carl newcomer) as (s' & g & E & Hs & _ & Hg & _).
  - cbn. set_solver.
  - apply message_check_ok. vm_compute. reflexivity.
  - discriminate.
  - reflexivity.
  - apply message_check_ok. vm_compute. reflexivity.
  - discriminate.
  - reflexivity.
  - discriminate.
  - reflexivity.
  - vm_compute. reflexivity.
  - reflexivity.
  - reflexivity.
  - vm_compute. reflexivity.
  - reflexivity.
  - reflexivity.
  - intros k. cbn. rewrite lookup_empty. discriminate.
  - exists s', g. split; [exact E|]. split; [exact Hs|exact Hg].
Defined.
