(* ===== verification/StdChatShare.v ===== *)
(** * StdChatShare: files of the terminal chat

    A file that one user shares comes to others as it was; a transfer makes any file of the
    server readable; and files without bytes cannot be shared at all. *)

From Stdlib Require Import Ascii String.
From S2P Require Import Prelude Text FtpProtocol FtpDisk StdChatData StdChatManagers StdChatCodec StdChatServer StdChatProps StdChatUse.
Import Message FileInfo FileTransferSession.

Local Open Scope Z_scope.

Section share.
Context {F : Type} {HU : Unix F} {HO : HashOrder} {HH : Hasher} {HS : StdSort later_upload}.
Implicit Types s : Chat F.

(** Calls on one of the files leave the others as they are. *)
Record separate (ps : list string) : Prop := mkSeparate {
  sp_open d p a q : p ∈ ps -> q ∈ ps -> p <> q -> u_read (u_open d p a).2 q = u_read d q;
  sp_write d p c q : p ∈ ps -> q ∈ ps -> p <> q -> u_read (u_write d p c).2 q = u_read d q;
  sp_unlink d p q : p ∈ ps -> q ∈ ps -> p <> q -> u_read (u_unlink d p).2 q = u_read d q }.

(** The files [ps] apart from [p] read the same. *)
Definition same_others (ps : list string) (p : string) (d d' : F) : Prop := forall q, q ∈ ps -> p <> q -> u_read d' q = u_read d q.

Lemma copy_complete (W : F -> Prop) ps src dest s c : keeps_files W dest -> W (storage s) -> separate ps -> src ∈ ps -> dest ∈ ps ->
  src <> dest -> u_read (storage s) src = Some c -> c <> ""%string ->
  exists d, copyFile src dest s = Ok true (set_storage d s) /\ W d /\ u_read d dest = Some c /\ same_others ps dest (storage s) d.
Proof.
  intros Hk HW Hsep Hsrc Hdest Hne Hc Hcne. unfold copyFile. rewrite (bind_Ok get _ s s s eq_refl). cbv zeta.
  rewrite Hc, bool_decide_true by (by eexists). rewrite (bind_Ok _ _ _ _ _ (disk_act_eq _ s)).
  destruct (k_open _ _ Hk _ false HW) as (Eo & HW1 & Hr1 & Hx1). set (d1 := (u_open (storage s) dest false).2) in *. rewrite Eo. cbn [negb].
  set (s1 := set_storage d1 s). rewrite (bind_Ok get _ s1 s1 s1 eq_refl). change (storage s1) with d1.
  assert (Hc1 : u_read d1 src = Some c) by (unfold d1; by rewrite (sp_open _ Hsep)). rewrite Hc1.
  destruct (k_write _ _ Hk _ c _ HW1 Hr1 Hx1) as (Ew & HW2 & _ & Hx2).
  destruct c as [|x c]; [done|]. rewrite disk_act_eq. change (storage s1) with d1. rewrite Ew.
  eexists. split; [reflexivity|]. split; [done|]. split; [exact Hx2|]. intros q Hq Hqd. rewrite (sp_write _ Hsep) by done. unfold d1. by rewrite (sp_open _ Hsep).
Qed.

Lemma save_others ps path ls s : separate ps -> path ∈ ps ->
  exists b d, save_lines path ls s = Ok b (set_storage d s) /\ same_others ps path (storage s) d.
Proof.
  intros Hsep Hp. unfold save_lines. rewrite (bind_Ok _ _ _ _ _ (disk_act_eq _ s)). set (d1 := (u_open (storage s) path false).2).
  assert (H1 : same_others ps path (storage s) d1) by (intros q Hq Hne; by apply (sp_open _ Hsep)).
  destruct (u_open (storage s) path false).1; cbn [negb]; [|by exists false, d1].
  assert (Hit : forall l s0, same_others ps path (storage s) (storage s0) ->
    exists d, iterM (fun l => disk_act (fun d => u_write d path (l +:+ String nl "")) ;; mret tt) l s0 = Ok tt (set_storage d s0) /\
      same_others ps path (storage s) d).
  { induction l as [|x l IH]; intros s0 H0; cbn [iterM]; [exists (storage s0); split; [by destruct s0|done]|].
    rewrite bind_assoc, (bind_Ok _ _ _ _ _ (disk_act_eq _ s0)), bind_ret_l. set (s1 := set_storage _ s0).
    destruct (IH s1) as (d & E & Hd); [|by exists d]. intros q Hq Hne. cbn. by rewrite (sp_write _ Hsep), H0. }
  destruct (Hit ls (set_storage d1 s) H1) as (d & E & Hd). exists true, d. by rewrite (bind_Ok _ _ _ _ _ E).
Qed.

(** ** Files of the group *)

(** The message of an upload, with the coded bytes of the file. *)
Definition upload_content (file c : string) : string :=
  file +:+ "#" +:+ to_string (Z.of_nat (String.length c)) +:+ "#" +:+ encodeFileContent c.

Lemma upload_parts file c : no_char "#" file = true ->
  split_at "#" (upload_content file c) = Some (file, to_string (Z.of_nat (String.length c)) +:+ String "#" (encodeFileContent c)) /\
  split_at "#" (to_string (Z.of_nat (String.length c)) +:+ String "#" (encodeFileContent c)) =
    Some (to_string (Z.of_nat (String.length c)), encodeFileContent c).
Proof.
  intros Hf. split; [|by apply split_at_app, to_string_no_char].
  unfold upload_content. change (file +:+ "#" +:+ ?x) with (file +:+ String "#" x). by apply split_at_app.
Qed.

Definition upload_temp (file : string) : string := "./temp_files/upload_" +:+ file.

Lemma upload_complete (W : F -> Prop) e name file c s : let id := generateFileId (e_now e) (e_file_draw e) in
  let temp := upload_temp file in let dest := getGroupFilePath id in let ps := [temp; dest; files_path] in
  keeps_files W temp -> keeps_files W dest -> W (storage s) -> separate ps -> temp <> dest -> dest <> files_path ->
  regular (storage s) temp -> u_read (storage s) temp = Some c -> c <> ""%string ->
  exists d f, uploadGroupFile e name temp file s = Ok true (set_group_files (<[id := f]> (groupFiles s)) (set_storage d s)) /\
    u_read d dest = Some c /\ fileId f = id /\ filename f = file /\ uploader f = name /\ filePath f = dest.
Proof.
  intros id temp dest ps Hkt Hkd HW Hsep Htd Hdf (st & Est & _) Hc Hcne. unfold uploadGroupFile, fileExists, getFileSize. cbv zeta. fold id dest.
  rewrite bind_assoc, (bind_Ok get _ s s s eq_refl), bind_ret_l, Est, bool_decide_true by (by eexists). cbn [negb].
  rewrite bind_assoc, (bind_Ok get _ s s s eq_refl), bind_ret_l, Est.
  destruct (copy_complete W ps temp dest s c) as (d1 & E1 & HW1 & Hd1 & Ho1); try done; try (unfold ps; set_solver).
  rewrite (bind_Ok _ _ _ _ _ E1). cbn [negb]. set (s1 := set_storage d1 s). unfold calculateFileHash.
  rewrite bind_assoc, (bind_Ok get _ s1 s1 s1 eq_refl), bind_ret_l, (bind_Ok (modify _) _ _ tt _ eq_refl).
  set (s2 := set_group_files _ s1). unfold files_saveToFile. rewrite bind_assoc, (bind_Ok get _ s2 s2 s2 eq_refl).
  match goal with |- context [save_lines files_path ?ls] => destruct (save_others ps files_path ls s2) as (b & d2 & E2 & Ho2) end;
    [done|unfold ps; set_solver|].
  rewrite (bind_Ok _ _ _ _ _ E2).
  eexists d2, _. split; [reflexivity|]. split; [|done]. rewrite (Ho2 dest) by (done || (unfold ps; set_solver)). exact Hd1.
Qed.

(** An upload as it is handled: the file is stored, filed and announced. *)
Lemma upload_event (W : F -> Prop) e fd m s name file c : fd ∈ served s -> fits m -> sender m <> ""%string ->
  type m = MessageType.FILE_UPLOAD_GROUP -> content m = upload_content file c -> no_char "#" file = true -> c <> ""%string ->
  Z.of_nat (String.length c) < 2 ^ 64 -> user_of_socket s fd = name -> name <> ""%string ->
  let id := generateFileId (e_now e) (e_file_draw e) in let temp := upload_temp file in let dest := getGroupFilePath id in
  keeps_files W temp -> keeps_files W dest -> W (storage s) -> separate [temp; dest; files_path] ->
  exists d f l, chat_event (Receive fd (wire m), e) s =
      Ok tt (set_storage d (sending l (set_group_files (<[id := f]> (groupFiles s)) s))) /\
    u_read d dest = Some c /\ fileId f = id /\ filename f = file /\ uploader f = name /\ filePath f = dest.
Proof.
  intros Hfd Hm Hs Ht Hcont Hfile Hc Hlen Hn Hne id temp dest Hkt Hkd HW Hsep.
  destruct (upload_parts file c Hfile) as [P1 P2].
  destruct (k_open _ _ Hkt _ false HW) as (Eo & HW1 & Hr1 & Hx1). set (d1 := (u_open (storage s) temp false).2) in *.
  destruct (k_write _ _ Hkt d1 c _ HW1 Hr1 Hx1) as (Ew & HW2 & Hr2 & Hx2). set (d2 := (u_write d1 temp c).2) in *.
  destruct (upload_complete W e name file c (set_storage d2 s)) as (d3 & f & Eu & Hd3 & Hid & Hfn & Hup & Hfp); try done.
  fold id temp dest in Eu, Hd3, Hid, Hfp.
  eexists _, f, _. split.
  - apply receive_event; [done..|congruence|]. unfold handleMessage. rewrite Ht. unfold handleGroupFileUpload.
    rewrite (with_user_eq e fd _ s name) by done. rewrite Hcont, P1. cbv beta iota. rewrite P2. cbv beta iota.
    rewrite decode_encode, stoull_to_string by lia. rewrite Z.eqb_refl. cbn [negb]. cbv zeta. fold (upload_temp file). fold temp.
    rewrite (bind_Ok _ _ _ _ _ (disk_act_eq _ s)), Eo. cbn [negb]. fold d1.
    rewrite (bind_Ok _ _ _ _ _ (disk_act_eq _ (set_storage d1 s))). cbn [storage set_storage]. rewrite Ew. cbn [negb]. fold d2.
    change (set_storage d2 (set_storage d1 s)) with (set_storage d2 s). rewrite (bind_Ok _ _ _ _ _ Eu).
    rewrite (bind_Ok _ _ _ _ _ (respond_eq _ _ _ _)), (bind_Ok _ _ _ _ _ (announce_eq _ _ _ _)), sending_sending.
    unfold deleteFile. rewrite (bind_Ok _ _ _ _ _ (disk_act_eq _ _)). reflexivity.
  - cbn [storage]. split; [|done]. change (u_read (u_unlink d3 temp).2 dest = Some c). rewrite (sp_unlink _ Hsep); [done|set_solver|set_solver|done].
Qed.

(** Shared files. A file that one user uploads to the group is sent byte for byte to a
    user who asks for it by its id, coded so that it can be decoded again, and it is filed
    under the name it was given and the name with which its owner logged in. *)
Theorem group_file_round_trip (W : F -> Prop) e1 e2 fd1 fd2 m1 m2 s name1 name2 file c :
  fd1 ∈ served s -> fits m1 -> sender m1 <> ""%string -> type m1 = MessageType.FILE_UPLOAD_GROUP ->
  content m1 = upload_content file c -> no_char "#" file = true -> c <> ""%string -> Z.of_nat (String.length c) < 2 ^ 64 ->
  user_of_socket s fd1 = name1 -> name1 <> ""%string ->
  let id := generateFileId (e_now e1) (e_file_draw e1) in
  keeps_files W (upload_temp file) -> keeps_files W (getGroupFilePath id) -> W (storage s) ->
  separate [upload_temp file; getGroupFilePath id; files_path] ->
  fd2 ∈ served s -> fits m2 -> sender m2 <> ""%string -> type m2 = MessageType.FILE_DOWNLOAD_REQUEST -> content m2 = id ->
  user_of_socket s fd2 = name2 -> name2 <> ""%string ->
  exists s1 s2 f reply,
    chat_event (Receive fd1 (wire m1), e1) s = Ok tt s1 /\ groupFiles s1 = <[id := f]> (groupFiles s) /\
    filename f = file /\ uploader f = name1 /\
    chat_event (Receive fd2 (wire m2), e2) s1 = Ok tt s2 /\
    delivered s2 = delivered s1 ++
      [(fd2, wire (mkMessage MessageType.FILE_DATA "server" name2 (upload_content file c) (e_now e2))); (fd2, wire reply)] /\
    decodeFileContent (encodeFileContent c) = inr c /\
    exists text, reply = mkMessage MessageType.RESPONSE "服务器" "" text (e_now e2) /\
      (text = "文件下载成功: " +:+ file \/ text = "文件发送失败"%string).
Proof.
  intros Hfd1 Hm1 Hs1 Ht1 Hc1 Hfile Hc Hlen Hn1 Hne1 id Hkt Hkd HW Hsep Hfd2 Hm2 Hs2 Ht2 Hc2 Hn2 Hne2.
  destruct (upload_event W e1 fd1 m1 s name1 file c) as (d & f & l & E1 & Hd & Hid & Hfn & Hup & Hfp); [done..|].
  fold id in E1, Hid, Hfp, Hd. set (s1 := set_storage d _) in E1.
  set (data := file_data e2 name2 file c).
  set (reply := mkMessage MessageType.RESPONSE "服务器" "" (if e_took e2 fd2 (wire data) then "文件下载成功: " +:+ file else "文件发送失败") (e_now e2)).
  exists s1, (sending [(fd2, wire data); (fd2, wire reply)] s1), f, reply. split; [exact E1|]. split; [done|]. split; [done|]. split; [done|].
  split; [|split; [done|split; [apply decode_encode|]]].
  2:{ eexists. split; [reflexivity|]. destruct (e_took _ _ _); [by left|by right]. }
  apply receive_event; [done..|congruence|]. unfold handleMessage. rewrite Ht2. unfold handleFileDownloadRequest.
  rewrite (with_user_eq e2 fd2 _ s1 name2) by done. unfold getFileInfo. rewrite (bind_Ok (gets _) _ s1 _ s1 eq_refl), Hc2.
  change (groupFiles s1) with (<[id := f]> (groupFiles s)). rewrite lookup_insert_eq. change (default _ (Some f)) with f. rewrite Hid.
  destruct (String.eqb_spec id "") as [|_]; [done|]. rewrite (bind_Ok get _ s1 s1 s1 eq_refl). change (storage s1) with d. rewrite Hfp, Hd, Hfn.
  fold data. rewrite (bind_Ok _ _ _ _ _ (send_eq _ _ _ _)). unfold reply.
  destruct (e_took e2 fd2 (wire data)); rewrite respond_eq, sending_sending; reflexivity.
Qed.

(** A file without bytes cannot be copied, so it can neither be shared nor transferred. *)
Theorem empty_file_not_copied (W : F -> Prop) ps src dest s : keeps_files W dest -> W (storage s) -> separate ps -> src ∈ ps -> dest ∈ ps ->
  src <> dest -> u_read (storage s) src = Some ""%string -> exists s', copyFile src dest s = Ok false s'.
Proof.
  intros Hk HW Hsep Hsrc Hdest Hne Hc. unfold copyFile. rewrite (bind_Ok get _ s s s eq_refl). cbv zeta.
  rewrite Hc, bool_decide_true by (by eexists). rewrite (bind_Ok _ _ _ _ _ (disk_act_eq _ s)).
  destruct (k_open _ _ Hk _ false HW) as (Eo & _). rewrite Eo. cbn [negb]. set (s1 := set_storage _ s).
  rewrite (bind_Ok get _ s1 s1 s1 eq_refl). cbn [s1 storage set_storage]. rewrite (sp_open _ Hsep), Hc by done. by eexists.
Qed.

(** ** Long uploads *)

Lemma encode_plain x c : no_char x "0123456789abcdef" = true -> no_char x (encodeFileContent c) = true.
Proof.
  intros Hx. induction c as [|y c IH]; [done|]. cbn [encodeFileContent]. pose proof (nat_ascii_bounded y) as Hb.
  set (n := Z.of_nat (nat_of_ascii y)). assert (0 <= n < 256) by (unfold n; lia).
  assert (Hdig : forall d, 0 <= d < 16 -> hex_digit d <> x).
  { intros d Hd E. assert (Hall : forallb (fun k => negb (no_char (hex_digit (Z.of_nat k)) "0123456789abcdef")) (seq 0 16) = true) by (vm_compute; reflexivity).
    rewrite forallb_forall in Hall. specialize (Hall (Z.to_nat d)). rewrite Z2Nat.id, E, Hx in Hall by lia. discriminate Hall. apply in_seq. lia. }
  apply no_char_cons. split; [apply Hdig; split; [apply Z.div_pos; lia|apply Z.div_lt_upper_bound; lia]|].
  apply no_char_cons. split; [apply Hdig, Z.mod_pos_bound; lia|exact IH].
Qed.

Lemma encode_length c : String.length (encodeFileContent c) = (2 * String.length c)%nat.
Proof. induction c as [|x c IH]; [done|]. cbn [encodeFileContent String.length]. lia. Qed.

Lemma stoi16_digit a : 0 <= a < 16 -> stoi16 (String (hex_digit a) "") = inr a.
Proof.
  intros Ha. destruct (hex_digit_plain a Ha) as (Hs & Hm & Hp). unfold stoi16, signed_digits.
  rewrite lstrip_id by (cbn; by rewrite Hs). rewrite Hm, Hp. cbn [hex_prefix]. rewrite hex_digit_value by done.
  cbn [default from_option id]. f_equal. lia.
Qed.

(** The front of a coded file is that of a shorter file, of which the last byte may be wrong. *)
Lemma decode_front c k : exists c', decodeFileContent (substring 0 k (encodeFileContent c)) = inr c' /\ (2 * String.length c' <= k + 1)%nat.
Proof.
  revert k. induction c as [|x c IH]; intros k; [exists ""%string; cbn [encodeFileContent]; destruct k; (split; [done|cbn; lia])|].
  cbn [encodeFileContent]. pose proof (nat_ascii_bounded x) as Hb. set (n := Z.of_nat (nat_of_ascii x)). assert (0 <= n < 256) by (unfold n; lia).
  assert (Hq : 0 <= n / 16 < 16) by (split; [apply Z.div_pos; lia|apply Z.div_lt_upper_bound; lia]).
  assert (Hr : 0 <= n mod 16 < 16) by (apply Z.mod_pos_bound; lia).
  destruct k as [|[|k]]; cbn [substring].
  - exists ""%string. split; [done|cbn; lia].
  - cbn [decodeFileContent]. rewrite stoi16_digit by done. eexists. split; [reflexivity|cbn; lia].
  - destruct (IH k) as (c' & E & Hl). cbn [decodeFileContent]. rewrite stoi16_digits, E by done. eexists. split; [reflexivity|]. cbn [String.length]. lia.
Qed.

Lemma substring_front a b k : substring 0 (String.length a + k) (a +:+ b) = a +:+ substring 0 k b.
Proof. induction a as [|x a IH]; [done|]. rewrite !app_cons. cbn [String.length Nat.add substring]. by rewrite IH. Qed.

Lemma substring_within k a b : (k <= String.length a)%nat -> substring 0 k (a +:+ b) = substring 0 k a.
Proof.
  revert k. induction a as [|x a IH]; intros [|k] Hk; cbn [String.length] in Hk; [by destruct b|lia|done|].
  rewrite app_cons. cbn [substring]. rewrite IH by lia. done.
Qed.

Lemma no_char_front x k (t : string) : no_char x t = true -> no_char x (substring 0 k t) = true.
Proof.
  revert k. induction t as [|y t IH]; intros [|k] Ht; cbn [substring]; try done.
  apply no_char_cons in Ht as [Hy Ht]. apply no_char_cons. split; [done|by apply IH].
Qed.

(** The last line end of a text that goes on is not its last character. *)
Lemma rsplit_tail x a b l : rsplit_at x (a +:+ b) = Some (l, ""%string) -> no_char x b = true -> b <> ""%string -> False.
Proof.
  intros E Hb Hne. revert l E. induction a as [|y a IH]; intros l.
  - rewrite app_empty_l, rsplit_at_none by done. done.
  - rewrite app_cons. cbn. destruct (rsplit_at x (a +:+ b)) as [[p q]|].
    + intros [= _ ->]. by apply (IH p).
    + destruct (char_eqb y x); [|done]. intros [= _ E]. by destruct a.
Qed.

(** A message whose end is missing, with no bar in what is left of its content. *)
Lemma front_parses now m c : message_ok m -> no_char "|" c = true -> no_char nl c = true -> c <> ""%string ->
  Message.deserialize now (to_string (MessageType.to_int (type m)) +:+ "|" +:+ sender m +:+ "|" +:+ receiver m +:+ "|" +:+ c) =
    inr (mkMessage (type m) (sender m) (receiver m) c now).
Proof.
  intros (Ht & Hf & Hto & _ & _ & Hty) Hbar Hnl Hne. unfold Message.deserialize.
  rewrite !bar_app, getline_app by (by apply to_string_no_char). rewrite stoi_to_string by done. rewrite !getline_app by done.
  rewrite (getline_last nl) by done. cbn [default from_option id]. unfold Message.deserialize_content.
  rewrite rsplit_at_none by done. by rewrite type_round_trip.
Qed.

(** What comes before the coded bytes of an upload. *)
Definition upload_head (m : Message) (file c : string) : string :=
  to_string (MessageType.to_int (type m)) +:+ "|" +:+ sender m +:+ "|" +:+ receiver m +:+ "|" +:+
  file +:+ "#" +:+ to_string (Z.of_nat (String.length c)) +:+ "#".

Lemma wire_upload m file c : content m = upload_content file c ->
  wire m = upload_head m file c +:+ encodeFileContent c +:+ "|" +:+ to_string (timestamp m) +:+ String nl "".
Proof. intros E. unfold wire, Message.serialize, upload_head. rewrite E. unfold upload_content. by rewrite !sapp_assoc. Qed.

(** A file is not shared when the message with its bytes is longer than the buffer: the
    server takes the front of it for the whole message and finds that the size is wrong. *)
Theorem long_upload_refused e fd m s name file c : fd ∈ served s -> message_ok m -> sender m <> ""%string ->
  type m = MessageType.FILE_UPLOAD_GROUP -> content m = upload_content file c ->
  no_char "#" file = true -> no_char "|" file = true -> no_char nl file = true -> Z.of_nat (String.length c) < 2 ^ 64 ->
  user_of_socket s fd = name -> name <> ""%string ->
  let head := String.length (upload_head m file c) in
  (head <= recv_size)%nat -> (recv_size + 1 < head + 2 * String.length c)%nat ->
  chat_event (Receive fd (wire m), e) s =
    Ok tt (sending [(fd, wire (mkMessage MessageType.RESPONSE "服务器" "" "文件大小不匹配，上传失败" (e_now e)))] s).
Proof.
  intros Hfd Hm Hs Ht Hcont Hh Hb Hnl Hlen Hn Hne head Hhead Hlong.
  set (k := (recv_size - head)%nat). set (part := substring 0 k (encodeFileContent c)).
  assert (Hpart : forall x, no_char x "0123456789abcdef" = true -> no_char x part = true) by (intros; by apply no_char_front, encode_plain).
  set (size := to_string (Z.of_nat (String.length c))). set (rest := file +:+ "#" +:+ size +:+ "#" +:+ part).
  assert (Etake : substring 0 recv_size (wire m) = upload_head m file c +:+ part).
  { rewrite (wire_upload m file c) by done. replace recv_size with (String.length (upload_head m file c) + k)%nat by (unfold k, head in *; lia).
    rewrite substring_front. f_equal. apply substring_within. rewrite encode_length. unfold k. lia. }
  assert (Eall : upload_head m file c +:+ part =
    to_string (MessageType.to_int (type m)) +:+ "|" +:+ sender m +:+ "|" +:+ receiver m +:+ "|" +:+ rest).
  { unfold upload_head, rest, size. by rewrite !sapp_assoc. }
  set (m' := mkMessage (type m) (sender m) (receiver m) rest (e_now e)).
  assert (Erec : receiveMessage e (wire m) = m').
  { unfold receiveMessage. rewrite Etake. cbv zeta. destruct (String.eqb_spec (upload_head m file c +:+ part) "") as [E0|_].
    { rewrite Eall in E0. by destruct (to_string (MessageType.to_int (type m))). }
    assert (Er : match rsplit_at nl (upload_head m file c +:+ part) with Some (a, EmptyString) => a | _ => upload_head m file c +:+ part end
      = upload_head m file c +:+ part).
    { replace (upload_head m file c +:+ part) with ((to_string (MessageType.to_int (type m)) +:+ "|" +:+ sender m +:+ "|" +:+ receiver m +:+
        "|" +:+ file +:+ "#" +:+ size) +:+ String "#" part) by (unfold upload_head, size; by rewrite !sapp_assoc).
      destruct (rsplit_at nl _) as [[a [|]]|] eqn:E; [|done..]. apply rsplit_tail in E; [done| |done].
      apply no_char_cons. split; [done|by apply Hpart]. }
    rewrite Er, Eall, front_parses; [done|done|..|by destruct file].
    all: unfold rest; rewrite !no_char_app, ?Hb, ?Hnl, Hpart by done; unfold size; by rewrite to_string_no_char. }
  destruct (decode_front c k) as (c' & Edec & Hc'). fold part in Edec.
  apply (arrival_event e fd _ m'); [done|done|done|cbn; congruence|]. unfold handleMessage. cbn [type m']. rewrite Ht. unfold handleGroupFileUpload.
  rewrite (with_user_eq e fd _ s name) by done. cbn [content m']. unfold rest.
  change (file +:+ "#" +:+ ?x) with (file +:+ String "#" x). rewrite split_at_app by done.
  change (size +:+ "#" +:+ ?x) with (size +:+ String "#" x). rewrite split_at_app by (by apply to_string_no_char).
  rewrite Edec. unfold size. rewrite stoull_to_string by lia.
  destruct (Z.eqb_spec (Z.of_nat (String.length c')) (Z.of_nat (String.length c))) as [E|_]; [unfold k in Hc'; lia|]. apply respond_eq.
Qed.

(** ** Private transfers *)

Lemma create_complete (W : F -> Prop) e from to path file s st c : let sid := generateSessionId (e_now e) (e_session_draw e) in
  let temp := getTempFilePath sid in keeps_files W temp -> W (storage s) -> separate [path; temp] -> path <> temp ->
  u_stat (storage s) path = Some st -> u_read (storage s) path = Some c -> c <> ""%string ->
  exists d t, createTransferSession e from to path file s = Ok sid (set_sessions (<[sid := t]> (sessions s)) (set_storage d s)) /\
    u_read d temp = Some c /\ filePath (fileInfo t) = temp /\ filename (fileInfo t) = file /\ fileId (fileInfo t) <> ""%string.
Proof.
  intros sid temp Hk HW Hsep Hne Est Hc Hcne. unfold createTransferSession, fileExists, getFileSize. cbv zeta.
  rewrite bind_assoc, (bind_Ok get _ s s s eq_refl), bind_ret_l, Est, bool_decide_true by (by eexists). cbn [negb].
  rewrite bind_assoc, (bind_Ok get _ s s s eq_refl), bind_ret_l, Est. cbn [sessionId FileTransferSession_new]. fold sid. fold temp.
  destruct (copy_complete W [path; temp] path temp s c) as (d1 & E1 & HW1 & Hd1 & _); try done; try set_solver.
  rewrite (bind_Ok _ _ _ _ _ E1). cbn [negb]. set (s1 := set_storage d1 s). unfold calculateFileHash.
  rewrite bind_assoc, (bind_Ok get _ s1 s1 s1 eq_refl), bind_ret_l, (bind_Ok (modify _) _ _ tt _ eq_refl).
  eexists d1, _. split; [reflexivity|]. by split_and!.
Qed.

(** The message that offers a file, to oneself. *)
Definition offers (m : Message) (name file path : string) : Prop :=
  fits m /\ sender m <> ""%string /\ type m = MessageType.FILE_TRANSFER_REQUEST /\ receiver m = name /\
  content m = file +:+ "|" +:+ path /\ no_char "|" file = true.
Definition accepts (m : Message) (name sid : string) : Prop :=
  fits m /\ sender m <> ""%string /\ type m = MessageType.FILE_TRANSFER_ACCEPT /\ receiver m = name /\ content m = sid.

Lemma offer_event (W : F -> Prop) e fd m s name file path st c : fd ∈ served s -> fd <> -1 -> offers m name file path ->
  user_of_socket s fd = name -> name <> ""%string ->
  let sid := generateSessionId (e_now e) (e_session_draw e) in let temp := getTempFilePath sid in
  keeps_files W temp -> W (storage s) -> separate [path; temp] -> path <> temp ->
  u_stat (storage s) path = Some st -> u_read (storage s) path = Some c -> c <> ""%string ->
  exists d t l, chat_event (Receive fd (wire m), e) s = Ok tt (sending l (set_sessions (<[sid := t]> (sessions s)) (set_storage d s))) /\
    u_read d temp = Some c /\ filePath (fileInfo t) = temp /\ filename (fileInfo t) = file /\ fileId (fileInfo t) <> ""%string.
Proof.
  intros Hfd Hneg (Hm & Hs & Ht & Hrec & Hcont & Hfile) Hn Hne sid temp Hk HW Hsep Hpt Est Hc Hcne.
  pose proof (user_of_socket_online s fd name Hn Hne) as Hon.
  destruct (create_complete W e name name path file s st c) as (d & t & E & Hd & Hp & Hf & Hi); try done. fold sid temp in E, Hd, Hp.
  set (offer := mkMessage MessageType.FILE_TRANSFER_REQUEST name sid file (e_now e)).
  set (reply := mkMessage MessageType.RESPONSE "服务器" "" (if e_took e fd (wire offer) then "文件传输请求已发送给 " +:+ name else "发送失败") (e_now e)).
  exists d, t, [(fd, wire offer); (fd, wire reply)]. split; [|done]. apply receive_event; [done..|congruence|]. unfold handleMessage. rewrite Ht.
  unfold handleFileTransferRequest. rewrite (with_user_eq e fd _ s name) by done. rewrite Hcont.
  change (file +:+ "|" +:+ path) with (file +:+ String "|" path). rewrite split_at_app by done. rewrite Hrec.
  unfold isUserOnline, getSocketByUsername. rewrite (bind_Ok (gets _) _ s _ s eq_refl), Hon, bool_decide_true by (by eexists). cbn [negb].
  rewrite (bind_Ok (gets _) _ s _ s eq_refl), Hon. change (default (-1) (Some fd)) with fd. apply Z.eqb_neq in Hneg as ->.
  rewrite (bind_Ok _ _ _ _ _ E). destruct (String.eqb_spec sid "") as [|_]; [done|].
  fold offer. rewrite (bind_Ok _ _ _ _ _ (send_eq _ _ _ _)). unfold reply.
  destruct (e_took e fd (wire offer)); rewrite respond_eq, sending_sending; reflexivity.
Qed.

(** Every file of the server can be read. A user who is logged in offers a file of the
    server to oneself, by any path at all, and accepts it: the server sends the file,
    whatever it is, as long as the server itself can read it. *)
Theorem any_server_file_readable (W : F -> Prop) e1 e2 fd m1 m2 s name file path st c : fd ∈ served s -> fd <> -1 ->
  user_of_socket s fd = name -> name <> ""%string -> offers m1 name file path ->
  let sid := generateSessionId (e_now e1) (e_session_draw e1) in let temp := getTempFilePath sid in accepts m2 name sid ->
  keeps_files W temp -> W (storage s) -> separate [path; temp] -> path <> temp ->
  u_stat (storage s) path = Some st -> u_read (storage s) path = Some c -> c <> ""%string ->
  exists s1 s2 l, chat_event (Receive fd (wire m1), e1) s = Ok tt s1 /\ chat_event (Receive fd (wire m2), e2) s1 = Ok tt s2 /\
    delivered s2 = delivered s1 ++ l /\
    (fd, wire (mkMessage MessageType.FILE_DATA "server" name (upload_content file c) (e_now e2))) ∈ l /\
    decodeFileContent (encodeFileContent c) = inr c.
Proof.
  intros Hfd Hneg Hn Hne Hof sid temp (Hm2 & Hs2 & Ht2 & Hr2 & Hc2) Hk HW Hsep Hpt Est Hc Hcne.
  destruct (offer_event W e1 fd m1 s name file path st c) as (d & t & l1 & E1 & Hd & Hp & Hf & Hi); [done..|].
  fold sid temp in E1, Hd, Hp. set (s1 := sending l1 _) in E1.
  pose proof (user_of_socket_online s1 fd name Hn Hne) as Hon.
  set (t' := set_progress true (isCompleted t) (transferredBytes t) t).
  set (s2 := set_sessions (<[sid := t']> (sessions s1)) s1).
  set (l := [(fd, wire (mkMessage MessageType.FILE_TRANSFER_ACCEPT name name sid (e_now e2))); (fd, wire (file_data e2 name file c));
             (fd, wire (mkMessage MessageType.RESPONSE "服务器" "" "已接受文件传输" (e_now e2)))]).
  exists s1, (sending l s2), l. split; [exact E1|]. split; [|split; [done|split; [unfold l; right; left|apply decode_encode]]].
  apply receive_event; [done..|congruence|]. unfold handleMessage. rewrite Ht2. unfold handleFileTransferResponse.
  rewrite (with_user_eq e2 fd _ s1 name) by done. cbv zeta. rewrite Hr2, Hc2, Ht2.
  unfold isUserOnline, getSocketByUsername. rewrite (bind_Ok (gets _) _ s1 _ s1 eq_refl), Hon, bool_decide_true by (by eexists). cbn [negb].
  rewrite (bind_Ok (gets _) _ s1 _ s1 eq_refl), Hon. change (default (-1) (Some fd)) with fd. apply Z.eqb_neq in Hneg as ->.
  assert (Ea : acceptFileTransfer sid s1 = Ok true s2).
  { unfold acceptFileTransfer. rewrite (bind_Ok get _ s1 s1 s1 eq_refl). change (sessions s1) with (<[sid := t]> (sessions s)).
    by rewrite lookup_insert_eq. }
  rewrite (bind_Ok _ _ _ _ _ Ea). cbn [negb]. rewrite (bind_Ok _ _ _ _ _ (send_eq _ _ _ _)). set (s3 := sending _ s2).
  assert (Es : send_transfer e2 fd name sid s3 = Ok tt (sending [(fd, wire (file_data e2 name file c))] s3)).
  { unfold send_transfer, getTransferSession. rewrite (bind_Ok (gets _) _ s3 _ s3 eq_refl).
    change (sessions s3) with (<[sid := t']> (sessions s1)). rewrite lookup_insert_eq. change (default _ (Some t')) with t'.
    cbn [isAccepted set_progress t' fileInfo]. apply String.eqb_neq in Hi as ->. cbn [negb andb].
    rewrite (bind_Ok get _ s3 s3 s3 eq_refl). change (storage s3) with d. rewrite Hp, Hd, Hf. done. }
  rewrite (bind_Ok _ _ _ _ _ Es), respond_eq. unfold s3. rewrite !sending_sending. reflexivity.
Qed.
End share.

(** ** Examples *)

#[local] Existing Instance list_hash_order.
#[local] Existing Instance length_hasher.
#[local] Existing Instance upload_sort.

Lemma disk_separate ps : separate (F := disk) ps.
Proof.
  split; intros d p; intros.
  - cbn. destruct (d !! p) as [[|c]|]; cbn; by rewrite ?lookup_insert_ne.
  - cbn. destruct (d !! p) as [[|c']|]; cbn; by rewrite ?lookup_insert_ne.
  - cbn. destruct (d !! p) as [[|c']|]; cbn; by rewrite ?lookup_delete_ne.
Qed.

(** ann is online with socket 4 and bob with socket 9; the server has a file of its own. *)
Definition sharing : Chat disk :=
  mkChat {["users.dat"%string := File "ann|..."]} {["ann"%string := ann; "bob"%string := bob]} {["ann"%string := 4; "bob"%string := 9]}
    ∅ ∅ [] {[4; 9]}.

Definition note_id : string := generateFileId (e_now example_env) (e_file_draw example_env).

Lemma group_file_round_trip_witness : exists s1 s2 reply,
  chat_event (Receive 4 (wire (say MessageType.FILE_UPLOAD_GROUP "ann" "" (upload_content "note.txt" "to share"))), example_env) sharing = Ok tt s1 /\
  chat_event (Receive 9 (wire (say MessageType.FILE_DOWNLOAD_REQUEST "bob" "" note_id)), example_env) s1 = Ok tt s2 /\
  delivered s2 = delivered s1 ++ [(9, wire (mkMessage MessageType.FILE_DATA "server" "bob" (upload_content "note.txt" "to share") 1700001000)); (9, wire reply)].
Proof.
  pose (ps := [upload_temp "note.txt"; getGroupFilePath note_id; files_path]).
  destruct (group_file_round_trip (disk_plain ps) example_env example_env 4 9
    (say MessageType.FILE_UPLOAD_GROUP "ann" "" (upload_content "note.txt" "to share"))
    (say MessageType.FILE_DOWNLOAD_REQUEST "bob" "" note_id) sharing "ann" "bob" "note.txt" "to share")
    as (s1 & s2 & f & reply & E1 & _ & _ & _ & E2 & E3 & _).
  - cbn. set_solver.
  - apply message_check_ok. vm_compute. reflexivity.
  - discriminate.
  - reflexivity.
  - reflexivity.
  - reflexivity.
  - discriminate.
  - vm_compute. reflexivity.
  - vm_compute. reflexivity.
  - discriminate.
  - apply disk_plain_keeps. left.
  - apply disk_plain_keeps. right. left.
  - intros p Hp. cbn. rewrite lookup_singleton_Some. intros [_ ?]. discriminate.
  - apply disk_separate.
  - cbn. set_solver.
  - apply message_check_ok. vm_compute. reflexivity.
  - discriminate.
  - reflexivity.
  - reflexivity.
  - vm_compute. reflexivity.
  - discriminate.
  - exists s1, s2, reply. split; [exact E1|]. split; [exact E2|exact E3].
Defined.

Definition leak_id : string := generateSessionId (e_now example_env) (e_session_draw example_env).

(** ann reads the accounts of all users. *)
Lemma any_server_file_readable_witness : exists s1 s2 l,
  chat_event (Receive 4 (wire (say MessageType.FILE_TRANSFER_REQUEST "ann" "ann" "x|users.dat")), example_env) sharing = Ok tt s1 /\
  chat_event (Receive 4 (wire (say MessageType.FILE_TRANSFER_ACCEPT "ann" "ann" leak_id)), example_env) s1 = Ok tt s2 /\
  delivered s2 = delivered s1 ++ l /\
  (4, wire (mkMessage MessageType.FILE_DATA "server" "ann" (upload_content "x" "ann|...") 1700001000)) ∈ l.
Proof.
  destruct (any_server_file_readable (disk_plain [getTempFilePath leak_id]) example_env example_env 4
    (say MessageType.FILE_TRANSFER_REQUEST "ann" "ann" "x|users.dat") (say MessageType.FILE_TRANSFER_ACCEPT "ann" "ann" leak_id)
    sharing "ann" "x" "users.dat" (mkStat 33188 1 0 0 7 0) "ann|...") as (s1 & s2 & l & E1 & E2 & El & Hl & _).
  - cbn. set_solver.
  - discriminate.
  - vm_compute. reflexivity.
  - discriminate.
  - split; [apply message_check_ok; vm_compute; reflexivity|]. split; [discriminate|]. split_and!; reflexivity.
  - split; [apply message_check_ok; vm_compute; reflexivity|]. split; [discriminate|]. split_and!; reflexivity.
  - apply disk_plain_keeps. left.
  - intros p Hp. cbn. rewrite lookup_singleton_Some. intros [_ ?]. discriminate.
  - apply disk_separate.
  - vm_compute. discriminate.
  - vm_compute. reflexivity.
  - vm_compute. reflexivity.
  - discriminate.
  - exists s1, s2, l. split; [exact E1|]. split; [exact E2|]. split; [exact El|exact Hl].
Defined.
