(* ===== verification/StdChatClient.v ===== *)
(** * StdChatClient: the client of the terminal chat

    Models src/zsxq-cpp-ai/StdChatRoom: ChatClient.h and ChatClient.cpp, and the command
    lines of client_main.cpp and server_main.cpp. The client has two threads: one reads what
    is typed, the other what the server sends. Turns of the two loops follow each other in
    any order, each as a whole. The terminal's input that has not been read is part of the
    state; the address of the server is not. Of the console, what messages from the server
    make the client show is kept; prompts, menus, confirmations and complaints are left
    out. *)

From Stdlib Require Import Ascii String.
From S2P Require Import Prelude Text FtpProtocol StdChatData StdChatManagers.
Import Message.

Local Open Scope Z_scope.

Module ChatClient.
(** The clock, and what the system calls of one turn return. *)
Record ClientEnv : Type := mkClientEnv {
  c_now : Z;
  c_socket : Z;                     (* socket *)
  c_address : bool;                 (* inet_pton accepts the address *)
  c_connect : bool;
  c_took : string -> bool;          (* send takes the whole text *)
  c_wakes : bool;                   (* close makes a recv of the other thread return *)
  c_print_time : Z -> string }.

Record Client (F : Type) : Type := mkClient {
  files : F;
  clientSocket : Z;
  connected : bool;
  loggedIn : bool;
  currentUser : string;
  pendingDownloadPath : string;
  awaitingFileResponse : bool;
  pendingSessionId : string;
  pendingSender : string;
  pendingFilename : string;
  receiveThread : bool;             (* joinable *)
  receivedData : string;            (* of the receiving thread *)
  input : string;                   (* typed and not yet read *)
  sent : list string;               (* handed to send *)
  shown : list string }.
Arguments mkClient {F}. Arguments files {F}. Arguments clientSocket {F}. Arguments connected {F}. Arguments loggedIn {F}.
Arguments currentUser {F}. Arguments pendingDownloadPath {F}. Arguments awaitingFileResponse {F}. Arguments pendingSessionId {F}.
Arguments pendingSender {F}. Arguments pendingFilename {F}. Arguments receiveThread {F}. Arguments receivedData {F}.
Arguments input {F}. Arguments sent {F}. Arguments shown {F}.

Section setters.
Context {F : Type}.
Implicit Types c : Client F.

Definition set_link (sock : Z) (conn thread : bool) c : Client F :=
  mkClient (files c) sock conn (loggedIn c) (currentUser c) (pendingDownloadPath c) (awaitingFileResponse c) (pendingSessionId c)
    (pendingSender c) (pendingFilename c) thread (receivedData c) (input c) (sent c) (shown c).
Definition set_login (logged : bool) (user : string) c : Client F :=
  mkClient (files c) (clientSocket c) (connected c) logged user (pendingDownloadPath c) (awaitingFileResponse c) (pendingSessionId c)
    (pendingSender c) (pendingFilename c) (receiveThread c) (receivedData c) (input c) (sent c) (shown c).
Definition set_download (path : string) c : Client F :=
  mkClient (files c) (clientSocket c) (connected c) (loggedIn c) (currentUser c) path (awaitingFileResponse c) (pendingSessionId c)
    (pendingSender c) (pendingFilename c) (receiveThread c) (receivedData c) (input c) (sent c) (shown c).
Definition set_offer (awaiting : bool) (id from file : string) c : Client F :=
  mkClient (files c) (clientSocket c) (connected c) (loggedIn c) (currentUser c) (pendingDownloadPath c) awaiting id
    from file (receiveThread c) (receivedData c) (input c) (sent c) (shown c).
Definition set_streams (d : F) (data typed : string) (out screen : list string) c : Client F :=
  mkClient d (clientSocket c) (connected c) (loggedIn c) (currentUser c) (pendingDownloadPath c) (awaitingFileResponse c)
    (pendingSessionId c) (pendingSender c) (pendingFilename c) (receiveThread c) data typed out screen.
End setters.

(** ** Texts *)

Definition trim (s : string) : string := rstrip is_trimmed (lstrip is_trimmed s).

Definition extractFilename (path : string) : string :=
  match rsplit_at "/" path with Some (_, name) => name | None => path end.

(** The same as the server's. *)
Definition encodeFileContent (content : string) : string := StdChatData.encodeFileContent content.

(** Pairs of characters that are not digits are skipped, and so is a single one at the end. *)
Fixpoint decodeFileContent (encoded : string) : string :=
  match encoded with
  | String a (String b rest) =>
      match stoi16 (String a (String b "")) with
      | inr v => String (ascii_of_nat (Z.to_nat (wrap8 v))) (decodeFileContent rest)
      | inl _ => decodeFileContent rest
      end
  | _ => EmptyString
  end.

(** [isalnum] of a byte above 127 is false. *)
Definition isalnum (c : ascii) : bool :=
  let n := nat_of_ascii c in
  ((48 <=? n) && (n <=? 57) || (65 <=? n) && (n <=? 90) || (97 <=? n) && (n <=? 122))%nat.
Definition isValidUsername (name : string) : bool :=
  negb ((String.length name <? 3) || (20 <? String.length name))%nat && sforall (fun c => isalnum c || char_eqb c "_") name.
Definition isValidPassword (pwd : string) : bool := (6 <=? String.length pwd)%nat.

(** A backslash and an n become a line end. *)
Fixpoint unescape (s : string) : string :=
  match s with
  | String a (String b rest as s') => if char_eqb a "\" && char_eqb b "n" then String nl (unescape rest) else String a (unescape s')
  | _ => s
  end.

(** A password typed key by key; [None]: the input ends, and the loop does not. *)
Fixpoint typed_password (keys pwd : string) : option (string * string) :=
  match keys with
  | EmptyString => None
  | String ch rest =>
      let n := nat_of_ascii ch in
      if char_eqb ch nl || char_eqb ch cr then Some (pwd, rest)
      else if ((n =? 127) || (n =? 8))%nat then typed_password rest (substring 0 (String.length pwd - 1) pwd)
      else if ((32 <=? n) && (n <=? 126))%nat then typed_password rest (pwd +:+ String ch "")
      else typed_password rest pwd
  end.

(** The part after a prefix. *)
Definition after (prefix s : string) : option string :=
  if String.prefix prefix s then Some (substring (String.length prefix) (String.length s) s) else None.

Section client.
Context {F : Type} `{Unix F}.
Implicit Types c : Client F.
Abbreviation M := (cpp (Client F)).

Definition show (text : string) : M unit :=
  modify (fun c => set_streams (files c) (receivedData c) (input c) (sent c) (shown c ++ [text]) c).
Definition set_input (typed : string) : M unit :=
  modify (fun c => set_streams (files c) (receivedData c) typed (sent c) (shown c) c).

(** [std::getline(std::cin, ...)]; nothing at the end of the input. *)
Definition read_line : M string :=
  c ← get;
  match split_at nl (input c) with
  | Some (line, rest) => set_input rest ;; mret line
  | None => set_input "" ;; mret (input c)
  end.

Definition getHiddenPassword : M string :=
  c ← get;
  match typed_password (input c) "" with
  | Some (pwd, rest) => set_input rest ;; mret pwd
  | None => fun c => Blocked c
  end.

Definition fileExists (path : string) : M bool := gets (fun c => bool_decide (is_Some (u_stat (files c) path))).

(** ** The connection *)

Definition sendMessage (e : ClientEnv) (m : Message) : M bool :=
  c ← get;
  if negb (connected c) || (clientSocket c =? -1) then mret false else
  let data := Message.serialize m +:+ String nl "" in
  modify (fun c => set_streams (files c) (receivedData c) (input c) (sent c ++ [data]) (shown c) c) ;;
  mret (c_took e data).

Definition connectToServer (e : ClientEnv) : M bool :=
  c ← get;
  if connected c then mret true else
  modify (set_link (c_socket e) false (receiveThread c)) ;;
  if c_socket e =? -1 then mret false else
  if negb (c_address e) then mret false else
  if negb (c_connect e) then mret false else
  modify (set_link (c_socket e) true true) ;; mret true.

(** The thread is waited for, even when its [recv] does not notice the end. *)
Definition disconnect (e : ClientEnv) : M unit :=
  c ← get;
  if negb (connected c) then mret tt else
  modify (fun c => set_login false (currentUser c) (set_link (-1) false (receiveThread c) c)) ;;
  if receiveThread c then
    if c_wakes e then modify (fun c => set_link (clientSocket c) (connected c) false c) else fun c => Blocked c
  else mret tt.

(** The destructor; a thread that nobody has waited for ends the program. *)
Definition destroy (e : ClientEnv) : M unit :=
  disconnect e ;;
  c ← get;
  if receiveThread c then (fun _ => Undefined "std::terminate"%string) : M unit else mret tt.

(** ** Requests *)

Definition registerUser (e : ClientEnv) (name pwd mail : string) : M bool :=
  c ← get;
  if negb (connected c) then mret false else
  sendMessage e (mkMessage MessageType.REGISTER name mail pwd (c_now e)).

Definition loginUser (e : ClientEnv) (name pwd : string) : M bool :=
  c ← get;
  if negb (connected c) then mret false else
  if loggedIn c then mret true else
  ok ← sendMessage e (mkMessage MessageType.LOGIN name "" pwd (c_now e));
  if ok : bool then modify (fun c => set_login (loggedIn c) name c) ;; mret true else mret false.

Definition when_logged_in (act : string -> M bool) : M bool :=
  c ← get; if negb (loggedIn c) then mret false else act (currentUser c).

Definition logoutUser (e : ClientEnv) : M bool :=
  when_logged_in (fun user =>
    sendMessage e (mkMessage MessageType.LOGOUT user "" "" (c_now e)) ;;
    modify (set_login false "") ;; mret true).

Definition sendPublicMessage (e : ClientEnv) (text : string) : M bool :=
  when_logged_in (fun user =>
    if String.eqb text "" then mret false else
    sendMessage e (mkMessage MessageType.CHAT_PUBLIC user "" text (c_now e))).

Definition sendPrivateMessage (e : ClientEnv) (to text : string) : M bool :=
  when_logged_in (fun user =>
    if String.eqb to "" || String.eqb text "" then mret false else
    if String.eqb to user then mret false else
    sendMessage e (mkMessage MessageType.CHAT_PRIVATE user to text (c_now e))).

Definition requestUserList (e : ClientEnv) : M bool :=
  when_logged_in (fun user => sendMessage e (mkMessage MessageType.USER_LIST user "" "" (c_now e))).

Definition sendFileToUser (e : ClientEnv) (to path : string) : M bool :=
  when_logged_in (fun user =>
    ok ← fileExists path;
    if negb ok then mret false else
    sendMessage e (mkMessage MessageType.FILE_TRANSFER_REQUEST user to (extractFilename path +:+ "|" +:+ path) (c_now e))).

Definition uploadGroupFile (e : ClientEnv) (path : string) : M bool :=
  when_logged_in (fun user =>
    ok ← fileExists path;
    if negb ok then mret false else
    c ← get;
    match u_read (files c) path with
    | None => mret false
    | Some content =>
        sendMessage e (mkMessage MessageType.FILE_UPLOAD_GROUP user "GROUP_UPLOAD"
          (extractFilename path +:+ "#" +:+ to_string (Z.of_nat (String.length content)) +:+ "#" +:+ encodeFileContent content) (c_now e))
    end).

Definition requestGroupFileList (e : ClientEnv) : M bool :=
  when_logged_in (fun user => sendMessage e (mkMessage MessageType.FILE_LIST_REQUEST user "" "" (c_now e))).

Definition downloadGroupFile (e : ClientEnv) (id path : string) : M bool :=
  when_logged_in (fun user =>
    modify (set_download path) ;;
    sendMessage e (mkMessage MessageType.FILE_DOWNLOAD_REQUEST user path id (c_now e))).

Definition acceptFileTransfer (e : ClientEnv) (id from path : string) : M bool :=
  when_logged_in (fun user =>
    modify (set_download path) ;;
    sendMessage e (mkMessage MessageType.FILE_TRANSFER_ACCEPT user from id (c_now e))).

Definition rejectFileTransfer (e : ClientEnv) (id from : string) : M bool :=
  when_logged_in (fun user => sendMessage e (mkMessage MessageType.FILE_TRANSFER_REJECT user from id (c_now e))).

(** ** Messages of the server *)

Definition handleFileTransferRequest (m : Message) : M unit :=
  show (String nl "[文件传输] " +:+ sender m +:+ " 想要发送文件给你: " +:+ content m) ;;
  modify (set_offer true (receiver m) (sender m) (content m)).

Definition handleFileTransferResponse (m : Message) : M unit :=
  match type m with
  | MessageType.FILE_TRANSFER_ACCEPT =>
      show (String nl "[文件传输] " +:+ sender m +:+ " 接受了你的文件传输请求 (会话ID: " +:+ content m +:+ ")")
  | MessageType.FILE_TRANSFER_REJECT =>
      show (String nl "[文件传输] " +:+ sender m +:+ " 拒绝了你的文件传输请求 (会话ID: " +:+ content m +:+ ")")
  | _ => mret tt
  end.

(** Where a file that arrives is saved. *)
Definition save_path c (file : string) : string :=
  let path := pendingDownloadPath c in
  if String.eqb path "" || String.eqb path "." then file else
  match u_stat (files c) path with
  | Some st => if S_ISDIR (st_mode st) then path +:+ "/" +:+ file else path
  | None => path
  end.

Definition disk_act {A} (f : F -> A * F) : M A :=
  c ← get;
  let '(a, d) := f (files c) in
  modify (fun c => set_streams d (receivedData c) (input c) (sent c) (shown c) c) ;; mret a.

Definition handleFileData (m : Message) : M unit :=
  match split_at "#" (content m) with
  | None => show (String nl "[文件下载] 文件数据格式错误")
  | Some (file, rest) =>
      match split_at "#" rest with
      | None => show (String nl "[文件下载] 文件数据格式错误")
      | Some (sizeStr, encoded) =>
          let fileContent := decodeFileContent encoded in
          match stoull sizeStr with
          | inl err => throw err
          | inr expected =>
              let size := Z.of_nat (String.length fileContent) in
              if negb (size =? expected) then
                show (String nl "[文件下载] 文件大小不匹配，期望: " +:+ to_string expected +:+ ", 实际: " +:+ to_string size)
              else
                c ← get;
                let path := save_path c file in
                ok ← disk_act (fun d => u_open d path false);
                if negb ok then show (String nl "[文件下载] 无法创建文件: " +:+ path) else
                ok ← disk_act (fun d => u_write d path fileContent);
                (if ok : bool then show (String nl "[文件下载] 文件保存成功: " +:+ path +:+ " (" +:+ to_string size +:+ " 字节)")
                 else show (String nl "[文件下载] 文件保存失败")) ;;
                modify (set_download "")
          end
      end
  end.

Definition handle_response (m : Message) : M unit :=
  if String.eqb (sender m) "服务器" then
    (if contains "群文件列表" (content m) || contains "在线用户" (content m) then show (String nl (unescape (content m)))
     else show (String nl "[服务器] " +:+ content m)) ;;
    if String.eqb (content m) "登录成功" then modify (fun c => set_login true (currentUser c) c)
    else if contains "登录失败" (content m) then modify (set_login false "")
    else mret tt
  else show (String nl "[系统] [" +:+ sender m +:+ "] " +:+ content m).

Definition handleReceivedMessage (e : ClientEnv) (m : Message) : M unit :=
  match type m with
  | MessageType.RESPONSE => handle_response m
  | MessageType.CHAT_PUBLIC => show (String nl "[群聊] " +:+ sender m +:+ " (" +:+ c_print_time e (timestamp m) +:+ "): " +:+ content m)
  | MessageType.CHAT_PRIVATE => show (String nl "[私聊] " +:+ sender m +:+ " -> 我 (" +:+ c_print_time e (timestamp m) +:+ "): " +:+ content m)
  | MessageType.FILE_TRANSFER_REQUEST => handleFileTransferRequest m
  | MessageType.FILE_TRANSFER_ACCEPT | MessageType.FILE_TRANSFER_REJECT => handleFileTransferResponse m
  | MessageType.FILE_DATA => handleFileData m
  | _ => show (String nl "收到未知类型消息")
  end.

(** A line; exceptions end here. *)
Definition handle_line (e : ClientEnv) (line : string) : M unit :=
  if String.eqb line "" then mret tt else
  match Message.deserialize (c_now e) line with
  | inl _ => mret tt
  | inr m => fun c => match handleReceivedMessage e m c with Throw _ c' => Ok tt c' | r => r end
  end.

Definition set_received (data : string) : M unit :=
  modify (fun c => set_streams (files c) data (input c) (sent c) (shown c) c).

(** The complete lines of what has been received. *)
Fixpoint drain (fuel : nat) (e : ClientEnv) : M unit :=
  match fuel with
  | O => mret tt
  | S fuel' =>
      c ← get;
      match split_at nl (receivedData c) with
      | None => mret tt
      | Some (line, rest) => set_received rest ;; handle_line e line ;; drain fuel' e
      end
  end.

(** One turn of the receiving thread: what has arrived, of which [recv] takes as much as
    fits into the buffer; "" is a closed connection or an error. Each round of the inner
    loop takes at least the line end away, so that its length bounds the rounds. *)
Definition buffer_size : nat := 2000 + 2000 + 2000 + 2191.
Definition receiveMessages (e : ClientEnv) (arrived : string) : M unit :=
  c ← get;
  if negb (connected c) then mret tt else
  let received := substring 0 buffer_size arrived in
  if String.eqb received "" then
    modify (fun c => set_login false (currentUser c) (set_link (clientSocket c) false (receiveThread c) c))
  else
    set_received (receivedData c +:+ received) ;;
    drain (S (String.length (receivedData c +:+ received))) e.

(** ** What is typed *)

Definition handleLoginRegister (e : ClientEnv) : M unit :=
  c ← get;
  if loggedIn c then mret tt else
  choice ← read_line;
  let choice := trim choice in
  if String.eqb choice "1" then
    name ← read_line;
    let name := trim name in
    if negb (isValidUsername name) then mret tt else
    pwd ← getHiddenPassword;
    let pwd := trim pwd in
    if negb (isValidPassword pwd) then mret tt else
    loginUser e name pwd ;; mret tt
  else if String.eqb choice "2" then
    name ← read_line;
    let name := trim name in
    if negb (isValidUsername name) then mret tt else
    pwd ← getHiddenPassword;
    let pwd := trim pwd in
    if negb (isValidPassword pwd) then mret tt else
    mail ← read_line;
    registerUser e name pwd (trim mail) ;; mret tt
  else if String.eqb choice "3" then disconnect e
  else mret tt.

(** The answer to an offered file. *)
Definition answer_offer (e : ClientEnv) (line : string) : M unit :=
  c ← get;
  if String.eqb line "y" || String.eqb line "Y" then
    path ← read_line;
    let path := trim path in
    acceptFileTransfer e (pendingSessionId c) (pendingSender c) (if String.eqb path "" then "." else path) ;;
    modify (set_offer false "" "" "")
  else if String.eqb line "n" || String.eqb line "N" then
    rejectFileTransfer e (pendingSessionId c) (pendingSender c) ;;
    modify (set_offer false "" "" "")
  else mret tt.

Definition slash_command (e : ClientEnv) (line : string) : M unit :=
  if String.eqb line "/list" then requestUserList e ;; mret tt
  else if String.eqb line "/files" then requestGroupFileList e ;; mret tt
  else if String.eqb line "/logout" then logoutUser e ;; mret tt
  else if String.eqb line "/quit" then disconnect e
  else match after "/upload " line with
  | Some path =>
      let path := trim path in
      if String.eqb path "" then mret tt else uploadGroupFile e path ;; mret tt
  | None =>
  match after "/download " line with
  | Some params =>
      let '(id, rest) := next_word params in
      let '(path, _) := next_word rest in
      if String.eqb id "" || String.eqb path "" then mret tt else downloadGroupFile e id path ;; mret tt
  | None =>
  match after "/send " line with
  | Some params =>
      let '(name, rest) := next_word params in
      let '(path, _) := next_word rest in
      if String.eqb name "" || String.eqb path "" then mret tt else sendFileToUser e name path ;; mret tt
  | None => mret tt
  end end end.

(** "@name text" *)
Definition private_command (e : ClientEnv) (line : string) : M unit :=
  match split_at " " line with
  | Some (String _ to, text) =>
      if String.eqb to "" || String.eqb text "" then mret tt else sendPrivateMessage e to text ;; mret tt
  | _ => mret tt
  end.

Definition handleChatInput (e : ClientEnv) : M unit :=
  line ← read_line;
  let line := trim line in
  c ← get;
  match line with
  | EmptyString => mret tt
  | String first _ =>
      if awaitingFileResponse c then answer_offer e line
      else if char_eqb first "/" then slash_command e line
      else if char_eqb first "@" then private_command e line
      else sendPublicMessage e line ;; mret tt
  end.

(** ** The program *)

(** One turn of the loop in [run]. *)
Definition run_turn (e : ClientEnv) : M unit :=
  c ← get;
  if negb (connected c) then mret tt else
  if negb (loggedIn c) then handleLoginRegister e else handleChatInput e.

(** The main thread goes on, or something arrives. *)
Inductive ClientEvent : Set := Turn | Arrive (arrived : string).
Definition client_event (ev : ClientEvent * ClientEnv) : M unit :=
  match ev.1 with Turn => run_turn ev.2 | Arrive arrived => receiveMessages ev.2 arrived end.
Definition client_run (events : list (ClientEvent * ClientEnv)) : M unit := iterM client_event events.

Definition Client_new (d : F) (typed : string) : Client F :=
  mkClient d (-1) false false "" "" false "" "" "" false "" typed [] [].

(** The program: [e] connects and, at the end, disconnects. *)
Definition client_program (e : ClientEnv) (events : list (ClientEvent * ClientEnv)) : M unit :=
  ok ← connectToServer e;
  (if ok : bool then client_run events else mret tt) ;;
  destroy e.
End client.

(** ** Command lines *)

(** The port a command line names: in the range, an error message, or the default. *)
Definition port_argument (arg : string) : option Z :=
  match stoi arg with
  | inr p => if (p <? 1024) || (65535 <? p) then None else Some p
  | inl _ => None
  end.

Definition server_options (args : list string) : Z + Z :=
  match args with
  | [] => inr 9999
  | p :: _ => match port_argument p with Some n => inr n | None => inl 1 end
  end.

(** Address and port, or the exit code. *)
Definition client_options (args : list string) : Z + string * Z :=
  match args with
  | [] => inr ("127.0.0.1"%string, 9999)
  | a :: rest =>
      if String.eqb a "-h" || String.eqb a "--help" then inl 0 else
      match rest with
      | [] => inr (a, 9999)
      | p :: _ => match port_argument p with Some n => inr (a, n) | None => inl 1 end
      end
  end.
End ChatClient.
