(* ===== verification/StdChatStream.v ===== *)
(** * StdChatStream: how the client of the terminal chat takes what the server sends

    The receiving thread keeps what has arrived until a line is complete. However the
    network cuts the stream, the messages are handled as they were sent. *)

From Stdlib Require Import Ascii String.
From S2P Require Import Prelude Text FtpProtocol FtpDisk StdChatData StdChatManagers StdChatCodec StdChatServer StdChatUse StdChatClient.
Import Message ChatClient.

Local Open Scope Z_scope.

(** The complete lines of a text, and the rest. *)
Fixpoint complete_lines (s : string) : list string * string :=
  match s with
  | EmptyString => ([], EmptyString)
  | String x s' =>
      let '(ls, r) := complete_lines s' in
      if char_eqb x nl then (EmptyString :: ls, r) else
      match ls with [] => ([], String x r) | l :: ls' => (String x l :: ls', r) end
  end.

Lemma complete_lines_split s : complete_lines s =
  match split_at nl s with Some (l, rest) => let '(ls, r) := complete_lines rest in (l :: ls, r) | None => ([], s) end.
Proof.
  induction s as [|x s IH]; [done|]. cbn [complete_lines split_at]. unfold char_eqb. destruct (Ascii.eqb x nl); [|rewrite IH].
  - done.
  - destruct (split_at nl s) as [[l rest]|]; [|done]. by destruct (complete_lines rest).
Qed.

Lemma complete_lines_app a b : complete_lines (a +:+ b) =
  let '(l1, r1) := complete_lines a in let '(l2, r2) := complete_lines (r1 +:+ b) in (l1 ++ l2, r2).
Proof.
  induction a as [|x a IH]; [rewrite app_empty_l; cbn [complete_lines]; rewrite app_empty_l; by destruct (complete_lines b)|]. rewrite app_cons. cbn [complete_lines]. rewrite IH.
  destruct (complete_lines a) as [[|l1 ls] r1].
  - destruct (complete_lines (r1 +:+ b)) as [l2 r2] eqn:E. cbn [app]. destruct (char_eqb x nl) eqn:Hx.
    + rewrite E. done.
    + rewrite app_cons. cbn [complete_lines]. rewrite E, Hx. by destruct l2.
  - destruct (complete_lines (r1 +:+ b)) as [l2 r2] eqn:E. cbn [app]. destruct (char_eqb x nl); rewrite E; done.
Qed.

Lemma complete_lines_rest s : no_char nl (complete_lines s).2 = true.
Proof.
  induction s as [|x s IH]; [done|]. cbn [complete_lines]. destruct (complete_lines s) as [[|l ls] r]; cbn [snd] in IH.
  - destruct (char_eqb x nl) eqn:E; [done|]. cbn [snd]. apply no_char_cons. split; [by apply Ascii.eqb_neq|done].
  - by destruct (char_eqb x nl).
Qed.

Lemma split_at_shorter x s a b : split_at x s = Some (a, b) -> (String.length b < String.length s)%nat.
Proof.
  revert a b. induction s as [|y s IH]; intros a b; [done|]. cbn. destruct (char_eqb y x); [intros [= _ ->]; lia|].
  destruct (split_at x s) as [[a' b']|] eqn:E; [|done]. intros [= _ ->]. specialize (IH _ _ eq_refl). lia.
Qed.

Section stream.
Context {F : Type} {HU : Unix F}.
Implicit Types c : Client F.

Definition with_data (d : string) c : Client F := set_streams (files c) d (input c) (sent c) (shown c) c.

Definition on_state {S A} (g : S -> S) (r : result S A) : result S A :=
  match r with Ok a s => Ok a (g s) | Throw e s => Throw e (g s) | Blocked s => Blocked (g s) | Undefined w => Undefined w end.

(** Actions of the handlers: they return or throw, leave the connection alone and do not
    look at what has been received. *)
Definition handles {A} (f : cpp (Client F) A) : Prop :=
  (forall d c, f (with_data d c) = on_state (with_data d) (f c)) /\
  (forall c, match f c with Ok _ c' | Throw _ c' => connected c' = connected c | _ => False end).

Lemma handles_ret {A} (a : A) : handles (mret a).
Proof. by split. Qed.
Lemma handles_throw {A} err : handles (throw (A := A) err).
Proof. by split. Qed.
Lemma handles_bind {A B} (f : cpp (Client F) A) (k : A -> cpp (Client F) B) : handles f -> (forall a, handles (k a)) -> handles (f ≫= k).
Proof.
  intros [Hf Cf] Hk. split.
  - intros d c. unfold mbind, cpp_bind. specialize (Hf d c). specialize (Cf c). rewrite Hf.
    destruct (f c) as [a c'|err c'| |]; cbn; [apply Hk|done..].
  - intros c. unfold mbind, cpp_bind. specialize (Cf c). destruct (f c) as [a c'|err c'| |]; [|done..].
    destruct (Hk a) as [_ Ck]. specialize (Ck c'). destruct (k a c'); try done; congruence.
Qed.
Lemma handles_modify g : (forall d c, g (with_data d c) = with_data d (g c)) -> (forall c, connected (g c) = connected c) -> handles (modify g).
Proof. intros Hg Cg. split; [|exact Cg]. intros d c. unfold modify, on_state. by rewrite Hg. Qed.
Lemma handles_get {A} (k : Client F -> cpp (Client F) A) : (forall d c, k (with_data d c) = k c) -> (forall c, handles (k c)) -> handles (get ≫= k).
Proof.
  intros Hk Hh. split.
  - intros d c. rewrite (bind_Ok get _ _ _ _ eq_refl), (bind_Ok get _ c c c eq_refl), Hk. apply Hh.
  - intros c. rewrite (bind_Ok get _ c c c eq_refl). apply Hh.
Qed.
Lemma handles_disk {A} (f : F -> A * F) : handles (disk_act f).
Proof.
  unfold disk_act. apply handles_get; [done|]. intros c. destruct (f (files c)) as [a d]. apply handles_bind; [by apply handles_modify|].
  intros _. apply handles_ret.
Qed.
Lemma handles_show text : handles (show text).
Proof. by apply handles_modify. Qed.
#[local] Hint Resolve handles_ret handles_throw handles_disk handles_show : core.
#[local] Hint Extern 1 (handles (modify _)) => by apply handles_modify : core.

Lemma handles_file_data m : handles (handleFileData m).
Proof.
  unfold handleFileData. destruct (split_at "#" (content m)) as [[file rest]|]; [|auto].
  destruct (split_at "#" rest) as [[sizeStr encoded]|]; [|auto]. destruct (stoull sizeStr) as [err|expected]; [auto|]. cbv zeta.
  destruct (negb _); [auto|]. apply handles_get; [done|]. intros c. apply handles_bind; [auto|]. intros [|]; cbn [negb]; [|auto].
  apply handles_bind; [auto|]. intros ok. apply handles_bind; [by destruct ok; auto|auto].
Qed.

Lemma handles_response m : handles (handle_response m).
Proof.
  unfold handle_response. destruct (String.eqb _ _); [|auto]. apply handles_bind; [destruct (_ || _); auto|]. intros _.
  destruct (String.eqb _ _); [auto|]. destruct (contains _ _); auto.
Qed.

Lemma handles_message e m : handles (handleReceivedMessage e m).
Proof.
  unfold handleReceivedMessage. destruct (type m); auto using handles_response, handles_file_data.
  - unfold handleFileTransferRequest. apply handles_bind; auto.
  - unfold handleFileTransferResponse. destruct (type m); auto.
  - unfold handleFileTransferResponse. destruct (type m); auto.
Qed.

(** A message is handled, whether or not it throws. *)
Definition take_message (e : ClientEnv) (m : Message) : cpp (Client F) unit :=
  fun c => match handleReceivedMessage e m c with Throw _ c' => Ok tt c' | r => r end.

Lemma handles_take e m : handles (take_message e m).
Proof.
  destruct (handles_message e m) as [Hd Hc]. split.
  - intros d c. unfold take_message. rewrite Hd. by destruct (handleReceivedMessage e m c).
  - intros c. unfold take_message. specialize (Hc c). by destruct (handleReceivedMessage e m c).
Qed.

Lemma handles_line e line : handles (handle_line e line).
Proof.
  unfold handle_line. destruct (String.eqb line ""); [auto|]. destruct (Message.deserialize (c_now e) line) as [err|m]; [auto|].
  apply handles_take.
Qed.

Lemma line_Ok e line c : exists c', handle_line e line c = Ok tt c' /\ connected c' = connected c.
Proof.
  destruct (handles_line e line) as [_ Hc]. specialize (Hc c). revert Hc. unfold handle_line. destruct (String.eqb line ""); [by eexists|].
  destruct (Message.deserialize (c_now e) line) as [err|m]; [by eexists|].
  destruct (handleReceivedMessage e m c) as [[] c'|err c'| |]; try done; by eexists.
Qed.

Lemma handles_iter e ls : handles (iterM (handle_line e) ls).
Proof. induction ls as [|l ls IH]; cbn [iterM]; [auto|]. apply handles_bind; [apply handles_line|done]. Qed.

Lemma lines_Ok e ls c : exists c', iterM (handle_line e) ls c = Ok tt c' /\ connected c' = connected c.
Proof.
  revert c. induction ls as [|l ls IH]; intros c; cbn [iterM]; [by eexists|].
  destruct (line_Ok e l c) as (c1 & E1 & H1). rewrite (bind_Ok _ _ _ _ _ E1). destruct (IH c1) as (c2 & E2 & H2). exists c2. split; congruence.
Qed.

(** The inner loop handles all complete lines and keeps the rest; it has enough fuel. *)
Lemma drain_spec fuel e data c : (String.length data < fuel)%nat -> drain fuel e (with_data data c) =
  (iterM (handle_line e) (complete_lines data).1 ;; set_received (complete_lines data).2) c.
Proof.
  revert data c. induction fuel as [|fuel IH]; intros data c Hf; [lia|]. cbn [drain].
  rewrite (bind_Ok get _ _ _ _ eq_refl). change (receivedData (with_data data c)) with data. rewrite complete_lines_split.
  destruct (split_at nl data) as [[l rest]|] eqn:E; [|done]. apply split_at_shorter in E.
  rewrite (bind_Ok (set_received rest) _ (with_data data c) tt (with_data rest c) eq_refl).
  destruct (line_Ok e l c) as (c1 & E1 & _). destruct (handles_line e l) as [Hl _].
  assert (E2 : handle_line e l (with_data rest c) = Ok tt (with_data rest c1)) by (by rewrite Hl, E1).
  rewrite (bind_Ok _ _ _ _ _ E2), IH by lia. destruct (complete_lines rest) as [ls r]. cbn [fst snd iterM].
  by rewrite bind_assoc, (bind_Ok _ _ _ _ _ E1).
Qed.

(** A piece of the stream that one call of [recv] takes. *)
Definition piece (t : string) : Prop := t <> ""%string /\ (String.length t <= buffer_size)%nat.

Lemma receive_spec e b t c : connected c = true -> piece t -> receiveMessages e t (with_data b c) =
  (iterM (handle_line e) (complete_lines (b +:+ t)).1 ;; set_received (complete_lines (b +:+ t)).2) c.
Proof.
  intros Hc [Hne Hlen]. unfold receiveMessages. rewrite (bind_Ok get _ _ _ _ eq_refl). change (connected (with_data b c)) with (connected c).
  rewrite Hc. cbn [negb]. rewrite substring_all by done. cbv zeta. apply String.eqb_neq in Hne as ->.
  change (receivedData (with_data b c)) with b. rewrite (bind_Ok (set_received _) _ (with_data b c) tt (with_data (b +:+ t) c) eq_refl).
  apply drain_spec. lia.
Qed.

Definition arrivals (e : ClientEnv) (ts : list string) : list (ClientEvent * ClientEnv) := (fun t => (Arrive t, e)) <$> ts.

Lemma pieces_spec e ts b c : no_char nl b = true -> connected c = true -> Forall piece ts -> client_run (arrivals e ts) (with_data b c) =
  (iterM (handle_line e) (complete_lines (b +:+ sconcat ts)).1 ;; set_received (complete_lines (b +:+ sconcat ts)).2) c.
Proof.
  intros Hb Hc Hts. revert b c Hb Hc. induction Hts as [|t ts Ht Hts IH]; intros b c Hb Hc; cbn [arrivals fmap list_fmap client_run iterM sconcat foldr].
  { rewrite sapp_nil_r, complete_lines_split, split_at_none by done. done. }
  pose proof (complete_lines_app (b +:+ t) (sconcat ts)) as Happ. rewrite sapp_assoc in Happ. unfold sconcat in Happ. rewrite Happ.
  pose proof (complete_lines_rest (b +:+ t)) as Hr. pose proof (receive_spec e b t c Hc Ht) as Erec.
  destruct (complete_lines (b +:+ t)) as [l1 r1]. cbn [fst snd] in Erec, Hr.
  destruct (lines_Ok e l1 c) as (c1 & E1 & Hc1). rewrite (bind_Ok _ _ _ _ _ E1) in Erec.
  change (client_event (Arrive t, e)) with (receiveMessages (F := F) e t).
  rewrite (bind_Ok _ _ _ _ _ Erec). unfold client_run in IH. change (modify _ _) with (Ok tt (with_data r1 c1)). 
  specialize (IH r1 c1 Hr ltac:(congruence)). unfold sconcat, arrivals in IH.
  transitivity (iterM client_event ((fun t => (Arrive t, e)) <$> ts) (with_data r1 c1)); [done|]. rewrite IH.
  destruct (complete_lines (r1 +:+ _)) as [l2 r2]. cbn [fst snd].
  unfold mbind, cpp_bind. rewrite iterM_app. unfold mbind, cpp_bind. by rewrite E1.
Qed.

(** A message that is one line. *)
Definition line_message (m : Message) : Prop :=
  message_ok m /\ no_char nl (sender m) = true /\ no_char nl (receiver m) = true.

Lemma serialize_line m : line_message m -> no_char nl (Message.serialize m) = true.
Proof.
  intros ((_ & _ & _ & Hc & _) & Hs & Hr). unfold Message.serialize. rewrite !no_char_app, Hc, Hs, Hr, !to_string_no_char by done. done.
Qed.

Lemma wires_complete ms : Forall line_message ms -> complete_lines (sconcat (wire <$> ms)) = (Message.serialize <$> ms, ""%string).
Proof.
  induction 1 as [|m ms Hm _ IH]; [done|]. cbn [fmap list_fmap sconcat foldr]. unfold wire at 1. rewrite sapp_assoc, app_cons, app_empty_l.
  rewrite complete_lines_split, split_at_app by (by apply serialize_line). unfold sconcat in IH. by rewrite IH.
Qed.

Lemma line_is_message e m c : message_ok m -> handle_line e (Message.serialize m) c = take_message e m c.
Proof.
  intros Hm. unfold handle_line. rewrite message_parses by done.
  destruct (String.eqb_spec (Message.serialize m) "") as [E|_]; [|done]. unfold Message.serialize in E. by destruct (to_string (MessageType.to_int (type m))).
Qed.

(** Pieces of any size, from a client that has not kept the front of a line. *)
Lemma stream_handled e ts ms c : connected c = true -> receivedData c = ""%string -> Forall line_message ms -> Forall piece ts ->
  sconcat ts = sconcat (wire <$> ms) -> client_run (arrivals e ts) c = iterM (take_message e) ms c.
Proof.
  intros Hc Hd Hms Hts E. assert (Hw : c = with_data "" c) by (destruct c; cbn in Hd; by subst).
  rewrite Hw at 1. rewrite pieces_spec by done. rewrite app_empty_l, E, wires_complete by done. cbn [fst snd].
  assert (El : forall c0, iterM (handle_line e) (Message.serialize <$> ms) c0 = iterM (take_message e) ms c0).
  { clear -Hms. induction Hms as [|m ms [Hm _] _ IH]; intros c0; [done|]. cbn [fmap list_fmap iterM]. unfold mbind, cpp_bind.
    rewrite line_is_message by done. destruct (take_message e m c0); [apply IH|done..]. }
  destruct (lines_Ok e (Message.serialize <$> ms) c) as (c1 & E1 & _). rewrite (bind_Ok _ _ _ _ _ E1).
  destruct (handles_iter e (Message.serialize <$> ms)) as [Hh _]. specialize (Hh ""%string c). rewrite <-Hw, E1 in Hh. cbn [on_state] in Hh.
  change (Ok tt (with_data "" c1) = iterM (take_message e) ms c). by rewrite <-El, E1, <-Hh.
Qed.
End stream.

Section claims.
Context {F : Type} {HU : Unix F}.

End claims.

(** ** An example *)

Definition example_client_env : ClientEnv := mkClientEnv 1700001000 5 true true (fun _ => true) true (fun _ => "12:00"%string).

(** A client that is logged in and has typed something. *)
Definition at_work (d : disk) (user typed : string) : Client disk :=
  mkClient d 5 true true user "" false "" "" "" true "" typed [] [].

Definition two_messages : list Message := [say MessageType.CHAT_PUBLIC "bob" "" "hello"; say MessageType.CHAT_PRIVATE "bob" "ann" "a|b"].
Definition in_pieces : list string :=
  let text := sconcat (wire <$> two_messages) in [substring 0 7 text; substring 7 40 text; substring 47 100 text].

