(* ===== verification/StdChatLink.v ===== *)
(** * StdChatLink: clients and server of the terminal chat together

    What a user types at one client, what the server makes of it and what another client
    does with the answer: logging in, and a file that goes from one user's machine to
    another's. And the end of the client when the server is the first to leave. *)

From Stdlib Require Import Ascii String.
From S2P Require Import Prelude Text FtpProtocol FtpDisk StdChatData StdChatManagers StdChatCodec StdChatServer StdChatProps StdChatUse StdChatShare StdChatClient StdChatStream.
Import Message ChatClient.

Local Open Scope Z_scope.

(** ** Texts *)

Lemma client_trim_id s : head_not is_trimmed s = true -> last_not is_trimmed s = true -> ChatClient.trim s = s.
Proof. apply line_trim_id. Qed.

Lemma after_prefix p s : after p (p +:+ s) = Some s.
Proof.
  unfold after. assert (Hp : String.prefix p (p +:+ s) = true).
  { induction p as [|x p IH]; [by destruct s|]. rewrite app_cons. cbn. by destruct (ascii_dec x x). }
  rewrite Hp, substring_skip, substring_all; [done|rewrite slength_app; lia].
Qed.

Lemma decode_lenient c : ChatClient.decodeFileContent (ChatClient.encodeFileContent c) = c.
Proof.
  unfold ChatClient.encodeFileContent. induction c as [|x c IH]; [done|]. cbn [StdChatData.encodeFileContent ChatClient.decodeFileContent].
  pose proof (nat_ascii_bounded x) as Hb. set (n := Z.of_nat (nat_of_ascii x)). assert (0 <= n < 256) by (unfold n; lia).
  assert (0 <= n / 16 < 16) by (split; [apply Z.div_pos; lia|apply Z.div_lt_upper_bound; lia]).
  pose proof (Z.mod_pos_bound n 16). rewrite stoi16_digits, IH by lia.
  replace (n / 16 * 16 + n mod 16) with n by (pose proof (Z.div_mod n 16); lia).
  unfold wrap8, u8_max. rewrite Z.mod_small by lia. unfold n. by rewrite Nat2Z.id, ascii_nat_embedding.
Qed.

(** A word: not empty and without white space. *)
Definition word (w : string) : Prop := w <> ""%string /\ sforall (fun x => negb (is_space x)) w = true.

Lemma trimmed_space x : is_trimmed x = true -> is_space x = true.
Proof. unfold is_trimmed, is_space. destruct (char_eqb x " "), (char_eqb x tab), (char_eqb x cr), (char_eqb x nl); try done; by rewrite ?orb_true_r. Qed.

Lemma word_trimmed w : word w -> sforall (fun x => negb (is_trimmed x)) w = true.
Proof.
  intros [_ Hw]. revert Hw. apply sforall_impl. intros x. rewrite !negb_true_iff. intros Hx.
  destruct (is_trimmed x) eqn:E; [|done]. apply trimmed_space in E. congruence.
Qed.
Lemma word_last w : word w -> last_not is_trimmed w = true.
Proof. intros Hw. by apply sforall_last, word_trimmed. Qed.
Lemma word_head w : word w -> head_not is_trimmed w = true.
Proof.
  intros Hw. apply word_trimmed in Hw as Ht. destruct w as [|x w]; [done|]. cbn in Ht. by apply andb_true_iff in Ht as [? _].
Qed.
Lemma word_line w : word w -> no_char nl w = true.
Proof.
  intros [_ Hw]. revert Hw. apply sforall_impl. intros x. rewrite !negb_true_iff. intros Hx.
  destruct (char_eqb x nl) eqn:E; [|done]. apply Ascii.eqb_eq in E as ->. done.
Qed.
Lemma word_next w rest : word w -> head_not (fun x => negb (is_space x)) rest = true -> next_word (w +:+ rest) = (w, rest).
Proof. intros [Hne Hw]. by apply next_word_app. Qed.

(** Names and passwords as they are typed. *)

Lemma valid_name_trimmed name : isValidUsername name = true -> sforall (fun x => negb (is_trimmed x)) name = true.
Proof.
  unfold isValidUsername. intros [_ Hn]%andb_true_iff. revert Hn. apply sforall_impl. intros x.
  destruct x as [[] [] [] [] [] [] [] []]; vm_compute; done.
Qed.

(** A key that is not for editing. *)
Definition printable (x : ascii) : bool := ((32 <=? nat_of_ascii x) && (nat_of_ascii x <=? 126))%nat.

Lemma typed_password_app pwd rest acc : sforall printable pwd = true ->
  typed_password (pwd +:+ String nl rest) acc = Some (acc +:+ pwd, rest).
Proof.
  revert acc. induction pwd as [|x pwd IH]; intros acc; [intros _; by rewrite app_empty_l, sapp_nil_r|].
  cbn [sforall]. intros [Hx Hp]%andb_true_iff. rewrite app_cons. cbn [typed_password].
  assert (Hk : char_eqb x nl || char_eqb x cr = false /\ ((nat_of_ascii x =? 127) || (nat_of_ascii x =? 8))%nat = false).
  { revert Hx. unfold printable. destruct x as [[] [] [] [] [] [] [] []]; vm_compute; done. }
  destruct Hk as [-> ->]. unfold printable in Hx. rewrite Hx, IH by done. by rewrite sapp_assoc.
Qed.

Section turns.
Context {G : Type} {HG : Unix G}.
Implicit Types c : Client G.

(** ** A client that is logged in *)

Record prompt c (user typed : string) : Prop := mkPrompt {
  p_connected : connected c = true; p_logged : loggedIn c = true; p_socket : clientSocket c <> -1;
  p_free : awaitingFileResponse c = false; p_user : currentUser c = user; p_data : receivedData c = ""%string;
  p_input : input c = typed }.

(** What has been read and sent by a turn. *)
Definition after_turn (rest : string) (out : list string) c : Client G :=
  set_streams (files c) (receivedData c) rest (sent c ++ out) (shown c) c.

Lemma read_line_app line rest c : input c = line +:+ String nl rest -> no_char nl line = true -> read_line c = Ok line (after_turn rest [] c).
Proof.
  intros Hi Hl. unfold read_line. rewrite (bind_Ok get _ c c c eq_refl), Hi, split_at_app by done.
  unfold after_turn. by rewrite app_nil_r.
Qed.

Lemma send_open e m c : connected c = true -> clientSocket c <> -1 ->
  ChatClient.sendMessage e m c = Ok (c_took e (wire m)) (after_turn (input c) [wire m] c).
Proof.
  intros Hc Hs. unfold ChatClient.sendMessage. rewrite (bind_Ok get _ c c c eq_refl), Hc. apply Z.eqb_neq in Hs as ->. done.
Qed.

Lemma logged_in act c user : loggedIn c = true -> currentUser c = user -> when_logged_in act c = act user c.
Proof. intros Hl Hu. unfold when_logged_in. by rewrite (bind_Ok get _ c c c eq_refl), Hl, Hu. Qed.

(** A command that begins with a slash. *)
Lemma slash_turn e c user line rest : prompt c user (String "/" line +:+ String nl rest) -> no_char nl (String "/" line) = true ->
  last_not is_trimmed (String "/" line) = true -> run_turn e c = slash_command e (String "/" line) (after_turn rest [] c).
Proof.
  intros [Hc Hl Hs Hf Hu Hd Hi] Hn Ht. unfold run_turn. rewrite (bind_Ok get _ c c c eq_refl), Hc, Hl. cbn [negb].
  unfold handleChatInput. rewrite (bind_Ok _ _ _ _ _ (read_line_app _ _ _ Hi Hn)), client_trim_id by done. cbv zeta.
  rewrite (bind_Ok get _ (after_turn rest [] c) _ _ eq_refl). change (awaitingFileResponse (after_turn rest [] c)) with (awaitingFileResponse c).
  by rewrite Hf.
Qed.

(** What an upload sends. *)
Definition upload_message (e : ClientEnv) (user path content : string) : Message :=
  mkMessage MessageType.FILE_UPLOAD_GROUP user "GROUP_UPLOAD" (upload_content (extractFilename path) content) (c_now e).

Lemma upload_turn e c user path rest content : prompt c user ("/upload " +:+ path +:+ String nl rest) -> word path ->
  is_Some (u_stat (files c) path) -> u_read (files c) path = Some content ->
  run_turn e c = Ok tt (after_turn rest [wire (upload_message e user path content)] c).
Proof.
  intros Hp Hw Hst Hr. assert (Hne : path <> ""%string) by apply Hw.
  rewrite (slash_turn e c user ("upload " +:+ path) rest).
  - change (String "/" ("upload " +:+ path)) with ("/upload " +:+ path)%string. unfold slash_command.
    rewrite after_prefix. cbv beta iota. rewrite client_trim_id by (by apply word_last || by apply word_head).
    cbv zeta. apply String.eqb_neq in Hne as ->. unfold ChatClient.uploadGroupFile. set (c1 := after_turn rest [] c).
    destruct Hp as [Hc Hl Hs Hf Hu Hd Hi].
    assert (E : when_logged_in (fun user => ok ← ChatClient.fileExists path; if negb ok then mret false else c ← get;
      match u_read (files c) path with None => mret false | Some content => ChatClient.sendMessage e (upload_message e user path content) end) c1
      = Ok (c_took e (wire (upload_message e user path content))) (after_turn rest [wire (upload_message e user path content)] c)).
    { rewrite (logged_in _ c1 user) by done. unfold ChatClient.fileExists. rewrite (bind_Ok (gets _) _ c1 _ c1 eq_refl).
      change (files c1) with (files c). rewrite bool_decide_true by done. cbn [negb]. rewrite (bind_Ok get _ c1 c1 c1 eq_refl).
      change (files c1) with (files c). rewrite Hr, send_open by done. unfold after_turn, c1. cbn. by rewrite app_nil_r. }
    exact (bind_Ok _ _ _ _ _ E).
  - destruct Hp. split; try done.
  - change (String "/" ("upload " +:+ path)) with ("/upload " +:+ path)%string. rewrite no_char_app, (word_line path) by done. done.
  - change (String "/" ("upload " +:+ path)) with ("/upload " +:+ path)%string. rewrite last_not_app by done. by apply word_last.
Qed.

Definition download_message (e : ClientEnv) (user id path : string) : Message :=
  mkMessage MessageType.FILE_DOWNLOAD_REQUEST user path id (c_now e).

Lemma download_turn e c user id path rest : prompt c user ("/download " +:+ id +:+ " " +:+ path +:+ String nl rest) -> word id -> word path ->
  run_turn e c = Ok tt (set_download path (after_turn rest [wire (download_message e user id path)] c)).
Proof.
  intros Hp Hid Hw. assert (Hne1 : id <> ""%string) by apply Hid. assert (Hne2 : path <> ""%string) by apply Hw.
  rewrite (slash_turn e c user ("download " +:+ id +:+ " " +:+ path) rest).
  - change (String "/" ("download " +:+ id +:+ " " +:+ path)) with ("/download " +:+ id +:+ " " +:+ path)%string. unfold slash_command.
    rewrite after_prefix. change (after "/upload " _) with (@None string). cbv beta iota.
    rewrite (word_next id (" " +:+ path)) by done. cbv beta iota.
    assert (E2 : next_word (" " +:+ path) = (path, ""%string)).
    { change (" " +:+ path) with (String " " path). rewrite next_word_skip by done. rewrite <-(sapp_nil_r path) at 1. by apply word_next. }
    rewrite E2. cbv beta iota. apply String.eqb_neq in Hne1 as ->. apply String.eqb_neq in Hne2 as ->.
    cbn [orb]. unfold ChatClient.downloadGroupFile. set (c1 := after_turn rest [] c). destruct Hp as [Hc Hl Hs Hf Hu Hd Hi].
    assert (E : when_logged_in (fun user => modify (set_download path) ;; ChatClient.sendMessage e (download_message e user id path)) c1
      = Ok (c_took e (wire (download_message e user id path))) (set_download path (after_turn rest [wire (download_message e user id path)] c))).
    { rewrite (logged_in _ c1 user) by done. rewrite (bind_Ok (modify _) _ c1 tt _ eq_refl), send_open by done. unfold after_turn, c1. cbn. by rewrite app_nil_r. }
    exact (bind_Ok _ _ _ _ _ E).
  - destruct Hp as [Hc Hl Hs Hf Hu Hd Hi]. split; try done. rewrite Hi. change (String "/" ("download " +:+ id +:+ " " +:+ path)) with ("/download " +:+ id +:+ " " +:+ path)%string.
    by rewrite !sapp_assoc.
  - change (String "/" ("download " +:+ id +:+ " " +:+ path)) with ("/download " +:+ id +:+ " " +:+ path)%string.
    rewrite !no_char_app, (word_line path), (word_line id) by done. done.
  - change (String "/" ("download " +:+ id +:+ " " +:+ path)) with ("/download " +:+ id +:+ " " +:+ path)%string.
    rewrite !last_not_app by (by destruct id). by apply word_last.
Qed.

(** ** Logging in *)

Definition login_message (e : ClientEnv) (name pwd : string) : Message := mkMessage MessageType.LOGIN name "" pwd (c_now e).

Record at_menu c (typed : string) : Prop := mkMenu {
  n_connected : connected c = true; n_logged : loggedIn c = false; n_socket : clientSocket c <> -1;
  n_data : receivedData c = ""%string; n_input : input c = typed }.

Lemma login_turn e c name pwd rest : at_menu c ("1" +:+ String nl (name +:+ String nl (pwd +:+ String nl rest))) ->
  isValidUsername name = true -> isValidPassword pwd = true -> sforall printable pwd = true ->
  head_not is_trimmed pwd = true -> last_not is_trimmed pwd = true -> c_took e (wire (login_message e name pwd)) = true ->
  run_turn e c = Ok tt (set_login false name (after_turn rest [wire (login_message e name pwd)] c)).
Proof.
  intros [Hc Hl Hs Hd Hi] Hname Hpwd Hpr Hph Hpl Htook. pose proof (valid_name_trimmed name Hname) as Hnt.
  unfold run_turn. rewrite (bind_Ok get _ c c c eq_refl), Hc, Hl. cbn [negb]. unfold handleLoginRegister.
  rewrite (bind_Ok get _ c c c eq_refl), Hl. rewrite (bind_Ok _ _ _ _ _ (read_line_app _ _ _ Hi eq_refl)).
  set (c1 := after_turn _ [] c). change (ChatClient.trim "1") with "1"%string. cbv zeta. cbn [String.eqb Ascii.eqb Bool.eqb].
  assert (Hnl : no_char nl name = true).
  { revert Hnt. apply sforall_impl. intros x. unfold is_trimmed. destruct (char_eqb x nl); [by rewrite orb_true_r|done]. }
  rewrite (bind_Ok _ _ _ _ _ (read_line_app name _ c1 eq_refl Hnl)). set (c2 := after_turn _ [] c1).
  rewrite client_trim_id by (by apply sforall_last || (destruct name as [|x n]; [done|]; cbn in Hnt; by apply andb_true_iff in Hnt as [? _])).
  rewrite Hname. cbn [negb].
  assert (Ep : getHiddenPassword c2 = Ok pwd (after_turn rest [] c2)).
  { unfold getHiddenPassword. rewrite (bind_Ok get _ c2 c2 c2 eq_refl). change (input c2) with (pwd +:+ String nl rest).
    rewrite typed_password_app, app_empty_l by done. unfold after_turn. cbn. by rewrite app_nil_r. }
  rewrite (bind_Ok _ _ _ _ _ Ep), client_trim_id, Hpwd by done. cbn [negb]. set (c3 := after_turn rest [] c2).
  assert (El : ChatClient.loginUser e name pwd c3 = Ok true (set_login false name (after_turn rest [wire (login_message e name pwd)] c))).
  { unfold ChatClient.loginUser. rewrite (bind_Ok get _ c3 c3 c3 eq_refl). change (connected c3) with (connected c). change (loggedIn c3) with (loggedIn c).
    rewrite Hc, Hl. cbn [negb]. fold (login_message e name pwd). rewrite (bind_Ok _ _ _ _ _ (send_open e _ c3 Hc Hs)), Htook.
    rewrite (bind_Ok (modify _) _ _ tt _ eq_refl). unfold set_login, after_turn, c3, c2, c1, after_turn. cbn. by rewrite Hl, !app_nil_r. }
  by rewrite (bind_Ok _ _ _ _ _ El).
Qed.

(** ** What arrives *)

Lemma client_disk_act_eq {A} (f : G -> A * G) c :
  ChatClient.disk_act f c = Ok (f (files c)).1 (set_streams (f (files c)).2 (receivedData c) (input c) (sent c) (shown c) c).
Proof. unfold ChatClient.disk_act. rewrite (bind_Ok get _ c c c eq_refl). by destruct (f (files c)). Qed.

(** A path under which a file can be saved as it is. *)
Definition plain_target (d : G) (path : string) : Prop :=
  path <> ""%string /\ path <> "."%string /\ forall st, u_stat d path = Some st -> S_ISDIR (st_mode st) = false.

Lemma save_path_plain c path file : pendingDownloadPath c = path -> plain_target (files c) path -> save_path c file = path.
Proof.
  intros Hp (Hne & Hdot & Hdir). unfold save_path. rewrite Hp. apply String.eqb_neq in Hne as ->. apply String.eqb_neq in Hdot as ->. cbn [orb].
  destruct (u_stat (files c) path) as [st|]; [|done]. by rewrite (Hdir st).
Qed.

Lemma file_saved (V : G -> Prop) e c path file data from to now : pendingDownloadPath c = path -> plain_target (files c) path ->
  keeps_files V path -> V (files c) -> no_char "#" file = true -> Z.of_nat (String.length data) < 2 ^ 64 ->
  exists c', take_message e (mkMessage MessageType.FILE_DATA from to (upload_content file data) now) c = Ok tt c' /\
    u_read (files c') path = Some data.
Proof.
  intros Hp Ht Hk HV Hf Hlen. unfold take_message, handleReceivedMessage. cbn [type]. unfold handleFileData. cbn [content].
  destruct (upload_parts file data Hf) as [-> ->]. cbv beta iota zeta.
  change (StdChatData.encodeFileContent data) with (ChatClient.encodeFileContent data). rewrite decode_lenient, stoull_to_string by lia. rewrite Z.eqb_refl. cbn [negb].
  rewrite (bind_Ok get _ c c c eq_refl), (save_path_plain c path) by done. rewrite (bind_Ok _ _ _ _ _ (client_disk_act_eq _ c)).
  destruct (k_open _ _ Hk _ false HV) as (Eo & HV1 & Hr1 & Hx1). rewrite Eo. cbn [negb]. set (c1 := set_streams _ _ _ _ _ c).
  rewrite (bind_Ok _ _ _ _ _ (client_disk_act_eq _ c1)). change (files c1) with (u_open (files c) path false).2.
  destruct (k_write _ _ Hk _ data _ HV1 Hr1 Hx1) as (Ew & _ & _ & Hx2). rewrite Ew. cbv iota. set (c2 := set_streams _ _ _ _ _ c1).
  rewrite (bind_Ok (show _) _ c2 tt _ eq_refl). by eexists.
Qed.

Lemma response_keeps_files e m c : type m = MessageType.RESPONSE -> exists c', take_message e m c = Ok tt c' /\ files c' = files c.
Proof.
  intros Ht. unfold take_message, handleReceivedMessage. rewrite Ht. unfold handle_response. destruct (String.eqb (sender m) _); [|by eexists].
  assert (E : forall b, (if b : bool then show (String nl (unescape (content m))) else show (String nl "[服务器] " +:+ content m)) c =
    Ok tt (set_streams (files c) (receivedData c) (input c) (sent c)
      (shown c ++ [if b then String nl (unescape (content m)) else String nl "[服务器] " +:+ content m]) c)) by (by intros []).
  rewrite (bind_Ok _ _ _ _ _ (E _)). destruct (String.eqb (content m) _); [by eexists|]. destruct (contains _ _); by eexists.
Qed.
End turns.

(** ** From one machine to another *)

Lemma fits_size m file data : fits m -> content m = upload_content file data -> (String.length data <= recv_size)%nat.
Proof. intros [_ Hl] Hc. rewrite (wire_upload m file data), !slength_app, encode_length in Hl by done. lia. Qed.

Lemma no_char_app_l x a b : no_char x (a +:+ b) = true -> no_char x a = true.
Proof. rewrite no_char_app. by intros [? _]%andb_true_iff. Qed.

Lemma digits_plain z : sforall (fun x => negb (is_space x)) (to_string z) = true.
Proof.
  eapply sforall_impl; [|apply sign_char_digit_text]. intros x. cbn. rewrite orb_true_iff. intros [Hx|Hx].
  - by rewrite digit_not_space.
  - apply Ascii.eqb_eq in Hx as ->. done.
Qed.
Lemma file_id_word now draw : word (FileInfo.generateFileId now draw).
Proof. split; [done|]. unfold FileInfo.generateFileId. by rewrite !sforall_app, !digits_plain. Qed.

Section link.
Context {F G : Type} {HU : Unix F} {HG : Unix G} {HO : HashOrder} {HH : Hasher} {HS : StdSort later_upload}.
Implicit Types s : Chat F.

(** Logging in. A user who types name and password of an account that is not online is
    logged in on both sides under that name, however the network cuts the reply. *)
Theorem login_on_both_sides e es (c : Client G) s fd name pwd rest u : let m := login_message e name pwd in
  at_menu c ("1" +:+ String nl (name +:+ String nl (pwd +:+ String nl rest))) ->
  isValidUsername name = true -> isValidPassword pwd = true -> sforall printable pwd = true ->
  head_not is_trimmed pwd = true -> last_not is_trimmed pwd = true -> c_took e (wire m) = true -> fits m ->
  fd ∈ served s -> users s !! name = Some u -> User.verifyPassword u pwd = true -> onlineUsers s !! name = None -> is_long (e_now es) ->
  exists c1 s1 l, client_run [(Turn, e)] c = Ok tt c1 /\ sent c1 = sent c ++ [wire m] /\
    chat_event (Receive fd (wire m), es) s = Ok tt s1 /\ onlineUsers s1 = <[name := fd]> (onlineUsers s) /\
    delivered s1 = delivered s ++ (fd, wire (welcome es)) :: l /\
    forall ts, Forall piece ts -> sconcat ts = wire (welcome es) ->
      exists c2, client_run (arrivals e ts) c1 = Ok tt c2 /\ loggedIn c2 = true /\ currentUser c2 = name.
Proof.
  intros m Hmenu Hname Hpwd Hpr Hph Hpl Htook Hm Hfd Hu Hv Ho Hnow.
  pose proof (login_turn e c name pwd rest Hmenu Hname Hpwd Hpr Hph Hpl Htook) as T.
  destruct (login_event es fd m s u) as (l & E); try done; [by destruct name|].
  eexists _, _, l. split; [exact (bind_Ok _ _ _ _ _ T)|]. split; [done|]. split; [exact E|]. split; [done|]. split; [done|].
  intros ts Hts Ets. destruct Hmenu as [Hc Hl Hs Hd Hi].
  rewrite (stream_handled e ts [welcome es]); [|exact Hc|exact Hd|..|done|by rewrite Ets; cbn; rewrite sapp_nil_r].
  - eexists. split; [reflexivity|]. done.
  - constructor; [|constructor]. split; [|done]. unfold message_ok, is_int; cbn; split_and!; done || apply Hnow || lia.
Qed.

End link.

(** ** The end *)

Section ending.
Context {G : Type} {HG : Unix G}.
Implicit Types c : Client G.

(** While the client is connected, its receiving thread has not been waited for. *)
Definition threaded c : Prop := connected c = true -> receiveThread c = true.

Definition keeps_thread {A} (f : cpp (Client G) A) : Prop :=
  forall c, threaded c -> match f c with Ok _ c' | Throw _ c' | Blocked c' => threaded c' | Undefined _ => True end.

Lemma thread_ret {A} (a : A) : keeps_thread (mret a).
Proof. by intros c. Qed.
Lemma thread_throw {A} err : keeps_thread (throw (A := A) err).
Proof. by intros c. Qed.
Lemma thread_blocked {A} : keeps_thread (A := A) (fun c => Blocked c).
Proof. by intros c. Qed.
Lemma thread_gets {A} (g : Client G -> A) : keeps_thread (gets g).
Proof. by intros c. Qed.
Lemma thread_get : keeps_thread get.
Proof. by intros c. Qed.
Lemma thread_modify g : (forall c, threaded c -> threaded (g c)) -> keeps_thread (modify g).
Proof. intros Hg c Hc. by apply Hg. Qed.
Lemma thread_bind {A B} (f : cpp (Client G) A) (k : A -> cpp (Client G) B) : keeps_thread f -> (forall a, keeps_thread (k a)) -> keeps_thread (f ≫= k).
Proof.
  intros Hf Hk c Hc. unfold mbind, cpp_bind. specialize (Hf c Hc). destruct (f c) as [a c'| | |]; try done. by apply Hk.
Qed.
#[local] Hint Resolve thread_ret thread_throw thread_blocked thread_gets thread_get : core.

Ltac keeps := repeat first
  [ progress cbv zeta
  | solve [auto]
  | match goal with
    | |- keeps_thread (_ ≫= _) => apply thread_bind; [|intros ?]
    | |- keeps_thread (modify _) => apply thread_modify; intros ? ?; solve [done|by intros ?]
    | |- keeps_thread (match ?x with _ => _ end) => destruct x
    end].

Lemma keeps_show text : keeps_thread (show text).
Proof. unfold show. keeps. Qed.
Lemma keeps_read_line : keeps_thread read_line.
Proof. unfold read_line, set_input. keeps. Qed.
Lemma keeps_password : keeps_thread getHiddenPassword.
Proof. unfold getHiddenPassword, set_input. keeps. Qed.
Lemma keeps_send e m : keeps_thread (ChatClient.sendMessage e m).
Proof. unfold ChatClient.sendMessage. keeps. Qed.
Lemma keeps_disk {A} (f : G -> A * G) : keeps_thread (ChatClient.disk_act f).
Proof. unfold ChatClient.disk_act. keeps. Qed.
Lemma keeps_disconnect e : keeps_thread (disconnect e).
Proof.
  intros c Hc. unfold disconnect. rewrite (bind_Ok get _ c c c eq_refl). destruct (connected c) eqn:E; cbn [negb]; [|exact Hc].
  rewrite (bind_Ok (modify _) _ c tt _ eq_refl). destruct (receiveThread c); [destruct (c_wakes e)|]; done.
Qed.
#[local] Hint Resolve keeps_show keeps_read_line keeps_password keeps_send keeps_disk keeps_disconnect : core.

Lemma keeps_logged act : (forall user, keeps_thread (act user)) -> keeps_thread (when_logged_in act).
Proof. intros Ha. unfold when_logged_in. keeps. Qed.

Lemma keeps_requests e : (forall n p m, keeps_thread (ChatClient.registerUser e n p m)) /\ (forall n p, keeps_thread (ChatClient.loginUser e n p)) /\
  keeps_thread (ChatClient.logoutUser e) /\ (forall t, keeps_thread (sendPublicMessage e t)) /\ (forall n t, keeps_thread (sendPrivateMessage e n t)) /\
  keeps_thread (requestUserList e) /\ (forall n p, keeps_thread (sendFileToUser e n p)) /\ (forall p, keeps_thread (ChatClient.uploadGroupFile e p)) /\
  keeps_thread (requestGroupFileList e) /\ (forall i p, keeps_thread (ChatClient.downloadGroupFile e i p)) /\
  (forall i n p, keeps_thread (ChatClient.acceptFileTransfer e i n p)) /\ (forall i n, keeps_thread (ChatClient.rejectFileTransfer e i n)).
Proof.
  split_and!; intros; try (apply keeps_logged; intros user); unfold ChatClient.registerUser, ChatClient.loginUser, ChatClient.fileExists; keeps.
Qed.

Lemma keeps_run_turn e : keeps_thread (run_turn e).
Proof.
  destruct (keeps_requests e) as (H1 & H2 & H3 & H4 & H5 & H6 & H7 & H8 & H9 & H10 & H11 & H12).
  unfold run_turn, handleLoginRegister, handleChatInput, answer_offer, slash_command, private_command. keeps.
Qed.

Lemma keeps_take e m : keeps_thread (take_message e m).
Proof.
  intros c Hc. assert (Hm : keeps_thread (handleReceivedMessage e m)).
  { unfold handleReceivedMessage, handle_response, ChatClient.handleFileTransferRequest, ChatClient.handleFileTransferResponse, handleFileData. keeps. }
  specialize (Hm c Hc). unfold take_message. by destruct (handleReceivedMessage e m c).
Qed.
Lemma keeps_line e line : keeps_thread (handle_line e line).
Proof.
  unfold handle_line. destruct (String.eqb line ""); [auto|]. destruct (Message.deserialize (c_now e) line) as [err|m]; [auto|]. apply (keeps_take e m).
Qed.
#[local] Hint Resolve keeps_line : core.
Lemma keeps_drain fuel e : keeps_thread (drain fuel e).
Proof. induction fuel as [|fuel IH]; cbn [drain]; unfold set_received; keeps. Qed.
#[local] Hint Resolve keeps_drain keeps_run_turn : core.
Lemma keeps_receive e t : keeps_thread (receiveMessages e t).
Proof. unfold receiveMessages, set_received. keeps. Qed.
Lemma keeps_run evs : keeps_thread (client_run evs).
Proof.
  unfold client_run. induction evs as [|[ev e] evs IH]; cbn [iterM]; [auto|]. apply thread_bind; [|done].
  destruct ev; [apply keeps_run_turn|apply keeps_receive].
Qed.

(** C40. The server leaves first. When the connection ends from the server's side, at
    whatever point of a session, the program does not exit normally: nobody waits for the
    receiving thread, and the runtime terminates the program. *)
Theorem lost_server_terminates e e' evs (d : G) typed c' : c_socket e <> -1 -> c_address e = true -> c_connect e = true ->
  client_run evs (set_link (c_socket e) true true (Client_new d typed)) = Ok tt c' -> connected c' = true ->
  client_program e (evs ++ [(Arrive "", e')]) (Client_new d typed) = Undefined "std::terminate".
Proof.
  intros Hs Ha Hc E Hconn. unfold client_program.
  assert (Ec : connectToServer e (Client_new d typed) = Ok true (set_link (c_socket e) true true (Client_new d typed))).
  { unfold connectToServer. rewrite (bind_Ok get _ _ _ _ eq_refl). cbn [connected Client_new]. rewrite (bind_Ok (modify _) _ _ tt _ eq_refl).
    apply Z.eqb_neq in Hs as ->. rewrite Ha, Hc. done. }
  rewrite (bind_Ok _ _ _ _ _ Ec). pose proof (keeps_run evs (set_link (c_socket e) true true (Client_new d typed)) (fun _ => eq_refl)) as Hk.
  rewrite E in Hk. specialize (Hk Hconn).
  assert (Er : client_run (evs ++ [(Arrive "", e')]) (set_link (c_socket e) true true (Client_new d typed)) =
    Ok tt (set_login false (currentUser c') (set_link (clientSocket c') false (receiveThread c') c'))).
  { unfold client_run. rewrite iterM_app, (bind_Ok _ _ _ _ _ E). cbn [iterM]. unfold client_event. cbn [fst snd]. unfold receiveMessages.
    rewrite bind_assoc, (bind_Ok get _ c' c' c' eq_refl), Hconn. done. }
  rewrite (bind_Ok _ _ _ _ _ Er). unfold destroy, disconnect. rewrite bind_assoc, (bind_Ok get _ _ _ _ eq_refl). cbn [connected set_login set_link negb].
  rewrite bind_ret_l, (bind_Ok get _ _ _ _ eq_refl). cbn [receiveThread set_login set_link]. by rewrite Hk.
Qed.
End ending.

(** ** Examples *)

#[local] Existing Instance list_hash_order.
#[local] Existing Instance length_hasher.
#[local] Existing Instance upload_sort.

(** carla has an account and starts a client; the server gives her socket 4. *)
Definition carla : User.User := User.User_new 1700000200 "carla" "secret" "".
Definition lobby : Chat disk := mkChat ∅ {["carla"%string := carla]} ∅ ∅ ∅ [] {[4]}.
Definition fresh (typed : string) : Client disk := set_link 5 true true (Client_new ∅ typed).
Definition carla_types : string := "1" +:+ String nl ("carla" +:+ String nl ("secret" +:+ String nl "")).

Lemma login_on_both_sides_witness : exists c1 s1 c2, client_run [(Turn, example_client_env)] (fresh carla_types) = Ok tt c1 /\
  chat_event (Receive 4 (wire (login_message example_client_env "carla" "secret")), example_env) lobby = Ok tt s1 /\
  onlineUsers s1 = {["carla"%string := 4]} /\
  client_run (arrivals example_client_env [wire (welcome example_env)]) c1 = Ok tt c2 /\ loggedIn c2 = true /\ currentUser c2 = "carla"%string.
Proof.
  destruct (login_on_both_sides example_client_env example_env (fresh carla_types) lobby 4 "carla" "secret" "" carla)
    as (c1 & s1 & l & E1 & _ & E2 & Ho & _ & Hrest).
  - split; [reflexivity|reflexivity|discriminate|reflexivity|reflexivity].
  - reflexivity.
  - reflexivity.
  - reflexivity.
  - reflexivity.
  - reflexivity.
  - reflexivity.
  - apply message_check_ok. vm_compute. reflexivity.
  - cbn. set_solver.
  - reflexivity.
  - vm_compute. reflexivity.
  - reflexivity.
  - split; [discriminate|reflexivity].
  - destruct (Hrest [wire (welcome example_env)]) as (c2 & E3 & Hl & Hu).
    + constructor; [|constructor]. split; [discriminate|apply Nat.leb_le; vm_compute; reflexivity].
    + vm_compute. reflexivity.
    + exists c1, s1, c2. split; [exact E1|]. split; [exact E2|]. split; [exact Ho|]. split; [exact E3|]. split; [exact Hl|exact Hu].
Defined.

(** ann shares a file of her machine, and bob saves it on his. *)
Definition ann_machine : Client disk := at_work {["docs/note.txt"%string := File "to share"]} "ann" ("/upload " +:+ "docs/note.txt" +:+ String nl "").
Definition bob_machine : Client disk := at_work ∅ "bob" ("/download " +:+ note_id +:+ " " +:+ "copy.txt" +:+ String nl "").


(** The server closes the connection of a client that has just started. *)
Lemma lost_server_terminates_witness :
  client_program example_client_env ([] ++ [(Arrive "", example_client_env)]) (Client_new (∅ : disk) "") = Undefined "std::terminate".
Proof. apply (lost_server_terminates _ _ [] _ _ (set_link 5 true true (Client_new ∅ ""))); [discriminate|reflexivity..]. Defined.
