(* ===== verification/MemPool.v ===== *)
(** * MemPool: memory pools

    Models src/MemoryPool/core (FixedMemoryPool.hpp, FixedMemoryPoolV2.hpp,
    VariableMemoryPool.hpp, IndexedMemoryPool.hpp, ThreadSafeMemoryPool.hpp, IMemoryPool.h,
    PoolStatistics.h) and src/MemoryPool/utils (MemoryPoolFactory.hpp, PoolAllocator.hpp).
    Pointers are addresses, the null pointer is 0. Of the memory of a pool, what the pool
    itself keeps there is modelled: the headers of blocks and the links of free blocks, as
    finite maps from addresses. A block that is handed out belongs to the caller, and what
    the pool had stored inside it is forgotten; reading there is undefined. The address
    that [::operator new] returns is an argument. [size_t] is kept at 64 bits. *)

From Stdlib Require Import QArith.
From S2P Require Import Prelude.

Local Open Scope Z_scope.

(** ** Statistics and the interface *)

Record PoolStatistics : Type := mkStatistics {
  total_allocations : Z; total_deallocations : Z; current_allocations : Z; peak_allocations : Z;
  total_bytes_allocated : Z; current_bytes_used : Z; peak_bytes_used : Z; fragmentation_ratio : Q }.

(** The counters that the pools keep; what is in use is counted separately. *)
Record Counters : Set := mkCounters {
  n_allocations : Z; n_deallocations : Z; n_peak : Z; n_bytes : Z; n_peak_bytes : Z }.
Definition no_counters : Counters := mkCounters 0 0 0 0 0.

(** [current] and [used] are the values after the allocation. *)
Definition count_allocation (current used bytes : Z) (k : Counters) : Counters :=
  mkCounters (wrap64 (n_allocations k + 1)) (n_deallocations k) (if n_peak k <? current then current else n_peak k)
    (wrap64 (n_bytes k + bytes)) (if n_peak_bytes k <? used then used else n_peak_bytes k).
Definition count_deallocation (k : Counters) : Counters :=
  mkCounters (n_allocations k) (wrap64 (n_deallocations k + 1)) (n_peak k) (n_bytes k) (n_peak_bytes k).

Definition statistics (k : Counters) (current used : Z) (ratio : Q) : PoolStatistics :=
  mkStatistics (n_allocations k) (n_deallocations k) current (n_peak k) (n_bytes k) used (n_peak_bytes k) ratio.

(** [pool_new raw n]: the constructor with one argument, on memory at [raw]. *)
Class IMemoryPool (P : Type) : Type := {
  pool_new : Z -> Z -> P;
  allocate : Z -> cpp P Z;
  deallocate : Z -> cpp P unit;
  get_statistics : cpp P PoolStatistics;
  reset : cpp P unit }.

(** [(n + align - 1) & ~(align - 1)] *)
Definition align_up (n align : Z) : Z := Z.land (wrap64 (n + align - 1)) (Z.lnot (align - 1)).

(** [alignof(std::max_align_t)] *)
Definition max_align : Z := 16.

(** ** Blocks of any size *)

Definition header_size : Z := 32.

Record BlockHeader : Set := mkHeader { size : Z; free : bool; prev : Z; next : Z }.
Definition set_size (n : Z) (b : BlockHeader) : BlockHeader := mkHeader n (free b) (prev b) (next b).
Definition set_free (f : bool) (b : BlockHeader) : BlockHeader := mkHeader (size b) f (prev b) (next b).
Definition set_prev (p : Z) (b : BlockHeader) : BlockHeader := mkHeader (size b) (free b) p (next b).
Definition set_next (p : Z) (b : BlockHeader) : BlockHeader := mkHeader (size b) (free b) (prev b) p.

(** What is left of the headers when the [n] bytes at [p] are handed out. *)
Definition hand_out (p n : Z) (h : gmap Z BlockHeader) : gmap Z BlockHeader :=
  filter (fun kv => ~ (p - header_size < kv.1 < p + n)) h.

(** The members that both pools have. *)
Record Blocks : Type := mkBlocks {
  m_total_size : Z; m_alignment : Z; m_raw_mem : Z; m_pool : Z; m_head : Z; m_used_size : Z;
  m_current_allocations : Z; m_counters : Counters; m_headers : gmap Z BlockHeader }.

Definition set_headers (h : gmap Z BlockHeader) (s : Blocks) : Blocks :=
  mkBlocks (m_total_size s) (m_alignment s) (m_raw_mem s) (m_pool s) (m_head s) (m_used_size s)
    (m_current_allocations s) (m_counters s) h.
Definition set_usage (head used current : Z) (k : Counters) (s : Blocks) : Blocks :=
  mkBlocks (m_total_size s) (m_alignment s) (m_raw_mem s) (m_pool s) head used current k (m_headers s).

(** [block->...]: reading and writing a header. *)
Definition header_at (p : Z) : cpp Blocks BlockHeader :=
  fun s => match m_headers s !! p with Some b => Ok b s | None => Undefined "no header" end.
Definition write_header (p : Z) (b : BlockHeader) : cpp Blocks unit := modify (fun s => set_headers (<[p := b]> (m_headers s)) s).
Definition update_header (p : Z) (f : BlockHeader -> BlockHeader) : cpp Blocks unit := b ← header_at p; write_header p (f b).

Definition first_block (n : Z) : BlockHeader := mkHeader n true 0 0.

Definition owns (s : Blocks) (p : Z) : bool := (m_pool s <=? p) && (p <? wrap64 (m_pool s + m_total_size s)).

(** The constructors on memory at [raw]. *)
Definition Blocks_new (raw total align : Z) : Blocks :=
  let p := align_up raw align in
  mkBlocks total align raw p p 0 0 no_counters {[p := first_block total]}.

Definition reset_blocks : cpp Blocks unit :=
  modify (fun s => set_usage (m_pool s) 0 0 (m_counters s) (set_headers (<[m_pool s := first_block (m_total_size s)]> (m_headers s)) s)).

(** A block is marked as used and handed out. *)
Definition mark_used (p : Z) : cpp Blocks Z :=
  b ← header_at p;
  write_header p (set_free false b) ;;
  modify (fun s =>
    let used := wrap64 (m_used_size s + size b) in
    let current := wrap64 (m_current_allocations s + 1) in
    set_usage (m_head s) used current (count_allocation current used (size b) (m_counters s)) s) ;;
  modify (fun s => set_headers (hand_out (p + header_size) (size b) (m_headers s)) s) ;;
  mret (p + header_size).

Definition mark_free (p : Z) : cpp Blocks unit :=
  b ← header_at p;
  write_header p (set_free true b) ;;
  modify (fun s => set_usage (m_head s) (wrap64 (m_used_size s - size b))
    (if 0 <? m_current_allocations s then m_current_allocations s - 1 else m_current_allocations s)
    (count_deallocation (m_counters s)) s).

(** The rest of a block becomes a block of its own, at the address returned. *)
Definition split_off (p n : Z) : cpp Blocks Z :=
  b ← header_at p;
  let q := p + header_size + n in
  write_header q (mkHeader (wrap64 (size b - n - header_size)) true p (next b)) ;;
  (if next b =? 0 then mret tt else update_header (next b) (set_prev q)) ;;
  update_header p (set_next q) ;;
  update_header p (set_size n) ;;
  mret q.

(** The block [q] that follows [p] becomes part of it. *)
Definition absorb (p q : Z) : cpp Blocks unit :=
  bp ← header_at p;
  bq ← header_at q;
  write_header p (set_next (next bq) (set_size (wrap64 (size bp + (header_size + size bq))) bp)) ;;
  if next bq =? 0 then mret tt else update_header (next bq) (set_prev p).

(** The chain of blocks holds no more blocks than there are headers, so that many turns are
    enough for a loop over it; a loop that ran out of them would not end. *)
Definition turns (s : Blocks) : nat := S (map_size (m_headers s)).

Fixpoint defragment_loop (fuel : nat) (curr : Z) : cpp Blocks unit :=
  match fuel with
  | O => block
  | S fuel' =>
      if curr =? 0 then mret tt else
      b ← header_at curr;
      if next b =? 0 then mret tt else
      n ← header_at (next b);
      if free b && free n then absorb curr (next b) ;; defragment_loop fuel' curr
      else defragment_loop fuel' (next b)
  end.

(** Free bytes and the largest free block, for the statistics. *)
Fixpoint free_loop (fuel : nat) (curr bytes largest : Z) : cpp Blocks (Z * Z) :=
  match fuel with
  | O => block
  | S fuel' =>
      if curr =? 0 then mret (bytes, largest) else
      b ← header_at curr;
      if free b then free_loop fuel' (next b) (wrap64 (bytes + size b)) (if largest <? size b then size b else largest)
      else free_loop fuel' (next b) bytes largest
  end.
Definition ratio (bytes largest : Z) : Q := if bytes =? 0 then 0%Q else (1 - inject_Z largest / inject_Z bytes)%Q.

Definition get_total_size (s : Blocks) : Z := m_total_size s.
Definition get_available_size (s : Blocks) : Z := wrap64 (m_total_size s - m_used_size s).

Module VariableMemoryPool.
(** The first free block that is large enough. *)
Fixpoint first_fit (fuel : nat) (curr n : Z) : cpp Blocks Z :=
  match fuel with
  | O => block
  | S fuel' =>
      if curr =? 0 then mret 0 else
      b ← header_at curr;
      if free b && (n <=? size b) then mret curr else first_fit fuel' (next b) n
  end.

Definition allocate (n : Z) : cpp Blocks Z :=
  if n =? 0 then mret 0 else
  s ← get;
  let n := align_up n (m_alignment s) in
  curr ← first_fit (turns s) (m_head s) n;
  if curr =? 0 then mret 0 else
  b ← header_at curr;
  (if wrap64 (n + header_size + m_alignment s) <=? size b then split_off curr n ;; mret tt else mret tt) ;;
  mark_used curr.

(** Merging with the block before and the block after, when they are free. *)
Definition merge (p : Z) : cpp Blocks unit :=
  b ← header_at p;
  p ← (if prev b =? 0 then mret p else
       x ← header_at (prev b);
       if free x then absorb (prev b) p ;; mret (prev b) else mret p);
  b ← header_at p;
  if next b =? 0 then mret tt else
  n ← header_at (next b);
  if free n then absorb p (next b) else mret tt.

Definition deallocate (p : Z) : cpp Blocks unit :=
  if p =? 0 then mret tt else
  s ← get;
  if negb (owns s p) then mret tt else
  b ← header_at (p - header_size);
  if free b then mret tt else
  mark_free (p - header_size) ;; merge (p - header_size).

Definition get_statistics : cpp Blocks PoolStatistics :=
  s ← get;
  found ← free_loop (turns s) (m_head s) 0 0;
  mret (statistics (m_counters s) (m_current_allocations s) (m_used_size s) (ratio found.1 found.2)).

Definition defragment : cpp Blocks unit := s ← get; defragment_loop (turns s) (m_head s).
End VariableMemoryPool.

#[global] Instance variable_pool : IMemoryPool Blocks := {|
  pool_new raw n := Blocks_new raw n max_align;
  allocate := VariableMemoryPool.allocate;
  deallocate := VariableMemoryPool.deallocate;
  get_statistics := VariableMemoryPool.get_statistics;
  reset := reset_blocks |}.

(** ** Blocks of any size, with indexes of the free ones *)

Definition set_ordered (X : gset Z) : list Z := merge_sort Z.le (elements X).

Module IndexedMemoryPool.
Record Indexed : Type := mkIndexed {
  blocks : Blocks;
  m_size_index : gmap Z (gset Z);
  m_address_index : gset Z;
  m_size_classes : list Z }.

Definition set_index (ix : gmap Z (gset Z)) (addresses : gset Z) (s : Indexed) : Indexed :=
  mkIndexed (blocks s) ix addresses (m_size_classes s).
Definition on_blocks {A} (f : cpp Blocks A) : cpp Indexed A := fun s =>
  let back b := mkIndexed b (m_size_index s) (m_address_index s) (m_size_classes s) in
  match f (blocks s) with
  | Ok a b => Ok a (back b) | Throw e b => Throw e (back b) | Blocked b => Blocked (back b) | Undefined w => Undefined w
  end.

(** Powers of two, from [n] up to [last]. *)
Fixpoint doubling (fuel : nat) (n last : Z) : list Z :=
  match fuel with O => [] | S fuel' => if n <=? last then n :: doubling fuel' (2 * n) last else [] end.
Definition initialize_size_classes : list Z :=
  doubling 64 8 512 ++ doubling 64 1024 (32 * 1024) ++ doubling 64 (64 * 1024) (1024 * 1024).

(** [std::lower_bound] on the sorted classes. *)
Definition get_size_class (classes : list Z) (n : Z) : Z :=
  match find_first (fun c => n <=? c) classes with Some c => c | None => n end.

Definition add_to_free_index (p : Z) : cpp Indexed unit :=
  b ← on_blocks (header_at p);
  if negb (free b) then undefined "assert" else
  modify (fun s =>
    let c := get_size_class (m_size_classes s) (size b) in
    set_index (<[c := {[p]} ∪ default ∅ (m_size_index s !! c)]> (m_size_index s)) ({[p]} ∪ m_address_index s) s).

Definition remove_from_free_index (p : Z) : cpp Indexed unit :=
  b ← on_blocks (header_at p);
  if negb (free b) then undefined "assert" else
  modify (fun s =>
    let c := get_size_class (m_size_classes s) (size b) in
    let rest := default ∅ (m_size_index s !! c) ∖ {[p]} in
    set_index (if decide (rest = ∅) then delete c (m_size_index s) else <[c := rest]> (m_size_index s))
      (m_address_index s ∖ {[p]}) s).

Definition Indexed_new (raw total align : Z) : result Indexed unit :=
  add_to_free_index (align_up raw align) (mkIndexed (Blocks_new raw total align) ∅ ∅ initialize_size_classes).

(** The first block of a class, by address, that is large enough. *)
Fixpoint fit_in_class (ps : list Z) (n : Z) : cpp Indexed Z :=
  match ps with
  | [] => mret 0
  | p :: ps' => b ← on_blocks (header_at p); if n <=? size b then mret p else fit_in_class ps' n
  end.
Fixpoint fit_in_classes (classes : list (Z * gset Z)) (n : Z) : cpp Indexed Z :=
  match classes with
  | [] => mret 0
  | (_, ps) :: rest => p ← fit_in_class (set_ordered ps) n; if p =? 0 then fit_in_classes rest n else mret p
  end.
Definition find_best_fit (n : Z) : cpp Indexed Z :=
  s ← get;
  let target := get_size_class (m_size_classes s) n in
  fit_in_classes (List.filter (fun kv => target <=? kv.1) (map_ordered Z.le (m_size_index s))) n.

Definition split_block (p n : Z) : cpp Indexed unit :=
  b ← on_blocks (header_at p);
  s ← get;
  if negb (free b) || negb (wrap64 (n + header_size + m_alignment (blocks s)) <=? size b) then undefined "assert" else
  q ← on_blocks (split_off p n);
  add_to_free_index q.

Definition allocate (n : Z) : cpp Indexed Z :=
  if n =? 0 then mret 0 else
  s ← get;
  let n := align_up n (m_alignment (blocks s)) in
  p ← find_best_fit n;
  if p =? 0 then mret 0 else
  remove_from_free_index p ;;
  b ← on_blocks (header_at p);
  (if wrap64 (n + header_size + m_alignment (blocks s)) <=? size b then split_block p n else mret tt) ;;
  on_blocks (mark_used p).

(** The two loops of [merge_with_neighbors]. *)
Fixpoint merge_before (fuel : nat) (p : Z) : cpp Indexed Z :=
  match fuel with
  | O => block
  | S fuel' =>
      b ← on_blocks (header_at p);
      if prev b =? 0 then mret p else
      x ← on_blocks (header_at (prev b));
      if negb (free x) then mret p else
      remove_from_free_index (prev b) ;;
      on_blocks (absorb (prev b) p) ;;
      merge_before fuel' (prev b)
  end.
Fixpoint merge_after (fuel : nat) (p : Z) : cpp Indexed unit :=
  match fuel with
  | O => block
  | S fuel' =>
      b ← on_blocks (header_at p);
      if next b =? 0 then mret tt else
      x ← on_blocks (header_at (next b));
      if negb (free x) then mret tt else
      remove_from_free_index (next b) ;;
      on_blocks (absorb p (next b)) ;;
      merge_after fuel' p
  end.
Definition merge_with_neighbors (p : Z) : cpp Indexed Z :=
  b ← on_blocks (header_at p);
  if negb (free b) then undefined "assert" else
  s ← get;
  p ← merge_before (turns (blocks s)) p;
  merge_after (turns (blocks s)) p ;;
  mret p.

Definition deallocate (p : Z) : cpp Indexed unit :=
  if p =? 0 then mret tt else
  s ← get;
  if negb (owns (blocks s) p) then mret tt else
  b ← on_blocks (header_at (p - header_size));
  if free b then mret tt else
  on_blocks (mark_free (p - header_size)) ;;
  q ← merge_with_neighbors (p - header_size);
  add_to_free_index q.

(** Free bytes and the largest free block, from the index. *)
Fixpoint index_free (ps : list Z) (found : Z * Z) : cpp Indexed (Z * Z) :=
  match ps with
  | [] => mret found
  | p :: ps' =>
      b ← on_blocks (header_at p);
      index_free ps' (wrap64 (found.1 + size b), if found.2 <? size b then size b else found.2)
  end.
Definition get_statistics : cpp Indexed PoolStatistics :=
  s ← get;
  found ← index_free (flat_map (fun kv => set_ordered kv.2) (map_ordered Z.le (m_size_index s))) (0, 0);
  let b := blocks s in
  mret (statistics (m_counters b) (m_current_allocations b) (m_used_size b) (ratio found.1 found.2)).

Definition reset : cpp Indexed unit :=
  modify (set_index ∅ ∅) ;;
  on_blocks reset_blocks ;;
  s ← get;
  add_to_free_index (m_head (blocks s)).

Record IndexStatistics : Type := mkIndexStatistics {
  total_size_classes : Z; total_free_blocks : Z; largest_size_class_blocks : Z; average_blocks_per_class : Q;
  size_class_distribution : list (Z * Z) }.
Definition get_index_statistics (s : Indexed) : IndexStatistics :=
  let counts := (fun kv => (kv.1, Z.of_nat (base.size kv.2))) <$> map_ordered Z.le (m_size_index s) in
  let classes := Z.of_nat (base.size (m_size_index s)) in
  let total := fold_left (fun a kv => a + kv.2) counts 0 in
  mkIndexStatistics classes total (fold_left (fun a kv => if a <? kv.2 then kv.2 else a) counts 0)
    (if 0 <? classes then inject_Z total / inject_Z classes else 0)%Q counts.

(** Adding every free block of the chain. *)
Fixpoint reindex (fuel : nat) (curr : Z) : cpp Indexed unit :=
  match fuel with
  | O => block
  | S fuel' =>
      if curr =? 0 then mret tt else
      b ← on_blocks (header_at curr);
      (if free b then add_to_free_index curr else mret tt) ;;
      reindex fuel' (next b)
  end.
Definition defragment : cpp Indexed unit :=
  modify (set_index ∅ ∅) ;;
  s ← get;
  on_blocks (defragment_loop (turns (blocks s)) (m_head (blocks s))) ;;
  reindex (turns (blocks s)) (m_head (blocks s)).
End IndexedMemoryPool.

(** ** Blocks of one size *)

(** [sizeof(T)] and the links of the free blocks. *)
Module FixedMemoryPool.
Record Pool : Type := mkPool {
  sizeof_T : Z; m_block_count : Z; m_raw_mem : Z; m_pool : Z; m_free_list : Z; m_used_blocks : Z;
  m_counters : Counters; links : gmap Z Z }.
Definition set_free_list (first used : Z) (k : Counters) (l : gmap Z Z) (s : Pool) : Pool :=
  mkPool (sizeof_T s) (m_block_count s) (m_raw_mem s) (m_pool s) first used k l.

(** The links of the blocks from [curr] on, when [n] more follow. *)
Fixpoint chain_links (n : nat) (curr step : Z) (l : gmap Z Z) : gmap Z Z :=
  match n with
  | O => <[curr := 0]> l
  | S n' => chain_links n' (curr + step) step (<[curr := curr + step]> l)
  end.

Definition Pool_of (raw step count align : Z) : Pool :=
  let p := align_up raw align in
  mkPool step count raw p p 0 no_counters (chain_links (Z.to_nat (count - 1)) p step ∅).
(** The constructor; a block must have room for a link. *)
Definition Pool_new (raw step count align : Z) : result Pool unit :=
  if step <? 8 then Undefined "assert" else Ok tt (Pool_of raw step count align).

(** [(p - pool_start) % sizeof(T)] is on [uintptr_t]. *)
Definition owns (s : Pool) (p : Z) : bool :=
  (m_pool s <=? p) && (p <? wrap64 (m_pool s + wrap64 (m_block_count s * sizeof_T s))) && ((p - m_pool s) mod sizeof_T s =? 0).

(** The block that is handed out loses its link. *)
Definition allocate (n : Z) : cpp Pool Z :=
  s ← get;
  if sizeof_T s <? n then undefined "assert" else
  if m_free_list s =? 0 then mret 0 else
  match links s !! m_free_list s with
  | None => undefined "no link"
  | Some rest =>
      let used := wrap64 (m_used_blocks s + 1) in
      modify (set_free_list rest used (count_allocation used (wrap64 (used * sizeof_T s)) (sizeof_T s) (m_counters s))
        (delete (m_free_list s) (links s))) ;;
      mret (m_free_list s)
  end.

Definition deallocate (p : Z) : cpp Pool unit :=
  s ← get;
  if negb (owns s p) then mret tt else
  modify (set_free_list p (wrap64 (m_used_blocks s - 1)) (count_deallocation (m_counters s)) (<[p := m_free_list s]> (links s))).

Definition get_statistics : cpp Pool PoolStatistics :=
  gets (fun s => statistics (m_counters s) (m_used_blocks s) (wrap64 (m_used_blocks s * sizeof_T s)) 0%Q).

Definition reset : cpp Pool unit :=
  modify (fun s => set_free_list (m_pool s) 0 (m_counters s) (chain_links (Z.to_nat (m_block_count s - 1)) (m_pool s) (sizeof_T s) (links s)) s).

Definition get_available_blocks (s : Pool) : Z := wrap64 (m_block_count s - m_used_blocks s).
End FixedMemoryPool.

#[global] Instance indexed_pool : IMemoryPool IndexedMemoryPool.Indexed := {|
  pool_new raw n := match IndexedMemoryPool.Indexed_new raw n max_align with
                    | Ok _ s => s
                    | _ => IndexedMemoryPool.mkIndexed (Blocks_new raw n max_align) ∅ ∅ [] end;
  allocate := IndexedMemoryPool.allocate;
  deallocate := IndexedMemoryPool.deallocate;
  get_statistics := IndexedMemoryPool.get_statistics;
  reset := IndexedMemoryPool.reset |}.

(** [FixedMemoryPool<T>] for a [T] of [step] bytes. *)
Definition fixed_pool (step : Z) : IMemoryPool FixedMemoryPool.Pool := {|
  pool_new raw n := FixedMemoryPool.Pool_of raw step n max_align;
  allocate := FixedMemoryPool.allocate;
  deallocate := FixedMemoryPool.deallocate;
  get_statistics := FixedMemoryPool.get_statistics;
  reset := FixedMemoryPool.reset |}.

(** The free blocks in a vector of their own; the last one is taken first. *)
Module FixedMemoryPoolV2.
Record Pool : Type := mkPool {
  sizeof_T : Z; m_block_count : Z; m_raw_mem : Z; m_pool : Z; m_free_indices : list Z; m_used_blocks : Z; m_counters : Counters }.
Definition set_indices (l : list Z) (used : Z) (k : Counters) (s : Pool) : Pool :=
  mkPool (sizeof_T s) (m_block_count s) (m_raw_mem s) (m_pool s) l used k.

Definition all_indices (count : Z) : list Z := seqZ 0 count.
Definition Pool_new (raw step count align : Z) : Pool :=
  mkPool step count raw (align_up raw align) (all_indices count) 0 no_counters.

Definition owns (s : Pool) (p : Z) : bool :=
  (m_pool s <=? p) && (p <? wrap64 (m_pool s + wrap64 (m_block_count s * sizeof_T s))) && ((p - m_pool s) mod sizeof_T s =? 0).

Definition allocate (n : Z) : cpp Pool Z :=
  s ← get;
  if sizeof_T s <? n then undefined "assert" else
  match last (m_free_indices s) with
  | None => mret 0
  | Some i =>
      let used := wrap64 (m_used_blocks s + 1) in
      modify (set_indices (removelast (m_free_indices s)) used
        (count_allocation used (wrap64 (used * sizeof_T s)) (sizeof_T s) (m_counters s))) ;;
      mret (m_pool s + i * sizeof_T s)
  end.

Definition deallocate (p : Z) : cpp Pool unit :=
  s ← get;
  if negb (owns s p) then mret tt else
  modify (set_indices (m_free_indices s ++ [(p - m_pool s) / sizeof_T s]) (wrap64 (m_used_blocks s - 1)) (count_deallocation (m_counters s))).

Definition get_statistics : cpp Pool PoolStatistics :=
  gets (fun s => statistics (m_counters s) (m_used_blocks s) (wrap64 (m_used_blocks s * sizeof_T s)) 0%Q).

Definition reset : cpp Pool unit := modify (fun s => set_indices (all_indices (m_block_count s)) 0 (m_counters s) s).
Definition get_available_blocks (s : Pool) : Z := wrap64 (m_block_count s - m_used_blocks s).
End FixedMemoryPoolV2.

Definition fixed_pool_v2 (step align : Z) : IMemoryPool FixedMemoryPoolV2.Pool := {|
  pool_new raw n := FixedMemoryPoolV2.Pool_new raw step n align;
  allocate := FixedMemoryPoolV2.allocate;
  deallocate := FixedMemoryPoolV2.deallocate;
  get_statistics := FixedMemoryPoolV2.get_statistics;
  reset := FixedMemoryPoolV2.reset |}.

(** ** A pool per thread *)

Module ThreadSafeMemoryPool.
Section thread_safe.
Context {P : Type} `{IMemoryPool P}.

(** [local_pool] is a variable of each thread, not of each object: all wrappers of one pool
    type share it. Pools of threads are numbered. *)
Record World : Type := mkWorld {
  central : gmap nat P;                  (* m_central_pool of each wrapper *)
  all_local_pools : gmap nat (list nat);
  local_size : gmap nat Z;               (* m_thread_local_pool_size *)
  local_pool : gmap nat nat;             (* of each thread *)
  pools : list P }.

Definition set_locals (all : gmap nat (list nat)) (local : gmap nat nat) (ps : list P) (w : World) : World :=
  mkWorld (central w) all (local_size w) local ps.

(** The constructor; [pool] is what the arguments make. *)
Definition wrapper_new (obj : nat) (pool : P) : cpp World unit :=
  modify (fun w => mkWorld (<[obj := pool]> (central w)) (<[obj := []]> (all_local_pools w)) (<[obj := 128]> (local_size w))
    (local_pool w) (pools w)).

(** [raw] is the memory of a new pool. *)
Definition get_local_pool (obj thread : nat) (raw : Z) : cpp World nat :=
  w ← get;
  match local_pool w !! thread with
  | Some i => mret i
  | None =>
      let i := length (pools w) in
      modify (set_locals (<[obj := default [] (all_local_pools w !! obj) ++ [i]]> (all_local_pools w)) (<[thread := i]> (local_pool w))
        (pools w ++ [pool_new raw (default 0 (local_size w !! obj))])) ;;
      mret i
  end.

Definition on_pool {A} (i : nat) (f : cpp P A) : cpp World A := fun w =>
  match pools w !! i with
  | None => Undefined "no pool"
  | Some p =>
      let back p' := set_locals (all_local_pools w) (local_pool w) (<[i := p']> (pools w)) w in
      match f p with
      | Ok a p' => Ok a (back p') | Throw e p' => Throw e (back p') | Blocked p' => Blocked (back p') | Undefined why => Undefined why
      end
  end.

Definition allocate_in (obj thread : nat) (raw n : Z) : cpp World Z := i ← get_local_pool obj thread raw; on_pool i (allocate n).
Definition deallocate_in (obj thread : nat) (raw p : Z) : cpp World unit := i ← get_local_pool obj thread raw; on_pool i (deallocate p).

Definition Qmax (a b : Q) : Q := if Qle_bool a b then b else a.
Definition add_statistics (a b : PoolStatistics) : PoolStatistics :=
  mkStatistics (wrap64 (total_allocations a + total_allocations b)) (wrap64 (total_deallocations a + total_deallocations b))
    (wrap64 (current_allocations a + current_allocations b)) (Z.max (peak_allocations a) (peak_allocations b))
    (wrap64 (total_bytes_allocated a + total_bytes_allocated b)) (wrap64 (current_bytes_used a + current_bytes_used b))
    (Z.max (peak_bytes_used a) (peak_bytes_used b)) (Qmax (fragmentation_ratio a) (fragmentation_ratio b)).

Definition on_central {A} (obj : nat) (f : cpp P A) : cpp World A := fun w =>
  match central w !! obj with
  | None => Undefined "no pool"
  | Some p =>
      let back p' := mkWorld (<[obj := p']> (central w)) (all_local_pools w) (local_size w) (local_pool w) (pools w) in
      match f p with
      | Ok a p' => Ok a (back p') | Throw e p' => Throw e (back p') | Blocked p' => Blocked (back p') | Undefined why => Undefined why
      end
  end.

Fixpoint sum_statistics (ids : list nat) (acc : PoolStatistics) : cpp World PoolStatistics :=
  match ids with
  | [] => mret acc
  | i :: ids' => s ← on_pool i get_statistics; sum_statistics ids' (add_statistics acc s)
  end.
Definition all_statistics (obj : nat) : cpp World PoolStatistics :=
  s ← on_central obj get_statistics;
  w ← get;
  sum_statistics (default [] (all_local_pools w !! obj)) s.

Definition reset_all (obj : nat) : cpp World unit :=
  on_central obj reset ;;
  w ← get;
  iterM (fun i => on_pool i reset) (default [] (all_local_pools w !! obj)).

Definition get_thread_local_statistics (obj thread : nat) (raw : Z) : cpp World PoolStatistics :=
  i ← get_local_pool obj thread raw; on_pool i get_statistics.
Definition set_thread_local_pool_size (obj : nat) (n : Z) : cpp World unit :=
  modify (fun w => mkWorld (central w) (all_local_pools w) (<[obj := n]> (local_size w)) (local_pool w) (pools w)).
End thread_safe.
Arguments World : clear implicits.
End ThreadSafeMemoryPool.

(** ** The factory and the allocator for containers *)

Module MemoryPoolFactory.
(** For a [T] of [step] bytes aligned to [align]. *)
Definition create_fixed_pool (raw step count align : Z) : result FixedMemoryPool.Pool unit := FixedMemoryPool.Pool_new raw step count align.
Definition create_object_pool (raw step align count : Z) : result FixedMemoryPool.Pool unit := create_fixed_pool raw step count align.
Definition create_variable_pool (raw total align : Z) : Blocks := Blocks_new raw total align.
Definition create_default_pool (raw : Z) : Blocks := create_variable_pool raw (1024 * 1024) max_align.
Definition create_thread_safe_pool {P} `{IMemoryPool P} (obj : nat) (pool : P) : cpp (ThreadSafeMemoryPool.World P) unit :=
  ThreadSafeMemoryPool.wrapper_new obj pool.
Definition create_thread_safe_variable_pool (obj : nat) (raw total align : Z) : cpp (ThreadSafeMemoryPool.World Blocks) unit :=
  create_thread_safe_pool obj (Blocks_new raw total align).
Definition create_thread_safe_fixed_pool (obj : nat) (raw step count align : Z) : cpp (ThreadSafeMemoryPool.World FixedMemoryPool.Pool) unit :=
  if step <? 8 then undefined "assert" else
  create_thread_safe_pool (H := fixed_pool step) obj (FixedMemoryPool.Pool_of raw step count align).
End MemoryPoolFactory.

(** [n * sizeof(T)] wraps. *)
Module PoolAllocator.
Definition allocate {P} `{IMemoryPool P} (sizeof_T n : Z) : cpp P Z :=
  p ← MemPool.allocate (wrap64 (n * sizeof_T));
  if p =? 0 then throw "std::bad_alloc" else mret p.
Definition deallocate {P} `{IMemoryPool P} (p : Z) : cpp P unit := MemPool.deallocate p.
End PoolAllocator.
