(* ===== verification/MemPoolChain.v ===== *)
(** * MemPoolChain: the chain of blocks

    The headers of a pool form a doubly linked list. It is described by the sizes of the
    blocks and whether they are free; addresses follow from the sizes. Each operation on
    headers is described by what it does to this list. *)

From S2P Require Import Prelude MemPool.

Local Open Scope Z_scope.

(** A block: its size and whether it is free. *)
Abbreviation block_list := (list (Z * bool)).

(** The bytes of blocks with their headers. *)
Fixpoint extent (bs : block_list) : Z := match bs with [] => 0 | b :: bs' => header_size + b.1 + extent bs' end.

Fixpoint addresses (a : Z) (bs : block_list) : list Z :=
  match bs with [] => [] | b :: bs' => a :: addresses (a + header_size + b.1) bs' end.

Definition last_address (p a : Z) (bs : block_list) : Z := default p (last (addresses a bs)).

(** Headers from [a] on: [p] is the block before the first one and [e] the one after the last. *)
Fixpoint chain (h : gmap Z BlockHeader) (p a : Z) (bs : block_list) (e : Z) : Prop :=
  match bs with
  | [] => True
  | b :: bs' => h !! a = Some (mkHeader b.1 b.2 p (match bs' with [] => e | _ => a + header_size + b.1 end)) /\
                chain h a (a + header_size + b.1) bs' e
  end.

Definition sizes_ok (bs : block_list) : Prop := Forall (fun b => 0 <= b.1) bs.

Lemma extent_app b1 b2 : extent (b1 ++ b2) = extent b1 + extent b2.
Proof. induction b1 as [|b b1 IH]; cbn; lia. Qed.
Lemma extent_nonneg bs : sizes_ok bs -> 0 <= extent bs.
Proof. induction 1; cbn; unfold header_size; lia. Qed.

Lemma addresses_app a b1 b2 : addresses a (b1 ++ b2) = addresses a b1 ++ addresses (a + extent b1) b2.
Proof.
  revert a. induction b1 as [|b b1 IH]; intros a; cbn; [by rewrite Z.add_0_r|]. rewrite IH. do 3 f_equal. lia.
Qed.
Lemma length_addresses a bs : length (addresses a bs) = length bs.
Proof. revert a. induction bs as [|b bs IH]; intros a; cbn; [done|]. by rewrite IH. Qed.

Lemma addresses_bound a bs k : sizes_ok bs -> k ∈ addresses a bs -> a <= k /\ k + header_size <= a + extent bs.
Proof.
  intros Hs. revert a. induction Hs as [|b bs Hb Hs IH]; intros a Hk; [by apply elem_of_nil in Hk|]. cbn in *. pose proof (extent_nonneg bs Hs).
  apply elem_of_cons in Hk as [->|Hk]; [lia|]. apply IH in Hk. unfold header_size in *. lia.
Qed.

Lemma last_address_app p a b1 b b2 : last_address p a (b1 ++ b :: b2) = last_address (a + extent b1) (a + extent b1 + header_size + b.1) b2.
Proof.
  unfold last_address. rewrite addresses_app, last_app. cbn [addresses]. rewrite last_cons.
  by destruct (last (addresses (a + extent b1 + header_size + b.1) b2)).
Qed.

Lemma chain_app h p a b1 b2 e : chain h p a (b1 ++ b2) e <->
  chain h p a b1 (match b2 with [] => e | _ => a + extent b1 end) /\ chain h (last_address p a b1) (a + extent b1) b2 e.
Proof.
  revert p a. induction b1 as [|b b1 IH]; intros p a; cbn [app chain extent].
  { rewrite Z.add_0_r. unfold last_address. cbn. tauto. }
  rewrite IH. assert (El : last_address p a (b :: b1) = last_address a (a + header_size + b.1) b1).
  { unfold last_address. cbn [addresses]. rewrite last_cons. by destruct (last (addresses _ b1)). }
  rewrite El. replace (a + (header_size + b.1 + extent b1)) with (a + header_size + b.1 + extent b1) by lia.
  destruct b1 as [|b' b1]; cbn [app]; [|tauto]. cbn [extent chain]. rewrite Z.add_0_r. destruct b2; tauto.
Qed.

(** Only the addresses of the blocks matter. *)
Lemma chain_frame h h' p a bs e : (forall k, k ∈ addresses a bs -> h' !! k = h !! k) -> chain h p a bs e -> chain h' p a bs e.
Proof.
  revert p a. induction bs as [|b bs IH]; intros p a Hk; [done|]. cbn [chain addresses] in *. intros [H1 H2]. split.
  - rewrite Hk by left. done.
  - apply IH; [|done]. intros k Hin. apply Hk. by right.
Qed.

Lemma chain_insert_out h p a bs e x v : x ∉ addresses a bs -> chain h p a bs e -> chain (<[x := v]> h) p a bs e.
Proof. intros Hx. apply chain_frame. intros k Hk. rewrite lookup_insert_ne; [done|]. intros ->. done. Qed.

Lemma chain_dom h p a bs e k : chain h p a bs e -> k ∈ addresses a bs -> is_Some (h !! k).
Proof.
  revert p a. induction bs as [|b bs IH]; intros p a; [intros _ Hk; by apply elem_of_nil in Hk|]. cbn [chain addresses]. intros [H1 H2] Hk.
  apply elem_of_cons in Hk as [->|Hk]; [by eexists|]. by eapply IH.
Qed.

Lemma addresses_NoDup a bs : sizes_ok bs -> NoDup (addresses a bs).
Proof.
  intros Hs. revert a. induction Hs as [|b bs Hb Hs IH]; intros a; cbn; constructor; [|apply IH].
  intros Hk. apply addresses_bound in Hk; [|done]. unfold header_size in *. lia.
Qed.

(** There are at least as many headers as blocks. *)
Lemma chain_length h p a bs e : sizes_ok bs -> chain h p a bs e -> (length bs <= base.size h)%nat.
Proof.
  intros Hs Hc. rewrite <-(length_addresses a bs), <-(size_list_to_set (C := gset Z)) by (by apply addresses_NoDup).
  rewrite <-(size_dom (D := gset Z) h). apply subseteq_size. intros k Hk. apply elem_of_list_to_set in Hk. apply elem_of_dom. by eapply chain_dom.
Qed.

(** The first block gets another predecessor. *)
Lemma chain_reprev h p p' a b bs e : sizes_ok (b :: bs) -> chain h p a (b :: bs) e ->
  exists x, h !! a = Some x /\ chain (<[a := set_prev p' x]> h) p' a (b :: bs) e.
Proof.
  intros Hs [H1 H2]. eexists. split; [exact H1|]. cbn [chain]. rewrite lookup_insert_eq. split; [done|].
  apply chain_insert_out; [|done]. intros Hk. inversion_clear Hs as [|? ? Hb Hs']. apply addresses_bound in Hk; [|done]. unfold header_size in *. lia.
Qed.

(** The block in the middle of a chain: its header, what comes before and after. *)
Lemma chain_middle h p a pre b post e : chain h p a (pre ++ b :: post) e ->
  h !! (a + extent pre) = Some (mkHeader b.1 b.2 (last_address p a pre) (match post with [] => e | _ => a + extent pre + header_size + b.1 end)) /\
  chain h p a pre (a + extent pre) /\ chain h (a + extent pre) (a + extent pre + header_size + b.1) post e.
Proof. intros H. apply chain_app in H as [H1 [H2 H3]]. done. Qed.

Lemma chain_rebuild h p a pre b post e :
  h !! (a + extent pre) = Some (mkHeader b.1 b.2 (last_address p a pre) (match post with [] => e | _ => a + extent pre + header_size + b.1 end)) ->
  chain h p a pre (a + extent pre) -> chain h (a + extent pre) (a + extent pre + header_size + b.1) post e -> chain h p a (pre ++ b :: post) e.
Proof. intros H1 H2 H3. apply chain_app. done. Qed.

Lemma sizes_middle pre b post : sizes_ok (pre ++ b :: post) -> sizes_ok pre /\ 0 <= b.1 /\ sizes_ok post.
Proof. unfold sizes_ok. rewrite Forall_app, Forall_cons. tauto. Qed.

Lemma not_in_before a pre k : sizes_ok pre -> a + extent pre <= k -> k ∉ addresses a pre.
Proof. intros Hs Hk Hin. apply addresses_bound in Hin; [|done]. unfold header_size in *. lia. Qed.
Lemma not_in_after a post k : sizes_ok post -> k < a -> k ∉ addresses a post.
Proof. intros Hs Hk Hin. apply addresses_bound in Hin; [|done]. lia. Qed.

(** The address after a block, as the header has it. *)
Definition next_of (post : block_list) (q e : Z) : Z := match post with [] => e | _ => q end.

(** Another flag. *)
Lemma chain_flag h p a pre n f f' post e : sizes_ok (pre ++ (n, f) :: post) -> chain h p a (pre ++ (n, f) :: post) e ->
  let A := a + extent pre in
  chain (<[A := mkHeader n f' (last_address p a pre) (next_of post (A + header_size + n) e)]> h) p a (pre ++ (n, f') :: post) e.
Proof.
  intros (Hs1 & Hn & Hs2)%sizes_middle Hc A. apply chain_middle in Hc as (H1 & H2 & H3). cbn [fst snd] in *. apply chain_rebuild.
  - by rewrite lookup_insert_eq.
  - apply chain_insert_out; [|done]. apply not_in_before; [done|]. subst A. lia.
  - apply chain_insert_out; [|done]. apply not_in_after; [done|]. subst A. unfold header_size. cbn. lia.
Qed.

(** The successor of a block, if there is one, gets [q] as its predecessor. *)
Definition relink (post : block_list) (nx q : Z) (h : gmap Z BlockHeader) : gmap Z BlockHeader :=
  match post with [] => h | _ => alter (set_prev q) nx h end.

Lemma chain_relink h p q a post e : sizes_ok post -> chain h p a post e -> chain (relink post a q h) q a post e.
Proof.
  destruct post as [|b post]; [done|]. intros Hs Hc. destruct (chain_reprev h p q a b post e Hs Hc) as (x & Hx & Hc').
  unfold relink. replace (alter (set_prev q) a h) with (<[a := set_prev q x]> h); [done|].
  apply map_eq. intros k. destruct (decide (k = a)) as [->|Hk]; [by rewrite lookup_insert_eq, lookup_alter_eq, Hx|by rewrite lookup_insert_ne, lookup_alter_ne].
Qed.
Lemma relink_ne post nx q h k : k <> nx -> relink post nx q h !! k = h !! k.
Proof. destruct post; [done|]. intros Hk. by apply lookup_alter_ne. Qed.

(** A block is cut in two. *)
Lemma chain_split h p a pre n m f post e : sizes_ok (pre ++ (n, f) :: post) -> chain h p a (pre ++ (n, f) :: post) e -> 0 <= m -> m + header_size <= n ->
  let A := a + extent pre in let q := A + header_size + m in let nx := A + header_size + n in
  chain (<[A := mkHeader m f (last_address p a pre) q]> (relink post nx q (<[q := mkHeader (n - m - header_size) true A (next_of post nx e)]> h))) p a
    (pre ++ (m, f) :: (n - m - header_size, true) :: post) e.
Proof.
  intros (Hs1 & Hn & Hs2)%sizes_middle Hc Hm Hmn A q nx. apply chain_middle in Hc as (H1 & H2 & H3). cbn [fst snd] in *.
  assert (HA : A < q) by (subst q; unfold header_size; lia). assert (Hq : q + header_size <= nx) by (subst q nx; lia).
  apply chain_rebuild; cbn [fst snd].
  - rewrite lookup_insert_eq. subst q A. done.
  - apply chain_insert_out; [apply not_in_before; [done|subst A; lia]|]. apply (chain_frame h); [|done]. intros k Hk.
    pose proof (addresses_bound a pre k Hs1 Hk). unfold header_size in *. rewrite relink_ne, lookup_insert_ne; [done|..]; subst A; lia.
  - fold A. cbn [chain fst snd]. fold q. replace (q + header_size + (n - m - header_size)) with nx by (subst q nx; lia).
    unfold header_size in *. split.
    + rewrite lookup_insert_ne by lia. rewrite relink_ne, lookup_insert_eq by lia. done.
    + apply chain_insert_out; [apply not_in_after; [done|lia]|]. eapply chain_relink; [done|].
      apply chain_insert_out; [apply not_in_after; [done|lia]|]. exact H3.
Qed.

(** A block is added to the one before it. *)
Lemma chain_absorb h p a pre n f m g post e : sizes_ok (pre ++ (n, f) :: (m, g) :: post) -> chain h p a (pre ++ (n, f) :: (m, g) :: post) e ->
  let A := a + extent pre in let q := A + header_size + n in let nx := q + header_size + m in
  chain (relink post nx A (<[A := mkHeader (n + (header_size + m)) f (last_address p a pre) (next_of post nx e)]> h)) p a
    (pre ++ (n + (header_size + m), f) :: post) e.
Proof.
  intros (Hs1 & Hn & Hs2)%sizes_middle Hc A q nx. inversion_clear Hs2 as [|? ? Hm Hs3]. apply chain_middle in Hc as (H1 & H2 & H3). cbn [fst snd chain] in *.
  destruct H3 as [H3 H4]. fold A q nx in H3, H4. unfold header_size in *.
  assert (A < nx) by (subst nx q; lia). apply chain_rebuild; cbn [fst snd].
  - rewrite relink_ne by (subst A; lia). rewrite lookup_insert_eq. do 2 f_equal. unfold next_of. destruct post; [done|]. unfold header_size. subst nx q A. lia.
  - apply (chain_frame h); [|done]. intros k Hk. pose proof (addresses_bound a pre k Hs1 Hk). unfold header_size in *.
    rewrite relink_ne, lookup_insert_ne; [done|..]; subst A; lia.
  - fold A. replace (A + header_size + (n + (32 + m))) with nx by (subst nx q; unfold header_size; lia).
    eapply chain_relink; [done|]. apply chain_insert_out; [apply not_in_after; [done|lia]|]. exact H4.
Qed.

(** A block is handed out; nothing of the chain is inside it. *)
Lemma chain_hand_out h p a pre n f post e : sizes_ok (pre ++ (n, f) :: post) -> chain h p a (pre ++ (n, f) :: post) e ->
  chain (hand_out (a + extent pre + header_size) n h) p a (pre ++ (n, f) :: post) e.
Proof.
  intros Hs. apply chain_frame. intros k Hk. unfold hand_out. apply sizes_middle in Hs as (Hs1 & Hn & Hs2). rewrite addresses_app in Hk. cbn [addresses] in Hk.
  assert (Hout : ~ (a + extent pre + header_size - header_size < k < a + extent pre + header_size + n)).
  { unfold header_size in *. cbn [fst] in *. apply elem_of_app in Hk as [Hk|Hk]; [apply addresses_bound in Hk; [unfold header_size in *; lia|done]|].
    apply elem_of_cons in Hk as [->|Hk]; [lia|]. apply addresses_bound in Hk; [|done]. lia. }
  destruct (h !! k) as [x|] eqn:E.
  - apply map_lookup_filter_Some. done.
  - apply map_lookup_filter_None. by left.
Qed.

(** ** The operations *)

(** The blocks of a pool. *)
Record layout (s : Blocks) (bs : block_list) : Prop := mkLayout {
  l_sizes : sizes_ok bs;
  l_pool : 0 < m_pool s;
  l_head : m_head s = m_pool s;
  l_some : bs <> [];
  l_align : exists k, 0 <= k /\ m_alignment s = 2 ^ k;
  l_end : m_pool s + extent bs + m_alignment s < 2 ^ 64;
  l_chain : chain (m_headers s) 0 (m_pool s) bs 0;
  l_total : extent bs = header_size + m_total_size s }.

(** Where the block after [pre] is. *)
Definition at_ (s : Blocks) (pre : block_list) : Z := m_pool s + extent pre.

Lemma set_headers_twice h h' s : set_headers h (set_headers h' s) = set_headers h s.
Proof. done. Qed.
Lemma set_headers_same s : set_headers (m_headers s) s = s.
Proof. by destruct s. Qed.

Lemma header_at_eq s p b : m_headers s !! p = Some b -> header_at p s = Ok b s.
Proof. intros E. unfold header_at. by rewrite E. Qed.
Lemma update_header_eq s p b f : m_headers s !! p = Some b -> update_header p f s = Ok tt (set_headers (<[p := f b]> (m_headers s)) s).
Proof. intros E. unfold update_header. by rewrite (bind_Ok _ _ _ _ _ (header_at_eq _ _ _ E)). Qed.
Lemma insert_alter f (h : gmap Z BlockHeader) p b : h !! p = Some b -> <[p := f b]> h = alter f p h.
Proof.
  intros E. apply map_eq. intros k. destruct (decide (k = p)) as [->|Hk]; [by rewrite lookup_insert_eq, lookup_alter_eq, E|by rewrite lookup_insert_ne, lookup_alter_ne].
Qed.

Lemma at_positive s bs pre post : layout s bs -> bs = pre ++ post -> 0 < at_ s pre.
Proof.
  intros [Hs Hp _ _ _ _ _ _] ->. unfold at_. assert (sizes_ok pre) by (unfold sizes_ok in *; by apply Forall_app in Hs as [? _]).
  pose proof (extent_nonneg pre). intuition lia.
Qed.

(** The numbers of a block in a layout are those of the machine. *)
Lemma layout_block s pre b post : layout s (pre ++ b :: post) ->
  0 < at_ s pre /\ 0 <= b.1 /\ at_ s pre + header_size + b.1 + extent post < 2 ^ 64 /\ 0 <= extent post /\
  m_headers s !! at_ s pre = Some (mkHeader b.1 b.2 (last_address 0 (m_pool s) pre) (next_of post (at_ s pre + header_size + b.1) 0)).
Proof.
  intros H. pose proof (at_positive s _ pre (b :: post) H eq_refl) as Hp. destruct H as [Hs Hpool _ _ (k & Hk & Ha) He Hc _].
  pose proof (Z.pow_pos_nonneg 2 k ltac:(lia) Hk).
  apply chain_middle in Hc as (H1 & _). apply sizes_middle in Hs as (Hs1 & Hn & Hs2). rewrite extent_app in He. cbn [extent] in He.
  pose proof (extent_nonneg post Hs2). split; [done|]. split; [done|]. split; [unfold at_; lia|]. split; [done|]. unfold at_, next_of. by rewrite H1.
Qed.

(** Changing the successor's link, as the code does it. *)
Lemma relink_eq s post nx q p : sizes_ok post -> chain (m_headers s) p nx post 0 -> 0 < nx ->
  (if next_of post nx 0 =? 0 then mret tt else update_header (next_of post nx 0) (set_prev q)) s =
    Ok tt (set_headers (relink post nx q (m_headers s)) s).
Proof.
  intros Hs Hc Hnx. destruct post as [|b post]; cbn [next_of relink].
  - by rewrite set_headers_same.
  - destruct (Z.eqb_spec nx 0) as [|_]; [lia|]. destruct Hc as [H1 _]. rewrite (update_header_eq _ _ _ _ H1). by rewrite (insert_alter _ _ _ _ H1).
Qed.

Lemma layout_headers s h bs bs' : layout s bs -> sizes_ok bs' -> extent bs' = extent bs -> bs' <> [] -> chain h 0 (m_pool s) bs' 0 -> layout (set_headers h s) bs'.
Proof. intros [Hs Hp Hh Hn Ha He Hc Ht] Hs' Hx Hn' Hc'. split; try done; cbn; by rewrite Hx. Qed.

Lemma split_off_spec s pre n f m post : layout s (pre ++ (n, f) :: post) -> 0 <= m -> m + header_size <= n ->
  exists h, split_off (at_ s pre) m s = Ok (at_ s pre + header_size + m) (set_headers h s) /\
    layout (set_headers h s) (pre ++ (m, f) :: (n - m - header_size, true) :: post).
Proof.
  intros Hl Hm Hmn. pose proof (layout_block _ _ _ _ Hl) as (Hp & Hn & Hend & Hpost & Hb). cbn [fst snd] in *.
  pose proof (l_chain _ _ Hl) as Hc. pose proof (l_sizes _ _ Hl) as Hs. pose proof (chain_split _ _ _ _ _ _ _ _ _ Hs Hc Hm Hmn) as Hc'.
  apply chain_middle in Hc as (_ & _ & H3). cbn [fst] in H3. fold (at_ s pre) in H3, Hc'. cbv zeta in Hc'.
  set (A := at_ s pre) in *. set (q := A + header_size + m) in *. set (nx := A + header_size + n) in *.
  destruct (sizes_middle _ _ _ Hs) as (Hs1 & _ & Hs2). eexists. split.
  - unfold split_off. rewrite (bind_Ok _ _ _ _ _ (header_at_eq _ _ _ Hb)). fold q. cbn [size next free prev].
    rewrite (wrap64_small (n - m - header_size)) by (unfold header_size in *; lia).
    rewrite (bind_Ok (write_header _ _) _ s tt _ eq_refl). set (s1 := set_headers _ s).
    assert (Hc1 : chain (m_headers s1) A nx post 0) by (apply chain_insert_out; [apply not_in_after; [done|subst q nx; unfold header_size in *; lia]|done]).
    rewrite (bind_Ok _ _ _ _ _ (relink_eq s1 post nx q A Hs2 Hc1 ltac:(subst nx; unfold header_size in *; lia))). set (s2 := set_headers _ s1).
    assert (Hb2 : m_headers s2 !! A = Some (mkHeader n f (last_address 0 (m_pool s) pre) (next_of post nx 0))).
    { cbn. rewrite relink_ne by (subst nx; unfold header_size in *; lia). rewrite lookup_insert_ne by (subst q; unfold header_size in *; lia). exact Hb. }
    rewrite (bind_Ok _ _ _ _ _ (update_header_eq _ _ _ (set_next q) Hb2)). set (s3 := set_headers _ s2).
    rewrite (bind_Ok _ _ _ _ _ (update_header_eq s3 A _ (set_size m) (lookup_insert_eq _ _ _))). cbn. rewrite insert_insert_eq. reflexivity.
  - eapply layout_headers; [exact Hl|..].
    + unfold sizes_ok in *. rewrite Forall_app, !Forall_cons. split; [done|]. split; [done|]. split; [cbn; lia|done].
    + rewrite !extent_app. cbn. lia.
    + by destruct pre.
    + exact Hc'.
Qed.

Lemma absorb_spec s pre n f m g post : layout s (pre ++ (n, f) :: (m, g) :: post) ->
  exists h, absorb (at_ s pre) (at_ s pre + header_size + n) s = Ok tt (set_headers h s) /\
    layout (set_headers h s) (pre ++ (n + (header_size + m), f) :: post).
Proof.
  intros Hl. pose proof (layout_block _ _ _ _ Hl) as (Hp & Hn & Hend & Hpost & Hb). cbn [fst snd extent] in *.
  pose proof (l_chain _ _ Hl) as Hc. pose proof (l_sizes _ _ Hl) as Hs. pose proof (chain_absorb _ _ _ _ _ _ _ _ _ _ Hs Hc) as Hc'.
  destruct (sizes_middle _ _ _ Hs) as (Hs1 & _ & Hs2). inversion_clear Hs2 as [|? ? Hm Hs3]. cbn in Hm. pose proof (extent_nonneg _ Hs3).
  apply chain_middle in Hc as (_ & _ & H3). cbn [fst snd chain] in H3. fold (at_ s pre) in H3, Hc'. cbv zeta in Hc'. destruct H3 as [Hq H4].
  set (A := at_ s pre) in *. set (q := A + header_size + n) in *. set (nx := q + header_size + m) in *. fold (next_of post nx 0) in Hq.
  eexists. split.
  - unfold absorb. rewrite (bind_Ok _ _ _ _ _ (header_at_eq _ _ _ Hb)), (bind_Ok _ _ _ _ _ (header_at_eq _ _ _ Hq)). cbn [size next free prev set_next set_size].
    rewrite (wrap64_small (n + (header_size + m))) by (unfold header_size in *; lia).
    rewrite (bind_Ok (write_header _ _) _ s tt _ eq_refl). set (s1 := set_headers _ s).
    assert (Hc1 : chain (m_headers s1) q nx post 0) by (apply chain_insert_out; [apply not_in_after; [done|subst q nx; unfold header_size in *; lia]|done]).
    rewrite (relink_eq s1 post nx A q Hs3 Hc1) by (subst nx q; unfold header_size in *; lia). unfold s1. rewrite set_headers_twice. reflexivity.
  - eapply layout_headers; [exact Hl|..].
    + unfold sizes_ok in *. rewrite Forall_app, Forall_cons. split; [done|]. split; [cbn; unfold header_size; lia|done].
    + rewrite !extent_app. cbn. lia.
    + by destruct pre.
    + exact Hc'.
Qed.

Lemma layout_flag s pre n f f' post : layout s (pre ++ (n, f) :: post) ->
  layout (set_headers (<[at_ s pre := mkHeader n f' (last_address 0 (m_pool s) pre) (next_of post (at_ s pre + header_size + n) 0)]> (m_headers s)) s) (pre ++ (n, f') :: post).
Proof.
  intros Hl. pose proof (l_sizes _ _ Hl) as Hs. eapply layout_headers; [exact Hl|..].
  - unfold sizes_ok in *. rewrite Forall_app, Forall_cons in *. done.
  - by rewrite !extent_app.
  - by destruct pre.
  - apply (chain_flag _ _ _ _ _ f); [done|apply Hl].
Qed.

Lemma layout_usage s head used cur k bs : layout s bs -> head = m_pool s -> layout (set_usage head used cur k s) bs.
Proof. intros [Hs Hp Hh Hn Ha He Hc Ht] ->. by split. Qed.

(** What else a step leaves alone. *)
Record same_pool (s s' : Blocks) : Prop := mkSame {
  sp_total : m_total_size s' = m_total_size s;
  sp_align : m_alignment s' = m_alignment s;
  sp_raw : m_raw_mem s' = m_raw_mem s;
  sp_pool : m_pool s' = m_pool s }.
#[global] Instance same_pool_preorder : PreOrder same_pool.
Proof. split; [done|]. intros s1 s2 s3 [H1 H2 H3 H4] [H5 H6 H7 H8]. split; congruence. Qed.

Lemma same_at s s' pre : same_pool s s' -> at_ s' pre = at_ s pre.
Proof. intros [_ _ _ E]. unfold at_. by rewrite E. Qed.

Lemma mark_used_spec s pre n f post : layout s (pre ++ (n, f) :: post) ->
  exists s', mark_used (at_ s pre) s = Ok (at_ s pre + header_size) s' /\ layout s' (pre ++ (n, false) :: post) /\ same_pool s s' /\
    m_used_size s' = wrap64 (m_used_size s + n) /\ m_current_allocations s' = wrap64 (m_current_allocations s + 1).
Proof.
  intros Hl. destruct (layout_block _ _ _ _ Hl) as (_ & _ & _ & _ & Hb). pose proof (layout_flag s pre n f false post Hl) as Hl'.
  eexists. split.
  - unfold mark_used. rewrite (bind_Ok _ _ _ _ _ (header_at_eq _ _ _ Hb)), (bind_Ok (write_header _ _) _ s tt _ eq_refl).
    rewrite (bind_Ok (modify _) _ _ tt _ eq_refl), (bind_Ok (modify _) _ _ tt _ eq_refl). reflexivity.
  - split; [|by split]. cbn [size]. eapply layout_headers; [eapply layout_usage; [exact Hl'|apply Hl]|apply Hl'|done|by destruct pre|].
    apply chain_hand_out; apply Hl'.
Qed.

Lemma mark_free_spec s pre n f post : layout s (pre ++ (n, f) :: post) -> 0 < m_current_allocations s ->
  exists s', mark_free (at_ s pre) s = Ok tt s' /\ layout s' (pre ++ (n, true) :: post) /\ same_pool s s' /\
    m_used_size s' = wrap64 (m_used_size s - n) /\ m_current_allocations s' = m_current_allocations s - 1.
Proof.
  intros Hl Hc. destruct (layout_block _ _ _ _ Hl) as (_ & _ & _ & _ & Hb). pose proof (layout_flag s pre n f true post Hl) as Hl'.
  eexists. split; [|split; [|split; [|split]]].
  - unfold mark_free. rewrite (bind_Ok _ _ _ _ _ (header_at_eq _ _ _ Hb)), (bind_Ok (write_header _ _) _ s tt _ eq_refl). reflexivity.
  - eapply layout_usage; [exact Hl'|apply Hl].
  - by split.
  - done.
  - cbn. destruct (Z.ltb_spec 0 (m_current_allocations s)); lia.
Qed.
