(* ===== verification/MemPoolVariable.v ===== *)
(** * MemPoolVariable: the pool that searches its chain

    The blocks of [VariableMemoryPool] as a list: what an allocation takes, what a release
    gives back. No two neighbours are free, and the counters say what is in use. *)

From S2P Require Import Prelude MemPool MemPoolChain.

Local Open Scope Z_scope.

(** The blocks in use, by the address their owners have, and their bytes. *)
Fixpoint used_at (a : Z) (bs : block_list) : list (Z * Z) :=
  match bs with
  | [] => []
  | b :: bs' => (if b.2 then [] else [(a + header_size, b.1)]) ++ used_at (a + header_size + b.1) bs'
  end.
Definition bytes (l : list (Z * Z)) : Z := foldr (fun b n => b.2 + n) 0 l.

Definition ends_free (bs : block_list) : bool := match last bs with Some b => b.2 | None => false end.
Definition starts_free (bs : block_list) : bool := match bs with b :: _ => b.2 | [] => false end.

(** No two neighbours are free. *)
Fixpoint coalesced (bs : block_list) : Prop :=
  match bs with [] => True | b :: bs' => (b.2 && starts_free bs' = false) /\ coalesced bs' end.

Record pool_ok (s : Blocks) (bs : block_list) : Prop := mkPoolOk {
  ok_layout : layout s bs;
  ok_coalesced : coalesced bs;
  ok_bytes : m_used_size s = bytes (used_at (m_pool s) bs);
  ok_count : m_current_allocations s = Z.of_nat (length (used_at (m_pool s) bs)) }.

Lemma used_at_app a b1 b2 : used_at a (b1 ++ b2) = used_at a b1 ++ used_at (a + extent b1) b2.
Proof.
  revert a. induction b1 as [|b b1 IH]; intros a; cbn; [by rewrite Z.add_0_r|]. rewrite IH, app_assoc. do 2 f_equal. lia.
Qed.
Lemma used_at_free a n bs : used_at a ((n, true) :: bs) = used_at (a + header_size + n) bs.
Proof. done. Qed.
Lemma used_at_used a n bs : used_at a ((n, false) :: bs) = (a + header_size, n) :: used_at (a + header_size + n) bs.
Proof. done. Qed.

Lemma bytes_app l1 l2 : bytes (l1 ++ l2) = bytes l1 + bytes l2.
Proof. unfold bytes in *. induction l1 as [|b l1 IH]; cbn in *; lia. Qed.

#[global] Instance bytes_proper : Proper ((≡ₚ) ==> eq) bytes.
Proof. unfold bytes. intros l1 l2 H. induction H; cbn; lia. Qed.

(** What is in use is within the pool. *)
Lemma used_extent a bs : sizes_ok bs -> 0 <= bytes (used_at a bs) /\
  bytes (used_at a bs) + header_size * Z.of_nat (length (used_at a bs)) <= extent bs.
Proof.
  intros Hs. revert a. induction Hs as [|b bs Hb Hs IH]; intros a; cbn; [lia|]. specialize (IH (a + header_size + b.1)).
  rewrite bytes_app, length_app. destruct (b.2); cbn; unfold header_size in *; lia.
Qed.

Lemma used_at_split a bs p n : (p, n) ∈ used_at a bs -> exists pre post, bs = pre ++ (n, false) :: post /\ p = a + extent pre + header_size.
Proof.
  revert a. induction bs as [|[m f] bs IH]; intros a Hin; [by apply elem_of_nil in Hin|]. cbn [used_at] in Hin.
  apply elem_of_app in Hin as [Hin|Hin].
  - destruct f; [by apply elem_of_nil in Hin|]. apply list_elem_of_singleton in Hin. cbn in Hin. simplify_eq. exists [], bs. split; [done|]. cbn. lia.
  - destruct (IH _ Hin) as (pre & post & -> & ->). exists ((m, f) :: pre), post. split; [done|]. cbn. lia.
Qed.

Lemma starts_free_app b1 b2 : starts_free (b1 ++ b2) = match b1 with [] => starts_free b2 | _ => starts_free b1 end.
Proof. by destruct b1. Qed.
Lemma ends_free_app b1 b : ends_free (b1 ++ [b]) = b.2.
Proof. unfold ends_free. by rewrite last_snoc. Qed.

Lemma coalesced_app b1 b2 : coalesced (b1 ++ b2) <-> coalesced b1 /\ coalesced b2 /\ ends_free b1 && starts_free b2 = false.
Proof.
  induction b1 as [|b b1 IH]; cbn [app coalesced]; [unfold ends_free; cbn; tauto|]. rewrite IH.
  destruct b1 as [|b' b1]; [unfold ends_free; cbn; rewrite andb_false_r; intuition|]. cbn [app starts_free]. unfold ends_free. rewrite last_cons_cons. tauto.
Qed.
Lemma coalesced_middle pre b post : coalesced (pre ++ b :: post) <->
  coalesced pre /\ coalesced post /\ ends_free pre && b.2 = false /\ b.2 && starts_free post = false.
Proof. rewrite coalesced_app. cbn [coalesced starts_free]. tauto. Qed.

(** ** The first block that fits *)

Fixpoint first_fitting (n : Z) (bs : block_list) : option (block_list * Z * block_list) :=
  match bs with
  | [] => None
  | (m, f) :: bs' =>
      if f && (n <=? m) then Some ([], m, bs')
      else match first_fitting n bs' with Some (pre, k, post) => Some ((m, f) :: pre, k, post) | None => None end
  end.

Lemma first_fitting_some n bs pre m post : first_fitting n bs = Some (pre, m, post) -> bs = pre ++ (m, true) :: post /\ n <= m.
Proof.
  revert pre. induction bs as [|[k f] bs IH]; intros pre; [done|]. cbn. destruct (f && (n <=? k)) eqn:E.
  - intros [= <- <- <-]. apply andb_prop in E as [-> E]. split; [done|lia].
  - destruct (first_fitting n bs) as [[[pre' m'] post']|]; [|done]. intros [= <- <- <-]. by destruct (IH pre' eq_refl) as [-> ?].
Qed.
Lemma first_fitting_none n bs : first_fitting n bs = None <-> (forall m, (m, true) ∈ bs -> m < n).
Proof.
  induction bs as [|[k f] bs IH]; cbn; [split; [intros _ m Hm; by apply elem_of_nil in Hm|done]|].
  destruct (f && (n <=? k)) eqn:E.
  - split; [done|]. intros H. apply andb_prop in E as [-> E]. specialize (H k ltac:(left)). lia.
  - transitivity (first_fitting n bs = None).
    { destruct (first_fitting n bs) as [[[? ?] ?]|]; split; done. }
    rewrite IH. split.
    + intros H m [Hm|Hm]%elem_of_cons; [|by apply H]. simplify_eq. cbn in E. lia.
    + intros H m Hm. apply H. by right.
Qed.

(** Where the search ends. *)
Definition found_at (s : Blocks) (pre : block_list) (r : option (block_list * Z * block_list)) : Z :=
  match r with Some (pre', _, _) => at_ s (pre ++ pre') | None => 0 end.

Lemma first_fit_loop s n pre rest fuel : layout s (pre ++ rest) -> (length rest < fuel)%nat ->
  VariableMemoryPool.first_fit fuel (next_of rest (at_ s pre) 0) n s = Ok (found_at s pre (first_fitting n rest)) s.
Proof.
  revert pre fuel. induction rest as [|[m f] rest IH]; intros pre fuel Hl Hf; (destruct fuel as [|fuel]; [cbn in Hf; lia|]); [done|].
  destruct (layout_block _ _ _ _ Hl) as (Hp & _ & _ & _ & Hb). cbn [fst snd next_of] in *. cbn [VariableMemoryPool.first_fit].
  destruct (Z.eqb_spec (at_ s pre) 0) as [|_]; [lia|]. rewrite (bind_Ok _ _ _ _ _ (header_at_eq _ _ _ Hb)). cbn [free size next first_fitting].
  destruct (f && (n <=? m)) eqn:E; [cbn; by rewrite app_nil_r|].
  assert (Hl' : layout s ((pre ++ [(m, f)]) ++ rest)) by (by rewrite <-app_assoc).
  specialize (IH (pre ++ [(m, f)]) fuel Hl' ltac:(cbn in Hf; lia)).
  replace (at_ s (pre ++ [(m, f)])) with (at_ s pre + header_size + m) in IH by (unfold at_; rewrite extent_app; cbn; lia).
  rewrite IH. destruct (first_fitting n rest) as [[[pre' k] post']|]; cbn; [|done]. by rewrite <-app_assoc.
Qed.

Lemma first_fit_spec s n bs : layout s bs -> VariableMemoryPool.first_fit (turns s) (m_head s) n s = Ok (found_at s [] (first_fitting n bs)) s.
Proof.
  intros Hl. pose proof (first_fit_loop s n [] bs (turns s) Hl) as H.
  replace (next_of bs (at_ s []) 0) with (m_head s) in H.
  - apply H. unfold turns. pose proof (chain_length _ _ _ _ _ (l_sizes _ _ Hl) (l_chain _ _ Hl)). unfold base.size in *. lia.
  - destruct bs; [by destruct (l_some _ _ Hl)|]. unfold at_. cbn. rewrite (l_head _ _ Hl). lia.
Qed.

(** ** Taking a block *)

Lemma align_up_eq n k : 0 <= k -> 0 <= n -> n + 2 ^ k <= 2 ^ 64 -> align_up n (2 ^ k) = 2 ^ k * ((n + 2 ^ k - 1) / 2 ^ k).
Proof.
  intros Hk Hn Hm. pose proof (Z.pow_pos_nonneg 2 k ltac:(lia) Hk). unfold align_up. rewrite wrap64_small by lia.
  replace (2 ^ k - 1) with (Z.ones k) by (rewrite Z.ones_equiv; lia). rewrite <-Z.ldiff_land, Z.ldiff_ones_r by done.
  rewrite Z.shiftl_mul_pow2, Z.shiftr_div_pow2 by done. lia.
Qed.

(** Rounding up; a size of one rounding step less than 2^64 does not wrap. *)
Lemma align_up_bounds n k : 0 <= k -> 0 <= n -> n + 2 ^ k <= 2 ^ 64 ->
  n <= align_up n (2 ^ k) < n + 2 ^ k /\ align_up n (2 ^ k) mod 2 ^ k = 0.
Proof.
  intros Hk Hn Hm. pose proof (Z.pow_pos_nonneg 2 k ltac:(lia) Hk). rewrite align_up_eq by done.
  rewrite Z.mul_comm, Z.mod_mul by lia. split; [|done]. pose proof (Z.div_mod (n + 2 ^ k - 1) (2 ^ k) ltac:(lia)).
  pose proof (Z.mod_pos_bound (n + 2 ^ k - 1) (2 ^ k) ltac:(lia)). lia.
Qed.

(** What becomes of a free block of [m] bytes of which [n] are asked for. *)
Definition carve (align n m : Z) : block_list :=
  if n + header_size + align <=? m then [(n, false); (m - n - header_size, true)] else [(m, false)].
Definition given (align n m : Z) : Z := if n + header_size + align <=? m then n else m.

Lemma taken_used a align n pre m post : used_at a (pre ++ carve align n m ++ post) ≡ₚ (a + extent pre + header_size, given align n m) :: used_at a (pre ++ (m, true) :: post).
Proof.
  rewrite !used_at_app. unfold carve, given. destruct (_ <=? m); cbn [extent app used_at fst snd]; rewrite <-Permutation_middle; apply Permutation_refl'; do 3 f_equal; lia.
Qed.

(** The numbers of a pool are far from wrapping. *)
Lemma pool_ok_room s bs : pool_ok s bs ->
  0 <= m_used_size s /\ m_used_size s + header_size * m_current_allocations s <= extent bs /\ extent bs < 2 ^ 64.
Proof.
  intros [Hl _ Hb Hc]. destruct (used_extent (m_pool s) bs (l_sizes _ _ Hl)). destruct Hl as [_ ? _ _ (k & Hk & Ha) ? _ _].
  pose proof (Z.pow_pos_nonneg 2 k ltac:(lia) Hk). lia.
Qed.

Lemma taken_ok s s' n pre m post : pool_ok s (pre ++ (m, true) :: post) -> same_pool s s' -> 0 <= n <= m ->
  let al := m_alignment s in
  layout s' (pre ++ carve al n m ++ post) -> m_used_size s' = wrap64 (m_used_size s + given al n m) ->
  m_current_allocations s' = wrap64 (m_current_allocations s + 1) -> pool_ok s' (pre ++ carve al n m ++ post).
Proof.
  intros Hok Hsame Hn al Hl' Hu Hc. pose proof (taken_used (m_pool s) al n pre m post) as Hp.
  destruct (used_extent (m_pool s') _ (l_sizes _ _ Hl')) as [_ He]. pose proof (pool_ok_room _ _ Hok) as (Hroom & _).
  assert (Hx : m_pool s' + extent (pre ++ carve al n m ++ post) < 2 ^ 64).
  { destruct Hl' as [_ ? _ _ (k & Hk & Ha) ? _ _]. pose proof (Z.pow_pos_nonneg 2 k ltac:(lia) Hk). lia. }
  pose proof (l_pool _ _ Hl') as Hpos. destruct Hok as [Hl Hco Hb Hk]. rewrite (sp_pool _ _ Hsame) in *.
  assert (Hbytes : bytes (used_at (m_pool s) (pre ++ carve al n m ++ post)) = m_used_size s + given al n m).
  { rewrite Hb, Hp. cbn [bytes foldr snd]. fold (bytes (used_at (m_pool s) (pre ++ (m, true) :: post))). lia. }
  assert (Hlen := Permutation_length Hp). cbn [length] in Hlen. unfold header_size in He.
  assert (Hg : 0 <= given al n m) by (unfold given; destruct (_ <=? m); lia).
  split; [done| |rewrite (sp_pool _ _ Hsame)..].
  - apply coalesced_middle in Hco as (H1 & H2 & H3 & H4). cbn [snd] in *. unfold carve. destruct (_ <=? m); cbn [app].
    + apply coalesced_middle. cbn [snd coalesced starts_free]. rewrite andb_false_r. done.
    + apply coalesced_middle. cbn [snd]. rewrite andb_false_r. done.
  - rewrite Hu, Hbytes. apply wrap64_small. lia.
  - rewrite Hc, Hk. rewrite wrap64_small by lia. lia.
Qed.

(** The request as it is rounded. *)
Definition rounded (s : Blocks) (n : Z) : Z := align_up n (m_alignment s).

(** A request that rounding does not wrap. *)
Definition request_fits (s : Blocks) (n : Z) : Prop := 0 <= n /\ n + m_alignment s <= 2 ^ 64.

Lemma rounded_ge s bs n : layout s bs -> request_fits s n -> n <= rounded s n.
Proof.
  intros Hl [Hn Hm]. unfold rounded. destruct (l_align _ _ Hl) as (k & Hk & ->) in Hm |- *. by apply align_up_bounds.
Qed.

(** Cutting when there is room enough, the machine's way. *)
Lemma cut_test s pre m f post n : layout s (pre ++ (m, f) :: post) -> 0 <= n <= m ->
  (wrap64 (n + header_size + m_alignment s) <=? m) = (n + header_size + m_alignment s <=? m).
Proof.
  intros Hl Hn. pose proof (layout_block _ _ _ _ Hl) as (Hp & _ & He & Hx & _). destruct (l_align _ _ Hl) as (k & Hk & Ha).
  pose proof (Z.pow_pos_nonneg 2 k ltac:(lia) Hk). pose proof (l_end _ _ Hl) as Hend. rewrite extent_app in Hend. cbn [extent fst] in *.
  assert (0 <= extent pre) by (destruct (sizes_middle _ _ _ (l_sizes _ _ Hl)) as (? & _); by apply extent_nonneg).
  pose proof (l_pool _ _ Hl). rewrite wrap64_small; [done|]. unfold header_size in *. lia.
Qed.

Lemma take_spec s n pre m post : pool_ok s (pre ++ (m, true) :: post) -> 0 <= n <= m ->
  exists s', ((if wrap64 (n + header_size + m_alignment s) <=? m then split_off (at_ s pre) n ;; mret tt else mret tt) ;; mark_used (at_ s pre)) s =
    Ok (at_ s pre + header_size) s' /\ pool_ok s' (pre ++ carve (m_alignment s) n m ++ post) /\ same_pool s s'.
Proof.
  intros Hok Hn. pose proof (ok_layout _ _ Hok) as Hl. rewrite (cut_test _ _ _ _ _ _ Hl Hn).
  destruct (n + header_size + m_alignment s <=? m) eqn:E.
  - destruct (l_align _ _ Hl) as (k & Hk & Ha). pose proof (Z.pow_pos_nonneg 2 k ltac:(lia) Hk).
    destruct (split_off_spec s pre m true n post Hl) as (h & Eh & Hl1); [lia|lia|].
    destruct (mark_used_spec _ _ _ _ _ Hl1) as (s' & Es' & Hl' & Hsame & Hu & Hc). exists s'. rewrite bind_assoc, (bind_Ok _ _ _ _ _ Eh), bind_ret_l.
    split; [exact Es'|]. assert (same_pool s s') as Hs by (by transitivity (set_headers h s)). split; [|done].
    apply (taken_ok s); [done|done|done| | |done]; unfold carve, given; by rewrite E.
  - destruct (mark_used_spec _ _ _ _ _ Hl) as (s' & Es' & Hl' & Hsame & Hu & Hc). exists s'. rewrite bind_ret_l. split; [exact Es'|]. split; [|done].
    apply (taken_ok s); [done|done|done| | |done]; unfold carve, given; by rewrite E.
Qed.

(** What a pool does with a request, on its blocks. *)
Lemma variable_allocate_spec s bs n : pool_ok s bs -> n <> 0 -> request_fits s n ->
  match first_fitting (rounded s n) bs with
  | None => VariableMemoryPool.allocate n s = Ok 0 s
  | Some (pre, m, post) =>
      exists s', VariableMemoryPool.allocate n s = Ok (at_ s pre + header_size) s' /\
        pool_ok s' (pre ++ carve (m_alignment s) (rounded s n) m ++ post) /\ same_pool s s'
  end.
Proof.
  intros Hok Hn Hfit. pose proof (ok_layout _ _ Hok) as Hl. pose proof (rounded_ge _ _ _ Hl Hfit).
  unfold VariableMemoryPool.allocate. destruct (Z.eqb_spec n 0) as [|_]; [done|]. fold (rounded s n).
  destruct (first_fitting (rounded s n) bs) as [[[pre m] post]|] eqn:E.
  - destruct (first_fitting_some _ _ _ _ _ E) as [-> Hm]. destruct Hfit. destruct (take_spec s (rounded s n) pre m post Hok ltac:(lia)) as (s' & Es' & Hok' & Hsame).
    exists s'. split; [|done]. rewrite (bind_Ok get _ s s s eq_refl). fold (rounded s n). rewrite (bind_Ok _ _ _ _ _ (first_fit_spec s (rounded s n) _ Hl)), E. cbn [found_at app].
    destruct (layout_block _ _ _ _ Hl) as (Hp & _ & _ & _ & Hb). destruct (Z.eqb_spec (at_ s pre) 0) as [|_]; [lia|].
    rewrite (bind_Ok _ _ _ _ _ (header_at_eq _ _ _ Hb)). exact Es'.
  - rewrite (bind_Ok get _ s s s eq_refl). fold (rounded s n). by rewrite (bind_Ok _ _ _ _ _ (first_fit_spec s (rounded s n) _ Hl)), E.
Qed.

(** ** Giving a block back *)

(** Free neighbours become one block. *)
Fixpoint coalesce (bs : block_list) : block_list :=
  match bs with
  | [] => []
  | (n, f) :: bs' =>
      match f, coalesce bs' with
      | true, (m, true) :: rest => (n + (header_size + m), true) :: rest
      | _, rest => (n, f) :: rest
      end
  end.

Lemma coalesced_coalesce bs : coalesced (coalesce bs).
Proof.
  induction bs as [|[n [|]] bs IH]; [done| |done]. cbn [coalesce]. by destruct (coalesce bs) as [|[m [|]] rest].
Qed.
Lemma coalesce_id bs : coalesced bs -> coalesce bs = bs.
Proof.
  induction bs as [|[n f] bs IH]; [done|]. cbn [coalesced coalesce snd]. intros [H1 H2]. rewrite (IH H2).
  destruct f; [|done]. by destruct bs as [|[m [|]] bs].
Qed.
Lemma used_at_coalesce a bs : used_at a (coalesce bs) = used_at a bs.
Proof.
  revert a. induction bs as [|[n [|]] bs IH]; intros a; [done| |cbn; by rewrite IH]. cbn [coalesce]. specialize (IH (a + header_size + n)).
  destruct (coalesce bs) as [|[m [|]] rest]; rewrite !used_at_free, <-IH, ?used_at_free; [done| |done]. f_equal. lia.
Qed.

(** A used block is a border. *)
Lemma coalesce_app pre rest : coalesced pre -> ends_free pre = false -> coalesce (pre ++ rest) = pre ++ coalesce rest.
Proof.
  induction pre as [|[n f] pre IH]; [done|]. cbn [coalesced app coalesce snd]. intros [H1 H2] He.
  destruct pre as [|[m g] pre]; [by destruct f|]. unfold ends_free in He. rewrite last_cons_cons in He. rewrite (IH H2 He).
  destruct f; [|done]. cbn in H1. by rewrite H1.
Qed.

(** The blocks around one that has become free. *)
Lemma coalesce_after pre n post : coalesced pre -> ends_free pre = false -> coalesced post ->
  coalesce (pre ++ (n, true) :: post) = match post with (m, true) :: rest => pre ++ (n + (header_size + m), true) :: rest | _ => pre ++ (n, true) :: post end.
Proof.
  intros Hp He Hc. rewrite coalesce_app by done. cbn [coalesce]. rewrite (coalesce_id post) by done. by destruct post as [|[m [|]] post].
Qed.
Lemma coalesce_before pre m n post : coalesced (pre ++ [(m, true)]) -> coalesced post ->
  coalesce ((pre ++ [(m, true)]) ++ (n, true) :: post) = coalesce (pre ++ (m + (header_size + n), true) :: post).
Proof.
  intros Hp Hc. apply coalesced_middle in Hp as (Hp & _ & He & _). cbn [snd] in He. rewrite andb_true_r in He.
  rewrite <-app_assoc. cbn [app]. rewrite !coalesce_app by done. f_equal. cbn [coalesce]. rewrite (coalesce_id post) by done.
  destruct post as [|[k [|]] post]; [done| |done]. do 2 f_equal. lia.
Qed.

(** The block before, as the header has it. *)
Lemma prev_of s pre b c post : layout s ((pre ++ [b]) ++ c :: post) -> last_address 0 (m_pool s) (pre ++ [b]) = at_ s pre.
Proof. intros _. rewrite last_address_app. done. Qed.
Lemma at_snoc s pre b : at_ s (pre ++ [b]) = at_ s pre + header_size + b.1.
Proof. unfold at_. rewrite extent_app. cbn. lia. Qed.

(** Absorbing the block after. *)
Lemma merge_after_spec s pre n post : layout s (pre ++ (n, true) :: post) -> coalesced pre -> ends_free pre = false -> coalesced post ->
  exists h, (b ← header_at (at_ s pre); if next b =? 0 then mret tt else x ← header_at (next b); if free x then absorb (at_ s pre) (next b) else mret tt) s =
    Ok tt (set_headers h s) /\ layout (set_headers h s) (coalesce (pre ++ (n, true) :: post)).
Proof.
  intros Hl Hp He Hc. rewrite (coalesce_after pre n post Hp He Hc). destruct (layout_block _ _ _ _ Hl) as (Hpos & _ & _ & _ & Hb). cbn [fst snd] in Hb.
  rewrite (bind_Ok _ _ _ _ _ (header_at_eq _ _ _ Hb)). cbn [next]. destruct post as [|[m g] post].
  { exists (m_headers s). rewrite set_headers_same. done. }
  cbn [next_of]. destruct (layout_block s (pre ++ [(n, true)]) (m, g) post) as (Hpos2 & _ & _ & _ & Hb2); [by rewrite <-app_assoc|].
  rewrite at_snoc in Hpos2, Hb2. cbn [fst snd] in Hpos2, Hb2. destruct (Z.eqb_spec (at_ s pre + header_size + n) 0) as [|_]; [lia|].
  rewrite (bind_Ok _ _ _ _ _ (header_at_eq _ _ _ Hb2)). cbn [free]. destruct g; [by eapply absorb_spec|].
  exists (m_headers s). rewrite set_headers_same. done.
Qed.

Lemma merge_spec s pre n post : layout s (pre ++ (n, true) :: post) -> coalesced pre -> coalesced post ->
  exists h, VariableMemoryPool.merge (at_ s pre) s = Ok tt (set_headers h s) /\ layout (set_headers h s) (coalesce (pre ++ (n, true) :: post)).
Proof.
  intros Hl Hp Hc. destruct (layout_block _ _ _ _ Hl) as (Hpos & _ & _ & _ & Hb). cbn [fst snd] in Hb.
  unfold VariableMemoryPool.merge. rewrite (bind_Ok _ _ _ _ _ (header_at_eq _ _ _ Hb)). cbn [prev].
  destruct pre as [|[m g] pre' _] using rev_ind.
  { change (last_address 0 (m_pool s) []) with 0. rewrite Z.eqb_refl, bind_ret_l. by apply merge_after_spec. }
  rewrite (prev_of _ _ _ _ _ Hl). rewrite <-app_assoc in Hl. cbn [app] in Hl. destruct (layout_block _ _ _ _ Hl) as (Hpos2 & _ & _ & _ & Hb2). cbn [fst snd] in Hb2.
  destruct (Z.eqb_spec (at_ s pre') 0) as [|_]; [lia|]. rewrite bind_assoc, (bind_Ok _ _ _ _ _ (header_at_eq _ _ _ Hb2)). cbn [free].
  destruct g.
  - destruct (absorb_spec _ _ _ _ _ _ _ Hl) as (h & Eh & Hl'). rewrite at_snoc. cbn [fst]. rewrite bind_assoc, (bind_Ok _ _ _ _ _ Eh), bind_ret_l.
    rewrite coalesce_before by done. apply coalesced_middle in Hp as (Hp & _ & He & _). cbn [snd] in He. rewrite andb_true_r in He.
    apply (merge_after_spec (set_headers h s)); done.
  - rewrite bind_ret_l. apply merge_after_spec; [by rewrite <-app_assoc|done|by rewrite ends_free_app|done].
Qed.

(** Releasing a used block; blocks whose address is not below the end of the pool are not
    recognized. *)
Lemma released_ok s s' s'' pre n post : pool_ok s (pre ++ (n, false) :: post) -> same_pool s s'' ->
  layout s'' (coalesce (pre ++ (n, true) :: post)) -> m_used_size s' = wrap64 (m_used_size s - n) ->
  m_current_allocations s' = m_current_allocations s - 1 -> m_used_size s'' = m_used_size s' -> m_current_allocations s'' = m_current_allocations s' ->
  pool_ok s'' (coalesce (pre ++ (n, true) :: post)).
Proof.
  intros Hok Hsame Hl Hu Hc Eu Ec. pose proof (pool_ok_room _ _ Hok) as Hroom. destruct Hok as [Hl0 Hco Hb Hk].
  destruct (sizes_middle _ _ _ (l_sizes _ _ Hl0)) as (Hs1 & Hn & Hs2). cbn [fst] in Hn.
  pose proof (used_extent (m_pool s) pre Hs1) as [H1 _]. pose proof (used_extent (m_pool s + extent pre + header_size + n) post Hs2) as [H2 _].
  set (u2 := used_at (m_pool s + extent pre + header_size + n) post) in *.
  assert (Hb' : m_used_size s = bytes (used_at (m_pool s) pre) + n + bytes u2).
  { rewrite Hb, used_at_app, used_at_used, bytes_app. cbn [bytes foldr snd]. fold u2 (bytes u2). lia. }
  split; [done|apply coalesced_coalesce| |]; rewrite (sp_pool _ _ Hsame), used_at_coalesce, used_at_app, used_at_free; fold u2.
  - rewrite Eu, Hu, bytes_app, wrap64_small; unfold header_size in Hroom; lia.
  - rewrite Ec, Hc, Hk, used_at_app, used_at_used, !length_app. cbn [length]. fold u2. lia.
Qed.

Lemma total_nonneg s bs : layout s bs -> 0 <= m_total_size s.
Proof.
  intros [Hs _ _ Hn _ _ _ Ht]. destruct bs as [|b bs]; [done|]. inversion_clear Hs as [|? ? Hb Hs']. pose proof (extent_nonneg _ Hs'). cbn [extent] in Ht. lia.
Qed.
Lemma owns_iff s bs p : layout s bs -> m_pool s <= p -> owns s p = (p <? m_pool s + m_total_size s).
Proof.
  intros Hl Hp. pose proof (total_nonneg _ _ Hl). destruct Hl as [Hs ? _ _ (k & Hk & Ha) He _ Ht]. pose proof (Z.pow_pos_nonneg 2 k ltac:(lia) Hk).
  unfold owns. destruct (Z.leb_spec (m_pool s) p); [|lia]. cbn [andb]. rewrite wrap64_small; [done|]. unfold header_size in *. lia.
Qed.

Lemma variable_deallocate_spec s pre n post : pool_ok s (pre ++ (n, false) :: post) ->
  let p := at_ s pre + header_size in
  if p <? m_pool s + m_total_size s then
    exists s', VariableMemoryPool.deallocate p s = Ok tt s' /\ pool_ok s' (coalesce (pre ++ (n, true) :: post)) /\ same_pool s s'
  else VariableMemoryPool.deallocate p s = Ok tt s.
Proof.
  intros Hok p. pose proof (ok_layout _ _ Hok) as Hl. destruct (layout_block _ _ _ _ Hl) as (Hpos & _ & _ & _ & Hb). cbn [fst snd] in Hb.
  assert (Hge : m_pool s <= p).
  { destruct (sizes_middle _ _ _ (l_sizes _ _ Hl)) as (Hs1 & _). pose proof (extent_nonneg _ Hs1). unfold p, at_, header_size. lia. }
  unfold VariableMemoryPool.deallocate. destruct (Z.eqb_spec p 0) as [|_]; [unfold p, header_size in *; lia|].
  rewrite (bind_Ok get _ s s s eq_refl), (owns_iff _ _ _ Hl Hge). destruct (p <? m_pool s + m_total_size s); [|done]. cbn [negb].
  replace (p - header_size) with (at_ s pre) by (unfold p; lia). rewrite (bind_Ok _ _ _ _ _ (header_at_eq _ _ _ Hb)). cbn [free].
  assert (Hcur : 0 < m_current_allocations s).
  { rewrite (ok_count _ _ Hok), used_at_app, used_at_used, length_app. cbn [length]. lia. }
  destruct (mark_free_spec _ _ _ _ _ Hl Hcur) as (s' & Es' & Hl' & Hsame & Hu & Hc). rewrite (bind_Ok _ _ _ _ _ Es').
  pose proof (ok_coalesced _ _ Hok) as (Hc1 & Hc2 & _ & _)%coalesced_middle. destruct (merge_spec _ _ _ _ Hl' Hc1 Hc2) as (h & Eh & Hl'').
  rewrite (same_at _ _ _ Hsame) in Eh. exists (set_headers h s'). split; [exact Eh|].
  assert (same_pool s (set_headers h s')) by (by transitivity s'). split; [|done]. by apply (released_ok s s').
Qed.

(** A new pool is one free block. *)
Lemma variable_new_ok raw total k : 0 < raw -> 0 <= k -> 0 <= total -> raw + header_size + total + 2 * 2 ^ k < 2 ^ 64 -> 
  pool_ok (Blocks_new raw total (2 ^ k)) [(total, true)].
Proof.
  intros Hr Hk Ht He. pose proof (Z.pow_pos_nonneg 2 k ltac:(lia) Hk). destruct (align_up_bounds raw k) as [Hb _]; [lia|lia|unfold header_size in *; lia|].
  split; [|by cbn..]. split; cbn.
  - by apply Forall_singleton.
  - lia.
  - done.
  - done.
  - by exists k.
  - unfold header_size in *. lia.
  - rewrite lookup_singleton_eq. done.
  - lia.
Qed.

(** Resetting. *)
Lemma reset_blocks_ok s bs : pool_ok s bs -> exists s', reset_blocks s = Ok tt s' /\ pool_ok s' [(m_total_size s, true)] /\ same_pool s s'.
Proof.
  intros [Hl _ _ _]. eexists. split; [reflexivity|]. split; [|by split]. pose proof (total_nonneg _ _ Hl). destruct Hl as [Hs ? _ _ Ha He _ Ht]. split; [|by cbn..].
  split; cbn; try done.
  - by apply Forall_singleton.
  - rewrite Z.add_0_r, <-Ht. done.
  - by rewrite lookup_insert_eq.
  - lia.
Qed.

(** ** Defragmentation and statistics *)

Lemma coalesce_step n m rest : coalesce ((n, true) :: (m, true) :: rest) = coalesce ((n + (header_size + m), true) :: rest).
Proof.
  cbn [coalesce]. destruct (coalesce rest) as [|[k [|]] rest']; [done| |done]. do 2 f_equal. lia.
Qed.
Lemma coalesce_keep n f m g rest : f && g = false -> coalesce ((n, f) :: (m, g) :: rest) = (n, f) :: coalesce ((m, g) :: rest).
Proof. by destruct f, g. Qed.

(** The loop merges the blocks from where it stands. *)
Lemma defragment_loop_spec pre b rest fuel s : layout s (pre ++ b :: rest) -> (length rest < fuel)%nat ->
  exists h, defragment_loop fuel (at_ s pre) s = Ok tt (set_headers h s) /\ layout (set_headers h s) (pre ++ coalesce (b :: rest)).
Proof.
  revert pre b fuel s. induction rest as [|[m g] rest IH]; intros pre [n f] fuel s Hl Hf; (destruct fuel as [|fuel]; [cbn in Hf; lia|]);
    destruct (layout_block _ _ _ _ Hl) as (Hpos & _ & _ & _ & Hb); cbn [fst snd next_of] in Hb; cbn [defragment_loop];
    (destruct (Z.eqb_spec (at_ s pre) 0) as [|_]; [lia|]); rewrite (bind_Ok _ _ _ _ _ (header_at_eq _ _ _ Hb)); cbn [next free].
  { exists (m_headers s). rewrite set_headers_same. by destruct f. }
  destruct (layout_block s (pre ++ [(n, f)]) (m, g) rest) as (Hpos2 & _ & _ & _ & Hb2); [by rewrite <-app_assoc|].
  rewrite at_snoc in Hpos2, Hb2. cbn [fst snd] in Hpos2, Hb2. destruct (Z.eqb_spec (at_ s pre + header_size + n) 0) as [|_]; [lia|].
  rewrite (bind_Ok _ _ _ _ _ (header_at_eq _ _ _ Hb2)). cbn [free]. destruct (f && g) eqn:E.
  - apply andb_prop in E as [-> ->]. destruct (absorb_spec _ _ _ _ _ _ _ Hl) as (h & Eh & Hl'). rewrite (bind_Ok _ _ _ _ _ Eh), coalesce_step.
    destruct (IH _ _ fuel _ Hl') as (h' & Eh' & Hl''); [cbn in Hf; lia|]. exists h'. done.
  - rewrite coalesce_keep by done. replace (at_ s pre + header_size + n) with (at_ s (pre ++ [(n, f)])) by apply at_snoc.
    destruct (IH (pre ++ [(n, f)]) (m, g) fuel s) as (h' & Eh' & Hl''); [by rewrite <-app_assoc|cbn in Hf; lia|]. exists h'. split; [exact Eh'|].
    by rewrite <-app_assoc in Hl''.
Qed.

Lemma layout_turns s bs : layout s bs -> (length bs < turns s)%nat.
Proof. intros Hl. unfold turns. pose proof (chain_length _ _ _ _ _ (l_sizes _ _ Hl) (l_chain _ _ Hl)). unfold base.size in *. lia. Qed.
Lemma layout_head s bs : layout s bs -> m_head s = at_ s [].
Proof. intros Hl. unfold at_. cbn. rewrite (l_head _ _ Hl). lia. Qed.

Lemma defragment_spec s bs : layout s bs ->
  exists h, VariableMemoryPool.defragment s = Ok tt (set_headers h s) /\ layout (set_headers h s) (coalesce bs).
Proof.
  intros Hl. unfold VariableMemoryPool.defragment. rewrite (bind_Ok get _ s s s eq_refl), (layout_head _ _ Hl). pose proof (layout_turns _ _ Hl).
  destruct bs as [|b bs]; [by destruct (l_some _ _ Hl)|]. apply (defragment_loop_spec []); [done|]. cbn in *. lia.
Qed.

(** Free bytes and the largest free block. *)
Definition free_bytes (bs : block_list) : Z := foldr (fun (b : Z * bool) (n : Z) => (if b.2 then b.1 else 0) + n) 0 bs.
Definition largest_free (bs : block_list) (acc : Z) : Z := foldl (fun (l : Z) (b : Z * bool) => if b.2 && (l <? b.1) then b.1 else l) acc bs.

Lemma free_bytes_bound bs : sizes_ok bs -> 0 <= free_bytes bs <= extent bs.
Proof.
  induction 1 as [|[n f] bs Hb Hs IH]; cbn; [lia|]. cbn in Hb. unfold free_bytes in IH. destruct f; unfold header_size in *; lia.
Qed.

(** Nothing is lost: what is in use, what is free and the headers make up the pool. *)
Lemma bytes_add_up a bs : bytes (used_at a bs) + free_bytes bs + header_size * Z.of_nat (length bs) = extent bs.
Proof.
  revert a. induction bs as [|[n f] bs IH]; intros a; [done|]. specialize (IH (a + header_size + n)). unfold header_size in *.
  cbn [used_at length extent fst snd]. rewrite bytes_app. unfold free_bytes in *. cbn [foldr fst snd]. unfold header_size in *.
  destruct f; cbn [bytes foldr snd]; lia.
Qed.

Lemma free_loop_spec s pre rest fuel acc largest : layout s (pre ++ rest) -> (length rest < fuel)%nat -> 0 <= acc -> acc + free_bytes rest < 2 ^ 64 ->
  free_loop fuel (next_of rest (at_ s pre) 0) acc largest s = Ok (acc + free_bytes rest, largest_free rest largest) s.
Proof.
  revert pre fuel acc largest. induction rest as [|[m f] rest IH]; intros pre fuel acc largest Hl Hf Ha Hw; (destruct fuel as [|fuel]; [cbn in Hf; lia|]).
  { cbn. by rewrite Z.add_0_r. }
  destruct (layout_block _ _ _ _ Hl) as (Hp & Hm & _ & _ & Hb). cbn [fst snd next_of] in *. cbn [free_loop].
  destruct (Z.eqb_spec (at_ s pre) 0) as [|_]; [lia|]. rewrite (bind_Ok _ _ _ _ _ (header_at_eq _ _ _ Hb)). cbn [free size next].
  assert (Hl' : layout s ((pre ++ [(m, f)]) ++ rest)) by (by rewrite <-app_assoc).
  assert (Hs : sizes_ok rest) by (destruct (sizes_middle _ _ _ (l_sizes _ _ Hl)) as (_ & _ & ?); done). pose proof (free_bytes_bound _ Hs).
  pose proof (IH (pre ++ [(m, f)]) fuel) as IH'. rewrite at_snoc in IH'. cbn [fst] in IH'. cbn [free_bytes foldr fst snd] in Hw. fold (free_bytes rest) in Hw.
  assert (Hfu : (length rest < fuel)%nat) by (cbn in Hf; lia). cbn [free_bytes largest_free foldr foldl fst snd]. fold (free_bytes rest). destruct f.
  - rewrite wrap64_small by lia. rewrite IH' by (done || lia). cbn. do 2 f_equal. lia.
  - rewrite IH' by (done || lia). cbn. do 2 f_equal.
Qed.

Lemma variable_statistics_spec s bs : pool_ok s bs ->
  VariableMemoryPool.get_statistics s = Ok (statistics (m_counters s) (Z.of_nat (length (used_at (m_pool s) bs))) (bytes (used_at (m_pool s) bs))
    (ratio (free_bytes bs) (largest_free bs 0))) s.
Proof.
  intros Hok. pose proof (ok_layout _ _ Hok) as Hl. pose proof (pool_ok_room _ _ Hok) as (_ & _ & Hx). pose proof (free_bytes_bound _ (l_sizes _ _ Hl)).
  unfold VariableMemoryPool.get_statistics. rewrite (bind_Ok get _ s s s eq_refl), (layout_head _ _ Hl).
  pose proof (free_loop_spec s [] bs (turns s) 0 0 Hl (layout_turns _ _ Hl)) as E. destruct bs as [|b bs]; [by destruct (l_some _ _ Hl)|]. cbn [next_of] in E.
  rewrite (bind_Ok _ _ _ _ _ (E ltac:(lia) ltac:(lia))). rewrite (ok_count _ _ Hok), (ok_bytes _ _ Hok). done.
Qed.

(** ** What a pool promises

    The contract of a pool as a class of laws, a program that takes blocks and gives them
    back, and what follows for it whatever the pool: no undefined behaviour, and blocks that
    do not overlap. [VariableMemoryPool] is shown to keep the contract, and the pool per
    thread to keep it for each thread. *)

(** ** Blocks that do not overlap *)

Definition apart (a b : Z * Z) : Prop := a.1 + a.2 <= b.1 \/ b.1 + b.2 <= a.1.
Definition separate (l : list (Z * Z)) : Prop := ForallOrdPairs apart l.

#[global] Instance apart_symmetric : Symmetric apart.
Proof. intros a b [H|H]; [by right|by left]. Qed.

Lemma separate_cons a l : separate (a :: l) <-> Forall (apart a) l /\ separate l.
Proof. unfold separate. split; [intros H; by inversion H|intros [? ?]; by constructor]. Qed.
Lemma separate_app l1 l2 : separate (l1 ++ l2) <-> separate l1 /\ separate l2 /\ Forall (fun a => Forall (apart a) l2) l1.
Proof.
  induction l1 as [|a l1 IH]; cbn [app]; [split; [intros H; split; [constructor|by split]|by intros (_ & ? & _)]|].
  rewrite !separate_cons, Forall_app, IH, Forall_cons. tauto.
Qed.
#[global] Instance separate_perm : Proper ((≡ₚ) ==> iff) separate.
Proof.
  assert (H : forall l1 l2, l1 ≡ₚ l2 -> separate l1 -> separate l2); [|intros l1 l2 E; by split; apply H].
  induction 1 as [|a l1 l2 E IH|a b l|]; [done| | |by auto]; rewrite !separate_cons.
  - intros [H1 H2]. split; [by rewrite <-E|by apply IH].
  - rewrite !Forall_cons. intros ((H1 & H2) & H3 & H4). repeat split; [by symmetry|done|done|done].
Qed.

(** Smaller blocks at the same places. *)
Definition within (a b : Z * Z) : Prop := a.1 = b.1 /\ a.2 <= b.2.
Lemma separate_within l1 l2 : Forall2 within l1 l2 -> separate l2 -> separate l1.
Proof.
  induction 1 as [|a b l1 l2 [E1 E2] H IH]; [done|]. rewrite !separate_cons. intros [H1 H2]. split; [|by apply IH].
  clear IH H2. induction H as [|c d l1 l2 [E3 E4] H IH]; [done|]. apply Forall_cons in H1 as [Hd H1]. constructor; [|by apply IH].
  unfold apart in *. lia.
Qed.

Lemma delete_beyond {A} (l : list A) i : l !! i = None -> delete i l = l.
Proof. revert i. induction l as [|x l IH]; intros [|i] H; [done|done|done|]. cbn. f_equal. by apply IH. Qed.

(** ** The contract *)

(** [exact s l]: the blocks of [l] (address and size) are the ones in use. What does not
    change is the configuration of a pool: the memory it has ([bounds]) and the requests it
    may be asked ([serves]). [floor]: blocks of more bytes than that are always taken back;
    smaller ones may get lost. *)
Class LawfulPool (P : Type) {pool : IMemoryPool P} : Type := {
  exact : P -> list (Z * Z) -> Prop;
  Config : Type;
  config : P -> Config;
  serves : Config -> Z -> Prop;
  bounds : Config -> Z * Z;
  floor : Z;
  new_fits : Z -> Z -> Prop;
  new_law raw n : new_fits raw n -> exact (pool_new raw n) [];
  exact_perm s l l' : l ≡ₚ l' -> exact s l -> exact s l';
  exact_separate s l : exact s l -> separate l;
  exact_bounds s l b : exact s l -> b ∈ l -> 0 < b.1 /\ 0 <= b.2 /\ (bounds (config s)).1 <= b.1 /\ b.1 + b.2 <= (bounds (config s)).2;
  allocate_law s l n : exact s l -> serves (config s) n -> exists p s', allocate n s = Ok p s' /\ config s' = config s /\
    ((p = 0 /\ exact s' l) \/ exists m, n <= m /\ exact s' ((p, m) :: l));
  deallocate_law s b l : exact s (b :: l) -> exists s', deallocate b.1 s = Ok tt s' /\ config s' = config s /\
    (exact s' l \/ (b.2 <= floor /\ exact s' (b :: l))) }.

(** ** A program that uses a pool *)

(** It asks for bytes, or gives back the block it holds at a position. *)
Inductive action : Set := Take (n : Z) | Give (i : nat).

Section client.
Context {P : Type} {pool : IMemoryPool P}.

Definition act (a : action) (live : list (Z * Z)) : cpp P (list (Z * Z)) :=
  match a with
  | Take n => p ← allocate n; mret (if p =? 0 then live else (p, n) :: live)
  | Give i => match live !! i with
              | Some b => deallocate b.1 ;; mret (delete i live)
              | None => mret live
              end
  end.
Fixpoint acts (l : list action) (live : list (Z * Z)) : cpp P (list (Z * Z)) :=
  match l with [] => mret live | a :: l' => live' ← act a live; acts l' live' end.

Context {laws : LawfulPool P}.

(** Every request is one the pool serves. *)
Definition served (s : P) (a : action) : Prop := match a with Take n => serves (config s) n | Give _ => True end.
Definition above_floor (a : action) : Prop := match a with Take n => floor < n | Give _ => True end.

(** The program has [live]; the pool knows of blocks that are at least as large, and of lost ones. *)
Definition in_step (s : P) (live lost : list (Z * Z)) : Prop :=
  exists l, Forall2 within live l /\ exact s (l ++ lost).

Lemma in_step_take s live lost n : in_step s live lost -> serves (config s) n ->
  exists live' s', act (Take n) live s = Ok live' s' /\ in_step s' live' lost /\ config s' = config s.
Proof.
  intros (l & Hw & He) Hn. destruct (allocate_law _ _ _ He Hn) as (p & s' & Es & Hb & Hor). unfold act. rewrite (bind_Ok _ _ _ _ _ Es).
  do 2 eexists. split; [reflexivity|]. split; [|done]. destruct Hor as [[-> He']|(m & Hm & He')]; [by exists l|].
  destruct (exact_bounds _ _ (p, m) He' ltac:(left)) as (Hp & _). cbn [fst] in Hp. destruct (Z.eqb_spec p 0) as [|_]; [lia|].
  exists ((p, m) :: l). split; [by constructor|done].
Qed.

Lemma in_step_give s live lost i : in_step s live lost ->
  exists live' s' lost', act (Give i) live s = Ok live' s' /\ in_step s' live' lost' /\ config s' = config s /\
    live' = delete i live /\ (lost' = lost \/ exists b, b ∈ live /\ b.2 <= floor).
Proof.
  intros (l & Hw & He). unfold act. destruct (live !! i) as [b|] eqn:Ei.
  2:{ exists live, s, lost. split; [done|]. split; [by exists l|]. split; [done|]. split; [|by left]. by rewrite delete_beyond. }
  destruct (Forall2_lookup_l _ _ _ _ _ Hw Ei) as (c & Ec & [E1 E2]). rewrite E1.
  assert (Hp : l ++ lost ≡ₚ c :: (delete i l ++ lost)) by (by rewrite (delete_Permutation l i c Ec) at 1).
  destruct (deallocate_law s c _ (exact_perm _ _ _ Hp He)) as (s' & Es & Hb & Hor). rewrite (bind_Ok _ _ _ _ _ Es).
  assert (Hw' : Forall2 within (delete i live) (delete i l)) by (by apply Forall2_delete).
  destruct Hor as [He'|[Hf He']].
  - exists (delete i live), s', lost. split; [done|]. split; [by exists (delete i l)|]. repeat (split; [done|]). by left.
  - exists (delete i live), s', (c :: lost). split; [done|]. split.
    + exists (delete i l). split; [done|]. eapply exact_perm; [|exact He']. by rewrite Permutation_middle.
    + repeat (split; [done|]). right. exists b. split; [by eapply list_elem_of_lookup_2|lia].
Qed.

Lemma acts_in_step l s live lost : in_step s live lost -> Forall (served s) l ->
  exists live' s' lost', acts l live s = Ok live' s' /\ in_step s' live' lost' /\ config s' = config s /\
    (Forall above_floor l -> Forall (fun b => floor < b.2) live -> lost' = lost /\ Forall (fun b => floor < b.2) live').
Proof.
  revert s live lost. induction l as [|a l IH]; intros s live lost Hin Hl; [by exists live, s, lost|]. apply Forall_cons in Hl as [Ha Hl].
  cbn [acts]. destruct a as [n|i].
  - destruct (in_step_take _ _ _ _ Hin Ha) as (live1 & s1 & E1 & Hin1 & Hb1). rewrite (bind_Ok _ _ _ _ _ E1).
    destruct (IH s1 live1 lost Hin1) as (live' & s' & lost' & E & Hin' & Hb & Hlost).
    { eapply Forall_impl; [exact Hl|]. intros [m|j]; cbn; [by rewrite Hb1|done]. }
    exists live', s', lost'. split; [done|]. split; [done|]. split; [congruence|]. intros [Hf Hfl]%Forall_cons Hbig. apply Hlost; [done|].
    unfold act in E1. apply bind_inv_Ok in E1 as (p & s2 & _ & [= <- _]). destruct (p =? 0); [done|]. by constructor.
  - destruct (in_step_give _ _ _ i Hin) as (live1 & s1 & lost1 & E1 & Hin1 & Hb1 & -> & Hor). rewrite (bind_Ok _ _ _ _ _ E1).
    destruct (IH s1 (delete i live) lost1 Hin1) as (live' & s' & lost' & E & Hin' & Hb & Hlost).
    { eapply Forall_impl; [exact Hl|]. intros [m|j]; cbn; [by rewrite Hb1|done]. }
    exists live', s', lost'. split; [done|]. split; [done|]. split; [congruence|]. intros [Hf Hfl]%Forall_cons Hbig.
    assert (Hbig' : Forall (fun b => floor < b.2) (delete i live)) by (by apply Forall_delete).
    destruct (Hlost Hfl Hbig') as [-> Hlive]. split; [|done]. destruct Hor as [->|(b & Hb' & Hle)]; [done|].
    rewrite Forall_forall in Hbig. specialize (Hbig b Hb'). cbn in Hbig. lia.
Qed.

Lemma in_step_live s live lost : in_step s live lost -> separate live /\ Forall (fun b => 0 < b.1 /\ (bounds (config s)).1 <= b.1 /\ b.1 + b.2 <= (bounds (config s)).2) live.
Proof.
  intros (l & Hw & He). split.
  - eapply separate_within; [exact Hw|]. apply exact_separate in He. by apply separate_app in He as [? _].
  - rewrite Forall_forall. intros b Hb. apply list_elem_of_lookup in Hb as [i Hi]. destruct (Forall2_lookup_l _ _ _ _ _ Hw Hi) as (c & Hc & [E1 E2]).
    destruct (exact_bounds s _ c He) as (H1 & H2 & H3 & H4); [apply elem_of_app; left; by eapply list_elem_of_lookup_2|]. rewrite E1. lia.
Qed.
End client.

(** ** The pool that searches its chain keeps the contract *)

Lemma used_bounds a bs b : sizes_ok bs -> b ∈ used_at a bs -> a + header_size <= b.1 /\ 0 <= b.2 /\ b.1 + b.2 <= a + extent bs.
Proof.
  intros Hs. destruct b as [p n]. intros (pre & post & -> & ->)%used_at_split. apply sizes_middle in Hs as (H1 & H2 & H3). rewrite extent_app. cbn [extent fst snd] in *.
  pose proof (extent_nonneg _ H1). pose proof (extent_nonneg _ H3). unfold header_size in *. lia.
Qed.

Lemma used_separate a bs : sizes_ok bs -> separate (used_at a bs).
Proof.
  intros Hs. revert a. induction Hs as [|[n f] bs Hb Hs IH]; intros a; [constructor|]. destruct f; [apply IH|].
  rewrite used_at_used. apply separate_cons. split; [|apply IH]. rewrite Forall_forall. intros c Hc. apply used_bounds in Hc; [|done].
  left. cbn in *. unfold header_size in *. lia.
Qed.

(** A block in use that the pool does not take back is a small one at the end. *)
Lemma lost_is_small s pre n post : layout s (pre ++ (n, false) :: post) -> m_pool s + m_total_size s <= at_ s pre + header_size -> n <= header_size.
Proof.
  intros Hl H. pose proof (l_total _ _ Hl) as Ht. destruct (sizes_middle _ _ _ (l_sizes _ _ Hl)) as (_ & _ & Hs). pose proof (extent_nonneg _ Hs).
  rewrite extent_app in Ht. cbn [extent fst] in Ht. unfold at_ in H. lia.
Qed.

Lemma released_used a pre n post l : used_at a (pre ++ (n, false) :: post) ≡ₚ (a + extent pre + header_size, n) :: l ->
  used_at a (coalesce (pre ++ (n, true) :: post)) ≡ₚ l.
Proof.
  rewrite used_at_coalesce, !used_at_app, used_at_free, used_at_used, <-Permutation_middle. by intros H%Permutation_cons_inv.
Qed.

(** What stays of a pool of blocks. *)
Record BlocksConfig : Set := mkConfig { c_total : Z; c_align : Z; c_raw : Z; c_pool : Z }.
Definition blocks_config (s : Blocks) : BlocksConfig := mkConfig (m_total_size s) (m_alignment s) (m_raw_mem s) (m_pool s).
Definition config_bounds (c : BlocksConfig) : Z * Z := (c_pool c, c_pool c + header_size + c_total c).
Definition config_serves (c : BlocksConfig) (n : Z) : Prop := 0 <= n /\ n + c_align c <= 2 ^ 64.

Lemma same_config s s' : same_pool s s' -> blocks_config s' = blocks_config s.
Proof. intros [E1 E2 E3 E4]. unfold blocks_config. by rewrite E1, E2, E3, E4. Qed.

Lemma used_in_bounds s bs b : layout s bs -> b ∈ used_at (m_pool s) bs ->
  0 < b.1 /\ 0 <= b.2 /\ (config_bounds (blocks_config s)).1 <= b.1 /\ b.1 + b.2 <= (config_bounds (blocks_config s)).2.
Proof.
  intros Hl Hb. apply used_bounds in Hb; [|apply Hl]. destruct Hl as [_ ? _ _ _ _ _ Ht]. cbn. unfold header_size in *. lia.
Qed.

Lemma given_ge s bs n m : layout s bs -> request_fits s n -> rounded s n <= m -> n <= given (m_alignment s) (rounded s n) m.
Proof. intros Hl Hf Hm. pose proof (rounded_ge _ _ _ Hl Hf). unfold given. destruct (_ <=? m); lia. Qed.

Definition new_pool_fits (raw n : Z) : Prop := 0 < raw /\ 0 <= n /\ raw + header_size + n + 32 < 2 ^ 64.

#[global] Program Instance variable_lawful : LawfulPool Blocks := {|
  exact s l := exists bs, pool_ok s bs /\ used_at (m_pool s) bs ≡ₚ l;
  config := blocks_config;
  serves := config_serves;
  bounds := config_bounds;
  floor := header_size;
  new_fits := new_pool_fits |}.
Next Obligation. intros raw n (Hr & Hn & He). exists [(n, true)]. split; [|done]. by apply (variable_new_ok raw n 4). Qed.
Next Obligation. intros s l l' E (bs & Hok & Hp). exists bs. by rewrite Hp. Qed.
Next Obligation. intros s l (bs & Hok & Hp). rewrite <-Hp. apply used_separate, (ok_layout _ _ Hok). Qed.
Next Obligation. intros s l b (bs & Hok & Hp) Hb. rewrite <-Hp in Hb. eapply used_in_bounds; [apply Hok|done]. Qed.
Next Obligation.
  intros s l n (bs & Hok & Hp) Hn. destruct (decide (n = 0)) as [->|H0].
  { exists 0, s. split; [done|]. split; [done|]. left. split; [done|]. by exists bs. }
  pose proof (variable_allocate_spec _ _ _ Hok H0 Hn) as Hspec. destruct (first_fitting _ bs) as [[[pre m] post]|] eqn:E.
  - destruct (first_fitting_some _ _ _ _ _ E) as [-> Hm]. destruct Hspec as (s' & Es & Hok' & Hsame). exists (at_ s pre + header_size), s'.
    split; [done|]. split; [by apply same_config|]. right. exists (given (m_alignment s) (rounded s n) m).
    split; [eapply given_ge; [apply Hok|done|done]|]. eexists. split; [exact Hok'|]. rewrite (sp_pool _ _ Hsame), taken_used, Hp. done.
  - exists 0, s. split; [done|]. split; [done|]. left. split; [done|]. by exists bs.
Qed.
Next Obligation.
  intros s [p n] l (bs & Hok & Hp). assert (Hin : (p, n) ∈ used_at (m_pool s) bs) by (rewrite Hp; left).
  destruct (used_at_split _ _ _ _ Hin) as (pre & post & -> & ->). pose proof (variable_deallocate_spec s pre n post Hok) as Hspec. cbv zeta in Hspec.
  cbn [fst snd]. fold (at_ s pre). destruct (Z.ltb_spec (at_ s pre + header_size) (m_pool s + m_total_size s)) as [_|Hout].
  - destruct Hspec as (s' & Es & Hok' & Hsame). exists s'. split; [done|]. split; [by apply same_config|]. left.
    eexists. split; [exact Hok'|]. rewrite (sp_pool _ _ Hsame). by apply released_used.
  - exists s. split; [done|]. split; [done|]. right. split; [eapply lost_is_small; [apply Hok|done]|]. by exists (pre ++ (n, false) :: post).
Qed.
