(* ===== verification/MemPoolIndex.v ===== *)
(** * MemPoolIndex: the pool with indexes

    [IndexedMemoryPool] keeps the same chain of blocks as [VariableMemoryPool], and indexes
    of its free blocks by size class and by address. The indexes hold exactly the free
    blocks; a search in them finds a block whenever one fits, and of those one of the
    smallest class. *)

From S2P Require Import Prelude MemPool MemPoolChain MemPoolVariable.
Import IndexedMemoryPool.

Local Open Scope Z_scope.

(** ** Size classes *)

Definition classes : list Z := initialize_size_classes.
Definition class_of (n : Z) : Z := get_size_class classes n.

Lemma classes_sorted : StronglySorted Z.lt classes.
Proof.
  assert (E : classes = (fun k => 2 ^ k) <$> seqZ 3 18) by (vm_compute; reflexivity). rewrite E. clear E.
  assert (H : forall i n, 0 <= i -> StronglySorted Z.lt ((fun k => 2 ^ k) <$> ((fun j => Z.of_nat j + i) <$> seq 0 n))).
  { intros i n Hi. generalize 0%nat. induction n as [|n IH]; intros j; cbn; constructor; [apply IH|]. rewrite Forall_fmap, Forall_fmap, Forall_seq.
    intros k Hk. cbn. apply Z.pow_lt_mono_r; lia. }
  apply (H 3 18%nat). lia.
Qed.

Lemma class_mono_on l n m : StronglySorted Z.lt l -> n <= m -> get_size_class l n <= get_size_class l m.
Proof.
  unfold get_size_class. intros Hs Hnm. induction Hs as [|c l Hs IH Hc]; cbn [find_first]; [done|].
  destruct (Z.leb_spec n c); destruct (Z.leb_spec m c); [done| |lia|exact IH].
  destruct (find_first (fun d => m <=? d) l) as [d|] eqn:E; [|lia]. apply find_first_Some in E as [E _]. rewrite Forall_forall in Hc. specialize (Hc d E). lia.
Qed.

(** A larger block is in no smaller class. *)
Lemma class_mono n m : n <= m -> class_of n <= class_of m.
Proof. apply class_mono_on, classes_sorted. Qed.

(** ** What the indexes hold *)

Fixpoint free_at (a : Z) (bs : block_list) : list (Z * Z) :=
  match bs with
  | [] => []
  | b :: bs' => (if b.2 then [(a, b.1)] else []) ++ free_at (a + header_size + b.1) bs'
  end.

Record index_ok (s : Indexed) (fl : list (Z * Z)) : Prop := mkIndexOk {
  i_classes : m_size_classes s = classes;
  i_addresses : forall x, x ∈ m_address_index s <-> exists n, (x, n) ∈ fl;
  i_sizes : forall c x, x ∈ default ∅ (m_size_index s !! c) <-> exists n, (x, n) ∈ fl /\ class_of n = c;
  i_nonempty : forall c X, m_size_index s !! c = Some X -> X <> ∅ }.

Record indexed_ok (s : Indexed) (bs : block_list) : Prop := mkIndexedOk {
  x_pool : pool_ok (blocks s) bs;
  x_index : index_ok s (free_at (m_pool (blocks s)) bs) }.

#[global] Instance index_ok_perm s : Proper ((≡ₚ) ==> iff) (index_ok s).
Proof.
  intros l1 l2 E. assert (H : forall x, x ∈ l1 <-> x ∈ l2) by (intros x; by rewrite E).
  split; intros [H1 H2 H3 H4]; split; try done.
  - intros x. rewrite H2. by setoid_rewrite H.
  - intros c x. rewrite H3. by setoid_rewrite H.
  - intros x. rewrite H2. by setoid_rewrite <-H.
  - intros c x. rewrite H3. by setoid_rewrite <-H.
Qed.

Lemma free_at_app a b1 b2 : free_at a (b1 ++ b2) = free_at a b1 ++ free_at (a + extent b1) b2.
Proof.
  revert a. induction b1 as [|b b1 IH]; intros a; cbn; [by rewrite Z.add_0_r|]. rewrite IH, app_assoc. do 2 f_equal. lia.
Qed.
Lemma free_at_free a n bs : free_at a ((n, true) :: bs) = (a, n) :: free_at (a + header_size + n) bs.
Proof. done. Qed.
Lemma free_at_used a n bs : free_at a ((n, false) :: bs) = free_at (a + header_size + n) bs.
Proof. done. Qed.
Lemma free_at_split a bs x n : (x, n) ∈ free_at a bs -> exists pre post, bs = pre ++ (n, true) :: post /\ x = a + extent pre.
Proof.
  revert a. induction bs as [|[m f] bs IH]; intros a Hin; [by apply elem_of_nil in Hin|]. cbn [free_at] in Hin.
  apply elem_of_app in Hin as [Hin|Hin].
  - destruct f; [|by apply elem_of_nil in Hin]. apply list_elem_of_singleton in Hin. cbn in Hin. simplify_eq. exists [], bs. split; [done|]. cbn. lia.
  - destruct (IH _ Hin) as (pre & post & -> & ->). exists ((m, f) :: pre), post. split; [done|]. cbn. lia.
Qed.
Lemma free_at_bound a bs x n : sizes_ok bs -> (x, n) ∈ free_at a bs -> a <= x /\ x + header_size <= a + extent bs.
Proof.
  intros Hs (pre & post & -> & ->)%free_at_split. apply sizes_middle in Hs as (H1 & H2 & H3). pose proof (extent_nonneg _ H1). pose proof (extent_nonneg _ H3).
  rewrite extent_app. cbn in *. lia.
Qed.

(** ** Reading and changing the indexes *)

Definition with_blocks (b : Blocks) (s : Indexed) : Indexed := mkIndexed b (m_size_index s) (m_address_index s) (m_size_classes s).

Lemma on_blocks_Ok {A} (f : cpp Blocks A) s a b : f (blocks s) = Ok a b -> on_blocks f s = Ok a (with_blocks b s).
Proof. intros E. unfold on_blocks. by rewrite E. Qed.
Lemma with_blocks_same s : with_blocks (blocks s) s = s.
Proof. by destruct s. Qed.
Lemma on_header_at s p b : m_headers (blocks s) !! p = Some b -> on_blocks (header_at p) s = Ok b s.
Proof. intros E. rewrite (on_blocks_Ok _ _ _ _ (header_at_eq _ _ _ E)). by rewrite with_blocks_same. Qed.
Lemma index_with_blocks b s fl : index_ok s fl -> index_ok (with_blocks b s) fl.
Proof. by intros [H1 H2 H3 H4]. Qed.

Lemma add_index_spec s p b fl : m_headers (blocks s) !! p = Some b -> free b = true -> index_ok s fl ->
  exists s', add_to_free_index p s = Ok tt s' /\ blocks s' = blocks s /\ index_ok s' ((p, size b) :: fl).
Proof.
  intros Eb Hf [H1 H2 H3 H4]. unfold add_to_free_index. rewrite (bind_Ok _ _ _ _ _ (on_header_at _ _ _ Eb)), Hf. cbn [negb].
  eexists. split; [reflexivity|]. split; [done|]. rewrite H1. fold (class_of (size b)). split; cbn [m_size_classes m_address_index m_size_index set_index]; [done|..].
  - intros x. rewrite elem_of_union, elem_of_singleton, H2. setoid_rewrite elem_of_cons. split.
    + intros [->|(n & Hn)]; eauto.
    + intros (n & [[= -> ->]|Hn]); eauto.
  - intros c x. destruct (decide (c = class_of (size b))) as [->|Hc].
    + rewrite lookup_insert_eq. cbn [from_option]. unfold id. rewrite elem_of_union, elem_of_singleton, H3. setoid_rewrite elem_of_cons. split.
      * intros [->|(n & Hn & ?)]; eauto.
      * intros (n & [[= -> ->]|Hn] & ?); eauto.
    + rewrite lookup_insert_ne, H3 by done. setoid_rewrite elem_of_cons. split.
      * intros (n & Hn & ?); eauto.
      * intros (n & [[= -> ->]|Hn] & ?); [done|eauto].
  - intros c X. rewrite lookup_insert_Some. intros [[_ <-]|[_ HX]]; [set_solver|by eapply H4].
Qed.

Lemma remove_index_spec s p b fl : m_headers (blocks s) !! p = Some b -> free b = true -> index_ok s ((p, size b) :: fl) -> (forall n, (p, n) ∉ fl) ->
  exists s', remove_from_free_index p s = Ok tt s' /\ blocks s' = blocks s /\ index_ok s' fl.
Proof.
  intros Eb Hf [H1 H2 H3 H4] Hout. unfold remove_from_free_index. rewrite (bind_Ok _ _ _ _ _ (on_header_at _ _ _ Eb)), Hf. cbn [negb].
  eexists. split; [reflexivity|]. split; [done|]. rewrite H1. fold (class_of (size b)).
  assert (Hin : forall c x, x ∈ (default ∅ (m_size_index s !! c) ∖ {[p]} : gset Z) <-> exists n, (x, n) ∈ fl /\ class_of n = c).
  { intros c x. rewrite elem_of_difference, elem_of_singleton, H3. setoid_rewrite elem_of_cons. split.
    - intros [(n & [[= -> ->]|Hn] & ?) ?]; [done|eauto].
    - intros (n & Hn & ?). split; [eauto|]. intros ->. by eapply Hout. }
  split; cbn [m_size_classes m_address_index m_size_index set_index]; [done|..].
  - intros x. rewrite elem_of_difference, elem_of_singleton, H2. setoid_rewrite elem_of_cons. split.
    + intros [(n & [[= -> ->]|Hn]) ?]; [done|eauto].
    + intros (n & Hn). split; [eauto|]. intros ->. by eapply Hout.
  - intros c x. rewrite <-Hin. destruct (decide (c = class_of (size b))) as [->|Hc].
    + case_decide as Hempty; [rewrite lookup_delete_eq, Hempty; done|by rewrite lookup_insert_eq].
    + assert (Hp : p ∉ (default ∅ (m_size_index s !! c) : gset Z)).
      { rewrite H3. intros (n & [[= ->]|Hn]%elem_of_cons & ?); [done|by eapply Hout]. }
      assert (E : (default ∅ (m_size_index s !! c) ∖ {[p]} : gset Z) = default ∅ (m_size_index s !! c)) by set_solver.
      case_decide; rewrite E; [by rewrite lookup_delete_ne|by rewrite lookup_insert_ne].
  - intros c X. case_decide as Hempty.
    + rewrite lookup_delete_Some. intros [_ HX]. by eapply H4.
    + rewrite lookup_insert_Some. intros [[_ <-]|[_ HX]]; [done|by eapply H4].
Qed.

(** ** The search *)

Lemma elem_of_set_ordered (X : gset Z) x : x ∈ set_ordered X <-> x ∈ X.
Proof. unfold set_ordered. by rewrite merge_sort_Permutation, elem_of_elements. Qed.

(** The size in the header at an address. *)
Definition size_at (s : Indexed) (p : Z) : Z := match m_headers (blocks s) !! p with Some b => size b | None => 0 end.

(** The addresses the search looks at, in order. *)
Definition candidates (s : Indexed) (n : Z) : list (Z * gset Z) :=
  List.filter (fun kv => class_of n <=? kv.1) (map_ordered Z.le (m_size_index s)).

Definition fits (s : Indexed) (n p : Z) : bool := n <=? size_at s p.

Lemma fit_in_class_spec s n ps : (forall p, p ∈ ps -> is_Some (m_headers (blocks s) !! p)) ->
  fit_in_class ps n s = Ok (default 0 (find_first (fits s n) ps)) s.
Proof.
  induction ps as [|p ps IH]; intros Hh; [done|]. cbn [fit_in_class find_first]. destruct (Hh p ltac:(left)) as [b Eb].
  rewrite (bind_Ok _ _ _ _ _ (on_header_at _ _ _ Eb)). unfold fits at 1, size_at. rewrite Eb. destruct (n <=? size b); [done|]. apply IH.
  intros q Hq. apply Hh. by right.
Qed.

Lemma fit_in_classes_spec s n L : (forall c X p, (c, X) ∈ L -> p ∈ X -> p <> 0 /\ is_Some (m_headers (blocks s) !! p)) ->
  fit_in_classes L n s = Ok (default 0 (find_first (fits s n) (flat_map (fun kv => set_ordered kv.2) L))) s.
Proof.
  induction L as [|[c X] L IH]; intros Hh; [done|]. cbn [fit_in_classes flat_map snd].
  assert (Hx : forall p, p ∈ set_ordered X -> p <> 0 /\ is_Some (m_headers (blocks s) !! p)).
  { intros p Hp. apply (Hh c X); [left|by apply elem_of_set_ordered]. }
  rewrite (bind_Ok _ _ _ _ _ (fit_in_class_spec s n _ (fun p Hp => proj2 (Hx p Hp)))).
  assert (IH' := IH (fun c' X' p Hin => Hh c' X' p ltac:(by right))). clear IH Hh. revert Hx.
  induction (set_ordered X) as [|p ps IHp]; intros Hx; cbn [app find_first].
  - cbn. exact IH'.
  - destruct (fits s n p); cbn [from_option]; unfold id.
    + destruct (Hx p ltac:(left)) as [Hp _]. by destruct (Z.eqb_spec p 0).
    + apply IHp. intros q Hq. apply Hx. by right.
Qed.

(** The blocks of an index and the headers agree. *)
Lemma indexed_header s bs x n : indexed_ok s bs -> (x, n) ∈ free_at (m_pool (blocks s)) bs ->
  0 < x /\ exists pre post, bs = pre ++ (n, true) :: post /\ x = at_ (blocks s) pre /\
    m_headers (blocks s) !! x = Some (mkHeader n true (last_address 0 (m_pool (blocks s)) pre) (next_of post (x + header_size + n) 0)).
Proof.
  intros [Hok _] (pre & post & -> & ->)%free_at_split. destruct (layout_block _ _ _ _ (ok_layout _ _ Hok)) as (Hp & _ & _ & _ & Hb).
  split; [exact Hp|]. by exists pre, post.
Qed.

Lemma candidates_iff s bs n c X : indexed_ok s bs -> (c, X) ∈ candidates s n -> forall p, p ∈ X <->
  exists m, (p, m) ∈ free_at (m_pool (blocks s)) bs /\ class_of m = c.
Proof.
  intros [_ Hix] Hin p. apply list_elem_of_In, filter_In in Hin as [Hin _]. apply list_elem_of_In, elem_of_map_ordered in Hin.
  rewrite <-(i_sizes _ _ Hix c p), Hin. done.
Qed.

Lemma candidates_headers s bs n c X p : indexed_ok s bs -> (c, X) ∈ candidates s n -> p ∈ X -> p <> 0 /\ is_Some (m_headers (blocks s) !! p).
Proof.
  intros Hok Hin Hp. apply (candidates_iff _ _ _ _ _ Hok Hin) in Hp as (m & Hm & _).
  destruct (indexed_header _ _ _ _ Hok Hm) as (Hpos & pre & post & _ & _ & E). split; [lia|by eexists].
Qed.

Lemma find_best_fit_eq s bs n : indexed_ok s bs ->
  find_best_fit n s = Ok (default 0 (find_first (fits s n) (flat_map (fun kv => set_ordered kv.2) (candidates s n)))) s.
Proof.
  intros Hok. unfold find_best_fit. rewrite (bind_Ok get _ s s s eq_refl). rewrite (i_classes _ _ (x_index _ _ Hok)). fold (class_of n).
  apply fit_in_classes_spec. intros c X p Hin Hp. by eapply candidates_headers.
Qed.

Lemma elem_of_candidates s bs n p : indexed_ok s bs -> p ∈ flat_map (fun kv => set_ordered kv.2) (candidates s n) <->
  exists m, (p, m) ∈ free_at (m_pool (blocks s)) bs /\ class_of n <= class_of m.
Proof.
  intros Hok. rewrite list_elem_of_In, in_flat_map. setoid_rewrite <-list_elem_of_In. setoid_rewrite elem_of_set_ordered. split.
  - intros ([c X] & Hin & Hp). cbn in Hp. pose proof Hin as Hin'. apply list_elem_of_In, filter_In in Hin' as [_ Hc]. cbn in Hc.
    apply (candidates_iff _ _ _ _ _ Hok Hin) in Hp as (m & Hm & <-). exists m. split; [done|lia].
  - intros (m & Hm & Hc). pose proof (proj2 (i_sizes _ _ (x_index _ _ Hok) (class_of m) p) (ex_intro _ m (conj Hm eq_refl))) as Hp.
    destruct (m_size_index s !! class_of m) as [X|] eqn:E; [|done]. exists (class_of m, X). split; [|done].
    unfold candidates. apply list_elem_of_In, filter_In. split; [apply list_elem_of_In, elem_of_map_ordered; done|cbn; lia].
Qed.

Lemma sorted_filter {A} (R : relation A) f l : StronglySorted R l -> StronglySorted R (List.filter f l).
Proof.
  induction 1 as [|a l Hs IH Ha]; cbn; [constructor|]. destruct (f a); [|done]. constructor; [done|]. rewrite Forall_forall in Ha |- *.
  intros b [Hb _]%list_elem_of_In%filter_In. apply Ha. by apply list_elem_of_In.
Qed.

(** In a list sorted by class, the first hit is of the least class. *)
Lemma first_hit_least (p : Z -> bool) (L : list (Z * gset Z)) x : StronglySorted (fun a b => a.1 <= b.1) L ->
  find_first p (flat_map (fun kv => set_ordered kv.2) L) = Some x ->
  exists c X, (c, X) ∈ L /\ x ∈ X /\ forall c' X' y, (c', X') ∈ L -> y ∈ X' -> p y = true -> c <= c'.
Proof.
  induction 1 as [|[c X] L Hs IH Hc]; [done|]. cbn [flat_map snd]. intros Hx.
  destruct (find_first p (set_ordered X)) as [y|] eqn:E.
  - assert (x = y) as ->.
    { clear -E Hx. induction (set_ordered X) as [|z l IHl]; [done|]. cbn in *. destruct (p z); [congruence|by apply IHl]. }
    apply find_first_Some in E as [E _]. exists c, X. split; [left|]. split; [by apply elem_of_set_ordered|].
    intros c' X' y' [[= -> ->]|Hin]%elem_of_cons _ _; [done|]. rewrite Forall_forall in Hc. apply (Hc (c', X') Hin).
  - assert (Hx' : find_first p (flat_map (fun kv => set_ordered kv.2) L) = Some x).
    { clear -E Hx. induction (set_ordered X) as [|z l IHl]; [done|]. cbn in *. destruct (p z); [done|by apply IHl]. }
    destruct (IH Hx') as (c0 & X0 & Hin & HX & Hmin). exists c0, X0. split; [by right|]. split; [done|].
    intros c' X' y [[= -> ->]|Hin']%elem_of_cons Hy Hp; [|by eapply Hmin]. rewrite find_first_None in E.
    rewrite (E y) in Hp; [done|by apply elem_of_set_ordered].
Qed.

(** The search: nothing when no free block is large enough, otherwise one that is, and no
    block that is large enough is in a smaller class. *)
Lemma find_best_fit_spec s bs n : indexed_ok s bs ->
  exists p, find_best_fit n s = Ok p s /\
    ((p = 0 /\ forall m, (m, true) ∈ bs -> m < n) \/
     exists pre m post, bs = pre ++ (m, true) :: post /\ p = at_ (blocks s) pre /\ 0 < p /\ n <= m /\
       forall k, (k, true) ∈ bs -> n <= k -> class_of m <= class_of k).
Proof.
  intros Hok. eexists. split; [by eapply find_best_fit_eq|].
  assert (Hall : forall k, (k, true) ∈ bs -> exists x, (x, k) ∈ free_at (m_pool (blocks s)) bs).
  { intros k (pre & post & ->)%list_elem_of_split. exists (m_pool (blocks s) + extent pre). rewrite free_at_app, free_at_free. set_solver. }
  assert (Hsz : forall x k, (x, k) ∈ free_at (m_pool (blocks s)) bs -> size_at s x = k).
  { intros x k Hx. destruct (indexed_header _ _ _ _ Hok Hx) as (_ & ? & ? & _ & _ & E). unfold size_at. by rewrite E. }
  destruct (find_first _ _) as [x|] eqn:E.
  - right. pose proof E as E'. apply find_first_Some in E as [Hx Hf]. apply (elem_of_candidates _ _ _ _ Hok) in Hx as (m & Hm & _).
    destruct (indexed_header _ _ _ _ Hok Hm) as (Hpos & pre & post & Ebs & -> & Eh). unfold fits in Hf. rewrite (Hsz _ _ Hm) in Hf.
    exists pre, m, post. split; [done|]. split; [done|]. split; [done|]. split; [lia|]. intros k Hk Hnk.
    assert (Hsort : StronglySorted (fun a b : Z * gset Z => a.1 <= b.1) (candidates s n)).
    { apply sorted_filter, (map_ordered_sorted Z.le); apply _. }
    destruct (first_hit_least _ _ _ Hsort E') as (c & X & Hin & HX & Hmin). destruct (Hall k Hk) as (y & Hy).
    apply (candidates_iff _ _ _ _ _ Hok Hin) in HX as (m' & Hm' & Ec). pose proof (Hsz _ _ Hm') as E1. rewrite (Hsz _ _ Hm) in E1. subst m' c.
    assert (Hy' : y ∈ flat_map (fun kv => set_ordered kv.2) (candidates s n)) by (apply (elem_of_candidates _ _ _ _ Hok); exists k; split; [done|by apply class_mono]).
    rewrite list_elem_of_In, in_flat_map in Hy'. destruct Hy' as ([c' X'] & Hin' & HX'). apply list_elem_of_In in Hin', HX'. apply elem_of_set_ordered in HX'. cbn in HX'.
    pose proof HX' as HX''. apply (candidates_iff _ _ _ _ _ Hok Hin') in HX'' as (k' & Hk' & Ec'). pose proof (Hsz _ _ Hk') as E2. rewrite (Hsz _ _ Hy) in E2. subst k' c'.
    apply (Hmin _ _ y Hin' HX'). unfold fits. rewrite (Hsz _ _ Hy). lia.
  - left. split; [done|]. intros m Hm. destruct (Hall m Hm) as (x & Hx). rewrite find_first_None in E. destruct (Z.ltb_spec m n) as [|Hge]; [done|].
    assert (Hin : x ∈ flat_map (fun kv => set_ordered kv.2) (candidates s n)) by (apply (elem_of_candidates _ _ _ _ Hok); exists m; split; [done|by apply class_mono]).
    specialize (E x Hin). unfold fits in E. rewrite (Hsz _ _ Hx) in E. lia.
Qed.

(** ** Taking a block *)

(** The other free blocks around one. *)
Definition around (a : Z) (pre : block_list) (n : Z) (post : block_list) : list (Z * Z) := free_at a pre ++ free_at (a + extent pre + header_size + n) post.

Lemma free_around a pre n post : free_at a (pre ++ (n, true) :: post) ≡ₚ (a + extent pre, n) :: around a pre n post.
Proof. rewrite free_at_app, free_at_free. unfold around. by rewrite Permutation_middle. Qed.
Lemma used_around a pre n post : free_at a (pre ++ (n, false) :: post) = around a pre n post.
Proof. by rewrite free_at_app, free_at_used. Qed.

Lemma around_other a pre n f post k : sizes_ok (pre ++ (n, f) :: post) -> (a + extent pre, k) ∉ around a pre n post.
Proof.
  intros (H1 & H2 & H3)%sizes_middle. unfold around. cbn in H2. intros [Hin|Hin]%elem_of_app; apply free_at_bound in Hin; try done; unfold header_size in *; lia.
Qed.

Lemma split_block_spec s pre m post n : layout (blocks s) (pre ++ (m, true) :: post) -> index_ok s (around (m_pool (blocks s)) pre m post) ->
  0 <= n -> n + header_size + m_alignment (blocks s) <= m ->
  exists h s', split_block (at_ (blocks s) pre) n s = Ok tt s' /\ blocks s' = set_headers h (blocks s) /\
    layout (blocks s') (pre ++ (n, true) :: (m - n - header_size, true) :: post) /\
    index_ok s' (around (m_pool (blocks s)) pre n ((m - n - header_size, true) :: post)).
Proof.
  intros Hl Hix Hn Hm. destruct (layout_block _ _ _ _ Hl) as (_ & _ & _ & _ & Hb). cbn [fst snd] in Hb. destruct (l_align _ _ Hl) as (k & Hk & Ha).
  pose proof (Z.pow_pos_nonneg 2 k ltac:(lia) Hk). unfold split_block. rewrite (bind_Ok _ _ _ _ _ (on_header_at _ _ _ Hb)), (bind_Ok get _ s s s eq_refl). cbn [free size].
  rewrite (cut_test _ _ _ _ _ _ Hl) by (unfold header_size in *; lia). destruct (Z.leb_spec (n + header_size + m_alignment (blocks s)) m); [|lia]. cbn [negb orb].
  destruct (split_off_spec (blocks s) pre m true n post Hl) as (h & Eh & Hl'); [done|lia|]. rewrite (bind_Ok _ _ _ _ _ (on_blocks_Ok _ _ _ _ Eh)).
  set (s1 := with_blocks (set_headers h (blocks s)) s).
  destruct (layout_block (set_headers h (blocks s)) (pre ++ [(n, true)]) (m - n - header_size, true) post) as (_ & _ & _ & _ & Hq); [by rewrite <-app_assoc|].
  rewrite at_snoc in Hq. cbn [fst snd] in Hq.
  destruct (add_index_spec s1 _ _ _ Hq eq_refl (index_with_blocks _ _ _ Hix)) as (s' & Es & Eb & Hix'). exists h, s'. split; [exact Es|]. split; [done|]. rewrite Eb.
  split; [done|]. unfold around in *. rewrite free_at_free.
  replace (m_pool (blocks s) + extent pre + header_size + n + header_size + (m - n - header_size)) with (m_pool (blocks s) + extent pre + header_size + m) by lia.
  by rewrite <-Permutation_middle.
Qed.

Lemma indexed_take_spec s pre m post n : indexed_ok s (pre ++ (m, true) :: post) -> 0 <= n <= m ->
  let p := at_ (blocks s) pre in let al := m_alignment (blocks s) in
  exists s', (remove_from_free_index p ;; b ← on_blocks (header_at p); (if wrap64 (n + header_size + al) <=? size b then split_block p n else mret tt) ;; on_blocks (mark_used p)) s =
    Ok (p + header_size) s' /\ indexed_ok s' (pre ++ carve al n m ++ post) /\ same_pool (blocks s) (blocks s').
Proof.
  intros [Hok Hix] Hn p al. pose proof (ok_layout _ _ Hok) as Hl. destruct (layout_block _ _ _ _ Hl) as (_ & _ & _ & _ & Hb). cbn [fst snd] in Hb. fold p in Hb.
  rewrite free_around in Hix. fold (at_ (blocks s) pre) p in Hix. assert (Hout : forall k, (p, k) ∉ around (m_pool (blocks s)) pre m post) by (intros k; eapply around_other, Hl).
  destruct (remove_index_spec s p _ _ Hb eq_refl Hix Hout) as (s1 & E1 & Eb1 & Hix1). rewrite (bind_Ok _ _ _ _ _ E1). rewrite <-Eb1 in Hb.
  rewrite (bind_Ok _ _ _ _ _ (on_header_at _ _ _ Hb)). cbn [size]. unfold al. rewrite (cut_test _ _ _ _ _ _ Hl Hn).
  destruct (n + header_size + m_alignment (blocks s) <=? m) eqn:E.
  - rewrite <-Eb1 in Hl, Hix1. destruct (split_block_spec s1 pre m post n Hl Hix1) as (h & s2 & E2 & Eb2 & Hl2 & Hix2); [lia|rewrite Eb1; lia|].
    unfold p. rewrite <-Eb1. rewrite (bind_Ok _ _ _ _ _ E2). destruct (mark_used_spec _ _ _ _ _ Hl2) as (b3 & E3 & Hl3 & Hs3 & Hu & Hc).
    assert (Ea : at_ (blocks s2) pre = at_ (blocks s1) pre) by (by rewrite Eb2). rewrite Ea in E3. rewrite (on_blocks_Ok _ _ _ _ E3). eexists. split; [reflexivity|].
    assert (Hsame : same_pool (blocks s1) b3) by (transitivity (blocks s2); [by rewrite Eb2|done]). split; [|done]. rewrite Eb2 in Hu, Hc. rewrite Eb1 in *. split.
    + apply (taken_ok (blocks s)); try done; unfold carve, given; by rewrite E.
    + apply index_with_blocks. cbn [with_blocks blocks]. rewrite (sp_pool _ _ Hsame). unfold carve. rewrite E. cbn [app]. by rewrite used_around.
  - rewrite bind_ret_l. rewrite <-Eb1 in Hl. destruct (mark_used_spec _ _ _ _ _ Hl) as (b3 & E3 & Hl3 & Hsame & Hu & Hc).
    unfold p. rewrite <-Eb1. rewrite (on_blocks_Ok _ _ _ _ E3). eexists. split; [reflexivity|]. split; [|done]. rewrite Eb1 in *. split.
    + apply (taken_ok (blocks s)); try done; unfold carve, given; by rewrite E.
    + apply index_with_blocks. cbn [with_blocks blocks]. rewrite (sp_pool _ _ Hsame). unfold carve. rewrite E. cbn [app]. by rewrite used_around.
Qed.

Lemma indexed_allocate_spec s bs n : indexed_ok s bs -> n <> 0 -> request_fits (blocks s) n ->
  let r := rounded (blocks s) n in
  (IndexedMemoryPool.allocate n s = Ok 0 s /\ forall m, (m, true) ∈ bs -> m < r) \/
  exists pre m post s', bs = pre ++ (m, true) :: post /\ r <= m /\ (forall k, (k, true) ∈ bs -> r <= k -> class_of m <= class_of k) /\
    IndexedMemoryPool.allocate n s = Ok (at_ (blocks s) pre + header_size) s' /\
    indexed_ok s' (pre ++ carve (m_alignment (blocks s)) r m ++ post) /\ same_pool (blocks s) (blocks s').
Proof.
  intros Hok Hn Hfit r. pose proof (rounded_ge _ _ _ (ok_layout _ _ (x_pool _ _ Hok)) Hfit) as Hr. fold r in Hr. destruct Hfit as [Hpos _].
  unfold IndexedMemoryPool.allocate. destruct (Z.eqb_spec n 0) as [|_]; [done|]. rewrite (bind_Ok get _ s s s eq_refl). fold (rounded (blocks s) n). fold r.
  destruct (find_best_fit_spec s bs r Hok) as (p & Ep & Hor). rewrite (bind_Ok _ _ _ _ _ Ep).
  destruct Hor as [[-> Hnone]|(pre & m & post & -> & -> & Hp & Hm & Hmin)]; [by left|]. right.
  destruct (Z.eqb_spec (at_ (blocks s) pre) 0) as [|_]; [lia|]. destruct (indexed_take_spec s pre m post r Hok ltac:(lia)) as (s' & Es & Hok' & Hsame).
  exists pre, m, post, s'. done.
Qed.

(** ** Giving a block back *)

Lemma seq_assoc {S B} (m k : cpp S unit) (h : cpp S B) s : (m ;; k ;; h) s = ((m ;; k) ;; h) s.
Proof. symmetry. apply bind_assoc. Qed.

(** A merge step: a neighbour leaves the index and becomes part of the block. *)
Lemma merge_step s pre n m post fl : layout (blocks s) (pre ++ (n, true) :: (m, true) :: post) ->
  forall x k, ((x = at_ (blocks s) pre /\ k = n) \/ (x = at_ (blocks s) pre + header_size + n /\ k = m)) -> index_ok s ((x, k) :: fl) -> (forall j, (x, j) ∉ fl) ->
  exists h s', (remove_from_free_index x ;; on_blocks (absorb (at_ (blocks s) pre) (at_ (blocks s) pre + header_size + n))) s = Ok tt s' /\
    blocks s' = set_headers h (blocks s) /\ layout (blocks s') (pre ++ (n + (header_size + m), true) :: post) /\ index_ok s' fl.
Proof.
  intros Hl x k Hx Hix Hout.
  assert (Hb : exists b, m_headers (blocks s) !! x = Some b /\ free b = true /\ size b = k).
  { destruct Hx as [[-> ->]|[-> ->]].
    - destruct (layout_block _ _ _ _ Hl) as (_ & _ & _ & _ & Hb). by eexists.
    - destruct (layout_block (blocks s) (pre ++ [(n, true)]) (m, true) post) as (_ & _ & _ & _ & Hb); [by rewrite <-app_assoc|]. rewrite at_snoc in Hb. by eexists. }
  destruct Hb as (b & Hb & Hf & <-). destruct (remove_index_spec s x b fl Hb Hf Hix Hout) as (s1 & E1 & Eb1 & Hix1). rewrite (bind_Ok _ _ _ _ _ E1).
  rewrite <-Eb1 in Hl |- *. destruct (absorb_spec _ _ _ _ _ _ _ Hl) as (h & Eh & Hl'). rewrite (on_blocks_Ok _ _ _ _ Eh).
  exists h. eexists. split; [reflexivity|]. split; [by rewrite Eb1|]. split; [done|by apply index_with_blocks].
Qed.

(** The block before an allocated or first block is not looked at again. *)
Lemma merge_before_stop s pre n post fuel : layout (blocks s) (pre ++ (n, true) :: post) -> ends_free pre = false -> (0 < fuel)%nat ->
  merge_before fuel (at_ (blocks s) pre) s = Ok (at_ (blocks s) pre) s.
Proof.
  intros Hl He Hf. destruct fuel as [|fuel]; [lia|]. destruct (layout_block _ _ _ _ Hl) as (_ & _ & _ & _ & Hb). cbn [merge_before].
  rewrite (bind_Ok _ _ _ _ _ (on_header_at _ _ _ Hb)). cbn [prev]. destruct pre as [|[m g] pre' _] using rev_ind.
  { change (last_address 0 (m_pool (blocks s)) []) with 0. done. }
  rewrite (prev_of _ _ _ _ _ Hl). rewrite ends_free_app in He. cbn in He. subst g. rewrite <-app_assoc in Hl. cbn [app] in Hl.
  destruct (layout_block _ _ _ _ Hl) as (Hpos & _ & _ & _ & Hb2). destruct (Z.eqb_spec (at_ (blocks s) pre') 0) as [|_]; [lia|].
  by rewrite (bind_Ok _ _ _ _ _ (on_header_at _ _ _ Hb2)).
Qed.

Lemma merge_before_spec s pre n post fuel : layout (blocks s) (pre ++ (n, true) :: post) -> coalesced pre -> coalesced post -> (1 < fuel)%nat ->
  index_ok s (around (m_pool (blocks s)) pre n post) ->
  exists h s' pre' n', merge_before fuel (at_ (blocks s) pre) s = Ok (at_ (blocks s) pre') s' /\ blocks s' = set_headers h (blocks s) /\
    layout (blocks s') (pre' ++ (n', true) :: post) /\ coalesced pre' /\ ends_free pre' = false /\
    index_ok s' (around (m_pool (blocks s)) pre' n' post) /\ coalesce (pre ++ (n, true) :: post) = coalesce (pre' ++ (n', true) :: post).
Proof.
  intros Hl Hp Hc Hf Hix. destruct (ends_free pre) eqn:He.
  2:{ exists (m_headers (blocks s)), s, pre, n. rewrite set_headers_same. split; [eapply merge_before_stop; [done|done|lia]|]. done. }
  destruct pre as [|[m g] pre _] using rev_ind; [done|]. rewrite ends_free_app in He. cbn in He. subst g. destruct fuel as [|fuel]; [lia|].
  destruct (layout_block _ _ _ _ Hl) as (_ & _ & _ & _ & Hb). cbn [merge_before]. rewrite (bind_Ok _ _ _ _ _ (on_header_at _ _ _ Hb)). cbn [prev].
  rewrite (prev_of _ _ _ _ _ Hl), coalesce_before by done. rewrite at_snoc. cbn [fst]. rewrite <-app_assoc in Hl. cbn [app] in Hl.
  destruct (layout_block _ _ _ _ Hl) as (Hpos & _ & _ & _ & Hb2). destruct (Z.eqb_spec (at_ (blocks s) pre) 0) as [|_]; [lia|].
  rewrite (bind_Ok _ _ _ _ _ (on_header_at _ _ _ Hb2)). cbn [free snd negb].
  apply coalesced_middle in Hp as (Hp & _ & He & _). cbn [snd] in He. rewrite andb_true_r in He. set (a := m_pool (blocks s)) in *.
  assert (Hfl : around a (pre ++ [(m, true)]) n post ≡ₚ (at_ (blocks s) pre, m) :: around a pre (m + (header_size + n)) post).
  { unfold around. rewrite free_at_app, extent_app. cbn [free_at extent fst snd app]. rewrite <-app_assoc. cbn [app]. rewrite <-Permutation_middle.
    unfold at_. fold a. apply Permutation_refl'. do 3 f_equal. lia. }
  rewrite Hfl in Hix. assert (Hout : forall j, (at_ (blocks s) pre, j) ∉ around a pre (m + (header_size + n)) post).
  { intros j. apply (around_other a pre (m + (header_size + n)) true). destruct (sizes_middle _ _ _ (l_sizes _ _ Hl)) as (H1 & H2 & H3).
    inversion_clear H3 as [|? ? H4 H5]. apply Forall_app. split; [done|]. constructor; [cbn in *; unfold header_size; lia|done]. }
  destruct (merge_step s pre m n post _ Hl _ _ (or_introl (conj eq_refl eq_refl)) Hix Hout) as (h & s' & Es & Eb & Hl' & Hix').
  rewrite seq_assoc, (bind_Ok _ _ _ _ _ Es). replace (at_ (blocks s) pre) with (at_ (blocks s') pre) by (by rewrite Eb).
  rewrite (merge_before_stop s' pre _ post fuel Hl' He ltac:(lia)).
  exists h, s', pre, (m + (header_size + n)). split; [by rewrite Eb|]. done.
Qed.

Lemma merge_after_stop s pre n post fuel : layout (blocks s) (pre ++ (n, true) :: post) -> starts_free post = false -> (0 < fuel)%nat ->
  merge_after fuel (at_ (blocks s) pre) s = Ok tt s.
Proof.
  intros Hl He Hf. destruct fuel as [|fuel]; [lia|]. destruct (layout_block _ _ _ _ Hl) as (_ & _ & _ & _ & Hb). cbn [merge_after].
  rewrite (bind_Ok _ _ _ _ _ (on_header_at _ _ _ Hb)). cbn [next fst]. destruct post as [|[m g] post]; [done|]. cbn [next_of]. cbn in He. subst g.
  destruct (layout_block (blocks s) (pre ++ [(n, true)]) (m, false) post) as (Hpos & _ & _ & _ & Hb2); [by rewrite <-app_assoc|].
  rewrite at_snoc in Hpos, Hb2. cbn [fst] in Hpos, Hb2. destruct (Z.eqb_spec (at_ (blocks s) pre + header_size + n) 0) as [|_]; [lia|].
  by rewrite (bind_Ok _ _ _ _ _ (on_header_at _ _ _ Hb2)).
Qed.

Lemma merge_after_loop s pre n post fuel : layout (blocks s) (pre ++ (n, true) :: post) -> coalesced pre -> ends_free pre = false -> coalesced post -> (1 < fuel)%nat ->
  index_ok s (around (m_pool (blocks s)) pre n post) ->
  exists h s' n' post', merge_after fuel (at_ (blocks s) pre) s = Ok tt s' /\ blocks s' = set_headers h (blocks s) /\
    layout (blocks s') (pre ++ (n', true) :: post') /\ index_ok s' (around (m_pool (blocks s)) pre n' post') /\
    coalesce (pre ++ (n, true) :: post) = pre ++ (n', true) :: post'.
Proof.
  intros Hl Hp He Hc Hf Hix. rewrite (coalesce_after pre n post Hp He Hc). destruct (starts_free post) eqn:Hst.
  2:{ exists (m_headers (blocks s)), s, n, post. rewrite set_headers_same. split; [eapply merge_after_stop; [done|done|lia]|]. by destruct post as [|[? [|]] ?]. }
  destruct post as [|[m g] post]; [done|]. cbn in Hst. subst g. destruct fuel as [|fuel]; [lia|].
  destruct (layout_block _ _ _ _ Hl) as (_ & _ & _ & _ & Hb). cbn [merge_after]. rewrite (bind_Ok _ _ _ _ _ (on_header_at _ _ _ Hb)). cbn [next next_of fst].
  destruct (layout_block (blocks s) (pre ++ [(n, true)]) (m, true) post) as (Hpos & _ & _ & _ & Hb2); [by rewrite <-app_assoc|].
  rewrite at_snoc in Hpos, Hb2. cbn [fst] in Hpos, Hb2. destruct (Z.eqb_spec (at_ (blocks s) pre + header_size + n) 0) as [|_]; [lia|].
  rewrite (bind_Ok _ _ _ _ _ (on_header_at _ _ _ Hb2)). cbn [free snd negb]. set (a := m_pool (blocks s)) in *.
  assert (Hfl : around a pre n ((m, true) :: post) ≡ₚ (at_ (blocks s) pre + header_size + n, m) :: around a pre (n + (header_size + m)) post).
  { unfold around. rewrite free_at_free, <-Permutation_middle. unfold at_. fold a. apply Permutation_refl'. do 3 f_equal. lia. }
  destruct (sizes_middle _ _ _ (l_sizes _ _ Hl)) as (H1 & H2 & H3). inversion_clear H3 as [|? ? H4 H5]. cbn in H2, H4.
  rewrite Hfl in Hix. assert (Hout : forall j, (at_ (blocks s) pre + header_size + n, j) ∉ around a pre (n + (header_size + m)) post).
  { intros j. unfold around, at_. fold a. intros [Hin|Hin]%elem_of_app; apply free_at_bound in Hin; try done; unfold header_size in *; lia. }
  destruct (merge_step s pre n m post _ Hl _ _ (or_intror (conj eq_refl eq_refl)) Hix Hout) as (h & s' & Es & Eb & Hl' & Hix').
  rewrite seq_assoc, (bind_Ok _ _ _ _ _ Es). replace (at_ (blocks s) pre) with (at_ (blocks s') pre) by (by rewrite Eb).
  cbn in Hc. destruct Hc as [Hst _]. rewrite (merge_after_stop s' pre _ post fuel Hl') by (done || lia). exists h, s', (n + (header_size + m)), post. done.
Qed.

Lemma indexed_turns s bs : layout (blocks s) bs -> (1 < turns (blocks s))%nat.
Proof. intros Hl. pose proof (layout_turns _ _ Hl). destruct bs as [|b bs]; [by destruct (l_some _ _ Hl)|]. cbn in *. lia. Qed.

Lemma merge_with_neighbors_spec s pre n post : layout (blocks s) (pre ++ (n, true) :: post) -> coalesced pre -> coalesced post ->
  index_ok s (around (m_pool (blocks s)) pre n post) ->
  exists h s' pre' n' post', merge_with_neighbors (at_ (blocks s) pre) s = Ok (at_ (blocks s) pre') s' /\ blocks s' = set_headers h (blocks s) /\
    layout (blocks s') (pre' ++ (n', true) :: post') /\ index_ok s' (around (m_pool (blocks s)) pre' n' post') /\
    coalesce (pre ++ (n, true) :: post) = pre' ++ (n', true) :: post'.
Proof.
  intros Hl Hp Hc Hix. unfold merge_with_neighbors. destruct (layout_block _ _ _ _ Hl) as (_ & _ & _ & _ & Hb).
  rewrite (bind_Ok _ _ _ _ _ (on_header_at _ _ _ Hb)). cbn [free snd negb]. rewrite (bind_Ok get _ s s s eq_refl). pose proof (indexed_turns _ _ Hl) as Hf.
  destruct (merge_before_spec s pre n post _ Hl Hp Hc Hf Hix) as (h1 & s1 & pre1 & n1 & E1 & Eb1 & Hl1 & Hp1 & He1 & Hix1 & ->).
  rewrite (bind_Ok _ _ _ _ _ E1). assert (Ea : m_pool (blocks s1) = m_pool (blocks s)) by (by rewrite Eb1).
  assert (Eat : at_ (blocks s1) pre1 = at_ (blocks s) pre1) by (unfold at_; by rewrite Ea). rewrite <-Ea in Hix1. rewrite <-Eat.
  destruct (merge_after_loop s1 pre1 n1 post _ Hl1 Hp1 He1 Hc Hf Hix1) as (h2 & s2 & n2 & post2 & E2 & Eb2 & Hl2 & Hix2 & E).
  rewrite (bind_Ok _ _ _ _ _ E2), Eat. rewrite Ea in Hix2. exists h2, s2, pre1, n2, post2. split; [done|]. split; [by rewrite Eb2, Eb1|]. done.
Qed.

Lemma indexed_deallocate_spec s pre n post : indexed_ok s (pre ++ (n, false) :: post) ->
  let p := at_ (blocks s) pre + header_size in
  if p <? m_pool (blocks s) + m_total_size (blocks s) then
    exists s', IndexedMemoryPool.deallocate p s = Ok tt s' /\ indexed_ok s' (coalesce (pre ++ (n, true) :: post)) /\ same_pool (blocks s) (blocks s')
  else IndexedMemoryPool.deallocate p s = Ok tt s.
Proof.
  intros [Hok Hix] p. pose proof (ok_layout _ _ Hok) as Hl. destruct (layout_block _ _ _ _ Hl) as (Hpos & _ & _ & _ & Hb). cbn [fst snd] in Hb.
  assert (Hge : m_pool (blocks s) <= p).
  { destruct (sizes_middle _ _ _ (l_sizes _ _ Hl)) as (Hs1 & _). pose proof (extent_nonneg _ Hs1). unfold p, at_, header_size. lia. }
  unfold IndexedMemoryPool.deallocate. destruct (Z.eqb_spec p 0) as [|_]; [unfold p, header_size in *; lia|].
  rewrite (bind_Ok get _ s s s eq_refl), (owns_iff _ _ _ Hl Hge). destruct (p <? m_pool (blocks s) + m_total_size (blocks s)); [|done]. cbn [negb].
  replace (p - header_size) with (at_ (blocks s) pre) by (unfold p; lia). rewrite (bind_Ok _ _ _ _ _ (on_header_at _ _ _ Hb)). cbn [free].
  assert (Hcur : 0 < m_current_allocations (blocks s)).
  { rewrite (ok_count _ _ Hok), used_at_app, used_at_used, length_app. cbn [length]. lia. }
  destruct (mark_free_spec _ _ _ _ _ Hl Hcur) as (b1 & E1 & Hl1 & Hs1 & Hu & Hc). rewrite (bind_Ok _ _ _ _ _ (on_blocks_Ok _ _ _ _ E1)).
  set (s1 := with_blocks b1 s). rewrite used_around in Hix. apply (index_with_blocks b1) in Hix. fold s1 in Hix. rewrite <-(sp_pool _ _ Hs1) in Hix.
  pose proof (ok_coalesced _ _ Hok) as (Hc1 & Hc2 & _ & _)%coalesced_middle.
  destruct (merge_with_neighbors_spec s1 pre n post Hl1 Hc1 Hc2 Hix) as (h2 & s2 & pre2 & n2 & post2 & E2 & Eb2 & Hl2 & Hix2 & E).
  cbn [s1 with_blocks blocks] in E2, Eb2, Hix2. rewrite (same_at _ _ pre Hs1) in E2. rewrite (bind_Ok _ _ _ _ _ E2).
  destruct (layout_block _ _ _ _ Hl2) as (_ & _ & _ & _ & Hb2). replace (at_ (blocks s2) pre2) with (at_ b1 pre2) in Hb2 by (by rewrite Eb2).
  destruct (add_index_spec s2 _ _ _ Hb2 eq_refl Hix2) as (s3 & E3 & Eb3 & Hix3). exists s3. split; [exact E3|].
  assert (Hsame : same_pool (blocks s) (blocks s3)) by (transitivity b1; [done|]; by rewrite Eb3, Eb2). split; [|done]. rewrite <-Eb3 in Hl2. rewrite E. split.
  - rewrite <-E in Hl2 |- *. apply (released_ok (blocks s) b1); try done; by rewrite Eb3, Eb2.
  - rewrite free_around, Eb3, Eb2. exact Hix3.
Qed.

(** The constructor, and starting again. *)
Lemma first_index_ok b n : m_headers b !! m_pool b = Some (mkHeader n true 0 0) -> pool_ok b [(n, true)] ->
  exists s, add_to_free_index (m_pool b) (mkIndexed b ∅ ∅ classes) = Ok tt s /\ blocks s = b /\ indexed_ok s [(n, true)].
Proof.
  intros Hh Hok. destruct (add_index_spec (mkIndexed b ∅ ∅ classes) (m_pool b) _ [] Hh eq_refl) as (s & Es & Eb & Hix).
  - split; cbn; [done| | |done]; intros; set_solver.
  - exists s. split; [done|]. split; [done|]. cbn in Eb. split; rewrite Eb; done.
Qed.

Lemma indexed_new_ok raw total k : 0 < raw -> 0 <= k -> 0 <= total -> raw + header_size + total + 2 * 2 ^ k < 2 ^ 64 ->
  exists s, Indexed_new raw total (2 ^ k) = Ok tt s /\ blocks s = Blocks_new raw total (2 ^ k) /\ indexed_ok s [(total, true)].
Proof.
  intros Hr Hk Ht He. pose proof (variable_new_ok raw total k Hr Hk Ht He) as Hok.
  apply (first_index_ok (Blocks_new raw total (2 ^ k)) total); [|done]. cbn. by rewrite lookup_singleton_eq.
Qed.

Lemma indexed_reset_ok s bs : indexed_ok s bs ->
  exists s', IndexedMemoryPool.reset s = Ok tt s' /\ indexed_ok s' [(m_total_size (blocks s), true)] /\ same_pool (blocks s) (blocks s').
Proof.
  intros [Hok Hix]. destruct (reset_blocks_ok _ _ Hok) as (b & Eb & Hok' & Hsame). unfold IndexedMemoryPool.reset.
  rewrite (bind_Ok (modify _) _ _ tt _ eq_refl). rewrite (bind_Ok _ _ _ _ _ (on_blocks_Ok reset_blocks (set_index ∅ ∅ s) tt b Eb)), (bind_Ok get _ _ _ _ eq_refl).
  assert (Hh : m_headers b !! m_pool b = Some (mkHeader (m_total_size (blocks s)) true 0 0)).
  { injection Eb as <-. cbn. by rewrite lookup_insert_eq. }
  destruct (first_index_ok b _ Hh Hok') as (s' & Es' & Ebs & Hok''). exists s'. split; [|by rewrite Ebs].
  unfold with_blocks. cbn [set_index blocks m_size_index m_address_index m_size_classes]. rewrite (i_classes _ _ Hix), (l_head _ _ (ok_layout _ _ Hok')). exact Es'.
Qed.

#[global] Program Instance indexed_lawful : LawfulPool Indexed := {|
  exact s l := exists bs, indexed_ok s bs /\ used_at (m_pool (blocks s)) bs ≡ₚ l;
  config s := blocks_config (blocks s);
  serves := config_serves;
  bounds := config_bounds;
  floor := header_size;
  new_fits := new_pool_fits |}.
Next Obligation.
  intros raw n (Hr & Hn & He). destruct (indexed_new_ok raw n 4 Hr ltac:(lia) Hn He) as (s & Es & Eb & Hok).
  exists [(n, true)]. cbn [pool_new indexed_pool]. change max_align with (2 ^ 4). by rewrite Es.
Qed.
Next Obligation. intros s l l' E (bs & Hok & Hp). exists bs. by rewrite Hp. Qed.
Next Obligation. intros s l (bs & [Hok _] & Hp). rewrite <-Hp. apply used_separate, (ok_layout _ _ Hok). Qed.
Next Obligation. intros s l b (bs & [Hok _] & Hp) Hb. rewrite <-Hp in Hb. eapply used_in_bounds; [apply Hok|done]. Qed.
Next Obligation.
  intros s l n (bs & Hok & Hp) Hn. destruct (decide (n = 0)) as [->|H0].
  { exists 0, s. split; [done|]. split; [done|]. left. split; [done|]. by exists bs. }
  destruct (indexed_allocate_spec _ _ _ Hok H0 Hn) as [[Es _]|(pre & m & post & s' & -> & Hm & _ & Es & Hok' & Hsame)].
  - exists 0, s. split; [done|]. split; [done|]. left. split; [done|]. by exists bs.
  - exists (at_ (blocks s) pre + header_size), s'. split; [done|]. split; [by apply same_config|]. right.
    exists (given (m_alignment (blocks s)) (rounded (blocks s) n) m). split; [eapply given_ge; [apply (x_pool _ _ Hok)|done|done]|].
    eexists. split; [exact Hok'|]. rewrite (sp_pool _ _ Hsame), taken_used, Hp. done.
Qed.
Next Obligation.
  intros s [p n] l (bs & Hok & Hp). assert (Hin : (p, n) ∈ used_at (m_pool (blocks s)) bs) by (rewrite Hp; left).
  destruct (used_at_split _ _ _ _ Hin) as (pre & post & -> & ->). pose proof (indexed_deallocate_spec s pre n post Hok) as Hspec. cbv zeta in Hspec.
  cbn [fst snd]. fold (at_ (blocks s) pre). destruct (Z.ltb_spec (at_ (blocks s) pre + header_size) (m_pool (blocks s) + m_total_size (blocks s))) as [_|Hout].
  - destruct Hspec as (s' & Es & Hok' & Hsame). exists s'. split; [done|]. split; [by apply same_config|]. left.
    eexists. split; [exact Hok'|]. rewrite (sp_pool _ _ Hsame). by apply released_used.
  - exists s. split; [done|]. split; [done|]. right. split; [eapply lost_is_small; [apply (x_pool _ _ Hok)|done]|]. by exists (pre ++ (n, false) :: post).
Qed.

(** ** Defragmentation *)

Lemma reindex_spec s pre rest fuel : layout (blocks s) (pre ++ rest) -> (length rest < fuel)%nat -> index_ok s (free_at (m_pool (blocks s)) pre) ->
  exists s', reindex fuel (next_of rest (at_ (blocks s) pre) 0) s = Ok tt s' /\ blocks s' = blocks s /\ index_ok s' (free_at (m_pool (blocks s)) (pre ++ rest)).
Proof.
  revert s pre fuel. induction rest as [|[m f] rest IH]; intros s pre fuel Hl Hf Hix; (destruct fuel as [|fuel]; [cbn in Hf; lia|]).
  { exists s. by rewrite app_nil_r. }
  destruct (layout_block _ _ _ _ Hl) as (Hp & _ & _ & _ & Hb). cbn [fst snd next_of] in *. cbn [reindex].
  destruct (Z.eqb_spec (at_ (blocks s) pre) 0) as [|_]; [lia|]. rewrite (bind_Ok _ _ _ _ _ (on_header_at _ _ _ Hb)). cbn [free next].
  assert (Hadd : exists s1, (if f then add_to_free_index (at_ (blocks s) pre) else mret tt) s = Ok tt s1 /\ blocks s1 = blocks s /\
    index_ok s1 (free_at (m_pool (blocks s)) (pre ++ [(m, f)]))).
  { destruct f.
    - destruct (add_index_spec s _ _ _ Hb eq_refl Hix) as (s1 & E1 & Eb1 & Hix1). exists s1. split; [done|]. split; [done|].
      rewrite free_at_app. cbn [free_at fst snd app]. rewrite <-Permutation_cons_append. exact Hix1.
    - exists s. split; [done|]. split; [done|]. rewrite free_at_app. cbn [free_at snd app]. by rewrite app_nil_r. }
  destruct Hadd as (s1 & E1 & Eb1 & Hix1). rewrite (bind_Ok _ _ _ _ _ E1). rewrite <-Eb1 in *.
  destruct (IH s1 (pre ++ [(m, f)]) fuel) as (s' & Es & Eb & Hix'); [by rewrite <-app_assoc|cbn in Hf; lia|done|].
  rewrite at_snoc in Es. cbn [fst] in Es. exists s'. split; [done|]. split; [congruence|]. by rewrite <-app_assoc in Hix'.
Qed.

(** A pool in use has nothing to merge; its indexes are built again as they were. *)
Lemma indexed_defragment_ok s bs : indexed_ok s bs -> exists s', IndexedMemoryPool.defragment s = Ok tt s' /\ indexed_ok s' bs /\ same_pool (blocks s) (blocks s').
Proof.
  intros [Hok Hix]. pose proof (ok_layout _ _ Hok) as Hl. destruct (defragment_spec _ _ Hl) as (h & Eh & Hl'). rewrite (coalesce_id _ (ok_coalesced _ _ Hok)) in Hl'.
  unfold VariableMemoryPool.defragment in Eh. rewrite (bind_Ok get _ _ _ _ eq_refl) in Eh. unfold IndexedMemoryPool.defragment.
  rewrite (bind_Ok (modify _) _ _ tt _ eq_refl), (bind_Ok get _ _ _ _ eq_refl). cbn [set_index blocks].
  rewrite (bind_Ok _ _ _ _ _ (on_blocks_Ok _ (set_index ∅ ∅ s) _ _ Eh)). set (s1 := with_blocks (set_headers h (blocks s)) (set_index ∅ ∅ s)).
  destruct (reindex_spec s1 [] bs (turns (blocks s)) Hl' (layout_turns _ _ Hl)) as (s' & Es & Eb & Hix').
  { split; cbn; [apply Hix| | |done]; intros; set_solver. }
  replace (next_of bs (at_ (blocks s1) []) 0) with (m_head (blocks s)) in Es.
  - exists s'. split; [exact Es|]. split; [|by rewrite Eb]. cbn [app] in Hix'. split; rewrite Eb; [|done]. destruct Hok as [_ Hc Hu Hk]. by split.
  - destruct bs; [by destruct (l_some _ _ Hl)|]. rewrite (layout_head _ _ Hl). done.
Qed.
