(* ===== verification/MemPoolFixed.v ===== *)
(** * MemPoolFixed: pools of blocks of one size

    [FixedMemoryPool] links its free blocks through the blocks themselves,
    [FixedMemoryPoolV2] keeps their numbers in a vector. In both every block is either free
    or in use, so both keep the contract of a pool, and they take back every block. *)

From S2P Require Import Prelude MemPool MemPoolVariable.

Local Open Scope Z_scope.

(** Block number [i] of a pool at [p]. *)
Definition slot (p step i : Z) : Z := p + i * step.
Definition slot_block (p step i : Z) : Z * Z := (slot p step i, step).

Lemma slots_separate p step l : 0 < step -> NoDup l -> separate (slot_block p step <$> l).
Proof.
  intros Hs. induction 1 as [|i l Hi Hl IH]; [constructor|]. cbn [fmap list_fmap]. apply separate_cons. split; [|done].
  rewrite Forall_fmap, Forall_forall. intros j Hj. assert (i <> j) by (by intros ->). unfold compose, apart, slot_block, slot. cbn. nia.
Qed.

(** The blocks of a pool: the numbers of the free ones and of the ones in use. *)
Record slots (p step count : Z) (fr us : list Z) (l : list (Z * Z)) : Prop := mkSlots {
  sl_step : 0 < step;
  sl_pool : 0 < p;
  sl_end : p + count * step < 2 ^ 64;
  sl_all : fr ++ us ≡ₚ seqZ 0 count;
  sl_live : slot_block p step <$> us ≡ₚ l }.

Lemma slots_range p step count fr us l i : slots p step count fr us l -> i ∈ fr ++ us -> 0 <= i < count /\ p <= slot p step i /\ slot p step i + step <= p + count * step.
Proof.
  intros [Hs Hp He Ha _] Hi. rewrite Ha in Hi. apply elem_of_seqZ in Hi. split; [lia|]. unfold slot. nia.
Qed.

Lemma slots_separate_live p step count fr us l : slots p step count fr us l -> separate l.
Proof.
  intros [Hs Hp He Ha Hl]. rewrite <-Hl. apply slots_separate; [done|]. assert (Hn : NoDup (fr ++ us)) by (rewrite Ha; apply NoDup_seqZ). by apply NoDup_app in Hn as (_ & _ & ?).
Qed.

Lemma slots_bounds p step count fr us l b : slots p step count fr us l -> b ∈ l -> 0 < b.1 /\ 0 <= b.2 /\ p <= b.1 /\ b.1 + b.2 <= p + count * step.
Proof.
  intros Hs Hb. pose proof Hs as [H1 H2 _ _ Hl]. rewrite <-Hl in Hb. apply list_elem_of_fmap in Hb as (i & -> & Hi).
  destruct (slots_range _ _ _ _ _ _ i Hs) as (_ & H4 & H5); [apply elem_of_app; by right|]. cbn. lia.
Qed.

Lemma slots_take p step count i fr us l : slots p step count (i :: fr) us l -> slots p step count fr (i :: us) (slot_block p step i :: l).
Proof.
  intros [Hs Hp He Ha Hl]. split; try done.
  - rewrite <-Ha. by rewrite <-Permutation_middle.
  - cbn. by rewrite Hl.
Qed.

Lemma slots_give p step count fr us b l : slots p step count fr us (b :: l) ->
  exists i us', us ≡ₚ i :: us' /\ b = slot_block p step i /\ slots p step count (i :: fr) us' l.
Proof.
  intros [Hs Hp He Ha Hl]. assert (Hb : b ∈ slot_block p step <$> us) by (rewrite Hl; left). apply list_elem_of_fmap in Hb as (i & -> & Hi).
  apply list_elem_of_split in Hi as (u1 & u2 & ->). exists i, (u1 ++ u2). split; [by rewrite Permutation_middle|]. split; [done|]. split; try done.
  - rewrite <-Ha. cbn. rewrite app_assoc, app_assoc. by rewrite Permutation_middle.
  - rewrite <-Permutation_middle in Hl. cbn in Hl. by apply Permutation_cons_inv in Hl.
Qed.

Lemma slots_length p step count fr us l : slots p step count fr us l -> Z.of_nat (length fr + length us) = Z.max 0 count.
Proof. intros [_ _ _ Ha _]. apply Permutation_length in Ha. rewrite length_app, length_seqZ in Ha. lia. Qed.

Lemma slots_perm p step count fr us l l' : l ≡ₚ l' -> slots p step count fr us l -> slots p step count fr us l'.
Proof. intros E [H1 H2 H3 H4 H5]. split; try done. by rewrite H5. Qed.

(** Whether a pool takes a block for its own. *)
Lemma owned_slot p step count fr us l i : slots p step count fr us l -> i ∈ fr ++ us ->
  (p <=? slot p step i) && (slot p step i <? wrap64 (p + wrap64 (count * step))) && ((slot p step i - p) mod step =? 0) = true.
Proof.
  intros Hs Hi. destruct (slots_range _ _ _ _ _ _ i Hs Hi) as (H1 & H2 & H3). destruct Hs as [H4 H5 H6 _ _].
  rewrite (wrap64_small (count * step)) by nia. rewrite wrap64_small by nia. unfold slot in *. replace (p + i * step - p) with (i * step) by lia. rewrite Z.mod_mul by lia. lia.
Qed.

(** ** Linked through the blocks *)

Module Linked.
Import FixedMemoryPool.

(** The free list from [p]. *)
Fixpoint linked (h : gmap Z Z) (p : Z) (l : list Z) : Prop :=
  match l with [] => p = 0 | x :: l' => p = x /\ exists q, h !! x = Some q /\ linked h q l' end.

Lemma linked_frame h h' p l : (forall x, x ∈ l -> h' !! x = h !! x) -> linked h p l -> linked h' p l.
Proof.
  revert p. induction l as [|x l IH]; intros p Hx; [done|]. cbn. intros (-> & q & Hq & Hl). split; [done|]. exists q. rewrite Hx by left. split; [done|].
  apply IH; [|done]. intros y Hy. apply Hx. by right.
Qed.

Lemma chain_links_below n curr step l k : 0 < step -> k < curr -> chain_links n curr step l !! k = l !! k.
Proof.
  intros Hs. revert curr l. induction n as [|n IH]; intros curr l Hk; cbn; [by rewrite lookup_insert_ne by lia|].
  rewrite IH by lia. by rewrite lookup_insert_ne by lia.
Qed.

Lemma chain_links_linked n curr step l : 0 < step -> linked (chain_links n curr step l) curr ((fun i => curr + i * step) <$> seqZ 0 (Z.of_nat n + 1)).
Proof.
  intros Hs. revert curr l. induction n as [|n IH]; intros curr l; rewrite (seqZ_cons 0) by lia; cbn [fmap list_fmap linked chain_links].
  - split; [lia|]. exists 0. rewrite Z.mul_0_l, Z.add_0_r, lookup_insert_eq. done.
  - split; [lia|]. exists (curr + step). rewrite Z.mul_0_l, Z.add_0_r, chain_links_below, lookup_insert_eq by lia. split; [done|].
    replace ((fun i => curr + i * step) <$> seqZ (Z.succ 0) (Z.pred (Z.of_nat (S n) + 1))) with ((fun i => curr + step + i * step) <$> seqZ 0 (Z.of_nat n + 1)); [apply IH|].
    replace (Z.pred (Z.of_nat (S n) + 1)) with (Z.of_nat n + 1) by lia. change (Z.succ 0) with (1 + 0). rewrite <-(fmap_add_seqZ 1 0 (Z.of_nat n + 1)), <-list_fmap_compose.
    apply list_fmap_ext. intros _ i _. cbn. lia.
Qed.

Definition lives (step : Z) (s : Pool) (l : list (Z * Z)) : Prop :=
  exists fr us, slots (m_pool s) step (m_block_count s) fr us l /\ sizeof_T s = step /\ m_used_blocks s = Z.of_nat (length us) /\
    linked (links s) (m_free_list s) (slot (m_pool s) step <$> fr).

Lemma slot_inj p step i j : 0 < step -> slot p step i = slot p step j -> i = j.
Proof. unfold slot. nia. Qed.

Lemma linked_allocate_spec step s l n : lives step s l -> n <= step -> exists p s', allocate n s = Ok p s' /\ m_pool s' = m_pool s /\ m_block_count s' = m_block_count s /\
  ((p = 0 /\ lives step s' l /\ m_used_blocks s = Z.max 0 (m_block_count s)) \/ lives step s' ((p, step) :: l)).
Proof.
  intros (fr & us & Hs & Est & Hu & Hl) Hn. unfold allocate. rewrite (bind_Ok get _ s s s eq_refl), Est. destruct (Z.ltb_spec step n); [lia|].
  pose proof (slots_length _ _ _ _ _ _ Hs) as Hlen. destruct fr as [|i fr]; cbn [fmap list_fmap linked] in Hl.
  - rewrite Hl, Z.eqb_refl. exists 0, s. split; [done|]. split; [done|]. split; [done|]. left. split; [done|]. split; [|cbn in Hlen; lia]. exists [], us. done.
  - destruct Hl as (Hf & q & Hq & Hl). destruct (slots_range _ _ _ _ _ _ i Hs ltac:(left)) as (Hi & Hp & He). pose proof Hs as [H1 H2 H3 Ha _].
    destruct (Z.eqb_spec (m_free_list s) 0) as [|_]; [lia|]. rewrite Hf, Hq, (bind_Ok (modify _) _ s tt _ eq_refl).
    do 2 eexists. split; [reflexivity|]. split; [done|]. split; [done|]. right. exists fr, (i :: us). cbn. split; [by apply slots_take|]. split; [done|].
    split.
    + rewrite Hu. cbn [length] in *. rewrite wrap64_small; [lia|]. split; [lia|]. cbn in Hlen. nia.
    + eapply linked_frame; [|exact Hl]. intros x (j & -> & Hj)%list_elem_of_fmap. rewrite lookup_delete_ne; [done|].
      intros E%slot_inj; [|done]. subst j. assert (Hnd : NoDup ((i :: fr) ++ us)) by (rewrite Ha; apply NoDup_seqZ). cbn in Hnd.
      apply NoDup_cons in Hnd as [Hnd _]. apply Hnd, elem_of_app. by left.
Qed.

Lemma linked_deallocate_spec step s b l : lives step s (b :: l) ->
  exists s', deallocate b.1 s = Ok tt s' /\ m_pool s' = m_pool s /\ m_block_count s' = m_block_count s /\ lives step s' l.
Proof.
  intros (fr & us & Hs & Est & Hu & Hl). destruct (slots_give _ _ _ _ _ _ _ Hs) as (i & us' & Hus & -> & Hs'). cbn [slot_block fst].
  unfold deallocate. rewrite (bind_Ok get _ s s s eq_refl). unfold owns. rewrite Est. rewrite (owned_slot _ _ _ _ _ _ i Hs' ltac:(left)). cbn [negb].
  eexists. split; [reflexivity|]. split; [done|]. split; [done|]. exists (i :: fr), us'. cbn. split; [done|]. split; [done|].
  pose proof (slots_length _ _ _ _ _ _ Hs') as Hlen. pose proof Hs' as [H1 H2 H3 Ha _].
  apply Permutation_length in Hus. cbn in Hus, Hlen. split.
  - rewrite Hu, Hus, wrap64_small; [lia|]. nia.
  - split; [done|]. exists (m_free_list s). rewrite lookup_insert_eq. split; [done|]. eapply linked_frame; [|exact Hl].
    intros x (j & -> & Hj)%list_elem_of_fmap. rewrite lookup_insert_ne; [done|]. intros E%slot_inj; [|done]. subst j.
    assert (Hnd : NoDup ((i :: fr) ++ us')) by (rewrite Ha; apply NoDup_seqZ). cbn in Hnd. apply NoDup_cons in Hnd as [Hnd _]. apply Hnd, elem_of_app. by left.
Qed.

Lemma Pool_of_lives raw step count k : 0 < raw -> 0 < step -> 0 < count -> 0 <= k -> raw + 2 ^ k + count * step < 2 ^ 64 ->
  lives step (Pool_of raw step count (2 ^ k)) [].
Proof.
  intros Hr Hs Hc Hk He. pose proof (Z.pow_pos_nonneg 2 k ltac:(lia) Hk). destruct (align_up_bounds raw k) as [Hb _]; [lia|lia|nia|].
  exists (seqZ 0 count), []. cbn. split; [|split; [done|split; [done|]]].
  - split; [done|lia|nia|by rewrite app_nil_r|done].
  - unfold slot. pose proof (chain_links_linked (Z.to_nat (count - 1)) (align_up raw (2 ^ k)) step ∅ Hs) as Hl.
    replace (Z.of_nat (Z.to_nat (count - 1)) + 1) with count in Hl by lia. exact Hl.
Qed.

Lemma reset_spec step s l : lives step s l -> 0 < m_block_count s ->
  exists s', reset s = Ok tt s' /\ m_pool s' = m_pool s /\ m_block_count s' = m_block_count s /\ lives step s' [].
Proof.
  intros (fr & us & [H1 H2 H3 Ha _] & Est & _) Hc. eexists. split; [reflexivity|]. split; [done|]. split; [done|]. exists (seqZ 0 (m_block_count s)), []. cbn.
  split; [by split; [..|rewrite app_nil_r|]|]. split; [done|]. split; [done|]. rewrite Est. unfold slot.
  pose proof (chain_links_linked (Z.to_nat (m_block_count s - 1)) (m_pool s) step (links s) H1) as Hl.
  replace (Z.of_nat (Z.to_nat (m_block_count s - 1)) + 1) with (m_block_count s) in Hl by lia. exact Hl.
Qed.
End Linked.

Program Definition fixed_lawful (step : Z) (Hstep : 8 <= step) : LawfulPool FixedMemoryPool.Pool (pool := fixed_pool step) := {|
  exact := Linked.lives step;
  config s := (FixedMemoryPool.m_pool s, FixedMemoryPool.m_block_count s);
  serves c n := n <= step;
  bounds c := (c.1, c.1 + c.2 * step);
  floor := -1;
  new_fits raw n := 0 < raw /\ 0 < n /\ raw + 16 + n * step < 2 ^ 64 |}.
Next Obligation. intros step Hstep raw n (Hr & Hn & He). apply (Linked.Pool_of_lives raw step n 4); lia. Qed.
Next Obligation. intros step Hstep s l l' E (fr & us & Hs & H). exists fr, us. split; [by eapply slots_perm|done]. Qed.
Next Obligation. intros step Hstep s l (fr & us & Hs & H). by eapply slots_separate_live. Qed.
Next Obligation. intros step Hstep s l b (fr & us & Hs & H) Hb. by eapply slots_bounds. Qed.
Next Obligation.
  intros step Hstep s l n Hl Hn. destruct (Linked.linked_allocate_spec step s l n Hl Hn) as (p & s' & Es & E1 & E2 & Hor). exists p, s'. split; [exact Es|].
  rewrite E1, E2. split; [done|]. destruct Hor as [(-> & H & _)|H]; [by left|]. right. by exists step.
Qed.
Next Obligation.
  intros step Hstep s b l Hl. destruct (Linked.linked_deallocate_spec step s b l Hl) as (s' & Es & E1 & E2 & H). exists s'. split; [exact Es|].
  rewrite E1, E2. split; [done|]. by left.
Qed.

(** ** Numbers in a vector *)

Module Numbered.
Import FixedMemoryPoolV2.

Definition lives (step : Z) (s : Pool) (l : list (Z * Z)) : Prop :=
  exists us, slots (m_pool s) step (m_block_count s) (m_free_indices s) us l /\ sizeof_T s = step /\ m_used_blocks s = Z.of_nat (length us).

Lemma slots_reorder p step count fr fr' us l : fr ≡ₚ fr' -> slots p step count fr us l -> slots p step count fr' us l.
Proof. intros E [H1 H2 H3 H4 H5]. split; try done. by rewrite <-E. Qed.

Lemma numbered_allocate_spec step s l n : lives step s l -> n <= step -> exists p s', allocate n s = Ok p s' /\ m_pool s' = m_pool s /\ m_block_count s' = m_block_count s /\
  ((p = 0 /\ lives step s' l /\ m_used_blocks s = Z.max 0 (m_block_count s)) \/ lives step s' ((p, step) :: l)).
Proof.
  intros (us & Hs & Est & Hu) Hn. unfold allocate. rewrite (bind_Ok get _ s s s eq_refl), Est. destruct (Z.ltb_spec step n); [lia|].
  pose proof (slots_length _ _ _ _ _ _ Hs) as Hlen. destruct (m_free_indices s) as [|i fr _] eqn:Ef using rev_ind.
  - exists 0, s. split; [done|]. split; [done|]. split; [done|]. left. split; [done|]. split; [|cbn in Hlen; lia]. exists us. by rewrite Ef.
  - rewrite last_snoc, removelast_last, (bind_Ok (modify _) _ s tt _ eq_refl). pose proof Hs as [H1 H2 H3 _ _].
    do 2 eexists. split; [reflexivity|]. split; [done|]. split; [done|]. right. exists (i :: us). cbn. rewrite length_app in Hlen. cbn in Hlen. split; [|split; [done|]].
    + apply slots_take. eapply slots_reorder; [|exact Hs]. symmetry. apply Permutation_cons_append.
    + rewrite Hu. rewrite wrap64_small; [lia|]. nia.
Qed.

Lemma numbered_deallocate_spec step s b l : lives step s (b :: l) ->
  exists s', deallocate b.1 s = Ok tt s' /\ m_pool s' = m_pool s /\ m_block_count s' = m_block_count s /\ lives step s' l.
Proof.
  intros (us & Hs & Est & Hu). destruct (slots_give _ _ _ _ _ _ _ Hs) as (i & us' & Hus & -> & Hs'). cbn [slot_block fst].
  unfold deallocate. rewrite (bind_Ok get _ s s s eq_refl). unfold owns. rewrite Est. rewrite (owned_slot _ _ _ _ _ _ i Hs' ltac:(left)). cbn [negb].
  eexists. split; [reflexivity|]. split; [done|]. split; [done|]. exists us'. cbn. pose proof (slots_length _ _ _ _ _ _ Hs') as Hlen. pose proof Hs' as [H1 H2 H3 _ _].
  apply Permutation_length in Hus. cbn in Hus, Hlen. split; [|split; [done|]].
  - eapply slots_reorder; [|exact Hs']. unfold slot. replace (m_pool s + i * step - m_pool s) with (i * step) by lia. rewrite Z.div_mul by lia. apply Permutation_cons_append.
  - rewrite Hu, Hus, wrap64_small; [lia|]. nia.
Qed.

Lemma Pool_new_lives raw step count k : 0 < raw -> 0 < step -> 0 <= count -> 0 <= k -> raw + 2 ^ k + count * step < 2 ^ 64 ->
  lives step (Pool_new raw step count (2 ^ k)) [].
Proof.
  intros Hr Hs Hc Hk He. pose proof (Z.pow_pos_nonneg 2 k ltac:(lia) Hk). destruct (align_up_bounds raw k) as [Hb _]; [lia|lia|nia|].
  exists []. cbn. split; [|done]. split; [done|lia|nia|by rewrite app_nil_r|done].
Qed.
End Numbered.

Program Definition fixed_v2_lawful (step k : Z) (Hstep : 0 < step) (Hk : 0 <= k) : LawfulPool FixedMemoryPoolV2.Pool (pool := fixed_pool_v2 step (2 ^ k)) := {|
  exact := Numbered.lives step;
  config s := (FixedMemoryPoolV2.m_pool s, FixedMemoryPoolV2.m_block_count s);
  serves c n := n <= step;
  bounds c := (c.1, c.1 + c.2 * step);
  floor := -1;
  new_fits raw n := 0 < raw /\ 0 <= n /\ raw + 2 ^ k + n * step < 2 ^ 64 |}.
Next Obligation. intros step k Hstep Hk raw n (Hr & Hn & He). by apply Numbered.Pool_new_lives. Qed.
Next Obligation. intros step k Hstep Hk s l l' E (us & Hs & H). exists us. split; [by eapply slots_perm|done]. Qed.
Next Obligation. intros step k Hstep Hk s l (us & Hs & H). by eapply slots_separate_live. Qed.
Next Obligation. intros step k Hstep Hk s l b (us & Hs & H) Hb. by eapply slots_bounds. Qed.
Next Obligation.
  intros step k Hstep Hk s l n Hl Hn. destruct (Numbered.numbered_allocate_spec step s l n Hl Hn) as (p & s' & Es & E1 & E2 & Hor). exists p, s'. split; [exact Es|].
  rewrite E1, E2. split; [done|]. destruct Hor as [(-> & H & _)|H]; [by left|]. right. by exists step.
Qed.
Next Obligation.
  intros step k Hstep Hk s b l Hl. destruct (Numbered.numbered_deallocate_spec step s b l Hl) as (s' & Es & E1 & E2 & H). exists s'. split; [exact Es|].
  rewrite E1, E2. split; [done|]. by left.
Qed.
