(* ===== verification/MemPoolProps.v ===== *)
(** * MemPoolProps: memory pools *)

From S2P Require Import Prelude MemPool MemPoolChain MemPoolVariable MemPoolIndex MemPoolFixed.

(** ** A pool for each thread

    [ThreadSafeMemoryPool] over any pool that keeps the contract: threads take blocks and
    give back their own in any order, through any of the wrappers of one type; each thread
    stays within the pool that is its own. *)

Import ThreadSafeMemoryPool.

Local Open Scope Z_scope.

Section threads.
Context {P : Type} {pool : IMemoryPool P} {laws : LawfulPool P}.

(** What each thread has in its hands. *)
Definition hands : Type := nat -> list (Z * Z).
Definition in_hand (t : nat) (l : list (Z * Z)) (h : hands) : hands := fun t' => if decide (t' = t) then l else h t'.

(** A thread acts through a wrapper; [raw] is the memory of a pool that is made for it. *)
Record step : Set := mkStep { by_wrapper : nat; by_thread : nat; at_raw : Z; does : action }.

Definition thread_act (x : step) (h : hands) : cpp (World P) hands :=
  let t := by_thread x in
  match does x with
  | Take n => p ← allocate_in (by_wrapper x) t (at_raw x) n; mret (if p =? 0 then h else in_hand t ((p, n) :: h t) h)
  | Give i => match h t !! i with
              | Some b => deallocate_in (by_wrapper x) t (at_raw x) b.1 ;; mret (in_hand t (delete i (h t)) h)
              | None => mret h
              end
  end.
Fixpoint thread_acts (l : list step) (h : hands) : cpp (World P) hands :=
  match l with [] => mret h | x :: l' => h' ← thread_act x h; thread_acts l' h' end.

(** A request that every new pool serves. *)
Definition always_served (n : Z) : Prop := forall raw k, new_fits raw k -> serves (config (pool_new raw k)) n.

Record threads_ok (w : World P) (h : hands) : Prop := mkThreadsOk {
  t_pools : forall t i, local_pool w !! t = Some i -> exists s lost, pools w !! i = Some s /\ in_step s (h t) lost /\ forall n, always_served n -> serves (config s) n;
  t_none : forall t, local_pool w !! t = None -> h t = [];
  t_own : forall t t' i, local_pool w !! t = Some i -> local_pool w !! t' = Some i -> t = t' }.

(** The step can be done: memory for a pool of the wrapper's size, a request that is served. *)
Definition step_fits (w : World P) (x : step) : Prop :=
  new_fits (at_raw x) (default 0 (local_size w !! by_wrapper x)) /\ match does x with Take n => always_served n | Give _ => True end.

Lemma get_local_pool_ok w h obj t raw : threads_ok w h -> new_fits raw (default 0 (local_size w !! obj)) ->
  exists i w', get_local_pool obj t raw w = Ok i w' /\ threads_ok w' h /\ local_pool w' !! t = Some i /\ local_size w' = local_size w.
Proof.
  intros [Hp Hn Ho] Hf. unfold get_local_pool. rewrite (bind_Ok get _ w w w eq_refl). destruct (local_pool w !! t) as [i|] eqn:E.
  { exists i, w. done. }
  rewrite (bind_Ok (modify _) _ w tt _ eq_refl). do 2 eexists. split; [reflexivity|]. split; [|split; [cbn; by rewrite lookup_insert_eq|done]]. split; cbn.
  - intros t' i. rewrite lookup_insert_Some. intros [[<- <-]|[Hne Hi]].
    + exists (pool_new raw (default 0 (local_size w !! obj))), []. split; [by rewrite list_lookup_middle|]. split; [|intros n Hs; by apply Hs].
      rewrite (Hn t E). exists []. split; [done|]. by apply new_law.
    + destruct (Hp t' i Hi) as (s & lost & Es & Hin & Hs). exists s, lost. split; [|done]. by apply lookup_app_l_Some.
  - intros t'. rewrite lookup_insert_None. intros [Hi _]. by apply Hn.
  - assert (Hbound : forall t' i, local_pool w !! t' = Some i -> (i < length (pools w))%nat).
    { intros t' i Hi. destruct (Hp t' i Hi) as (s & _ & Es & _). by apply lookup_lt_Some in Es. }
    intros t1 t2 i. rewrite !lookup_insert_Some. intros [[<- <-]|[Hne Hi]] [[<- Hi']|[Hne' Hi']]; [done| | |by eapply Ho].
    + apply Hbound in Hi'. lia.
    + subst i. apply Hbound in Hi. lia.
Qed.

Lemma pool_act_ok w h t i live a s lost' live' s' : threads_ok w h -> local_pool w !! t = Some i -> pools w !! i = Some s -> live = h t ->
  act a live s = Ok live' s' -> in_step s' live' lost' -> config s' = config s ->
  threads_ok (set_locals (all_local_pools w) (local_pool w) (<[i := s']> (pools w)) w) (in_hand t live' h).
Proof.
  intros [Hp Hn Ho] Hi Es -> _ Hin Hs. split; cbn.
  - intros t' j Hj. unfold in_hand. case_decide as Ht.
    + subst t'. rewrite Hi in Hj. injection Hj as <-. exists s', lost'. split; [apply list_lookup_insert_eq; by apply lookup_lt_Some in Es|]. split; [done|].
      intros n Hn'. destruct (Hp t i Hi) as (s0 & _ & Es0 & _ & Hs0). rewrite Es in Es0. injection Es0 as <-. rewrite Hs. by apply Hs0.
    + destruct (Hp t' j Hj) as (s0 & lost & Es0 & H). exists s0, lost. split; [|done]. rewrite list_lookup_insert_ne; [done|]. intros <-. by apply Ht, (Ho _ _ i).
  - intros t' Hj. unfold in_hand. case_decide as Ht; [by subst; rewrite Hi in Hj|by apply Hn].
  - done.
Qed.

Lemma on_pool_Ok {A} i (f : cpp P A) (w : World P) s a s' : pools w !! i = Some s -> f s = Ok a s' ->
  on_pool i f w = Ok a (set_locals (all_local_pools w) (local_pool w) (<[i := s']> (pools w)) w).
Proof. intros E1 E2. unfold on_pool. by rewrite E1, E2. Qed.

Lemma in_hand_same t h : forall t', in_hand t (h t) h t' = h t'.
Proof. intros t'. unfold in_hand. case_decide; congruence. Qed.
Lemma threads_ok_ext w h h' : (forall t, h t = h' t) -> threads_ok w h -> threads_ok w h'.
Proof.
  intros E [H1 H2 H3]. split; [|intros t; rewrite <-E; apply H2|done]. intros t i Hi. rewrite <-E. by apply H1.
Qed.

Lemma thread_act_ok w h x : threads_ok w h -> step_fits w x ->
  exists h' w', thread_act x h w = Ok h' w' /\ threads_ok w' h' /\ local_size w' = local_size w.
Proof.
  intros Hok [Hf Ha]. destruct (get_local_pool_ok w h _ (by_thread x) _ Hok Hf) as (i & w1 & E1 & Hok1 & Hi & El). set (t := by_thread x) in *.
  destruct (t_pools _ _ Hok1 t i Hi) as (s & lost & Es & Hin & Hserve). unfold thread_act. fold t. destruct (does x) as [n|k].
  - destruct (in_step_take s (h t) lost n Hin (Hserve n Ha)) as (live' & s' & Eact & Hin' & Hs'). pose proof Eact as Eact'.
    unfold act in Eact'. apply bind_inv_Ok in Eact' as (p & s2 & Ep & [= El' ->]).
    unfold allocate_in. rewrite bind_assoc, (bind_Ok _ _ _ _ _ E1), (bind_Ok _ _ _ _ _ (on_pool_Ok _ _ _ _ _ _ Es Ep)).
    do 2 eexists. split; [reflexivity|]. split; [|done]. pose proof (pool_act_ok _ _ _ _ _ _ _ _ _ _ Hok1 Hi Es eq_refl Eact Hin' Hs') as Hok'.
    destruct (p =? 0); subst live'; [|exact Hok']. eapply threads_ok_ext; [apply in_hand_same|exact Hok'].
  - destruct (h t !! k) as [b|] eqn:Ek; [|by exists h, w]. destruct (in_step_give s (h t) lost k Hin) as (live' & s' & lost' & Eact & Hin' & Hs' & -> & _).
    pose proof Eact as Eact'. unfold act in Eact'. rewrite Ek in Eact'. apply bind_inv_Ok in Eact' as ([] & s2 & Ep & [= ->]).
    unfold deallocate_in. rewrite bind_assoc, (bind_Ok _ _ _ _ _ E1), (bind_Ok _ _ _ _ _ (on_pool_Ok _ _ _ _ _ _ Es Ep)).
    do 2 eexists. split; [reflexivity|]. split; [|done]. exact (pool_act_ok _ _ _ _ _ _ _ _ _ _ Hok1 Hi Es eq_refl Eact Hin' Hs').
Qed.

Lemma thread_acts_ok l w h : threads_ok w h -> Forall (step_fits w) l ->
  exists h' w', thread_acts l h w = Ok h' w' /\ threads_ok w' h'.
Proof.
  revert w h. induction l as [|x l IH]; intros w h Hok Hl; [by exists h, w|]. apply Forall_cons in Hl as [Hx Hl]. cbn [thread_acts].
  destruct (thread_act_ok w h x Hok Hx) as (h1 & w1 & E1 & Hok1 & El). rewrite (bind_Ok _ _ _ _ _ E1). apply IH; [done|].
  eapply Forall_impl; [exact Hl|]. intros y [Hy1 Hy2]. split; [by rewrite El|done].
Qed.

Lemma threads_separate w h t : threads_ok w h -> separate (h t).
Proof.
  intros [H1 H2 _]. destruct (local_pool w !! t) as [i|] eqn:E; [|rewrite (H2 t E); constructor].
  destruct (H1 t i E) as (s & lost & _ & Hin & _). by apply in_step_live in Hin as [? _].
Qed.
End threads.

(** ** All pools *)

(** ** Programs that use a pool *)

(** What a program can rely on: whatever blocks it takes from a new pool and gives back, in
    any order, every call returns; the blocks in its hands, of the sizes it asked for, do
    not overlap and lie within the bounds of the pool; when it asks only for blocks larger
    than the floor of the pool, the pool knows of exactly these blocks as in use. *)
Definition reliable {P : Type} {pool : IMemoryPool P} (laws : LawfulPool P) : Prop :=
  forall raw n l, new_fits raw n -> Forall (served (pool_new raw n)) l ->
  exists live s', acts l [] (pool_new raw n) = Ok live s' /\ separate live /\
    Forall (fun b => 0 < b.1 /\ (bounds (config (pool_new raw n))).1 <= b.1 /\ b.1 + b.2 <= (bounds (config (pool_new raw n))).2) live /\
    (Forall above_floor l -> exists blocks, Forall2 within live blocks /\ exact s' blocks).

Lemma lawful_reliable {P} {pool : IMemoryPool P} (laws : LawfulPool P) : reliable laws.
Proof.
  intros raw n l Hnew Hl. destruct (acts_in_step l (pool_new raw n) [] []) as (live & s' & lost & E & Hin & Hb & Hlost); [|done|].
  { exists []. split; [done|]. by apply new_law. }
  exists live, s'. split; [done|]. destruct (in_step_live _ _ _ Hin) as [H1 H2]. split; [done|]. split; [by rewrite <-Hb|].
  intros Hfl. destruct (Hlost Hfl ltac:(done)) as [-> _]. destruct Hin as (blocks & Hw & He). rewrite app_nil_r in He. by exists blocks.
Qed.



(** ** What the pool with indexes finds *)

Lemma indexed_acts_ok raw total l live s : new_pool_fits raw total -> Forall (served (pool_new raw total : IndexedMemoryPool.Indexed)) l ->
  acts l [] (pool_new raw total : IndexedMemoryPool.Indexed) = Ok live s -> exists bs, indexed_ok s bs.
Proof.
  intros Hnew Hl E. destruct (acts_in_step l (pool_new raw total : IndexedMemoryPool.Indexed) [] []) as (live' & s' & lost & E' & Hin & _); [|done|].
  { exists []. split; [done|]. by apply new_law. }
  rewrite E in E'. injection E' as <- <-. destruct Hin as (? & _ & bs & Hok & _). by exists bs.
Qed.

(** C28. The indexes are exact and the search is complete. Whatever a program has done with a
    pool with indexes: its memory is a chain of blocks, no two free ones side by side, and
    the indexes by size class and by address hold exactly the free blocks. A request fails
    only when no free block has the bytes it needs, and then nothing changes. Otherwise it
    takes a block that is large enough, and of those one in the smallest size class; what
    is left over, when it can hold a block, becomes a free block; chain and indexes stay
    exact. *)
Theorem indexed_allocation raw total l live s n : new_pool_fits raw total -> Forall (served (pool_new raw total : IndexedMemoryPool.Indexed)) l ->
  acts l [] (pool_new raw total : IndexedMemoryPool.Indexed) = Ok live s -> n <> 0 -> request_fits (IndexedMemoryPool.blocks s) n ->
  exists bs, pool_ok (IndexedMemoryPool.blocks s) bs /\ index_ok s (free_at (m_pool (IndexedMemoryPool.blocks s)) bs) /\
  let needed := rounded (IndexedMemoryPool.blocks s) n in
  (IndexedMemoryPool.allocate n s = Ok 0 s /\ forall m, (m, true) ∈ bs -> m < needed) \/
  exists pre m post s', bs = pre ++ (m, true) :: post /\ needed <= m /\ (forall k, (k, true) ∈ bs -> needed <= k -> class_of m <= class_of k) /\
    IndexedMemoryPool.allocate n s = Ok (at_ (IndexedMemoryPool.blocks s) pre + header_size) s' /\
    let bs' := pre ++ carve (m_alignment (IndexedMemoryPool.blocks s)) needed m ++ post in
    pool_ok (IndexedMemoryPool.blocks s') bs' /\ index_ok s' (free_at (m_pool (IndexedMemoryPool.blocks s')) bs').
Proof.
  intros Hnew Hl E Hn Hfit. destruct (indexed_acts_ok _ _ _ _ _ Hnew Hl E) as (bs & Hok). exists bs. split; [apply Hok|]. split; [apply Hok|]. cbv zeta.
  destruct (indexed_allocate_spec s bs n Hok Hn Hfit) as [[H1 H2]|(pre & m & post & s' & H1 & H2 & H3 & H4 & [H5 H6] & _)]; [by left|].
  right. by exists pre, m, post, s'.
Qed.

Lemma indexed_allocation_witness : exists live s, acts [Take 100] [] (pool_new 4096 1024 : IndexedMemoryPool.Indexed) = Ok live s /\
  exists bs, pool_ok (IndexedMemoryPool.blocks s) bs /\ index_ok s (free_at (m_pool (IndexedMemoryPool.blocks s)) bs).
Proof.
  assert (Hf : new_pool_fits 4096 1024) by (unfold new_pool_fits, header_size; lia).
  destruct (acts [Take 100] [] (pool_new 4096 1024 : IndexedMemoryPool.Indexed)) as [live s| | |] eqn:E; [|by vm_compute in E..]. exists live, s. split; [done|].
  destruct (indexed_allocation 4096 1024 [Take 100] live s 40) as (bs & Hok & Hix & _); [done|by repeat constructor|done|done| |by exists bs].
  vm_compute in E. injection E as _ <-. by vm_compute.
Defined.

(** ** Nothing is lost *)

Lemma unused_is_one bs : coalesced bs -> used_at 0 bs = [] -> bs = [] \/ exists n, bs = [(n, true)].
Proof.
  destruct bs as [|[n [|]] [|[m [|]] bs]]; cbn; try done; [by left|intros _ _; right; by exists n|by intros [? _]].
Qed.
Lemma used_nil a a' bs : used_at a bs = [] -> used_at a' bs = [].
Proof.
  revert a a'. induction bs as [|[n [|]] bs IH]; intros a a'; [done| |done]. rewrite !used_at_free. apply IH.
Qed.
Lemma unused_whole s bs : pool_ok s bs -> used_at (m_pool s) bs = [] -> bs = [(m_total_size s, true)].
Proof.
  intros [Hl Hc _ _] Hu. destruct (unused_is_one bs Hc (used_nil _ _ _ Hu)) as [->|[n ->]]; [by destruct (l_some _ _ Hl)|].
  pose proof (l_total _ _ Hl) as Ht. cbn in Ht. do 2 f_equal. lia.
Qed.

(** What a program leaves when it has given back everything. *)
Lemma given_back {P} {pool : IMemoryPool P} {laws : LawfulPool P} raw total l s : new_fits raw total -> Forall (served (pool_new raw total)) l -> Forall above_floor l ->
  acts l [] (pool_new raw total) = Ok [] s -> exact s [].
Proof.
  intros Hnew Hl Hfl E. destruct (lawful_reliable laws raw total l Hnew Hl) as (live & s' & E' & _ & _ & Hx). rewrite E in E'. injection E' as <- <-.
  destruct (Hx Hfl) as (blocks & Hw & He). by apply Forall2_nil_inv_l in Hw as ->.
Qed.

Lemma acts_config {P} {pool : IMemoryPool P} {laws : LawfulPool P} raw total l live s : new_fits raw total -> Forall (served (pool_new raw total)) l ->
  acts l [] (pool_new raw total) = Ok live s -> config s = config (pool_new raw total).
Proof.
  intros Hnew Hl E. destruct (acts_in_step l (pool_new raw total) [] []) as (live' & s' & lost & E' & _ & Hc & _); [|done|].
  { exists []. split; [done|]. by apply new_law. }
  rewrite E in E'. by injection E' as <- <-.
Qed.

(** Requests of a program that get no block lost. *)
Definition large_request (a : action) : Prop := match a with Take m => header_size < m /\ m + max_align <= 2 ^ 64 | Give _ => True end.

Lemma blocks_config_eq s raw total : blocks_config s = blocks_config (Blocks_new raw total max_align) ->
  m_total_size s = total /\ m_alignment s = max_align /\ m_pool s = align_up raw max_align.
Proof. by intros [= -> -> _ ->]. Qed.
Lemma indexed_new_config raw total : new_pool_fits raw total -> blocks_config (IndexedMemoryPool.blocks (pool_new raw total : IndexedMemoryPool.Indexed)) = blocks_config (Blocks_new raw total max_align).
Proof.
  intros (Hr & Hn & He). destruct (indexed_new_ok raw total 4 Hr ltac:(lia) Hn He) as (s & Es & Eb & _). cbn [pool_new indexed_pool]. change max_align with (2 ^ 4). by rewrite Es, <-Eb.
Qed.
Lemma large_served (c : BlocksConfig) l : c_align c = max_align -> Forall large_request l ->
  Forall (fun a => match a with Take n => config_serves c n | Give _ => True end) l /\ Forall (fun a => match a with Take n => header_size < n | Give _ => True end) l.
Proof.
  intros E Hl. split; (eapply Forall_impl; [exact Hl|]); intros [m|i]; cbn; try done; [|by intros [? _]]. intros [H1 H2]. unfold config_serves, header_size in *. rewrite E. lia.
Qed.

(** A pool that is one free block serves every request that fits. *)
Lemma whole_served s total n : pool_ok s [(total, true)] -> m_alignment s = max_align -> 0 < n -> n + max_align <= 2 ^ 64 -> align_up n max_align <= total ->
  exists s', VariableMemoryPool.allocate n s = Ok (m_pool s + header_size) s'.
Proof.
  intros Hok Ea Hn Hw Ht. assert (Hfit : request_fits s n) by (split; [lia|rewrite Ea; lia]). pose proof (variable_allocate_spec s _ n Hok ltac:(lia) Hfit) as Hspec.
  unfold rounded in Hspec. rewrite Ea in Hspec. cbn [first_fitting andb] in Hspec. destruct (Z.leb_spec (align_up n max_align) total); [|lia].
  destruct Hspec as (s' & Es & _). exists s'. rewrite Es. unfold at_. cbn. by rewrite Z.add_0_r.
Qed.
Lemma whole_served_indexed s total n : indexed_ok s [(total, true)] -> m_alignment (IndexedMemoryPool.blocks s) = max_align -> 0 < n -> n + max_align <= 2 ^ 64 -> align_up n max_align <= total ->
  exists s', IndexedMemoryPool.allocate n s = Ok (m_pool (IndexedMemoryPool.blocks s) + header_size) s'.
Proof.
  intros Hok Ea Hn Hw Ht. assert (Hfit : request_fits (IndexedMemoryPool.blocks s) n) by (split; [lia|rewrite Ea; lia]).
  destruct (indexed_allocate_spec s _ n Hok ltac:(lia) Hfit) as [[_ Hno]|(pre & m & post & s' & Ebs & _ & _ & Es & _)].
  - specialize (Hno total ltac:(left)). unfold rounded in Hno. rewrite Ea in Hno. lia.
  - exists s'. rewrite Es. destruct pre as [|b [|]]; [|done..]. unfold at_. cbn. by rewrite Z.add_0_r.
Qed.

(** C29. Memory comes back. A program that takes blocks of more than 32 bytes and gives all of
    them back, in whatever order, leaves the pool as it was: one free block of all its
    bytes, whatever it was cut into; every request that fits in the whole pool is then
    served, with the first address. This holds for the pool that searches its chain and for
    the pool with indexes. *)
Theorem memory_comes_back raw total l n : new_pool_fits raw total -> Forall large_request l -> 0 < n -> n + max_align <= 2 ^ 64 -> align_up n max_align <= total ->
  (forall s, acts l [] (pool_new raw total : Blocks) = Ok [] s ->
    pool_ok s [(total, true)] /\ exists s', VariableMemoryPool.allocate n s = Ok (align_up raw max_align + header_size) s') /\
  (forall s, acts l [] (pool_new raw total : IndexedMemoryPool.Indexed) = Ok [] s ->
    indexed_ok s [(total, true)] /\ exists s', IndexedMemoryPool.allocate n s = Ok (align_up raw max_align + header_size) s').
Proof.
  intros Hnew Hl Hn Hw Ht. split; intros s E.
  - destruct (large_served (blocks_config (Blocks_new raw total max_align)) l eq_refl Hl) as [Hs Hf].
    destruct (given_back (laws := variable_lawful) raw total l s Hnew Hs Hf E) as (bs & Hok & Hu). apply Permutation_nil_r in Hu.
    destruct (blocks_config_eq _ _ _ (acts_config (laws := variable_lawful) raw total l [] s Hnew Hs E)) as (Et & Ea & Ep). rewrite (unused_whole _ _ Hok Hu), Et in Hok. split; [done|].
    rewrite <-Ep. by apply (whole_served s total).
  - pose proof (indexed_new_config raw total Hnew) as Ec. assert (Hal : c_align (blocks_config (IndexedMemoryPool.blocks (pool_new raw total : IndexedMemoryPool.Indexed))) = max_align) by (by rewrite Ec).
    destruct (large_served _ l Hal Hl) as [Hs Hf]. destruct (given_back (laws := indexed_lawful) raw total l s Hnew Hs Hf E) as (bs & Hok & Hu). apply Permutation_nil_r in Hu.
    pose proof (acts_config (laws := indexed_lawful) raw total l [] s Hnew Hs E) as Ecs. cbn [config indexed_lawful] in Ecs. rewrite Ec in Ecs. destruct (blocks_config_eq _ _ _ Ecs) as (Et & Ea & Ep).
    rewrite (unused_whole _ _ (x_pool _ _ Hok) Hu), Et in Hok. split; [done|].
    rewrite <-Ep. by apply (whole_served_indexed s total).
Qed.

Lemma memory_comes_back_witness : exists s s', acts [Take 40; Take 100; Give 1; Take 64; Give 0; Give 0] [] (pool_new 4096 1024 : IndexedMemoryPool.Indexed) = Ok [] s /\
  IndexedMemoryPool.allocate 1024 s = Ok 4128 s'.
Proof.
  assert (Hf : new_pool_fits 4096 1024) by (unfold new_pool_fits, header_size; lia).
  assert (Hl : Forall large_request [Take 40; Take 100; Give 1; Take 64; Give 0; Give 0]).
  { unfold large_request, header_size, max_align. repeat (apply Forall_cons; split; [first [exact I|lia]|]). constructor. }
  destruct (memory_comes_back 4096 1024 _ 1024 Hf Hl) as [_ H]; [lia|unfold max_align; lia|by vm_compute|].
  assert (E : exists s, acts [Take 40; Take 100; Give 1; Take 64; Give 0; Give 0] [] (pool_new 4096 1024 : IndexedMemoryPool.Indexed) = Ok [] s).
  { eexists. vm_compute. reflexivity. }
  destruct E as (s & E). destruct (H s E) as (_ & s' & Es). exists s, s'. split; [exact E|].
  replace 4128 with (align_up 4096 max_align + header_size) by (vm_compute; reflexivity). exact Es.
Defined.

(** ** Threads *)

(** Threads do not disturb each other. Any number of threads take blocks through
    wrappers of one pool type and give back their own, interleaved in any way: every call
    returns, and no two blocks in the hands of a thread overlap. It holds for wrappers of
    any pool that keeps the contract, when the memory of the pools that are made is there
    and every request is one a new pool serves. *)
Theorem threads_sound {P} {pool : IMemoryPool P} {laws : LawfulPool P} (w : ThreadSafeMemoryPool.World P) l :
  ThreadSafeMemoryPool.local_pool w = ∅ -> Forall (step_fits w) l ->
  exists hands w', thread_acts l (fun _ => []) w = Ok hands w' /\ forall t, separate (hands t).
Proof.
  intros Hnone Hl. destruct (thread_acts_ok l w (fun _ => [])) as (h & w' & E & Hok); [|done|].
  - split; rewrite Hnone; done.
  - exists h, w'. split; [done|]. intros t. by eapply threads_separate.
Qed.

(** A wrapper with local pools of 128 bytes, as they are. *)
Definition one_wrapper : ThreadSafeMemoryPool.World Blocks :=
  match MemoryPoolFactory.create_thread_safe_variable_pool 0 4096 65536 16 (ThreadSafeMemoryPool.mkWorld ∅ ∅ ∅ ∅ []) with
  | Ok _ w => w | _ => ThreadSafeMemoryPool.mkWorld ∅ ∅ ∅ ∅ [] end.
Definition two_threads : list step := [mkStep 0 1 100000 (Take 32); mkStep 0 2 200000 (Take 32); mkStep 0 1 300000 (Take 16); mkStep 0 2 300000 (Give 0)].

Lemma always_served_128 n : 0 <= n <= 65536 -> always_served (P := Blocks) n.
Proof. intros Hn raw k _. cbn. unfold config_serves. cbn. unfold max_align. lia. Qed.

Lemma threads_sound_witness : exists hands w', thread_acts two_threads (fun _ => []) one_wrapper = Ok hands w' /\ separate (hands 1%nat) /\ length (hands 1%nat) = 2%nat.
Proof.
  assert (Hl : Forall (step_fits one_wrapper) two_threads).
  { assert (Hfit : forall raw, 0 < raw <= 300000 -> new_pool_fits raw 128) by (intros raw H; unfold new_pool_fits, header_size; lia).
    repeat (constructor; [split; [apply Hfit; cbn; lia|cbn; try exact I; apply always_served_128; lia]|]). constructor. }
  destruct (threads_sound one_wrapper two_threads eq_refl Hl) as (h & w' & E & H). exists h, w'. split; [done|]. split; [apply H|].
  vm_compute in E. injection E as <- _. reflexivity.
Defined.

(** ** Where the pools go wrong *)

(** What the constructor asks [::operator new] for. *)
Definition memory_end (s : Blocks) : Z := m_raw_mem s + (m_total_size s + m_alignment s).

Lemma round_multiple n : 0 <= n -> n + max_align <= 2 ^ 64 -> n mod max_align = 0 -> align_up n max_align = n.
Proof.
  unfold max_align. intros Hn Hw Hm. destruct (align_up_bounds n 4) as [H1 H2]; [lia|lia|lia|]. change (2 ^ 4) with 16 in *.
  pose proof (Z.div_mod n 16 ltac:(lia)). pose proof (Z.div_mod (align_up n 16) 16 ltac:(lia)). lia.
Qed.

(** The pool is larger than its memory. The first block is given all of the bytes asked
    for, though its header is in the same memory: a program that asks a new pool for as
    many bytes as it was made with gets a block that ends after the memory does, by at
    least 16 bytes, wherever the memory is; writing to all of the block writes past the end
    of the allocation. This is so for the pool that searches its chain and for the pool
    with indexes. *)
Theorem whole_pool_overruns raw total : new_pool_fits raw total -> 0 < total -> total mod max_align = 0 ->
  (exists p s', VariableMemoryPool.allocate total (pool_new raw total) = Ok p s' /\ memory_end s' + 16 <= p + total) /\
  (exists p s', IndexedMemoryPool.allocate total (pool_new raw total) = Ok p s' /\ memory_end (IndexedMemoryPool.blocks s') + 16 <= p + total).
Proof.
  intros Hnew Ht Hm. assert (Hw : total + max_align <= 2 ^ 64) by (destruct Hnew as (? & ? & ?); unfold max_align, header_size in *; lia).
  assert (Hround : align_up total max_align <= total) by (rewrite round_multiple by (done || lia); done).
  assert (Hge : raw <= align_up raw max_align).
  { destruct Hnew as (? & ? & ?). apply (align_up_bounds raw 4); unfold header_size in *; lia. }
  assert (Hend : forall s', blocks_config s' = blocks_config (Blocks_new raw total max_align) -> memory_end s' + 16 <= align_up raw max_align + header_size + total).
  { intros s' [= E1 E2 E3 _]. unfold memory_end, header_size. rewrite E1, E2, E3. unfold max_align in *. lia. }
  assert (Hserve : config_serves (blocks_config (Blocks_new raw total max_align)) total) by (split; cbn; lia).
  assert (HV : new_fits (LawfulPool := variable_lawful) raw total) by done. assert (HI : new_fits (LawfulPool := indexed_lawful) raw total) by done.
  pose proof (indexed_new_config raw total Hnew) as Ecn. destruct (blocks_config_eq _ _ _ Ecn) as (_ & Ea & Ep). split.
  - destruct (new_law _ _ HV) as (bs & Hok & Hu). apply Permutation_nil_r in Hu. rewrite (unused_whole _ _ Hok Hu) in Hok.
    destruct (whole_served _ total total Hok eq_refl Ht Hw Hround) as (s1 & E1). exists (align_up raw max_align + header_size), s1. split; [exact E1|]. apply Hend.
    destruct (allocate_law _ [] total (new_law _ _ HV) Hserve) as (p & s' & E & Ec & _). pose proof (eq_trans (eq_sym E1) E) as E'. by injection E' as <- <-.
  - destruct (new_law _ _ HI) as (bs & Hok & Hu). apply Permutation_nil_r in Hu. rewrite (unused_whole _ _ (x_pool _ _ Hok) Hu) in Hok.
    destruct (blocks_config_eq _ _ _ Ecn) as (Et & _). rewrite Et in Hok. destruct (whole_served_indexed _ total total Hok Ea Ht Hw Hround) as (s2 & E2). rewrite Ep in E2.
    exists (align_up raw max_align + header_size), s2. split; [exact E2|]. apply Hend. rewrite <-Ecn in Hserve |- *.
    destruct (allocate_law _ [] total (new_law _ _ HI) Hserve) as (p & s' & E & Ec & _). pose proof (eq_trans (eq_sym E2) E) as E'. by injection E' as <- <-.
Qed.

Lemma whole_pool_overruns_witness : exists p s', VariableMemoryPool.allocate 1024 (pool_new 4096 1024) = Ok p s' /\ memory_end s' + 16 <= p + 1024.
Proof. apply (whole_pool_overruns 4096 1024); [unfold new_pool_fits, header_size; lia|lia|by vm_compute]. Defined.

Definition result_of {S A} (d : A) (r : result S A) : A := match r with Ok a _ => a | _ => d end.

(** A small block at the end of the pool is never taken back: after all blocks have been
    given back the pool can no longer serve what a new one can. *)
Lemma small_block_lost :
  result_of (-1) ((live ← acts [Take 16; Take 16; Give 0; Give 0] []; VariableMemoryPool.allocate 64) (pool_new 4096 64)) = 0 /\
  result_of (-1) ((live ← acts [Take 16; Take 16; Give 0; Give 0] []; IndexedMemoryPool.allocate 64) (pool_new 4096 64)) = 0 /\
  result_of (-1) (VariableMemoryPool.allocate 64 (pool_new 4096 64)) = 4128.
Proof. split; [|split]; vm_compute; reflexivity. Qed.

(** A request close to 2^64 is rounded to none, and gets a block of no bytes. *)
Lemma huge_request_gets_nothing :
  result_of [] ((p ← VariableMemoryPool.allocate (2 ^ 64 - 1); s ← get; mret [p; m_used_size s; m_current_allocations s]) (pool_new 4096 1024)) = [4128; 0; 1].
Proof. vm_compute. reflexivity. Qed.

(** A pool aligned to 64 bytes hands out blocks that are not. *)
Lemma alignment_not_kept : result_of 0 (VariableMemoryPool.allocate 64 (Blocks_new 4096 1024 64)) mod 64 = 32.
Proof. vm_compute. reflexivity. Qed.

(** A pool of no blocks hands one out. *)
Lemma empty_pool_allocates : result_of 0 (FixedMemoryPool.allocate 8 (FixedMemoryPool.Pool_of 4096 8 0 16)) = 4096.
Proof. vm_compute. reflexivity. Qed.

(** A block given back twice is handed out twice. *)
Lemma given_back_twice :
  result_of [] ((p ← FixedMemoryPool.allocate 8; FixedMemoryPool.deallocate p ;; FixedMemoryPool.deallocate p ;;
    q ← FixedMemoryPool.allocate 8; s ← get; mret [q; FixedMemoryPool.m_free_list s]) (FixedMemoryPool.Pool_of 4096 8 4 16)) = [4096; 4096] /\
  result_of [] ((p ← FixedMemoryPoolV2.allocate 8; FixedMemoryPoolV2.deallocate p ;; FixedMemoryPoolV2.deallocate p ;;
    q ← FixedMemoryPoolV2.allocate 8; r ← FixedMemoryPoolV2.allocate 8; mret [q; r]) (FixedMemoryPoolV2.Pool_new 4096 8 4 16)) = [4120; 4120].
Proof. split; vm_compute; reflexivity. Qed.

(** A block that another thread gives back stays in use, and two wrappers of one type share
    the pool of a thread: the second one does not know of it. *)
Lemma other_thread_loses_block :
  result_of [] ((p ← ThreadSafeMemoryPool.allocate_in 0 1 100000 32; ThreadSafeMemoryPool.deallocate_in 0 2 200000 p ;;
    k ← ThreadSafeMemoryPool.all_statistics 0; mret [current_allocations k; total_deallocations k]) one_wrapper) = [1; 0].
Proof. vm_compute. reflexivity. Qed.
Lemma wrappers_share_pool :
  result_of [] ((MemoryPoolFactory.create_thread_safe_variable_pool 1 900000 65536 16 ;; ThreadSafeMemoryPool.allocate_in 0 1 100000 32 ;; ThreadSafeMemoryPool.allocate_in 1 1 200000 16 ;;
    k ← ThreadSafeMemoryPool.all_statistics 0; k1 ← ThreadSafeMemoryPool.all_statistics 1; mret [total_allocations k; total_allocations k1]) one_wrapper) = [2; 0].
Proof. vm_compute. reflexivity. Qed.

(** The wrapper never asks its central pool: a request that needs more than a local pool has
    fails, however large the pool was made. *)
Lemma central_pool_unused : result_of (-1) (ThreadSafeMemoryPool.allocate_in 0 1 100000 1024 one_wrapper) = 0.
Proof. vm_compute. reflexivity. Qed.
