(* ===== verification/StateMachine.v ===== *)
(** * StateMachine: the engine for state machines

    Models src/zsxq-cpp-ai/StdStateMachine/state_machine.h. States are classes with virtual
    methods: a state is a record of handlers, which are calls on the machine and may call the
    engine again (send an event, force a transition, stop the machine). How deep such calls
    are nested is bounded by a number; a machine whose calls are nested without bound does
    not return. States are added before the machine is started. The members of the state
    objects are [fields], a type of each program. Numbers of type [float] are the binary
    floating-point numbers of 32 bits, with their rounding. The mutex is recursive and
    every call holds it, so calls are atomic; timestamps of events are never read and left
    out, and so is what is printed. *)

From Stdlib Require Import Floats.SpecFloat.
From S2P Require Import Prelude.

Local Open Scope Z_scope.

(** ** float *)

Abbreviation float := spec_float.
Definition float_of (z : Z) : float := binary_normalize 24 128 z 0 false.
Definition float_add (a b : float) : float := SFadd 24 128 a b.
Definition float_mul (a b : float) : float := SFmul 24 128 a b.
Definition float_div (a b : float) : float := SFdiv 24 128 a b.
Definition float_zero : float := S754_zero false.

(** [std::chrono::duration<float>] of a number of nanoseconds. *)
Definition seconds (ns : Z) : float := float_div (float_of ns) (float_of 1000000000).

(** A value as a [double]. *)
Definition double_of (f : float) : float :=
  match f with S754_finite s m e => binary_normalize 53 1024 (if s then Z.neg m else Z.pos m) e s | f => f end.

(** ** Values, events, context *)

(** The types that programs store. *)
Inductive Any : Type := AnyInt (z : Z) | AnyFloat (f : float) | AnyString (s : string) | AnyBool (b : bool).
Definition cast_int (a : Any) : option Z := match a with AnyInt z => Some z | _ => None end.
Definition cast_float (a : Any) : option float := match a with AnyFloat f => Some f | _ => None end.
Definition cast_string (a : Any) : option string := match a with AnyString s => Some s | _ => None end.
Definition cast_bool (a : Any) : option bool := match a with AnyBool b => Some b | _ => None end.

Abbreviation StateID := string.
Abbreviation EventID := string.

Record Event : Type := mkEvent { ev_id : EventID; ev_data : option Any }.
Definition Event_new (id : EventID) : Event := mkEvent id None.
Definition SetData (a : Any) (e : Event) : Event := mkEvent (ev_id e) (Some a).
Definition GetData {A} (cast : Any -> option A) (e : Event) : option A := ev_data e ≫= cast.

Abbreviation Context := (gmap string Any).
Module Context.
Definition Set_ (key : string) (a : Any) (c : Context) : Context := <[key := a]> c.
Definition Get {A} (cast : Any -> option A) (key : string) (c : Context) : option A := c !! key ≫= cast.
Definition Has (key : string) (c : Context) : bool := bool_decide (is_Some (c !! key)).
Definition Remove (key : string) (c : Context) : Context := delete key c.
Definition Clear (_ : Context) : Context := ∅.
End Context.

(** ** Machines and states *)

Section engine.
Context {D : Type}.

(** What changes while a machine runs. *)
Record Machine : Type := mkMachine {
  current_state_ : option StateID; running_ : bool; context_ : Context; pending_events_ : list Event; last_update_time_ : Z; fields : D }.

Definition set_current (q : option StateID) (m : Machine) : Machine :=
  mkMachine q (running_ m) (context_ m) (pending_events_ m) (last_update_time_ m) (fields m).
Definition set_running (r : bool) (m : Machine) : Machine :=
  mkMachine (current_state_ m) r (context_ m) (pending_events_ m) (last_update_time_ m) (fields m).
Definition on_context (f : Context -> Context) (m : Machine) : Machine :=
  mkMachine (current_state_ m) (running_ m) (f (context_ m)) (pending_events_ m) (last_update_time_ m) (fields m).
Definition set_pending (l : list Event) (m : Machine) : Machine :=
  mkMachine (current_state_ m) (running_ m) (context_ m) l (last_update_time_ m) (fields m).
Definition set_time (t : Z) (m : Machine) : Machine :=
  mkMachine (current_state_ m) (running_ m) (context_ m) (pending_events_ m) t (fields m).
Definition on_fields (f : D -> D) (m : Machine) : Machine :=
  mkMachine (current_state_ m) (running_ m) (context_ m) (pending_events_ m) (last_update_time_ m) (f (fields m)).

(** What handlers may call. *)
Record Ops : Type := mkOps {
  op_send : Event -> bool -> cpp Machine unit;
  op_force : StateID -> cpp Machine bool;
  op_stop : cpp Machine unit }.

Record Transition : Type := mkTransition {
  event : EventID; target : StateID;
  condition : option (Event -> cpp Machine bool);
  action : option (Ops -> Event -> cpp Machine unit) }.
Definition Transition_new (e : EventID) (q : StateID) : Transition := mkTransition e q None None.

Record State : Type := mkState {
  id_ : StateID; name_ : string; transitions_ : gmap EventID (list Transition);
  OnEnter : Ops -> option StateID -> cpp Machine unit;
  OnExit : Ops -> option StateID -> cpp Machine unit;
  OnUpdate : Ops -> float -> cpp Machine unit;
  OnEvent : Ops -> Event -> cpp Machine bool }.

(** The handlers of the base class only print. *)
Definition base_OnEnter (_ : Ops) (_ : option StateID) : cpp Machine unit := mret tt.
Definition base_OnExit (_ : Ops) (_ : option StateID) : cpp Machine unit := mret tt.
Definition base_OnUpdate (_ : Ops) (_ : float) : cpp Machine unit := mret tt.
Definition base_OnEvent (_ : Ops) (_ : Event) : cpp Machine bool := mret false.
Definition State_new (id name : string) : State :=
  mkState id (if String.eqb name "" then id else name) ∅ base_OnEnter base_OnExit base_OnUpdate base_OnEvent.

Definition AddTransition (t : Transition) (q : State) : State :=
  mkState (id_ q) (name_ q) (<[event t := default [] (transitions_ q !! event t) ++ [t]]> (transitions_ q)) (OnEnter q) (OnExit q) (OnUpdate q) (OnEvent q).

(** What is set up before a machine runs. *)
Record Engine : Type := mkEngine { engine_name : string; states_ : gmap StateID State; initial_state_id_ : StateID }.
Definition Engine_new (name : string) : Engine := mkEngine name ∅ "".
Definition AddState (q : State) (g : Engine) : Engine := mkEngine (engine_name g) (<[id_ q := q]> (states_ g)) (initial_state_id_ g).
Definition SetInitialState (q : StateID) (g : Engine) : Engine := mkEngine (engine_name g) (states_ g) q.

(** A machine before it is started; the time is not initialized. *)
Definition Machine_new (d : D) : Machine := mkMachine None false ∅ [] 0 d.

(** ** The engine *)

Section operations.
Variable g : Engine.
Variable ops : Ops.

(** Calling a method of the state that a pointer is to. *)
Definition call {A} (q : StateID) (method : State -> cpp Machine A) : cpp Machine A :=
  match states_ g !! q with Some st => method st | None => undefined "no such state" end.

Definition PerformTransition (q : StateID) : cpp Machine unit :=
  m ← get;
  (match current_state_ m with
   | Some p => call p (fun st => OnExit st ops (Some q))
   | None => mret tt
   end) ;;
  m ← get;
  modify (set_current (Some q)) ;;
  call q (fun st => OnEnter st ops (current_state_ m)).

(** The first transition whose condition holds. *)
Fixpoint take_first (ts : list Transition) (e : Event) : cpp Machine unit :=
  match ts with
  | [] => mret tt
  | t :: ts' =>
      holds ← match condition t with None => mret true | Some c => c e end;
      if (holds : bool) then
        match action t with None => mret tt | Some a => a ops e end ;;
        if decide (is_Some (states_ g !! target t)) then PerformTransition (target t) else mret tt
      else take_first ts' e
  end.

(** The state may have changed while it handled the event; a machine that has been stopped
    has none, and the null pointer is followed. *)
Definition ProcessEvent (e : Event) : cpp Machine unit :=
  m ← get;
  match current_state_ m with
  | None => mret tt
  | Some q =>
      handled ← call q (fun st => OnEvent st ops e);
      if (handled : bool) then mret tt else
      m ← get;
      match current_state_ m with
      | None => undefined "null state"
      | Some q => call q (fun st => match transitions_ st !! ev_id e with None => mret tt | Some ts => take_first ts e end)
      end
  end.

Definition ProcessPendingEvents : cpp Machine unit :=
  m ← get;
  modify (set_pending []) ;;
  iterM ProcessEvent (pending_events_ m).

Definition Start (now : Z) : cpp Machine bool :=
  if String.eqb (initial_state_id_ g) "" then mret false else
  if decide (is_Some (states_ g !! initial_state_id_ g)) then
    modify (set_current (Some (initial_state_id_ g))) ;;
    call (initial_state_id_ g) (fun st => OnEnter st ops None) ;;
    modify (set_running true) ;;
    modify (set_time now) ;;
    mret true
  else mret false.

Definition Stop : cpp Machine unit :=
  m ← get;
  (match current_state_ m with
   | Some q => if running_ m then call q (fun st => OnExit st ops None) ;; modify (set_current None) else mret tt
   | None => mret tt
   end) ;;
  modify (set_running false).

Definition Update (now : Z) : cpp Machine unit :=
  m ← get;
  match current_state_ m with
  | Some q =>
      if running_ m then
        modify (set_time now) ;;
        call q (fun st => OnUpdate st ops (seconds (now - last_update_time_ m))) ;;
        ProcessPendingEvents
      else mret tt
  | None => mret tt
  end.

Definition SendEvent (e : Event) (immediate : bool) : cpp Machine unit :=
  if immediate then ProcessEvent e else modify (fun m => set_pending (pending_events_ m ++ [e]) m).

Definition ForceTransition (q : StateID) : cpp Machine bool :=
  if decide (is_Some (states_ g !! q)) then PerformTransition q ;; mret true else mret false.
End operations.

(** What a handler may call when calls may be nested [depth] deep. *)
Fixpoint engine_ops (g : Engine) (depth : nat) : Ops :=
  match depth with
  | O => mkOps (fun _ _ => block) (fun _ => block) block
  | S depth' =>
      let ops := engine_ops g depth' in
      mkOps (SendEvent g ops) (ForceTransition g ops) (Stop g ops)
  end.

Definition GetCurrentState (m : Machine) : option StateID := current_state_ m.
Definition GetContext (m : Machine) : Context := context_ m.
Definition IsRunning (m : Machine) : bool := running_ m.
End engine.
Arguments Machine : clear implicits.
Arguments Ops : clear implicits.
Arguments Transition : clear implicits.
Arguments State : clear implicits.
Arguments Engine : clear implicits.
