(* ===== verification/TcpMachine.v ===== *)
(** * TcpMachine: connections as a state machine

    Models src/zsxq-cpp-ai/StdStateMachine/protocol_example.cpp: the states of a TCP
    connection as states of the engine, their timers, and the two demonstrations. *)

From Stdlib Require Import Floats.SpecFloat.
From S2P Require Import Prelude StateMachine.

Local Open Scope Z_scope.
Local Open Scope string_scope.

Module Tcp.
(** The members of the state objects. *)
Record Fields : Type := mkFields {
  listen_time_ : float;
  retry_count_ : Z; timeout_ : float;
  data_sent_ : Z; data_received_ : Z; send_queue_ : list string; send_timer_ : float; connection_time_ : float;
  close_wait_time_ : float;
  time_wait_time_ : float }.
Definition Fields_new : Fields := mkFields float_zero 0 float_zero 0 0 [] float_zero float_zero float_zero float_zero.

Definition set_listen (t : float) (d : Fields) : Fields :=
  mkFields t (retry_count_ d) (timeout_ d) (data_sent_ d) (data_received_ d) (send_queue_ d) (send_timer_ d) (connection_time_ d) (close_wait_time_ d) (time_wait_time_ d).
Definition set_syn (n : Z) (t : float) (d : Fields) : Fields :=
  mkFields (listen_time_ d) n t (data_sent_ d) (data_received_ d) (send_queue_ d) (send_timer_ d) (connection_time_ d) (close_wait_time_ d) (time_wait_time_ d).
Definition set_data (sent received : Z) (q : list string) (d : Fields) : Fields :=
  mkFields (listen_time_ d) (retry_count_ d) (timeout_ d) sent received q (send_timer_ d) (connection_time_ d) (close_wait_time_ d) (time_wait_time_ d).
Definition set_timers (send conn : float) (d : Fields) : Fields :=
  mkFields (listen_time_ d) (retry_count_ d) (timeout_ d) (data_sent_ d) (data_received_ d) (send_queue_ d) send conn (close_wait_time_ d) (time_wait_time_ d).
Definition set_close_wait (t : float) (d : Fields) : Fields :=
  mkFields (listen_time_ d) (retry_count_ d) (timeout_ d) (data_sent_ d) (data_received_ d) (send_queue_ d) (send_timer_ d) (connection_time_ d) t (time_wait_time_ d).
Definition set_time_wait (t : float) (d : Fields) : Fields :=
  mkFields (listen_time_ d) (retry_count_ d) (timeout_ d) (data_sent_ d) (data_received_ d) (send_queue_ d) (send_timer_ d) (connection_time_ d) (close_wait_time_ d) t.

Abbreviation M := (Machine Fields).
Abbreviation handler := (Ops Fields).

(** [a > b] and [a >= b]. *)
Definition gt (a b : float) : bool := SFltb b a.
Definition ge (a b : float) : bool := SFleb b a.
Definition half : float := float_div (float_of 1) (float_of 2).

Definition ctx_set (key : string) (a : Any) : cpp M unit := modify (on_context (Context.Set_ key a)).
Definition ctx_remove (key : string) : cpp M unit := modify (on_context (Context.Remove key)).
Definition change (f : Fields -> Fields) : cpp M unit := modify (on_fields f).

Definition with_handlers (q : State Fields) (enter : handler -> option StateID -> cpp M unit) (update : handler -> float -> cpp M unit)
    (on_event : handler -> Event -> cpp M bool) : State Fields :=
  mkState (id_ q) (name_ q) (transitions_ q) enter (OnExit q) update on_event.

(** ** The states *)

Definition closed_enter (_ : handler) (_ : option StateID) : cpp M unit :=
  ctx_remove "remote_address" ;; ctx_remove "remote_port" ;; ctx_set "connection_id" (AnyInt 0).
Definition closed_event (_ : handler) (_ : Event) : cpp M bool := mret false.
Definition ClosedState : State Fields := with_handlers (State_new "closed" "关闭状态") closed_enter base_OnUpdate closed_event.

Definition listen_enter (_ : handler) (_ : option StateID) : cpp M unit :=
  change (set_listen float_zero) ;; ctx_set "listen_port" (AnyInt 8080).
Definition listen_update (o : handler) (dt : float) : cpp M unit :=
  d ← gets fields;
  let t := float_add (listen_time_ d) dt in
  change (set_listen t) ;;
  if gt t (float_of 2) then
    change (set_listen float_zero) ;;
    op_send o (SetData (AnyString "192.168.1.100:5000") (Event_new "recv_syn")) true
  else mret tt.
Definition ListenState : State Fields := with_handlers (State_new "listen" "监听状态") listen_enter listen_update base_OnEvent.

Definition syn_sent_enter (_ : handler) (_ : option StateID) : cpp M unit := change (set_syn 0 float_zero).
Definition syn_sent_update (o : handler) (dt : float) : cpp M unit :=
  d ← gets fields;
  let t := float_add (timeout_ d) dt in
  change (set_syn (retry_count_ d) t) ;;
  if gt t (float_of 3) then
    change (set_syn (retry_count_ d + 1) float_zero) ;;
    if (3 <? retry_count_ d + 1)%Z then op_send o (Event_new "timeout") true else mret tt
  else mret tt.
Definition SynSentState : State Fields := with_handlers (State_new "syn_sent" "SYN已发送") syn_sent_enter syn_sent_update base_OnEvent.

(** States that wait for a timer in the context and then send an event. *)
Definition timer_update (key : string) (limit : float) (id : EventID) (o : handler) (dt : float) : cpp M unit :=
  c ← gets context_;
  match Context.Get cast_float key c with
  | None => mret tt
  | Some t =>
      let t' := float_add t dt in
      ctx_set key (AnyFloat t') ;;
      if ge t' limit then ctx_remove key ;; op_send o (Event_new id) true else mret tt
  end.
Definition timer_enter (key : string) (_ : handler) (_ : option StateID) : cpp M unit := ctx_set key (AnyFloat float_zero).

Definition syn_received_enter (o : handler) (from : option StateID) : cpp M unit :=
  (if bool_decide (from = Some "listen") then ctx_set "remote_address" (AnyString "192.168.1.100:5000") else mret tt) ;;
  timer_enter "syn_recv_timer" o from.
Definition SynReceivedState : State Fields :=
  with_handlers (State_new "syn_received" "SYN已接收") syn_received_enter (timer_update "syn_recv_timer" half "recv_ack") base_OnEvent.

Definition established_enter (_ : handler) (_ : option StateID) : cpp M unit :=
  change (set_timers float_zero float_zero) ;;
  ctx_set "data_sent" (AnyInt 0) ;; ctx_set "data_received" (AnyInt 0) ;;
  change (fun d => set_data (data_sent_ d) (data_received_ d)
    (send_queue_ d ++ ["Hello, Server!"; "This is a test message."; "Connection working properly."]) d).
(** A message is sent and its answer received; [data_sent_ += msg.length()] is computed as a
    [size_t]. *)
Definition send_one (msg : string) (rest : list string) : cpp M unit :=
  d ← gets fields;
  let sent := to_int (data_sent_ d + Z.of_nat (String.length msg)) in
  let received := to_int (data_received_ d + Z.of_nat (String.length ("ACK: " +:+ msg))) in
  change (set_data sent received rest) ;;
  ctx_set "data_sent" (AnyInt sent) ;; ctx_set "data_received" (AnyInt received).
Definition established_update (o : handler) (dt : float) : cpp M unit :=
  d ← gets fields;
  let t := float_add (send_timer_ d) dt in
  let c := float_add (connection_time_ d) dt in
  change (set_timers t c) ;;
  (match send_queue_ d with
   | msg :: rest => if ge t (float_of 1) then change (set_timers float_zero c) ;; send_one msg rest else mret tt
   | [] => mret tt
   end) ;;
  if gt c (float_of 5) then
    change (fun d => set_timers (send_timer_ d) float_zero d) ;;
    op_send o (Event_new "close") true
  else mret tt.
Definition established_event (_ : handler) (e : Event) : cpp M bool :=
  if String.eqb (ev_id e) "send_data" then
    match GetData cast_string e with
    | Some msg => change (fun d => set_data (data_sent_ d) (data_received_ d) (send_queue_ d ++ [msg]) d) ;; mret true
    | None => mret false
    end
  else mret false.
Definition EstablishedState : State Fields := with_handlers (State_new "established" "已建立连接") established_enter established_update established_event.

Definition FinWait1State : State Fields :=
  with_handlers (State_new "fin_wait_1" "FIN等待1") (timer_enter "fin_wait1_timer") (timer_update "fin_wait1_timer" half "recv_ack") base_OnEvent.
Definition FinWait2State : State Fields :=
  with_handlers (State_new "fin_wait_2" "FIN等待2") (timer_enter "fin_wait2_timer") (timer_update "fin_wait2_timer" (float_of 1) "recv_fin") base_OnEvent.

Definition close_wait_enter (_ : handler) (_ : option StateID) : cpp M unit := change (set_close_wait float_zero).
Definition close_wait_update (o : handler) (dt : float) : cpp M unit :=
  d ← gets fields;
  let t := float_add (close_wait_time_ d) dt in
  change (set_close_wait t) ;;
  if ge t (float_of 1) then op_send o (Event_new "close") true else mret tt.
Definition CloseWaitState : State Fields := with_handlers (State_new "close_wait" "CLOSE_WAIT") close_wait_enter close_wait_update base_OnEvent.

Definition LastAckState : State Fields :=
  with_handlers (State_new "last_ack" "LAST_ACK") (timer_enter "last_ack_timer") (timer_update "last_ack_timer" half "recv_ack") base_OnEvent.
Definition ClosingState : State Fields :=
  with_handlers (State_new "closing" "CLOSING") (timer_enter "closing_timer") (timer_update "closing_timer" half "recv_ack") base_OnEvent.

Definition time_wait_enter (_ : handler) (_ : option StateID) : cpp M unit := change (set_time_wait float_zero).
Definition time_wait_update (o : handler) (dt : float) : cpp M unit :=
  d ← gets fields;
  let t := float_add (time_wait_time_ d) dt in
  change (set_time_wait t) ;;
  if ge t (float_of 2) then op_send o (Event_new "timeout") true else mret tt.
Definition TimeWaitState : State Fields := with_handlers (State_new "time_wait" "时间等待") time_wait_enter time_wait_update base_OnEvent.

(** ** The machine *)

(** The actions of two transitions only print. *)
Definition printing (e : EventID) (q : StateID) : Transition Fields := mkTransition e q None (Some (fun _ _ => mret tt)).
Definition go (e : EventID) (q : StateID) : Transition Fields := Transition_new e q.

Definition CreateTCPStateMachine : Engine Fields :=
  let closed := AddTransition (go "active_open" "syn_sent") (AddTransition (go "passive_open" "listen") ClosedState) in
  let listen := AddTransition (go "close" "closed") (AddTransition (printing "recv_syn" "syn_received") ListenState) in
  let syn_sent := AddTransition (go "timeout" "closed") (AddTransition (printing "recv_syn_ack" "established") SynSentState) in
  let syn_received := AddTransition (go "timeout" "closed") (AddTransition (go "recv_ack" "established") SynReceivedState) in
  let established := AddTransition (go "recv_fin" "close_wait") (AddTransition (go "close" "fin_wait_1") EstablishedState) in
  let fin_wait_1 := AddTransition (go "recv_fin_ack" "time_wait") (AddTransition (go "recv_fin" "closing") (AddTransition (go "recv_ack" "fin_wait_2") FinWait1State)) in
  let fin_wait_2 := AddTransition (go "recv_fin" "time_wait") FinWait2State in
  let close_wait := AddTransition (go "close" "last_ack") CloseWaitState in
  let last_ack := AddTransition (go "recv_ack" "closed") LastAckState in
  let closing := AddTransition (go "recv_ack" "time_wait") ClosingState in
  let time_wait := AddTransition (go "timeout" "closed") TimeWaitState in
  SetInitialState "closed"
    (AddState closing (AddState last_ack (AddState close_wait (AddState time_wait (AddState fin_wait_2 (AddState fin_wait_1
      (AddState established (AddState syn_received (AddState syn_sent (AddState listen (AddState closed (Engine_new "TCP协议状态机")))))))))))).

(** Handlers call the engine, whose handlers do not call it again. *)
Definition tcp_ops : handler := engine_ops CreateTCPStateMachine 2.

(** ** The demonstrations *)

(** Clock readings are arguments: at the start and at each turn. *)
Fixpoint server_loop (turns : list Z) : cpp M unit :=
  match turns with
  | [] => mret tt
  | now :: turns' =>
      r ← gets running_;
      if (r : bool) then Update CreateTCPStateMachine tcp_ops now ;; server_loop turns' else mret tt
  end.
Definition stop_if_running : cpp M unit :=
  r ← gets running_; if (r : bool) then Stop CreateTCPStateMachine tcp_ops else mret tt.
(** [turns]: the 100 readings of the loop. *)
Definition demonstrateTCPConnection (start : Z) (turns : list Z) : cpp M unit :=
  ok ← Start CreateTCPStateMachine tcp_ops start;
  if negb ok then mret tt else
  SendEvent CreateTCPStateMachine tcp_ops (Event_new "passive_open") true ;;
  server_loop turns ;;
  stop_if_running.

Fixpoint client_loop (i : Z) (turns : list Z) : cpp M unit :=
  match turns with
  | [] => mret tt
  | now :: turns' =>
      r ← gets running_;
      if negb r then mret tt else
      Update CreateTCPStateMachine tcp_ops now ;;
      (if (i =? 10)%Z then
         c ← gets context_;
         if bool_decide (Context.Get cast_bool "wait_syn_ack" c = Some true) then
           SendEvent CreateTCPStateMachine tcp_ops (Event_new "recv_syn_ack") true ;;
           ctx_set "wait_syn_ack" (AnyBool false)
         else mret tt
       else mret tt) ;;
      (if (i =? 20)%Z then
         q ← gets current_state_;
         match q with
         | None => undefined "null state"
         | Some q => if String.eqb q "established" then
             SendEvent CreateTCPStateMachine tcp_ops (SetData (AnyString "Custom data from client") (Event_new "send_data")) true
           else mret tt
         end
       else mret tt) ;;
      client_loop (i + 1) turns'
  end.
Definition demonstrateActiveConnection (start : Z) (turns : list Z) : cpp M unit :=
  ok ← Start CreateTCPStateMachine tcp_ops start;
  if negb ok then mret tt else
  SendEvent CreateTCPStateMachine tcp_ops (Event_new "active_open") true ;;
  ctx_set "wait_syn_ack" (AnyBool true) ;; ctx_set "syn_ack_timer" (AnyFloat float_zero) ;;
  client_loop 0 turns ;;
  stop_if_running.
End Tcp.

(** ** The connection follows its diagram

    An abstract machine of eleven phases with the edges of the diagram, an event queue and a
    flag; the engine with the states of the example is shown to implement it, whatever is
    called, whenever, and whatever the clock says. *)

Import Tcp.

(** ** The diagram *)

Inductive phase : Set :=
  CLOSED | LISTEN | SYN_SENT | SYN_RECEIVED | ESTABLISHED | FIN_WAIT_1 | FIN_WAIT_2 | CLOSE_WAIT | LAST_ACK | CLOSING | TIME_WAIT.

Definition phase_id (q : phase) : StateID :=
  match q with
  | CLOSED => "closed" | LISTEN => "listen" | SYN_SENT => "syn_sent" | SYN_RECEIVED => "syn_received" | ESTABLISHED => "established"
  | FIN_WAIT_1 => "fin_wait_1" | FIN_WAIT_2 => "fin_wait_2" | CLOSE_WAIT => "close_wait" | LAST_ACK => "last_ack" | CLOSING => "closing" | TIME_WAIT => "time_wait"
  end.

(** Where an event leads. *)
Definition edges (q : phase) : list (EventID * phase) :=
  match q with
  | CLOSED => [("passive_open", LISTEN); ("active_open", SYN_SENT)]
  | LISTEN => [("recv_syn", SYN_RECEIVED); ("close", CLOSED)]
  | SYN_SENT => [("recv_syn_ack", ESTABLISHED); ("timeout", CLOSED)]
  | SYN_RECEIVED => [("recv_ack", ESTABLISHED); ("timeout", CLOSED)]
  | ESTABLISHED => [("close", FIN_WAIT_1); ("recv_fin", CLOSE_WAIT)]
  | FIN_WAIT_1 => [("recv_ack", FIN_WAIT_2); ("recv_fin", CLOSING); ("recv_fin_ack", TIME_WAIT)]
  | FIN_WAIT_2 => [("recv_fin", TIME_WAIT)]
  | CLOSE_WAIT => [("close", LAST_ACK)]
  | LAST_ACK => [("recv_ack", CLOSED)]
  | CLOSING => [("recv_ack", TIME_WAIT)]
  | TIME_WAIT => [("timeout", CLOSED)]
  end.
Definition edge (q : phase) (e : EventID) : option phase := snd <$> find_first (fun x => String.eqb x.1 e) (edges q).
Definition next (q : phase) (e : EventID) : phase := default q (edge q e).

(** What the timer of a phase does when it runs out. *)
Definition timer_event (q : phase) : option EventID :=
  match q with
  | CLOSED => None | LISTEN => Some "recv_syn" | SYN_SENT => Some "timeout" | ESTABLISHED => Some "close" | FIN_WAIT_2 => Some "recv_fin"
  | CLOSE_WAIT => Some "close" | TIME_WAIT => Some "timeout" | SYN_RECEIVED | FIN_WAIT_1 | LAST_ACK | CLOSING => Some "recv_ack"
  end.

Record Spec : Type := mkSpec { s_phase : option phase; s_running : bool; s_queue : list EventID }.

(** What is called. *)
Inductive op : Type := OpStart (now : Z) | OpStop | OpSend (e : Event) | OpQueue (e : Event) | OpUpdate (now : Z) | OpForce (q : StateID).

Inductive spec_step : Spec -> op -> Spec -> Prop :=
  | spec_start s now : spec_step s (OpStart now) (mkSpec (Some CLOSED) true (s_queue s))
  | spec_stop s : spec_step s OpStop (mkSpec (if s_running s then None else s_phase s) false (s_queue s))
  | spec_send s e : spec_step s (OpSend e) (mkSpec ((fun q => next q (ev_id e)) <$> s_phase s) (s_running s) (s_queue s))
  | spec_queue s e : spec_step s (OpQueue e) (mkSpec (s_phase s) (s_running s) (s_queue s ++ [ev_id e]))
  | spec_update s now q timer : s_running s = true -> s_phase s = Some q -> (timer = [] \/ exists e, timer_event q = Some e /\ timer = [e]) ->
      spec_step s (OpUpdate now) (mkSpec (Some (foldl next q (timer ++ s_queue s))) true [])
  | spec_update_idle s now : s_running s = false \/ s_phase s = None -> spec_step s (OpUpdate now) s
  | spec_force s q : spec_step s (OpForce (phase_id q)) (mkSpec (Some q) (s_running s) (s_queue s))
  | spec_force_unknown s id : (forall q, id <> phase_id q) -> spec_step s (OpForce id) s.

Inductive spec_run : Spec -> list op -> Spec -> Prop :=
  | spec_run_nil s : spec_run s [] s
  | spec_run_cons s o s1 l s2 : spec_step s o s1 -> spec_run s1 l s2 -> spec_run s (o :: l) s2.

(** The calls. *)
Abbreviation tcp := CreateTCPStateMachine.
Definition exec (o : op) : cpp M unit :=
  match o with
  | OpStart now => Start tcp tcp_ops now ;; mret tt
  | OpStop => Stop tcp tcp_ops
  | OpSend e => SendEvent tcp tcp_ops e true
  | OpQueue e => SendEvent tcp tcp_ops e false
  | OpUpdate now => Update tcp tcp_ops now
  | OpForce q => ForceTransition tcp tcp_ops q ;; mret tt
  end.

(** The machine is in a state of the abstract machine. *)
Record stands_for (m : M) (s : Spec) : Prop := mkStandsFor {
  sf_phase : current_state_ m = phase_id <$> s_phase s;
  sf_running : running_ m = s_running s;
  sf_queue : ev_id <$> pending_events_ m = s_queue s }.

(** ** Handlers *)

(** A call that returns and touches context and fields only. *)
Definition core (m : M) : option StateID * bool * list Event := (current_state_ m, running_ m, pending_events_ m).
Definition quiet {A} (f : cpp M A) : Prop := forall m, returns f m (fun _ m' => core m' = core m).

Lemma quiet_ret {A} (a : A) : quiet (mret a).
Proof. intros m. by apply returns_ret. Qed.
Lemma quiet_bind {A B} (f : cpp M A) (k : A -> cpp M B) : quiet f -> (forall a, quiet (k a)) -> quiet (f ≫= k).
Proof.
  intros Hf Hk m. apply returns_bind. eapply returns_mono; [apply Hf|]. intros a m' E. eapply returns_mono; [apply Hk|]. cbn. by intros _ m'' ->.
Qed.
Lemma quiet_change f : quiet (change f).
Proof. intros m. by apply returns_modify. Qed.
Lemma quiet_ctx_set k a : quiet (ctx_set k a).
Proof. intros m. by apply returns_modify. Qed.
Lemma quiet_ctx_remove k : quiet (ctx_remove k).
Proof. intros m. by apply returns_modify. Qed.
Lemma quiet_gets {A} (f : M -> A) : quiet (gets f).
Proof. intros m. by apply returns_gets. Qed.
#[local] Hint Resolve quiet_ret quiet_bind quiet_change quiet_ctx_set quiet_ctx_remove quiet_gets : cpp.

(** Solves quietness of straight-line code with tests. *)
Ltac solve_quiet :=
  repeat first [ apply quiet_ret | apply quiet_change | apply quiet_ctx_set | apply quiet_ctx_remove | apply quiet_gets
               | apply quiet_bind; [|intros ?] | match goal with |- quiet (if ?b then _ else _) => destruct b | |- quiet (match ?x with _ => _ end) => destruct x end ].

(** A call that is quiet and then, maybe, sends an event. *)
Definition quiet_send (o : Ops Fields) (id : EventID) (f : cpp M unit) : Prop := forall m, exists m1, core m1 = core m /\
  (f m = Ok tt m1 \/ exists e, ev_id e = id /\ f m = op_send o e true m1).

Lemma quiet_send_bind {A} o id (f : cpp M A) (k : A -> cpp M unit) : quiet f -> (forall a, quiet_send o id (k a)) -> quiet_send o id (f ≫= k).
Proof.
  intros Hf Hk m. destruct (Hf m) as (a & m1 & E1 & H1). destruct (Hk a m1) as (m2 & H2 & Hor). exists m2. split; [congruence|].
  rewrite (bind_Ok _ _ _ _ _ E1). done.
Qed.
Lemma quiet_send_ret o id : quiet_send o id (mret tt).
Proof. intros m. exists m. split; [done|]. by left. Qed.
Lemma quiet_send_send o e : quiet_send o (ev_id e) (op_send o e true).
Proof. intros m. exists m. split; [done|]. right. by exists e. Qed.

Ltac solve_quiet_send :=
  repeat first [ apply quiet_send_ret | apply quiet_send_send | apply (quiet_send_send _ (Event_new _)) | apply (quiet_send_send _ (SetData _ (Event_new _)))
               | apply quiet_send_bind; [solve [solve_quiet]|intros ?]
               | match goal with |- quiet_send _ _ (if ?b then _ else _) => destruct b | |- quiet_send _ _ (match ?x with _ => _ end) => destruct x end ].

Lemma timer_update_quiet key limit id o dt : quiet_send o id (timer_update key limit id o dt).
Proof. unfold timer_update. solve_quiet_send. Qed.
Lemma listen_update_quiet o dt : quiet_send o "recv_syn" (listen_update o dt).
Proof. unfold listen_update. solve_quiet_send. Qed.
Lemma syn_sent_update_quiet o dt : quiet_send o "timeout" (syn_sent_update o dt).
Proof. unfold syn_sent_update. solve_quiet_send. Qed.
Lemma close_wait_update_quiet o dt : quiet_send o "close" (close_wait_update o dt).
Proof. unfold close_wait_update. solve_quiet_send. Qed.
Lemma time_wait_update_quiet o dt : quiet_send o "timeout" (time_wait_update o dt).
Proof. unfold time_wait_update. solve_quiet_send. Qed.
Lemma established_update_quiet o dt : quiet_send o "close" (established_update o dt).
Proof. unfold established_update, send_one. solve_quiet_send. Qed.

(** ** The states of the machine *)

Definition state_at (q : phase) : State Fields :=
  match q with
  | CLOSED => AddTransition (go "active_open" "syn_sent") (AddTransition (go "passive_open" "listen") ClosedState)
  | LISTEN => AddTransition (go "close" "closed") (AddTransition (printing "recv_syn" "syn_received") ListenState)
  | SYN_SENT => AddTransition (go "timeout" "closed") (AddTransition (printing "recv_syn_ack" "established") SynSentState)
  | SYN_RECEIVED => AddTransition (go "timeout" "closed") (AddTransition (go "recv_ack" "established") SynReceivedState)
  | ESTABLISHED => AddTransition (go "recv_fin" "close_wait") (AddTransition (go "close" "fin_wait_1") EstablishedState)
  | FIN_WAIT_1 => AddTransition (go "recv_fin_ack" "time_wait") (AddTransition (go "recv_fin" "closing") (AddTransition (go "recv_ack" "fin_wait_2") FinWait1State))
  | FIN_WAIT_2 => AddTransition (go "recv_fin" "time_wait") FinWait2State
  | CLOSE_WAIT => AddTransition (go "close" "last_ack") CloseWaitState
  | LAST_ACK => AddTransition (go "recv_ack" "closed") LastAckState
  | CLOSING => AddTransition (go "recv_ack" "time_wait") ClosingState
  | TIME_WAIT => AddTransition (go "timeout" "closed") TimeWaitState
  end.

Lemma states_lookup id : states_ tcp !! id = state_at <$> find_first (fun q => String.eqb (phase_id q) id)
  [CLOSED; LISTEN; SYN_SENT; SYN_RECEIVED; ESTABLISHED; FIN_WAIT_1; FIN_WAIT_2; CLOSE_WAIT; LAST_ACK; CLOSING; TIME_WAIT].
Proof.
  unfold CreateTCPStateMachine. cbn [SetInitialState AddState states_ engine_name initial_state_id_ Engine_new].
  cbn [id_ AddTransition ClosedState ListenState SynSentState SynReceivedState EstablishedState FinWait1State FinWait2State CloseWaitState LastAckState ClosingState TimeWaitState with_handlers State_new find_first phase_id].
  repeat match goal with |- context [String.eqb ?k id] => destruct (String.eqb_spec k id) as [<-|?] end; by simplify_map_eq.
Qed.
Lemma states_at q : states_ tcp !! phase_id q = Some (state_at q).
Proof. rewrite states_lookup. by destruct q. Qed.
Lemma states_none id : (forall q, id <> phase_id q) -> states_ tcp !! id = None.
Proof.
  intros H. rewrite states_lookup. destruct (find_first _ _) as [q|] eqn:E; [|done]. apply find_first_Some in E as [_ E]. apply String.eqb_eq in E. by destruct (H q).
Qed.
Lemma phase_of id : (exists q, id = phase_id q) \/ (forall q, id <> phase_id q).
Proof.
  destruct (find_first (fun q => String.eqb (phase_id q) id) [CLOSED; LISTEN; SYN_SENT; SYN_RECEIVED; ESTABLISHED; FIN_WAIT_1; FIN_WAIT_2; CLOSE_WAIT; LAST_ACK; CLOSING; TIME_WAIT]) as [q|] eqn:E.
  - apply find_first_Some in E as [_ E]. apply String.eqb_eq in E. left. by exists q.
  - right. intros q ->. rewrite find_first_None in E. specialize (E q). rewrite String.eqb_refl in E.
    assert (H : true = false) by (apply E; destruct q; rewrite !elem_of_cons; tauto). done.
Qed.

(** The transitions of a state are the edges of the diagram. *)
Lemma transitions_at q e : match edge q e with
  | None => transitions_ (state_at q) !! e = None
  | Some p => exists t, transitions_ (state_at q) !! e = Some [t] /\ condition t = None /\ target t = phase_id p /\ (action t = None \/ action t = Some (fun _ _ => mret tt))
  end.
Proof.
  unfold edge. destruct q; cbn [edges find_first fst snd];
  repeat match goal with |- context [String.eqb ?k e] => destruct (String.eqb_spec k e) as [<-|?] end; cbn [fmap option_fmap option_map snd].
  all: cbn [state_at AddTransition transitions_ go printing Transition_new event target ClosedState ListenState SynSentState SynReceivedState EstablishedState FinWait1State FinWait2State CloseWaitState LastAckState ClosingState TimeWaitState with_handlers State_new].
  all: simplify_map_eq; first [done|eexists; split; [reflexivity|]; split; [done|]; split; [done|]; by auto].
Qed.

Lemma enter_quiet q o from : quiet (OnEnter (state_at q) o from).
Proof.
  destruct q; cbn [state_at AddTransition OnEnter ClosedState ListenState SynSentState SynReceivedState EstablishedState FinWait1State FinWait2State CloseWaitState LastAckState ClosingState TimeWaitState with_handlers];
    unfold closed_enter, listen_enter, syn_sent_enter, syn_received_enter, established_enter, timer_enter, close_wait_enter, time_wait_enter; solve_quiet.
Qed.
Lemma exit_quiet q o to : quiet (OnExit (state_at q) o to).
Proof. destruct q; intros m; by apply returns_ret. Qed.
Lemma event_quiet q o e m : returns (OnEvent (state_at q) o e) m (fun b m' => core m' = core m /\ (b = true -> edge q (ev_id e) = None)).
Proof.
  destruct q; try (by apply returns_ret). cbn [state_at AddTransition OnEvent EstablishedState with_handlers]. unfold established_event.
  destruct (String.eqb_spec (ev_id e) "send_data") as [E|]; [|by apply returns_ret]. destruct (GetData cast_string e); [|by apply returns_ret].
  wp_step. eapply returns_mono; [apply quiet_change|]. intros [] m' Hm. apply returns_ret. split; [done|]. by rewrite E.
Qed.
Lemma update_quiet q o dt : match timer_event q with Some id => quiet_send o id (OnUpdate (state_at q) o dt) | None => quiet (OnUpdate (state_at q) o dt) end.
Proof.
  destruct q; cbn [timer_event state_at AddTransition OnUpdate ClosedState ListenState SynSentState SynReceivedState EstablishedState FinWait1State FinWait2State CloseWaitState LastAckState ClosingState TimeWaitState with_handlers].
  - apply quiet_ret.
  - apply listen_update_quiet.
  - apply syn_sent_update_quiet.
  - apply timer_update_quiet.
  - apply established_update_quiet.
  - apply timer_update_quiet.
  - apply timer_update_quiet.
  - apply close_wait_update_quiet.
  - apply timer_update_quiet.
  - apply timer_update_quiet.
  - apply time_wait_update_quiet.
Qed.

(** ** The engine *)

Lemma call_at {A} q (f : State Fields -> cpp M A) : call tcp (phase_id q) f = f (state_at q).
Proof. unfold call. by rewrite states_at. Qed.

Lemma perform_spec o q m : returns (PerformTransition tcp o (phase_id q)) m (fun _ m' => core m' = (Some (phase_id q), running_ m, pending_events_ m)) \/
  (exists p, current_state_ m = Some p /\ forall r, p <> phase_id r).
Proof.
  destruct (current_state_ m) as [id|] eqn:E.
  - destruct (phase_of id) as [[p ->]|Hno]; [left|right; by exists id]. unfold PerformTransition. wp_step. eapply returns_Ok; [reflexivity|]. rewrite E, call_at.
    wp_step. eapply returns_mono; [apply exit_quiet|]. intros [] m1 E1. wp_step. eapply returns_Ok; [reflexivity|]. wp_step. wp_step. rewrite call_at.
    eapply returns_mono; [apply enter_quiet|]. intros [] m2 E2. unfold core in *. cbn in *. congruence.
  - left. unfold PerformTransition. wp_step. eapply returns_Ok; [reflexivity|]. rewrite E. wp_step. wp_step. wp_step. eapply returns_Ok; [reflexivity|]. wp_step. wp_step.
    rewrite call_at. eapply returns_mono; [apply enter_quiet|]. intros [] m2 E2. unfold core in *. cbn in *. congruence.
Qed.

(** The machine is in a phase, or in none. *)
Definition in_phase (m : M) (q : option phase) : Prop := current_state_ m = phase_id <$> q.

Lemma tcp_perform_ok o q m p : in_phase m p -> returns (PerformTransition tcp o (phase_id q)) m (fun _ m' => core m' = (Some (phase_id q), running_ m, pending_events_ m)).
Proof.
  intros Hp. destruct (perform_spec o q m) as [H|(id & E & Hno)]; [done|]. rewrite Hp in E. destruct p as [p|]; [|done]. injection E as <-. by destruct (Hno p).
Qed.

Lemma process_ok o e m q : in_phase m (Some q) ->
  returns (ProcessEvent tcp o e) m (fun _ m' => core m' = (Some (phase_id (next q (ev_id e))), running_ m, pending_events_ m)).
Proof.
  intros Hq. unfold ProcessEvent. wp_step. eapply returns_Ok; [reflexivity|]. rewrite Hq. cbn [fmap option_fmap option_map]. rewrite call_at.
  wp_step. eapply returns_mono; [apply event_quiet|]. intros b m1 [E1 Hb]. injection E1 as Ec Er Ep. unfold next. destruct b.
  - rewrite (Hb eq_refl). apply returns_ret. unfold core. rewrite Ec, Er, Ep, Hq. done.
  - wp_step. eapply returns_Ok; [reflexivity|]. rewrite Ec, Hq. cbn [fmap option_fmap option_map]. rewrite call_at. pose proof (transitions_at q (ev_id e)) as Ht.
    destruct (edge q (ev_id e)) as [p|].
    + destruct Ht as (t & -> & Econd & Etarget & Haction). cbn [take_first default from_option id]. rewrite Econd. wp_step. wp_step. wp_step.
      assert (Ha : match action t with None => mret tt | Some a => a o e end = (mret tt : cpp M unit)) by (by destruct Haction as [->| ->]).
      rewrite Ha. wp_step. rewrite Etarget, states_at. rewrite decide_True by done. eapply returns_mono; [eapply (tcp_perform_ok o p m1 (Some q)); unfold in_phase; by rewrite Ec, Hq|].
      intros [] m2 E2. by rewrite E2, Er, Ep.
    + rewrite Ht. apply returns_ret. unfold core. rewrite Ec, Er, Ep, Hq. done.
Qed.

Lemma process_none o e m : in_phase m None -> ProcessEvent tcp o e m = Ok tt m.
Proof. intros Hq. unfold ProcessEvent. rewrite (bind_Ok get _ m m m eq_refl), Hq. done. Qed.

Lemma process_all o es m q : in_phase m (Some q) ->
  returns (iterM (ProcessEvent tcp o) es) m (fun _ m' => core m' = (Some (phase_id (foldl next q (ev_id <$> es))), running_ m, pending_events_ m)).
Proof.
  revert m q. induction es as [|e es IH]; intros m q Hq; cbn [iterM].
  - apply returns_ret. unfold core. by rewrite Hq.
  - wp_step. eapply returns_mono; [by apply process_ok|]. intros [] m1 E1. injection E1 as Ec Er Ep.
    eapply returns_mono; [apply (IH m1 (next q (ev_id e))); unfold in_phase; by rewrite Ec|]. intros [] m2 E2. rewrite E2, Er, Ep. done.
Qed.

Lemma tcp_update_ok m q now : in_phase m (Some q) -> running_ m = true ->
  returns (Update tcp tcp_ops now) m (fun _ m' => exists timer, (timer = [] \/ exists e, timer_event q = Some e /\ timer = [e]) /\
    core m' = (Some (phase_id (foldl next q (timer ++ (ev_id <$> pending_events_ m)))), true, [])).
Proof.
  intros Hq Hr. unfold Update. wp_step. eapply returns_Ok; [reflexivity|]. rewrite Hq, Hr. cbn [fmap option_fmap option_map]. rewrite call_at. wp_step. wp_step. wp_step.
  set (m1 := set_time now m). set (dt := seconds _).
  assert (Hup : returns (OnUpdate (state_at q) tcp_ops dt) m1 (fun _ m' => exists timer, (timer = [] \/ exists e, timer_event q = Some e /\ timer = [e]) /\
    core m' = (Some (phase_id (foldl next q timer)), true, pending_events_ m))).
  { pose proof (update_quiet q tcp_ops dt) as Hu. destruct (timer_event q) as [id|].
    - destruct (Hu m1) as (m2 & E2 & [E|(e & Ee & E)]).
      + eapply returns_Ok; [exact E|]. exists []. split; [by left|]. rewrite E2. unfold core. cbn. by rewrite Hq, Hr.
      + unfold returns. rewrite E. change (op_send tcp_ops e true) with (ProcessEvent tcp (engine_ops tcp 1) e). injection E2 as Ec Er Ep.
        eapply returns_mono; [apply (process_ok _ e m2 q); unfold in_phase; by rewrite Ec|]. intros [] m3 E3. exists [id]. split; [right; by exists id|].
        rewrite E3, Er, Ep, Ee, Hr. done.
    - eapply returns_mono; [apply Hu|]. intros [] m2 E2. exists []. split; [by left|]. rewrite E2. unfold core. cbn. by rewrite Hq, Hr. }
  eapply returns_mono; [exact Hup|]. intros [] m2 (timer & Ht & E2). injection E2 as Ec Er Ep. unfold ProcessPendingEvents. wp_step. eapply returns_Ok; [reflexivity|]. wp_step. wp_step.
  eapply returns_mono; [apply (process_all _ _ _ (foldl next q timer)); unfold in_phase; cbn; by rewrite Ec|]. intros [] m3 E3. exists timer. split; [done|].
  rewrite E3, Ep. cbn. rewrite Er. by rewrite foldl_app.
Qed.

(** One call. *)
Lemma exec_ok o m s : stands_for m s -> returns (exec o) m (fun _ m' => exists s', spec_step s o s' /\ stands_for m' s').
Proof.
  intros Hsf. pose proof Hsf as [Hp Hr Hq]. assert (Hin : in_phase m (s_phase s)) by done. destruct o as [now| |e|e|now|id]; cbn [exec].
  - wp_step. unfold Start. change (initial_state_id_ tcp) with (phase_id CLOSED). change (String.eqb (phase_id CLOSED) "") with false. cbv iota. rewrite states_at, decide_True by done.
    wp_step. wp_step. rewrite call_at. wp_step. eapply returns_mono; [apply enter_quiet|]. intros [] m1 E1. injection E1 as Ec Er Ep. repeat wp_step.
    eexists. split; [apply spec_start|]. split; cbn; [done|done|]. by rewrite Ep, Hq.
  - unfold Stop. wp_step. eapply returns_Ok; [reflexivity|]. destruct (s_phase s) as [q|] eqn:Es; rewrite Hp; cbn [fmap option_fmap option_map].
    + destruct (running_ m) eqn:Em.
      * rewrite call_at. wp_step. wp_step. eapply returns_mono; [apply exit_quiet|]. intros [] m1 E1. injection E1 as Ec Er Ep. repeat wp_step.
        eexists. split; [apply spec_stop|]. rewrite <-Hr. split; cbn; [done|done|]. by rewrite Ep, Hq.
      * repeat wp_step. eexists. split; [apply spec_stop|]. rewrite <-Hr, Es. split; cbn; [by rewrite Hp|done|done].
    + repeat wp_step. eexists. split; [apply spec_stop|]. rewrite Es. split; cbn; [|done|done]. rewrite Hp. by destruct (s_running s).
  - cbn [SendEvent]. destruct (s_phase s) as [q|] eqn:Es.
    + eapply returns_mono; [by apply (process_ok _ e m q)|]. intros [] m1 E1. injection E1 as Ec Er Ep. eexists. split; [apply spec_send|]. rewrite Es.
      split; cbn; [by rewrite Ec|congruence|by rewrite Ep].
    + eapply returns_Ok; [by apply process_none|]. eexists. split; [apply spec_send|]. rewrite Es. split; cbn; [by rewrite Hp|done|done].
  - cbn [SendEvent]. wp_step. eexists. split; [apply spec_queue|]. split; cbn; [done|done|]. by rewrite fmap_app, Hq.
  - destruct (s_phase s) as [q|] eqn:Es; [destruct (s_running s) eqn:Er0|].
    + eapply returns_mono; [by apply (tcp_update_ok m q now)|]. intros [] m1 (timer & Ht & E1). injection E1 as Ec Er Ep. rewrite Hq in Ec. eexists. split; [by apply (spec_update s now q timer)|].
      split; cbn; [done|done|by rewrite Ep].
    + unfold Update. wp_step. eapply returns_Ok; [reflexivity|]. rewrite Hp, Hr. cbn. apply returns_ret. exists s. split; [apply spec_update_idle; by left|exact Hsf].
    + unfold Update. wp_step. eapply returns_Ok; [reflexivity|]. rewrite Hp. cbn. apply returns_ret. exists s. split; [apply spec_update_idle; by right|exact Hsf].
  - wp_step. unfold ForceTransition. destruct (phase_of id) as [[q ->]|Hno].
    + rewrite states_at, decide_True by done. wp_step. eapply returns_mono; [by apply (tcp_perform_ok _ q m (s_phase s))|]. intros [] m1 E1. injection E1 as Ec Er Ep. repeat wp_step.
      eexists. split; [apply spec_force|]. split; cbn; [done|congruence|by rewrite Ep].
    + rewrite (states_none _ Hno), decide_False by (intros [? [=]]). repeat wp_step. exists s. split; [by apply spec_force_unknown|done].
Qed.

(** ** Whatever is called *)

Definition execs (l : list op) : cpp M unit := iterM exec l.

Lemma execs_ok l m s : stands_for m s -> returns (execs l) m (fun _ m' => exists s', spec_run s l s' /\ stands_for m' s').
Proof.
  revert m s. induction l as [|o l IH]; intros m s Hs; cbn [execs iterM].
  - apply returns_ret. exists s. split; [constructor|done].
  - wp_step. eapply returns_mono; [by apply exec_ok|]. intros [] m1 (s1 & Hstep & Hs1). eapply returns_mono; [by apply IH|].
    intros [] m2 (s2 & Hrun & Hs2). exists s2. split; [by econstructor|done].
Qed.


(** ** Where the example goes wrong *)

Definition phase_after (l : list op) : option StateID := match execs l (Machine_new Fields_new) with Ok _ m => current_state_ m | _ => None end.
Definition readings (n : nat) (step : Z) : list Z := (fun i => (Z.of_nat i + 1) * step) <$> seq 0 n.

(** With turns of 100 ms the demonstration of the whole life of a connection stops before the
    connection is closed: 100 turns reach TIME_WAIT, 112 would be needed. *)
Lemma demonstration_too_short :
  phase_after (OpStart 0 :: OpSend (Event_new "passive_open") :: (OpUpdate <$> readings 100 100000000)) = Some "time_wait" /\
  phase_after (OpStart 0 :: OpSend (Event_new "passive_open") :: (OpUpdate <$> readings 112 100000000)) = Some "closed".
Proof. split; vm_compute; reflexivity. Qed.

(** A message that the first connection did not send is sent by the next one, and the bytes
    that the first one sent are counted for it. *)
Lemma messages_outlive_connection :
  match execs ([OpStart 0; OpSend (Event_new "active_open"); OpSend (Event_new "recv_syn_ack"); OpUpdate 1000000000; OpSend (Event_new "close");
    OpSend (Event_new "recv_fin_ack"); OpSend (Event_new "timeout"); OpSend (Event_new "active_open"); OpSend (Event_new "recv_syn_ack"); OpUpdate 2000000000])
    (Machine_new Fields_new) with
  | Ok _ m => (context_ m !! "data_sent", length (send_queue_ (fields m))) = (Some (AnyInt 37), 4%nat)
  | _ => False
  end.
Proof. vm_compute. reflexivity. Qed.

(** An event that a state answers by stopping the machine and does not handle: the engine
    follows the null pointer. *)
Definition stopping_state : State unit :=
  let q := State_new "s" "s" in
  mkState (id_ q) (name_ q) (transitions_ q) (OnEnter q) (OnExit q) (OnUpdate q) (fun o _ => op_stop o ;; mret false).
Lemma stop_in_handler_undefined :
  let g := SetInitialState "s" (AddState stopping_state (Engine_new "g")) in
  (Start g (engine_ops g 2) 0 ;; SendEvent g (engine_ops g 2) (Event_new "e") true) (Machine_new tt) = Undefined "null state".
Proof. vm_compute. reflexivity. Qed.
