(* ===== verification/GameMachine.v ===== *)
(** * GameMachine: a character as a state machine

    Models src/zsxq-cpp-ai/StdStateMachine/game_example.cpp: the states of a character of a
    game on the engine, and the program that runs it. Draws of the random distributions are
    two sequences of numbers of type [double], one per class; clock readings are an
    argument. *)

From Stdlib Require Import Floats.SpecFloat.
From S2P Require Import Prelude StateMachine.

Local Open Scope Z_scope.
Local Open Scope string_scope.

Module Game.
(** The members of the state objects, and how many draws have been made. *)
Record Fields : Type := mkFields {
  heal_timer_ : float; attack_count_ : Z; attack_timer_ : float; recovery_time_ : float; death_timer_ : float;
  patrol_drawn : nat; combat_drawn : nat }.
Definition Fields_new : Fields := mkFields float_zero 0 float_zero float_zero float_zero 0 0.
Definition set_heal (t : float) (d : Fields) : Fields := mkFields t (attack_count_ d) (attack_timer_ d) (recovery_time_ d) (death_timer_ d) (patrol_drawn d) (combat_drawn d).
Definition set_attack (n : Z) (t : float) (d : Fields) : Fields := mkFields (heal_timer_ d) n t (recovery_time_ d) (death_timer_ d) (patrol_drawn d) (combat_drawn d).
Definition set_recovery (t : float) (d : Fields) : Fields := mkFields (heal_timer_ d) (attack_count_ d) (attack_timer_ d) t (death_timer_ d) (patrol_drawn d) (combat_drawn d).
Definition set_death (t : float) (d : Fields) : Fields := mkFields (heal_timer_ d) (attack_count_ d) (attack_timer_ d) (recovery_time_ d) t (patrol_drawn d) (combat_drawn d).
Definition drew (p c : nat) (d : Fields) : Fields := mkFields (heal_timer_ d) (attack_count_ d) (attack_timer_ d) (recovery_time_ d) (death_timer_ d) p c.

Abbreviation M := (Machine Fields).
Abbreviation handler := (Ops Fields).

Definition ge (a b : float) : bool := SFleb b a.
Definition gt (a b : float) : bool := SFltb b a.
Definition lt (a b : float) : bool := SFltb a b.

(** Literals of type [double] and [float]: the numbers nearest to a fraction. *)
Definition double_ratio (a b : Z) : float := SFdiv 53 1024 (binary_normalize 53 1024 a 0 false) (binary_normalize 53 1024 b 0 false).
Definition float_ratio (a b : Z) : float := float_div (float_of a) (float_of b).

Definition ctx_set (key : string) (a : Any) : cpp M unit := modify (on_context (Context.Set_ key a)).
Definition ctx_remove (key : string) : cpp M unit := modify (on_context (Context.Remove key)).
Definition ctx_get {A} (cast : Any -> option A) (key : string) : cpp M (option A) := gets (fun m => Context.Get cast key (context_ m)).
Definition change (f : Fields -> Fields) : cpp M unit := modify (on_fields f).

(** [int] arithmetic. *)
Definition int_result (z : Z) : cpp M Z := if decide (is_int z) then mret z else undefined "signed overflow".

Section game.
Variable patrol_dis : nat -> float.
Variable combat_dis : nat -> float.

Definition draw_patrol : cpp M float := d ← gets fields; change (drew (S (patrol_drawn d)) (combat_drawn d)) ;; mret (patrol_dis (patrol_drawn d)).
Definition draw_combat : cpp M float := d ← gets fields; change (drew (patrol_drawn d) (S (combat_drawn d))) ;; mret (combat_dis (combat_drawn d)).

(** A health check is handled by printing. *)
Definition health_check (_ : handler) (e : Event) : cpp M bool := mret (String.eqb (ev_id e) "health_check").

(** ** The states *)

Definition idle_enter (_ : handler) (from : option StateID) : cpp M unit :=
  ctx_set "idle_time" (AnyFloat float_zero) ;;
  change (set_heal float_zero) ;;
  if bool_decide (from = Some "combat") then ctx_remove "current_enemy" else mret tt.
Definition heal : cpp M unit :=
  health ← ctx_get cast_int "health";
  max_health ← ctx_get cast_int "max_health";
  match health, max_health with
  | Some h, Some mx => if (h <? mx)%Z then h' ← int_result (h + 5); ctx_set "health" (AnyInt (Z.min h' mx)) else mret tt
  | _, _ => mret tt
  end.
Definition idle_update (o : handler) (dt : float) : cpp M unit :=
  idle_time ← ctx_get cast_float "idle_time";
  match idle_time with
  | None => mret tt
  | Some t =>
      let t' := float_add t dt in
      ctx_set "idle_time" (AnyFloat t') ;;
      d ← gets fields;
      let h := float_add (heal_timer_ d) dt in
      change (set_heal h) ;;
      (if ge h (float_of 2) then change (set_heal float_zero) ;; heal else mret tt) ;;
      if gt t' (float_of 3) then op_send o (Event_new "start_patrol") true else mret tt
  end.

Definition patrol_enter (_ : handler) (_ : option StateID) : cpp M unit := ctx_set "patrol_distance" (AnyFloat float_zero).
Definition patrol_update (o : handler) (dt : float) : cpp M unit :=
  distance ← ctx_get cast_float "patrol_distance";
  match distance with
  | None => mret tt
  | Some x =>
      ctx_set "patrol_distance" (AnyFloat (float_add x (float_mul dt (float_of 10)))) ;;
      r ← draw_patrol;
      if lt r (double_ratio 8 100) then
        r' ← draw_patrol;
        op_send o (SetData (AnyString (if lt r' (double_ratio 7 10) then "Goblin" else "Orc")) (Event_new "enemy_detected")) true
      else mret tt
  end.

Definition combat_enter (_ : handler) (_ : option StateID) : cpp M unit :=
  change (set_attack 0 float_zero) ;;
  enemy ← ctx_get cast_string "current_enemy";
  (match enemy with None => ctx_set "current_enemy" (AnyString "敌人") | Some _ => mret tt end) ;;
  battles ← ctx_get cast_int "battle_count";
  n ← match battles with Some n => int_result (n + 1) | None => mret 1 end;
  ctx_set "battle_count" (AnyInt n).
Definition is_orc (enemy : option string) : bool := bool_decide (enemy = Some "Orc").
Definition combat_update (o : handler) (dt : float) : cpp M unit :=
  d ← gets fields;
  let t := float_add (attack_timer_ d) dt in
  change (set_attack (attack_count_ d) t) ;;
  if ge t (float_of 1) then
    n ← int_result (attack_count_ d + 1);
    change (set_attack n float_zero) ;;
    enemy ← ctx_get cast_string "current_enemy";
    let hurtChance := if is_orc enemy then float_ratio 7 20 else float_ratio 1 5 in
    r ← draw_combat;
    if lt r (double_of hurtChance) then
      op_send o (SetData (AnyInt (if is_orc enemy then 30 else 20)) (Event_new "take_damage")) true
    else if (3 <=? n)%Z then op_send o (Event_new "enemy_defeated") true
    else mret tt
  else mret tt.

Definition hurt_enter (o : handler) (from : option StateID) : cpp M unit :=
  change (set_recovery float_zero) ;;
  health ← ctx_get cast_int "health";
  (match health with
   | Some h => if bool_decide (from = Some "combat") then
       enemy ← ctx_get cast_string "current_enemy";
       h' ← int_result (h - (if is_orc enemy then 30 else 20));
       ctx_set "health" (AnyInt (Z.max 0 h'))
     else mret tt
   | None => mret tt
   end) ;;
  health ← ctx_get cast_int "health";
  match health with
  | Some h => if (h <=? 0)%Z then op_send o (Event_new "death") true else mret tt
  | None => mret tt
  end.
Definition hurt_update (o : handler) (dt : float) : cpp M unit :=
  d ← gets fields;
  let t := float_add (recovery_time_ d) dt in
  change (set_recovery t) ;;
  if ge t (float_of 2) then op_send o (Event_new "recovery_complete") true else mret tt.

Definition death_enter (_ : handler) (_ : option StateID) : cpp M unit := change (set_death float_zero).
Definition death_update (o : handler) (dt : float) : cpp M unit :=
  d ← gets fields;
  let t := float_add (death_timer_ d) dt in
  change (set_death t) ;;
  if ge t (float_of 1) then op_stop o else mret tt.

Definition with_handlers (q : State Fields) (enter : handler -> option StateID -> cpp M unit) (update : handler -> float -> cpp M unit)
    (on_event : handler -> Event -> cpp M bool) : State Fields :=
  mkState (id_ q) (name_ q) (transitions_ q) enter (OnExit q) update on_event.
Definition IdleState : State Fields := with_handlers (State_new "idle" "待机状态") idle_enter idle_update health_check.
Definition PatrolState : State Fields := with_handlers (State_new "patrol" "巡逻状态") patrol_enter patrol_update health_check.
Definition CombatState : State Fields := with_handlers (State_new "combat" "战斗状态") combat_enter combat_update health_check.
Definition HurtState : State Fields := with_handlers (State_new "hurt" "受伤状态") hurt_enter hurt_update health_check.
Definition DeathState : State Fields := with_handlers (State_new "death" "死亡状态") death_enter death_update base_OnEvent.

(** ** The machine *)

(** The enemy of the event becomes the current one. *)
Definition meet (_ : handler) (e : Event) : cpp M unit :=
  match GetData cast_string e with Some enemy => ctx_set "current_enemy" (AnyString enemy) | None => mret tt end.

Definition CreateCharacterStateMachine : Engine Fields :=
  let idle := AddTransition (mkTransition "enemy_detected" "combat" None (Some meet)) (AddTransition (Transition_new "start_patrol" "patrol") IdleState) in
  let patrol := AddTransition (Transition_new "return_idle" "idle") (AddTransition (mkTransition "enemy_detected" "combat" None (Some meet)) PatrolState) in
  let combat := AddTransition (mkTransition "enemy_defeated" "idle" None (Some (fun _ _ => mret tt))) (AddTransition (Transition_new "take_damage" "hurt") CombatState) in
  let hurt := AddTransition (Transition_new "death" "death") (AddTransition (Transition_new "recovery_complete" "idle") HurtState) in
  SetInitialState "idle" (AddState DeathState (AddState hurt (AddState combat (AddState patrol (AddState idle (Engine_new "游戏角色状态机")))))).

(** The machine with the data of the character. *)
Definition initial_machine : M :=
  on_context (fun c => Context.Set_ "battle_count" (AnyInt 0) (Context.Set_ "attack_power" (AnyInt 10) (Context.Set_ "max_health" (AnyInt 100) (Context.Set_ "health" (AnyInt 80) c))))
    (Machine_new Fields_new).

(** Entering a state may send an event whose transition enters another one. *)
Definition game_ops : handler := engine_ops CreateCharacterStateMachine 3.

(** ** The program *)

Definition maxFrames : Z := 600.
Definition maxBattles : Z := 10.

(** The loop; the number of frames that were run is returned. [now] is the clock at each frame. *)
Fixpoint game_loop (fuel : nat) (frame : Z) (now : Z -> Z) : cpp M Z :=
  match fuel with
  | O => block
  | S fuel' =>
      r ← gets running_;
      if negb r || negb (frame <? maxFrames)%Z then mret frame else
      Update CreateCharacterStateMachine game_ops (now frame) ;;
      battles ← ctx_get cast_int "battle_count";
      if match battles with Some n => (maxBattles <=? n)%Z | None => false end then mret frame else
      (if (frame mod 50 =? 0)%Z then SendEvent CreateCharacterStateMachine game_ops (Event_new "health_check") false else mret tt) ;;
      game_loop fuel' (frame + 1) now
  end.
(** [None] when the machine could not be started. *)
Definition game_main (start : Z) (now : Z -> Z) : cpp M (option Z) :=
  ok ← Start CreateCharacterStateMachine game_ops start;
  if negb ok then mret None else
  frames ← game_loop (S (Z.to_nat maxFrames)) 0 now;
  r ← gets running_;
  (if (r : bool) then Stop CreateCharacterStateMachine game_ops else mret tt) ;;
  mret (Some frames).
End game.
End Game.

(** ** The game ends

    What the character's machine does in each state, and the program as a whole, whatever
    the draws and the clock. *)

Import Game.

Section game.
Variable patrol_dis : nat -> float.
Variable combat_dis : nat -> float.
Abbreviation g := (CreateCharacterStateMachine patrol_dis combat_dis).

(** What is to be seen of a machine: its state, whether it runs, what is queued, the health of
    the character and the number of battles. *)
Record view (m : M) (q : option StateID) (r : bool) (p : list Event) (h b : Z) : Prop := mkView {
  v_state : current_state_ m = q;
  v_running : running_ m = r;
  v_pending : pending_events_ m = p;
  v_health : context_ m !! "health" = Some (AnyInt h);
  v_max : context_ m !! "max_health" = Some (AnyInt 100);
  v_battles : context_ m !! "battle_count" = Some (AnyInt b);
  v_health_range : 0 <= h <= 100;
  v_battles_range : 0 <= b <= 10;
  v_attacks : q = Some "combat" -> 0 <= attack_count_ (fields m) <= 3 }.

Definition own_key (k : string) : bool := String.eqb k "health" || String.eqb k "max_health" || String.eqb k "battle_count".

Lemma own_key_ne k : own_key k = false -> k <> "health" /\ k <> "max_health" /\ k <> "battle_count".
Proof. unfold own_key. intros H. repeat split; intros ->; done. Qed.

Lemma view_set m q r p h b k a : view m q r p h b -> own_key k = false -> view (on_context (Context.Set_ k a) m) q r p h b.
Proof. intros [] (? & ? & ?)%own_key_ne. split; cbn; try done; unfold Context.Set_; by rewrite lookup_insert_ne. Qed.
Lemma view_remove m q r p h b k : view m q r p h b -> own_key k = false -> view (on_context (Context.Remove k) m) q r p h b.
Proof. intros [] (? & ? & ?)%own_key_ne. split; cbn; try done; unfold Context.Remove; by rewrite lookup_delete_ne. Qed.
Lemma view_change m q r p h b f : view m q r p h b -> (q = Some "combat" -> 0 <= attack_count_ (f (fields m)) <= 3) -> view (on_fields f m) q r p h b.
Proof. intros [] ?. by split. Qed.
Lemma view_health m q r p h b h' : view m q r p h b -> 0 <= h' <= 100 -> view (on_context (Context.Set_ "health" (AnyInt h')) m) q r p h' b.
Proof. intros [] ?. split; cbn; try done; unfold Context.Set_; by simplify_map_eq. Qed.
Lemma view_battles m q r p h b b' : view m q r p h b -> 0 <= b' <= 10 -> view (on_context (Context.Set_ "battle_count" (AnyInt b')) m) q r p h b'.
Proof. intros [] ?. split; cbn; try done; unfold Context.Set_; by simplify_map_eq. Qed.
Lemma view_enter m q r p h b q' : view m q r p h b -> (q' = Some "combat" -> 0 <= attack_count_ (fields m) <= 3) -> view (set_current q' m) q' r p h b.
Proof. intros [] ?. by split. Qed.

Lemma returns_ctx_set k a m (Q : unit -> M -> Prop) : Q tt (on_context (Context.Set_ k a) m) -> returns (ctx_set k a) m Q.
Proof. apply returns_modify. Qed.
Lemma returns_ctx_remove k m (Q : unit -> M -> Prop) : Q tt (on_context (Context.Remove k) m) -> returns (ctx_remove k) m Q.
Proof. apply returns_modify. Qed.
Lemma returns_change f m (Q : unit -> M -> Prop) : Q tt (on_fields f m) -> returns (change f) m Q.
Proof. apply returns_modify. Qed.
Lemma returns_ctx_get {A} (cast : Any -> option A) k m (Q : option A -> M -> Prop) : Q (Context.Get cast k (context_ m)) m -> returns (ctx_get cast k) m Q.
Proof. apply (returns_gets (fun m => Context.Get cast k (context_ m))). Qed.
Lemma returns_int z m (Q : Z -> M -> Prop) : - 2 ^ 31 <= z < 2 ^ 31 -> Q z m -> returns (int_result z) m Q.
Proof. intros Hz HQ. unfold int_result. rewrite decide_True by (unfold is_int, INT_MIN, INT_MAX; lia). by apply returns_ret. Qed.

(** One step of a handler. *)
Ltac game_step :=
  first [ apply returns_bind; cbv beta
        | apply returns_ctx_set | apply returns_ctx_remove | apply returns_change | apply returns_ctx_get | apply returns_ret | apply returns_gets ]; cbv beta.

Lemma get_health m q r p h b : view m q r p h b -> Context.Get cast_int "health" (context_ m) = Some h.
Proof. intros []. unfold Context.Get. by rewrite v_health0. Qed.
Lemma get_max m q r p h b : view m q r p h b -> Context.Get cast_int "max_health" (context_ m) = Some 100.
Proof. intros []. unfold Context.Get. by rewrite v_max0. Qed.
Lemma get_battles m q r p h b : view m q r p h b -> Context.Get cast_int "battle_count" (context_ m) = Some b.
Proof. intros []. unfold Context.Get. by rewrite v_battles0. Qed.

(** ** Entering a state *)

Lemma idle_enter_ok o from m r p h b : view m (Some "idle") r p h b -> returns (idle_enter o from) m (fun _ m' => view m' (Some "idle") r p h b).
Proof.
  intros H. unfold idle_enter. game_step. game_step. game_step. game_step. destruct (bool_decide _); game_step;
    [apply view_remove; [|done]|]; (apply view_change; [|done]); by apply view_set.
Qed.
Lemma patrol_enter_ok o from m r p h b : view m (Some "patrol") r p h b -> returns (patrol_enter o from) m (fun _ m' => view m' (Some "patrol") r p h b).
Proof. intros H. unfold patrol_enter. game_step. by apply view_set. Qed.
Lemma combat_enter_ok o from m r p h b : view (set_current (Some "patrol") m) (Some "patrol") r p h b -> current_state_ m = Some "combat" -> b < 10 ->
  returns (combat_enter o from) m (fun _ m' => view m' (Some "combat") r p h (b + 1) /\ attack_count_ (fields m') = 0).
Proof.
  intros H Hq Hb. assert (H1 : view (on_fields (set_attack 0 float_zero) m) (Some "combat") r p h b).
  { destruct H. by split. }
  unfold combat_enter. game_step. game_step. game_step. game_step. game_step.
  assert (H2 : forall s, view (on_context (Context.Set_ "current_enemy" s) (on_fields (set_attack 0 float_zero) m)) (Some "combat") r p h b) by (intros s; by apply view_set).
  pose proof (v_battles_range _ _ _ _ _ _ H). destruct (Context.Get cast_string "current_enemy" _); (game_step; game_step; game_step; rewrite (get_battles _ _ _ _ _ _ (H2 _)) || rewrite (get_battles _ _ _ _ _ _ H1)).
  - game_step. apply returns_int; [lia|]. game_step. split; [|done]. apply (view_battles _ _ _ _ _ b); [done|lia].
  - game_step. apply returns_int; [lia|]. game_step. split; [|done]. apply (view_battles _ _ _ _ _ b); [done|lia].
Qed.
Lemma death_enter_ok o from m r p h b : view m (Some "death") r p h b -> returns (death_enter o from) m (fun _ m' => view m' (Some "death") r p h b).
Proof. intros H. unfold death_enter. game_step. by apply view_change. Qed.
(** ** Events *)

Abbreviation idle_state := (AddTransition (mkTransition "enemy_detected" "combat" None (Some meet)) (AddTransition (Transition_new "start_patrol" "patrol") IdleState)).
Abbreviation patrol_state := (AddTransition (Transition_new "return_idle" "idle") (AddTransition (mkTransition "enemy_detected" "combat" None (Some meet)) (PatrolState patrol_dis))).
Abbreviation combat_state := (AddTransition (mkTransition "enemy_defeated" "idle" None (Some (fun _ _ => mret tt))) (AddTransition (Transition_new "take_damage" "hurt") (CombatState combat_dis))).
Abbreviation hurt_state := (AddTransition (Transition_new "death" "death") (AddTransition (Transition_new "recovery_complete" "idle") HurtState)).

Lemma states_eq : states_ g = <["death" := DeathState]> (<["hurt" := hurt_state]> (<["combat" := combat_state]> (<["patrol" := patrol_state]> (<["idle" := idle_state]> ∅)))).
Proof. done. Qed.
Lemma state_idle : states_ g !! "idle" = Some idle_state.
Proof. rewrite states_eq. by simplify_map_eq. Qed.
Lemma state_patrol : states_ g !! "patrol" = Some patrol_state.
Proof. rewrite states_eq. by simplify_map_eq. Qed.
Lemma state_combat : states_ g !! "combat" = Some combat_state.
Proof. rewrite states_eq. by simplify_map_eq. Qed.
Lemma state_hurt : states_ g !! "hurt" = Some hurt_state.
Proof. rewrite states_eq. by simplify_map_eq. Qed.
Lemma state_death : states_ g !! "death" = Some DeathState.
Proof. rewrite states_eq. by simplify_map_eq. Qed.

(** An event with one transition. *)
Lemma process_fire o e m id st t st' (Q : unit -> M -> Prop) : current_state_ m = Some id -> states_ g !! id = Some st -> OnEvent st o e m = Ok false m ->
  transitions_ st !! ev_id e = Some [t] -> condition t = None -> states_ g !! target t = Some st' -> OnExit st o (Some (target t)) = mret tt ->
  returns (match action t with None => mret tt | Some a => a o e end) m (fun _ m1 => current_state_ m1 = Some id /\
    returns (OnEnter st' o (Some id)) (set_current (Some (target t)) m1) Q) ->
  returns (ProcessEvent g o e) m Q.
Proof.
  intros Hq Hst Hev Ht Hc Htarget Hexit Ha. unfold ProcessEvent. wp_step. eapply returns_Ok; [reflexivity|]. rewrite Hq. unfold call. rewrite Hst.
  wp_step. eapply returns_Ok; [exact Hev|]. cbv beta iota. wp_step. eapply returns_Ok; [reflexivity|]. rewrite Hq. unfold call. rewrite Hst, Ht. cbn [take_first]. rewrite Hc.
  wp_step. wp_step. wp_step. eapply returns_mono; [exact Ha|]. intros [] m1 [Hq1 HQ]. rewrite Htarget, decide_True by done. unfold PerformTransition.
  wp_step. eapply returns_Ok; [reflexivity|]. rewrite Hq1. unfold call. rewrite Hst, Hexit. wp_step. wp_step. wp_step. eapply returns_Ok; [reflexivity|].
  wp_step. wp_step. rewrite Htarget, Hq1. exact HQ.
Qed.

Lemma process_health_check o m q r p h b : view m (Some q) r p h b -> q ∈ ["idle"; "patrol"; "combat"; "hurt"; "death"] ->
  ProcessEvent g o (Event_new "health_check") m = Ok tt m.
Proof.
  intros [Hq _ _ _ _ _ _ _ _] Hin. unfold ProcessEvent. rewrite (bind_Ok get _ m m m eq_refl), Hq. unfold call.
  repeat (apply elem_of_cons in Hin as [->|Hin]); [rewrite state_idle|rewrite state_patrol|rewrite state_combat|rewrite state_hurt|rewrite state_death|by apply elem_of_nil in Hin]; try done.
  rewrite (bind_Ok (OnEvent DeathState o _) _ m false m eq_refl), (bind_Ok get _ m m m eq_refl), Hq, state_death. done.
Qed.

Lemma start_patrol_ok o m r p h b : view m (Some "idle") r p h b ->
  returns (ProcessEvent g o (Event_new "start_patrol")) m (fun _ m' => view m' (Some "patrol") r p h b).
Proof.
  intros H. eapply process_fire; [apply H|apply state_idle|done|by cbn; simplify_map_eq|done|apply state_patrol|done|]. cbn [action Transition_new]. apply returns_ret.
  split; [apply H|]. apply patrol_enter_ok. by eapply view_enter.
Qed.
Lemma enemy_defeated_ok o m r p h b : view m (Some "combat") r p h b ->
  returns (ProcessEvent g o (Event_new "enemy_defeated")) m (fun _ m' => view m' (Some "idle") r p h b).
Proof.
  intros H. eapply process_fire; [apply H|apply state_combat|done|by cbn; simplify_map_eq|done|apply state_idle|done|]. cbn [action]. apply returns_ret.
  split; [apply H|]. apply idle_enter_ok. by eapply view_enter.
Qed.
Lemma recovery_complete_ok o m r p h b : view m (Some "hurt") r p h b ->
  returns (ProcessEvent g o (Event_new "recovery_complete")) m (fun _ m' => view m' (Some "idle") r p h b).
Proof.
  intros H. eapply process_fire; [apply H|apply state_hurt|done|by cbn; simplify_map_eq|done|apply state_idle|done|]. cbn [action Transition_new]. apply returns_ret.
  split; [apply H|]. apply idle_enter_ok. by eapply view_enter.
Qed.
Lemma death_ok o m r p h b : view m (Some "hurt") r p h b ->
  returns (ProcessEvent g o (Event_new "death")) m (fun _ m' => view m' (Some "death") r p h b).
Proof.
  intros H. eapply process_fire; [apply H|apply state_hurt|done|by cbn; simplify_map_eq|done|apply state_death|done|]. cbn [action Transition_new]. apply returns_ret.
  split; [apply H|]. apply death_enter_ok. by eapply view_enter.
Qed.
Lemma enemy_detected_ok o m r p h b enemy : view m (Some "patrol") r p h b -> b < 10 ->
  returns (ProcessEvent g o (SetData (AnyString enemy) (Event_new "enemy_detected"))) m (fun _ m' => view m' (Some "combat") r p h (b + 1) /\ attack_count_ (fields m') = 0).
Proof.
  intros H Hb. eapply process_fire; [apply H|apply state_patrol|done|by cbn; simplify_map_eq|done|apply state_combat|done|]. cbn [action].
  unfold meet. cbn [GetData SetData ev_data]. apply returns_ctx_set. assert (H1 : view (on_context (Context.Set_ "current_enemy" (AnyString enemy)) m) (Some "patrol") r p h b) by (by apply view_set).
  split; [apply H1|]. eapply combat_enter_ok; [|done|done]. cbn [target]. destruct H1. by split.
Qed.

(** Damage: the character is hurt, or dies when no health is left. *)
Lemma take_damage_ok d m r p h b a : view m (Some "combat") r p h b ->
  returns (ProcessEvent g (engine_ops g (S d)) (SetData a (Event_new "take_damage"))) m (fun _ m' => exists h', h' <= h /\
    (0 < h' /\ view m' (Some "hurt") r p h' b \/ h' = 0 /\ view m' (Some "death") r p 0 b)).
Proof.
  intros H. eapply process_fire; [apply H|apply state_combat|done|by cbn; simplify_map_eq|done|apply state_hurt|done|]. cbn [action Transition_new]. apply returns_ret.
  split; [apply H|]. change (OnEnter hurt_state) with hurt_enter. unfold hurt_enter. set (m1 := set_current _ m).
  assert (H1 : view m1 (Some "hurt") r p h b) by (by eapply view_enter).
  game_step. game_step. set (m2 := on_fields _ m1). assert (H2 : view m2 (Some "hurt") r p h b) by (by apply view_change).
  game_step. game_step. rewrite (get_health _ _ _ _ _ _ H2). rewrite bool_decide_true by done. game_step. game_step. game_step. pose proof (v_health_range _ _ _ _ _ _ H) as Hh.
  set (x := is_orc _). assert (Hdmg : 20 <= (if x then 30 else 20) <= 30) by (destruct x; lia). set (dmg := if x then 30 else 20) in *.
  game_step. apply returns_int; [lia|]. game_step. set (h' := Z.max 0 (h - dmg)).
  assert (H3 : view (on_context (Context.Set_ "health" (AnyInt h')) m2) (Some "hurt") r p h' b) by (apply (view_health _ _ _ _ h); [done|lia]).
  game_step. game_step. rewrite (get_health _ _ _ _ _ _ H3). destruct (Z.leb_spec h' 0).
  - assert (Eh : h' = 0) by lia. rewrite Eh in H3 |- *. change (op_send (engine_ops g (S d)) (Event_new "death") true) with (ProcessEvent g (engine_ops g d) (Event_new "death")).
    eapply returns_mono; [by apply death_ok|]. intros [] m4 H4. exists 0. split; [lia|]. by right.
  - apply returns_ret. exists h'. split; [lia|]. left. split; [lia|done].
Qed.

(** ** Updates *)

(** A character that lives is in one of four states, a dead one in the last. *)
Definition consistent (q : StateID) (h : Z) : Prop := (q ∈ ["idle"; "patrol"; "combat"; "hurt"] /\ 0 < h) \/ (q = "death" /\ h = 0).

Lemma heal_ok m q r p h b : view m q r p h b -> returns heal m (fun _ m' => exists h', h <= h' /\ view m' q r p h' b).
Proof.
  intros H. unfold heal. pose proof (v_health_range _ _ _ _ _ _ H). game_step. game_step. game_step. game_step. rewrite (get_health _ _ _ _ _ _ H), (get_max _ _ _ _ _ _ H).
  destruct (Z.ltb_spec h 100).
  - game_step. apply returns_int; [lia|]. game_step. exists (Z.min (h + 5) 100). split; [lia|]. apply (view_health _ _ _ _ h); [done|lia].
  - apply returns_ret. by exists h.
Qed.

Lemma idle_update_ok m r p h b dt : view m (Some "idle") r p h b -> returns (idle_update (game_ops patrol_dis combat_dis) dt) m (fun _ m' => exists q h', h <= h' /\ q ∈ ["idle"; "patrol"] /\ view m' (Some q) r p h' b).
Proof.
  intros H. unfold idle_update. game_step. game_step. destruct (Context.Get cast_float "idle_time" (context_ m)) as [t|].
  2:{ apply returns_ret. exists "idle", h. split; [lia|]. split; [set_solver|done]. }
  cbv beta zeta. game_step. game_step. game_step. game_step. game_step. game_step. set (m1 := on_fields _ _).
  assert (H1 : view m1 (Some "idle") r p h b) by (apply view_change; [|done]; by apply view_set).
  game_step. apply (returns_mono _ _ (fun _ m' => exists h', h <= h' /\ view m' (Some "idle") r p h' b)).
  - destruct (ge _ _); [|apply returns_ret; by exists h]. game_step. game_step. apply heal_ok. by apply view_change.
  - intros [] m2 (h' & Hh & H2). destruct (gt _ _); [|apply returns_ret; exists "idle", h'; split; [done|]; split; [set_solver|done]].
    change (op_send (game_ops patrol_dis combat_dis) (Event_new "start_patrol") true) with (ProcessEvent g (engine_ops g 2) (Event_new "start_patrol")).
    eapply returns_mono; [by apply start_patrol_ok|]. intros [] m3 H3. exists "patrol", h'. split; [done|]. split; [set_solver|done].
Qed.

Lemma draw_patrol_ok m q r p h b : view m q r p h b -> returns (draw_patrol patrol_dis) m (fun _ m' => view m' q r p h b).
Proof. intros H. unfold draw_patrol. game_step. game_step. game_step. game_step. game_step. apply view_change; [done|]. apply H. Qed.
Lemma draw_combat_ok m q r p h b : view m q r p h b -> returns (draw_combat combat_dis) m (fun _ m' => view m' q r p h b).
Proof. intros H. unfold draw_combat. game_step. game_step. game_step. game_step. game_step. apply view_change; [done|]. apply H. Qed.

Lemma patrol_update_ok m r p h b dt : view m (Some "patrol") r p h b -> b < 10 -> returns (patrol_update patrol_dis (game_ops patrol_dis combat_dis) dt) m
  (fun _ m' => view m' (Some "patrol") r p h b \/ (view m' (Some "combat") r p h (b + 1) /\ attack_count_ (fields m') = 0)).
Proof.
  intros H Hb. unfold patrol_update. game_step. game_step. destruct (Context.Get cast_float "patrol_distance" (context_ m)) as [x|]; [|apply returns_ret; by left].
  game_step. game_step. game_step. eapply returns_mono; [apply draw_patrol_ok; by apply view_set|]. intros y m1 H1. cbv beta. destruct (lt y _); [|apply returns_ret; by left].
  game_step. eapply returns_mono; [exact (draw_patrol_ok _ _ _ _ _ _ H1)|]. intros z m2 H2. cbv beta. set (enemy := if lt z _ then _ else _).
  change (op_send (game_ops patrol_dis combat_dis) (SetData (AnyString enemy) (Event_new "enemy_detected")) true) with (ProcessEvent g (engine_ops g 2) (SetData (AnyString enemy) (Event_new "enemy_detected"))).
  eapply returns_mono; [exact (enemy_detected_ok _ _ _ _ _ _ _ H2 Hb)|]. intros [] m3 H3. by right.
Qed.

(** Between updates fewer than three attacks have been made. *)
Definition rested (m : M) : Prop := current_state_ m = Some "combat" -> attack_count_ (fields m) <= 2.
Lemma rested_elsewhere m q r p h b : view m q r p h b -> q <> Some "combat" -> rested m.
Proof. intros H Hq E. rewrite (v_state _ _ _ _ _ _ H) in E. done. Qed.

Lemma combat_update_ok m r p h b dt : view m (Some "combat") r p h b -> rested m -> 0 < h -> returns (combat_update combat_dis (game_ops patrol_dis combat_dis) dt) m
  (fun _ m' => exists q h', consistent q h' /\ view m' (Some q) r p h' b /\ rested m').
Proof.
  intros H Hrest Hh. assert (Hcount := v_attacks _ _ _ _ _ _ H eq_refl). specialize (Hrest (v_state _ _ _ _ _ _ H)).
  assert (Hstay : forall m', view m' (Some "combat") r p h b -> attack_count_ (fields m') <= 2 -> exists q h', consistent q h' /\ view m' (Some q) r p h' b /\ rested m').
  { intros m' H' Hc. exists "combat", h. split; [left; split; [set_solver|done]|]. split; [done|]. intros _. exact Hc. }
  unfold combat_update. game_step. game_step. game_step. game_step. set (m1 := on_fields _ m).
  assert (H1 : view m1 (Some "combat") r p h b) by (by apply view_change).
  destruct (ge _ _); [|apply returns_ret; by apply Hstay].
  game_step. apply returns_int; [lia|]. set (n := attack_count_ (fields m) + 1). assert (Hn : 1 <= n <= 3) by lia. game_step. game_step. game_step. game_step. set (m2 := on_fields _ m1).
  assert (H2 : view m2 (Some "combat") r p h b) by (apply view_change; [done|]; cbn; lia). set (enemy := Context.Get _ _ _).
  game_step. apply (returns_mono _ _ (fun _ m' => view m' (Some "combat") r p h b /\ attack_count_ (fields m') = n)).
  { unfold draw_combat. game_step. game_step. game_step. game_step. game_step. split; [|done]. apply view_change; [done|]. cbn. lia. }
  intros y m3 [H3 Hn3]. cbv beta. destruct (lt y _).
  - set (a := AnyInt _). change (op_send (game_ops patrol_dis combat_dis) (SetData a (Event_new "take_damage")) true) with (ProcessEvent g (engine_ops g 2) (SetData a (Event_new "take_damage"))).
    eapply returns_mono; [exact (take_damage_ok _ _ _ _ _ _ _ H3)|]. intros [] m4 (h' & _ & [[Hh' H4]|[-> H4]]).
    + exists "hurt", h'. split; [left; split; [set_solver|done]|]. split; [done|]. by eapply rested_elsewhere.
    + exists "death", 0. split; [by right|]. split; [done|]. by eapply rested_elsewhere.
  - destruct (Z.leb_spec 3 n); [|apply returns_ret; apply Hstay; [done|lia]].
    change (op_send (game_ops patrol_dis combat_dis) (Event_new "enemy_defeated") true) with (ProcessEvent g (engine_ops g 2) (Event_new "enemy_defeated")).
    eapply returns_mono; [exact (enemy_defeated_ok _ _ _ _ _ _ H3)|]. intros [] m4 H4. exists "idle", h. split; [left; split; [set_solver|done]|]. split; [done|]. by eapply rested_elsewhere.
Qed.

Lemma hurt_update_ok m r p h b dt : view m (Some "hurt") r p h b -> returns (hurt_update (game_ops patrol_dis combat_dis) dt) m
  (fun _ m' => exists q, q ∈ ["hurt"; "idle"] /\ view m' (Some q) r p h b).
Proof.
  intros H. unfold hurt_update. game_step. game_step. game_step. game_step. set (m1 := on_fields _ m). assert (H1 : view m1 (Some "hurt") r p h b) by (by apply view_change).
  destruct (ge _ _); [|apply returns_ret; exists "hurt"; split; [set_solver|done]].
  change (op_send (game_ops patrol_dis combat_dis) (Event_new "recovery_complete") true) with (ProcessEvent g (engine_ops g 2) (Event_new "recovery_complete")).
  eapply returns_mono; [exact (recovery_complete_ok _ _ _ _ _ _ H1)|]. intros [] m4 H4. exists "idle". split; [set_solver|done].
Qed.

Lemma stop_ok d m q p h b : view m (Some q) true p h b -> q ∈ ["idle"; "patrol"; "combat"; "hurt"; "death"] ->
  returns (Stop g (engine_ops g d)) m (fun _ m' => view m' None false p h b).
Proof.
  intros H Hin. unfold Stop. wp_step. eapply returns_Ok; [reflexivity|]. rewrite (v_state _ _ _ _ _ _ H), (v_running _ _ _ _ _ _ H).
  assert (E : call g q (fun st => OnExit st (engine_ops g d) None) = mret tt).
  { unfold call. repeat (apply elem_of_cons in Hin as [->|Hin]); [rewrite state_idle|rewrite state_patrol|rewrite state_combat|rewrite state_hurt|rewrite state_death|by apply elem_of_nil in Hin]; done. }
  rewrite E. repeat wp_step. destruct H. by split.
Qed.

Lemma death_update_ok m p h b dt : view m (Some "death") true p h b -> returns (death_update (game_ops patrol_dis combat_dis) dt) m
  (fun _ m' => view m' (Some "death") true p h b \/ view m' None false p h b).
Proof.
  intros H. unfold death_update. game_step. game_step. game_step. game_step. set (m1 := on_fields _ m). assert (H1 : view m1 (Some "death") true p h b) by (by apply view_change).
  destruct (ge _ _); [|apply returns_ret; by left]. change (op_stop (game_ops patrol_dis combat_dis)) with (Stop g (engine_ops g 2)).
  eapply returns_mono; [apply (stop_ok _ _ "death"); [done|set_solver]|]. intros [] m4 H4. by right.
Qed.

(** Health checks change nothing, in any state and without one. *)
Lemma health_checks_ok o l m q r p h b : view m q r p h b -> (forall x, q = Some x -> x ∈ ["idle"; "patrol"; "combat"; "hurt"; "death"]) ->
  Forall (eq (Event_new "health_check")) l -> iterM (ProcessEvent g o) l m = Ok tt m.
Proof.
  intros H Hq Hl. induction Hl as [|e l <- Hl IH]; [done|]. cbn [iterM]. rewrite (bind_Ok _ _ m tt m); [exact IH|].
  destruct q as [x|]; [by eapply process_health_check; [exact H|apply Hq]|].
  unfold ProcessEvent. rewrite (bind_Ok get _ m m m eq_refl), (v_state _ _ _ _ _ _ H). done.
Qed.

Lemma consistent_in q h : consistent q h -> q ∈ ["idle"; "patrol"; "combat"; "hurt"; "death"].
Proof. intros [[H _]|[-> _]]; set_solver. Qed.

(** What an update leaves: a machine that runs, or one that was stopped after a death. *)
Definition updated (m : M) (p : list Event) (b : Z) : Prop := exists h b', b <= b' <= b + 1 /\
  ((exists q, consistent q h /\ view m (Some q) true p h b' /\ rested m) \/ (h = 0 /\ view m None false p h b')).

Lemma on_update_ok m q p h b dt st : view m (Some q) true p h b -> consistent q h -> rested m -> b < 10 -> states_ g !! q = Some st ->
  returns (OnUpdate st (game_ops patrol_dis combat_dis) dt) m (fun _ m' => updated m' p b).
Proof.
  intros H Hc Hr Hb Hst. destruct Hc as [[Hin Hh]|[-> ->]].
  - repeat (apply elem_of_cons in Hin as [->|Hin]); [rewrite state_idle in Hst|rewrite state_patrol in Hst|rewrite state_combat in Hst|rewrite state_hurt in Hst|by apply elem_of_nil in Hin];
      injection Hst as <-; cbn [OnUpdate AddTransition with_handlers IdleState PatrolState CombatState HurtState].
    + eapply returns_mono; [exact (idle_update_ok _ _ _ _ _ _ H)|]. intros [] m' (q & h' & Hh' & Hq & H'). exists h', b. split; [lia|]. left. exists q.
      split; [left; split; [set_solver|lia]|]. split; [done|]. eapply rested_elsewhere; [exact H'|]. set_solver.
    + eapply returns_mono; [exact (patrol_update_ok _ _ _ _ _ _ H Hb)|]. intros [] m' [H'|[H' Hcount]].
      * exists h, b. split; [lia|]. left. exists "patrol". split; [left; split; [set_solver|done]|]. split; [done|]. by eapply rested_elsewhere.
      * exists h, (b + 1). split; [lia|]. left. exists "combat". split; [left; split; [set_solver|done]|]. split; [done|]. intros _. lia.
    + eapply returns_mono; [exact (combat_update_ok _ _ _ _ _ _ H Hr Hh)|]. intros [] m' (q & h' & Hc & H' & Hr'). exists h', b. split; [lia|]. left. by exists q.
    + eapply returns_mono; [exact (hurt_update_ok _ _ _ _ _ _ H)|]. intros [] m' (q & Hq & H'). exists h, b. split; [lia|]. left. exists q.
      split; [left; split; [set_solver|done]|]. split; [done|]. eapply rested_elsewhere; [exact H'|]. set_solver.
  - rewrite state_death in Hst. injection Hst as <-. eapply returns_mono; [exact (death_update_ok _ _ _ _ _ H)|]. intros [] m' [H'|H'].
    + exists 0, b. split; [lia|]. left. exists "death". split; [by right|]. split; [done|]. by eapply rested_elsewhere.
    + exists 0, b. split; [lia|]. by right.
Qed.

Lemma view_drained m q r p h b p' : view m q r p h b -> view (set_pending p' m) q r p' h b.
Proof. intros []. by split. Qed.

Lemma pending_ok o m p b : updated m p b -> Forall (eq (Event_new "health_check")) p -> returns (ProcessPendingEvents g o) m (fun _ m' => updated m' [] b).
Proof.
  intros (h & b' & Hb & Hm) Hp. unfold ProcessPendingEvents. wp_step. eapply returns_Ok; [reflexivity|]. wp_step. wp_step.
  assert (E : pending_events_ m = p) by (by destruct Hm as [(q & _ & [] & _)|[_ []]]). rewrite E.
  destruct Hm as [(q & Hc & H & Hr)|[-> H]]; apply (view_drained _ _ _ _ _ _ []) in H.
  - eapply returns_Ok; [eapply health_checks_ok; [exact H| |exact Hp]|].
    + intros x [= <-]. by eapply consistent_in.
    + exists h, b'. split; [done|]. left. by exists q.
  - eapply returns_Ok; [eapply health_checks_ok; [exact H|done|exact Hp]|]. exists 0, b'. split; [done|]. by right.
Qed.

Lemma state_known q h : consistent q h -> exists st, states_ g !! q = Some st.
Proof.
  intros H%consistent_in. repeat (apply elem_of_cons in H as [->|H]); [rewrite state_idle|rewrite state_patrol|rewrite state_combat|rewrite state_hurt|rewrite state_death|by apply elem_of_nil in H]; by eexists.
Qed.

Lemma game_update_ok m q p h b now : view m (Some q) true p h b -> consistent q h -> rested m -> b < 10 -> Forall (eq (Event_new "health_check")) p ->
  returns (Update g (game_ops patrol_dis combat_dis) now) m (fun _ m' => updated m' [] b).
Proof.
  intros H Hc Hr Hb Hp. unfold Update. wp_step. eapply returns_Ok; [reflexivity|]. rewrite (v_state _ _ _ _ _ _ H), (v_running _ _ _ _ _ _ H).
  wp_step. wp_step. wp_step. destruct (state_known q h Hc) as [st Hst]. unfold call. rewrite Hst.
  assert (H1 : view (set_time now m) (Some q) true p h b) by (destruct H; by split).
  eapply returns_mono; [exact (on_update_ok _ _ _ _ _ _ _ H1 Hc Hr Hb Hst)|]. intros [] m' Hm'. exact (pending_ok _ _ _ _ Hm' Hp).
Qed.

(** ** The program *)

(** Between frames: what is queued are health checks. *)
Definition between (m : M) : Prop := exists h b p, Forall (eq (Event_new "health_check")) p /\ b < 10 /\
  ((exists q, consistent q h /\ view m (Some q) true p h b /\ rested m) \/ (h = 0 /\ view m None false p h b)).

(** After the loop, and why it ended. *)
Definition ended (frames : Z) (m : M) : Prop := 0 <= frames <= 600 /\ exists h b p, (frames < 600 -> b = 10 \/ h = 0) /\
  ((exists q, consistent q h /\ view m (Some q) true p h b) \/ (h = 0 /\ view m None false p h b)).

Lemma between_ended frame m : between m -> 0 <= frame <= 600 -> running_ m = false \/ frame = 600 -> ended frame m.
Proof.
  intros (h & b & p & _ & _ & Hm) Hf Hend. split; [done|]. exists h, b, p. destruct Hm as [(q & Hc & H & _)|[-> H]].
  - destruct Hend as [Hend| ->]; [by rewrite (v_running _ _ _ _ _ _ H) in Hend|]. split; [lia|]. left. by exists q.
  - split; [by right|]. by right.
Qed.

Lemma queue_health_check o m : between m -> returns (SendEvent g o (Event_new "health_check") false) m (fun _ m' => between m').
Proof.
  intros (h & b & p & Hp & Hb & Hm). cbn [SendEvent]. apply returns_modify. exists h, b, (p ++ [Event_new "health_check"])%list.
  split; [apply Forall_app; split; [done|by constructor]|]. split; [done|].
  destruct Hm as [(q & Hc & H & Hr)|[-> H]]; rewrite (v_pending _ _ _ _ _ _ H); apply (view_drained _ _ _ _ _ _ (p ++ [Event_new "health_check"])%list) in H; [left; by exists q|by right].
Qed.

Lemma game_loop_ok fuel frame now m : between m -> 0 <= frame <= 600 -> 600 - frame < Z.of_nat fuel ->
  returns (game_loop patrol_dis combat_dis fuel frame now) m ended.
Proof.
  revert frame m. induction fuel as [|fuel IH]; intros frame m Hm Hf Hfuel; [lia|]. cbn [game_loop]. game_step. game_step.
  destruct (negb (running_ m) || negb (frame <? maxFrames)%Z) eqn:E.
  { apply returns_ret. apply between_ended; [done|done|]. unfold maxFrames in E. apply orb_true_iff in E as [E|E]; [left; by destruct (running_ m)|right; lia]. }
  apply orb_false_iff in E as [Er Ef]. unfold maxFrames in Ef. destruct Hm as (h & b & p & Hp & Hb & [(q & Hc & H & Hr)|[_ H]]); [|by rewrite (v_running _ _ _ _ _ _ H) in Er].
  game_step. eapply returns_mono; [exact (game_update_ok _ _ _ _ _ _ H Hc Hr Hb Hp)|]. intros [] m1 (h1 & b1 & Hb1 & Hm1). game_step. game_step.
  assert (Eb : Context.Get cast_int "battle_count" (context_ m1) = Some b1) by (destruct Hm1 as [(q1 & _ & H1 & _)|[_ H1]]; by eapply get_battles). rewrite Eb. unfold maxBattles.
  destruct (Z.leb_spec 10 b1).
  - apply returns_ret. split; [lia|]. exists h1, b1, []. split; [lia|]. destruct Hm1 as [(q1 & Hc1 & H1 & _)|Hm1]; [left; by exists q1|by right].
  - assert (Hm : between m1) by (exists h1, b1, []; done). game_step. apply (returns_mono _ _ (fun _ => between)).
    + destruct (frame mod 50 =? 0)%Z; [by apply queue_health_check|by apply returns_ret].
    + intros [] m2 Hm2. apply IH; [done|lia|lia].
Qed.

Lemma game_start_ok now : returns (Start g (game_ops patrol_dis combat_dis) now) initial_machine (fun ok m => ok = true /\ between m).
Proof.
  eapply returns_Ok; [reflexivity|]. split; [done|]. exists 80, 0, []. split; [done|]. split; [lia|]. left. exists "idle".
  split; [left; split; [set_solver|lia]|]. split; [|done]. split; try done.
Qed.

Lemma game_stop_ok frames m : ended frames m ->
  returns (r ← gets running_; (if (r : bool) then Stop g (game_ops patrol_dis combat_dis) else mret tt)) m
    (fun _ m' => exists h b p, (frames < 600 -> b = 10 \/ h = 0) /\ view m' None false p h b).
Proof.
  intros (_ & h & b & p & Hend & Hm). game_step. game_step. destruct Hm as [(q & Hc & H)|[-> H]]; rewrite (v_running _ _ _ _ _ _ H).
  - eapply returns_mono; [exact (stop_ok _ _ _ _ _ _ H (consistent_in _ _ Hc))|]. intros [] m' H'. by exists h, b, p.
  - apply returns_ret. by exists 0, b, p.
Qed.

(** C30. The game ends, whatever is drawn and whatever the clock says: the program starts the machine, runs at most 600 frames without
    an overflow or a missing state and stops it. In the end the machine has no state and does not run, the health of the character is
    between 0 and 100 and at most ten battles were fought; and before the last frame it ends only after ten battles or a death. *)
Theorem game_main_correct start now : exists frames m h b,
  game_main patrol_dis combat_dis start now initial_machine = Ok (Some frames) m /\ 0 <= frames <= 600 /\ IsRunning m = false /\ GetCurrentState m = None /\
  Context.Get cast_int "health" (GetContext m) = Some h /\ Context.Get cast_int "battle_count" (GetContext m) = Some b /\ 0 <= h <= 100 /\ 0 <= b <= 10 /\
  (frames < maxFrames -> b = maxBattles \/ h = 0).
Proof.
  assert (Hmain : returns (game_main patrol_dis combat_dis start now) initial_machine (fun r m => exists frames h b p, r = Some frames /\ 0 <= frames <= 600 /\
    (frames < 600 -> b = 10 \/ h = 0) /\ view m None false p h b)).
  { unfold game_main. game_step. eapply returns_mono; [exact (game_start_ok start)|]. intros ok m [-> Hm]. cbn [negb]. game_step.
    eapply returns_mono; [apply game_loop_ok; [exact Hm|lia|unfold maxFrames; lia]|]. intros frames m1 Hm1. pose proof (game_stop_ok _ _ Hm1) as Hs.
    destruct Hs as (u & m2 & E & h & b & p & Hend & H2). eapply returns_Ok; [|exists frames, h, b, p; split; [reflexivity|]; split; [apply Hm1|]; split; [exact Hend|exact H2]].
    unfold mbind, cpp_bind in E |- *. destruct (gets running_ m1); [|done..]. cbn in E |- *. by rewrite E. }
  destruct Hmain as (r & m & E & frames & h & b & p & -> & Hf & Hend & H). exists frames, m, h, b. split; [exact E|]. split; [done|].
  split; [apply H|]. split; [apply H|]. split; [by eapply get_health|]. split; [by eapply get_battles|]. split; [apply H|]. split; [apply H|exact Hend].
Qed.
End game.
