(* ===== verification/WsSha1.v ===== *)
(** * WsSha1: the message digest of the WebSocket server

    Models src/websocket/websocket/sha1.cpp (class SHA2, which computes SHA-1) and
    states what FIPS PUB 180-1 prescribes. Octets are numbers below 256, [unsigned]
    values numbers below 2^32. *)

From S2P Require Import Prelude.

Local Open Scope Z_scope.

Module SHA2.
Record SHA2 : Type := mkSHA2 {
  H : list Z; Length_Low : Z; Length_High : Z; Message_Block : list Z; Message_Block_Index : Z; Computed : bool; Corrupted : bool }.

Definition set_H (h : list Z) (s : SHA2) : SHA2 := mkSHA2 h (Length_Low s) (Length_High s) (Message_Block s) (Message_Block_Index s) (Computed s) (Corrupted s).
Definition set_length (low high : Z) (s : SHA2) : SHA2 := mkSHA2 (H s) low high (Message_Block s) (Message_Block_Index s) (Computed s) (Corrupted s).
Definition set_block (b : list Z) (i : Z) (s : SHA2) : SHA2 := mkSHA2 (H s) (Length_Low s) (Length_High s) b i (Computed s) (Corrupted s).
Definition set_computed (s : SHA2) : SHA2 := mkSHA2 (H s) (Length_Low s) (Length_High s) (Message_Block s) (Message_Block_Index s) true (Corrupted s).
Definition set_corrupted (s : SHA2) : SHA2 := mkSHA2 (H s) (Length_Low s) (Length_High s) (Message_Block s) (Message_Block_Index s) (Computed s) true.

(** The block keeps what it had. *)
Definition Reset (s : SHA2) : SHA2 :=
  mkSHA2 [0x67452301; 0xEFCDAB89; 0x98BADCFE; 0x10325476; 0xC3D2E1F0] 0 0 (Message_Block s) 0 false false.
(** [block]: what is in the memory of the 64 octets. *)
Definition SHA2_new (block : list Z) : SHA2 := Reset (mkSHA2 [0; 0; 0; 0; 0] 0 0 block 0 false false).

Definition mask : Z := 0xFFFFFFFF.
Definition CircularShift (bits word : Z) : Z :=
  Z.lor (Z.land (wrap32 (Z.shiftl word bits)) mask) (Z.shiftr (Z.land word mask) (32 - bits)).

(** ** A block *)

Definition K : list Z := [0x5A827999; 0x6ED9EBA1; 0x8F1BBCDC; 0xCA62C1D6].

(** The first 16 words of W, and the others. *)
Definition load (b : list Z) (t : nat) : Z :=
  Z.lor (Z.lor (Z.lor (Z.shiftl (b !!! (t * 4)%nat) 24) (Z.shiftl (b !!! (t * 4 + 1)%nat) 16)) (Z.shiftl (b !!! (t * 4 + 2)%nat) 8)) (b !!! (t * 4 + 3)%nat).
Definition next_word (W : list Z) : Z :=
  let t := length W in
  CircularShift 1 (Z.lxor (Z.lxor (Z.lxor (W !!! (t - 3)%nat) (W !!! (t - 8)%nat)) (W !!! (t - 14)%nat)) (W !!! (t - 16)%nat)).
Fixpoint extend (n : nat) (W : list Z) : list Z :=
  match n with O => W | S n' => extend n' (W ++ [next_word W]) end.
Definition word_sequence (b : list Z) : list Z := extend 64 (load b <$> seq 0 16).

Record buffers : Type := mkBuffers { A : Z; B : Z; C : Z; D : Z; E : Z }.
Definition complement (w : Z) : Z := Z.lxor w mask.

(** One turn of a loop, [f] the value that the loop combines from B, C and D. *)
Definition turn (f : Z -> Z -> Z -> Z) (k : Z) (W : list Z) (v : buffers) (t : nat) : buffers :=
  let temp := Z.land (wrap32 (CircularShift 5 (A v) + f (B v) (C v) (D v) + E v + W !!! t + k)) mask in
  mkBuffers temp (A v) (CircularShift 30 (B v)) (C v) (D v).
Definition f_choose (b c d : Z) : Z := Z.lor (Z.land b c) (Z.land (complement b) d).
Definition f_parity (b c d : Z) : Z := Z.lxor (Z.lxor b c) d.
Definition f_majority (b c d : Z) : Z := Z.lor (Z.lor (Z.land b c) (Z.land b d)) (Z.land c d).

Definition rounds (W : list Z) (v : buffers) : buffers :=
  let v := foldl (turn f_choose (K !!! 0%nat) W) v (seq 0 20) in
  let v := foldl (turn f_parity (K !!! 1%nat) W) v (seq 20 20) in
  let v := foldl (turn f_majority (K !!! 2%nat) W) v (seq 40 20) in
  foldl (turn f_parity (K !!! 3%nat) W) v (seq 60 20).

Definition digest_block (h b : list Z) : list Z :=
  let v := rounds (word_sequence b) (mkBuffers (h !!! 0%nat) (h !!! 1%nat) (h !!! 2%nat) (h !!! 3%nat) (h !!! 4%nat)) in
  let add i x := Z.land (wrap32 (h !!! i + x)) mask in
  [add 0%nat (A v); add 1%nat (B v); add 2%nat (C v); add 3%nat (D v); add 4%nat (E v)].

Definition ProcessMessageBlock (s : SHA2) : SHA2 := set_block (Message_Block s) 0 (set_H (digest_block (H s) (Message_Block s)) s).

(** ** Octets *)

Definition store (i v : Z) : cpp SHA2 unit := fun s =>
  if bool_decide (0 <= i < 64) then Ok tt (set_block (<[Z.to_nat i := v]> (Message_Block s)) (Message_Block_Index s) s) else Undefined "Message_Block".
(** [Message_Block[Message_Block_Index++] = v] *)
Definition append (v : Z) : cpp SHA2 unit :=
  i ← gets Message_Block_Index;
  modify (fun s => set_block (Message_Block s) (i + 1) s) ;;
  store i v.

Definition count (s : SHA2) : SHA2 :=
  let low := Z.land (wrap32 (Length_Low s + 8)) mask in
  if low =? 0 then
    let high := Z.land (wrap32 (Length_High s + 1)) mask in
    let s' := set_length low high s in
    if high =? 0 then set_corrupted s' else s'
  else set_length low (Length_High s) s.
Definition octet (v : Z) : cpp SHA2 unit :=
  append (Z.land v 0xFF) ;;
  modify count ;;
  i ← gets Message_Block_Index;
  if i =? 64 then modify ProcessMessageBlock else mret tt.
Fixpoint octets (l : list Z) : cpp SHA2 unit :=
  match l with
  | [] => mret tt
  | v :: l' => c ← gets Corrupted; if (c : bool) then mret tt else octet v ;; octets l'
  end.
(** [l]: the octets at [message_array], as many as [length] says. *)
Definition Input (l : list Z) : cpp SHA2 unit :=
  match l with
  | [] => mret tt
  | _ =>
      s ← get;
      if Computed s || Corrupted s then modify set_corrupted else octets l
  end.
(** [operator<<] of a string: up to the octet that ends it, one by one. *)
Fixpoint Input_string (l : list Z) : cpp SHA2 unit :=
  match l with
  | [] => mret tt
  | v :: l' => if v =? 0 then mret tt else Input [v] ;; Input_string l'
  end.

(** ** Padding *)

Fixpoint pad_zeros (fuel : nat) (limit : Z) : cpp SHA2 unit :=
  match fuel with
  | O => block
  | S fuel' =>
      i ← gets Message_Block_Index;
      if i <? limit then append 0 ;; pad_zeros fuel' limit else mret tt
  end.
Definition octet_of (w bits : Z) : Z := Z.land (Z.shiftr w bits) 0xFF.
Definition store_length : cpp SHA2 unit :=
  s ← get;
  store 56 (octet_of (Length_High s) 24) ;; store 57 (octet_of (Length_High s) 16) ;;
  store 58 (octet_of (Length_High s) 8) ;; store 59 (octet_of (Length_High s) 0) ;;
  store 60 (octet_of (Length_Low s) 24) ;; store 61 (octet_of (Length_Low s) 16) ;;
  store 62 (octet_of (Length_Low s) 8) ;; store 63 (octet_of (Length_Low s) 0).
Definition PadMessage : cpp SHA2 unit :=
  i ← gets Message_Block_Index;
  (if 55 <? i then
     append 0x80 ;;
     pad_zeros 65 64 ;;
     modify ProcessMessageBlock ;;
     pad_zeros 65 56
   else
     append 0x80 ;;
     pad_zeros 65 56) ;;
  store_length ;;
  modify ProcessMessageBlock.

(** [None]: the call returns false and leaves the array as it is. *)
Definition Result : cpp SHA2 (option (list Z)) :=
  s ← get;
  if Corrupted s then mret None else
  (if Computed s then mret tt else PadMessage ;; modify set_computed) ;;
  s ← get;
  mret (Some (H s)).
End SHA2.

(** ** The standard *)

Module Fips180.
Definition modulus : Z := 2 ^ 32.
(** S^n(X) *)
Definition S_ (n x : Z) : Z := (x * 2 ^ n) mod modulus + x / 2 ^ (32 - n).
Definition f (t : nat) (b c d : Z) : Z :=
  if (t <? 20)%nat then Z.lor (Z.land b c) (Z.land (modulus - 1 - b) d)
  else if (t <? 40)%nat then Z.lxor (Z.lxor b c) d
  else if (t <? 60)%nat then Z.lor (Z.lor (Z.land b c) (Z.land b d)) (Z.land c d)
  else Z.lxor (Z.lxor b c) d.
Definition k (t : nat) : Z :=
  if (t <? 20)%nat then 0x5A827999 else if (t <? 40)%nat then 0x6ED9EBA1 else if (t <? 60)%nat then 0x8F1BBCDC else 0xCA62C1D6.

(** Numbers from octets, the most significant one first, and back. *)
Definition number (l : list Z) : Z := foldl (fun n v => 256 * n + v) 0 l.
Fixpoint octets_of (n : nat) (v : Z) : list Z :=
  match n with O => [] | S n' => octets_of n' (v / 256) ++ [v mod 256] end.

(** Pieces of [n] elements. *)
Fixpoint pieces (n count : nat) (l : list Z) : list (list Z) :=
  match count with O => [] | S c => take n l :: pieces n c (drop n l) end.
Definition words (b : list Z) : list Z := number <$> pieces 4 16 b.

(** The words W_t, the last one first. *)
Definition more (ws : list Z) : list Z :=
  S_ 1 (Z.lxor (Z.lxor (Z.lxor (ws !!! 2%nat) (ws !!! 7%nat)) (ws !!! 13%nat)) (ws !!! 15%nat)) :: ws.
Definition schedule (b : list Z) : list Z := reverse (Nat.iter 64 more (reverse (words b))).

Definition round (ws : list Z) (v : Z * Z * Z * Z * Z) (t : nat) : Z * Z * Z * Z * Z :=
  let '(a, b, c, d, e) := v in
  ((S_ 5 a + f t b c d + e + ws !!! t + k t) mod modulus, a, S_ 30 b, c, d).
Definition compress (h : list Z) (b : list Z) : list Z :=
  let '(a, b, c, d, e) := foldl (round (schedule b)) (h !!! 0%nat, h !!! 1%nat, h !!! 2%nat, h !!! 3%nat, h !!! 4%nat) (seq 0 80) in
  zip_with (fun x y => (x + y) mod modulus) h [a; b; c; d; e].

(** A message with a 1 bit, as few zeros as make blocks of 64 octets, and its length in bits. *)
Definition zeros (n : nat) : nat := Z.to_nat ((- (Z.of_nat n + 9)) mod 64).
Definition pad (msg : list Z) : list Z :=
  msg ++ [0x80] ++ replicate (zeros (length msg)) 0 ++ octets_of 8 (8 * Z.of_nat (length msg)).
Definition initial : list Z := [0x67452301; 0xEFCDAB89; 0x98BADCFE; 0x10325476; 0xC3D2E1F0].
Definition digest (msg : list Z) : list Z :=
  foldl compress initial (pieces 64 (length (pad msg) / 64) (pad msg)).
End Fips180.

(** ** The digest is SHA-1

    However a message is cut into pieces, the class computes the digest of FIPS PUB 180-1, and
    it reports a failure exactly when the message has 2^64 bits or more. *)

Import SHA2 Fips180.

(** ** Words and octets *)

Definition word (x : Z) : Prop := 0 <= x < 2 ^ 32.
Definition byte (x : Z) : Prop := 0 <= x < 256.

Lemma word_shiftr x : word x <-> Z.shiftr x 32 = 0.
Proof. unfold word. rewrite Z.shiftr_div_pow2 by done. pose proof (Z.div_small_iff x (2 ^ 32)). lia. Qed.
Lemma word_lxor x y : word x -> word y -> word (Z.lxor x y).
Proof. rewrite !word_shiftr, Z.shiftr_lxor. by intros -> ->. Qed.
Lemma word_lor x y : word x -> word y -> word (Z.lor x y).
Proof. rewrite !word_shiftr, Z.shiftr_lor. by intros -> ->. Qed.
Lemma word_land x y : word x -> word (Z.land x y).
Proof. rewrite !word_shiftr, Z.shiftr_land. intros ->. by rewrite Z.land_0_l. Qed.
Lemma word_mod x : word (x mod 2 ^ 32).
Proof. apply Z.mod_pos_bound. done. Qed.

Lemma land_mask x : Z.land x mask = x mod 2 ^ 32.
Proof. apply (Z.land_ones x 32). done. Qed.
Lemma masked_wrap x : Z.land (wrap32 x) mask = x mod 2 ^ 32.
Proof. rewrite land_mask. apply Z.mod_mod. done. Qed.

(** Numbers side by side. *)
Lemma lor_shiftl a b n : 0 <= n -> 0 <= b < 2 ^ n -> Z.lor (Z.shiftl a n) b = a * 2 ^ n + b.
Proof.
  intros Hn Hb. rewrite <-Z.lxor_lor, <-Z.add_nocarry_lxor, Z.shiftl_mul_pow2 by (done || (apply Z.bits_inj'; intros i Hi; rewrite Z.land_spec, Z.bits_0, Z.shiftl_spec by done;
    destruct (Z.lt_ge_cases i n); [by rewrite Z.testbit_neg_r by lia|]; replace b with (b mod 2 ^ n) by (by apply Z.mod_small); rewrite Z.mod_pow2_bits_high by lia; apply andb_false_r)). done.
Qed.

Lemma circular_shift n x : 0 < n < 32 -> word x -> CircularShift n x = S_ n x.
Proof.
  intros Hn Hx. unfold CircularShift, S_, modulus. rewrite masked_wrap, land_mask, (Z.mod_small x) by done. rewrite Z.shiftl_mul_pow2, Z.shiftr_div_pow2 by lia.
  replace (2 ^ 32) with (2 ^ (32 - n) * 2 ^ n) by (rewrite <-Z.pow_add_r by lia; f_equal; lia). rewrite Z.mul_mod_distr_r by (apply Z.pow_nonzero; lia).
  rewrite <-(Z.shiftl_mul_pow2 (x mod _)), lor_shiftl by lia || (split; [apply Z.div_pos; unfold word in *; lia|]; apply Z.div_lt_upper_bound; [lia|]; rewrite <-Z.pow_add_r by lia; replace (32 - n + n) with 32 by lia; apply Hx).
  by rewrite Z.shiftl_mul_pow2 by lia.
Qed.
Lemma word_circular n x : 0 < n < 32 -> word x -> word (CircularShift n x).
Proof.
  intros Hn Hx. unfold CircularShift. rewrite masked_wrap, land_mask, (Z.mod_small x) by done. apply word_lor; [apply word_mod|]. rewrite Z.shiftr_div_pow2 by lia.
  split; [apply Z.div_pos; unfold word in *; lia|]. apply Z.div_lt_upper_bound; [lia|]. assert (1 <= 2 ^ (32 - n)) by (change 1 with (2 ^ 0); apply Z.pow_le_mono_r; lia). unfold word in Hx. nia.
Qed.

Lemma complement_word x : word x -> complement x = modulus - 1 - x /\ word (complement x).
Proof.
  intros Hx. assert (E : complement x = modulus - 1 - x).
  { unfold complement. change (modulus - 1) with (Z.ones 32). change mask with (Z.ones 32).
    rewrite Z.sub_nocarry_ldiff by (apply Z.ldiff_ones_r_low; [apply Hx|]; destruct (decide (x = 0)) as [->|]; [done|]; apply Z.log2_lt_pow2; unfold word in Hx; lia).
    apply Z.bits_inj'. intros i Hi. rewrite Z.lxor_spec, Z.ldiff_spec, Z.testbit_ones_nonneg by lia. destruct (Z.ltb_spec i 32); [by destruct (Z.testbit x i)|].
    replace x with (x mod 2 ^ 32) by (by apply Z.mod_small). by rewrite Z.mod_pow2_bits_high by lia. }
  split; [done|]. rewrite E. unfold word, modulus in *. lia.
Qed.

(** ** A block *)

Definition is_block (b : list Z) : Prop := length b = 64%nat /\ Forall byte b.

Lemma byte_total b i : Forall byte b -> byte (b !!! i).
Proof. intros Hb. rewrite list_lookup_total_alt. destruct (b !! i) eqn:E; [by eapply Forall_lookup in E|]. done. Qed.
Lemma word_total W i : Forall word W -> word (W !!! i).
Proof. intros HW. rewrite list_lookup_total_alt. destruct (W !! i) eqn:E; [by eapply Forall_lookup in E|]. done. Qed.
Lemma drop_total (l : list Z) i : (i < length l)%nat -> drop i l = l !!! i :: drop (S i) l.
Proof. intros Hi. apply drop_S. by apply list_lookup_lookup_total_lt. Qed.

Lemma load_number b t : Forall byte b -> (t * 4 + 3 < length b)%nat -> load b t = number (take 4 (drop (t * 4) b)).
Proof.
  intros Hb Ht. rewrite (drop_total b (t * 4)), (drop_total b (S (t * 4))), (drop_total b (S (S (t * 4)))), (drop_total b (S (S (S (t * 4))))) by lia.
  unfold load. replace (t * 4 + 1)%nat with (S (t * 4)) by lia. replace (t * 4 + 2)%nat with (S (S (t * 4))) by lia. replace (t * 4 + 3)%nat with (S (S (S (t * 4)))) by lia. cbn [take]. unfold number. cbn [foldl].
  pose proof (byte_total b (t * 4) Hb) as H0. pose proof (byte_total b (S (t * 4)) Hb) as H1. pose proof (byte_total b (S (S (t * 4))) Hb) as H2. pose proof (byte_total b (S (S (S (t * 4)))) Hb) as H3.
  unfold byte in *. generalize dependent (b !!! (t * 4)%nat). generalize dependent (b !!! (S (t * 4))). generalize dependent (b !!! (S (S (t * 4)))). generalize dependent (b !!! (S (S (S (t * 4))))). intros d Hd c Hc x Hx a Ha.
  replace (Z.shiftl a 24) with (Z.shiftl (Z.shiftl a 8) 16) by (by rewrite Z.shiftl_shiftl). rewrite <-Z.shiftl_lor, (lor_shiftl a x 8) by lia.
  replace (Z.shiftl (a * 2 ^ 8 + x) 16) with (Z.shiftl (Z.shiftl (a * 2 ^ 8 + x) 8) 8) by (by rewrite Z.shiftl_shiftl). rewrite <-Z.shiftl_lor, (lor_shiftl _ c 8), (lor_shiftl _ d 8) by lia. rewrite take_0. cbn [foldl]. lia.
Qed.
Lemma number_bound l : Forall byte l -> 0 <= number l < 2 ^ (8 * Z.of_nat (length l)).
Proof.
  unfold number. induction l as [|v l IH] using rev_ind; [done|]. intros [Hl Hv]%Forall_app. rewrite Forall_singleton in Hv. specialize (IH Hl). rewrite foldl_app, length_app. cbn [foldl length].
  replace (8 * Z.of_nat (length l + 1)) with (8 * Z.of_nat (length l) + 8) by lia. rewrite Z.pow_add_r by lia. unfold byte in Hv. lia.
Qed.

Lemma pieces_lookup n c l i : (i < c)%nat -> pieces n c l !! i = Some (take n (drop (i * n) l)).
Proof.
  revert l i. induction c as [|c IH]; intros l [|i] Hi; [lia|lia|done|]. cbn [pieces]. cbn. rewrite IH by lia. by rewrite drop_drop.
Qed.
Lemma length_pieces n c l : length (pieces n c l) = c.
Proof. revert l. induction c as [|c IH]; intros l; [done|]. cbn. by rewrite IH. Qed.

Lemma words_load b : is_block b -> load b <$> seq 0 16 = words b.
Proof.
  intros [Hlen Hb]. apply list_eq. intros i. unfold words. rewrite !list_lookup_fmap. destruct (decide (i < 16)%nat).
  - rewrite lookup_seq_lt, pieces_lookup by lia. cbn. f_equal. apply load_number; [done|lia].
  - rewrite lookup_seq_ge by lia. by rewrite lookup_ge_None_2 by (rewrite length_pieces; lia).
Qed.
Lemma words_word b : is_block b -> Forall word (words b) /\ length (words b) = 16%nat.
Proof.
  intros [Hlen Hb]. unfold words. rewrite length_fmap, length_pieces. split; [|done]. apply Forall_lookup. intros i x. rewrite list_lookup_fmap.
  destruct (decide (i < 16)%nat).
  - rewrite pieces_lookup by done. intros [= <-]. pose proof (number_bound (take 4 (drop (i * 4) b))) as Hn. rewrite length_take, length_drop in Hn. replace (4 `min` (length b - i * 4))%nat with 4%nat in Hn by lia.
    apply Hn. by apply Forall_take, Forall_drop.
  - by rewrite lookup_ge_None_2 by (rewrite length_pieces; lia).
Qed.

Lemma reverse_total (W : list Z) i : (i < length W)%nat -> reverse W !!! i = W !!! (length W - S i)%nat.
Proof. intros Hi. rewrite !list_lookup_total_alt. by rewrite reverse_lookup by done. Qed.

Lemma extend_more n W : (16 <= length W)%nat -> Forall word W -> extend n W = reverse (Nat.iter n more (reverse W)) /\ Forall word (extend n W) /\ length (extend n W) = (n + length W)%nat.
Proof.
  revert W. induction n as [|n IH]; intros W Hlen HW; [change (Nat.iter 0 more (reverse W)) with (reverse W); by rewrite reverse_involutive|]. cbn [extend]. rewrite Nat.iter_succ_r.
  assert (Hnext : word (next_word W) /\ more (reverse W) = reverse (W ++ [next_word W])).
  { unfold next_word. set (x := Z.lxor _ _). assert (Hx : word x) by (unfold x; repeat apply word_lxor; by apply word_total). split; [by apply word_circular|].
    rewrite reverse_app. cbn [reverse rev_append app]. unfold more. rewrite !reverse_total by lia. cbn [app]. f_equal. rewrite circular_shift by done. done. }
  destruct Hnext as [Hw Hr]. rewrite Hr. destruct (IH (W ++ [next_word W])) as (E & H1 & H2); [rewrite length_app; cbn; lia|apply Forall_app; split; [done|]; by apply Forall_singleton|].
  split; [done|]. split; [done|]. rewrite H2, length_app. cbn. lia.
Qed.

Lemma word_sequence_schedule b : is_block b -> word_sequence b = schedule b /\ Forall word (word_sequence b).
Proof.
  intros Hb. unfold word_sequence, schedule. rewrite words_load by done. destruct (words_word b Hb) as [Hw Hl].
  destruct (extend_more 64 (words b)) as (E & H1 & _); [lia|done|]. split; [exact E|exact H1].
Qed.

Definition as_tuple (v : buffers) : Z * Z * Z * Z * Z := (A v, B v, C v, D v, E v).
Definition word_buffers (v : buffers) : Prop := word (A v) /\ word (B v) /\ word (C v) /\ word (D v) /\ word (E v).

Lemma turn_round g c W v t : Forall word W -> word_buffers v -> (forall x y z, word x -> word y -> word z -> g x y z = f t x y z) -> c = k t ->
  as_tuple (turn g c W v t) = round W (as_tuple v) t /\ word_buffers (turn g c W v t).
Proof.
  intros HW (HA & HB & HC & HD & HE) Hg ->. unfold turn, as_tuple, round, word_buffers. cbn [A B C D E]. rewrite masked_wrap, (circular_shift 5), (circular_shift 30), Hg by done.
  split; [done|]. split; [apply word_mod|]. rewrite <-circular_shift by done. split; [exact HA|]. split; [by apply word_circular|]. by split.
Qed.
Lemma turns_rounds g c W ts v : Forall word W -> word_buffers v -> (forall t x y z, t ∈ ts -> word x -> word y -> word z -> g x y z = f t x y z) -> (forall t, t ∈ ts -> c = k t) ->
  as_tuple (foldl (turn g c W) v ts) = foldl (round W) (as_tuple v) ts /\ word_buffers (foldl (turn g c W) v ts).
Proof.
  intros HW. revert v. induction ts as [|t ts IH]; intros v Hv Hg Hc; [done|]. cbn [foldl]. destruct (turn_round g c W v t) as [Et Ht]; [done|done|intros; apply Hg; [set_solver|done..]|apply Hc; set_solver|].
  rewrite <-Et. apply IH; [done|intros; apply Hg; [set_solver|done..]|intros; apply Hc; set_solver].
Qed.

Lemma rounds_correct W v : Forall word W -> word_buffers v -> as_tuple (rounds W v) = foldl (round W) (as_tuple v) (seq 0 80) /\ word_buffers (rounds W v).
Proof.
  intros HW Hv. unfold rounds. change (seq 0 80) with (((seq 0 20 ++ seq 20 20) ++ seq 40 20) ++ seq 60 20)%list. rewrite !foldl_app.
  assert (Hf : forall t m, t ∈ seq m 20 -> (m <= t < m + 20)%nat) by (intros t m Ht%elem_of_seq; lia).
  destruct (turns_rounds f_choose (K !!! 0%nat) W (seq 0 20) v) as [<- H1]; [done|done| | |set (v1 := foldl _ v _) in *].
  { intros t x y z Ht%Hf Hx _ _. unfold f, f_choose. destruct (Nat.ltb_spec t 20); [|lia]. by rewrite (proj1 (complement_word x Hx)). }
  { intros t Ht%Hf. unfold k. by destruct (Nat.ltb_spec t 20); [|lia]. }
  destruct (turns_rounds f_parity (K !!! 1%nat) W (seq 20 20) v1) as [<- H2]; [done|done| | |set (v2 := foldl _ v1 _) in *].
  { intros t x y z Ht%Hf _ _ _. unfold f. destruct (Nat.ltb_spec t 20); [lia|]. by destruct (Nat.ltb_spec t 40); [|lia]. }
  { intros t Ht%Hf. unfold k. destruct (Nat.ltb_spec t 20); [lia|]. by destruct (Nat.ltb_spec t 40); [|lia]. }
  destruct (turns_rounds f_majority (K !!! 2%nat) W (seq 40 20) v2) as [<- H3]; [done|done| | |set (v3 := foldl _ v2 _) in *].
  { intros t x y z Ht%Hf _ _ _. unfold f. destruct (Nat.ltb_spec t 20); [lia|]. destruct (Nat.ltb_spec t 40); [lia|]. by destruct (Nat.ltb_spec t 60); [|lia]. }
  { intros t Ht%Hf. unfold k. destruct (Nat.ltb_spec t 20); [lia|]. destruct (Nat.ltb_spec t 40); [lia|]. by destruct (Nat.ltb_spec t 60); [|lia]. }
  apply turns_rounds; [done|done| |].
  { intros t x y z Ht%Hf _ _ _. unfold f. destruct (Nat.ltb_spec t 20); [lia|]. destruct (Nat.ltb_spec t 40); [lia|]. by destruct (Nat.ltb_spec t 60); [lia|]. }
  { intros t Ht%Hf. unfold k. destruct (Nat.ltb_spec t 20); [lia|]. destruct (Nat.ltb_spec t 40); [lia|]. by destruct (Nat.ltb_spec t 60); [lia|]. }
Qed.

Definition is_state (h : list Z) : Prop := length h = 5%nat /\ Forall word h.
Lemma digest_block_correct h b : is_state h -> is_block b -> digest_block h b = compress h b /\ is_state (digest_block h b).
Proof.
  intros [Hlen Hh] Hb. destruct (word_sequence_schedule b Hb) as [Es HW]. unfold digest_block, compress. rewrite <-Es. clear Es.
  assert (Hv : word_buffers (mkBuffers (h !!! 0%nat) (h !!! 1%nat) (h !!! 2%nat) (h !!! 3%nat) (h !!! 4%nat))).
  { unfold word_buffers. cbn [A B C D E]. repeat match goal with |- _ /\ _ => split end; by apply word_total. }
  revert HW. generalize (word_sequence b). intros W HW. pose proof (proj1 (rounds_correct W _ HW Hv)) as Er. revert Er. generalize (rounds W (mkBuffers (h !!! 0%nat) (h !!! 1%nat) (h !!! 2%nat) (h !!! 3%nat) (h !!! 4%nat))).
  intros [a x c d e] Er. unfold as_tuple in Er. cbn [A B C D E] in Er. rewrite <-Er. rewrite !masked_wrap. cbn [A B C D E]. clear Er Hv HW. destruct h as [|h0 [|h1 [|h2 [|h3 [|h4 [|]]]]]]; try discriminate Hlen.
  split; [reflexivity|]. split; [reflexivity|]. repeat first [apply Forall_nil; exact I|apply Forall_cons; split; [apply word_mod|]].
Qed.

(** ** Absorbing octets *)

(** The digest of the whole blocks of a message. *)
Definition hashed (done : list Z) : list Z := foldl compress initial (pieces 64 (length done / 64) done).

Lemma pieces_app n c1 c2 l1 l2 : length l1 = (c1 * n)%nat -> pieces n (c1 + c2) (l1 ++ l2) = (pieces n c1 l1 ++ pieces n c2 l2)%list.
Proof.
  revert l1. induction c1 as [|c1 IH]; intros l1 Hlen.
  - cbn in Hlen. by apply length_zero_iff_nil in Hlen as ->.
  - cbn [Nat.add pieces]. rewrite take_app_le, drop_app_le by lia. cbn [app]. f_equal. apply IH. rewrite length_drop. lia.
Qed.
Lemma hashed_app l b : (length l mod 64 = 0)%nat -> length b = 64%nat -> hashed (l ++ b) = compress (hashed l) b.
Proof.
  intros Hl Hb. apply Nat.mod_divide in Hl as [c Hl]; [|done]. unfold hashed. rewrite length_app, Hb, Hl. replace ((c * 64 + 64) / 64)%nat with (c + 1)%nat by (rewrite Nat.div_add_l by lia; done).
  rewrite Nat.div_mul by lia. rewrite pieces_app, foldl_app by lia. cbn [pieces]. by rewrite take_ge by lia.
Qed.
Lemma whole_app (l b : list Z) : (length l mod 64 = 0)%nat -> length b = 64%nat -> (length (l ++ b) mod 64 = 0)%nat.
Proof. intros Hl Hb. rewrite length_app, Hb. rewrite <-Nat.Div0.add_mod_idemp_l, Hl. done. Qed.

(** What the block holds, and everything else. *)
Definition holds (pre : list Z) (s : SHA2) : Prop :=
  is_block (Message_Block s) /\ Message_Block_Index s = Z.of_nat (length pre) /\ take (length pre) (Message_Block s) = pre.
Definition others (s : SHA2) : list Z * Z * Z * bool * bool := (H s, Length_Low s, Length_High s, Computed s, Corrupted s).

Lemma store_ok i v s : (i < 64)%nat -> store (Z.of_nat i) v s = Ok tt (set_block (<[i := v]> (Message_Block s)) (Message_Block_Index s) s).
Proof. intros Hi. unfold store. rewrite bool_decide_true by lia. by rewrite Nat2Z.id. Qed.
Lemma is_block_insert b i v : is_block b -> byte v -> is_block (<[i := v]> b).
Proof. intros [Hlen Hb] Hv. split; [by rewrite length_insert|]. by apply Forall_insert. Qed.

Lemma append_ok pre v s : holds pre s -> (length pre < 64)%nat -> byte v -> returns (append v) s (fun _ s' => holds (pre ++ [v]) s' /\ others s' = others s).
Proof.
  intros (Hb & Hi & Ht) Hlen Hv. unfold append. wp_step. wp_step. wp_step. wp_step. rewrite Hi. eapply returns_Ok; [by apply store_ok|]. split; [|done].
  split; [by apply is_block_insert|]. cbn [Message_Block Message_Block_Index set_block]. rewrite length_app. cbn [length]. split; [lia|].
  rewrite Nat.add_1_r. rewrite (take_S_r _ _ v) by (apply list_lookup_insert_eq; destruct Hb; lia). by rewrite take_insert_ge, Ht by lia.
Qed.

Lemma pad_zeros_ok fuel pre limit s : holds pre s -> (length pre <= limit <= 64)%nat -> (limit - length pre < fuel)%nat ->
  returns (pad_zeros fuel (Z.of_nat limit)) s (fun _ s' => holds (pre ++ replicate (limit - length pre) 0) s' /\ others s' = others s).
Proof.
  revert pre s. induction fuel as [|fuel IH]; intros pre s Hs Hlim Hfuel; [lia|]. cbn [pad_zeros]. wp_step. wp_step. rewrite (proj1 (proj2 Hs)).
  destruct (Z.ltb_spec (Z.of_nat (length pre)) (Z.of_nat limit)).
  - wp_step. eapply returns_mono; [apply (append_ok pre); [done|lia|done]|]. intros [] s1 [H1 E1]. eapply returns_mono; [apply (IH (pre ++ [0])); [done|rewrite length_app; cbn; lia..]|].
    intros [] s2 [H2 E2]. split; [|by rewrite E2]. rewrite length_app in H2. cbn [length] in H2. replace (limit - length pre)%nat with (S (limit - (length pre + 1))) by lia. cbn [replicate]. by rewrite <-app_assoc in H2.
  - apply returns_ret. replace (limit - length pre)%nat with 0%nat by lia. cbn [replicate]. by rewrite app_nil_r.
Qed.

(** ** The length *)

Lemma octet_div w n : 0 <= n -> octet_of w n = (w / 2 ^ n) mod 256.
Proof. intros Hn. unfold octet_of. change 0xFF with (Z.ones 8). by rewrite Z.land_ones, Z.shiftr_div_pow2. Qed.
Lemma length_octets high low : 0 <= low < 2 ^ 32 -> octets_of 8 (high * 2 ^ 32 + low) =
  [octet_of high 24; octet_of high 16; octet_of high 8; octet_of high 0; octet_of low 24; octet_of low 16; octet_of low 8; octet_of low 0].
Proof.
  intros Hlow. assert (Hl : forall n, 0 <= n <= 24 -> ((high * 2 ^ 32 + low) / 2 ^ n) mod 256 = octet_of low n).
  { intros n Hn. rewrite octet_div by lia. replace (2 ^ 32) with (2 ^ (24 - n) * 256 * 2 ^ n) by (change 256 with (2 ^ 8); rewrite <-!Z.pow_add_r by lia; f_equal; lia).
    rewrite Z.mul_assoc, Z.div_add_l by (apply Z.pow_nonzero; lia). rewrite Z.mul_assoc, Z.add_comm. by rewrite Z.mod_add. }
  assert (Hh : forall n, 0 <= n -> ((high * 2 ^ 32 + low) / 2 ^ (32 + n)) mod 256 = octet_of high n).
  { intros n Hn. rewrite octet_div, Z.pow_add_r, <-Z.div_div by lia. rewrite Z.div_add_l, (Z.div_small low) by lia. by rewrite Z.add_0_r. }
  set (v := high * 2 ^ 32 + low) in *. cbn [octets_of app]. rewrite !Z.div_div by lia.
  rewrite <-(Hh 24), <-(Hh 16), <-(Hh 8), <-(Hh 0), <-(Hl 24), <-(Hl 16), <-(Hl 8), <-(Hl 0) by lia. rewrite Z.div_1_r. reflexivity.
Qed.
Lemma byte_octet w n : byte (octet_of w n).
Proof. unfold octet_of. change 0xFF with (Z.ones 8). rewrite Z.land_ones by done. apply Z.mod_pos_bound. done. Qed.

Lemma store_length_ok pre s n : holds pre s -> length pre = 56%nat -> 0 <= Length_Low s < 2 ^ 32 -> Length_High s * 2 ^ 32 + Length_Low s = n ->
  returns store_length s (fun _ s' => Message_Block s' = (pre ++ octets_of 8 n)%list /\ is_block (Message_Block s') /\ others s' = others s).
Proof.
  intros (Hb & _ & Ht) Hlen Hlow <-. rewrite Hlen in Ht.
  assert (Hd : exists t, Message_Block s = (pre ++ t)%list /\ length t = 8%nat).
  { exists (drop 56 (Message_Block s)). rewrite <-Ht at 1. rewrite take_drop. split; [done|]. rewrite length_drop. destruct Hb. lia. }
  destruct Hd as (t & Eb & Hlt). destruct s as [hs low high b i c1 c2]. cbn [Message_Block Length_Low Length_High] in *. subst b.
  unfold store_length. wp_step. eapply returns_Ok; [reflexivity|]. cbn [Length_Low Length_High].
  pose proof (fun k v b j => store_ok (56 + k) v (mkSHA2 hs low high b j c1 c2)) as Hst.
  wp_step. eapply returns_Ok; [apply (Hst 0%nat); lia|]. wp_step. eapply returns_Ok; [apply (Hst 1%nat); lia|]. wp_step. eapply returns_Ok; [apply (Hst 2%nat); lia|].
  wp_step. eapply returns_Ok; [apply (Hst 3%nat); lia|]. wp_step. eapply returns_Ok; [apply (Hst 4%nat); lia|]. wp_step. eapply returns_Ok; [apply (Hst 5%nat); lia|].
  wp_step. eapply returns_Ok; [apply (Hst 6%nat); lia|]. eapply returns_Ok; [apply (Hst 7%nat); lia|]. clear Hst.
  cbn [Message_Block set_block Message_Block_Index]. split; [|split; [|done]].
  - rewrite <-Hlen, !insert_app_r. f_equal. rewrite length_octets by done. destruct t as [|? [|? [|? [|? [|? [|? [|? [|? [|]]]]]]]]]; try discriminate Hlt. reflexivity.
  - repeat (apply is_block_insert; [|apply byte_octet]). exact Hb.
Qed.

(** ** Whole messages *)

Record absorbed (done rest : list Z) (s : SHA2) : Prop := mkAbsorbed {
  a_whole : (length done mod 64 = 0)%nat;
  a_short : (length rest < 64)%nat;
  a_hash : H s = hashed done;
  a_state : is_state (H s);
  a_holds : holds rest s;
  a_bytes : Forall byte rest;
  a_low : 0 <= Length_Low s < 2 ^ 32;
  a_high : 0 <= Length_High s < 2 ^ 32;
  a_length : Length_High s * 2 ^ 32 + Length_Low s = 8 * Z.of_nat (length (done ++ rest)) }.

Lemma block_processed done b s : (length done mod 64 = 0)%nat -> H s = hashed done -> is_state (H s) -> Message_Block s = b -> is_block b ->
  H (ProcessMessageBlock s) = hashed (done ++ b) /\ is_state (H (ProcessMessageBlock s)) /\ holds [] (ProcessMessageBlock s).
Proof.
  intros Hd Hh Hs <- Hb. destruct (digest_block_correct _ _ Hs Hb) as [Eh Hs']. unfold ProcessMessageBlock. cbn [H set_block set_H].
  rewrite (hashed_app done _ Hd (proj1 Hb)), <-Hh. split; [exact Eh|]. split; [exact Hs'|]. split; [exact Hb|]. by split.
Qed.

Lemma digest_hashed msg l : pad msg = l -> digest msg = hashed l.
Proof. by intros <-. Qed.
Lemma zeros_spec (done rest : list Z) : (length done mod 64 = 0)%nat -> (length rest < 64)%nat ->
  zeros (length (done ++ rest)) = if decide (55 < length rest)%nat then (64 - (length rest + 1) + 56)%nat else (56 - (length rest + 1))%nat.
Proof.
  intros Hd Hr. apply Nat.mod_divide in Hd as [c Hd]; [|done]. unfold zeros. rewrite length_app, Hd. replace (- (Z.of_nat (c * 64 + length rest) + 9)) with (- (Z.of_nat (length rest) + 9) + - Z.of_nat c * 64) by lia.
  rewrite Z.mod_add by done. destruct (decide _).
  - rewrite <-(Z.mod_unique _ 64 (-2) (128 - (Z.of_nat (length rest) + 9))) by lia. lia.
  - rewrite <-(Z.mod_unique _ 64 (-1) (64 - (Z.of_nat (length rest) + 9))) by lia. lia.
Qed.

Lemma holds_all pre s : holds pre s -> length pre = 64%nat -> Message_Block s = pre.
Proof. intros (Hb & _ & Ht) Hlen. by rewrite Hlen, take_ge in Ht by (destruct Hb; lia). Qed.

(** The last block: [pre] has 56 octets. *)
Lemma last_block_ok done pre s n : (length done mod 64 = 0)%nat -> H s = hashed done -> is_state (H s) -> holds pre s -> length pre = 56%nat ->
  0 <= Length_Low s < 2 ^ 32 -> Length_High s * 2 ^ 32 + Length_Low s = n ->
  returns (store_length ;; modify ProcessMessageBlock) s (fun _ s' => H s' = hashed (done ++ pre ++ octets_of 8 n) /\ is_state (H s') /\ Corrupted s' = Corrupted s).
Proof.
  intros Hd Hh Hs Hpre Hlen Hlow Hn. wp_step. eapply returns_mono; [exact (store_length_ok _ _ _ Hpre Hlen Hlow Hn)|]. intros [] s1 (Eb & Hb & Eo). apply returns_modify.
  unfold others in Eo. injection Eo as E1 E2 E3 E4 E5. rewrite <-E1 in Hh, Hs. rewrite Eb in Hb. destruct (block_processed done _ s1 Hd Hh Hs Eb Hb) as (F1 & F2 & _).
  split; [exact F1|]. split; [exact F2|exact E5].
Qed.

Lemma pad_message_ok done rest s : absorbed done rest s -> returns PadMessage s (fun _ s' => H s' = digest (done ++ rest) /\ is_state (H s') /\ Corrupted s' = Corrupted s).
Proof.
  intros [Hd Hr Hh Hs Hpre Hby Hlow _ Hn]. unfold PadMessage. wp_step. wp_step. rewrite (proj1 (proj2 Hpre)). pose proof (zeros_spec done rest Hd Hr) as Hz.
  assert (Hpad : forall l, pad (done ++ rest) = l -> forall s', H s' = hashed l -> H s' = digest (done ++ rest)) by (intros l <- s'; done).
  wp_step. destruct (Z.ltb_spec 55 (Z.of_nat (length rest))).
  - rewrite decide_True in Hz by lia. wp_step. eapply returns_mono; [exact (append_ok _ 0x80 _ Hpre Hr ltac:(done))|]. intros [] s1 [H1 E1].
    wp_step. eapply returns_mono; [apply (pad_zeros_ok 65 _ 64 _ H1); rewrite length_app; cbn [length]; lia|]. intros [] s2 [H2 E2]. wp_step. wp_step.
    set (b1 := ((rest ++ [128]) ++ _)%list) in H2. assert (Hb1 : length b1 = 64%nat) by (unfold b1; rewrite !length_app, length_replicate; cbn [length]; lia).
    rewrite <-E2 in E1. rewrite E2 in E1. pose proof E2 as E3. rewrite E1 in E3. unfold others in E3. injection E3 as F1 F2 F3 F4 F5. rewrite <-F1 in Hh, Hs.
    destruct (block_processed done b1 s2 Hd Hh Hs (holds_all _ _ H2 Hb1)) as (G1 & G2 & G3); [rewrite <-(holds_all _ _ H2 Hb1); apply H2|].
    eapply returns_mono; [apply (pad_zeros_ok 65 [] 56 _ G3); cbn [length]; lia|]. intros [] s3 [H3 E4]. cbn [length Nat.sub app] in H3.
    unfold others in E4. injection E4 as K1 K2 K3 K4 K5. cbn [Length_Low Length_High Corrupted ProcessMessageBlock set_block set_H] in K2, K3, K5.
    eapply returns_mono; [apply (last_block_ok (done ++ b1) (replicate 56 0) s3 (8 * Z.of_nat (length (done ++ rest)))); [by apply whole_app|exact (eq_trans K1 G1)|rewrite K1; exact G2|exact H3|by rewrite length_replicate|rewrite K2, F2; exact Hlow|rewrite K2, K3, F2, F3; exact Hn]|].
    intros [] s4 (L1 & L2 & L3). split; [|split; [done|by rewrite L3, K5]]. eapply Hpad; [|exact L1]. unfold pad. rewrite Hz. unfold b1. rewrite replicate_add, !length_app. cbn [length]. rewrite <-!app_assoc. reflexivity.
  - rewrite decide_False in Hz by lia. wp_step. eapply returns_mono; [exact (append_ok _ 0x80 _ Hpre Hr ltac:(done))|]. intros [] s1 [H1 E1].
    eapply returns_mono; [apply (pad_zeros_ok 65 _ 56 _ H1); rewrite length_app; cbn [length]; lia|]. intros [] s2 [H2 E2].
    rewrite E1 in E2. unfold others in E2. injection E2 as F1 F2 F3 F4 F5.
    eapply returns_mono; [apply (last_block_ok done ((rest ++ [128]) ++ replicate (56 - length (rest ++ [128])) 0) s2 (8 * Z.of_nat (length (done ++ rest)))); [exact Hd|rewrite F1; exact Hh|rewrite F1; exact Hs|exact H2|rewrite !length_app, length_replicate; cbn [length]; lia|rewrite F2; exact Hlow|rewrite F2, F3; exact Hn]|].
    intros [] s4 (L1 & L2 & L3). split; [|split; [done|by rewrite L3]]. eapply Hpad; [|exact L1]. unfold pad. rewrite Hz, !length_app. cbn [length]. rewrite <-!app_assoc. reflexivity.
Qed.

Lemma count_ok s n : 0 <= Length_Low s < 2 ^ 32 -> 0 <= Length_High s < 2 ^ 32 -> Length_High s * 2 ^ 32 + Length_Low s = 8 * n ->
  (n + 1 < 2 ^ 61 /\ exists low high, count s = set_length low high s /\ 0 <= low < 2 ^ 32 /\ 0 <= high < 2 ^ 32 /\ high * 2 ^ 32 + low = 8 * (n + 1)) \/
  (n + 1 = 2 ^ 61 /\ count s = set_corrupted (set_length 0 0 s)).
Proof.
  intros Hl Hh Hn. unfold count. rewrite !masked_wrap. destruct (decide (Length_Low s + 8 = 2 ^ 32)) as [E|E].
  - rewrite E. rewrite Z.mod_same by done. cbn [Z.eqb]. destruct (decide (Length_High s + 1 = 2 ^ 32)) as [E'|E'].
    + rewrite E', Z.mod_same by done. right. split; [lia|done].
    + rewrite (Z.mod_small (Length_High s + 1)) by lia. destruct (Z.eqb_spec (Length_High s + 1) 0); [lia|]. left. split; [lia|]. exists 0, (Length_High s + 1). split; [done|]. lia.
  - rewrite Z.mod_small by lia. destruct (Z.eqb_spec (Length_Low s + 8) 0); [lia|]. left. split; [lia|]. exists (Length_Low s + 8), (Length_High s). split; [done|]. lia.
Qed.

Definition took (msg : list Z) (s : SHA2) : Prop :=
  if decide (Z.of_nat (length msg) < 2 ^ 61) then Computed s = false /\ Corrupted s = false /\ exists done rest, msg = (done ++ rest)%list /\ absorbed done rest s
  else Corrupted s = true.

Lemma octet_ok done rest v s : absorbed done rest s -> Computed s = false -> Corrupted s = false -> byte v -> returns (octet v) s (fun _ s' => took ((done ++ rest) ++ [v]) s').
Proof.
  intros [Hd Hr Hh Hs Hpre Hby Hlow Hhigh Hn] Hcomp Hcorr Hv. unfold octet. replace (Z.land v 0xFF) with v by (change 0xFF with (Z.ones 8); rewrite Z.land_ones by done; symmetry; by apply Z.mod_small).
  wp_step. eapply returns_mono; [exact (append_ok _ v _ Hpre Hr Hv)|]. intros [] s1 [H1 E1]. unfold others in E1. injection E1 as F1 F2 F3 F4 F5. rewrite <-F1 in Hh, Hs. rewrite <-F2 in Hlow. rewrite <-F3 in Hhigh. rewrite <-F2, <-F3 in Hn.
  wp_step. wp_step. wp_step. wp_step. destruct (count_ok s1 _ Hlow Hhigh Hn) as [(Hlt & low & high & Ec & Hlow' & Hhigh' & Hn')|(Hlt & Ec)]; rewrite Ec; cbn [Message_Block_Index set_length set_corrupted].
  - rewrite (proj1 (proj2 H1)), length_app. cbn [length]. assert (Hlen : Z.of_nat (length ((done ++ rest) ++ [v])) < 2 ^ 61) by (rewrite length_app; cbn [length]; lia). destruct (Z.eqb_spec (Z.of_nat (length rest + 1)) 64).
    + apply returns_modify. unfold took. rewrite decide_True by exact Hlen. split; [by rewrite <-Hcomp|]. split; [by rewrite <-Hcorr|]. exists (done ++ (rest ++ [v])), []. split; [by rewrite app_nil_r, app_assoc|].
      assert (Hl : length (rest ++ [v]) = 64%nat) by (rewrite length_app; cbn [length]; lia). destruct (block_processed done (rest ++ [v]) s1 Hd Hh Hs (holds_all _ _ H1 Hl)) as (G1 & G2 & G3); [rewrite <-(holds_all _ _ H1 Hl); apply H1|].
      split; [by apply whole_app|cbn; lia|exact G1|exact G2|exact G3|by apply Forall_nil|exact Hlow'|exact Hhigh'|]. change (high * 2 ^ 32 + low = 8 * Z.of_nat (length ((done ++ rest ++ [v]) ++ []))). rewrite app_nil_r, app_assoc, length_app. cbn [length]. lia.
    + apply returns_ret. unfold took. rewrite decide_True by exact Hlen. split; [by rewrite <-Hcomp|]. split; [by rewrite <-Hcorr|]. exists done, (rest ++ [v]). split; [by rewrite app_assoc|].
      split; [exact Hd|rewrite length_app; cbn [length]; lia|exact Hh|exact Hs|exact H1|apply Forall_app; split; [done|by apply Forall_singleton]|exact Hlow'|exact Hhigh'|].
      change (high * 2 ^ 32 + low = 8 * Z.of_nat (length (done ++ rest ++ [v]))). rewrite app_assoc, length_app. cbn [length]. lia.
  - assert (Hlen : ~ Z.of_nat (length ((done ++ rest) ++ [v])) < 2 ^ 61) by (rewrite length_app; cbn [length]; lia).
    destruct (_ =? 64); [apply returns_modify|apply returns_ret]; unfold took; by rewrite decide_False by exact Hlen.
Qed.

Lemma octets_ok l msg s : took msg s -> Forall byte l -> returns (octets l) s (fun _ s' => took (msg ++ l) s').
Proof.
  revert msg s. induction l as [|v l IH]; intros msg s Ht Hl; [apply returns_ret; by rewrite app_nil_r|]. apply Forall_cons in Hl as [Hv Hl]. cbn [octets]. wp_step. wp_step.
  assert (Hcorr : Corrupted s = true -> took (msg ++ v :: l) s).
  { intros Hc. unfold took in *. rewrite length_app. destruct (decide (Z.of_nat (length msg) < _)) as [_|]; [destruct Ht as (_ & Hf & _); congruence|]. rewrite decide_False by lia. done. }
  destruct (Corrupted s) eqn:Ec; [apply returns_ret; by apply Hcorr|]. wp_step. unfold took in Ht. destruct (decide _); [|congruence]. destruct Ht as (Hcomp & _ & done & rest & -> & Ha).
  eapply returns_mono; [exact (octet_ok _ _ _ _ Ha Hcomp Ec Hv)|]. intros [] s1 H1. eapply returns_mono; [exact (IH _ _ H1 Hl)|]. intros [] s2 H2. by rewrite <-app_assoc in H2.
Qed.

Lemma input_ok l msg s : took msg s -> Forall byte l -> returns (Input l) s (fun _ s' => took (msg ++ l) s').
Proof.
  intros Ht Hl. destruct l as [|v l]; [apply returns_ret; by rewrite app_nil_r|]. unfold Input. wp_step. eapply returns_Ok; [reflexivity|].
  destruct (Computed s || Corrupted s) eqn:Eb; [|exact (octets_ok _ _ _ Ht Hl)]. apply returns_modify. unfold took in *. rewrite length_app. destruct (decide (Z.of_nat (length msg) < _)).
  - destruct Ht as (Ec & Ed & _). by rewrite Ec, Ed in Eb.
  - rewrite decide_False by lia. done.
Qed.

Lemma inputs_ok pieces msg s : took msg s -> Forall (Forall byte) pieces -> returns (iterM Input pieces) s (fun _ s' => took (msg ++ concat pieces) s').
Proof.
  revert msg s. induction pieces as [|l ps IH]; intros msg s Ht Hp; [apply returns_ret; cbn; by rewrite app_nil_r|]. apply Forall_cons in Hp as [Hl Hp]. cbn [iterM concat]. wp_step.
  eapply returns_mono; [exact (input_ok _ _ _ Ht Hl)|]. intros [] s1 H1. eapply returns_mono; [exact (IH _ _ H1 Hp)|]. intros [] s2 H2. by rewrite <-app_assoc in H2.
Qed.

Lemma reset_ok s : is_block (Message_Block s) -> took [] (Reset s).
Proof.
  intros Hb. unfold took. rewrite decide_True by done. split; [done|]. split; [done|]. exists [], []. split; [done|]. split; try done; try (cbn; lia).
  - split; [done|]. repeat (apply Forall_cons; split; [done|]). by apply Forall_nil.
Qed.

(** [Result] gives the digest, or reports that the message was too long. *)
Lemma result_ok msg s : took msg s -> returns Result s (fun r s' => r = (if decide (Z.of_nat (length msg) < 2 ^ 61) then Some (digest msg) else None) /\
  (Z.of_nat (length msg) < 2 ^ 61 -> Computed s' = true /\ Corrupted s' = false /\ H s' = digest msg)).
Proof.
  intros Ht. unfold Result. wp_step. eapply returns_Ok; [reflexivity|]. unfold took in Ht. destruct (decide _) as [Hl|Hl].
  - destruct Ht as (Hcomp & Hcorr & done & rest & -> & Ha). rewrite Hcorr, Hcomp. wp_step. wp_step. eapply returns_mono; [exact (pad_message_ok _ _ _ Ha)|]. intros [] s1 (H1 & _ & E1).
    wp_step. wp_step. eapply returns_Ok; [reflexivity|]. apply returns_ret. cbn [H set_computed]. rewrite H1. split; [done|]. intros _. split; [done|]. split; [by rewrite <-Hcorr|done].
  - rewrite Ht. apply returns_ret. split; [done|]. intros; lia.
Qed.

(** C26. The class computes SHA-1: an object that is reset takes in a message in any pieces and then gives the digest of FIPS PUB 180-1,
    whatever was in its memory before; it reports a failure instead exactly when the message has 2^61 octets or more. A second call of
    [Result] gives the same, and octets that come after the first one spoil the object. *)
Theorem sha1_correct s pieces v : is_block (Message_Block s) -> Forall (Forall byte) pieces -> byte v ->
  exists s1, (iterM Input pieces ;; Result) (Reset s) = Ok (if decide (Z.of_nat (length (concat pieces)) < 2 ^ 61) then Some (digest (concat pieces)) else None) s1 /\
    (Z.of_nat (length (concat pieces)) < 2 ^ 61 -> Result s1 = Ok (Some (digest (concat pieces))) s1 /\ exists s2, (Input [v] ;; Result) s1 = Ok None s2).
Proof.
  intros Hb Hp Hv. assert (Hr : returns (iterM Input pieces ;; Result) (Reset s) (fun r s' => r = (if decide (Z.of_nat (length (concat pieces)) < 2 ^ 61) then Some (digest (concat pieces)) else None) /\
    (Z.of_nat (length (concat pieces)) < 2 ^ 61 -> Computed s' = true /\ Corrupted s' = false /\ H s' = digest (concat pieces)))).
  { wp_step. eapply returns_mono; [exact (inputs_ok _ _ _ (reset_ok s Hb) Hp)|]. intros [] s1 H1. exact (result_ok _ _ H1). }
  destruct Hr as (r & s1 & E & -> & Hs). exists s1. split; [exact E|]. intros Hl. destruct (Hs Hl) as (Hcomp & Hcorr & Hh). split.
  - unfold Result. rewrite (bind_Ok get _ s1 s1 s1 eq_refl), Hcorr, Hcomp. rewrite <-Hh. reflexivity.
  - exists (set_corrupted s1). unfold Input. rewrite (bind_Ok (s ← get; if Computed s || Corrupted s then modify set_corrupted else octets [v]) _ s1 tt (set_corrupted s1)); [done|].
    rewrite (bind_Ok get _ s1 s1 s1 eq_refl), Hcomp. done.
Qed.

(** The digest of the three octets of the string abc, the example of the standard. *)
Lemma sha1_correct_witness : is_block (Message_Block (SHA2_new (replicate 64 255))) /\ byte 0 /\
  exists s1, (iterM Input [[97; 98]; []; [99]] ;; Result) (Reset (SHA2_new (replicate 64 255))) = Ok (Some [0xA9993E36; 0x4706816A; 0xBA3E2571; 0x7850C26C; 0x9CD0D89D]) s1.
Proof.
  assert (Hb : is_block (Message_Block (SHA2_new (replicate 64 255)))) by (split; [done|]; by apply Forall_replicate).
  split; [exact Hb|]. split; [done|]. destruct (sha1_correct (SHA2_new (replicate 64 255)) [[97; 98]; []; [99]] 0 Hb) as (s1 & E & _); [by repeat constructor|done|]. exists s1. exact E.
Defined.
