(* ===== verification/WsBase64.v ===== *)
(** * WsBase64: base64 texts

    Models src/websocket/websocket/base64.cpp, and that decoding undoes encoding. Octets are
    numbers below 256, texts are strings. *)

From Stdlib Require Import Ascii String.
From S2P Require Import Prelude Text.

Local Open Scope Z_scope.
Local Open Scope string_scope.

Module Base64.
Definition base64_chars : string := "ABCDEFGHIJKLMNOPQRSTUVWXYZabcdefghijklmnopqrstuvwxyz0123456789+/".

Definition isalnum (c : ascii) : bool :=
  let n := nat_of_ascii c in (Nat.leb 48 n && Nat.leb n 57) || (Nat.leb 65 n && Nat.leb n 90) || (Nat.leb 97 n && Nat.leb n 122).
Definition is_base64 (c : ascii) : bool := isalnum c || char_eqb c "+" || char_eqb c "/".

(** [base64_chars[v]] *)
Definition char_at (v : Z) : ascii := default "000"%char (String.get (Z.to_nat v) base64_chars).
(** [base64_chars.find(c)] as an [unsigned char]; [npos] becomes 255. *)
Fixpoint find_char (c : ascii) (s : string) (pos : Z) : Z :=
  match s with
  | EmptyString => 255
  | String d s' => if char_eqb c d then pos else find_char c s' (pos + 1)
  end.
Definition find (c : ascii) : Z := find_char c base64_chars 0.

(** ** Encoding *)

(** [char_array_4] of three octets. *)
Definition four (a b c : Z) : list Z :=
  [Z.shiftr (Z.land a 0xfc) 2;
   Z.shiftl (Z.land a 0x03) 4 + Z.shiftr (Z.land b 0xf0) 4;
   Z.shiftl (Z.land b 0x0f) 2 + Z.shiftr (Z.land c 0xc0) 6;
   Z.land c 0x3f].
Fixpoint texts (l : list Z) : string := match l with [] => "" | v :: l' => String (char_at v) (texts l') end.

(** [pending]: the octets in [char_array_3]. *)
Definition finish_encode (pending : list Z) (ret : string) : string :=
  match pending with
  | [] => ret
  | _ =>
      let i := length pending in
      let c3 := (pending ++ replicate (3 - i) 0)%list in
      ret +:+ texts (take (i + 1) (four (c3 !!! 0%nat) (c3 !!! 1%nat) (c3 !!! 2%nat))) +:+ string_of_list_ascii (replicate (3 - i) "="%char)
  end.
Fixpoint encode_loop (l pending : list Z) (ret : string) : string :=
  match l with
  | [] => finish_encode pending ret
  | v :: l' =>
      let pending := (pending ++ [v])%list in
      if (length pending =? 3)%nat then encode_loop l' [] (ret +:+ texts (four (pending !!! 0%nat) (pending !!! 1%nat) (pending !!! 2%nat)))
      else encode_loop l' pending ret
  end.
Definition base64_encode (l : list Z) : string := encode_loop l [] "".

(** ** Decoding *)

(** [char_array_3] of four values. *)
Definition three (a b c d : Z) : list Z :=
  [wrap8 (Z.shiftl a 2 + Z.shiftr (Z.land b 0x30) 4);
   wrap8 (Z.shiftl (Z.land b 0xf) 4 + Z.shiftr (Z.land c 0x3c) 2);
   wrap8 (Z.shiftl (Z.land c 0x3) 6 + d)].

Definition finish_decode (pending : list ascii) (ret : list Z) : list Z :=
  match pending with
  | [] => ret
  | _ =>
      let i := length pending in
      let c4 := find <$> (pending ++ replicate (4 - i) "000"%char)%list in
      (ret ++ take (i - 1) (three (c4 !!! 0%nat) (c4 !!! 1%nat) (c4 !!! 2%nat) (c4 !!! 3%nat)))%list
  end.
Fixpoint decode_loop (s : string) (pending : list ascii) (ret : list Z) : list Z :=
  match s with
  | EmptyString => finish_decode pending ret
  | String c s' =>
      if negb (char_eqb c "=") && is_base64 c then
        let pending := (pending ++ [c])%list in
        if (length pending =? 4)%nat then
          let c4 := find <$> pending in
          decode_loop s' [] (ret ++ three (c4 !!! 0%nat) (c4 !!! 1%nat) (c4 !!! 2%nat) (c4 !!! 3%nat))%list
        else decode_loop s' pending ret
      else finish_decode pending ret
  end.
Definition base64_decode (s : string) : list Z := decode_loop s [] [].
End Base64.
Import Base64.

(** ** Round trip *)

Abbreviation digit v := (0 <= v < 64).

Lemma digits_enumerated (P : Z -> bool) : forallb P (Z.of_nat <$> seq 0 64) = true -> forall v, digit v -> P v = true.
Proof.
  rewrite forallb_forall. intros H v Hv. apply H. rewrite <-list_elem_of_In. apply list_elem_of_fmap. exists (Z.to_nat v). split; [lia|]. apply elem_of_seq. lia.
Qed.
Lemma find_char_at v : digit v -> find (char_at v) = v /\ negb (char_eqb (char_at v) "=") && is_base64 (char_at v) = true.
Proof.
  intros Hv. pose proof (digits_enumerated (fun v => (find (char_at v) =? v)%Z && (negb (char_eqb (char_at v) "=") && is_base64 (char_at v))) ltac:(vm_compute; reflexivity) v Hv) as H.
  apply andb_true_iff in H as [H1 H2]. split; [lia|done].
Qed.

Lemma shiftr_land_high a m n : 0 <= n -> 0 <= m -> Z.shiftr (Z.land a (Z.shiftl (Z.ones m) n)) n = (a / 2 ^ n) mod 2 ^ m.
Proof. intros Hn Hm. rewrite Z.shiftr_land, Z.shiftr_shiftl_l, Z.sub_diag, Z.shiftl_0_r, Z.shiftr_div_pow2, Z.land_ones by lia. done. Qed.

Lemma four_value a b c : 0 <= a < 256 -> 0 <= b < 256 -> 0 <= c < 256 ->
  four a b c = [a / 4; a mod 4 * 16 + b / 16; b mod 16 * 4 + c / 64; c mod 64] /\ Forall (fun v => digit v) (four a b c).
Proof.
  intros Ha Hb Hc. assert (E : four a b c = [a / 4; a mod 4 * 16 + b / 16; b mod 16 * 4 + c / 64; c mod 64]).
  { unfold four. change 0xfc with (Z.shiftl (Z.ones 6) 2). change 0xf0 with (Z.shiftl (Z.ones 4) 4). change 0xc0 with (Z.shiftl (Z.ones 2) 6). change 0x03 with (Z.ones 2). change 0x0f with (Z.ones 4). change 0x3f with (Z.ones 6).
    rewrite !shiftr_land_high, !Z.shiftl_mul_pow2, !Z.land_ones by lia. change (2 ^ 2) with 4. change (2 ^ 4) with 16. change (2 ^ 6) with 64.
    rewrite (Z.mod_small (a / 4)), (Z.mod_small (b / 16)), (Z.mod_small (c / 64)) by (split; [apply Z.div_pos; lia|apply Z.div_lt_upper_bound; lia]). done. }
  rewrite E. split; [done|]. repeat (apply Forall_cons; split; [|]); try apply Forall_nil; try done; Z.to_euclidean_division_equations; lia.
Qed.
Lemma three_value a b c d : digit a -> digit b -> digit c -> digit d -> three a b c d = [a * 4 + b / 16; b mod 16 * 16 + c / 4; c mod 4 * 64 + d].
Proof.
  intros Ha Hb Hc Hd. unfold three, wrap8, u8_max. change 0x30 with (Z.shiftl (Z.ones 2) 4). change 0x3c with (Z.shiftl (Z.ones 4) 2). change 0xf with (Z.ones 4). change 0x3 with (Z.ones 2).
  rewrite !shiftr_land_high, !Z.shiftl_mul_pow2, !Z.land_ones by lia. change (2 ^ 2) with 4. change (2 ^ 4) with 16. change (2 ^ 6) with 64. change (2 ^ 8) with 256.
  rewrite (Z.mod_small (b / 16)), (Z.mod_small (c / 4)) by (split; [apply Z.div_pos; lia|apply Z.div_lt_upper_bound; lia]). repeat f_equal; apply Z.mod_small; Z.to_euclidean_division_equations; lia.
Qed.
Lemma three_four a b c : 0 <= a < 256 -> 0 <= b < 256 -> 0 <= c < 256 -> three (four a b c !!! 0%nat) (four a b c !!! 1%nat) (four a b c !!! 2%nat) (four a b c !!! 3%nat) = [a; b; c].
Proof.
  intros Ha Hb Hc. destruct (four_value a b c Ha Hb Hc) as [E Hd]. rewrite E in *. repeat (apply Forall_cons in Hd as [? Hd]). cbn. rewrite three_value by done. repeat f_equal; Z.to_euclidean_division_equations; lia.
Qed.

Lemma encode_acc l pending ret : encode_loop l pending ret = ret +:+ encode_loop l pending "".
Proof.
  revert pending ret. induction l as [|v l IH]; intros pending ret; cbn [encode_loop].
  - destruct pending; cbn [finish_encode]; [by rewrite sapp_nil_r|]. by rewrite app_empty_l.
  - destruct (_ =? 3)%nat; [|apply IH]. rewrite IH, (IH _ ("" +:+ _)), app_empty_l. by rewrite sapp_assoc.
Qed.
Lemma encode_three a b c l : base64_encode (a :: b :: c :: l) = texts (four a b c) +:+ base64_encode l.
Proof. unfold base64_encode. rewrite <-(app_empty_l (texts _)), <-encode_acc. done. Qed.

Lemma length_base64 l : String.length (base64_encode l) = (4 * ((length l + 2) / 3))%nat.
Proof.
  remember (length l) as n eqn:Hn. revert l Hn. induction (lt_wf n) as [n _ IH]. intros [|a [|b [|c l]]] ->; [done..|]. rewrite encode_three, slength_app, (IH (length l)) by (done || (cbn; lia)).
  cbn [length four texts String.length]. replace (S (S (S (length l))) + 2)%nat with (1 * 3 + (length l + 2))%nat by lia. rewrite Nat.div_add_l by lia. lia.
Qed.

Lemma decode_digit v s pending ret : digit v -> decode_loop (String (char_at v) s) pending ret =
  let p := (pending ++ [char_at v])%list in
  if (length p =? 4)%nat then let c4 := find <$> p in decode_loop s [] (ret ++ three (c4 !!! 0%nat) (c4 !!! 1%nat) (c4 !!! 2%nat) (c4 !!! 3%nat))%list else decode_loop s p ret.
Proof. intros Hv. cbn [decode_loop]. by rewrite (proj2 (find_char_at v Hv)). Qed.

#[local] Opaque find char_at.
Lemma decode_four v0 v1 v2 v3 s ret : digit v0 -> digit v1 -> digit v2 -> digit v3 ->
  decode_loop (texts [v0; v1; v2; v3] +:+ s) [] ret = decode_loop s [] (ret ++ three v0 v1 v2 v3)%list.
Proof.
  intros H0 H1 H2 H3. cbn [texts]. rewrite !app_cons. do 4 (rewrite decode_digit by done; cbn [app length Nat.eqb]). cbv zeta. cbn.
  by rewrite (proj1 (find_char_at v0 H0)), (proj1 (find_char_at v1 H1)), (proj1 (find_char_at v2 H2)), (proj1 (find_char_at v3 H3)).
Qed.

(** What is left at the end. *)
Lemma finish_two x y ret : digit x -> digit y -> finish_decode [char_at x; char_at y] ret = (ret ++ [x * 4 + y / 16])%list.
Proof.
  intros Hx Hy. unfold finish_decode. cbn [length Nat.sub replicate app fmap list_fmap take]. rewrite (proj1 (find_char_at x Hx)), (proj1 (find_char_at y Hy)). f_equal. cbn [lookup_total list_lookup_total].
  unfold three, wrap8, u8_max. change 0x30 with (Z.shiftl (Z.ones 2) 4). cbn [take]. rewrite shiftr_land_high, Z.shiftl_mul_pow2 by lia. change (2 ^ 2) with 4. change (2 ^ 4) with 16. change (2 ^ 8) with 256.
  f_equal. rewrite (Z.mod_small (y / 16)) by (split; [apply Z.div_pos; lia|apply Z.div_lt_upper_bound; lia]). apply Z.mod_small. Z.to_euclidean_division_equations; lia.
Qed.
Lemma finish_three x y z ret : digit x -> digit y -> digit z -> finish_decode [char_at x; char_at y; char_at z] ret = (ret ++ [x * 4 + y / 16; y mod 16 * 16 + z / 4])%list.
Proof.
  intros Hx Hy Hz. unfold finish_decode. cbn [length Nat.sub replicate app fmap list_fmap take]. rewrite (proj1 (find_char_at x Hx)), (proj1 (find_char_at y Hy)), (proj1 (find_char_at z Hz)). f_equal. cbn [lookup_total list_lookup_total].
  pose proof (three_value x y z 0 Hx Hy Hz ltac:(done)) as Ht. unfold three in *. injection Ht as E1 E2 _. cbn [take]. by rewrite E1, E2.
Qed.

(** Decoding what was encoded gives the octets back, and the text has four characters for every three octets begun. *)
Theorem base64_round_trip l : Forall (fun v => 0 <= v < 256) l -> base64_decode (base64_encode l) = l /\ String.length (base64_encode l) = (4 * ((length l + 2) / 3))%nat.
Proof.
  intros Hl. split; [|apply length_base64]. unfold base64_decode. change l with ([] ++ l)%list at 2. generalize (@nil Z). remember (length l) as n eqn:Hn. revert l Hn Hl.
  induction (lt_wf n) as [n _ IH]. intros [|a [|b [|c l]]] -> Hl ret.
  - by rewrite app_nil_r.
  - apply Forall_cons in Hl as [Ha _]. destruct (four_value a 0 0 Ha) as [E Hd]; [done..|]. rewrite E in Hd. repeat (apply Forall_cons in Hd as [? Hd]).
    change (base64_encode [a]) with (texts (take 2 (four a 0 0)) +:+ "=="). rewrite E. cbn [take texts]. rewrite !app_cons. do 2 (rewrite decode_digit by done; cbn [app length Nat.eqb]).
    transitivity (finish_decode [char_at (a / 4); char_at (a mod 4 * 16 + 0 / 16)] ret); [done|]. rewrite finish_two by done. do 2 f_equal. Z.to_euclidean_division_equations; lia.
  - apply Forall_cons in Hl as [Ha [Hb _]%Forall_cons]. destruct (four_value a b 0 Ha Hb) as [E Hd]; [done..|]. rewrite E in Hd. repeat (apply Forall_cons in Hd as [? Hd]).
    change (base64_encode [a; b]) with (texts (take 3 (four a b 0)) +:+ "="). rewrite E. cbn [take texts]. rewrite !app_cons. do 3 (rewrite decode_digit by done; cbn [app length Nat.eqb]).
    transitivity (finish_decode [char_at (a / 4); char_at (a mod 4 * 16 + b / 16); char_at (b mod 16 * 4 + 0 / 64)] ret); [done|]. rewrite finish_three by done.
    f_equal. f_equal; [|f_equal]; Z.to_euclidean_division_equations; lia.
  - apply Forall_cons in Hl as [Ha [Hb [Hc Hl]%Forall_cons]%Forall_cons]. rewrite encode_three. destruct (four_value a b c Ha Hb Hc) as [E Hd]. pose proof (three_four a b c Ha Hb Hc) as Ht. rewrite E in Ht, Hd |- *.
    repeat (apply Forall_cons in Hd as [? Hd]). rewrite decode_four by done. cbn in Ht. rewrite Ht, (IH (length l)) by (done || (cbn; lia)). by rewrite <-app_assoc.
Qed.
