(* ===== verification/WebSocket.v ===== *)
(** * WebSocket: the WebSocket server

    Models src/websocket/websocket: frames (websocket_request.cpp), the handler of a
    connection (websocket_handler.cpp), the log (debug_log.cpp) and the event loop
    (network_interface.cpp). Memory is octets, numbers below 256; reading or writing past
    an array is undefined behaviour. The machine stores numbers with the least significant
    octet first, as x86-64 does. Of OpenSSL only what its calls return matters; an SSL object
    that has been freed must not be used. The process that ends is [Throw "exit"]. *)

From Stdlib Require Import Ascii String.
From S2P Require Import Prelude Text WsSha1 WsBase64.

Local Open Scope string_scope.
Local Open Scope Z_scope.

(** ** Memory *)

(** A string in memory, up to the octet that ends it; [None] when there is none. *)
Fixpoint c_octets (m : list Z) : option (list Z) :=
  match m with
  | [] => None
  | v :: m' => if v =? 0 then Some [] else cons v <$> c_octets m'
  end.
Definition char_of (v : Z) : ascii := ascii_of_nat (Z.to_nat v).
Definition text_of (l : list Z) : string := string_of_list_ascii (char_of <$> l).
Definition octets_of_text (s : string) : list Z := (fun c => Z.of_nat (nat_of_ascii c)) <$> list_ascii_of_string s.

(** The number that octets in memory are. *)
Definition in_memory (l : list Z) : Z := foldr (fun v n => v + 256 * n) 0 l.
Definition ntohs (v : Z) : Z := (v mod 256) * 256 + v / 256.
(** [htonl] followed by a look at the octets. *)
Definition htonl (v : Z) : Z := (v mod 256) * 2 ^ 24 + (v / 2 ^ 8 mod 256) * 2 ^ 16 + (v / 2 ^ 16 mod 256) * 2 ^ 8 + v / 2 ^ 24 mod 256.
Definition word_octets (v : Z) : list Z := [v mod 256; v / 2 ^ 8 mod 256; v / 2 ^ 16 mod 256; v / 2 ^ 24 mod 256].

(** ** The log *)

(** Hours, minutes, seconds. *)
Definition clock : Type := Z * Z * Z.
(** [%02d] *)
Definition two_digits (z : Z) : string := if (z <? 10)%Z then "0" +:+ to_string z else to_string z.
(** [sprintf] into an array of [size] characters. *)
Definition sprintf {S} (size : nat) (s : string) : cpp S string :=
  if (String.length s <? size)%nat then mret s else undefined "sprintf: no room".
Definition write_log {S} (now : clock) (msg : string) : cpp S string :=
  let '(h, m, s) := now in
  sprintf 256 ("[" +:+ two_digits h +:+ ":" +:+ two_digits m +:+ ":" +:+ two_digits s +:+ "] " +:+ msg +:+ String nl "").
(** The line that is printed; [text] is the format with its arguments. *)
Definition DEBUG_LOG {S} (now : clock) (text : string) : cpp S string :=
  message ← sprintf 256 text;
  write_log now message.

(** ** Frames *)

Module Websocket_Request.
Record Websocket_Request : Type := mkRequest {
  fin_ : Z; opcode_ : Z; mask_ : Z; masking_key_ : list Z; payload_length_ : Z; payload_ : list Z }.
Definition payload_size : nat := 2048.
Definition Request_new : Websocket_Request := mkRequest 0 0 0 [0; 0; 0; 0] 0 (replicate payload_size 0).
Definition reset (_ : Websocket_Request) : Websocket_Request := Request_new.

Definition set_fin (v : Z) (r : Websocket_Request) : Websocket_Request := mkRequest v (opcode_ r) (mask_ r) (masking_key_ r) (payload_length_ r) (payload_ r).
Definition set_opcode (v : Z) (r : Websocket_Request) : Websocket_Request := mkRequest (fin_ r) v (mask_ r) (masking_key_ r) (payload_length_ r) (payload_ r).
Definition set_mask (v : Z) (r : Websocket_Request) : Websocket_Request := mkRequest (fin_ r) (opcode_ r) v (masking_key_ r) (payload_length_ r) (payload_ r).
Definition set_key (l : list Z) (r : Websocket_Request) : Websocket_Request := mkRequest (fin_ r) (opcode_ r) (mask_ r) l (payload_length_ r) (payload_ r).
Definition set_payload_length (v : Z) (r : Websocket_Request) : Websocket_Request := mkRequest (fin_ r) (opcode_ r) (mask_ r) (masking_key_ r) v (payload_ r).
Definition set_payload (l : list Z) (r : Websocket_Request) : Websocket_Request := mkRequest (fin_ r) (opcode_ r) (mask_ r) (masking_key_ r) (payload_length_ r) l.

(** [msg[pos]], and [n] octets from there. *)
Definition at_ {S} (msg : list Z) (pos : Z) : cpp S Z :=
  match msg !! Z.to_nat pos with Some v => mret v | None => undefined "read past the buffer" end.
Definition copy {S} (msg : list Z) (pos n : Z) : cpp S (list Z) :=
  if pos + n <=? Z.of_nat (length msg) then mret (take (Z.to_nat n) (drop (Z.to_nat pos) msg)) else undefined "read past the buffer".

Definition fetch_fin (msg : list Z) (pos : Z) : cpp Websocket_Request unit :=
  v ← at_ msg pos; modify (set_fin (Z.shiftr v 7)).
Definition fetch_opcode (msg : list Z) (pos : Z) : cpp Websocket_Request Z :=
  v ← at_ msg pos; modify (set_opcode (Z.land v 0x0f)) ;; mret (pos + 1).
Definition fetch_mask (msg : list Z) (pos : Z) : cpp Websocket_Request unit :=
  v ← at_ msg pos; modify (set_mask (Z.shiftr v 7)).
Definition fetch_masking_key (msg : list Z) (pos : Z) : cpp Websocket_Request Z :=
  r ← get;
  if negb (mask_ r =? 1) then mret pos else
  key ← copy msg pos 4;
  modify (set_key key) ;;
  mret (pos + 4).

(** [*reinterpret_cast<const char*>(&num) == num] looks at the first octet of the number 42. *)
Definition swapped (value : Z) : Z :=
  Z.lor (Z.lor (Z.lor (Z.land (Z.shiftr value 56) 0x00000000000000FF) (Z.land (Z.shiftr value 40) 0x000000000000FF00))
               (Z.lor (Z.land (Z.shiftr value 24) 0x0000000000FF0000) (Z.land (Z.shiftr value 8) 0x00000000FF000000)))
        (Z.lor (Z.lor (Z.land (wrap64 (Z.shiftl value 8)) 0x000000FF00000000) (Z.land (wrap64 (Z.shiftl value 24)) 0x0000FF0000000000))
               (Z.lor (Z.land (wrap64 (Z.shiftl value 40)) 0x00FF000000000000) (Z.land (wrap64 (Z.shiftl value 56)) 0xFF00000000000000))).
Definition ntohll (value : Z) : Z :=
  let num := 42 in
  if word_octets num !!! 0%nat =? num then value else swapped value.

Definition fetch_payload_length (msg : list Z) (pos : Z) : cpp Websocket_Request Z :=
  v ← at_ msg pos;
  let len := Z.land v 0x7f in
  modify (set_payload_length len) ;;
  let pos := pos + 1 in
  if len =? 126 then
    l ← copy msg pos 2;
    modify (set_payload_length (ntohs (in_memory l))) ;;
    mret (pos + 2)
  else if len =? 127 then
    l ← copy msg pos 8;
    modify (set_payload_length (ntohll (in_memory l))) ;;
    mret (pos + 8)
  else mret pos.

(** [payload_[i] = v] *)
Definition put (i v : Z) : cpp Websocket_Request unit := fun r =>
  if bool_decide (0 <= i < Z.of_nat payload_size) then Ok tt (set_payload (<[Z.to_nat i := v]> (payload_ r)) r) else Undefined "payload_".
(** The loop over a masked payload; after [payload_size] turns it writes past the array. *)
Fixpoint unmask (fuel : nat) (msg : list Z) (pos i : Z) : cpp Websocket_Request unit :=
  match fuel with
  | O => block
  | S fuel' =>
      r ← get;
      if i <? payload_length_ r then
        v ← at_ msg (pos + i);
        put i (Z.lxor v (masking_key_ r !!! Z.to_nat (i mod 4))) ;;
        unmask fuel' msg pos (i + 1)
      else mret tt
  end.
Definition fetch_payload (msg : list Z) (pos : Z) : cpp Websocket_Request Z :=
  modify (set_payload (replicate payload_size 0)) ;;
  r ← get;
  (if negb (mask_ r =? 1) then
     l ← copy msg pos (payload_length_ r);
     if payload_length_ r <=? Z.of_nat payload_size then modify (set_payload (l ++ drop (length l) (payload_ r))%list) else undefined "payload_"
   else unmask (S payload_size) msg pos 0) ;;
  mret 0.

Definition fetch_websocket_info (msg : list Z) : cpp Websocket_Request Z :=
  fetch_fin msg 0 ;;
  pos ← fetch_opcode msg 0;
  fetch_mask msg pos ;;
  pos ← fetch_payload_length msg pos;
  pos ← fetch_masking_key msg pos;
  fetch_payload msg pos.

(** The format prints the length as an [int]. *)
Definition frame_text (r : Websocket_Request) (payload : string) : string :=
  "WEBSOCKET PROTOCOL" +:+ String nl "FIN: " +:+ to_string (fin_ r) +:+ String nl "OPCODE: " +:+ to_string (opcode_ r) +:+
  String nl "MASK: " +:+ to_string (mask_ r) +:+ String nl "PAYLOADLEN: " +:+ to_string (to_int (payload_length_ r)) +:+ String nl "PAYLOAD: " +:+ payload.
(** The line of the log. *)
Definition print (now : clock) : cpp Websocket_Request string :=
  r ← get;
  match c_octets (payload_ r) with
  | None => undefined "payload without an end"
  | Some l => line ← DEBUG_LOG now (frame_text r (text_of l)); modify reset ;; mret line
  end.
End Websocket_Request.
Import Websocket_Request.

(** ** The handler of a connection *)

Inductive WEBSOCKET_STATUS : Set := WEBSOCKET_UNCONNECT | WEBSOCKET_HANDSHARKED.
Definition MAGIC_KEY : string := "258EAFA5-E914-47DA-95CA-C5AB0DC85B11".
Definition BUFFLEN : nat := 2048.

(** [ssl_live]: whether the SSL object has not been freed; [sent] is what was written to it, and
    [logged] what was printed about frames. *)
Record Websocket_Handler : Type := mkHandler {
  buff_ : list Z; status_ : WEBSOCKET_STATUS; header_map_ : gmap string string; fd_ : Z; ssl_live : bool; request_ : Websocket_Request;
  sent : list string; logged : list string }.
Definition set_buff (b : list Z) (h : Websocket_Handler) : Websocket_Handler := mkHandler b (status_ h) (header_map_ h) (fd_ h) (ssl_live h) (request_ h) (sent h) (logged h).
Definition set_status (st : WEBSOCKET_STATUS) (h : Websocket_Handler) : Websocket_Handler := mkHandler (buff_ h) st (header_map_ h) (fd_ h) (ssl_live h) (request_ h) (sent h) (logged h).
Definition on_headers (f : gmap string string -> gmap string string) (h : Websocket_Handler) : Websocket_Handler := mkHandler (buff_ h) (status_ h) (f (header_map_ h)) (fd_ h) (ssl_live h) (request_ h) (sent h) (logged h).
Definition set_request (r : Websocket_Request) (h : Websocket_Handler) : Websocket_Handler := mkHandler (buff_ h) (status_ h) (header_map_ h) (fd_ h) (ssl_live h) r (sent h) (logged h).
Definition add_sent (s : string) (h : Websocket_Handler) : Websocket_Handler := mkHandler (buff_ h) (status_ h) (header_map_ h) (fd_ h) (ssl_live h) (request_ h) (sent h ++ [s]) (logged h).
Definition add_logged (s : string) (h : Websocket_Handler) : Websocket_Handler := mkHandler (buff_ h) (status_ h) (header_map_ h) (fd_ h) (ssl_live h) (request_ h) (sent h) (logged h ++ [s]).

(** [accepted]: whether [SSL_accept] succeeds; otherwise the object is freed at once. *)
Definition Handler_new (fd : Z) (accepted : bool) : Websocket_Handler :=
  mkHandler (replicate BUFFLEN 0) WEBSOCKET_UNCONNECT ∅ fd accepted Request_new [] [].
(** The pointer is never null: it is passed to [SSL_shutdown] in any case. *)
Definition Handler_destroy (h : Websocket_Handler) : option string := if ssl_live h then None else Some "use of a freed SSL object".

(** [written]: what [SSL_write] returns. *)
Definition send_data (written : Z) (buff : string) : cpp Websocket_Handler Z :=
  h ← get;
  if ssl_live h then modify (add_sent buff) ;; mret written else undefined "use of a freed SSL object".

(** [s.find(": ", 0)] and the two parts. *)
Fixpoint split_colon (s : string) : option (string * string) :=
  match s with
  | EmptyString => None
  | String c s' =>
      match s' with
      | String d rest => if char_eqb c ":" && char_eqb d " " then Some ("", rest) else
          match split_colon s' with Some (k, v) => Some (String c k, v) | None => None end
      | EmptyString => None
      end
  end.
(** The last character, and the others; an empty string has none. *)
Fixpoint unsnoc (s : string) : option (string * ascii) :=
  match s with
  | EmptyString => None
  | String c s' => match unsnoc s' with Some (i, d) => Some (String c i, d) | None => Some ("", c) end
  end.

Definition one_header (header : string) : cpp Websocket_Handler unit :=
  match split_colon header with Some (key, value) => modify (on_headers (<[key := value]>)) | None => mret tt end.
Fixpoint headers (ls : list string) : cpp Websocket_Handler unit :=
  match ls with
  | [] => mret tt
  | header :: ls' =>
      if String.eqb header (String cr "") then mret tt else
      match unsnoc header with
      | None => undefined "header[-1]"
      | Some (text, c) => (if char_eqb c cr then one_header text else mret tt) ;; headers ls'
      end
  end.
Definition fetch_http_info : cpp Websocket_Handler Z :=
  h ← get;
  match c_octets (buff_ h) with
  | None => undefined "buff_ without an end"
  | Some l =>
      match lines (text_of l) with
      | [] => undefined "request[-1]"
      | request :: ls =>
          match unsnoc request with
          | None => undefined "request[-1]"
          | Some (_, c) => if char_eqb c cr then headers ls ;; mret 0 else mret (-1)
          end
      end
  end.

(** [strcat(request, s)], [request] being an array of 1024 characters. *)
Definition strcat {S} (request s : string) : cpp S string :=
  if (String.length request + String.length s <? 1024)%nat then mret (request +:+ s) else undefined "strcat: no room".
(** The digest of a string as 20 octets; [junk] is what was in the memory of the object. *)
Definition digest_octets {S} (junk : list Z) (s : string) : cpp S (list Z) :=
  match (SHA2.Input_string (octets_of_text s) ;; SHA2.Result) (SHA2.Reset (SHA2.SHA2_new junk)) with
  | Ok (Some d) _ => mret (concat ((fun w => word_octets (htonl w)) <$> d))
  | _ => undefined "message_digest"
  end.
Definition parse_str (junk : list Z) : cpp Websocket_Handler string :=
  request ← strcat "" ("HTTP/1.1 101 Switching Protocols" +:+ crlf);
  request ← strcat request ("Connection: upgrade" +:+ crlf);
  request ← strcat request "Sec-WebSocket-Accept: ";
  h ← get;
  let server_key := default "" (header_map_ h !! "Sec-WebSocket-Key") in
  modify (on_headers (fun m => <["Sec-WebSocket-Key" := server_key]> m)) ;;
  d ← digest_octets junk (server_key +:+ MAGIC_KEY);
  request ← strcat request (Base64.base64_encode d +:+ crlf);
  strcat request ("Upgrade: websocket" +:+ crlf +:+ crlf).

Definition clear_buff : cpp Websocket_Handler unit := modify (set_buff (replicate BUFFLEN 0)).
Definition handshark (junk : list Z) (written : Z) : cpp Websocket_Handler Z :=
  modify (set_status WEBSOCKET_HANDSHARKED) ;;
  fetch_http_info ;;
  request ← parse_str junk;
  clear_buff ;;
  send_data written request.

(** A call on the request object. *)
Definition on_request {A} (m : cpp Websocket_Request A) : cpp Websocket_Handler A := fun h =>
  match m (request_ h) with
  | Ok a r => Ok a (set_request r h)
  | Throw e r => Throw e (set_request r h)
  | Blocked r => Blocked (set_request r h)
  | Undefined why => Undefined why
  end.
Definition process (junk : list Z) (written : Z) (now : clock) : cpp Websocket_Handler Z :=
  h ← get;
  match status_ h with
  | WEBSOCKET_UNCONNECT => handshark junk written
  | WEBSOCKET_HANDSHARKED =>
      on_request (fetch_websocket_info (buff_ h)) ;;
      line ← on_request (print now);
      modify (add_logged line) ;;
      clear_buff ;;
      mret 0
  end.

(** [read(fd, handler->getbuff(), BUFFLEN)] puts what it gets at the start of the buffer. *)
Definition fill (data : list Z) (h : Websocket_Handler) : Websocket_Handler :=
  set_buff (take BUFFLEN data ++ drop (length (take BUFFLEN data)) (buff_ h))%list h.

(** ** The event loop *)

Module Network.
(** [epolls]: the epoll instances there are; [handlers]: the map, in which a pointer may be null. *)
Record Network_Interface : Type := mkNetwork {
  epollfd_ : Z; listenfd_ : Z; handlers : gmap Z (option Websocket_Handler); inotify_fd_ : Z; inotify_wds : Z * Z * Z; epolls : gset Z }.
Abbreviation N := Network_Interface.
Definition set_epollfd (fd : Z) (n : N) : N := mkNetwork fd (listenfd_ n) (handlers n) (inotify_fd_ n) (inotify_wds n) ({[fd]} ∪ epolls n).
Definition set_listenfd (fd : Z) (n : N) : N := mkNetwork (epollfd_ n) fd (handlers n) (inotify_fd_ n) (inotify_wds n) (epolls n).
Definition on_handlers (f : gmap Z (option Websocket_Handler) -> gmap Z (option Websocket_Handler)) (n : N) : N :=
  mkNetwork (epollfd_ n) (listenfd_ n) (f (handlers n)) (inotify_fd_ n) (inotify_wds n) (epolls n).
Definition set_inotify (fd : Z) (wds : Z * Z * Z) (n : N) : N := mkNetwork (epollfd_ n) (listenfd_ n) (handlers n) fd wds (epolls n).

Definition exit {A} : cpp N A := throw "exit".
Definition exit_unless (b : bool) : cpp N unit := if b then mret tt else exit.

(** What the calls of OpenSSL return: whether a context is made, and whether each step of its
    configuration succeeds. *)
Record SslEnv : Type := mkSslEnv {
  ctx_new : bool; ca_loads : bool; chain_loads : bool; key_opens : bool; key_reads : bool; key_is_rsa : bool; key_set : bool; key_matches : bool }.
Definition create_context (e : SslEnv) : cpp N unit := exit_unless (ctx_new e).
Definition configure_context (e : SslEnv) : cpp N unit :=
  exit_unless (ca_loads e) ;; exit_unless (chain_loads e) ;; exit_unless (key_opens e) ;; exit_unless (key_reads e) ;;
  exit_unless (key_is_rsa e) ;; exit_unless (key_set e) ;; exit_unless (key_matches e).

(** What the calls of the operating system return at the start. *)
Record OsEnv : Type := mkOsEnv {
  inotify_init : Z; watch_ca : Z; watch_server : Z; watch_key : Z; socket : Z; bind_ : Z; listen : Z; epoll_create : Z }.
(** [epoll_ctl] fails on a descriptor that is not an epoll instance; otherwise [possible] says whether
    the descriptor can be added or removed. *)
Definition epoll_ctl (possible : bool) : cpp N bool :=
  n ← get; mret (possible && bool_decide (epollfd_ n ∈ epolls n)).

Definition init_inotify (os : OsEnv) (possible : bool) : cpp N unit :=
  exit_unless (negb (inotify_init os =? -1)) ;;
  exit_unless (negb (watch_ca os =? -1)) ;;
  exit_unless (negb (watch_server os =? -1)) ;;
  exit_unless (negb (watch_key os =? -1)) ;;
  modify (set_inotify (inotify_init os) (watch_ca os, watch_server os, watch_key os)) ;;
  ok ← epoll_ctl possible;
  exit_unless ok.

(** [accepted]: whether the handshake of the new connection succeeds. Deleting a handler runs its
    destructor. *)
Definition ctl_event (fd : Z) (flag : bool) (accepted possible : bool) : cpp N unit :=
  epoll_ctl possible ;;
  n ← get;
  if flag then
    if fd =? listenfd_ n then mret tt else modify (on_handlers (<[fd := Some (Handler_new fd accepted)]>))
  else
    match handlers n !! fd with
    | None => mret tt
    | Some p =>
        (match p with
         | None => mret tt
         | Some h => match Handler_destroy h with None => mret tt | Some why => undefined why end
         end) ;;
        modify (on_handlers (delete fd))
    end.

(** 0 for success. *)
Definition init (os : OsEnv) (possible : bool) : cpp N Z :=
  modify (set_listenfd (socket os)) ;;
  if socket os =? -1 then mret (-1) else
  if bind_ os =? -1 then mret (-1) else
  if listen os =? -1 then mret (-1) else
  modify (set_epollfd (epoll_create os)) ;;
  ctl_event (socket os) true false possible ;;
  mret 0.

(** The members before the body of the constructor, in a process without epoll instances. *)
Definition Network_new : N := mkNetwork 0 0 ∅ (-1) (-1, -1, -1) ∅.
Definition Network_Interface_ctor (e : SslEnv) (os : OsEnv) (possible : bool) : cpp N unit :=
  create_context e ;;
  configure_context e ;;
  init_inotify os possible ;;
  r ← init os possible;
  exit_unless (r =? 0).

Definition reload_certificates (e : SslEnv) : cpp N unit := create_context e ;; configure_context e.
(** The events that were read, each with whether it is a modification. *)
Definition handle_inotify_event (events : option (list (bool * SslEnv))) : cpp N unit :=
  match events with
  | None => mret tt
  | Some l => iterM (fun '((modified, e) : bool * SslEnv) => if modified then reload_certificates e else mret tt) l
  end.

(** What [epoll_wait] reports, with what the calls made for it return: [accept] the new descriptor and
    whether the handshake succeeds, [read] the octets, none at the end of the connection. *)
Inductive event : Type :=
  | Inotify (events : option (list (bool * SslEnv)))
  | Accept (fd : Z) (accepted : bool)
  | Readable (fd : Z) (data : list Z) (junk : list Z) (written : Z) (now : clock)
  | Other (fd : Z).

(** A call on a handler in the map. *)
Definition on_handler {A} (fd : Z) (h : Websocket_Handler) (m : cpp Websocket_Handler A) : cpp N A := fun n =>
  let back h' := on_handlers (<[fd := Some h']>) n in
  match m h with
  | Ok a h' => Ok a (back h')
  | Throw e h' => Throw e (back h')
  | Blocked h' => Blocked (back h')
  | Undefined why => Undefined why
  end.

Definition handle_event (ev : event) (possible : bool) : cpp N unit :=
  match ev with
  | Inotify events => handle_inotify_event events
  | Accept fd accepted => ctl_event fd true accepted possible
  | Readable fd data junk written now =>
      if fd <? 0 then mret tt else
      n ← get;
      let p := default None (handlers n !! fd) in
      modify (on_handlers (<[fd := p]>)) ;;
      match p with
      | None => mret tt
      | Some h =>
          match data with
          | [] => ctl_event fd false false possible
          | _ => on_handler fd h (modify (fill data) ;; process junk written now ;; mret tt)
          end
      end
  | Other _ => mret tt
  end.
(** The loop never ends; this is what it does with the events that come. *)
Definition epoll_loop (events : list (event * bool)) : cpp N unit := iterM (fun '(ev, possible) => handle_event ev possible) events.
End Network.
