(* ===== verification/WebSocketProps.v ===== *)
(** * WebSocketProps: what the WebSocket server does

    Frames are read as RFC 6455 writes them, as far as the buffer goes; the handshake is answered with
    the right key; and the event loop keeps its connections apart. *)

From Stdlib Require Import Ascii String.
From S2P Require Import Prelude Text WsSha1 WsBase64 WebSocket.
Import Websocket_Request.

Local Open Scope string_scope.
Local Open Scope Z_scope.

(** ** Reading a frame *)

Definition xor_key (key l : list Z) : list Z := imap (fun j v => Z.lxor v (key !!! (j mod 4)%nat)) l.
Definition is_buffer (b : list Z) : Prop := length b = 2048%nat /\ Forall byte b.

Lemma at_ok {S} msg pos v (s : S) : msg !! Z.to_nat pos = Some v -> at_ msg pos s = Ok v s.
Proof. intros H. unfold at_. by rewrite H. Qed.
Lemma copy_ok {S} msg pos n (s : S) : pos + n <= Z.of_nat (length msg) -> copy msg pos n s = Ok (take (Z.to_nat n) (drop (Z.to_nat pos) msg)) s.
Proof. intros H. unfold copy. destruct (Z.leb_spec (pos + n) (Z.of_nat (length msg))); [done|lia]. Qed.

Lemma xor_key_snoc key l v : xor_key key (l ++ [v]) = (xor_key key l ++ [Z.lxor v (key !!! (length l mod 4)%nat)])%list.
Proof. unfold xor_key. rewrite imap_app. cbn. by rewrite Nat.add_0_r. Qed.
Lemma length_xor_key key l : length (xor_key key l) = length l.
Proof. apply length_imap. Qed.

Lemma take_snoc_drop (msg : list Z) pos i v : msg !! (pos + i)%nat = Some v -> take (S i) (drop pos msg) = (take i (drop pos msg) ++ [v])%list.
Proof. intros H. apply take_S_r. by rewrite lookup_drop. Qed.

(** The loop over a masked payload: it copies the whole payload, or reads past the buffer. *)
Lemma unmask_ok fuel msg pos i r : length msg = 2048%nat -> 0 <= payload_length_ r -> (0 < pos)%nat -> (pos + i <= 2048)%nat -> (2048 - i < fuel)%nat ->
  Z.of_nat i <= payload_length_ r -> payload_ r = (xor_key (masking_key_ r) (take i (drop pos msg)) ++ replicate (2048 - i) 0)%list ->
  unmask fuel msg (Z.of_nat pos) (Z.of_nat i) r =
    if decide (Z.of_nat pos + payload_length_ r <= 2048)
    then Ok tt (set_payload (xor_key (masking_key_ r) (take (Z.to_nat (payload_length_ r)) (drop pos msg)) ++ replicate (2048 - Z.to_nat (payload_length_ r)) 0) r)
    else Undefined "read past the buffer".
Proof.
  intros Hm H0 Hpos. revert i r H0. induction fuel as [|fuel IH]; intros i r H0 Hi Hfuel Hle Hp; [lia|]. cbn [unmask]. rewrite (bind_Ok get _ r r r eq_refl).
  destruct (Z.ltb_spec (Z.of_nat i) (payload_length_ r)).
  - destruct (decide (pos + i = 2048)%nat) as [E|E].
    + rewrite decide_False by lia. unfold mbind, cpp_bind, at_. rewrite lookup_ge_None_2 by lia. done.
    + destruct (lookup_lt_is_Some_2 msg (pos + i)) as [v Hv]; [lia|]. rewrite (bind_Ok _ _ r v r) by (apply at_ok; by replace (Z.to_nat (Z.of_nat pos + Z.of_nat i)) with (pos + i)%nat by lia).
      set (x := Z.lxor v _). set (r1 := set_payload (xor_key (masking_key_ r) (take (S i) (drop pos msg)) ++ replicate (2048 - S i) 0) r).
      assert (Hlen : length (take i (drop pos msg)) = i) by (rewrite length_take, length_drop; lia).
      assert (Hput : put (Z.of_nat i) x r = Ok tt r1).
      { unfold put. rewrite bool_decide_true by (unfold payload_size; lia). unfold r1. do 2 f_equal. rewrite Nat2Z.id, Hp, (take_snoc_drop _ _ _ _ Hv), xor_key_snoc, Hlen.
        replace (2048 - i)%nat with (S (2048 - S i)) by lia. cbn [replicate]. replace i with (length (xor_key (masking_key_ r) (take i (drop pos msg))) + 0)%nat at 1 by (rewrite length_xor_key; lia).
        rewrite insert_app_r. cbn [insert list_insert]. rewrite <-app_assoc. cbn [app]. do 2 f_equal. unfold x. do 2 f_equal. replace 4 with (Z.of_nat 4) by done. by rewrite <-Nat2Z.inj_mod, Nat2Z.id. }
      rewrite (bind_Ok _ _ r tt r1 Hput). replace (Z.of_nat i + 1) with (Z.of_nat (S i)) by lia. rewrite (IH (S i) r1); [done|done|lia|lia|cbn; lia|done].
  - assert (E : payload_length_ r = Z.of_nat i) by lia. rewrite E, decide_True by lia. rewrite Nat2Z.id, <-Hp. by destruct r.
Qed.

(** What the first octets of a buffer say. *)
Definition len7 (b : list Z) : Z := (b !!! 1%nat) mod 128.
Definition masked (b : list Z) : bool := (b !!! 1%nat) / 128 =? 1.
Definition length_end (b : list Z) : nat := if len7 b =? 126 then 4 else if len7 b =? 127 then 10 else 2.
(** The length as the code reads it: two octets with the most significant one first, eight with the least
    significant one first. *)
Definition read_length (b : list Z) : Z :=
  if len7 b =? 126 then (b !!! 2%nat) * 256 + b !!! 3%nat else if len7 b =? 127 then in_memory (take 8 (drop 2 b)) else len7 b.
Definition payload_start (b : list Z) : nat := (length_end b + if masked b then 4 else 0)%nat.
Definition read_frame (b : list Z) (r : Websocket_Request) : Websocket_Request :=
  let n := Z.to_nat (read_length b) in
  let key := if masked b then take 4 (drop (length_end b) b) else masking_key_ r in
  let body := take n (drop (payload_start b) b) in
  mkRequest ((b !!! 0%nat) / 128) ((b !!! 0%nat) mod 16) ((b !!! 1%nat) / 128) key (read_length b) ((if masked b then xor_key key body else body) ++ replicate (2048 - n) 0).

Lemma in_memory_bound l : Forall byte l -> 0 <= in_memory l < 2 ^ (8 * Z.of_nat (length l)).
Proof.
  induction 1 as [|v l Hv _ IH]; [done|]. cbn [in_memory foldr length]. change (foldr _ 0 l) with (in_memory l). replace (8 * Z.of_nat (S (length l))) with (8 + 8 * Z.of_nat (length l)) by lia.
  rewrite Z.pow_add_r by lia. unfold byte in Hv. lia.
Qed.
Lemma ntohs_octets a b : byte a -> byte b -> ntohs (in_memory [a; b]) = a * 256 + b.
Proof.
  intros Ha Hb. unfold in_memory, ntohs. cbn [foldr]. unfold byte in *. replace (a + 256 * (b + 256 * 0)) with (a + b * 256) by lia. rewrite Z.mod_add, Z.div_add, Z.mod_small, Z.div_small by lia. done.
Qed.
Lemma ntohll_id v : ntohll v = v.
Proof. done. Qed.
Lemma mask_or_not v : byte v -> v / 128 = 0 \/ v / 128 = 1.
Proof. intros Hv. unfold byte in Hv. assert (0 <= v / 128 < 2) by (split; [apply Z.div_pos; lia|apply Z.div_lt_upper_bound; lia]). lia. Qed.

Lemma buffer_at b i : is_buffer b -> (i < 2048)%nat -> b !! i = Some (b !!! i).
Proof. intros [Hl _] Hi. apply list_lookup_lookup_total_lt. lia. Qed.
Lemma read_length_nonneg b : Forall byte b -> 0 <= read_length b.
Proof.
  intros Hb. unfold read_length. pose proof (byte_total b 2 Hb). pose proof (byte_total b 3 Hb). unfold byte in *. destruct (_ =? 126); [lia|]. destruct (_ =? 127); [apply in_memory_bound; by apply Forall_take, Forall_drop|].
  unfold len7. pose proof (Z.mod_pos_bound (b !!! 1%nat) 128 ltac:(done)). lia.
Qed.

Lemma fetch_length_ok b r : is_buffer b -> fetch_payload_length b 1 r = Ok (Z.of_nat (length_end b)) (set_payload_length (read_length b) r).
Proof.
  intros Hb. unfold fetch_payload_length. rewrite (bind_Ok _ _ r (b !!! 1%nat) r) by (apply at_ok; by apply buffer_at; [|lia]).
  replace (Z.land (b !!! 1%nat) 0x7f) with (len7 b) by (symmetry; apply (Z.land_ones _ 7); done). destruct Hb as [Hl Hb].
  rewrite (bind_Ok (modify _) _ r tt (set_payload_length (len7 b) r) eq_refl). unfold read_length, length_end. destruct (len7 b =? 126).
  - rewrite (bind_Ok _ _ _ (take 2 (drop 2 b)) (set_payload_length (len7 b) r)) by (apply copy_ok; lia). rewrite (drop_total b 2), (drop_total b 3) by lia. cbn [take].
    unfold mbind, cpp_bind, modify, mret, cpp_ret. rewrite ntohs_octets by (by apply byte_total). done.
  - destruct (len7 b =? 127).
    + rewrite (bind_Ok _ _ _ (take 8 (drop 2 b)) (set_payload_length (len7 b) r)) by (apply copy_ok; lia). unfold mbind, cpp_bind, modify, mret, cpp_ret. rewrite ntohll_id. done.
    + done.
Qed.

Lemma fetch_key_ok b pos r : length b = 2048%nat -> (pos + 4 <= 2048)%nat -> fetch_masking_key b (Z.of_nat pos) r =
  if mask_ r =? 1 then Ok (Z.of_nat (pos + 4)) (set_key (take 4 (drop pos b)) r) else Ok (Z.of_nat pos) r.
Proof.
  intros Hb Hpos. unfold fetch_masking_key. rewrite (bind_Ok get _ r r r eq_refl). destruct (mask_ r =? 1); [|done]. cbn [negb].
  rewrite (bind_Ok _ _ r (take 4 (drop pos b)) r). { unfold mbind, cpp_bind, modify, mret, cpp_ret. do 2 f_equal. lia. } rewrite copy_ok by lia. by rewrite Nat2Z.id.
Qed.

(** Every buffer: the frame in it is read, or, when it does not end in the buffer, the behaviour is undefined. *)
Lemma fetch_exact b r : is_buffer b -> fetch_websocket_info b r =
  if decide (Z.of_nat (payload_start b) + read_length b <= 2048) then Ok 0 (read_frame b r) else Undefined "read past the buffer".
Proof.
  intros Hb. pose proof (read_length_nonneg b (proj2 Hb)) as Hn. pose proof (mask_or_not _ (byte_total b 1 (proj2 Hb))) as Hmask. unfold fetch_websocket_info.
  assert (H0 : at_ b 0 = (mret (b !!! 0%nat) : cpp Websocket_Request Z)) by (unfold at_; by rewrite (buffer_at b (Z.to_nat 0) Hb) by lia).
  assert (H1 : at_ b 1 = (mret (b !!! 1%nat) : cpp Websocket_Request Z)) by (unfold at_; by rewrite (buffer_at b (Z.to_nat 1) Hb) by lia).
  unfold fetch_fin, fetch_opcode, fetch_mask. rewrite H0.
  set (r1 := set_mask ((b !!! 1%nat) / 128) (set_opcode ((b !!! 0%nat) mod 16) (set_fin ((b !!! 0%nat) / 128) r))).
  set (r2 := set_payload_length (read_length b) r1).
  set (key := if masked b then take 4 (drop (length_end b) b) else masking_key_ r). set (r3 := set_payload (replicate 2048 0) (set_key key r2)).
  assert (Hpos : (length_end b <= 10 /\ 0 < payload_start b <= 14)%nat) by (unfold payload_start, length_end; destruct (len7 b =? 126), (len7 b =? 127), (masked b); lia).
  transitivity ((pos ← fetch_payload_length b 1; pos ← fetch_masking_key b pos; fetch_payload b pos) r1).
  { unfold mbind, cpp_bind, modify, mret, cpp_ret. rewrite !Z.shiftr_div_pow2 by done. change (0 + 1) with 1. rewrite H1. cbn [mret cpp_ret]. unfold mret, cpp_ret. rewrite !Z.shiftr_div_pow2 by done. replace (Z.land (b !!! 0%nat) 0x0f) with ((b !!! 0%nat) mod 16) by (symmetry; apply (Z.land_ones _ 4); done). reflexivity. }
  rewrite (bind_Ok _ _ _ _ _ (fetch_length_ok b r1 Hb)). fold r2.
  transitivity (fetch_payload b (Z.of_nat (payload_start b)) (set_key key r2)).
  { unfold mbind at 1, cpp_bind at 1. rewrite fetch_key_ok by (apply Hb || lia). unfold payload_start, key, masked. change (mask_ r2) with ((b !!! 1%nat) / 128). destruct (_ =? 1); [done|]. rewrite Nat.add_0_r. by destruct r. }
  unfold fetch_payload. rewrite (bind_Ok (modify _) _ _ tt r3 eq_refl), (bind_Ok get _ r3 r3 r3 eq_refl). change (mask_ r3) with ((b !!! 1%nat) / 128). change (payload_length_ r3) with (read_length b).
  unfold read_frame. fold key. fold (masked b). destruct (masked b) eqn:Em; cbn [negb].
  - unfold mbind at 1, cpp_bind at 1. change 0 with (Z.of_nat 0) at 1. rewrite (unmask_ok _ b (payload_start b) 0 r3) by (done || apply Hb || lia || (unfold payload_size; lia)).
    change (payload_length_ r3) with (read_length b). change (masking_key_ r3) with key. by destruct (decide _).
  - unfold mbind, cpp_bind. destruct (decide _).
    + rewrite copy_ok by (destruct Hb; lia). destruct (Z.leb_spec (read_length b) (Z.of_nat payload_size)); [|unfold payload_size in *; lia]. unfold modify, mret, cpp_ret. change (payload_ r3) with (replicate 2048 0).
      rewrite drop_replicate, length_take, length_drop, Nat2Z.id. replace (2048 - Z.to_nat (read_length b) `min` (length b - payload_start b))%nat with (2048 - Z.to_nat (read_length b))%nat by (destruct Hb; lia). done.
    + unfold copy. destruct (Z.leb_spec (Z.of_nat (payload_start b) + read_length b) (Z.of_nat (length b))); [destruct Hb; lia|]. done.
Qed.

(** ** Frames of RFC 6455 *)

Record frame : Type := mkFrame { f_fin : Z; f_opcode : Z; f_key : option (list Z); f_payload : list Z }.
Definition f_length (f : frame) : Z := Z.of_nat (length (f_payload f)).
Definition mask_bit (f : frame) : Z := match f_key f with Some _ => 1 | None => 0 end.
Definition length_field (f : frame) : list Z :=
  if f_length f <=? 125 then [mask_bit f * 128 + f_length f]
  else if f_length f <? 65536 then [mask_bit f * 128 + 126; f_length f / 256; f_length f mod 256]
  else (mask_bit f * 128 + 127) :: Fips180.octets_of 8 (f_length f).
Definition encode_frame (f : frame) : list Z :=
  ([f_fin f * 128 + f_opcode f] ++ length_field f ++ match f_key f with Some k => k ++ xor_key k (f_payload f) | None => f_payload f end)%list.
Definition is_frame (f : frame) : Prop :=
  0 <= f_fin f <= 1 /\ 0 <= f_opcode f < 16 /\ Forall byte (f_payload f) /\ match f_key f with Some k => length k = 4%nat /\ Forall byte k | None => True end.

Lemma lxor_byte x y : byte x -> byte y -> byte (Z.lxor x y).
Proof.
  assert (H : forall z, byte z <-> Z.shiftr z 8 = 0) by (intros z; unfold byte; rewrite Z.shiftr_div_pow2 by done; pose proof (Z.div_small_iff z (2 ^ 8)); lia).
  rewrite !H, Z.shiftr_lxor. by intros -> ->.
Qed.
Lemma xor_key_bytes k l : Forall byte k -> Forall byte l -> Forall byte (xor_key k l).
Proof.
  intros Hk Hl. apply Forall_lookup. intros i x. unfold xor_key. rewrite list_lookup_imap. destruct (l !! i) as [v|] eqn:E; [|done]. intros [= <-]. apply lxor_byte; [by eapply Forall_lookup in E|by apply byte_total].
Qed.
Lemma xor_key_twice k l : xor_key k (xor_key k l) = l.
Proof.
  apply list_eq. intros i. unfold xor_key. rewrite !list_lookup_imap. destruct (l !! i); [|done]. cbn. by rewrite Z.lxor_assoc, Z.lxor_nilpotent, Z.lxor_0_r.
Qed.

Lemma encode_frame_bytes f : is_frame f -> f_length f < 65536 -> Forall byte (encode_frame f).
Proof.
  intros (Hf & Ho & Hp & Hk) Hn. unfold encode_frame, length_field. assert (Hm : 0 <= mask_bit f <= 1) by (unfold mask_bit; destruct (f_key f); lia). unfold f_length in *.
  repeat apply Forall_app_2.
  - apply Forall_singleton. unfold byte. lia.
  - destruct (Z.leb_spec (Z.of_nat (length (f_payload f))) 125); [apply Forall_singleton; unfold byte; lia|]. destruct (Z.ltb_spec (Z.of_nat (length (f_payload f))) 65536); [|lia].
    repeat (apply Forall_cons; split); try apply Forall_nil; try done; unfold byte; [lia| |]; Z.to_euclidean_division_equations; lia.
  - destruct (f_key f) as [k|]; [|done]. destruct Hk. apply Forall_app_2; [done|]. by apply xor_key_bytes.
Qed.

Lemma encode_length_field f rest : (encode_frame f ++ rest)%list = (f_fin f * 128 + f_opcode f) :: (length_field f ++ match f_key f with Some k => k ++ xor_key k (f_payload f) | None => f_payload f end ++ rest)%list.
Proof. unfold encode_frame. by rewrite <-!app_assoc. Qed.

(** What the decoder sees in a frame: the length field. *)
Lemma read_header f rest : is_frame f -> f_length f < 65536 -> let b := (encode_frame f ++ rest)%list in
  masked b = bool_decide (is_Some (f_key f)) /\ length_end b = S (length (length_field f)) /\ read_length b = f_length f /\ (b !!! 1%nat) / 128 = mask_bit f.
Proof.
  intros (_ & _ & _ & _) Hn b. unfold b. rewrite encode_length_field. clear b. set (tl := (_ ++ rest)%list). assert (H0 : 0 <= f_length f) by (unfold f_length; lia).
  assert (Hmb : mask_bit f = if bool_decide (is_Some (f_key f)) then 1 else 0).
  { unfold mask_bit. destruct (f_key f); [by rewrite bool_decide_true|]. rewrite bool_decide_false; [done|]. by intros [? ?]. }
  assert (Hd : forall x, 0 <= x < 128 -> (mask_bit f * 128 + x) / 128 = mask_bit f /\ (mask_bit f * 128 + x) mod 128 = x).
  { intros x Hx. rewrite Z.div_add_l, Z.div_small, Z.add_0_r by lia. split; [done|]. rewrite Z.add_comm, Z.mod_add, Z.mod_small by lia. done. }
  unfold masked, length_end, read_length, len7, length_field. destruct (Z.leb_spec (f_length f) 125).
  - cbn [app lookup_total list_lookup_total length]. destruct (Hd (f_length f)) as [-> ->]; [lia|]. rewrite Hmb. destruct (Z.eqb_spec (f_length f) 126); [lia|]. destruct (Z.eqb_spec (f_length f) 127); [lia|]. split; [by destruct (bool_decide _)|done].
  - destruct (Z.ltb_spec (f_length f) 65536); [|lia]. cbn [app lookup_total list_lookup_total length]. destruct (Hd 126) as [-> ->]; [lia|]. rewrite Hmb. cbn [Z.eqb Pos.eqb]. split; [by destruct (bool_decide _)|]. split; [done|]. split; [|done].
    pose proof (Z.div_mod (f_length f) 256 ltac:(done)). lia.
Qed.

Lemma frame_read f rest r : is_frame f -> f_length f < 65536 -> let b := (encode_frame f ++ rest)%list in
  Z.of_nat (payload_start b) + read_length b = Z.of_nat (length (encode_frame f)) /\
  read_frame b r = mkRequest (f_fin f) (f_opcode f) (mask_bit f) (default (masking_key_ r) (f_key f)) (f_length f) (f_payload f ++ replicate (2048 - length (f_payload f)) 0).
Proof.
  intros Hf Hn b. destruct (read_header f rest Hf Hn) as (Hm & He & Hl & Hb1). fold b in Hm, He, Hl, Hb1. destruct Hf as (Hfin & Hop & Hp & Hk).
  assert (Hb : b = ((f_fin f * 128 + f_opcode f :: length_field f) ++ (match f_key f with Some k => k ++ xor_key k (f_payload f) | None => f_payload f end ++ rest))%list) by (unfold b; by rewrite encode_length_field).
  assert (Hdrop : drop (length_end b) b = (match f_key f with Some k => k ++ xor_key k (f_payload f) | None => f_payload f end ++ rest)%list) by (rewrite He, Hb; apply (drop_app_length (f_fin f * 128 + f_opcode f :: length_field f))).
  assert (Hb0 : b !!! 0%nat = f_fin f * 128 + f_opcode f) by (by rewrite Hb).
  assert (Hfo : (f_fin f * 128 + f_opcode f) / 128 = f_fin f /\ (f_fin f * 128 + f_opcode f) mod 16 = f_opcode f).
  { rewrite Z.div_add_l, Z.div_small, Z.add_0_r by lia. split; [done|]. replace (f_fin f * 128 + f_opcode f) with (f_opcode f + f_fin f * 8 * 16) by lia. rewrite Z.mod_add, Z.mod_small by lia. done. }
  assert (Hlen : length (encode_frame f) = (S (length (length_field f)) + match f_key f with Some _ => 4 | None => 0 end + length (f_payload f))%nat).
  { unfold encode_frame. rewrite !length_app. cbn [length]. destruct (f_key f) as [k|]; [rewrite length_app, length_xor_key; destruct Hk|]; lia. }
  unfold read_frame. rewrite Hl, Hb1, Hb0, (proj1 Hfo), (proj2 Hfo), Hm. unfold f_length in *. rewrite Nat2Z.id. unfold payload_start. rewrite <-!drop_drop, Hdrop, Hm, He. destruct (f_key f) as [k|] eqn:Ek.
  - rewrite bool_decide_true by done. destruct Hk as [Hk4 Hkb]. split; [lia|]. rewrite <-app_assoc. rewrite (take_app_length' _ _ 4), (drop_app_length' _ _ 4) by done.
    rewrite (take_app_length' _ _ (length (f_payload f))) by (by rewrite length_xor_key). rewrite xor_key_twice. done.
  - rewrite bool_decide_false by (by intros [? ?]). split; [lia|]. rewrite drop_0, take_app_length. done.
Qed.

(** ** The log *)

(** A string as it is printed: up to the first octet 0. *)
Definition shown (l : list Z) : list Z := default [] (c_octets (l ++ [0])).
Lemma c_octets_end l t : c_octets (l ++ 0 :: t) = Some (shown l).
Proof.
  unfold shown. induction l as [|v l IH]; [done|]. cbn [app c_octets]. destruct (v =? 0); [done|]. rewrite IH. destruct (c_octets (l ++ [0])) eqn:E; [done|].
  exfalso. clear -E. induction l as [|x l IH]; [done|]. cbn in E. destruct (x =? 0); [done|]. destruct (c_octets (l ++ [0])); [done|]. by apply IH.
Qed.
Lemma c_octets_pad l n : (0 < n)%nat -> c_octets (l ++ replicate n 0) = Some (shown l).
Proof. intros Hn. destruct n as [|n]; [lia|]. apply c_octets_end. Qed.
Lemma shown_all l : Forall (fun v => v <> 0) l -> shown l = l.
Proof.
  induction 1 as [|v l Hv _ IH]; [done|]. assert (E : c_octets (v :: l ++ [0]) = Some (v :: shown l)) by (cbn [c_octets]; destruct (Z.eqb_spec v 0); [done|]; by rewrite c_octets_end).
  unfold shown at 1. cbn [app]. rewrite E. cbn. by rewrite IH.
Qed.

Definition is_clock (now : clock) : Prop := let '(h, m, s) := now in 0 <= h < 24 /\ 0 <= m < 60 /\ 0 <= s <= 60.
Lemma two_digits_length z : 0 <= z < 100 -> String.length (two_digits z) = 2%nat.
Proof.
  intros Hz. assert (H : forallb (fun z => (String.length (two_digits z) =? 2)%nat) (Z.of_nat <$> seq 0 100) = true) by (vm_compute; reflexivity). rewrite forallb_forall in H.
  apply Nat.eqb_eq, H. rewrite <-list_elem_of_In. apply list_elem_of_fmap. exists (Z.to_nat z). split; [lia|]. apply elem_of_seq. lia.
Qed.
Definition log_line (now : clock) (text : string) : string :=
  let '(h, m, s) := now in "[" +:+ two_digits h +:+ ":" +:+ two_digits m +:+ ":" +:+ two_digits s +:+ "] " +:+ text +:+ String nl "".

(** The log has room for lines of 255 characters, 12 of which are added. *)
Lemma debug_log_exact {S} now text (s : S) : is_clock now -> DEBUG_LOG now text s = if decide (String.length text <= 243)%nat then Ok (log_line now text) s else Undefined "sprintf: no room".
Proof.
  destruct now as [[h m] sec]. intros (Hh & Hm & Hs). assert (Hlen : String.length (log_line (h, m, sec) text) = (12 + String.length text)%nat) by (unfold log_line; rewrite !slength_app, !two_digits_length by lia; cbn [String.length]; lia).
  assert (Hw : write_log (h, m, sec) text s = if (String.length (log_line (h, m, sec) text) <? 256)%nat then Ok (log_line (h, m, sec) text) s else Undefined "sprintf: no room") by (unfold write_log, sprintf, log_line; by destruct (_ <? 256)%nat).
  unfold DEBUG_LOG, mbind, cpp_bind, sprintf. destruct (Nat.ltb_spec (String.length text) 256).
  - cbn [mret cpp_ret]. unfold mret, cpp_ret. rewrite Hw. destruct (decide _), (Nat.ltb_spec (String.length (log_line (h, m, sec) text)) 256); (done || lia).
  - rewrite decide_False by lia. done.
Qed.

(** The text about a frame. *)
Definition about_frame (f : frame) : string := frame_text (mkRequest (f_fin f) (f_opcode f) (mask_bit f) [] (f_length f) []) (text_of (shown (f_payload f))).

(** ** Handling a frame *)

(** A connection between calls. *)
Definition quiet (h : Websocket_Handler) : Prop := buff_ h = replicate 2048 0 /\ request_ h = Request_new /\ ssl_live h = true.

Lemma fill_buffer data h : quiet h -> (length data <= 2048)%nat -> buff_ (fill data h) = (data ++ replicate (2048 - length data) 0)%list.
Proof. intros [Hb _] Hl. unfold fill. cbn [buff_ set_buff]. rewrite take_ge, Hb, drop_replicate by (unfold BUFFLEN; lia). done. Qed.

Lemma process_frame f now junk written h : quiet h -> status_ h = WEBSOCKET_HANDSHARKED -> is_frame f -> f_length f < 65536 -> (length (encode_frame f) <= 2048)%nat -> is_clock now ->
  process junk written now (fill (encode_frame f) h) =
    if decide (String.length (about_frame f) <= 243)%nat then Ok 0 (add_logged (log_line now (about_frame f)) h) else Undefined "sprintf: no room".
Proof.
  intros Hq Hst Hf Hn Hl Hnow. pose proof (fill_buffer _ h Hq Hl) as Eb. destruct Hq as (Hbuf & Hreq & Hlive). set (h1 := fill _ h) in *. unfold process. rewrite (bind_Ok get _ h1 h1 h1 eq_refl). change (status_ h1) with (status_ h). rewrite Hst.
  set (b := (encode_frame f ++ _)%list) in Eb. assert (Hb : is_buffer b).
  { split; [unfold b; rewrite length_app, length_replicate; lia|]. unfold b. apply Forall_app_2; [by apply encode_frame_bytes|]. by apply Forall_replicate. }
  pose proof (frame_read f (replicate (2048 - length (encode_frame f)) 0) Request_new Hf Hn) as [Hfit Hread]. fold b in Hfit, Hread. set (r := mkRequest _ _ _ _ _ _) in Hread.
  assert (Hfetch : on_request (fetch_websocket_info (buff_ h1)) h1 = Ok 0 (set_request r h1)).
  { unfold on_request. change (request_ h1) with (request_ h). rewrite Hreq, Eb, (fetch_exact b Request_new Hb), decide_True by (rewrite Hfit; lia). by rewrite Hread. }
  rewrite (bind_Ok _ _ _ _ _ Hfetch). assert (Hshort : (length (f_payload f) < 2048)%nat) by (unfold encode_frame in Hl; rewrite !length_app in Hl; cbn [length] in Hl; destruct (f_key f); [rewrite length_app, length_xor_key in Hl|]; lia).
  assert (Hprint : print now r = if decide (String.length (about_frame f) <= 243)%nat then Ok (log_line now (about_frame f)) Request_new else Undefined "sprintf: no room").
  { unfold print. rewrite (bind_Ok get _ r r r eq_refl). change (payload_ r) with (f_payload f ++ replicate (2048 - length (f_payload f)) 0)%list. rewrite c_octets_pad by lia. change (frame_text r (text_of (shown (f_payload f)))) with (about_frame f).
    unfold mbind at 1, cpp_bind at 1. rewrite debug_log_exact by done. by destruct (decide _). }
  unfold mbind at 1, cpp_bind at 1, on_request. change (request_ (set_request r h1)) with r. rewrite Hprint. destruct (decide _); [|done].
  unfold mbind, cpp_bind, modify, clear_buff, mret, cpp_ret, modify. f_equal. unfold h1. destruct h. cbn in *. by subst.
Qed.

(** ** The handshake *)

Record upgrade : Type := mkUpgrade { u_line : string; u_headers : list (string * string) }.
Definition headers_text (hs : list (string * string)) : string := foldr (fun '(k, v) rest => k +:+ ": " +:+ v +:+ crlf +:+ rest) crlf hs.
Definition request_text (u : upgrade) : string := u_line u +:+ crlf +:+ headers_text (u_headers u).
Definition plain (s : string) : bool := no_char nl s && no_char "000" s.
Definition is_header (kv : string * string) : Prop := plain kv.1 = true /\ plain kv.2 = true /\ no_char ":" kv.1 = true.
Definition is_upgrade (u : upgrade) : Prop := plain (u_line u) = true /\ Forall is_header (u_headers u) /\ (String.length (request_text u) <= 2047)%nat.
(** The key of the client: the last header of that name. *)
Definition client_key (u : upgrade) : string := default "" (snd <$> last (filter (fun kv => kv.1 = "Sec-WebSocket-Key") (u_headers u))).

(** What RFC 6455 asks for: base64 of the digest of the key and the constant. *)
Definition accept_value (key : string) : string :=
  Base64.base64_encode (concat (Fips180.octets_of 4 <$> Fips180.digest (octets_of_text (key +:+ MAGIC_KEY)))).
Definition reply (key : string) : string :=
  "HTTP/1.1 101 Switching Protocols" +:+ crlf +:+ "Connection: upgrade" +:+ crlf +:+ "Sec-WebSocket-Accept: " +:+ accept_value key +:+ crlf +:+ "Upgrade: websocket" +:+ crlf +:+ crlf.

Lemma unsnoc_app s c : unsnoc (s +:+ String c "") = Some (s, c).
Proof. induction s as [|d s IH]; [done|]. rewrite app_cons. cbn [unsnoc]. by rewrite IH. Qed.
Lemma split_colon_app k v : no_char ":" k = true -> split_colon (k +:+ ": " +:+ v) = Some (k, v).
Proof.
  induction k as [|c k IH]; [done|]. intros [Hc Hk]%no_char_cons. rewrite app_cons. cbn [split_colon]. specialize (IH Hk).
  destruct (k +:+ ": " +:+ v) as [|d rest] eqn:E; [by destruct k|]. rewrite IH. unfold char_eqb. destruct (Ascii.eqb_spec c ":"); [done|]. done.
Qed.
Lemma text_octets s : text_of (octets_of_text s) = s.
Proof.
  unfold text_of, octets_of_text. rewrite <-list_fmap_compose. rewrite (list_fmap_ext _ id), list_fmap_id by (intros i c _; cbn; unfold char_of; by rewrite Nat2Z.id, ascii_nat_embedding). apply string_of_list_ascii_of_string.
Qed.
Lemma length_octets_of_text s : length (octets_of_text s) = String.length s.
Proof. unfold octets_of_text. rewrite length_fmap. induction s; cbn; by f_equal. Qed.
Lemma octets_of_text_bytes s : Forall byte (octets_of_text s).
Proof. unfold octets_of_text. apply Forall_fmap, Forall_true. intros c. unfold byte. cbn. pose proof (nat_ascii_bounded c). lia. Qed.
Lemma octets_of_text_nonzero s : no_char "000" s = true -> Forall (fun v => v <> 0) (octets_of_text s).
Proof.
  unfold octets_of_text. induction s as [|c s IH]; [by constructor|]. intros [Hc Hs]%no_char_cons. cbn. apply Forall_cons. split; [|by apply IH].
  intros E. apply Hc. rewrite <-(ascii_nat_embedding c). by replace (nat_of_ascii c) with 0%nat by lia.
Qed.

Lemma plain_app a b : plain (a +:+ b) = plain a && plain b.
Proof. unfold plain. rewrite !no_char_app. by destruct (no_char nl a), (no_char nl b), (no_char "000" a), (no_char "000" b). Qed.

Lemma headers_lines hs h : Forall is_header hs -> headers (lines (headers_text hs)) h = Ok tt (on_headers (fun m => foldl (fun m '(k, v) => <[k := v]> m) m hs) h).
Proof.
  intros Hhs. revert h. induction Hhs as [|[k v] hs (Hk & Hv & Hc) _ IH]; intros h; [by destruct h|]. cbn [headers_text foldr foldl]. fold (headers_text hs). cbn [fst snd] in *.
  replace (k +:+ ": " +:+ v +:+ crlf +:+ headers_text hs) with ((k +:+ ": " +:+ v +:+ String cr "") +:+ String nl (headers_text hs)) by (by rewrite !sapp_assoc).
  apply andb_true_iff in Hk as [Hk _]. apply andb_true_iff in Hv as [Hv _]. rewrite lines_app by (by rewrite !no_char_app, Hk, Hv). cbn [headers].
  replace (k +:+ ": " +:+ v +:+ String cr "") with ((k +:+ ": " +:+ v) +:+ String cr "") by (by rewrite !sapp_assoc). rewrite unsnoc_app.
  destruct (String.eqb_spec ((k +:+ ": " +:+ v) +:+ String cr "") (String cr "")) as [E|_].
  { exfalso. apply (f_equal String.length) in E. rewrite !slength_app in E. cbn in E. lia. }
  rewrite (bind_Ok _ _ _ tt (on_headers (<[k := v]>) h)). { rewrite IH. by destruct h. } unfold char_eqb. rewrite Ascii.eqb_refl. unfold one_header. by rewrite split_colon_app.
Qed.

Lemma table_last hs m : foldl (fun (m : gmap string string) '(k, v) => <[k := v]> m) m hs !! "Sec-WebSocket-Key" =
  match last (filter (fun kv => kv.1 = "Sec-WebSocket-Key") hs) with Some kv => Some kv.2 | None => m !! "Sec-WebSocket-Key" end.
Proof.
  induction hs as [|[k v] hs IH] using rev_ind; [done|]. rewrite foldl_app, filter_app. cbn [foldl]. destruct (decide (k = "Sec-WebSocket-Key")) as [->|Hk].
  - rewrite filter_cons_True by done. rewrite filter_nil, last_snoc. by rewrite lookup_insert_eq.
  - rewrite filter_cons_False by done. rewrite filter_nil, app_nil_r, <-IH. by rewrite lookup_insert_ne.
Qed.

(** The digest in the order of the network. *)
Lemma htonl_octets w : word w -> word_octets (htonl w) = Fips180.octets_of 4 w.
Proof.
  intros Hw. unfold word_octets, htonl. cbn [Fips180.octets_of app]. rewrite !Z.div_div by lia. change (256 * (256 * 256)) with (2 ^ 24). change (256 * 256) with (2 ^ 16). change (2 ^ 8) with 256.
  set (a := w mod 256). set (b := w / 256 mod 256). set (c := w / 2 ^ 16 mod 256). set (d := w / 2 ^ 24 mod 256).
  assert (Ha : 0 <= a < 256) by (apply Z.mod_pos_bound; done). assert (Hb : 0 <= b < 256) by (apply Z.mod_pos_bound; done). assert (Hc : 0 <= c < 256) by (apply Z.mod_pos_bound; done). assert (Hd : 0 <= d < 256) by (apply Z.mod_pos_bound; done).
  clearbody a b c d. change (2 ^ 24) with 16777216. change (2 ^ 16) with 65536. f_equal; [|f_equal; [|f_equal; [|f_equal]]]; Z.to_euclidean_division_equations; lia.
Qed.

Lemma input_string_ok l msg s : took msg s -> Forall byte l -> Forall (fun v => v <> 0) l -> returns (SHA2.Input_string l) s (fun _ s' => took (msg ++ l) s').
Proof.
  revert msg s. induction l as [|v l IH]; intros msg s Ht Hb Hz; [apply returns_ret; by rewrite app_nil_r|]. apply Forall_cons in Hb as [Hv Hb]. apply Forall_cons in Hz as [Hv0 Hz]. cbn [SHA2.Input_string].
  destruct (Z.eqb_spec v 0); [done|]. wp_step. eapply returns_mono; [exact (input_ok [v] _ _ Ht ltac:(by apply Forall_singleton))|]. intros [] s1 H1. eapply returns_mono; [exact (IH _ _ H1 Hb Hz)|]. intros [] s2 H2. by rewrite <-app_assoc in H2.
Qed.

Lemma digest_state msg : is_state (Fips180.digest msg).
Proof.
  unfold Fips180.digest. assert (H0 : is_state Fips180.initial) by (split; [done|]; repeat (apply Forall_cons; split; [done|]); by apply Forall_nil). revert H0. generalize Fips180.initial.
  induction (Fips180.pieces 64 (length (Fips180.pad msg) / 64) (Fips180.pad msg)) as [|b bs IH]; intros h Hh; [done|]. cbn [foldl]. apply IH. unfold Fips180.compress. destruct (foldl _ _ _) as [[[[a x] c] d] e].
  destruct Hh as [Hl Hh]. split; [rewrite length_zip_with, Hl; done|]. apply Forall_lookup. intros i y Hy. apply lookup_zip_with_Some in Hy as (? & ? & -> & _ & _). apply word_mod.
Qed.

Lemma digest_octets_ok {S} junk s (st : S) : is_block junk -> no_char "000" s = true -> Z.of_nat (String.length s) < 2 ^ 61 ->
  digest_octets junk s st = Ok (concat (Fips180.octets_of 4 <$> Fips180.digest (octets_of_text s))) st.
Proof.
  intros Hj Hs Hl. unfold digest_octets. assert (Hr : returns (SHA2.Input_string (octets_of_text s) ;; SHA2.Result) (SHA2.Reset (SHA2.SHA2_new junk)) (fun r _ => r = Some (Fips180.digest (octets_of_text s)))).
  { wp_step. eapply returns_mono; [exact (input_string_ok _ [] _ (reset_ok (SHA2.SHA2_new junk) Hj) (octets_of_text_bytes s) (octets_of_text_nonzero s Hs))|]. intros [] s1 H1. eapply returns_mono; [exact (result_ok _ _ H1)|].
    intros r s2 [-> _]. rewrite decide_True; [done|]. cbn [app]. by rewrite length_octets_of_text. }
  destruct Hr as (r & s1 & E & ->). rewrite E. unfold mret, cpp_ret. do 2 f_equal. apply list_fmap_ext. intros i w Hw. apply htonl_octets. destruct (digest_state (octets_of_text s)) as [_ Hf]. by eapply Forall_lookup in Hw.
Qed.

Lemma strcat_ok {S} a b (s : S) : (String.length a + String.length b < 1024)%nat -> strcat a b s = Ok (a +:+ b) s.
Proof. intros H. unfold strcat. by destruct (Nat.ltb_spec (String.length a + String.length b) 1024); [|lia]. Qed.
Lemma strcat_bind {S A} a b (k : string -> cpp S A) (s : S) : (String.length a + String.length b < 1024)%nat -> (strcat a b ≫= k) s = k (a +:+ b) s.
Proof. intros H. exact (bind_Ok _ _ _ _ _ (strcat_ok a b s H)). Qed.

Lemma accept_length key : String.length (accept_value key) = 28%nat.
Proof.
  unfold accept_value. rewrite length_base64. destruct (digest_state (octets_of_text (key +:+ MAGIC_KEY))) as [Hl _]. destruct (Fips180.digest _) as [|? [|? [|? [|? [|? [|]]]]]]; try discriminate Hl. done.
Qed.

Lemma parse_str_ok junk h key : is_block junk -> default "" (header_map_ h !! "Sec-WebSocket-Key") = key -> no_char "000" key = true -> Z.of_nat (String.length key) < 2 ^ 60 ->
  exists h', parse_str junk h = Ok (reply key) h' /\ exists m, h' = on_headers (fun _ => m) h.
Proof.
  intros Hj Hkey Hnul Hlen. unfold parse_str. do 3 (rewrite strcat_bind by (apply Nat.ltb_lt; vm_compute; reflexivity)).
  rewrite (bind_Ok get _ h h h eq_refl), Hkey. set (h1 := on_headers (fun m => <["Sec-WebSocket-Key" := key]> m) h). rewrite (bind_Ok (modify (on_headers (fun m => <["Sec-WebSocket-Key" := key]> m))) _ h tt h1 eq_refl).
  rewrite (bind_Ok _ _ _ _ _ (digest_octets_ok junk (key +:+ MAGIC_KEY) h1 Hj ltac:(by rewrite no_char_app, Hnul) ltac:(rewrite slength_app; cbn [String.length MAGIC_KEY]; lia))). fold (accept_value key).
  pose proof (accept_length key) as Ha. rewrite strcat_bind by (rewrite !slength_app, Ha; cbn; lia). rewrite strcat_ok by (rewrite !slength_app, Ha; cbn; lia).
  exists h1. split; [|by exists (<["Sec-WebSocket-Key" := key]> (header_map_ h))]. f_equal. unfold reply. rewrite !sapp_assoc. by rewrite app_empty_l.
Qed.

(** The last header of a name has no line end and is not longer than the request. *)
Lemma client_key_plain u : is_upgrade u -> no_char "000" (client_key u) = true /\ (String.length (client_key u) <= 2047)%nat.
Proof.
  intros (_ & Hh & Hl). unfold client_key. destruct (last _) as [[k v]|] eqn:E; [|split; [done|cbn; lia]]. apply last_Some_elem_of in E. apply list_elem_of_filter in E as [_ E]. cbn [fmap option_fmap option_map default snd from_option].
  pose proof (proj1 (Forall_forall _ _) Hh _ E) as (_ & Hv & _). cbn in Hv. apply andb_true_iff in Hv as [_ Hv]. split; [done|].
  assert (Hle : (String.length v <= String.length (headers_text (u_headers u)))%nat).
  { clear -E. induction (u_headers u) as [|[k' v'] hs IH]; [by apply elem_of_nil in E|]. cbn [headers_text foldr]. fold (headers_text hs). rewrite !slength_app. apply elem_of_cons in E as [[= <- <-]|E]; [lia|]. specialize (IH E). lia. }
  unfold id. unfold request_text in Hl. rewrite !slength_app in Hl. lia.
Qed.

Lemma request_plain u : is_upgrade u -> no_char "000" (request_text u) = true.
Proof.
  intros (Hl & Hh & _). unfold request_text. rewrite !no_char_app. apply andb_true_iff in Hl as [_ ->]. cbn [andb]. induction Hh as [|[k v] hs (Hk & Hv & _) _ IH]; [done|]. cbn [headers_text foldr]. fold (headers_text hs).
  cbn [fst snd] in *. apply andb_true_iff in Hk as [_ Hk]. apply andb_true_iff in Hv as [_ Hv]. rewrite !no_char_app, Hk, Hv. exact IH.
Qed.

Lemma process_upgrade u now junk written h : quiet h -> status_ h = WEBSOCKET_UNCONNECT -> header_map_ h = ∅ -> is_upgrade u -> is_block junk ->
  exists h', process junk written now (fill (octets_of_text (request_text u)) h) = Ok written h' /\
    quiet h' /\ status_ h' = WEBSOCKET_HANDSHARKED /\ sent h' = (sent h ++ [reply (client_key u)])%list /\ logged h' = logged h.
Proof.
  intros Hq Hst Hm Hu Hj. pose proof (request_plain u Hu) as Hnul. destruct (client_key_plain u Hu) as [Hkn Hkl]. destruct Hu as (Hline & Hhs & Hlen). pose proof (fill_buffer (octets_of_text (request_text u)) h Hq ltac:(rewrite length_octets_of_text; lia)) as Eb.
  destruct Hq as (Hbuf & Hreq & Hlive). set (h1 := fill _ h) in *. unfold process. rewrite (bind_Ok get _ h1 h1 h1 eq_refl). change (status_ h1) with (status_ h). rewrite Hst. unfold handshark.
  set (h2 := set_status WEBSOCKET_HANDSHARKED h1). rewrite (bind_Ok (modify (set_status WEBSOCKET_HANDSHARKED)) _ h1 tt h2 eq_refl).
  set (h3 := on_headers (fun m => foldl (fun m '(k, v) => <[k := v]> m) m (u_headers u)) h2).
  assert (Hinfo : fetch_http_info h2 = Ok 0 h3).
  { unfold fetch_http_info. rewrite (bind_Ok get _ h2 h2 h2 eq_refl). change (buff_ h2) with (buff_ h1). rewrite Eb, c_octets_pad by (rewrite length_octets_of_text; lia). rewrite shown_all by (by apply octets_of_text_nonzero). rewrite text_octets. unfold request_text.
    replace (u_line u +:+ crlf +:+ headers_text (u_headers u)) with ((u_line u +:+ String cr "") +:+ String nl (headers_text (u_headers u))) by (by rewrite !sapp_assoc).
    apply andb_true_iff in Hline as [Hline _]. rewrite lines_app by (by rewrite no_char_app, Hline). rewrite unsnoc_app. unfold char_eqb. rewrite Ascii.eqb_refl. by rewrite (bind_Ok _ _ _ _ _ (headers_lines _ h2 Hhs)). }
  rewrite (bind_Ok _ _ _ _ _ Hinfo). destruct (parse_str_ok junk h3 (client_key u) Hj) as (h4 & E4 & m & ->); [|done|lia|].
  { unfold h3. cbn [header_map_ on_headers h2 set_status h1 fill set_buff]. rewrite Hm, table_last. unfold client_key. by destruct (last _). }
  rewrite (bind_Ok _ _ _ _ _ E4). set (h5 := set_buff (replicate 2048 0) (on_headers (fun _ => m) h3)). rewrite (bind_Ok clear_buff _ _ tt h5 eq_refl).
  unfold send_data. rewrite (bind_Ok get _ h5 h5 h5 eq_refl). change (ssl_live h5) with (ssl_live h). rewrite Hlive. exists (add_sent (reply (client_key u)) h5). done.
Qed.

(** The example of RFC 6455. *)
Lemma rfc_example : accept_value "dGhlIHNhbXBsZSBub25jZQ==" = "s3pPLMBiTxaQ9kYGzzhZRbK+xOo=".
Proof. vm_compute. reflexivity. Qed.

(** ** All connections *)

Import Network.

(** A connection as its client sees it: before the upgrade, or after it with the answer and the lines of the log. *)
Inductive phase : Type := Fresh | Upgraded (answer : string) (log : list string).

Definition ssl_fine (e : SslEnv) : bool := ctx_new e && ca_loads e && chain_loads e && key_opens e && key_reads e && key_is_rsa e && key_set e && key_matches e.

(** What is to happen. [listening] is the descriptor of the listening socket. *)
Inductive spec_event (listening : Z) : event -> gmap Z phase -> gmap Z phase -> Prop :=
  | Spec_accept fd ps : fd <> listening -> spec_event listening (Accept fd true) ps (<[fd := Fresh]> ps)
  | Spec_upgrade fd u junk written now ps : 0 <= fd -> ps !! fd = Some Fresh -> is_upgrade u -> is_block junk ->
      spec_event listening (Readable fd (octets_of_text (request_text u)) junk written now) ps (<[fd := Upgraded (reply (client_key u)) []]> ps)
  | Spec_frame fd f answer log junk written now ps : 0 <= fd -> ps !! fd = Some (Upgraded answer log) -> is_frame f -> f_length f < 65536 -> (length (encode_frame f) <= 2048)%nat ->
      (String.length (about_frame f) <= 243)%nat -> is_clock now ->
      spec_event listening (Readable fd (encode_frame f) junk written now) ps (<[fd := Upgraded answer (log ++ [log_line now (about_frame f)])]> ps)
  | Spec_close fd p junk written now ps : 0 <= fd -> ps !! fd = Some p -> spec_event listening (Readable fd [] junk written now) ps (delete fd ps)
  | Spec_unknown fd data junk written now ps : ps !! fd = None -> spec_event listening (Readable fd data junk written now) ps ps
  | Spec_other fd ps : spec_event listening (Other fd) ps ps
  | Spec_reload l ps : Forall (fun '((modified, e) : bool * SslEnv) => ssl_fine e = true) l -> spec_event listening (Inotify (Some l)) ps ps
  | Spec_unread ps : spec_event listening (Inotify None) ps ps.
Inductive spec_run (listening : Z) : list (event * bool) -> gmap Z phase -> gmap Z phase -> Prop :=
  | Run_nil ps : spec_run listening [] ps ps
  | Run_cons ev possible evs ps1 ps2 ps3 : spec_event listening ev ps1 ps2 -> spec_run listening evs ps2 ps3 -> spec_run listening ((ev, possible) :: evs) ps1 ps3.

Definition handler_at (p : phase) (h : Websocket_Handler) : Prop := quiet h /\
  match p with
  | Fresh => status_ h = WEBSOCKET_UNCONNECT /\ header_map_ h = ∅ /\ sent h = [] /\ logged h = []
  | Upgraded answer log => status_ h = WEBSOCKET_HANDSHARKED /\ sent h = [answer] /\ logged h = log
  end.
Definition stands_for (listening : Z) (ps : gmap Z phase) (n : Network_Interface) : Prop := listenfd_ n = listening /\ forall fd,
  match ps !! fd with
  | None => default None (handlers n !! fd) = None
  | Some p => exists h, handlers n !! fd = Some (Some h) /\ handler_at p h
  end.

Lemma stands_insert listening ps n fd p h : stands_for listening ps n -> handler_at p h -> stands_for listening (<[fd := p]> ps) (on_handlers (<[fd := Some h]>) n).
Proof.
  intros [Hl Hs] Hh. split; [done|]. intros fd'. cbn [handlers on_handlers]. destruct (decide (fd = fd')) as [->|Hne]; [rewrite !lookup_insert_eq; by exists h|]. rewrite !lookup_insert_ne by done. apply Hs.
Qed.
Lemma on_handlers_twice f g n : on_handlers f (on_handlers g n) = on_handlers (fun m => f (g m)) n.
Proof. done. Qed.

(** A message for a connection that is there. *)
Lemma readable_present listening ps n fd p data junk written now possible h' : stands_for listening ps n -> 0 <= fd -> ps !! fd = Some p -> data <> [] ->
  (forall h, handler_at p h -> exists h1 a, process junk written now (fill data h) = Ok a h1 /\ handler_at h' h1) ->
  exists n', handle_event (Readable fd data junk written now) possible n = Ok tt n' /\ stands_for listening (<[fd := h']> ps) n'.
Proof.
  intros Hs Hfd Hp Hdata Hproc. pose proof (proj2 Hs fd) as Hh. rewrite Hp in Hh. destruct Hh as (h & Hlook & Hat). destruct (Hproc h Hat) as (h1 & a & Ep & Hat1). unfold handle_event. destruct (Z.ltb_spec fd 0); [lia|].
  rewrite (bind_Ok get _ n n n eq_refl), Hlook. change (default None (Some (Some h))) with (Some h). set (n1 := on_handlers (<[fd := Some h]>) n). rewrite (bind_Ok (modify (on_handlers (<[fd := Some h]>))) _ n tt n1 eq_refl). destruct data as [|d0 data]; [done|].
  assert (E : (modify (fill (d0 :: data)) ;; process junk written now ;; mret tt) h = Ok tt h1).
  { rewrite (bind_Ok (modify (fill (d0 :: data))) _ h tt (fill (d0 :: data) h) eq_refl). by rewrite (bind_Ok _ _ _ _ _ Ep). }
  unfold on_handler. rewrite E. eexists. split; [reflexivity|]. unfold n1. rewrite on_handlers_twice.
  replace (on_handlers (fun m => <[fd := Some h1]> (<[fd := Some h]> m)) n) with (on_handlers (<[fd := Some h1]>) n) by (unfold on_handlers; f_equal; by rewrite insert_insert_eq). by apply stands_insert.
Qed.

Lemma ssl_fine_ok e n : ssl_fine e = true -> reload_certificates e n = Ok tt n.
Proof. unfold ssl_fine. intros H. repeat (apply andb_true_iff in H as [H ?]). destruct e; cbn in *; by subst. Qed.

Lemma epoll_ctl_ok possible n : epoll_ctl possible n = Ok (possible && bool_decide (epollfd_ n ∈ epolls n)) n.
Proof. done. Qed.

Lemma handle_event_ok listening ev possible ps1 ps2 n : spec_event listening ev ps1 ps2 -> stands_for listening ps1 n -> exists n', handle_event ev possible n = Ok tt n' /\ stands_for listening ps2 n'.
Proof.
  intros Hev Hs. destruct Hev as [fd ps Hne|fd u junk written now ps Hfd Hp Hu Hj|fd f answer log junk written now ps Hfd Hp Hf Hn Hl Ht Hc|fd p junk written now ps Hfd Hp|fd data junk written now ps Hp|fd ps|l ps Hl|ps].
  - exists (on_handlers (<[fd := Some (Handler_new fd true)]>) n). split; [|by apply stands_insert]. unfold handle_event, ctl_event. rewrite (bind_Ok _ _ _ _ _ (epoll_ctl_ok possible n)), (bind_Ok get _ n n n eq_refl).
    destruct (Z.eqb_spec fd (listenfd_ n)) as [E|_]; [|done]. by rewrite (proj1 Hs) in E.
  - eapply readable_present; [done|done|done| |].
    + intros E. apply (f_equal length) in E. rewrite length_octets_of_text in E. unfold request_text in E. rewrite !slength_app in E. cbn in E. lia.
    + intros h [Hq (H1 & H2 & H3 & H4)]. destruct (process_upgrade u now junk written h Hq H1 H2 Hu Hj) as (h1 & E & Hq1 & E1 & E2 & E3). exists h1, written. split; [done|]. split; [done|]. split; [done|]. by rewrite E2, E3, H3.
  - eapply readable_present; [done|done|done|by unfold encode_frame|]. intros h [Hq (H1 & H2 & H3)]. eexists _, 0. rewrite process_frame, decide_True by done. split; [reflexivity|]. split; [done|]. split; [done|]. split; [done|]. cbn. by rewrite H3.
  - pose proof (proj2 Hs fd) as Hh. rewrite Hp in Hh. destruct Hh as (h & Hlook & Hq & _). exists (on_handlers (delete fd) n). split.
    + unfold handle_event. destruct (Z.ltb_spec fd 0); [lia|]. rewrite (bind_Ok get _ n n n eq_refl), Hlook. change (default None (Some (Some h))) with (Some h). set (n1 := on_handlers (<[fd := Some h]>) n). rewrite (bind_Ok (modify (on_handlers (<[fd := Some h]>))) _ n tt n1 eq_refl).
      unfold ctl_event. rewrite (bind_Ok _ _ _ _ _ (epoll_ctl_ok possible n1)), (bind_Ok get _ n1 n1 n1 eq_refl). unfold n1 at 1. cbn [handlers on_handlers]. rewrite lookup_insert_eq. unfold Handler_destroy. destruct Hq as (_ & _ & ->).
      unfold mbind, cpp_bind, mret, cpp_ret, modify. f_equal. unfold n1, on_handlers. cbn. f_equal. by rewrite delete_insert_eq.
    + split; [apply Hs|]. intros fd'. cbn [handlers on_handlers]. destruct (decide (fd = fd')) as [->|Hne]; [by rewrite !lookup_delete_eq|]. rewrite !lookup_delete_ne by done. apply Hs.
  - pose proof (proj2 Hs fd) as Hh. rewrite Hp in Hh. unfold handle_event. destruct (fd <? 0); [by exists n|]. rewrite (bind_Ok get _ n n n eq_refl), Hh. exists (on_handlers (<[fd := None]>) n). split; [done|].
    split; [apply Hs|]. intros fd'. cbn [handlers on_handlers]. destruct (decide (fd = fd')) as [->|Hne]; [by rewrite Hp, lookup_insert_eq|]. rewrite lookup_insert_ne by done. apply Hs.
  - by exists n.
  - exists n. split; [|done]. cbn [handle_event handle_inotify_event]. induction Hl as [|[modified e] l He _ IH]; [done|]. cbn [iterM]. rewrite (bind_Ok _ _ n tt n); [exact IH|]. destruct modified; [by apply ssl_fine_ok|done].
  - by exists n.
Qed.


(** A client with the key of RFC 6455 that upgrades and sends a masked text, beside one that leaves. *)
Definition example_upgrade : upgrade := mkUpgrade "GET /chat HTTP/1.1" [("Host", "server.example.com"); ("Upgrade", "websocket"); ("Sec-WebSocket-Key", "dGhlIHNhbXBsZSBub25jZQ==")].
Definition example_frame : frame := mkFrame 1 1 (Some [0x37; 0xfa; 0x21; 0x3d]) (octets_of_text "Hello").
Definition example_events : list (event * bool) :=
  [(Accept 7 true, true); (Accept 8 true, true); (Readable 7 (octets_of_text (request_text example_upgrade)) (replicate 64 0) 200 (9, 30, 0), true);
   (Readable 8 [] (replicate 64 0) 0 (9, 30, 1), true); (Readable 7 (encode_frame example_frame) (replicate 64 0) 0 (9, 30, 2), true)].
Definition example_network : Network_Interface := mkNetwork 4 3 ∅ 5 (1, 2, 3) {[4]}.

(** ** Defects *)

(** The constructor hands the descriptor 0 to [epoll_ctl] before it creates an epoll instance: the server never starts. *)
Lemma server_never_starts e os possible : exists n, Network_Interface_ctor e os possible Network_new = Throw "exit" n.
Proof.
  unfold Network_Interface_ctor, create_context, configure_context.
  destruct e as [[] [] [] [] [] [] [] []]; try by eexists. unfold init_inotify. destruct (inotify_init os =? -1); [by eexists|]. destruct (watch_ca os =? -1); [by eexists|]. destruct (watch_server os =? -1); [by eexists|].
  destruct (watch_key os =? -1); [by eexists|]. destruct possible; by eexists.
Qed.

(** A client whose TLS handshake fails and who then leaves: the SSL object is freed a second time. *)
Lemma failed_handshake_freed_twice fd n junk written now possible : 0 <= fd -> fd <> listenfd_ n ->
  epoll_loop [(Accept fd false, possible); (Readable fd [] junk written now, possible)] n = Undefined "use of a freed SSL object".
Proof.
  intros Hfd Hne. unfold epoll_loop. cbn [iterM]. set (n1 := on_handlers (<[fd := Some (Handler_new fd false)]>) n).
  assert (E1 : handle_event (Accept fd false) possible n = Ok tt n1).
  { unfold handle_event, ctl_event. rewrite (bind_Ok _ _ _ _ _ (epoll_ctl_ok possible n)), (bind_Ok get _ n n n eq_refl). by destruct (Z.eqb_spec fd (listenfd_ n)). }
  rewrite (bind_Ok _ _ _ _ _ E1). unfold mbind at 1, cpp_bind at 1. unfold handle_event. destruct (Z.ltb_spec fd 0); [lia|]. rewrite (bind_Ok get _ n1 n1 n1 eq_refl).
  assert (Hl : handlers n1 !! fd = Some (Some (Handler_new fd false))) by (unfold n1; cbn [handlers on_handlers]; by rewrite lookup_insert_eq). rewrite Hl.
  change (default None (Some (Some (Handler_new fd false)))) with (Some (Handler_new fd false)). set (n2 := on_handlers (<[fd := Some (Handler_new fd false)]>) n1). rewrite (bind_Ok (modify (on_handlers (<[fd := Some (Handler_new fd false)]>))) _ n1 tt n2 eq_refl).
  unfold ctl_event. rewrite (bind_Ok _ _ _ _ _ (epoll_ctl_ok possible n2)), (bind_Ok get _ n2 n2 n2 eq_refl). unfold n2 at 1. cbn [handlers on_handlers]. by rewrite lookup_insert_eq.
Qed.

(** A frame of 200 characters, which fits into the buffer, overruns the log. *)
Lemma long_text_overruns_log : let f := mkFrame 1 1 None (replicate 200 97) in
  process [] 0 (12, 0, 0) (fill (encode_frame f) (set_status WEBSOCKET_HANDSHARKED (Handler_new 7 true))) = Undefined "sprintf: no room".
Proof.
  intros f. rewrite process_frame; try done; try (vm_compute; lia).
  split; [done|]. split; [done|]. split; [|done]. by apply Forall_replicate.
Qed.
(** Four octets of a client are enough to make the server read past its buffer. *)
Lemma announced_length_overruns r : fetch_websocket_info ([0x81; 126; 255; 255] ++ replicate 2044 0) r = Undefined "read past the buffer".
Proof.
  rewrite fetch_exact; [done|]. split; [done|]. apply Forall_app_2; [repeat (apply Forall_cons; split; [done|]); by apply Forall_nil|by apply Forall_replicate].
Qed.
(** [ntohll] tests for the wrong order: a length of eight octets is read from the wrong end. *)
Lemma long_length_misread : ntohll (in_memory (Fips180.octets_of 8 65536)) = 2 ^ 40.
Proof. done. Qed.
(** A request that begins with a line end has no last character to look at. *)
Lemma empty_line_undefined junk written now h : quiet h -> status_ h = WEBSOCKET_UNCONNECT -> process junk written now (fill [10] h) = Undefined "request[-1]".
Proof.
  intros Hq Hst. pose proof (fill_buffer [10] h Hq ltac:(cbn; lia)) as Eb. set (h1 := fill [10] h) in *. unfold process. rewrite (bind_Ok get _ h1 h1 h1 eq_refl). change (status_ h1) with (status_ h). rewrite Hst. unfold handshark.
  set (h2 := set_status WEBSOCKET_HANDSHARKED h1). rewrite (bind_Ok (modify (set_status WEBSOCKET_HANDSHARKED)) _ h1 tt h2 eq_refl). unfold mbind at 1, cpp_bind at 1. unfold fetch_http_info. rewrite (bind_Ok get _ h2 h2 h2 eq_refl).
  change (buff_ h2) with (buff_ h1). by rewrite Eb.
Qed.
