(* ===== verification/DelayQueue.v ===== *)
(** * DelayQueue: a queue whose elements become ready later

    Models src/zsxq-cpp-ai/Stddelay_queue/delay_queue.hpp. Every method holds the mutex except
    while it waits for the condition variable, so a method is a sequence of segments, and
    threads take turns between segments. Times are nanoseconds of the steady clock, delays
    milliseconds. The clock may be read several times in a segment: [clock] gives the
    readings. [std::priority_queue] is an interface with what the standard promises. *)

From S2P Require Import Prelude.

Local Open Scope Z_scope.

(** ** Elements and the priority queue *)

Section elements.
Context {T : Type}.

Record DelayedElement : Type := mkElement { data_ : T; expiry_ : Z }.
Definition isExpired (e : DelayedElement) (now : Z) : bool := expiry_ e <=? now.
(** [duration_cast] to milliseconds cuts off the fraction. *)
Definition getRemainingDelay (e : DelayedElement) (now : Z) : Z :=
  if expiry_ e <=? now then 0 else Z.quot (expiry_ e - now) 1000000.
(** The priority of [a] is lower. *)
Definition ElementComparator (a b : DelayedElement) : bool := expiry_ b <? expiry_ a.
End elements.
Arguments DelayedElement : clear implicits.

(** [top] is an element that no other one exceeds; which of several is not said. *)
Class PriorityQueue {E : Type} (less : E -> E -> bool) : Type := {
  pq : Type;
  pq_list : pq -> list E;
  pq_empty : pq;
  pq_push : E -> pq -> pq;
  pq_top : pq -> option E;
  pq_pop : pq -> pq;
  pq_list_empty : pq_list pq_empty = [];
  pq_list_push e q : pq_list (pq_push e q) ≡ₚ e :: pq_list q;
  pq_top_none q : pq_top q = None <-> pq_list q = [];
  pq_top_some q e : pq_top q = Some e -> pq_list q ≡ₚ e :: pq_list (pq_pop q) /\ (forall x, x ∈ pq_list q -> less e x = false) }.

(** A list in order of priority. *)
Section list_queue.
Context {E : Type} (less : E -> E -> bool).
Fixpoint insert_ordered (e : E) (l : list E) : list E :=
  match l with
  | [] => [e]
  | x :: l' => if less x e then e :: l else x :: insert_ordered e l'
  end.
End list_queue.

(** ** Methods *)

Section queue.
Context {T : Type} {Q : PriorityQueue (@ElementComparator T)}.
Abbreviation element := (DelayedElement T).

(** The end of a segment: the method returns, or the thread waits, with or without a deadline. *)
Inductive outcome : Type :=
  | Returns (found : option element)
  | Waits (deadline : option Z).

(** [steady_clock::now() + milliseconds(delay_ms)] *)
Definition expiry_of (now delay_ms : Z) : Z := now + delay_ms * 1000000.
Definition put (data : T) (delay_ms : Z) (now : Z) (q : pq) : element * pq :=
  let e := mkElement data (expiry_of now delay_ms) in (e, pq_push e q).

Definition tryTake (now : Z) (q : pq) : option element * pq :=
  match pq_top q with
  | None => (None, q)
  | Some e => if isExpired e now then (Some e, pq_pop q) else (None, q)
  end.

(** [take(result)]: one turn of its loop. The second reading is that of [wait_for]. *)
Definition take_turn (running : bool) (clock : nat -> Z) (q : pq) : outcome * pq :=
  if negb running then (Returns None, q) else
  match pq_top q with
  | None => (Waits None, q)
  | Some e =>
      let delay := getRemainingDelay e (clock 0%nat) in
      if delay <=? 0 then (Returns (Some e), pq_pop q) else (Waits (Some (clock 1%nat + delay * 1000000)), q)
  end.

(** [take(result, timeout_ms)]: where it waits, and one turn of its loop. *)
Inductive place : Type := For_any | For_element.
Definition timed_turn (timeout_point : Z) (running : bool) (clock : nat -> Z) (q : pq) : outcome * place * pq :=
  if negb running then (Returns None, For_any, q) else
  if timeout_point <=? clock 0%nat then (Returns None, For_any, q) else
  match pq_top q with
  | None => (Waits (Some timeout_point), For_any, q)
  | Some e =>
      if getRemainingDelay e (clock 1%nat) <=? 0 then (Returns (Some e), For_element, pq_pop q)
      else (Waits (Some (if expiry_ e <? timeout_point then expiry_ e else timeout_point)), For_element, q)
  end.
(** After [wait_until]; [timed_out] is its result. *)
Definition timed_wake (timeout_point : Z) (p : place) (timed_out : bool) (running : bool) (clock : nat -> Z) (q : pq) : outcome * place * pq :=
  if timed_out then
    match p with
    | For_any => (Returns None, p, q)
    | For_element => let '(r, q') := tryTake (clock 0%nat) q in (Returns r, p, q')
    end
  else timed_turn timeout_point running clock q.

(** [drainExpired(max_count)]; the queue has at most [fuel] elements. *)
Fixpoint drain (fuel : nat) (max_count : Z) (count : nat) (clock : nat -> Z) (q : pq) : list element * pq :=
  match fuel with
  | O => ([], q)
  | S fuel' =>
      match pq_top q with
      | None => ([], q)
      | Some e =>
          if negb ((max_count =? 0) || (Z.of_nat count <? max_count)) then ([], q) else
          if negb (isExpired e (clock count)) then ([], q) else
          let '(l, q') := drain fuel' max_count (S count) clock (pq_pop q) in (e :: l, q')
      end
  end.
Definition drainExpired (max_count : Z) (clock : nat -> Z) (q : pq) : list element * pq := drain (length (pq_list q)) max_count 0 clock q.

Fixpoint pop_all (fuel : nat) (q : pq) : pq :=
  match fuel with
  | O => q
  | S fuel' => match pq_top q with None => q | Some _ => pop_all fuel' (pq_pop q) end
  end.
Definition clear (q : pq) : pq := pop_all (length (pq_list q)) q.
Definition size (q : pq) : Z := Z.of_nat (length (pq_list q)).
Definition empty (q : pq) : bool := bool_decide (pq_list q = []).
Definition peekDelay (now : Z) (q : pq) : Z := match pq_top q with None => -1 | Some e => getRemainingDelay e now end.

(** ** Threads *)

(** What a thread is doing outside the mutex: nothing, about to notify, or waiting; [signalled] threads
    have been notified. *)
Inductive activity : Type :=
  | Idle
  | Notifying_one
  | Notifying_all
  | Taking (deadline : option Z) (signalled : bool)
  | Taking_until (timeout_point : Z) (p : place) (deadline : option Z) (signalled : bool).
Definition signal (a : activity) : activity :=
  match a with
  | Taking d _ => Taking d true
  | Taking_until tp p d _ => Taking_until tp p d true
  | a => a
  end.

(** Who took an element; [take] and [take] with a timeout look at the remaining delay. *)
Inductive taker : Type := By_delay | By_expiry.
Record World : Type := mkWorld {
  queue_ : pq; running_ : bool; now_ : Z; threads : gmap nat activity;
  put_elements : list element; taken : list (element * Z * taker); cleared : list element }.

Definition set_thread (i : nat) (a : activity) (w : World) : World :=
  mkWorld (queue_ w) (running_ w) (now_ w) (<[i := a]> (threads w)) (put_elements w) (taken w) (cleared w).
Definition set_queue (q : pq) (w : World) : World := mkWorld q (running_ w) (now_ w) (threads w) (put_elements w) (taken w) (cleared w).
Definition set_now (t : Z) (w : World) : World := mkWorld (queue_ w) (running_ w) t (threads w) (put_elements w) (taken w) (cleared w).
Definition add_taken (l : list (element * Z * taker)) (w : World) : World :=
  mkWorld (queue_ w) (running_ w) (now_ w) (threads w) (put_elements w) (taken w ++ l) (cleared w).
Definition add_put (e : element) (w : World) : World :=
  mkWorld (queue_ w) (running_ w) (now_ w) (threads w) (put_elements w ++ [e]) (taken w) (cleared w).
Definition add_cleared (l : list element) (w : World) : World :=
  mkWorld (queue_ w) (running_ w) (now_ w) (threads w) (put_elements w) (taken w) (cleared w ++ l).
Definition stop (w : World) : World := mkWorld (queue_ w) false (now_ w) (threads w) (put_elements w) (taken w) (cleared w).
Definition signal_all (w : World) : World := mkWorld (queue_ w) (running_ w) (now_ w) (signal <$> threads w) (put_elements w) (taken w) (cleared w).

(** An element that was taken, with the time at which it was looked at. *)
Definition took (r : option element) (t : Z) (by_ : taker) (w : World) : World :=
  match r with Some e => add_taken [(e, t, by_)] w | None => w end.
(** The end of a turn of [take]. *)
Definition after_take (i : nat) (o : outcome * pq) (clock : nat -> Z) (w : World) : World :=
  let '(o, q) := o in
  match o with
  | Returns r => set_thread i Idle (took r (clock 0%nat) By_delay (set_queue q w))
  | Waits d => set_thread i (Taking d false) (set_queue q w)
  end.
Definition after_timed (i : nat) (timeout_point : Z) (timed_out : bool) (o : outcome * place * pq) (clock : nat -> Z) (w : World) : World :=
  let '(o, p, q) := o in
  match o with
  | Returns r => set_thread i Idle (took r (if timed_out then clock 0%nat else clock 1%nat) (if timed_out then By_expiry else By_delay) (set_queue q w))
  | Waits d => set_thread i (Taking_until timeout_point p d false) (set_queue q w)
  end.

(** A thread that waits and has not been notified. *)
Definition is_blocked (a : activity) : bool := match a with Taking _ s | Taking_until _ _ _ s => negb s | _ => false end.
Definition isRunning (w : World) : bool := running_ w.

(** The readings of a segment: they grow, from the time at which it begins to the time at which it ends. *)
Definition readings (w : World) (clock : nat -> Z) (t : Z) : Prop := forall i, now_ w <= clock i <= clock (S i) /\ clock i <= t.

(** A segment of thread [i]. [put] and [take] with a timeout read the clock, at [start], before they lock the mutex; an expiry that
    is not a number of 64 bits is undefined behaviour. *)
Inductive step : World -> World -> Prop :=
  | Step_time w t : now_ w <= t -> step w (set_now t w)
  | Step_put w i data delay_ms start t : threads w !! i = Some Idle -> start <= t -> now_ w <= t -> - 2 ^ 63 <= expiry_of start delay_ms < 2 ^ 63 ->
      step w (let '(e, q) := put data delay_ms start (queue_ w) in set_thread i Notifying_one (add_put e (set_queue q (set_now t w))))
  | Step_notify_one w i j a : threads w !! i = Some Notifying_one -> threads w !! j = Some a -> is_blocked a = true ->
      step w (set_thread j (signal a) (set_thread i Idle w))
  | Step_notify_none w i : threads w !! i = Some Notifying_one -> (forall j a, threads w !! j = Some a -> is_blocked a = false) -> step w (set_thread i Idle w)
  | Step_notify_all w i : threads w !! i = Some Notifying_all -> step w (set_thread i Idle (signal_all w))
  | Step_try_take w i clock t : threads w !! i = Some Idle -> readings w clock t ->
      step w (let '(r, q) := tryTake (clock 0%nat) (queue_ w) in took r (clock 0%nat) By_expiry (set_queue q (set_now t w)))
  | Step_take w i clock t : threads w !! i = Some Idle -> readings w clock t ->
      step w (after_take i (take_turn (running_ w) clock (queue_ w)) clock (set_now t w))
  | Step_take_wakes w i d s clock t : threads w !! i = Some (Taking d s) -> readings w clock t ->
      step w (after_take i (take_turn (running_ w) clock (queue_ w)) clock (set_now t w))
  | Step_timed w i timeout_ms start clock t : threads w !! i = Some Idle -> start <= clock 0%nat -> readings w clock t ->
      step w (after_timed i (expiry_of start timeout_ms) false (timed_turn (expiry_of start timeout_ms) (running_ w) clock (queue_ w)) clock (set_now t w))
  | Step_timed_wakes w i tp p d s timed_out clock t : threads w !! i = Some (Taking_until tp p (Some d) s) -> readings w clock t -> (timed_out = true -> d <= clock 0%nat) ->
      step w (after_timed i tp timed_out (timed_wake tp p timed_out (running_ w) clock (queue_ w)) clock (set_now t w))
  | Step_drain w i max_count clock t : threads w !! i = Some Idle -> readings w clock t -> 0 <= max_count ->
      step w (let '(l, q) := drainExpired max_count clock (queue_ w) in
              set_thread i (match l with [] => Idle | _ => Notifying_all end) (add_taken (imap (fun k e => (e, clock k, By_expiry)) l) (set_queue q (set_now t w))))
  | Step_clear w i : threads w !! i = Some Idle -> step w (add_cleared (pq_list (queue_ w)) (set_queue (clear (queue_ w)) w))
  | Step_shutdown w i : threads w !! i = Some Idle -> running_ w = true -> step w (set_thread i Notifying_all (stop w))
  | Step_shutdown_again w i : threads w !! i = Some Idle -> running_ w = false -> step w w.

(** [DelayQueue()] at time [t], with threads that will use it. *)
Definition DelayQueue_new (t : Z) (ids : gset nat) : World := mkWorld pq_empty true t (gset_to_gmap Idle ids) [] [] [].
Definition reachable (w : World) : Prop := exists t ids, rtc step (DelayQueue_new t ids) w.
End queue.

(** ** What the delay queue promises

    Whatever threads do, in whatever order: nothing is lost or taken twice, elements leave in the order in which they
    become ready and, up to a millisecond, not before; and who waits when the queue is shut down is released. *)

Section props.
Context {T : Type} {Q : PriorityQueue (@ElementComparator T)}.
Abbreviation element := (DelayedElement T).
Implicit Types (q : pq) (w : World).

(** An element on top is ready before all others. *)
Lemma top_least q (e : element) : pq_top q = Some e -> pq_list q ≡ₚ e :: pq_list (pq_pop q) /\ (forall x, x ∈ pq_list (pq_pop q) -> expiry_ e <= expiry_ x).
Proof.
  intros H. destruct (pq_top_some _ _ H) as [Hp Hle]. split; [done|]. intros x Hx. specialize (Hle x). unfold ElementComparator in Hle. rewrite Hp in Hle. specialize (Hle ltac:(set_solver)). lia.
Qed.

(** What a segment takes from the queue: in order, before what is left. *)
Record removes (l : list element) q q' : Prop := mkRemoves {
  r_all : pq_list q ≡ₚ (l ++ pq_list q')%list;
  r_order : StronglySorted (fun a b => expiry_ a <= expiry_ b) l;
  r_first : forall e x, e ∈ l -> x ∈ pq_list q' -> expiry_ e <= expiry_ x }.
Lemma removes_none q : removes [] q q.
Proof. split; [done|constructor|set_solver]. Qed.
Lemma removes_top q (e : element) : pq_top q = Some e -> removes [e] q (pq_pop q).
Proof. intros [Hp Hle]%top_least. split; [done|repeat constructor|]. intros e' x He%list_elem_of_singleton Hx. subst. by apply Hle. Qed.
Lemma removes_cons q (e : element) l q' : pq_top q = Some e -> removes l (pq_pop q) q' -> removes (e :: l) q q'.
Proof.
  intros [Hp Hle]%top_least [Ha Ho Hf]. split.
  - by rewrite Hp, Ha.
  - constructor; [done|]. apply Forall_forall. intros x Hx. apply Hle. rewrite Ha. set_solver.
  - intros e' x He Hx. apply elem_of_cons in He as [->|He]; [|by apply Hf]. apply Hle. rewrite Ha. set_solver.
Qed.

Lemma try_take_removes now q r q' : tryTake now q = (r, q') -> removes (option_list r) q q' /\ (forall e : element, r = Some e -> expiry_ e <= now).
Proof.
  unfold tryTake. destruct (pq_top q) as [e|] eqn:E; [|intros [= <- <-]; split; [apply removes_none|done]]. unfold isExpired. destruct (Z.leb_spec (expiry_ e) now); intros [= <- <-].
  - split; [by apply removes_top|]. by intros ? [= <-].
  - split; [apply removes_none|done].
Qed.

(** The remaining delay is cut to milliseconds: when none is left, the element is due within one. *)
Lemma remaining_due (e : element) now : getRemainingDelay e now <= 0 -> expiry_ e < now + 1000000.
Proof.
  unfold getRemainingDelay. destruct (Z.leb_spec (expiry_ e) now); [lia|]. intros H1. pose proof (Z.quot_pos (expiry_ e - now) 1000000). rewrite Z.quot_div_nonneg in * by lia. pose proof (Z.div_mod (expiry_ e - now) 1000000). pose proof (Z.mod_pos_bound (expiry_ e - now) 1000000). lia.
Qed.

Definition outcome_list (o : outcome) : list element := match o with Returns r => option_list r | Waits _ => [] end.
Lemma take_removes running clock q o q' : take_turn running clock q = (o, q') -> removes (outcome_list o) q q' /\ (forall e, o = Returns (Some e) -> expiry_ e < clock 0%nat + 1000000).
Proof.
  unfold take_turn. destruct running; cbn [negb]; [|intros [= <- <-]; split; [apply removes_none|done]]. destruct (pq_top q) as [e|] eqn:E; [|intros [= <- <-]; split; [apply removes_none|done]].
  destruct (Z.leb_spec (getRemainingDelay e (clock 0%nat)) 0); intros [= <- <-].
  - split; [by apply removes_top|]. intros ? [= <-]. by apply remaining_due.
  - split; [apply removes_none|done].
Qed.
Lemma timed_removes tp running clock q o p q' : timed_turn tp running clock q = (o, p, q') -> removes (outcome_list o) q q' /\ (forall e, o = Returns (Some e) -> expiry_ e < clock 1%nat + 1000000).
Proof.
  unfold timed_turn. destruct running; cbn [negb]; [|intros [= <- <- <-]; split; [apply removes_none|done]]. destruct (tp <=? clock 0%nat); [intros [= <- <- <-]; split; [apply removes_none|done]|].
  destruct (pq_top q) as [e|] eqn:E; [|intros [= <- <- <-]; split; [apply removes_none|done]]. destruct (Z.leb_spec (getRemainingDelay e (clock 1%nat)) 0); intros [= <- <- <-].
  - split; [by apply removes_top|]. intros ? [= <-]. by apply remaining_due.
  - split; [apply removes_none|done].
Qed.
Lemma drain_removes fuel max_count count clock q l q' : drain fuel max_count count clock q = (l, q') -> removes l q q' /\ (forall k e, l !! k = Some e -> expiry_ e <= clock (count + k)%nat).
Proof.
  revert count q l q'. induction fuel as [|fuel IH]; intros count q l q'; cbn [drain]; [intros [= <- <-]; split; [apply removes_none|done]|]. destruct (pq_top q) as [e|] eqn:E; [|intros [= <- <-]; split; [apply removes_none|done]].
  destruct (negb (_ || _)); [intros [= <- <-]; split; [apply removes_none|done]|]. destruct (isExpired e (clock count)) eqn:Ex; cbn [negb]; [|intros [= <- <-]; split; [apply removes_none|done]].
  destruct (drain fuel max_count (S count) clock (pq_pop q)) as [l1 q1] eqn:Ed. intros [= <- <-]. destruct (IH _ _ _ _ Ed) as [Hr Ht]. split; [by eapply removes_cons|]. intros [|k] x Hx; cbn in Hx.
  - injection Hx as <-. unfold isExpired in Ex. rewrite Nat.add_0_r. lia.
  - rewrite <-Nat.add_succ_comm. by apply Ht.
Qed.
Lemma clear_empty q : pq_list (clear q) = [].
Proof.
  unfold clear. remember (length (pq_list q)) as n eqn:Hn. revert q Hn. induction n as [|n IH]; intros q Hn; cbn [pop_all]; [by apply length_zero_iff_nil|]. destruct (pq_top q) as [e|] eqn:E.
  - destruct (top_least _ _ E) as [Hp _]. apply Permutation_length in Hp. cbn in Hp. apply IH. lia.
  - by apply pq_top_none.
Qed.

(** Draining without a limit leaves nothing that is ready. *)
Lemma drain_complete clock t q l q' : drainExpired 0 clock q = (l, q') -> (forall k, clock k = t) -> forall e, e ∈ pq_list q' -> t < expiry_ e.
Proof.
  intros Hd Hc. unfold drainExpired in Hd. remember (length (pq_list q)) as n eqn:Hn. generalize 0%nat as c, Hd. clear Hd. revert q Hn l. induction n as [|n IH]; intros q Hn l c; cbn [drain].
  - intros [= <- <-] e He. symmetry in Hn. apply length_zero_iff_nil in Hn. rewrite Hn in He. by apply elem_of_nil in He.
  - destruct (pq_top q) as [e|] eqn:E.
    2:{ intros [= <- <-] x Hx. rewrite (proj1 (pq_top_none q) E) in Hx. by apply elem_of_nil in Hx. }
    destruct (top_least _ _ E) as [Hp Hle]. cbn [Z.eqb orb negb]. unfold isExpired. rewrite Hc. destruct (Z.leb_spec (expiry_ e) t); cbn [negb].
    + destruct (drain n 0 (S c) clock (pq_pop q)) as [l1 q1] eqn:Ed. intros [= <- <-]. apply (IH (pq_pop q)) with (c := S c) (l := l1); [|done]. apply Permutation_length in Hp. cbn in Hp. lia.
    + intros [= <- <-] x Hx. rewrite Hp in Hx. apply elem_of_cons in Hx as [->|Hx]; [done|]. specialize (Hle x Hx). lia.
Qed.

(** ** Invariants *)

(** What has been put is in the queue, was taken or cleared. *)
Definition conserved w : Prop := put_elements w ≡ₚ ((taken w).*1.*1 ++ cleared w ++ pq_list (queue_ w))%list.
(** Nothing was taken too early. *)
Definition due (r : element * Z * taker) : Prop := let '(e, t, by_) := r in match by_ with By_expiry => expiry_ e <= t | By_delay => expiry_ e < t + 1000000 end.
(** After a shutdown everybody who waits has been notified, or will be. *)
Definition released w : Prop := running_ w = true \/ (exists i, threads w !! i = Some Notifying_all) \/ (forall i a, threads w !! i = Some a -> is_blocked a = false).
Record sound w : Prop := mkSound { s_conserved : conserved w; s_due : Forall due (taken w); s_released : released w }.

(** A segment that takes [l] from the queue. *)
Lemma sound_take w q l by_ t : sound w -> removes (fst <$> l) (queue_ w) q -> Forall due ((fun '((e, t) : element * Z) => (e, t, by_)) <$> l) ->
  conserved (add_taken ((fun '((e, t) : element * Z) => (e, t, by_)) <$> l) (set_queue q (set_now t w))) /\ Forall due (taken w ++ ((fun '((e, t) : element * Z) => (e, t, by_)) <$> l)).
Proof.
  intros [Hc Hd _] [Hr _ _] Hl. split; [|by apply Forall_app]. unfold conserved in *. cbn. rewrite Hc, Hr. rewrite !fmap_app, <-!list_fmap_compose.
  replace ((fst ∘ fst ∘ (fun '(e, t0) => (e, t0, by_))) <$> l) with (l.*1) by (apply list_fmap_ext; by intros i [e0 t0] _). solve_Permutation.
Qed.

Lemma released_thread w i a : released w -> threads w !! i <> Some Notifying_all -> is_blocked a = false \/ running_ w = true -> released (set_thread i a w).
Proof.
  intros Hr Hi Ha. unfold released in *. cbn [running_ threads set_thread]. destruct Hr as [Hr|[[j Hj]|Hr]]; [by left| |].
  - right. left. exists j. rewrite lookup_insert_ne; [done|]. intros ->. congruence.
  - destruct Ha as [Ha|Ha]; [|by left]. right. right. intros j b. destruct (decide (i = j)) as [->|]; [rewrite lookup_insert_eq; by intros [= <-]|]. rewrite lookup_insert_ne by done. apply Hr.
Qed.
Lemma blocked_signal a : is_blocked (signal a) = false.
Proof. by destruct a. Qed.

Lemma take_turn_waits running clock q d q' : take_turn running clock q = (Waits d, q') -> running = true.
Proof. unfold take_turn. by destruct running. Qed.
Lemma timed_turn_waits tp running clock q d p q' : timed_turn tp running clock q = (Waits d, p, q') -> running = true.
Proof. unfold timed_turn. by destruct running. Qed.

(** The new element, if any, with the time at which it was looked at. *)
Lemma sound_one w q r by_ t0 t : sound w -> removes (option_list r) (queue_ w) q -> (forall e, r = Some e -> due (e, t0, by_)) -> sound (took r t0 by_ (set_queue q (set_now t w))).
Proof.
  intros Hs Hr Hd. destruct (sound_take w q (option_list ((fun e => (e, t0)) <$> r)) by_ t Hs) as [H1 H2].
  - destruct r; [exact Hr|exact Hr].
  - destruct r as [e|]; cbn; [|done]. apply Forall_singleton. by apply Hd.
  - destruct r as [e|]; split; [exact H1|exact H2|apply Hs|..|apply Hs].
    + cbn in H1. unfold conserved in *. cbn in *. by rewrite app_nil_r in H1.
    + apply Hs.
Qed.

Lemma sound_thread w i a : sound w -> threads w !! i <> Some Notifying_all -> is_blocked a = false \/ running_ w = true -> sound (set_thread i a w).
Proof. intros [H1 H2 H3] Hi Ha. split; [exact H1|exact H2|by apply released_thread]. Qed.

Lemma took_threads r t by_ w : threads (took r t by_ w) = threads w /\ running_ (took r t by_ w) = running_ w /\ queue_ (took r t by_ w) = queue_ w.
Proof. by destruct r. Qed.

Lemma sound_after_take w i clock t : sound w -> threads w !! i <> Some Notifying_all -> sound (after_take i (take_turn (running_ w) clock (queue_ w)) clock (set_now t w)).
Proof.
  intros Hs Hi. destruct (take_turn (running_ w) clock (queue_ w)) as [o q] eqn:E. destruct (take_removes _ _ _ _ _ E) as [Hr Hd]. unfold after_take. destruct o as [r|d].
  - apply sound_thread; [|by rewrite (proj1 (took_threads _ _ _ _))|by left]. apply sound_one; [done|exact Hr|]. intros e ->. by apply Hd.
  - apply sound_thread; [|done|right; by eapply take_turn_waits]. apply (sound_one w q None By_delay 0 t); [done|exact Hr|done].
Qed.
Lemma sound_after_timed w i tp p timed_out clock t : sound w -> threads w !! i <> Some Notifying_all -> sound (after_timed i tp timed_out (timed_wake tp p timed_out (running_ w) clock (queue_ w)) clock (set_now t w)).
Proof.
  intros Hs Hi. unfold timed_wake. destruct timed_out.
  - destruct p; cbn [after_timed].
    + apply sound_thread; [|done|by left]. apply (sound_one w _ None By_expiry (clock 0%nat) t); [done|apply removes_none|done].
    + destruct (tryTake (clock 0%nat) (queue_ w)) as [r q] eqn:E. destruct (try_take_removes _ _ _ _ E) as [Hr Hd]. apply sound_thread; [|by rewrite (proj1 (took_threads _ _ _ _))|by left]. apply sound_one; [done|exact Hr|]. intros e ->. by apply Hd.
  - destruct (timed_turn tp (running_ w) clock (queue_ w)) as [[o p'] q] eqn:E. destruct (timed_removes _ _ _ _ _ _ _ E) as [Hr Hd]. unfold after_timed. destruct o as [r|d].
    + apply sound_thread; [|by rewrite (proj1 (took_threads _ _ _ _))|by left]. apply sound_one; [done|exact Hr|]. intros e ->. by apply Hd.
    + apply sound_thread; [|done|right; by eapply timed_turn_waits]. apply (sound_one w q None By_delay 0 t); [done|exact Hr|done].
Qed.

Lemma sound_drain w i max_count clock t l q : sound w -> threads w !! i = Some Idle -> drainExpired max_count clock (queue_ w) = (l, q) ->
  sound (set_thread i (match l with [] => Idle | _ => Notifying_all end) (add_taken (imap (fun k e => (e, clock k, By_expiry)) l) (set_queue q (set_now t w)))).
Proof.
  intros Hs Hi E. destruct (drain_removes _ _ _ _ _ _ _ E) as [Hr Hd]. set (l' := imap (fun k e => (e, clock k)) l).
  assert (El : imap (fun k e => (e, clock k, By_expiry)) l = (fun '((e, t) : element * Z) => (e, t, By_expiry)) <$> l') by (unfold l'; by rewrite fmap_imap). rewrite El. clear El.
  assert (Ef : fst <$> l' = l) by (apply list_eq; intros k; unfold l'; rewrite list_lookup_fmap, list_lookup_imap; by destruct (l !! k)).
  destruct (sound_take w q l' By_expiry t Hs) as [H1 H2]; [by rewrite Ef| |].
  { apply Forall_lookup. intros k x Hx. rewrite list_lookup_fmap in Hx. unfold l' in Hx. rewrite list_lookup_imap in Hx. destruct (l !! k) as [e|] eqn:Ek; [|done]. injection Hx as <-. cbn. rewrite <-(Nat.add_0_l k). by apply Hd. }
  apply sound_thread; [split; [exact H1|exact H2|apply Hs]|cbn; congruence|left; by destruct l].
Qed.

Lemma step_sound w w' : sound w -> step w w' -> sound w'.
Proof.
  intros Hs Hstep. destruct Hstep as [w t Ht|w i data delay_ms start t Hi H0 H1 H2|w i j a Hi Hj Ha|w i Hi Hn|w i Hi|w i clock t Hi Hc|w i clock t Hi Hc|w i d s clock t Hi Hc|w i tm start clock t Hi H0 Hc|w i tp p d s timed_out clock t Hi Hc Hd|w i max_count clock t Hi Hc Hm|w i Hi|w i Hi Hr|w i Hi Hr].
  - by destruct Hs.
  - cbn [put]. apply sound_thread; [|cbn; congruence|by left]. destruct Hs as [H3 H4 H5]. split; [|exact H4|exact H5]. unfold conserved in *. cbn. rewrite H3, pq_list_push. solve_Permutation.
  - apply sound_thread; [|cbn; destruct (decide (i = j)) as [->|]; [by rewrite lookup_insert_eq|rewrite lookup_insert_ne by done; rewrite Hj; by destruct a]|left; apply blocked_signal]. apply sound_thread; [done|congruence|by left].
  - apply sound_thread; [done|congruence|by left].
  - destruct Hs as [H1 H2 _]. split; [exact H1|exact H2|]. right. right. intros j b. cbn. destruct (decide (i = j)) as [->|]; [rewrite lookup_insert_eq; by intros [= <-]|]. rewrite lookup_insert_ne, lookup_fmap by done.
    destruct (threads w !! j) as [c|]; [|done]. intros [= <-]. apply blocked_signal.
  - destruct (tryTake (clock 0%nat) (queue_ w)) as [r q] eqn:E. destruct (try_take_removes _ _ _ _ E) as [Hr Hd]. apply sound_one; [done|exact Hr|]. intros e ->. by apply Hd.
  - apply sound_after_take; [done|congruence].
  - apply sound_after_take; [done|congruence].
  - exact (sound_after_timed w i _ For_any false clock t Hs ltac:(congruence)).
  - apply sound_after_timed; [done|congruence].
  - destruct (drainExpired max_count clock (queue_ w)) as [l q] eqn:E. by apply sound_drain with max_count.
  - destruct Hs as [H1 H2 H3]. split; [|exact H2|exact H3]. unfold conserved in *. cbn. rewrite H1, clear_empty. solve_Permutation.
  - destruct Hs as [H1 H2 H3]. split; [exact H1|exact H2|]. right. left. exists i. cbn. by rewrite lookup_insert_eq.
  - done.
Qed.
Lemma reachable_sound w : reachable w -> sound w.
Proof.
  intros (t & ids & Hrun). assert (H0 : sound (DelayQueue_new t ids)) by (split; [unfold conserved; cbn; by rewrite pq_list_empty|done|by left]). revert H0. induction Hrun as [|w1 w2 w3 Hstep _ IH]; [done|]. intros H0. apply IH. by eapply step_sound.
Qed.

(** ** Theorems *)

Definition takes_in_order w w' : Prop := exists new, taken w' = (taken w ++ new)%list /\ StronglySorted (fun a b => expiry_ a <= expiry_ b) new.*1.*1 /\
  forall e x, e ∈ new.*1.*1 -> x ∈ pq_list (queue_ w') -> expiry_ e <= expiry_ x.
Lemma takes_nothing w w' : taken w' = taken w -> takes_in_order w w'.
Proof. intros E. exists []. split; [by rewrite app_nil_r|]. split; [constructor|]. intros e x He. by apply elem_of_nil in He. Qed.
Lemma takes_removed w q r t by_ w1 w' : removes (option_list r) (queue_ w) q -> taken w' = taken (took r t by_ w1) -> taken w1 = taken w -> queue_ w' = q -> takes_in_order w w'.
Proof.
  intros [_ Ho Hf] E1 E2 <-. destruct r as [e|]; cbn in E1; [|by apply takes_nothing; rewrite E1]. exists [(e, t, by_)]. by rewrite E1, E2.
Qed.

Lemma step_in_order w w' : step w w' -> takes_in_order w w'.
Proof.
  intros Hstep. destruct Hstep as [w t Ht|w i data delay_ms start t Hi H0 H1 H2|w i j a Hi Hj Ha|w i Hi Hn|w i Hi|w i clock t Hi Hc|w i clock t Hi Hc|w i d s clock t Hi Hc|w i tm start clock t Hi H0 Hc|w i tp p d s timed_out clock t Hi Hc Hd|w i max_count clock t Hi Hc Hm|w i Hi|w i Hi Hr|w i Hi Hr];
    try by apply takes_nothing.
  - destruct (tryTake (clock 0%nat) (queue_ w)) as [r q] eqn:E. eapply takes_removed; [apply (try_take_removes _ _ _ _ E)|reflexivity|done|by destruct r].
  - destruct (take_turn (running_ w) clock (queue_ w)) as [[r|d] q] eqn:E; [|by apply takes_nothing]. destruct (take_removes _ _ _ _ _ E) as [Hr _]. eapply takes_removed; [exact Hr|reflexivity|done|by destruct r].
  - destruct (take_turn (running_ w) clock (queue_ w)) as [[r|d'] q] eqn:E; [|by apply takes_nothing]. destruct (take_removes _ _ _ _ _ E) as [Hr _]. eapply takes_removed; [exact Hr|reflexivity|done|by destruct r].
  - destruct (timed_turn _ (running_ w) clock (queue_ w)) as [[[r|d] p] q] eqn:E; [|by apply takes_nothing]. destruct (timed_removes _ _ _ _ _ _ _ E) as [Hr _]. eapply takes_removed; [exact Hr|reflexivity|done|by destruct r].
  - unfold timed_wake. destruct timed_out; [destruct p; [by apply takes_nothing|]|].
    + destruct (tryTake (clock 0%nat) (queue_ w)) as [r q] eqn:E. eapply takes_removed; [apply (try_take_removes _ _ _ _ E)|reflexivity|done|by destruct r].
    + destruct (timed_turn tp (running_ w) clock (queue_ w)) as [[[r|d'] p'] q] eqn:E; [|by apply takes_nothing]. destruct (timed_removes _ _ _ _ _ _ _ E) as [Hr _]. eapply takes_removed; [exact Hr|reflexivity|done|by destruct r].
  - destruct (drainExpired max_count clock (queue_ w)) as [l q] eqn:E. destruct (drain_removes _ _ _ _ _ _ _ E) as [[_ Ho Hf] _]. exists (imap (fun k e => (e, clock k, By_expiry)) l). split; [done|].
    assert (El : (imap (fun k e => (e, clock k, By_expiry)) l).*1.*1 = l) by (apply list_eq; intros k; rewrite !list_lookup_fmap, list_lookup_imap; by destruct (l !! k)). rewrite El. by split.
Qed.

(** C13. Whatever threads do with the queue, and in whatever order: the elements that were put are those that are in it, that were
    taken and that were cleared, each exactly once; no element was taken more than a millisecond before its time, by [tryTake],
    [drainExpired] and after a timeout not before it at all; and what a step takes leaves in the order of the times, before all that
    stays. *)
Theorem delay_queue_sound w : reachable w -> conserved w /\ Forall due (taken w) /\ forall w', step w w' -> takes_in_order w w'.
Proof. intros Hw. destruct (reachable_sound w Hw) as [H1 H2 _]. split; [done|]. split; [done|]. apply step_in_order. Qed.

(** C38. Shutting down releases everybody: when the queue does not run any more and the notification is out, every thread that still
    waits in [take] has been notified, and returns at its next turn, whatever the clock says. *)
Theorem shutdown_releases w i a : reachable w -> isRunning w = false -> (forall j, threads w !! j <> Some Notifying_all) -> threads w !! i = Some a ->
  is_blocked a = false /\ forall clock timed_out,
    match a with
    | Taking _ _ => threads (after_take i (take_turn (running_ w) clock (queue_ w)) clock w) !! i = Some Idle
    | Taking_until tp p _ _ => threads (after_timed i tp timed_out (timed_wake tp p timed_out (running_ w) clock (queue_ w)) clock w) !! i = Some Idle
    | _ => True
    end.
Proof.
  intros Hw Hr Hn Hi. destruct (reachable_sound w Hw) as [_ _ [Hrun|[[j Hj]|Hall]]]; [unfold isRunning in Hr; congruence|by destruct (Hn j)|]. split; [by eapply Hall|]. unfold isRunning in Hr. rewrite Hr. intros clock timed_out.
  destruct a as [| | |d s|tp p d s]; try done.
  - cbn. by rewrite lookup_insert_eq.
  - unfold timed_wake. destruct timed_out; [destruct p|]; cbn; [by rewrite lookup_insert_eq| |by rewrite lookup_insert_eq]. destruct (tryTake _ _) as [r q]. cbn. by rewrite lookup_insert_eq.
Qed.

(** ** Defects *)

(** [take] hands out an element up to a millisecond before its time. *)
Lemma taken_early (e : element) q clock : pq_top q = Some e -> clock 0%nat < expiry_ e < clock 0%nat + 1000000 -> take_turn true clock q = (Returns (Some e), pq_pop q).
Proof.
  intros Ht He. unfold take_turn. rewrite Ht. cbn [negb]. unfold getRemainingDelay. destruct (Z.leb_spec (expiry_ e) (clock 0%nat)); [lia|]. rewrite Z.quot_small by lia. done.
Qed.
(** [take] with a timeout that waits for an element which another thread takes gives up, however much time is left. *)
Lemma gives_up_early tp running clock q : pq_list q = [] -> timed_wake tp For_element true running clock q = (Returns None, For_element, q).
Proof. intros Hq. unfold timed_wake, tryTake. by rewrite (proj2 (pq_top_none q) Hq). Qed.
End props.

(** ** A priority queue *)

Section list_queue_laws.
Context {E : Type} (less : E -> E -> bool).
Context (less_asym : forall a b, less a b = true -> less b a = false) (less_weak : forall a b c, less a b = false -> less b c = false -> less a c = false) (less_irrefl : forall a, less a a = false).
Definition in_order (l : list E) : Prop := StronglySorted (fun a b => less a b = false) l.

Lemma insert_ordered_perm e l : insert_ordered less e l ≡ₚ e :: l.
Proof. induction l as [|x l IH]; [done|]. cbn [insert_ordered]. destruct (less x e); [done|]. rewrite IH. apply Permutation_swap. Qed.
Lemma insert_ordered_sorted e l : in_order l -> in_order (insert_ordered less e l).
Proof.
  induction 1 as [|x l Hl IH Hx]; [repeat constructor|]. cbn [insert_ordered]. destruct (less x e) eqn:Ex.
  - constructor; [by constructor|]. constructor; [by apply less_asym|]. eapply Forall_impl; [exact Hx|]. intros y Hy. eapply less_weak; [by apply less_asym|exact Hy].
  - constructor; [done|]. apply Forall_forall. intros y Hy. rewrite insert_ordered_perm in Hy. apply elem_of_cons in Hy as [->|Hy]; [done|]. by eapply Forall_forall in Hx.
Qed.
Lemma tail_in_order (l : list E) : in_order l -> in_order (tail l).
Proof. destruct 1; [constructor|done]. Qed.

(** A list in which what has priority comes first. *)
Definition list_priority_queue : PriorityQueue less.
Proof.
  refine {| pq := { l : list E | in_order l }; pq_list := proj1_sig; pq_empty := exist _ [] (SSorted_nil _);
            pq_push e q := exist _ _ (insert_ordered_sorted e (proj1_sig q) (proj2_sig q)); pq_top q := head (proj1_sig q);
            pq_pop q := exist _ _ (tail_in_order (proj1_sig q) (proj2_sig q)) |}.
  - done.
  - intros e [l Hl]. apply insert_ordered_perm.
  - intros [[|x l] Hl]; done.
  - intros [[|x l] Hl] e; [done|]. cbn. intros [= <-]. split; [done|]. intros y Hy. apply StronglySorted_inv in Hl as [_ Hl]. apply elem_of_cons in Hy as [->|Hy]; [done|]. by eapply Forall_forall in Hl.
Defined.
End list_queue_laws.

Definition element_queue {T} : PriorityQueue (@ElementComparator T).
Proof. apply list_priority_queue; unfold ElementComparator; intros; lia. Defined.

(** ** Examples *)

Section examples.
#[local] Instance example_queue : PriorityQueue (@ElementComparator string) := element_queue.
Abbreviation World0 := (DelayQueue_new (T := string) 0 {[1; 2; 3]}%nat).

Lemma readings_const w t : now_ w <= t -> readings w (fun _ => t) t.
Proof. intros H i. lia. Qed.
Lemma step_trans (w1 w2 w3 : World) : step w1 w2 -> rtc step w2 w3 -> rtc step w1 w3.
Proof. apply rtc_l. Qed.

(** Two threads wait for an element. *)
Definition two_wait : World := set_thread 2 (Taking None false) (set_thread 1 (Taking None false) World0).
Lemma two_wait_reachable : rtc step World0 two_wait.
Proof.
  eapply step_trans; [eapply (Step_take World0 1 (fun _ => 0) 0); [reflexivity|by apply readings_const]|]. eapply step_trans; [eapply (Step_take _ 2 (fun _ => 0) 0); [reflexivity|by apply readings_const]|]. apply rtc_refl.
Qed.

(** Two elements come, the first one ready in five seconds, the second at once; both notifications reach the first thread, which takes
    the second element and is done. The other thread sleeps, though there is an element that is ready. *)
Lemma sleeper_misses_element : exists w : World, reachable w /\ threads w = <[1%nat := Idle]> (<[2%nat := Taking None false]> (<[3%nat := Idle]> ∅)) /\ isRunning w = true /\
  exists e, pq_list (queue_ w) = [e] /\ expiry_ e < now_ w.
Proof.
  eexists. split; [|split; [|split; [|]]].
  - exists 0, {[1; 2; 3]}%nat. etransitivity; [exact two_wait_reachable|].
    eapply step_trans; [eapply (Step_put _ 3 "x" 5000 0 0); [reflexivity|lia|by vm_compute|unfold expiry_of; lia]|]. eapply step_trans; [eapply (Step_notify_one _ 3 1); reflexivity|].
    eapply step_trans; [eapply (Step_take_wakes _ 1 None true (fun _ => 0) 0); [reflexivity|by apply readings_const]|].
    eapply step_trans; [eapply (Step_put _ 3 "y" 0 0 0); [reflexivity|lia|by vm_compute|unfold expiry_of; lia]|]. eapply step_trans; [eapply (Step_notify_one _ 3 1); reflexivity|].
    eapply step_trans; [eapply (Step_take_wakes _ 1 _ true (fun _ => 0) 0); [reflexivity|by apply readings_const]|]. eapply step_trans; [eapply (Step_time _ 6000000000); by vm_compute|]. apply rtc_refl.
  - vm_compute. reflexivity.
  - reflexivity.
  - eexists. split; [reflexivity|]. by vm_compute.
Qed.

(** Two threads wait, the third shuts the queue down and notifies; a thread that puts something and takes it. *)
Definition shut_down : World := set_thread 3 Idle (signal_all (set_thread 3 Notifying_all (stop two_wait))).
Lemma shut_down_reachable : reachable shut_down.
Proof.
  exists 0, {[1; 2; 3]}%nat. etransitivity; [exact two_wait_reachable|]. eapply step_trans; [eapply (Step_shutdown two_wait 3); reflexivity|]. eapply step_trans; [eapply (Step_notify_all _ 3); reflexivity|]. apply rtc_refl.
Qed.
Definition one_taken : World :=
  let w1 := set_thread 1 Notifying_one (add_put (mkElement "x" 2000000) (set_queue (pq_push (mkElement "x" 2000000) pq_empty) (set_now 0 World0))) in
  took (Some (mkElement "x" 2000000)) 3000000 By_expiry (set_queue (pq_pop (pq_push (mkElement "x" 2000000) pq_empty)) (set_now 3000000 (set_thread 1 Idle w1))).
Lemma one_taken_reachable : reachable one_taken.
Proof.
  exists 0, {[1; 2; 3]}%nat. eapply step_trans; [eapply (Step_put World0 1 "x" 2 0 0); [reflexivity|lia|done|unfold expiry_of; lia]|].
  eapply step_trans; [eapply (Step_notify_none _ 1); [reflexivity|]|]. { intros j a Ha. destruct (decide (j = 1 \/ j = 2 \/ j = 3)%nat) as [[->|[->| ->]]|Hj]; [vm_compute in Ha; by injection Ha as <-..|]. revert Ha. cbn. rewrite lookup_insert_ne by lia. rewrite (proj2 (lookup_gset_to_gmap_None _ _ _)); [done|]. set_solver by lia. }
  eapply step_trans; [eapply (Step_try_take _ 2 (fun _ => 3000000) 3000000); [reflexivity|by apply readings_const]|]. apply rtc_refl.
Qed.
End examples.

Lemma delay_queue_sound_witness : reachable one_taken /\ taken one_taken = [(mkElement "x" 2000000, 3000000, By_expiry)] /\ put_elements one_taken ≡ₚ [mkElement "x" 2000000].
Proof.
  split; [exact one_taken_reachable|]. split; [reflexivity|]. destruct (delay_queue_sound one_taken one_taken_reachable) as (H1 & _ & _). exact H1.
Defined.
Lemma shutdown_releases_witness : reachable shut_down /\ threads shut_down !! 1%nat = Some (Taking None true) /\ is_blocked (Taking None true) = false.
Proof.
  split; [exact shut_down_reachable|]. split; [vm_compute; reflexivity|].
  refine (proj1 (shutdown_releases shut_down 1 (Taking None true) shut_down_reachable eq_refl _ _)); [|vm_compute; reflexivity].
  intros j. destruct (decide (j = 1 \/ j = 2 \/ j = 3)%nat) as [[->|[->| ->]]|Hj]; [vm_compute; discriminate..|].
  unfold shut_down. cbn. rewrite lookup_insert_ne by lia. rewrite lookup_fmap. rewrite !lookup_insert_ne by lia. rewrite (proj2 (lookup_gset_to_gmap_None _ _ _)); [done|]. set_solver by lia.
Defined.
