(* ===== verification/PubSub.v ===== *)
(** * PubSub: a message queue with subscribers

    Models src/zsxq-cpp-ai/StdPubcpp: messages (message.h), the queue with its workers
    (message_queue.h) and publishers (publisher.h). The subscriptions are under one mutex,
    the queue under another; calls that hold a mutex are atomic, except that a worker which
    is about to wait still holds the mutex of the queue. [stop] takes no mutex. What a
    subscriber does with a message is an argument. *)

From Stdlib Require Import DecimalString.
From S2P Require Import Prelude Text DelayQueue.

Local Open Scope string_scope.
Local Open Scope Z_scope.

(** ** Messages and subscribers *)

Inductive Priority : Set := LOW | NORMAL | HIGH | URGENT.
Definition priority_value (p : Priority) : Z := match p with LOW => 0 | NORMAL => 1 | HIGH => 2 | URGENT => 3 end.
Inductive DistributionStrategy : Set := BROADCAST | ROUND_ROBIN | RANDOM.

(** A subscriber is an object; several may have the same id. *)
Record ISubscriber : Type := mkSubscriber { sub_object : nat; getId : string }.
#[export] Instance ISubscriber_eq_dec : EqDecision ISubscriber.
Proof. solve_decision. Defined.

Section messages.
Context {T : Type}.

Record Message : Type := mkMessage { id_ : string; topic_ : string; data_ : T; timestamp_ : Z; priority_ : Priority }.
(** The priority of [a] is lower. *)
Definition MessageComparator (a b : Message) : bool :=
  if negb (priority_value (priority_ a) =? priority_value (priority_ b)) then priority_value (priority_ a) <? priority_value (priority_ b)
  else timestamp_ b <? timestamp_ a.
Definition getAgeMs (m : Message) (now : Z) : Z := Z.quot (now - timestamp_ m) 1000000.

(** ** Subscriptions *)

Record TopicSubscription : Type := mkTopic { subscribers : list ISubscriber; strategy : DistributionStrategy; roundRobinIndex : Z }.
Abbreviation Subscriptions := (gmap string TopicSubscription).

Definition subscribe (topic : string) (s : ISubscriber) (st : DistributionStrategy) (subs : Subscriptions) : Subscriptions :=
  match subs !! topic with
  | None => <[topic := mkTopic [s] st 0]> subs
  | Some t =>
      if existsb (fun x => String.eqb (getId x) (getId s)) (subscribers t) then subs
      else <[topic := mkTopic (subscribers t ++ [s]) (strategy t) (roundRobinIndex t)]> subs
  end.
Definition unsubscribe (topic subscriberId : string) (subs : Subscriptions) : Subscriptions :=
  match subs !! topic with
  | None => subs
  | Some t =>
      let l := filter (fun x => negb (String.eqb (getId x) subscriberId)) (subscribers t) in
      match l with [] => delete topic subs | _ => <[topic := mkTopic l (strategy t) (roundRobinIndex t)]> subs end
  end.
Definition setDistributionStrategy (topic : string) (st : DistributionStrategy) (subs : Subscriptions) : Subscriptions :=
  match subs !! topic with
  | None => subs
  | Some t => <[topic := mkTopic (subscribers t) st (roundRobinIndex t)]> subs
  end.
Definition getSubscriberCount (topic : string) (subs : Subscriptions) : Z :=
  match subs !! topic with None => 0 | Some t => Z.of_nat (length (subscribers t)) end.

(** ** Distribution *)

(** How [onMessage] ends; exceptions of the standard library are caught. *)
Inductive reaction : Set := Finishes | Throws_exception | Throws_other.
Variable react : ISubscriber -> Message -> reaction.

Record Hub : Type := mkHub { subscriptions_ : Subscriptions; delivered : list (ISubscriber * Message) }.
Definition on_subscriptions (f : Subscriptions -> Subscriptions) (h : Hub) : Hub := mkHub (f (subscriptions_ h)) (delivered h).
Definition add_delivered (s : ISubscriber) (m : Message) (h : Hub) : Hub := mkHub (subscriptions_ h) (delivered h ++ [(s, m)]).

Definition onMessage (m : Message) (s : ISubscriber) : cpp Hub unit :=
  modify (add_delivered s m) ;;
  match react s m with
  | Finishes | Throws_exception => mret tt
  | Throws_other => undefined "exception leaves the thread"
  end.
(** [subscribers[index]->onMessage(message)] *)
Definition call_one (t : TopicSubscription) (index : Z) (m : Message) : cpp Hub unit :=
  match subscribers t !! Z.to_nat index with Some s => onMessage m s | None => undefined "no such subscriber" end.
(** [pick n]: what the distribution over 0 .. n - 1 draws. *)
Definition distributeMessage (pick : Z -> Z) (m : Message) : cpp Hub unit :=
  h ← get;
  match subscriptions_ h !! topic_ m with
  | None => mret tt
  | Some t =>
      match subscribers t with
      | [] => mret tt
      | _ =>
          let n := Z.of_nat (length (subscribers t)) in
          match strategy t with
          | BROADCAST => iterM (onMessage m) (subscribers t)
          | ROUND_ROBIN =>
              call_one t (roundRobinIndex t mod n) m ;;
              modify (on_subscriptions (<[topic_ m := mkTopic (subscribers t) (strategy t) (wrap64 (roundRobinIndex t + 1) mod n)]>))
          | RANDOM => call_one t (pick n) m
          end
      end
  end.

(** ** Workers *)

Context {Q : PriorityQueue MessageComparator}.

(** Where a worker is: before the test of the loop, before the mutex, between a test of the condition that failed and
    the wait (it holds the mutex), in the wait, with a message, at the end. *)
Inductive worker : Type :=
  | At_loop | At_lock | About_to_wait | In_wait (signalled : bool) | With_message (m : Message) | Finished.
(** Where the thread that calls [stop] is. *)
Inductive stopper : Set := Not_stopping | Flag_cleared | Joining | Stopped.

Record MessageQueue : Type := mkQueue {
  messages_ : pq; hub : Hub; running_ : bool; workers_ : gmap nat worker; stopping : stopper;
  published : list Message; processed : list Message; discarded : list Message; to_notify : nat }.
Definition set_messages (q : pq) (w : MessageQueue) : MessageQueue := mkQueue q (hub w) (running_ w) (workers_ w) (stopping w) (published w) (processed w) (discarded w) (to_notify w).
Definition set_hub (h : Hub) (w : MessageQueue) : MessageQueue := mkQueue (messages_ w) h (running_ w) (workers_ w) (stopping w) (published w) (processed w) (discarded w) (to_notify w).
Definition set_worker (i : nat) (a : worker) (w : MessageQueue) : MessageQueue := mkQueue (messages_ w) (hub w) (running_ w) (<[i := a]> (workers_ w)) (stopping w) (published w) (processed w) (discarded w) (to_notify w).
Definition set_stopping (r : bool) (s : stopper) (w : MessageQueue) : MessageQueue := mkQueue (messages_ w) (hub w) r (workers_ w) s (published w) (processed w) (discarded w) (to_notify w).
Definition add_published (m : Message) (w : MessageQueue) : MessageQueue := mkQueue (messages_ w) (hub w) (running_ w) (workers_ w) (stopping w) (published w ++ [m]) (processed w) (discarded w) (S (to_notify w)).
Definition add_processed (m : Message) (w : MessageQueue) : MessageQueue := mkQueue (messages_ w) (hub w) (running_ w) (workers_ w) (stopping w) (published w) (processed w ++ [m]) (discarded w) (to_notify w).
Definition add_discarded (l : list Message) (w : MessageQueue) : MessageQueue := mkQueue (messages_ w) (hub w) (running_ w) (workers_ w) (stopping w) (published w) (processed w) (discarded w ++ l) (to_notify w).
Definition notified_one (w : MessageQueue) : MessageQueue := mkQueue (messages_ w) (hub w) (running_ w) (workers_ w) (stopping w) (published w) (processed w) (discarded w) (pred (to_notify w)).
Definition wake (a : worker) : worker := match a with In_wait _ => In_wait true | a => a end.
Definition wake_all (w : MessageQueue) : MessageQueue := mkQueue (messages_ w) (hub w) (running_ w) (wake <$> workers_ w) (stopping w) (published w) (processed w) (discarded w) (to_notify w).

Definition size (w : MessageQueue) : Z := Z.of_nat (length (pq_list (messages_ w))).
Definition getTotalMessagesProcessed (w : MessageQueue) : Z := wrap64 (Z.of_nat (length (processed w))).
Definition getTotalMessagesPublished (w : MessageQueue) : Z := wrap64 (Z.of_nat (length (published w))).
Definition isRunning (w : MessageQueue) : bool := running_ w.

(** [while (!messages_.empty()) messages_.pop();] *)
Fixpoint pop_messages (fuel : nat) (q : pq) : pq :=
  match fuel with
  | O => q
  | S fuel' => match pq_top q with None => q | Some _ => pop_messages fuel' (pq_pop q) end
  end.
Definition clear (w : MessageQueue) : MessageQueue :=
  add_discarded (pq_list (messages_ w)) (set_messages (pop_messages (length (pq_list (messages_ w))) (messages_ w)) w).

(** Nobody holds the mutex of the queue. *)
Definition mutex_free (w : MessageQueue) : Prop := forall i, workers_ w !! i <> Some About_to_wait.

(** A worker that has the mutex and whose condition holds: it ends, or takes a message. *)
Definition proceed (i : nat) (w : MessageQueue) : MessageQueue :=
  if negb (running_ w) then set_worker i Finished w else
  match pq_top (messages_ w) with
  | None => set_worker i At_loop w
  | Some m => set_worker i (With_message m) (set_messages (pq_pop (messages_ w)) w)
  end.
(** The condition of the wait. *)
Definition condition (w : MessageQueue) : bool := bool_decide (pq_list (messages_ w) <> []) || negb (running_ w).

Inductive step : MessageQueue -> MessageQueue -> Prop :=
  | Step_loop w i : workers_ w !! i = Some At_loop -> step w (set_worker i (if running_ w then At_lock else Finished) w)
  | Step_lock w i : workers_ w !! i = Some At_lock -> mutex_free w -> step w (if condition w then proceed i w else set_worker i About_to_wait w)
  | Step_wait w i : workers_ w !! i = Some About_to_wait -> step w (set_worker i (In_wait false) w)
  | Step_wake w i s : workers_ w !! i = Some (In_wait s) -> mutex_free w -> step w (if condition w then proceed i w else set_worker i About_to_wait w)
  | Step_distribute w i m pick h : workers_ w !! i = Some (With_message m) -> (forall n, 0 < n -> 0 <= pick n < n) -> distributeMessage pick m (hub w) = Ok tt h ->
      step w (set_worker i At_loop (add_processed m (set_hub h w)))
  | Step_publish w m : mutex_free w -> step w (add_published m (set_messages (pq_push m (messages_ w)) w))
  | Step_notify_one w i : (0 < to_notify w)%nat -> workers_ w !! i = Some (In_wait false) -> step w (set_worker i (In_wait true) (notified_one w))
  | Step_notify_none w : (0 < to_notify w)%nat -> (forall i, workers_ w !! i <> Some (In_wait false)) -> step w (notified_one w)
  | Step_subscribe w topic s st : step w (set_hub (on_subscriptions (subscribe topic s st) (hub w)) w)
  | Step_unsubscribe w topic id : step w (set_hub (on_subscriptions (unsubscribe topic id) (hub w)) w)
  | Step_strategy w topic st : step w (set_hub (on_subscriptions (setDistributionStrategy topic st) (hub w)) w)
  | Step_clear w : mutex_free w -> step w (clear w)
  | Step_stop w : stopping w = Not_stopping -> step w (set_stopping false Flag_cleared w)
  | Step_stop_notify w : stopping w = Flag_cleared -> step w (set_stopping (running_ w) Joining (wake_all w))
  | Step_joined w : stopping w = Joining -> (forall i a, workers_ w !! i = Some a -> a = Finished) -> step w (set_stopping (running_ w) Stopped w).

Definition MessageQueue_new (worker_count : nat) : MessageQueue :=
  mkQueue pq_empty (mkHub ∅ []) true (gset_to_gmap At_loop (list_to_set (seq 0 worker_count))) Not_stopping [] [] [] 0.
Definition reachable (n : nat) (w : MessageQueue) : Prop := rtc step (MessageQueue_new n) w.

(** ** Publishers *)

Record Publisher : Type := mkPublisher { publisher_id_ : string; message_counter_ : Z }.
(** The message that [publish] makes, at time [now]. *)
Definition publish (topic : string) (data : T) (p : Priority) (now : Z) (pub : Publisher) : Message * Publisher :=
  (mkMessage (publisher_id_ pub +:+ "_" +:+ to_string (message_counter_ pub)) topic data now p,
   mkPublisher (publisher_id_ pub) (wrap64 (message_counter_ pub + 1))).
Fixpoint publishBatch (topic : string) (l : list (T * Z)) (p : Priority) (pub : Publisher) : list Message * Publisher :=
  match l with
  | [] => ([], pub)
  | (data, now) :: l' => let '(m, pub1) := publish topic data p now pub in let '(ms, pub2) := publishBatch topic l' p pub1 in (m :: ms, pub2)
  end.
End messages.
Arguments Message : clear implicits.

(** ** What the message queue promises

    Whatever threads do: no message is lost or handed out twice, subscriptions stay consistent, and round robin
    is fair. A stop may hang, though. *)

Local Close Scope string_scope.

Section props.
Context {T : Type} (react : ISubscriber -> Message T -> reaction) {Q : PriorityQueue (@MessageComparator T)}.
Abbreviation msg := (Message T).
Abbreviation distribute := (distributeMessage react).
(** No subscriber throws anything but exceptions of the standard library. *)
Context (tame : forall s m, react s m <> Throws_other).

(** ** Subscriptions *)

Definition is_topic (t : TopicSubscription) : Prop := subscribers t <> [] /\ NoDup (getId <$> subscribers t) /\ 0 <= roundRobinIndex t < 2 ^ 64.
Definition consistent (subs : gmap string TopicSubscription) : Prop := map_Forall (fun _ t => is_topic t) subs.

Lemma subscribe_consistent topic s st subs : consistent subs -> consistent (subscribe topic s st subs).
Proof.
  intros Hs. unfold subscribe. destruct (subs !! topic) as [t|] eqn:E.
  - destruct (existsb _ (subscribers t)) eqn:Ex; [done|]. apply map_Forall_insert_2; [|done]. destruct (Hs _ _ E) as (H1 & H2 & H3). split; [by destruct (subscribers t)|]. split; [|done]. cbn [subscribers]. rewrite fmap_app. cbn.
    apply NoDup_app. split; [done|]. split; [|by apply NoDup_singleton]. intros id Hid Hin%list_elem_of_singleton. subst id. apply list_elem_of_fmap in Hid as (x & Hx & Hin). apply (f_equal negb) in Ex. cbn in Ex. apply negb_true_iff in Ex.
    assert (Hex : existsb (fun x => String.eqb (getId x) (getId s)) (subscribers t) = true) by (apply existsb_exists; exists x; split; [by apply list_elem_of_In|]; rewrite Hx; apply String.eqb_refl). congruence.
  - apply map_Forall_insert_2; [|done]. split; [done|]. split; [apply NoDup_singleton|done].
Qed.
Lemma unsubscribe_consistent topic id subs : consistent subs -> consistent (unsubscribe topic id subs).
Proof.
  intros Hs. unfold unsubscribe. destruct (subs !! topic) as [t|] eqn:E; [|done]. destruct (Hs _ _ E) as (H1 & H2 & H3). destruct (filter _ (subscribers t)) as [|x l] eqn:Ef; [by apply map_Forall_delete|].
  apply map_Forall_insert_2; [|done]. split; [done|]. split; [|done]. cbn [subscribers]. rewrite <-Ef. eapply sublist_NoDup; [exact H2|]. apply fmap_sublist, sublist_filter.
Qed.
Lemma strategy_consistent topic st subs : consistent subs -> consistent (setDistributionStrategy topic st subs).
Proof. intros Hs. unfold setDistributionStrategy. destruct (subs !! topic) as [t|] eqn:E; [|done]. apply map_Forall_insert_2; [|done]. by destruct (Hs _ _ E) as (H1 & H2 & H3). Qed.

(** Subscribing and leaving, seen from outside. *)
Lemma subscribe_then_leave topic s st subs : subs !! topic = None -> unsubscribe topic (getId s) (subscribe topic s st subs) = subs.
Proof.
  intros E. unfold subscribe. rewrite E. unfold unsubscribe. rewrite lookup_insert_eq. cbn [subscribers]. rewrite filter_cons_False by (rewrite String.eqb_refl; by intros []). rewrite filter_nil. by rewrite delete_insert_id.
Qed.

(** ** Distribution *)

(** Who gets a message. *)
Definition recipients (pick : Z -> Z) (t : TopicSubscription) : list ISubscriber :=
  let n := Z.of_nat (length (subscribers t)) in
  match strategy t with
  | BROADCAST => subscribers t
  | ROUND_ROBIN => option_list (subscribers t !! Z.to_nat (roundRobinIndex t mod n))
  | RANDOM => option_list (subscribers t !! Z.to_nat (pick n))
  end.
Definition advance (t : TopicSubscription) : TopicSubscription :=
  match strategy t with
  | ROUND_ROBIN => mkTopic (subscribers t) ROUND_ROBIN (wrap64 (roundRobinIndex t + 1) mod Z.of_nat (length (subscribers t)))
  | _ => t
  end.

Lemma onMessage_ok m s (h : Hub) : onMessage react m s h = Ok tt (add_delivered s m h).
Proof. unfold onMessage. rewrite (bind_Ok (modify (add_delivered s m)) _ h tt (add_delivered s m h) eq_refl). pose proof (tame s m) as Ht. by destruct (react s m). Qed.
Lemma broadcast_ok m l (h : Hub) : iterM (onMessage react m) l h = Ok tt (mkHub (subscriptions_ h) (delivered h ++ ((fun s => (s, m)) <$> l))).
Proof.
  revert h. induction l as [|s l IH]; intros h; cbn [iterM fmap list_fmap]; [rewrite app_nil_r; by destruct h|]. rewrite (bind_Ok _ _ _ _ _ (onMessage_ok m s h)), IH. cbn. by rewrite <-app_assoc.
Qed.
Lemma call_one_ok t i m (h : Hub) : 0 <= i < Z.of_nat (length (subscribers t)) -> call_one react t i m h = Ok tt (mkHub (subscriptions_ h) (delivered h ++ ((fun s => (s, m)) <$> option_list (subscribers t !! Z.to_nat i)))).
Proof. intros Hi. unfold call_one. destruct (lookup_lt_is_Some_2 (subscribers t) (Z.to_nat i)) as [s Hs]; [lia|]. rewrite Hs. apply onMessage_ok. Qed.

Lemma distribute_ok pick m (h : Hub) : consistent (subscriptions_ h) -> (forall n, 0 < n -> 0 <= pick n < n) ->
  distribute pick m h = Ok tt (match subscriptions_ h !! topic_ m with
                                     | None => h
                                     | Some t => mkHub (<[topic_ m := advance t]> (subscriptions_ h)) (delivered h ++ ((fun s => (s, m)) <$> recipients pick t)) end).
Proof.
  intros Hc Hp. unfold distributeMessage. rewrite (bind_Ok get _ h h h eq_refl). destruct (subscriptions_ h !! topic_ m) as [t|] eqn:E; [|done]. destruct (Hc _ _ E) as (H1 & _ & H3).
  assert (Hn : 0 < Z.of_nat (length (subscribers t))) by (destruct (subscribers t); [done|cbn; lia]).
  transitivity (match strategy t with
          | BROADCAST => iterM (onMessage react m) (subscribers t)
          | ROUND_ROBIN => call_one react t (roundRobinIndex t mod Z.of_nat (length (subscribers t))) m ;;
              modify (on_subscriptions (<[topic_ m := mkTopic (subscribers t) (strategy t) (wrap64 (roundRobinIndex t + 1) mod Z.of_nat (length (subscribers t)))]>))
          | RANDOM => call_one react t (pick (Z.of_nat (length (subscribers t)))) m end h); [by destruct (subscribers t)|].
  unfold recipients, advance. destruct (strategy t) eqn:Es.
  - rewrite broadcast_ok. do 2 f_equal. by rewrite insert_id.
  - rewrite (bind_Ok _ _ _ _ _ (call_one_ok t _ m h (Z.mod_pos_bound _ _ Hn))). done.
  - rewrite call_one_ok by (by apply Hp). do 2 f_equal. by rewrite insert_id.
Qed.
Lemma advance_topic t : is_topic t -> is_topic (advance t).
Proof.
  intros (H1 & H2 & H3). unfold advance. destruct (strategy t); [done| |done]. split; [done|]. split; [done|]. cbn [roundRobinIndex subscribers].
  assert (Hn : 0 < Z.of_nat (length (subscribers t))) by (destruct (subscribers t); [done|cbn; lia]). pose proof (Z.mod_pos_bound (wrap64 (roundRobinIndex t + 1)) _ Hn). split; [lia|].
  unfold wrap64, u64_max in *. pose proof (Z.mod_pos_bound (roundRobinIndex t + 1) (2 ^ 64) ltac:(done)). pose proof (Z.mod_le ((roundRobinIndex t + 1) mod 2 ^ 64) (Z.of_nat (length (subscribers t)))). lia.
Qed.
(** Nobody gets a message twice. *)
Lemma recipients_nodup pick t : is_topic t -> NoDup (recipients pick t).
Proof.
  intros (_ & H2 & _). unfold recipients. destruct (strategy t); [by apply NoDup_fmap_1 in H2| |]; (destruct (_ !! _); [apply NoDup_singleton|apply NoDup_nil_2]).
Qed.

(** ** Round robin *)

(** The turns of [j] messages, beginning with number [r]. *)
Fixpoint turns (l : list ISubscriber) (r j : nat) : list ISubscriber :=
  match j with O => [] | S j' => option_list (l !! r) ++ turns l ((r + 1) mod length l) j' end.
Lemma turns_app l r a b : (r < length l)%nat -> turns l r (a + b) = (turns l r a ++ turns l ((r + a) mod length l) b)%list.
Proof.
  revert r. induction a as [|a IH]; intros r Hr; [by rewrite Nat.add_0_r, Nat.mod_small|]. cbn [Nat.add turns]. rewrite IH by (apply Nat.mod_upper_bound; lia). rewrite <-app_assoc, Nat.Div0.add_mod_idemp_l. do 3 f_equal. f_equal. lia.
Qed.
Lemma turns_segment l r j : (r + j <= length l)%nat -> turns l r j = take j (drop r l).
Proof.
  revert r. induction j as [|j IH]; intros r Hr; [done|]. cbn [turns]. destruct (lookup_lt_is_Some_2 l r) as [x Hx]; [lia|]. rewrite Hx, (drop_S l x r Hx). cbn [option_list take app]. f_equal.
  destruct j as [|j]; [done|]. rewrite Nat.mod_small by lia. rewrite IH by lia. by rewrite Nat.add_1_r.
Qed.
(** As many turns as there are subscribers: everybody once. *)
Lemma rr_turns_round l r : (r < length l)%nat -> turns l r (length l) ≡ₚ l.
Proof.
  intros Hr. replace (length l) with (length l - r + r)%nat by lia. rewrite turns_app by lia. rewrite turns_segment by lia. replace ((r + (length l - r)) mod length l)%nat with 0%nat by (replace (r + (length l - r))%nat with (1 * length l)%nat by lia; by rewrite Nat.Div0.mod_mul).
  rewrite turns_segment by lia. rewrite drop_0, (take_ge (drop r l)) by (rewrite length_drop; lia). rewrite Permutation_app_comm. by rewrite take_drop.
Qed.
Lemma rr_turns_rounds l r k : (r < length l)%nat -> turns l r (k * length l) ≡ₚ concat (replicate k l).
Proof.
  intros Hr. induction k as [|k IH]; [done|]. cbn [Nat.mul replicate concat]. rewrite turns_app by done. rewrite rr_turns_round by done. replace ((r + length l) mod length l)%nat with r; [by rewrite IH|].
  replace (r + length l)%nat with (r + 1 * length l)%nat by lia. rewrite Nat.Div0.mod_add. by rewrite Nat.mod_small.
Qed.

(** Messages of a topic whose strategy is round robin. *)
Lemma distribute_in_turn pick topic t ms (h : Hub) : consistent (subscriptions_ h) -> (forall n, 0 < n -> 0 <= pick n < n) -> subscriptions_ h !! topic = Some t -> strategy t = ROUND_ROBIN ->
  roundRobinIndex t + 1 < 2 ^ 64 -> Z.of_nat (length (subscribers t)) < 2 ^ 64 -> Forall (fun m : msg => topic_ m = topic) ms ->
  exists h', iterM (distribute pick) ms h = Ok tt h' /\ delivered h' = (delivered h ++ zip (turns (subscribers t) (Z.to_nat (roundRobinIndex t mod Z.of_nat (length (subscribers t)))) (length ms)) ms)%list.
Proof.
  intros Hc Hp Ht Hst Hi Hn Hms. revert h t Hc Ht Hst Hi Hn. induction Hms as [|m ms Hm Hms IH]; intros h t Hc Ht Hst Hi Hn; [exists h; split; [done|]; cbn; by rewrite app_nil_r|].
  destruct (Hc _ _ Ht) as (Hne & Hnd & H0). pose proof (distribute_ok pick m h Hc Hp) as Ed. rewrite Hm, Ht in Ed. set (h1 := mkHub _ _) in Ed.
  assert (Hlen : (0 < length (subscribers t))%nat) by (destruct (subscribers t); [done|cbn; lia]).
  assert (Hadv : advance t = mkTopic (subscribers t) ROUND_ROBIN ((roundRobinIndex t + 1) mod Z.of_nat (length (subscribers t)))) by (unfold advance; rewrite Hst; do 2 f_equal; apply Z.mod_small; unfold u64_max; lia).
  destruct (IH h1 (advance t)) as (h' & E & Hd).
  - apply map_Forall_insert_2; [by apply advance_topic|done].
  - apply lookup_insert_eq.
  - by rewrite Hadv.
  - rewrite Hadv. cbn [roundRobinIndex]. pose proof (Z.mod_pos_bound (roundRobinIndex t + 1) (Z.of_nat (length (subscribers t))) ltac:(lia)). lia.
  - by rewrite Hadv.
  - exists h'. split; [cbn [iterM]; by rewrite (bind_Ok _ _ _ _ _ Ed)|]. rewrite Hd. unfold h1. cbn [delivered]. rewrite <-app_assoc. f_equal. cbn [length turns]. rewrite Hadv. cbn [subscribers roundRobinIndex].
    pose proof (Z.mod_pos_bound (roundRobinIndex t) (Z.of_nat (length (subscribers t))) ltac:(lia)) as Hr. rewrite Z.mod_mod by lia.
    replace (Z.to_nat ((roundRobinIndex t + 1) mod Z.of_nat (length (subscribers t)))) with ((Z.to_nat (roundRobinIndex t mod Z.of_nat (length (subscribers t))) + 1) mod length (subscribers t))%nat
      by (rewrite <-(Nat2Z.id (_ mod length _)), Nat2Z.inj_mod, Nat2Z.inj_add, Z2Nat.id, Z.add_mod_idemp_l by lia; done).
    unfold recipients. rewrite Hst. destruct (lookup_lt_is_Some_2 (subscribers t) (Z.to_nat (roundRobinIndex t mod Z.of_nat (length (subscribers t))))) as [x Hx]; [lia|]. rewrite Hx. done.
Qed.

Lemma length_turns l r j : (r < length l)%nat -> length (turns l r j) = j.
Proof.
  revert r. induction j as [|j IH]; intros r Hr; [done|]. cbn [turns]. destruct (lookup_lt_is_Some_2 l r Hr) as [x Hx]. rewrite Hx. cbn. f_equal. apply IH. apply Nat.mod_upper_bound. lia.
Qed.

(** Round robin is fair: of any [k] times as many messages of a topic as it has subscribers, each subscriber gets exactly [k],
    wherever the index stands. *)
Theorem round_robin_fair pick topic t k ms (h : Hub) : consistent (subscriptions_ h) -> (forall n, 0 < n -> 0 <= pick n < n) -> subscriptions_ h !! topic = Some t -> strategy t = ROUND_ROBIN ->
  roundRobinIndex t + 1 < 2 ^ 64 -> Z.of_nat (length (subscribers t)) < 2 ^ 64 -> Forall (fun m : msg => topic_ m = topic) ms -> length ms = (k * length (subscribers t))%nat ->
  exists h' new, iterM (distribute pick) ms h = Ok tt h' /\ delivered h' = (delivered h ++ new)%list /\ new.*2 = ms /\ new.*1 ≡ₚ concat (replicate k (subscribers t)).
Proof.
  intros Hc Hp Ht Hst Hi Hn Hms Hk. destruct (distribute_in_turn pick topic t ms h Hc Hp Ht Hst Hi Hn Hms) as (h' & E & Hd). destruct (Hc _ _ Ht) as (Hne & _ & H0).
  assert (Hr : (Z.to_nat (roundRobinIndex t mod Z.of_nat (length (subscribers t))) < length (subscribers t))%nat).
  { assert (0 < length (subscribers t))%nat by (destruct (subscribers t); [done|cbn; lia]). pose proof (Z.mod_pos_bound (roundRobinIndex t) (Z.of_nat (length (subscribers t))) ltac:(lia)). lia. }
  eexists h', _. split; [exact E|]. split; [exact Hd|]. pose proof (length_turns (subscribers t) _ (length ms) Hr) as Hl.
  split; [apply snd_zip; lia|]. rewrite fst_zip by lia. rewrite Hk. by apply rr_turns_rounds.
Qed.

(** ** All threads *)

(** The messages that workers hold. *)
Definition message_of (a : worker) : list msg := match a with With_message m => [m] | _ => [] end.
Definition held (ws : gmap nat worker) : list msg := map_to_list ws ≫= (fun p => message_of p.2).
Lemma held_insert ws i a : held (<[i := a]> ws) ≡ₚ message_of a ++ held (delete i ws).
Proof. unfold held. rewrite <-insert_delete_eq, map_to_list_insert by apply lookup_delete_eq. done. Qed.
Lemma held_split ws i a : ws !! i = Some a -> held ws ≡ₚ message_of a ++ held (delete i ws).
Proof. intros H. rewrite <-(insert_id ws i a H) at 1. apply held_insert. Qed.
(** A worker that neither had nor gets a message. *)
Lemma held_same ws i a b : ws !! i = Some a -> message_of a = message_of b -> held (<[i := b]> ws) ≡ₚ held ws.
Proof. intros H E. by rewrite held_insert, (held_split ws i a H), E. Qed.
Lemma held_fmap f ws : (forall a, message_of (f a) = message_of a) -> held (f <$> ws) ≡ₚ held ws.
Proof.
  intros Hf. unfold held. rewrite map_to_list_fmap. induction (map_to_list ws) as [|[i a] l IH]; [done|]. cbn. rewrite Hf. by apply Permutation_app.
Qed.

(** Every message that was published is waiting, held by a worker, processed or discarded. *)
Definition conserved (w : MessageQueue) : Prop := published w ≡ₚ discarded w ++ pq_list (messages_ w) ++ held (workers_ w) ++ processed w.
(** What was delivered: each processed message to a group of subscribers, nobody twice. *)
Definition delivered_once (w : MessageQueue) : Prop := exists groups, length groups = length (processed w) /\ Forall (fun g : list ISubscriber => NoDup g) groups /\
  delivered (hub w) = concat (zip_with (fun (m : msg) g => (fun s => (s, m)) <$> g) (processed w) groups).
Record sound (w : MessageQueue) : Prop := mkSound { s_conserved : conserved w; s_consistent : consistent (subscriptions_ (hub w)); s_delivered : delivered_once w }.

(** Steps that move no message. *)
Lemma sound_worker w i a b : sound w -> workers_ w !! i = Some a -> message_of a = message_of b -> sound (set_worker i b w).
Proof. intros [H1 H2 H3] Hi E. split; [|exact H2|exact H3]. unfold conserved in *. cbn. by rewrite (held_same _ i a b Hi E). Qed.
Lemma sound_proceed w i a : sound w -> workers_ w !! i = Some a -> message_of a = [] -> sound (proceed i w).
Proof.
  intros Hs Hi Ha. unfold proceed. destruct (running_ w); cbn [negb]; [|by eapply sound_worker]. destruct (pq_top (messages_ w)) as [m|] eqn:E; [|by eapply sound_worker]. destruct (pq_top_some _ _ E) as [Hp _].
  destruct Hs as [H1 H2 H3]. split; [|exact H2|exact H3]. unfold conserved in *. cbn. rewrite H1, Hp, held_insert, (held_split _ i a Hi), Ha. solve_Permutation.
Qed.
Lemma pop_messages_empty q : pq_list (pop_messages (length (pq_list q)) q) = [].
Proof.
  remember (length (pq_list q)) as n eqn:Hn. revert q Hn. induction n as [|n IH]; intros q Hn; cbn [pop_messages]; [by apply length_zero_iff_nil|]. destruct (pq_top q) as [m|] eqn:E.
  - destruct (pq_top_some _ _ E) as [Hp _]. apply Permutation_length in Hp. cbn in Hp. apply IH. lia.
  - by apply pq_top_none.
Qed.
Lemma sound_hub w h : sound w -> delivered h = delivered (hub w) -> consistent (subscriptions_ h) -> sound (set_hub h w).
Proof. intros [H1 H2 (gs & H3 & H4 & H5)] Hd Hc. split; [exact H1|exact Hc|]. exists gs. split; [exact H3|]. split; [exact H4|]. cbn. by rewrite Hd. Qed.
Lemma sound_distribute w i m pick h : sound w -> workers_ w !! i = Some (With_message m) -> (forall n, 0 < n -> 0 <= pick n < n) -> distribute pick m (hub w) = Ok tt h -> sound (set_worker i At_loop (add_processed m (set_hub h w))).
Proof.
  intros [H1 H2 (gs & H3 & H4 & H5)] Hi Hp E. rewrite (distribute_ok pick m _ H2 Hp) in E. injection E as <-. split.
  - unfold conserved in *. cbn. rewrite H1, held_insert, (held_split _ i _ Hi). cbn. solve_Permutation.
  - cbn. destruct (subscriptions_ (hub w) !! topic_ m) as [t|] eqn:Et; [|done]. apply map_Forall_insert_2; [|done]. apply advance_topic. by eapply H2.
  - exists (gs ++ [match subscriptions_ (hub w) !! topic_ m with Some t => recipients pick t | None => [] end]). cbn [processed set_worker add_processed hub set_hub]. split; [rewrite !length_app; cbn; lia|]. split.
    + apply Forall_app. split; [done|]. apply Forall_singleton. destruct (subscriptions_ (hub w) !! topic_ m) as [t|] eqn:Et; [apply recipients_nodup; by eapply H2|apply NoDup_nil_2].
    + rewrite zip_with_app by done. rewrite concat_app, <-H5. cbn. rewrite app_nil_r. destruct (subscriptions_ (hub w) !! topic_ m); [done|]. cbn. by rewrite app_nil_r.
Qed.

Lemma pubsub_step_sound w w' : sound w -> step react w w' -> sound w'.
Proof.
  intros Hs Hstep. destruct Hstep as [w i Hi|w i Hi Hm|w i Hi|w i s Hi Hm|w i m pick h Hi Hp Hd|w m Hm|w i Hn Hi|w Hn Hi|w topic s st|w topic id|w topic st|w Hm|w Hst|w Hst|w Hst Hj].
  - eapply sound_worker; [done|exact Hi|]. by destruct (running_ w).
  - destruct (condition w); [by eapply sound_proceed|by eapply sound_worker].
  - by eapply sound_worker.
  - destruct (condition w); [by eapply sound_proceed|by eapply sound_worker].
  - by eapply sound_distribute.
  - destruct Hs as [H1 H2 H3]. split; [|exact H2|exact H3]. unfold conserved in *. cbn. rewrite H1, pq_list_push. solve_Permutation.
  - eapply sound_worker; [|exact Hi|done]. by destruct Hs.
  - by destruct Hs.
  - apply sound_hub; [done|done|]. apply subscribe_consistent, Hs.
  - apply sound_hub; [done|done|]. apply unsubscribe_consistent, Hs.
  - apply sound_hub; [done|done|]. apply strategy_consistent, Hs.
  - destruct Hs as [H1 H2 H3]. split; [|exact H2|exact H3]. unfold conserved in *. cbn. rewrite H1, pop_messages_empty. solve_Permutation.
  - by destruct Hs.
  - destruct Hs as [H1 H2 H3]. split; [|exact H2|exact H3]. unfold conserved in *. cbn. rewrite held_fmap; [exact H1|]. by intros [].
  - by destruct Hs.
Qed.
Lemma initial_sound n : sound (MessageQueue_new n).
Proof.
  split.
  - unfold conserved. cbn. rewrite pq_list_empty. unfold held. set (ws := gset_to_gmap At_loop _). assert (H : Forall (fun p => message_of p.2 = []) (map_to_list ws)).
    { apply Forall_forall. intros [i a] Hin%elem_of_map_to_list. apply lookup_gset_to_gmap_Some in Hin as [_ <-]. done. }
    induction H as [|[i a] l Ha _ IH]; [done|]. cbn in *. by rewrite Ha.
  - apply map_Forall_empty.
  - by exists [].
Qed.
Lemma pubsub_reachable_sound n w : reachable react n w -> sound w.
Proof. intros Hrun. pose proof (initial_sound n) as H0. revert H0. induction Hrun as [|w1 w2 w3 Hstep _ IH]; [done|]. intros H0. apply IH. by eapply pubsub_step_sound. Qed.

End props.

(** ** Examples *)

Definition message_queue {T} : PriorityQueue (@MessageComparator T).
Proof.
  apply list_priority_queue; unfold MessageComparator; intros; repeat match goal with |- context [negb (?x =? ?y)] => destruct (Z.eqb_spec x y) | H : context [negb (?x =? ?y)] |- _ => destruct (Z.eqb_spec x y) end; cbn [negb] in *; lia.
Defined.

Section examples.
#[local] Instance example_messages : PriorityQueue (@MessageComparator string) := message_queue.
Definition calm (_ : ISubscriber) (_ : Message string) : reaction := Finishes.
Abbreviation start := (MessageQueue_new (T := string)).

(** Stopping may hang: the only worker has seen that there is nothing to do, and is about to wait; [stop] takes no mutex, clears the flag and
    notifies before the worker waits. Now the worker waits for ever, and [stop] for the worker. *)
Lemma stop_hangs : exists w, reachable calm 1 w /\ stopping w = Joining /\ isRunning w = false /\ workers_ w = {[0%nat := In_wait false]} /\ to_notify w = 0%nat.
Proof.
  eexists. split; [|split; [|split; [|split]]].
  - eapply rtc_l; [eapply (Step_loop calm (start 1) 0); reflexivity|]. eapply rtc_l; [eapply (Step_lock calm _ 0); [reflexivity|]|].
    { intros i. destruct (decide (i = 0%nat)) as [->|Hi]; [done|]. cbn. rewrite lookup_insert_ne by done. rewrite (proj2 (lookup_gset_to_gmap_None _ _ _)); [done|]. set_solver by lia. }
    eapply rtc_l; [eapply (Step_stop calm); reflexivity|]. eapply rtc_l; [eapply (Step_stop_notify calm); reflexivity|]. eapply rtc_l; [eapply (Step_wait calm _ 0); vm_compute; reflexivity|]. apply rtc_refl.
  - reflexivity.
  - reflexivity.
  - vm_compute. reflexivity.
  - reflexivity.
Qed.

(** A worker that has taken a message. *)
Definition hello : Message string := mkMessage "p_0" "news" "hello" 5 HIGH.
Lemma busy_reachable : exists w, reachable calm 1 w /\ workers_ w !! 0%nat = Some (With_message hello) /\ published w = [hello].
Proof.
  eexists. split; [|split].
  - eapply rtc_l; [eapply (Step_subscribe calm (start 1) "news" (mkSubscriber 1 "a") BROADCAST)|]. eapply rtc_l; [eapply (Step_publish calm _ hello)|].
    { intros i. destruct (decide (i = 0%nat)) as [->|Hi]; [done|]. cbn. rewrite (proj2 (lookup_gset_to_gmap_None _ _ _)); [done|]. set_solver by lia. }
    eapply rtc_l; [eapply (Step_loop calm _ 0); reflexivity|]. eapply rtc_l; [eapply (Step_lock calm _ 0); [reflexivity|]|apply rtc_refl].
    { intros i. destruct (decide (i = 0%nat)) as [->|Hi]; [done|]. cbn. rewrite lookup_insert_ne by done. rewrite (proj2 (lookup_gset_to_gmap_None _ _ _)); [done|]. set_solver by lia. }
  - reflexivity.
  - reflexivity.
Qed.
Lemma calm_tame s m : calm s m <> Throws_other.
Proof. done. Qed.


(** Two subscribers, four messages. *)
Definition fair_hub : Hub := mkHub (T := string) {["news" := mkTopic [mkSubscriber 1 "a"; mkSubscriber 2 "b"] ROUND_ROBIN 5]} [].
Lemma round_robin_fair_witness : exists h' new, iterM (distributeMessage calm (fun _ => 0)) (replicate 4 hello) fair_hub = Ok tt h' /\ delivered h' = new /\
  new.*1 ≡ₚ [mkSubscriber 1 "a"; mkSubscriber 2 "b"; mkSubscriber 1 "a"; mkSubscriber 2 "b"].
Proof.
  destruct (round_robin_fair calm calm_tame (fun _ => 0) "news" (mkTopic [mkSubscriber 1 "a"; mkSubscriber 2 "b"] ROUND_ROBIN 5) 2 (replicate 4 hello) fair_hub) as (h' & new & E & Hd & _ & Hp); try done.
  - apply map_Forall_singleton. split; [done|]. split; [|done]. cbn. apply NoDup_cons. split; [set_solver|apply NoDup_singleton].
  - by repeat constructor.
  - by exists h', new.
Defined.
End examples.
